(* ===== verification/_CoqProject ===== *)
-Q . S2P
Prelude.v
Platform.v
Buf.v
Int.v
Uart.v
Mux.v
Rpc.v
RemoteFs.v
RfsServer.v
RfsClient.v
RomFs.v
Devman.v
Salloc.v
Xmodem.v
Vtmr.v
BitArray.v
Psock.v
UipSum.v
Uip.v
UipInv.v
UipOut.v
UipEcho.v
UipArp.v
UipSend.v
UipTotal.v
UipTcp.v
UipRun.v
UipStream.v
UipDemo.v
UipLoop.v
UipFrames.v
LoopDemo.v
Wire.v
Dhcp.v
DhcpSpec.v
Resolv.v
ResolvSpec.v
Net.v
NetInput.v
Telnet.v
Console.v
Rotable.v
LineEdit.v
LineSpec.v
Term.v
Shell.v
ShellSpec.v
ShellRun.v
Mmcfs.v
Adc.v
AdcSmooth.v
Exchange.v
LuaNum.v
LuaOp.v
LuaCheck.v
LuaDump.v
LuaUndump.v
LuaChunk.v
LuaApi.v
LuaTable.v
TableChain.v
TableSize.v
TableResize.v
TableGrow.v
TableSpec.v
TableNext.v
TableDemo.v
LuaRpc.v
LuaRpcWire.v
LuaRpcValues.v
LuaRpcNames.v
LuaRpcCalls.v
LuaRpcRun.v
LuaRpcErrors.v
Httpd.v
HttpInput.v
HttpOutput.v
StaticFile.v
WebPage.v
WebAnswers.v
