(* ===== verification/Prelude.v ===== *)
(** * eLua Web Server: a verification library

    eLua runs Lua on microcontrollers; this repository adds a web server whose pages contain Lua scripts.  The library
    models the C code between the hardware drivers and the Lua core, the TCP/IP stack included, and the bytecode that the
    compiler on the host gives to the interpreter on the board; it proves what makes each part correct, and what a reader
    of the code would not expect of it.

    ** The parts of the program and how they interact

    - Bytes from the serial line arrive in interrupts: [cmn_rx_handler] puts them into the ring buffers, or, when the
      serial line is shared, into the buffer of the virtual UART that is selected by service identifiers.  A program
      on the host ([mux_src]) is the other end of that protocol.
    - The same line carries remote procedure calls: the remote file system is a device whose functions send packets to
      a server on the host, which calls the operating system and answers.
    - The system calls of the C library go to the device of the path's prefix: the read-only file system in flash, the
      remote file system, the console.
    - The web server is an application of the uIP stack.  Its protothreads are called for each event of a connection;
      the input thread reads the request, the output thread sends the headers and the file, and runs the scripts of a
      page; what a script writes to the console goes to the connection's write buffer and from there to the client.
    - The stack itself has no operating system below it: the Ethernet interrupt runs a main loop, which gives frames to ARP
      and to [uip_process], runs the timers of the connections, and sends what they leave in the packet buffer.
    - At the start the DHCP client, an application of UDP in the same loop, gets the board its addresses; names are
      resolved by another.
    - Without the web server, the application of the stack implements blocking network services for Lua, and the console
      may be a TELNET connection.  On a serial line the console is read by [std_read], or by a line editor with a
      history on an ANSI terminal.
    - Two interpreters call each other's functions over a serial line: a handle's fields are helpers, whose call, get and
      assignment are requests to the other side's dispatcher, which looks the names up and calls by the interface of Lua to C.
    - A Lua program may be compiled on another machine: the dump is written for the target's byte order and numbers, and
      the loader on the board checks the bytecode before the interpreter runs it.
    - The tables of the interpreter are an array and a hash part; this repository rehashes them in place, since the boards
      have no room for two copies.  The collector takes keys out of them, also during a traversal.
    - Analog samples arrive in interrupts too: they go through the ring buffers and a smoothing filter.

    ** Which file models what

    Platform.v: the constants of a build that the other parts read (a parameter, class [PlatformConf]).
    Buf.v: src/buf.c, the ring buffers; their contract is a queue ([buf_rep], [buf_holds]).
    Int.v: src/elua_int.c and the interrupt dispatch of src/common.c: the queue, the flags, the hook that calls the
    Lua handlers, the C handlers.
    Uart.v: src/common_uart.c: receiving with a timeout, and the device's half of the serial multiplexer.
    Mux.v: mux_src/main.c: the host's half, and both halves together.
    Rpc.v: src/eluarpc.c: the packets of the remote calls.
    RemoteFs.v: src/remotefs/remotefs.c: the messages of the remote file system; the translation of flags of
    src/remotefs/elua_os_io.c and rfs_server_src/os_io_posix.c.
    RfsServer.v: rfs_server_src: the handlers of the requests, the dispatch and the transports of packets.
    RfsClient.v: src/remotefs/client.c and src/remotefs/elua_rfs.c: the calls, the device functions, and both ends
    together.
    RomFs.v: src/romfs.c, the read-only file system; its contract is the list of files that the image encodes.
    Devman.v: src/newlib/devman.c and src/newlib/stubs.c: the registered devices, the system calls and the heap.
    Salloc.v: src/salloc.c, the allocator; its contract is the list of blocks.
    Xmodem.v: src/xmodem.c, the receiver.
    Vtmr.v: src/common_tmr.c, the virtual timers.
    BitArray.v: src/modules/bitarray.c.
    Psock.v: src/uip/psock.c (the protosockets), [uip_send] and the code of src/uip/uip.c that turns what an
    application leaves into a segment; a connection as the sequence of its events.
    Uip.v: src/uip/uip.c, the whole of [uip_process]; UipSum.v: its checksums and sequence numbers; UipInv.v: the invariant;
    UipOut.v, UipEcho.v: what leaves the stack; UipSend.v: an application of Psock.v on the stack; UipTotal.v: the datagrams
    at which the stack returns; UipTcp.v, UipRun.v, UipStream.v: a connection of the stack is a connection of Psock.v, so
    that what is proved of an application there holds on the stack.
    UipArp.v: src/uip/uip_arp.c.  UipLoop.v: the main loops of src/elua_uip.c and src/webserver/httpd-uip.c; UipFrames.v: what
    they put on the wire.  UipDemo.v and LoopDemo.v apply the theorems to a small build.
    Wire.v: messages that are written into a buffer and read from it, for the two parts that follow.
    Dhcp.v: src/uip/dhcpc.c, with its connection in the table of the stack; its theorems are in DhcpSpec.v.  Resolv.v:
    src/uip/resolv.c, and [elua_net_lookup] and [elua_uip_udp_appcall], the application of both, of src/elua_uip.c; its
    theorems are in ResolvSpec.v.
    Net.v: src/elua_uip.c, the network services on the connection of Psock.v; NetInput.v: what they receive; Telnet.v: the
    console's connection.
    Console.v: src/newlib/genstd.c and src/newlib/stdtcp.c, the standard streams.
    LineEdit.v: src/linenoise.c; its contract, in LineSpec.v, is the text left and right of the cursor.
    Term.v: src/term.c, with the ANSI terminal it writes to.
    Shell.v: src/shell.c, on the line editor, the file receiver and the device manager; ShellSpec.v: the words of a line,
    with its quotes, and the proof that the shell's loops over the line find them; ShellRun.v: what is typed is run.
    Mmcfs.v: src/mmcfs.c, the file system of memory cards, on FatFs.
    Adc.v: src/elua_adc.c; AdcSmooth.v: its smoothing filter.
    Rotable.v: src/lua/lrotable.c and its callers in src/lua/ltable.c, the tables in flash memory.
    Exchange.v: inc/cexcept.h, and programs that exchange bytes as trees, alone ([steps], [run]) and side by side ([net]).
    LuaNum.v: the numbers of Lua on machines of both byte orders, with integers or doubles.
    LuaOp.v: src/lua/lopcodes.c, the instructions and the prototype of a function; LuaCheck.v: the checker of
    src/lua/ldebug.c and, as its contract, the steps of the interpreter within a function; LuaDump.v: src/lua/ldump.c;
    LuaUndump.v: src/lua/lundump.c and src/lua/lzio.c; LuaChunk.v: both together.
    LuaApi.v: the part of src/lua that the remote calls use: the stack, tables, fields, protected calls, error messages.
    LuaTable.v: src/lua/ltable.c, and what src/lua/lgc.c does to the entries of a table; a pointer into a table is a [slot].
    TableChain.v: the chains of nodes ([chains], the invariant), and how a key gets a place; TableSize.v: the best size of
    the array; TableResize.v: the resize in place; TableGrow.v: searches, and [newkey] with its rehash; TableSpec.v: a
    table is a map from keys to values; TableNext.v: traversal and length; TableDemo.v applies them.
    LuaRpc.v: src/modules/luarpc.c and src/luarpc_elua_uart.c, both sides; LuaRpcWire.v (numbers and negotiation),
    LuaRpcValues.v (values: the tree of a value is [data]), LuaRpcNames.v, LuaRpcCalls.v (one side's part of a request),
    LuaRpcRun.v (both sides together) and LuaRpcErrors.v (any input) hold its theorems.
    Httpd.v: src/webserver/httpd.c and httpd-fs.c, and [uip_write] of src/newlib/genstd.c; HttpInput.v, HttpOutput.v,
    StaticFile.v, WebPage.v and WebAnswers.v hold its theorems, from the parts of a thread to whole connections.

    A function of the C code is a function here, of the same name where Rocq allows it: the state that it changes is an
    argument and a part of the result, a loop is a [Fixpoint] (over the data where it is structural), and [None] is
    what C leaves undefined, such as an access outside an object.  A function that returns an error code returns it
    here.  Integers are [Z] with the casts of the code written out ([u8], [u16], [u32], [s32]); memory is the list of
    its bytes ([mem], [ld], [st], [mread], [mwrite] of this file).

    ** What the theorems show

    - Transport: what the device sends on a virtual UART arrives at the host, and back, escapes and service switches
      included ([sermux_device_to_host], [sermux_host_to_device]), and a receiver that lost its service recovers
      ([sermux_resync]).
    - Buffers and interrupts: a buffer is a queue, first in, first out until a write finds it full ([buf_refines_queue]);
      while no write does, also when a handler interrupts the reader between any two steps ([buf_spsc_fifo]); no
      interrupt is lost ([int_no_lost_wakeup]).
    - Remote calls: what the writer of a packet was given the reader gets ([rpc_round_trip]); the calls of the remote
      file system do on the server's system what they are called for ([rfs_open_end_to_end],
      [rfs_write_r_writes_all], [rfs_read_r_reads_all], [rfs_close_lseek_end_to_end]).
    - Remote calls of Lua, between machines of any byte order and kind of number, in every interleaving of both sides: a
      connection agrees on a format ([luarpc_connects]); values arrive as they are on the other machine, integers within
      the format's range unchanged ([luarpc_value_crosses], [luarpc_integers_cross]); a call calls once and returns the
      results ([luarpc_call_runs]), a get and an assignment read and change the field ([luarpc_get_runs],
      [luarpc_newindex_runs]), a call of what is no function is an error of the caller ([luarpc_undefined_call]).  What a
      request does on a connection follows from how its command ends: errors are counted, and the connection closed or the
      server stopped as the code says ([luarpc_request_contained]); a Lua error of a command passes all handlers, and there
      are requests with which a client ends the server in this way ([luarpc_server_dies]).
    - Files: the read-only file system implements the list of files of its image ([romfs_open_finds],
      [romfs_file_operations], [romfs_dir_lists_files]); the system calls reach the device of the prefix
      ([dm_open_routes]);
      the descriptors of the memory card are counted and kept apart as long as the calls are for open descriptors and
      the paths fit the buffer ([mmcfs_descriptors]; a path that does not overflows it, [mmcfs_long_path]).
    - Memory: the allocator takes the best block of the first space that has one, keeps its blocks apart and merges free
      ones ([smalloc_spec], [sfree_spec], [salloc_init]); the heap's blocks are disjoint ([sbrk_blocks_disjoint]).
    - The web server, which is the whole of [httpd_appcall] with its table of clients and its timer ([httpd]): for any
      segmentation of the request and any events that the timer allows ([patient]: fewer than twenty polls in a row; the
      twentieth aborts, [web_polls_abort]), with windows of the peer that leave the maximum segment size as it is, the client
      gets the headers and the page, each segment once, with the output of the scripts in its place ([page_served],
      [script_served]); the name and the parameters are what the request says ([request_parsed], [params_decode_query]);
      static files are sent whole unless a segment is retransmitted, and then what the client gets is exactly the packet
      buffer's content ([file_served], [missing_served]).
    - The stack: at every event from which it returns its invariant holds, and it returns at every tick and request and for
      every datagram that fits the buffer and whose lengths agree, with options of a SYN as RFC 793 has them ([event_wf],
      [uip_process_keeps]).  Without these conditions it may read behind a packet, or not leave the loop over the options
      ([syn_options_hang]).  What it sends has correct protocols, lengths and checksums, but for the reply to an echo request
      of zeros ([uip_output_valid], [ping_of_zeros]), on the wire as well ([mainloop_frames_valid]).  A segment of an
      established connection, without options or flags other than ACK and PSH, or a tick, is an event of Psock.v or none, and is
      answered as such ([segment_refines], [connection_refines]); the peer's stream reaches the application in order and once
      ([stream_in_order]); a silent peer is given up ([silent_peer_closed]).  Addresses are resolved and forgotten in time
      ([arp_resolves], [arp_ages]).
    - DHCP and names: options are read as the list that they encode ([options_parsed]); with a server that answers, the
      client's messages go to port 67 of the broadcast address and the board gets the address of the ACK and the netmask,
      router and name server of the options ([dhcp_configures]), with none it asks with growing delays and gives up
      ([dhcp_gives_up]); a name is resolved to the address of the answer's first record of type A ([name_resolves]), or
      given up after its retries ([name_given_up]).
    - Compiled programs: a chunk that one machine dumps is loaded by another as the same function, however the input is cut
      into blocks ([chunk_crosses]); a chunk that was cut short is refused ([chunk_cut_refused]); what is loaded has passed
      the checker ([loaded_chunk_checked]); the checker ends on every input ([symbexec_total]), and code that it accepts uses
      only its own registers, constants, upvalues and instructions, in what a closure captures too ([checked_code_safe]).
    - Tables: whatever is assigned, grown and collected, in any order, a table gives for every key the value that was
      assigned last ([table_implements_map]); a rehash loses nothing and takes the best size for the array
      ([rehash_is_best]); a loop over a table that clears fields while the collector passes ends, and comes once to every
      field that stays ([traversal_complete]); the length of a table is a boundary ([getn_boundary]).
    - Network services: what a program sends is delivered in segments, once and in order, while the windows of the peer leave
      the maximum segment size as it is ([net_send_delivers]; with another window it is not, [net_send_narrow_window] and
      [net_send_wide_window]); what it receives is the part of the stream that it asked for ([net_recvbuf_reads]).
    - Console: a line that is typed is read as it was edited and shown ([console_reads_line]); the line editor does what
      an editor of a text with a cursor does, in its buffers, for characters and the keys that it is made for ([typed]: for
      others, such as tab, it calls isprint with a code that is no character) ([line_editor_refines]); TELNET input and
      output are decoded and encoded ([telnet_input_decodes], [telnet_send_delivers]).
    - Shell: whatever is typed of these keys, the shell stays in its arrays and goes on ([shell_start_total]); the arguments
      of a command arrive as they were typed ([shell_lua_typed]); a received program is run without the padding of the
      transfer ([shell_recv_runs]); a copy has the contents of the original ([shell_cp_copies]).
    - Others: the smoothing filter is a mean ([adc_moving_average]); a loop over a read-only table ends and visits every
      entry ([rotable_traversed]); virtual timers fire once per period ([vtmr_match_int_fires]); files received with
      XMODEM are whole ([xmodem_receive_ok]).
    - Where the code does not do what it means to, a theorem or an example states what it does
      ([psock_send_skips_segments], [buf_write_full_overwrites], [dm_unregister_loses_last] and others).

    ** Fuel

    Loops that are not structural take fuel.  Where the code determines the bound it is computed in the definition from
    the state at the call ([in_fuel]: the number of bytes to read; [out_send]: the number of bytes to send) and the
    theorems prove a result; elsewhere the fuel is an argument and the theorems say how much is enough (for
    [handle_elua_tags], more than the length of the page; for [write_variable] and [read_variable], more than the depth and
    the length of the value, [rpc_server] runs for as many requests).  In the stack
    the loop over the options of a SYN has no bound in the code: 41 is enough for options that are well-formed ([options_wf],
    [event_wf]).  The loops over labels and names are bounded by the packet, the search for a free port by the number of ports;
    the checker's loops by the length of the code; [LoadFunction] recurs to the depth that the code allows, and the DHCP
    client's thread gets more turns in a call than it has points to wait at.  In a table a chain has at most as many nodes as
    the hash part; [newkey] calls itself at most once, after a rehash ([depth]); doubling and halving take at most as many
    steps as an integer has bits; that no bound is reached is a part of [table_implements_map] and [getn_boundary].  Waiting for the hardware is a parameter of the model.

    ** What is not modelled, and why

    - The rest of the Lua core (compiler, interpreter, collector, libraries), dlmalloc and FatFs are third-party code: they
      are parameters (classes such as [LuaCore], [FileSystem], [Posix]), or nothing here depends on them.
    - Of the stack: what the boards do not compile (reassembly, urgent data, IP version 6, statistics, splitting of
      segments, forwarding).  The protothreads of DHCP and of the resolver are run on the datagrams of their own connections; the
      call of both for every UDP connection is [elua_uip_udp_appcall].
    - The drivers of the platforms and their headers only access registers.
    - The modules that pass Lua arguments to platform functions and src/modules/lpack.c are not modelled.
    - Of the remote calls of Lua: the transport of desktop builds (src/luarpc_desktop_serial.c), the registry that keeps
      parents alive, and what the interpreter does in a call (class [LuaVM]).
    - Of the tables: their metatables, the write barrier and the marks of the collector; memory does not run out, and an
      address holds objects of one type for as long as a dead key has it.
    - Option parsing and the opening of ports and sockets in the programs of the host are input and output only. *)
From stdpp Require Export base list numbers option strings gmap relations.
From Stdlib Require Export ZArith Lia.
#[global] Open Scope Z_scope.

(** ** Machine words

    A w-bit unsigned C integer is a [Z] in [0, 2^w); the casts of the
    sources are written out as the functions below. *)

Definition u8 (z : Z) : Z := z mod 256.

Definition u16 (z : Z) : Z := z mod 65536.

Definition u32 (z : Z) : Z := z mod 4294967296.

Definition u64 (z : Z) : Z := z mod 18446744073709551616.

Definition s8 (z : Z) : Z := if u8 z <? 128 then u8 z else u8 z - 256.

Definition s16 (z : Z) : Z := if u16 z <? 32768 then u16 z else u16 z - 65536.

Definition s32 (z : Z) : Z := if u32 z <? 2147483648 then u32 z else u32 z - 4294967296.

(** A byte string: every element is the value of an [unsigned char]. *)
Definition byte_ok (z : Z) : Prop := 0 <= z < 256.

Definition bytes_ok (l : list Z) : Prop := Forall byte_ok l.

Lemma bytes_ok_one d : byte_ok d → bytes_ok [d].
Proof. intros. apply Forall_singleton. done. Qed.

Lemma bytes_ok_app a b : bytes_ok (a ++ b) ↔ bytes_ok a ∧ bytes_ok b.
Proof. apply Forall_app. Qed.

(** A property of all bytes that evaluation decides. *)
Lemma byte_forall (P : Z → bool) :
  forallb P (seqZ 0 256) = true → ∀ d, byte_ok d → P d = true.
Proof.
  intros H d Hd. rewrite forallb_forall in H. apply H.
  apply list_elem_of_In, elem_of_seqZ. unfold byte_ok in Hd. lia.
Qed.

(** C's truth value of an integer expression. *)
Definition cbool (b : bool) : Z := if b then 1 else 0.

Definition ctrue (z : Z) : bool := negb (z =? 0).

Create HintDb word.

Ltac word_unfold := unfold u8, u16, u32, u64, byte_ok in *.

(** Linear arithmetic with [div]/[mod] by constants and the casts unfolded. *)
Ltac zlia := word_unfold; Z.div_mod_to_equations; lia.

(** Equal results up to linear arithmetic in the components. *)
Ltac pos_eq := repeat first [reflexivity | lia | progress f_equal].

Lemma u8_range z : 0 <= u8 z < 256.
Proof. unfold u8. apply Z.mod_pos_bound. lia. Qed.

Lemma u16_range z : 0 <= u16 z < 65536.
Proof. unfold u16. apply Z.mod_pos_bound. lia. Qed.

Lemma u32_range z : 0 <= u32 z < 4294967296.
Proof. unfold u32. apply Z.mod_pos_bound. lia. Qed.

Lemma u8_id z : 0 <= z < 256 → u8 z = z.
Proof. apply Z.mod_small. Qed.

Lemma u16_id z : 0 <= z < 65536 → u16 z = z.
Proof. apply Z.mod_small. Qed.

Lemma u32_id z : 0 <= z < 4294967296 → u32 z = z.
Proof. apply Z.mod_small. Qed.

Lemma u32_idem z : u32 (u32 z) = u32 z.
Proof. apply u32_id, u32_range. Qed.

Lemma u8_idem z : u8 (u8 z) = u8 z.
Proof. apply u8_id, u8_range. Qed.

Lemma s32_range z : -2147483648 <= s32 z < 2147483648.
Proof.
  unfold s32. pose proof (u32_range z). destruct (Z.ltb_spec (u32 z) 2147483648); lia.
Qed.

Lemma s16_id z : -32768 <= z < 32768 → s16 z = z.
Proof.
  intros. unfold s16, u16. destruct (Z.ltb_spec (z mod 65536) 32768) as [H1|H1]; destruct (Z_lt_ge_dec z 0).
  - rewrite <- (Z.mod_add z 1), Z.mod_small in H1; lia.
  - by rewrite Z.mod_small by lia.
  - rewrite <- (Z.mod_add z 1), Z.mod_small by lia. lia.
  - rewrite Z.mod_small in H1; lia.
Qed.

Lemma s32_id z : -2147483648 <= z < 2147483648 → s32 z = z.
Proof.
  intros Hz. unfold s32. destruct (Z.ltb_spec (u32 z) 2147483648); revert H; zlia.
Qed.

Lemma s32_u32 z : s32 (u32 z) = s32 z.
Proof. unfold s32. by rewrite u32_idem. Qed.

Lemma u32_s32 z : u32 (s32 z) = u32 z.
Proof. unfold s32. destruct (Z.ltb_spec (u32 z) 2147483648); zlia. Qed.

#[export] Hint Resolve u8_range u16_range u32_range s32_range : word.
#[export] Hint Rewrite u8_idem u32_idem s32_u32 u32_s32 : word.

(** ** Bits *)

Lemma land_255 z : Z.land z 255 = u8 z.
Proof. change 255 with (Z.ones 8). by rewrite Z.land_ones. Qed.

Lemma land_ones_mod z n : 0 <= n → Z.land z (Z.shiftl 1 n - 1) = z mod 2 ^ n.
Proof.
  intros Hn. rewrite Z.shiftl_1_l, Z.sub_1_r, <- Z.ones_equiv. by apply Z.land_ones.
Qed.

Lemma testbit_shiftl_1 k i : 0 <= k → Z.testbit (Z.shiftl 1 k) i = (i =? k).
Proof. intros. rewrite Z.shiftl_1_l, Z.pow2_bits_eqb by done. apply Z.eqb_sym. Qed.

(** [x & ( 1 << k )] as a truth value. *)
Lemma ctrue_land_bit x k : 0 <= k → ctrue (Z.land x (Z.shiftl 1 k)) = Z.testbit x k.
Proof.
  intros Hk. unfold ctrue. destruct (Z.testbit x k) eqn:E.
  - apply negb_true_iff, Z.eqb_neq. intros H0.
    apply (f_equal (λ z, Z.testbit z k)) in H0.
    by rewrite Z.land_spec, testbit_shiftl_1, Z.eqb_refl, E, Z.bits_0 in H0.
  - apply negb_false_iff, Z.eqb_eq, Z.bits_inj'. intros i Hi.
    rewrite Z.land_spec, testbit_shiftl_1, Z.bits_0 by done.
    destruct (Z.eqb_spec i k); [subst; by rewrite E|apply andb_false_r].
Qed.

Lemma testbit_u32 z k : 0 <= k < 32 → Z.testbit (u32 z) k = Z.testbit z k.
Proof. intros. unfold u32. change 4294967296 with (2 ^ 32). apply Z.mod_pow2_bits_low. lia. Qed.

Lemma testbit_u8 z k : 0 <= k < 8 → Z.testbit (u8 z) k = Z.testbit z k.
Proof. intros. unfold u8. change 256 with (2 ^ 8). apply Z.mod_pow2_bits_low. lia. Qed.

Lemma shiftl_1_bound k n : 0 <= k < n → 0 <= Z.shiftl 1 k < 2 ^ n.
Proof.
  intros. rewrite Z.shiftl_1_l. split; [apply Z.pow_nonneg; lia|].
  apply Z.pow_lt_mono_r; lia.
Qed.

Lemma lor_shiftl_add a b n : 0 <= n → 0 <= a < 2 ^ n → Z.lor a (Z.shiftl b n) = a + b * 2 ^ n.
Proof.
  intros Hn Ha. rewrite <- Z.shiftl_mul_pow2 by done.
  rewrite Z.add_nocarry_lxor, <- Z.lxor_lor; [done| |].
  all: apply Z.bits_inj'; intros i Hi; rewrite Z.land_spec, Z.bits_0.
  all: destruct (Z.lt_ge_cases i n) as [Hlt|Hge];
    [rewrite (Z.shiftl_spec_low b) by done; apply andb_false_r
    |rewrite <- (Z.mod_small a (2 ^ n)) by done;
     rewrite Z.mod_pow2_bits_high by lia; done].
Qed.

(** ** Memory

    An object in memory (an array, a heap block, a packet buffer) is the list
    of its bytes. Every access is checked: an access outside the object has
    undefined behaviour in C and is [None] here. *)

Abbreviation mem := (list Z).

Definition msize (m : mem) : Z := Z.of_nat (length m).

Definition ld (m : mem) (i : Z) : option Z :=
  if decide (0 <= i) then m !! Z.to_nat i else None.

Definition st (m : mem) (i v : Z) : option mem :=
  if decide (0 <= i < msize m) then Some (<[Z.to_nat i := u8 v]> m) else None.

(** [memcpy] out of and into an object. *)
Definition mread (m : mem) (off n : Z) : option (list Z) :=
  if decide (0 <= off ∧ 0 <= n ∧ off + n <= msize m)
  then Some (take (Z.to_nat n) (drop (Z.to_nat off) m)) else None.

Definition mwrite (m : mem) (off : Z) (bs : list Z) : option mem :=
  if decide (0 <= off ∧ off + msize bs <= msize m)
  then Some (take (Z.to_nat off) m ++ bs ++ drop (Z.to_nat off + length bs) m) else None.

(** The characters of a text. *)
Definition ascii_bytes (s : string) : mem := (λ c, Z.of_N (Ascii.N_of_ascii c)) <$> String.list_ascii_of_string s.

Lemma msize_nonneg m : 0 <= msize m.
Proof. unfold msize. lia. Qed.

Lemma msize_app (a b : mem) : msize (a ++ b) = msize a + msize b.
Proof. unfold msize. rewrite length_app. lia. Qed.

Lemma msize_cons x (b : mem) : msize (x :: b) = 1 + msize b.
Proof. unfold msize. cbn [length]. lia. Qed.

Lemma msize_nil : msize [] = 0.
Proof. done. Qed.

Lemma msize_replicate n x : msize (replicate n x) = Z.of_nat n.
Proof. unfold msize. by rewrite length_replicate. Qed.

Lemma ld_Some_iff m i v : ld m i = Some v ↔ 0 <= i ∧ m !! Z.to_nat i = Some v.
Proof. unfold ld. case_decide; [tauto|]. split; [done|intros [? _]; lia]. Qed.

Lemma ld_lt m i v : ld m i = Some v → 0 <= i < msize m.
Proof. rewrite ld_Some_iff. intros [? ?%lookup_lt_Some]. unfold msize. lia. Qed.

Lemma ld_in_range m i : 0 <= i < msize m → ∃ v, ld m i = Some v.
Proof.
  intros Hi. destruct (lookup_lt_is_Some_2 m (Z.to_nat i)) as [v Hv];
    [unfold msize in Hi; lia|]. exists v. apply ld_Some_iff. split; [lia|done].
Qed.

Lemma ld_oob m i : ¬ (0 <= i < msize m) → ld m i = None.
Proof.
  intros Hi. destruct (ld m i) as [v|] eqn:E; [|done]. by apply ld_lt in E.
Qed.

Lemma ld_app_l (a b : mem) i : i < msize a → ld (a ++ b) i = ld a i.
Proof.
  intros Hi. unfold ld. case_decide; [|done]. apply lookup_app_l. unfold msize in Hi. lia.
Qed.

Lemma ld_app_r (a b : mem) i : msize a <= i → ld (a ++ b) i = ld b (i - msize a).
Proof.
  intros Hi. unfold ld. pose proof (msize_nonneg a). rewrite !decide_True by lia.
  unfold msize in *. rewrite lookup_app_r by lia. f_equal. lia.
Qed.

Lemma ld_cons_0 x (b : mem) : ld (x :: b) 0 = Some x.
Proof. done. Qed.

Lemma st_spec m i v : 0 <= i < msize m → st m i v = Some (<[Z.to_nat i := u8 v]> m).
Proof. intros. unfold st. by rewrite decide_True. Qed.

Lemma st_oob m i v : ¬ (0 <= i < msize m) → st m i v = None.
Proof. intros. unfold st. by rewrite decide_False. Qed.

Lemma st_msize m i v m' : st m i v = Some m' → msize m' = msize m.
Proof. unfold st, msize. case_decide; intros; simplify_eq. by rewrite length_insert. Qed.

Lemma st_mwrite m i v : st m i v = mwrite m i [u8 v].
Proof.
  unfold st, mwrite, msize. cbn [length].
  destruct (decide (0 <= i < Z.of_nat (length m))) as [H|H].
  - rewrite decide_True by lia. f_equal. rewrite insert_take_drop by lia.
    cbn. do 3 f_equal. lia.
  - rewrite decide_False by lia. done.
Qed.

Lemma mwrite_spec m off bs m' :
  mwrite m off bs = Some m' ↔
  0 <= off ∧ off + msize bs <= msize m
  ∧ m' = take (Z.to_nat off) m ++ bs ++ drop (Z.to_nat off + length bs) m.
Proof.
  unfold mwrite. case_decide; split; intros; simplify_eq; destruct_and?; subst; done || lia.
Qed.

Lemma mwrite_msize m off bs m' : mwrite m off bs = Some m' → msize m' = msize m.
Proof.
  rewrite mwrite_spec. intros (H1 & H2 & ->). unfold msize in *.
  rewrite !length_app, length_take, length_drop. lia.
Qed.

Lemma mwrite_is_Some m off bs :
  0 <= off → off + msize bs <= msize m → ∃ m', mwrite m off bs = Some m'.
Proof. intros. unfold mwrite. rewrite decide_True by lia. eauto. Qed.

Lemma mwrite_lookup_in m off bs m' (i : nat) :
  mwrite m off bs = Some m' → off <= Z.of_nat i < off + msize bs →
  m' !! i = bs !! (i - Z.to_nat off)%nat.
Proof.
  rewrite mwrite_spec. intros (H1 & H2 & ->) Hi. unfold msize in *.
  rewrite lookup_app_r by (rewrite length_take; lia).
  rewrite lookup_app_l by (rewrite length_take; lia).
  f_equal. rewrite length_take. lia.
Qed.

Lemma mwrite_lookup_out m off bs m' (i : nat) :
  mwrite m off bs = Some m' → Z.of_nat i < off ∨ off + msize bs <= Z.of_nat i →
  m' !! i = m !! i.
Proof.
  rewrite mwrite_spec. intros (H1 & H2 & ->) Hi. unfold msize in *.
  destruct Hi as [Hi|Hi].
  - rewrite lookup_app_l by (rewrite length_take; lia). apply lookup_take_lt. lia.
  - rewrite lookup_app_r by (rewrite length_take; lia).
    rewrite lookup_app_r by (rewrite length_take; lia).
    rewrite lookup_drop, length_take. f_equal. lia.
Qed.

Lemma mread_spec m off n bs :
  mread m off n = Some bs ↔
  0 <= off ∧ 0 <= n ∧ off + n <= msize m ∧ bs = take (Z.to_nat n) (drop (Z.to_nat off) m).
Proof.
  unfold mread. case_decide; split; intros; simplify_eq; destruct_and?; subst; done || lia.
Qed.

Lemma mread_is_Some m off n :
  0 <= off → 0 <= n → off + n <= msize m → ∃ bs, mread m off n = Some bs.
Proof. intros. unfold mread. rewrite decide_True by lia. eauto. Qed.

Lemma mread_msize m off n bs : mread m off n = Some bs → msize bs = n.
Proof.
  rewrite mread_spec. intros (? & ? & ? & ->). unfold msize in *.
  rewrite length_take, length_drop. lia.
Qed.

Lemma mread_ext m m' off n :
  msize m = msize m' →
  (∀ i : nat, off <= Z.of_nat i < off + n → m !! i = m' !! i) →
  mread m off n = mread m' off n.
Proof.
  intros Hsz Hext. unfold mread. rewrite Hsz. case_decide as H; [|done].
  f_equal. apply list_eq. intros i.
  destruct (decide (i < Z.to_nat n)%nat) as [Hi|Hi].
  - rewrite !lookup_take_lt, !lookup_drop by done. apply Hext. lia.
  - rewrite !lookup_take_ge by lia. done.
Qed.

Lemma mread_mwrite_same m off bs m' :
  mwrite m off bs = Some m' → mread m' off (msize bs) = Some bs.
Proof.
  intros Hw. pose proof (mwrite_msize _ _ _ _ Hw) as Hsz.
  apply mread_spec. pose proof (msize_nonneg bs).
  pose proof Hw as Hw'. rewrite mwrite_spec in Hw'. destruct Hw' as (H1 & H2 & E).
  split_and!; [lia|lia|lia|]. unfold msize in *. rewrite Nat2Z.id, E.
  rewrite drop_app_length' by (rewrite length_take; lia).
  by rewrite take_app_length.
Qed.

Lemma mread_mwrite_disjoint m off bs m' off' n :
  mwrite m off bs = Some m' → off' + n <= off ∨ off + msize bs <= off' →
  mread m' off' n = mread m off' n.
Proof.
  intros Hw Hd. apply mread_ext; [by eapply mwrite_msize|].
  intros i Hi. eapply mwrite_lookup_out; [done|]. lia.
Qed.

Lemma ld_mread m i : ld m i = (mread m i 1) ≫= head.
Proof.
  unfold ld, mread, msize. destruct (decide (0 <= i)) as [H|H];
    [|by rewrite decide_False by lia].
  destruct (decide (i < Z.of_nat (length m))) as [H'|H'].
  - rewrite decide_True by lia. cbn.
    destruct (lookup_lt_is_Some_2 m (Z.to_nat i)) as [v Hv]; [lia|].
    rewrite (drop_S _ _ _ Hv). cbn. done.
  - rewrite decide_False by lia. cbn. apply lookup_ge_None. lia.
Qed.

(** Sequential writing: a cursor is an object and a position in it. *)
Definition wr (s : mem * Z) (bs : list Z) : option (mem * Z) :=
  m ← mwrite s.1 s.2 bs; Some (m, s.2 + msize bs).

Definition put (s : mem * Z) (b : Z) : option (mem * Z) :=
  m ← st s.1 s.2 b; Some (m, s.2 + 1).

Lemma put_wr s b : put s b = wr s [u8 b].
Proof. unfold put, wr. by rewrite st_mwrite. Qed.

Lemma mwrite_app m p a b :
  mwrite m p (a ++ b) = (m' ← mwrite m p a; mwrite m' (p + msize a) b).
Proof.
  unfold mwrite at 1. rewrite msize_app. case_decide as H.
  - destruct (mwrite_is_Some m p a) as [m1 H1]; [pose proof (msize_nonneg b); lia..|]. rewrite H1.
    cbn. pose proof (mwrite_msize _ _ _ _ H1) as Hsz. unfold mwrite. rewrite Hsz.
    rewrite decide_True by (pose proof (msize_nonneg a); lia). f_equal.
    rewrite mwrite_spec in H1. destruct H1 as (_ & _ & ->). unfold msize in *.
    assert (length (take (Z.to_nat p) m) = Z.to_nat p) as Ht by (rewrite length_take; lia).
    set (t := take (Z.to_nat p) m) in *.
    assert (Z.to_nat (p + Z.of_nat (length a)) = length (t ++ a)) as E by (rewrite length_app; lia).
    rewrite E, (app_assoc t a), take_app_length, drop_app_add, drop_drop, <- !app_assoc.
    do 4 f_equal. rewrite length_app. lia.
  - destruct (mwrite m p a) as [m1|] eqn:H1; cbn; [|done].
    pose proof (mwrite_msize _ _ _ _ H1) as Hsz. rewrite mwrite_spec in H1.
    unfold mwrite. rewrite decide_False; [done|]. rewrite Hsz. lia.
Qed.

Lemma wr_app s a b : wr s (a ++ b) = (s ← wr s a; wr s b).
Proof.
  unfold wr. rewrite mwrite_app. destruct (mwrite s.1 s.2 a) as [m|]; cbn; [|done].
  destruct (mwrite m _ b); cbn; [|done]. rewrite msize_app. do 2 f_equal. lia.
Qed.

Lemma wr_cons s x b : wr s (x :: b) = (s ← wr s [x]; wr s b).
Proof. exact (wr_app s [x] b). Qed.

(** Writing first the tail and then the head writes the whole. *)
Lemma mwrite_back m p a b m1 m2 :
  mwrite m (p + msize a) b = Some m1 → mwrite m1 p a = Some m2 → mwrite m p (a ++ b) = Some m2.
Proof.
  intros H1 H2. pose proof (mwrite_msize _ _ _ _ H1) as Hs1. pose proof (mwrite_msize _ _ _ _ H2) as Hs2.
  pose proof H1 as H1'. pose proof H2 as H2'. rewrite mwrite_spec in H1', H2'.
  pose proof (msize_nonneg a). pose proof (msize_nonneg b).
  destruct (mwrite_is_Some m p (a ++ b)) as [m3 H3]; [lia|rewrite msize_app; lia|].
  rewrite H3. f_equal. apply list_eq. intros i.
  destruct (decide (p <= Z.of_nat i < p + msize a)) as [Ha|Ha].
  - rewrite (mwrite_lookup_in _ _ _ _ _ H3) by (rewrite msize_app; lia).
    rewrite (mwrite_lookup_in _ _ _ _ _ H2) by lia. apply lookup_app_l. unfold msize in *. lia.
  - rewrite (mwrite_lookup_out _ _ _ _ i H2) by lia.
    destruct (decide (p + msize a <= Z.of_nat i < p + msize a + msize b)) as [Hb|Hb].
    + rewrite (mwrite_lookup_in _ _ _ _ _ H3) by (rewrite msize_app; lia).
      rewrite (mwrite_lookup_in _ _ _ _ _ H1) by lia. unfold msize in *.
      rewrite lookup_app_r by lia. f_equal. lia.
    + rewrite (mwrite_lookup_out _ _ _ _ i H3) by (rewrite msize_app; lia).
      by rewrite (mwrite_lookup_out _ _ _ _ i H1) by lia.
Qed.

(** Writing what is already there changes nothing. *)
Lemma mwrite_mread_id m p n bs : mread m p n = Some bs → mwrite m p bs = Some m.
Proof.
  intros Hr. pose proof (mread_msize _ _ _ _ Hr) as Hl. rewrite mread_spec in Hr.
  destruct Hr as (H1 & H2 & H3 & ->). apply mwrite_spec. split_and!; [lia|lia|].
  unfold msize in *. rewrite length_take, length_drop.
  rewrite <- (take_drop (Z.to_nat p) m) at 1. f_equal.
  rewrite <- (take_drop (Z.to_nat n) (drop (Z.to_nat p) m)) at 1. f_equal.
  rewrite drop_drop. f_equal. lia.
Qed.

Lemma mwrite_nil m p : 0 <= p <= msize m → mwrite m p [] = Some m.
Proof. intros. apply (mwrite_mread_id m p 0). apply mread_spec. split_and!; [lia..|done]. Qed.

Lemma mread_all (m : mem) : mread m 0 (msize m) = Some m.
Proof.
  apply mread_spec. pose proof (msize_nonneg m). split_and!; [lia..|]. cbn. unfold msize.
  by rewrite Nat2Z.id, take_ge.
Qed.

Lemma mread_drop (m : mem) p n :
  0 <= p <= msize m → mread (drop (Z.to_nat p) m) 0 n = mread m p n.
Proof.
  intros Hp. unfold mread, msize in *. rewrite length_drop.
  destruct (decide (0 <= n ∧ p + n <= Z.of_nat (length m))) as [H|H].
  - rewrite !decide_True by lia. by rewrite drop_0.
  - by rewrite !decide_False by lia.
Qed.

(** Writing into the part of an object from [p] on. *)
Lemma mwrite_in_drop (m : mem) p bs m' :
  0 <= p <= msize m → mwrite (drop (Z.to_nat p) m) 0 bs = Some m' →
  mwrite m p bs = Some (take (Z.to_nat p) m ++ m').
Proof.
  intros Hp. rewrite !mwrite_spec. unfold msize in *. rewrite length_drop. intros (_ & H & ->).
  split_and!; [lia|lia|]. cbn. rewrite drop_drop. done.
Qed.

Lemma mread_split (m : mem) p a n bs :
  0 <= a <= n → mread m p n = Some bs →
  mread m p a = Some (take (Z.to_nat a) bs) ∧ mread m (p + a) (n - a) = Some (drop (Z.to_nat a) bs).
Proof.
  rewrite !mread_spec. intros Ha (H1 & H2 & H3 & ->). split; (split; [lia|split; [lia|split; [lia|]]]).
  - rewrite take_take. f_equal. lia.
  - rewrite skipn_firstn_comm, drop_drop. f_equal; [lia|]. f_equal. lia.
Qed.

(** [bytes_at m p bs]: the object holds [bs] at [p]. *)
Definition bytes_at (m : mem) (p : Z) (bs : list Z) : Prop := mread m p (msize bs) = Some bs.

Lemma bytes_at_app m p a b :
  bytes_at m p (a ++ b) ↔ bytes_at m p a ∧ bytes_at m (p + msize a) b.
Proof.
  unfold bytes_at. rewrite msize_app, !mread_spec. pose proof (msize_nonneg a). pose proof (msize_nonneg b).
  assert (0 <= p → drop (Z.to_nat (p + msize a)) m = drop (length a) (drop (Z.to_nat p) m)) as Ed.
  { intros. rewrite drop_drop. f_equal. unfold msize. lia. }
  replace (Z.to_nat (msize a + msize b)) with (length a + length b)%nat by (unfold msize; lia).
  replace (Z.to_nat (msize a)) with (length a) by (unfold msize; lia).
  replace (Z.to_nat (msize b)) with (length b) by (unfold msize; lia).
  set (l := drop (Z.to_nat p) m) in *. split.
  - intros (H1 & H2 & H3 & E). split_and!; try lia.
    + apply (f_equal (take (length a))) in E. rewrite take_app_length, take_take in E.
      rewrite E at 1. f_equal. lia.
    + rewrite Ed by done. apply (f_equal (drop (length a))) in E. rewrite drop_app_length in E.
      rewrite E at 1. rewrite skipn_firstn_comm. f_equal. lia.
  - intros [(H1 & H2 & H3 & Ea) (H4 & H5 & H6 & Eb)]. split_and!; try lia.
    rewrite Ed in Eb by done. rewrite <- (take_take_drop l (length a) (length b)). by rewrite <- Ea, <- Eb.
Qed.

Lemma bytes_at_cons m p x b : bytes_at m p (x :: b) ↔ ld m p = Some x ∧ bytes_at m (p + 1) b.
Proof.
  change (x :: b) with ([x] ++ b). rewrite bytes_at_app. unfold bytes_at at 1. cbn. rewrite ld_mread.
  rewrite msize_cons, msize_nil. replace (1 + 0) with 1 by lia.
  destruct (mread m p 1) as [l|] eqn:E; cbn.
  - pose proof (mread_msize _ _ _ _ E) as Hl. unfold msize in Hl.
    destruct l as [|y [|]]; cbn in *; [lia| |lia]. split; intros [? ?]; simplify_eq; done.
  - split; intros [? ?]; done.
Qed.

Lemma bytes_at_mwrite m p bs m' : mwrite m p bs = Some m' → bytes_at m' p bs.
Proof. apply mread_mwrite_same. Qed.

Lemma bytes_at_prefix (m a b c : mem) : m = a ++ b ++ c → bytes_at m (msize a) b.
Proof.
  intros ->. unfold bytes_at. apply mread_spec. pose proof (msize_nonneg a). pose proof (msize_nonneg b).
  pose proof (msize_nonneg c). split; [lia|]. split; [lia|]. split; [rewrite !msize_app; lia|].
  unfold msize. by rewrite !Nat2Z.id, drop_app_length, take_app_length.
Qed.

(** ** Ring indexes *)

Lemma ring_index_inj c r i j :
  0 <= i < c → 0 <= j < c → (r + i) mod c = (r + j) mod c → i = j.
Proof.
  intros Hi Hj E.
  pose proof (Z.div_mod (r + i) c ltac:(lia)). pose proof (Z.div_mod (r + j) c ltac:(lia)).
  assert (i - j = c * ((r + i) / c - (r + j) / c)) as Hd by lia.
  assert ((r + i) / c - (r + j) / c = 0) by nia. lia.
Qed.

Lemma ring_index_succ c r i : 0 < c → ((r + 1) mod c + i) mod c = (r + (i + 1)) mod c.
Proof. intros. rewrite Z.add_mod_idemp_l by lia. f_equal. lia. Qed.

Lemma ring_wrap c r : 0 <= r < c → (r + c) mod c = r.
Proof.
  intros. replace (r + c) with (r + 1 * c) by ring. rewrite Z.mod_add by lia. by apply Z.mod_small.
Qed.

Lemma ring_scale c d x : 0 < c → 0 < d → (x * d) mod (c * d) = (x mod c) * d.
Proof. intros. by rewrite Z.mul_mod_distr_r by lia. Qed.

#[export] Hint Rewrite msize_app msize_cons msize_nil msize_replicate : msize.

(** Normalise the sizes of concrete objects in goal and context. *)
Ltac msz := autorewrite with msize in *.

(** ** Copy loops

    [DUFF_DEVICE_8( count, action )] of [inc/utils.h]: a first partial pass of
    [count & 7] actions (8 when that is zero), then the [do ... while(--_times)]
    passes of 8 actions. *)

Section duff.
Context {A : Type} (action : A → A).

Fixpoint duff_while (fuel : nat) (times : Z) (s : A) : A :=
  match fuel with
  | O => s
  | S fuel =>
      let times := times - 1 in
      if 0 <? times then duff_while fuel times (Nat.iter 8 action s) else s
  end.

Definition DUFF_DEVICE_8 (count : Z) (s : A) : A :=
  let times := Z.shiftr (count + 7) 3 in
  let first := if Z.land count 7 =? 0 then 8 else Z.land count 7 in
  duff_while (Z.to_nat times) times (Nat.iter (Z.to_nat first) action s).

Lemma duff_while_iter fuel times s :
  times <= Z.of_nat fuel →
  duff_while fuel times s = Nat.iter (8 * Z.to_nat (times - 1)) action s.
Proof.
  revert times s. induction fuel as [|fuel IH]; intros times s Hf; cbn [duff_while].
  - by replace (Z.to_nat (times - 1)) with O by lia.
  - destruct (Z.ltb_spec 0 (times - 1)).
    + rewrite IH by lia. rewrite <- Nat.iter_add. f_equal. lia.
    + by replace (Z.to_nat (times - 1)) with O by lia.
Qed.

Lemma duff_iter count s : 0 < count → DUFF_DEVICE_8 count s = Nat.iter (Z.to_nat count) action s.
Proof.
  intros Hc. unfold DUFF_DEVICE_8. rewrite Z.shiftr_div_pow2 by lia.
  replace (Z.land count 7) with (count mod 8) by (symmetry; apply (Z.land_ones count 3); lia).
  change (2 ^ 3) with 8.
  pose proof (Z.div_pos (count + 7) 8 ltac:(lia) ltac:(lia)).
  rewrite duff_while_iter by lia. rewrite <- Nat.iter_add. f_equal.
  destruct (Z.eqb_spec (count mod 8) 0); Z.div_mod_to_equations; lia.
Qed.
End duff.

(** The action [*d++ = *s++]: [src] is the source object, the state holds the
    destination object and both indexes. *)
Definition copy_step (src : mem) (c : option (mem * Z * Z)) : option (mem * Z * Z) :=
  c ≫= λ '(m, d, s), v ← ld src s; m' ← st m d v; Some (m', d + 1, s + 1).

Lemma copy_step_stuck (n : nat) src : Nat.iter n (copy_step src) None = None.
Proof.
  induction n as [|n IH]; [done|].
  change (Nat.iter (S n) ?f ?x) with (f (Nat.iter n f x)). by rewrite IH.
Qed.

(** A copy whose first byte falls outside the destination is undefined. *)
Lemma copy_step_oob (n : nat) src m d s :
  (0 < n)%nat → ¬ (0 <= d < msize m) → Nat.iter n (copy_step src) (Some (m, d, s)) = None.
Proof.
  intros Hn Hd. destruct n as [|n]; [lia|]. rewrite Nat.iter_succ_r.
  replace (copy_step src (Some (m, d, s))) with (@None (mem * Z * Z)); [apply copy_step_stuck|].
  cbn. destruct (ld src s); cbn; [|done]. by rewrite st_oob.
Qed.

Lemma copy_step_iter (n : nat) src m d s bs m' :
  mread src s (Z.of_nat n) = Some bs → bytes_ok bs → mwrite m d bs = Some m' →
  Nat.iter n (copy_step src) (Some (m, d, s)) = Some (m', d + Z.of_nat n, s + Z.of_nat n).
Proof.
  revert bs m'. induction n as [|n IH]; intros bs m' Hr Hok Hw.
  - rewrite mread_spec in Hr. destruct Hr as (_ & _ & _ & ->). change (Z.to_nat (Z.of_nat 0)) with 0%nat in Hw.
    rewrite take_0 in Hw.
    rewrite mwrite_spec in Hw. destruct Hw as (H1 & H2 & ->).
    cbn [length app]. rewrite Nat.add_0_r, take_drop. cbn. by rewrite !Z.add_0_r.
  - pose proof (mread_msize _ _ _ _ Hr) as Hsz.
    rewrite mread_spec in Hr. destruct Hr as (Hs & _ & Hle & Hbs).
    destruct (ld_in_range src (s + Z.of_nat n)) as [v Hv]; [lia|].
    pose proof Hv as Hv'. apply ld_Some_iff in Hv' as [_ Hv'].
    set (bs0 := take n (drop (Z.to_nat s) src)).
    assert (Hb : bs = bs0 ++ [v]).
    { subst bs bs0. rewrite Nat2Z.id. erewrite take_S_r; [done|].
      rewrite lookup_drop. rewrite <- Hv'. f_equal. lia. }
    assert (Hl0 : msize bs0 = Z.of_nat n).
    { rewrite Hb, msize_app, msize_cons, msize_nil in Hsz. lia. }
    rewrite Hb in Hw, Hok. apply Forall_app in Hok as [Hok0 Hokv].
    apply Forall_cons_1 in Hokv as [Hv8 _].
    rewrite mwrite_spec in Hw. destruct Hw as (Hd & Hdle & ->).
    rewrite msize_app, msize_cons, msize_nil, Hl0 in Hdle.
    destruct (mwrite_is_Some m d bs0) as [m0 Hm0]; [lia|lia|].
    change (Nat.iter (S n) ?f ?x) with (f (Nat.iter n f x)).
    erewrite IH; [| |done|done]. 2: { apply mread_spec. split_and!; [lia..|].
      unfold bs0. by rewrite Nat2Z.id. }
    cbn. rewrite Hv. cbn. pose proof (mwrite_msize _ _ _ _ Hm0) as Hm0s.
    rewrite st_mwrite, u8_id by done.
    destruct (mwrite_is_Some m0 (d + Z.of_nat n) [v]) as [m1 Hm1];
      [lia|rewrite msize_cons, msize_nil; lia|].
    rewrite Hm1. cbn. replace (Z.of_nat (S n)) with (Z.of_nat n + 1) by lia.
    rewrite !Z.add_assoc. do 3 f_equal.
    rewrite mwrite_spec in Hm0. destruct Hm0 as (_ & _ & Hm0).
    rewrite mwrite_spec in Hm1. destruct Hm1 as (_ & _ & Hm1). subst m0 m1.
    unfold msize in *. assert (length bs0 = n) as Hln by lia.
    rewrite length_app. cbn [length]. rewrite Hln.
    set (off := Z.to_nat (d + Z.of_nat n)).
    assert (Hoff : off = length (take (Z.to_nat d) m ++ bs0))
      by (subst off; rewrite length_app, length_take; lia).
    rewrite (app_assoc (take (Z.to_nat d) m)).
    rewrite (take_app_length' _ _ off), (drop_app_ge _ _ (off + 1)) by lia.
    rewrite drop_drop, <- Hoff, <- !app_assoc. cbn [app]. do 4 f_equal.
    subst off. lia.
Qed.

(** ** Little-endian encodings, as [& 0xFF] and [>>] write them *)

Definition le16 (z : Z) : list Z := [Z.land z 255; Z.land (Z.shiftr z 8) 255].

Definition le32 (z : Z) : list Z :=
  [Z.land z 255; Z.land (Z.shiftr z 8) 255; Z.land (Z.shiftr z 16) 255; Z.land (Z.shiftr z 24) 255].

Definition of_le16 (a b : Z) : Z := Z.lor a (Z.shiftl b 8).

Definition of_le32 (a b c d : Z) : Z :=
  Z.lor (Z.lor (Z.lor a (Z.shiftl b 8)) (Z.shiftl c 16)) (Z.shiftl d 24).

Lemma of_le16_add a b : byte_ok a → of_le16 a b = a + b * 256.
Proof. intros. unfold of_le16. rewrite lor_shiftl_add; [done|lia|done]. Qed.

Lemma of_le32_add a b c d :
  byte_ok a → byte_ok b → byte_ok c →
  of_le32 a b c d = a + b * 256 + c * 65536 + d * 16777216.
Proof.
  unfold byte_ok. intros. unfold of_le32.
  rewrite (lor_shiftl_add a b), (lor_shiftl_add _ c), (lor_shiftl_add _ d); lia.
Qed.

Lemma byte_at z k : 0 <= k → Z.land (Z.shiftr z k) 255 = (z / 2 ^ k) mod 256.
Proof. intros. by rewrite land_255, Z.shiftr_div_pow2. Qed.

Lemma byte_at_ok z : byte_ok (Z.land z 255).
Proof. rewrite land_255. apply u8_range. Qed.

Lemma of_le16_le16 z :
  of_le16 (Z.land z 255) (Z.land (Z.shiftr z 8) 255) = u16 z.
Proof.
  rewrite of_le16_add by apply byte_at_ok. rewrite byte_at, land_255 by lia.
  change (2 ^ 8) with 256. zlia.
Qed.

Lemma of_le32_le32 z :
  of_le32 (Z.land z 255) (Z.land (Z.shiftr z 8) 255) (Z.land (Z.shiftr z 16) 255)
    (Z.land (Z.shiftr z 24) 255) = u32 z.
Proof.
  rewrite of_le32_add by apply byte_at_ok. rewrite !byte_at, land_255 by lia.
  change (2 ^ 8) with 256. change (2 ^ 16) with 65536. change (2 ^ 24) with 16777216. zlia.
Qed.

Lemma le16_ok z : bytes_ok (le16 z).
Proof. repeat constructor; apply byte_at_ok. Qed.

Lemma le32_ok z : bytes_ok (le32 z).
Proof. repeat constructor; apply byte_at_ok. Qed.

(** ** Text: C character constants and strings as byte values *)

Definition ch (s : string) : Z :=
  match s with String c _ => Z.of_N (Ascii.N_of_ascii c) | EmptyString => 0 end.

Fixpoint txt (s : string) : list Z :=
  match s with
  | EmptyString => []
  | String c s => Z.of_N (Ascii.N_of_ascii c) :: txt s
  end.

(** The bytes of the C string that starts at [p]: up to, not including, the
    first zero byte; [None] when the object ends before one. *)
Fixpoint cstr (m : list Z) : option (list Z) :=
  match m with
  | [] => None
  | c :: m => if c =? 0 then Some [] else s ← cstr m; Some (c :: s)
  end.

(** [tolower] in the C locale, and the comparison of [strcasecmp]. *)
Definition tolower (c : Z) : Z := if (65 <=? c) && (c <=? 90) then c + 32 else c.

Fixpoint caseeq (a b : list Z) : bool :=
  match a, b with
  | [], [] => true
  | x :: a, y :: b => (tolower x =? tolower y) && caseeq a b
  | _, _ => false
  end.

Lemma caseeq_refl a : caseeq a a = true.
Proof. induction a; cbn; [done|]. by rewrite Z.eqb_refl. Qed.

Lemma caseeq_iff a b : caseeq a b = true ↔ tolower <$> a = tolower <$> b.
Proof.
  revert b. induction a as [|x a IH]; intros [|y b]; cbn; try done.
  rewrite andb_true_iff, Z.eqb_eq, IH. split; [intros [-> ->]; done|intros; simplify_eq; auto].
Qed.

Lemma caseeq_sym a b : caseeq a b = caseeq b a.
Proof. apply eq_true_iff_eq. rewrite !caseeq_iff. done. Qed.

Lemma cstr_app s rest : Forall (λ c, c ≠ 0) s → cstr (s ++ 0 :: rest) = Some s.
Proof.
  induction 1 as [|c s Hc _ IH]; cbn; [done|].
  destruct (Z.eqb_spec c 0); [done|]. by rewrite IH.
Qed.

(** [strlen], and [strncpy] and [strncat] into an array: [strncat]'s bound limits
    what is appended, not the size of the result. *)
Definition strlen (s : mem) : option Z := l ← cstr s; Some (msize l).

Definition c_strncpy (dst src : mem) (n : Z) : option mem :=
  s ← cstr src;
  let s := take (Z.to_nat n) s in
  mwrite dst 0 (s ++ replicate (Z.to_nat n - length s) 0).

Definition c_strncat (dst src : mem) (n : Z) : option mem :=
  d ← cstr dst;
  s ← cstr src;
  mwrite dst (msize d) (take (Z.to_nat n) s ++ [0]).

Lemma cstr_inv m s : cstr m = Some s → Forall (λ c, c ≠ 0) s ∧ ∃ rest, m = s ++ 0 :: rest.
Proof.
  revert s. induction m as [|c m IH]; intros s; cbn; [done|].
  destruct (Z.eqb_spec c 0) as [->|Hc]; [intros; simplify_eq; split; [constructor|by exists m]|].
  destruct (cstr m) as [t|]; cbn; [|done]. intros. simplify_eq.
  destruct (IH t eq_refl) as [Ht [rest ->]]. split; [by constructor|by exists rest].
Qed.

(** A string inside an object. *)
Lemma cstr_drop_at m q s :
  Forall (λ c, c ≠ 0) s → bytes_at m q (s ++ [0]) → cstr (drop (Z.to_nat q) m) = Some s.
Proof.
  intros Hs. unfold bytes_at. rewrite mread_spec. intros (H1 & H2 & H3 & E).
  set (l := drop (Z.to_nat q) m) in *. rewrite <- (take_drop (Z.to_nat (msize (s ++ [0]))) l), <- E.
  rewrite <- app_assoc. by apply cstr_app.
Qed.

Lemma mwrite_prefix (m : mem) bs m' :
  mwrite m 0 bs = Some m' → m' = bs ++ drop (length bs) m.
Proof. rewrite mwrite_spec. intros (_ & _ & ->). done. Qed.

Lemma strncpy_cstr dst src s n :
  cstr src = Some s → msize s < n <= msize dst →
  ∃ m, c_strncpy dst src n = Some m ∧ cstr m = Some s ∧ msize m = msize dst.
Proof.
  intros Hs Hn. unfold c_strncpy. rewrite Hs. cbn [mbind option_bind]. unfold msize in Hn.
  rewrite take_ge by lia.
  destruct (mwrite_is_Some dst 0 (s ++ replicate (Z.to_nat n - length s) 0)) as [m Hm];
    [lia|unfold msize; rewrite length_app, length_replicate; lia|].
  exists m. split; [done|]. split; [|by eapply mwrite_msize].
  apply mwrite_prefix in Hm as ->. destruct (Z.to_nat n - length s)%nat as [|k] eqn:Ek; [lia|].
  cbn [replicate]. rewrite <- app_assoc. apply cstr_app. by destruct (cstr_inv _ _ Hs).
Qed.

Lemma strncat_cstr dst src d s n :
  cstr dst = Some d → cstr src = Some s → msize s <= n → msize d + msize s < msize dst →
  ∃ m, c_strncat dst src n = Some m ∧ cstr m = Some (d ++ s) ∧ msize m = msize dst.
Proof.
  intros Hd Hs Hn Hsz. unfold c_strncat. rewrite Hd, Hs. cbn [mbind option_bind].
  rewrite take_ge by (unfold msize in *; lia).
  destruct (mwrite_is_Some dst (msize d) (s ++ [0])) as [m Hm]; [apply msize_nonneg|msz; lia|].
  exists m. split; [done|]. split; [|by eapply mwrite_msize].
  destruct (cstr_inv _ _ Hd) as [Hd0 [rest ->]]. destruct (cstr_inv _ _ Hs) as [Hs0 _].
  rewrite mwrite_spec in Hm. destruct Hm as (_ & _ & ->). unfold msize at 1. rewrite Nat2Z.id, take_app_length.
  rewrite <- (app_assoc s), (app_assoc d). apply cstr_app. by apply Forall_app.
Qed.

(** [strncasecmp( a, b, n ) == 0]; [None] when a string ends before its terminator. *)
Fixpoint strncaseeq (n : nat) (a b : mem) : option bool :=
  match n with
  | O => Some true
  | S n =>
      x ← head a;
      y ← head b;
      if tolower x =? tolower y then
        if x =? 0 then Some true else strncaseeq n (tail a) (tail b)
      else Some false
  end.

Lemma strncaseeq_spec n p rp b rb :
  Forall (λ c, c ≠ 0) p → Forall (λ c, c ≠ 0) b → (length b <= n)%nat → ((length b < n)%nat → rb = [0]) →
  strncaseeq n (p ++ 0 :: rp) (b ++ rb) = Some (caseeq (take n p) b).
Proof.
  intros Hp. revert n b. induction Hp as [|x p Hx Hp IH]; intros n b Hb Hl Hrb.
  all: destruct n as [|n]; [by destruct b; cbn in *; [|lia]|]; cbn [take firstn].
  all: destruct Hb as [|y b Hy Hb]; cbn [length] in *.
  1, 3: rewrite Hrb by lia; cbn [app strncaseeq head mbind option_bind].
  - done.
  - destruct (Z.eqb_spec (tolower x) (tolower 0)) as [E|]; [|done]. exfalso. apply Hx.
    revert E. unfold tolower. destruct ((65 <=? x) && (x <=? 90)) eqn:Er; cbn; [|done].
    apply andb_true_iff in Er as [?%Z.leb_le _]. lia.
  - cbn [app strncaseeq head mbind option_bind caseeq].
    destruct (Z.eqb_spec (tolower 0) (tolower y)) as [E|]; [|done]. exfalso. apply Hy.
    revert E. unfold tolower at 2. destruct ((65 <=? y) && (y <=? 90)) eqn:Er; cbn; [|done].
    apply andb_true_iff in Er as [?%Z.leb_le _]. lia.
  - cbn [app strncaseeq head mbind option_bind caseeq tail].
    destruct (tolower x =? tolower y); [|done]. rewrite (proj2 (Z.eqb_neq x 0)) by done. cbn [andb].
    apply IH; [done|lia|]. intros. apply Hrb. lia.
Qed.

(** [strchr]: the index of the character found. *)
Fixpoint strchr (m : mem) (c : Z) : option (option Z) :=
  match m with
  | [] => None
  | x :: m =>
      if x =? c then Some (Some 0)
      else if x =? 0 then Some None
      else match strchr m c with None => None | Some r => Some (option_map Z.succ r) end
  end.

Lemma strchr_spec a c rest : Forall (λ x, x ≠ 0 ∧ x ≠ c) a → strchr (a ++ c :: rest) c = Some (Some (msize a)).
Proof.
  induction 1 as [|x a [H0 Hc] _ IH]; cbn [app strchr]; [by rewrite Z.eqb_refl|].
  rewrite (proj2 (Z.eqb_neq x c)), (proj2 (Z.eqb_neq x 0)), IH by done. cbn [option_map]. msz. do 2 f_equal. lia.
Qed.

Lemma strchr_none a c rest : c ≠ 0 → Forall (λ x, x ≠ 0 ∧ x ≠ c) a → strchr (a ++ 0 :: rest) c = Some None.
Proof.
  intros Hc. induction 1 as [|x a [H0 Hx] _ IH]; cbn [app strchr]; [by rewrite (proj2 (Z.eqb_neq 0 c)), Z.eqb_refl by done|].
  by rewrite (proj2 (Z.eqb_neq x c)), (proj2 (Z.eqb_neq x 0)), IH by done.
Qed.

(** [strrchr]: the index of the last occurrence. *)
Fixpoint strrchr (m : mem) (c : Z) : option (option Z) :=
  match m with
  | [] => None
  | x :: m =>
      if x =? 0 then Some (if c =? 0 then Some 0 else None)
      else r ← strrchr m c;
           Some (match r with Some k => Some (k + 1) | None => if x =? c then Some 0 else None end)
  end.

Lemma strrchr_tail b c rest : c ≠ 0 → Forall (λ x, x ≠ 0 ∧ x ≠ c) b → strrchr (b ++ 0 :: rest) c = Some None.
Proof.
  intros Hc. induction 1 as [|x b [H0 Hx] _ IH]; cbn [app strrchr]; [by rewrite (proj2 (Z.eqb_neq c 0)) by done|].
  rewrite (proj2 (Z.eqb_neq x 0)), IH by done. cbn [mbind option_bind]. by rewrite (proj2 (Z.eqb_neq x c)) by done.
Qed.

Lemma strrchr_spec a b c rest :
  c ≠ 0 → Forall (λ x, x ≠ 0) a → Forall (λ x, x ≠ 0 ∧ x ≠ c) b → strrchr (a ++ c :: b ++ 0 :: rest) c = Some (Some (msize a)).
Proof.
  intros Hc Ha Hb. induction Ha as [|x a Hx Ha IH]; cbn [app strrchr].
  - rewrite (proj2 (Z.eqb_neq c 0)), (strrchr_tail b c rest) by done. cbn [mbind option_bind]. by rewrite Z.eqb_refl.
  - rewrite (proj2 (Z.eqb_neq x 0)), IH by done. cbn [mbind option_bind]. rewrite msize_cons. do 2 f_equal. lia.
Qed.

(** [strncmp( a, b, n ) == 0] *)
Fixpoint strneq (n : nat) (a b : mem) : option bool :=
  match n with
  | O => Some true
  | S n =>
      x ← head a;
      y ← head b;
      if x =? y then if x =? 0 then Some true else strneq n (tail a) (tail b) else Some false
  end.

Lemma strneq_total n a b : (n <= length a)%nat → (n <= length b)%nat → ∃ r, strneq n a b = Some r.
Proof.
  revert a b. induction n as [|n IH]; intros [|x a] [|y b] Ha Hb; cbn [length] in *; try lia; try by exists true.
  cbn [strneq head mbind option_bind tail]. destruct (x =? y); [|by exists false]. destruct (x =? 0); [by exists true|]. apply IH; lia.
Qed.

Lemma strneq_head n a b : strneq (S n) a b = Some true → head a = head b.
Proof.
  destruct a as [|x a], b as [|y b]; cbn [strneq head mbind option_bind]; try done.
  destruct (Z.eqb_spec x y) as [->|]; done.
Qed.

Lemma strneq_app a ra rb : Forall (λ x, x ≠ 0) a → strneq (length a) (a ++ ra) (a ++ rb) = Some true.
Proof.
  induction 1 as [|x a Hx _ IH]; [done|]. cbn [length app strneq head mbind option_bind tail].
  by rewrite Z.eqb_refl, (proj2 (Z.eqb_neq x 0)) by done.
Qed.

Lemma front_split (m acc : mem) : mread m 0 (msize acc) = Some acc → ∃ rest, m = acc ++ rest.
Proof.
  intros (_ & _ & _ & E)%mread_spec. change (Z.to_nat 0) with 0%nat in E. rewrite drop_0 in E. exists (drop (Z.to_nat (msize acc)) m).
  rewrite E at 1. symmetry. apply take_drop.
Qed.

(** [strstr( m, p )] for a string [p] that is not empty, given by its characters. *)
Fixpoint strstr (m p : mem) : option (option Z) :=
  match m with
  | [] => None
  | x :: m' =>
      if x =? 0 then Some None
      else
        same ← strneq (length p) m (p ++ [0]);
        if (same : bool) then Some (Some 0)
        else r ← strstr m' p; Some (option_map Z.succ r)
  end.

Definition c_strcpy (dst src : mem) : option mem := s ← cstr src; mwrite dst 0 (s ++ [0]).

Definition c_strcat (dst src : mem) : option mem := d ← cstr dst; s ← cstr src; mwrite dst (msize d) (s ++ [0]).

Lemma msize_pos (m : mem) : m ≠ [] → 0 < msize m.
Proof. destruct m as [|x m]; [done|]. intros _. rewrite msize_cons. pose proof (msize_nonneg m). lia. Qed.

(** ** Cutting a byte string into pieces of at most [mss] bytes *)
Section chunks.
Context (mss : Z).

Fixpoint chunks_of (n : nat) (t : list Z) : list mem :=
  match n, t with
  | S n, _ :: _ => take (Z.to_nat mss) t :: chunks_of n (drop (Z.to_nat mss) t)
  | _, _ => []
  end.

Definition chunks (t : list Z) : list mem := chunks_of (length t) t.

Hypothesis Hmss : 0 < mss.

Lemma chunks_of_more n m t : (length t <= n)%nat → (length t <= m)%nat → chunks_of n t = chunks_of m t.
Proof.
  revert m t. induction n as [|n IH]; intros [|m] [|x t] Hn Hm; cbn [length] in *; try lia; try done.
  cbn [chunks_of]. f_equal. apply IH; rewrite length_drop; cbn [length]; lia.
Qed.

Lemma chunks_unfold t : t ≠ [] → chunks t = take (Z.to_nat mss) t :: chunks (drop (Z.to_nat mss) t).
Proof.
  intros Ht. unfold chunks. destruct t as [|x t]; [done|]. cbn [length chunks_of]. f_equal.
  apply chunks_of_more; rewrite length_drop; cbn [length]; lia.
Qed.

Lemma chunks_concat t : concat (chunks t) = t.
Proof.
  unfold chunks. assert (∀ n t, (length t <= n)%nat → concat (chunks_of n t) = t) as H; [|by apply H].
  clear t. induction n as [|n IH]; intros [|x t] Hl; cbn [length] in *; try lia; try done.
  cbn [chunks_of concat]. rewrite IH by (rewrite length_drop; cbn [length]; lia). apply take_drop.
Qed.

(** The first piece and the rest. *)
Lemma chunk_size t : t ≠ [] → 0 < msize (take (Z.to_nat mss) t) <= mss.
Proof. destruct t as [|x t]; [done|]. intros _. unfold msize. rewrite length_take. cbn [length]. lia. Qed.

Lemma chunks_count t : Z.of_nat (length (chunks t)) = (msize t + mss - 1) / mss.
Proof.
  remember (length t) as n eqn:En. revert t En. induction n as [n IH] using lt_wf_ind. intros t ->.
  destruct t as [|x t]; [rewrite msize_nil; rewrite Z.div_small by lia; done|].
  rewrite chunks_unfold by done. cbn [length]. set (r := drop (Z.to_nat mss) (x :: t)).
  assert (length r < length (x :: t))%nat as Hr by (unfold r; rewrite length_drop; cbn [length]; lia).
  rewrite Nat2Z.inj_succ, (IH _ Hr r eq_refl).
  assert (msize r = Z.max 0 (msize (x :: t) - mss)) as -> by (unfold r, msize; rewrite length_drop; lia).
  assert (0 < msize (x :: t)) by (rewrite msize_cons; pose proof (msize_nonneg t); lia).
  destruct (Z.max_spec 0 (msize (x :: t) - mss)) as [[Hlt ->]|[Hge ->]].
  - replace (msize (x :: t) + mss - 1) with (msize (x :: t) - mss + mss - 1 + 1 * mss) by lia. rewrite Z.div_add by lia. lia.
  - rewrite (Z.div_small (0 + mss - 1)) by lia. apply (Z.div_unique _ _ _ (msize (x :: t) - 1)); lia.
Qed.
End chunks.
