(* ===== verification/Platform.v ===== *)
(** * The platform layer: the constants of inc/platform.h and the build's configuration

    [PlatformConf] gathers the values that each board's [platform_conf.h] (a
    build input chosen per board) defines and that the modelled code reads. *)
From S2P Require Export Prelude.

Class PlatformConf := {
  NUM_UART : Z;
  NUM_ADC : Z;
  BUILD_SERMUX : bool;
  SERMUX_NUM_VUART : Z;
  SERMUX_PHYS_ID : Z;
  PLATFORM_INT_QUEUE_LOG_SIZE : Z;
  INT_ELUA_LAST : Z;
  INT_UART_RX : Z;
  INT_TMR_MATCH : Z;
  VTMR_NUM_TIMERS : Z;
  VTMR_FREQ_HZ : Z;
  NUM_TIMER : Z
}.

(** A board is sane when its physical UART numbers stay below the virtual ones
    and it has at most eight virtual UARTs. *)
Class PlatformConfOk (conf : PlatformConf) : Prop := {
  num_uart_range : 0 <= NUM_UART <= 208;
  num_adc_range : 0 <= NUM_ADC <= 32;
  num_vuart_range : 0 <= SERMUX_NUM_VUART <= 8;
  int_queue_range : 0 <= PLATFORM_INT_QUEUE_LOG_SIZE <= 7;
  int_last_range : 1 <= INT_ELUA_LAST < 128;
  int_uart_rx_range : 1 <= INT_UART_RX <= INT_ELUA_LAST;
  vtmr_num_range : 0 <= VTMR_NUM_TIMERS <= 127;
  vtmr_freq_range : 0 < VTMR_FREQ_HZ < 4294967296
}.

(** A board of the family the web server was tested on, with one virtual-UART
    multiplexer and four virtual timers: the instance the witnesses run on. *)
Definition demo_board : PlatformConf := {|
  NUM_UART := 2;
  NUM_ADC := 8;
  BUILD_SERMUX := true;
  SERMUX_NUM_VUART := 2;
  SERMUX_PHYS_ID := 0;
  PLATFORM_INT_QUEUE_LOG_SIZE := 2;
  INT_ELUA_LAST := 5;
  INT_UART_RX := 3;
  INT_TMR_MATCH := 4;
  VTMR_NUM_TIMERS := 4;
  VTMR_FREQ_HZ := 4;
  NUM_TIMER := 3
|}.

#[export] Instance demo_board_ok : PlatformConfOk demo_board.
Proof. split; cbn; lia. Qed.

(** Status codes (the anonymous enum of inc/platform.h). *)
Definition PLATFORM_ERR : Z := 0.
Definition PLATFORM_OK : Z := 1.
Definition PLATFORM_UNDERFLOW : Z := -1.

Definition PLATFORM_UART_INFINITE_TIMEOUT : Z := -1.
Definition PLATFORM_CPU_DISABLE : Z := 0.
Definition PLATFORM_CPU_ENABLE : Z := 1.

Definition PLATFORM_INT_OK : Z := 0.
Definition PLATFORM_INT_INVALID : Z := -2.
Definition PLATFORM_INT_NOT_HANDLED : Z := -3.

(** inc/sermux.h *)
Definition SERMUX_SERVICE_ID_FIRST : Z := 208.
Definition SERMUX_SERVICE_ID_LAST : Z := 215.
Definition SERMUX_ESCAPE_CHAR : Z := 192.
Definition SERMUX_FORCE_SID_CHAR : Z := 255.
Definition SERMUX_ESCAPE_XOR_MASK : Z := 32.
Definition SERMUX_ESC_MASK : Z := 256.

(** The bytes that are escaped on the multiplexed line, by both ends. *)
Definition sermux_special (data : Z) : bool :=
  (data =? SERMUX_ESCAPE_CHAR) || (data =? SERMUX_FORCE_SID_CHAR)
  || (SERMUX_SERVICE_ID_FIRST <=? data) && (data <=? SERMUX_SERVICE_ID_LAST).
