(* ===== verification/Buf.v ===== *)
(** * The character-device ring buffers (src/buf.c, inc/buf.h)

    [buf_desc] is the C structure; every operation is the C function with the
    descriptor tables threaded explicitly. [buf_rep] is the abstract view of a
    descriptor: the FIFO queue it holds. *)
From S2P Require Import Prelude Platform.

Definition BUF_ID_UART : Z := 0.
Definition BUF_ID_ADC : Z := 1.
Definition BUF_SIZE_NONE : Z := 0.
Definition BUF_DSIZE_U8 : Z := 0.
Definition BUF_DSIZE_U16 : Z := 1.
Definition BUF_DSIZE_U32 : Z := 2.

(** [buf] is the heap block of the buffer, [None] for the NULL pointer. *)
Record buf_desc := BufDesc {
  logsize : Z;
  wptr : Z;
  rptr : Z;
  count : Z;
  buf : option mem;
  logdsize : Z
}.

(** The two descriptor arrays; [buf_desc_array] selects one by resource id. *)
Record buf_state := BufState {
  buf_desc_uart : list buf_desc;
  buf_desc_adc : list buf_desc
}.

Definition buf_desc_array (b : buf_state) (resid : Z) : option (list buf_desc) :=
  if resid =? BUF_ID_UART then Some (buf_desc_uart b)
  else if resid =? BUF_ID_ADC then Some (buf_desc_adc b) else None.

Definition set_desc_array (b : buf_state) (resid : Z) (l : list buf_desc) : buf_state :=
  if resid =? BUF_ID_UART then BufState l (buf_desc_adc b) else BufState (buf_desc_uart b) l.

(** The helper macros. *)
Definition BUF_MOD_INCR (p : buf_desc) (m : Z) : Z :=
  u16 (Z.land (m + Z.shiftl 1 (logdsize p)) (Z.shiftl 1 (logsize p) - 1)).

Definition BUF_REALSIZE (p : buf_desc) : Z := Z.shiftl 1 (logsize p - logdsize p).

Definition BUF_BYTESIZE (p : buf_desc) : Z := Z.shiftl 1 (logsize p).

Definition BUF_REALDSIZE (p : buf_desc) : Z := Z.shiftl 1 (logdsize p).

Definition BUF_GETPTR (b : buf_state) (resid resnum : Z) : option buf_desc :=
  l ← buf_desc_array b resid; if decide (0 <= resnum) then l !! Z.to_nat resnum else None.

Definition BUF_SETPTR (b : buf_state) (resid resnum : Z) (p : buf_desc) : buf_state :=
  match buf_desc_array b resid with
  | Some l => set_desc_array b resid (<[Z.to_nat resnum := p]> l)
  | None => b
  end.

Section resources.
Context `{PlatformConf}.

Definition bufh_check_resnum (resid resnum : Z) : Z :=
  if (resid =? BUF_ID_UART) && (SERMUX_SERVICE_ID_FIRST <=? resnum)
  then resnum - SERMUX_SERVICE_ID_FIRST + NUM_UART
  else resnum.

Definition BUF_CHECK_RESNUM (resid resnum : Z) : Z :=
  if BUILD_SERMUX then bufh_check_resnum resid resnum else resnum.
End resources.

(** ** Operations on one descriptor

    [realloc old n] is the C allocator's answer: [None] for NULL. *)

Definition desc_set (realloc : option mem → Z → option mem) (logsize0 logdsize0 : Z)
    (p : buf_desc) : buf_desc * Z :=
  let p1 := BufDesc (u8 (logsize0 + logdsize0)) (wptr p) (rptr p) (count p) (buf p) (u8 logdsize0) in
  match realloc (buf p1) (BUF_BYTESIZE p1) with
  | None =>
      (BufDesc BUF_SIZE_NONE 0 0 0 None (logdsize p1),
       if negb (logsize0 =? BUF_SIZE_NONE) then PLATFORM_ERR else PLATFORM_OK)
  | Some m =>
      (BufDesc (logsize p1) (wptr p1) (rptr p1) (count p1) (Some m) (logdsize p1), PLATFORM_OK)
  end.

Definition desc_flush (p : buf_desc) : buf_desc :=
  BufDesc (logsize p) 0 0 0 (buf p) (logdsize p).

(** [data] is the object the caller's pointer designates. *)
Definition desc_write (data : mem) (p : buf_desc) : option (buf_desc * Z) :=
  if logsize p =? BUF_SIZE_NONE then Some (p, PLATFORM_ERR)
  else if BUF_REALSIZE p <? count p then Some (p, PLATFORM_ERR)
  else
    m ← buf p;
    '(m', _, _) ← DUFF_DEVICE_8 (copy_step data) (BUF_REALDSIZE p) (Some (m, wptr p, 0));
    Some (BufDesc (logsize p) (BUF_MOD_INCR p (wptr p)) (rptr p) (u16 (count p + 1))
            (Some m') (logdsize p), PLATFORM_OK).

(** [buf_read] up to its three writes: the copy into [data], the decrement of
    [count] under disabled interrupts, and the advance of [rptr]. *)
Definition desc_read_copy (data : mem) (p : buf_desc) : option mem :=
  m ← buf p;
  '(data', _, _) ← DUFF_DEVICE_8 (copy_step m) (BUF_REALDSIZE p) (Some (data, 0, rptr p));
  Some data'.

Definition desc_read_decr (p : buf_desc) : buf_desc :=
  BufDesc (logsize p) (wptr p) (rptr p) (u16 (count p - 1)) (buf p) (logdsize p).

Definition desc_read_incr (p : buf_desc) : buf_desc :=
  BufDesc (logsize p) (wptr p) (BUF_MOD_INCR p (rptr p)) (count p) (buf p) (logdsize p).

Definition desc_read (data : mem) (p : buf_desc) : option (buf_desc * mem * Z) :=
  if (logsize p =? BUF_SIZE_NONE) || (count p =? 0) then Some (p, data, PLATFORM_UNDERFLOW)
  else
    data' ← desc_read_copy data p;
    Some (desc_read_incr (desc_read_decr p), data', PLATFORM_OK).

(** ** The API of inc/buf.h *)
Section api.
Context `{PlatformConf}.

Definition buf_set (realloc : option mem → Z → option mem) (b : buf_state)
    (resid resnum logsize0 logdsize0 : Z) : option (buf_state * Z) :=
  let resnum := BUF_CHECK_RESNUM resid resnum in
  p ← BUF_GETPTR b resid resnum;
  let '(p', res) := desc_set realloc logsize0 logdsize0 p in
  Some (BUF_SETPTR b resid resnum p', res).

Definition buf_flush (b : buf_state) (resid resnum : Z) : option buf_state :=
  let resnum := BUF_CHECK_RESNUM resid resnum in
  p ← BUF_GETPTR b resid resnum;
  Some (BUF_SETPTR b resid resnum (desc_flush p)).

Definition buf_write (b : buf_state) (resid resnum : Z) (data : mem) : option (buf_state * Z) :=
  let resnum := BUF_CHECK_RESNUM resid resnum in
  p ← BUF_GETPTR b resid resnum;
  '(p', res) ← desc_write data p;
  Some (BUF_SETPTR b resid resnum p', res).

Definition buf_is_enabled (b : buf_state) (resid resnum : Z) : option bool :=
  p ← BUF_GETPTR b resid (BUF_CHECK_RESNUM resid resnum);
  Some (negb (logsize p =? BUF_SIZE_NONE)).

Definition buf_get_size (b : buf_state) (resid resnum : Z) : option Z :=
  p ← BUF_GETPTR b resid (BUF_CHECK_RESNUM resid resnum);
  Some (if logsize p =? BUF_SIZE_NONE then 0 else BUF_REALSIZE p).

Definition buf_get_count (b : buf_state) (resid resnum : Z) : option Z :=
  p ← BUF_GETPTR b resid (BUF_CHECK_RESNUM resid resnum);
  Some (count p).

Definition buf_read (b : buf_state) (resid resnum : Z) (data : mem) :
    option (buf_state * mem * Z) :=
  let resnum := BUF_CHECK_RESNUM resid resnum in
  p ← BUF_GETPTR b resid resnum;
  '(p', data', res) ← desc_read data p;
  Some (BUF_SETPTR b resid resnum p', data', res).
End api.

(** ** The abstract queue of a descriptor *)

Definition dsz (p : buf_desc) : Z := 2 ^ logdsize p.
Definition cap (p : buf_desc) : Z := 2 ^ (logsize p - logdsize p).

(** The sizes for which the 16-bit indexes of [buf_desc] can address the block. *)
Definition dims_ok (p : buf_desc) : Prop :=
  0 <= logdsize p <= logsize p ∧ 0 < logsize p <= 16 ∧ logsize p - logdsize p <= 15.

(** Slot [i] of the ring that starts at slot [r]. *)
Definition slot (p : buf_desc) (r i : Z) : Z := ((r + i) mod cap p) * dsz p.

(** [buf_rep p q]: [p] is an enabled buffer that holds the elements [q], oldest first; the write that the guard lets through on a full
    buffer makes them one more than there is room for, and then the first and the last are in the same place. *)
Definition buf_rep (p : buf_desc) (q : list (list Z)) : Prop :=
  ∃ m r, buf p = Some m ∧ dims_ok p ∧ msize m = 2 ^ logsize p ∧
    0 <= r < cap p ∧ rptr p = r * dsz p ∧
    wptr p = slot p r (Z.of_nat (length q)) ∧
    count p = Z.of_nat (length q) ∧ Z.of_nat (length q) <= cap p + 1 ∧
    ∀ i e, q !! i = Some e → mread m (slot p r (Z.of_nat i)) (dsz p) = Some e ∧ bytes_ok e.

Section desc.
Variables (p : buf_desc).
Hypothesis Hdims : dims_ok p.

Lemma dsz_pos : 0 < dsz p.
Proof. apply Z.pow_pos_nonneg; [lia|]. unfold dims_ok in *. lia. Qed.

Lemma cap_pos : 0 < cap p.
Proof. apply Z.pow_pos_nonneg; [lia|]. unfold dims_ok in *. lia. Qed.

Lemma bytesize_cap : 2 ^ logsize p = cap p * dsz p.
Proof.
  unfold cap, dsz, dims_ok in *. rewrite <- Z.pow_add_r by lia. f_equal. lia.
Qed.

Lemma bytesize_max : cap p * dsz p <= 65536.
Proof.
  rewrite <- bytesize_cap. change 65536 with (2 ^ 16).
  apply Z.pow_le_mono_r; [lia|]. unfold dims_ok in *. lia.
Qed.

Lemma realdsize_dsz : BUF_REALDSIZE p = dsz p.
Proof. apply Z.shiftl_1_l. Qed.

Lemma realsize_cap : BUF_REALSIZE p = cap p.
Proof. apply Z.shiftl_1_l. Qed.

Lemma mod_incr_slot s : 0 <= s < cap p → BUF_MOD_INCR p (s * dsz p) = ((s + 1) mod cap p) * dsz p.
Proof.
  intros Hs. unfold BUF_MOD_INCR. pose proof dsz_pos. pose proof cap_pos.
  unfold dims_ok in *. rewrite Z.shiftl_1_l, land_ones_mod by lia.
  fold (dsz p). rewrite bytesize_cap.
  replace (s * dsz p + dsz p) with ((s + 1) * dsz p) by ring.
  rewrite ring_scale by done. apply u16_id.
  pose proof (Z.mod_pos_bound (s + 1) (cap p) ltac:(done)). pose proof bytesize_max. nia.
Qed.

Lemma slot_range r i : 0 <= slot p r i ∧ slot p r i + dsz p <= cap p * dsz p.
Proof.
  unfold slot. pose proof dsz_pos. pose proof cap_pos.
  pose proof (Z.mod_pos_bound (r + i) (cap p) ltac:(done)). nia.
Qed.

Lemma slot_0 r : 0 <= r < cap p → slot p r 0 = r * dsz p.
Proof. intros. unfold slot. rewrite Z.add_0_r, Z.mod_small by done. done. Qed.

Lemma slot_succ r i : slot p ((r + 1) mod cap p) i = slot p r (i + 1).
Proof. unfold slot. rewrite ring_index_succ; [done|apply cap_pos]. Qed.

Lemma slot_cap r : slot p r (cap p) = slot p r 0.
Proof.
  unfold slot. rewrite Z.add_0_r. pose proof cap_pos.
  by rewrite <- (Z.mul_1_l (cap p)) at 1; rewrite Z.mod_add by lia.
Qed.

Lemma slot_disjoint r i j :
  0 <= i < cap p → 0 <= j < cap p → i ≠ j →
  slot p r i + dsz p <= slot p r j ∨ slot p r j + dsz p <= slot p r i.
Proof.
  intros Hi Hj Hne. unfold slot. pose proof dsz_pos.
  assert ((r + i) mod cap p ≠ (r + j) mod cap p) by (intros ?%ring_index_inj; done).
  destruct (Z.lt_ge_cases ((r + i) mod cap p) ((r + j) mod cap p)); [left|right]; nia.
Qed.

Lemma desc_copy src m d s e m' :
  mread src s (dsz p) = Some e → bytes_ok e → mwrite m d e = Some m' →
  DUFF_DEVICE_8 (copy_step src) (BUF_REALDSIZE p) (Some (m, d, s)) =
    Some (m', d + dsz p, s + dsz p).
Proof.
  intros Hr He Hw. pose proof dsz_pos. rewrite realdsize_dsz, duff_iter by done.
  rewrite <- (Z2Nat.id (dsz p)) in Hr by lia.
  erewrite copy_step_iter; [|done..]. by rewrite Z2Nat.id by lia.
Qed.
End desc.

(** ** Functional correctness on the abstract queue *)

#[local] Arguments cap : simpl never.
#[local] Arguments dsz : simpl never.
#[local] Arguments slot : simpl never.
#[local] Arguments BUF_MOD_INCR : simpl never.

(** The dimensions of a descriptor that an operation returns are those of [p]. *)
Ltac norm_dims p :=
  cbn; repeat first
    [ progress change (cap (BufDesc (logsize p) _ _ _ _ (logdsize p))) with (cap p)
    | progress change (dsz (BufDesc (logsize p) _ _ _ _ (logdsize p))) with (dsz p)
    | progress change (dims_ok (BufDesc (logsize p) _ _ _ _ (logdsize p))) with (dims_ok p)
    | match goal with |- context [slot (BufDesc (logsize p) ?w ?x ?y ?z (logdsize p)) ?a ?b] =>
        change (slot (BufDesc (logsize p) w x y z (logdsize p)) a b) with (slot p a b) end ].

Lemma buf_rep_dims p q : buf_rep p q → dims_ok p.
Proof. intros (m & r & H); tauto. Qed.

Lemma dims_enabled p : dims_ok p → (logsize p =? BUF_SIZE_NONE) = false.
Proof. unfold dims_ok. intros. apply Z.eqb_neq. unfold BUF_SIZE_NONE. lia. Qed.

Lemma dims_cap_max p : dims_ok p → cap p <= 32768.
Proof.
  unfold dims_ok. intros. change 32768 with (2 ^ 15). apply Z.pow_le_mono_r; lia.
Qed.

(** What a write does to the block, at or below capacity. *)
Lemma desc_write_block p m data e :
  dims_ok p → buf p = Some m → msize m = 2 ^ logsize p → count p <= cap p →
  0 <= wptr p → wptr p + dsz p <= msize m →
  mread data 0 (dsz p) = Some e → bytes_ok e →
  ∃ m', mwrite m (wptr p) e = Some m' ∧
    desc_write data p = Some (BufDesc (logsize p) (BUF_MOD_INCR p (wptr p)) (rptr p)
      (u16 (count p + 1)) (Some m') (logdsize p), PLATFORM_OK).
Proof.
  intros Hd Hm Hsz Hc H0 Hw Hr He.
  pose proof (mread_msize _ _ _ _ Hr) as Hl.
  destruct (mwrite_is_Some m (wptr p) e) as [m' Hm']; [lia..|].
  exists m'. split; [done|]. unfold desc_write.
  rewrite dims_enabled, (realsize_cap p) by done.
  rewrite (proj2 (Z.ltb_ge _ _)) by done. rewrite Hm. cbn [mbind option_bind].
  by erewrite desc_copy.
Qed.

Lemma desc_write_rep p q data e :
  buf_rep p q → Z.of_nat (length q) < cap p →
  mread data 0 (dsz p) = Some e → bytes_ok e →
  ∃ p', desc_write data p = Some (p', PLATFORM_OK) ∧ buf_rep p' (q ++ [e]).
Proof.
  intros (m & r & Hm & Hd & Hsz & Hr & Hrp & Hwp & Hc & Hle & Hq) Hlt Hrd He.
  pose proof (dims_cap_max p Hd) as Hmax.
  pose proof (slot_range p Hd r (Z.of_nat (length q))) as Hs.
  pose proof (bytesize_cap p Hd) as Hbc.
  destruct (desc_write_block p m data e) as (m' & Hm' & ->); try (done || lia).
  eexists. split; [done|]. exists m', r. rewrite Hwp in *.
  pose proof (mwrite_msize _ _ _ _ Hm').
  pose proof (cap_pos p Hd) as Hcp.
  assert (Z.of_nat (length (q ++ [e])) = Z.of_nat (length q) + 1) as Hlen
    by (rewrite length_app; cbn; lia).
  split_and!; norm_dims p; rewrite ?Hlen; try done; try lia.
  - unfold slot at 1. rewrite mod_incr_slot by (try apply Z.mod_pos_bound; done).
    unfold slot. rewrite Z.add_mod_idemp_l by lia. do 2 f_equal. lia.
  - rewrite Hc, u16_id; lia.
  - intros i x Hx. norm_dims p.
    destruct (decide (i = length q)) as [->|Hne].
    + rewrite list_lookup_middle in Hx by done. simplify_eq.
      split; [|done]. rewrite <- (mread_msize _ _ _ _ Hrd). by eapply mread_mwrite_same.
    + assert (i < length q)%nat as Hi.
      { apply lookup_lt_Some in Hx. rewrite length_app in Hx. cbn in Hx. lia. }
      rewrite lookup_app_l in Hx by done. destruct (Hq i x Hx) as [Hx1 Hx2].
      split; [|done]. rewrite <- Hx1. eapply mread_mwrite_disjoint; [done|].
      rewrite (mread_msize _ _ _ _ Hrd).
      pose proof (slot_disjoint p Hd r (Z.of_nat i) (Z.of_nat (length q))). lia.
Qed.

Lemma desc_read_copy_rep p e q data :
  buf_rep p (e :: q) → dsz p <= msize data →
  ∃ data', desc_read_copy data p = Some data' ∧ mwrite data 0 e = Some data'.
Proof.
  intros (m & r & Hm & Hd & Hsz & Hr & Hrp & Hwp & Hc & Hle & Hq) Hdl.
  destruct (Hq 0%nat e eq_refl) as [He1 He2]. rewrite slot_0 in He1 by done.
  pose proof (mread_msize _ _ _ _ He1).
  destruct (mwrite_is_Some data 0 e) as [data' Hd']; [lia..|].
  exists data'. split; [|done]. unfold desc_read_copy. rewrite Hm, Hrp. cbn [mbind option_bind].
  by erewrite desc_copy.
Qed.

Lemma desc_read_advance p e q :
  buf_rep p (e :: q) → buf_rep (desc_read_incr (desc_read_decr p)) q.
Proof.
  intros (m & r & Hm & Hd & Hsz & Hr & Hrp & Hwp & Hc & Hle & Hq).
  pose proof (dims_cap_max p Hd) as Hmax.
  pose proof (cap_pos p Hd) as Hcp.
  exists m, ((r + 1) mod cap p). cbn [length] in *.
  unfold desc_read_incr, desc_read_decr.
  split_and!; norm_dims p; try done; try lia; try (apply Z.mod_pos_bound; done).
  - change (BUF_MOD_INCR _ _) with (BUF_MOD_INCR p (rptr p)). rewrite Hrp.
    by rewrite mod_incr_slot.
  - rewrite slot_succ by done. rewrite Hwp. f_equal. lia.
  - rewrite Hc, u16_id; lia.
  - intros i x Hx. norm_dims p. rewrite slot_succ by done. destruct (Hq (S i) x Hx) as [H1 H2].
    split; [|done]. rewrite <- H1. do 2 f_equal. lia.
Qed.

Lemma desc_read_rep p e q data :
  buf_rep p (e :: q) → dsz p <= msize data →
  ∃ p' data', desc_read data p = Some (p', data', PLATFORM_OK)
    ∧ mwrite data 0 e = Some data' ∧ buf_rep p' q.
Proof.
  intros Hrep Hdl. pose proof (buf_rep_dims _ _ Hrep) as Hd.
  destruct (desc_read_copy_rep p e q data) as (data' & Hcp & Hw); [done..|].
  do 2 eexists. split_and!; [|done|by apply desc_read_advance with e].
  unfold desc_read. rewrite dims_enabled by done.
  destruct Hrep as (m & r & _ & _ & _ & _ & _ & _ & Hc & _ & _). cbn [length] in Hc.
  rewrite (proj2 (Z.eqb_neq _ _)) by lia. by rewrite Hcp.
Qed.

Lemma desc_read_empty p data :
  buf_rep p [] → desc_read data p = Some (p, data, PLATFORM_UNDERFLOW).
Proof.
  intros (m & r & _ & _ & _ & _ & _ & _ & Hc & _ & _). unfold desc_read. rewrite Hc. cbn.
  by rewrite orb_true_r.
Qed.

(** Writing into a full buffer: the guard compares with [>], so the write goes through and lands on the oldest element. *)
Lemma desc_write_full_rep p q data e :
  buf_rep p q → Z.of_nat (length q) = cap p →
  mread data 0 (dsz p) = Some e → bytes_ok e →
  ∃ p', desc_write data p = Some (p', PLATFORM_OK) ∧ buf_rep p' (e :: drop 1 q ++ [e]).
Proof.
  intros (m & r & Hm & Hd & Hsz & Hr & Hrp & Hwp & Hc & Hle & Hq) Hfull Hrd He.
  pose proof (dims_cap_max p Hd) as Hmax. pose proof (cap_pos p Hd) as Hcp.
  pose proof (slot_range p Hd r 0) as Hs. pose proof (bytesize_cap p Hd) as Hbc.
  rewrite Hfull, slot_cap in Hwp by done.
  destruct (desc_write_block p m data e) as (m' & Hm' & ->); try (done || lia).
  eexists. split; [done|]. exists m', r. rewrite Hwp in *. pose proof (mwrite_msize _ _ _ _ Hm').
  assert (Z.of_nat (length (e :: drop 1 q ++ [e])) = cap p + 1) as Hlen by (cbn [length]; rewrite length_app, length_drop; cbn; lia). cbn [length] in Hlen.
  assert (mread m' (slot p r 0) (dsz p) = Some e) as Hnew by (rewrite <- (mread_msize _ _ _ _ Hrd); by eapply mread_mwrite_same).
  split_and!; norm_dims p; rewrite ?Hlen; try done; try lia.
  - rewrite slot_0, mod_incr_slot by done. unfold slot. f_equal. rewrite <- (Z.mod_add (r + 1) 1 (cap p)) by lia. f_equal. lia.
  - rewrite Hc, u16_id; lia.
  - intros i x Hx. norm_dims p. destruct i as [|i]; [cbn in Hx; by simplify_eq|]. change ((drop 1 q ++ [e]) !! i = Some x) in Hx.
    destruct (decide (Z.of_nat (S i) = cap p)) as [Hi|Hi].
    + rewrite Hi, slot_cap by done. rewrite list_lookup_middle in Hx by (rewrite length_drop; lia). by simplify_eq.
    + pose proof (lookup_lt_Some _ _ _ Hx) as Hlt. rewrite length_app, length_drop in Hlt. cbn in Hlt.
      rewrite lookup_app_l, lookup_drop in Hx by (rewrite length_drop; lia). destruct (Hq (1 + i)%nat x Hx) as [Hx1 Hx2]. split; [|done].
      rewrite <- Hx1. replace (1 + i)%nat with (S i) by lia. eapply mread_mwrite_disjoint; [done|]. rewrite (mread_msize _ _ _ _ Hrd).
      pose proof (slot_disjoint p Hd r (Z.of_nat (S i)) 0). lia.
Qed.

(** With one element too many the guard holds. *)
Lemma desc_write_over p q data : buf_rep p q → Z.of_nat (length q) = cap p + 1 → desc_write data p = Some (p, PLATFORM_ERR).
Proof.
  intros (m & r & _ & Hd & _ & _ & _ & _ & Hc & _) Hover. unfold desc_write. rewrite dims_enabled, (realsize_cap p) by done.
  by rewrite (proj2 (Z.ltb_lt _ _)) by lia.
Qed.

(** ** Buffers by resource *)

Section api_spec.
Context `{PlatformConf}.

Definition buf_holds (b : buf_state) (resid resnum : Z) (q : list (list Z)) : Prop :=
  ∃ p, BUF_GETPTR b resid (BUF_CHECK_RESNUM resid resnum) = Some p ∧ buf_rep p q.

(** The capacity in elements of a resource's buffer. *)
Definition buf_cap (b : buf_state) (resid resnum : Z) : Z :=
  default 0 (cap <$> BUF_GETPTR b resid (BUF_CHECK_RESNUM resid resnum)).

(** The element size in bytes of a resource's buffer. *)
Definition buf_dsz (b : buf_state) (resid resnum : Z) : Z :=
  default 0 (dsz <$> BUF_GETPTR b resid (BUF_CHECK_RESNUM resid resnum)).

Lemma getptr_setptr_same b resid n p p' :
  BUF_GETPTR b resid n = Some p → BUF_GETPTR (BUF_SETPTR b resid n p') resid n = Some p'.
Proof.
  unfold BUF_GETPTR, BUF_SETPTR, buf_desc_array, set_desc_array.
  intros Hp. destruct (resid =? BUF_ID_UART) eqn:E1; [|destruct (resid =? BUF_ID_ADC) eqn:E2];
    cbn in *; rewrite ?E1, ?E2; cbn; try done; case_decide; try done.
  all: apply lookup_lt_Some in Hp; by apply list_lookup_insert_eq.
Qed.

Lemma getptr_setptr_other b resid n resid' n' p' :
  (resid, n) ≠ (resid', n') → 0 <= n →
  BUF_GETPTR (BUF_SETPTR b resid n p') resid' n' = BUF_GETPTR b resid' n'.
Proof.
  unfold BUF_GETPTR, BUF_SETPTR, buf_desc_array, set_desc_array. intros Hne Hn.
  destruct (Z.eqb_spec resid BUF_ID_UART), (Z.eqb_spec resid BUF_ID_ADC),
    (Z.eqb_spec resid' BUF_ID_UART), (Z.eqb_spec resid' BUF_ID_ADC); subst; cbn; try done;
    case_decide; try done.
  all: apply list_lookup_insert_ne; intros ?; apply Hne; f_equal; lia.
Qed.

Lemma getptr_nonneg b resid n p : BUF_GETPTR b resid n = Some p → 0 <= n.
Proof. unfold BUF_GETPTR. destruct (buf_desc_array b resid); cbn; [|done]. by case_decide. Qed.

Lemma buf_holds_cap b resid n p :
  BUF_GETPTR b resid (BUF_CHECK_RESNUM resid n) = Some p →
  buf_cap b resid n = cap p ∧ buf_dsz b resid n = dsz p.
Proof. unfold buf_cap, buf_dsz. by intros ->. Qed.

(** [buf_write] appends its element at the tail of the resource's queue, reports
    [PLATFORM_OK], and leaves the descriptor of every other resource alone. *)
Lemma buf_write_holds b resid resnum q data e :
  buf_holds b resid resnum q →
  Z.of_nat (length q) < buf_cap b resid resnum →
  mread data 0 (buf_dsz b resid resnum) = Some e → bytes_ok e →
  ∃ b', buf_write b resid resnum data = Some (b', PLATFORM_OK) ∧
    buf_holds b' resid resnum (q ++ [e]) ∧
    ∀ resid' n', (resid', n') ≠ (resid, BUF_CHECK_RESNUM resid resnum) →
      BUF_GETPTR b' resid' n' = BUF_GETPTR b resid' n'.
Proof.
  intros (p & Hp & Hrep). destruct (buf_holds_cap _ _ _ _ Hp) as [-> ->]. intros Hlt Hrd He.
  destruct (desc_write_rep p q data e) as (p' & Hw & Hrep'); [done..|].
  eexists. unfold buf_write. rewrite Hp. cbn. rewrite Hw. cbn. split_and!; [done| |].
  - exists p'. split; [|done]. by eapply getptr_setptr_same.
  - intros. apply getptr_setptr_other; [congruence|]. by eapply getptr_nonneg.
Qed.

(** [buf_read] copies the oldest element of a non-empty queue to the caller's object,
    removes it, and reports [PLATFORM_OK]; other descriptors stay. *)
Lemma buf_read_holds b resid resnum q data e :
  buf_holds b resid resnum (e :: q) →
  buf_dsz b resid resnum <= msize data →
  ∃ b' data', buf_read b resid resnum data = Some (b', data', PLATFORM_OK) ∧
    mwrite data 0 e = Some data' ∧
    buf_holds b' resid resnum q ∧
    ∀ resid' n', (resid', n') ≠ (resid, BUF_CHECK_RESNUM resid resnum) →
      BUF_GETPTR b' resid' n' = BUF_GETPTR b resid' n'.
Proof.
  intros (p & Hp & Hrep). destruct (buf_holds_cap _ _ _ _ Hp) as [_ ->]. intros Hd.
  destruct (desc_read_rep p e q data) as (p' & data' & Hr & Hw & Hrep'); [done..|].
  do 2 eexists. unfold buf_read. rewrite Hp. cbn. rewrite Hr. cbn. split_and!; [done|done| |].
  - exists p'. split; [|done]. by eapply getptr_setptr_same.
  - intros. apply getptr_setptr_other; [congruence|]. by eapply getptr_nonneg.
Qed.

Lemma buf_read_underflow b resid resnum data :
  buf_holds b resid resnum [] →
  ∃ b', buf_read b resid resnum data = Some (b', data, PLATFORM_UNDERFLOW) ∧
    buf_holds b' resid resnum [].
Proof.
  intros (p & Hp & Hrep). eexists. unfold buf_read. rewrite Hp. cbn.
  rewrite desc_read_empty by done. split; [done|]. exists p. split; [|done].
  by eapply getptr_setptr_same.
Qed.

Lemma buf_is_enabled_holds b resid resnum q :
  buf_holds b resid resnum q → buf_is_enabled b resid resnum = Some true.
Proof.
  intros (p & Hp & Hrep). unfold buf_is_enabled. rewrite Hp. cbn.
  rewrite dims_enabled; [done|by eapply buf_rep_dims].
Qed.

Lemma buf_get_count_holds b resid resnum q :
  buf_holds b resid resnum q → buf_get_count b resid resnum = Some (Z.of_nat (length q)).
Proof.
  intros (p & Hp & m & r & _ & _ & _ & _ & _ & _ & Hc & _). unfold buf_get_count.
  rewrite Hp. cbn. by rewrite Hc.
Qed.

(** Writing and reading keep the dimensions of every buffer. *)
Lemma desc_write_dims p data p' res :
  desc_write data p = Some (p', res) → cap p' = cap p ∧ dsz p' = dsz p.
Proof.
  unfold desc_write. repeat case_match; try (intros; simplify_eq; done).
  destruct (buf p); cbn; [|done]. destruct (DUFF_DEVICE_8 _ _ _) as [[[? ?] ?]|]; cbn; [|done].
  intros. by simplify_eq.
Qed.

Lemma desc_read_dims p data p' d res :
  desc_read data p = Some (p', d, res) → cap p' = cap p ∧ dsz p' = dsz p.
Proof.
  unfold desc_read. case_match; [intros; simplify_eq; done|].
  destruct (desc_read_copy data p); cbn; [|done]. intros. by simplify_eq.
Qed.

Lemma setptr_dims b resid n p p' resid' n' :
  BUF_GETPTR b resid n = Some p → cap p' = cap p ∧ dsz p' = dsz p →
  cap <$> BUF_GETPTR (BUF_SETPTR b resid n p') resid' n' = cap <$> BUF_GETPTR b resid' n' ∧
  dsz <$> BUF_GETPTR (BUF_SETPTR b resid n p') resid' n' = dsz <$> BUF_GETPTR b resid' n'.
Proof.
  intros Hp [Hc Hd]. destruct (decide ((resid, n) = (resid', n'))) as [E|E].
  - simplify_eq. erewrite getptr_setptr_same by done. rewrite Hp. cbn. by rewrite Hc, Hd.
  - rewrite getptr_setptr_other; [done..|]. by eapply getptr_nonneg.
Qed.

Lemma buf_write_dims b resid n data b' res resid' n' :
  buf_write b resid n data = Some (b', res) →
  buf_cap b' resid' n' = buf_cap b resid' n' ∧ buf_dsz b' resid' n' = buf_dsz b resid' n'.
Proof.
  unfold buf_write, buf_cap, buf_dsz. destruct (BUF_GETPTR b resid _) as [p|] eqn:Hp; cbn; [|done].
  destruct (desc_write data p) as [[p' r]|] eqn:Hw; cbn; [|done]. intros. simplify_eq.
  apply desc_write_dims in Hw.
  edestruct (setptr_dims b resid) as [Hc Hd]; [done|done|]. by rewrite Hc, Hd.
Qed.

Lemma buf_read_dims b resid n data b' d res resid' n' :
  buf_read b resid n data = Some (b', d, res) →
  buf_cap b' resid' n' = buf_cap b resid' n' ∧ buf_dsz b' resid' n' = buf_dsz b resid' n'.
Proof.
  unfold buf_read, buf_cap, buf_dsz. destruct (BUF_GETPTR b resid _) as [p|] eqn:Hp; cbn; [|done].
  destruct (desc_read data p) as [[[p' d'] r]|] eqn:Hw; cbn; [|done]. intros. simplify_eq.
  apply desc_read_dims in Hw.
  edestruct (setptr_dims b resid) as [Hc Hd]; [done|done|]. by rewrite Hc, Hd.
Qed.

Lemma buf_write_frame b resid n data b' res resid' n' :
  buf_write b resid n data = Some (b', res) →
  (resid', n') ≠ (resid, BUF_CHECK_RESNUM resid n) →
  BUF_GETPTR b' resid' n' = BUF_GETPTR b resid' n'.
Proof.
  unfold buf_write. destruct (BUF_GETPTR b resid _) as [p|] eqn:Hp; cbn; [|done].
  destruct (desc_write data p) as [[p' r]|]; cbn; [|done]. intros ? Hne. simplify_eq.
  apply getptr_setptr_other; [congruence|]. by eapply getptr_nonneg.
Qed.

(** A write into a full buffer is accepted, because the guard tests [count > size]:
    it returns [PLATFORM_OK], the count goes past the size, and the next read
    returns the newest element in place of the oldest one. *)
Theorem buf_write_full_overwrites b resid resnum q data e :
  buf_holds b resid resnum q →
  Z.of_nat (length q) = buf_cap b resid resnum →
  mread data 0 (buf_dsz b resid resnum) = Some e → bytes_ok e →
  ∃ b', buf_write b resid resnum data = Some (b', PLATFORM_OK) ∧
    buf_get_count b' resid resnum = Some (buf_cap b resid resnum + 1) ∧
    ∀ data2, buf_dsz b resid resnum <= msize data2 →
      ∃ b2 data2', buf_read b' resid resnum data2 = Some (b2, data2', PLATFORM_OK) ∧
        mwrite data2 0 e = Some data2'.
Proof.
  intros (p & Hp & Hrep). destruct (buf_holds_cap _ _ _ _ Hp) as [-> ->]. intros Hf Hrd He. pose proof (cap_pos p (buf_rep_dims _ _ Hrep)).
  destruct (desc_write_full_rep p q data e) as (p' & Hw & Hrep'); [done..|]. pose proof (desc_write_dims _ _ _ _ Hw) as [Hc' Hd'].
  eexists. unfold buf_write, buf_get_count, buf_read. rewrite Hp. cbn. rewrite Hw. cbn.
  split; [done|]. erewrite getptr_setptr_same by done. cbn. split.
  - destruct Hrep' as (m & r & _ & _ & _ & _ & _ & _ & -> & _). f_equal. cbn [length]. rewrite length_app, length_drop. cbn. lia.
  - intros data2 Hd2. rewrite <- Hd' in Hd2. destruct (desc_read_rep p' e _ data2 Hrep' Hd2) as (p2 & data2' & Hr & Hw2 & _). rewrite Hr. cbn. eauto.
Qed.

(** Enabling a buffer. [realloc] obeys the C library: a non-NULL answer has the
    requested size. *)
Definition realloc_ok (realloc : option mem → Z → option mem) : Prop :=
  ∀ old n m, 0 <= n → realloc old n = Some m → msize m = n.

Lemma desc_set_flush_empty realloc ls lds p m :
  realloc_ok realloc → realloc (buf p) (2 ^ (ls + lds)) = Some m →
  0 <= ls <= 15 → 0 <= lds → 0 < ls + lds <= 16 →
  ∃ p', desc_set realloc ls lds p = (p', PLATFORM_OK) ∧ buf_rep (desc_flush p') [].
Proof.
  intros Hok Hr Hls Hld Hsum. unfold desc_set. cbn.
  unfold BUF_BYTESIZE. cbn. rewrite Z.shiftl_1_l, !u8_id by lia. rewrite Hr. cbn.
  eexists. split; [done|]. exists m, 0. cbn. set (p' := desc_flush _).
  assert (dims_ok p') as Hd by (unfold dims_ok, p'; cbn; lia).
  pose proof (cap_pos p' Hd). rewrite slot_0 by lia.
  split_and!; try lia; try done. eapply Hok; [|done]. apply Z.pow_nonneg. lia.
Qed.

(** [buf_set] followed by [buf_flush] leaves an enabled, empty queue of the
    requested capacity and element size. *)
Theorem buf_set_flush_empty realloc b resid resnum ls lds p m :
  realloc_ok realloc →
  BUF_GETPTR b resid (BUF_CHECK_RESNUM resid resnum) = Some p →
  realloc (buf p) (2 ^ (ls + lds)) = Some m →
  0 <= ls <= 15 → 0 <= lds → 0 < ls + lds <= 16 →
  ∃ b1 b2, buf_set realloc b resid resnum ls lds = Some (b1, PLATFORM_OK) ∧
    buf_flush b1 resid resnum = Some b2 ∧ buf_holds b2 resid resnum [] ∧
    buf_cap b2 resid resnum = 2 ^ ls ∧ buf_dsz b2 resid resnum = 2 ^ lds.
Proof.
  intros Hok Hp Hr Hls Hld Hsum.
  destruct (desc_set_flush_empty realloc ls lds p m) as (p' & Hset & Hrep); [done..|].
  eexists _, _. unfold buf_set, buf_flush. rewrite Hp. cbn. rewrite Hset. split; [done|].
  erewrite getptr_setptr_same by done. cbn. split; [done|].
  unfold buf_holds, buf_cap, buf_dsz.
  erewrite getptr_setptr_same by (by eapply getptr_setptr_same). cbn.
  split; [eauto|]. unfold cap, dsz. cbn. unfold desc_set in Hset.
  unfold BUF_BYTESIZE in Hset. cbn in Hset. rewrite Z.shiftl_1_l, !u8_id in Hset by lia.
  rewrite Hr in Hset. simplify_eq. cbn. split; f_equal; lia.
Qed.

(** [buf_set] keeps the old indexes: after shrinking a buffer whose write index lies
    at or past the new size, the next write is outside the block. *)
Theorem buf_set_shrink_writes_outside realloc b resid resnum ls lds p m data :
  realloc_ok realloc →
  BUF_GETPTR b resid (BUF_CHECK_RESNUM resid resnum) = Some p →
  realloc (buf p) (2 ^ (ls + lds)) = Some m →
  0 <= ls <= 15 → 0 <= lds → 0 < ls + lds <= 16 →
  2 ^ (ls + lds) <= wptr p → count p <= 2 ^ ls →
  ∃ b', buf_set realloc b resid resnum ls lds = Some (b', PLATFORM_OK) ∧
    buf_write b' resid resnum data = None.
Proof.
  intros Hok Hp Hr Hls Hld Hsum Hw Hc. unfold buf_set, buf_write, desc_set, BUF_BYTESIZE.
  rewrite Hp. cbn. rewrite Z.shiftl_1_l, !u8_id by lia. rewrite Hr. cbn.
  eexists. split; [done|]. erewrite getptr_setptr_same by done. cbn.
  set (p' := BufDesc _ _ _ _ _ _).
  assert (dims_ok p') as Hd by (unfold dims_ok, p'; cbn; lia).
  assert (cap p' = 2 ^ ls) as Hcap by (unfold cap, p'; cbn; f_equal; lia).
  unfold desc_write. rewrite dims_enabled, (realsize_cap p'), Hcap by done.
  rewrite (proj2 (Z.ltb_ge _ _)) by (unfold p'; cbn; lia). cbn.
  pose proof (dsz_pos p' Hd). rewrite realdsize_dsz, duff_iter by done.
  rewrite copy_step_oob; [done|lia|]. rewrite (Hok (buf p) (2 ^ (ls + lds)) m); [lia|apply Z.pow_nonneg; lia|done].
Qed.

(** *** Refinement of the abstract queue

    A client of inc/buf.h issues calls on one resource; the abstract machine keeps the list of elements and defines each call. *)
Inductive buf_call :=
| CallWrite (e : list Z)
| CallRead
| CallCount
| CallFlush.

Inductive buf_answer :=
| AnsStatus (res : Z)
| AnsData (e : list Z) (res : Z)
| AnsCount (n : Z).

(** A write on a full queue replaces the oldest element as well, and the next one is refused until something is read. *)
Definition queue_call (capacity dsize : Z) (q : list (list Z)) (c : buf_call) : list (list Z) * buf_answer :=
  match c with
  | CallWrite e =>
      if Z.of_nat (length q) <? capacity then (q ++ [e], AnsStatus PLATFORM_OK)
      else if Z.of_nat (length q) =? capacity then (e :: drop 1 q ++ [e], AnsStatus PLATFORM_OK)
      else (q, AnsStatus PLATFORM_ERR)
  | CallRead =>
      match q with
      | [] => ([], AnsData (replicate (Z.to_nat dsize) 0) PLATFORM_UNDERFLOW)
      | e :: q => (q, AnsData e PLATFORM_OK)
      end
  | CallCount => (q, AnsCount (Z.of_nat (length q)))
  | CallFlush => ([], AnsStatus PLATFORM_OK)
  end.

Fixpoint queue_calls (capacity dsize : Z) (q : list (list Z)) (cs : list buf_call) : list (list Z) * list buf_answer :=
  match cs with
  | [] => (q, [])
  | c :: cs => let '(q, a) := queue_call capacity dsize q c in let '(q, l) := queue_calls capacity dsize q cs in (q, a :: l)
  end.

(** The same call on the real buffers; a read uses a zeroed object of one element. *)
Definition real_call (resid resnum : Z) (b : buf_state) (c : buf_call) : option (buf_state * buf_answer) :=
  match c with
  | CallWrite e => '(b, res) ← buf_write b resid resnum e; Some (b, AnsStatus res)
  | CallRead =>
      '(b', d, res) ← buf_read b resid resnum (replicate (Z.to_nat (buf_dsz b resid resnum)) 0);
      Some (b', AnsData d res)
  | CallCount => n ← buf_get_count b resid resnum; Some (b, AnsCount n)
  | CallFlush => b ← buf_flush b resid resnum; Some (b, AnsStatus PLATFORM_OK)
  end.

Fixpoint run_calls {S A C : Type} (step : S → C → option (S * A)) (s : S) (cs : list C) :
    option (S * list A) :=
  match cs with
  | [] => Some (s, [])
  | c :: cs => '(s, a) ← step s c; '(s, l) ← run_calls step s cs; Some (s, a :: l)
  end.

(** The caller's object is an element: bytes of the size that the buffer was set to. *)
Definition call_ok (dsize : Z) (c : buf_call) : Prop :=
  match c with CallWrite e => bytes_ok e ∧ msize e = dsize | _ => True end.

Lemma desc_flush_rep p q : buf_rep p q → buf_rep (desc_flush p) [].
Proof.
  intros (m & r & Hm & Hd & Hsz & _). exists m, 0. cbn.
  change (dims_ok (desc_flush p)) with (dims_ok p). change (cap (desc_flush p)) with (cap p).
  change (slot (desc_flush p)) with (slot p). pose proof (cap_pos p Hd).
  rewrite slot_0 by lia. split_and!; try lia; done.
Qed.

Lemma buf_flush_holds b resid resnum q :
  buf_holds b resid resnum q →
  ∃ b', buf_flush b resid resnum = Some b' ∧ buf_holds b' resid resnum [] ∧
    buf_cap b' resid resnum = buf_cap b resid resnum ∧
    buf_dsz b' resid resnum = buf_dsz b resid resnum.
Proof.
  intros (p & Hp & Hrep). unfold buf_flush. rewrite Hp. cbn. eexists. split; [done|].
  unfold buf_holds, buf_cap, buf_dsz. erewrite getptr_setptr_same by done. rewrite Hp. cbn.
  split; [|done]. eexists. split; [done|]. by eapply desc_flush_rep.
Qed.

Lemma buf_write_refines b resid resnum q e :
  buf_holds b resid resnum q → bytes_ok e → msize e = buf_dsz b resid resnum →
  let r := queue_call (buf_cap b resid resnum) (buf_dsz b resid resnum) q (CallWrite e) in
  ∃ b', real_call resid resnum b (CallWrite e) = Some (b', r.2) ∧ buf_holds b' resid resnum r.1 ∧
    buf_cap b' resid resnum = buf_cap b resid resnum ∧ buf_dsz b' resid resnum = buf_dsz b resid resnum.
Proof.
  intros (p & Hp & Hrep) He Hsz. destruct (buf_holds_cap _ _ _ _ Hp) as [Ec Ed]. rewrite Ec, Ed in *. cbv zeta.
  assert (mread e 0 (dsz p) = Some e) as Hrd.
  { apply mread_spec. pose proof (msize_nonneg e). split_and!; try lia. cbn. rewrite <- Hsz. unfold msize. by rewrite Nat2Z.id, take_ge. }
  assert (∀ p' res, desc_write e p = Some (p', res) → ∃ b', real_call resid resnum b (CallWrite e) = Some (b', AnsStatus res) ∧
    BUF_GETPTR b' resid (BUF_CHECK_RESNUM resid resnum) = Some p' ∧ buf_cap b' resid resnum = cap p ∧ buf_dsz b' resid resnum = dsz p) as Hreal.
  { intros p' res Hw. assert (∃ b', buf_write b resid resnum e = Some (b', res) ∧ BUF_GETPTR b' resid (BUF_CHECK_RESNUM resid resnum) = Some p') as (b' & Hbw & Hp').
    { eexists. unfold buf_write. rewrite Hp. cbn. rewrite Hw. cbn. split; [done|]. by eapply getptr_setptr_same. }
    exists b'. unfold real_call. rewrite Hbw. destruct (buf_write_dims _ _ _ _ _ _ resid resnum Hbw) as [-> ->]. by rewrite Ec, Ed. }
  pose proof Hrep as (_ & _ & _ & _ & _ & _ & _ & _ & _ & Hle & _). unfold queue_call. destruct (Z.ltb_spec (Z.of_nat (length q)) (cap p)) as [Hlt|Hge].
  - destruct (desc_write_rep p q e e) as (p' & Hw & Hrep'); [done..|]. destruct (Hreal p' _ Hw) as (b' & Hb & Hp' & ? & ?). exists b'. split_and!; [done|by exists p'|done|done].
  - destruct (Z.eqb_spec (Z.of_nat (length q)) (cap p)) as [Heq|Hne].
    + destruct (desc_write_full_rep p q e e) as (p' & Hw & Hrep'); [done..|]. destruct (Hreal p' _ Hw) as (b' & Hb & Hp' & ? & ?). exists b'. split_and!; [done|by exists p'|done|done].
    + destruct (Hreal p _ (desc_write_over p q e Hrep ltac:(lia))) as (b' & Hb & Hp' & ? & ?). exists b'. split_and!; [done|by exists p|done|done].
Qed.

Lemma buf_call_refines b resid resnum q c :
  buf_holds b resid resnum q → call_ok (buf_dsz b resid resnum) c →
  let r := queue_call (buf_cap b resid resnum) (buf_dsz b resid resnum) q c in
  ∃ b', real_call resid resnum b c = Some (b', r.2) ∧ buf_holds b' resid resnum r.1 ∧
    buf_cap b' resid resnum = buf_cap b resid resnum ∧
    buf_dsz b' resid resnum = buf_dsz b resid resnum.
Proof.
  intros Hq Hok. destruct c as [e| | |]; [by apply buf_write_refines; destruct Hok|..]; cbn -[buf_write buf_read buf_dsz buf_get_count buf_flush] in *.
  - destruct q as [|e q]; cbn [fst snd].
    + destruct (buf_read_underflow b resid resnum (replicate (Z.to_nat (buf_dsz b resid resnum)) 0) Hq)
        as (b' & Hr & Hq'). rewrite Hr. cbn -[buf_dsz buf_cap].
      destruct (buf_read_dims _ _ _ _ _ _ _ resid resnum Hr). eauto.
    + pose proof Hq as (p & Hp & Hrep). pose proof (buf_holds_cap _ _ _ _ Hp) as [_ Hdsz].
      pose proof (dsz_pos p (buf_rep_dims _ _ Hrep)).
      destruct (buf_read_holds b resid resnum q (replicate (Z.to_nat (buf_dsz b resid resnum)) 0) e)
        as (b' & d & Hr & Hw & Hq' & _); [done|msz; lia|].
      rewrite Hr. cbn -[buf_dsz buf_cap].
      destruct (buf_read_dims _ _ _ _ _ _ _ resid resnum Hr). exists b'.
      assert (d = e) as ->; [|eauto].
      destruct Hrep as (m & r & _ & _ & _ & _ & _ & _ & _ & _ & Hel).
      destruct (Hel 0%nat e eq_refl) as [He _]. apply mread_msize in He.
      rewrite mwrite_spec in Hw. destruct Hw as (_ & _ & ->). cbn.
      rewrite drop_ge, app_nil_r; [done|]. rewrite length_replicate. unfold msize in He. lia.
  - rewrite (buf_get_count_holds _ _ _ _ Hq). cbn -[buf_dsz buf_cap]. eauto.
  - destruct (buf_flush_holds _ _ _ _ Hq) as (b' & Hf & Hq' & Hc' & Hd').
    rewrite Hf. cbn -[buf_dsz buf_cap]. eauto.
Qed.

(** C22: the ring buffers refine a queue: whatever sequence of writes, reads, counts and flushes of elements a client issues on an
    enabled buffer, with the 16-bit wrap-around of the indexes, every answer (status, data, count) is the one the list-based queue
    gives, and the buffer ends holding the queue's elements. The queue is first in, first out until a write finds it full: that
    write is accepted and takes the place of the oldest element too, and those after it are refused until an element is read. *)
Theorem buf_refines_queue b resid resnum q cs :
  buf_holds b resid resnum q → Forall (call_ok (buf_dsz b resid resnum)) cs →
  let r := queue_calls (buf_cap b resid resnum) (buf_dsz b resid resnum) q cs in
  ∃ b', run_calls (real_call resid resnum) b cs = Some (b', r.2) ∧ buf_holds b' resid resnum r.1.
Proof.
  revert b q. induction cs as [|c cs IH]; intros b q Hq Hok; [by exists b|]. apply Forall_cons in Hok as [Hc Hok]. cbn [run_calls queue_calls].
  destruct (buf_call_refines _ _ _ _ _ Hq Hc) as (b1 & Hb1 & Hq1 & Hcap & Hds). rewrite Hb1. cbn.
  destruct (queue_call _ _ q c) as [q1 a]. cbn [fst snd] in *. rewrite <- Hds in Hok. destruct (IH b1 q1 Hq1 Hok) as (b' & Hb' & Hq').
  rewrite Hcap, Hds in *. destruct (queue_calls _ _ q1 cs) as [q2 l]. exists b'. rewrite Hb'. done.
Qed.
End api_spec.

(** ** One reader interrupted by the receive handler

    [buf_read] runs in the main program and [buf_write] in the receive
    interrupt. The reader's three accesses are separate steps and the whole of
    [buf_write] (interrupts do not nest) may run between any two of them. *)

Inductive reader_pc :=
| RIdle
| RCopied (d : mem)
| RDecred (d : mem).

(** [sys_in] and [sys_out] record the elements written and read so far. *)
Record sys := Sys {
  sys_desc : buf_desc;
  sys_pc : reader_pc;
  sys_in : list mem;
  sys_out : list mem
}.

Inductive sys_step : sys → sys → Prop :=
| step_isr_write p pc i o data p' e :
    mread data 0 (dsz p) = Some e → bytes_ok e → count p < cap p →
    desc_write data p = Some (p', PLATFORM_OK) →
    sys_step (Sys p pc i o) (Sys p' pc (i ++ [e]) o)
| step_read_copy p i o data d :
    msize data = dsz p → (logsize p =? BUF_SIZE_NONE) || (count p =? 0) = false →
    desc_read_copy data p = Some d →
    sys_step (Sys p RIdle i o) (Sys p (RCopied d) i o)
| step_read_decr p d i o :
    sys_step (Sys p (RCopied d) i o) (Sys (desc_read_decr p) (RDecred d) i o)
| step_read_incr p d i o :
    sys_step (Sys p (RDecred d) i o) (Sys (desc_read_incr p) RIdle i (o ++ [d])).

(** Running the reader's steps with no interrupt in between is [buf_read]. *)
Lemma desc_read_steps p i o data p' d :
  msize data = dsz p → desc_read data p = Some (p', d, PLATFORM_OK) →
  rtc sys_step (Sys p RIdle i o) (Sys p' RIdle i (o ++ [d])).
Proof.
  unfold desc_read. intros Hd. case_match eqn:E; [done|]. intros Hr.
  destruct (desc_read_copy data p) as [d'|] eqn:Hc; cbn in Hr; [|done]. simplify_eq.
  eapply rtc_l; [by eapply step_read_copy|].
  eapply rtc_l; [apply step_read_decr|]. eapply rtc_l; [apply step_read_incr|done].
Qed.

(** What the machine's state means: the linearisation point of a read is the
    decrement of [count]. *)
Definition sys_inv (s : sys) : Prop :=
  match sys_pc s with
  | RIdle => ∃ q, buf_rep (sys_desc s) q ∧ sys_in s = sys_out s ++ q
  | RCopied d => ∃ q, buf_rep (sys_desc s) (d :: q) ∧ sys_in s = sys_out s ++ d :: q
  | RDecred d =>
      ∃ q, buf_rep (desc_read_incr (sys_desc s)) q ∧ sys_in s = sys_out s ++ d :: q
  end.

(** [buf_write] does not look at the read index. *)
Lemma desc_write_incr p data p' res :
  desc_write data p = Some (p', res) →
  desc_write data (desc_read_incr p) = Some (desc_read_incr p', res).
Proof.
  unfold desc_write, desc_read_incr. cbn. change (BUF_REALSIZE (BufDesc _ _ _ _ _ _)) with (BUF_REALSIZE p).
  case_match; [intros; by simplify_eq|]. case_match; [intros; by simplify_eq|].
  destruct (buf p) as [m|]; cbn; [|done].
  change (BUF_REALDSIZE (BufDesc _ _ _ _ _ _)) with (BUF_REALDSIZE p).
  destruct (DUFF_DEVICE_8 _ _ _) as [[[m' ?] ?]|]; cbn; [|done]. intros. by simplify_eq.
Qed.

Lemma buf_rep_count p q : buf_rep p q → count p = Z.of_nat (length q).
Proof. intros (m & r & H). tauto. Qed.

Lemma sys_write_rep p q data e p' :
  buf_rep p q → mread data 0 (dsz p) = Some e → bytes_ok e → count p < cap p →
  desc_write data p = Some (p', PLATFORM_OK) → buf_rep p' (q ++ [e]).
Proof.
  intros Hrep Hrd He Hc Hw. rewrite (buf_rep_count _ _ Hrep) in Hc.
  destruct (desc_write_rep p q data e) as (p'' & Hw' & Hrep'); [done..|].
  congruence.
Qed.

Lemma sys_inv_step s s' : sys_inv s → sys_step s s' → sys_inv s'.
Proof.
  intros Hinv Hstep. destruct Hstep as [p pc i o data p' e Hrd He Hc Hw| | |]; cbn in *.
  - destruct pc as [|d|d]; cbn in *; destruct Hinv as (q & Hrep & ->).
    + exists (q ++ [e]). rewrite app_assoc. split; [by eapply sys_write_rep|done].
    + exists (q ++ [e]). rewrite <- app_assoc. split; [|done]. by eapply (sys_write_rep p (d :: q)).
    + exists (q ++ [e]). rewrite <- app_assoc. split; [|done].
      apply desc_write_incr in Hw. by eapply (sys_write_rep (desc_read_incr p) q).
  - destruct Hinv as (q & Hrep & ->).
    destruct q as [|x q]; [by rewrite (buf_rep_count _ _ Hrep), orb_true_r in H0|].
    destruct (desc_read_copy_rep p x q data) as (d' & Hd' & Hw); [done|lia|].
    simplify_eq. exists q. assert (d = x) as ->; [|done].
    rewrite mwrite_spec in Hw. destruct Hw as (_ & Hle & ->).
    destruct Hrep as (m & r & _ & _ & _ & _ & _ & _ & _ & _ & Hq).
    destruct (Hq 0%nat x eq_refl) as [Hx _]. apply mread_msize in Hx.
    cbn. rewrite drop_ge, app_nil_r by (unfold msize in *; lia). done.
  - destruct Hinv as (q & Hrep & ->). exists q. split; [|done].
    by eapply desc_read_advance.
  - destruct Hinv as (q & Hrep & ->). exists q. rewrite <- app_assoc. done.
Qed.

Lemma sys_inv_reach s s' : sys_inv s → rtc sys_step s s' → sys_inv s'.
Proof. intros H Hr. induction Hr; eauto using sys_inv_step. Qed.

(** C21: under every interleaving of receive interrupts with the reader's accesses,
    starting from an empty buffer and as long as no interrupt fires on a full
    buffer, the elements read are the elements written, in order, from the first
    one on: none lost, repeated or reordered; and a reader that finds data is
    never stuck on an access outside the block. *)
Theorem buf_spsc_fifo p s :
  buf_rep p [] → rtc sys_step (Sys p RIdle [] []) s →
  (∃ rest, sys_in s = sys_out s ++ rest) ∧
  (sys_pc s = RIdle → count (sys_desc s) ≠ 0 →
   ∀ data, msize data = dsz (sys_desc s) → ∃ s', sys_step s s' ∧ sys_pc s' ≠ RIdle).
Proof.
  intros Hrep Hr. apply sys_inv_reach in Hr; [|exists []; done].
  destruct s as [p' pc i o]. unfold sys_inv in Hr. cbn in *. split.
  - destruct pc; destruct Hr as (q & _ & ->); eauto.
  - intros -> Hc data Hd. destruct Hr as (q & Hrep' & _).
    destruct q as [|x q]; [by rewrite (buf_rep_count _ _ Hrep') in Hc|].
    destruct (desc_read_copy_rep p' x q data) as (d & Hcp & _); [done|lia|].
    eexists. split; [eapply step_read_copy; [done| |done]|done].
    rewrite dims_enabled by (by eapply buf_rep_dims). by apply Z.eqb_neq.
Qed.

(** ** The theorems at work on a four-byte UART buffer *)

Definition demo_desc (n : Z) : buf_desc := BufDesc 2 n n 0 (Some [0; 0; 0; 0]) 0.

Definition demo_bufs : buf_state :=
  BufState [demo_desc 3; demo_desc 0; demo_desc 0; demo_desc 0] [demo_desc 0].

Definition demo_full : buf_state :=
  BufState [BufDesc 2 0 0 4 (Some [1; 2; 3; 4]) 0] [].

Definition demo_realloc (old : option mem) (n : Z) : option mem := Some (replicate (Z.to_nat n) 0).

Lemma demo_desc_rep n : 0 <= n < 4 → buf_rep (demo_desc n) [].
Proof.
  intros Hn. exists [0; 0; 0; 0], n. unfold dims_ok, slot. cbn.
  unfold cap, dsz. cbn. rewrite Z.add_0_r, Z.mod_small by lia.
  split_and!; try lia; try done; intros [|]; done.
Qed.

Lemma demo_full_holds : buf_holds (H:=demo_board) demo_full 0 0 [[1]; [2]; [3]; [4]].
Proof.
  eexists. split; [done|]. exists [1; 2; 3; 4], 0. unfold dims_ok. cbn.
  split_and!; try lia; try done. intros [|[|[|[|]]]] e; intros; simplify_eq/=.
  all: split; [done|apply bytes_ok_one; unfold byte_ok; lia].
Qed.

Lemma demo_realloc_ok : realloc_ok demo_realloc.
Proof. intros old n m Hn [= <-]. msz. lia. Qed.

(** Six writes into a buffer of four, then reads. *)
Example buf_refines_queue_witness :
  ∃ b', run_calls (real_call (H:=demo_board) 0 0) demo_bufs
          [CallWrite [7]; CallRead; CallRead; CallWrite [1]; CallWrite [2]; CallWrite [3]; CallWrite [4]; CallWrite [5]; CallWrite [6]; CallCount; CallRead; CallRead]
        = Some (b', [AnsStatus 1; AnsData [7] 1; AnsData [0] (-1); AnsStatus 1; AnsStatus 1; AnsStatus 1; AnsStatus 1; AnsStatus 1; AnsStatus 0;
                     AnsCount 5; AnsData [5] 1; AnsData [2] 1])
    ∧ buf_holds (H:=demo_board) b' 0 0 [[3]; [4]; [5]].
Proof.
  apply (buf_refines_queue (H:=demo_board) demo_bufs 0 0 []
    [CallWrite [7]; CallRead; CallRead; CallWrite [1]; CallWrite [2]; CallWrite [3]; CallWrite [4]; CallWrite [5]; CallWrite [6]; CallCount; CallRead; CallRead]).
  - exists (demo_desc 3). split; [reflexivity|]. apply demo_desc_rep. lia.
  - repeat constructor; unfold byte_ok; lia.
Defined.

Example buf_write_full_overwrites_witness :
  ∃ b', buf_write (H:=demo_board) demo_full 0 0 [9] = Some (b', PLATFORM_OK) ∧
    buf_get_count (H:=demo_board) b' 0 0 = Some (buf_cap (H:=demo_board) demo_full 0 0 + 1) ∧
    ∀ data2, buf_dsz (H:=demo_board) demo_full 0 0 <= msize data2 →
      ∃ b2 data2', buf_read (H:=demo_board) b' 0 0 data2 = Some (b2, data2', PLATFORM_OK) ∧
        mwrite data2 0 [9] = Some data2'.
Proof.
  apply (buf_write_full_overwrites (H:=demo_board) demo_full 0 0 [[1]; [2]; [3]; [4]] [9] [9]);
    [apply demo_full_holds|reflexivity..|].
  apply bytes_ok_one. unfold byte_ok. lia.
Defined.

Example buf_set_flush_empty_witness :
  ∃ b1 b2, buf_set (H:=demo_board) demo_realloc demo_full 0 0 3 1 = Some (b1, PLATFORM_OK) ∧
    buf_flush (H:=demo_board) b1 0 0 = Some b2 ∧ buf_holds (H:=demo_board) b2 0 0 [] ∧
    buf_cap (H:=demo_board) b2 0 0 = 2 ^ 3 ∧ buf_dsz (H:=demo_board) b2 0 0 = 2 ^ 1.
Proof.
  eapply (buf_set_flush_empty (H:=demo_board) demo_realloc demo_full 0 0 3 1);
    [apply demo_realloc_ok|reflexivity|reflexivity|lia..].
Defined.

Example buf_set_shrink_writes_outside_witness :
  ∃ b', buf_set (H:=demo_board) demo_realloc demo_bufs 0 0 1 0 = Some (b', PLATFORM_OK) ∧
    buf_write (H:=demo_board) b' 0 0 [5] = None.
Proof.
  eapply (buf_set_shrink_writes_outside (H:=demo_board) demo_realloc demo_bufs 0 0 1 0);
    [apply demo_realloc_ok|reflexivity|reflexivity|lia..|cbn; lia|cbn; lia].
Defined.

(** A receive interrupt lands between the reader's copy and its decrement. *)
Example buf_spsc_fifo_witness :
  let s := Sys (BufDesc 2 1 3 1 (Some [6; 0; 0; 5]) 0) (RDecred [5]) [[5]; [6]] [] in
  (∃ rest, sys_in s = sys_out s ++ rest) ∧
  (sys_pc s = RIdle → count (sys_desc s) ≠ 0 →
   ∀ data, msize data = dsz (sys_desc s) → ∃ s', sys_step s s' ∧ sys_pc s' ≠ RIdle).
Proof.
  apply (buf_spsc_fifo (demo_desc 3)); [apply demo_desc_rep; lia|].
  eapply rtc_l.
  { apply (step_isr_write _ _ _ _ [5] (BufDesc 2 0 3 1 (Some [0; 0; 0; 5]) 0) [5]);
      [reflexivity|apply bytes_ok_one; unfold byte_ok; lia|reflexivity|reflexivity]. }
  eapply rtc_l; [apply (step_read_copy _ _ _ [0] [5]); reflexivity|].
  eapply rtc_l.
  { apply (step_isr_write _ _ _ _ [6] (BufDesc 2 1 3 2 (Some [6; 0; 0; 5]) 0) [6]);
      [reflexivity|apply bytes_ok_one; unfold byte_ok; lia|reflexivity|reflexivity]. }
  eapply rtc_l; [apply step_read_decr|]. apply rtc_refl.
Defined.
