(* ===== verification/Int.v ===== *)
(** * Interrupt support (src/elua_int.c, and the interrupt dispatch of src/common.c)

    The interrupt queue, the enable flags and the Lua hook; the C handler table
    and the dispatch through the platform's descriptor table. The Lua side is
    the flag "the hook is set", the registry's handler table ([handler id] tells
    whether a Lua handler is set) and the trace of handler calls. *)
From S2P Require Import Prelude Platform.

Definition ELUA_INT_EMPTY_SLOT : Z := 0.
Definition ELUA_INT_FIRST_ID : Z := 1.
Definition LUA_INT_MAX_SOURCES : Z := 128.

Record elua_int_element := IntElem { int_id : Z; int_resnum : Z }.

#[export] Instance elua_int_element_eq_dec : EqDecision elua_int_element.
Proof. solve_decision. Defined.

Record int_state := IntState {
  elua_int_read_idx : Z;
  elua_int_write_idx : Z;
  elua_int_queue : list elua_int_element;
  elua_int_flags : list Z;
  lua_state_open : bool;
  lua_hook_set : bool;
  lua_calls : list elua_int_element
}.

(** ** The enable flags *)

Definition elua_int_is_enabled (s : int_state) (inttype : Z) : bool :=
  if inttype <? LUA_INT_MAX_SOURCES
  then ctrue (Z.land (nth (Z.to_nat (Z.shiftr inttype 5)) (elua_int_flags s) 0)
                (u32 (Z.shiftl 1 (Z.land inttype 31))))
  else false.

Definition set_flags (s : int_state) (f : list Z) : int_state :=
  IntState (elua_int_read_idx s) (elua_int_write_idx s) (elua_int_queue s) f
    (lua_state_open s) (lua_hook_set s) (lua_calls s).

Definition elua_int_enable (s : int_state) (inttype : Z) : int_state :=
  if inttype <? LUA_INT_MAX_SOURCES
  then let w := Z.to_nat (Z.shiftr inttype 5) in
       set_flags s (<[w := u32 (Z.lor (nth w (elua_int_flags s) 0)
                                  (Z.shiftl 1 (Z.land inttype 31)))]> (elua_int_flags s))
  else s.

Definition elua_int_disable (s : int_state) (inttype : Z) : int_state :=
  if inttype <? LUA_INT_MAX_SOURCES
  then let w := Z.to_nat (Z.shiftr inttype 5) in
       set_flags s (<[w := u32 (Z.land (nth w (elua_int_flags s) 0)
                                  (Z.lnot (Z.shiftl 1 (Z.land inttype 31))))]> (elua_int_flags s))
  else s.

(** The loop of [elua_int_disable_all] over the words of the flag array. *)
Fixpoint clear_words (n i : nat) (f : list Z) : list Z :=
  match n with O => f | S n => clear_words n (S i) (<[i := 0]> f) end.

Definition elua_int_disable_all (s : int_state) : int_state :=
  set_flags s (clear_words (Z.to_nat (Z.shiftr LUA_INT_MAX_SOURCES 5)) 0 (elua_int_flags s)).

(** ** The queue *)
Section queue.
Context `{PlatformConf}.

Definition INT_IDX_MASK : Z := Z.shiftl 1 PLATFORM_INT_QUEUE_LOG_SIZE - 1.

Definition queue_get (s : int_state) (i : Z) : option elua_int_element :=
  elua_int_queue s !! Z.to_nat i.

Definition elua_int_add (s : int_state) (inttype resnum : Z) : option (int_state * Z) :=
  if (inttype <? ELUA_INT_FIRST_ID) || (INT_ELUA_LAST <? inttype) then Some (s, PLATFORM_ERR)
  else if negb (lua_state_open s) || negb (elua_int_is_enabled s inttype) then Some (s, PLATFORM_ERR)
  else
    e ← queue_get s (elua_int_write_idx s);
    if negb (int_id e =? ELUA_INT_EMPTY_SLOT) then Some (s, PLATFORM_ERR)
    else
      Some (IntState (elua_int_read_idx s)
              (u8 (Z.land (elua_int_write_idx s + 1) INT_IDX_MASK))
              (<[Z.to_nat (elua_int_write_idx s) := IntElem inttype resnum]> (elua_int_queue s))
              (elua_int_flags s) (lua_state_open s) true (lua_calls s), PLATFORM_OK).

(** [elua_int_hook]: taking the element off the queue in three accesses, calling
    the Lua handler (which runs Lua code, with interrupts enabled), and clearing
    the hook when no element is left, under disabled interrupts. *)
Definition elua_int_hook_copy (s : int_state) : option elua_int_element :=
  queue_get s (elua_int_read_idx s).

Definition elua_int_hook_clear (s : int_state) : option int_state :=
  e ← queue_get s (elua_int_read_idx s);
  Some (IntState (elua_int_read_idx s) (elua_int_write_idx s)
          (<[Z.to_nat (elua_int_read_idx s) := IntElem ELUA_INT_EMPTY_SLOT (int_resnum e)]> (elua_int_queue s))
          (elua_int_flags s) (lua_state_open s) (lua_hook_set s) (lua_calls s)).

Definition elua_int_hook_incr (s : int_state) : int_state :=
  IntState (u8 (Z.land (elua_int_read_idx s + 1) INT_IDX_MASK)) (elua_int_write_idx s)
    (elua_int_queue s) (elua_int_flags s) (lua_state_open s) (lua_hook_set s) (lua_calls s).

Definition elua_int_hook_take (s : int_state) : option (int_state * elua_int_element) :=
  crt ← elua_int_hook_copy s;
  s ← elua_int_hook_clear s;
  Some (elua_int_hook_incr s, crt).

Definition elua_int_hook_call (handler : Z → bool) (crt : elua_int_element) (s : int_state) : int_state :=
  if elua_int_is_enabled s (int_id crt) && handler (int_id crt)
  then IntState (elua_int_read_idx s) (elua_int_write_idx s) (elua_int_queue s)
         (elua_int_flags s) (lua_state_open s) (lua_hook_set s) (lua_calls s ++ [crt])
  else s.

Definition elua_int_hook_finish (s : int_state) : option int_state :=
  e ← queue_get s (elua_int_read_idx s);
  if int_id e =? ELUA_INT_EMPTY_SLOT
  then Some (IntState (elua_int_read_idx s) (elua_int_write_idx s) (elua_int_queue s)
               (elua_int_flags s) (lua_state_open s) false (lua_calls s))
  else Some s.

Definition elua_int_hook (handler : Z → bool) (s : int_state) : option int_state :=
  '(s1, crt) ← elua_int_hook_take s;
  elua_int_hook_finish (elua_int_hook_call handler crt s1).

Definition elua_int_cleanup (s : int_state) : int_state :=
  let s := elua_int_disable_all s in
  IntState 0 0 (replicate (length (elua_int_queue s)) (IntElem ELUA_INT_EMPTY_SLOT 0))
    (elua_int_flags s) (lua_state_open s) (lua_hook_set s) (lua_calls s).
End queue.

(** ** C handlers

    A handler is the address of a function, 0 for NULL. *)
Section chandlers.
Context `{PlatformConf}.

Definition elua_int_set_c_handler (l : list Z) (inttype phandler : Z) : option (list Z * Z) :=
  if (inttype <? ELUA_INT_FIRST_ID) || (INT_ELUA_LAST <? inttype) then Some (l, 0)
  else
    let inttype := inttype - ELUA_INT_FIRST_ID in
    crthandler ← l !! Z.to_nat inttype;
    Some (<[Z.to_nat inttype := phandler]> l, crthandler).

Definition elua_int_get_c_handler (l : list Z) (inttype : Z) : option Z :=
  if (inttype <? ELUA_INT_FIRST_ID) || (INT_ELUA_LAST <? inttype) then Some 0
  else l !! Z.to_nat (inttype - ELUA_INT_FIRST_ID).

(** *** Dispatch (src/common.c)

    A row of the platform's [elua_int_table]: its functions change the hardware
    state [W]; [None] is a NULL entry. The timer-match functions of
    common_tmr.c are the arguments [cmn_tmr_...]. *)
Context {W : Type}.

Record elua_int_descriptor := IntDesc {
  int_set_status : option (W → Z → Z → W * Z);
  int_get_status : option (W → Z → Z);
  int_get_flag : option (W → Z → Z → W * Z)
}.

Definition platform_cpu_set_interrupt (elua_int_table : list elua_int_descriptor)
    (cmn_tmr_int_set_status : W → Z → Z → W * Z) (w : W) (id resnum status : Z) : option (W * Z) :=
  if (id <? ELUA_INT_FIRST_ID) || (INT_ELUA_LAST <? id) then Some (w, PLATFORM_INT_INVALID)
  else
    d ← elua_int_table !! Z.to_nat (id - ELUA_INT_FIRST_ID);
    match int_set_status d with
    | None => Some (w, PLATFORM_INT_NOT_HANDLED)
    | Some ps =>
        if id =? INT_TMR_MATCH then Some (cmn_tmr_int_set_status w resnum status)
        else Some (ps w resnum status)
    end.

Definition platform_cpu_get_interrupt (elua_int_table : list elua_int_descriptor)
    (cmn_tmr_int_get_status : W → Z → Z) (w : W) (id resnum : Z) : option Z :=
  if (id <? ELUA_INT_FIRST_ID) || (INT_ELUA_LAST <? id) then Some PLATFORM_INT_INVALID
  else
    d ← elua_int_table !! Z.to_nat (id - ELUA_INT_FIRST_ID);
    match int_get_status d with
    | None => Some PLATFORM_INT_NOT_HANDLED
    | Some pg => Some (if id =? INT_TMR_MATCH then cmn_tmr_int_get_status w resnum else pg w resnum)
    end.

Definition platform_cpu_get_interrupt_flag (elua_int_table : list elua_int_descriptor)
    (cmn_tmr_int_get_flag : W → Z → Z → W * Z) (w : W) (id resnum clear : Z) : option (W * Z) :=
  if (id <? ELUA_INT_FIRST_ID) || (INT_ELUA_LAST <? id) then Some (w, PLATFORM_INT_INVALID)
  else
    d ← elua_int_table !! Z.to_nat (id - ELUA_INT_FIRST_ID);
    match int_get_flag d with
    | None => Some (w, PLATFORM_INT_NOT_HANDLED)
    | Some pf =>
        Some (if id =? INT_TMR_MATCH then cmn_tmr_int_get_flag w resnum clear else pf w resnum clear)
    end.

(** [phnd( resnum )] runs the handler's code on the hardware state. *)
Definition cmn_int_handler (run : Z → Z → W → option W) (s : int_state) (l : list Z) (w : W)
    (id resnum : Z) : option (int_state * W) :=
  '(s, _) ← elua_int_add s id resnum;
  phnd ← elua_int_get_c_handler l id;
  if negb (phnd =? 0) then w ← run phnd resnum w; Some (s, w) else Some (s, w).
End chandlers.

(** ** The flags are a set of interrupt ids *)

Definition flags_ok (s : int_state) : Prop := length (elua_int_flags s) = 4%nat.

Lemma int_enabled_bit s i :
  0 <= i < 128 →
  elua_int_is_enabled s i = Z.testbit (nth (Z.to_nat (i / 32)) (elua_int_flags s) 0) (i mod 32).
Proof.
  intros Hi. unfold elua_int_is_enabled, LUA_INT_MAX_SOURCES.
  rewrite (proj2 (Z.ltb_lt _ _)) by lia. rewrite Z.shiftr_div_pow2 by lia.
  replace (Z.land i 31) with (i mod 32) by (symmetry; apply (Z.land_ones i 5); lia).
  pose proof (Z.mod_pos_bound i 32 ltac:(lia)) as Hm.
  rewrite u32_id by (apply (shiftl_1_bound _ 32); lia).
  rewrite ctrue_land_bit by lia. done.
Qed.

Lemma nth_insert (l : list Z) (i j : nat) v :
  (i < length l)%nat → nth j (<[i := v]> l) 0 = if decide (i = j) then v else nth j l 0.
Proof.
  intros Hi. rewrite !nth_lookup. case_decide; subst.
  - by rewrite list_lookup_insert_eq.
  - by rewrite list_lookup_insert_ne.
Qed.

Lemma flag_word_lt i : 0 <= i < 128 → (Z.to_nat (Z.shiftr i 5) < 4)%nat.
Proof. intros. rewrite Z.shiftr_div_pow2 by lia. change (2 ^ 5) with 32. zlia. Qed.

Lemma div_mod_32_inj i j : i / 32 = j / 32 → i mod 32 = j mod 32 → i = j.
Proof. intros. zlia. Qed.

(** Updating the word of [i] by [f] changes bit [i] only. *)
Lemma int_flags_update s i j f :
  flags_ok s → 0 <= i < 128 → 0 <= j < 128 →
  (∀ w k, 0 <= k < 32 → k ≠ i mod 32 → Z.testbit (f w) k = Z.testbit w k) →
  elua_int_is_enabled (set_flags s (<[Z.to_nat (Z.shiftr i 5) := u32 (f (nth (Z.to_nat (Z.shiftr i 5)) (elua_int_flags s) 0))]> (elua_int_flags s))) j
  = if i =? j then Z.testbit (f (nth (Z.to_nat (Z.shiftr i 5)) (elua_int_flags s) 0)) (i mod 32)
    else elua_int_is_enabled s j.
Proof.
  intros Hok Hi Hj Hf. rewrite !int_enabled_bit by done. cbn [elua_int_flags set_flags].
  pose proof (flag_word_lt i Hi). unfold flags_ok in Hok. rewrite nth_insert by lia.
  rewrite (Z.shiftr_div_pow2 i) by lia. change (2 ^ 5) with 32.
  pose proof (Z.mod_pos_bound i 32 ltac:(lia)). pose proof (Z.mod_pos_bound j 32 ltac:(lia)).
  destruct (Z.eqb_spec i j) as [<-|Hne].
  - rewrite decide_True by done. by apply testbit_u32.
  - case_decide as E; [|done]. rewrite testbit_u32 by done.
    assert (i / 32 = j / 32) by (apply Z2Nat.inj in E; [done|apply Z.div_pos; lia..]).
    rewrite Hf; [by rewrite E|done|]. intros Hm. apply Hne, div_mod_32_inj; lia.
Qed.

(** [elua_int_enable], [elua_int_disable] and [elua_int_disable_all] implement a set
    of interrupt ids: [elua_int_is_enabled] answers exactly its membership. *)
Theorem int_flags_set s i j :
  flags_ok s → 0 <= i < 128 → 0 <= j < 128 →
  elua_int_is_enabled (elua_int_enable s i) j = (i =? j) || elua_int_is_enabled s j ∧
  elua_int_is_enabled (elua_int_disable s i) j = negb (i =? j) && elua_int_is_enabled s j ∧
  elua_int_is_enabled (elua_int_disable_all s) j = false ∧
  flags_ok (elua_int_enable s i) ∧ flags_ok (elua_int_disable s i).
Proof.
  intros Hok Hi Hj. unfold elua_int_enable, elua_int_disable, LUA_INT_MAX_SOURCES.
  rewrite !(proj2 (Z.ltb_lt i 128)) by lia.
  replace (Z.land i 31) with (i mod 32) by (symmetry; apply (Z.land_ones i 5); lia).
  pose proof (Z.mod_pos_bound i 32 ltac:(lia)) as Hm.
  split_and!; [| | |unfold flags_ok; cbn; by rewrite length_insert..].
  - rewrite (int_flags_update s i j (λ w, Z.lor w (Z.shiftl 1 (i mod 32)))); [|done..|].
    + rewrite Z.lor_spec, testbit_shiftl_1, Z.eqb_refl, orb_true_r by lia. by destruct (i =? j).
    + intros w k Hk Hne. rewrite Z.lor_spec, testbit_shiftl_1 by lia.
      by rewrite (proj2 (Z.eqb_neq _ _)), orb_false_r.
  - rewrite (int_flags_update s i j (λ w, Z.land w (Z.lnot (Z.shiftl 1 (i mod 32))))); [|done..|].
    + rewrite Z.land_spec, Z.lnot_spec, testbit_shiftl_1, Z.eqb_refl, andb_false_r by lia.
      by destruct (i =? j).
    + intros w k Hk Hne. rewrite Z.land_spec, Z.lnot_spec, testbit_shiftl_1 by lia.
      by rewrite (proj2 (Z.eqb_neq _ _)), andb_true_r.
  - rewrite int_enabled_bit by done. unfold flags_ok in Hok. cbn.
    destruct (elua_int_flags s) as [|a [|b [|c [|d [|]]]]]; try done. cbn.
    assert (Z.to_nat (j / 32) < 4)%nat as Hlt by zlia.
    destruct (Z.to_nat (j / 32)) as [|[|[|[|]]]]; cbn; try apply Z.bits_0. lia.
Qed.

(** ** The queue is a FIFO, and no interrupt is left without its hook *)
Section queue_spec.
Context `{Hconf : PlatformConf} `{!PlatformConfOk Hconf}.

(** Number of slots of the queue. *)
Definition int_slots : Z := 2 ^ PLATFORM_INT_QUEUE_LOG_SIZE.

Lemma int_slots_range : 0 < int_slots <= 128.
Proof.
  unfold int_slots. pose proof int_queue_range. split; [apply Z.pow_pos_nonneg; lia|].
  change 128 with (2 ^ 7). apply Z.pow_le_mono_r; lia.
Qed.

Lemma idx_incr i : 0 <= i < int_slots → u8 (Z.land (i + 1) INT_IDX_MASK) = (i + 1) mod int_slots.
Proof.
  intros Hi. unfold INT_IDX_MASK. pose proof int_queue_range. rewrite land_ones_mod by lia.
  fold int_slots. apply u8_id. pose proof int_slots_range.
  pose proof (Z.mod_pos_bound (i + 1) int_slots ltac:(lia)). lia.
Qed.

(** [int_rep s q]: the queue of [s] holds [q], oldest first. *)
Definition int_rep (s : int_state) (q : list elua_int_element) : Prop :=
  length (elua_int_queue s) = Z.to_nat int_slots ∧
  0 <= elua_int_read_idx s < int_slots ∧
  elua_int_write_idx s = (elua_int_read_idx s + Z.of_nat (length q)) mod int_slots ∧
  Z.of_nat (length q) <= int_slots ∧
  Forall (λ e, int_id e ≠ ELUA_INT_EMPTY_SLOT) q ∧
  ∀ i : nat, Z.of_nat i < int_slots →
    ∃ e, queue_get s ((elua_int_read_idx s + Z.of_nat i) mod int_slots) = Some e ∧
      match q !! i with Some x => e = x | None => int_id e = ELUA_INT_EMPTY_SLOT end.

Definition int_valid (inttype : Z) : Prop := ELUA_INT_FIRST_ID <= inttype <= INT_ELUA_LAST.

Lemma ring_slot_lt r i : 0 <= (r + i) mod int_slots < int_slots.
Proof. pose proof int_slots_range. apply Z.mod_pos_bound. lia. Qed.

Lemma int_rep_write_get s q :
  int_rep s q → ∃ e, queue_get s (elua_int_write_idx s) = Some e ∧
    (int_id e = ELUA_INT_EMPTY_SLOT ↔ Z.of_nat (length q) < int_slots).
Proof.
  intros (Hl & Hr & Hw & Hle & Hne & Hq). rewrite Hw. pose proof int_slots_range.
  destruct (decide (Z.of_nat (length q) < int_slots)) as [Hlt|Hge].
  - destruct (Hq (length q) Hlt) as (e & He & Hm). rewrite lookup_ge_None_2 in Hm by lia.
    by exists e.
  - destruct (Hq 0%nat ltac:(lia)) as (e & He & Hm). exists e.
    replace (Z.of_nat (length q)) with int_slots by lia.
    rewrite ring_wrap by done. rewrite Z.add_0_r, Z.mod_small in He by done.
    split; [done|]. split; [|lia]. intros Hid.
    destruct q as [|x q]; cbn in *; [lia|]. subst e. by apply Forall_cons in Hne as [? _].
Qed.

(** Queueing an enabled, valid interrupt while Lua runs. *)
Lemma int_add_rep s q inttype resnum :
  int_rep s q → int_valid inttype → lua_state_open s → elua_int_is_enabled s inttype →
  (Z.of_nat (length q) < int_slots ∧
   ∃ s', elua_int_add s inttype resnum = Some (s', PLATFORM_OK) ∧
     int_rep s' (q ++ [IntElem inttype resnum]) ∧ lua_hook_set s' = true)
  ∨ (Z.of_nat (length q) = int_slots ∧ elua_int_add s inttype resnum = Some (s, PLATFORM_ERR)).
Proof.
  intros Hrep Hv Ho He. destruct (int_rep_write_get s q Hrep) as (e & Hg & Hiff).
  pose proof Hrep as (Hl & Hr & Hw & Hle & Hne & Hq). pose proof int_slots_range.
  unfold elua_int_add, int_valid, ELUA_INT_FIRST_ID in *.
  rewrite (proj2 (Z.ltb_ge inttype _)), (proj2 (Z.ltb_ge _ inttype)) by lia. cbn.
  apply Is_true_true in Ho, He. rewrite Ho, He. cbn. rewrite Hg. cbn.
  destruct (Z.eqb_spec (int_id e) ELUA_INT_EMPTY_SLOT) as [Hid|Hid]; cbn; [left|right; split; [lia|done]].
  apply Hiff in Hid. split; [done|]. eexists. split; [done|]. split; [|done].
  assert (Z.of_nat (length (q ++ [IntElem inttype resnum])) = Z.of_nat (length q) + 1) as Hlen
    by (rewrite length_app; cbn; lia).
  pose proof (ring_slot_lt (elua_int_read_idx s) (Z.of_nat (length q))) as Hws.
  split_and!; cbn; rewrite ?Hlen; try lia.
  - by rewrite length_insert.
  - rewrite Hw, idx_incr by done. rewrite Z.add_mod_idemp_l by lia. f_equal. lia.
  - apply Forall_app. split; [done|]. apply Forall_singleton. cbn. unfold ELUA_INT_EMPTY_SLOT. lia.
  - intros i Hi. rewrite Hw. unfold queue_get in *. cbn.
    destruct (decide (i = length q)) as [->|Hin].
    + rewrite list_lookup_insert_eq by lia. rewrite list_lookup_middle by done. eauto.
    + destruct (Hq i Hi) as (x & Hx & Hm). exists x.
      rewrite list_lookup_insert_ne.
      * split; [done|]. destruct (decide (i < length q)%nat).
        -- by rewrite lookup_app_l.
        -- rewrite lookup_ge_None_2 in Hm by lia.
           by rewrite lookup_ge_None_2 by (rewrite length_app; cbn; lia).
      * pose proof (ring_slot_lt (elua_int_read_idx s) (Z.of_nat i)).
        intros E. apply Z2Nat.inj in E; [|lia..].
        apply ring_index_inj in E; lia.
Qed.

(** The hook takes the oldest element. *)
Lemma int_take_rep s e q :
  int_rep s (e :: q) →
  ∃ s', elua_int_hook_take s = Some (s', e) ∧ int_rep s' q ∧
    elua_int_flags s' = elua_int_flags s ∧ lua_hook_set s' = lua_hook_set s ∧
    lua_state_open s' = lua_state_open s ∧ lua_calls s' = lua_calls s.
Proof.
  intros (Hl & Hr & Hw & Hle & Hne & Hq). pose proof int_slots_range. cbn [length] in *.
  destruct (Hq 0%nat ltac:(lia)) as (x & Hx & ->).
  rewrite Z.add_0_r, Z.mod_small in Hx by done.
  unfold elua_int_hook_take, elua_int_hook_copy, elua_int_hook_clear. rewrite Hx. cbn.
  eexists. split; [done|]. split; [|done]. apply Forall_cons in Hne as [_ Hne].
  split_and!; cbn; try lia; rewrite ?idx_incr by done; try done.
  - by rewrite length_insert.
  - apply ring_slot_lt.
  - apply ring_slot_lt.
  - rewrite Hw, ring_index_succ by lia. f_equal. lia.
  - intros i Hi. unfold queue_get in *. cbn. rewrite ring_index_succ by lia.
    destruct (decide (Z.of_nat i + 1 = int_slots)) as [Hlast|Hnl].
    + rewrite Hlast, ring_wrap by done.
      rewrite list_lookup_insert_eq by lia. eexists. split; [done|].
      by rewrite lookup_ge_None_2 by lia.
    + destruct (Hq (S i) ltac:(lia)) as (y & Hy & Hm). exists y.
      replace (Z.of_nat (S i)) with (Z.of_nat i + 1) in Hy by lia.
      rewrite list_lookup_insert_ne; [done|].
      pose proof (ring_slot_lt (elua_int_read_idx s) (Z.of_nat i + 1)).
      intros E. apply Z2Nat.inj in E; [|lia..].
      rewrite <- (Z.mod_small (elua_int_read_idx s) int_slots) in E at 1 by done.
      rewrite <- (Z.add_0_r (elua_int_read_idx s)) in E at 1.
      apply ring_index_inj in E; lia.
Qed.

Lemma int_rep_read_empty s q :
  int_rep s q → ∃ e, queue_get s (elua_int_read_idx s) = Some e ∧
    (int_id e =? ELUA_INT_EMPTY_SLOT) = bool_decide (q = []).
Proof.
  intros (Hl & Hr & Hw & Hle & Hne & Hq). pose proof int_slots_range.
  destruct (Hq 0%nat ltac:(lia)) as (e & He & Hm).
  rewrite Z.add_0_r, Z.mod_small in He by done. exists e. split; [done|].
  destruct q as [|x q]; cbn in *.
  - by apply Z.eqb_eq.
  - subst. apply Forall_cons in Hne as [? _]. by apply Z.eqb_neq.
Qed.

(** *** The hook interrupted at any point

    The Lua virtual machine runs the hook (never nested) when it is set; an
    interrupt may call [elua_int_add] between any two of its accesses, and the
    Lua program, its handlers included, may change the enable flags. *)
Inductive hook_pc :=
| HIdle
| HCopied (crt : elua_int_element)
| HCleared (crt : elua_int_element)
| HTaken (crt : elua_int_element)
| HCalled.

Record isys := Isys {
  is_state : int_state;
  is_pc : hook_pc;
  is_added : list elua_int_element;
  is_taken : list elua_int_element
}.

Inductive isys_step (handler : Z → bool) : isys → isys → Prop :=
| istep_irq s pc a t inttype resnum s' :
    elua_int_add s inttype resnum = Some (s', PLATFORM_OK) →
    isys_step handler (Isys s pc a t) (Isys s' pc (a ++ [IntElem inttype resnum]) t)
| istep_irq_err s pc a t inttype resnum s' :
    elua_int_add s inttype resnum = Some (s', PLATFORM_ERR) →
    isys_step handler (Isys s pc a t) (Isys s' pc a t)
| istep_enable s pc a t i : isys_step handler (Isys s pc a t) (Isys (elua_int_enable s i) pc a t)
| istep_disable s pc a t i : isys_step handler (Isys s pc a t) (Isys (elua_int_disable s i) pc a t)
| istep_fire s a t crt :
    lua_hook_set s = true → elua_int_hook_copy s = Some crt →
    isys_step handler (Isys s HIdle a t) (Isys s (HCopied crt) a t)
| istep_clear s a t crt s' :
    elua_int_hook_clear s = Some s' →
    isys_step handler (Isys s (HCopied crt) a t) (Isys s' (HCleared crt) a t)
| istep_incr s a t crt :
    isys_step handler (Isys s (HCleared crt) a t) (Isys (elua_int_hook_incr s) (HTaken crt) a (t ++ [crt]))
| istep_call s a t crt :
    isys_step handler (Isys s (HTaken crt) a t) (Isys (elua_int_hook_call handler crt s) HCalled a t)
| istep_finish s a t s' :
    elua_int_hook_finish s = Some s' → isys_step handler (Isys s HCalled a t) (Isys s' HIdle a t).

(** The linearisation point of a take is the advance of the read index. *)
Definition isys_inv (x : isys) : Prop :=
  let s := is_state x in
  match is_pc x with
  | HIdle => ∃ q, int_rep s q ∧ is_added x = is_taken x ++ q ∧
      lua_hook_set s = bool_decide (q ≠ []) ∧ lua_calls s `sublist_of` is_taken x
  | HCopied crt => ∃ q, int_rep s (crt :: q) ∧ is_added x = is_taken x ++ crt :: q ∧
      lua_hook_set s = true ∧ lua_calls s `sublist_of` is_taken x
  | HCleared crt => ∃ q, int_rep (elua_int_hook_incr s) q ∧ is_added x = is_taken x ++ crt :: q ∧
      lua_hook_set s = true ∧ lua_calls s `sublist_of` is_taken x
  | HTaken crt => ∃ q t, int_rep s q ∧ is_added x = is_taken x ++ q ∧ is_taken x = t ++ [crt] ∧
      lua_hook_set s = true ∧ lua_calls s `sublist_of` t
  | HCalled => ∃ q, int_rep s q ∧ is_added x = is_taken x ++ q ∧
      lua_hook_set s = true ∧ lua_calls s `sublist_of` is_taken x
  end.

(** [int_rep] depends on the queue and its indexes only. *)
Lemma int_rep_ext s s' q :
  int_rep s q → elua_int_queue s' = elua_int_queue s →
  elua_int_read_idx s' = elua_int_read_idx s → elua_int_write_idx s' = elua_int_write_idx s →
  int_rep s' q.
Proof. unfold int_rep, queue_get. intros H -> -> ->. done. Qed.

Lemma int_add_ok_inv s inttype resnum s' :
  elua_int_add s inttype resnum = Some (s', PLATFORM_OK) →
  int_valid inttype ∧ lua_state_open s ∧ elua_int_is_enabled s inttype ∧
  lua_hook_set s' = true ∧ lua_calls s' = lua_calls s.
Proof.
  unfold elua_int_add, int_valid. destruct (_ || (INT_ELUA_LAST <? _)) eqn:E1; [done|].
  destruct (lua_state_open s), (elua_int_is_enabled s inttype); cbn; try done.
  destruct (queue_get s _) as [e|]; cbn; [|done]. case_match; intros; simplify_eq.
  cbn. split_and!; try done; lia.
Qed.

Lemma int_add_err_same s inttype resnum s' :
  elua_int_add s inttype resnum = Some (s', PLATFORM_ERR) → s' = s.
Proof.
  unfold elua_int_add. repeat case_match; try (intros; simplify_eq; done).
  destruct (queue_get s _) as [e|]; cbn; [|done]. case_match; intros; by simplify_eq.
Qed.

Lemma int_add_flags s inttype resnum s' r :
  elua_int_add s inttype resnum = Some (s', r) → elua_int_flags s' = elua_int_flags s.
Proof.
  unfold elua_int_add. case_match; [intros; by simplify_eq|].
  case_match; [intros; by simplify_eq|].
  destruct (queue_get s _); cbn; [|done]. case_match; intros; by simplify_eq.
Qed.

Lemma int_add_rep_ok s q inttype resnum s' :
  int_rep s q → elua_int_add s inttype resnum = Some (s', PLATFORM_OK) →
  int_rep s' (q ++ [IntElem inttype resnum]).
Proof.
  intros Hrep Ha. destruct (int_add_ok_inv _ _ _ _ Ha) as (Hv & Ho & He & _).
  destruct (int_add_rep s q inttype resnum) as [(_ & s2 & Ha2 & Hrep' & _)|[_ Ha2]];
    [done..| |]; rewrite Ha in Ha2; by simplify_eq.
Qed.

(** [elua_int_add] does not look at the read index. *)
Lemma int_add_incr s inttype resnum s' r :
  elua_int_add s inttype resnum = Some (s', r) →
  elua_int_add (elua_int_hook_incr s) inttype resnum = Some (elua_int_hook_incr s', r).
Proof.
  unfold elua_int_add, queue_get. cbn. case_match; [intros; by simplify_eq|].
  change (elua_int_is_enabled (elua_int_hook_incr s)) with (elua_int_is_enabled s).
  case_match; [intros; by simplify_eq|].
  destruct (elua_int_queue s !! _) as [e|]; cbn; [|done]. case_match; intros; by simplify_eq.
Qed.

Lemma isys_inv_irq s pc a t inttype resnum s' :
  isys_inv (Isys s pc a t) → elua_int_add s inttype resnum = Some (s', PLATFORM_OK) →
  isys_inv (Isys s' pc (a ++ [IntElem inttype resnum]) t).
Proof.
  intros Hinv Ha. pose proof (int_add_ok_inv _ _ _ _ Ha) as (_ & _ & _ & Hh & Hc).
  pose proof (int_add_incr _ _ _ _ _ Ha) as Ha'. unfold isys_inv in *.
  destruct pc; cbn [is_state is_pc is_added is_taken] in *; rewrite Hh, Hc;
    [destruct Hinv as (q & Hrep & -> & _ & Hs)|destruct Hinv as (q & Hrep & -> & _ & Hs)..
    |destruct Hinv as (q & t0 & Hrep & -> & -> & _ & Hs)|destruct Hinv as (q & Hrep & -> & _ & Hs)];
    exists (q ++ [IntElem inttype resnum]).
  - rewrite <- app_assoc. split_and!; try done; [by eapply int_add_rep_ok|].
    symmetry. apply bool_decide_eq_true. by destruct q.
  - rewrite <- app_assoc. split_and!; try done. by eapply (int_add_rep_ok _ (_ :: _)).
  - rewrite <- app_assoc. split_and!; try done. by eapply int_add_rep_ok.
  - exists t0. rewrite <- !app_assoc. split_and!; try done. by eapply int_add_rep_ok.
  - rewrite <- app_assoc. split_and!; try done. by eapply int_add_rep_ok.
Qed.

Lemma isys_inv_flags s pc a t f : isys_inv (Isys s pc a t) → isys_inv (Isys (set_flags s f) pc a t).
Proof. by destruct pc. Qed.

Lemma isys_inv_step handler x x' : isys_inv x → isys_step handler x x' → isys_inv x'.
Proof.
  intros Hinv Hstep. destruct Hstep as [| | | |s a t crt Hh Hc|s a t crt s' Hc| |s a t crt|s a t s' Hf].
  - by eapply isys_inv_irq.
  - apply int_add_err_same in H. by subst.
  - unfold elua_int_enable. case_match; [by apply isys_inv_flags|done].
  - unfold elua_int_disable. case_match; [by apply isys_inv_flags|done].
  - destruct Hinv as (q & Hrep & Ha & Hq & Hs). cbn [is_state is_pc is_added is_taken] in *.
    rewrite Hh in Hq. symmetry in Hq. apply bool_decide_eq_true in Hq.
    destruct q as [|e q]; [done|]. exists q.
    destruct (int_take_rep s e q Hrep) as (s1 & Ht & _). unfold elua_int_hook_take in Ht.
    rewrite Hc in Ht. cbn in Ht. destruct (elua_int_hook_clear s); cbn in Ht; by simplify_eq.
  - destruct Hinv as (q & Hrep & Ha & Hq & Hs). cbn [is_state is_pc is_added is_taken] in *.
    destruct (int_take_rep s crt q Hrep) as (s1 & Ht & Hrep1 & _). unfold elua_int_hook_take in Ht.
    destruct (elua_int_hook_copy s) as [c|]; cbn in Ht; [|done]. rewrite Hc in Ht. cbn in Ht.
    simplify_eq. exists q. split_and!; try done.
    all: unfold elua_int_hook_clear in Hc; destruct (queue_get s _); cbn in Hc; by simplify_eq.
  - destruct Hinv as (q & Hrep & Ha & Hq & Hs). cbn [is_state is_pc is_added is_taken] in *.
    exists q, t. cbn. rewrite <- app_assoc. split_and!; done.
  - destruct Hinv as (q & t0 & Hrep & Ha & Ht & Hq & Hs). cbn [is_state is_pc is_added is_taken] in *.
    exists q. unfold elua_int_hook_call. subst. cbn.
    destruct (_ && _); cbn;
      (split; [by eapply int_rep_ext|split; [done|split; [done|]]]).
    + by apply sublist_app.
    + rewrite <- (app_nil_r (lua_calls s)). apply sublist_app; [done|apply sublist_nil_l].
  - destruct Hinv as (q & Hrep & Ha & Hq & Hs). cbn [is_state is_pc is_added is_taken] in *.
    exists q. unfold elua_int_hook_finish in Hf.
    destruct (int_rep_read_empty s q Hrep) as (e & He & Hd). rewrite He in Hf. cbn in Hf.
    rewrite Hd in Hf. case_bool_decide as Hn; simplify_eq; cbn.
    + split; [by eapply int_rep_ext|]. done.
    + split; [done|]. by rewrite Hq, bool_decide_eq_true_2.
Qed.

Lemma isys_inv_reach handler x x' : isys_inv x → rtc (isys_step handler) x x' → isys_inv x'.
Proof. intros H Hr. induction Hr; eauto using isys_inv_step. Qed.

(** The pending interrupts of a state: queued and not yet taken. *)
Definition int_pending (x : isys) (p : list elua_int_element) : Prop :=
  is_added x = is_taken x ++ p ∧ Z.of_nat (length p) <= int_slots + 1.

(** C23: under every interleaving of interrupts (and of enable-flag changes) with the steps
    of the Lua hook, the interrupts the hook takes are those queued, in order, none
    lost or repeated; handlers run for taken interrupts in order, at most once each;
    and when the hook is not running it is set exactly when an interrupt is
    pending, so no queued interrupt waits without a hook to deliver it. *)
Theorem int_no_lost_wakeup handler s x :
  int_rep s [] → lua_hook_set s = false → lua_calls s = [] →
  rtc (isys_step handler) (Isys s HIdle [] []) x →
  ∃ p, int_pending x p ∧ lua_calls (is_state x) `sublist_of` is_taken x ∧
    (is_pc x = HIdle → lua_hook_set (is_state x) = bool_decide (p ≠ []) ∧
       (p ≠ [] → ∃ crt, head p = Some crt ∧
          isys_step handler x (Isys (is_state x) (HCopied crt) (is_added x) (is_taken x)))).
Proof.
  intros Hrep Hh Hc Hr. apply isys_inv_reach in Hr; [|exists []; cbn; rewrite Hc; done].
  destruct x as [s' pc a t]. unfold isys_inv, int_pending in *. destruct pc; cbn in *.
  - destruct Hr as (q & Hrep' & -> & Hq & Hs). exists q. pose proof Hrep' as (_ & _ & _ & Hle & _).
    split_and!; try done; [lia|]. intros _. split; [done|]. intros Hne.
    destruct q as [|e q]; [done|]. exists e. split; [done|]. apply istep_fire.
    { rewrite Hq. by apply bool_decide_eq_true. }
    destruct (int_take_rep s' e q Hrep') as (s1 & Ht & _). unfold elua_int_hook_take in Ht.
    destruct (elua_int_hook_copy s'); cbn in Ht; [|done].
    destruct (elua_int_hook_clear s'); cbn in Ht; by simplify_eq.
  - destruct Hr as (q & Hrep' & -> & Hq & Hs). exists (crt :: q).
    pose proof Hrep' as (_ & _ & _ & Hle & _). split_and!; try done; lia.
  - destruct Hr as (q & Hrep' & -> & Hq & Hs). exists (crt :: q).
    pose proof Hrep' as (_ & _ & _ & Hle & _). cbn [length]. split_and!; try done; lia.
  - destruct Hr as (q & t0 & Hrep' & -> & -> & Hq & Hs). exists q.
    pose proof Hrep' as (_ & _ & _ & Hle & _). split_and!; try done; [lia|].
    rewrite <- (app_nil_r (lua_calls s')). apply sublist_app; [done|apply sublist_nil_l].
  - destruct Hr as (q & Hrep' & -> & Hq & Hs). exists q.
    pose proof Hrep' as (_ & _ & _ & Hle & _). split_and!; try done; lia.
Qed.

(** [elua_int_cleanup], called when the Lua state closes. *)
Lemma int_cleanup_rep s :
  length (elua_int_queue s) = Z.to_nat int_slots → int_rep (elua_int_cleanup s) [].
Proof.
  intros Hl. pose proof int_slots_range. unfold elua_int_cleanup. split_and!; cbn; try lia.
  - by rewrite length_replicate.
  - done.
  - constructor.
  - intros i Hi. unfold queue_get. cbn. rewrite Z.mod_small by lia.
    exists (IntElem ELUA_INT_EMPTY_SLOT 0). split; [|done].
    apply lookup_replicate. split; [done|lia].
Qed.

(** The round trip of one interrupt, uninterrupted: with an empty queue, an interrupt
    that is enabled and has a Lua handler is delivered by the next run of the hook,
    exactly once, and the hook is then cleared. *)
Theorem int_add_hook_delivers handler s inttype resnum :
  int_rep s [] → int_valid inttype → lua_state_open s →
  elua_int_is_enabled s inttype → handler inttype = true →
  ∃ s1 s2, elua_int_add s inttype resnum = Some (s1, PLATFORM_OK) ∧ lua_hook_set s1 = true ∧
    elua_int_hook handler s1 = Some s2 ∧ int_rep s2 [] ∧ lua_hook_set s2 = false ∧
    lua_calls s2 = lua_calls s ++ [IntElem inttype resnum].
Proof.
  intros Hrep Hv Ho He Hh. pose proof int_slots_range.
  destruct (int_add_rep s [] inttype resnum) as [(_ & s1 & Ha & Hrep1 & Hk)|[E _]];
    [done..| |cbn in E; lia].
  pose proof (int_add_ok_inv _ _ _ _ Ha) as (_ & _ & _ & _ & Hc).
  destruct (int_take_rep s1 _ [] Hrep1) as (s2 & Ht & Hrep2 & Hf & _ & _ & Hc2).
  assert (elua_int_is_enabled s2 inttype = true) as He2.
  { apply Is_true_true in He. rewrite <- He. unfold elua_int_is_enabled. rewrite Hf.
    by rewrite (int_add_flags _ _ _ _ _ Ha). }
  destruct (int_rep_read_empty s2 [] Hrep2) as (e & Hg & Hd).
  exists s1. unfold elua_int_hook. rewrite Ht. cbn. unfold elua_int_hook_call. cbn.
  rewrite He2, Hh. cbn. unfold elua_int_hook_finish. unfold queue_get in *. cbn. rewrite Hg. cbn.
  rewrite Hd. cbn. eexists. split; [done|split; [done|split; [done|]]].
  split; [by eapply int_rep_ext|]. cbn. by rewrite Hc2, Hc.
Qed.
End queue_spec.

(** ** The theorems at work on a queue of four slots *)

Definition demo_int : int_state :=
  IntState 0 0 (replicate 4 (IntElem ELUA_INT_EMPTY_SLOT 0)) [8; 0; 0; 0] true false [].

Lemma demo_int_rep : int_rep (Hconf:=demo_board) demo_int [].
Proof.
  unfold int_rep. change (int_slots (Hconf:=demo_board)) with 4. split; [done|]. split; [cbn; lia|].
  split; [done|]. split; [cbn; lia|]. split; [constructor|].
  intros i Hi. exists (IntElem ELUA_INT_EMPTY_SLOT 0). split; [|done].
  change (int_slots (Hconf:=demo_board)) with 4 in *. unfold queue_get. cbn [elua_int_read_idx demo_int].
  rewrite Z.add_0_l, Z.mod_small by lia. apply lookup_replicate. split; [done|lia].
Qed.

Example int_flags_set_witness :
  elua_int_is_enabled (elua_int_enable demo_int 40) 40 = (40 =? 40) || elua_int_is_enabled demo_int 40 ∧
  elua_int_is_enabled (elua_int_disable demo_int 40) 40 = negb (40 =? 40) && elua_int_is_enabled demo_int 40 ∧
  elua_int_is_enabled (elua_int_disable_all demo_int) 40 = false ∧
  flags_ok (elua_int_enable demo_int 40) ∧ flags_ok (elua_int_disable demo_int 40).
Proof. apply (int_flags_set demo_int 40 40); [reflexivity|lia|lia]. Defined.

(** An interrupt arrives while the hook is between its copy and its clearing. *)
Definition demo_int_busy : int_state :=
  IntState 0 2 [IntElem 3 7; IntElem 3 9; IntElem 0 0; IntElem 0 0] [8; 0; 0; 0] true true [].

Example int_no_lost_wakeup_witness :
  let x := Isys demo_int_busy (HCopied (IntElem 3 7)) [IntElem 3 7; IntElem 3 9] [] in
  ∃ p, int_pending (Hconf:=demo_board) x p ∧ lua_calls (is_state x) `sublist_of` is_taken x ∧
    (is_pc x = HIdle → lua_hook_set (is_state x) = bool_decide (p ≠ []) ∧
       (p ≠ [] → ∃ crt, head p = Some crt ∧
          isys_step (Hconf:=demo_board) (λ _, true) x (Isys (is_state x) (HCopied crt) (is_added x) (is_taken x)))).
Proof.
  apply (int_no_lost_wakeup (Hconf:=demo_board) (λ _, true) demo_int);
    [apply demo_int_rep|reflexivity|reflexivity|].
  eapply rtc_l; [eapply (istep_irq _ _ _ _ _ 3 7); reflexivity|].
  eapply rtc_l; [eapply istep_fire; reflexivity|].
  eapply rtc_l; [eapply (istep_irq _ _ _ _ _ 3 9); reflexivity|]. apply rtc_refl.
Defined.

Example int_add_hook_delivers_witness :
  ∃ s1 s2, elua_int_add (H:=demo_board) demo_int 3 7 = Some (s1, PLATFORM_OK) ∧ lua_hook_set s1 = true ∧
    elua_int_hook (H:=demo_board) (λ _, true) s1 = Some s2 ∧ int_rep (Hconf:=demo_board) s2 [] ∧
    lua_hook_set s2 = false ∧ lua_calls s2 = [] ++ [IntElem 3 7].
Proof.
  apply (int_add_hook_delivers (Hconf:=demo_board) (λ _, true) demo_int 3 7);
    [apply demo_int_rep|unfold int_valid, ELUA_INT_FIRST_ID; cbn; lia|exact I|exact I|reflexivity].
Defined.
