(* ===== verification/Uart.v ===== *)
(** * The common UART layer and the device half of the serial multiplexer
    (src/common_uart.c)

    The receive buffers are used through the interface [RxBuffers]; the ring
    buffers of Buf.v are its implementation. The platform's
    [platform_s_uart_send] is the trace [uart_tx] of (UART, byte) pairs, and
    [platform_s_uart_recv] is an argument. *)
From S2P Require Import Prelude Platform Buf Int.

(** ** What the UART layer needs of the receive buffers *)

Section exists_.
Context `{PlatformConf}.

Definition platform_uart_exists (id : Z) : bool :=
  if BUILD_SERMUX
  then (id <? NUM_UART)
       || (SERMUX_SERVICE_ID_FIRST <=? id) && (id <? SERMUX_SERVICE_ID_FIRST + SERMUX_NUM_VUART)
  else id <? NUM_UART.
End exists_.

Class RxBuffers (T : Type) := {
  rx_write : T → Z → Z → option (T * Z);
  rx_read : T → Z → option (T * Z * Z);
  rx_enabled : T → Z → option bool;
  rx_set : T → Z → Z → Z → option (T * Z);
  rx_queue : T → Z → list Z → Prop;
  rx_room : T → Z → Z
}.

Class RxBuffersOk `{PlatformConf} (T : Type) `{!RxBuffers T} : Prop := {
  rx_write_ok t id q d :
    rx_queue t id q → Z.of_nat (length q) < rx_room t id → byte_ok d →
    ∃ t', rx_write t id d = Some (t', PLATFORM_OK) ∧ rx_queue t' id (q ++ [d]);
  rx_write_room t id d t' res : rx_write t id d = Some (t', res) → ∀ id', rx_room t' id' = rx_room t id';
  rx_write_frame t id id' d t' res q :
    0 <= id → 0 <= id' → platform_uart_exists id → platform_uart_exists id' → id ≠ id' →
    rx_write t id d = Some (t', res) → rx_queue t id' q → rx_queue t' id' q;
  rx_read_ok t id q d :
    rx_queue t id (d :: q) → ∃ t', rx_read t id = Some (t', d, PLATFORM_OK) ∧ rx_queue t' id q;
  rx_read_empty t id :
    rx_queue t id [] → ∃ t' d, rx_read t id = Some (t', d, PLATFORM_UNDERFLOW) ∧ rx_queue t' id [];
  rx_enabled_ok t id q : rx_queue t id q → rx_enabled t id = Some true
}.

(** ** The ring buffers implement the interface *)

Section instance_.
Context `{PlatformConf} (realloc : option mem → Z → option mem).

(** A buffer of one-byte elements that holds [q]. *)
Definition uart_buf_holds (b : buf_state) (id : Z) (q : list Z) : Prop :=
  buf_holds b BUF_ID_UART id ((λ c, [c]) <$> q) ∧ buf_dsz b BUF_ID_UART id = 1
  ∧ bytes_ok q.

#[local] Instance buf_rx : RxBuffers buf_state := {
  rx_write b id d := buf_write b BUF_ID_UART id [d];
  rx_read b id :=
    '(b', data, res) ← buf_read b BUF_ID_UART id [0]; d ← ld data 0; Some (b', d, res);
  rx_enabled b id := buf_is_enabled b BUF_ID_UART id;
  rx_set b id ls lds := buf_set realloc b BUF_ID_UART id ls lds;
  rx_queue := uart_buf_holds;
  rx_room b id := buf_cap b BUF_ID_UART id
}.

Lemma check_resnum_inj `{!PlatformConfOk H} id id' :
  0 <= id → 0 <= id' → platform_uart_exists id → platform_uart_exists id' →
  BUF_CHECK_RESNUM BUF_ID_UART id = BUF_CHECK_RESNUM BUF_ID_UART id' → id = id'.
Proof.
  unfold platform_uart_exists, BUF_CHECK_RESNUM, bufh_check_resnum, SERMUX_SERVICE_ID_FIRST.
  cbn. pose proof num_uart_range. intros ? ? H1 H2. destruct BUILD_SERMUX; [|done].
  apply Is_true_true in H1, H2. revert H1 H2. repeat case_match; lia.
Qed.

#[local] Instance buf_rx_ok `{!PlatformConfOk H} : RxBuffersOk buf_state.
Proof.
  split; cbn -[buf_write buf_read buf_cap buf_dsz buf_is_enabled].
  - intros b id q d (Hq & Hd & Hok) Hlt Hb.
    edestruct (buf_write_holds b BUF_ID_UART id ((λ c, [c]) <$> q) [d] [d])
      as (b' & Hw & Hq' & _); [done|by rewrite length_fmap|by rewrite Hd|by apply bytes_ok_one|].
    exists b'. split; [done|]. destruct (buf_write_dims _ _ _ _ _ _ BUF_ID_UART id Hw) as [_ Hd']. split_and!; [by rewrite fmap_app|congruence|].
    apply Forall_app. split; [done|by apply bytes_ok_one].
  - intros b id d b' res Hw id'. by destruct (buf_write_dims _ _ _ _ _ _ BUF_ID_UART id' Hw).
  - intros b id id' d b' res q H0 H0' He He' Hne Hw ((p & Hp & Hrep) & Hd & Hok).
    pose proof (buf_write_dims _ _ _ _ _ _ BUF_ID_UART id' Hw) as [_ Hd'].
    split_and!; [|congruence|done]. exists p. split; [|done].
    rewrite <- Hp. eapply buf_write_frame; [done|]. intros [=E]. by apply Hne, check_resnum_inj.
  - intros b id q d (Hq & Hd & Hok). apply Forall_cons in Hok as [Hd8 Hok].
    destruct (buf_read_holds b BUF_ID_UART id ((λ c, [c]) <$> q) [0] [d])
      as (b' & data' & Hr & Hw & Hq' & _); [done|by rewrite Hd|].
    change (Some [d] = Some data') in Hw. rewrite Hr. simplify_eq. cbn.
    eexists. split; [done|].
    destruct (buf_read_dims _ _ _ _ _ _ _ BUF_ID_UART id Hr) as [_ Hd'].
    split_and!; [done|congruence|done].
  - intros b id (Hq & Hd & Hok). destruct (buf_read_underflow b BUF_ID_UART id [0]) as (b' & Hr & Hq');
      [done|]. rewrite Hr. cbn. do 2 eexists. split; [done|].
    destruct (buf_read_dims _ _ _ _ _ _ _ BUF_ID_UART id Hr) as [_ Hd'].
    split_and!; [done|congruence|done].
  - intros b id q (Hq & _). by eapply buf_is_enabled_holds.
Qed.
End instance_.

(** ** The UART layer *)

Section uart.
Context `{PlatformConf} {T : Type} `{!RxBuffers T}.

(** [W] is the state of the hardware, [platform_s_uart_recv] the platform's
    receive function and [platform_s_uart_set_flow_control] its flow control. *)
Context {W : Type} (platform_s_uart_recv : W → Z → Z → W * Z)
  (platform_s_uart_set_flow_control : W → Z → Z → W * Z).

Record uart_state := UartState {
  u_bufs : T;
  uart_service_id_in : Z;
  uart_service_id_out : Z;
  uart_got_esc : Z;
  uart_last_sent : Z;
  uart_tx : list (Z * Z);
  u_hw : W;
  u_c_handlers : list Z;
  prev_uart_rx_handler : Z
}.

Definition u_set_bufs (s : uart_state) (t : T) : uart_state :=
  UartState t (uart_service_id_in s) (uart_service_id_out s) (uart_got_esc s) (uart_last_sent s)
    (uart_tx s) (u_hw s) (u_c_handlers s) (prev_uart_rx_handler s).

Definition u_set_id_in (s : uart_state) (id : Z) : uart_state :=
  UartState (u_bufs s) id (uart_service_id_out s) (uart_got_esc s) (uart_last_sent s)
    (uart_tx s) (u_hw s) (u_c_handlers s) (prev_uart_rx_handler s).

Definition u_set_id_out (s : uart_state) (id : Z) : uart_state :=
  UartState (u_bufs s) (uart_service_id_in s) id (uart_got_esc s) (uart_last_sent s)
    (uart_tx s) (u_hw s) (u_c_handlers s) (prev_uart_rx_handler s).

Definition u_set_got_esc (s : uart_state) (e : Z) : uart_state :=
  UartState (u_bufs s) (uart_service_id_in s) (uart_service_id_out s) e (uart_last_sent s)
    (uart_tx s) (u_hw s) (u_c_handlers s) (prev_uart_rx_handler s).

Definition u_set_last_sent (s : uart_state) (c : Z) : uart_state :=
  UartState (u_bufs s) (uart_service_id_in s) (uart_service_id_out s) (uart_got_esc s) c
    (uart_tx s) (u_hw s) (u_c_handlers s) (prev_uart_rx_handler s).

Definition u_set_hw (s : uart_state) (w : W) : uart_state :=
  UartState (u_bufs s) (uart_service_id_in s) (uart_service_id_out s) (uart_got_esc s) (uart_last_sent s)
    (uart_tx s) w (u_c_handlers s) (prev_uart_rx_handler s).

Definition u_set_handlers (s : uart_state) (l : list Z) (prev : Z) : uart_state :=
  UartState (u_bufs s) (uart_service_id_in s) (uart_service_id_out s) (uart_got_esc s) (uart_last_sent s)
    (uart_tx s) (u_hw s) l prev.

(** The platform's byte transmitter, [platform_s_uart_send( id, data )]. *)
Definition s_uart_send (s : uart_state) (id data : Z) : uart_state :=
  UartState (u_bufs s) (uart_service_id_in s) (uart_service_id_out s) (uart_got_esc s) (uart_last_sent s)
    (uart_tx s ++ [(id, u8 data)]) (u_hw s) (u_c_handlers s) (prev_uart_rx_handler s).

Definition sermux_phys : Z := if BUILD_SERMUX then SERMUX_PHYS_ID else 65535.

Definition is_vuart (id : Z) : bool :=
  (SERMUX_SERVICE_ID_FIRST <=? id) && (id <? SERMUX_SERVICE_ID_FIRST + SERMUX_NUM_VUART).

(** *** Receiving

    A blocking receive polls; [env] lists, for each further poll, what the
    interrupts between the polls do and the time elapsed on the timer. *)
Inductive recv_result :=
| Received (s : uart_state) (c : Z)
| StillWaiting (s : uart_state).

(** [cmn_recv_helper( id, 0 )]. *)
Definition cmn_recv_poll (s : uart_state) (id : Z) : option (uart_state * Z) :=
  en ← rx_enabled (u_bufs s) id;
  if (en : bool) then
    '(t, data, res) ← rx_read (u_bufs s) id;
    Some (u_set_bufs s t, if res =? PLATFORM_UNDERFLOW then -1 else data)
  else let '(w, c) := platform_s_uart_recv (u_hw s) id 0 in Some (u_set_hw s w, c).

(** [while( buf_read( ... ) == PLATFORM_UNDERFLOW );]. *)
Fixpoint cmn_recv_wait (env : list ((uart_state → option uart_state) * Z)) (s : uart_state)
    (id : Z) : option recv_result :=
  '(t, data, res) ← rx_read (u_bufs s) id;
  let s := u_set_bufs s t in
  if res =? PLATFORM_UNDERFLOW then
    match env with
    | [] => Some (StillWaiting s)
    | (irq, _) :: env => s ← irq s; cmn_recv_wait env s id
    end
  else Some (Received s data).

Definition cmn_recv_helper (env : list ((uart_state → option uart_state) * Z)) (s : uart_state)
    (id timeout : Z) : option recv_result :=
  if timeout =? 0 then '(s, c) ← cmn_recv_poll s id; Some (Received s c)
  else
    en ← rx_enabled (u_bufs s) id;
    if (en : bool) then cmn_recv_wait env s id
    else let '(w, c) := platform_s_uart_recv (u_hw s) id timeout in Some (Received (u_set_hw s w) c).

(** The polling loop with a timeout: the timer is read after each failed poll. *)
Fixpoint uart_recv_timed (env : list ((uart_state → option uart_state) * Z)) (s : uart_state)
    (id timeout : Z) : option recv_result :=
  '(s, res) ← cmn_recv_poll s id;
  if 0 <=? res then Some (Received s res)
  else
    match env with
    | [] => Some (StillWaiting s)
    | (irq, diff) :: env =>
        if u32 timeout <=? diff then Some (Received s res)
        else s ← irq s; uart_recv_timed env s id timeout
    end.

Definition platform_uart_recv (env : list ((uart_state → option uart_state) * Z)) (s : uart_state)
    (id timeout : Z) : option recv_result :=
  if timeout =? 0 then cmn_recv_helper env s id timeout
  else if timeout =? PLATFORM_UART_INFINITE_TIMEOUT then cmn_recv_helper env s id timeout
  else uart_recv_timed env s id timeout.

(** *** The receive interrupt *)

Definition u_buf_write (s : uart_state) (id data : Z) : option uart_state :=
  '(t, _) ← rx_write (u_bufs s) id data; Some (u_set_bufs s t).

Definition cmn_rx_handler (s : uart_state) (usart_id data : Z) : option uart_state :=
  if BUILD_SERMUX && (usart_id =? SERMUX_PHYS_ID) then
    if negb (data =? SERMUX_ESCAPE_CHAR) then
      if is_vuart data then Some (u_set_id_in s data)
      else if (data =? SERMUX_FORCE_SID_CHAR) && negb (uart_last_sent s =? -1) then
        let s := s_uart_send s SERMUX_PHYS_ID (uart_service_id_out s) in
        let s := if ctrue (Z.land (uart_last_sent s) SERMUX_ESC_MASK)
                 then s_uart_send s SERMUX_PHYS_ID SERMUX_ESCAPE_CHAR else s in
        let s := s_uart_send s SERMUX_PHYS_ID (Z.land (uart_last_sent s) 255) in
        Some (u_set_last_sent s (-1))
      else
        let '(s, data) :=
          if ctrue (uart_got_esc s)
          then (u_set_got_esc s 0, Z.lxor data SERMUX_ESCAPE_XOR_MASK) else (s, data) in
        if uart_service_id_in s =? -1
        then Some (s_uart_send s SERMUX_PHYS_ID SERMUX_FORCE_SID_CHAR)
        else u_buf_write s (uart_service_id_in s) data
    else Some (u_set_got_esc s 1)
  else u_buf_write s usart_id data.

(** [run] runs the C handler at an address. *)
Definition cmn_uart_rx_inthandler (run : Z → Z → uart_state → option uart_state)
    (s : uart_state) (resnum : Z) : option uart_state :=
  en ← rx_enabled (u_bufs s) resnum;
  s ← (if (en : bool) || (resnum =? sermux_phys)
       then let '(w, c) := platform_s_uart_recv (u_hw s) resnum 0 in
            cmn_rx_handler (u_set_hw s w) resnum (u8 c)
       else Some s);
  if negb (prev_uart_rx_handler s =? 0) then run (prev_uart_rx_handler s) resnum s else Some s.

(** *** Sending *)

Definition platform_uart_send (s : uart_state) (id data : Z) : uart_state :=
  if BUILD_SERMUX && is_vuart id then
    let s := if negb (id =? uart_service_id_out s) then s_uart_send s SERMUX_PHYS_ID id else s in
    let s := u_set_last_sent s data in
    let s :=
      if sermux_special data then
        let s := s_uart_send s SERMUX_PHYS_ID SERMUX_ESCAPE_CHAR in
        let s := s_uart_send s SERMUX_PHYS_ID (Z.lxor data SERMUX_ESCAPE_XOR_MASK) in
        u_set_last_sent s (Z.lor SERMUX_ESC_MASK (Z.lxor data SERMUX_ESCAPE_XOR_MASK))
      else s_uart_send s SERMUX_PHYS_ID data in
    u_set_id_out s id
  else s_uart_send s id data.

(** *** Setup *)

(** [rx_inthandler] is the address of [cmn_uart_rx_inthandler]. *)
Context (elua_int_table : list (elua_int_descriptor (W:=W)))
  (cmn_tmr_int_set_status : W → Z → Z → W * Z) (rx_inthandler : Z).

Definition u_set_interrupt (s : uart_state) (id : Z) : option (uart_state * Z) :=
  '(w, r) ← platform_cpu_set_interrupt elua_int_table cmn_tmr_int_set_status (u_hw s)
              INT_UART_RX id PLATFORM_CPU_ENABLE;
  Some (u_set_hw s w, r).

(** [if( elua_int_get_c_handler( INT_UART_RX ) != cmn_uart_rx_inthandler ) ...] *)
Definition u_install_handler (s : uart_state) : option uart_state :=
  crt ← elua_int_get_c_handler (u_c_handlers s) INT_UART_RX;
  if negb (crt =? rx_inthandler) then
    '(l, prev) ← elua_int_set_c_handler (u_c_handlers s) INT_UART_RX rx_inthandler;
    Some (u_set_handlers s l prev)
  else Some s.

Definition platform_uart_set_buffer (s : uart_state) (id log2size : Z) : option (uart_state * Z) :=
  if id =? sermux_phys then Some (s, PLATFORM_ERR)
  else if log2size =? 0 then
    if SERMUX_SERVICE_ID_FIRST <=? id then Some (s, PLATFORM_ERR)
    else '(t, _) ← rx_set (u_bufs s) id BUF_SIZE_NONE BUF_DSIZE_U8; Some (u_set_bufs s t, PLATFORM_OK)
  else
    '(t, r) ← rx_set (u_bufs s) id log2size BUF_DSIZE_U8;
    let s := u_set_bufs s t in
    if r =? PLATFORM_ERR then Some (s, PLATFORM_ERR)
    else if SERMUX_SERVICE_ID_FIRST <=? id then Some (s, PLATFORM_OK)
    else
      '(s, ri) ← u_set_interrupt s id;
      if negb (ri =? PLATFORM_INT_OK) then Some (s, PLATFORM_ERR)
      else s ← u_install_handler s; Some (s, PLATFORM_OK).

(** [inr tt]: the endless loop when the interrupt cannot be enabled. *)
Definition cmn_uart_setup_sermux (s : uart_state) : option (uart_state + unit) :=
  '(s, r) ← u_set_interrupt s SERMUX_PHYS_ID;
  if r =? PLATFORM_INT_OK then s ← u_install_handler s; Some (inl s) else Some (inr tt).

Definition uart_set_flow_control (s : uart_state) (id type : Z) : uart_state * Z :=
  if SERMUX_SERVICE_ID_FIRST <=? id then (s, PLATFORM_ERR)
  else let '(w, r) := platform_s_uart_set_flow_control (u_hw s) id type in (u_set_hw s w, r).
End uart.

Arguments uart_state : clear implicits.

(** ** Receiving with a timeout *)

Section recv_spec.
Context `{PlatformConf} {T : Type} `{!RxBuffers T, !RxBuffersOk T} {W : Type}
  (platform_s_uart_recv : W → Z → Z → W * Z).
Abbreviation dev := (uart_state T W).
Abbreviation sched := (list ((dev → option dev) * Z)).

Definition queue_of (s : dev) (id : Z) (q : list Z) : Prop := rx_queue (u_bufs s) id q.

(** Interrupts that bring nothing for [id]. *)
Definition idle_irq (id : Z) (irq : dev → option dev) : Prop :=
  ∀ s, queue_of s id [] → ∃ s', irq s = Some s' ∧ queue_of s' id [].

(** An interrupt that brings the byte [d]. *)
Definition rx_irq (id d : Z) (irq : dev → option dev) : Prop :=
  ∀ s, queue_of s id [] → ∃ s', irq s = Some s' ∧ queue_of s' id [d].

Lemma recv_poll_data s id d q :
  queue_of s id (d :: q) → ∃ s', cmn_recv_poll platform_s_uart_recv s id = Some (s', d) ∧ queue_of s' id q.
Proof.
  intros Hq. unfold cmn_recv_poll. rewrite (rx_enabled_ok _ _ _ Hq). cbn.
  destruct (rx_read_ok _ _ _ _ Hq) as (t & -> & Hq'). cbn. by eexists.
Qed.

Lemma recv_poll_empty s id :
  queue_of s id [] → ∃ s', cmn_recv_poll platform_s_uart_recv s id = Some (s', -1) ∧ queue_of s' id [].
Proof.
  intros Hq. unfold cmn_recv_poll. rewrite (rx_enabled_ok _ _ _ Hq). cbn.
  destruct (rx_read_empty _ _ Hq) as (t & d & -> & Hq'). cbn. by eexists.
Qed.

Lemma recv_wait_data env s id d q :
  queue_of s id (d :: q) → ∃ s', cmn_recv_wait env s id = Some (Received s' d) ∧ queue_of s' id q.
Proof.
  intros Hq. destruct (rx_read_ok _ _ _ _ Hq) as (t & Hr & Hq').
  destruct env; cbn [cmn_recv_wait]; rewrite Hr; cbn; by eexists.
Qed.

Lemma recv_wait_idle idle rest s id :
  Forall (λ e, idle_irq id e.1) idle → queue_of s id [] →
  ∃ s', queue_of s' id [] ∧ cmn_recv_wait (idle ++ rest) s id = cmn_recv_wait rest s' id.
Proof.
  intros Hi. revert s. induction Hi as [|[irq diff] idle Hirq _ IH]; intros s Hq; [by exists s|].
  destruct (rx_read_empty _ _ Hq) as (t & d & Hr & Hq'). cbn [app cmn_recv_wait]. rewrite Hr. cbn.
  destruct (Hirq (u_set_bufs s t) Hq') as (s1 & Hs1 & Hq1). cbn in Hs1. rewrite Hs1. cbn.
  destruct (IH s1 Hq1) as (s' & Hs' & E). by exists s'.
Qed.

Lemma recv_timed_idle idle rest s id timeout :
  Forall (λ e, idle_irq id e.1 ∧ e.2 < u32 timeout) idle → queue_of s id [] →
  ∃ s', queue_of s' id [] ∧
    uart_recv_timed platform_s_uart_recv (idle ++ rest) s id timeout =
    uart_recv_timed platform_s_uart_recv rest s' id timeout.
Proof.
  intros Hi. revert s. induction Hi as [|[irq diff] idle [Hirq Hlt] _ IH]; intros s Hq; [by exists s|].
  destruct (recv_poll_empty s id Hq) as (s1 & Hp & Hq1). cbn [app uart_recv_timed]. rewrite Hp.
  cbn [mbind option_bind Z.leb Z.compare]. rewrite (proj2 (Z.leb_gt _ _)) by (cbn in Hlt; lia).
  destruct (Hirq s1 Hq1) as (s2 & Hs2 & Hq2). cbn in Hs2. rewrite Hs2. cbn.
  destruct (IH s2 Hq2) as (s' & Hs' & E). by exists s'.
Qed.

(** [platform_uart_recv] on a buffered UART: with a timeout, it returns the first byte
    that an interrupt brings before the timer passes the timeout and -1 when the timer
    passes it first; with an infinite timeout it waits for the byte however long that
    takes; with timeout 0 it answers -1 at once. It never waits longer than that. *)
Theorem uart_recv_timeout (idle rest : sched) s id timeout irq diff d :
  queue_of s id [] → byte_ok d → Forall (λ e, idle_irq id e.1) idle →
  (timeout = 0 → ∃ s', platform_uart_recv platform_s_uart_recv (idle ++ (irq, diff) :: rest) s id timeout
     = Some (Received s' (-1)))
  ∧ (timeout = -1 → rx_irq id d irq →
       ∃ s', platform_uart_recv platform_s_uart_recv (idle ++ (irq, diff) :: rest) s id timeout
         = Some (Received s' d) ∧ queue_of s' id [])
  ∧ (timeout ≠ 0 → timeout ≠ -1 → Forall (λ e, e.2 < u32 timeout) idle →
       (u32 timeout <= diff → ∃ s',
          platform_uart_recv platform_s_uart_recv (idle ++ (irq, diff) :: rest) s id timeout
            = Some (Received s' (-1)) ∧ queue_of s' id [])
       ∧ (diff < u32 timeout → rx_irq id d irq → ∃ s',
          platform_uart_recv platform_s_uart_recv (idle ++ (irq, diff) :: rest) s id timeout
            = Some (Received s' d) ∧ queue_of s' id [])).
Proof.
  intros Hq Hd Hidle. unfold platform_uart_recv, PLATFORM_UART_INFINITE_TIMEOUT. split_and!.
  - intros ->. cbn. destruct (recv_poll_empty s id Hq) as (s' & -> & _). cbn. eauto.
  - intros -> Hirq. cbn. rewrite (rx_enabled_ok _ _ _ Hq). cbn.
    destruct (recv_wait_idle idle ((irq, diff) :: rest) s id Hidle Hq) as (s1 & Hq1 & ->).
    destruct (rx_read_empty _ _ Hq1) as (t & x & Hr & Hq2). cbn [cmn_recv_wait]. rewrite Hr. cbn.
    destruct (Hirq (u_set_bufs s1 t) Hq2) as (s3 & -> & Hq3). cbn. by apply recv_wait_data.
  - intros H0%Z.eqb_neq H1%Z.eqb_neq Hlt. rewrite H0, H1.
    destruct (recv_timed_idle idle ((irq, diff) :: rest) s id timeout) as (s1 & Hq1 & E); [|done|].
    { apply Forall_and. done. }
    rewrite E. cbn [uart_recv_timed]. destruct (recv_poll_empty s1 id Hq1) as (s2 & -> & Hq2).
    cbn [mbind option_bind Z.leb Z.compare]. split.
    + intros Hge. rewrite (proj2 (Z.leb_le _ _)) by done. eauto.
    + intros Hl Hirq. rewrite (proj2 (Z.leb_gt _ _)) by lia.
      destruct (Hirq s2 Hq2) as (s3 & -> & Hq3). cbn [mbind option_bind].
      destruct (recv_poll_data s3 id d [] Hq3) as (s4 & Hp & Hq4).
      destruct rest; cbn [uart_recv_timed]; rewrite Hp; cbn;
        rewrite (proj2 (Z.leb_le 0 d)) by (unfold byte_ok in Hd; lia); eauto.
Qed.
End recv_spec.

(** ** The theorem at work on a ring buffer *)

#[local] Instance demo_rx : RxBuffers buf_state := buf_rx (H:=demo_board) demo_realloc.
#[local] Instance demo_rx_ok : RxBuffersOk (H:=demo_board) buf_state := buf_rx_ok (H:=demo_board) demo_realloc.

(** An empty buffer always has room for a byte. *)
Lemma demo_rx_irq d : byte_ok d →
  rx_irq (W:=unit) 208 d (λ s, u_buf_write s 208 d).
Proof.
  intros Hd s Hq. pose proof Hq as ((p & Hp & Hrep) & _ & _).
  destruct (rx_write_ok (H:=demo_board) (u_bufs s) 208 [] d Hq) as (t & Hw & Hq'); [|done|].
  - change (0 < buf_cap (H:=demo_board) (u_bufs s) BUF_ID_UART 208).
    unfold buf_cap. rewrite Hp. apply cap_pos. by eapply buf_rep_dims.
  - unfold u_buf_write. cbn in Hw |- *. rewrite Hw. cbn. by eexists.
Qed.

Example uart_recv_timeout_witness :
  let recv := platform_uart_recv (W:=unit) (λ w _ _, (w, -1)) in
  let env := [(Some, 10)] ++ (λ s, u_buf_write s 208 65, 50) :: [] in
  let s := UartState demo_bufs (-1) (-1) 0 (-1) [] tt [] 0 in
  (100 = 0 → ∃ s', recv env s 208 100 = Some (Received s' (-1)))
  ∧ (100 = -1 → rx_irq (W:=unit) 208 65 (λ s, u_buf_write s 208 65) →
       ∃ s', recv env s 208 100 = Some (Received s' 65) ∧ queue_of s' 208 [])
  ∧ (100 ≠ 0 → 100 ≠ -1 → Forall (λ e, e.2 < u32 100) [(Some (A:=uart_state buf_state unit), 10)] →
       (u32 100 <= 50 → ∃ s', recv env s 208 100 = Some (Received s' (-1)) ∧ queue_of s' 208 [])
       ∧ (50 < u32 100 → rx_irq (W:=unit) 208 65 (λ s, u_buf_write s 208 65) →
            ∃ s', recv env s 208 100 = Some (Received s' 65) ∧ queue_of s' 208 [])).
Proof.
  apply (uart_recv_timeout (H:=demo_board)).
  - split; [|split; [reflexivity|constructor]].
    exists (demo_desc 0). split; [reflexivity|]. apply demo_desc_rep. lia.
  - unfold byte_ok. lia.
  - repeat constructor. intros s Hs. by exists s.
Defined.
