(* ===== verification/Mux.v ===== *)
(** * The host half of the serial multiplexer (mux_src/main.c)

    One iteration of the service thread's loop as a function of the byte that
    [ser_select_byte] returns. The remote file system server that the RFSMUX
    mode embeds is used through the interface [RfsMem] (its memory transport);
    RfsServer.v implements it. The second part proves the multiplexer against
    the device half of Uart.v. *)
From S2P Require Import Prelude Platform Buf Uart.

Definition HND_TRANSPORT_OFFSET : Z := 0.
Definition HND_FIRST_VOFFSET : Z := 1.
Definition RFS_PSEUDO_SELIDX : Z := 255.

(** The memory transport of rfs_server_src/main.c; [write_response] gives the
    response's size and its bytes in the server's buffer. *)
Class RfsMem (R : Type) := {
  rfs_mem_read_request_packet : R → Z → option (R * Z);
  rfs_mem_has_response : R → Z;
  rfs_mem_write_response : R → option (R * Z * list Z);
  rfs_mem_start_request : R → R
}.

(** What the command line fixes: the number of service ports and the mode. *)
Record mux_conf := MuxConf { vport_num : Z; mux_rfs : bool }.

Definition rfs_service_id (k : mux_conf) : Z := if mux_rfs k then SERMUX_SERVICE_ID_FIRST else -1.
Definition service_offset (k : mux_conf) : Z := if mux_rfs k then 1 else 0.

Section mux.
Context {R : Type} `{!RfsMem R} (k : mux_conf).

(** [transport_out] are the bytes sent to the device so far and [service_out] the
    bytes written to the service ports, with the index of the port. *)
Record mux_state := MuxState {
  service_id_in : Z;
  service_id_out : Z;
  got_esc : Z;
  prev_sent : Z;
  rfs_size : Z;
  rfs_ptr : list Z;
  rfs_server : R;
  transport_out : list Z;
  service_out : list (Z * Z)
}.

Definition m_set_in (h : mux_state) (id : Z) : mux_state :=
  MuxState id (service_id_out h) (got_esc h) (prev_sent h) (rfs_size h) (rfs_ptr h)
    (rfs_server h) (transport_out h) (service_out h).

Definition m_set_out (h : mux_state) (id : Z) : mux_state :=
  MuxState (service_id_in h) id (got_esc h) (prev_sent h) (rfs_size h) (rfs_ptr h)
    (rfs_server h) (transport_out h) (service_out h).

Definition m_set_esc (h : mux_state) (e : Z) : mux_state :=
  MuxState (service_id_in h) (service_id_out h) e (prev_sent h) (rfs_size h) (rfs_ptr h)
    (rfs_server h) (transport_out h) (service_out h).

Definition m_set_prev (h : mux_state) (c : Z) : mux_state :=
  MuxState (service_id_in h) (service_id_out h) (got_esc h) c (rfs_size h) (rfs_ptr h)
    (rfs_server h) (transport_out h) (service_out h).

Definition m_set_rfs (h : mux_state) (size : Z) (p : list Z) (r : R) : mux_state :=
  MuxState (service_id_in h) (service_id_out h) (got_esc h) (prev_sent h) size p r
    (transport_out h) (service_out h).

Definition transport_send_byte (h : mux_state) (data : Z) : mux_state :=
  MuxState (service_id_in h) (service_id_out h) (got_esc h) (prev_sent h) (rfs_size h) (rfs_ptr h)
    (rfs_server h) (transport_out h ++ [u8 data]) (service_out h).

(** [ser_write_byte( services[ i ].fd, c )]. *)
Definition service_write (h : mux_state) (i c : Z) : option mux_state :=
  if decide (0 <= i < vport_num k) then
    Some (MuxState (service_id_in h) (service_id_out h) (got_esc h) (prev_sent h) (rfs_size h)
            (rfs_ptr h) (rfs_server h) (transport_out h) (service_out h ++ [(i, c)]))
  else None.

(** A decoded data byte goes to the embedded server or to a service port. *)
Definition mux_deliver (h : mux_state) (c : Z) : option mux_state :=
  if service_id_in h =? rfs_service_id k then
    '(r, _) ← rfs_mem_read_request_packet (rfs_server h) c;
    if ctrue (rfs_mem_has_response r) then
      '(r, size, p) ← rfs_mem_write_response r;
      Some (m_set_rfs h (u16 size) p (rfs_mem_start_request r))
    else Some (m_set_rfs h (rfs_size h) (rfs_ptr h) r)
  else service_write h (service_id_in h - SERMUX_SERVICE_ID_FIRST - service_offset k) c.

(** Interpreting one byte from the transport; [inr 1]: the program exits with code 1. *)
Definition mux_transport_byte (h : mux_state) (c : Z) : option (mux_state + Z) :=
  if negb (c =? SERMUX_ESCAPE_CHAR) then
    if (SERMUX_SERVICE_ID_FIRST <=? c) && (c <=? SERMUX_SERVICE_ID_LAST) then Some (inl (m_set_in h c))
    else if c =? SERMUX_FORCE_SID_CHAR then
      if prev_sent h =? -1 then Some (inr 1)
      else
        let h := transport_send_byte h (service_id_out h) in
        let h := if ctrue (Z.land (prev_sent h) SERMUX_ESC_MASK)
                 then transport_send_byte h SERMUX_ESCAPE_CHAR else h in
        let h := transport_send_byte h (Z.land (prev_sent h) 255) in
        Some (inl (m_set_prev h (-1)))
    else
      let bad := ctrue (got_esc h) && negb (sermux_special (Z.lxor c SERMUX_ESCAPE_XOR_MASK)) in
      if bad then Some (inr 1)
      else
        let '(h, c) := if ctrue (got_esc h) then (m_set_esc h 0, Z.lxor c SERMUX_ESCAPE_XOR_MASK)
                       else (h, c) in
        if service_id_in h =? -1 then Some (inl (transport_send_byte h SERMUX_FORCE_SID_CHAR))
        else h ← mux_deliver h c; Some (inl h)
  else Some (inl (m_set_esc h 1)).

(** Sending a data byte that came from service handler [selidx]. *)
Definition mux_send (h : mux_state) (selidx c : Z) : mux_state :=
  let temp := if selidx =? RFS_PSEUDO_SELIDX then SERMUX_SERVICE_ID_FIRST
              else SERMUX_SERVICE_ID_FIRST + selidx - HND_FIRST_VOFFSET + service_offset k in
  let h := m_set_prev h c in
  let h := if negb (temp =? service_id_out h) then transport_send_byte h temp else h in
  let h :=
    if sermux_special c then
      let h := transport_send_byte h SERMUX_ESCAPE_CHAR in
      let h := transport_send_byte h (Z.lxor (u8 c) SERMUX_ESCAPE_XOR_MASK) in
      m_set_prev h (Z.lor SERMUX_ESC_MASK (Z.lxor (u8 c) SERMUX_ESCAPE_XOR_MASK))
    else transport_send_byte h c in
  m_set_out h temp.

(** One iteration of the service thread; [sel] is what [ser_select_byte] would
    return, read only when no response byte of the embedded server is left. *)
Definition mux_iter (h : mux_state) (sel : Z) : option (mux_state + Z) :=
  if 0 <? rfs_size h then
    match rfs_ptr h with
    | [] => None
    | c :: p => Some (inl (mux_send (m_set_rfs h (u16 (rfs_size h - 1)) p (rfs_server h)) RFS_PSEUDO_SELIDX c))
    end
  else if sel =? -1 then Some (inr 1)
  else
    let selidx := Z.shiftr sel 8 in
    let c := Z.land sel 255 in
    if selidx =? HND_TRANSPORT_OFFSET then mux_transport_byte h c
    else Some (inl (mux_send h selidx c)).

(** The iterations of [while( 1 )] that send the pending response; each sends one
    byte, so [rfs_size] of them are enough fuel. *)
Fixpoint mux_flush (fuel : nat) (h : mux_state) : option mux_state :=
  if rfs_size h <=? 0 then Some h
  else
    match fuel with
    | O => None
    | S fuel =>
        r ← mux_iter h (-1);
        match r with inl h => mux_flush fuel h | inr _ => None end
    end.

(** The service thread: pending response bytes first, then one selected byte. *)
Definition mux_next (h : mux_state) (sel : Z) : option (mux_state + Z) :=
  h ← mux_flush (Z.to_nat (rfs_size h)) h; mux_iter h sel.

Fixpoint mux_run (h : mux_state) (sels : list Z) : option (mux_state + Z) :=
  match sels with
  | [] => Some (inl h)
  | sel :: sels =>
      r ← mux_next h sel;
      match r with inl h => mux_run h sels | inr e => Some (inr e) end
  end.
End mux.

Arguments mux_state : clear implicits.

(** ** The two halves together *)

(** What the wire carries for a data byte. *)
Definition escape (d : Z) : list Z :=
  if sermux_special d then [SERMUX_ESCAPE_CHAR; Z.lxor d SERMUX_ESCAPE_XOR_MASK] else [d].

Definition encode_msg (out : Z) (m : Z * Z) : list Z :=
  (if m.1 =? out then [] else [m.1]) ++ escape m.2.

(** The encoding of a sequence of messages when the last service id sent is [out]. *)
Fixpoint encode_msgs (out : Z) (ms : list (Z * Z)) : list Z :=
  match ms with [] => [] | m :: ms => encode_msg out m ++ encode_msgs m.1 ms end.

Definition last_id (out : Z) (ms : list (Z * Z)) : Z := default out (fst <$> last ms).

Lemma escape_code_plain d :
  byte_ok d → sermux_special d = true →
  byte_ok (Z.lxor d 32) ∧ sermux_special (Z.lxor d 32) = false ∧ Z.lxor (Z.lxor d 32) 32 = d.
Proof.
  intros Hd Hs.
  assert (negb (sermux_special d) || ((0 <=? Z.lxor d 32) && (Z.lxor d 32 <? 256)
    && negb (sermux_special (Z.lxor d 32)) && (Z.lxor (Z.lxor d 32) 32 =? d)) = true) as E.
  { apply (byte_forall (λ d, negb (sermux_special d) || ((0 <=? Z.lxor d 32) && (Z.lxor d 32 <? 256)
    && negb (sermux_special (Z.lxor d 32)) && (Z.lxor (Z.lxor d 32) 32 =? d)))); done. }
  rewrite Hs in E. cbn in E. repeat (apply andb_true_iff in E as [E ?]). unfold byte_ok.
  destruct (sermux_special (Z.lxor d 32)); [done|]. split; [lia|]. split; [done|lia].
Qed.

Lemma escape_bytes d : byte_ok d → bytes_ok (escape d).
Proof.
  intros Hd. unfold escape. destruct (sermux_special d) eqn:E; [|by apply bytes_ok_one].
  destruct (escape_code_plain d Hd E) as [? _].
  constructor; [unfold byte_ok, SERMUX_ESCAPE_CHAR; lia|by apply bytes_ok_one].
Qed.

Lemma special_false d :
  sermux_special d = false →
  (d =? SERMUX_ESCAPE_CHAR) = false ∧ (d =? SERMUX_FORCE_SID_CHAR) = false ∧
  (SERMUX_SERVICE_ID_FIRST <=? d) && (d <=? SERMUX_SERVICE_ID_LAST) = false.
Proof. unfold sermux_special. intros H. apply orb_false_iff in H as [H ?]. by apply orb_false_iff in H as [? ?]. Qed.

(** The last-sent word kept for retransmission, and what is resent from it. *)
Definition last_word (d : Z) : Z :=
  if sermux_special d then Z.lor SERMUX_ESC_MASK (Z.lxor d SERMUX_ESCAPE_XOR_MASK) else d.

Definition resend (p : Z) : list Z :=
  (if ctrue (Z.land p SERMUX_ESC_MASK) then [SERMUX_ESCAPE_CHAR] else []) ++ [Z.land p 255].

Lemma resend_last_word d :
  byte_ok d → resend (last_word d) = escape d ∧ (last_word d =? -1) = false.
Proof.
  intros Hd. set (P d := bool_decide (resend (last_word d) = escape d) && negb (last_word d =? -1)).
  assert (P d = true) as HP by (apply (byte_forall P); [vm_compute; done|done]).
  unfold P in HP. apply andb_true_iff in HP as [H1%bool_decide_eq_true H2%negb_true_iff]. done.
Qed.

Section wire.
Context `{Hconf : PlatformConf} `{!PlatformConfOk Hconf} (Hmux : BUILD_SERMUX = true).

Lemma special_not_vuart d : sermux_special d = false → is_vuart d = false.
Proof.
  intros H%special_false. destruct H as (_ & _ & H). unfold is_vuart, SERMUX_SERVICE_ID_FIRST, SERMUX_SERVICE_ID_LAST in *.
  pose proof num_vuart_range. lia.
Qed.

Lemma vuart_range id : is_vuart id = true → SERMUX_SERVICE_ID_FIRST <= id <= SERMUX_SERVICE_ID_LAST.
Proof.
  unfold is_vuart, SERMUX_SERVICE_ID_FIRST, SERMUX_SERVICE_ID_LAST. pose proof num_vuart_range. lia.
Qed.

(** *** The device *)
Section device.
Context {T : Type} `{!RxBuffers T} {W : Type}.
Abbreviation dev := (uart_state T W).

(** Data messages the program sends, one [platform_uart_send] each. *)
Definition dev_send_all (s : dev) (ms : list (Z * Z)) : dev :=
  foldl (λ s m, platform_uart_send s m.1 m.2) s ms.

(** One receive interrupt on the physical UART per byte. *)
Fixpoint dev_rx_all (s : dev) (cs : list Z) : option dev :=
  match cs with [] => Some s | c :: cs => s ← cmn_rx_handler s SERMUX_PHYS_ID c; dev_rx_all s cs end.

Lemma dev_rx_app (s : dev) a b : dev_rx_all s (a ++ b) = (s ← dev_rx_all s a; dev_rx_all s b).
Proof.
  revert s. induction a as [|c a IH]; intros s; cbn; [done|].
  destruct (cmn_rx_handler s SERMUX_PHYS_ID c) as [s'|]; [apply IH|done].
Qed.

Definition on_phys (cs : list Z) : list (Z * Z) := (λ c, (SERMUX_PHYS_ID, c)) <$> cs.

Lemma dev_send_encode (s : dev) id d :
  is_vuart id = true → byte_ok d →
  uart_tx (platform_uart_send s id d) = uart_tx s ++ on_phys (encode_msg (uart_service_id_out s) (id, d)) ∧
  uart_service_id_out (platform_uart_send s id d) = id ∧
  uart_last_sent (platform_uart_send s id d) =
    (if sermux_special d then Z.lor SERMUX_ESC_MASK (Z.lxor d SERMUX_ESCAPE_XOR_MASK) else d) ∧
  u_bufs (platform_uart_send s id d) = u_bufs s ∧
  uart_service_id_in (platform_uart_send s id d) = uart_service_id_in s ∧
  uart_got_esc (platform_uart_send s id d) = uart_got_esc s.
Proof.
  intros Hid Hd. pose proof (vuart_range _ Hid) as Hr.
  unfold SERMUX_SERVICE_ID_FIRST, SERMUX_SERVICE_ID_LAST in Hr.
  unfold platform_uart_send, encode_msg, escape. rewrite Hmux, Hid. cbn [andb fst snd].
  destruct (sermux_special d) eqn:Hs.
  - destruct (escape_code_plain d Hd Hs) as (He & _ & _). unfold byte_ok in *.
    destruct (id =? uart_service_id_out s); cbn; rewrite ?(u8_id (Z.lxor d _)), ?(u8_id id) by (done || lia);
      rewrite <- ?app_assoc; done.
  - unfold byte_ok in *. destruct (id =? uart_service_id_out s); cbn; rewrite ?(u8_id d), ?(u8_id id) by (done || lia);
      rewrite <- ?app_assoc; done.
Qed.

Lemma dev_send_all_encode ms (s : dev) :
  Forall (λ m, is_vuart m.1 = true ∧ byte_ok m.2) ms →
  uart_tx (dev_send_all s ms) = uart_tx s ++ on_phys (encode_msgs (uart_service_id_out s) ms) ∧
  uart_service_id_out (dev_send_all s ms) = last_id (uart_service_id_out s) ms.
Proof.
  intros Hms. revert s. induction Hms as [|[id d] ms [Hid Hd] _ IH]; intros s.
  { cbn. by rewrite app_nil_r. }
  change (dev_send_all s ((id, d) :: ms)) with (dev_send_all (platform_uart_send s id d) ms).
  destruct (dev_send_encode s id d Hid Hd) as (Htx & Hout & _).
  destruct (IH (platform_uart_send s id d)) as [-> ->]. cbn in Hout. rewrite Htx, Hout.
  split.
  - cbn [encode_msgs fst]. unfold on_phys. by rewrite fmap_app, app_assoc.
  - unfold last_id. rewrite (last_cons (id, d)). by destruct (last ms).
Qed.

(** The receive handler on the escape character and on a byte that needs no escaping. *)
Lemma dev_rx_esc (s : dev) :
  cmn_rx_handler s SERMUX_PHYS_ID SERMUX_ESCAPE_CHAR = Some (u_set_got_esc s 1).
Proof. unfold cmn_rx_handler. rewrite Hmux, (Z.eqb_refl SERMUX_PHYS_ID). done. Qed.

Lemma dev_rx_plain (s : dev) c :
  sermux_special c = false → uart_service_id_in s ≠ -1 →
  cmn_rx_handler s SERMUX_PHYS_ID c =
    if ctrue (uart_got_esc s)
    then u_buf_write (u_set_got_esc s 0) (uart_service_id_in s) (Z.lxor c SERMUX_ESCAPE_XOR_MASK)
    else u_buf_write s (uart_service_id_in s) c.
Proof.
  intros Hs Hin%Z.eqb_neq. pose proof (special_not_vuart _ Hs) as Hv.
  apply special_false in Hs as (H1 & H2 & _).
  unfold cmn_rx_handler. rewrite Hmux, (Z.eqb_refl SERMUX_PHYS_ID), H1, Hv, H2. cbn [negb andb].
  destruct (ctrue (uart_got_esc s)); cbn; by rewrite Hin.
Qed.

(** ... and on an escaped data byte. *)
Lemma dev_rx_escape (s : dev) d :
  byte_ok d → uart_got_esc s = 0 → uart_service_id_in s ≠ -1 →
  dev_rx_all s (escape d) = u_buf_write s (uart_service_id_in s) d.
Proof.
  intros Hd Hesc Hin. unfold escape. destruct (sermux_special d) eqn:Hs; cbn [dev_rx_all].
  - destruct (escape_code_plain d Hd Hs) as (_ & Hp & Hx).
    rewrite dev_rx_esc. cbn [mbind option_bind]. rewrite dev_rx_plain by done. cbn.
    unfold SERMUX_ESCAPE_XOR_MASK. rewrite Hx.
    destruct s; cbn in *; subst. unfold u_buf_write, u_set_got_esc. cbn.
    by destruct (rx_write _ _ _) as [[? ?]|].
  - rewrite dev_rx_plain, Hesc by done. cbn. by destruct (u_buf_write s _ d).
Qed.

(** Without a service id, a data byte is answered by a request to resend it. *)
Lemma dev_rx_lost (s : dev) d :
  byte_ok d → uart_got_esc s = 0 → uart_service_id_in s = -1 →
  dev_rx_all s (escape d) = Some (s_uart_send s SERMUX_PHYS_ID SERMUX_FORCE_SID_CHAR).
Proof.
  intros Hd Hesc Hin. unfold escape. destruct (sermux_special d) eqn:Hs; cbn [dev_rx_all].
  - destruct (escape_code_plain d Hd Hs) as (_ & Hp & _). pose proof (special_not_vuart _ Hp) as Hv.
    apply special_false in Hp as (H1 & H2 & _).
    rewrite dev_rx_esc. cbn [mbind option_bind].
    unfold cmn_rx_handler, SERMUX_ESCAPE_XOR_MASK. rewrite Hmux, (Z.eqb_refl SERMUX_PHYS_ID), H1, Hv, H2.
    destruct s; cbn in *; subst. done.
  - pose proof (special_not_vuart _ Hs) as Hv. apply special_false in Hs as (H1 & H2 & _).
    unfold cmn_rx_handler. rewrite Hmux, (Z.eqb_refl SERMUX_PHYS_ID), H1, Hv, H2, Hesc. cbn.
    by rewrite Hin.
Qed.

Lemma force_not_vuart : is_vuart SERMUX_FORCE_SID_CHAR = false.
Proof.
  unfold is_vuart, SERMUX_FORCE_SID_CHAR, SERMUX_SERVICE_ID_FIRST. pose proof num_vuart_range. lia.
Qed.

Definition dev_resent (s : dev) (cs : list Z) : dev :=
  UartState (u_bufs s) (uart_service_id_in s) (uart_service_id_out s) (uart_got_esc s) (-1)
    (uart_tx s ++ on_phys cs) (u_hw s) (u_c_handlers s) (prev_uart_rx_handler s).

(** The device's answer to a resend request: the service id and the last byte, once. *)
Lemma dev_rx_force (s : dev) d :
  byte_ok d → uart_last_sent s = last_word d → 0 <= uart_service_id_out s < 256 →
  cmn_rx_handler s SERMUX_PHYS_ID SERMUX_FORCE_SID_CHAR =
    Some (dev_resent s (uart_service_id_out s :: escape d)).
Proof.
  intros Hd Hl Ho. destruct (resend_last_word d Hd) as [Hres Hnz]. pose proof (escape_bytes d Hd) as Hb.
  unfold cmn_rx_handler. rewrite Hmux, (Z.eqb_refl SERMUX_PHYS_ID), Hl, Hnz, force_not_vuart.
  rewrite <- Hres in Hb |- *. unfold resend in *.
  destruct s as [bufs iin io esc ls tx hw hs pr]; cbn in *; subst.
  destruct (ctrue (Z.land (last_word d) SERMUX_ESC_MASK)); cbn in Hb |- *;
    unfold u_set_last_sent, s_uart_send, dev_resent, on_phys; cbn;
    repeat (apply Forall_cons in Hb as [? Hb]);
    rewrite <- ?app_assoc, ?(u8_id io), ?(u8_id (Z.land _ 255)) by done; done.
Qed.

(** With nothing to resend, the request is taken for data. *)
Lemma dev_rx_force_data (s : dev) :
  uart_last_sent s = -1 → uart_got_esc s = 0 → uart_service_id_in s ≠ -1 →
  cmn_rx_handler s SERMUX_PHYS_ID SERMUX_FORCE_SID_CHAR = u_buf_write s (uart_service_id_in s) 255.
Proof.
  intros Hl Hesc Hin%Z.eqb_neq. unfold cmn_rx_handler.
  rewrite Hmux, (Z.eqb_refl SERMUX_PHYS_ID), Hl, Hesc, force_not_vuart. cbn. by rewrite Hin.
Qed.

Lemma dev_rx_sid (s : dev) id :
  is_vuart id = true → cmn_rx_handler s SERMUX_PHYS_ID id = Some (u_set_id_in s id).
Proof.
  intros Hid. unfold cmn_rx_handler. rewrite Hmux, Z.eqb_refl. cbn [andb].
  pose proof (vuart_range _ Hid) as Hr. unfold SERMUX_SERVICE_ID_FIRST, SERMUX_SERVICE_ID_LAST in Hr.
  unfold SERMUX_ESCAPE_CHAR. rewrite (proj2 (Z.eqb_neq id 192)) by lia. cbn. by rewrite Hid.
Qed.
End device.

(** *** The host *)
Section host.
Context {R : Type} `{!RfsMem R} (k : mux_conf).
Abbreviation host := (mux_state R).

Lemma mux_flush_idle fuel (h : host) : rfs_size h = 0 → mux_flush k fuel h = Some h.
Proof. intros E. destruct fuel; cbn [mux_flush]; by rewrite E. Qed.

Lemma mux_next_transport (h : host) c :
  rfs_size h = 0 → byte_ok c → mux_next k h c = mux_transport_byte k h c.
Proof.
  intros E Hc. unfold mux_next. rewrite mux_flush_idle by done. cbn [mbind option_bind].
  unfold mux_iter, byte_ok in *. rewrite E. cbn [Z.ltb Z.compare].
  rewrite (proj2 (Z.eqb_neq c (-1))) by lia. rewrite Z.shiftr_div_pow2, land_255, u8_id by lia.
  rewrite Z.div_small by lia. done.
Qed.

Lemma mux_run_app (h : host) a b :
  mux_run k h (a ++ b) =
    (r ← mux_run k h a; match r with inl h => mux_run k h b | inr e => Some (inr e) end).
Proof.
  revert h. induction a as [|c a IH]; intros h; [done|]. cbn [app mux_run].
  destruct (mux_next k h c) as [[h'|e]|]; cbn [mbind option_bind]; [apply IH|done|done].
Qed.

Lemma host_rx_escape (h : host) d :
  byte_ok d → rfs_size h = 0 → got_esc h = 0 → service_id_in h ≠ -1 →
  mux_run k h (escape d) = (h ← mux_deliver k h d; Some (inl h)).
Proof.
  intros Hd Hr Hesc Hin%Z.eqb_neq. pose proof (escape_bytes d Hd) as Hb. unfold escape in *.
  destruct (sermux_special d) eqn:Hs; cbn [mux_run].
  - apply Forall_cons in Hb as [Hb0 Hb]. apply Forall_cons in Hb as [Hb1 _].
    destruct (escape_code_plain d Hd Hs) as (_ & Hp & Hx). apply special_false in Hp as (H1 & H2 & H3).
    rewrite mux_next_transport by done. unfold mux_transport_byte at 1.
    rewrite (Z.eqb_refl SERMUX_ESCAPE_CHAR). cbn [negb mbind option_bind].
    rewrite mux_next_transport by done. unfold mux_transport_byte, SERMUX_ESCAPE_XOR_MASK.
    rewrite H1, H2, H3. cbn [negb m_set_esc got_esc]. rewrite Hx, Hs. cbn. rewrite Hin.
    destruct h; cbn in *; subst. unfold m_set_esc. cbn. by destruct (mux_deliver k _ d).
  - apply Forall_cons in Hb as [Hb0 _]. rewrite mux_next_transport by done.
    apply special_false in Hs as (H1 & H2 & H3). unfold mux_transport_byte.
    rewrite H1, H2, H3, Hesc. cbn. rewrite Hin. by destruct (mux_deliver k h d).
Qed.

Lemma host_rx_msg (h : host) out id d :
  byte_ok d → rfs_size h = 0 → got_esc h = 0 →
  SERMUX_SERVICE_ID_FIRST <= id <= SERMUX_SERVICE_ID_LAST →
  out = -1 ∨ out = service_id_in h →
  mux_run k h (encode_msg out (id, d)) = (h ← mux_deliver k (m_set_in h id) d; Some (inl h)).
Proof.
  intros Hd Hr Hesc Hid Hout. unfold SERMUX_SERVICE_ID_FIRST, SERMUX_SERVICE_ID_LAST in Hid.
  unfold encode_msg. cbn [fst snd].
  destruct (Z.eqb_spec id out) as [->|Hne]; cbn [app].
  - destruct Hout as [?|Hout]; [lia|]. rewrite host_rx_escape by (done || lia). do 2 f_equal.
    destruct h; cbn in *; by subst.
  - cbn [mux_run]. rewrite mux_next_transport by (done || (unfold byte_ok; lia)).
    unfold mux_transport_byte, SERMUX_ESCAPE_CHAR, SERMUX_SERVICE_ID_FIRST, SERMUX_SERVICE_ID_LAST.
    rewrite (proj2 (Z.eqb_neq id 192)), (proj2 (Z.leb_le 208 id)), (proj2 (Z.leb_le id 215)) by lia.
    cbn [negb andb mbind option_bind]. rewrite host_rx_escape; [done..|]. cbn. lia.
Qed.

(** The service port of an id. *)
Definition port_of (id : Z) : Z := id - SERMUX_SERVICE_ID_FIRST - service_offset k.

Definition port_ok (id : Z) : Prop := id ≠ rfs_service_id k ∧ 0 <= port_of id < vport_num k.

Lemma host_deliver_port (h : host) id d :
  port_ok id → ∃ h', mux_deliver k (m_set_in h id) d = Some h' ∧
    service_out h' = service_out h ++ [(port_of id, d)] ∧ transport_out h' = transport_out h ∧
    service_id_in h' = id ∧ got_esc h' = got_esc h ∧ rfs_size h' = rfs_size h ∧
    service_id_out h' = service_id_out h ∧ prev_sent h' = prev_sent h.
Proof.
  intros [Hne Hp]. unfold mux_deliver. cbn. rewrite (proj2 (Z.eqb_neq _ _)) by done.
  unfold service_write. fold (port_of id). rewrite decide_True by done. eexists. split; [done|]. done.
Qed.

(** The byte a host sends from handler [selidx], and the id it announces. *)
Definition id_of (selidx : Z) : Z :=
  if selidx =? RFS_PSEUDO_SELIDX then SERMUX_SERVICE_ID_FIRST
  else SERMUX_SERVICE_ID_FIRST + selidx - HND_FIRST_VOFFSET + service_offset k.

Definition host_send_all (h : host) (ms : list (Z * Z)) : host :=
  foldl (λ h m, mux_send k h m.1 m.2) h ms.

Lemma host_send_encode (h : host) selidx d :
  is_vuart (id_of selidx) = true → byte_ok d →
  transport_out (mux_send k h selidx d) =
    transport_out h ++ encode_msg (service_id_out h) (id_of selidx, d) ∧
  service_id_out (mux_send k h selidx d) = id_of selidx ∧
  prev_sent (mux_send k h selidx d) =
    (if sermux_special d then Z.lor SERMUX_ESC_MASK (Z.lxor d SERMUX_ESCAPE_XOR_MASK) else d) ∧
  service_id_in (mux_send k h selidx d) = service_id_in h ∧
  got_esc (mux_send k h selidx d) = got_esc h ∧
  rfs_size (mux_send k h selidx d) = rfs_size h ∧
  service_out (mux_send k h selidx d) = service_out h.
Proof.
  intros Hid Hd. pose proof (vuart_range _ Hid) as Hr.
  unfold SERMUX_SERVICE_ID_FIRST, SERMUX_SERVICE_ID_LAST in Hr.
  unfold mux_send, encode_msg, escape. fold (id_of selidx). cbn [fst snd].
  rewrite (u8_id d) by done. change (service_id_out (m_set_prev h d)) with (service_id_out h).
  destruct (sermux_special d) eqn:Hs.
  - destruct (escape_code_plain d Hd Hs) as (He & _ & _). unfold byte_ok in *.
    destruct (id_of selidx =? service_id_out h); cbn;
      rewrite ?(u8_id (Z.lxor d _)), ?(u8_id (id_of selidx)) by (done || lia);
      rewrite <- ?app_assoc; done.
  - unfold byte_ok in *. destruct (id_of selidx =? service_id_out h); cbn;
      rewrite ?(u8_id d), ?(u8_id (id_of selidx)) by (done || lia); rewrite <- ?app_assoc; done.
Qed.

Definition as_ids (ms : list (Z * Z)) : list (Z * Z) := (λ m, (id_of m.1, m.2)) <$> ms.

Lemma host_send_all_encode ms (h : host) :
  Forall (λ m, is_vuart (id_of m.1) = true ∧ byte_ok m.2) ms →
  transport_out (host_send_all h ms) = transport_out h ++ encode_msgs (service_id_out h) (as_ids ms) ∧
  service_id_out (host_send_all h ms) = last_id (service_id_out h) (as_ids ms).
Proof.
  intros Hms. revert h. induction Hms as [|[sel d] ms [Hid Hd] _ IH]; intros h.
  { cbn. by rewrite app_nil_r. }
  change (host_send_all h ((sel, d) :: ms)) with (host_send_all (mux_send k h sel d) ms).
  destruct (host_send_encode h sel d Hid Hd) as (Htx & Hout & _).
  destruct (IH (mux_send k h sel d)) as [-> ->]. rewrite Htx, Hout. split.
  - unfold as_ids. cbn [fmap list_fmap encode_msgs fst snd]. by rewrite app_assoc.
  - unfold last_id, as_ids. rewrite fmap_cons, last_cons. by destruct (last _).
Qed.

(** The host's answer to a resend request. *)
Lemma host_rx_force (h : host) :
  rfs_size h = 0 → prev_sent h ≠ -1 →
  ∃ h', mux_next k h SERMUX_FORCE_SID_CHAR = Some (inl h') ∧
    transport_out h' = transport_out h ++ u8 (service_id_out h) :: (u8 <$> resend (prev_sent h)) ∧
    service_id_out h' = service_id_out h ∧ prev_sent h' = -1.
Proof.
  intros Hr Hp%Z.eqb_neq. rewrite mux_next_transport by (done || (unfold byte_ok, SERMUX_FORCE_SID_CHAR; lia)).
  unfold mux_transport_byte. rewrite Hp. cbn [Z.eqb negb andb]. unfold resend.
  change (prev_sent (transport_send_byte h (service_id_out h))) with (prev_sent h).
  eexists. split; [done|]. destruct (ctrue (Z.land (prev_sent h) SERMUX_ESC_MASK)); cbn;
    rewrite <- ?app_assoc; done.
Qed.

(** A host without a service id asks for a resend. *)
Lemma host_rx_lost (h : host) d :
  byte_ok d → rfs_size h = 0 → got_esc h = 0 → service_id_in h = -1 →
  mux_run k h (escape d) = Some (inl (transport_send_byte h SERMUX_FORCE_SID_CHAR)).
Proof.
  intros Hd Hr Hesc Hin. pose proof (escape_bytes d Hd) as Hb. unfold escape in *.
  destruct (sermux_special d) eqn:Hs; cbn [mux_run].
  - apply Forall_cons in Hb as [Hb0 Hb]. apply Forall_cons in Hb as [Hb1 _].
    destruct (escape_code_plain d Hd Hs) as (_ & Hp & Hx). apply special_false in Hp as (H1 & H2 & H3).
    rewrite mux_next_transport by done. unfold mux_transport_byte at 1.
    rewrite (Z.eqb_refl SERMUX_ESCAPE_CHAR). cbn [negb mbind option_bind].
    rewrite mux_next_transport by done. unfold mux_transport_byte, SERMUX_ESCAPE_XOR_MASK.
    rewrite H1, H2, H3. cbn [negb m_set_esc got_esc]. rewrite Hx, Hs.
    destruct h; cbn in *; by subst.
  - apply Forall_cons in Hb as [Hb0 _]. rewrite mux_next_transport by done.
    apply special_false in Hs as (H1 & H2 & H3). unfold mux_transport_byte.
    rewrite H1, H2, H3, Hesc. cbn. by rewrite Hin.
Qed.
End host.

(** *** Round trips *)
Section both.
Context {T : Type} `{!RxBuffers T} {W : Type} {R : Type} `{!RfsMem R} (k : mux_conf).

(** The host decodes for the service the device last announced. *)
Definition host_synced (s : uart_state T W) (h : mux_state R) : Prop :=
  got_esc h = 0 ∧ rfs_size h = 0 ∧
  (uart_service_id_out s = -1 ∨ uart_service_id_out s = service_id_in h).

Lemma host_rx_msgs ms out (h : mux_state R) :
  Forall (λ m, is_vuart m.1 = true ∧ port_ok k m.1 ∧ byte_ok m.2) ms →
  got_esc h = 0 → rfs_size h = 0 → out = -1 ∨ out = service_id_in h →
  ∃ h', mux_run k h (encode_msgs out ms) = Some (inl h') ∧
    service_out h' = service_out h ++ ((λ m, (port_of k m.1, m.2)) <$> ms) ∧
    transport_out h' = transport_out h ∧ got_esc h' = 0 ∧ rfs_size h' = 0 ∧
    (last_id out ms = -1 ∨ last_id out ms = service_id_in h').
Proof.
  intros Hms. revert out h. induction Hms as [|[id d] ms (Hid & Hport & Hd) _ IH];
    intros out h Hesc Hrfs Hout.
  { exists h. cbn. by rewrite app_nil_r. }
  cbn [encode_msgs]. rewrite mux_run_app, host_rx_msg; try done.
  2: { by apply vuart_range. }
  destruct (host_deliver_port k h id d Hport) as (h1 & -> & Hs1 & Ht1 & Hin1 & He1 & Hr1 & _).
  cbn [mbind option_bind]. destruct (IH id h1) as (h2 & Hrun & Hs2 & Ht2 & He2 & Hr2 & Hl2);
    [congruence|congruence|by right|].
  exists h2. cbn [fst] in *. rewrite Hrun, Hs2, Hs1, Ht2, Ht1, <- app_assoc. split_and!; try done.
  unfold last_id in *. rewrite last_cons. by destruct (last ms).
Qed.

(** C19: device to host: whatever bytes the device's programs send on its virtual UARTs,
    interleaved in any way, escapes and service ids included, the host's service
    thread writes each byte to the port of its service, in order, with none lost,
    added or misrouted, answers nothing, and stays in step with the device. *)
Theorem sermux_device_to_host (s : uart_state T W) (h : mux_state R) ms :
  host_synced s h →
  Forall (λ m, is_vuart m.1 = true ∧ port_ok k m.1 ∧ byte_ok m.2) ms →
  ∃ cs h', uart_tx (dev_send_all s ms) = uart_tx s ++ on_phys cs ∧
    mux_run k h cs = Some (inl h') ∧
    service_out h' = service_out h ++ ((λ m, (port_of k m.1, m.2)) <$> ms) ∧
    transport_out h' = transport_out h ∧ host_synced (dev_send_all s ms) h'.
Proof.
  intros (Hesc & Hrfs & Hout) Hms.
  destruct (dev_send_all_encode ms s) as [Htx Hid].
  { eapply Forall_impl; [done|]. cbn. tauto. }
  destruct (host_rx_msgs ms (uart_service_id_out s) h) as (h' & Hrun & Hso & Hto & He & Hr & Hl); [done..|].
  exists (encode_msgs (uart_service_id_out s) ms), h'. unfold host_synced. by rewrite Hid.
Qed.

(** The bytes of the messages of one service. *)
Definition for_id (id : Z) (ms : list (Z * Z)) : list Z :=
  snd <$> filter (λ m, m.1 = id) ms.

Lemma for_id_cons id m ms :
  for_id id (m :: ms) = (if decide (m.1 = id) then [m.2] else []) ++ for_id id ms.
Proof. unfold for_id. rewrite filter_cons. by case_decide. Qed.

Lemma vuart_exists id : is_vuart id = true → platform_uart_exists id.
Proof.
  intros Hid. unfold platform_uart_exists. rewrite Hmux. apply Is_true_true.
  unfold is_vuart in Hid. rewrite Hid. apply orb_true_r.
Qed.

Lemma dev_rx_msgs `{!RxBuffersOk T} ms out (s : uart_state T W) (q : Z → list Z) :
  Forall (λ m, is_vuart m.1 = true ∧ byte_ok m.2) ms →
  uart_got_esc s = 0 → out = -1 ∨ out = uart_service_id_in s →
  (∀ id, is_vuart id = true → rx_queue (u_bufs s) id (q id)) →
  (∀ id, is_vuart id = true →
     Z.of_nat (length (q id ++ for_id id ms)) <= rx_room (u_bufs s) id) →
  ∃ s', dev_rx_all s (encode_msgs out ms) = Some s' ∧ uart_tx s' = uart_tx s ∧
    uart_got_esc s' = 0 ∧ (last_id out ms = -1 ∨ last_id out ms = uart_service_id_in s') ∧
    ∀ id, is_vuart id = true → rx_queue (u_bufs s') id (q id ++ for_id id ms).
Proof.
  intros Hms. revert out s q. induction Hms as [|[id d] ms [Hid Hd] _ IH];
    intros out s q Hesc Hout Hq Hroom.
  { exists s. cbn. split_and!; try done. intros id Hid. rewrite app_nil_r. by apply Hq. }
  cbn [fst snd] in *. pose proof (vuart_range _ Hid) as Hr.
  unfold SERMUX_SERVICE_ID_FIRST, SERMUX_SERVICE_ID_LAST in Hr.
  pose proof (Hroom id Hid) as Hrid. rewrite for_id_cons, !length_app in Hrid. cbn [fst] in Hrid.
  rewrite decide_True in Hrid by done. cbn [length] in Hrid.
  destruct (rx_write_ok (u_bufs s) id (q id) d) as (t & Hw & Hqt); [by apply Hq|lia|done|].
  assert (dev_rx_all s (encode_msg out (id, d)) = Some (u_set_bufs (u_set_id_in s id) t)) as Hrx.
  { assert (dev_rx_all (u_set_id_in s id) (escape d) = Some (u_set_bufs (u_set_id_in s id) t)) as Hesc_rx.
    { rewrite dev_rx_escape; [|done|done|cbn; lia]. unfold u_buf_write. cbn. by rewrite Hw. }
    unfold encode_msg. cbn [fst snd]. destruct (Z.eqb_spec id out) as [->|Hne]; cbn [app].
    - destruct Hout as [?|Hout]; [lia|]. rewrite <- Hesc_rx. f_equal.
      destruct s; cbn in *; by subst.
    - cbn [dev_rx_all]. rewrite dev_rx_sid by done. cbn [mbind option_bind]. done. }
  destruct (IH id (u_set_bufs (u_set_id_in s id) t)
              (λ i, q i ++ if decide (id = i) then [d] else [])) as (s' & Hs' & Htx & He & Hl & Hqs).
  - done.
  - by right.
  - intros i Hi. cbn. destruct (decide (id = i)) as [<-|Hne]; [done|]. rewrite app_nil_r.
    eapply rx_write_frame; [| | | |exact Hne|exact Hw|by apply Hq]; try by apply vuart_exists.
    + lia.
    + pose proof (vuart_range _ Hi). unfold SERMUX_SERVICE_ID_FIRST in *. lia.
  - intros i Hi. cbn [u_bufs u_set_bufs]. rewrite (rx_write_room _ _ _ _ _ Hw).
    pose proof (Hroom i Hi) as Hri. rewrite for_id_cons in Hri. cbn [fst snd] in Hri. by rewrite <- app_assoc.
  - exists s'. cbn [encode_msgs fst]. rewrite dev_rx_app, Hrx. cbn [mbind option_bind].
    rewrite Hs', Htx. split_and!; try done.
    + unfold last_id in *. rewrite last_cons. by destruct (last ms).
    + intros i Hi. rewrite for_id_cons. cbn [fst snd]. rewrite app_assoc. by apply Hqs.
Qed.

Definition dev_synced (h : mux_state R) (s : uart_state T W) : Prop :=
  uart_got_esc s = 0 ∧ (service_id_out h = -1 ∨ service_id_out h = uart_service_id_in s).

(** C20: host to device: whatever bytes arrive on the host's service ports, interleaved in
    any way, the device's receive interrupt appends each to the receive buffer of
    its virtual UART, in order, as long as the buffers have room; the device answers
    nothing and stays in step with the host. *)
Theorem sermux_host_to_device `{!RxBuffersOk T} (h : mux_state R) (s : uart_state T W) ms q :
  dev_synced h s →
  Forall (λ m, is_vuart (id_of k m.1) = true ∧ byte_ok m.2) ms →
  (∀ id, is_vuart id = true → rx_queue (u_bufs s) id (q id)) →
  (∀ id, is_vuart id = true →
     Z.of_nat (length (q id ++ for_id id (as_ids k ms))) <= rx_room (u_bufs s) id) →
  ∃ cs s', transport_out (host_send_all k h ms) = transport_out h ++ cs ∧
    dev_rx_all s cs = Some s' ∧ uart_tx s' = uart_tx s ∧
    (∀ id, is_vuart id = true → rx_queue (u_bufs s') id (q id ++ for_id id (as_ids k ms))) ∧
    dev_synced (host_send_all k h ms) s'.
Proof.
  intros [Hesc Hout] Hms Hq Hroom. destruct (host_send_all_encode k ms h Hms) as [Htx Hid].
  destruct (dev_rx_msgs (as_ids k ms) (service_id_out h) s q) as (s' & Hs' & Ht & He & Hl & Hqs);
    [|done..|].
  { unfold as_ids. by apply Forall_fmap. }
  exists (encode_msgs (service_id_out h) (as_ids k ms)), s'. unfold dev_synced. by rewrite Hid.
Qed.

(** Recovery: when the device has lost its service id (it was reset) and the host sends a
    byte without announcing the service, the device asks for a resend, the host answers
    with the service id and the byte, and the byte ends up in the right buffer exactly
    once, with both ends in step again. *)
Theorem sermux_resync `{!RxBuffersOk T} (h : mux_state R) (s : uart_state T W) selidx d q :
  uart_got_esc s = 0 → uart_service_id_in s = -1 →
  rfs_size h = 0 → service_id_out h = id_of k selidx → is_vuart (id_of k selidx) = true → byte_ok d →
  rx_queue (u_bufs s) (id_of k selidx) q → Z.of_nat (length q) < rx_room (u_bufs s) (id_of k selidx) →
  ∃ cs1 s1 h2 cs2 s2,
    transport_out (mux_send k h selidx d) = transport_out h ++ cs1 ∧
    dev_rx_all s cs1 = Some s1 ∧ uart_tx s1 = uart_tx s ++ on_phys [SERMUX_FORCE_SID_CHAR] ∧
    mux_next k (mux_send k h selidx d) SERMUX_FORCE_SID_CHAR = Some (inl h2) ∧
    transport_out h2 = transport_out (mux_send k h selidx d) ++ cs2 ∧
    dev_rx_all s1 cs2 = Some s2 ∧ uart_tx s2 = uart_tx s1 ∧
    rx_queue (u_bufs s2) (id_of k selidx) (q ++ [d]) ∧ dev_synced h2 s2.
Proof.
  intros Hesc Hin Hrfs Hout Hid Hd Hq Hroom. set (id := id_of k selidx) in *.
  pose proof (vuart_range _ Hid) as Hr. unfold SERMUX_SERVICE_ID_FIRST, SERMUX_SERVICE_ID_LAST in Hr.
  destruct (host_send_encode k h selidx d Hid Hd) as (Htx & Hio & Hps & _ & _ & Hrs & _).
  fold id in Htx, Hio. fold (last_word d) in Hps. destruct (resend_last_word d Hd) as [Hres Hnz].
  unfold encode_msg in Htx. cbn [fst snd] in Htx. rewrite Hout, Z.eqb_refl in Htx. cbn [app] in Htx.
  destruct (host_rx_force k (mux_send k h selidx d)) as (h2 & Hh2 & Ht2 & Ho2 & _);
    [congruence|rewrite Hps; by apply Z.eqb_neq|].
  set (s1 := s_uart_send s SERMUX_PHYS_ID SERMUX_FORCE_SID_CHAR).
  assert (dev_rx_all (u_set_id_in s1 id) (escape d) = u_buf_write (u_set_id_in s1 id) id d) as Hw.
  { rewrite dev_rx_escape; [done|done|done|cbn; lia]. }
  destruct (rx_write_ok (u_bufs s) id q d) as (t & Hwr & Hqt); [done..|].
  exists (escape d), s1, h2, (id :: escape d), (u_set_bufs (u_set_id_in s1 id) t).
  split; [done|]. split; [by apply dev_rx_lost|]. split; [done|]. split; [done|].
  split. { rewrite Ht2, Hps, Hres, Hio, u8_id by lia. do 2 f_equal.
    pose proof (escape_bytes d Hd) as Hb. clear -Hb. induction Hb as [|c l Hc _ IH]; [done|].
    cbn. by rewrite IH, u8_id. }
  split. { cbn [dev_rx_all]. rewrite dev_rx_sid by done. cbn [mbind option_bind]. rewrite Hw.
    unfold u_buf_write. cbn. by rewrite Hwr. }
  split; [done|]. split; [done|]. split; [done|]. right. cbn. congruence.
Qed.

(** The recovery protocol is not robust in the other direction: when the host has lost its
    service id and the device sends two bytes before the resend requests arrive, the
    first byte is lost, and the second request, which finds no byte to resend, is
    stored by the device as the data byte 255 in the receive buffer of a virtual UART. *)
Theorem sermux_double_force_corrupts `{!RxBuffersOk T} (h : mux_state R) (s : uart_state T W) i id d1 d2 q :
  uart_got_esc s = 0 → uart_service_id_in s = i → is_vuart i = true →
  uart_service_id_out s = id → is_vuart id = true → byte_ok d1 → byte_ok d2 →
  service_id_in h = -1 → got_esc h = 0 → rfs_size h = 0 →
  rx_queue (u_bufs s) i q → Z.of_nat (length q) < rx_room (u_bufs s) i →
  ∃ cs h1 s2, let s1 := dev_send_all s [(id, d1); (id, d2)] in
    uart_tx s1 = uart_tx s ++ on_phys cs ∧
    mux_run k h cs = Some (inl h1) ∧ service_out h1 = service_out h ∧
    transport_out h1 = transport_out h ++ [SERMUX_FORCE_SID_CHAR; SERMUX_FORCE_SID_CHAR] ∧
    dev_rx_all s1 [SERMUX_FORCE_SID_CHAR; SERMUX_FORCE_SID_CHAR] = Some s2 ∧
    uart_tx s2 = uart_tx s1 ++ on_phys (id :: escape d2) ∧
    rx_queue (u_bufs s2) i (q ++ [255]).
Proof.
  intros Hesc Hin Hi Hout Hid Hd1 Hd2 Hhin Hhesc Hrfs Hq Hroom.
  pose proof (vuart_range _ Hid) as Hr. pose proof (vuart_range _ Hi) as Hri.
  unfold SERMUX_SERVICE_ID_FIRST, SERMUX_SERVICE_ID_LAST in Hr, Hri.
  destruct (dev_send_encode s id d1 Hid Hd1) as (Ht1 & Ho1 & _ & Hb1 & Hi1 & He1).
  set (sa := platform_uart_send s id d1) in *.
  destruct (dev_send_encode sa id d2 Hid Hd2) as (Ht2 & Ho2 & Hl2 & Hb2 & Hi2 & He2).
  change (dev_send_all s [(id, d1); (id, d2)]) with (platform_uart_send sa id d2).
  set (s1 := platform_uart_send sa id d2) in *. fold (last_word d2) in Hl2.
  destruct (resend_last_word d2 Hd2) as [Hres Hnz].
  unfold encode_msg in Ht1, Ht2. cbn [fst snd] in *. rewrite Hout, Z.eqb_refl in Ht1.
  rewrite Ho1, Z.eqb_refl in Ht2. cbn [app] in *.
  destruct (rx_write_ok (u_bufs s) i q 255) as (t & Hwr & Hqt); [done|done|unfold byte_ok; lia|].
  pose proof (dev_rx_force s1 d2 Hd2 Hl2 ltac:(rewrite Ho2; lia)) as Hf1. rewrite Ho2 in Hf1.
  eexists (escape d1 ++ escape d2), _, _. split_and!.
  - rewrite Ht2, Ht1. unfold on_phys. by rewrite fmap_app, app_assoc.
  - rewrite mux_run_app, host_rx_lost by done. cbn [mbind option_bind]. by rewrite host_rx_lost.
  - done.
  - cbn. by rewrite <- app_assoc.
  - cbn [dev_rx_all]. rewrite Hf1. cbn [mbind option_bind].
    rewrite dev_rx_force_data; [|done|cbn; congruence|cbn; rewrite Hi2, Hi1, Hin; lia].
    cbn. rewrite Hi2, Hi1, Hin.
    unfold u_buf_write. cbn. unfold SERMUX_FORCE_SID_CHAR. rewrite Hb2, Hb1, Hwr. cbn. done.
  - done.
  - done.
Qed.
End both.
End wire.

(** ** The theorems at work: two virtual UARTs with four-byte ring buffers *)

#[local] Instance demo_rx : RxBuffers buf_state := buf_rx (H:=demo_board) demo_realloc.
#[local] Instance demo_rx_ok : RxBuffersOk (H:=demo_board) buf_state := buf_rx_ok (H:=demo_board) demo_realloc.

(** Multiplexer mode: no embedded server. *)
#[local] Instance no_rfs : RfsMem unit := {
  rfs_mem_read_request_packet r _ := Some (r, 0);
  rfs_mem_has_response _ := 0;
  rfs_mem_write_response _ := None;
  rfs_mem_start_request r := r
}.

Definition demo_dev (id_in id_out : Z) : uart_state buf_state unit :=
  UartState demo_bufs id_in id_out 0 (-1) [] tt [] 0.

Definition demo_host (id_in id_out : Z) : mux_state unit :=
  MuxState id_in id_out 0 (-1) 0 [] tt [] [].

Definition demo_mux : mux_conf := MuxConf 2 false.

Lemma demo_vuart id : is_vuart (H:=demo_board) id = true → id = 208 ∨ id = 209.
Proof. unfold is_vuart, SERMUX_SERVICE_ID_FIRST. cbn. lia. Qed.

Lemma demo_queue id : id = 208 ∨ id = 209 → rx_queue demo_bufs id [].
Proof.
  intros Hid. split; [|split; [|constructor]].
  - exists (demo_desc 0). split; [by destruct Hid; subst|]. apply demo_desc_rep. lia.
  - by destruct Hid; subst.
Qed.

Lemma demo_room id : id = 208 ∨ id = 209 → rx_room demo_bufs id = 4.
Proof. intros [-> | ->]; reflexivity. Qed.

(** A byte that must be escaped, then bytes of both services. *)
Definition demo_msgs : list (Z * Z) := [(208, 65); (209, 192); (209, 208); (208, 255)].

Example sermux_device_to_host_witness :
  ∃ cs h', uart_tx (dev_send_all (Hconf:=demo_board) (demo_dev (-1) (-1)) demo_msgs) =
      [] ++ on_phys (Hconf:=demo_board) cs ∧
    mux_run demo_mux (demo_host (-1) (-1)) cs = Some (inl h') ∧
    service_out h' = [] ++ [(0, 65); (1, 192); (1, 208); (0, 255)] ∧
    transport_out h' = [] ∧
    host_synced (dev_send_all (Hconf:=demo_board) (demo_dev (-1) (-1)) demo_msgs) h'.
Proof.
  apply (sermux_device_to_host (Hconf:=demo_board) eq_refl demo_mux (demo_dev (-1) (-1)) (demo_host (-1) (-1)) demo_msgs).
  - split; [reflexivity|]. split; [reflexivity|]. left. reflexivity.
  - repeat constructor; cbn; unfold byte_ok; lia || discriminate.
Defined.

Example sermux_host_to_device_witness :
  ∃ cs s', transport_out (host_send_all demo_mux (demo_host 208 (-1)) [(1, 65); (2, 192); (1, 255)]) = [] ++ cs ∧
    dev_rx_all (Hconf:=demo_board) (demo_dev (-1) 208) cs = Some s' ∧ uart_tx s' = [] ∧
    (∀ id, is_vuart (H:=demo_board) id = true →
       rx_queue (u_bufs s') id ([] ++ for_id id [(208, 65); (209, 192); (208, 255)])) ∧
    dev_synced (host_send_all demo_mux (demo_host 208 (-1)) [(1, 65); (2, 192); (1, 255)]) s'.
Proof.
  apply (sermux_host_to_device (Hconf:=demo_board) eq_refl demo_mux (demo_host 208 (-1)) (demo_dev (-1) 208)
           [(1, 65); (2, 192); (1, 255)] (λ _, [])).
  - split; [reflexivity|left; reflexivity].
  - repeat constructor; cbn; unfold byte_ok; lia || discriminate.
  - intros id Hid. apply demo_queue, demo_vuart, Hid.
  - intros id Hid%demo_vuart. change (u_bufs _) with demo_bufs. rewrite (demo_room id Hid).
    destruct Hid; subst; vm_compute; discriminate.
Defined.

Example sermux_resync_witness :
  ∃ cs1 s1 h2 cs2 s2,
    transport_out (mux_send demo_mux (demo_host 208 209) 2 255) = [] ++ cs1 ∧
    dev_rx_all (Hconf:=demo_board) (demo_dev (-1) (-1)) cs1 = Some s1 ∧
    uart_tx s1 = [] ++ on_phys (Hconf:=demo_board) [SERMUX_FORCE_SID_CHAR] ∧
    mux_next demo_mux (mux_send demo_mux (demo_host 208 209) 2 255) SERMUX_FORCE_SID_CHAR = Some (inl h2) ∧
    transport_out h2 = transport_out (mux_send demo_mux (demo_host 208 209) 2 255) ++ cs2 ∧
    dev_rx_all (Hconf:=demo_board) s1 cs2 = Some s2 ∧ uart_tx s2 = uart_tx s1 ∧
    rx_queue (u_bufs s2) 209 ([] ++ [255]) ∧ dev_synced h2 s2.
Proof.
  apply (sermux_resync (Hconf:=demo_board) eq_refl demo_mux (demo_host 208 209) (demo_dev (-1) (-1)) 2 255 []);
    try reflexivity.
  - unfold byte_ok. lia.
  - apply demo_queue. right. reflexivity.
Defined.

Example sermux_double_force_corrupts_witness :
  ∃ cs h1 s2, let s1 := dev_send_all (Hconf:=demo_board) (demo_dev 208 209) [(209, 65); (209, 66)] in
    uart_tx s1 = [] ++ on_phys (Hconf:=demo_board) cs ∧
    mux_run demo_mux (demo_host (-1) 208) cs = Some (inl h1) ∧ service_out h1 = [] ∧
    transport_out h1 = [] ++ [SERMUX_FORCE_SID_CHAR; SERMUX_FORCE_SID_CHAR] ∧
    dev_rx_all (Hconf:=demo_board) s1 [SERMUX_FORCE_SID_CHAR; SERMUX_FORCE_SID_CHAR] = Some s2 ∧
    uart_tx s2 = uart_tx s1 ++ on_phys (Hconf:=demo_board) (209 :: escape 66) ∧
    rx_queue (u_bufs s2) 208 ([] ++ [255]).
Proof.
  apply (sermux_double_force_corrupts (Hconf:=demo_board) eq_refl demo_mux (demo_host (-1) 208)
           (demo_dev 208 209) 208 209 65 66 []); try reflexivity; try (unfold byte_ok; lia).
  apply demo_queue. left. reflexivity.
Defined.
