(* ===== verification/Rpc.v ===== *)
(** * The remote procedure call layer (src/eluarpc.c)

    Packets are built and parsed in place in a byte buffer. A writer takes and
    returns the buffer and the position; a reader takes the position and the
    error flag. [packet] is the format: the theorems show that the generic
    writer produces it and the generic reader inverts it. *)
From Stdlib Require Import Ascii.
From S2P Require Import Prelude.

Definition TYPE_INT_8 : Z := 1.
Definition TYPE_INT_16 : Z := 2.
Definition TYPE_INT_32 : Z := 3.
Definition TYPE_PTR : Z := 4.
Definition TYPE_START : Z := 5.
Definition TYPE_END : Z := 6.
Definition TYPE_OP_ID : Z := 7.
Definition TYPE_SMALL_PTR : Z := 8.
Definition TYPE_PKT_SIZE : Z := 165.

Definition PACKET_SIG : Z := 414171780.
Definition ELUARPC_OK : Z := 0.
Definition ELUARPC_ERR : Z := 1.
Definition ELUARPC_OP_RES_MOD : Z := 128.
Definition ELUARPC_START_OFFSET : Z := 4.
Definition ELUARPC_PTR_HEADER_SIZE : Z := 6.
Definition ELUARPC_SMALL_PTR_HEADER_SIZE : Z := 4.
Definition ELUARPC_READ_BUF_OFFSET : Z := 17.
Definition ELUARPC_WRITE_REQUEST_EXTRA : Z := 29.

(** [unsigned long] has 32 bits on the targets and in the desktop builds, which use -m32. *)
Definition not_packet_sig : Z := u32 (Z.lnot PACKET_SIG).

(** ** Serialization *)

Definition eluarpc_write_u8 (s : mem * Z) (fdata : Z) : option (mem * Z) :=
  s ← put s TYPE_INT_8; put s fdata.

Definition eluarpc_write_op_id (s : mem * Z) (fdata : Z) : option (mem * Z) :=
  s ← put s TYPE_OP_ID; put s fdata.

Definition eluarpc_write_u16 (s : mem * Z) (fdata : Z) : option (mem * Z) :=
  s ← put s TYPE_INT_16;
  s ← put s (Z.land fdata 255);
  put s (Z.land (Z.shiftr fdata 8) 255).

Definition eluarpc_write_u32 (s : mem * Z) (fdata : Z) : option (mem * Z) :=
  s ← put s TYPE_INT_32;
  s ← put s (Z.land fdata 255);
  s ← put s (Z.land (Z.shiftr fdata 8) 255);
  s ← put s (Z.land (Z.shiftr fdata 16) 255);
  put s (Z.land (Z.shiftr fdata 24) 255).

(** [memcpy( p, src, srclen )] from the object [src], nothing for NULL; [p + srclen]. *)
Definition copy_src (s : mem * Z) (src : option mem) (srclen : Z) : option (mem * Z) :=
  match src with
  | Some bs =>
      bs ← mread bs 0 srclen; m ← mwrite s.1 s.2 bs; Some (m, s.2 + srclen)
  | None => Some (s.1, s.2 + srclen)
  end.

Definition eluarpc_write_ptr (s : mem * Z) (src : option mem) (srclen : Z) : option (mem * Z) :=
  s ← put s TYPE_PTR;
  s ← eluarpc_write_u32 s srclen;
  copy_src s src srclen.

Definition eluarpc_write_small_ptr (s : mem * Z) (src : option mem) (srclen : Z) : option (mem * Z) :=
  s ← put s TYPE_SMALL_PTR;
  s ← eluarpc_write_u16 s srclen;
  copy_src s src srclen.

(** ** Deserialization *)

Section read.
Variable m : mem.

(** Position and error flag. *)
Definition rst : Type := Z * Z.

Definition eluarpc_read_expect (s : rst) (fdata : Z) : option rst :=
  c ← ld m s.1; Some (s.1 + 1, if negb (c =? fdata) then ELUARPC_ERR else s.2).

Definition get (s : rst) : option (rst * Z) := c ← ld m s.1; Some ((s.1 + 1, s.2), c).

Definition eluarpc_read_u8 (s : rst) : option (rst * Z) :=
  s ← eluarpc_read_expect s TYPE_INT_8; get s.

Definition eluarpc_read_op_id (s : rst) : option (rst * Z) :=
  s ← eluarpc_read_expect s TYPE_OP_ID; get s.

Definition eluarpc_expect_op_id (s : rst) (id : Z) : option rst :=
  s ← eluarpc_read_expect s TYPE_OP_ID;
  '(s, temp) ← get s;
  Some (s.1, if negb (temp =? id) then ELUARPC_ERR else s.2).

Definition eluarpc_read_u16 (s : rst) : option (rst * Z) :=
  s ← eluarpc_read_expect s TYPE_INT_16;
  '(s, a) ← get s; '(s, b) ← get s;
  Some (s, u16 (of_le16 a b)).

Definition eluarpc_read_u32 (s : rst) : option (rst * Z) :=
  s ← eluarpc_read_expect s TYPE_INT_32;
  '(s, a) ← get s; '(s, b) ← get s; '(s, c) ← get s; '(s, d) ← get s;
  Some (s, u32 (of_le32 a b c d)).

(** The copy out when [src] is not NULL: [dst] tells whether it is given. *)
Definition eluarpc_read_ptr (s : rst) (dst : bool) : option (rst * Z * list Z) :=
  s ← eluarpc_read_expect s TYPE_PTR;
  '(s, len) ← eluarpc_read_u32 s;
  bs ← (if dst then mread m s.1 len else Some []);
  Some ((s.1 + len, s.2), len, bs).

Definition eluarpc_read_small_ptr (s : rst) (dst : bool) : option (rst * Z * list Z) :=
  s ← eluarpc_read_expect s TYPE_SMALL_PTR;
  '(s, len) ← eluarpc_read_u16 s;
  bs ← (if dst then mread m s.1 len else Some []);
  Some ((s.1 + len, s.2), len, bs).

(** ** Packets *)

Definition eluarpc_match_packet_start (s : rst) : option rst :=
  s ← eluarpc_read_expect (s.1 + ELUARPC_START_OFFSET, s.2) TYPE_START;
  '(s, fdata) ← eluarpc_read_u32 s;
  Some (s.1, if negb (fdata =? PACKET_SIG) then ELUARPC_ERR else s.2).

Definition eluarpc_match_packet_end (s : rst) : option rst :=
  s ← eluarpc_read_expect s TYPE_END;
  '(s, fdata) ← eluarpc_read_u32 s;
  Some (s.1, if negb (fdata =? not_packet_sig) then ELUARPC_ERR else s.2).

(** [eluarpc_get_request_id( p, pid )]: the error code and the id. *)
Definition eluarpc_get_request_id (p : Z) : option (Z * Z) :=
  s ← eluarpc_match_packet_start (p, ELUARPC_OK);
  '(s, id) ← eluarpc_read_op_id s;
  Some (s.2, id).

Definition eluarpc_get_packet_size (p : Z) : option (Z * Z) :=
  s ← eluarpc_read_expect (p, ELUARPC_OK) TYPE_PKT_SIZE;
  '(s, size) ← eluarpc_read_u16 s;
  Some (s.2, size).
End read.

Definition eluarpc_replace_flag (val origflag newflag : Z) : Z :=
  if ctrue (Z.land val origflag) then newflag else 0.

Definition eluarpc_start_packet (s : mem * Z) : option (mem * Z) :=
  s ← put (s.1, s.2 + ELUARPC_START_OFFSET) TYPE_START;
  eluarpc_write_u32 s PACKET_SIG.

(** [eluarpc_packet_ptr] is the argument [packet_ptr]. *)
Definition eluarpc_end_packet (packet_ptr : Z) (s : mem * Z) : option mem :=
  s ← put s TYPE_END;
  s ← eluarpc_write_u32 s not_packet_sig;
  let len := u16 (s.2 - packet_ptr) in
  s ← put (s.1, packet_ptr) TYPE_PKT_SIZE;
  s ← eluarpc_write_u16 s len;
  Some s.1.

(** ** The generic writer and reader

    The variable arguments are a list; an argument of the wrong kind is
    undefined behaviour. *)
Inductive va :=
| VInt (z : Z)
| VPtr (src : option mem).

Definition gen_write_arg (c : Ascii.ascii) (s : mem * Z) (args : list va) :
    option ((mem * Z) * list va) :=
  if Ascii.eqb c "o"%char then
    match args with VInt z :: args => s ← eluarpc_write_op_id s (u8 z); Some (s, args) | _ => None end
  else if Ascii.eqb c "r"%char then
    match args with VInt z :: args => s ← put s (Z.lor ELUARPC_OP_RES_MOD (u8 z)); Some (s, args) | _ => None end
  else if Ascii.eqb c "c"%char then
    match args with VInt z :: args => s ← eluarpc_write_u8 s (u8 z); Some (s, args) | _ => None end
  else if Ascii.eqb c "h"%char then
    match args with VInt z :: args => s ← eluarpc_write_u16 s (u16 z); Some (s, args) | _ => None end
  else if Ascii.eqb c "i"%char || Ascii.eqb c "l"%char || Ascii.eqb c "L"%char then
    match args with VInt z :: args => s ← eluarpc_write_u32 s (u32 z); Some (s, args) | _ => None end
  else if Ascii.eqb c "p"%char then
    match args with
    | VPtr src :: VInt len :: args => s ← eluarpc_write_ptr s src (u32 len); Some (s, args)
    | _ => None
    end
  else if Ascii.eqb c "P"%char then
    match args with
    | VPtr src :: VInt len :: args => s ← eluarpc_write_small_ptr s src (u16 len); Some (s, args)
    | _ => None
    end
  else Some (s, args).

Fixpoint gen_write_loop (fmt : string) (s : mem * Z) (args : list va) : option (mem * Z) :=
  match fmt with
  | EmptyString => Some s
  | String c fmt => '(s, args) ← gen_write_arg c s args; gen_write_loop fmt s args
  end.

Definition eluarpc_gen_write (m : mem) (p : Z) (fmt : string) (args : list va) : option mem :=
  s ← eluarpc_start_packet (m, p);
  s ← gen_write_loop fmt s args;
  eluarpc_end_packet p s.

(** What the reader stores through its pointer arguments: a value, or the
    position of the data (NULL when it is empty) and its length. *)
Inductive out :=
| OInt (z : Z)
| OPtr (ptr : option Z) (len : Z).

(** [ids] are the integer arguments of the [o] and [r] specifiers. *)
Definition gen_read_arg (m : mem) (c : Ascii.ascii) (s : rst) (ids : list Z) :
    option (rst * list Z * list out) :=
  if Ascii.eqb c "o"%char then
    match ids with id :: ids => s ← eluarpc_expect_op_id m s (u8 id); Some (s, ids, []) | _ => None end
  else if Ascii.eqb c "r"%char then
    match ids with
    | id :: ids => s ← eluarpc_read_expect m s (Z.lor ELUARPC_OP_RES_MOD (u8 id)); Some (s, ids, [])
    | _ => None
    end
  else if Ascii.eqb c "c"%char then '(s, v) ← eluarpc_read_u8 m s; Some (s, ids, [OInt v])
  else if Ascii.eqb c "h"%char then '(s, v) ← eluarpc_read_u16 m s; Some (s, ids, [OInt v])
  else if Ascii.eqb c "l"%char then '(s, v) ← eluarpc_read_u32 m s; Some (s, ids, [OInt v])
  else if Ascii.eqb c "L"%char || Ascii.eqb c "i"%char then
    '(s, v) ← eluarpc_read_u32 m s; Some (s, ids, [OInt (s32 v)])
  else if Ascii.eqb c "p"%char then
    '(s', len, _) ← eluarpc_read_ptr m s false;
    Some (s', ids, [OPtr (if s'.1 =? s.1 + ELUARPC_PTR_HEADER_SIZE then None
                          else Some (s.1 + ELUARPC_PTR_HEADER_SIZE)) len])
  else if Ascii.eqb c "P"%char then
    '(s', len, _) ← eluarpc_read_small_ptr m s false;
    Some (s', ids, [OPtr (if s'.1 =? s.1 + ELUARPC_SMALL_PTR_HEADER_SIZE then None
                          else Some (s.1 + ELUARPC_SMALL_PTR_HEADER_SIZE)) len])
  else Some (s, ids, []).

Fixpoint gen_read_loop (m : mem) (fmt : string) (s : rst) (ids : list Z) : option (rst * list out) :=
  match fmt with
  | EmptyString => Some (s, [])
  | String c fmt =>
      '(s, ids, o) ← gen_read_arg m c s ids;
      '(s, os) ← gen_read_loop m fmt s ids;
      Some (s, o ++ os)
  end.

Definition eluarpc_gen_read (m : mem) (p : Z) (fmt : string) (ids : list Z) :
    option (Z * list out) :=
  s ← eluarpc_match_packet_start m (p, ELUARPC_OK);
  '(s, os) ← gen_read_loop m fmt s ids;
  s ← eluarpc_match_packet_end m s;
  Some (s.2, os).

(** ** The packet format *)

Inductive field :=
| FOp (id : Z)
| FRes (id : Z)
| F8 (z : Z)
| F16 (z : Z)
| F32 (z : Z)
| FS32 (z : Z)
| FPtr (bs : list Z)
| FSmall (bs : list Z).

Definition enc (f : field) : list Z :=
  match f with
  | FOp id => [TYPE_OP_ID; u8 id]
  | FRes id => [Z.lor ELUARPC_OP_RES_MOD (u8 id)]
  | F8 z => [TYPE_INT_8; u8 z]
  | F16 z => TYPE_INT_16 :: le16 (u16 z)
  | F32 z | FS32 z => TYPE_INT_32 :: le32 (u32 z)
  | FPtr bs => TYPE_PTR :: TYPE_INT_32 :: le32 (msize bs) ++ bs
  | FSmall bs => TYPE_SMALL_PTR :: TYPE_INT_16 :: le16 (msize bs) ++ bs
  end.

Definition enc_all (fs : list field) : list Z := concat (enc <$> fs).

Definition pkt_start : list Z := TYPE_START :: TYPE_INT_32 :: le32 PACKET_SIG.
Definition pkt_end : list Z := TYPE_END :: TYPE_INT_32 :: le32 not_packet_sig.
Definition pkt_size (n : Z) : list Z := TYPE_PKT_SIZE :: TYPE_INT_16 :: le16 (u16 n).
Definition pkt_body (fs : list field) : list Z := pkt_start ++ enc_all fs ++ pkt_end.

Definition packet (fs : list field) : list Z :=
  pkt_size (4 + msize (pkt_body fs)) ++ pkt_body fs.

(** The field that a specifier and its arguments denote. *)
Definition field_of (c : ascii) (args : list va) : option (list field * list va) :=
  if Ascii.eqb c "o"%char then match args with VInt z :: args => Some ([FOp z], args) | _ => None end
  else if Ascii.eqb c "r"%char then match args with VInt z :: args => Some ([FRes z], args) | _ => None end
  else if Ascii.eqb c "c"%char then match args with VInt z :: args => Some ([F8 z], args) | _ => None end
  else if Ascii.eqb c "h"%char then match args with VInt z :: args => Some ([F16 z], args) | _ => None end
  else if Ascii.eqb c "i"%char || Ascii.eqb c "l"%char || Ascii.eqb c "L"%char then
    match args with
    | VInt z :: args => Some ([if Ascii.eqb c "l"%char then F32 z else FS32 z], args)
    | _ => None
    end
  else if Ascii.eqb c "p"%char then
    match args with
    | VPtr (Some m) :: VInt len :: args =>
        if decide (0 <= len < 4294967296) then bs ← mread m 0 len; Some ([FPtr bs], args) else None
    | _ => None
    end
  else if Ascii.eqb c "P"%char then
    match args with
    | VPtr (Some m) :: VInt len :: args =>
        if decide (0 <= len < 65536) then bs ← mread m 0 len; Some ([FSmall bs], args) else None
    | _ => None
    end
  else Some ([], args).

Fixpoint fields_of (fmt : string) (args : list va) : option (list field) :=
  match fmt with
  | EmptyString => Some []
  | String c fmt => '(f, args) ← field_of c args; fs ← fields_of fmt args; Some (f ++ fs)
  end.

Lemma enc_all_cons f fs : enc_all (f :: fs) = enc f ++ enc_all fs.
Proof. done. Qed.

Lemma enc_all_app fs gs : enc_all (fs ++ gs) = enc_all fs ++ enc_all gs.
Proof. unfold enc_all. by rewrite fmap_app, concat_app. Qed.

(** *** The writer produces the format *)

Lemma u8_byte_at z : u8 (Z.land z 255) = Z.land z 255.
Proof. apply u8_id, byte_at_ok. Qed.

Lemma write_u8_wr s z : eluarpc_write_u8 s z = wr s [TYPE_INT_8; u8 z].
Proof. unfold eluarpc_write_u8. rewrite wr_cons, put_wr. destruct (wr s _); cbn; [|done]. apply put_wr. Qed.

Lemma write_op_id_wr s z : eluarpc_write_op_id s z = wr s [TYPE_OP_ID; u8 z].
Proof. unfold eluarpc_write_op_id. rewrite wr_cons, put_wr. destruct (wr s _); cbn; [|done]. apply put_wr. Qed.

Lemma write_u16_wr s z : eluarpc_write_u16 s z = wr s (TYPE_INT_16 :: le16 z).
Proof.
  unfold eluarpc_write_u16, le16. rewrite wr_cons, put_wr. destruct (wr s _) as [s1|]; cbn -[wr put]; [|done].
  rewrite wr_cons, put_wr, u8_byte_at. destruct (wr s1 _); cbn -[wr put]; [|done].
  by rewrite put_wr, u8_byte_at.
Qed.

Lemma write_u32_wr s z : eluarpc_write_u32 s z = wr s (TYPE_INT_32 :: le32 z).
Proof.
  unfold eluarpc_write_u32, le32. rewrite wr_cons, put_wr. destruct (wr s _) as [s1|]; cbn -[wr put]; [|done].
  rewrite wr_cons, put_wr, u8_byte_at. destruct (wr s1 _) as [s2|]; cbn -[wr put]; [|done].
  rewrite wr_cons, put_wr, u8_byte_at. destruct (wr s2 _) as [s3|]; cbn -[wr put]; [|done].
  rewrite wr_cons, put_wr, u8_byte_at. destruct (wr s3 _); cbn -[wr put]; [|done].
  by rewrite put_wr, u8_byte_at.
Qed.

Lemma copy_src_wr s m len bs : mread m 0 len = Some bs → copy_src s (Some m) len = wr s bs.
Proof.
  intros Hr. unfold copy_src, wr. rewrite Hr. cbn. by rewrite (mread_msize _ _ _ _ Hr).
Qed.

Lemma write_ptr_wr s m len bs :
  mread m 0 len = Some bs → eluarpc_write_ptr s (Some m) len = wr s (enc (FPtr bs)).
Proof.
  intros Hr. unfold eluarpc_write_ptr, enc. rewrite wr_cons, put_wr.
  destruct (wr s _) as [s1|]; cbn [mbind option_bind]; [|done].
  rewrite write_u32_wr, (app_comm_cons (le32 _)), wr_app. rewrite (mread_msize _ _ _ _ Hr).
  destruct (wr s1 _) as [s2|]; cbn [mbind option_bind]; [|done]. by apply copy_src_wr.
Qed.

Lemma write_small_ptr_wr s m len bs :
  mread m 0 len = Some bs → eluarpc_write_small_ptr s (Some m) len = wr s (enc (FSmall bs)).
Proof.
  intros Hr. unfold eluarpc_write_small_ptr, enc. rewrite wr_cons, put_wr.
  destruct (wr s _) as [s1|]; cbn [mbind option_bind]; [|done].
  rewrite write_u16_wr, (app_comm_cons (le16 _)), wr_app. rewrite (mread_msize _ _ _ _ Hr).
  destruct (wr s1 _) as [s2|]; cbn [mbind option_bind]; [|done]. by apply copy_src_wr.
Qed.

Lemma wr_nil s : 0 <= s.2 <= msize s.1 → wr s [] = Some s.
Proof.
  intros H. unfold wr. destruct s as [m p]. cbn in *.
  rewrite (mwrite_mread_id m p 0 []).
  - cbn. by rewrite msize_nil, Z.add_0_r.
  - apply mread_spec. split_and!; try lia. done.
Qed.

Lemma u8_res_mod z : u8 (Z.lor ELUARPC_OP_RES_MOD (u8 z)) = Z.lor ELUARPC_OP_RES_MOD (u8 z).
Proof.
  apply u8_id. assert ((let d := u8 z in (0 <=? Z.lor 128 d) && (Z.lor 128 d <? 256)) = true) as E.
  { apply (byte_forall (λ d, (0 <=? Z.lor 128 d) && (Z.lor 128 d <? 256))); [done|apply u8_range]. }
  cbn in E. unfold ELUARPC_OP_RES_MOD. lia.
Qed.

Lemma gen_write_arg_wr c s args f args' :
  field_of c args = Some (f, args') → 0 <= s.2 <= msize s.1 →
  gen_write_arg c s args = (s ← wr s (enc_all f); Some (s, args')).
Proof.
  unfold field_of, gen_write_arg. intros Hf Hs.
  repeat match type of Hf with (if ?b then _ else _) = _ => destruct b eqn:? end;
    repeat match type of Hf with match ?x with _ => _ end = _ => destruct x; try done end;
    simplify_eq; unfold enc_all; cbn [fmap list_fmap concat]; rewrite ?app_nil_r; cbn [enc].
  1-5: rewrite ?write_op_id_wr, ?write_u8_wr, ?write_u16_wr, ?write_u32_wr, ?put_wr, ?u8_idem, ?u8_res_mod.
  1-4: done.
  - by destruct (c =? "l")%char.
  - destruct (mread _ _ _) as [bs|] eqn:Hr; cbn in Hf; simplify_eq. cbn [fmap list_fmap concat].
    rewrite app_nil_r, u32_id by done. by erewrite write_ptr_wr.
  - destruct (mread _ _ _) as [bs|] eqn:Hr; cbn in Hf; simplify_eq. cbn [fmap list_fmap concat].
    rewrite app_nil_r, u16_id by done. by erewrite write_small_ptr_wr.
  - by rewrite wr_nil.
Qed.

Lemma wr_range s bs s' : wr s bs = Some s' → 0 <= s'.2 <= msize s'.1.
Proof.
  unfold wr. destruct (mwrite s.1 s.2 bs) as [m|] eqn:E; cbn; [|done]. intros. simplify_eq. cbn.
  rewrite (mwrite_msize _ _ _ _ E). rewrite mwrite_spec in E. pose proof (msize_nonneg bs). lia.
Qed.

Lemma gen_write_loop_wr fmt s args fs :
  fields_of fmt args = Some fs → 0 <= s.2 <= msize s.1 →
  gen_write_loop fmt s args = wr s (enc_all fs).
Proof.
  revert s args fs. induction fmt as [|c fmt IH]; intros s args fs Hf Hs; cbn in *.
  - simplify_eq. by rewrite wr_nil.
  - destruct (field_of c args) as [[f args1]|] eqn:Hc; cbn in Hf; [|done].
    destruct (fields_of fmt args1) as [gs|] eqn:Hg; cbn in Hf; [|done]. simplify_eq.
    rewrite (gen_write_arg_wr _ _ _ _ _ Hc) by done. rewrite enc_all_app, wr_app.
    destruct (wr s (enc_all f)) as [s1|] eqn:E; cbn; [|done]. apply IH; [done|]. by eapply wr_range.
Qed.

Lemma start_packet_wr m p :
  eluarpc_start_packet (m, p) = wr (m, p + ELUARPC_START_OFFSET) pkt_start.
Proof.
  unfold eluarpc_start_packet, pkt_start. cbn [fst snd]. rewrite wr_cons, put_wr.
  change (u8 TYPE_START) with TYPE_START. destruct (wr _ _); cbn [mbind option_bind]; [|done].
  apply write_u32_wr.
Qed.

Lemma end_packet_wr p s :
  eluarpc_end_packet p s =
    (s ← wr s pkt_end; s ← wr (s.1, p) (pkt_size (s.2 - p)); Some s.1).
Proof.
  unfold eluarpc_end_packet, pkt_end, pkt_size. rewrite put_wr, (wr_cons s TYPE_END (TYPE_INT_32 :: _)).
  change (u8 TYPE_END) with TYPE_END. destruct (wr s _) as [s1|]; cbn [mbind option_bind]; [|done].
  rewrite write_u32_wr. destruct (wr s1 _) as [s2|]; cbn [mbind option_bind]; [|done].
  rewrite put_wr, (wr_cons (s2.1, p) TYPE_PKT_SIZE (TYPE_INT_16 :: _)). change (u8 TYPE_PKT_SIZE) with TYPE_PKT_SIZE.
  destruct (wr _ _) as [s3|]; cbn [mbind option_bind]; [|done]. by rewrite write_u16_wr.
Qed.

Lemma pkt_size_len n : msize (pkt_size n) = 4.
Proof. done. Qed.

(** The generic writer stores exactly the packet, and is defined when it fits. *)
Lemma gen_write_packet m p fmt args fs :
  fields_of fmt args = Some fs → 0 <= p → p + msize (packet fs) <= msize m →
  ∃ m', eluarpc_gen_write m p fmt args = Some m' ∧ mwrite m p (packet fs) = Some m'.
Proof.
  intros Hf Hp Hsz. unfold packet in Hsz. rewrite msize_app, pkt_size_len in Hsz.
  destruct (mwrite_is_Some m (p + 4) (pkt_body fs)) as [m1 H1]; [lia|lia|].
  pose proof (mwrite_msize _ _ _ _ H1) as Hs1. pose proof (msize_nonneg (pkt_body fs)).
  destruct (mwrite_is_Some m1 p (pkt_size (4 + msize (pkt_body fs)))) as [m2 H2];
    [lia|rewrite pkt_size_len; lia|].
  exists m2. split; [|unfold packet; eapply mwrite_back; [|done]; by rewrite pkt_size_len].
  assert (wr (m, p + 4) (pkt_body fs) = Some (m1, p + 4 + msize (pkt_body fs))) as Hb.
  { unfold wr. cbn [fst snd]. rewrite H1. done. }
  unfold pkt_body in Hb. rewrite wr_app in Hb. unfold eluarpc_gen_write. rewrite start_packet_wr.
  unfold ELUARPC_START_OFFSET. destruct (wr (m, p + 4) pkt_start) as [s1|] eqn:E1;
    cbn [mbind option_bind] in *; [|done].
  rewrite (gen_write_loop_wr _ _ _ _ Hf) by (by eapply wr_range). rewrite wr_app in Hb.
  destruct (wr s1 (enc_all fs)) as [s2|]; cbn [mbind option_bind] in *; [|done].
  rewrite end_packet_wr, Hb. cbn [mbind option_bind fst snd]. unfold wr. cbn [fst snd].
  fold (pkt_body fs). replace (p + 4 + msize (pkt_body fs) - p) with (4 + msize (pkt_body fs)) by lia.
  by rewrite H2.
Qed.

(** *** The reader inverts the format *)

Definition field_ok (f : field) : Prop :=
  match f with
  | FPtr bs => msize bs < 4294967296
  | FSmall bs => msize bs < 65536
  | _ => True
  end.

Definition ids_of (f : field) : list Z :=
  match f with FOp id | FRes id => [id] | _ => [] end.

(** What the reader yields for a field at position [p]. *)
Definition outs_of (p : Z) (f : field) : list out :=
  match f with
  | FOp _ | FRes _ => []
  | F8 z => [OInt (u8 z)]
  | F16 z => [OInt (u16 z)]
  | F32 z => [OInt (u32 z)]
  | FS32 z => [OInt (s32 z)]
  | FPtr bs => [OPtr (if msize bs =? 0 then None else Some (p + ELUARPC_PTR_HEADER_SIZE)) (msize bs)]
  | FSmall bs => [OPtr (if msize bs =? 0 then None else Some (p + ELUARPC_SMALL_PTR_HEADER_SIZE)) (msize bs)]
  end.

Fixpoint outs_all (p : Z) (fs : list field) : list out :=
  match fs with [] => [] | f :: fs => outs_of p f ++ outs_all (p + msize (enc f)) fs end.

Lemma u16_idem z : u16 (u16 z) = u16 z.
Proof. apply u16_id, u16_range. Qed.

Section reader.
Variable m : mem.

Lemma expect_at p e c l :
  bytes_at m p (c :: l) → eluarpc_read_expect m (p, e) c = Some (p + 1, e) ∧ bytes_at m (p + 1) l.
Proof.
  rewrite bytes_at_cons. intros [Hc Hl]. unfold eluarpc_read_expect. cbn. rewrite Hc. cbn.
  by rewrite Z.eqb_refl.
Qed.

Lemma get_at p e c l :
  bytes_at m p (c :: l) → get m (p, e) = Some ((p + 1, e), c) ∧ bytes_at m (p + 1) l.
Proof. rewrite bytes_at_cons. intros [Hc Hl]. unfold get. cbn. by rewrite Hc. Qed.

Lemma read_u8_at p e v l :
  bytes_at m p (TYPE_INT_8 :: v :: l) → eluarpc_read_u8 m (p, e) = Some ((p + 2, e), v).
Proof.
  intros H. unfold eluarpc_read_u8. destruct (expect_at p e _ _ H) as [-> H1].
  cbn [mbind option_bind]. destruct (get_at _ e _ _ H1) as [-> _]. cbn. pos_eq.
Qed.

Lemma read_op_id_at p e v l :
  bytes_at m p (TYPE_OP_ID :: v :: l) → eluarpc_read_op_id m (p, e) = Some ((p + 2, e), v).
Proof.
  intros H. unfold eluarpc_read_op_id. destruct (expect_at p e _ _ H) as [-> H1].
  cbn [mbind option_bind]. destruct (get_at _ e _ _ H1) as [-> _]. cbn. pos_eq.
Qed.

Lemma read_u16_at p e z l :
  bytes_at m p (TYPE_INT_16 :: le16 z ++ l) → eluarpc_read_u16 m (p, e) = Some ((p + 3, e), u16 z).
Proof.
  intros H. unfold eluarpc_read_u16. destruct (expect_at p e _ _ H) as [-> H1]. cbn [mbind option_bind].
  destruct (get_at _ e _ _ H1) as [-> H2]. cbn [mbind option_bind].
  destruct (get_at _ e _ _ H2) as [-> _]. cbn [mbind option_bind].
  rewrite of_le16_le16, u16_idem. pos_eq.
Qed.

Lemma read_u32_at p e z l :
  bytes_at m p (TYPE_INT_32 :: le32 z ++ l) → eluarpc_read_u32 m (p, e) = Some ((p + 5, e), u32 z).
Proof.
  intros H. unfold eluarpc_read_u32. destruct (expect_at p e _ _ H) as [-> H1]. cbn [mbind option_bind].
  destruct (get_at _ e _ _ H1) as [-> H2]. cbn [mbind option_bind].
  destruct (get_at _ e _ _ H2) as [-> H3]. cbn [mbind option_bind].
  destruct (get_at _ e _ _ H3) as [-> H4]. cbn [mbind option_bind].
  destruct (get_at _ e _ _ H4) as [-> _]. cbn [mbind option_bind].
  rewrite of_le32_le32, u32_idem. pos_eq.
Qed.

Lemma read_ptr_at p e bs :
  msize bs < 4294967296 → bytes_at m p (enc (FPtr bs)) →
  eluarpc_read_ptr m (p, e) false = Some ((p + 6 + msize bs, e), msize bs, []).
Proof.
  intros Hsz H. unfold eluarpc_read_ptr. destruct (expect_at p e _ _ H) as [-> H1]. cbn [mbind option_bind].
  rewrite (read_u32_at _ _ _ _ H1). cbn [mbind option_bind fst snd].
  rewrite u32_id by (pose proof (msize_nonneg bs); lia). pos_eq.
Qed.

Lemma read_small_ptr_at p e bs :
  msize bs < 65536 → bytes_at m p (enc (FSmall bs)) →
  eluarpc_read_small_ptr m (p, e) false = Some ((p + 4 + msize bs, e), msize bs, []).
Proof.
  intros Hsz H. unfold eluarpc_read_small_ptr. destruct (expect_at p e _ _ H) as [-> H1]. cbn [mbind option_bind].
  rewrite (read_u16_at _ _ _ _ H1). cbn [mbind option_bind fst snd].
  rewrite u16_id by (pose proof (msize_nonneg bs); lia). pos_eq.
Qed.

Lemma bytes_at_l p a b : bytes_at m p (a ++ b) → bytes_at m p a.
Proof. rewrite bytes_at_app. tauto. Qed.

Lemma gen_read_arg_at c args f args' p e ids :
  field_of c args = Some (f, args') → Forall field_ok f → bytes_at m p (enc_all f) →
  gen_read_arg m c (p, e) (concat (ids_of <$> f) ++ ids) =
    Some ((p + msize (enc_all f), e), ids, outs_all p f).
Proof.
  unfold field_of, gen_read_arg. intros Hf Hok Hb.
  repeat match type of Hf with (if ?b then _ else _) = _ => destruct b eqn:? end;
    repeat match type of Hf with match ?x with _ => _ end = _ => destruct x; try done end;
    simplify_eq; cbn [fmap list_fmap concat ids_of app];
    unfold enc_all in *; cbn [fmap list_fmap concat] in *; rewrite ?app_nil_r in *.
  - unfold eluarpc_expect_op_id. cbn [enc] in Hb. destruct (expect_at p e _ _ Hb) as [-> H1].
    cbn [mbind option_bind]. destruct (get_at _ e _ _ H1) as [-> _]. cbn. rewrite Z.eqb_refl. cbn.
    msz. pos_eq.
  - cbn [enc] in Hb. destruct (expect_at p e _ _ Hb) as [-> H1]. done.
  - cbn [enc] in Hb. rewrite (read_u8_at _ _ _ _ Hb). done.
  - cbn [enc] in Hb. rewrite <- (app_nil_r (le16 _)) in Hb. rewrite (read_u16_at _ _ _ _ Hb).
    cbn. by rewrite u16_idem.
  - assert (bytes_at m p (TYPE_INT_32 :: le32 (u32 z) ++ [])) as Hb'.
    { rewrite app_nil_r. by destruct (c =? "l")%char. }
    destruct (c =? "l")%char eqn:El.
    + rewrite (read_u32_at _ _ _ _ Hb'). cbn. by rewrite u32_idem.
    + replace ((c =? "L")%char || (c =? "i")%char) with true
        by (rewrite orb_false_r in Heqb3; destruct (c =? "L")%char, (c =? "i")%char; done).
      rewrite (read_u32_at _ _ _ _ Hb'). cbn. by rewrite u32_idem, s32_u32.
  - destruct (mread _ _ _) as [bs|] eqn:Hr; cbn [mbind option_bind] in Hf; [|done]. simplify_eq.
    cbn [fmap list_fmap concat ids_of app] in *. rewrite app_nil_r in *. apply Forall_cons in Hok as [Hok _].
    rewrite orb_false_iff in Heqb3. destruct Heqb3 as [[-> ->]%orb_false_iff ->]. cbn [orb].
    rewrite (read_ptr_at _ _ bs) by done. cbn [mbind option_bind fst snd outs_all outs_of app].
    unfold ELUARPC_PTR_HEADER_SIZE. cbn [enc]. msz. change (msize (le32 (msize bs))) with 4.
    do 2 f_equal; [do 2 f_equal; lia|]. do 2 f_equal.
    destruct (Z.eqb_spec (p + 6 + msize bs) (p + 6)), (Z.eqb_spec (msize bs) 0); done || lia.
  - destruct (mread _ _ _) as [bs|] eqn:Hr; cbn [mbind option_bind] in Hf; [|done]. simplify_eq.
    cbn [fmap list_fmap concat ids_of app] in *. rewrite app_nil_r in *. apply Forall_cons in Hok as [Hok _].
    rewrite orb_false_iff in Heqb3. destruct Heqb3 as [[-> ->]%orb_false_iff ->]. cbn [orb].
    rewrite (read_small_ptr_at _ _ bs) by done. cbn [mbind option_bind fst snd outs_all outs_of app].
    unfold ELUARPC_SMALL_PTR_HEADER_SIZE. cbn [enc]. msz. change (msize (le16 (msize bs))) with 2.
    do 2 f_equal; [do 2 f_equal; lia|]. do 2 f_equal.
    destruct (Z.eqb_spec (p + 4 + msize bs) (p + 4)), (Z.eqb_spec (msize bs) 0); done || lia.
  - rewrite orb_false_iff in Heqb3. destruct Heqb3 as [[-> ->]%orb_false_iff ->]. cbn.
    by rewrite msize_nil, Z.add_0_r.
Qed.

Lemma outs_all_app p a b : outs_all p (a ++ b) = outs_all p a ++ outs_all (p + msize (enc_all a)) b.
Proof.
  revert p. induction a as [|f a IH]; intros p; cbn [app outs_all].
  - change (enc_all []) with (@nil Z). by rewrite msize_nil, Z.add_0_r.
  - rewrite IH, enc_all_cons, msize_app, <- app_assoc. by rewrite Z.add_assoc.
Qed.

Lemma gen_read_loop_at fmt args fs p e :
  fields_of fmt args = Some fs → Forall field_ok fs → bytes_at m p (enc_all fs) →
  gen_read_loop m fmt (p, e) (concat (ids_of <$> fs)) =
    Some ((p + msize (enc_all fs), e), outs_all p fs).
Proof.
  revert args fs p. induction fmt as [|c fmt IH]; intros args fs p Hf Hok Hb; cbn [fields_of gen_read_loop] in *.
  - simplify_eq. cbn. by rewrite msize_nil, Z.add_0_r.
  - destruct (field_of c args) as [[f args1]|] eqn:Hc; cbn in Hf; [|done].
    destruct (fields_of fmt args1) as [gs|] eqn:Hg; cbn in Hf; [|done]. simplify_eq.
    apply Forall_app in Hok as [Hokf Hokg]. rewrite enc_all_app, bytes_at_app in Hb. destruct Hb as [Hbf Hbg].
    rewrite fmap_app, concat_app. rewrite (gen_read_arg_at c args f args1) by done.
    cbn [mbind option_bind]. rewrite (IH args1 gs) by done. cbn [mbind option_bind].
    by rewrite enc_all_app, msize_app, outs_all_app, Z.add_assoc.
Qed.

Lemma match_start_at p e l :
  bytes_at m (p + 4) (pkt_start ++ l) → eluarpc_match_packet_start m (p, e) = Some (p + 10, e).
Proof.
  intros H. unfold eluarpc_match_packet_start, ELUARPC_START_OFFSET. cbn [fst snd].
  destruct (expect_at _ e _ _ H) as [-> H1]. cbn [mbind option_bind].
  rewrite (read_u32_at _ _ _ _ H1). cbn [mbind option_bind fst snd].
  change (u32 PACKET_SIG) with PACKET_SIG. rewrite Z.eqb_refl. cbn. pos_eq.
Qed.

Lemma match_end_at p e : bytes_at m p pkt_end → eluarpc_match_packet_end m (p, e) = Some (p + 6, e).
Proof.
  intros H. unfold eluarpc_match_packet_end. destruct (expect_at _ e _ _ H) as [-> H1].
  cbn [mbind option_bind]. unfold pkt_end in H. rewrite <- (app_nil_r (le32 _)) in H1.
  rewrite (read_u32_at _ _ _ _ H1). cbn [mbind option_bind fst snd].
  change (u32 not_packet_sig) with not_packet_sig. rewrite Z.eqb_refl. cbn. pos_eq.
Qed.

Lemma gen_read_packet p fmt args fs :
  fields_of fmt args = Some fs → Forall field_ok fs → bytes_at m p (packet fs) →
  eluarpc_gen_read m p fmt (concat (ids_of <$> fs)) = Some (ELUARPC_OK, outs_all (p + 10) fs).
Proof.
  intros Hf Hok Hb. unfold packet in Hb. rewrite bytes_at_app, pkt_size_len in Hb. destruct Hb as [_ Hb].
  unfold eluarpc_gen_read. rewrite (match_start_at _ _ _ Hb). cbn [mbind option_bind].
  unfold pkt_body in Hb. rewrite !bytes_at_app in Hb. destruct Hb as (_ & Hf1 & He).
  change (msize pkt_start) with 6 in *. replace (p + 4 + 6) with (p + 10) in * by lia.
  rewrite (gen_read_loop_at _ _ _ _ _ Hf Hok Hf1). cbn [mbind option_bind].
  rewrite (match_end_at _ _ He). done.
Qed.

Lemma get_packet_size_at p n l :
  bytes_at m p (pkt_size n ++ l) → eluarpc_get_packet_size m p = Some (ELUARPC_OK, u16 n).
Proof.
  intros H. unfold eluarpc_get_packet_size. destruct (expect_at p ELUARPC_OK _ _ H) as [-> H1].
  cbn [mbind option_bind]. rewrite (read_u16_at _ _ _ _ H1). cbn. by rewrite u16_idem.
Qed.

Lemma get_request_id_at p id fs :
  bytes_at m p (packet (FOp id :: fs)) → eluarpc_get_request_id m p = Some (ELUARPC_OK, u8 id).
Proof.
  intros Hb. unfold packet in Hb. rewrite bytes_at_app, pkt_size_len in Hb. destruct Hb as [_ Hb].
  unfold eluarpc_get_request_id. rewrite (match_start_at _ _ _ Hb). cbn [mbind option_bind].
  unfold pkt_body in Hb. rewrite !bytes_at_app in Hb. destruct Hb as (_ & Hf1 & _).
  change (msize pkt_start) with 6 in *. replace (p + 4 + 6) with (p + 10) in * by lia.
  rewrite enc_all_cons in Hf1. by rewrite (read_op_id_at _ _ _ _ Hf1).
Qed.
End reader.

(** The bytes of a packet are bytes. *)
Definition field_bytes (f : field) : Prop :=
  match f with FPtr bs | FSmall bs => bytes_ok bs | _ => True end.

Lemma enc_bytes f : field_bytes f → bytes_ok (enc f).
Proof.
  assert (∀ z, byte_ok (u8 z)) as Hu by (intros; apply u8_range).
  assert (∀ k, 0 <= k < 256 → byte_ok k) as Hk by done.
  intros Hf. destruct f; cbn [enc] in *.
  - constructor; [by apply Hk|by apply bytes_ok_one].
  - apply bytes_ok_one. rewrite <- u8_res_mod. apply Hu.
  - constructor; [by apply Hk|by apply bytes_ok_one].
  - constructor; [by apply Hk|apply le16_ok].
  - constructor; [by apply Hk|apply le32_ok].
  - constructor; [by apply Hk|apply le32_ok].
  - constructor; [by apply Hk|]. constructor; [by apply Hk|]. apply bytes_ok_app. split; [apply le32_ok|done].
  - constructor; [by apply Hk|]. constructor; [by apply Hk|]. apply bytes_ok_app. split; [apply le16_ok|done].
Qed.

Lemma packet_bytes fs : Forall field_bytes fs → bytes_ok (packet fs).
Proof.
  assert (∀ k, 0 <= k < 256 → byte_ok k) as Hk by done.
  intros Hf. unfold packet, pkt_body. rewrite !bytes_ok_app. split_and!.
  - constructor; [by apply Hk|]. constructor; [by apply Hk|apply le16_ok].
  - constructor; [by apply Hk|]. constructor; [by apply Hk|apply le32_ok].
  - unfold enc_all. induction Hf as [|f fs H _ IH]; [constructor|]. cbn [fmap list_fmap concat].
    apply bytes_ok_app. split; [by apply enc_bytes|done].
  - constructor; [by apply Hk|]. constructor; [by apply Hk|apply le32_ok].
Qed.

Lemma packet_size fs : msize (packet fs) = 16 + msize (enc_all fs).
Proof.
  unfold packet, pkt_body. rewrite !msize_app, pkt_size_len.
  change (msize pkt_start) with 6. change (msize pkt_end) with 6. lia.
Qed.

(** What a pointer's field carries, and where its data begins in it. *)
Definition pointer_data (f : field) : option (Z * list Z) :=
  match f with
  | FPtr bs => Some (ELUARPC_PTR_HEADER_SIZE, bs)
  | FSmall bs => Some (ELUARPC_SMALL_PTR_HEADER_SIZE, bs)
  | _ => None
  end.

Lemma pointer_copied m p f h bs : pointer_data f = Some (h, bs) → bytes_at m p (enc f) → mread m (p + h) (msize bs) = Some bs.
Proof.
  intros Hf Hb. destruct f; try done; cbn in Hf; simplify_eq; cbn [enc] in Hb; rewrite !bytes_at_cons, bytes_at_app in Hb; destruct Hb as (_ & _ & _ & Hb); unfold bytes_at in Hb.
  - change (msize (le32 (msize bs))) with 4 in Hb. rewrite <- Hb. unfold ELUARPC_PTR_HEADER_SIZE. pos_eq.
  - change (msize (le16 (msize bs))) with 2 in Hb. rewrite <- Hb. unfold ELUARPC_SMALL_PTR_HEADER_SIZE. pos_eq.
Qed.

(** C24: the generic writer and reader are inverse: for every format string and well-kinded
    arguments, writing into a buffer with room succeeds, changes only the packet's
    bytes, stores its size in the header, and reading the packet with the same format
    succeeds and yields the written values, with each pointer argument, long or small, pointing at
    a copy of the written data (NULL for empty data). *)
Theorem rpc_round_trip m p fmt args fs :
  fields_of fmt args = Some fs → Forall field_ok fs →
  0 <= p → p + msize (packet fs) <= msize m →
  ∃ m', eluarpc_gen_write m p fmt args = Some m' ∧ msize m' = msize m ∧
    eluarpc_get_packet_size m' p = Some (ELUARPC_OK, u16 (msize (packet fs))) ∧
    eluarpc_gen_read m' p fmt (concat (ids_of <$> fs)) = Some (ELUARPC_OK, outs_all (p + 10) fs) ∧
    (∀ fs1 f fs2 h bs, fs = fs1 ++ f :: fs2 → pointer_data f = Some (h, bs) →
       mread m' (p + 10 + msize (enc_all fs1) + h) (msize bs) = Some bs) ∧
    (∀ i : nat, Z.of_nat i < p ∨ p + msize (packet fs) <= Z.of_nat i → m' !! i = m !! i).
Proof.
  intros Hf Hok Hp Hsz. destruct (gen_write_packet m p fmt args fs) as (m' & Hw & Hm); [done..|].
  pose proof (bytes_at_mwrite _ _ _ _ Hm) as Hb. exists m'.
  split; [done|]. split; [by eapply mwrite_msize|]. split; [|split; [by eapply gen_read_packet|split]].
  - pose proof Hb as Hb'. unfold packet in Hb'. rewrite (get_packet_size_at _ _ _ _ Hb').
    unfold packet. by rewrite msize_app, pkt_size_len.
  - intros fs1 f fs2 h bs -> Hd. unfold packet, pkt_body in Hb. rewrite !bytes_at_app, pkt_size_len in Hb.
    destruct Hb as (_ & _ & Hb & _). rewrite enc_all_app, enc_all_cons, !bytes_at_app in Hb.
    destruct Hb as (_ & Hb & _). change (msize pkt_start) with 6 in Hb.
    rewrite <- (pointer_copied _ _ f h bs Hd Hb). pos_eq.
  - intros i Hi. by eapply mwrite_lookup_out.
Qed.

Lemma res_mod_inj a b :
  0 <= a < 128 → 0 <= b < 128 → Z.lor ELUARPC_OP_RES_MOD a = Z.lor ELUARPC_OP_RES_MOD b → a = b.
Proof.
  intros Ha Hb. unfold ELUARPC_OP_RES_MOD. change 128 with (Z.shiftl 1 7).
  rewrite !(Z.lor_comm (Z.shiftl 1 7)), !lor_shiftl_add by (cbn; lia). lia.
Qed.

(** A packet of one operation is refused by the reader of another: whatever follows, the
    error code is [ELUARPC_ERR] when the operation of a request, or of a response,
    is not the expected one. *)
Theorem rpc_wrong_op_refused m p (req : bool) fmt args fs id id' :
  fields_of fmt args = Some fs → Forall field_ok fs → u8 id ≠ u8 id' → u8 id < 128 → u8 id' < 128 →
  bytes_at m p (packet ((if req then FOp id else FRes id) :: fs)) →
  ∃ os, eluarpc_gen_read m p (String (if req then "o" else "r")%char fmt)
      (id' :: concat (ids_of <$> fs)) = Some (ELUARPC_ERR, os).
Proof.
  intros Hf Hok Hne Hlt Hlt' Hb. unfold packet in Hb. rewrite bytes_at_app, pkt_size_len in Hb. destruct Hb as [_ Hb].
  unfold eluarpc_gen_read. rewrite (match_start_at _ _ _ _ Hb). cbn [mbind option_bind].
  unfold pkt_body in Hb. rewrite !bytes_at_app in Hb. destruct Hb as (_ & Hf1 & He).
  change (msize pkt_start) with 6 in *. replace (p + 4 + 6) with (p + 10) in * by lia.
  rewrite enc_all_cons, bytes_at_app in Hf1. rewrite enc_all_cons, msize_app, Z.add_assoc in He.
  destruct Hf1 as [Ho Hf1]. cbn [gen_read_loop]. destruct req; cbn [enc] in Ho, Hf1, He; cbn -[gen_read_loop enc_all Z.add u8 Z.lor].
  - unfold eluarpc_expect_op_id. destruct (expect_at m _ ELUARPC_OK _ _ Ho) as [-> H1].
    cbn [mbind option_bind]. destruct (get_at m _ ELUARPC_OK _ _ H1) as [-> _]. cbn [mbind option_bind fst snd].
    rewrite (proj2 (Z.eqb_neq _ _)) by done. cbn [negb]. msz.
    replace (p + 10 + 1 + 1) with (p + 10 + (1 + (1 + 0))) by lia.
    rewrite (gen_read_loop_at m _ _ _ _ _ Hf Hok Hf1). cbn [mbind option_bind].
    rewrite (match_end_at m _ _ He). cbn. eauto.
  - rewrite bytes_at_cons in Ho. destruct Ho as [Ho _]. unfold eluarpc_read_expect. cbn [fst snd].
    rewrite Ho. cbn [mbind option_bind].
    rewrite (proj2 (Z.eqb_neq (Z.lor ELUARPC_OP_RES_MOD (u8 id)) _)).
    2: { intros E. apply Hne, res_mod_inj; [pose proof (u8_range id); lia|pose proof (u8_range id'); lia|done]. }
    cbn [negb]. msz. replace (p + 10 + 1) with (p + 10 + (1 + 0)) by lia.
    rewrite (gen_read_loop_at m _ _ _ _ _ Hf Hok Hf1). cbn [mbind option_bind].
    rewrite (match_end_at m _ _ He). cbn. eauto.
Qed.

(** ** The theorems at work *)

Example rpc_round_trip_witness :
  ∃ m', eluarpc_gen_write (replicate 64 0) 0 "opPi" [VInt 1; VPtr (Some (txt "/rfs/a")); VInt 6; VPtr (Some (txt "rw")); VInt 2; VInt (-2)] = Some m' ∧
    msize m' = 64 ∧
    eluarpc_get_packet_size m' 0 = Some (ELUARPC_OK, u16 41) ∧
    eluarpc_gen_read m' 0 "opPi" [1] = Some (ELUARPC_OK, [OPtr (Some 18) 6; OPtr (Some 28) 2; OInt (-2)]) ∧
    (∀ fs1 f fs2 h bs, [FOp 1; FPtr (txt "/rfs/a"); FSmall (txt "rw"); FS32 (-2)] = fs1 ++ f :: fs2 → pointer_data f = Some (h, bs) →
       mread m' (0 + 10 + msize (enc_all fs1) + h) (msize bs) = Some bs) ∧
    (∀ i : nat, Z.of_nat i < 0 ∨ 0 + 41 <= Z.of_nat i → m' !! i = replicate 64 0 !! i).
Proof.
  apply (rpc_round_trip (replicate 64 0) 0 "opPi" [VInt 1; VPtr (Some (txt "/rfs/a")); VInt 6; VPtr (Some (txt "rw")); VInt 2; VInt (-2)]
           [FOp 1; FPtr (txt "/rfs/a"); FSmall (txt "rw"); FS32 (-2)]);
    [reflexivity|repeat constructor|lia|vm_compute; discriminate].
Defined.

Example rpc_wrong_op_refused_witness :
  ∃ os, eluarpc_gen_read (packet [FRes 3; FS32 7]) 0 "ri" [4] = Some (ELUARPC_ERR, os).
Proof.
  apply (rpc_wrong_op_refused (packet [FRes 3; FS32 7]) 0 false "i" [VInt 7] [FS32 7] 3 4);
    [reflexivity|repeat constructor|discriminate|reflexivity|reflexivity|reflexivity].
Defined.
