(* ===== verification/RemoteFs.v ===== *)
(** * The remote file system operations (src/remotefs/remotefs.c) and the translation of
    flags and seek modes (src/remotefs/elua_os_io.c, rfs_server_src/os_io_posix.c)

    Each operation has a request and a response, each with a writer and a reader;
    the readers return the error code and the values stored through the pointer
    arguments, strings and data as positions in the packet (NULL is [None]). *)
From Stdlib Require Import Ascii.
From S2P Require Import Prelude Rpc.

Definition RFS_OP_OPEN : Z := 1.
Definition RFS_OP_WRITE : Z := 2.
Definition RFS_OP_READ : Z := 3.
Definition RFS_OP_CLOSE : Z := 4.
Definition RFS_OP_LSEEK : Z := 5.
Definition RFS_OP_OPENDIR : Z := 6.
Definition RFS_OP_READDIR : Z := 7.
Definition RFS_OP_CLOSEDIR : Z := 8.
Definition RFS_OP_FIRST : Z := RFS_OP_OPEN.
Definition RFS_OP_LAST : Z := RFS_OP_CLOSEDIR.

Definition RFS_OPEN_FLAG_APPEND : Z := 1.
Definition RFS_OPEN_FLAG_CREAT : Z := 2.
Definition RFS_OPEN_FLAG_EXCL : Z := 4.
Definition RFS_OPEN_FLAG_TRUNC : Z := 8.
Definition RFS_OPEN_FLAG_SYNC : Z := 16.
Definition RFS_OPEN_FLAG_RDONLY : Z := 32.
Definition RFS_OPEN_FLAG_WRONLY : Z := 64.
Definition RFS_OPEN_FLAG_RDWR : Z := 128.

Definition RFS_LSEEK_SET : Z := 1.
Definition RFS_LSEEK_CUR : Z := 2.
Definition RFS_LSEEK_END : Z := 3.

Definition RFS_MAX_FNAME_SIZE : Z := 31.

(** What a reader stored, by position; a packet of another shape is not produced. *)
Definition out_int (o : list out) (i : nat) : option Z :=
  match o !! i with Some (OInt z) => Some z | _ => None end.

Definition out_ptr (o : list out) (i : nat) : option (option Z * Z) :=
  match o !! i with Some (OPtr q n) => Some (q, n) | _ => None end.

Definition read1 (r : option (Z * list out)) : option (Z * Z) :=
  '(e, o) ← r; v ← out_int o 0; Some (e, v).

(** ** open *)

Definition remotefs_open_write_response (m : mem) (p result : Z) : option mem :=
  eluarpc_gen_write m p "ri" [VInt RFS_OP_OPEN; VInt result].

Definition remotefs_open_read_response (m : mem) (p : Z) : option (Z * Z) :=
  read1 (eluarpc_gen_read m p "ri" [RFS_OP_OPEN]).

Definition remotefs_open_write_request (m : mem) (p : Z) (pathname : mem) (flags mode : Z) : option mem :=
  len ← strlen pathname;
  eluarpc_gen_write m p "opii" [VInt RFS_OP_OPEN; VPtr (Some pathname); VInt (len + 1); VInt flags; VInt mode].

Definition remotefs_open_read_request (m : mem) (p : Z) : option (Z * option Z * Z * Z) :=
  '(e, o) ← eluarpc_gen_read m p "opii" [RFS_OP_OPEN];
  '(path, _) ← out_ptr o 0; flags ← out_int o 1; mode ← out_int o 2;
  Some (e, path, flags, mode).

(** ** write *)

Definition remotefs_write_write_response (m : mem) (p result : Z) : option mem :=
  eluarpc_gen_write m p "rl" [VInt RFS_OP_WRITE; VInt result].

Definition remotefs_write_read_response (m : mem) (p : Z) : option (Z * Z) :=
  read1 (eluarpc_gen_read m p "rl" [RFS_OP_WRITE]).

Definition remotefs_write_write_request (m : mem) (p fd : Z) (buf : mem) (count : Z) : option mem :=
  eluarpc_gen_write m p "oip" [VInt RFS_OP_WRITE; VInt fd; VPtr (Some buf); VInt count].

Definition remotefs_write_read_request (m : mem) (p : Z) : option (Z * Z * option Z * Z) :=
  '(e, o) ← eluarpc_gen_read m p "oip" [RFS_OP_WRITE];
  fd ← out_int o 0; '(buf, count) ← out_ptr o 1;
  Some (e, fd, buf, count).

(** ** read *)

Definition remotefs_read_write_response (m : mem) (p readbytes : Z) : option mem :=
  eluarpc_gen_write m p "rp" [VInt RFS_OP_READ; VPtr None; VInt readbytes].

Definition remotefs_read_read_response (m : mem) (p : Z) : option (Z * option Z * Z) :=
  '(e, o) ← eluarpc_gen_read m p "rp" [RFS_OP_READ];
  '(data, n) ← out_ptr o 0; Some (e, data, n).

Definition remotefs_read_write_request (m : mem) (p fd count : Z) : option mem :=
  eluarpc_gen_write m p "oil" [VInt RFS_OP_READ; VInt fd; VInt count].

Definition remotefs_read_read_request (m : mem) (p : Z) : option (Z * Z * Z) :=
  '(e, o) ← eluarpc_gen_read m p "oil" [RFS_OP_READ];
  fd ← out_int o 0; count ← out_int o 1; Some (e, fd, count).

(** ** close *)

Definition remotefs_close_write_response (m : mem) (p result : Z) : option mem :=
  eluarpc_gen_write m p "ri" [VInt RFS_OP_CLOSE; VInt result].

Definition remotefs_close_read_response (m : mem) (p : Z) : option (Z * Z) :=
  read1 (eluarpc_gen_read m p "ri" [RFS_OP_CLOSE]).

Definition remotefs_close_write_request (m : mem) (p fd : Z) : option mem :=
  eluarpc_gen_write m p "oi" [VInt RFS_OP_CLOSE; VInt fd].

Definition remotefs_close_read_request (m : mem) (p : Z) : option (Z * Z) :=
  read1 (eluarpc_gen_read m p "oi" [RFS_OP_CLOSE]).

(** ** lseek *)

Definition remotefs_lseek_write_response (m : mem) (p result : Z) : option mem :=
  eluarpc_gen_write m p "rL" [VInt RFS_OP_LSEEK; VInt result].

Definition remotefs_lseek_read_response (m : mem) (p : Z) : option (Z * Z) :=
  read1 (eluarpc_gen_read m p "rL" [RFS_OP_LSEEK]).

Definition remotefs_lseek_write_request (m : mem) (p fd offset whence : Z) : option mem :=
  eluarpc_gen_write m p "oiLi" [VInt RFS_OP_LSEEK; VInt fd; VInt offset; VInt whence].

Definition remotefs_lseek_read_request (m : mem) (p : Z) : option (Z * Z * Z * Z) :=
  '(e, o) ← eluarpc_gen_read m p "oiLi" [RFS_OP_LSEEK];
  fd ← out_int o 0; offset ← out_int o 1; whence ← out_int o 2;
  Some (e, fd, offset, whence).

(** ** opendir, readdir, closedir *)

Definition remotefs_opendir_write_response (m : mem) (p d : Z) : option mem :=
  eluarpc_gen_write m p "rl" [VInt RFS_OP_OPENDIR; VInt d].

Definition remotefs_opendir_read_response (m : mem) (p : Z) : option (Z * Z) :=
  read1 (eluarpc_gen_read m p "rl" [RFS_OP_OPENDIR]).

Definition remotefs_opendir_write_request (m : mem) (p : Z) (name : mem) : option mem :=
  len ← strlen name;
  eluarpc_gen_write m p "op" [VInt RFS_OP_OPENDIR; VPtr (Some name); VInt (len + 1)].

Definition remotefs_opendir_read_request (m : mem) (p : Z) : option (Z * option Z) :=
  '(e, o) ← eluarpc_gen_read m p "op" [RFS_OP_OPENDIR];
  '(name, _) ← out_ptr o 0; Some (e, name).

(** [name] is NULL at the end of the directory. *)
Definition remotefs_readdir_write_response (m : mem) (p : Z) (name : option mem) (size ftime : Z) : option mem :=
  len ← (match name with Some s => l ← strlen s; Some (l + 1) | None => Some 0 end);
  eluarpc_gen_write m p "rpll" [VInt RFS_OP_READDIR; VPtr name; VInt len; VInt size; VInt ftime].

Definition remotefs_readdir_read_response (m : mem) (p : Z) : option (Z * option Z * Z * Z) :=
  '(e, o) ← eluarpc_gen_read m p "rpll" [RFS_OP_READDIR];
  '(name, _) ← out_ptr o 0; size ← out_int o 1; ftime ← out_int o 2;
  Some (e, name, size, ftime).

Definition remotefs_readdir_write_request (m : mem) (p d : Z) : option mem :=
  eluarpc_gen_write m p "ol" [VInt RFS_OP_READDIR; VInt d].

Definition remotefs_readdir_read_request (m : mem) (p : Z) : option (Z * Z) :=
  read1 (eluarpc_gen_read m p "ol" [RFS_OP_READDIR]).

Definition remotefs_closedir_write_response (m : mem) (p d : Z) : option mem :=
  eluarpc_gen_write m p "ri" [VInt RFS_OP_CLOSEDIR; VInt d].

Definition remotefs_closedir_read_response (m : mem) (p : Z) : option (Z * Z) :=
  read1 (eluarpc_gen_read m p "ri" [RFS_OP_CLOSEDIR]).

Definition remotefs_closedir_write_request (m : mem) (p d : Z) : option mem :=
  eluarpc_gen_write m p "ol" [VInt RFS_OP_CLOSEDIR; VInt d].

Definition remotefs_closedir_read_request (m : mem) (p : Z) : option (Z * Z) :=
  read1 (eluarpc_gen_read m p "ol" [RFS_OP_CLOSEDIR]).

(** *** Reading and writing the messages *)

Ltac fields_simpl := cbn [fields_of field_of Ascii.eqb Bool.eqb orb mbind option_bind].

Lemma field_of_ptr m len args bs :
  mread m 0 len = Some bs → 0 <= len < 4294967296 →
  field_of "p"%char (VPtr (Some m) :: VInt len :: args) = Some ([FPtr bs], args).
Proof. intros Hr Hl. unfold field_of. cbn. rewrite decide_True by done. by rewrite Hr. Qed.

(** A response that is one integer. *)
Lemma read_int_response (m : mem) (c : ascii) op z (f : Z → field) (g : Z → Z) :
  (∀ args, field_of c (VInt z :: args) = Some ([f z], args)) →
  (∀ p, outs_of p (f z) = [OInt (g z)]) → ids_of (f z) = [] → field_ok (f z) →
  bytes_at m 0 (packet [FRes op; f z]) →
  read1 (eluarpc_gen_read m 0 (String "r" (String c EmptyString)) [op]) = Some (ELUARPC_OK, g z).
Proof.
  intros Hf Ho Hi Hok Hb.
  assert (fields_of (String "r" (String c EmptyString)) [VInt op; VInt z] = Some [FRes op; f z]) as Hfs.
  { cbn. by rewrite Hf. }
  pose proof (gen_read_packet m 0 _ _ _ Hfs) as Hr. cbn [fmap list_fmap concat ids_of app] in Hr. rewrite Hi in Hr. cbn [app] in Hr.
  rewrite Hr; [|repeat constructor; done|done]. cbn [mbind option_bind read1 outs_all outs_of app]. by rewrite Ho.
Qed.

(** The data of a read response is already in place when the response is built around it. *)
Lemma read_write_response_in_place m bs :
  mread m ELUARPC_READ_BUF_OFFSET (msize bs) = Some bs → msize bs < 4294967296 →
  msize (packet [FRes RFS_OP_READ; FPtr bs]) <= msize m →
  ∃ m', remotefs_read_write_response m 0 (msize bs) = Some m' ∧
    mwrite m 0 (packet [FRes RFS_OP_READ; FPtr bs]) = Some m'.
Proof.
  intros Hr Hlt Hsz. pose proof (msize_nonneg bs).
  assert (fields_of "rp" [VInt RFS_OP_READ; VPtr (Some bs); VInt (msize bs)] = Some [FRes RFS_OP_READ; FPtr bs]) as Hf.
  { fields_simpl. rewrite decide_True by lia. by rewrite mread_all. }
  destruct (gen_write_packet m 0 "rp" _ _ Hf) as (m' & Hw & Hm); [lia|lia|]. exists m'. split; [|done].
  rewrite <- Hw. unfold remotefs_read_write_response, eluarpc_gen_write. rewrite start_packet_wr.
  unfold wr at 1 2. cbn [fst snd]. destruct (mwrite m _ pkt_start) as [m1|] eqn:E1; cbn [mbind option_bind]; [|done].
  cbn [gen_write_loop gen_write_arg Ascii.eqb Bool.eqb orb mbind option_bind].
  rewrite !put_wr. unfold wr at 1 2. cbn [fst snd]. destruct (mwrite m1 _ _) as [m2|] eqn:E2; cbn [mbind option_bind]; [|done].
  unfold eluarpc_write_ptr. rewrite !put_wr. unfold wr at 1 2. cbn [fst snd].
  destruct (mwrite m2 _ _) as [m3|] eqn:E3; cbn [mbind option_bind]; [|done].
  rewrite !write_u32_wr. unfold wr at 1 2. cbn [fst snd].
  destruct (mwrite m3 _ _) as [m4|] eqn:E4; cbn [mbind option_bind]; [|done].
  unfold copy_src. rewrite u32_id by lia. rewrite mread_all. cbn [mbind option_bind fst snd].
  change (0 + ELUARPC_START_OFFSET + msize pkt_start) with 10 in *. unfold ELUARPC_START_OFFSET in *. msz.
  change (msize (le32 (msize bs))) with 4 in *.
  rewrite (mwrite_mread_id m4 _ (msize bs) bs); [done|].
  rewrite u32_id in E4 by lia.
  rewrite (mread_mwrite_disjoint _ _ _ _ _ _ E4) by (msz; change (msize (le32 (msize bs))) with 4; lia).
  rewrite (mread_mwrite_disjoint _ _ _ _ _ _ E3) by (msz; lia).
  rewrite (mread_mwrite_disjoint _ _ _ _ _ _ E2) by (msz; lia).
  rewrite (mread_mwrite_disjoint _ _ _ _ _ _ E1) by (change (msize pkt_start) with 6; lia).
  rewrite <- Hr. f_equal.
Qed.

(** ** Flags and seek modes

    The constants of a C library's <fcntl.h> and <unistd.h>. *)
Class Fcntl := {
  O_APPEND : Z; O_CREAT : Z; O_EXCL : Z; O_TRUNC : Z; O_SYNC : Z;
  O_RDONLY : Z; O_WRONLY : Z; O_RDWR : Z;
  SEEK_SET : Z; SEEK_CUR : Z; SEEK_END : Z
}.

Section translate.
Context `{Fcntl}.

Definition os_open_sys_flags_to_rfs_flags (sysflags : Z) : Z :=
  let rfsflags := eluarpc_replace_flag sysflags O_APPEND RFS_OPEN_FLAG_APPEND in
  let rfsflags := Z.lor rfsflags (eluarpc_replace_flag sysflags O_CREAT RFS_OPEN_FLAG_CREAT) in
  let rfsflags := Z.lor rfsflags (eluarpc_replace_flag sysflags O_EXCL RFS_OPEN_FLAG_EXCL) in
  let rfsflags := Z.lor rfsflags (eluarpc_replace_flag sysflags O_TRUNC RFS_OPEN_FLAG_TRUNC) in
  let rfsflags := Z.lor rfsflags (eluarpc_replace_flag sysflags O_SYNC RFS_OPEN_FLAG_SYNC) in
  let rfsflags := Z.lor rfsflags (eluarpc_replace_flag sysflags O_RDONLY RFS_OPEN_FLAG_RDONLY) in
  let rfsflags := Z.lor rfsflags (eluarpc_replace_flag sysflags O_WRONLY RFS_OPEN_FLAG_WRONLY) in
  Z.lor rfsflags (eluarpc_replace_flag sysflags O_RDWR RFS_OPEN_FLAG_RDWR).

(** The translation back in [os_open]. *)
Definition os_open_realflags (flags : Z) : Z :=
  let realflags := eluarpc_replace_flag flags RFS_OPEN_FLAG_APPEND O_APPEND in
  let realflags := Z.lor realflags (eluarpc_replace_flag flags RFS_OPEN_FLAG_CREAT O_CREAT) in
  let realflags := Z.lor realflags (eluarpc_replace_flag flags RFS_OPEN_FLAG_EXCL O_EXCL) in
  let realflags := Z.lor realflags (eluarpc_replace_flag flags RFS_OPEN_FLAG_TRUNC O_TRUNC) in
  let realflags := Z.lor realflags (eluarpc_replace_flag flags RFS_OPEN_FLAG_SYNC O_SYNC) in
  let realflags := Z.lor realflags (eluarpc_replace_flag flags RFS_OPEN_FLAG_RDONLY O_RDONLY) in
  let realflags := Z.lor realflags (eluarpc_replace_flag flags RFS_OPEN_FLAG_WRONLY O_WRONLY) in
  Z.lor realflags (eluarpc_replace_flag flags RFS_OPEN_FLAG_RDWR O_RDWR).

Definition os_lseek_sys_whence_to_rfs_whence (syswhence : Z) : Z :=
  if syswhence =? SEEK_SET then RFS_LSEEK_SET
  else if syswhence =? SEEK_CUR then RFS_LSEEK_CUR
  else if syswhence =? SEEK_END then RFS_LSEEK_END else 0.

(** The translation back in [os_lseek]; [None] is its early return of -1. *)
Definition os_lseek_realwhence (whence : Z) : option Z :=
  if whence =? RFS_LSEEK_SET then Some SEEK_SET
  else if whence =? RFS_LSEEK_CUR then Some SEEK_CUR
  else if whence =? RFS_LSEEK_END then Some SEEK_END else None.
End translate.

(** A C library of the usual kind: each flag is a bit ([O_SYNC] may have several), the
    three access modes are 0, 1 and 2, and the seek modes are distinct. *)
Class FcntlOk (F : Fcntl) : Prop := {
  fcntl_bits : ∃ a c x t, O_APPEND = 2 ^ a ∧ O_CREAT = 2 ^ c ∧ O_EXCL = 2 ^ x ∧ O_TRUNC = 2 ^ t
    ∧ NoDup [0; 1; a; c; x; t] ∧ Forall (λ b, 0 <= b < 31) [a; c; x; t]
    ∧ O_SYNC ≠ 0 ∧ Forall (λ b, Z.testbit O_SYNC b = false) [0; 1; a; c; x; t];
  fcntl_modes : O_RDONLY = 0 ∧ O_WRONLY = 1 ∧ O_RDWR = 2;
  fcntl_seek : NoDup [SEEK_SET; SEEK_CUR; SEEK_END]
}.

(** *** The translations agree *)

Definition has_flag (f flag : Z) : bool := ctrue (Z.land f flag).

Lemma has_pow2 f b : 0 <= b → has_flag f (2 ^ b) = Z.testbit f b.
Proof. intros. unfold has_flag. rewrite <- Z.shiftl_1_l. by apply ctrue_land_bit. Qed.

Lemma testbit_replace (v : Z) o b i : 0 <= b → 
  Z.testbit (eluarpc_replace_flag v o (2 ^ b)) i = has_flag v o && (b =? i).
Proof.
  intros Hb. unfold eluarpc_replace_flag, has_flag. destruct (ctrue _); cbn.
  - by apply Z.pow2_bits_eqb.
  - apply Z.bits_0.
Qed.

(** The wire flags say exactly which of the caller's flags are set. *)
Lemma rfs_flags_have `{Fcntl} f :
  let r := os_open_sys_flags_to_rfs_flags f in
  has_flag r RFS_OPEN_FLAG_APPEND = has_flag f O_APPEND ∧
  has_flag r RFS_OPEN_FLAG_CREAT = has_flag f O_CREAT ∧
  has_flag r RFS_OPEN_FLAG_EXCL = has_flag f O_EXCL ∧
  has_flag r RFS_OPEN_FLAG_TRUNC = has_flag f O_TRUNC ∧
  has_flag r RFS_OPEN_FLAG_SYNC = has_flag f O_SYNC ∧
  has_flag r RFS_OPEN_FLAG_RDONLY = has_flag f O_RDONLY ∧
  has_flag r RFS_OPEN_FLAG_WRONLY = has_flag f O_WRONLY ∧
  has_flag r RFS_OPEN_FLAG_RDWR = has_flag f O_RDWR ∧ 0 <= r < 256.
Proof.
  unfold os_open_sys_flags_to_rfs_flags, eluarpc_replace_flag.
  fold (has_flag f O_APPEND) (has_flag f O_CREAT) (has_flag f O_EXCL) (has_flag f O_TRUNC)
    (has_flag f O_SYNC) (has_flag f O_RDONLY) (has_flag f O_WRONLY) (has_flag f O_RDWR).
  generalize (has_flag f O_APPEND) (has_flag f O_CREAT) (has_flag f O_EXCL) (has_flag f O_TRUNC)
    (has_flag f O_SYNC) (has_flag f O_RDONLY) (has_flag f O_WRONLY) (has_flag f O_RDWR).
  intros [] [] [] [] [] [] [] []; vm_compute; intuition congruence.
Qed.

(** The bits of the server's flags. *)
Lemma realflags_testbit (Sv : Fcntl) (HS : FcntlOk Sv) r a c x t i :
  @O_APPEND Sv = 2 ^ a → @O_CREAT Sv = 2 ^ c → @O_EXCL Sv = 2 ^ x → @O_TRUNC Sv = 2 ^ t →
  Forall (λ b, 0 <= b < 31) [a; c; x; t] →
  Z.testbit (os_open_realflags (H:=Sv) r) i =
    has_flag r RFS_OPEN_FLAG_APPEND && (a =? i) || has_flag r RFS_OPEN_FLAG_CREAT && (c =? i)
    || has_flag r RFS_OPEN_FLAG_EXCL && (x =? i) || has_flag r RFS_OPEN_FLAG_TRUNC && (t =? i)
    || has_flag r RFS_OPEN_FLAG_SYNC && Z.testbit (@O_SYNC Sv) i || has_flag r RFS_OPEN_FLAG_WRONLY && (0 =? i)
    || has_flag r RFS_OPEN_FLAG_RDWR && (1 =? i).
Proof.
  intros Ha Hc Hx Ht Hb. rewrite !Forall_cons in Hb. destruct (@fcntl_modes Sv HS) as (Hr & Hw & Hrw).
  unfold os_open_realflags. rewrite !Z.lor_spec, Hr, Hw, Hrw, Ha, Hc, Hx, Ht.
  change (eluarpc_replace_flag r RFS_OPEN_FLAG_WRONLY 1) with (eluarpc_replace_flag r RFS_OPEN_FLAG_WRONLY (2 ^ 0)).
  change (eluarpc_replace_flag r RFS_OPEN_FLAG_RDWR 2) with (eluarpc_replace_flag r RFS_OPEN_FLAG_RDWR (2 ^ 1)).
  replace (eluarpc_replace_flag r RFS_OPEN_FLAG_RDONLY 0) with 0
    by (unfold eluarpc_replace_flag; by destruct (ctrue _)).
  rewrite !testbit_replace, Z.bits_0, orb_false_r by lia. unfold eluarpc_replace_flag.
  fold (has_flag r RFS_OPEN_FLAG_SYNC). destruct (has_flag r RFS_OPEN_FLAG_SYNC); cbn; by rewrite ?Z.bits_0.
Qed.

(** The open flags survive the trip from the client's C library through the wire format
    to the server's: each of the flags is set for the server's [open] exactly when the
    caller set it, no other bit is set, and the access mode is the same; the seek
    modes too. *)
Theorem rfs_flags_translate (Cl Sv : Fcntl) {HC : FcntlOk Cl} {HS : FcntlOk Sv} f :
  let g := os_open_realflags (H:=Sv) (os_open_sys_flags_to_rfs_flags (H:=Cl) f) in
  (has_flag g (@O_APPEND Sv) = has_flag f (@O_APPEND Cl) ∧ has_flag g (@O_CREAT Sv) = has_flag f (@O_CREAT Cl) ∧
   has_flag g (@O_EXCL Sv) = has_flag f (@O_EXCL Cl) ∧ has_flag g (@O_TRUNC Sv) = has_flag f (@O_TRUNC Cl) ∧
   has_flag g (@O_SYNC Sv) = has_flag f (@O_SYNC Cl) ∧ Z.land g 3 = Z.land f 3)
  ∧ (∀ i, Z.testbit g i = true → Exists (λ x, Z.testbit x i = true)
        [@O_APPEND Sv; @O_CREAT Sv; @O_EXCL Sv; @O_TRUNC Sv; @O_SYNC Sv; @O_WRONLY Sv; @O_RDWR Sv])
  ∧ os_lseek_realwhence (H:=Sv) (os_lseek_sys_whence_to_rfs_whence (H:=Cl) (@SEEK_SET Cl)) = Some (@SEEK_SET Sv)
  ∧ os_lseek_realwhence (H:=Sv) (os_lseek_sys_whence_to_rfs_whence (H:=Cl) (@SEEK_CUR Cl)) = Some (@SEEK_CUR Sv)
  ∧ os_lseek_realwhence (H:=Sv) (os_lseek_sys_whence_to_rfs_whence (H:=Cl) (@SEEK_END Cl)) = Some (@SEEK_END Sv).
Proof.
  intros g. destruct (@fcntl_bits Sv HS) as (a & c & x & t & Ea & Ec & Ex & Et & Hnd & Hb & Hs0 & Hs).
  destruct (@fcntl_modes Sv HS) as (Er & Ew & Erw). destruct (@fcntl_modes Cl HC) as (Cr & Cw & Crw).
  pose proof (λ i, realflags_testbit Sv HS (os_open_sys_flags_to_rfs_flags (H:=Cl) f) a c x t i Ea Ec Ex Et Hb) as Hg.
  fold g in Hg. pose proof (rfs_flags_have (H:=Cl) f) as (H1 & H2 & H3 & H4 & H5 & _ & H7 & H8 & _).
  rewrite H1, H2, H3, H4, H5, H7, H8, Cw, Crw in Hg.
  change (has_flag f 2) with (has_flag f (2 ^ 1)) in Hg. change (has_flag f 1) with (has_flag f (2 ^ 0)) in Hg.
  rewrite !has_pow2 in Hg by lia.
  assert (∀ u v, u ≠ v → (u =? v) = false) as Hne by (intros; by apply Z.eqb_neq).
  rewrite !NoDup_cons, !not_elem_of_cons in Hnd. rewrite !Forall_cons in Hb. rewrite !Forall_cons in Hs.
  destruct Hs as (S0 & S1 & Sa & Sc & Sx & St & _). destruct_and?.
  split_and!.
  1-4: rewrite ?Ea, ?Ec, ?Ex, ?Et, has_pow2, Hg, ?Z.eqb_refl, ?Sa, ?Sc, ?Sx, ?St by lia;
    rewrite !Hne by (done || lia); rewrite ?andb_true_r, ?andb_false_r, ?orb_false_r; done.
  - unfold has_flag at 1. replace (Z.land g O_SYNC) with (if has_flag f (@O_SYNC Cl) then @O_SYNC Sv else 0).
    { destruct (has_flag f (@O_SYNC Cl)); [|done]. unfold ctrue. by rewrite (proj2 (Z.eqb_neq _ _)). }
    apply Z.bits_inj'. intros i Hi. rewrite Z.land_spec, Hg.
    destruct (Z.testbit (@O_SYNC Sv) i) eqn:Ei.
    + rewrite !(Hne _ i) by congruence. rewrite !andb_false_r, !orb_false_r, !andb_true_r. cbn.
      destruct (has_flag f O_SYNC); [done|apply Z.bits_0].
    + rewrite andb_false_r. by destruct (has_flag f O_SYNC); [|apply Z.bits_0].
  - apply Z.bits_inj'. intros i Hi. rewrite !Z.land_spec.
    destruct (decide (i = 0 ∨ i = 1)) as [Hi01|Hi01].
    + rewrite Hg. replace (Z.testbit O_SYNC i) with false by (destruct Hi01; subst; congruence).
      rewrite !(Hne _ i), !andb_false_r by (destruct Hi01; subst; done || lia).
      destruct Hi01 as [-> | ->]; cbn; rewrite ?andb_true_r, ?andb_false_r, ?orb_false_r; done.
    + change 3 with (Z.ones 2). rewrite Z.ones_spec_high by lia. by rewrite !andb_false_r.
  - intros i Hi. rewrite Hg in Hi. rewrite Ea, Ec, Ex, Et, Ew, Erw, !Exists_cons.
    change 2 with (2 ^ 1) at 5. change 1 with (2 ^ 0) at 1.
    repeat match type of Hi with (_ || _) = true => apply orb_true_iff in Hi as [Hi|Hi] end;
      apply andb_true_iff in Hi as [_ Hi]; try tauto; apply Z.eqb_eq in Hi; subst i;
      rewrite ?Z.pow2_bits_true by lia; tauto.
  - unfold os_lseek_sys_whence_to_rfs_whence. by rewrite Z.eqb_refl.
  - pose proof (@fcntl_seek Cl HC) as Hs. rewrite !NoDup_cons, !not_elem_of_cons in Hs. destruct_and?.
    unfold os_lseek_sys_whence_to_rfs_whence. rewrite (Hne (@SEEK_CUR Cl)), Z.eqb_refl by congruence. done.
  - pose proof (@fcntl_seek Cl HC) as Hs. rewrite !NoDup_cons, !not_elem_of_cons in Hs. destruct_and?.
    unfold os_lseek_sys_whence_to_rfs_whence. rewrite !(Hne (@SEEK_END Cl)), Z.eqb_refl by congruence. done.
Qed.

(** ** The theorem at work: newlib on the device, a Linux host *)

Definition newlib : Fcntl := {|
  O_APPEND := 8; O_CREAT := 512; O_EXCL := 2048; O_TRUNC := 1024; O_SYNC := 8192;
  O_RDONLY := 0; O_WRONLY := 1; O_RDWR := 2; SEEK_SET := 0; SEEK_CUR := 1; SEEK_END := 2 |}.

Definition linux : Fcntl := {|
  O_APPEND := 1024; O_CREAT := 64; O_EXCL := 128; O_TRUNC := 512; O_SYNC := 1052672;
  O_RDONLY := 0; O_WRONLY := 1; O_RDWR := 2; SEEK_SET := 0; SEEK_CUR := 1; SEEK_END := 2 |}.

Lemma newlib_ok : FcntlOk newlib.
Proof.
  split; [exists 3, 9, 11, 10|done|apply (bool_decide_unpack _); by vm_compute].
  do 4 (split; [done|]). split; [apply (bool_decide_unpack _); by vm_compute|].
  split; [repeat constructor; lia|]. split; [done|]. repeat constructor.
Qed.

Lemma linux_ok : FcntlOk linux.
Proof.
  split; [exists 10, 6, 7, 9|done|apply (bool_decide_unpack _); by vm_compute].
  do 4 (split; [done|]). split; [apply (bool_decide_unpack _); by vm_compute|].
  split; [repeat constructor; lia|]. split; [done|]. repeat constructor.
Qed.

(** O_WRONLY | O_CREAT | O_SYNC of newlib, translated for Linux. *)
Example rfs_flags_translate_witness :
  let g := os_open_realflags (H:=linux) (os_open_sys_flags_to_rfs_flags (H:=newlib) 8705) in
  g = 1052737 ∧
  (has_flag g 1024 = has_flag 8705 8 ∧ has_flag g 64 = has_flag 8705 512 ∧
   has_flag g 128 = has_flag 8705 2048 ∧ has_flag g 512 = has_flag 8705 1024 ∧
   has_flag g 1052672 = has_flag 8705 8192 ∧ Z.land g 3 = Z.land 8705 3)
  ∧ (∀ i, Z.testbit g i = true → Exists (λ x, Z.testbit x i = true) [1024; 64; 128; 512; 1052672; 1; 2])
  ∧ os_lseek_realwhence (H:=linux) (os_lseek_sys_whence_to_rfs_whence (H:=newlib) 0) = Some 0
  ∧ os_lseek_realwhence (H:=linux) (os_lseek_sys_whence_to_rfs_whence (H:=newlib) 1) = Some 1
  ∧ os_lseek_realwhence (H:=linux) (os_lseek_sys_whence_to_rfs_whence (H:=newlib) 2) = Some 2.
Proof.
  split; [reflexivity|]. exact (rfs_flags_translate newlib linux (HC:=newlib_ok) (HS:=linux_ok) 8705).
Defined.
