(* ===== verification/RfsServer.v ===== *)
(** * The remote file system server (rfs_server_src/server.c, os_io_posix.c and the
    transports of rfs_server_src/main.c)

    The operating system is the interface [Posix]: its state and what each call
    does to it. The server handles one request in place in its packet buffer. *)
From Stdlib Require Import Ascii.
From S2P Require Import Prelude Rpc RemoteFs Mux.

(** The C library the server runs on: results as the functions return them; [posix_read] also
    gives the bytes stored in the caller's buffer. A directory entry is its type
    and its name. *)
Class Posix (OS : Type) := {
  posix_fcntl :: Fcntl;
  posix_open : OS → list Z → Z → Z → OS * Z;
  posix_write : OS → Z → list Z → OS * Z;
  posix_read : OS → Z → Z → OS * Z * list Z;
  posix_close : OS → Z → OS * Z;
  posix_lseek : OS → Z → Z → Z → OS * Z;
  posix_opendir : OS → list Z → OS * Z;
  posix_readdir : OS → Z → OS * option (Z * list Z);
  posix_closedir : OS → Z → OS * Z
}.

Definition SERVER_OK : Z := 0.
Definition SERVER_ERR : Z := 1.
Definition PLATFORM_MAX_FNAME_LEN : Z := 2048.
Definition PLATFORM_PATH_SEPARATOR : Z := 47.
Definition OPEN_MODE : Z := 420.
Definition DT_REG : Z := 8.
Definition MAX_PACKET_SIZE : Z := 4096.

Section server.
Context {OS : Type} `{!Posix OS}.

(** ** os_io_posix.c *)

Definition os_open (o : OS) (pathname : mem) (flags mode : Z) : option (OS * Z) :=
  path ← cstr pathname; Some (posix_open o path (os_open_realflags flags) OPEN_MODE).

Definition os_write (o : OS) (fd : Z) (buf : list Z) : OS * Z :=
  let '(o, r) := posix_write o fd buf in (o, s32 r).

Definition os_read (o : OS) (fd count : Z) : OS * Z * list Z :=
  let '(o, r, bs) := posix_read o fd count in (o, s32 r, bs).

Definition os_close (o : OS) (fd : Z) : OS * Z := posix_close o fd.

Definition os_lseek (o : OS) (fd offset whence : Z) : OS * Z :=
  match os_lseek_realwhence whence with
  | None => (o, -1)
  | Some realwhence => let '(o, r) := posix_lseek o fd offset realwhence in (o, s32 r)
  end.

(** [name || ...] holds for every string. *)
Definition os_opendir (o : OS) (name : mem) : option (OS * Z) :=
  path ← cstr name; let '(o, d) := posix_opendir o path in Some (o, u32 d).

(** The loop over directory entries up to the next regular file; [fuel] bounds the
    entries. The name is copied to an array of [RFS_MAX_FNAME_SIZE + 1] bytes. *)
Fixpoint os_readdir (fuel : nat) (o : OS) (d : Z) : option (OS * option mem) :=
  match fuel with
  | O => None
  | S fuel =>
      match posix_readdir o d with
      | (o, None) => Some (o, None)
      | (o, Some (d_type, d_name)) =>
          if ctrue (Z.land d_type DT_REG) then
            realname ← c_strncpy (replicate 32 0) (d_name ++ [0]) RFS_MAX_FNAME_SIZE;
            Some (o, Some realname)
          else os_readdir fuel o d
      end
  end.

Definition os_closedir (o : OS) (d : Z) : OS * Z := posix_closedir o d.

(** ** server.c *)

Record server := Server {
  srv_os : OS;
  server_basedir : mem;
  server_fullname : mem;
  srv_buffer : mem
}.

Definition set_os (s : server) (o : OS) : server :=
  Server o (server_basedir s) (server_fullname s) (srv_buffer s).

Definition set_fullname (s : server) (f : mem) : server :=
  Server (srv_os s) (server_basedir s) f (srv_buffer s).

Definition set_buffer (s : server) (m : mem) : server :=
  Server (srv_os s) (server_basedir s) (server_fullname s) m.

(** "Get real filename": the base directory, a separator when it is missing, and the name. *)
Definition server_realname (s : server) (filename : option mem) : option server :=
  f ← st (server_fullname s) PLATFORM_MAX_FNAME_LEN 0;
  f ← st f 0 0;
  f ← c_strncpy f (server_basedir s) PLATFORM_MAX_FNAME_LEN;
  f ← (match filename with
       | Some name =>
           n ← strlen name;
           if 0 <? n then
             l ← strlen f;
             last ← ld f (l - 1);
             f ← (if negb (last =? PLATFORM_PATH_SEPARATOR)
                  then c_strncat f [PLATFORM_PATH_SEPARATOR; 0] PLATFORM_MAX_FNAME_LEN else Some f);
             c_strncat f name PLATFORM_MAX_FNAME_LEN
           else Some f
       | None => Some f
       end);
  Some (set_fullname s f).

(** The string at a position of the packet. *)
Definition at_ptr (m : mem) (q : option Z) : option mem :=
  (λ q, drop (Z.to_nat q) m) <$> q.

Definition server_open (s : server) : option (server * Z) :=
  '(e, filename, flags, mode) ← remotefs_open_read_request (srv_buffer s) 0;
  if e =? ELUARPC_ERR then Some (s, SERVER_ERR)
  else
    s ← server_realname s (at_ptr (srv_buffer s) filename);
    '(o, fd) ← os_open (srv_os s) (server_fullname s) flags mode;
    m ← remotefs_open_write_response (srv_buffer s) 0 fd;
    Some (set_buffer (set_os s o) m, SERVER_OK).

Definition server_write (s : server) : option (server * Z) :=
  '(e, fd, buf, count) ← remotefs_write_read_request (srv_buffer s) 0;
  if e =? ELUARPC_ERR then Some (s, SERVER_ERR)
  else
    data ← (match buf with Some q => mread (srv_buffer s) q count | None => Some [] end);
    let '(o, r) := os_write (srv_os s) fd data in
    m ← remotefs_write_write_response (srv_buffer s) 0 (u32 r);
    Some (set_buffer (set_os s o) m, SERVER_OK).

Definition server_read (s : server) : option (server * Z) :=
  '(e, fd, count) ← remotefs_read_read_request (srv_buffer s) 0;
  if e =? ELUARPC_ERR then Some (s, SERVER_ERR)
  else
    let '(o, r, bs) := os_read (srv_os s) fd count in
    m ← mwrite (srv_buffer s) ELUARPC_READ_BUF_OFFSET bs;
    m ← remotefs_read_write_response m 0 (u32 r);
    Some (set_buffer (set_os s o) m, SERVER_OK).

Definition server_close (s : server) : option (server * Z) :=
  '(e, fd) ← remotefs_close_read_request (srv_buffer s) 0;
  if e =? ELUARPC_ERR then Some (s, SERVER_ERR)
  else
    let '(o, r) := os_close (srv_os s) fd in
    m ← remotefs_close_write_response (srv_buffer s) 0 r;
    Some (set_buffer (set_os s o) m, SERVER_OK).

Definition server_lseek (s : server) : option (server * Z) :=
  '(e, fd, offset, whence) ← remotefs_lseek_read_request (srv_buffer s) 0;
  if e =? ELUARPC_ERR then Some (s, SERVER_ERR)
  else
    let '(o, r) := os_lseek (srv_os s) fd offset whence in
    m ← remotefs_lseek_write_response (srv_buffer s) 0 r;
    Some (set_buffer (set_os s o) m, SERVER_OK).

Definition server_opendir (s : server) : option (server * Z) :=
  '(e, name) ← remotefs_opendir_read_request (srv_buffer s) 0;
  if e =? ELUARPC_ERR then Some (s, SERVER_ERR)
  else
    s ← server_realname s (at_ptr (srv_buffer s) name);
    '(o, d) ← os_opendir (srv_os s) (server_fullname s);
    m ← remotefs_opendir_write_response (srv_buffer s) 0 d;
    Some (set_buffer (set_os s o) m, SERVER_OK).

(** [fd] is tested for being non-zero, and the size is what [os_lseek] returns. *)
Definition server_readdir (fuel : nat) (s : server) : option (server * Z) :=
  '(e, d) ← remotefs_readdir_read_request (srv_buffer s) 0;
  if e =? ELUARPC_ERR then Some (s, SERVER_ERR)
  else
    '(o, name) ← os_readdir fuel (srv_os s) d;
    let s := set_os s o in
    '(s, name, fsize) ←
      (match name with
       | None => Some (s, None, 0)
       | Some nm =>
           s ← server_realname s (Some nm);
           '(o, fd) ← os_open (srv_os s) (server_fullname s) RFS_OPEN_FLAG_RDONLY 0;
           if ctrue fd then
             let '(o, r) := os_lseek o fd 0 RFS_LSEEK_END in
             let '(o, _) := os_close o fd in
             Some (set_os s o, Some nm, u32 r)
           else Some (set_os s o, None, 0)
       end);
    m ← remotefs_readdir_write_response (srv_buffer s) 0 name fsize 0;
    Some (set_buffer s m, SERVER_OK).

(** The response carries the directory handle, not the result of [os_closedir]. *)
Definition server_closedir (s : server) : option (server * Z) :=
  '(e, d) ← remotefs_closedir_read_request (srv_buffer s) 0;
  if e =? ELUARPC_ERR then Some (s, SERVER_ERR)
  else
    let '(o, res) := os_closedir (srv_os s) d in
    m ← remotefs_closedir_write_response (srv_buffer s) 0 d;
    Some (set_buffer (set_os s o) m, SERVER_OK).

Definition server_handlers (fuel : nat) : list (server → option (server * Z)) :=
  [server_open; server_write; server_read; server_close; server_lseek; server_opendir;
   server_readdir fuel; server_closedir].

Definition server_execute_request (fuel : nat) (s : server) : option (server * Z) :=
  '(e, req) ← eluarpc_get_request_id (srv_buffer s) 0;
  if e =? ELUARPC_ERR then Some (s, SERVER_ERR)
  else if (RFS_OP_FIRST <=? req) && (req <=? RFS_OP_LAST) then
    h ← server_handlers fuel !! Z.to_nat (req - RFS_OP_FIRST); h s
  else Some (s, SERVER_ERR).

(** ** main.c: the memory transport *)

Inductive mem_state := MEM_STATE_READ_LENGTH | MEM_STATE_READ_REQUEST | MEM_STATE_REQUEST_DONE.

Record mem_server := MemServer {
  mem_read_len : Z;
  mem_expected_len : Z;
  mem_read_state : mem_state;
  mem_response_flag : Z;
  mem_srv : server
}.

Definition mem_start_request (s : mem_server) : mem_server :=
  MemServer 0 0 MEM_STATE_READ_LENGTH 0 (mem_srv s).

Definition mem_read_request_packet (s : mem_server) (c : Z) : option (mem_server * Z) :=
  if c =? -1 then Some (mem_start_request s, 0)
  else
    match mem_read_state s with
    | MEM_STATE_READ_LENGTH =>
        m ← st (srv_buffer (mem_srv s)) (mem_read_len s) c;
        let srv := set_buffer (mem_srv s) m in
        let n := mem_read_len s + 1 in
        if n =? ELUARPC_START_OFFSET then
          '(e, size) ← eluarpc_get_packet_size m 0;
          if e =? ELUARPC_ERR
          then Some (MemServer 0 (mem_expected_len s) MEM_STATE_REQUEST_DONE (mem_response_flag s) srv, 0)
          else Some (MemServer 0 (size - ELUARPC_START_OFFSET) MEM_STATE_READ_REQUEST (mem_response_flag s) srv, 1)
        else Some (MemServer n (mem_expected_len s) MEM_STATE_READ_LENGTH (mem_response_flag s) srv, 1)
    | MEM_STATE_READ_REQUEST =>
        m ← st (srv_buffer (mem_srv s)) (ELUARPC_START_OFFSET + mem_read_len s) c;
        let srv := set_buffer (mem_srv s) m in
        let n := mem_read_len s + 1 in
        if n =? mem_expected_len s
        then Some (MemServer n (mem_expected_len s) MEM_STATE_REQUEST_DONE 1 srv, 1)
        else Some (MemServer n (mem_expected_len s) MEM_STATE_READ_REQUEST (mem_response_flag s) srv, 1)
    | MEM_STATE_REQUEST_DONE => Some (s, 1)
    end.

Definition mem_write_response (fuel : nat) (s : mem_server) : option (mem_server * Z * list Z) :=
  '(srv, _) ← server_execute_request fuel (mem_srv s);
  '(e, len) ← eluarpc_get_packet_size (srv_buffer srv) 0;
  let s := MemServer (mem_read_len s) (mem_expected_len s) (mem_read_state s) (mem_response_flag s) srv in
  if negb (e =? ELUARPC_ERR) then Some (s, len, srv_buffer srv) else Some (s, 0, []).

Definition mem_rfs (fuel : nat) : RfsMem mem_server := {|
  rfs_mem_read_request_packet := mem_read_request_packet;
  rfs_mem_has_response := mem_response_flag;
  rfs_mem_write_response := mem_write_response fuel;
  rfs_mem_start_request := mem_start_request
|}.

(** ** main.c: the serial transport

    [ser_read] is the serial port's read: the bytes it got, at most the number asked for. *)
Section serial.
Context {W : Type} (ser_read : W → Z → W * list Z) (flush_serial : W → W).

(** One turn of the loop of [ser_read_request_packet]: [inl] to try again. *)
Definition ser_read_request_once (w : W) (s : server) : option (W * server + W * server) :=
  let '(w, bs) := ser_read w ELUARPC_START_OFFSET in
  m ← mwrite (srv_buffer s) 0 bs;
  let s := set_buffer s m in
  if negb (msize bs =? ELUARPC_START_OFFSET) then Some (inl (flush_serial w, s))
  else
    '(e, temp16) ← eluarpc_get_packet_size m 0;
    if e =? ELUARPC_ERR then Some (inl (flush_serial w, s))
    else
      let '(w, bs) := ser_read w (temp16 - ELUARPC_START_OFFSET) in
      m ← mwrite m ELUARPC_START_OFFSET bs;
      let s := set_buffer s m in
      if negb (msize bs =? temp16 - ELUARPC_START_OFFSET) then Some (inl (flush_serial w, s))
      else Some (inr (w, s)).

Fixpoint ser_read_request_packet (fuel : nat) (w : W) (s : server) : option (W * server) :=
  match fuel with
  | O => None
  | S fuel =>
      r ← ser_read_request_once w s;
      match r with inl (w, s) => ser_read_request_packet fuel w s | inr x => Some x end
  end.

(** The bytes written to the port. *)
Definition ser_send_response_packet (s : server) : option (list Z) :=
  '(e, temp16) ← eluarpc_get_packet_size (srv_buffer s) 0;
  if negb (e =? ELUARPC_ERR) then mread (srv_buffer s) 0 temp16 else Some [].
End serial.

(** ** main.c: the UDP transport

    [net_recvfrom] gives its result and the bytes it stored, at most the number asked for. *)
Section udp.
Context {W : Type} (net_recvfrom : W → Z → W * Z * list Z).

Fixpoint udp_read_helper (fuel : nat) (w : W) (m : mem) (dest size : Z) : option (W * mem) :=
  if size =? 0 then Some (w, m)
  else
    match fuel with
    | O => None
    | S fuel =>
        let '(w, readbytes, bs) := net_recvfrom w size in
        m ← mwrite m dest bs;
        let size := u32 (size - readbytes) in
        if size =? 0 then Some (w, m) else udp_read_helper fuel w m (dest + readbytes) size
    end.

Fixpoint udp_read_request_packet (fuel : nat) (w : W) (s : server) : option (W * server) :=
  match fuel with
  | O => None
  | S fuel' =>
      '(w, m) ← udp_read_helper fuel w (srv_buffer s) 0 ELUARPC_START_OFFSET;
      '(e, temp16) ← eluarpc_get_packet_size m 0;
      if e =? ELUARPC_ERR then udp_read_request_packet fuel' w (set_buffer s m)
      else
        '(w, m) ← udp_read_helper fuel w m ELUARPC_START_OFFSET (u32 (temp16 - ELUARPC_START_OFFSET));
        Some (w, set_buffer s m)
  end.

Definition udp_send_response_packet (s : server) : option (list Z) :=
  '(e, temp16) ← eluarpc_get_packet_size (srv_buffer s) 0;
  if negb (e =? ELUARPC_ERR) then mread (srv_buffer s) 0 temp16 else Some [].
End udp.
End server.

Arguments server : clear implicits.
Arguments mem_server : clear implicits.

(** ** What each handler does to the system, and the response it leaves *)

Section handlers.
Context {OS : Type} `{!Posix OS}.

(** The full path of a name under the base directory [b]. *)
Definition realname (b n : list Z) : list Z :=
  if msize n =? 0 then b
  else b ++ (if decide (last b = Some PLATFORM_PATH_SEPARATOR) then [] else [PLATFORM_PATH_SEPARATOR]) ++ n.

(** The server is set up: the base directory is a non-empty string [b]. *)
Definition srv_ok (s : server OS) (b : list Z) : Prop :=
  cstr (server_basedir s) = Some b ∧ b ≠ [] ∧ msize (server_fullname s) = PLATFORM_MAX_FNAME_LEN + 1.

Lemma server_realname_ok s b name n :
  srv_ok s b → cstr name = Some n → msize b + 1 + msize n < PLATFORM_MAX_FNAME_LEN →
  ∃ f, server_realname s (Some name) = Some (set_fullname s f) ∧ cstr f = Some (realname b n) ∧
    msize f = PLATFORM_MAX_FNAME_LEN + 1.
Proof.
  intros (Hb & Hne & Hf) Hn Hsz. unfold PLATFORM_MAX_FNAME_LEN in *.
  pose proof (msize_nonneg b). pose proof (msize_nonneg n).
  unfold server_realname, PLATFORM_MAX_FNAME_LEN. rewrite st_spec by lia. cbn [mbind option_bind].
  set (f1 := <[_ := _]> _). assert (msize f1 = 2049) as Hf1 by (unfold msize, f1 in *; by rewrite length_insert).
  rewrite st_spec by lia. cbn [mbind option_bind].
  set (f2 := <[_ := _]> _). assert (msize f2 = 2049) as Hf2 by (unfold msize, f2 in *; by rewrite length_insert).
  destruct (strncpy_cstr f2 (server_basedir s) b 2048) as (f3 & -> & Hc3 & Hs3); [done|lia|].
  cbn [mbind option_bind]. unfold strlen. rewrite Hn, Hc3. cbn [mbind option_bind]. unfold realname.
  destruct (Z.eqb_spec (msize n) 0) as [E0|E0].
  { rewrite E0. cbn [Z.ltb Z.compare mbind option_bind]. exists f3. split; [done|]. split; [done|lia]. }
  rewrite (proj2 (Z.ltb_lt 0 (msize n))) by lia. cbn [mbind option_bind].
  destruct (cstr_inv _ _ Hc3) as [_ [rest E3]].
  assert (ld f3 (msize b - 1) = last b) as ->.
  { destruct b as [|x b _] using rev_ind; [done|]. rewrite last_snoc, E3, <- app_assoc. cbn [app].
    msz. apply ld_Some_iff. pose proof (msize_nonneg b). split; [lia|].
    replace (Z.to_nat (msize b + (1 + 0) - 1)) with (length b) by (unfold msize; lia). by rewrite list_lookup_middle. }
  destruct (last b) as [x|] eqn:El; [|by apply last_None in El]. cbn [mbind option_bind].
  destruct (Z.eqb_spec x PLATFORM_PATH_SEPARATOR) as [->|Hx]; cbn [negb mbind option_bind].
  - rewrite decide_True by done. cbn [app].
    destruct (strncat_cstr f3 name b n 2048) as (f4 & -> & Hc4 & Hs4); [done..|lia|lia|].
    exists f4. split; [done|]. split; [done|lia].
  - rewrite decide_False by congruence.
    destruct (strncat_cstr f3 [PLATFORM_PATH_SEPARATOR; 0] b [PLATFORM_PATH_SEPARATOR] 2048)
      as (f4 & -> & Hc4 & Hs4); [done..|msz; lia|msz; lia|]. cbn [mbind option_bind].
    destruct (strncat_cstr f4 name (b ++ [PLATFORM_PATH_SEPARATOR]) n 2048) as (f5 & -> & Hc5 & Hs5);
      [done..|lia|msz; lia|].
    exists f5. split; [done|]. split; [by rewrite <- app_assoc in Hc5|lia].
Qed.

(** A response that is one integer. *)
Lemma write_int_response m (c : Ascii.ascii) op z f :
  (∀ args, field_of c (VInt z :: args) = Some ([f], args)) → msize (enc f) = 5 → 22 <= msize m →
  ∃ m', eluarpc_gen_write m 0 (String "r"%char (String c EmptyString)) [VInt op; VInt z] = Some m' ∧
    bytes_at m' 0 (packet [FRes op; f]) ∧ msize m' = msize m.
Proof.
  intros Hf He Hsz. destruct (gen_write_packet m 0 (String "r"%char (String c EmptyString)) [VInt op; VInt z] [FRes op; f])
    as (m' & Hw & Hm).
  - cbn. by rewrite Hf.
  - lia.
  - rewrite packet_size. unfold enc_all. cbn [fmap list_fmap concat enc]. rewrite app_nil_r. msz. lia.
  - exists m'. split; [done|]. split; [by eapply bytes_at_mwrite|by eapply mwrite_msize].
Qed.

(** [reqs fmt args] rewrites with the parsed request. *)
Ltac read_request Hb fmt args :=
  match type of Hb with
  | bytes_at ?m 0 (packet ?fs) =>
      let H := fresh in
      assert (fields_of fmt args = Some fs) as H
        by (fields_simpl; rewrite ?decide_True by lia; rewrite ?mread_all; done);
      let Hr := fresh in
      pose proof (gen_read_packet m 0 fmt args fs H) as Hr;
      cbn [fmap list_fmap concat ids_of app] in Hr;
      rewrite Hr; [|repeat constructor; cbn [field_ok]; done || lia|done]; clear Hr H
  end.

Lemma server_close_ok s fd o r :
  bytes_at (srv_buffer s) 0 (packet [FOp RFS_OP_CLOSE; FS32 fd]) → 22 <= msize (srv_buffer s) →
  posix_close (srv_os s) (s32 fd) = (o, r) →
  ∃ m, server_close s = Some (set_buffer (set_os s o) m, SERVER_OK) ∧
    bytes_at m 0 (packet [FRes RFS_OP_CLOSE; FS32 r]) ∧ msize m = msize (srv_buffer s).
Proof.
  intros Hb Hsz Hp. unfold server_close, remotefs_close_read_request.
  read_request Hb "oi" [VInt RFS_OP_CLOSE; VInt fd]. cbn. unfold os_close. rewrite Hp.
  destruct (write_int_response (srv_buffer s) "i"%char RFS_OP_CLOSE r (FS32 r)) as (m & Hw & Hm & Hs); [done..|].
  unfold remotefs_close_write_response. rewrite Hw. cbn. eauto.
Qed.

Lemma server_lseek_ok s fd offset whence o r :
  bytes_at (srv_buffer s) 0 (packet [FOp RFS_OP_LSEEK; FS32 fd; FS32 offset; FS32 whence]) →
  22 <= msize (srv_buffer s) → os_lseek (srv_os s) (s32 fd) (s32 offset) (s32 whence) = (o, r) →
  ∃ m, server_lseek s = Some (set_buffer (set_os s o) m, SERVER_OK) ∧
    bytes_at m 0 (packet [FRes RFS_OP_LSEEK; FS32 r]) ∧ msize m = msize (srv_buffer s).
Proof.
  intros Hb Hsz Hp. unfold server_lseek, remotefs_lseek_read_request.
  read_request Hb "oiLi" [VInt RFS_OP_LSEEK; VInt fd; VInt offset; VInt whence]. cbn -[os_lseek]. rewrite Hp.
  destruct (write_int_response (srv_buffer s) "L"%char RFS_OP_LSEEK r (FS32 r)) as (m & Hw & Hm & Hs); [done..|].
  unfold remotefs_lseek_write_response. rewrite Hw. cbn. eauto.
Qed.

Lemma server_write_ok s fd bs o r :
  bytes_at (srv_buffer s) 0 (packet [FOp RFS_OP_WRITE; FS32 fd; FPtr bs]) → msize bs < 4294967296 →
  22 <= msize (srv_buffer s) → posix_write (srv_os s) (s32 fd) bs = (o, r) →
  ∃ m, server_write s = Some (set_buffer (set_os s o) m, SERVER_OK) ∧
    bytes_at m 0 (packet [FRes RFS_OP_WRITE; F32 (u32 (s32 r))]) ∧ msize m = msize (srv_buffer s).
Proof.
  intros Hb Hlt Hsz Hp. pose proof (msize_nonneg bs). unfold server_write, remotefs_write_read_request.
  pose proof Hb as Hb2.
  read_request Hb "oip" [VInt RFS_OP_WRITE; VInt fd; VPtr (Some bs); VInt (msize bs)].
  cbn [mbind option_bind outs_all outs_of app out_int out_ptr lookup list_lookup].
  assert ((match (if msize bs =? 0 then None else Some (0 + 10 + msize (enc (FOp RFS_OP_WRITE)) + msize (enc (FS32 fd)) + ELUARPC_PTR_HEADER_SIZE)) with
    Some q => mread (srv_buffer s) q (msize bs) | None => Some [] end) = Some bs) as ->.
  { destruct (Z.eqb_spec (msize bs) 0) as [E|E].
    - destruct bs; [done|]. msz. pose proof (msize_nonneg bs). lia.
    - unfold packet, pkt_body in Hb2. rewrite !bytes_at_app, pkt_size_len in Hb2. destruct Hb2 as (_ & _ & Hb2 & _).
      change (msize pkt_start) with 6 in Hb2. rewrite !enc_all_cons, !bytes_at_app in Hb2.
      destruct Hb2 as (_ & _ & Hb2 & _). cbn [enc] in Hb2. rewrite !bytes_at_cons, bytes_at_app in Hb2.
      destruct Hb2 as (_ & _ & _ & Hb2). unfold bytes_at in Hb2. rewrite <- Hb2. reflexivity. }
  cbn [mbind option_bind]. change (ELUARPC_OK =? ELUARPC_ERR) with false. cbv iota.
  unfold os_write. rewrite Hp.
  destruct (write_int_response (srv_buffer s) "l"%char RFS_OP_WRITE (u32 (s32 r)) (F32 (u32 (s32 r))))
    as (m & Hw & Hm & Hs); [done..|].
  unfold remotefs_write_write_response. rewrite Hw. cbn. eauto.
Qed.

Lemma server_read_ok s fd count o bs :
  bytes_at (srv_buffer s) 0 (packet [FOp RFS_OP_READ; FS32 fd; F32 count]) →
  posix_read (srv_os s) (s32 fd) (u32 count) = (o, msize bs, bs) → msize bs < 2147483648 →
  23 + msize bs <= msize (srv_buffer s) →
  ∃ m, server_read s = Some (set_buffer (set_os s o) m, SERVER_OK) ∧
    bytes_at m 0 (packet [FRes RFS_OP_READ; FPtr bs]) ∧ msize m = msize (srv_buffer s).
Proof.
  intros Hb Hp Hlt Hsz. pose proof (msize_nonneg bs). unfold server_read, remotefs_read_read_request.
  read_request Hb "oil" [VInt RFS_OP_READ; VInt fd; VInt count]. cbn -[mwrite remotefs_read_write_response].
  unfold os_read. rewrite Hp. rewrite s32_id, u32_id by lia.
  destruct (mwrite_is_Some (srv_buffer s) ELUARPC_READ_BUF_OFFSET bs) as [m1 H1];
    [unfold ELUARPC_READ_BUF_OFFSET; lia..|].
  rewrite H1. cbn [mbind option_bind].
  destruct (read_write_response_in_place m1 bs) as (m & Hw & Hm).
  - by eapply mread_mwrite_same.
  - lia.
  - rewrite packet_size. rewrite (mwrite_msize _ _ _ _ H1). unfold enc_all. cbn [fmap list_fmap concat enc app].
    rewrite app_nil_r. msz. change (msize (le32 (msize bs))) with 4. lia.
  - rewrite Hw. cbn. eexists. split; [done|]. split; [by eapply bytes_at_mwrite|].
    rewrite (mwrite_msize _ _ _ _ Hm). by eapply mwrite_msize.
Qed.

Lemma server_open_ok s b n flags mode o fd :
  srv_ok s b → Forall (λ c, c ≠ 0) n → msize b + 1 + msize n < PLATFORM_MAX_FNAME_LEN →
  bytes_at (srv_buffer s) 0 (packet [FOp RFS_OP_OPEN; FPtr (n ++ [0]); FS32 flags; FS32 mode]) →
  22 <= msize (srv_buffer s) →
  posix_open (srv_os s) (realname b n) (os_open_realflags (s32 flags)) OPEN_MODE = (o, fd) →
  ∃ m f, server_open s = Some (set_buffer (set_os (set_fullname s f) o) m, SERVER_OK) ∧
    bytes_at m 0 (packet [FRes RFS_OP_OPEN; FS32 fd]) ∧ msize m = msize (srv_buffer s) ∧
    msize f = PLATFORM_MAX_FNAME_LEN + 1.
Proof.
  intros Hok Hn Hlen Hb Hsz Hp. unfold server_open, remotefs_open_read_request. pose proof Hb as Hb2.
  unfold PLATFORM_MAX_FNAME_LEN in Hlen. pose proof (msize_nonneg b). pose proof (msize_nonneg n).
  assert (msize (n ++ [0]) = msize n + 1) as Hn1 by (msz; lia).
  read_request Hb "opii" [VInt RFS_OP_OPEN; VPtr (Some (n ++ [0])); VInt (msize (n ++ [0])); VInt flags; VInt mode].
  cbn [mbind option_bind outs_all outs_of app out_int out_ptr lookup list_lookup].
  rewrite (proj2 (Z.eqb_neq (msize (n ++ [0])) 0)) by lia.
  cbn [mbind option_bind outs_all outs_of app out_int out_ptr lookup list_lookup].
  change (ELUARPC_OK =? ELUARPC_ERR) with false. cbv iota. cbn [at_ptr fmap option_fmap option_map].
  assert (cstr (drop (Z.to_nat (0 + 10 + msize (enc (FOp RFS_OP_OPEN)) + ELUARPC_PTR_HEADER_SIZE)) (srv_buffer s)) = Some n) as Hc.
  { apply cstr_drop_at; [done|].
    unfold packet, pkt_body in Hb2. rewrite !bytes_at_app, pkt_size_len in Hb2. destruct Hb2 as (_ & _ & Hb2 & _).
    change (msize pkt_start) with 6 in Hb2. rewrite !enc_all_cons, !bytes_at_app in Hb2.
    destruct Hb2 as (_ & Hb2 & _). cbn [enc] in Hb2. rewrite !bytes_at_cons, bytes_at_app in Hb2.
    destruct Hb2 as (_ & _ & _ & Hb2). apply Hb2. }
  destruct (server_realname_ok s b _ n Hok Hc Hlen) as (f & -> & Hf & Hfs). cbn [mbind option_bind].
  unfold os_open. cbn [server_fullname set_fullname srv_os srv_buffer]. rewrite Hf. cbn [mbind option_bind]. rewrite Hp.
  destruct (write_int_response (srv_buffer s) "i"%char RFS_OP_OPEN fd (FS32 fd)) as (m & Hw & Hm & Hs); [done..|].
  unfold remotefs_open_write_response. rewrite Hw. cbn. eauto 10.
Qed.

(** The dispatcher runs the handler of the request's operation. *)
Lemma execute_request s fuel id fs h :
  bytes_at (srv_buffer s) 0 (packet (FOp id :: fs)) → RFS_OP_FIRST <= id <= RFS_OP_LAST →
  server_handlers fuel !! Z.to_nat (id - RFS_OP_FIRST) = Some h →
  server_execute_request fuel s = h s.
Proof.
  intros Hb Hid Hh. unfold server_execute_request. rewrite (get_request_id_at _ _ _ _ Hb). cbn [mbind option_bind].
  change (ELUARPC_OK =? ELUARPC_ERR) with false. cbv iota.
  unfold RFS_OP_FIRST, RFS_OP_LAST, RFS_OP_OPEN, RFS_OP_CLOSEDIR in *. rewrite u8_id by lia.
  rewrite (proj2 (Z.leb_le 1 id)), (proj2 (Z.leb_le id 8)) by lia. cbn [andb]. by rewrite Hh.
Qed.
End handlers.
