(* ===== verification/RfsClient.v ===== *)
(** * The remote file system client (src/remotefs/client.c) and the eLua file system on
    top of it (src/remotefs/elua_rfs.c)

    The transport is the interface [RfscTransport]. The second part connects the
    client to the server of RfsServer.v through its memory transport and proves
    that every remote call does what the call does on the server's system. *)
From Stdlib Require Import Ascii.
From S2P Require Import Prelude Rpc RemoteFs Mux RfsServer.

(** [rfsc_send] and [rfsc_recv]: the bytes received are at most those asked for. *)
Class RfscTransport (W : Type) := {
  rfsc_send : W → list Z → option (W * Z);
  rfsc_recv : W → Z → Z → W * list Z
}.

Definition CLIENT_OK : Z := 0.
Definition CLIENT_ERR : Z := 1.

Section client.
Context {W : Type} `{!RfscTransport W} `{Fc : Fcntl}.

Record client := Client {
  cl_link : W;
  rfsc_buffer : mem;
  rfsc_timeout : Z
}.

Definition cl_set (c : client) (w : W) (m : mem) : client := Client w m (rfsc_timeout c).

Definition rfsc_set_timeout (c : client) (timeout : Z) : client :=
  Client (cl_link c) (rfsc_buffer c) timeout.

(** [while( rfsc_recv( rfsc_buffer, 1, 0 ) == 1 );]. [fuel] bounds the stale bytes. *)
Fixpoint rfsc_drain (fuel : nat) (c : client) : option client :=
  match fuel with
  | O => None
  | S fuel =>
      let '(w, bs) := rfsc_recv (cl_link c) 1 0 in
      m ← mwrite (rfsc_buffer c) 0 bs;
      let c := cl_set c w m in
      if msize bs =? 1 then rfsc_drain fuel c else Some c
  end.

Definition rfsch_send_request_read_response (fuel : nat) (c : client) : option (client * Z) :=
  c ← rfsc_drain fuel c;
  '(e, temp16) ← eluarpc_get_packet_size (rfsc_buffer c) 0;
  if e =? ELUARPC_ERR then Some (c, CLIENT_ERR)
  else
    pkt ← mread (rfsc_buffer c) 0 temp16;
    '(w, sent) ← rfsc_send (cl_link c) pkt;
    let c := cl_set c w (rfsc_buffer c) in
    if negb (sent =? temp16) then Some (c, CLIENT_ERR)
    else
      let '(w, bs) := rfsc_recv (cl_link c) ELUARPC_START_OFFSET (rfsc_timeout c) in
      m ← mwrite (rfsc_buffer c) 0 bs;
      let c := cl_set c w m in
      if negb (msize bs =? ELUARPC_START_OFFSET) then Some (c, CLIENT_ERR)
      else
        '(e, temp16) ← eluarpc_get_packet_size m 0;
        if e =? ELUARPC_ERR then Some (c, CLIENT_ERR)
        else
          let '(w, bs) := rfsc_recv (cl_link c) (temp16 - ELUARPC_START_OFFSET) (rfsc_timeout c) in
          m ← mwrite m ELUARPC_START_OFFSET bs;
          let c := cl_set c w m in
          if negb (msize bs =? temp16 - ELUARPC_START_OFFSET) then Some (c, CLIENT_ERR)
          else Some (c, CLIENT_OK).

(** Sending a request that is built in the buffer and reading its response: [inl] when the
    exchange fails. *)
Definition rfsc_exchange (fuel : nat) (c : client) (request : mem → option mem) : option (client + client) :=
  m ← request (rfsc_buffer c);
  '(c, r) ← rfsch_send_request_read_response fuel (cl_set c (cl_link c) m);
  Some (if r =? CLIENT_ERR then inl c else inr c).

Definition rfsc_open (fuel : nat) (c : client) (pathname : mem) (flags mode : Z) : option (client * Z) :=
  x ← rfsc_exchange fuel c (λ m,
        remotefs_open_write_request m 0 pathname (os_open_sys_flags_to_rfs_flags flags) mode);
  match x with
  | inl c => Some (c, -1)
  | inr c =>
      '(e, fd) ← remotefs_open_read_response (rfsc_buffer c) 0;
      Some (c, if e =? ELUARPC_ERR then -1 else fd)
  end.

Definition rfsc_write (fuel : nat) (c : client) (fd : Z) (buf : mem) (count : Z) : option (client * Z) :=
  x ← rfsc_exchange fuel c (λ m, remotefs_write_write_request m 0 fd buf count);
  match x with
  | inl c => Some (c, -1)
  | inr c =>
      '(e, count) ← remotefs_write_read_response (rfsc_buffer c) 0;
      Some (c, if e =? ELUARPC_ERR then -1 else s32 count)
  end.

(** [buf] is the caller's object; the result holds it after the call. *)
Definition rfsc_read (fuel : nat) (c : client) (fd : Z) (buf : mem) (count : Z) : option (client * mem * Z) :=
  x ← rfsc_exchange fuel c (λ m, remotefs_read_write_request m 0 fd count);
  match x with
  | inl c => Some (c, buf, -1)
  | inr c =>
      '(e, resbuf, count) ← remotefs_read_read_response (rfsc_buffer c) 0;
      if e =? ELUARPC_ERR then Some (c, buf, -1)
      else
        bs ← (match resbuf with Some q => mread (rfsc_buffer c) q count | None => Some [] end);
        buf ← mwrite buf 0 bs;
        Some (c, buf, s32 count)
  end.

Definition rfsc_lseek (fuel : nat) (c : client) (fd offset whence : Z) : option (client * Z) :=
  x ← rfsc_exchange fuel c (λ m,
        remotefs_lseek_write_request m 0 fd offset (os_lseek_sys_whence_to_rfs_whence whence));
  match x with
  | inl c => Some (c, -1)
  | inr c =>
      '(e, res) ← remotefs_lseek_read_response (rfsc_buffer c) 0;
      Some (c, if e =? ELUARPC_ERR then -1 else res)
  end.

Definition rfsc_close (fuel : nat) (c : client) (fd : Z) : option (client * Z) :=
  x ← rfsc_exchange fuel c (λ m, remotefs_close_write_request m 0 fd);
  match x with
  | inl c => Some (c, -1)
  | inr c =>
      '(e, res) ← remotefs_close_read_response (rfsc_buffer c) 0;
      Some (c, if e =? ELUARPC_ERR then -1 else res)
  end.

Definition rfsc_opendir (fuel : nat) (c : client) (name : mem) : option (client * Z) :=
  x ← rfsc_exchange fuel c (λ m, remotefs_opendir_write_request m 0 name);
  match x with
  | inl c => Some (c, 0)
  | inr c =>
      '(e, res) ← remotefs_opendir_read_response (rfsc_buffer c) 0;
      Some (c, if e =? ELUARPC_ERR then 0 else res)
  end.

(** The name as a position in the client's buffer, and the size and time. *)
Definition rfsc_readdir (fuel : nat) (c : client) (d : Z) : option (client * option Z * Z * Z) :=
  x ← rfsc_exchange fuel c (λ m, remotefs_readdir_write_request m 0 d);
  match x with
  | inl c => Some (c, None, 0, 0)
  | inr c =>
      '(e, pname, size, ftime) ← remotefs_readdir_read_response (rfsc_buffer c) 0;
      Some (c, if e =? ELUARPC_ERR then None else pname, size, ftime)
  end.

Definition rfsc_closedir (fuel : nat) (c : client) (d : Z) : option (client * Z) :=
  x ← rfsc_exchange fuel c (λ m, remotefs_closedir_write_request m 0 d);
  match x with
  | inl c => Some (c, -1)
  | inr c =>
      '(e, res) ← remotefs_closedir_read_response (rfsc_buffer c) 0;
      Some (c, if e =? ELUARPC_ERR then -1 else res)
  end.

(** ** elua_rfs.c

    [RFS_BUFFER_SIZE] is the logarithm of the packet buffer's size. *)
Variable RFS_BUFFER_SIZE : Z.

Definition RFS_REAL_BUFFER_SIZE : Z := Z.shiftl 1 RFS_BUFFER_SIZE - ELUARPC_WRITE_REQUEST_EXTRA.

(** The loop of [rfs_write_r]: [n] bounds the packets, [p] is the position in [ptr]. *)
Fixpoint rfs_write_loop (n : nat) (fuel : nat) (c : client) (fd : Z) (ptr : mem) (p len total : Z) :
    option (client * Z) :=
  if len =? 0 then Some (c, total)
  else
    match n with
    | O => None
    | S n =>
        let towrite := if RFS_REAL_BUFFER_SIZE <? len then RFS_REAL_BUFFER_SIZE else len in
        '(c, res) ← rfsc_write fuel c fd (drop (Z.to_nat p) ptr) towrite;
        if res =? -1 then Some (c, total)
        else
          let total := s32 (total + res) in
          if u32 res <? towrite then Some (c, total)
          else rfs_write_loop n fuel c fd ptr (p + towrite) (len - towrite) total
    end.

Definition rfs_write_r (fuel : nat) (c : client) (fd : Z) (ptr : mem) (len : Z) : option (client * Z) :=
  rfs_write_loop (Z.to_nat len) fuel c fd ptr 0 len 0.

(** The loop of [rfs_read_r]; each packet's data goes to position [p] of the caller's object. *)
Fixpoint rfs_read_loop (n : nat) (fuel : nat) (c : client) (fd : Z) (ptr : mem) (p len total : Z) :
    option (client * mem * Z) :=
  if len =? 0 then Some (c, ptr, total)
  else
    match n with
    | O => None
    | S n =>
        let toread := if RFS_REAL_BUFFER_SIZE <? len then RFS_REAL_BUFFER_SIZE else len in
        '(c, buf, res) ← rfsc_read fuel c fd (drop (Z.to_nat p) ptr) toread;
        let ptr := take (Z.to_nat p) ptr ++ buf in
        if res =? -1 then Some (c, ptr, total)
        else
          let total := s32 (total + res) in
          if u32 res <? toread then Some (c, ptr, total)
          else rfs_read_loop n fuel c fd ptr (p + toread) (len - toread) total
    end.

Definition rfs_read_r (fuel : nat) (c : client) (fd : Z) (ptr : mem) (len : Z) : option (client * mem * Z) :=
  rfs_read_loop (Z.to_nat len) fuel c fd ptr 0 len 0.

Definition rfs_open_r (fuel : nat) (c : client) (path : mem) (flags mode : Z) : option (client * Z) :=
  rfsc_open fuel c path flags mode.

Definition rfs_close_r (fuel : nat) (c : client) (fd : Z) : option (client * Z) := rfsc_close fuel c fd.

Definition rfs_lseek_r (fuel : nat) (c : client) (fd off whence : Z) : option (client * Z) :=
  rfsc_lseek fuel c fd (s32 off) whence.

Definition rfs_opendir_r (fuel : nat) (c : client) (name : mem) : option (client * Z) :=
  rfsc_opendir fuel c name.

Definition rfs_readdir_r (fuel : nat) (c : client) (d : Z) : option (client * option (Z * Z * Z)) :=
  '(c, fname, fsize, ftime) ← rfsc_readdir fuel c d;
  Some (c, q ← fname; Some (q, fsize, ftime)).

Definition rfs_closedir_r (fuel : nat) (c : client) (d : Z) : option (client * Z) := rfsc_closedir fuel c d.
End client.

Arguments client : clear implicits.

(** ** The client connected to the server *)

(** The link delivers each byte sent to the server's memory transport and queues the
    bytes of the responses. *)
Record link (OS : Type) := Link { lk_server : mem_server OS; lk_pending : list Z }.

Arguments Link {OS} _ _.
Arguments lk_server {OS} _.
Arguments lk_pending {OS} _.

Section link_.
Context {OS : Type} `{!Posix OS} (dirfuel : nat).

Fixpoint link_send (l : link OS) (cs : list Z) : option (link OS) :=
  match cs with
  | [] => Some l
  | c :: cs =>
      '(s, _) ← mem_read_request_packet (lk_server l) c;
      l ← (if ctrue (mem_response_flag s) then
             '(s, size, p) ← mem_write_response dirfuel s;
             resp ← mread p 0 (u16 size);
             Some (Link (mem_start_request s) (lk_pending l ++ resp))
           else Some (Link s (lk_pending l)));
      link_send l cs
  end.

#[local] Instance link_transport : RfscTransport (link OS) := {
  rfsc_send l cs := l ← link_send l cs; Some (l, msize cs);
  rfsc_recv l n _ := (Link (lk_server l) (drop (Z.to_nat n) (lk_pending l)), take (Z.to_nat n) (lk_pending l))
}.

(** The server waits for a request. *)
Definition ready (srv : server OS) : mem_server OS := MemServer 0 0 MEM_STATE_READ_LENGTH 0 srv.

(** What happens when the last byte of a request has arrived. *)
Definition link_serve (srv : server OS) (pending : list Z) : option (link OS) :=
  '(srv, _) ← server_execute_request dirfuel srv;
  '(e, len) ← eluarpc_get_packet_size (srv_buffer srv) 0;
  resp ← (if negb (e =? ELUARPC_ERR) then mread (srv_buffer srv) 0 (u16 len) else Some []);
  Some (Link (ready srv) (pending ++ resp)).

Lemma link_send_cons l c cs :
  link_send l (c :: cs) = (l ← link_send l [c]; link_send l cs).
Proof.
  cbn [link_send]. destruct (mem_read_request_packet _ c) as [[s r]|]; cbn [mbind option_bind]; [|done].
  destruct (if ctrue (mem_response_flag s) then _ else _); done.
Qed.

(** The bytes after the length, the last of which triggers the server. *)
Lemma link_send_body cs srv pending k n m :
  cs ≠ [] → bytes_ok cs → 0 <= k → k + msize cs = n → mwrite (srv_buffer srv) (4 + k) cs = Some m →
  link_send (Link (MemServer k n MEM_STATE_READ_REQUEST 0 srv) pending) cs =
    link_serve (set_buffer srv m) pending.
Proof.
  revert srv k m. induction cs as [|c cs IH]; intros srv k m Hne Hok Hk Hn Hw; [done|].
  apply Forall_cons in Hok as [Hc Hok]. msz. pose proof (msize_nonneg cs).
  change (c :: cs) with ([c] ++ cs) in Hw. rewrite mwrite_app in Hw. rewrite link_send_cons. cbn [link_send lk_server lk_pending].
  unfold mem_read_request_packet. rewrite (proj2 (Z.eqb_neq c (-1))) by (unfold byte_ok in Hc; lia).
  cbn [mem_read_state mem_srv mem_read_len mem_expected_len mem_response_flag].
  rewrite st_mwrite, u8_id by done. unfold ELUARPC_START_OFFSET.
  destruct (mwrite (srv_buffer srv) (4 + k) [c]) as [m1|]; cbn [mbind option_bind] in *; [|done].
  destruct cs as [|c2 cs].
  - rewrite msize_nil in *. rewrite (proj2 (Z.eqb_eq (k + 1) n)) by lia. cbn [mbind option_bind mem_response_flag].
    assert (m1 = m) as ->.
    { cbn in Hw. rewrite mwrite_spec in Hw. destruct Hw as (_ & _ & ->).
      cbn [app length]. rewrite Nat.add_0_r. by rewrite take_drop. }
    unfold mem_write_response, link_serve. cbn [ctrue negb Z.eqb mem_srv mem_read_len mem_expected_len mem_read_state mem_response_flag].
    destruct (server_execute_request dirfuel _) as [[srv' r]|]; cbn [mbind option_bind]; [|done].
    destruct (eluarpc_get_packet_size (srv_buffer srv') 0) as [[e len]|]; cbn [mbind option_bind]; [|done].
    destruct (negb (e =? ELUARPC_ERR)); cbn [mbind option_bind].
    + by destruct (mread (srv_buffer srv') 0 (u16 len)).
    + done.
  - msz. pose proof (msize_nonneg cs). rewrite (proj2 (Z.eqb_neq (k + 1) n)) by lia.
    cbn [mbind option_bind mem_response_flag ctrue negb Z.eqb].
    rewrite (IH (set_buffer srv m1) (k + 1) m); [done|done|done|lia|msz; lia|].
    cbn [srv_buffer set_buffer]. rewrite <- Hw. f_equal. lia.
Qed.

(** The four bytes of the length. *)
Lemma link_send_header cs srv pending k m size rest :
  cs ≠ [] → bytes_ok cs → 0 <= k → k + msize cs = 4 → mwrite (srv_buffer srv) k cs = Some m →
  eluarpc_get_packet_size m 0 = Some (ELUARPC_OK, size) →
  link_send (Link (MemServer k 0 MEM_STATE_READ_LENGTH 0 srv) pending) (cs ++ rest) =
    link_send (Link (MemServer 0 (size - 4) MEM_STATE_READ_REQUEST 0 (set_buffer srv m)) pending) rest.
Proof.
  revert srv k. induction cs as [|c cs IH]; intros srv k Hne Hok Hk Hn Hw Hsz; [done|].
  apply Forall_cons in Hok as [Hc Hok]. msz. pose proof (msize_nonneg cs).
  change (c :: cs) with ([c] ++ cs) in Hw. rewrite mwrite_app in Hw. cbn [app].
  rewrite link_send_cons. cbn [link_send lk_server lk_pending].
  unfold mem_read_request_packet. rewrite (proj2 (Z.eqb_neq c (-1))) by (unfold byte_ok in Hc; lia).
  cbn [mem_read_state mem_srv mem_read_len mem_expected_len mem_response_flag].
  rewrite st_mwrite, u8_id by done. unfold ELUARPC_START_OFFSET.
  destruct (mwrite (srv_buffer srv) k [c]) as [m1|]; cbn [mbind option_bind] in *; [|done].
  destruct cs as [|c2 cs].
  - msz. rewrite (proj2 (Z.eqb_eq (k + 1) 4)) by lia.
    assert (m1 = m) as ->.
    { cbn in Hw. rewrite mwrite_spec in Hw. destruct Hw as (_ & _ & ->).
      cbn [app length]. rewrite Nat.add_0_r. by rewrite take_drop. }
    rewrite Hsz. done.
  - msz. pose proof (msize_nonneg cs). rewrite (proj2 (Z.eqb_neq (k + 1) 4)) by lia.
    cbn [mbind option_bind mem_response_flag ctrue negb Z.eqb].
    rewrite (IH (set_buffer srv m1) (k + 1)); [done|done|done|lia|msz; lia| |done].
    cbn [srv_buffer set_buffer]. rewrite <- Hw. msz. pos_eq.
Qed.

(** A whole request packet: it lands in the server's buffer and is executed. *)
Lemma link_send_packet srv fs pending m :
  Forall field_bytes fs → msize (packet fs) < 65536 → mwrite (srv_buffer srv) 0 (packet fs) = Some m →
  link_send (Link (ready srv) pending) (packet fs) = link_serve (set_buffer srv m) pending.
Proof.
  intros Hfb Hlt Hw. pose proof (packet_bytes fs Hfb) as Hok. pose proof (packet_size fs) as Hsz.
  pose proof (msize_nonneg (enc_all fs)). unfold packet in *. rewrite msize_app, pkt_size_len in Hlt, Hsz.
  rewrite bytes_ok_app in Hok. destruct Hok as [Hok1 Hok2]. rewrite mwrite_app in Hw.
  destruct (mwrite (srv_buffer srv) 0 _) as [m4|] eqn:H4; cbn [mbind option_bind] in Hw; [|done].
  rewrite pkt_size_len in Hw.
  pose proof (bytes_at_mwrite _ _ _ _ H4) as Hat. rewrite <- (app_nil_r (pkt_size _)) in Hat.
  apply get_packet_size_at in Hat. rewrite u16_id in Hat by lia. unfold ready.
  erewrite link_send_header; [|done|done|lia|by rewrite pkt_size_len|done|done].
  rewrite (link_send_body (pkt_body fs) (set_buffer srv m4) pending 0 _ m);
    [done| |done|lia|lia|done].
  intros E. rewrite E, msize_nil in Hsz. lia.
Qed.

(** *** One exchange *)

(** The client is idle on a link whose server waits for a request. *)
Definition idle (c : client (link OS)) (srv : server OS) : Prop := cl_link c = Link (ready srv) [].

(** The buffers hold packets of up to [n] bytes. *)
Definition room (c : client (link OS)) (srv : server OS) (n : Z) : Prop :=
  n <= msize (rfsc_buffer c) ∧ n <= msize (srv_buffer srv) ∧ n < 65536.

Lemma drain_idle fuel c srv : (0 < fuel)%nat → idle c srv → 0 <= msize (rfsc_buffer c) → rfsc_drain fuel c = Some c.
Proof.
  intros Hf Hi Hm. destruct fuel as [|fuel]; [lia|]. cbn [rfsc_drain rfsc_recv link_transport]. rewrite Hi.
  cbn [lk_pending lk_server take drop]. rewrite mwrite_nil by lia. cbn.
  unfold cl_set, idle in *. destruct c; cbn in *. by subst.
Qed.

Lemma exchange_ok fuel c srv srv' r request m0 fs rs :
  (0 < fuel)%nat → idle c srv →
  request (rfsc_buffer c) = Some m0 → mwrite (rfsc_buffer c) 0 (packet fs) = Some m0 →
  Forall field_bytes fs → room c srv (msize (packet fs)) → room c srv (msize (packet rs)) →
  (∀ m, mwrite (srv_buffer srv) 0 (packet fs) = Some m →
     server_execute_request dirfuel (set_buffer srv m) = Some (srv', r)) →
  bytes_at (srv_buffer srv') 0 (packet rs) →
  ∃ c', rfsc_exchange fuel c request = Some (inr c') ∧ idle c' srv' ∧
    bytes_at (rfsc_buffer c') 0 (packet rs) ∧ msize (rfsc_buffer c') = msize (rfsc_buffer c) ∧
    rfsc_timeout c' = rfsc_timeout c.
Proof.
  intros Hfuel Hidle Hreq Hm0 Hfb (Hr1 & Hr2 & Hr3) (Hs1 & Hs2 & Hs3) Hexec Hresp.
  unfold rfsc_exchange. rewrite Hreq. cbn [mbind option_bind]. unfold rfsch_send_request_read_response.
  rewrite (drain_idle _ _ srv) by (done || apply msize_nonneg). cbn [mbind option_bind].
  pose proof (bytes_at_mwrite _ _ _ _ Hm0) as Hat. pose proof (mwrite_msize _ _ _ _ Hm0) as Hsz0.
  pose proof Hat as Hat'. unfold packet in Hat'. apply get_packet_size_at in Hat'.
  pose proof (packet_size fs) as Ep. pose proof (packet_size rs) as Er.
  pose proof (msize_nonneg (enc_all fs)). pose proof (msize_nonneg (enc_all rs)).
  assert (4 + msize (pkt_body fs) = msize (packet fs)) as Eb by (unfold packet; by rewrite msize_app).
  assert (4 + msize (pkt_body rs) = msize (packet rs)) as Ebr by (unfold packet; by rewrite msize_app).
  rewrite Eb, u16_id in Hat' by lia. cbn [rfsc_buffer cl_set]. rewrite Hat'. cbn [mbind option_bind].
  change (ELUARPC_OK =? ELUARPC_ERR) with false. cbv iota. unfold bytes_at in Hat. rewrite Hat. cbn [mbind option_bind].
  destruct (mwrite_is_Some (srv_buffer srv) 0 (packet fs)) as [m Hm]; [lia|lia|].
  cbn [rfsc_send link_transport cl_link cl_set]. unfold idle in Hidle. rewrite Hidle.
  rewrite (link_send_packet _ _ _ m) by done. unfold link_serve. rewrite (Hexec m Hm). cbn [mbind option_bind].
  pose proof Hresp as Hresp'. unfold packet in Hresp'. apply get_packet_size_at in Hresp'.
  rewrite Ebr, u16_id in Hresp' by lia. rewrite Hresp'. cbn [mbind option_bind].
  change (negb (ELUARPC_OK =? ELUARPC_ERR)) with true. cbv iota. rewrite u16_id by lia.
  unfold bytes_at in Hresp. rewrite Hresp. cbn [mbind option_bind app]. rewrite Z.eqb_refl. cbn [negb].
  cbn [rfsc_recv link_transport cl_link cl_set lk_pending lk_server rfsc_buffer].
  assert (take (Z.to_nat ELUARPC_START_OFFSET) (packet rs) = pkt_size (4 + msize (pkt_body rs))) as -> by done.
  assert (drop (Z.to_nat ELUARPC_START_OFFSET) (packet rs) = pkt_body rs) as -> by done.
  destruct (mwrite_is_Some m0 0 (packet rs)) as [m2 Hm2]; [lia|lia|]. pose proof Hm2 as Hm2'.
  unfold packet in Hm2. rewrite mwrite_app in Hm2.
  destruct (mwrite m0 0 (pkt_size _)) as [m1|] eqn:Hm1; cbn [mbind option_bind] in *; [|done].
  rewrite pkt_size_len in *. change (negb (4 =? ELUARPC_START_OFFSET)) with false. cbv iota.
  pose proof (bytes_at_mwrite _ _ _ _ Hm1) as Hat1. rewrite <- (app_nil_r (pkt_size _)) in Hat1.
  apply get_packet_size_at in Hat1. rewrite Ebr, u16_id in Hat1 by lia. rewrite Hat1. cbn [mbind option_bind].
  change (ELUARPC_OK =? ELUARPC_ERR) with false. cbv iota. unfold ELUARPC_START_OFFSET.
  replace (msize (packet rs) - 4) with (msize (pkt_body rs)) by lia.
  rewrite take_ge, drop_ge by (unfold msize; lia). change (0 + 4) with 4 in Hm2. rewrite Hm2. cbn [mbind option_bind]. rewrite Z.eqb_refl. cbn.
  eexists. split; [done|]. split; [done|]. split; [by eapply bytes_at_mwrite|]. split; [|done].
  change (msize m2 = msize (rfsc_buffer c)). rewrite (mwrite_msize _ _ _ _ Hm2'). lia.
Qed.

(** *** The calls, end to end *)

Context `{Fc : Fcntl}.

(** The client and the server with the system state [o] and the base directory [b];
    both buffers hold packets of [n] bytes. *)
Definition connected (c : client (link OS)) (b : list Z) (n : Z) (o : OS) : Prop :=
  ∃ srv, idle c srv ∧ srv_ok srv b ∧ srv_os srv = o ∧ room c srv n.

Lemma enc_size_int id z : msize (enc_all [FOp id; FS32 z]) = 7.
Proof. done. Qed.

Lemma room_le c srv n n' : room c srv n → n' <= n → room c srv n'.
Proof. unfold room. lia. Qed.

(** Rebuilding [connected] after an exchange. *)
Lemma connected_after c c' srv srv' b n o :
  room c srv n → idle c' srv' → srv_ok srv' b → srv_os srv' = o →
  msize (rfsc_buffer c') = msize (rfsc_buffer c) → msize (srv_buffer srv') = msize (srv_buffer srv) →
  connected c' b n o.
Proof. intros (H1 & H2 & H3) Hi Hok Ho Hc Hs. exists srv'. unfold room. rewrite Hc, Hs. done. Qed.

(** A call: the request that the client writes, the handler that serves it, the response. *)
Lemma call_ok fuel c b n o o' fmt args id fs rs (h : server OS → option (server OS * Z)) request :
  (0 < fuel)%nat → connected c b n o →
  fields_of fmt args = Some (FOp id :: fs) → Forall field_bytes fs →
  request (rfsc_buffer c) = eluarpc_gen_write (rfsc_buffer c) 0 fmt args →
  msize (packet (FOp id :: fs)) <= n → msize (packet rs) <= n →
  RFS_OP_FIRST <= id <= RFS_OP_LAST → server_handlers dirfuel !! Z.to_nat (id - RFS_OP_FIRST) = Some h →
  (∀ s, bytes_at (srv_buffer s) 0 (packet (FOp id :: fs)) → srv_os s = o → srv_ok s b →
     n <= msize (srv_buffer s) →
     ∃ m f, h s = Some (set_buffer (set_os (set_fullname s f) o') m, SERVER_OK) ∧
       bytes_at m 0 (packet rs) ∧ msize m = msize (srv_buffer s) ∧ msize f = PLATFORM_MAX_FNAME_LEN + 1) →
  ∃ c', rfsc_exchange fuel c request = Some (inr c') ∧ connected c' b n o' ∧
    bytes_at (rfsc_buffer c') 0 (packet rs).
Proof.
  intros Hfuel (srv & Hi & Hok & <- & Hroom) Hf Hfb Hreq Hq Hr Hid Hh Hserve.
  pose proof Hroom as (Hr1 & Hr2 & Hr3).
  destruct (gen_write_packet (rfsc_buffer c) 0 _ _ _ Hf) as (m0 & Hw & Hm0); [lia|lia|].
  destruct (mwrite_is_Some (srv_buffer srv) 0 (packet (FOp id :: fs))) as [m Hm]; [lia|lia|].
  pose proof (mwrite_msize _ _ _ _ Hm) as Hms. pose proof (bytes_at_mwrite _ _ _ _ Hm) as Hat.
  destruct (Hserve (set_buffer srv m)) as (m' & f & Hs & Hb & Hsz & Hfs); [done..|cbn [srv_buffer set_buffer]; lia|].
  cbn [srv_buffer set_buffer] in Hsz.
  set (srv' := set_buffer (set_os (set_fullname (set_buffer srv m) f) o') m') in *.
  destruct (exchange_ok fuel c srv srv' SERVER_OK request m0 (FOp id :: fs) rs)
    as (c' & Hx & Hi' & Hb' & Hsz' & _); try done.
  - congruence.
  - by constructor.
  - by eapply room_le.
  - by eapply room_le.
  - intros m1 Hm1. assert (m1 = m) as -> by congruence. by rewrite (execute_request _ _ id fs h).
  - exists c'. split; [done|]. split; [|done]. destruct Hok as (H1 & H2 & H3).
    eapply connected_after; try done. cbn [srv' srv_buffer set_buffer]. lia.
Qed.

Lemma rfsc_write_ok fuel c b n o fd buf bs r o' :
  (0 < fuel)%nat → connected c b n o → mread buf 0 (msize bs) = Some bs → bytes_ok bs →
  29 + msize bs <= n → posix_write o (s32 fd) bs = (o', r) →
  ∃ c', rfsc_write fuel c fd buf (msize bs) = Some (c', s32 r) ∧ connected c' b n o'.
Proof.
  intros Hfuel Hc Hbuf Hbs Hn Hp. pose proof (msize_nonneg bs). pose proof Hc as (srv & _ & _ & _ & Hroom).
  destruct Hroom as (Hr1 & Hr2 & Hr3).
  destruct (call_ok fuel c b n o o' "oip" [VInt RFS_OP_WRITE; VInt fd; VPtr (Some buf); VInt (msize bs)]
      RFS_OP_WRITE [FS32 fd; FPtr bs] [FRes RFS_OP_WRITE; F32 (u32 (s32 r))] server_write
      (λ m, remotefs_write_write_request m 0 fd buf (msize bs))) as (c' & Hx & Hc' & Hb); try done.
  - fields_simpl. rewrite decide_True by lia. by rewrite Hbuf.
  - repeat constructor. done.
  - rewrite packet_size. unfold enc_all. cbn [fmap list_fmap concat enc app]. rewrite app_nil_r. msz.
    change (msize (le32 (msize bs))) with 4. change (msize (le32 (u32 fd))) with 4. lia.
  - change (msize (packet _)) with 22. lia.
  - intros s Hb <- Hok Hsz. destruct (server_write_ok s fd bs o' r) as (m & Hs & Hm & Hms); [done|lia|lia|done|].
    exists m, (server_fullname s). destruct Hok as (_ & _ & Hfn), s. done.
  - exists c'. split; [|done]. unfold rfsc_write. rewrite Hx. cbn [mbind option_bind].
    unfold remotefs_write_read_response.
    rewrite (read_int_response _ "l"%char RFS_OP_WRITE (u32 (s32 r)) F32 u32) by done.
    cbn [mbind option_bind]. change (ELUARPC_OK =? ELUARPC_ERR) with false. cbv iota.
    rewrite u32_idem, s32_u32. do 2 f_equal. apply s32_id, s32_range.
Qed.

(** The data of a read response in the client's buffer. *)
Lemma read_response_data m bs :
  msize bs < 4294967296 → bytes_at m 0 (packet [FRes RFS_OP_READ; FPtr bs]) →
  ∃ q, remotefs_read_read_response m 0 = Some (ELUARPC_OK, q, msize bs) ∧
    (match q with Some q => mread m q (msize bs) | None => Some [] end) = Some bs.
Proof.
  intros Hlt Hb. pose proof (msize_nonneg bs). pose proof Hb as Hb2. unfold remotefs_read_read_response.
  assert (fields_of "rp" [VInt RFS_OP_READ; VPtr (Some bs); VInt (msize bs)] = Some [FRes RFS_OP_READ; FPtr bs]) as Hg.
  { fields_simpl. rewrite decide_True by lia. by rewrite mread_all. }
  pose proof (gen_read_packet m 0 _ _ _ Hg) as Hrd. cbn [fmap list_fmap concat ids_of app] in Hrd.
  rewrite Hrd; [|repeat constructor; cbn [field_ok]; lia|done].
  cbn [mbind option_bind outs_all outs_of app out_ptr lookup list_lookup]. eexists. split; [done|].
  destruct (Z.eqb_spec (msize bs) 0) as [E|E].
  - destruct bs; [done|]. msz. pose proof (msize_nonneg bs). lia.
  - unfold packet, pkt_body in Hb2. rewrite !bytes_at_app, pkt_size_len in Hb2. destruct Hb2 as (_ & _ & Hb2 & _).
    change (msize pkt_start) with 6 in Hb2. rewrite !enc_all_cons, !bytes_at_app in Hb2.
    destruct Hb2 as (_ & Hb2 & _). cbn [enc] in Hb2. rewrite !bytes_at_cons, bytes_at_app in Hb2.
    destruct Hb2 as (_ & _ & _ & Hb2). unfold bytes_at in Hb2. change (msize (le32 (msize bs))) with 4 in Hb2.
    rewrite <- Hb2. reflexivity.
Qed.

Lemma rfsc_read_ok fuel c b n o fd buf count bs o' :
  (0 < fuel)%nat → connected c b n o → 0 <= count < 4294967296 → bytes_ok bs →
  29 + msize bs <= n → msize bs <= msize buf →
  posix_read o (s32 fd) count = (o', msize bs, bs) →
  ∃ c' buf', rfsc_read fuel c fd buf count = Some (c', buf', msize bs) ∧ connected c' b n o' ∧
    mwrite buf 0 bs = Some buf'.
Proof.
  intros Hfuel Hc Hcount Hbs Hn Hbuf Hp. pose proof (msize_nonneg bs). pose proof Hc as (srv & _ & _ & _ & Hroom).
  destruct Hroom as (Hr1 & Hr2 & Hr3).
  destruct (call_ok fuel c b n o o' "oil" [VInt RFS_OP_READ; VInt fd; VInt count]
      RFS_OP_READ [FS32 fd; F32 count] [FRes RFS_OP_READ; FPtr bs] server_read
      (λ m, remotefs_read_write_request m 0 fd count)) as (c' & Hx & Hc' & Hb); try done.
  - repeat constructor.
  - change (msize (packet _)) with 28. lia.
  - rewrite packet_size. unfold enc_all. cbn [fmap list_fmap concat enc app]. rewrite app_nil_r. msz.
    change (msize (le32 (msize bs))) with 4. lia.
  - intros s Hb <- Hok Hsz.
    destruct (server_read_ok s fd count o' bs) as (m & Hs & Hm & Hms); [done|by rewrite u32_id|lia|lia|].
    exists m, (server_fullname s). destruct Hok as (_ & _ & Hfn), s. done.
  - destruct (mwrite_is_Some buf 0 bs) as [buf' Hbuf']; [lia|lia|]. exists c', buf'. split; [|done].
    unfold rfsc_read. rewrite Hx. cbn [mbind option_bind].
    destruct (read_response_data (rfsc_buffer c') bs ltac:(lia) Hb) as (q & -> & Hq). cbn [mbind option_bind].
    change (ELUARPC_OK =? ELUARPC_ERR) with false. cbv iota. rewrite Hq. cbn [mbind option_bind].
    rewrite Hbuf'. cbn [mbind option_bind]. do 2 f_equal. apply s32_id. lia.
Qed.

(** Opening a remote file: the server's system opens the base directory's file of that
    name with the caller's flags as translated for it, and the client returns its result. *)
Theorem rfs_open_end_to_end fuel c b n o path name flags mode o' fd :
  (0 < fuel)%nat → connected c b n o → cstr path = Some name → bytes_ok name →
  35 + msize name <= n → msize b + 1 + msize name < PLATFORM_MAX_FNAME_LEN →
  posix_open o (realname b name) (os_open_realflags (H:=posix_fcntl) (os_open_sys_flags_to_rfs_flags flags)) OPEN_MODE = (o', fd) →
  -2147483648 <= fd < 2147483648 →
  ∃ c', rfs_open_r fuel c path flags mode = Some (c', fd) ∧ connected c' b n o'.
Proof.
  intros Hfuel Hc Hname Hbs Hn Hlen Hp Hfd. pose proof (msize_nonneg name). pose proof Hc as (srv & _ & _ & _ & Hroom).
  destruct Hroom as (Hr1 & Hr2 & Hr3). destruct (cstr_inv _ _ Hname) as [Hnz [tl Epath]].
  pose proof (rfs_flags_have flags) as (_ & _ & _ & _ & _ & _ & _ & _ & Hfl).
  set (fl := os_open_sys_flags_to_rfs_flags flags) in *.
  assert (msize (name ++ [0]) = msize name + 1) as Hn1 by (msz; lia).
  destruct (call_ok fuel c b n o o' "opii"
      [VInt RFS_OP_OPEN; VPtr (Some path); VInt (msize name + 1); VInt fl; VInt mode]
      RFS_OP_OPEN [FPtr (name ++ [0]); FS32 fl; FS32 mode] [FRes RFS_OP_OPEN; FS32 fd] server_open
      (λ m, remotefs_open_write_request m 0 path fl mode)) as (c' & Hx & Hc' & Hb); try done.
  - fields_simpl. rewrite decide_True by lia.
    replace (mread path 0 (msize name + 1)) with (Some (name ++ [0])); [done|].
    symmetry. apply mread_spec. rewrite Epath. change (name ++ 0 :: tl) with (name ++ [0] ++ tl).
    pose proof (msize_nonneg tl). split_and!; [lia|lia|msz; lia|].
    cbn [Z.to_nat]. rewrite drop_0, app_assoc. symmetry. apply take_app_length'. unfold msize in *. lia.
  - repeat constructor. apply bytes_ok_app. split; [done|]. apply bytes_ok_one. unfold byte_ok. lia.
  - unfold remotefs_open_write_request, strlen. by rewrite Hname.
  - rewrite packet_size. unfold enc_all. cbn [fmap list_fmap concat enc app]. rewrite app_nil_r. msz.
    change (msize (le32 (msize name + (1 + 0)))) with 4. change (msize (le32 (u32 fl))) with 4.
    change (msize (le32 (u32 mode))) with 4. lia.
  - change (msize (packet _)) with 22. lia.
  - intros s Hb <- Hok Hsz.
    destruct (server_open_ok s b name fl mode o' fd) as (m & f & Hs & Hm & Hms & Hf);
      [done|done|done|done|lia| |].
    { by rewrite (s32_id fl) by lia. }
    exists m, f. destruct s. done.
  - exists c'. split; [|done]. unfold rfs_open_r, rfsc_open. fold fl. rewrite Hx. cbn [mbind option_bind].
    unfold remotefs_open_read_response.
    rewrite (read_int_response _ "i"%char RFS_OP_OPEN fd FS32 s32) by done.
    cbn [mbind option_bind]. change (ELUARPC_OK =? ELUARPC_ERR) with false. cbv iota. by rewrite s32_id.
Qed.

(** Closing a remote file and moving its position are the calls of the server's system,
    with the seek mode translated; an unknown seek mode answers -1 without a call. *)
Theorem rfs_close_lseek_end_to_end fuel c b n o fd off whence o1 r1 o2 r2 :
  (0 < fuel)%nat → connected c b n o → 64 <= n →
  posix_close o (s32 fd) = (o1, r1) → -2147483648 <= r1 < 2147483648 →
  os_lseek o (s32 fd) (s32 off) (os_lseek_sys_whence_to_rfs_whence whence) = (o2, r2) →
  (∃ c', rfs_close_r fuel c fd = Some (c', r1) ∧ connected c' b n o1) ∧
  (∃ c', rfs_lseek_r fuel c fd off whence = Some (c', s32 r2) ∧ connected c' b n o2).
Proof.
  intros Hfuel Hc Hn Hcl Hr1 Hls. pose proof Hc as (srv & _ & _ & _ & Hroom). destruct Hroom as (Hb1 & Hb2 & Hb3). split.
  - destruct (call_ok fuel c b n o o1 "oi" [VInt RFS_OP_CLOSE; VInt fd] RFS_OP_CLOSE [FS32 fd]
        [FRes RFS_OP_CLOSE; FS32 r1] server_close (λ m, remotefs_close_write_request m 0 fd)) as (c' & Hx & Hc' & Hb); try done.
    + repeat constructor.
    + change (msize (packet _)) with 23. lia.
    + change (msize (packet _)) with 22. lia.
    + intros s Hb <- Hok Hsz. destruct (server_close_ok s fd o1 r1) as (m & Hs & Hm & Hms); [done|lia|done|].
      exists m, (server_fullname s). destruct Hok as (_ & _ & Hfn), s. done.
    + exists c'. split; [|done]. unfold rfs_close_r, rfsc_close. rewrite Hx. cbn [mbind option_bind].
      unfold remotefs_close_read_response. rewrite (read_int_response _ "i"%char RFS_OP_CLOSE r1 FS32 s32) by done.
      cbn [mbind option_bind]. change (ELUARPC_OK =? ELUARPC_ERR) with false. cbv iota. by rewrite s32_id.
  - set (w := os_lseek_sys_whence_to_rfs_whence whence) in *.
    assert (0 <= w <= 3) as Hw.
    { unfold w, os_lseek_sys_whence_to_rfs_whence, RFS_LSEEK_SET, RFS_LSEEK_CUR, RFS_LSEEK_END. repeat case_match; lia. }
    destruct (call_ok fuel c b n o o2 "oiLi" [VInt RFS_OP_LSEEK; VInt fd; VInt (s32 off); VInt w] RFS_OP_LSEEK
        [FS32 fd; FS32 (s32 off); FS32 w] [FRes RFS_OP_LSEEK; FS32 r2] server_lseek
        (λ m, remotefs_lseek_write_request m 0 fd (s32 off) w)) as (c' & Hx & Hc' & Hb); try done.
    + repeat constructor.
    + change (msize (packet _)) with 33. lia.
    + change (msize (packet _)) with 22. lia.
    + intros s Hb <- Hok Hsz.
      destruct (server_lseek_ok s fd (s32 off) w o2 r2) as (m & Hs & Hm & Hms); [done|lia| |].
      { rewrite (s32_id (s32 off)) by apply s32_range. by rewrite (s32_id w) by lia. }
      exists m, (server_fullname s). destruct Hok as (_ & _ & Hfn), s. done.
    + exists c'. split; [|done]. unfold rfs_lseek_r, rfsc_lseek. fold w. rewrite Hx. cbn [mbind option_bind].
      unfold remotefs_lseek_read_response. by rewrite (read_int_response _ "L"%char RFS_OP_LSEEK r2 FS32 s32).
Qed.

(** *** Transfers of any length

    A regular file on a disk with space, as POSIX describes it: [wr o bs] is the system
    after [bs] is written at the file's position, and [rest o] is the file from the
    position on. *)
Section transfer.
Variables (fd RFS_BUFFER_SIZE : Z) (b : list Z).
Hypothesis Hsize : 5 <= RFS_BUFFER_SIZE < 16.

Let n := 2 ^ RFS_BUFFER_SIZE.

Lemma real_buffer_size : RFS_REAL_BUFFER_SIZE RFS_BUFFER_SIZE = n - 29 ∧ 32 <= n < 65536.
Proof.
  unfold RFS_REAL_BUFFER_SIZE, ELUARPC_WRITE_REQUEST_EXTRA, n. rewrite Z.shiftl_1_l. split; [done|].
  split; [change 32 with (2 ^ 5); apply Z.pow_le_mono_r; lia|].
  change 65536 with (2 ^ 16). apply Z.pow_lt_mono_r; lia.
Qed.

Section write.
Variable wr : OS → list Z → OS.
Hypothesis Hwr : ∀ o bs, posix_write o (s32 fd) bs = (wr o bs, msize bs).
Hypothesis Hwr_nil : ∀ o, wr o [] = o.
Hypothesis Hwr_app : ∀ o x y, wr (wr o x) y = wr o (x ++ y).

Lemma rfs_write_loop_ok k fuel c o ptr p len total bs :
  (0 < fuel)%nat → len <= Z.of_nat k → connected c b n o → mread ptr p len = Some bs → bytes_ok bs →
  0 <= total → total + len < 2147483648 →
  ∃ c', rfs_write_loop RFS_BUFFER_SIZE k fuel c fd ptr p len total = Some (c', total + len) ∧
    connected c' b n (wr o bs).
Proof.
  destruct real_buffer_size as [Er Hn].
  intros Hfuel. revert c o p len total bs. induction k as [|k IH]; intros c o p len total bs Hk Hc Hr Hb Ht Hlt.
  all: pose proof (mread_msize _ _ _ _ Hr) as Hl; pose proof (msize_nonneg bs).
  all: pose proof Hr as Hr'; rewrite mread_spec in Hr'; destruct Hr' as (Hp & _ & Hpl & _).
  all: cbn [rfs_write_loop]; destruct (Z.eqb_spec len 0) as [->|Hne].
  1, 3: assert (bs = []) as -> by (apply nil_length_inv; unfold msize in *; lia);
    exists c; rewrite Hwr_nil, Z.add_0_r; done.
  - lia.
  - rewrite Er. set (towrite := if n - 29 <? len then n - 29 else len).
    assert (0 < towrite <= len ∧ towrite <= n - 29) as Htw
      by (unfold towrite; destruct (Z.ltb_spec (n - 29) len); lia).
    destruct (mread_split ptr p towrite len bs ltac:(lia) Hr) as [Hr1 Hr2].
    set (b1 := take (Z.to_nat towrite) bs) in *. set (b2 := drop (Z.to_nat towrite) bs) in *.
    assert (bs = b1 ++ b2) as Eb by (symmetry; apply take_drop). rewrite Eb, bytes_ok_app in Hb.
    pose proof (mread_msize _ _ _ _ Hr1) as Hl1.
    destruct (rfsc_write_ok fuel c b n o fd (drop (Z.to_nat p) ptr) b1 (msize b1) (wr o b1)) as (c1 & Hw & Hc1);
      [done|done|rewrite mread_drop by lia; by rewrite Hl1|tauto|lia|apply Hwr|].
    rewrite Hl1 in Hw. rewrite Hw. cbn [mbind option_bind]. rewrite s32_id by lia.
    rewrite (proj2 (Z.eqb_neq towrite (-1))) by lia. rewrite u32_id by lia. rewrite Z.ltb_irrefl.
    rewrite s32_id by lia.
    destruct (IH c1 (wr o b1) (p + towrite) (len - towrite) (total + towrite) b2) as (c2 & Hw2 & Hc2);
      [lia|done|done|tauto|lia|lia|].
    exists c2. rewrite Hw2, Eb, <- Hwr_app. split; [do 2 f_equal; lia|done].
Qed.

(** C26: a write of any length on a remote file: split into requests that fit the buffers, it
    gives the server's system exactly the caller's bytes in order, and returns their number. *)
Theorem rfs_write_r_writes_all fuel c o ptr len bs :
  (0 < fuel)%nat → connected c b n o → mread ptr 0 len = Some bs → bytes_ok bs → len < 2147483648 →
  ∃ c', rfs_write_r RFS_BUFFER_SIZE fuel c fd ptr len = Some (c', len) ∧ connected c' b n (wr o bs).
Proof.
  intros Hfuel Hc Hr Hb Hlt. pose proof (mread_msize _ _ _ _ Hr) as Hl. pose proof (msize_nonneg bs).
  unfold rfs_write_r.
  destruct (rfs_write_loop_ok (Z.to_nat len) fuel c o ptr 0 len 0 bs) as (c' & Hw & Hc'); [done|lia|done..|lia|lia|].
  exists c'. by rewrite Hw.
Qed.
End write.

Section read.
Variable rest : OS → list Z.
Hypothesis Hrd : ∀ o k, 0 <= k → ∃ o', posix_read o (s32 fd) k = (o', msize (take (Z.to_nat k) (rest o)), take (Z.to_nat k) (rest o))
  ∧ rest o' = drop (Z.to_nat k) (rest o).

Lemma rfs_read_loop_ok k fuel c o ptr p len total :
  (0 < fuel)%nat → 0 <= len <= Z.of_nat k → connected c b n o → bytes_ok (rest o) →
  0 <= p → p + len <= msize ptr → 0 <= total → total + len < 2147483648 →
  ∃ c' o' ptr', rfs_read_loop RFS_BUFFER_SIZE k fuel c fd ptr p len total
      = Some (c', ptr', total + msize (take (Z.to_nat len) (rest o))) ∧
    mwrite ptr p (take (Z.to_nat len) (rest o)) = Some ptr' ∧
    connected c' b n o' ∧ rest o' = drop (Z.to_nat len) (rest o).
Proof.
  destruct real_buffer_size as [Er Hn].
  intros Hfuel. revert c o ptr p len total.
  induction k as [|k IH]; intros c o ptr p len total Hk Hc Hb Hp Hpl Ht Hlt.
  all: cbn [rfs_read_loop]; destruct (Z.eqb_spec len 0) as [->|Hne].
  1, 3: exists c, o, ptr; change (Z.to_nat 0) with 0%nat; rewrite take_0, drop_0, msize_nil, Z.add_0_r, mwrite_nil by lia; done.
  - lia.
  - rewrite Er. set (toread := if n - 29 <? len then n - 29 else len).
    assert (0 < toread <= len ∧ toread <= n - 29 ∧ (toread = len ∨ toread = n - 29)) as Htr
      by (unfold toread; destruct (Z.ltb_spec (n - 29) len); lia).
    destruct (Hrd o toread ltac:(lia)) as (o1 & Hp1 & Hrest). set (b1 := take (Z.to_nat toread) (rest o)) in *.
    assert (msize b1 <= toread) as Hb1 by (unfold b1, msize; rewrite length_take; lia). pose proof (msize_nonneg b1).
    assert (bytes_ok b1) as Hok1 by (by apply Forall_take).
    destruct (rfsc_read_ok fuel c b n o fd (drop (Z.to_nat p) ptr) toread b1 o1) as (c1 & buf & Hr & Hc1 & Hbuf);
      [done|done|lia|done|lia|unfold msize in *; rewrite length_drop; lia|done|].
    rewrite Hr. cbn [mbind option_bind]. rewrite (proj2 (Z.eqb_neq (msize b1) (-1))) by lia.
    rewrite s32_id, u32_id by lia. set (ptr1 := take (Z.to_nat p) ptr ++ buf).
    assert (mwrite ptr p b1 = Some ptr1) as Hptr1 by (apply mwrite_in_drop; [lia|done]).
    destruct (Z.ltb_spec (msize b1) toread) as [Hshort|Hfull].
    + assert (b1 = rest o) as Eb1.
      { unfold b1. apply take_ge. unfold b1, msize in Hshort. rewrite length_take in Hshort. lia. }
      exists c1, o1, ptr1. assert (take (Z.to_nat len) (rest o) = rest o) as ->.
      { apply take_ge. rewrite <- Eb1. unfold msize in Hshort. lia. }
      rewrite <- Eb1. split; [done|]. split; [done|]. split; [done|]. rewrite Hrest, <- Eb1.
      rewrite !drop_ge; [done|unfold msize in Hshort; lia..].
    + destruct (IH c1 o1 ptr1 (p + toread) (len - toread) (total + msize b1))
        as (c2 & o2 & ptr2 & Hr2 & Hw2 & Hc2 & Hrest2); [lia|done| |lia| |lia|lia|].
      { rewrite Hrest. by apply Forall_drop. }
      { rewrite (mwrite_msize _ _ _ _ Hptr1). lia. }
      assert (take (Z.to_nat len) (rest o) = b1 ++ take (Z.to_nat (len - toread)) (rest o1)) as Et.
      { unfold b1. rewrite Hrest. replace (Z.to_nat len) with (Z.to_nat toread + Z.to_nat (len - toread))%nat by lia.
        symmetry. apply take_take_drop. }
      exists c2, o2, ptr2. rewrite Et, mwrite_app, Hptr1. cbn [mbind option_bind].
      assert (msize b1 = toread) as Em by lia.
      rewrite Em in Hr2. rewrite msize_app, Em, Hr2, Hw2. split_and!; try done.
      * do 2 f_equal. lia.
      * rewrite Hrest2, Hrest, drop_drop. f_equal. lia.
Qed.

(** A read of any length from a remote file: the caller's object receives the next bytes of
    the file, as many as were asked for or as are left, and nothing else of it changes;
    the result is their number and the file's position advances by it. *)
Theorem rfs_read_r_reads_all fuel c o ptr len :
  (0 < fuel)%nat → connected c b n o → bytes_ok (rest o) → 0 <= len <= msize ptr → len < 2147483648 →
  ∃ c' o' ptr', rfs_read_r RFS_BUFFER_SIZE fuel c fd ptr len
      = Some (c', ptr', msize (take (Z.to_nat len) (rest o))) ∧
    mwrite ptr 0 (take (Z.to_nat len) (rest o)) = Some ptr' ∧
    connected c' b n o' ∧ rest o' = drop (Z.to_nat len) (rest o).
Proof.
  intros Hfuel Hc Hb Hlen Hlt. unfold rfs_read_r.
  destruct (rfs_read_loop_ok (Z.to_nat len) fuel c o ptr 0 len 0) as (c' & o' & ptr' & Hr & H); [done|lia|done..|lia|lia|lia|].
  exists c', o', ptr'. by rewrite Hr.
Qed.
End read.
End transfer.
End link_.

(** ** The theorems at work: a newlib device and a Linux host with one open file

    The file is the bytes before and after its position; only descriptor 3 is open. *)
Abbreviation onefile := (list Z * list Z)%type.

#[export] Instance onefile_posix : Posix onefile := {|
  posix_fcntl := linux;
  posix_open o path flags mode := (o, if caseeq path (txt "/srv/log") then 3 else -1);
  posix_write o fd bs := if fd =? 3 then ((o.1 ++ bs, drop (length bs) o.2), msize bs) else (o, -1);
  posix_read o fd k :=
    let bs := take (Z.to_nat k) o.2 in
    if fd =? 3 then ((o.1 ++ bs, drop (Z.to_nat k) o.2), msize bs, bs) else (o, -1, []);
  posix_close o fd := (o, if fd =? 3 then 0 else -1);
  posix_lseek o fd off whence :=
    if (fd =? 3) && (whence =? 0) && (0 <=? off) then
      let l := o.1 ++ o.2 in ((take (Z.to_nat off) l, drop (Z.to_nat off) l), off) else (o, -1);
  posix_opendir o path := (o, 0);
  posix_readdir o d := (o, None);
  posix_closedir o d := (o, -1)
|}.

Definition onefile_server (o : onefile) : server onefile :=
  Server o (txt "/srv" ++ [0]) (replicate 2049 0) (replicate 96 0).

Definition onefile_client (o : onefile) : client (link onefile) :=
  Client (Link (ready (onefile_server o)) []) (replicate 80 0) 100.

#[export] Instance onefile_transport : RfscTransport (link onefile) := link_transport 0.

Lemma onefile_connected o : connected (onefile_client o) (txt "/srv") 64 o.
Proof.
  exists (onefile_server o). unfold idle, room. cbn [srv_buffer onefile_server rfsc_buffer onefile_client].
  msz. split; [done|]. split; [|split; [done|lia]].
  split; [done|]. split; [done|]. cbn [server_fullname onefile_server]. by rewrite msize_replicate.
Qed.

Theorem rfs_open_end_to_end_witness :
  ∃ c', rfs_open_r (Fc:=newlib) 1 (onefile_client ([], [])) (txt "log" ++ [0]) 0 0 = Some (c', 3)
    ∧ connected c' (txt "/srv") 64 ([], []).
Proof.
  apply (rfs_open_end_to_end 0 (Fc:=newlib) 1 (onefile_client ([], [])) (txt "/srv") 64 ([], [])
    (txt "log" ++ [0]) (txt "log") 0 0 ([], []) 3);
    [lia|apply onefile_connected|done|repeat constructor; done|done|done|done|done].
Defined.

Theorem rfs_close_lseek_end_to_end_witness :
  let o := ([1; 2], [3]) in
  (∃ c', rfs_close_r 1 (onefile_client o) 3 = Some (c', 0) ∧ connected c' (txt "/srv") 64 o) ∧
  (∃ c', rfs_lseek_r (Fc:=newlib) 1 (onefile_client o) 3 1 0 = Some (c', 1) ∧ connected c' (txt "/srv") 64 ([1], [2; 3])).
Proof.
  apply (rfs_close_lseek_end_to_end 0 (Fc:=newlib) 1 (onefile_client ([1; 2], [3])) (txt "/srv") 64 ([1; 2], [3])
    3 1 0 ([1; 2], [3]) 0 ([1], [2; 3]) 1);
    [lia|apply onefile_connected|lia|done|lia|done].
Defined.

(** 100 bytes through packets of 64. *)
Theorem rfs_write_r_writes_all_witness :
  ∃ c', rfs_write_r 6 1 (onefile_client ([9], [])) 3 (seqZ 0 100) 100 = Some (c', 100) ∧
    connected c' (txt "/srv") 64 (9 :: seqZ 0 100, []).
Proof.
  apply (@rfs_write_r_writes_all onefile onefile_posix 0 3 6 (txt "/srv") ltac:(lia) (λ o bs, ((o.1 ++ bs, drop (length bs) o.2) : onefile))
    (λ (o : onefile) bs, eq_refl) (λ o, ltac:(destruct o; cbn; by rewrite app_nil_r))
    (λ o x y, ltac:(destruct o; cbn; by rewrite app_assoc, drop_drop, length_app))
    1 (onefile_client ([9], [])) ([9], []) (seqZ 0 100) 100 (seqZ 0 100));
    [lia|apply onefile_connected|done| |lia].
  apply Forall_seqZ. intros. unfold byte_ok. lia.
Defined.

Theorem rfs_read_r_reads_all_witness :
  ∃ c' o' ptr', rfs_read_r 6 1 (onefile_client ([], seqZ 0 50)) 3 (replicate 100 7) 100 = Some (c', ptr', 50)
    ∧ mwrite (replicate 100 7) 0 (seqZ 0 50) = Some ptr' ∧ connected c' (txt "/srv") 64 o' ∧ o'.2 = [].
Proof.
  apply (@rfs_read_r_reads_all onefile onefile_posix 0 3 6 (txt "/srv") ltac:(lia) snd
    (λ o k _, ex_intro _ (o.1 ++ take (Z.to_nat k) o.2, drop (Z.to_nat k) o.2) (conj eq_refl eq_refl))
    1 (onefile_client ([], seqZ 0 50)) ([], seqZ 0 50) (replicate 100 7) 100);
    [lia|apply onefile_connected| |msz; lia|lia].
  apply Forall_seqZ. intros. unfold byte_ok. lia.
Defined.
