(* ===== verification/RomFs.v ===== *)
(** * The read-only file system (src/romfs.c)

    The image is a byte object read through [romfs_read]; a file descriptor is an
    index of the table of open files. The abstract file system is the list of its files'
    names and contents, encoded as inc/romfs.h documents. *)
From S2P Require Import Prelude.

Definition DM_MAX_FNAME_LENGTH : Z := 30.
Definition ROMFS_MAX_FDS : Z := 4.
Definition FS_FILE_NOT_FOUND : Z := 0.
Definition FS_FILE_OK : Z := 1.
Definition ENOENT : Z := 2.
Definition EINVAL : Z := 22.
Definition ENFILE : Z := 23.
Definition SEEK_SET : Z := 0.
Definition SEEK_CUR : Z := 1.
Definition SEEK_END : Z := 2.

(** [p_read_func] is [true] when the pointer is not null: every file is read with [romfs_read]. *)
Record FS := MkFS { baseaddr : Z; offset : Z; size : Z; p_read_func : bool }.

Definition FS_zero : FS := MkFS 0 0 0 false.

Record romfs := Romfs {
  fd_table : list FS;
  romfs_num_fd : Z;
  romfs_dir_data : Z;
  r_errno : Z
}.

Definition romfs_init_state : romfs := Romfs (replicate 4 FS_zero) 0 0 0.

Definition set_errno (s : romfs) (e : Z) : romfs := Romfs (fd_table s) (romfs_num_fd s) (romfs_dir_data s) e.

Section romfs.
Context (romfiles_fs : mem).

Definition romfs_read (addr : Z) : option Z := ld romfiles_fs addr.

(** The loop from entry [i] on. *)
Fixpoint find_empty_from (i : Z) (t : list FS) : Z :=
  match t with
  | [] => -1
  | f :: t => if negb (p_read_func f) then i else find_empty_from (i + 1) t
  end.

Definition romfs_find_empty_fd (s : romfs) : Z := find_empty_from 0 (fd_table s).

Definition romfs_close_fd (s : romfs) (fd : Z) : option romfs :=
  if decide (0 <= fd < Z.of_nat (length (fd_table s)))
  then Some (Romfs (<[Z.to_nat fd := FS_zero]> (fd_table s)) (romfs_num_fd s) (romfs_dir_data s) (r_errno s))
  else None.

(** "Read file name": up to [n] more bytes at [addr] into [fsname]; the result says whether the
    terminator was found, and the bytes stored. *)
Fixpoint read_name (n : nat) (addr : Z) : option (bool * list Z) :=
  match n with
  | O => Some (false, [])
  | S n =>
      c ← romfs_read addr;
      if c =? 0 then Some (true, [0])
      else '((e, l) : bool * list Z) ← read_name n (u32 (addr + 1)); Some (e, c :: l)
  end.

(** [romfs_open_file] from the entry at [i]; [fuel] bounds the entries looked at. *)
Fixpoint open_file_from (fuel : nat) (fname : mem) (i : Z) : option (Z * FS) :=
  match fuel with
  | O => None
  | S fuel =>
      '((found, fsname) : bool * list Z) ← read_name (Z.to_nat DM_MAX_FNAME_LENGTH) i;
      let j := if found then msize fsname - 1 else msize fsname in
      if found && (j =? 0) then Some (FS_FILE_NOT_FOUND, FS_zero)
      else
        let j := u32 (i + j + 1) in
        lo ← romfs_read j;
        hi ← romfs_read (u32 (j + 1));
        let fsize := u16 (lo + Z.shiftl hi 8) in
        same ← strncaseeq (Z.to_nat DM_MAX_FNAME_LENGTH) fname fsname;
        if (same : bool) then Some (FS_FILE_OK, MkFS (u32 (j + 2)) 0 fsize true)
        else open_file_from fuel fname (u32 (j + 2 + fsize))
  end.

Definition romfs_open_file (fuel : nat) (fname : mem) : option (Z * FS) := open_file_from fuel fname 0.

Definition romfs_open_r (fuel : nat) (s : romfs) (path : mem) (flags mode : Z) : option (romfs * Z) :=
  if romfs_num_fd s =? ROMFS_MAX_FDS then Some (set_errno s ENFILE, -1)
  else
    '(e, tempfs) ← romfs_open_file fuel path;
    if negb (e =? FS_FILE_OK) then Some (set_errno s ENOENT, -1)
    else
      let i := romfs_find_empty_fd s in
      if decide (0 <= i < Z.of_nat (length (fd_table s))) then
        Some (Romfs (<[Z.to_nat i := tempfs]> (fd_table s)) (romfs_num_fd s + 1) (romfs_dir_data s) (r_errno s), i)
      else None.

Definition romfs_close_r (s : romfs) (fd : Z) : option (romfs * Z) :=
  s ← romfs_close_fd s fd;
  Some (Romfs (fd_table s) (romfs_num_fd s - 1) (romfs_dir_data s) (r_errno s), 0).

Definition romfs_write_r (s : romfs) (fd : Z) (ptr : mem) (len : Z) : romfs * Z := (set_errno s EINVAL, -1).

(** The entry of a descriptor, and setting its offset. *)
Definition fd_entry (s : romfs) (fd : Z) : option FS :=
  if decide (0 <= fd) then fd_table s !! Z.to_nat fd else None.

Definition set_offset (s : romfs) (fd off : Z) : romfs :=
  Romfs (alter (λ f, MkFS (baseaddr f) off (size f) (p_read_func f)) (Z.to_nat fd) (fd_table s))
    (romfs_num_fd s) (romfs_dir_data s) (r_errno s).

Definition fsmin (x y : Z) : Z := if x <? y then x else y.

Definition romfs_read_r (s : romfs) (fd : Z) (ptr : mem) (len : Z) : option (romfs * mem * Z) :=
  pfs ← fd_entry s fd;
  let actlen := fsmin len (u32 (size pfs - offset pfs)) in
  bs ← mread romfiles_fs (u32 (offset pfs + baseaddr pfs)) actlen;
  ptr ← mwrite ptr 0 bs;
  Some (set_offset s fd (u32 (offset pfs + actlen)), ptr, actlen).

Definition romfs_lseek_r (s : romfs) (fd off whence : Z) : option (romfs * Z) :=
  pfs ← fd_entry s fd;
  let target :=
    if whence =? SEEK_SET then Some (u32 off)
    else if whence =? SEEK_CUR then Some (u32 (offset pfs + off))
    else if whence =? SEEK_END then Some (u32 (size pfs + off))
    else None in
  match target with
  | None => Some (s, -1)
  | Some newpos =>
      if size pfs <? newpos then Some (s, -1)
      else Some (set_offset s fd newpos, newpos)
  end.

(** [true]: the address of [romfs_dir_data]; [false]: NULL. *)
Definition romfs_opendir_r (s : romfs) (dname : option mem) : option (romfs * bool) :=
  ok ← (match dname with
        | None => Some true
        | Some d => n ← cstr d; Some ((msize n =? 0) || ((msize n =? 1) && bool_decide (n = txt "/")))
        end);
  if (ok : bool) then Some (Romfs (fd_table s) (romfs_num_fd s) 0 (r_errno s), true) else Some (s, false).

Record dirent := Dirent { fsize : Z; fname : mem; ftime : Z }.

(** The copy of the name to [dm_shared_fname], an array of [DM_MAX_FNAME_LENGTH + 1] bytes:
    the array from [j] on, and the address after the terminator. *)
Fixpoint read_fname (n : nat) (off : Z) : option (list Z * Z) :=
  match n with
  | O => None
  | S n =>
      c ← romfs_read off;
      if c =? 0 then Some ([0], u32 (off + 1))
      else '(l, off) ← read_fname n (u32 (off + 1)); Some (c :: l, off)
  end.

Definition romfs_readdir_r (s : romfs) : option (romfs * option dirent) :=
  let off := romfs_dir_data s in
  c ← romfs_read off;
  if c =? 0 then Some (s, None)
  else
    '(name, off) ← read_fname (Z.to_nat DM_MAX_FNAME_LENGTH + 1) off;
    lo ← romfs_read off;
    hi ← romfs_read (u32 (off + 1));
    let fsize := lo + Z.shiftl hi 8 in
    Some (Romfs (fd_table s) (romfs_num_fd s) (u32 (off + 2 + fsize)) (r_errno s), Some (Dirent fsize name 0)).

Definition romfs_closedir_r (s : romfs) : romfs * Z :=
  (Romfs (fd_table s) (romfs_num_fd s) 0 (r_errno s), 0).

(** Reading the directory up to its end. *)
Fixpoint readdir_all (fuel : nat) (s : romfs) : option (romfs * list dirent) :=
  match fuel with
  | O => None
  | S fuel =>
      '(s, d) ← romfs_readdir_r s;
      match d with
      | None => Some (s, [])
      | Some d => '(s, l) ← readdir_all fuel s; Some (s, d :: l)
      end
  end.
End romfs.

(** ** The documented format *)

Record file := File { file_name : list Z; file_data : list Z }.

Definition file_ok (f : file) : Prop :=
  1 <= msize (file_name f) <= DM_MAX_FNAME_LENGTH ∧ Forall (λ c, c ≠ 0) (file_name f)
  ∧ msize (file_data f) < 65536.

Definition enc_file (f : file) : list Z := file_name f ++ [0] ++ le16 (msize (file_data f)) ++ file_data f.

Definition enc_files (fs : list file) : list Z := concat (enc_file <$> fs).

(** An image: the files, an empty name, and whatever follows. *)
Definition image (fs : list file) (rest : list Z) : mem := enc_files fs ++ 0 :: rest.

(** ** The abstract file system

    The first file whose name is the path's, ignoring case and the path's bytes after the
    longest name; the descriptors with the contents and the position of each open file. *)
Definition name_matches (p : list Z) (f : file) : bool := caseeq (take (Z.to_nat DM_MAX_FNAME_LENGTH) p) (file_name f).

Definition lookup_file (fs : list file) (p : list Z) : option file := snd <$> list_find (λ f, name_matches p f) fs.

Abbreviation open_files := (list (option (list Z * Z))).

Fixpoint first_free (t : open_files) : option nat :=
  match t with
  | [] => None
  | None :: _ => Some 0%nat
  | Some _ :: t => S <$> first_free t
  end.

Fixpoint used (t : open_files) : Z :=
  match t with [] => 0 | None :: t => used t | Some _ :: t => 1 + used t end.

Lemma used_bounds t : 0 <= used t <= Z.of_nat (length t).
Proof. induction t as [|[]]; cbn [used length]; lia. Qed.

Lemma first_free_full t : first_free t = None ↔ used t = Z.of_nat (length t).
Proof.
  induction t as [|[] t IH]; cbn [first_free used length]; [done| |].
  - rewrite fmap_None, IH. lia.
  - pose proof (used_bounds t). split; [done|lia].
Qed.

Lemma first_free_Some t i : first_free t = Some i → t !! i = Some None ∧ (i < length t)%nat.
Proof.
  revert i. induction t as [|[] t IH]; intros i; cbn [first_free length]; [done| |].
  - rewrite fmap_Some. intros (j & Hj & ->). destruct (IH j Hj). split; [done|lia].
  - intros. simplify_eq. split; [done|lia].
Qed.

Lemma used_insert t i x : t !! i = Some None → used (<[i := Some x]> t) = used t + 1.
Proof.
  revert i. induction t as [|o t IH]; intros [|i] H; simplify_eq/=; [lia|].
  destruct o; cbn [used]; rewrite IH by done; lia.
Qed.

Lemma used_delete t i x : t !! i = Some (Some x) → used (<[i := None]> t) = used t - 1.
Proof.
  revert i. induction t as [|o t IH]; intros [|i] H; simplify_eq/=; [lia|].
  destruct o; cbn [used]; rewrite IH by done; lia.
Qed.

Lemma used_alter t i x y : t !! i = Some (Some x) → used (<[i := Some y]> t) = used t.
Proof.
  revert i. induction t as [|o t IH]; intros [|i] H; simplify_eq/=; [lia|].
  destruct o; cbn [used]; rewrite IH by done; lia.
Qed.

Section correct.
Context (img : mem).
Hypothesis Himg : msize img < 4294967296.

(** A table entry for the file with these contents, at this position. *)
Definition entry_is (e : FS) (o : option (list Z * Z)) : Prop :=
  match o with
  | None => p_read_func e = false
  | Some (data, pos) =>
      p_read_func e = true ∧ bytes_at img (baseaddr e) data ∧ size e = msize data ∧ msize data < 65536
      ∧ offset e = pos ∧ 0 <= pos <= msize data
  end.

Definition romfs_rep (s : romfs) (t : open_files) : Prop :=
  Forall2 entry_is (fd_table s) t ∧ length t = 4%nat ∧ romfs_num_fd s = used t.

Lemma romfs_init_rep : romfs_rep romfs_init_state (replicate 4 None).
Proof. split; [repeat constructor|done]. Qed.

Lemma find_empty_spec l t k :
  Forall2 entry_is l t →
  find_empty_from k l = match first_free t with Some i => k + Z.of_nat i | None => -1 end.
Proof.
  intros H. revert k. induction H as [|e o l t He _ IH]; intros k; cbn [find_empty_from first_free]; [done|].
  destruct o as [[d p]|]; cbn in He.
  - destruct He as [-> _]. cbn [negb]. rewrite IH. destruct (first_free t); cbn; lia.
  - rewrite He. cbn. lia.
Qed.

(** Addresses inside the image do not wrap. *)
Lemma read_in (a : mem) x b p :
  img = a ++ x :: b → p = msize a → romfs_read img p = Some x ∧ u32 (p + 1) = p + 1 ∧ 0 <= p.
Proof.
  intros E ->. pose proof (msize_nonneg a). pose proof (msize_nonneg b).
  assert (msize img = msize a + 1 + msize b) by (rewrite E; msz; lia).
  unfold romfs_read. rewrite E, ld_app_r, Z.sub_diag by lia. split; [done|]. split; [|lia].
  destruct (decide (msize a + 1 = msize img)); rewrite u32_id; lia.
Qed.

Lemma read_name_spec name rest a n p :
  img = a ++ name ++ 0 :: rest → Forall (λ c, c ≠ 0) name → p = msize a → (length name <= n)%nat →
  read_name img n p = Some (if decide (length name < n)%nat then (true, name ++ [0]) else (false, name)).
Proof.
  revert a n p. induction name as [|c name IH]; intros a n p E Hnz Hp Hn.
  - destruct n as [|n]; [by rewrite decide_False by (cbn; lia)|]. rewrite decide_True by (cbn; lia).
    destruct (read_in a 0 rest p E Hp) as [Hr _]. cbn [read_name]. by rewrite Hr.
  - apply Forall_cons in Hnz as [Hc Hnz]. cbn [length] in *. destruct n as [|n]; [lia|].
    destruct (read_in a c (name ++ 0 :: rest) p E Hp) as (Hr & Hu & _). cbn [read_name]. rewrite Hr.
    cbn [mbind option_bind]. rewrite (proj2 (Z.eqb_neq c 0)) by done. rewrite Hu.
    rewrite (IH (a ++ [c]) n (p + 1)); [|by rewrite E, <- app_assoc|done|msz; lia|lia].
    destruct (decide (length name < n)%nat); [rewrite decide_True by lia|rewrite decide_False by lia]; done.
Qed.

Lemma lookup_file_cons f fs p :
  lookup_file (f :: fs) p = if name_matches p f then Some f else lookup_file fs p.
Proof.
  unfold lookup_file. cbn. destruct (name_matches p f); cbn; [done|].
  by destruct (list_find _ fs) as [[? ?]|].
Qed.

Lemma le16_size n : 0 <= n < 65536 → u16 (Z.land n 255 + Z.shiftl (Z.land (Z.shiftr n 8) 255) 8) = n
  ∧ Z.land n 255 + Z.shiftl (Z.land (Z.shiftr n 8) 255) 8 = n.
Proof.
  intros Hn. pose proof (of_le16_le16 n) as H. rewrite of_le16_add in H by apply byte_at_ok.
  rewrite Z.shiftl_mul_pow2 by lia. change (2 ^ 8) with 256. rewrite (u16_id n) in H by done.
  rewrite H. split; [by apply u16_id|done].
Qed.

(** The addresses of an entry after its name. *)
Lemma entry_reads (a : mem) f post :
  file_ok f → img = a ++ enc_file f ++ post →
  let j := msize a + msize (file_name f) + 1 in
  let n := msize (file_data f) in
  romfs_read img j = Some (Z.land n 255) ∧ romfs_read img (u32 (j + 1)) = Some (Z.land (Z.shiftr n 8) 255)
  ∧ u32 j = j ∧ u32 (j + 2) = j + 2 ∧ bytes_at img (j + 2) (file_data f)
  ∧ (post ≠ [] → u32 (j + 2 + n) = msize (a ++ enc_file f)).
Proof.
  intros Hf E j n. unfold enc_file, le16 in E. pose proof (msize_nonneg a). pose proof (msize_nonneg (file_name f)).
  pose proof (msize_nonneg (file_data f)). pose proof (msize_nonneg post).
  assert (msize img = j + 2 + n + msize post) as Hsz by (rewrite E; subst j n; msz; lia).
  destruct (read_in ((a ++ file_name f ++ [0])) (Z.land n 255) ([Z.land (Z.shiftr n 8) 255] ++ file_data f ++ post) j)
    as (R1 & R2 & _); [rewrite E, <- !app_assoc; done|subst j; msz; lia|].
  destruct (read_in ((a ++ file_name f ++ [0; Z.land n 255])) (Z.land (Z.shiftr n 8) 255) (file_data f ++ post) (j + 1))
    as (R3 & _ & _); [rewrite E, <- !app_assoc; done|subst j; msz; lia|].
  rewrite R2, u32_id by lia. split; [done|]. split; [done|]. split; [done|].
  split; [apply u32_id; lia|]. split.
  - replace (j + 2) with (msize (a ++ file_name f ++ [0] ++ le16 n)) by (subst j; unfold le16; msz; lia).
    apply (bytes_at_prefix _ _ _ post). rewrite E, <- !app_assoc. done.
  - intros Hpost. assert (0 < msize post) by (destruct post; [done|msz; pose proof (msize_nonneg post); lia]).
    rewrite u32_id by lia. unfold enc_file, le16. msz. lia.
Qed.

Lemma file_entry_app (a : mem) f fs rest :
  a ++ image (f :: fs) rest = (a ++ enc_file f) ++ image fs rest.
Proof. unfold image, enc_files. cbn. by rewrite <- !app_assoc. Qed.

Lemma open_file_spec fuel fs a rest path p :
  img = a ++ image fs rest → Forall file_ok fs → cstr path = Some p → (length fs < fuel)%nat →
  match lookup_file fs p with
  | None => open_file_from img fuel path (msize a) = Some (FS_FILE_NOT_FOUND, FS_zero)
  | Some f => ∃ b, open_file_from img fuel path (msize a) = Some (FS_FILE_OK, MkFS b 0 (msize (file_data f)) true)
      ∧ bytes_at img b (file_data f) ∧ msize (file_data f) < 65536
  end.
Proof.
  intros E Hfs Hp. destruct (cstr_inv _ _ Hp) as [Hpnz [rp ->]]. clear Hp. revert a fuel E.
  induction Hfs as [|f fs Hf _ IH]; intros a fuel E Hfuel; cbn [length] in Hfuel; (destruct fuel as [|fuel]; [lia|]).
  - cbn [open_file_from lookup_file list_find fmap option_fmap option_map].
    rewrite (read_name_spec [] rest a _ (msize a)); [done|exact E|done|done|cbn; lia].
  - rewrite lookup_file_cons. rewrite file_entry_app in E. pose proof Hf as ([Hl1 Hl2] & Hnz & Hd).
    destruct (entry_reads a f (image fs rest) Hf) as (H1 & H2 & H3 & H4 & H5 & H6); [by rewrite app_assoc|].
    pose proof (msize_nonneg a). pose proof (msize_nonneg (file_data f)). unfold DM_MAX_FNAME_LENGTH in *.
    cbn [open_file_from]. unfold DM_MAX_FNAME_LENGTH. change (Z.to_nat 30) with 30%nat.
    rewrite (read_name_spec (file_name f) (le16 (msize (file_data f)) ++ file_data f ++ image fs rest) a _ (msize a));
      [|by rewrite E; unfold enc_file; rewrite <- !app_assoc|done|done|unfold msize in Hl2; lia].
    assert ((length (file_name f) < 30)%nat ∨ length (file_name f) = 30%nat) as Hlen by (unfold msize in Hl2; lia).
    set (rd := if decide (length (file_name f) < 30)%nat then (true, file_name f ++ [0]) else (false, file_name f)).
    assert (∃ found rb, rd = (found, file_name f ++ rb) ∧ (if found then msize (file_name f ++ rb) - 1 else msize (file_name f ++ rb)) = msize (file_name f)
      ∧ ((length (file_name f) < 30)%nat → rb = [0])) as (found & rb & -> & Hj & Hrb).
    { unfold rd. destruct (decide _); [exists true, [0]|exists false, []]; rewrite ?app_nil_r; split; try done; msz; split; try done; lia. }
    cbn [mbind option_bind]. rewrite Hj, (proj2 (Z.eqb_neq _ 0)), andb_false_r by lia.
    rewrite H3, H1. cbn [mbind option_bind]. rewrite H2. cbn [mbind option_bind].
    destruct (le16_size (msize (file_data f)) ltac:(lia)) as [-> _].
    rewrite (strncaseeq_spec 30 p rp (file_name f) rb); [|done|done|unfold msize in Hl2; lia|done].
    cbn [mbind option_bind]. unfold name_matches, DM_MAX_FNAME_LENGTH. change (Z.to_nat 30) with 30%nat.
    destruct (caseeq (take 30 p) (file_name f)).
    + rewrite H4. eauto.
    + rewrite H6 by (unfold image; intros X; by apply app_eq_nil in X as [_ X]). apply IH; [done|lia].
Qed.

(** Changing one descriptor, concretely and abstractly. *)
Lemma rep_insert s t i e o n dir err :
  romfs_rep s t → entry_is e o → n = used (<[i := o]> t) →
  romfs_rep (Romfs (<[i := e]> (fd_table s)) n dir err) (<[i := o]> t).
Proof.
  intros (H1 & H2 & _) He ->. split; [by apply Forall2_insert|]. by rewrite length_insert.
Qed.

Lemma rep_lookup s t fd data pos :
  romfs_rep s t → 0 <= fd → t !! Z.to_nat fd = Some (Some (data, pos)) →
  ∃ e, fd_entry s fd = Some e ∧ fd_table s !! Z.to_nat fd = Some e ∧ entry_is e (Some (data, pos)) ∧ fd < Z.of_nat (length (fd_table s)).
Proof.
  intros (H1 & H2 & H3) Hfd Ht. destruct (Forall2_lookup_r _ _ _ _ _ H1 Ht) as (e & He & Hi).
  exists e. unfold fd_entry. rewrite decide_True by done. split; [done|]. split; [done|]. split; [done|].
  apply lookup_lt_Some in He. lia.
Qed.

Lemma set_offset_rep s t fd e data pos pos' :
  romfs_rep s t → 0 <= fd → t !! Z.to_nat fd = Some (Some (data, pos)) →
  fd_table s !! Z.to_nat fd = Some e → entry_is e (Some (data, pos)) → 0 <= pos' <= msize data →
  romfs_rep (set_offset s fd pos') (<[Z.to_nat fd := Some (data, pos')]> t).
Proof.
  intros Hr Hfd Ht He (E1 & E2 & E3 & E4 & E5 & E6) Hp. unfold set_offset.
  rewrite (list_alter_ext _ (λ _, MkFS (baseaddr e) pos' (size e) (p_read_func e)) _ (fd_table s) (Z.to_nat fd)), <- list_insert_alter;
    [|intros; by simplify_eq|done]. apply (rep_insert s t); [done| |].
  - cbn. done.
  - destruct Hr as (_ & _ & ->). symmetry. by eapply used_alter.
Qed.

(** C29: opening a file of a documented image: ENFILE when all descriptors are in use, else ENOENT when
    no file has the path's name, else the first such file is opened at its start
    on a descriptor that was free, and the other descriptors keep their files. *)
Theorem romfs_open_finds fuel fs rest s t path p flags mode :
  img = image fs rest → Forall file_ok fs → (length fs < fuel)%nat → romfs_rep s t → cstr path = Some p →
  ∃ s' r, romfs_open_r img fuel s path flags mode = Some (s', r) ∧
    match first_free t, lookup_file fs p with
    | None, _ => r = -1 ∧ r_errno s' = ENFILE ∧ romfs_rep s' t
    | Some _, None => r = -1 ∧ r_errno s' = ENOENT ∧ romfs_rep s' t
    | Some i, Some f => r = Z.of_nat i ∧ t !! i = Some None ∧ romfs_rep s' (<[i := Some (file_data f, 0)]> t)
    end.
Proof.
  intros E Hfs Hfuel Hr Hp. pose proof Hr as (H1 & H2 & H3). unfold romfs_open_r, ROMFS_MAX_FDS. rewrite H3.
  pose proof (first_free_full t) as Hff. rewrite H2 in Hff. change (Z.of_nat 4) with 4 in Hff.
  destruct (Z.eqb_spec (used t) 4) as [Eu|Eu].
  - apply Hff in Eu as ->. eexists _, _. split; [done|]. done.
  - destruct (first_free t) as [i|] eqn:Ei; [|destruct Eu; by apply Hff].
    unfold romfs_open_file. pose proof (open_file_spec fuel fs [] rest path p E Hfs Hp Hfuel) as Ho.
    change (msize []) with 0 in Ho. destruct (lookup_file fs p) as [f|].
    + destruct Ho as (b & -> & Hb & Hsz). cbn [mbind option_bind].
      change (negb (FS_FILE_OK =? FS_FILE_OK)) with false. cbv iota.
      unfold romfs_find_empty_fd. rewrite (find_empty_spec _ _ 0 H1), Ei.
      destruct (first_free_Some t i Ei) as [Hti Hil]. rewrite (Forall2_length _ _ _ H1).
      rewrite decide_True by lia. eexists _, _. split; [done|]. rewrite Z.add_0_l, Nat2Z.id. split; [done|].
      split; [done|]. apply (rep_insert s t); [done| |by rewrite used_insert].
      cbn. pose proof (msize_nonneg (file_data f)). split_and!; try done.
    + rewrite Ho. cbn [mbind option_bind]. eexists _, _. split; [done|]. done.
Qed.

(** The end of [romfs_lseek_r]. *)
Lemma lseek_move s t fd e data pos x y :
  romfs_rep s t → 0 <= fd → t !! Z.to_nat fd = Some (Some (data, pos)) →
  fd_table s !! Z.to_nat fd = Some e → entry_is e (Some (data, pos)) →
  -2147483648 <= x < 2147483648 + 65536 → y = x →
  let r := if size e <? u32 y then Some (s, -1) else Some (set_offset s fd (u32 y), u32 y) in
  if (0 <=? x) && (x <=? msize data)
  then ∃ s', r = Some (s', x) ∧ romfs_rep s' (<[Z.to_nat fd := Some (data, x)]> t)
  else r = Some (s, -1).
Proof.
  intros Hr Hfd Ht He Hi Hx -> r. pose proof Hi as (E1 & E2 & E3 & E4 & E5 & E6). subst r. rewrite E3.
  destruct (Z.leb_spec 0 x), (Z.leb_spec x (msize data)); cbn [andb].
  - rewrite u32_id by lia. rewrite (proj2 (Z.ltb_ge _ _)) by lia. eexists. split; [done|].
    by apply (set_offset_rep s t fd e data pos).
  - rewrite (proj2 (Z.ltb_lt _ _)); [done|]. rewrite u32_id; lia.
  - rewrite (proj2 (Z.ltb_lt _ _)); [done|]. zlia.
  - lia.
Qed.

(** An open file: reading gives the next bytes, as many as are asked for or left, and advances
    the position; seeking moves to the position asked for when it is inside the file and
    answers -1 without effect otherwise; closing frees the descriptor. *)
Theorem romfs_file_operations s t fd data pos :
  romfs_rep s t → 0 <= fd → t !! Z.to_nat fd = Some (Some (data, pos)) →
  (∀ ptr len, let n := Z.min len (msize data - pos) in
     0 <= len < 4294967296 → n <= msize ptr →
     ∃ s' ptr', romfs_read_r img s fd ptr len = Some (s', ptr', n) ∧
       mwrite ptr 0 (take (Z.to_nat n) (drop (Z.to_nat pos) data)) = Some ptr' ∧
       romfs_rep s' (<[Z.to_nat fd := Some (data, pos + n)]> t)) ∧
  (∀ off whence, -2147483648 <= off < 2147483648 →
     let target := off + (if whence =? SEEK_CUR then pos else if whence =? SEEK_END then msize data else 0) in
     if (0 <=? whence) && (whence <=? 2) && ((0 <=? target) && (target <=? msize data))
     then ∃ s', romfs_lseek_r s fd off whence = Some (s', target) ∧
            romfs_rep s' (<[Z.to_nat fd := Some (data, target)]> t)
     else romfs_lseek_r s fd off whence = Some (s, -1)) ∧
  (∃ s', romfs_close_r s fd = Some (s', 0) ∧ romfs_rep s' (<[Z.to_nat fd := None]> t)).
Proof.
  intros Hr Hfd Ht. destruct (rep_lookup _ _ _ _ _ Hr Hfd Ht) as (e & He & Hl & Hi & Hlt).
  pose proof Hi as (E1 & E2 & E3 & E4 & E5 & E6). pose proof (msize_nonneg data). split; [|split].
  - intros ptr len n Hlen Hptr. unfold romfs_read_r. rewrite He. cbn [mbind option_bind].
    rewrite E3, E5, (u32_id (msize data - pos)) by lia.
    assert (fsmin len (msize data - pos) = n) as -> by (unfold fsmin; destruct (Z.ltb_spec len (msize data - pos)); lia).
    pose proof E2 as E2'. unfold bytes_at in E2'. rewrite mread_spec in E2'. destruct E2' as (B1 & _ & B2 & _).
    destruct (mread_split img (baseaddr e) pos (msize data) data ltac:(lia) E2) as [_ Hd].
    destruct (mread_split img (baseaddr e + pos) n (msize data - pos) _ ltac:(lia) Hd) as [Hd1 _].
    rewrite (u32_id (pos + baseaddr e)) by lia. replace (pos + baseaddr e) with (baseaddr e + pos) by lia. rewrite Hd1.
    cbn [mbind option_bind]. pose proof (mread_msize _ _ _ _ Hd1) as Hsz.
    destruct (mwrite_is_Some ptr 0 (take (Z.to_nat n) (drop (Z.to_nat pos) data))) as [ptr' Hptr']; [lia|lia|].
    rewrite Hptr'. cbn [mbind option_bind]. eexists _, _. split; [done|]. split; [done|].
    rewrite u32_id by lia. apply (set_offset_rep s t fd e data pos); try done; lia.
  - intros off whence Hoff. unfold romfs_lseek_r. rewrite He. cbn [mbind option_bind].
    rewrite E5. unfold SEEK_SET, SEEK_CUR, SEEK_END.
    destruct (Z.eqb_spec whence 0) as [->|N0]; [|destruct (Z.eqb_spec whence 1) as [->|N1]; [|destruct (Z.eqb_spec whence 2) as [->|N2]]].
    4: { assert ((0 <=? whence) && (whence <=? 2) = false) as ->; [|done].
      destruct (Z.leb_spec 0 whence), (Z.leb_spec whence 2); [lia|done..]. }
    + apply (lseek_move s t fd e data pos (off + 0)); try done; lia.
    + apply (lseek_move s t fd e data pos (off + pos)); try done; lia.
    + apply (lseek_move s t fd e data pos (off + msize data)); try done; lia.
  - unfold romfs_close_r, romfs_close_fd. rewrite decide_True by lia. cbn [mbind option_bind].
    eexists. split; [done|]. apply (rep_insert s t); [done|done|]. cbn [romfs_num_fd].
    destruct Hr as (_ & _ & ->). symmetry. by eapply used_delete.
Qed.

Lemma read_fname_spec name rest a n p :
  img = a ++ name ++ 0 :: rest → rest ≠ [] → Forall (λ c, c ≠ 0) name → p = msize a → (length name < n)%nat →
  read_fname img n p = Some (name ++ [0], p + msize name + 1).
Proof.
  intros E Hrest. revert a n p E. induction name as [|c name IH]; intros a n p E Hnz Hp Hn; destruct n as [|n]; cbn [length] in *; try lia.
  - destruct (read_in a 0 rest p E Hp) as (Hr & Hu & _). cbn [read_fname]. rewrite Hr. cbn [mbind option_bind].
    change (0 =? 0) with true. cbv iota. rewrite Hu. msz. do 2 f_equal. lia.
  - apply Forall_cons in Hnz as [Hc Hnz].
    destruct (read_in a c (name ++ 0 :: rest) p E Hp) as (Hr & Hu & _). cbn [read_fname]. rewrite Hr.
    cbn [mbind option_bind]. rewrite (proj2 (Z.eqb_neq c 0)) by done. rewrite Hu.
    rewrite (IH (a ++ [c]) n (p + 1)); [|by rewrite E, <- app_assoc|done|msz; lia|lia].
    cbn [mbind option_bind app]. msz. do 2 f_equal. lia.
Qed.

Definition dirent_of (f : file) : dirent := Dirent (msize (file_data f)) (file_name f ++ [0]) 0.

Lemma readdir_all_spec fs rest a s :
  img = a ++ image fs rest → Forall file_ok fs → romfs_dir_data s = msize a →
  ∃ d, readdir_all img (S (length fs)) s
    = Some (Romfs (fd_table s) (romfs_num_fd s) d (r_errno s), dirent_of <$> fs).
Proof.
  intros E Hfs. revert a s E. induction Hfs as [|f fs Hf _ IH]; intros a s E Hd.
  - destruct (read_in a 0 rest (msize a) E eq_refl) as (Hr & _ & _).
    cbn [length readdir_all]. unfold romfs_readdir_r. rewrite Hd, Hr. exists (romfs_dir_data s).
    cbn. by destruct s.
  - rewrite file_entry_app in E. pose proof Hf as ([Hl1 Hl2] & Hnz & Hdt).
    assert (image fs rest ≠ []) as Hpost by (unfold image; intros X; by apply app_eq_nil in X as [_ X]).
    destruct (entry_reads a f (image fs rest) Hf) as (H1 & H2 & H3 & H4 & H5 & H6); [by rewrite app_assoc|].
    pose proof (msize_nonneg (file_data f)). unfold DM_MAX_FNAME_LENGTH in *.
    cbn [length]. remember (S (length fs)) as k. cbn [readdir_all]. unfold romfs_readdir_r. rewrite Hd.
    destruct (file_name f) as [|c name] eqn:En; [done|]. apply Forall_cons_1 in Hnz as Hc. destruct Hc as [Hc _].
    destruct (read_in a c (name ++ 0 :: le16 (msize (file_data f)) ++ file_data f ++ image fs rest) (msize a)) as (Hr & _ & _);
      [rewrite E; unfold enc_file; rewrite En, <- !app_assoc; done|done|].
    rewrite Hr. cbn [mbind option_bind]. rewrite (proj2 (Z.eqb_neq c 0)) by done.
    change (Z.to_nat DM_MAX_FNAME_LENGTH + 1)%nat with 31%nat.
    rewrite (read_fname_spec (c :: name) (le16 (msize (file_data f)) ++ file_data f ++ image fs rest) a 31 (msize a));
      [|by rewrite E; unfold enc_file; rewrite En, <- !app_assoc|done|done|done|unfold msize in Hl2; cbn [length] in *; lia].
    cbn [mbind option_bind]. rewrite H1. cbn [mbind option_bind]. rewrite H2. cbn [mbind option_bind].
    destruct (le16_size (msize (file_data f)) ltac:(lia)) as [_ ->]. rewrite H6 by done.
    destruct (IH (a ++ enc_file f) (Romfs (fd_table s) (romfs_num_fd s) (msize (a ++ enc_file f)) (r_errno s)) E eq_refl) as [d Hall].
    exists d. rewrite Hall. cbn [mbind option_bind]. rewrite fmap_cons.
    assert (dirent_of f = Dirent (msize (file_data f)) ((c :: name) ++ [0]) 0) as -> by (unfold dirent_of; by rewrite En). done.
Qed.

(** Opening the directory (no name, an empty name or a slash) and reading it to its end lists every file
    of the image, in order, with its name and its size. *)
Theorem romfs_dir_lists_files fs rest s dname :
  img = image fs rest → Forall file_ok fs →
  match dname with None => True | Some d => cstr d = Some [] ∨ cstr d = Some (txt "/") end →
  ∃ s0 s1, romfs_opendir_r s dname = Some (s0, true) ∧
    readdir_all img (S (length fs)) s0 = Some (s1, dirent_of <$> fs) ∧
    fd_table s1 = fd_table s ∧ romfs_num_fd s1 = romfs_num_fd s.
Proof.
  intros E Hfs Hd. set (s0 := Romfs (fd_table s) (romfs_num_fd s) 0 (r_errno s)).
  destruct (readdir_all_spec fs rest [] s0 E Hfs eq_refl) as [d Hall].
  exists s0, (Romfs (fd_table s) (romfs_num_fd s) d (r_errno s)). split; [|done].
  unfold romfs_opendir_r. destruct dname as [dn|]; [|done]. by destruct Hd as [-> | ->].
Qed.
End correct.

(** ** The theorems at work: two files *)

Definition demo_files : list file := [File (txt "a.lua") (txt "print(1)"); File (txt "B.txt") (txt "hello")].

Definition demo_image : mem := image demo_files [].

Lemma demo_files_ok : Forall file_ok demo_files.
Proof. repeat constructor; done. Qed.

Lemma demo_image_size : msize demo_image < 4294967296.
Proof. done. Qed.

(** The state after opening "b.TXT". *)
Definition demo_opened : romfs :=
  Romfs [MkFS 24 0 5 true; FS_zero; FS_zero; FS_zero] 1 0 0.

Lemma demo_opened_rep : romfs_rep demo_image demo_opened [Some (txt "hello", 0); None; None; None].
Proof. split; [repeat constructor; vm_compute; congruence|done]. Qed.

Theorem romfs_open_finds_witness :
  ∃ s' r, romfs_open_r demo_image 3 romfs_init_state (txt "b.TXT" ++ [0]) 0 0 = Some (s', r) ∧
    r = 0 ∧ romfs_rep demo_image s' [Some (txt "hello", 0); None; None; None].
Proof.
  destruct (romfs_open_finds demo_image demo_image_size 3 demo_files [] romfs_init_state (replicate 4 None)
    (txt "b.TXT" ++ [0]) (txt "b.TXT") 0 0 eq_refl demo_files_ok ltac:(cbn; lia) (romfs_init_rep demo_image) eq_refl)
    as (s' & r & H & Hr & _ & Hrep).
  exists s', r. split; [exact H|]. split; [exact Hr|exact Hrep].
Defined.

Theorem romfs_file_operations_witness :
  let img := demo_image in
  (∃ s' ptr', romfs_read_r img demo_opened 0 (replicate 8 7) 3 = Some (s', ptr', 3) ∧
     mwrite (replicate 8 7) 0 (txt "hel") = Some ptr' ∧ romfs_rep img s' [Some (txt "hello", 3); None; None; None]) ∧
  romfs_lseek_r demo_opened 0 6 0 = Some (demo_opened, -1) ∧
  (∃ s', romfs_close_r demo_opened 0 = Some (s', 0) ∧ romfs_rep img s' [None; None; None; None]).
Proof.
  destruct (romfs_file_operations demo_image demo_image_size demo_opened [Some (txt "hello", 0); None; None; None] 0 (txt "hello") 0
    demo_opened_rep ltac:(lia) eq_refl) as (Hr & Hs & Hc).
  split; [exact (Hr (replicate 8 7) 3 ltac:(lia) ltac:(vm_compute; congruence))|]. split; [exact (Hs 6 0 ltac:(lia))|exact Hc].
Defined.

Theorem romfs_dir_lists_files_witness :
  ∃ s0 s1, romfs_opendir_r demo_opened (Some (txt "/" ++ [0])) = Some (s0, true) ∧
    readdir_all demo_image 3 s0 = Some (s1, [Dirent 8 (txt "a.lua" ++ [0]) 0; Dirent 5 (txt "B.txt" ++ [0]) 0]) ∧
    fd_table s1 = fd_table demo_opened ∧ romfs_num_fd s1 = 1.
Proof.
  exact (romfs_dir_lists_files demo_image demo_image_size demo_files [] demo_opened (Some (txt "/" ++ [0])) eq_refl demo_files_ok
    (or_intror eq_refl)).
Defined.
