(* ===== verification/Devman.v ===== *)
(** * The device manager and the C library's system calls (src/newlib/devman.c, src/newlib/stubs.c)

    Devices are records of optional functions on a world [W] that holds their states and the
    C library's [errno]; a function of a device is undefined ([None]) where the device's code is. *)
From S2P Require Import Prelude RomFs.

Definition DM_MAX_DEVICES : Z := 16.
Definition DM_MAX_DEVICES_BITS : Z := 4.
Definition DM_MAX_DEV_NAME : Z := 12.

Definition DM_MAKE_DESC (devid fd : Z) : Z := Z.lor (Z.shiftl devid (15 - DM_MAX_DEVICES_BITS)) fd.
Definition DM_GET_DEVID (desc : Z) : Z := Z.shiftr desc (15 - DM_MAX_DEVICES_BITS).
Definition DM_GET_FD (desc : Z) : Z := Z.land desc (Z.shiftl 1 (15 - DM_MAX_DEVICES_BITS) - 1).

Definition DM_STDIN_NUM : Z := 0.
Definition DM_STDOUT_NUM : Z := 1.
Definition DM_STDERR_NUM : Z := 2.

Definition DM_ERR_ALREADY_REGISTERED : Z := -1.
Definition DM_ERR_NOT_REGISTERED : Z := -2.
Definition DM_ERR_NO_SPACE : Z := -3.
Definition DM_ERR_INVALID_NAME : Z := -4.
Definition DM_ERR_NO_DEVICE : Z := -5.
Definition DM_OK : Z := 0.

Definition EBADF : Z := 9.
Definition ENOMEM : Z := 12.
Definition ENODEV : Z := 19.
Definition ENOSYS : Z := 88.

Definition S_IFCHR : Z := 8192.

(** [strcasecmp( a, b ) == 0] *)
Definition strcaseeq (a b : mem) : option bool := x ← cstr a; y ← cstr b; Some (caseeq x y).

Section devman.
Context {W : Type} (set_errno : W → Z → W).

(** A directory's user data and a directory entry are pointers, 0 when null; [p_fstat_r] also
    gives the file's mode. *)
Record DM_DEVICE := MkDevice {
  name : mem;
  p_open_r : option (W → mem → Z → Z → option (W * Z));
  p_close_r : option (W → Z → option (W * Z));
  p_write_r : option (W → Z → mem → Z → option (W * Z));
  p_read_r : option (W → Z → mem → Z → option (W * mem * Z));
  p_lseek_r : option (W → Z → Z → Z → option (W * Z));
  p_fstat_r : option (W → Z → option (W * Z * Z));
  p_opendir_r : option (W → mem → option (W * Z));
  p_readdir_r : option (W → Z → option (W * Z));
  p_closedir_r : option (W → Z → option (W * Z))
}.

Record dm_state := DmState { dm_list : list (option DM_DEVICE); dm_num_devs : Z; world : W }.

Definition set_world (s : dm_state) (w : W) : dm_state := DmState (dm_list s) (dm_num_devs s) w.

Definition fail (s : dm_state) (e : Z) : dm_state := set_world s (set_errno (world s) e).

(** [dm_list[ i ]], not null. *)
Definition dev_at (s : dm_state) (i : Z) : option DM_DEVICE :=
  if decide (0 <= i) then mjoin (dm_list s !! Z.to_nat i) else None.

(** *** devman.c *)

(** The search loops: the first device from [i] on with this name, [dm_num_devs] when there is none. *)
Fixpoint find_name (n : nat) (s : dm_state) (nm : mem) (i : Z) : option Z :=
  match n with
  | O => Some i
  | S n =>
      d ← dev_at s i;
      same ← strcaseeq nm (name d);
      if (same : bool) then Some i else find_name n s nm (i + 1)
  end.

Definition dm_find (s : dm_state) (nm : mem) : option Z := find_name (Z.to_nat (dm_num_devs s)) s nm 0.

Definition dm_register (s : dm_state) (pdev : option DM_DEVICE) : option (dm_state * Z) :=
  match pdev with
  | None => Some (s, DM_ERR_INVALID_NAME)
  | Some d =>
      c ← head (name d);
      n ← (if negb (c =? 47) then Some 0 else strlen (name d));
      if negb (c =? 47) || (DM_MAX_DEV_NAME <? n) then Some (s, DM_ERR_INVALID_NAME)
      else
        i ← dm_find s (name d);
        if negb (i =? dm_num_devs s) then Some (s, DM_ERR_ALREADY_REGISTERED)
        else if dm_num_devs s =? DM_MAX_DEVICES then Some (s, DM_ERR_NO_SPACE)
        else if decide (0 <= dm_num_devs s < Z.of_nat (length (dm_list s))) then
          Some (DmState (<[Z.to_nat (dm_num_devs s) := Some d]> (dm_list s)) (dm_num_devs s + 1) (world s),
                dm_num_devs s)
        else None
  end.

(** The loop of [dm_device_id_from_name]: the longest device name that is a prefix. *)
Fixpoint longest_prefix (n : nat) (s : dm_state) (nm : mem) (i pos matchlen : Z) : option (Z * Z) :=
  match n with
  | O => Some (pos, matchlen)
  | S n =>
      d ← dev_at s i;
      l ← strlen (name d);
      same ← strncaseeq (Z.to_nat l) nm (name d);
      if same && (matchlen <? l) then longest_prefix n s nm (i + 1) i l
      else longest_prefix n s nm (i + 1) pos matchlen
  end.

(** The device and the position of the rest of the name. *)
Definition dm_device_id_from_name (s : dm_state) (nm : mem) : option (Z * option Z) :=
  '(pos, matchlen) ← longest_prefix (Z.to_nat (dm_num_devs s)) s nm 0 0 0;
  if matchlen =? 0 then Some (DM_ERR_NO_DEVICE, None)
  else d ← dev_at s pos; l ← strlen (name d); Some (pos, Some l).

Definition dm_unregister (s : dm_state) (nm : option mem) : option (dm_state * Z) :=
  match nm with
  | None => Some (s, DM_ERR_INVALID_NAME)
  | Some nm =>
      c ← head nm;
      n ← (if negb (c =? 47) then Some 0 else strlen nm);
      if (c =? 0) || negb (c =? 47) || (DM_MAX_DEV_NAME <? n) then Some (s, DM_ERR_INVALID_NAME)
      else
        i ← dm_find s nm;
        if i =? dm_num_devs s then Some (s, DM_ERR_NOT_REGISTERED)
        else
          l ← (if negb (i =? dm_num_devs s - 1)
               then d ← dm_list s !! Z.to_nat (i + 1); Some (<[Z.to_nat i := d]> (dm_list s))
               else Some (dm_list s));
          Some (DmState l (dm_num_devs s - 1) (world s), DM_OK)
  end.

Definition dm_get_device_at (s : dm_state) (idx : Z) : option DM_DEVICE :=
  if (idx <? 0) || (dm_num_devs s <=? idx) then None else dev_at s idx.

Definition dm_get_num_devices (s : dm_state) : Z := dm_num_devs s.

(** [malloc] of the directory descriptor succeeds or not: [room]. A descriptor is the
    device's index and the device's data. *)
Record DM_DIR := MkDir { devid : Z; userdata : Z }.

Definition dm_opendir (room : bool) (s : dm_state) (dirname : mem) : option (dm_state * option DM_DIR) :=
  '(pos, rest) ← dm_device_id_from_name s dirname;
  match rest with
  | None => Some (fail s ENOSYS, None)
  | Some rest =>
      pdev ← dev_at s pos;
      match p_opendir_r pdev with
      | None => Some (fail s ENOSYS, None)
      | Some f =>
          '(w, data) ← f (world s) (drop (Z.to_nat rest) dirname);
          let s := set_world s w in
          if data =? 0 then Some (s, None)
          else if negb room then Some (fail s ENOMEM, None)
          else Some (s, Some (MkDir (u8 pos) data))
      end
  end.

Definition dm_readdir (s : dm_state) (d : DM_DIR) : option (dm_state * Z) :=
  if (devid d <? 0) || (dm_num_devs s <=? devid d) then Some (fail s EBADF, 0)
  else
    pdev ← dev_at s (devid d);
    match p_readdir_r pdev with
    | None => Some (fail s EBADF, 0)
    | Some f => '(w, e) ← f (world s) (userdata d); Some (set_world s w, e)
    end.

(** The device's function is called without a check that it exists. *)
Definition dm_closedir (s : dm_state) (d : DM_DIR) : option (dm_state * Z) :=
  if (devid d <? 0) || (dm_num_devs s <=? devid d) then Some (fail s EBADF, -1)
  else
    pdev ← dev_at s (devid d);
    f ← p_closedir_r pdev;
    '(w, r) ← f (world s) (userdata d);
    Some (set_world s w, r).

(** *** stubs.c *)

(** The index of the device and the position of the file's name, or -1. *)
Definition find_dm_entry (s : dm_state) (nm : option mem) : option (Z * Z) :=
  match nm with
  | None => Some (-1, 0)
  | Some nm =>
      c ← head nm;
      if (c =? 0) || negb (c =? 47) then Some (-1, 0)
      else
        slash ← strchr (tail nm) 47;
        t ← (match slash with
             | None => Some (Some ([47; 0], 0))
             | Some k =>
                 let preal := k + 1 in
                 if (DM_MAX_DEV_NAME <? preal) || (preal =? 1) then Some None
                 else d ← mread nm 0 preal; Some (Some (d ++ [0], preal))
             end);
        match t with
        | None => Some (-1, 0)
        | Some (tempname, preal) =>
            i ← dm_find s tempname;
            if i =? dm_get_num_devices s then Some (-1, 0)
            else
              let preal := preal + 1 in
              c ← ld nm preal;
              if c =? 0 then Some (-1, 0) else Some (i, preal)
        end
  end.

Definition open_r (s : dm_state) (nm : option mem) (flags mode : Z) : option (dm_state * Z) :=
  '(devid, actname) ← find_dm_entry s nm;
  if devid =? -1 then Some (fail s ENODEV, -1)
  else
    pdev ← dm_get_device_at s devid;
    match p_open_r pdev with
    | None => Some (fail s ENOSYS, -1)
    | Some f =>
        n ← nm;
        '(w, res) ← f (world s) (drop (Z.to_nat actname) n) flags mode;
        let s := set_world s w in
        if res <? 0 then Some (s, res) else Some (s, DM_MAKE_DESC devid res)
    end.

Definition close_r (s : dm_state) (file : Z) : option (dm_state * Z) :=
  pdev ← dm_get_device_at s (DM_GET_DEVID file);
  match p_close_r pdev with
  | None => Some (fail s ENOSYS, -1)
  | Some f => '(w, r) ← f (world s) (DM_GET_FD file); Some (set_world s w, r)
  end.

(** The mode stored and the result. *)
Definition fstat_r (s : dm_state) (file : Z) : option (dm_state * option Z * Z) :=
  if (DM_STDIN_NUM <=? file) && (file <=? DM_STDERR_NUM) then Some (s, Some S_IFCHR, 0)
  else
    pdev ← dm_get_device_at s (DM_GET_DEVID file);
    match p_fstat_r pdev with
    | None => Some (fail s ENOSYS, None, -1)
    | Some f => '(w, st, r) ← f (world s) (DM_GET_FD file); Some (set_world s w, Some st, r)
    end.

Definition lseek_r (s : dm_state) (file off whence : Z) : option (dm_state * Z) :=
  pdev ← dm_get_device_at s (DM_GET_DEVID file);
  match p_lseek_r pdev with
  | None => Some (fail s ENOSYS, -1)
  | Some f => '(w, r) ← f (world s) (DM_GET_FD file) off whence; Some (set_world s w, r)
  end.

Definition read_r (s : dm_state) (file : Z) (ptr : mem) (len : Z) : option (dm_state * mem * Z) :=
  pdev ← dm_get_device_at s (DM_GET_DEVID file);
  match p_read_r pdev with
  | None => Some (fail s ENOSYS, ptr, -1)
  | Some f => '(w, ptr, r) ← f (world s) (DM_GET_FD file) ptr len; Some (set_world s w, ptr, r)
  end.

Definition write_r (s : dm_state) (file : Z) (ptr : mem) (len : Z) : option (dm_state * Z) :=
  pdev ← dm_get_device_at s (DM_GET_DEVID file);
  match p_write_r pdev with
  | None => Some (fail s ENOSYS, -1)
  | Some f => '(w, r) ← f (world s) (DM_GET_FD file) ptr len; Some (set_world s w, r)
  end.
End devman.

(** *** The heap: _sbrk_r

    Addresses are integers; the platform's memory spaces are [first] and [last], [first] being 0 for an
    index that has no space. The result is the block's address or -1; [fuel] bounds the spaces tried. *)
Section sbrk.
Context (first last : Z → Z).

Record heap := Heap { heap_ptr : Z; mem_index : Z }.

Fixpoint sbrk_loop (fuel : nat) (h : heap) (incr : Z) : option (heap * Z) :=
  match fuel with
  | O => None
  | S fuel =>
      let hp := if heap_ptr h =? 0 then first (mem_index h) else heap_ptr h in
      if hp =? 0 then Some (Heap 0 (mem_index h), -1)
      else if last (mem_index h) <? hp + incr then sbrk_loop fuel (Heap 0 (mem_index h + 1)) incr
      else Some (Heap (hp + incr) (mem_index h), hp)
  end.

Definition sbrk_r (fuel : nat) (h : heap) (incr : Z) : option (heap * Z) :=
  if incr <? 0 then Some (h, -1) else sbrk_loop fuel h incr.
End sbrk.

(** ** The registered devices *)
Section correct.
Context {W : Type} (set_errno : W → Z → W).
Implicit Types (s : dm_state (W:=W)) (d : DM_DEVICE (W:=W)) (ds : list (DM_DEVICE (W:=W))).

(** The name that devices are compared by. *)
Definition lname d : list Z := tolower <$> default [] (cstr (name d)).

Definition dev_ok d : Prop := ∃ n, cstr (name d) = Some n ∧ head n = Some 47 ∧ msize n <= DM_MAX_DEV_NAME.

(** The device table holds exactly [ds]; [dm_rep]: and their names are pairwise different. *)
Definition dm_tab s ds : Prop :=
  length (dm_list s) = 16%nat ∧ dm_num_devs s = Z.of_nat (length ds) ∧
  take (length ds) (dm_list s) = Some <$> ds ∧ Forall dev_ok ds.

Definition dm_rep s ds : Prop := dm_tab s ds ∧ NoDup (lname <$> ds).

Lemma tab_le s ds : dm_tab s ds → (length ds <= 16)%nat.
Proof.
  intros (H1 & H2 & H3 & _). apply (f_equal length) in H3. rewrite length_take, length_fmap in H3. lia.
Qed.

Lemma tab_at s ds i d : dm_tab s ds → ds !! i = Some d → dm_list s !! i = Some (Some d).
Proof.
  intros (H1 & H2 & H3 & _) Hi. rewrite <- (lookup_take_lt _ (length ds)) by (by eapply lookup_lt_Some).
  by rewrite H3, list_lookup_fmap, Hi.
Qed.

Lemma tab_dev_at s ds i d : dm_tab s ds → ds !! i = Some d → dev_at s (Z.of_nat i) = Some d.
Proof.
  intros Hr Hi. unfold dev_at. rewrite decide_True by lia. by rewrite Nat2Z.id, (tab_at _ _ _ _ Hr Hi).
Qed.

Lemma tab_get s ds i d : dm_tab s ds → ds !! i = Some d → dm_get_device_at s (Z.of_nat i) = Some d.
Proof.
  intros Hr Hi. pose proof Hr as (_ & H2 & _). pose proof (lookup_lt_Some _ _ _ Hi). unfold dm_get_device_at.
  rewrite (proj2 (Z.ltb_ge _ _)), (proj2 (Z.leb_gt _ _)) by lia. by eapply tab_dev_at.
Qed.

Lemma rep_set_world s ds w : dm_rep s ds → dm_rep (set_world s w) ds.
Proof. done. Qed.

Lemma lname_eq d n : cstr (name d) = Some n → lname d = tolower <$> n.
Proof. intros H. unfold lname. by rewrite H. Qed.

(** The search loop finds the device with the name, if any. *)
Lemma find_name_spec s nm n ds1 ds2 :
  dm_tab s (ds1 ++ ds2) → cstr nm = Some n →
  find_name (length ds2) s nm (Z.of_nat (length ds1)) =
    Some (match list_find (λ d, lname d = (tolower <$> n)) ds2 with
          | Some (i, _) => Z.of_nat (length ds1 + i)
          | None => Z.of_nat (length (ds1 ++ ds2))
          end).
Proof.
  intros Hr Hn. revert ds1 Hr. induction ds2 as [|d ds2 IH]; intros ds1 Hr; cbn [length find_name].
  - by rewrite app_nil_r.
  - rewrite (tab_dev_at s _ (length ds1) d Hr); [|by rewrite list_lookup_middle]. cbn [mbind option_bind].
    pose proof Hr as (_ & _ & _ & Hok). apply Forall_app in Hok as [_ Hok]. apply Forall_cons in Hok as [(x & Hx & _) _].
    unfold strcaseeq. rewrite Hn, Hx. cbn [mbind option_bind]. cbn [list_find]. rewrite (lname_eq _ _ Hx).
    destruct (caseeq n x) eqn:Ec.
    + apply caseeq_iff in Ec. rewrite decide_True by done. do 2 f_equal. lia.
    + rewrite decide_False; [|intros E; symmetry in E; by apply caseeq_iff in E; congruence].
      specialize (IH (ds1 ++ [d])). rewrite <- app_assoc in IH. cbn [app] in IH. specialize (IH Hr).
      rewrite length_app in IH. cbn [length] in IH. replace (Z.of_nat (length ds1 + 1)) with (Z.of_nat (length ds1) + 1) in IH by lia.
      rewrite IH. destruct (list_find _ ds2) as [[i ?]|]; cbn; [do 2 f_equal; lia|done].
Qed.

Lemma dm_find_spec s nm n ds :
  dm_tab s ds → cstr nm = Some n →
  dm_find s nm = Some (match list_find (λ d, lname d = (tolower <$> n)) ds with
                       | Some (i, _) => Z.of_nat i
                       | None => Z.of_nat (length ds)
                       end).
Proof.
  intros Hr Hn. unfold dm_find. pose proof Hr as (_ & -> & _). rewrite Nat2Z.id.
  exact (find_name_spec s nm n [] ds Hr Hn).
Qed.

Lemma list_find_lname ds n i d :
  NoDup (lname <$> ds) → ds !! i = Some d → lname d = (tolower <$> n) →
  list_find (λ d, lname d = (tolower <$> n)) ds = Some (i, d).
Proof.
  intros Hnd Hi Hd. apply list_find_Some. split; [done|]. split; [done|]. intros j e Hj Hlt He.
  pose proof (NoDup_lookup (lname <$> ds) j i (lname d) Hnd) as H. rewrite !list_lookup_fmap, Hi, Hj in H.
  cbn in H. rewrite He, Hd in H. specialize (H eq_refl eq_refl). lia.
Qed.

(** Registering a device: a bad name, a name already registered and a full table are refused without
    effect; else the device gets the next index and the table holds one device more. *)
Theorem dm_register_spec s ds d n :
  dm_rep s ds → cstr (name d) = Some n →
  ∃ s' r, dm_register s (Some d) = Some (s', r) ∧
    if decide (head n ≠ Some 47 ∨ DM_MAX_DEV_NAME < msize n) then s' = s ∧ r = DM_ERR_INVALID_NAME
    else if decide (lname d ∈ lname <$> ds) then s' = s ∧ r = DM_ERR_ALREADY_REGISTERED
    else if decide (length ds = 16%nat) then s' = s ∧ r = DM_ERR_NO_SPACE
    else r = Z.of_nat (length ds) ∧ dm_rep s' (ds ++ [d]) ∧ world s' = world s.
Proof.
  intros Hr Hn. unfold dm_register. destruct (cstr_inv _ _ Hn) as [Hnz [rest En]].
  assert (∃ c, head (name d) = Some c ∧ (c = 47 ↔ head n = Some 47)) as (c & -> & Hc).
  { destruct n as [|c n]; rewrite En; cbn; [exists 0|exists c]; (split; [done|]); split; intros; congruence. }
  cbn [mbind option_bind]. unfold strlen. rewrite Hn. cbn [mbind option_bind].
  destruct (Z.eqb_spec c 47) as [->|Hc47]; cbn [negb orb].
  2: { destruct (decide (head n ≠ _ ∨ _)) as [_|N]; [by eexists _, _|tauto]. }
  cbn [mbind option_bind]. destruct (Z.ltb_spec DM_MAX_DEV_NAME (msize n)) as [Hl|Hl].
  { destruct (decide (head n ≠ _ ∨ _)) as [_|N]; [by eexists _, _|tauto]. }
  destruct (decide (head n ≠ _ ∨ _)) as [[N|N]|_]; [tauto|lia|].
  pose proof Hr as [Ht H5]. rewrite (dm_find_spec s (name d) n ds Ht Hn). cbn [mbind option_bind].
  pose proof Ht as (H1 & H2 & H3 & H4).
  rewrite H2. pose proof (tab_le _ _ Ht).
  destruct (list_find _ ds) as [[i e]|] eqn:Ef.
  - apply list_find_Some in Ef as (Hi & He & _). pose proof (lookup_lt_Some _ _ _ Hi).
    rewrite (proj2 (Z.eqb_neq (Z.of_nat i) (Z.of_nat (length ds)))) by lia. cbn [negb].
    destruct (decide (lname d ∈ _)) as [_|N]; [by eexists _, _|]. destruct N.
    apply list_elem_of_fmap. exists e. split; [by rewrite He, (lname_eq d n)|by eapply list_elem_of_lookup_2].
  - rewrite Z.eqb_refl. cbn [negb]. apply list_find_None in Ef.
    assert (lname d ∉ lname <$> ds) as Hni.
    { intros Hin. apply list_elem_of_fmap in Hin as (e & He & Hin). rewrite Forall_forall in Ef.
      apply (Ef e Hin). by rewrite <- He, (lname_eq d n). }
    destruct (decide (lname d ∈ _)) as [|_]; [done|]. destruct (decide (length ds = 16%nat)) as [E|E].
    + rewrite (proj2 (Z.eqb_eq _ _)) by (unfold DM_MAX_DEVICES; lia). by eexists _, _.
    + rewrite (proj2 (Z.eqb_neq _ _)) by (unfold DM_MAX_DEVICES; lia). rewrite decide_True by lia.
      eexists _, _. split; [done|]. split; [done|]. split; [|done]. rewrite Nat2Z.id.
      unfold dm_rep, dm_tab. cbn [dm_num_devs dm_list]. split; [split; [by rewrite length_insert|]; split; [rewrite length_app; cbn; lia|]; split|].
      * rewrite length_app. cbn [length]. replace (length ds + 1)%nat with (S (length ds)) by lia. rewrite (take_S_r _ _ (Some d)).
        2: { apply list_lookup_insert_eq. lia. }
        rewrite take_insert_ge by lia. by rewrite H3, fmap_app.
      * apply Forall_app. split; [done|]. constructor; [|done]. exists n. split; [done|]. split; [tauto|lia].
      * rewrite fmap_app. apply NoDup_app. split; [done|]. split; [|apply NoDup_singleton].
        intros x Hx1 Hx2. cbn in Hx2. apply list_elem_of_singleton in Hx2 as ->. done.
Qed.

(** What [dm_unregister] leaves in the table. *)
Definition unregistered ds (i : nat) : list DM_DEVICE :=
  take (length ds - 1) (match ds !! S i with Some d' => <[i := d']> ds | None => ds end).

Lemma dm_unregister_tab s ds i d :
  dm_rep s ds → ds !! i = Some d →
  ∃ s', dm_unregister s (Some (name d)) = Some (s', DM_OK) ∧ dm_tab s' (unregistered ds i) ∧ world s' = world s.
Proof.
  intros [Ht Hnd] Hi. pose proof Ht as (H1 & H2 & H3 & H4). pose proof (lookup_lt_Some _ _ _ Hi) as Hlt.
  pose proof (tab_le _ _ Ht) as Hle.
  pose proof (Forall_lookup_1 _ _ _ _ H4 Hi) as (n & Hn & Hh & Hl). destruct (cstr_inv _ _ Hn) as [_ [rest En]].
  unfold dm_unregister. assert (head (name d) = Some 47) as -> by (rewrite En; by destruct n).
  cbn [mbind option_bind]. change (negb (47 =? 47)) with false. change (47 =? 0) with false. cbv iota.
  unfold strlen. rewrite Hn. cbn [mbind option_bind orb]. rewrite (proj2 (Z.ltb_ge _ _)) by lia.
  rewrite (dm_find_spec s (name d) n ds Ht Hn), (list_find_lname ds n i d Hnd Hi) by (by apply lname_eq).
  cbn [mbind option_bind]. rewrite H2, (proj2 (Z.eqb_neq _ _)) by lia. unfold unregistered.
  destruct (Z.eqb_spec (Z.of_nat i) (Z.of_nat (length ds) - 1)) as [E|E]; cbn [negb].
  - rewrite lookup_ge_None_2 by lia. cbn [mbind option_bind]. eexists. split; [done|]. split; [|done].
    unfold dm_tab. cbn [dm_list dm_num_devs]. split; [done|]. rewrite length_take. split; [lia|]. split.
    + by rewrite (fmap_take Some), <- H3, take_take.
    + by apply Forall_take.
  - destruct (lookup_lt_is_Some_2 ds (S i)) as [d' Hd']; [lia|]. rewrite Hd'.
    replace (Z.to_nat (Z.of_nat i + 1)) with (S i) by lia. rewrite (tab_at _ _ _ _ Ht Hd'). cbn [mbind option_bind].
    rewrite Nat2Z.id. eexists. split; [done|]. split; [|done].
    unfold dm_tab. cbn [dm_list dm_num_devs]. split; [by rewrite length_insert|].
    rewrite length_take, length_insert. split; [lia|]. split.
    + rewrite fmap_take, list_fmap_insert, <- H3, <- take_insert_lt by lia. rewrite take_take.
      done.
    + apply Forall_take, Forall_insert; [done|]. by eapply Forall_lookup_1.
Qed.

Lemma unregistered_delete ds i : (i < length ds <= i + 2)%nat → unregistered ds i = delete i ds.
Proof.
  intros Hi. unfold unregistered. rewrite delete_take_drop. destruct (ds !! S i) as [d'|] eqn:E.
  - pose proof (lookup_lt_Some _ _ _ E). rewrite (drop_S _ _ _ E), (drop_ge ds (S (S i))) by lia.
    replace (length ds - 1)%nat with (S i) by lia. rewrite (take_S_r _ _ d') by (apply list_lookup_insert_eq; lia).
    by rewrite take_insert_ge by lia.
  - apply lookup_ge_None in E. rewrite (drop_ge ds (S i)), app_nil_r by lia. f_equal. lia.
Qed.

Lemma NoDup_delete {A} (l : list A) i : NoDup l → NoDup (delete i l).
Proof.
  rewrite !NoDup_alt. intros H j k x Hj Hk.
  assert (∀ j, delete i l !! j = if decide (j < i)%nat then l !! j else l !! S j) as Hd.
  { intros j0. destruct (decide (j0 < i)%nat); [by apply list_lookup_delete_lt|apply list_lookup_delete_ge; lia]. }
  rewrite Hd in Hj, Hk. destruct (decide (j < i)%nat), (decide (k < i)%nat);
    pose proof (H _ _ _ Hj Hk); lia.
Qed.

(** Unregistering one of the last two devices removes it from the table, the others staying in order. *)
Theorem dm_unregister_removes s ds i d :
  dm_rep s ds → ds !! i = Some d → (length ds <= i + 2)%nat →
  ∃ s', dm_unregister s (Some (name d)) = Some (s', DM_OK) ∧ dm_rep s' (delete i ds) ∧ world s' = world s.
Proof.
  intros Hr Hi Hle. destruct (dm_unregister_tab s ds i d Hr Hi) as (s' & Hs & Ht & Hw).
  pose proof (lookup_lt_Some _ _ _ Hi). rewrite unregistered_delete in Ht by lia.
  exists s'. split; [done|]. split; [|done]. split; [done|]. destruct Hr as [_ Hnd].
  rewrite list_fmap_delete. by apply NoDup_delete.
Qed.

(** Unregistering any earlier device moves only the next entry down: the next device
    is then twice in the table, and the last device, that nobody unregistered, is no longer found. *)
Theorem dm_unregister_loses_last s ds i d l :
  dm_rep s ds → ds !! i = Some d → (i + 2 < length ds)%nat → last ds = Some l →
  ∃ s', dm_unregister s (Some (name d)) = Some (s', DM_OK) ∧
    dm_get_device_at s' (Z.of_nat i) = ds !! S i ∧ dm_get_device_at s' (Z.of_nat i + 1) = ds !! S i ∧
    dm_find s' (name l) = Some (dm_get_num_devices s').
Proof.
  intros Hr Hi Hlt Hl. destruct (dm_unregister_tab s ds i d Hr Hi) as (s' & Hs & Ht & Hw).
  destruct (lookup_lt_is_Some_2 ds (S i)) as [d' Hd']; [lia|]. unfold unregistered in Ht. rewrite Hd' in *.
  exists s'. split; [done|].
  replace (Z.of_nat i + 1) with (Z.of_nat (S i)) by lia. split; [|split].
  - apply (tab_get _ _ _ _ Ht). rewrite lookup_take_lt by lia. apply list_lookup_insert_eq. lia.
  - apply (tab_get _ _ _ _ Ht). rewrite lookup_take_lt, list_lookup_insert_ne by lia. done.
  - destruct Hr as [(_ & _ & _ & Hok) Hnd]. rewrite last_lookup in Hl.
    pose proof (Forall_lookup_1 _ _ _ _ Hok Hl) as (n & Hn & _). rewrite (dm_find_spec _ _ _ _ Ht Hn).
    unfold dm_get_num_devices. pose proof Ht as (_ & -> & _).
    destruct (list_find _ _) as [[j e]|] eqn:Ef; [|done]. exfalso. apply list_find_Some in Ef as (Hj & He & _).
    pose proof (lookup_lt_Some _ _ _ Hj) as Hjl. rewrite length_take, length_insert in Hjl. rewrite lookup_take_lt in Hj by lia.
    assert (∃ k, ds !! k = Some e ∧ k ≠ Nat.pred (length ds)) as (k & Hk & Hne).
    { destruct (decide (i = j)) as [<-|]; [rewrite list_lookup_insert_eq in Hj by lia; simplify_eq; exists (S i); split; [done|lia]|].
      rewrite list_lookup_insert_ne in Hj by done. exists j. split; [done|lia]. }
    apply Hne. apply (NoDup_lookup _ _ _ (lname l) Hnd); rewrite list_lookup_fmap.
    + rewrite Hk. cbn. by rewrite He, (lname_eq _ _ Hn).
    + by rewrite Hl.
Qed.

(** *** Descriptors *)

Lemma make_desc i fd : 0 <= i < 16 → 0 <= fd < 2048 →
  0 <= DM_MAKE_DESC i fd < 32768 ∧ DM_GET_DEVID (DM_MAKE_DESC i fd) = i ∧ DM_GET_FD (DM_MAKE_DESC i fd) = fd.
Proof.
  intros Hi Hfd. unfold DM_MAKE_DESC, DM_GET_DEVID, DM_GET_FD, DM_MAX_DEVICES_BITS. change (15 - 4) with 11.
  rewrite Z.lor_comm, lor_shiftl_add by (done || lia). rewrite land_ones_mod, Z.shiftr_div_pow2 by lia.
  change (2 ^ 11) with 2048. Z.div_mod_to_equations. lia.
Qed.

Lemma find_dm_entry_spec s ds i d dn f path :
  dm_rep s ds → ds !! i = Some d → lname d = (tolower <$> dn) → head dn = Some 47 →
  Forall (λ c, c ≠ 47) (tail dn) → 1 < msize dn <= DM_MAX_DEV_NAME → f ≠ [] →
  cstr path = Some (dn ++ [47] ++ f) →
  find_dm_entry s (Some path) = Some (Z.of_nat i, msize dn + 1)
  ∧ cstr (drop (Z.to_nat (msize dn + 1)) path) = Some f.
Proof.
  intros [Ht Hnd] Hi Hd Hh Htl Hl Hf Hp. destruct (cstr_inv _ _ Hp) as [Hnz [rest ->]].
  destruct dn as [|c0 dn]; [done|]. cbn in Hh. injection Hh as ->. cbn [tail] in Htl. set (n := 47 :: dn) in *.
  rewrite !Forall_app in Hnz. destruct Hnz as (Hnz1 & Hnz2 & Hnz3).
  assert (msize n = msize dn + 1) as Hsz by (unfold n; msz; lia). pose proof (msize_nonneg dn). pose proof (msize_nonneg f).
  split.
  2: { rewrite <- !app_assoc, (app_assoc n [47]). replace (Z.to_nat (msize n + 1)) with (length (n ++ [47])) by (rewrite length_app; unfold msize; cbn [length]; lia).
    rewrite drop_app_length. by apply cstr_app. }
  unfold find_dm_entry. cbn [app n head mbind option_bind tail]. change (47 =? 0) with false. change (negb (47 =? 47)) with false.
  cbv iota. cbn [orb]. rewrite <- !app_assoc. cbn [app]. rewrite strchr_spec.
  2: { apply Forall_forall. intros x Hx. rewrite Forall_forall in Htl. unfold n in Hnz1. apply Forall_cons in Hnz1 as [_ Hnz1].
    rewrite Forall_forall in Hnz1. split; [by apply Hnz1|by apply Htl]. }
  cbn [mbind option_bind]. unfold DM_MAX_DEV_NAME in *. rewrite (proj2 (Z.ltb_ge _ _)) by lia.
  rewrite (proj2 (Z.eqb_neq _ _)) by lia. cbn [orb].
  assert (∃ tl, mread (47 :: dn ++ 47 :: f ++ 0 :: rest) 0 (msize dn + 1) = Some n ∧ tl = f ++ 0 :: rest) as (tl & Hr & _).
  { exists (f ++ 0 :: rest). split; [|done]. pose proof (bytes_at_prefix (47 :: dn ++ 47 :: f ++ 0 :: rest) [] n (47 :: f ++ 0 :: rest) eq_refl) as Hb.
    unfold bytes_at in Hb. by rewrite Hsz in Hb. }
  rewrite Hr. cbn [mbind option_bind].
  rewrite (dm_find_spec s (n ++ [0]) n ds Ht) by (by apply cstr_app).
  rewrite (list_find_lname ds n i d Hnd Hi Hd). cbn [mbind option_bind]. unfold dm_get_num_devices.
  pose proof Ht as (_ & -> & _). pose proof (lookup_lt_Some _ _ _ Hi). rewrite (proj2 (Z.eqb_neq _ _)) by lia.
  destruct f as [|c f]; [done|].
  assert (ld (47 :: dn ++ 47 :: (c :: f) ++ 0 :: rest) (msize dn + 1 + 1) = Some c) as ->.
  { change (47 :: dn ++ 47 :: (c :: f) ++ 0 :: rest) with (n ++ 47 :: (c :: f) ++ 0 :: rest).
    rewrite ld_app_r by lia. replace (msize dn + 1 + 1 - msize n) with 1 by lia. done. }
  cbn [mbind option_bind]. apply Forall_cons in Hnz3 as [Hc _]. rewrite (proj2 (Z.eqb_neq c 0)) by done. by rewrite Hsz.
Qed.

(** Opening "/dev/file" calls the open function of the device with that name (ignoring case) with the file's
    name; the descriptor returned fits 15 bits and every later call on it, whatever happened on the devices in
    between, reaches the same device with the number that the device gave. *)
Theorem dm_open_routes s ds i d dn f path flags mode op w' fd :
  dm_rep s ds → ds !! i = Some d → lname d = (tolower <$> dn) → head dn = Some 47 →
  Forall (λ c, c ≠ 47) (tail dn) → 1 < msize dn <= DM_MAX_DEV_NAME → f ≠ [] →
  cstr path = Some (dn ++ [47] ++ f) → p_open_r d = Some op →
  op (world s) (drop (Z.to_nat (msize dn + 1)) path) flags mode = Some (w', fd) → 0 <= fd < 2048 →
  cstr (drop (Z.to_nat (msize dn + 1)) path) = Some f ∧
  ∃ desc, open_r set_errno s (Some path) flags mode = Some (set_world s w', desc) ∧ 0 <= desc < 32768 ∧
    (∀ s' ptr len, dm_rep s' ds →
       (∀ g, p_read_r d = Some g → read_r set_errno s' desc ptr len
          = '(w, ptr, r) ← g (world s') fd ptr len; Some (set_world s' w, ptr, r)) ∧
       (∀ g, p_write_r d = Some g → write_r set_errno s' desc ptr len
          = '(w, r) ← g (world s') fd ptr len; Some (set_world s' w, r)) ∧
       (∀ g, p_close_r d = Some g → close_r set_errno s' desc
          = '(w, r) ← g (world s') fd; Some (set_world s' w, r))).
Proof.
  intros Hr Hi Hd Hh Htl Hl Hf Hp Hop Hcall Hfd.
  destruct (find_dm_entry_spec s ds i d dn f path) as [He Hc]; [done..|]. split; [done|].
  pose proof Hr as [Ht _]. pose proof (tab_le _ _ Ht). pose proof (lookup_lt_Some _ _ _ Hi).
  destruct (make_desc (Z.of_nat i) fd) as (H1 & H2 & H3); [lia|done|].
  exists (DM_MAKE_DESC (Z.of_nat i) fd). split; [|split; [done|]].
  - unfold open_r. rewrite He. cbn [mbind option_bind]. rewrite (proj2 (Z.eqb_neq _ _)) by lia.
    rewrite (tab_get _ _ _ _ Ht Hi). cbn [mbind option_bind]. rewrite Hop. cbn [mbind option_bind]. rewrite Hcall.
    cbn [mbind option_bind]. by rewrite (proj2 (Z.ltb_ge fd 0)) by lia.
  - intros s' ptr len [Ht' _]. unfold read_r, write_r, close_r. rewrite H2, H3, (tab_get _ _ _ _ Ht' Hi).
    cbn [mbind option_bind]. split; [|split]; intros g ->; done.
Qed.
End correct.

(** ** The heap's blocks *)
Section sbrk_correct.
Context (first last : Z → Z) (n : Z).

(** The platform's memory spaces are the indexes below [n]; they do not overlap. *)
Hypothesis Hnone : first n = 0.
Hypothesis Hspace : ∀ k, 0 <= k < n → 0 < first k <= last k.
Hypothesis Hdisj : ∀ j k, 0 <= j < n → 0 <= k < n → j ≠ k → last j <= first k ∨ last k <= first j.

(** The blocks that a sequence of requests gets, latest first. *)
Fixpoint sbrk_run (fuel : nat) (h : heap) (reqs : list Z) (blocks : list (Z * Z)) : option (heap * list (Z * Z)) :=
  match reqs with
  | [] => Some (h, blocks)
  | incr :: reqs =>
      '(h, p) ← sbrk_r first last fuel h incr;
      sbrk_run fuel h reqs (if p =? -1 then blocks else (p, incr) :: blocks)
  end.

Definition disjoint_blocks (b c : Z * Z) : Prop := b.1 + b.2 <= c.1 ∨ c.1 + c.2 <= b.1.

Definition in_space (b : Z * Z) (k : Z) : Prop := 0 <= k < n ∧ first k <= b.1 ∧ 0 <= b.2 ∧ b.1 + b.2 <= last k.

(** The blocks so far lie in the spaces already used, below the heap pointer in the current one. *)
Definition heap_inv (h : heap) (blocks : list (Z * Z)) : Prop :=
  0 <= mem_index h <= n ∧
  (heap_ptr h ≠ 0 → mem_index h < n ∧ first (mem_index h) <= heap_ptr h <= last (mem_index h)) ∧
  (∀ b, b ∈ blocks → ∃ k, in_space b k ∧ k <= mem_index h ∧
     (k = mem_index h → heap_ptr h ≠ 0 ∧ b.1 + b.2 <= heap_ptr h)) ∧
  (∀ i j b c, i ≠ j → blocks !! i = Some b → blocks !! j = Some c → disjoint_blocks b c).

Lemma heap_inv_alloc h blocks incr hp :
  heap_inv h blocks → 0 <= incr → mem_index h < n →
  hp = (if heap_ptr h =? 0 then first (mem_index h) else heap_ptr h) → hp + incr <= last (mem_index h) →
  heap_inv (Heap (hp + incr) (mem_index h)) ((hp, incr) :: blocks).
Proof.
  intros (H1 & H2 & H3 & H4) Hincr Hmi Ehp Hle. pose proof (Hspace (mem_index h) ltac:(lia)) as Hsp.
  assert (first (mem_index h) <= hp) as Hlow by (subst hp; destruct (Z.eqb_spec (heap_ptr h) 0); lia).
  assert (∀ b, b ∈ blocks → disjoint_blocks (hp, incr) b) as Hnew.
  { intros b Hb. destruct (H3 b Hb) as (k & (K1 & K2 & K3 & K4) & K5 & K6). unfold disjoint_blocks. cbn.
    destruct (decide (k = mem_index h)) as [E|E].
    - destruct (K6 E) as [K7 K8]. rewrite (proj2 (Z.eqb_neq _ _)) in Ehp by done. lia.
    - destruct (Hdisj k (mem_index h)) as [|]; lia. }
  unfold heap_inv. cbn [heap_ptr mem_index]. split; [lia|]. split; [lia|]. split.
  - intros b Hb. apply elem_of_cons in Hb as [->|Hb].
    + exists (mem_index h). unfold in_space. cbn. lia.
    + destruct (H3 b Hb) as (k & K1 & K5 & K6). exists k. split; [done|]. split; [done|]. intros E.
      destruct (K6 E) as [K7 K8]. rewrite (proj2 (Z.eqb_neq _ _)) in Ehp by done. lia.
  - intros i j b c Hij Hb Hc. destruct i as [|i], j as [|j]; cbn in Hb, Hc; simplify_eq.
    + apply Hnew. by eapply list_elem_of_lookup_2.
    + pose proof (Hnew b (list_elem_of_lookup_2 _ _ _ Hb)) as Hd. unfold disjoint_blocks in *. lia.
    + apply (H4 i j); [congruence|done..].
Qed.

Lemma sbrk_loop_ok fuel h blocks incr :
  heap_inv h blocks → 0 <= incr → n - mem_index h < Z.of_nat fuel →
  ∃ h' p, sbrk_loop first last fuel h incr = Some (h', p) ∧
    (p = -1 ∧ heap_inv h' blocks ∨ 0 < p ∧ heap_inv h' ((p, incr) :: blocks)).
Proof.
  revert h. induction fuel as [|fuel IH]; intros h Hinv Hincr Hf; pose proof Hinv as (H1 & H2 & H3 & H4); [lia|].
  cbn [sbrk_loop]. set (hp := if heap_ptr h =? 0 then first (mem_index h) else heap_ptr h).
  destruct (decide (mem_index h = n)) as [En|En].
  - assert (hp = 0) as Eh.
    { subst hp. destruct (Z.eqb_spec (heap_ptr h) 0) as [|N]; [by rewrite En|destruct (H2 N); lia]. }
    rewrite Eh. change (0 =? 0) with true. cbv iota. eexists _, _. split; [done|]. left. split; [done|].
    unfold heap_inv. cbn [heap_ptr mem_index]. split; [done|]. split; [done|]. split; [|done]. intros b Hb.
    destruct (H3 b Hb) as (k & (K1 & K2) & K5 & K6). exists k. split; [done|]. split; [done|]. lia.
  - pose proof (Hspace (mem_index h) ltac:(lia)) as Hsp.
    assert (0 < hp) as Hhp by (subst hp; destruct (Z.eqb_spec (heap_ptr h) 0) as [|N]; [lia|destruct (H2 N); lia]).
    rewrite (proj2 (Z.eqb_neq hp 0)) by lia. destruct (Z.ltb_spec (last (mem_index h)) (hp + incr)).
    + apply IH; [|done|cbn [mem_index]; lia]. unfold heap_inv. cbn [heap_ptr mem_index]. split; [lia|]. split; [done|].
      split; [|done]. intros b Hb. destruct (H3 b Hb) as (k & K1 & K5 & K6). exists k. split; [done|]. lia.
    + eexists _, _. split; [done|]. right. split; [done|]. apply heap_inv_alloc; [done|done|lia|done|lia].
Qed.

(** The heap: any sequence of requests terminates, and the blocks it gets are inside the
    platform's memory spaces and pairwise disjoint. *)
Theorem sbrk_blocks_disjoint fuel reqs :
  0 <= n < Z.of_nat fuel →
  ∃ h blocks, sbrk_run fuel (Heap 0 0) reqs [] = Some (h, blocks) ∧
    (∀ b, b ∈ blocks → ∃ k, 0 <= k < n ∧ first k <= b.1 ∧ 0 <= b.2 ∧ b.1 + b.2 <= last k) ∧
    (∀ i j b c, i ≠ j → blocks !! i = Some b → blocks !! j = Some c → b.1 + b.2 <= c.1 ∨ c.1 + c.2 <= b.1).
Proof.
  intros Hn. cut (∀ h blocks, heap_inv h blocks →
    ∃ h' blocks', sbrk_run fuel h reqs blocks = Some (h', blocks') ∧ heap_inv h' blocks').
  { intros Hgen. destruct (Hgen (Heap 0 0) []) as (h & bs & Hr & _ & _ & Hin & Hd).
    - unfold heap_inv. cbn [heap_ptr mem_index]. split; [lia|]. split; [done|].
      split; [intros b Hb; by apply elem_of_nil in Hb|intros i j b c _ Hb; done].
    - exists h, bs. split; [done|]. split; [|done]. intros b Hb. destruct (Hin b Hb) as (k & Hk & _). by exists k. }
  induction reqs as [|incr reqs IH]; intros h blocks Hinv; cbn [sbrk_run]; [eauto|].
  unfold sbrk_r. destruct (Z.ltb_spec incr 0); cbn [mbind option_bind].
  - by apply IH.
  - destruct (sbrk_loop_ok fuel h blocks incr Hinv) as (h' & p & -> & Hp); [done|destruct Hinv; lia|].
    cbn [mbind option_bind]. destruct Hp as [[-> Hi]|[Hpos Hi]]; [by apply IH|].
    rewrite (proj2 (Z.eqb_neq _ _)) by lia. by apply IH.
Qed.
End sbrk_correct.

(** ** The theorems at work: the read-only file system as a device

    The world is the file system's state and the shared directory entry; pointers to the directory
    data and to the entry are 1. *)
Section rom_device.
Context (img : mem) (fuel : nat).

Definition rom_world : Type := romfs * option dirent.

Definition rom_errno (w : rom_world) (e : Z) : rom_world := (RomFs.set_errno w.1 e, w.2).

Definition romfs_device : DM_DEVICE (W:=rom_world) := {|
  name := txt "/rom" ++ replicate 9 0;
  p_open_r := Some (λ w path flags mode, '(s, r) ← romfs_open_r img fuel w.1 path flags mode; Some ((s, w.2), r));
  p_close_r := Some (λ w fd, '(s, r) ← romfs_close_r w.1 fd; Some ((s, w.2), r));
  p_write_r := Some (λ w fd ptr len, let '(s, r) := romfs_write_r w.1 fd ptr len in Some ((s, w.2), r));
  p_read_r := Some (λ w fd ptr len, '(s, ptr, r) ← romfs_read_r img w.1 fd ptr len; Some ((s, w.2), ptr, r));
  p_lseek_r := Some (λ w fd off whence, '(s, r) ← romfs_lseek_r w.1 fd off whence; Some ((s, w.2), r));
  p_fstat_r := None;
  p_opendir_r := Some (λ w dname, '(s, ok) ← romfs_opendir_r w.1 (Some dname); Some ((s, w.2), cbool ok));
  p_readdir_r := Some (λ w d, '(s, e) ← romfs_readdir_r img w.1;
    Some (match e with Some e => ((s, Some e), 1) | None => ((s, w.2), 0) end));
  p_closedir_r := Some (λ w d, let '(s, r) := romfs_closedir_r w.1 in Some ((s, w.2), r))
|}.
End rom_device.

Definition dev_named (s : string) : DM_DEVICE (W:=rom_world) :=
  MkDevice (txt s ++ [0]) None None None None None None None None None.

Definition demo_table (ds : list DM_DEVICE) : dm_state (W:=rom_world) :=
  DmState ((Some <$> ds) ++ replicate (16 - length ds) None) (Z.of_nat (length ds)) (romfs_init_state, None).

Definition demo_devs : list DM_DEVICE := [dev_named "/std"; romfs_device demo_image 3; dev_named "/mmc"].

Lemma demo_devs_rep : dm_rep (demo_table demo_devs) demo_devs.
Proof.
  split.
  - split; [done|]. split; [done|]. split; [done|].
    repeat constructor; eexists; (split; [reflexivity|split; [done|vm_compute; congruence]]).
  - apply (bool_decide_unpack (NoDup (lname <$> demo_devs))). vm_compute. done.
Qed.

Theorem dm_register_spec_witness :
  ∃ s' r, dm_register (demo_table demo_devs) (Some (dev_named "/rfs")) = Some (s', r) ∧
    r = 3 ∧ dm_rep s' (demo_devs ++ [dev_named "/rfs"]) ∧ world s' = (romfs_init_state, None).
Proof.
  destruct (dm_register_spec (demo_table demo_devs) demo_devs (dev_named "/rfs") (txt "/rfs") demo_devs_rep eq_refl) as (s' & r & H & Hr).
  exists s', r. split; [exact H|].
  destruct (decide (head (txt "/rfs") ≠ Some 47 ∨ DM_MAX_DEV_NAME < msize (txt "/rfs"))) as [[N|N]|_];
    [by destruct N|vm_compute in N; discriminate N|].
  destruct (decide (lname (dev_named "/rfs") ∈ lname <$> demo_devs)) as [N|_].
  { exfalso. revert N. apply (bool_decide_unpack (lname (dev_named "/rfs") ∉ lname <$> demo_devs)). vm_compute. done. }
  destruct (decide (length demo_devs = 16%nat)) as [N|_]; [discriminate N|exact Hr].
Defined.

Theorem dm_unregister_removes_witness :
  ∃ s', dm_unregister (demo_table demo_devs) (Some (name (romfs_device demo_image 3))) = Some (s', DM_OK) ∧
    dm_rep s' [dev_named "/std"; dev_named "/mmc"] ∧ world s' = (romfs_init_state, None).
Proof.
  exact (dm_unregister_removes (demo_table demo_devs) demo_devs 1 (romfs_device demo_image 3) demo_devs_rep eq_refl ltac:(cbn; lia)).
Defined.

Theorem dm_unregister_loses_last_witness :
  ∃ s', dm_unregister (demo_table demo_devs) (Some (name (dev_named "/std"))) = Some (s', DM_OK) ∧
    dm_get_device_at s' 0 = Some (romfs_device demo_image 3) ∧ dm_get_device_at s' 1 = Some (romfs_device demo_image 3) ∧
    dm_find s' (txt "/mmc" ++ [0]) = Some (dm_get_num_devices s').
Proof.
  exact (dm_unregister_loses_last (demo_table demo_devs) demo_devs 0 (dev_named "/std") (dev_named "/mmc") demo_devs_rep eq_refl
    ltac:(cbn; lia) eq_refl).
Defined.

(** Opening "/ROM/a.lua": the file is on descriptor 0 of the device of index 1. *)
Theorem dm_open_routes_witness :
  let s := demo_table demo_devs in
  let w' := (Romfs [MkFS 8 0 8 true; FS_zero; FS_zero; FS_zero] 1 0 0, None) in
  ∃ desc, open_r rom_errno s (Some (txt "/ROM/a.lua" ++ [0])) 0 0 = Some (set_world s w', desc) ∧ 0 <= desc < 32768 ∧
    ∀ s' ptr len, dm_rep s' demo_devs →
      read_r rom_errno s' desc ptr len
      = '(w, ptr, r) ← ('(s, ptr, r) ← romfs_read_r demo_image (world s').1 0 ptr len; Some ((s, (world s').2), ptr, r));
        Some (set_world s' w, ptr, r).
Proof.
  intros s w'.
  destruct (dm_open_routes rom_errno s demo_devs 1 (romfs_device demo_image 3) (txt "/ROM") (txt "a.lua") (txt "/ROM/a.lua" ++ [0]) 0 0
    (λ w path flags mode, '(s, r) ← romfs_open_r demo_image 3 w.1 path flags mode; Some ((s, w.2), r)) w' 0 demo_devs_rep eq_refl eq_refl eq_refl)
    as (_ & desc & H1 & H2 & H3); [repeat constructor; done|split; [done|vm_compute; congruence]|done|reflexivity|reflexivity|vm_compute; reflexivity|lia|].
  exists desc. split; [exact H1|]. split; [exact H2|]. intros s' ptr len Hs'.
  destruct (H3 s' ptr len Hs') as [Hr _]. exact (Hr _ eq_refl).
Defined.

(** Two memory spaces of 16 and 8 bytes; the last request finds no space. *)
Theorem sbrk_blocks_disjoint_witness :
  let first k := if k =? 0 then 100 else if k =? 1 then 200 else 0 in
  let last k := if k =? 0 then 116 else if k =? 1 then 208 else 0 in
  ∃ h blocks, sbrk_run first last 3 (Heap 0 0) [10; 8; 20] [] = Some (h, blocks) ∧ blocks = [(200, 8); (100, 10)] ∧
    (∀ b, b ∈ blocks → ∃ k, 0 <= k < 2 ∧ first k <= b.1 ∧ 0 <= b.2 ∧ b.1 + b.2 <= last k).
Proof.
  intros first last.
  destruct (sbrk_blocks_disjoint first last 2 eq_refl) with (fuel := 3%nat) (reqs := [10; 8; 20]) as (h & bs & H1 & H2 & _).
  - intros k Hk. assert (k = 0 ∨ k = 1) as [-> | ->] by lia; vm_compute; split; congruence.
  - intros j k Hj Hk Hne. assert (j = 0 ∧ k = 1 ∨ j = 1 ∧ k = 0) as [[-> ->] | [-> ->]] by lia; vm_compute; [left|right]; congruence.
  - lia.
  - exists h, bs. split; [exact H1|]. split; [|exact H2]. vm_compute in H1. congruence.
Defined.
