(* ===== verification/Salloc.v ===== *)
(** * The simple allocator (src/salloc.c)

    Memory is the byte at every address; a block's header is two little-endian words, the next block's
    address with the taken flag on top, and the previous block's, both divided by the
    unit of 8 bytes. Pointers and sizes are 32 bits wide. *)
From S2P Require Import Prelude.

Definition DYN_SIZE_MULT : Z := 8.
Definition DYN_SIZE_MULT_SHIFT : Z := 3.
Definition DYN_HEADER_SIZE : Z := 8.
Definition DYN_MIN_SPLIT_SIZE : Z := 16.

Abbreviation bmem := (Z → Z).

Definition ld32 (m : bmem) (a : Z) : Z := of_le32 (m a) (m (a + 1)) (m (a + 2)) (m (a + 3)).

(** Storing bytes from [a] on. *)
Definition store (m : bmem) (a : Z) (bs : list Z) : bmem :=
  λ x, if (a <=? x) && (x <? a + msize bs) then nth (Z.to_nat (x - a)) bs 0 else m x.

Definition st32 (m : bmem) (a v : Z) : bmem := store m a (le32 v).

Definition s_act_size (size : Z) : Z :=
  if ctrue (Z.land size (DYN_SIZE_MULT - 1))
  then u32 (Z.shiftl (Z.shiftr size DYN_SIZE_MULT_SHIFT + 1) DYN_SIZE_MULT_SHIFT) else size.

Definition s_get_next_block (m : bmem) (ptr : Z) : Z :=
  u32 (Z.shiftl (Z.land (ld32 m ptr) 2147483647) DYN_SIZE_MULT_SHIFT).

Definition s_set_next_block (m : bmem) (ptr next : Z) : bmem :=
  st32 m ptr (Z.lor (Z.land (ld32 m ptr) 2147483648) (Z.shiftr next DYN_SIZE_MULT_SHIFT)).

Definition s_get_prev_block (m : bmem) (ptr : Z) : Z :=
  u32 (Z.shiftl (Z.land (ld32 m (ptr + 4)) 2147483647) DYN_SIZE_MULT_SHIFT).

Definition s_set_prev_block (m : bmem) (ptr prev : Z) : bmem :=
  st32 m (ptr + 4) (Z.lor (Z.land (ld32 m (ptr + 4)) 2147483648) (Z.shiftr prev DYN_SIZE_MULT_SHIFT)).

Definition s_get_block_size (m : bmem) (ptr : Z) : Z :=
  let next := s_get_next_block m ptr in if negb (next =? 0) then u32 (next - ptr) else 0.

Definition s_mark_block_taken (m : bmem) (where_ : Z) : bmem := st32 m where_ (Z.lor (ld32 m where_) 2147483648).

Definition s_mark_block_free (m : bmem) (where_ : Z) : bmem := st32 m where_ (Z.land (ld32 m where_) 2147483647).

Definition s_is_block_free (m : bmem) (where_ : Z) : bool := Z.land (ld32 m where_) 2147483648 =? 0.

Definition s_create_new_block (m : bmem) (where_ next prev : Z) : bmem :=
  st32 (st32 m where_ (Z.shiftr next DYN_SIZE_MULT_SHIFT)) (where_ + 4) (Z.shiftr prev DYN_SIZE_MULT_SHIFT).

(** The loops over free neighbours; [fuel] bounds the blocks. *)
Fixpoint free_before (fuel : nat) (m : bmem) (temp1 : Z) : option Z :=
  if s_is_block_free m temp1 then
    match fuel with O => None | S fuel => free_before fuel m (s_get_prev_block m temp1) end
  else Some temp1.

Fixpoint free_after (fuel : nat) (m : bmem) (temp2 : Z) : option Z :=
  if s_is_block_free m temp2 then
    match fuel with O => None | S fuel => free_after fuel m (s_get_next_block m temp2) end
  else Some temp2.

Definition s_compact_free (fuel : nat) (m : bmem) (ptr : Z) : option bmem :=
  let m := s_mark_block_free m ptr in
  temp1 ← free_before fuel m ptr;
  let temp1 := s_get_next_block m temp1 in
  temp2 ← free_after fuel m ptr;
  Some (if negb (temp1 =? ptr) || negb (s_get_prev_block m temp2 =? ptr)
        then s_set_prev_block (s_set_next_block m temp1 temp2) temp2 temp1 else m).

(** "Best-fit only for now": the free block with the least size that is enough. *)
Fixpoint best_fit (fuel : nat) (m : bmem) (size temp minsize pblock : Z) : option (Z * Z) :=
  if temp =? 0 then Some (minsize, pblock)
  else
    match fuel with
    | O => None
    | S fuel =>
        let bsize := s_get_block_size m temp in
        if s_is_block_free m temp && ((size <=? bsize) && (bsize <? minsize))
        then best_fit fuel m size (s_get_next_block m temp) bsize temp
        else best_fit fuel m size (s_get_next_block m temp) minsize pblock
    end.

(** Making the part of a block from [temp] on a block of its own. *)
Definition split_block (m : bmem) (pblock temp : Z) : bmem :=
  let next := s_get_next_block m pblock in
  let m := s_set_prev_block m temp pblock in
  let m := s_set_next_block m temp next in
  let m := s_set_prev_block m next temp in
  s_set_next_block m pblock temp.

Definition s_get_free_block (fuel : nat) (m : bmem) (size pstart : Z) : option (bmem * Z) :=
  if size =? 0 then Some (m, 0)
  else
    let size := s_act_size (u32 (size + DYN_HEADER_SIZE)) in
    '(minsize, pblock) ← best_fit fuel m size (s_get_next_block m pstart) (u32 (-1)) 0;
    if pblock =? 0 then Some (m, 0)
    else
      let m := s_mark_block_taken m pblock in
      m ← (if (size <? minsize) && (DYN_MIN_SPLIT_SIZE <=? u32 (minsize - size))
           then let temp := pblock + size in s_compact_free fuel (split_block m pblock temp) temp
           else Some m);
      Some (m, pblock + DYN_HEADER_SIZE).

Definition s_free_block (fuel : nat) (m : bmem) (ptr : Z) : option bmem :=
  s_compact_free fuel m (ptr - DYN_HEADER_SIZE).

Definition s_get_actual_block_size (m : bmem) (ptr : Z) : Z :=
  u32 (s_get_block_size m (ptr - DYN_HEADER_SIZE) - DYN_HEADER_SIZE).

Definition s_shrink_block (fuel : nat) (m : bmem) (pblock size : Z) : option bmem :=
  let pblock := pblock - DYN_HEADER_SIZE in
  let size := s_act_size (u32 (size + DYN_HEADER_SIZE)) in
  let bsize := s_get_block_size m pblock in
  if (bsize <=? size) || (u32 (bsize - size) <? DYN_MIN_SPLIT_SIZE) then Some m
  else let temp := pblock + size in s_compact_free fuel (split_block m pblock temp) temp.

(** The memory spaces: [first i] is 0 when there is no space of index [i]. *)
Section heap.
Context (first last : Z → Z).

Record salloc := Salloc { s_initialized : bool; s_mem : bmem }.

Definition s_init_space (m : bmem) (pstart plast : Z) : bmem :=
  let memspace := u32 (plast - pstart) in
  let g1 := pstart in
  let crt := g1 + DYN_SIZE_MULT in
  let g2 := g1 + memspace - DYN_SIZE_MULT in
  let m := s_create_new_block m g1 crt 0 in
  let m := s_create_new_block m crt g2 g1 in
  let m := s_create_new_block m g2 0 crt in
  let m := s_mark_block_taken m g1 in
  let m := s_mark_block_taken m g2 in
  s_mark_block_free m crt.

Fixpoint s_init_from (fuel : nat) (m : bmem) (i : Z) : option bmem :=
  if first i =? 0 then Some m
  else match fuel with O => None | S fuel => s_init_from fuel (s_init_space m (first i) (last i)) (i + 1) end.

Definition s_init (fuel : nat) (s : salloc) : option salloc :=
  m ← s_init_from fuel (s_mem s) 0; Some (Salloc true m).

Definition ensure_init (fuel : nat) (s : salloc) : option salloc :=
  if s_initialized s then Some s else s_init fuel s.

Fixpoint smalloc_from (fuel : nat) (m : bmem) (size i : Z) : option (bmem * Z) :=
  if first i =? 0 then Some (m, 0)
  else
    match fuel with
    | O => None
    | S fuel' =>
        '(m, ptr) ← s_get_free_block fuel m size (first i);
        if negb (ptr =? 0) then Some (m, ptr) else smalloc_from fuel' m size (i + 1)
    end.

Definition smalloc (fuel : nat) (s : salloc) (size : Z) : option (salloc * Z) :=
  s ← ensure_init fuel s;
  '(m, ptr) ← smalloc_from fuel (s_mem s) size 0;
  Some (Salloc (s_initialized s) m, ptr).

Definition sfree (fuel : nat) (s : salloc) (ptr : Z) : option salloc :=
  if (ptr =? 0) || negb (s_initialized s) then Some s
  else m ← s_free_block fuel (s_mem s) ptr; Some (Salloc (s_initialized s) m).

Definition scalloc (fuel : nat) (s : salloc) (nmemb size : Z) : option (salloc * Z) :=
  s ← ensure_init fuel s;
  '(s, ptr) ← smalloc fuel s (u32 (nmemb * size));
  if negb (ptr =? 0)
  then Some (Salloc (s_initialized s) (store (s_mem s) ptr (replicate (Z.to_nat (u32 (nmemb * size))) 0)), ptr)
  else Some (s, ptr).

(** [memmove]: the source's bytes are read before the destination is written. *)
Definition memmove (m : bmem) (dst src n : Z) : bmem := store m dst (m <$> seqZ src n).

Definition srealloc (fuel : nat) (s : salloc) (ptr size : Z) : option (salloc * Z) :=
  s ← ensure_init fuel s;
  if ptr =? 0 then smalloc fuel s size
  else if size =? 0 then s ← sfree fuel s ptr; Some (s, 0)
  else
    let act := s_get_actual_block_size (s_mem s) ptr in
    if act =? size then Some (s, ptr)
    else if size <? act then
      m ← s_shrink_block fuel (s_mem s) ptr size; Some (Salloc (s_initialized s) m, ptr)
    else
      '(s, newptr) ← smalloc fuel s size;
      if newptr =? 0 then Some (s, 0)
      else
        let m := memmove (s_mem s) newptr ptr (s_get_actual_block_size (s_mem s) ptr) in
        s ← sfree fuel (Salloc (s_initialized s) m) ptr;
        Some (s, newptr).
End heap.

(** ** Headers *)

Lemma store_out m a bs x : ¬ (a <= x < a + msize bs) → store m a bs x = m x.
Proof. intros H. unfold store. destruct (Z.leb_spec a x), (Z.ltb_spec x (a + msize bs)); try done. lia. Qed.

Lemma store_in m a bs x : a <= x < a + msize bs → store m a bs x = nth (Z.to_nat (x - a)) bs 0.
Proof. intros H. unfold store. by rewrite (proj2 (Z.leb_le _ _)), (proj2 (Z.ltb_lt _ _)) by lia. Qed.

Lemma ld32_ext m m' a : (∀ x, a <= x < a + 4 → m' x = m x) → ld32 m' a = ld32 m a.
Proof. intros H. unfold ld32. by rewrite !H by lia. Qed.

Lemma ld32_st32 m a v : ld32 (st32 m a v) a = u32 v.
Proof.
  unfold ld32, st32. rewrite !store_in by (change (msize (le32 v)) with 4; lia).
  rewrite Z.sub_diag, !Z.add_simpl_l. apply of_le32_le32.
Qed.

Lemma st32_out m a v x : ¬ (a <= x < a + 4) → st32 m a v x = m x.
Proof. apply (store_out m a (le32 v)). Qed.

(** A pointer that a header can hold. *)
Definition ptr_ok (a : Z) : Prop := 0 <= a < 4294967296 ∧ a mod 8 = 0.

Lemma flag_word w : Z.land w 2147483648 = if Z.testbit w 31 then 2147483648 else 0.
Proof.
  change 2147483648 with (Z.shiftl 1 31). apply Z.bits_inj'. intros i Hi.
  rewrite Z.land_spec, testbit_shiftl_1 by lia. destruct (Z.testbit w 31) eqn:E.
  - rewrite testbit_shiftl_1 by lia. destruct (Z.eqb_spec i 31); [subst; by rewrite E|apply andb_false_r].
  - rewrite Z.bits_0. destruct (Z.eqb_spec i 31); [subst; by rewrite E|apply andb_false_r].
Qed.

Lemma is_free_bit m a : s_is_block_free m a = negb (Z.testbit (ld32 m a) 31).
Proof. unfold s_is_block_free. rewrite flag_word. by destruct (Z.testbit _ 31). Qed.

Lemma next_word m a : s_get_next_block m a = u32 (ld32 m a mod 2147483648 * 8).
Proof.
  unfold s_get_next_block, DYN_SIZE_MULT_SHIFT. change 2147483647 with (Z.shiftl 1 31 - 1).
  rewrite land_ones_mod, Z.shiftl_mul_pow2 by lia. done.
Qed.

Lemma prev_word m a : s_get_prev_block m a = u32 (ld32 m (a + 4) mod 2147483648 * 8).
Proof.
  unfold s_get_prev_block, DYN_SIZE_MULT_SHIFT. change 2147483647 with (Z.shiftl 1 31 - 1).
  rewrite land_ones_mod, Z.shiftl_mul_pow2 by lia. done.
Qed.

(** A word made of a flag and a pointer. *)
Definition mkword (t : bool) (a : Z) : Z := a / 8 + (if t then 2147483648 else 0).

Lemma mkword_facts t a : ptr_ok a →
  0 <= mkword t a < 4294967296 ∧ u32 (mkword t a mod 2147483648 * 8) = a ∧ Z.testbit (mkword t a) 31 = t.
Proof.
  intros [Ha Hm]. unfold mkword.
  assert (0 <= a / 8 < 536870912 ∧ a = a / 8 * 8) as [Hq E] by (Z.div_mod_to_equations; lia).
  split; [destruct t; lia|]. split.
  - rewrite (Z.add_comm (a / 8)). replace (if t then 2147483648 else 0) with ((if t then 1 else 0) * 2147483648) by (destruct t; done).
    rewrite Z.add_comm, Z.mod_add, Z.mod_small by lia. rewrite <- E. by apply u32_id.
  - assert (Z.b2z (Z.testbit (a / 8 + (if t then 2147483648 else 0)) 31) = Z.b2z t) as Hb; [|by apply Z.b2z_inj].
    rewrite Z.testbit_spec' by lia. change (2 ^ 31) with 2147483648.
    destruct t; cbn [Z.b2z]; Z.div_mod_to_equations; lia.
Qed.

Lemma lor_word w a : ptr_ok a → Z.lor (Z.land w 2147483648) (Z.shiftr a 3) = mkword (Z.testbit w 31) a.
Proof.
  intros [Ha Hm]. unfold mkword. rewrite flag_word, Z.shiftr_div_pow2 by lia. change (2 ^ 3) with 8.
  assert (0 <= a / 8 < 2 ^ 31) by (Z.div_mod_to_equations; lia).
  destruct (Z.testbit w 31); [|rewrite Z.lor_0_l; lia].
  rewrite Z.lor_comm. change 2147483648 with (Z.shiftl 1 31). rewrite lor_shiftl_add by lia. done.
Qed.

(** A header: the next block, whether the block is taken, the previous block. *)
Definition hdr (m : bmem) (a next : Z) (t : bool) (prev : Z) : Prop :=
  s_get_next_block m a = next ∧ s_is_block_free m a = negb t ∧ s_get_prev_block m a = prev.

Lemma hdr_ext m m' a nx t p : (∀ x, a <= x < a + 8 → m' x = m x) → hdr m a nx t p → hdr m' a nx t p.
Proof.
  intros H. unfold hdr. rewrite !next_word, !prev_word, !is_free_bit.
  rewrite (ld32_ext m m' a), (ld32_ext m m' (a + 4)); [done|intros; apply H; lia..].
Qed.

Lemma set_next_word m a nx : ptr_ok nx →
  s_get_next_block (s_set_next_block m a nx) a = nx ∧
  s_is_block_free (s_set_next_block m a nx) a = s_is_block_free m a.
Proof.
  intros H. unfold s_set_next_block, DYN_SIZE_MULT_SHIFT. rewrite lor_word by done.
  destruct (mkword_facts (Z.testbit (ld32 m a) 31) nx H) as (H1 & H2 & H3).
  rewrite next_word, !is_free_bit, ld32_st32, (u32_id (mkword _ _)), H2, H3 by done. done.
Qed.

Lemma set_prev_word m a p : ptr_ok p → s_get_prev_block (s_set_prev_block m a p) a = p.
Proof.
  intros H. unfold s_set_prev_block, DYN_SIZE_MULT_SHIFT. rewrite lor_word by done.
  destruct (mkword_facts (Z.testbit (ld32 m (a + 4)) 31) p H) as (H1 & H2 & H3).
  by rewrite prev_word, ld32_st32, (u32_id (mkword _ _)), H2 by done.
Qed.

Lemma set_next_out m a nx x : ¬ (a <= x < a + 4) → s_set_next_block m a nx x = m x.
Proof. apply st32_out. Qed.

Lemma set_prev_out m a p x : ¬ (a + 4 <= x < a + 8) → s_set_prev_block m a p x = m x.
Proof. intros. apply st32_out. lia. Qed.

Lemma low_out m m' a : (∀ x, ¬ (a <= x < a + 4) → m' x = m x) → s_get_prev_block m' a = s_get_prev_block m a.
Proof. intros H. rewrite !prev_word. f_equal. rewrite (ld32_ext m m'); [done|]. intros. apply H. lia. Qed.

Lemma high_out m m' a : (∀ x, ¬ (a + 4 <= x < a + 8) → m' x = m x) →
  s_get_next_block m' a = s_get_next_block m a ∧ s_is_block_free m' a = s_is_block_free m a.
Proof. intros H. rewrite !next_word, !is_free_bit. rewrite (ld32_ext m m'); [done|]. intros. apply H. lia. Qed.

Lemma hdr_set_next m a nx t p nx' : ptr_ok nx' → hdr m a nx t p → hdr (s_set_next_block m a nx') a nx' t p.
Proof.
  intros Hp (H1 & H2 & H3). destruct (set_next_word m a nx' Hp) as [E1 E2]. unfold hdr. rewrite E1, E2.
  rewrite (low_out m); [done|apply set_next_out].
Qed.

Lemma hdr_set_prev m a nx t p p' : ptr_ok p' → hdr m a nx t p → hdr (s_set_prev_block m a p') a nx t p'.
Proof.
  intros Hp (H1 & H2 & H3). unfold hdr. rewrite set_prev_word by done.
  destruct (high_out m (s_set_prev_block m a p') a (set_prev_out m a p')) as [-> ->]. done.
Qed.

Lemma testbit_mod31 w : Z.testbit (w mod 2147483648) 31 = false ∧ (w mod 2147483648) mod 2147483648 = w mod 2147483648.
Proof.
  change 2147483648 with (2 ^ 31). rewrite Z.mod_pow2_bits_high by lia. split; [done|]. apply Z.mod_mod. done.
Qed.

Lemma hdr_mark_free m a nx t p : hdr m a nx t p → hdr (s_mark_block_free m a) a nx false p.
Proof.
  intros (H1 & H2 & H3). unfold hdr, s_mark_block_free.
  rewrite (low_out m) by (intros; by apply st32_out). rewrite next_word, is_free_bit, ld32_st32.
  change 2147483647 with (Z.shiftl 1 31 - 1). rewrite land_ones_mod by lia. change (2 ^ 31) with 2147483648.
  rewrite (u32_id (ld32 m a mod 2147483648)) by zlia. destruct (testbit_mod31 (ld32 m a)) as [-> ->]. by rewrite <- next_word.
Qed.

Lemma hdr_mark_taken m a nx t p : hdr m a nx t p → hdr (s_mark_block_taken m a) a nx true p.
Proof.
  intros (H1 & H2 & H3). unfold hdr, s_mark_block_taken.
  rewrite (low_out m) by (intros; by apply st32_out). rewrite next_word, is_free_bit, ld32_st32.
  rewrite testbit_u32, Z.lor_spec, orb_true_r by lia. split; [|done].
  rewrite <- H1, next_word. do 2 f_equal. change 2147483648 with (2 ^ 31). apply Z.bits_inj'. intros i Hi.
  destruct (decide (i < 31)); [|by rewrite !Z.mod_pow2_bits_high by lia].
  rewrite !Z.mod_pow2_bits_low, testbit_u32, Z.lor_spec by lia. change (2 ^ 31) with (Z.shiftl 1 31).
  rewrite testbit_shiftl_1, (proj2 (Z.eqb_neq i 31)) by lia. apply orb_false_r.
Qed.

Lemma mark_free_out m a x : ¬ (a <= x < a + 4) → s_mark_block_free m a x = m x.
Proof. apply st32_out. Qed.

Lemma mark_taken_out m a x : ¬ (a <= x < a + 4) → s_mark_block_taken m a x = m x.
Proof. apply st32_out. Qed.

(** ** The list of blocks

    A block is its size, header included, and whether it is taken. [seg]: the blocks [l] in memory from
    address [a], the block before being at [p], up to the block at [a'], whose previous block is at [p'];
    [chain]: the blocks up to the end guard. *)
Abbreviation blocks := (list (Z * bool)).

Fixpoint seg (m : bmem) (p a : Z) (l : blocks) (p' a' : Z) : Prop :=
  match l with
  | [] => p = p' ∧ a = a'
  | (n, t) :: l => hdr m a (a + n) t p ∧ 8 <= n ∧ n mod 8 = 0 ∧ seg m a (a + n) l p' a'
  end.

Fixpoint total (l : blocks) : Z := match l with [] => 0 | (n, _) :: l => n + total l end.

Definition chain (m : bmem) (p a : Z) (l : blocks) (g2 : Z) : Prop :=
  ∃ p', seg m p a l p' g2 ∧ hdr m g2 0 true p'.

Definition heap (m : bmem) (g1 : Z) (l : blocks) (g2 : Z) : Prop :=
  ptr_ok g1 ∧ 0 < g1 ∧ g2 + 8 <= 4294967296 ∧ chain m 0 g1 ((8, true) :: l) g2.

Abbreviation all_free l := (Forall (λ b, b.2 = false) l).

(** [l] starts with a taken block, or is empty and followed by the guard. *)
Definition starts_taken (l : blocks) : Prop := match l with (_, t) :: _ => t = true | [] => True end.

Lemma total_app l1 l2 : total (l1 ++ l2) = total l1 + total l2.
Proof. induction l1 as [|[n t] l1 IH]; cbn [app total]; lia. Qed.

Lemma seg_app m p a l1 l2 p' a' :
  seg m p a (l1 ++ l2) p' a' ↔ ∃ q b, seg m p a l1 q b ∧ seg m q b l2 p' a'.
Proof.
  revert p a. induction l1 as [|[n t] l1 IH]; intros p a; cbn [app seg].
  - split; [intros H; by exists p, a|intros (q & b & [-> ->] & H); done].
  - rewrite IH. split.
    + intros (H1 & H2 & H3 & q & b & H4 & H5). exists q, b. done.
    + intros (q & b & (H1 & H2 & H3 & H4) & H5). split; [done|]. split; [done|]. split; [done|]. by exists q, b.
Qed.

Lemma chain_app m p a l1 l2 g2 :
  chain m p a (l1 ++ l2) g2 ↔ ∃ q b, seg m p a l1 q b ∧ chain m q b l2 g2.
Proof.
  unfold chain. split.
  - intros (p' & H & Hg). apply seg_app in H as (q & b & H1 & H2). exists q, b. split; [done|]. by exists p'.
  - intros (q & b & H1 & p' & H2 & Hg). exists p'. split; [|done]. apply seg_app. by exists q, b.
Qed.

Lemma chain_cons m p a n t l g2 :
  chain m p a ((n, t) :: l) g2 ↔ hdr m a (a + n) t p ∧ 8 <= n ∧ n mod 8 = 0 ∧ chain m a (a + n) l g2.
Proof. unfold chain. cbn [seg]. split.
  - intros (p' & (H1 & H2 & H3 & H4) & Hg). split_and!; [done..|by exists p'].
  - intros (H1 & H2 & H3 & p' & H4 & Hg). by exists p'.
Qed.

Lemma seg_addr m p a l p' a' : seg m p a l p' a' → a' = a + total l ∧ 0 <= total l ∧ total l mod 8 = 0.
Proof.
  revert p a. induction l as [|[n t] l IH]; intros p a; cbn [seg total]; [intros [-> ->]; split; [lia|done]|].
  intros (_ & H2 & H3 & H4). destruct (IH _ _ H4) as (E1 & E2 & E3). split; [lia|]. split; [lia|]. zlia.
Qed.

Lemma chain_addr m p a l g2 : chain m p a l g2 → g2 = a + total l ∧ 0 <= total l ∧ total l mod 8 = 0.
Proof. intros (p' & H & _). by eapply seg_addr. Qed.

Lemma seg_ext m m' p a l p' a' : (∀ x, a <= x < a' → m' x = m x) → seg m p a l p' a' → seg m' p a l p' a'.
Proof.
  revert p a. induction l as [|[n t] l IH]; intros p a Hx; cbn [seg]; [done|]. intros (H1 & H2 & H3 & H4).
  destruct (seg_addr _ _ _ _ _ _ H4) as (E1 & E2 & _). split; [|split; [done|split; [done|]]].
  - apply (hdr_ext m); [|done]. intros x Hxx. apply Hx. lia.
  - apply IH; [|done]. intros x Hxx. apply Hx. lia.
Qed.

Lemma chain_ext m m' p a l g2 : (∀ x, a <= x < g2 + 8 → m' x = m x) → chain m p a l g2 → chain m' p a l g2.
Proof.
  intros Hx Hc. destruct (chain_addr _ _ _ _ _ Hc) as (E1 & E2 & _). destruct Hc as (p' & H & Hg).
  exists p'. split; [apply (seg_ext m)|apply (hdr_ext m)]; try done; intros; apply Hx; lia.
Qed.

(** The first header of a chain, and linking it to another previous block. *)
Lemma chain_first m p a l g2 : chain m p a l g2 →
  ∃ nx t, hdr m a nx t p ∧ (starts_taken l → t = true).
Proof.
  destruct l as [|[n t] l]; intros (p' & H & Hg); cbn [seg starts_taken] in *.
  - destruct H as [-> ->]. by exists 0, true.
  - destruct H as (H & _). by exists (a + n), t.
Qed.

Lemma chain_relink m p a l g2 p' : ptr_ok p' → chain m p a l g2 → chain (s_set_prev_block m a p') p' a l g2.
Proof.
  intros Hp Hc. destruct l as [|[n t] l].
  - destruct Hc as (q & [-> ->] & Hg). exists p'. split; [done|]. by eapply hdr_set_prev.
  - apply chain_cons in Hc as (H1 & H2 & H3 & H4). apply chain_cons. split; [by eapply hdr_set_prev|].
    split; [done|]. split; [done|]. apply (chain_ext m); [|done]. intros x Hx. apply set_prev_out. lia.
Qed.

(** *** The loops over free neighbours *)

Lemma free_before_ok fuel m p0 a F p1 x :
  seg m p0 a F p1 x → all_free F → s_is_block_free m p0 = false → (length F <= fuel)%nat →
  free_before fuel m p1 = Some p0.
Proof.
  revert fuel p1 x. induction F as [|[n t] F IH] using rev_ind; intros fuel p1 x Hs Hf Hp Hl.
  - destruct Hs as [<- _]. destruct fuel; cbn [free_before]; by rewrite Hp.
  - apply seg_app in Hs as (q & b & H1 & H2 & _ & _ & <- & _). apply Forall_app in Hf as [Hf1 Hf2].
    apply Forall_cons in Hf2 as [Ht _]. cbn in Ht. subst t. destruct H2 as (_ & Hfree & Hprev).
    rewrite length_app in Hl. cbn [length] in Hl. destruct fuel as [|fuel]; [lia|]. cbn [free_before].
    rewrite Hfree, Hprev. cbn [negb]. apply (IH fuel q b); [done..|lia].
Qed.

Lemma free_after_ok fuel m p a F p1 z :
  seg m p a F p1 z → all_free F → s_is_block_free m z = false → (length F <= fuel)%nat →
  free_after fuel m a = Some z.
Proof.
  revert fuel p a. induction F as [|[n t] F IH]; intros fuel p a Hs Hf Hz Hl.
  - destruct Hs as [_ <-]. destruct fuel; cbn [free_after]; by rewrite Hz.
  - destruct Hs as ((Hnext & Hfree & _) & _ & _ & Hs). apply Forall_cons in Hf as [Ht Hf]. cbn in Ht. subst t.
    cbn [length] in Hl. destruct fuel as [|fuel]; [lia|]. cbn [free_after]. rewrite Hfree, Hnext. cbn [negb].
    apply (IH fuel a); [done..|lia].
Qed.

(** *** Joining a block with its free neighbours *)
Lemma compact_ok fuel m p0 a F1 q ptr n t F2 p1 z B g2 :
  ptr_ok a → ptr_ok z → p0 + 8 <= a →
  seg m p0 a F1 q ptr → hdr m ptr (ptr + n) t q → 8 <= n → seg m ptr (ptr + n) F2 p1 z → chain m p1 z B g2 →
  all_free F1 → all_free F2 → starts_taken B → s_is_block_free m p0 = false → s_get_next_block m p0 = a →
  (length F1 < fuel)%nat → (length F2 < fuel)%nat →
  ∃ m', s_compact_free fuel m ptr = Some m' ∧ hdr m' a z false p0 ∧ chain m' a z B g2 ∧
    (∀ x, x < a ∨ z + 8 <= x → m' x = m x).
Proof.
  intros Ha Hz Hp0 Hs1 Hh Hn Hs2 Hc Hf1 Hf2 HB Hp0t Hp0n Hl1 Hl2.
  destruct (seg_addr _ _ _ _ _ _ Hs1) as (E1 & T1 & _). destruct (seg_addr _ _ _ _ _ _ Hs2) as (E2 & T2 & _).
  unfold s_compact_free. set (m1 := s_mark_block_free m ptr).
  assert (∀ x, ¬ (ptr <= x < ptr + 4) → m1 x = m x) as Hm1 by (intros; by apply mark_free_out).
  apply (hdr_mark_free m ptr) in Hh. fold m1 in Hh.
  apply (seg_ext m m1) in Hs1; [|intros; apply Hm1; lia]. apply (seg_ext m m1) in Hs2; [|intros; apply Hm1; lia].
  apply (chain_ext m m1) in Hc; [|intros; apply Hm1; lia].
  assert (hdr m1 p0 a true (s_get_prev_block m p0)) as (Hn0 & Ht0 & _).
  { apply (hdr_ext m); [intros; apply Hm1; lia|]. done. }
  destruct (chain_first _ _ _ _ _ Hc) as (zn & zt & (Hzn & Hzt & Hzp) & Hst). rewrite (Hst HB) in *. clear Hst.
  assert (seg m1 p0 a (F1 ++ [(n, false)]) ptr (ptr + n)) as Hs1'.
  { apply seg_app. exists q, ptr. split; [done|]. cbn [seg]. split; [done|]. split; [done|].
    split; [|done]. destruct Ha, Hz, (seg_addr _ _ _ _ _ _ Hs1) as (_ & _ & ?), (seg_addr _ _ _ _ _ _ Hs2) as (_ & _ & ?). zlia. }
  rewrite (free_before_ok fuel m1 p0 a _ ptr _ Hs1'); [|apply Forall_app; split; [done|by constructor]|done|rewrite length_app; cbn; lia].
  cbn [mbind option_bind]. rewrite Hn0.
  assert (seg m1 q ptr ((n, false) :: F2) p1 z) as Hs2'.
  { cbn [seg]. split; [done|]. split; [done|]. split; [|done]. apply seg_app in Hs1' as (? & ? & Hx & _ & _ & ? & _).
    done. }
  rewrite (free_after_ok fuel m1 q ptr _ p1 z Hs2'); [|by constructor|done|cbn; lia].
  cbn [mbind option_bind]. rewrite Hzp. eexists. split; [done|].
  destruct (negb (a =? ptr) || negb (p1 =? ptr)) eqn:Eq.
  - set (m2 := s_set_next_block m1 a z).
    assert (∀ x, ¬ (a <= x < a + 4) → m2 x = m1 x) as Hm2 by (intros; by apply set_next_out).
    assert (∀ x, ¬ (z + 4 <= x < z + 8) → s_set_prev_block m2 z a x = m2 x) as Hm3 by (intros; by apply set_prev_out).
    assert (∃ nx, hdr m1 a nx false p0) as [nx Hha].
    { destruct F1 as [|[n1 t1] F1]; cbn [app seg] in Hs1'; destruct Hs1' as (Hha & _).
      - by eexists.
      - apply Forall_cons in Hf1 as [Ht _]. cbn in Ht. subst t1. by eexists. }
    split; [|split].
    + apply (hdr_ext m2); [intros; apply Hm3; lia|]. by eapply hdr_set_next.
    + apply chain_relink with (p := p1); [done|]. apply (chain_ext m1); [|done]. intros. apply Hm2. lia.
    + intros x Hx. rewrite Hm3, Hm2, Hm1 by lia. done.
  - apply orb_false_iff in Eq as [Eq1%negb_false_iff%Z.eqb_eq Eq2%negb_false_iff%Z.eqb_eq].
    subst a. assert (F1 = []) as ->.
    { destruct F1 as [|[n1 t1] F1]; [done|]. cbn [total] in E1. cbn [seg] in Hs1.
      destruct Hs1 as (_ & ? & _ & Hx). destruct (seg_addr _ _ _ _ _ _ Hx). lia. }
    destruct Hs1 as [<- _]. assert (z = ptr + n) as Ez.
    { destruct F2 as [|[n2 t2] F2]; [cbn [total] in E2; lia|]. exfalso.
      destruct (decide (F2 = [])) as [->|HF2].
      - cbn [seg] in Hs2. destruct Hs2 as (_ & ? & _ & ? & _). lia.
      - clear - Hs2 Eq2 Hn HF2. destruct (exists_last HF2) as (F3 & [n3 t3] & ->).
        change ((n2, t2) :: F3 ++ [(n3, t3)]) with (((n2, t2) :: F3) ++ [(n3, t3)]) in Hs2.
        apply seg_app in Hs2 as (u & b & Hs & _ & ? & _ & ? & _). subst.
        destruct (seg_addr _ _ _ _ _ _ Hs) as (? & ? & _). lia. }
    split; [|split].
    + by rewrite Eq1, Ez.
    + by rewrite Eq1, <- Eq2.
    + intros x Hx. apply Hm1. lia.
Qed.

(** *** Lists of blocks without two free neighbours *)

Definition ends_taken (l : blocks) : Prop := match last l with Some (_, t) => t = true | None => True end.

Fixpoint no_adj (l : blocks) : Prop :=
  match l with
  | (_, t) :: l => (t = true ∨ starts_taken l) ∧ no_adj l
  | [] => True
  end.

Lemma no_adj_app l1 l2 : no_adj (l1 ++ l2) ↔ no_adj l1 ∧ no_adj l2 ∧ (ends_taken l1 ∨ starts_taken l2).
Proof.
  induction l1 as [|[n t] l1 IH]; cbn [app no_adj]; [unfold ends_taken; cbn; tauto|].
  rewrite IH. destruct l1 as [|[n1 t1] l1].
  - unfold ends_taken. cbn. tauto.
  - cbn [starts_taken app]. assert (ends_taken ((n, t) :: (n1, t1) :: l1) = ends_taken ((n1, t1) :: l1)) as -> by done.
    tauto.
Qed.

Lemma ends_taken_cons x l : l ≠ [] → ends_taken (x :: l) = ends_taken l.
Proof. intros H. unfold ends_taken. by destruct l. Qed.

(** The free blocks at the end and at the start of a list. *)
Lemma free_suffix (l : blocks) : ∃ A F, l = A ++ F ∧ all_free F ∧ ends_taken A.
Proof.
  induction l as [|[n t] l (A & F & E & HF & HA)] using rev_ind; [by exists [], []|]. destruct t.
  - exists (l ++ [(n, true)]), []. rewrite app_nil_r. split; [done|]. split; [done|]. unfold ends_taken. by rewrite last_snoc.
  - exists A, (F ++ [(n, false)]). rewrite app_assoc, E. split; [done|]. split; [|done].
    apply Forall_app. split; [done|by constructor].
Qed.

Lemma free_prefix (l : blocks) : ∃ F B, l = F ++ B ∧ all_free F ∧ starts_taken B.
Proof.
  induction l as [|[n t] l (F & B & -> & HF & HB)]; [by exists [], []|]. destruct t.
  - by exists [], ((n, true) :: F ++ B).
  - exists ((n, false) :: F), B. split; [done|]. split; [by constructor|done].
Qed.

(** *** The heap around one block *)

(** The address of the block after the blocks [A]. *)
Definition addr (g1 : Z) (A : blocks) : Z := g1 + 8 + total A.

Lemma heap_split m g1 A B g2 :
  heap m g1 (A ++ B) g2 ↔
  ptr_ok g1 ∧ 0 < g1 ∧ g2 + 8 <= 4294967296 ∧
  ∃ q, seg m 0 g1 ((8, true) :: A) q (addr g1 A) ∧ chain m q (addr g1 A) B g2.
Proof.
  unfold heap. change ((8, true) :: A ++ B) with (((8, true) :: A) ++ B). rewrite chain_app. split.
  - intros (H1 & H2 & H3 & q & b & H4 & H5). split; [done|]. split; [done|]. split; [done|]. exists q.
    destruct (seg_addr _ _ _ _ _ _ H4) as (E & _ & _). cbn [total] in E. unfold addr.
    replace (g1 + 8 + total A) with b by lia. done.
  - intros (H1 & H2 & H3 & q & H4 & H5). split; [done|]. split; [done|]. split; [done|]. by exists q, (addr g1 A).
Qed.

Lemma heap_bounds m g1 A B g2 : heap m g1 (A ++ B) g2 →
  ptr_ok (addr g1 A) ∧ g1 + 8 <= addr g1 A ∧ g2 = addr g1 A + total B ∧ 0 <= total B ∧ total B mod 8 = 0.
Proof.
  rewrite heap_split. intros ([Hg Hgm] & H2 & H3 & q & H4 & H5).
  destruct (seg_addr _ _ _ _ _ _ H4) as (E & E2 & E3). destruct (chain_addr _ _ _ _ _ H5) as (E4 & E5 & E6).
  cbn [seg] in H4. destruct H4 as (_ & _ & _ & H4). destruct (seg_addr _ _ _ _ _ _ H4) as (E7 & E8 & _).
  unfold ptr_ok, addr in *. cbn [total] in *. split; [split; [lia|zlia]|]. lia.
Qed.

(** The block before. *)
Lemma seg_last m p a l q b k t : seg m p a (l ++ [(k, t)]) q b → hdr m q b t (s_get_prev_block m q) ∧ q + 8 <= b ∧ a <= q.
Proof.
  intros H. apply seg_app in H as (u & c & H1 & H2). cbn [seg] in H2. destruct H2 as ((E1 & E2 & E3) & H3 & _ & <- & <-).
  destruct (seg_addr _ _ _ _ _ _ H1). split; [|lia]. done.
Qed.

Lemma heap_before m g1 A q : seg m 0 g1 ((8, true) :: A) q (addr g1 A) → ends_taken A →
  s_is_block_free m q = false ∧ s_get_next_block m q = addr g1 A ∧ q + 8 <= addr g1 A.
Proof.
  intros Hs HA. assert (ends_taken ((8, true) :: A)) as HA' by (destruct A; [done|by rewrite ends_taken_cons]).
  destruct (exists_last (l:=(8, true) :: A)) as (l & [k t] & E); [done|]. rewrite E in Hs, HA'.
  unfold ends_taken in HA'. rewrite last_snoc in HA'. subst t.
  destruct (seg_last _ _ _ _ _ _ _ _ Hs) as ((H1 & H2 & _) & H3 & _). done.
Qed.

Lemma heap_compact fuel m g1 A F1 n t F2 B g2 :
  heap m g1 (A ++ F1 ++ (n, t) :: F2 ++ B) g2 → ends_taken A → all_free F1 → all_free F2 → starts_taken B →
  (length F1 < fuel)%nat → (length F2 < fuel)%nat →
  ∃ m', s_compact_free fuel m (addr g1 (A ++ F1)) = Some m' ∧
    heap m' g1 (A ++ (total F1 + n + total F2, false) :: B) g2 ∧
    (∀ x, x < addr g1 A ∨ addr g1 A + (total F1 + n + total F2) + 8 <= x → m' x = m x).
Proof.
  intros Hh HA HF1 HF2 HB Hl1 Hl2. destruct (heap_bounds _ _ _ _ _ Hh) as (Hpa & Hga & Hg2 & _).
  apply heap_split in Hh as (H1 & H2 & H3 & q & Hs & Hc).
  destruct (heap_before _ _ _ _ Hs HA) as (Hq1 & Hq2 & Hq3).
  apply chain_app in Hc as (q1 & ptr & Hs1 & Hc). apply chain_cons in Hc as (Hh & Hn & Hn8 & Hc).
  apply chain_app in Hc as (p1 & z & Hs2 & Hc).
  destruct (seg_addr _ _ _ _ _ _ Hs1) as (E1 & T1 & M1). destruct (seg_addr _ _ _ _ _ _ Hs2) as (E2 & T2 & M2).
  destruct (chain_addr _ _ _ _ _ Hc) as (E3 & T3 & _).
  assert (addr g1 (A ++ F1) = ptr) as -> by (unfold addr in *; rewrite total_app; lia).
  assert (z = addr g1 A + (total F1 + n + total F2)) as Ez by lia.
  destruct (compact_ok fuel m q (addr g1 A) F1 q1 ptr n t F2 p1 z B g2) as (m' & Hc1 & Hc2 & Hc3 & Hc4); try done.
  { destruct Hpa as [? ?]. split; [lia|zlia]. }
  exists m'. split; [done|]. split; [|rewrite <- Ez; exact Hc4].
  apply heap_split. split; [done|]. split; [done|]. split; [done|]. exists q. split.
  - apply (seg_ext m); [|done]. intros x Hx. apply Hc4. lia.
  - apply chain_cons. rewrite <- Ez. split; [done|]. split; [lia|]. split; [zlia|]. done.
Qed.

Lemma split_ok m g1 A n B g2 size :
  heap m g1 (A ++ (n, true) :: B) g2 → 8 <= size → size mod 8 = 0 → size + 8 <= n →
  ∃ t, heap (split_block m (addr g1 A) (addr g1 A + size)) g1 (A ++ (size, true) :: (n - size, t) :: B) g2 ∧
    (∀ x, x < addr g1 A ∨ addr g1 A + n + 8 <= x → split_block m (addr g1 A) (addr g1 A + size) x = m x).
Proof.
  intros Hh Hs8 Hsm Hsn. destruct (heap_bounds _ _ _ _ _ Hh) as (Hpa & Hga & Hg2 & HT & HTm).
  apply heap_split in Hh as (H1 & H2 & H3 & q & Hs & Hc). apply chain_cons in Hc as (Hh & Hn & Hn8 & Hc).
  set (b := addr g1 A) in *. set (tmp := b + size). pose proof Hpa as [Hb1 Hb2].
  destruct (chain_addr _ _ _ _ _ Hc) as (E1 & T1 & _).
  assert (ptr_ok tmp) as Hpt by (split; [lia|unfold tmp; zlia]).
  assert (ptr_ok (b + n)) as Hpn by (split; [lia|zlia]).
  unfold split_block. destruct Hh as (Hn1 & Hn2 & Hn3). rewrite Hn1.
  set (m1 := s_set_prev_block m tmp b). set (m2 := s_set_next_block m1 tmp (b + n)).
  set (m3 := s_set_prev_block m2 (b + n) tmp). set (m4 := s_set_next_block m3 b tmp).
  assert (∀ x, ¬ (tmp + 4 <= x < tmp + 8) → m1 x = m x) as X1 by (intros; by apply set_prev_out).
  assert (∀ x, ¬ (tmp <= x < tmp + 4) → m2 x = m1 x) as X2 by (intros; by apply set_next_out).
  assert (∀ x, ¬ (b + n + 4 <= x < b + n + 8) → m3 x = m2 x) as X3 by (intros; by apply set_prev_out).
  assert (∀ x, ¬ (b <= x < b + 4) → m4 x = m3 x) as X4 by (intros; by apply set_next_out).
  exists (negb (s_is_block_free m tmp)). split.
  - apply heap_split. split; [done|]. split; [done|]. split; [done|]. exists q. split.
    + apply (seg_ext m); [|done]. intros x Hx. rewrite X4, X3, X2, X1 by lia. done.
    + apply chain_cons. split; [|split; [done|split; [done|]]].
      * apply (hdr_set_next m3 b (b + n)); [done|]. apply (hdr_ext m); [|done]. intros x Hx.
        rewrite X3, X2, X1 by lia. done.
      * apply chain_cons. fold b tmp. split; [|split; [lia|split; [zlia|]]].
        -- replace (tmp + (n - size)) with (b + n) by lia. apply (hdr_ext m2); [intros x Hx; rewrite X4, X3 by lia; done|].
           apply (hdr_set_next m1 tmp (s_get_next_block m tmp)); [done|].
           apply (hdr_set_prev m tmp _ _ (s_get_prev_block m tmp)); [done|]. split; [done|]. split; [|done].
           by rewrite negb_involutive.
        -- replace (tmp + (n - size)) with (b + n) by lia. apply (chain_ext m3); [intros x Hx; rewrite X4 by lia; done|].
           apply (chain_relink m2 b); [done|]. apply (chain_ext m); [|done]. intros x Hx. rewrite X2, X1 by lia. done.
  - intros x Hx. rewrite X4, X3, X2, X1 by lia. done.
Qed.

(** *** The search for a block *)

Fixpoint best (size a : Z) (l : blocks) (minsize pblock : Z) : Z * Z :=
  match l with
  | [] => (minsize, pblock)
  | (n, t) :: l =>
      if negb t && ((size <=? n) && (n <? minsize)) then best size (a + n) l n a
      else best size (a + n) l minsize pblock
  end.

Lemma best_fit_ok fuel m p a l g2 size ms pb :
  chain m p a l g2 → 0 < a → g2 + 8 <= 4294967296 → (length l < fuel)%nat →
  best_fit fuel m size a ms pb = Some (best size a l ms pb).
Proof.
  revert fuel p a ms pb. induction l as [|[n t] l IH]; intros fuel p a ms pb Hc Ha Hg Hl;
    (destruct fuel as [|fuel]; [cbn in Hl; lia|]); cbn [best_fit length] in *; rewrite (proj2 (Z.eqb_neq a 0)) by lia.
  - destruct Hc as (p' & [<- <-] & (H1 & H2 & _)). rewrite H2, H1. cbn [negb andb]. by destruct fuel.
  - apply chain_cons in Hc as ((H1 & H2 & _) & Hn & _ & Hc). destruct (chain_addr _ _ _ _ _ Hc) as (E & T & _).
    unfold s_get_block_size. rewrite H1, H2. rewrite (proj2 (Z.eqb_neq _ _)) by lia. cbn [negb].
    replace (a + n - a) with n by lia. rewrite u32_id by lia. cbn [best].
    destruct (negb t && ((size <=? n) && (n <? ms))); apply (IH fuel a); try done; lia.
Qed.

Lemma best_spec size a l ms pb ms' pb' :
  best size a l ms pb = (ms', pb') →
  (pb' = pb ∧ ms' = ms ∧ ∀ n, (n, false) ∈ l → size <= n → ms <= n) ∨
  (∃ A n B, l = A ++ (n, false) :: B ∧ pb' = a + total A ∧ ms' = n ∧ size <= n ∧ n < ms ∧
     ∀ k, (k, false) ∈ l → size <= k → n <= k).
Proof.
  revert a ms pb. induction l as [|[n t] l IH]; intros a ms pb; cbn [best].
  - intros. simplify_eq. left. split; [done|]. split; [done|]. intros n Hn. by apply elem_of_nil in Hn.
  - assert (∀ k, (k, false) ∈ (n, t) :: l → k = n ∧ t = false ∨ (k, false) ∈ l) as Hcons.
    { intros k Hk. apply elem_of_cons in Hk as [Hk|Hk]; [left; by simplify_eq|by right]. }
    destruct (negb t && _) eqn:E; intros Hb; apply IH in Hb.
    + apply andb_true_iff in E as [->%negb_true_iff [E1%Z.leb_le E2%Z.ltb_lt]%andb_true_iff]. right.
      destruct Hb as [(-> & -> & Hmin)|(A & k & B & -> & -> & -> & H1 & H2 & Hmin)].
      * exists [], n, l. cbn [app total]. split; [done|]. split; [lia|]. split; [done|]. split; [done|]. split; [done|].
        intros k Hk Hsk. destruct (Hcons k Hk) as [[-> _]|Hk2]; [lia|by apply Hmin].
      * exists ((n, false) :: A), k, B. cbn [app total]. split; [done|]. split; [lia|]. split; [done|]. split; [done|].
        split; [lia|]. intros k' Hk Hsk. destruct (Hcons k' Hk) as [[-> _]|Hk2]; [lia|by apply Hmin].
    + assert (∀ k, (k, false) = (n, t) → size <= k → ms <= k) as Hn.
      { intros k Hk Hsk. injection Hk as -> <-. cbn [negb andb] in E. apply andb_false_iff in E as [E%Z.leb_gt|E%Z.ltb_ge]; lia. }
      destruct Hb as [(-> & -> & Hmin)|(A & k & B & -> & -> & -> & H1 & H2 & Hmin)].
      * left. split; [done|]. split; [done|]. intros k Hk Hsk. destruct (Hcons k Hk) as [[-> ->]|Hk2]; [by apply Hn|by apply Hmin].
      * right. exists ((n, t) :: A), k, B. cbn [app total]. split; [done|]. split; [lia|]. split; [done|]. split; [done|].
        split; [lia|]. intros k' Hk Hsk. destruct (Hcons k' Hk) as [[-> ->]|Hk2]; [specialize (Hn n eq_refl Hsk); lia|by apply Hmin].
Qed.

Lemma act_size_spec x : 0 <= x → x + 8 < 4294967296 → x <= s_act_size x < x + 8 ∧ s_act_size x mod 8 = 0.
Proof.
  intros H1 H2. unfold s_act_size, DYN_SIZE_MULT, DYN_SIZE_MULT_SHIFT, ctrue.
  change (8 - 1) with (Z.shiftl 1 3 - 1). rewrite land_ones_mod, Z.shiftr_div_pow2, Z.shiftl_mul_pow2 by lia.
  change (2 ^ 3) with 8. destruct (Z.eqb_spec (x mod 8) 0); cbn [negb]; [lia|].
  rewrite u32_id by (Z.div_mod_to_equations; lia). Z.div_mod_to_equations; lia.
Qed.

Lemma heap_mark_taken m g1 A n t B g2 :
  heap m g1 (A ++ (n, t) :: B) g2 → heap (s_mark_block_taken m (addr g1 A)) g1 (A ++ (n, true) :: B) g2.
Proof.
  intros Hh. apply heap_split in Hh as (H1 & H2 & H3 & q & Hs & Hc). apply chain_cons in Hc as (Hh & Hn & Hn8 & Hc).
  apply heap_split. split; [done|]. split; [done|]. split; [done|]. exists q. split.
  - apply (seg_ext m); [|done]. intros. apply mark_taken_out. lia.
  - apply chain_cons. split; [by eapply hdr_mark_taken|]. split; [done|]. split; [done|].
    apply (chain_ext m); [|done]. intros. apply mark_taken_out. lia.
Qed.

(** What an allocation gives: the block [k] in front of what is left of the free block it was taken from. *)
Definition allocated (m m' : bmem) (g1 : Z) (l : blocks) (g2 size r : Z) : Prop :=
  ∃ A n B k rest, l = A ++ (n, false) :: B ∧ r = addr g1 A + 8 ∧ size + 8 <= k <= n ∧
    (∀ k', (k', false) ∈ l → size + 8 <= k' → n <= k') ∧
    (rest = [] ∧ k = n ∨ rest = [(n - k, false)]) ∧
    heap m' g1 (A ++ (k, true) :: rest ++ B) g2 ∧ no_adj (A ++ (k, true) :: rest ++ B) ∧
    (∀ x, x < addr g1 A ∨ addr g1 A + n + 8 <= x → m' x = m x).

Lemma no_adj_mid A n B : no_adj (A ++ (n, false) :: B) → no_adj A ∧ no_adj B ∧ ends_taken A ∧ starts_taken B.
Proof. intros (H1 & H2 & [H3|H3])%no_adj_app; cbn in *; [|done]. destruct H2 as [[?|H4] H5]; [done|]. done. Qed.

Lemma free_block_ok fuel m g1 l g2 size :
  heap m g1 l g2 → no_adj l → 0 < size → size + 16 < 4294967296 → (length l < fuel)%nat →
  ∃ m' r, s_get_free_block fuel m size g1 = Some (m', r) ∧
    ((r = 0 ∧ m' = m ∧ ∀ n, (n, false) ∈ l → n < size + 8) ∨ 0 < r ∧ allocated m m' g1 l g2 size r).
Proof.
  intros Hh Hna Hs1 Hs2 Hf. unfold s_get_free_block. rewrite (proj2 (Z.eqb_neq size 0)) by lia.
  unfold DYN_HEADER_SIZE. rewrite (u32_id (size + 8)) by lia.
  destruct (act_size_spec (size + 8)) as [HS HS8]; [lia|lia|]. set (S := s_act_size (size + 8)) in *.
  pose proof Hh as (Hg & Hg0 & Hg2 & Hc). apply chain_cons in Hc as ((Hn1 & _ & _) & _ & _ & Hc). rewrite Hn1.
  rewrite (best_fit_ok fuel m g1 (g1 + 8) l g2) by (done || lia). cbn [mbind option_bind].
  destruct (best S (g1 + 8) l (u32 (-1)) 0) as [ms pb] eqn:Hb. apply best_spec in Hb.
  change (u32 (-1)) with 4294967295 in Hb. destruct (chain_addr _ _ _ _ _ Hc) as (Eg2 & HT & _). destruct Hg as [Hga _].
  assert (∀ A n t B, l = A ++ (n, t) :: B → 8 <= n ∧ n mod 8 = 0 ∧ n <= total l ∧ 0 <= total A) as Hsz.
  { intros A n t B ->. apply chain_app in Hc as (q & b & H1 & H2). destruct (seg_addr _ _ _ _ _ _ H1) as (_ & ? & _).
    apply chain_cons in H2 as (_ & ? & ? & H3). destruct (chain_addr _ _ _ _ _ H3) as (_ & ? & _). rewrite total_app. cbn [total]. lia. }
  destruct Hb as [(-> & -> & Hmin)|(A & n & B & El & -> & -> & Hle & _ & Hmin)].
  - eexists _, _. split; [done|]. left. split; [done|]. split; [done|]. intros n Hn. pose proof Hn as Hin.
    apply list_elem_of_split in Hn as (A & B & E). destruct (Hsz _ _ _ _ E) as (? & ? & ? & _).
    destruct (decide (S <= n)) as [Hd|Hd]; [|zlia].
    specialize (Hmin n Hin Hd). lia.
  - destruct (Hsz _ _ _ _ El) as (Hn8 & Hnm & Hnt & HA0). subst l. apply no_adj_mid in Hna as (HnA & HnB & HeA & HsB).
    rewrite (proj2 (Z.eqb_neq _ _)) by lia. change (g1 + 8 + total A) with (addr g1 A).
    apply heap_mark_taken in Hh. set (m1 := s_mark_block_taken m (addr g1 A)) in *.
    assert (∀ x, ¬ (addr g1 A <= x < addr g1 A + 4) → m1 x = m x) as Hm1 by (intros; by apply mark_taken_out).
    assert (∀ k', (k', false) ∈ A ++ (n, false) :: B → size + 8 <= k' → n <= k') as Hmin'.
    { intros k' Hk Hk'. apply Hmin; [done|]. apply list_elem_of_split in Hk as (A' & B' & E).
      destruct (Hsz _ _ _ _ E) as (? & ? & _). zlia. }
    unfold DYN_MIN_SPLIT_SIZE. rewrite (u32_id (n - S)) by lia.
    destruct ((S <? n) && (16 <=? n - S)) eqn:Ed.
    + apply andb_true_iff in Ed as [E1%Z.ltb_lt E2%Z.leb_le].
      destruct (split_ok m1 g1 A n B g2 S Hh) as (t & Hh2 & Hfr); [lia|done|lia|].
      destruct (heap_compact fuel (split_block m1 (addr g1 A) (addr g1 A + S)) g1 (A ++ [(S, true)]) [] (n - S) t [] B g2)
        as (m' & Hcf & Hh3 & Hfr3); [by rewrite <- app_assoc|unfold ends_taken; by rewrite last_snoc|done|done|done|cbn; lia|cbn; lia|].
      assert (addr g1 (A ++ [(S, true)]) = addr g1 A + S) as Ea by (unfold addr; rewrite total_app; cbn [total]; lia).
      rewrite app_nil_r, Ea in Hcf. rewrite Hcf. cbn [mbind option_bind].
      eexists _, _. split; [done|]. right. split; [unfold addr; lia|]. exists A, n, B, S, [(n - S, false)].
      cbn [total] in Hh3. rewrite Z.add_0_l, Z.add_0_r, <- app_assoc in Hh3.
      split; [done|]. split; [done|]. split; [lia|]. split; [done|]. split; [by right|]. split; [done|]. split.
      * apply no_adj_app. split; [done|]. split; [|by left]. cbn. tauto.
      * intros x Hx. rewrite Hfr3, Hfr, Hm1 by (rewrite ?Ea; cbn [total]; lia). done.
    + cbn [mbind option_bind]. eexists _, _. split; [done|]. right. split; [unfold addr; lia|]. exists A, n, B, n, [].
      split; [done|]. split; [done|]. split; [lia|]. split; [done|]. split; [by left|]. split; [done|]. split.
      * apply no_adj_app. split; [done|]. split; [|by left]. cbn. tauto.
      * intros x Hx. apply Hm1. lia.
Qed.

(** C28: freeing a block: the block joins the free blocks around it, the list stays well formed without free
    neighbours, and no byte outside the joined block changes but the header behind it. *)
Theorem sfree_spec g1 g2 fuel m l1 n l2 :
  heap m g1 (l1 ++ (n, true) :: l2) g2 → no_adj (l1 ++ (n, true) :: l2) → (length l1 + length l2 < fuel)%nat →
  ∃ m' A F1 F2 B, l1 = A ++ F1 ∧ l2 = F2 ++ B ∧ all_free F1 ∧ all_free F2 ∧
    sfree fuel (Salloc true m) (addr g1 l1 + 8) = Some (Salloc true m') ∧
    heap m' g1 (A ++ (total F1 + n + total F2, false) :: B) g2 ∧
    no_adj (A ++ (total F1 + n + total F2, false) :: B) ∧
    (∀ x, x < addr g1 A ∨ addr g1 A + (total F1 + n + total F2) + 8 <= x → m' x = m x).
Proof.
  intros Hh Hna Hf. destruct (free_suffix l1) as (A & F1 & -> & HF1 & HA). destruct (free_prefix l2) as (F2 & B & -> & HF2 & HB).
  destruct (heap_bounds _ _ _ _ _ Hh) as (_ & Hga & _). destruct Hh as (Hg & Hpos & Hh). pose proof (conj Hg (conj Hpos Hh)) as Hh'.
  change (heap m g1 ((A ++ F1) ++ (n, true) :: F2 ++ B) g2) in Hh'. rewrite <- app_assoc in Hh'. rewrite !length_app in Hf.
  destruct (heap_compact fuel m g1 A F1 n true F2 B g2 Hh' HA HF1 HF2 HB) as (m' & Hc & Hh2 & Hfr); [lia|lia|].
  exists m', A, F1, F2, B. split; [done|]. split; [done|]. split; [done|]. split; [done|]. split; [|split; [done|split; [|done]]].
  - unfold sfree, s_free_block, DYN_HEADER_SIZE. rewrite (proj2 (Z.eqb_neq _ _)) by lia. cbn [s_initialized negb orb s_mem].
    replace (addr g1 (A ++ F1) + 8 - 8) with (addr g1 (A ++ F1)) by lia. by rewrite Hc.
  - apply no_adj_app in Hna as (H1 & H2 & _). apply no_adj_app in H1 as (H1 & _ & _). cbn [no_adj] in H2. destruct H2 as [_ H2].
    apply no_adj_app in H2 as (_ & H2 & _). apply no_adj_app. split; [done|]. split; [|by left]. cbn. tauto.
Qed.
(** ** The allocator's start, over one memory space *)
Section one_space.
Context (first last : Z → Z) (g1 : Z).
Hypothesis Hfirst0 : first 0 = g1.
Hypothesis Hfirst1 : first 1 = 0.

Lemma create_hdr m a nx p : ptr_ok nx → ptr_ok p → hdr (s_create_new_block m a nx p) a nx false p ∧
  ∀ x, ¬ (a <= x < a + 8) → s_create_new_block m a nx p x = m x.
Proof.
  intros Hn Hp. unfold s_create_new_block, DYN_SIZE_MULT_SHIFT.
  assert (∀ z, Z.shiftr z 3 = z / 8) as Hsh by (intros; by rewrite Z.shiftr_div_pow2).
  destruct (mkword_facts false nx Hn) as (N1 & N2 & N3). destruct (mkword_facts false p Hp) as (P1 & P2 & P3).
  unfold mkword in *. rewrite Z.add_0_r in *. rewrite !Hsh. split.
  - unfold hdr. rewrite next_word, is_free_bit, prev_word, ld32_st32.
    rewrite (ld32_ext (st32 m a (nx / 8)) _ a) by (intros; apply st32_out; lia).
    rewrite ld32_st32, !(u32_id (_ / 8)), N2, N3, P2 by done. done.
  - intros x Hx. rewrite !st32_out by lia. done.
Qed.

(** The allocator's start: a memory space that is aligned and has room for the guards becomes a heap
    with one free block. *)
Theorem salloc_init fuel m :
  ptr_ok g1 → 0 < g1 → ptr_ok (last 0) → g1 + 24 <= last 0 → (1 < fuel)%nat →
  ∃ m', s_init first last fuel (Salloc false m) = Some (Salloc true m') ∧
    heap m' g1 [(last 0 - g1 - 16, false)] (last 0 - 8) ∧ (∀ x, x < g1 ∨ last 0 <= x → m' x = m x).
Proof.
  intros [Hg Hgm] Hpos [Hl Hlm] Hsz Hf. unfold s_init. do 2 (destruct fuel as [|fuel]; [lia|]). cbn [s_mem s_init_from].
  rewrite Hfirst0, (proj2 (Z.eqb_neq g1 0)) by lia. change (0 + 1) with 1. rewrite Hfirst1. change (0 =? 0) with true.
  cbv iota. cbn [mbind option_bind]. eexists. split; [done|]. unfold s_init_space, DYN_SIZE_MULT.
  rewrite u32_id by lia. replace (g1 + (last 0 - g1) - 8) with (last 0 - 8) by lia. set (e := last 0 - 8). set (c := g1 + 8).
  assert (ptr_ok e ∧ ptr_ok c ∧ ptr_ok g1 ∧ ptr_ok 0) as (He & Hc & Hg1 & H0).
  { unfold e, c. repeat split; try lia; zlia. }
  destruct (create_hdr m g1 c 0 Hc H0) as [A1 A2]. set (m1 := s_create_new_block m g1 c 0) in *.
  destruct (create_hdr m1 c e g1 He Hg1) as [B1 B2]. set (m2 := s_create_new_block m1 c e g1) in *.
  destruct (create_hdr m2 e 0 c H0 Hc) as [C1 C2]. set (m3 := s_create_new_block m2 e 0 c) in *.
  set (m4 := s_mark_block_taken m3 g1). set (m5 := s_mark_block_taken m4 e). set (m6 := s_mark_block_free m5 c).
  assert (∀ x, ¬ (g1 <= x < g1 + 4) → m4 x = m3 x) as X4 by (intros; by apply mark_taken_out).
  assert (∀ x, ¬ (e <= x < e + 4) → m5 x = m4 x) as X5 by (intros; by apply mark_taken_out).
  assert (∀ x, ¬ (c <= x < c + 4) → m6 x = m5 x) as X6 by (intros; by apply mark_free_out).
  split.
  - split; [done|]. split; [done|]. split; [lia|]. exists c. cbn [seg]. fold c. split; [|].
    + split; [|split; [lia|split; [done|split; [|split; [lia|split; [unfold e, c in *; zlia|split; [done|lia]]]]]]].
      * apply (hdr_ext m4); [intros; rewrite X6, X5 by lia; done|]. apply (hdr_mark_taken m3 g1 c false 0).
        apply (hdr_ext m1); [intros; rewrite C2, B2 by lia; done|done].
      * replace (c + (last 0 - g1 - 16)) with e by lia. apply (hdr_mark_free m5 c e false g1).
        apply (hdr_ext m2); [intros; rewrite X5, X4, C2 by lia; done|done].
    + apply (hdr_ext m5); [intros; rewrite X6 by lia; done|]. apply (hdr_mark_taken m4 e 0 false c).
      apply (hdr_ext m3); [intros; rewrite X4 by lia; done|done].
  - intros x Hx. rewrite X6, X5, X4, C2, B2, A2 by lia. done.
Qed.
End one_space.

(** ** The allocator over all its memory spaces *)
Lemma heap_ext m m' g1 l g2 : (∀ x, g1 <= x < g2 + 8 → m' x = m x) → heap m g1 l g2 → heap m' g1 l g2.
Proof. intros Hx (H1 & H2 & H3 & H4). split_and!; try done. by apply (chain_ext m). Qed.

(** A memory space: its first address, its blocks, its end guard. *)
Abbreviation space := (Z * blocks * Z)%type.

Section spaces.
Context (first last : Z → Z).

(** Every space of the platform's table is a heap without free neighbours, and they do not overlap. *)
Definition arena (m : bmem) (sps : list space) : Prop :=
  (∀ i g1 l g2, sps !! i = Some (g1, l, g2) → first (Z.of_nat i) = g1 ∧ heap m g1 l g2 ∧ no_adj l) ∧
  first (Z.of_nat (length sps)) = 0 ∧
  (∀ i j sp sp', i ≠ j → sps !! i = Some sp → sps !! j = Some sp' → sp.2 + 8 <= sp'.1.1 ∨ sp'.2 + 8 <= sp.1.1).

(** No free block of a space has room for [size] bytes. *)
Definition no_room (size : Z) (l : blocks) : Prop := ∀ n, (n, false) ∈ l → n < size + 8.

Lemma arena_update m m' sps i g1 l g2 l' lo hi :
  arena m sps → sps !! i = Some (g1, l, g2) → heap m' g1 l' g2 → no_adj l' →
  g1 <= lo → hi <= g2 + 8 → (∀ x, x < lo ∨ hi <= x → m' x = m x) → arena m' (<[i := (g1, l', g2)]> sps).
Proof.
  intros (Ha & H0 & Hd) Hi Hh Hna Hlo Hhi Hx. pose proof (lookup_lt_Some _ _ _ Hi) as Hlt. split_and!.
  - intros j g l1 h Hj. destruct (decide (i = j)) as [->|Hne].
    + rewrite list_lookup_insert_eq in Hj by done. simplify_eq. by destruct (Ha _ _ _ _ Hi) as (? & _).
    + rewrite list_lookup_insert_ne in Hj by done. destruct (Ha _ _ _ _ Hj) as (H1 & H2 & H3). split_and!; [done| |done].
      apply (heap_ext m); [|done]. intros x Hxx. apply Hx. destruct (Hd _ _ _ _ Hne Hi Hj) as [?|?]; cbn in *; lia.
  - by rewrite length_insert.
  - intros j1 j2 sp sp' Hne H1 H2.
    assert (∀ j s, <[i := (g1, l', g2)]> sps !! j = Some s → ∃ s0, sps !! j = Some s0 ∧ s0.1.1 = s.1.1 ∧ s0.2 = s.2) as Hs.
    { intros j s Hj. destruct (decide (i = j)) as [->|Hn]; [rewrite list_lookup_insert_eq in Hj by done; simplify_eq; by eexists|].
      rewrite list_lookup_insert_ne in Hj by done. by exists s. }
    destruct (Hs _ _ H1) as (s1 & S1 & <- & <-), (Hs _ _ H2) as (s2 & S2 & <- & <-). by eapply Hd.
Qed.

(** The loop over the spaces: the first one with room answers. *)
Lemma smalloc_from_ok size m sps : arena m sps → 0 < size → size + 16 < 4294967296 → ∀ rest done fuel,
  sps = done ++ rest → (∀ sp, sp ∈ rest → length sp.1.2 + length rest < fuel)%nat → (∀ sp, sp ∈ done → no_room size sp.1.2) →
  ∃ m' r, smalloc_from first fuel m size (Z.of_nat (length done)) = Some (m', r) ∧
    (r = 0 ∧ m' = m ∧ (∀ sp, sp ∈ sps → no_room size sp.1.2) ∨
     ∃ i g1 l g2, sps !! i = Some (g1, l, g2) ∧ (∀ j sp, (j < i)%nat → sps !! j = Some sp → no_room size sp.1.2) ∧
       0 < r ∧ allocated m m' g1 l g2 size r).
Proof.
  intros (Ha & H0 & Hd) H1 H2. induction rest as [|[[g1 l] g2] rest IH]; intros dn fuel E Hf Hno.
  - rewrite app_nil_r in E. subst dn. exists m, 0. destruct fuel; cbn [smalloc_from]; rewrite H0; by (split; [done|left]).
  - assert (sps !! length dn = Some (g1, l, g2)) as Hi by (subst sps; by apply list_lookup_middle).
    destruct (Ha _ _ _ _ Hi) as (Hg & Hh & Hna). pose proof (Hf (g1, l, g2) ltac:(left)) as Hfl. cbn in Hfl.
    destruct fuel as [|fuel]; [lia|]. cbn [smalloc_from]. pose proof Hh as (_ & Hpos & _). rewrite Hg, (proj2 (Z.eqb_neq g1 0)) by lia.
    destruct (free_block_ok (S fuel) m g1 l g2 size Hh Hna H1 H2) as (m' & r & Hr & Hcase); [lia|]. rewrite Hr. cbn [mbind option_bind].
    destruct Hcase as [(-> & -> & Hn)|[Hr0 Hal]].
    + change (negb (0 =? 0)) with false. cbv iota. destruct (IH (dn ++ [(g1, l, g2)]) fuel) as (m2 & r2 & Hr2 & Hc).
      * by rewrite <- app_assoc.
      * intros sp Hsp. specialize (Hf sp ltac:(by right)). cbn in Hf. lia.
      * intros sp Hsp; apply elem_of_app in Hsp as [Hsp| ->%list_elem_of_singleton]; [by apply Hno|exact Hn].
      * rewrite length_app in Hr2. cbn [length] in Hr2. replace (Z.of_nat (length dn) + 1) with (Z.of_nat (length dn + 1)) by lia. by exists m2, r2.
    + rewrite (proj2 (Z.eqb_neq r 0)) by lia. cbn [negb]. exists m', r. split; [done|]. right. exists (length dn), g1, l, g2.
      split_and!; try done. intros j sp Hj Hsp. apply Hno. subst sps. rewrite lookup_app_l in Hsp by done. by eapply list_elem_of_lookup_2.
Qed.

(** C27: allocating [size] bytes, more than none and at most 4 GB - 17, on a platform with any number of memory spaces: either no
    free block of any space has room and nothing changes, or the caller gets a taken block of enough bytes out of the smallest
    free block with room in the first space that has one, the rest stays free, the lists of blocks stay well formed without free
    neighbours, and no byte of another block changes but the header behind it. *)
Theorem smalloc_spec fuel m sps size :
  arena m sps → 0 < size → size + 16 < 4294967296 → (∀ sp, sp ∈ sps → length sp.1.2 + length sps < fuel)%nat →
  ∃ m' r, smalloc first last fuel (Salloc true m) size = Some (Salloc true m', r) ∧
    ((r = 0 ∧ m' = m ∧ ∀ g1 l g2 n, (g1, l, g2) ∈ sps → (n, false) ∈ l → n < size + 8) ∨
     ∃ i g1 A n B g2 k rest, 0 < r ∧ sps !! i = Some (g1, A ++ (n, false) :: B, g2) ∧
       (∀ j sp n', (j < i)%nat → sps !! j = Some sp → (n', false) ∈ sp.1.2 → n' < size + 8) ∧
       r = addr g1 A + 8 ∧ size + 8 <= k <= n ∧
       (∀ k', (k', false) ∈ A ++ (n, false) :: B → size + 8 <= k' → n <= k') ∧
       (rest = [] ∧ k = n ∨ rest = [(n - k, false)]) ∧
       arena m' (<[i := (g1, A ++ (k, true) :: rest ++ B, g2)]> sps) ∧
       (∀ x, x < addr g1 A ∨ addr g1 A + n + 8 <= x → m' x = m x)).
Proof.
  intros Har H1 H2 Hf. destruct (smalloc_from_ok size m sps Har H1 H2 sps [] fuel) as (m' & r & Hr & Hcase); [done|done|by intros ? ?%not_elem_of_nil|].
  unfold smalloc, ensure_init. cbn [s_initialized mbind option_bind s_mem]. cbn [length] in Hr. change (Z.of_nat 0) with 0 in Hr. rewrite Hr.
  cbn [mbind option_bind]. exists m', r. split; [done|]. destruct Hcase as [(-> & -> & Hno)|(i & g1 & l & g2 & Hi & Hfirst & Hr0 & A & n & B & k & rest & -> & Hra & Hk & Hmin & Hrest & Hh & Hna & Hx)].
  - left. split_and!; [done..|]. intros g1 l g2 n Hsp Hn. by apply (Hno _ Hsp).
  - right. exists i, g1, A, n, B, g2, k, rest. destruct Hk as [Hk1 Hk2]. split_and!; try done; [intros j sp n' Hj Hsp Hn'; by apply (Hfirst j sp Hj Hsp)|].
    pose proof Har as (Ha & _). destruct (Ha _ _ _ _ Hi) as (_ & Hhm & _).
    destruct (heap_bounds _ _ _ _ _ Hhm) as (_ & Hb1 & Hb2 & _). cbn [total] in Hb2.
    assert (0 <= total B) by (change (A ++ (n, false) :: B) with (A ++ ([(n, false)] ++ B)) in Hhm; rewrite app_assoc in Hhm; by destruct (heap_bounds _ _ _ _ _ Hhm) as (_ & _ & _ & ? & _)).
    eapply (arena_update m m' sps i g1 _ g2 _ (addr g1 A) (addr g1 A + n + 8)); try done; lia.
Qed.
End spaces.

(** ** The theorems at work: 64 bytes at address 256 *)

Definition demo_first (i : Z) : Z := if i =? 0 then 256 else 0.
Definition demo_last (i : Z) : Z := 320.

Theorem salloc_init_witness :
  ∃ m', s_init demo_first demo_last 2 (Salloc false (λ _, 0)) = Some (Salloc true m') ∧
    heap m' 256 [(48, false)] 312 ∧ (∀ x, x < 256 ∨ 320 <= x → m' x = 0).
Proof.
  exact (salloc_init demo_first demo_last 256 eq_refl eq_refl 2 (λ _, 0) ltac:(split; [lia|done]) ltac:(lia) ltac:(split; [vm_compute; split; congruence|done])
    ltac:(vm_compute; congruence) ltac:(lia)).
Defined.

(** The heap with a taken block of 24 bytes and a free one of 24. *)
Definition demo_heap : bmem :=
  store (store (store (store (λ _, 170) 256 (le32 (264 / 8 + 2147483648) ++ le32 0))
    264 (le32 (288 / 8 + 2147483648) ++ le32 (256 / 8))) 288 (le32 (312 / 8) ++ le32 (264 / 8)))
    312 (le32 2147483648 ++ le32 (288 / 8)).

Lemma demo_heap_ok : heap demo_heap 256 [(24, true); (24, false)] 312.
Proof.
  split; [split; [lia|done]|]. split; [lia|]. split; [lia|]. exists 288. cbn [seg]. unfold hdr.
  split; [|by vm_compute]. repeat split; try lia; vm_compute; congruence.
Qed.

(** Two memory spaces: the heap above, and one free block of 48 bytes at address 512. *)
Definition demo_first2 (i : Z) : Z := if i =? 0 then 256 else if i =? 1 then 512 else 0.

Definition demo_heap2 : bmem :=
  store (store (store demo_heap 512 (le32 (520 / 8 + 2147483648) ++ le32 0)) 520 (le32 (568 / 8) ++ le32 (512 / 8)))
    568 (le32 2147483648 ++ le32 (520 / 8)).

Lemma demo_arena : arena demo_first2 demo_heap2 [(256, [(24, true); (24, false)], 312); (512, [(48, false)], 568)].
Proof.
  split_and!; [|done|].
  - intros [|[|i]] g1 l g2 E; [| |done]; injection E as <- <- <-; (split; [done|]; split; [|cbn; tauto]).
    + split; [split; [lia|done]|]. split; [lia|]. split; [lia|]. exists 288. cbn [seg]. unfold hdr.
      split; [|by vm_compute]. repeat split; try lia; vm_compute; congruence.
    + split; [split; [lia|done]|]. split; [lia|]. split; [lia|]. exists 520. cbn [seg]. unfold hdr.
      split; [|by vm_compute]. repeat split; try lia; vm_compute; congruence.
  - intros [|[|i]] [|[|j]] sp sp' Hne E1 E2; try done; injection E1 as <-; injection E2 as <-; cbn; lia.
Qed.

(** A request for 32 bytes has no room in the first space: the block is in the second. *)
Theorem smalloc_spec_witness :
  ∃ m' r sps', smalloc demo_first2 demo_last 5 (Salloc true demo_heap2) 32 = Some (Salloc true m', r) ∧ r = 528 ∧ arena demo_first2 m' sps'.
Proof.
  destruct (smalloc_spec demo_first2 demo_last 5 demo_heap2 _ 32 demo_arena ltac:(lia) ltac:(lia)) as (m' & r & H & Hcase).
  { intros sp Hsp. apply elem_of_cons in Hsp as [->|Hsp]; [cbn; lia|]. apply list_elem_of_singleton in Hsp as ->. cbn; lia. }
  exists m', r. destruct Hcase as [(_ & _ & Hno)|(i & g1 & A & n & B & g2 & k & rest & _ & Hi & Hj & Hr & Hk & _ & _ & Hh & _)].
  - exfalso. specialize (Hno 512 [(48, false)] 568 48 ltac:(right; left) ltac:(left)). lia.
  - eexists. split; [exact H|]. split; [|exact Hh]. destruct i as [|[|i]]; cbn in Hi; [|injection Hi as <- E _|done].
    + injection Hi as <- E _. exfalso. destruct A as [|[a ta] A]; [discriminate E|]. injection E as _ _ E. destruct A as [|? A]; [injection E as <- _; lia|].
      injection E as _ E. destruct A; discriminate E.
    + destruct A as [|? A]; [by rewrite Hr|]. injection E as _ E. destruct A; discriminate E.
Defined.

Theorem sfree_spec_witness :
  ∃ m', sfree 4 (Salloc true demo_heap) 272 = Some (Salloc true m') ∧ heap m' 256 [(48, false)] 312.
Proof.
  destruct (sfree_spec 256 312 4 demo_heap [] 24 [(24, false)] demo_heap_ok ltac:(cbn; tauto) ltac:(cbn; lia))
    as (m' & A & F1 & F2 & B & E1 & E2 & _ & _ & H & Hh & Hna & _).
  exists m'. split; [exact H|]. symmetry in E1. apply app_eq_nil in E1 as [-> ->].
  destruct F2 as [|[k t] F2].
  - exfalso. cbn [app] in E2. subst B. destruct Hna as [[N|N] _]; discriminate N.
  - injection E2 as <- <- E2. symmetry in E2. apply app_eq_nil in E2 as [-> ->]. exact Hh.
Defined.

(** A request near the top of the size type: the sum with the header wraps, and the caller gets a
    block of 24 bytes for a request of almost 4 GB. *)
Example smalloc_huge_wraps :
  snd <$> smalloc demo_first demo_last 4 (Salloc true demo_heap) 4294967292 = Some 296.
Proof. vm_compute. reflexivity. Qed.
