(* ===== verification/Xmodem.v ===== *)
(** * The XMODEM receiver (src/xmodem.c)

    The line is a state [W] with the functions that [xmodem_init] installs; a read answers -1 on a
    timeout. The destination buffer is the caller's block, extended by the parameter [realloc]. *)
From S2P Require Import Prelude.

Definition PXM_ACKET_SIZE : Z := 128.
Definition XM_SOH : Z := 1.
Definition XM_ACK : Z := 6.
Definition XM_NAK : Z := 21.
Definition XM_CAN : Z := 24.
Definition XM_EOT : Z := 4.
Definition XMODEM_PXM_ACKET_DELAY : Z := 10000.
Definition XMODEM_INITIAL_BUFFER_SIZE : Z := 1024.
Definition XMODEM_INCREMENT_AMMOUNT : Z := 512.
Definition XMODEM_TIMEOUT : Z := 1000000.
Definition XMODEM_RETRY_LIMIT : Z := 20.
Definition XMODEM_ERROR_REMOTECANCEL : Z := -1.
Definition XMODEM_ERROR_RETRYEXCEED : Z := -3.
Definition XMODEM_ERROR_OUTOFMEM : Z := -4.

(** The inner loops of the CRC: one bit, and one byte of the packet. *)
Definition crc_bit (chk : Z) : Z :=
  if ctrue (Z.land chk 32768) then Z.lxor (u32 (Z.shiftl chk 1)) 4129 else u32 (Z.shiftl chk 1).

Definition crc_byte (chk b : Z) : Z := Nat.iter 8 crc_bit (Z.lxor chk (Z.shiftl b 8)).

Definition packet_crc (data : list Z) : Z := Z.land (foldl crc_byte 0 data) 65535.

(** The checks of [xmodem_get_record] on a packet of [PXM_ACKET_SIZE + 4] bytes. *)
Definition record_check (blocknum : Z) (p : list Z) : option bool :=
  n ← ld p 0;
  if negb (n =? blocknum) then Some false
  else
    c ← ld p 1;
    if negb (c =? u8 (Z.lnot blocknum)) then Some false
    else
      data ← mread p 2 PXM_ACKET_SIZE;
      let chk := packet_crc data in
      hi ← ld p 130;
      if negb (hi =? Z.land (Z.shiftr chk 8) 255) then Some false
      else
        lo ← ld p 131;
        Some (lo =? Z.land chk 255).

Section receiver.
Context {W : Type} (xmodem_in_func : W → Z → W * Z) (xmodem_out_func : W → Z → W) (realloc : mem → Z → option mem).

(** [cancel]: XMODEM_FLUSH_AND_XM_CAN. *)
Fixpoint xmodem_flush (fuel : nat) (w : W) (cancel : bool) : option W :=
  match fuel with
  | O => None
  | S fuel =>
      let '(w, c) := xmodem_in_func w XMODEM_PXM_ACKET_DELAY in
      if negb (c =? -1) then xmodem_flush fuel w cancel
      else Some (if cancel then xmodem_out_func (xmodem_out_func (xmodem_out_func w XM_CAN) XM_CAN) XM_CAN else w)
  end.

(** "Read packet": the bytes read, and whether they are all there. *)
Fixpoint read_packet (n : nat) (w : W) : W * list Z * bool :=
  match n with
  | O => (w, [], true)
  | S n =>
      let '(w, ch) := xmodem_in_func w XMODEM_TIMEOUT in
      if ch =? -1 then (w, [], false)
      else let '(w, l, ok) := read_packet n w in (w, u8 ch :: l, ok)
  end.

Definition xmodem_get_record (w : W) (blocknum : Z) (pbuf : mem) : option (W * mem * bool) :=
  let '(w, l, full) := read_packet (Z.to_nat (PXM_ACKET_SIZE + 4)) w in
  pbuf ← mwrite pbuf 0 l;
  ok ← (if (full : bool) then record_check blocknum pbuf else Some false);
  if (ok : bool) then Some (w, pbuf, true) else Some (xmodem_out_func w XM_NAK, pbuf, false).

Fixpoint receive_loop (fuel ff : nat) (w : W) (starting : bool) (packnum : Z) (buf : mem) (retries limit size : Z)
    (dest : mem) : option (W * mem * Z) :=
  match fuel with
  | O => None
  | S fuel =>
      if retries =? 0 then w ← xmodem_flush ff w true; Some (w, dest, XMODEM_ERROR_RETRYEXCEED)
      else
        let retries := retries - 1 in
        let w := if starting then xmodem_out_func w 67 else w in
        let '(w, ch) := xmodem_in_func w XMODEM_TIMEOUT in
        if (ch =? -1) || (negb (ch =? XM_SOH) && negb (ch =? XM_EOT) && negb (ch =? XM_CAN))
        then receive_loop fuel ff w starting packnum buf retries limit size dest
        else if ch =? XM_EOT then
          w ← xmodem_flush ff (xmodem_out_func w XM_ACK) false; Some (w, dest, s32 size)
        else if ch =? XM_CAN then
          w ← xmodem_flush ff (xmodem_out_func w XM_ACK) false; Some (w, dest, XMODEM_ERROR_REMOTECANCEL)
        else
          '((w, buf), ok) ← xmodem_get_record w packnum buf;
          if negb ok then receive_loop fuel ff w false packnum buf retries limit size dest
          else
            w ← xmodem_flush ff w false;
            let packnum := u8 (packnum + 1) in
            g ← (if limit <? u32 (size + PXM_ACKET_SIZE) then
                   let limit := u32 (limit + XMODEM_INCREMENT_AMMOUNT) in Some (limit, realloc dest limit)
                 else Some (limit, Some dest));
            match g with
            | (_, None) => w ← xmodem_flush ff w true; Some (w, dest, XMODEM_ERROR_OUTOFMEM)
            | (limit, Some dest) =>
                let w := xmodem_out_func w XM_ACK in
                data ← mread buf 2 PXM_ACKET_SIZE;
                dest ← mwrite dest size data;
                receive_loop fuel ff w false packnum buf XMODEM_RETRY_LIMIT limit (u32 (size + PXM_ACKET_SIZE)) dest
            end
  end.

(** [buf] is the local packet buffer, with whatever it holds. *)
Definition xmodem_receive (fuel ff : nat) (w : W) (buf dest : mem) : option (W * mem * Z) :=
  receive_loop fuel ff w true 1 buf XMODEM_RETRY_LIMIT XMODEM_INITIAL_BUFFER_SIZE 0 dest.
End receiver.

(** ** The CRC is CRC-16/XMODEM

    The reference works on 16 bits: the code lets the register grow and masks it at the end. *)
Definition crc16_bit (c : Z) : Z :=
  if 32768 <=? c then Z.lxor (u16 (2 * c)) 4129 else u16 (2 * c).

Definition crc16_byte (c b : Z) : Z := Nat.iter 8 crc16_bit (Z.lxor c (256 * b)).

Definition crc16 (data : list Z) : Z := foldl crc16_byte 0 data.

Lemma u16_bits z : u16 z = Z.land z (Z.ones 16).
Proof. unfold u16. by rewrite Z.land_ones by lia. Qed.

Lemma u16_lxor a b : u16 (Z.lxor a b) = Z.lxor (u16 a) (u16 b).
Proof.
  rewrite !u16_bits. apply Z.bits_inj'. intros i Hi. rewrite !Z.land_spec, !Z.lxor_spec, !Z.land_spec.
  by destruct (Z.testbit a i), (Z.testbit b i), (Z.testbit (Z.ones 16) i).
Qed.

Lemma u16_u32 z : u16 (u32 z) = u16 z.
Proof. zlia. Qed.

Lemma bit15 c : 0 <= c < 65536 → Z.testbit c 15 = (32768 <=? c).
Proof.
  intros Hc. apply Z.b2z_inj. rewrite Z.testbit_spec' by lia. change (2 ^ 15) with 32768.
  destruct (Z.leb_spec 32768 c); cbn [Z.b2z]; Z.div_mod_to_equations; lia.
Qed.

Lemma crc_bit_low c : u16 (crc_bit c) = crc16_bit (u16 c).
Proof.
  unfold crc_bit, crc16_bit. change 32768 with (Z.shiftl 1 15) at 1. rewrite ctrue_land_bit by lia.
  assert (Z.testbit c 15 = (32768 <=? u16 c)) as ->.
  { rewrite <- bit15 by apply u16_range. unfold u16. change 65536 with (2 ^ 16). symmetry. apply Z.mod_pow2_bits_low. lia. }
  rewrite Z.shiftl_mul_pow2 by lia. change (2 ^ 1) with 2.
  assert (u16 (u32 (c * 2)) = u16 (2 * u16 c)) as E by zlia.
  destruct (32768 <=? u16 c); [rewrite u16_lxor|]; by rewrite E.
Qed.

Lemma crc_iter_low n c : u16 (Nat.iter n crc_bit c) = Nat.iter n crc16_bit (u16 c).
Proof.
  revert c. induction n as [|n IH]; intros c; [done|]. rewrite !Nat.iter_succ_r, IH. by rewrite crc_bit_low.
Qed.

Lemma crc_byte_low c b : byte_ok b → u16 (crc_byte c b) = crc16_byte (u16 c) b.
Proof.
  intros Hb. unfold crc_byte, crc16_byte. rewrite crc_iter_low, u16_lxor, Z.shiftl_mul_pow2 by lia.
  change (2 ^ 8) with 256. do 2 f_equal. unfold byte_ok in Hb. rewrite u16_id; lia.
Qed.

Lemma packet_crc_eq data : bytes_ok data → packet_crc data = crc16 data.
Proof.
  intros Hd. unfold packet_crc. change 65535 with (Z.ones 16). rewrite <- u16_bits. unfold crc16.
  change 0 with (u16 0) at 2. generalize 0 as c. induction Hd as [|b data Hb _ IH]; intros c; cbn [foldl]; [done|].
  by rewrite IH, crc_byte_low.
Qed.

Lemma crc16_range data : bytes_ok data → 0 <= crc16 data < 65536.
Proof.
  intros Hd. rewrite <- packet_crc_eq by done. unfold packet_crc. change 65535 with (Z.ones 16).
  rewrite <- u16_bits. apply u16_range.
Qed.

(** The check value that the receiver computes, in a register that grows to 32 bits, is the 16-bit
    CRC of the data (polynomial 0x1021, initial value 0). *)
Theorem xmodem_crc data : bytes_ok data → packet_crc data = crc16 data.
Proof. apply packet_crc_eq. Qed.

(** The published check value of this CRC. *)
Theorem xmodem_crc_witness : packet_crc (txt "123456789") = 12739.
Proof. rewrite (xmodem_crc (txt "123456789")); [reflexivity|]. repeat constructor; done. Defined.

(** ** Transmissions

    The line as the list of what the receiver reads, -1 for a timeout, and of what it sends. *)
Abbreviation line := (list Z * list Z)%type.

Definition line_in (w : line) (timeout : Z) : line * Z :=
  match w.1 with [] => (w, -1) | c :: r => ((r, w.2), c) end.

Definition line_out (w : line) (c : Z) : line := (w.1, w.2 ++ [c]).

(** The bytes of a packet after its start byte. *)
Definition packet (k : Z) (data : list Z) : list Z :=
  [k; 255 - k] ++ data ++ [Z.shiftr (crc16 data) 8; Z.land (crc16 data) 255].

(** What may come in place of a packet: silence, or a packet that fails a check. *)
Definition bad_attempt (k : Z) (a : list Z) : Prop :=
  a = [-1] ∨ ∃ body, a = XM_SOH :: body ∧ length body = 132%nat ∧ bytes_ok body ∧ record_check k body = Some false.

(** The packets from number [k] on: each with its bad attempts, followed by a pause. *)
Fixpoint sent (k : Z) (ps : list (list (list Z) * list Z)) : list Z :=
  match ps with
  | [] => []
  | (bads, data) :: ps => concat bads ++ (XM_SOH :: packet k data) ++ [-1] ++ sent (u8 (k + 1)) ps
  end.

Fixpoint sent_ok (k : Z) (ps : list (list (list Z) * list Z)) : Prop :=
  match ps with
  | [] => True
  | (bads, data) :: ps =>
      Forall (bad_attempt k) bads ∧ (length bads < 20)%nat ∧ length data = 128%nat ∧ bytes_ok data ∧ sent_ok (u8 (k + 1)) ps
  end.

Lemma record_check_packet k data :
  0 <= k < 256 → length data = 128%nat → bytes_ok data → record_check k (packet k data) = Some true.
Proof.
  intros Hk Hl Hd. pose proof (crc16_range data Hd) as Hc. unfold record_check, packet. set (c := crc16 data) in *.
  change (ld ([k; 255 - k] ++ data ++ [Z.shiftr c 8; Z.land c 255]) 0) with (Some k). cbn [mbind option_bind].
  rewrite Z.eqb_refl. cbn [negb].
  change (ld ([k; 255 - k] ++ data ++ [Z.shiftr c 8; Z.land c 255]) 1) with (Some (255 - k)). cbn [mbind option_bind].
  assert (u8 (Z.lnot k) = 255 - k) as -> by (unfold Z.lnot; zlia). rewrite Z.eqb_refl. cbn [negb].
  assert (msize data = 128) as Hm by (unfold msize; lia).
  pose proof (bytes_at_prefix ([k; 255 - k] ++ data ++ [Z.shiftr c 8; Z.land c 255]) [k; 255 - k] data _ eq_refl) as Hr. unfold bytes_at in Hr. rewrite Hm in Hr.
  change (msize [k; 255 - k]) with 2 in Hr. unfold PXM_ACKET_SIZE. rewrite Hr. cbn [mbind option_bind].
  rewrite packet_crc_eq by done. fold c.
  assert (∀ i, ld ([k; 255 - k] ++ data ++ [Z.shiftr c 8; Z.land c 255]) (130 + Z.of_nat i) = ld [Z.shiftr c 8; Z.land c 255] (Z.of_nat i)) as Hi.
  { intros i. rewrite app_assoc, ld_app_r; [|msz; lia]. f_equal. msz. lia. }
  change 130 with (130 + Z.of_nat 0). rewrite Hi. change (ld _ (Z.of_nat 0)) with (Some (Z.shiftr c 8)). cbn [mbind option_bind].
  assert (Z.land (Z.shiftr c 8) 255 = Z.shiftr c 8) as ->.
  { rewrite land_255, Z.shiftr_div_pow2 by lia. apply u8_id. change (2 ^ 8) with 256. Z.div_mod_to_equations. lia. }
  rewrite Z.eqb_refl. cbn [negb]. change 131 with (130 + Z.of_nat 1). rewrite Hi.
  change (ld _ (Z.of_nat 1)) with (Some (Z.land c 255)). cbn [mbind option_bind]. by rewrite Z.eqb_refl.
Qed.

Lemma xm_packet_bytes k data : 0 <= k < 256 → length data = 128%nat → bytes_ok data →
  length (packet k data) = 132%nat ∧ bytes_ok (packet k data).
Proof.
  intros Hk Hl Hd. pose proof (crc16_range data Hd). unfold packet. split; [rewrite !length_app, Hl; done|].
  apply bytes_ok_app. split; [apply Forall_cons_2; [|apply Forall_cons_2; [|done]]; unfold byte_ok; lia|].
  apply bytes_ok_app. split; [done|]. apply Forall_cons_2; [|apply Forall_cons_2; [apply byte_at_ok|done]]. rewrite Z.shiftr_div_pow2 by lia. change (2 ^ 8) with 256.
  unfold byte_ok. Z.div_mod_to_equations. lia.
Qed.

Lemma read_packet_line n l inp out : length l = n → bytes_ok l →
  read_packet line_in n (l ++ inp, out) = ((inp, out), l, true).
Proof.
  revert l. induction n as [|n IH]; intros [|c l] Hl Hb; try done. apply Forall_cons in Hb as [Hc Hb]. cbn [read_packet app].
  unfold line_in. cbn [fst snd]. change (read_packet _) with (read_packet line_in).
  rewrite (proj2 (Z.eqb_neq c (-1))) by (unfold byte_ok in Hc; lia). rewrite IH by (done || (cbn in Hl; lia)). by rewrite u8_id.
Qed.

Lemma get_record_line k l inp out buf : length l = 132%nat → bytes_ok l → msize buf = 132 →
  ∀ ok, record_check k l = Some ok →
  xmodem_get_record line_in line_out (l ++ inp, out) k buf
  = Some (if ok then ((inp, out), l, true) else ((inp, out ++ [XM_NAK]), l, false)).
Proof.
  intros Hl Hb Hm ok Hok. unfold xmodem_get_record. change (Z.to_nat (PXM_ACKET_SIZE + 4)) with 132%nat.
  rewrite read_packet_line by done.
  assert (mwrite buf 0 l = Some l) as ->.
  { apply mwrite_spec. unfold msize in *. split; [lia|]. split; [lia|]. cbn. by rewrite drop_ge, app_nil_r by lia. }
  cbn [mbind option_bind]. rewrite Hok. cbn [mbind option_bind]. by destruct ok.
Qed.

Section transmission.
Context (realloc : mem → Z → option mem).

(** A [realloc] that finds memory: the block has the size asked for and starts with the old bytes. *)
Hypothesis Hrealloc : ∀ m n, msize m <= n → ∃ m', realloc m n = Some m' ∧ msize m' = n ∧ take (length m) m' = m.

Abbreviation loop := (receive_loop line_in line_out realloc).


Lemma out_start (st : bool) inp out :
  (if st then line_out (inp, out) 67 else (inp, out)) = (inp, if st then out ++ [67] else out).
Proof. by destruct st. Qed.

Lemma loop_bad fuel ff k a inp out st buf r limit size dest :
  bad_attempt k a → 0 < r → msize buf = 132 →
  ∃ out' st' buf', msize buf' = 132 ∧
    loop (S fuel) ff (a ++ inp, out) st k buf r limit size dest = loop fuel ff (inp, out') st' k buf' (r - 1) limit size dest.
Proof.
  intros Ha Hr Hbuf. cbn [receive_loop]. rewrite (proj2 (Z.eqb_neq r 0)) by lia. rewrite out_start.
  set (o := if st then out ++ [67] else out). destruct Ha as [->|(body & -> & Hl & Hb & Hc)].
  - exists o, st, buf. split; [done|]. change (line_in ([-1] ++ inp, o) XMODEM_TIMEOUT) with ((inp, o), -1). done.
  - change (line_in ((XM_SOH :: body) ++ inp, o) XMODEM_TIMEOUT) with ((body ++ inp, o), XM_SOH).
    change (XM_SOH =? -1) with false. change (XM_SOH =? XM_SOH) with true. change (XM_SOH =? XM_EOT) with false.
    change (XM_SOH =? XM_CAN) with false. cbn [negb orb andb].
    rewrite (get_record_line k body inp o buf Hl Hb Hbuf false Hc). cbn [mbind option_bind negb].
    exists (o ++ [XM_NAK]), false, body. split; [unfold msize; lia|done].
Qed.

Lemma loop_bads k bads fuel ff inp out st buf r limit size dest :
  Forall (bad_attempt k) bads → Z.of_nat (length bads) < r → msize buf = 132 →
  ∃ out' st' buf', msize buf' = 132 ∧
    loop (length bads + fuel) ff (concat bads ++ inp, out) st k buf r limit size dest
    = loop fuel ff (inp, out') st' k buf' (r - Z.of_nat (length bads)) limit size dest.
Proof.
  intros Hb. revert out st buf r. induction Hb as [|a bads Ha _ IH]; intros out st buf r Hr Hbuf; cbn [length Nat.add concat] in *.
  - exists out, st, buf. split; [done|]. by rewrite Z.sub_0_r.
  - rewrite <- app_assoc.
    destruct (loop_bad (length bads + fuel) ff k a (concat bads ++ inp) out st buf r limit size dest Ha) as (o1 & s1 & b1 & Hb1 & ->); [lia|done|].
    destruct (IH o1 s1 b1 (r - 1)) as (o2 & s2 & b2 & Hb2 & ->); [lia|done|]. exists o2, s2, b2. split; [done|]. f_equal. lia.
Qed.

(** The destination holds the data so far and is as large as [limit] says. *)
Definition dest_ok (dest : mem) (limit size : Z) (sofar : list Z) : Prop :=
  msize dest = limit ∧ size <= limit ∧ size = msize sofar ∧ take (length sofar) dest = sofar ∧
  (limit = XMODEM_INITIAL_BUFFER_SIZE ∨ limit <= size + XMODEM_INCREMENT_AMMOUNT).

Lemma loop_good fuel ff k data inp out st buf r limit size dest sofar :
  0 <= k < 256 → length data = 128%nat → bytes_ok data → 0 < r → msize buf = 132 → (0 < ff)%nat →
  dest_ok dest limit size sofar → size < 2147483648 →
  ∃ out' buf' limit' dest', msize buf' = 132 ∧ dest_ok dest' limit' (size + 128) (sofar ++ data) ∧
    loop (S fuel) ff ((XM_SOH :: packet k data) ++ [-1] ++ inp, out) st k buf r limit size dest
    = loop fuel ff (inp, out') false (u8 (k + 1)) buf' XMODEM_RETRY_LIMIT limit' (size + 128) dest'.
Proof.
  intros Hk Hl Hd Hr Hbuf Hff (D1 & D2 & D3 & D4 & D5) Hsz. destruct (xm_packet_bytes k data Hk Hl Hd) as [Hpl Hpb].
  cbn [receive_loop]. rewrite (proj2 (Z.eqb_neq r 0)) by lia. rewrite out_start.
  set (o := if st then out ++ [67] else out).
  change (line_in ((XM_SOH :: packet k data) ++ [-1] ++ inp, o) XMODEM_TIMEOUT) with ((packet k data ++ [-1] ++ inp, o), XM_SOH).
  change (XM_SOH =? -1) with false. change (XM_SOH =? XM_SOH) with true. change (XM_SOH =? XM_EOT) with false.
  change (XM_SOH =? XM_CAN) with false. cbn [negb orb andb].
  rewrite (get_record_line k (packet k data) _ o buf Hpl Hpb Hbuf true) by (by apply record_check_packet).
  cbn [mbind option_bind negb]. destruct ff as [|ff']; [lia|]. cbn [xmodem_flush].
  change (line_in ([-1] ++ inp, o) XMODEM_PXM_ACKET_DELAY) with ((inp, o), -1). change (negb (-1 =? -1)) with false. cbv iota.
  cbn [mbind option_bind]. unfold PXM_ACKET_SIZE, XMODEM_INCREMENT_AMMOUNT, XMODEM_INITIAL_BUFFER_SIZE in *. pose proof (msize_nonneg sofar).
  rewrite (u32_id (size + 128)) by lia.
  assert (msize (packet k data) = 132) as Hmp by (unfold msize; lia). assert (msize data = 128) as Hmd by (unfold msize; lia).
  assert (mread (packet k data) 2 128 = Some data) as Hrd.
  { pose proof (bytes_at_prefix (packet k data) [k; 255 - k] data _ eq_refl) as Hb. unfold bytes_at in Hb. by rewrite Hmd in Hb. }
  assert (∃ limit' dest1, (if limit <? size + 128 then Some (u32 (limit + 512), realloc dest (u32 (limit + 512))) else Some (limit, Some dest)) = Some (limit', Some dest1)
    ∧ msize dest1 = limit' ∧ size + 128 <= limit' ∧ take (length sofar) dest1 = sofar ∧ (limit' = 1024 ∨ limit' <= size + 128 + 512))
    as (limit' & dest1 & -> & L1 & L2 & L3 & L4).
  { destruct (Z.ltb_spec limit (size + 128)).
    - rewrite u32_id by lia. destruct (Hrealloc dest (limit + 512)) as (d1 & -> & Hd1 & Htk); [lia|].
      exists (limit + 512), d1. split; [done|]. split; [done|]. split; [lia|]. split; [|lia].
      transitivity (take (length sofar) (take (length dest) d1)); [|by rewrite Htk].
      rewrite take_take. f_equal. unfold msize in *. lia.
    - exists limit, dest. split; [done|]. split; [done|]. split; [lia|]. split; [done|]. lia. }
  cbn [mbind option_bind]. rewrite Hrd. cbn [mbind option_bind].
  destruct (mwrite_is_Some dest1 size data) as [dest2 Hw]; [lia|lia|]. rewrite Hw. cbn [mbind option_bind].
  exists (o ++ [XM_ACK]), (packet k data), limit', dest2. split; [done|]. split; [|done].
  unfold dest_ok, XMODEM_INITIAL_BUFFER_SIZE, XMODEM_INCREMENT_AMMOUNT.
  split; [by rewrite (mwrite_msize _ _ _ _ Hw)|]. split; [done|]. split; [rewrite msize_app; lia|]. split; [|lia].
  apply mwrite_spec in Hw as (_ & _ & ->). rewrite D3. unfold msize at 1. rewrite Nat2Z.id, L3, app_assoc. apply take_app_length.
Qed.

(** The turns of the loop that a transmission takes. *)
Fixpoint turns (ps : list (list (list Z) * list Z)) : nat :=
  match ps with [] => 0%nat | (bads, _) :: ps => (length bads + S (turns ps))%nat end.

Lemma turns_bound k ps : sent_ok k ps → (turns ps <= 20 * length ps)%nat.
Proof.
  revert k. induction ps as [|[bads data] ps IH]; intros k H; cbn [turns length]; [lia|].
  destruct H as (_ & H1 & _ & _ & H2). specialize (IH _ H2). lia.
Qed.

Lemma loop_all ps : ∀ k fuel ff inp out st buf limit size dest sofar,
  sent_ok k ps → 0 <= k < 256 → msize buf = 132 → (0 < ff)%nat → dest_ok dest limit size sofar →
  size + 128 * Z.of_nat (length ps) < 2147483648 →
  ∃ out' st' k' buf' limit' dest', msize buf' = 132 ∧
    dest_ok dest' limit' (size + 128 * Z.of_nat (length ps)) (sofar ++ concat (snd <$> ps)) ∧
    loop (turns ps + fuel) ff (sent k ps ++ inp, out) st k buf XMODEM_RETRY_LIMIT limit size dest
    = loop fuel ff (inp, out') st' k' buf' XMODEM_RETRY_LIMIT limit' (size + 128 * Z.of_nat (length ps)) dest'.
Proof.
  induction ps as [|[bads data] ps IH]; intros k fuel ff inp out st buf limit size dest sofar Hok Hk Hbuf Hff Hd Hsz.
  - exists out, st, k, buf, limit, dest. cbn [length fmap list_fmap concat sent app Nat.add turns].
    rewrite app_nil_r, Z.add_0_r. done.
  - destruct Hok as (Hb & Hbl & Hl & Hdt & Hok). cbn [length] in Hsz. pose proof Hd as (_ & _ & Hss & _). pose proof (msize_nonneg sofar).
    cbn [sent turns]. rewrite <- !(app_assoc _ _ inp), <- Nat.add_assoc. cbn [Nat.add].
    destruct (loop_bads k bads (S (turns ps + fuel)) ff ((XM_SOH :: packet k data) ++ [-1] ++ sent (u8 (k + 1)) ps ++ inp) out st buf XMODEM_RETRY_LIMIT limit size dest Hb)
      as (o1 & s1 & b1 & Hb1 & E1); [unfold XMODEM_RETRY_LIMIT; lia|done|]. cbn [app] in E1 |- *. rewrite E1.
    destruct (loop_good (turns ps + fuel) ff k data (sent (u8 (k + 1)) ps ++ inp) o1 s1 b1 (XMODEM_RETRY_LIMIT - Z.of_nat (length bads)) limit size dest sofar Hk Hl Hdt)
      as (o2 & b2 & l2 & d2 & Hb2 & Hd2 & E2); [unfold XMODEM_RETRY_LIMIT; lia|done|done|done|lia|]. cbn [app] in E2. rewrite E2.
    destruct (IH (u8 (k + 1)) fuel ff inp o2 false b2 l2 (size + 128) d2 (sofar ++ data) Hok) as (o3 & s3 & k3 & b3 & l3 & d3 & Hb3 & Hd3 & E3);
      [apply u8_range|done|done|done|lia|].
    cbn [length fmap list_fmap concat snd]. rewrite app_assoc.
    replace (size + 128 * Z.of_nat (S (length ps))) with (size + 128 + 128 * Z.of_nat (length ps)) by lia.
    exists o3, s3, k3, b3, l3, d3. split; [done|]. split; [done|]. exact E3.
Qed.

(** Receiving a file: when every packet comes through within the retries, whatever silence or damaged packets
    come before it, the receiver returns the number of bytes and the caller's buffer, extended as
    needed, holds the packets' data in order; no byte is stored outside the buffer. *)
Theorem xmodem_receive_ok fuel ff ps ebads rest out buf dest :
  sent_ok 1 ps → Forall (λ a, a = [-1]) ebads → (length ebads < 20)%nat → msize buf = 132 →
  msize dest = XMODEM_INITIAL_BUFFER_SIZE → 128 * Z.of_nat (length ps) < 2147483648 →
  (20 * (length ps + 1) <= fuel)%nat → (0 < ff)%nat →
  ∃ w' dest', xmodem_receive line_in line_out realloc fuel ff
      (sent 1 ps ++ concat ebads ++ XM_EOT :: -1 :: rest, out) buf dest
    = Some (w', dest', 128 * Z.of_nat (length ps)) ∧ w'.1 = rest ∧
    mread dest' 0 (128 * Z.of_nat (length ps)) = Some (concat (snd <$> ps)).
Proof.
  intros Hok Heb Hel Hbuf Hdest Hsz Hf Hff. unfold xmodem_receive. pose proof (turns_bound 1 ps Hok).
  replace fuel with (turns ps + (length ebads + S (fuel - turns ps - length ebads - 1)))%nat by lia.
  destruct (loop_all ps 1 (length ebads + S (fuel - turns ps - length ebads - 1)) ff (concat ebads ++ XM_EOT :: -1 :: rest) out true buf
    XMODEM_INITIAL_BUFFER_SIZE 0 dest []) as (o1 & s1 & k1 & b1 & l1 & d1 & Hb1 & Hd1 & ->); [done|lia|done|done| |lia|].
  { unfold dest_ok, XMODEM_INITIAL_BUFFER_SIZE in *. split; [done|]. split; [lia|]. split; [done|]. split; [done|]. by left. }
  destruct (loop_bads k1 ebads (S (fuel - turns ps - length ebads - 1)) ff (XM_EOT :: -1 :: rest) o1 s1 b1 XMODEM_RETRY_LIMIT l1
    (0 + 128 * Z.of_nat (length ps)) d1) as (o2 & s2 & b2 & Hb2 & ->); [|unfold XMODEM_RETRY_LIMIT; lia|done|].
  { eapply Forall_impl; [exact Heb|]. intros a ->. by left. }
  cbn [receive_loop]. unfold XMODEM_RETRY_LIMIT. rewrite (proj2 (Z.eqb_neq _ _)) by lia. rewrite out_start.
  set (o3 := if s2 then o2 ++ [67] else o2).
  change (line_in (XM_EOT :: -1 :: rest, o3) XMODEM_TIMEOUT) with ((-1 :: rest, o3), XM_EOT).
  change (XM_EOT =? -1) with false. change (XM_EOT =? XM_SOH) with false. change (XM_EOT =? XM_EOT) with true.
  cbn [negb orb andb]. destruct ff as [|ff']; [lia|]. cbn [xmodem_flush]. unfold line_out at 1. cbn [fst snd].
  change (line_in (-1 :: rest, o3 ++ [XM_ACK]) XMODEM_PXM_ACKET_DELAY) with ((rest, o3 ++ [XM_ACK]), -1).
  change (negb (-1 =? -1)) with false. cbv iota. cbn [mbind option_bind].
  eexists _, d1. rewrite Z.add_0_l in *. split; [by rewrite s32_id by lia|]. split; [done|].
  destruct Hd1 as (D1 & D2 & D3 & D4 & _). cbn [app] in D3, D4. apply mread_spec. split; [lia|]. split; [lia|]. split; [lia|].
  change (Z.to_nat 0) with 0%nat. rewrite drop_0, D3. unfold msize. by rewrite Nat2Z.id, D4.
Qed.

(** A packet sent again because its acknowledgement was lost is refused: the receiver answers NAK to every copy, so a sender
    that repeats it until it is acknowledged makes the transfer fail with "retry count exceeded". *)
Theorem xmodem_duplicate_refused ff bads data k inp out buf dest limit size :
  0 < k < 256 → length data = 128%nat → bytes_ok data → bads = replicate 20 (XM_SOH :: packet (k - 1) data) →
  msize buf = 132 → (0 < ff)%nat →
  ∃ w', loop 21 ff (concat bads ++ -1 :: inp, out) false k buf XMODEM_RETRY_LIMIT limit size dest
    = Some (w', dest, XMODEM_ERROR_RETRYEXCEED) ∧ w'.1 = inp.
Proof.
  intros Hk Hl Hd -> Hbuf Hff. destruct (xm_packet_bytes (k - 1) data ltac:(lia) Hl Hd) as [Hpl Hpb].
  assert (bad_attempt k (XM_SOH :: packet (k - 1) data)) as Hbad.
  { right. exists (packet (k - 1) data). split; [done|]. split; [done|]. split; [done|]. unfold record_check.
    change (ld (packet (k - 1) data) 0) with (Some (k - 1)). cbn [mbind option_bind].
    by rewrite (proj2 (Z.eqb_neq (k - 1) k)) by lia. }
  set (a := XM_SOH :: packet (k - 1) data) in *.
  destruct (loop_bads k (replicate 19 a) 2 ff (a ++ -1 :: inp) out false buf XMODEM_RETRY_LIMIT limit size dest) as (o1 & s1 & b1 & Hb1 & E1);
    [by apply Forall_replicate|rewrite length_replicate; unfold XMODEM_RETRY_LIMIT; lia|done|].
  assert (concat (replicate 20 a) ++ -1 :: inp = concat (replicate 19 a) ++ a ++ -1 :: inp) as ->.
  { change 20%nat with (19 + 1)%nat. rewrite replicate_add, concat_app, <- app_assoc. cbn [replicate concat]. by rewrite app_nil_r. }
  rewrite length_replicate in E1. change (19 + 2)%nat with 21%nat in E1. rewrite E1.
  destruct (loop_bad 1 ff k a (-1 :: inp) o1 s1 b1 (XMODEM_RETRY_LIMIT - Z.of_nat 19) limit size dest Hbad) as (o2 & s2 & b2 & Hb2 & ->); [done|done|].
  change (XMODEM_RETRY_LIMIT - Z.of_nat 19 - 1) with 0. cbn [receive_loop]. change (0 =? 0) with true. cbv iota.
  destruct ff as [|ff']; [lia|]. cbn [xmodem_flush].
  change (line_in (-1 :: inp, o2) XMODEM_PXM_ACKET_DELAY) with ((inp, o2), -1). change (negb (-1 =? -1)) with false. cbv iota.
  cbn [mbind option_bind]. eexists. split; [done|]. done.
Qed.
End transmission.

(** ** The theorems at work *)

(** A [realloc] that always finds memory and fills the new part with 0xAA. *)
Definition demo_realloc (m : mem) (n : Z) : option mem := Some (take (Z.to_nat n) (m ++ replicate (Z.to_nat n) 170)).

Lemma xm_realloc_ok m n : msize m <= n → ∃ m', demo_realloc m n = Some m' ∧ msize m' = n ∧ take (length m) m' = m.
Proof.
  intros H. eexists. split; [done|]. unfold msize in *. rewrite length_take, length_app, length_replicate. split; [lia|].
  rewrite take_take, Nat.min_l by lia. apply take_app_length.
Qed.

Definition demo_data (c : Z) : list Z := replicate 128 c.

(** Ten packets (more than the first buffer); the second one comes after silence and after a copy with a wrong check value. *)
Definition demo_packets : list (list (list Z) * list Z) :=
  ([], demo_data 1) :: ([[-1]; XM_SOH :: [2; 253] ++ demo_data 2 ++ [0; 0]], demo_data 2) :: replicate 8 ([], demo_data 3).

Lemma demo_packets_ok : sent_ok 1 demo_packets.
Proof.
  assert (∀ c, byte_ok c → bytes_ok (demo_data c)) as Hd by (intros; by apply Forall_replicate).
  cbn [demo_packets replicate sent_ok]. 
  repeat match goal with
  | |- _ ∧ _ => split
  | |- Forall (bad_attempt _) [] => constructor
  | |- bytes_ok (demo_data _) => apply Hd; unfold byte_ok; lia
  | |- length (demo_data _) = _ => reflexivity
  | |- (length _ < 20)%nat => cbn; lia
  end; [|done].
  apply Forall_cons_2; [by left|apply Forall_cons_2; [|done]]. right. eexists. split; [reflexivity|]. split; [done|].
  split; [|vm_compute; reflexivity]. apply (Forall_app byte_ok [2; 253]). split; [apply Forall_cons_2; [|apply Forall_cons_2; [|done]]; unfold byte_ok; lia|].
  apply Forall_app. split; [apply Hd; unfold byte_ok; lia|apply Forall_cons_2; [|apply Forall_cons_2; [|done]]; unfold byte_ok; lia].
Qed.

Theorem xmodem_receive_ok_witness :
  ∃ w' dest', xmodem_receive line_in line_out demo_realloc 220 1
      (sent 1 demo_packets ++ concat [[-1]] ++ [XM_EOT; -1], []) (replicate 132 0) (replicate 1024 0)
    = Some (w', dest', 1280) ∧ w'.1 = [] ∧ mread dest' 0 1280 = Some (concat (snd <$> demo_packets)).
Proof.
  apply (xmodem_receive_ok demo_realloc xm_realloc_ok 220 1 demo_packets [[-1]] [] [] (replicate 132 0) (replicate 1024 0));
    [exact demo_packets_ok|by constructor|cbn; lia|done|done|done|cbn; lia|lia].
Defined.

Theorem xmodem_duplicate_refused_witness :
  ∃ w', receive_loop line_in line_out demo_realloc 21 1
      (concat (replicate 20 (XM_SOH :: packet 1 (demo_data 7))) ++ [-1], []) false 2 (replicate 132 0) XMODEM_RETRY_LIMIT 1024 128 (replicate 1024 0)
    = Some (w', replicate 1024 0, XMODEM_ERROR_RETRYEXCEED) ∧ w'.1 = [].
Proof.
  apply (xmodem_duplicate_refused demo_realloc 1 _ (demo_data 7) 2 [] []); [lia|done|apply Forall_replicate; unfold byte_ok; lia|done|done|lia].
Defined.
