(* ===== verification/Vtmr.v ===== *)
(** * Timers: virtual timers and the timer dispatch (src/common_tmr.c)

    The per-timer flags are packed in arrays of bytes. The busy waits of the code end when the timer interrupt
    [cmn_virtual_timer_cb] has run often enough: a wait runs the interrupt between two looks at its condition. [elua_int_add] is the
    operation that posts an interrupt on the interrupt state [Q]. *)
From S2P Require Import Prelude Platform Int.

Definition VTMR_FIRST_ID : Z := 32.
Definition VTMR_GET_ID (x : Z) : Z := u32 (x - VTMR_FIRST_ID).

Definition PLATFORM_TIMER_INT_ONESHOT : Z := 1.
Definition PLATFORM_TIMER_INT_CYCLIC : Z := 2.
Definition PLATFORM_TIMER_INT_OK : Z := 0.
Definition PLATFORM_TIMER_INT_TOO_SHORT : Z := 1.

Definition PLATFORM_TIMER_OP_START : Z := 0.
Definition PLATFORM_TIMER_OP_READ : Z := 1.
Definition PLATFORM_TIMER_OP_SET_CLOCK : Z := 2.
Definition PLATFORM_TIMER_OP_GET_CLOCK : Z := 3.
Definition PLATFORM_TIMER_OP_GET_MAX_DELAY : Z := 4.
Definition PLATFORM_TIMER_OP_GET_MIN_DELAY : Z := 5.

(** ** Bits of an array of bytes: [ a[ i >> 3 ] ] and the mask [ 1 << ( i & 0x07 ) ] *)
Definition msk (i : Z) : Z := u8 (Z.shiftl 1 (Z.land i 7)).

Definition bit_byte (a : list Z) (i : Z) : option Z := ld a (Z.shiftr i 3).

Definition bit_test (a : list Z) (i : Z) : option bool := b ← bit_byte a i; Some (ctrue (Z.land b (msk i))).

Definition bit_set (a : list Z) (i : Z) : option (list Z) :=
  b ← bit_byte a i; st a (Z.shiftr i 3) (Z.lor b (msk i)).

Definition bit_clear (a : list Z) (i : Z) : option (list Z) :=
  b ← bit_byte a i; st a (Z.shiftr i 3) (Z.land b (u8 (Z.lnot (msk i)))).

Section vtmr.
Context `{conf : PlatformConf} {Q : Type} (elua_int_add : Q → Z → Z → Q).

Definition TIMER_IS_VIRTUAL (x : Z) : bool :=
  (0 <? VTMR_NUM_TIMERS) && ((VTMR_FIRST_ID <=? x) && (x <? VTMR_NUM_TIMERS + VTMR_FIRST_ID)).

Record vtmr := Vtmr {
  vtmr_counters : list Z;
  vtmr_reset_idx : Z;
  vtmr_period_limit : list Z;
  vtmr_int_periodic_flag : list Z;
  vtmr_int_enabled : list Z;
  vtmr_int_flag : list Z;
  vtmr_ints : Q
}.

Definition set_counters (s : vtmr) l := Vtmr l (vtmr_reset_idx s) (vtmr_period_limit s) (vtmr_int_periodic_flag s) (vtmr_int_enabled s) (vtmr_int_flag s) (vtmr_ints s).
Definition set_reset_idx (s : vtmr) r := Vtmr (vtmr_counters s) r (vtmr_period_limit s) (vtmr_int_periodic_flag s) (vtmr_int_enabled s) (vtmr_int_flag s) (vtmr_ints s).
Definition set_period_limit (s : vtmr) l := Vtmr (vtmr_counters s) (vtmr_reset_idx s) l (vtmr_int_periodic_flag s) (vtmr_int_enabled s) (vtmr_int_flag s) (vtmr_ints s).
Definition set_periodic (s : vtmr) l := Vtmr (vtmr_counters s) (vtmr_reset_idx s) (vtmr_period_limit s) l (vtmr_int_enabled s) (vtmr_int_flag s) (vtmr_ints s).
Definition set_enabled (s : vtmr) l := Vtmr (vtmr_counters s) (vtmr_reset_idx s) (vtmr_period_limit s) (vtmr_int_periodic_flag s) l (vtmr_int_flag s) (vtmr_ints s).
Definition set_flag (s : vtmr) l := Vtmr (vtmr_counters s) (vtmr_reset_idx s) (vtmr_period_limit s) (vtmr_int_periodic_flag s) (vtmr_int_enabled s) l (vtmr_ints s).
Definition set_ints (s : vtmr) q := Vtmr (vtmr_counters s) (vtmr_reset_idx s) (vtmr_period_limit s) (vtmr_int_periodic_flag s) (vtmr_int_enabled s) (vtmr_int_flag s) q.

(** One turn of the loop of [cmn_virtual_timer_cb]. *)
Definition cb_timer (s : vtmr) (i : Z) : option vtmr :=
  c ← ld (vtmr_counters s) i;
  let c := u32 (c + 1) in
  let s := set_counters s (<[Z.to_nat i := c]> (vtmr_counters s)) in
  limit ← ld (vtmr_period_limit s) i;
  if limit <=? c then
    f ← bit_set (vtmr_int_flag s) i;
    let s := set_flag s f in
    en ← bit_test (vtmr_int_enabled s) i;
    let s := if (en : bool) then set_ints s (elua_int_add (vtmr_ints s) INT_TMR_MATCH (i + VTMR_FIRST_ID)) else s in
    per ← bit_test (vtmr_int_periodic_flag s) i;
    if (per : bool) then Some (set_counters s (<[Z.to_nat i := 0]> (vtmr_counters s)))
    else e ← bit_clear (vtmr_int_enabled s) i; Some (set_enabled s e)
  else Some s.

Fixpoint cb_loop (n : nat) (i : Z) (s : vtmr) : option vtmr :=
  match n with
  | O => Some s
  | S n => s ← cb_timer s i; cb_loop n (i + 1) s
  end.

Definition cmn_virtual_timer_cb (s : vtmr) : option vtmr :=
  s ← cb_loop (Z.to_nat VTMR_NUM_TIMERS) 0 s;
  if negb (vtmr_reset_idx s =? -1) then
    _ ← ld (vtmr_counters s) (vtmr_reset_idx s);
    Some (set_reset_idx (set_counters s (<[Z.to_nat (vtmr_reset_idx s) := 0]> (vtmr_counters s))) (-1))
  else Some s.

(** [while( cond );]: [fuel] bounds the interrupts that it waits for. *)
Fixpoint wait_while (fuel : nat) (cond : vtmr → option bool) (s : vtmr) : option vtmr :=
  c ← cond s;
  if (c : bool) then
    match fuel with O => None | S fuel => s ← cmn_virtual_timer_cb s; wait_while fuel cond s end
  else Some s.

Definition vtmr_reset_timer (fuel : nat) (s : vtmr) (vid : Z) : option vtmr :=
  let id := VTMR_GET_ID vid in
  wait_while fuel (λ s, Some (negb (vtmr_reset_idx s =? -1))) (set_reset_idx s (s8 id)).

Definition vtmr_delay (fuel : nat) (s : vtmr) (vid delay_us : Z) : option vtmr :=
  let id := VTMR_GET_ID vid in
  let final := u32 (delay_us * VTMR_FREQ_HZ / 1000000) in
  s ← vtmr_reset_timer fuel s vid;
  wait_while fuel (λ s, c ← ld (vtmr_counters s) id; Some (c <? final)) s.

Definition vtmr_set_match_int (fuel : nat) (s : vtmr) (vid period_us type : Z) : option (vtmr * Z) :=
  let id := VTMR_GET_ID vid in
  if period_us =? 0 then
    e ← bit_clear (vtmr_int_enabled s) id;
    f ← bit_clear (vtmr_int_flag s) id;
    Some (set_flag (set_enabled s e) f, PLATFORM_TIMER_INT_OK)
  else
    let final := u32 (period_us * VTMR_FREQ_HZ / 1000000) in
    if final =? 0 then Some (s, PLATFORM_TIMER_INT_TOO_SHORT)
    else
      _ ← ld (vtmr_period_limit s) id;
      let s := set_period_limit s (<[Z.to_nat id := final]> (vtmr_period_limit s)) in
      p ← (if type =? PLATFORM_TIMER_INT_ONESHOT then bit_clear (vtmr_int_periodic_flag s) id
           else bit_set (vtmr_int_periodic_flag s) id);
      let s := set_periodic s p in
      f ← bit_clear (vtmr_int_flag s) id;
      s ← vtmr_reset_timer fuel (set_flag s f) vid;
      e ← bit_set (vtmr_int_enabled s) id;
      Some (set_enabled s e, PLATFORM_TIMER_INT_OK).

Definition vtmr_int_get_flag (s : vtmr) (resnum clear : Z) : option (vtmr * Z) :=
  let id := VTMR_GET_ID resnum in
  status ← bit_test (vtmr_int_flag s) id;
  s ← (if ctrue clear then f ← bit_clear (vtmr_int_flag s) id; Some (set_flag s f) else Some s);
  Some (s, cbool status).

Definition vtmr_int_set_status (s : vtmr) (resnum status : Z) : option (vtmr * Z) :=
  let id := VTMR_GET_ID resnum in
  prev ← bit_test (vtmr_int_enabled s) id;
  e ← (if status =? PLATFORM_CPU_ENABLE then bit_set (vtmr_int_enabled s) id else bit_clear (vtmr_int_enabled s) id);
  Some (set_enabled s e, cbool prev).

Definition vtmr_int_get_status (s : vtmr) (resnum : Z) : option Z :=
  b ← bit_test (vtmr_int_enabled s) (VTMR_GET_ID resnum); Some (cbool b).

(** *** The timer functions

    The platform's own timers are [platform_s_...]: operations on the hardware state [W]. *)
Context {W : Type}
  (platform_s_timer_delay : W → Z → Z → W)
  (platform_s_timer_op : W → Z → Z → Z → W * Z)
  (platform_s_timer_set_match_int : W → Z → Z → Z → W * Z)
  (elua_int_table : list (elua_int_descriptor (W:=W))).

Definition platform_timer_exists (id : Z) : bool :=
  if (0 <? VTMR_NUM_TIMERS) && (VTMR_FIRST_ID <=? id) then TIMER_IS_VIRTUAL id else id <? NUM_TIMER.

Definition platform_timer_delay (fuel : nat) (s : vtmr) (w : W) (id delay_us : Z) : option (vtmr * W) :=
  if TIMER_IS_VIRTUAL id then s ← vtmr_delay fuel s id delay_us; Some (s, w)
  else Some (s, platform_s_timer_delay w id delay_us).

(** [platform_timer_op( id, PLATFORM_TIMER_OP_GET_CLOCK, 0 )], as [platform_timer_get_diff_us] calls it. *)
Definition timer_clock (w : W) (id : Z) : W * Z :=
  if TIMER_IS_VIRTUAL id then (w, VTMR_FREQ_HZ) else platform_s_timer_op w id PLATFORM_TIMER_OP_GET_CLOCK 0.

(** A clock of zero is a division by zero. *)
Definition platform_timer_get_diff_us (w : W) (id end_ start : Z) : option (W * Z) :=
  let '(w, freq) := timer_clock w id in
  let '(start, end_) := if start <? end_ then (end_, start) else (start, end_) in
  if freq =? 0 then None else Some (w, u32 ((start - end_) * 1000000 / freq)).

Definition platform_timer_op (fuel : nat) (s : vtmr) (w : W) (id op data : Z) : option (vtmr * W * Z) :=
  if (VTMR_NUM_TIMERS =? 0) || negb (TIMER_IS_VIRTUAL id) then
    let '(w, r) := platform_s_timer_op w id op data in Some (s, w, r)
  else if op =? PLATFORM_TIMER_OP_START then s ← vtmr_reset_timer fuel s id; Some (s, w, 0)
  else if op =? PLATFORM_TIMER_OP_READ then c ← ld (vtmr_counters s) (VTMR_GET_ID id); Some (s, w, c)
  else if op =? PLATFORM_TIMER_OP_GET_MAX_DELAY then
    '(w, r) ← platform_timer_get_diff_us w id 0 4294967295; Some (s, w, r)
  else if op =? PLATFORM_TIMER_OP_GET_MIN_DELAY then
    '(w, r) ← platform_timer_get_diff_us w id 0 1; Some (s, w, r)
  else if (op =? PLATFORM_TIMER_OP_SET_CLOCK) || (op =? PLATFORM_TIMER_OP_GET_CLOCK) then Some (s, w, VTMR_FREQ_HZ)
  else Some (s, w, 0).

Definition platform_timer_set_match_int (fuel : nat) (s : vtmr) (w : W) (id period_us type : Z) : option (vtmr * W * Z) :=
  if TIMER_IS_VIRTUAL id then '(s, r) ← vtmr_set_match_int fuel s id period_us type; Some (s, w, r)
  else let '(w, r) := platform_s_timer_set_match_int w id period_us type in Some (s, w, r).

Definition tmr_descriptor : option elua_int_descriptor := elua_int_table !! Z.to_nat (INT_TMR_MATCH - ELUA_INT_FIRST_ID).

Definition cmn_tmr_int_set_status (s : vtmr) (w : W) (resnum status : Z) : option (vtmr * W * Z) :=
  if TIMER_IS_VIRTUAL resnum then '(s, r) ← vtmr_int_set_status s resnum status; Some (s, w, r)
  else
    d ← tmr_descriptor;
    match int_set_status d with
    | None => Some (s, w, PLATFORM_INT_NOT_HANDLED)
    | Some ps => let '(w, r) := ps w resnum status in Some (s, w, r)
    end.

Definition cmn_tmr_int_get_status (s : vtmr) (w : W) (resnum : Z) : option Z :=
  if TIMER_IS_VIRTUAL resnum then vtmr_int_get_status s resnum
  else
    d ← tmr_descriptor;
    match int_get_status d with None => Some PLATFORM_INT_NOT_HANDLED | Some pg => Some (pg w resnum) end.

Definition cmn_tmr_int_get_flag (s : vtmr) (w : W) (resnum clear : Z) : option (vtmr * W * Z) :=
  if TIMER_IS_VIRTUAL resnum then '(s, r) ← vtmr_int_get_flag s resnum clear; Some (s, w, r)
  else
    d ← tmr_descriptor;
    match int_get_flag d with
    | None => Some (s, w, PLATFORM_INT_NOT_HANDLED)
    | Some pf => let '(w, r) := pf w resnum clear in Some (s, w, r)
    end.
End vtmr.

(** ** Bits *)

(** Room for [n] bits. *)
Definition bits_ok (n : Z) (a : list Z) : Prop := msize a = Z.shiftr (n + 7) 3.

Lemma idx_div i : Z.shiftr i 3 = i / 8 ∧ Z.land i 7 = i mod 8.
Proof. split; [by rewrite Z.shiftr_div_pow2 by lia|]. change 7 with (Z.ones 3). by rewrite Z.land_ones by lia. Qed.

Lemma msk_bit i : msk i = Z.shiftl 1 (i mod 8) ∧ 0 <= i mod 8 < 8.
Proof.
  assert (0 <= i mod 8 < 8) by (apply Z.mod_pos_bound; lia). split; [|done].
  unfold msk. destruct (idx_div i) as [_ ->]. apply u8_id. apply (shiftl_1_bound (i mod 8) 8). lia.
Qed.

Lemma bit_byte_ok n a i : bits_ok n a → 0 <= i < n → ∃ b, bit_byte a i = Some b ∧ 0 <= Z.shiftr i 3 < msize a.
Proof.
  intros Ha Hi. unfold bits_ok in Ha. rewrite (proj1 (idx_div _)) in Ha. unfold bit_byte. rewrite (proj1 (idx_div i)).
  assert (0 <= i / 8 < msize a) by (rewrite Ha; Z.div_mod_to_equations; lia).
  destruct (ld_in_range a (i / 8)) as [b Hb]; [done|]. by exists b.
Qed.

Lemma bit_test_byte a i b : bit_byte a i = Some b → bit_test a i = Some (Z.testbit b (i mod 8)).
Proof.
  intros Hb. unfold bit_test. rewrite Hb. cbn [mbind option_bind]. destruct (msk_bit i) as [-> ?].
  by rewrite ctrue_land_bit by lia.
Qed.

(** Storing a byte whose bits are given changes the bits of that byte only. *)
Lemma bit_st n a i v : bits_ok n a → 0 <= i < n →
  ∃ a', st a (Z.shiftr i 3) v = Some a' ∧ bits_ok n a' ∧
    ∀ j, 0 <= j < n → bit_test a' j = if j / 8 =? i / 8 then Some (Z.testbit v (j mod 8)) else bit_test a j.
Proof.
  intros Ha Hi. destruct (bit_byte_ok n a i Ha Hi) as (b & Hb & Hr). rewrite st_spec by done.
  eexists. split; [done|]. split; [by unfold bits_ok, msize in *; rewrite length_insert|]. intros j Hj.
  destruct (bit_byte_ok n a j Ha Hj) as (c & Hc & Hrj). destruct (msk_bit j) as [_ Hm].
  rewrite (proj1 (idx_div i)), (proj1 (idx_div j)) in *. destruct (Z.eqb_spec (j / 8) (i / 8)) as [E|E].
  - rewrite (bit_test_byte _ j (u8 v)); [by rewrite testbit_u8|].
    unfold bit_byte. rewrite (proj1 (idx_div j)), E. apply ld_Some_iff. split; [lia|].
    apply list_lookup_insert_eq. unfold msize in Hr. lia.
  - rewrite (bit_test_byte a j c Hc). apply bit_test_byte. unfold bit_byte in *. rewrite (proj1 (idx_div j)) in *.
    apply ld_Some_iff in Hc as [? Hc]. apply ld_Some_iff. split; [done|]. rewrite list_lookup_insert_ne by lia. done.
Qed.

Lemma same_bit i j : 0 <= i → 0 <= j → (i =? j) = (j / 8 =? i / 8) && (j mod 8 =? i mod 8).
Proof.
  intros. apply eq_true_iff_eq. rewrite andb_true_iff, !Z.eqb_eq. split; [by intros ->|]. Z.div_mod_to_equations. lia.
Qed.

Lemma bit_set_spec n a i : bits_ok n a → 0 <= i < n →
  ∃ a', bit_set a i = Some a' ∧ bits_ok n a' ∧
    ∀ j, 0 <= j < n → bit_test a' j = if i =? j then Some true else bit_test a j.
Proof.
  intros Ha Hi. destruct (bit_byte_ok n a i Ha Hi) as (b & Hb & _). unfold bit_set. rewrite Hb. cbn [mbind option_bind].
  destruct (bit_st n a i (Z.lor b (msk i)) Ha Hi) as (a' & Hs & Ha' & Hj). exists a'. split; [done|]. split; [done|].
  intros j Hjr. rewrite Hj, (same_bit i j) by lia. destruct (Z.eqb_spec (j / 8) (i / 8)) as [E|E]; cbn [andb]; [|done].
  destruct (msk_bit i) as [-> ?]. rewrite Z.lor_spec, testbit_shiftl_1 by lia.
  destruct (j mod 8 =? i mod 8); [by rewrite orb_true_r|]. rewrite orb_false_r. symmetry. apply bit_test_byte.
  unfold bit_byte in *. rewrite (proj1 (idx_div j)), E, <- (proj1 (idx_div i)). done.
Qed.

Lemma bit_clear_spec n a i : bits_ok n a → 0 <= i < n →
  ∃ a', bit_clear a i = Some a' ∧ bits_ok n a' ∧
    ∀ j, 0 <= j < n → bit_test a' j = if i =? j then Some false else bit_test a j.
Proof.
  intros Ha Hi. destruct (bit_byte_ok n a i Ha Hi) as (b & Hb & _). unfold bit_clear. rewrite Hb. cbn [mbind option_bind].
  destruct (bit_st n a i (Z.land b (u8 (Z.lnot (msk i)))) Ha Hi) as (a' & Hs & Ha' & Hj). exists a'. split; [done|]. split; [done|].
  intros j Hjr. rewrite Hj, (same_bit i j) by lia. destruct (Z.eqb_spec (j / 8) (i / 8)) as [E|E]; cbn [andb]; [|done].
  destruct (msk_bit j) as [_ Hmj]. destruct (msk_bit i) as [-> ?]. rewrite Z.land_spec, testbit_u8, Z.lnot_spec, testbit_shiftl_1 by lia.
  destruct (j mod 8 =? i mod 8); [by rewrite andb_false_r|]. rewrite andb_true_r. symmetry. apply bit_test_byte.
  unfold bit_byte in *. rewrite (proj1 (idx_div j)), E, <- (proj1 (idx_div i)). done.
Qed.

(** ** One timer *)

Record timer := Timer { t_count : Z; t_limit : Z; t_periodic : bool; t_enabled : bool; t_flag : bool }.

(** A tick of the interrupt, and whether it posts the timer's interrupt. *)
Definition tick (t : timer) : timer * bool :=
  let c := u32 (t_count t + 1) in
  if t_limit t <=? c then
    (Timer (if t_periodic t then 0 else c) (t_limit t) (t_periodic t) (t_periodic t && t_enabled t) true, t_enabled t)
  else (Timer c (t_limit t) (t_periodic t) (t_enabled t) (t_flag t), false).

Definition reset (t : timer) : timer := Timer 0 (t_limit t) (t_periodic t) (t_enabled t) (t_flag t).

(** [n] ticks, and the interrupts posted. *)
Fixpoint ticks (n : nat) (t : timer) : timer * Z :=
  match n with
  | O => (t, 0)
  | S n => let '(t, k) := ticks n t in let '(t, p) := tick t in (t, k + cbool p)
  end.

Lemma ticks_periodic n t L :
  t_limit t = L → 0 < L < 4294967296 → t_count t = 0 → t_periodic t = true → t_enabled t = true →
  let r := ticks n t in
  t_count r.1 = Z.of_nat n mod L ∧ t_limit r.1 = L ∧ t_periodic r.1 = true ∧ t_enabled r.1 = true ∧ r.2 = Z.of_nat n / L.
Proof.
  intros HL Hr Hc Hp He. induction n as [|n IH]; cbn zeta in *; cbn [ticks].
  - cbn [fst snd]. rewrite Z.mod_0_l, Z.div_0_l by lia. done.
  - destruct (ticks n t) as [t1 k1]. cbn [fst snd] in *. destruct IH as (I1 & I2 & I3 & I4 & ->).
    pose proof (Z.mod_pos_bound (Z.of_nat n) L ltac:(lia)). unfold tick. rewrite I1, I2, I3, I4.
    rewrite u32_id by lia. rewrite Nat2Z.inj_succ. pose proof (Z.div_mod (Z.of_nat n) L ltac:(lia)) as Hdm.
    destruct (Z.leb_spec L (Z.of_nat n mod L + 1)); cbn [fst snd t_count t_limit t_periodic t_enabled andb cbool].
    + assert (Z.succ (Z.of_nat n) = (Z.of_nat n / L + 1) * L) as -> by nia.
      rewrite Z.mod_mul, Z.div_mul by lia. done.
    + split_and!; try done.
      * apply (Z.mod_unique_pos _ _ (Z.of_nat n / L)); lia.
      * rewrite Z.add_0_r. apply (Z.div_unique_pos _ _ _ (Z.of_nat n mod L + 1)); lia.
Qed.

Lemma ticks_oneshot n t L :
  t_limit t = L → 0 < L < 4294967296 → t_count t = 0 → t_periodic t = false → t_enabled t = true →
  let r := ticks n t in
  t_limit r.1 = L ∧ t_periodic r.1 = false ∧
  if L <=? Z.of_nat n then t_enabled r.1 = false ∧ r.2 = 1
  else t_enabled r.1 = true ∧ r.2 = 0 ∧ t_count r.1 = Z.of_nat n.
Proof.
  intros HL Hr Hc Hp He. induction n as [|n IH]; cbn zeta in *; cbn [ticks].
  - cbn [fst snd]. rewrite (proj2 (Z.leb_gt _ _)) by lia. done.
  - destruct (ticks n t) as [t1 k1]. cbn [fst snd] in *. destruct IH as (I1 & I2 & I3). unfold tick. rewrite I1, I2.
    destruct (Z.leb_spec L (Z.of_nat n)) as [Hn|Hn].
    + rewrite (proj2 (Z.leb_le L (Z.of_nat (S n)))) by lia. destruct I3 as [-> ->].
      destruct (L <=? u32 (t_count t1 + 1)); done.
    + destruct I3 as (-> & -> & ->). rewrite u32_id by lia.
      destruct (Z.leb_spec L (Z.of_nat n + 1)).
      * rewrite (proj2 (Z.leb_le L (Z.of_nat (S n)))) by lia. done.
      * rewrite (proj2 (Z.leb_gt L (Z.of_nat (S n)))) by lia. split; [done|]. split; [done|]. split; [done|].
        split; [done|]. cbn. lia.
Qed.

(** ** The timers of a state *)
Section timers.
Context `{conf : PlatformConf} `{!PlatformConfOk conf} {Q : Type} (add : Q → Z → Z → Q).
Implicit Types s : vtmr (Q:=Q).

Abbreviation N := VTMR_NUM_TIMERS.

Definition timer_at s (i : Z) : option timer :=
  c ← ld (vtmr_counters s) i;
  l ← ld (vtmr_period_limit s) i;
  p ← bit_test (vtmr_int_periodic_flag s) i;
  e ← bit_test (vtmr_int_enabled s) i;
  f ← bit_test (vtmr_int_flag s) i;
  Some (Timer c l p e f).

(** The arrays have their declared sizes. *)
Definition vtmr_ok s : Prop :=
  msize (vtmr_counters s) = N ∧ msize (vtmr_period_limit s) = N ∧ bits_ok N (vtmr_int_periodic_flag s) ∧
  bits_ok N (vtmr_int_enabled s) ∧ bits_ok N (vtmr_int_flag s).

Lemma bit_test_ok n a i : bits_ok n a → 0 <= i < n → ∃ b, bit_test a i = Some b.
Proof. intros Ha Hi. destruct (bit_byte_ok n a i Ha Hi) as (b & Hb & _). eexists. by apply bit_test_byte. Qed.

Lemma timer_at_ok s i : vtmr_ok s → 0 <= i < N → ∃ t, timer_at s i = Some t.
Proof.
  intros (H1 & H2 & H3 & H4 & H5) Hi. unfold timer_at.
  destruct (ld_in_range (vtmr_counters s) i) as [c ->]; [lia|]. destruct (ld_in_range (vtmr_period_limit s) i) as [l ->]; [lia|].
  destruct (bit_test_ok _ _ _ H3 Hi) as [p ->]. destruct (bit_test_ok _ _ _ H4 Hi) as [e ->]. destruct (bit_test_ok _ _ _ H5 Hi) as [f ->].
  by eexists.
Qed.

Lemma timer_at_inv s i t : timer_at s i = Some t →
  ld (vtmr_counters s) i = Some (t_count t) ∧ ld (vtmr_period_limit s) i = Some (t_limit t) ∧
  bit_test (vtmr_int_periodic_flag s) i = Some (t_periodic t) ∧ bit_test (vtmr_int_enabled s) i = Some (t_enabled t) ∧
  bit_test (vtmr_int_flag s) i = Some (t_flag t).
Proof.
  unfold timer_at. intros H. destruct (ld (vtmr_counters s) i) as [c|]; cbn [mbind option_bind] in H; [|done].
  destruct (ld (vtmr_period_limit s) i) as [l|]; cbn [mbind option_bind] in H; [|done].
  destruct (bit_test (vtmr_int_periodic_flag s) i) as [p|]; cbn [mbind option_bind] in H; [|done].
  destruct (bit_test (vtmr_int_enabled s) i) as [e|]; cbn [mbind option_bind] in H; [|done].
  destruct (bit_test (vtmr_int_flag s) i) as [f|]; cbn [mbind option_bind] in H; [|done]. by simplify_eq/=.
Qed.

Lemma ld_insert (l : list Z) i j v : 0 <= i < msize l → 0 <= j →
  ld (<[Z.to_nat i := v]> l) j = if i =? j then Some v else ld l j.
Proof.
  intros Hi Hj. unfold ld, msize in *. rewrite !decide_True by done. destruct (Z.eqb_spec i j) as [->|Hne].
  - apply list_lookup_insert_eq. lia.
  - apply list_lookup_insert_ne. lia.
Qed.

Lemma msize_insert (l : list Z) i v : msize (<[i := v]> l) = msize l.
Proof. unfold msize. by rewrite length_insert. Qed.

(** The interrupts posted by a tick on the timers [ids]. *)
Definition posted s (q : Q) (ids : list Z) : Q :=
  foldl (λ q i, match timer_at s i with
                | Some t => if (tick t).2 then add q INT_TMR_MATCH (i + VTMR_FIRST_ID) else q
                | None => q
                end) q ids.

Lemma cb_timer_ok s i t : vtmr_ok s → 0 <= i < N → timer_at s i = Some t →
  ∃ s', cb_timer add s i = Some s' ∧ vtmr_ok s' ∧ vtmr_reset_idx s' = vtmr_reset_idx s ∧
    (∀ j, 0 <= j < N → timer_at s' j = if i =? j then Some (tick t).1 else timer_at s j) ∧
    vtmr_ints s' = if (tick t).2 then add (vtmr_ints s) INT_TMR_MATCH (i + VTMR_FIRST_ID) else vtmr_ints s.
Proof.
  intros (H1 & H2 & H3 & H4 & H5) Hi Ht. destruct (timer_at_inv _ _ _ Ht) as (T1 & T2 & T3 & T4 & T5).
  unfold cb_timer. rewrite T1. cbn [mbind option_bind]. cbn [vtmr_period_limit set_counters]. rewrite T2. cbn [mbind option_bind].
  unfold tick. destruct (t_limit t <=? u32 (t_count t + 1)) eqn:Eh; cbn [fst snd].
  - destruct (bit_set_spec N _ i H5 Hi) as (f & Hf & Hfo & Hfj). cbn [vtmr_int_flag set_counters]. rewrite Hf. cbn [mbind option_bind].
    cbn [vtmr_int_enabled set_flag set_counters]. rewrite T4. cbn [mbind option_bind].
    destruct (bit_clear_spec N _ i H4 Hi) as (e & He & Heo & Hej).
    destruct (t_enabled t) eqn:Een; cbn [vtmr_int_periodic_flag set_flag set_counters set_ints]; rewrite T3; cbn [mbind option_bind];
      destruct (t_periodic t) eqn:Ep; cbn [vtmr_int_enabled set_flag set_counters set_ints vtmr_counters]; rewrite ?He; cbn [mbind option_bind].
    all: eexists; split; [reflexivity|]; cbn [set_enabled set_counters set_flag set_ints vtmr_reset_idx vtmr_ints].
    all: split; [unfold vtmr_ok; cbn; rewrite ?msize_insert; done|]. all: split; [done|]. all: split; [|done].
    all: intros j Hj; unfold timer_at; cbn [set_enabled set_counters set_flag set_ints vtmr_counters vtmr_period_limit vtmr_int_periodic_flag vtmr_int_enabled vtmr_int_flag].
    all: rewrite ?list_insert_insert_eq, ld_insert, Hfj, ?Hej by (rewrite ?msize_insert; lia).
    all: destruct (Z.eqb_spec i j) as [<-|]; [|done]; cbn [mbind option_bind]; rewrite T2, T3, ?T4; cbn [mbind option_bind]; by rewrite ?Een, ?Ep.
  - eexists. split; [reflexivity|]. cbn [set_counters vtmr_reset_idx vtmr_ints].
    split; [unfold vtmr_ok; cbn; rewrite ?msize_insert; done|]. split; [done|]. split; [|done].
    intros j Hj. unfold timer_at. cbn [set_counters vtmr_counters vtmr_period_limit vtmr_int_periodic_flag vtmr_int_enabled vtmr_int_flag].
    rewrite ld_insert by lia. destruct (Z.eqb_spec i j) as [<-|]; [|done]. cbn [mbind option_bind]. by rewrite T2, T3, T4, T5.
Qed.

Lemma cb_loop_ok n : ∀ s a, vtmr_ok s → 0 <= a → a + Z.of_nat n <= N →
  ∃ s', cb_loop add n a s = Some s' ∧ vtmr_ok s' ∧ vtmr_reset_idx s' = vtmr_reset_idx s ∧
    (∀ j t, 0 <= j < N → timer_at s j = Some t →
       timer_at s' j = Some (if (a <=? j) && (j <? a + Z.of_nat n) then (tick t).1 else t)) ∧
    vtmr_ints s' = posted s (vtmr_ints s) (seqZ a (Z.of_nat n)).
Proof.
  induction n as [|n IH]; intros s a Hs Ha Hn.
  - exists s. split; [done|]. split; [done|]. split; [done|]. split; [|done]. intros j t Hj Ht. rewrite Ht.
    destruct (Z.leb_spec a j), (Z.ltb_spec j (a + Z.of_nat 0)); done || lia.
  - destruct (timer_at_ok s a Hs ltac:(lia)) as [t Ht].
    destruct (cb_timer_ok s a t Hs ltac:(lia) Ht) as (s1 & Hc & Hs1 & Hr & Hat & Hi).
    destruct (IH s1 (a + 1) Hs1 ltac:(lia) ltac:(lia)) as (s2 & Hc2 & Hs2 & Hr2 & Hat2 & Hi2).
    exists s2. cbn [cb_loop]. rewrite Hc. cbn [mbind option_bind]. split; [done|]. split; [done|]. split; [congruence|]. split.
    + intros j u Hj Hu. destruct (Z.eqb_spec a j) as [<-|Hne].
      * rewrite (Hat2 a (tick t).1); [|done|rewrite Hat by lia; by rewrite Z.eqb_refl]. simplify_eq.
        rewrite (proj2 (Z.leb_gt (a + 1) a)), Z.leb_refl, (proj2 (Z.ltb_lt a (a + Z.of_nat (S n)))) by lia. done.
      * rewrite (Hat2 j u); [|done|rewrite Hat by lia; by rewrite (proj2 (Z.eqb_neq a j))].
        assert ((a + 1 <=? j) && (j <? a + 1 + Z.of_nat n) = (a <=? j) && (j <? a + Z.of_nat (S n))) as ->; [|done].
        apply eq_true_iff_eq. rewrite !andb_true_iff, !Z.leb_le, !Z.ltb_lt. lia.
    + assert (seqZ a (Z.of_nat (S n)) = a :: seqZ (a + 1) (Z.of_nat n)) as ->.
      { rewrite seqZ_cons by lia. f_equal. f_equal; lia. }
      transitivity (posted s (if (tick t).2 then add (vtmr_ints s) INT_TMR_MATCH (a + VTMR_FIRST_ID) else vtmr_ints s) (seqZ (a + 1) (Z.of_nat n)));
        [|unfold posted; cbn [foldl]; by rewrite Ht].
      rewrite Hi2, Hi.
      assert (∀ ids q, (∀ j, j ∈ ids → a + 1 <= j < N) → posted s1 q ids = posted s q ids) as Hp.
      { unfold posted. induction ids as [|j ids IHi]; intros q Hj; cbn [foldl]; [done|].
        rewrite Hat by (specialize (Hj j ltac:(left)); lia).
        rewrite (proj2 (Z.eqb_neq a j)) by (specialize (Hj j ltac:(left)); lia). apply IHi. intros k Hk. apply Hj. by right. }
      apply Hp. intros j Hj. apply elem_of_seqZ in Hj. lia.
Qed.

Lemma vtmr_cb_ok s : vtmr_ok s → -1 <= vtmr_reset_idx s < N →
  ∃ s', cmn_virtual_timer_cb add s = Some s' ∧ vtmr_ok s' ∧ vtmr_reset_idx s' = -1 ∧
    (∀ i t, 0 <= i < N → timer_at s i = Some t →
       timer_at s' i = Some (if i =? vtmr_reset_idx s then reset (tick t).1 else (tick t).1)) ∧
    vtmr_ints s' = posted s (vtmr_ints s) (seqZ 0 N).
Proof.
  intros Hs Hr. pose proof vtmr_num_range. destruct (cb_loop_ok (Z.to_nat N) s 0 Hs) as (s1 & Hc & Hs1 & Hr1 & Hat & Hi); [lia|lia|].
  rewrite Z2Nat.id in Hi, Hat by lia. unfold cmn_virtual_timer_cb. rewrite Hc. cbn [mbind option_bind]. rewrite Hr1.
  assert (∀ i t, 0 <= i < N → timer_at s i = Some t → timer_at s1 i = Some (tick t).1) as Hat1.
  { intros i t Hi1 Ht. rewrite (Hat i t Hi1 Ht), (proj2 (Z.leb_le _ _)), (proj2 (Z.ltb_lt _ _)) by lia. done. }
  destruct (Z.eqb_spec (vtmr_reset_idx s) (-1)) as [E|E]; cbn [negb].
  - exists s1. split; [done|]. split; [done|]. split; [congruence|]. split; [|done]. intros i t Hi1 Ht.
    rewrite (proj2 (Z.eqb_neq i _)) by lia. by apply Hat1.
  - destruct Hs1 as (H1 & H2 & H3). destruct (ld_in_range (vtmr_counters s1) (vtmr_reset_idx s)) as [c ->]; [lia|]. cbn [mbind option_bind].
    eexists. split; [done|]. split; [unfold vtmr_ok; cbn; by rewrite msize_insert|]. split; [done|]. split; [|done].
    intros i t Hi1 Ht. specialize (Hat1 i t Hi1 Ht). destruct (timer_at_inv _ _ _ Hat1) as (T1 & T2 & T3 & T4 & T5).
    unfold timer_at. cbn [set_reset_idx set_counters vtmr_counters vtmr_period_limit vtmr_int_periodic_flag vtmr_int_enabled vtmr_int_flag].
    rewrite ld_insert, T2, T3, T4, T5 by lia. rewrite (Z.eqb_sym i). destruct (vtmr_reset_idx s =? i); cbn [mbind option_bind]; [done|].
    rewrite T1. cbn. by destruct (tick t).1.
Qed.

(** The timer interrupt is one tick of every virtual timer on its own, whatever timers share the bytes of the flag arrays:
    the interrupts of the timers that match are posted in order, and the timer whose reset was asked for is at zero. *)
Theorem vtmr_cb_pointwise s : vtmr_ok s → -1 <= vtmr_reset_idx s < N →
  ∃ s', cmn_virtual_timer_cb add s = Some s' ∧ vtmr_ok s' ∧ vtmr_reset_idx s' = -1 ∧
    (∀ i t, 0 <= i < N → timer_at s i = Some t →
       timer_at s' i = Some (if i =? vtmr_reset_idx s then reset (tick t).1 else (tick t).1)) ∧
    vtmr_ints s' = posted s (vtmr_ints s) (seqZ 0 N).
Proof. apply vtmr_cb_ok. Qed.
End timers.

(** ** Match interrupts

    The interrupts posted are recorded in order as pairs of an interrupt and a resource. *)
Section match_int.
Context `{conf : PlatformConf} `{!PlatformConfOk conf}.

Abbreviation trace := (list (Z * Z)).
Implicit Types s : vtmr (Q:=trace).

Definition trace_add (q : trace) (id resnum : Z) : trace := q ++ [(id, resnum)].

(** The match interrupts of timer [i] in a trace. *)
Definition posts (i : Z) (q : trace) : Z := msize ((λ _, 0) <$> filter (λ e, e = (INT_TMR_MATCH, i + VTMR_FIRST_ID)) q).

Lemma posts_add i j q : posts i (trace_add q INT_TMR_MATCH (j + VTMR_FIRST_ID)) = posts i q + cbool (i =? j).
Proof.
  unfold posts, trace_add. rewrite filter_app, fmap_app, msize_app. f_equal. rewrite filter_cons, filter_nil.
  destruct (Z.eqb_spec i j) as [->|Hne]; [by rewrite decide_True|]. rewrite decide_False; [done|]. intros E. simplify_eq. lia.
Qed.

Lemma posts_posted s i t ids q : timer_at s i = Some t → NoDup ids →
  posts i (posted trace_add s q ids) = posts i q + (if decide (i ∈ ids) then cbool (tick t).2 else 0).
Proof.
  intros Ht. revert q. induction ids as [|j ids IH]; intros q Hnd.
  - change (posted trace_add s q []) with q. destruct (decide (i ∈ [])) as [H|_]; [by apply elem_of_nil in H|lia].
  - apply NoDup_cons in Hnd as [Hj Hnd]. 
    change (posted trace_add s q (j :: ids)) with (posted trace_add s (match timer_at s j with
      | Some t => if (tick t).2 then trace_add q INT_TMR_MATCH (j + VTMR_FIRST_ID) else q | None => q end) ids).
    rewrite IH by done.
    destruct (decide (i = j)) as [<-|Hne].
    + rewrite Ht. rewrite decide_False by done. rewrite decide_True by (left). destruct (tick t).2; [|cbn; lia].
      rewrite posts_add, Z.eqb_refl. cbn. lia.
    + assert (posts i (match timer_at s j with Some t => if (tick t).2 then trace_add q INT_TMR_MATCH (j + VTMR_FIRST_ID) else q | None => q end) = posts i q) as ->.
      { destruct (timer_at s j) as [u|]; [|done]. destruct (tick u).2; [|done].
        rewrite posts_add, (proj2 (Z.eqb_neq i j)) by done. cbn. lia. }
      destruct (decide (i ∈ ids)) as [H|H]; [rewrite decide_True by (by right)|rewrite decide_False; [done|]]; [done|].
      intros Hx. apply elem_of_cons in Hx as [Hx|Hx]; done.
Qed.

(** [n] interrupts of the timer. *)
Fixpoint vtmr_run (n : nat) s : option vtmr :=
  match n with O => Some s | S n => s ← vtmr_run n s; cmn_virtual_timer_cb trace_add s end.

Lemma vtmr_run_ok n s i t : vtmr_ok s → vtmr_reset_idx s = -1 → 0 <= i < VTMR_NUM_TIMERS → timer_at s i = Some t →
  ∃ s', vtmr_run n s = Some s' ∧ vtmr_ok s' ∧ vtmr_reset_idx s' = -1 ∧ timer_at s' i = Some (ticks n t).1 ∧
    posts i (vtmr_ints s') = posts i (vtmr_ints s) + (ticks n t).2.
Proof.
  intros Hs Hr Hi Ht. induction n as [|n IH]; cbn [vtmr_run ticks].
  - exists s. split_and!; try done. cbn [snd]. lia.
  - destruct IH as (s1 & -> & Hs1 & Hr1 & Ht1 & Hp1). cbn [mbind option_bind].
    destruct (vtmr_cb_ok trace_add s1 Hs1) as (s2 & Hc & Hs2 & Hr2 & Hat & Hints); [rewrite Hr1; lia|].
    specialize (Hat i _ Hi Ht1). rewrite Hr1, (proj2 (Z.eqb_neq i (-1))) in Hat by lia.
    destruct (ticks n t) as [u k]. cbn [fst snd] in *. destruct (tick u) as [v p] eqn:Eu. cbn [fst snd] in *.
    exists s2. split; [done|]. split; [done|]. split; [done|]. split; [done|].
    rewrite Hints, (posts_posted s1 i u _ _ Ht1) by apply NoDup_seqZ. rewrite decide_True by (apply elem_of_seqZ; lia).
    rewrite Eu, Hp1. cbn [snd]. lia.
Qed.

Lemma vtmr_reset_ok fuel s i t : vtmr_ok s → 0 <= i < VTMR_NUM_TIMERS → timer_at s i = Some t →
  ∃ s', vtmr_reset_timer trace_add (S fuel) s (i + VTMR_FIRST_ID) = Some s' ∧ vtmr_ok s' ∧ vtmr_reset_idx s' = -1 ∧
    timer_at s' i = Some (reset (tick t).1).
Proof.
  intros Hs Hi Ht. pose proof vtmr_num_range. unfold vtmr_reset_timer.
  assert (VTMR_GET_ID (i + VTMR_FIRST_ID) = i) as -> by (unfold VTMR_GET_ID; rewrite Z.add_simpl_r; apply u32_id; lia).
  assert (s8 i = i) as -> by (unfold s8; rewrite u8_id by lia; by rewrite (proj2 (Z.ltb_lt i 128)) by lia).
  destruct (vtmr_cb_ok trace_add (set_reset_idx s i) Hs) as (s1 & Hc & Hs1 & Hr1 & Hat & _); [cbn; lia|].
  cbn [wait_while mbind option_bind vtmr_reset_idx set_reset_idx]. rewrite (proj2 (Z.eqb_neq i (-1))) by lia. cbn [negb].
  rewrite Hc. cbn [mbind option_bind].
  assert (wait_while trace_add fuel (λ s, Some (negb (vtmr_reset_idx s =? -1))) s1 = Some s1) as ->.
  { destruct fuel; cbn [wait_while mbind option_bind]; rewrite Hr1; done. }
  exists s1. split; [done|]. split; [done|]. split; [done|]. specialize (Hat i t Hi Ht). cbn [vtmr_reset_idx set_reset_idx] in Hat.
  by rewrite Z.eqb_refl in Hat.
Qed.

Lemma set_match_ok fuel s i period_us type : vtmr_ok s → 0 <= i < VTMR_NUM_TIMERS → 0 < period_us →
  let L := period_us * VTMR_FREQ_HZ / 1000000 in 0 < L < 4294967296 →
  ∃ s', vtmr_set_match_int trace_add (S fuel) s (i + VTMR_FIRST_ID) period_us type = Some (s', PLATFORM_TIMER_INT_OK) ∧
    vtmr_ok s' ∧ vtmr_reset_idx s' = -1 ∧
    ∃ f, timer_at s' i = Some (Timer 0 L (negb (type =? PLATFORM_TIMER_INT_ONESHOT)) true f).
Proof.
  intros Hs Hi Hper L HL. pose proof vtmr_num_range. destruct (timer_at_ok s i Hs Hi) as [t Ht].
  destruct (timer_at_inv _ _ _ Ht) as (T1 & T2 & T3 & T4 & T5). pose proof Hs as (H1 & H2 & H3 & H4 & H5).
  unfold vtmr_set_match_int. rewrite (proj2 (Z.eqb_neq period_us 0)) by lia. fold L. rewrite (u32_id L) by lia.
  rewrite (proj2 (Z.eqb_neq L 0)) by lia.
  assert (VTMR_GET_ID (i + VTMR_FIRST_ID) = i) as -> by (unfold VTMR_GET_ID; rewrite Z.add_simpl_r; apply u32_id; lia).
  rewrite T2. cbn [mbind option_bind]. cbn [vtmr_int_periodic_flag set_period_limit].
  assert (∃ p, (if type =? PLATFORM_TIMER_INT_ONESHOT then bit_clear (vtmr_int_periodic_flag s) i else bit_set (vtmr_int_periodic_flag s) i) = Some p ∧
    bits_ok VTMR_NUM_TIMERS p ∧ bit_test p i = Some (negb (type =? PLATFORM_TIMER_INT_ONESHOT))) as (p & -> & Hp & Hpi).
  { destruct (type =? PLATFORM_TIMER_INT_ONESHOT).
    - destruct (bit_clear_spec _ _ i H3 Hi) as (p & Hc & Hp & Hj). exists p. split; [done|]. split; [done|]. by rewrite Hj, Z.eqb_refl.
    - destruct (bit_set_spec _ _ i H3 Hi) as (p & Hc & Hp & Hj). exists p. split; [done|]. split; [done|]. by rewrite Hj, Z.eqb_refl. }
  cbn [mbind option_bind]. cbn [vtmr_int_flag set_period_limit set_periodic].
  destruct (bit_clear_spec _ _ i H5 Hi) as (f & Hf & Hfo & Hfj). rewrite Hf. cbn [mbind option_bind].
  set (s1 := set_flag (set_periodic (set_period_limit s _) p) f).
  assert (vtmr_ok s1) as Hs1 by (unfold vtmr_ok, s1; cbn; rewrite msize_insert; done).
  assert (timer_at s1 i = Some (Timer (t_count t) L (negb (type =? PLATFORM_TIMER_INT_ONESHOT)) (t_enabled t) false)) as Ht1.
  { unfold timer_at, s1. cbn [vtmr_counters vtmr_period_limit vtmr_int_periodic_flag vtmr_int_enabled vtmr_int_flag set_flag set_periodic set_period_limit].
    rewrite T1. cbn [mbind option_bind]. rewrite ld_insert, Z.eqb_refl by lia. cbn [mbind option_bind]. rewrite Hpi, T4. cbn [mbind option_bind].
    by rewrite Hfj, Z.eqb_refl. }
  destruct (vtmr_reset_ok fuel s1 i _ Hs1 Hi Ht1) as (s2 & -> & Hs2 & Hr2 & Ht2). cbn [mbind option_bind].
  pose proof Hs2 as (G1 & G2 & G3 & G4 & G5). destruct (bit_set_spec _ _ i G4 Hi) as (e & He & Heo & Hej). rewrite He. cbn [mbind option_bind].
  eexists. split; [done|]. split; [by unfold vtmr_ok|]. split; [done|].
  destruct (timer_at_inv _ _ _ Ht2) as (U1 & U2 & U3 & U4 & U5).
  exists (t_flag (reset (tick (Timer (t_count t) L (negb (type =? PLATFORM_TIMER_INT_ONESHOT)) (t_enabled t) false)).1)).
  unfold timer_at. cbn [vtmr_counters vtmr_period_limit vtmr_int_periodic_flag vtmr_int_enabled vtmr_int_flag set_enabled].
  rewrite U1, U2, U3, Hej, Z.eqb_refl, U5 by done. cbn [mbind option_bind]. f_equal. unfold tick.
  cbn [t_limit t_count t_periodic t_enabled t_flag]. by destruct (L <=? u32 (t_count t + 1)).
Qed.

(** A match interrupt: after it is set up, [n] runs of the timer interrupt post the timer's interrupt once per period
    if it is cyclic, and once, at the end of the first period, if it is one-shot. *)
Theorem vtmr_match_int_fires fuel s i period_us type n : vtmr_ok s → 0 <= i < VTMR_NUM_TIMERS → 0 < period_us →
  let L := period_us * VTMR_FREQ_HZ / 1000000 in 0 < L < 4294967296 →
  ∃ s1 s2, vtmr_set_match_int trace_add (S fuel) s (i + VTMR_FIRST_ID) period_us type = Some (s1, PLATFORM_TIMER_INT_OK) ∧
    vtmr_run n s1 = Some s2 ∧
    posts i (vtmr_ints s2) - posts i (vtmr_ints s1)
    = if type =? PLATFORM_TIMER_INT_ONESHOT then cbool (L <=? Z.of_nat n) else Z.of_nat n / L.
Proof.
  intros Hs Hi Hper L HL. destruct (set_match_ok fuel s i period_us type Hs Hi Hper HL) as (s1 & H1 & Hs1 & Hr1 & f & Ht1).
  destruct (vtmr_run_ok n s1 i _ Hs1 Hr1 Hi Ht1) as (s2 & H2 & _ & _ & _ & Hp). exists s1, s2. split; [done|]. split; [done|].
  rewrite Hp, Z.add_simpl_l. fold L. destruct (type =? PLATFORM_TIMER_INT_ONESHOT); cbn [negb].
  - destruct (ticks_oneshot n (Timer 0 L false true f) L) as (_ & _ & H); [done..|].
    destruct (L <=? Z.of_nat n); [by destruct H as [_ ->]|by destruct H as (_ & -> & _)].
  - by destruct (ticks_periodic n (Timer 0 L true true f) L) as (_ & _ & _ & _ & H).
Qed.
End match_int.

(** ** The theorems at work: the four timers of the demonstration board, at 4 Hz *)
Definition demo_vtmr (c : Z) : vtmr (Q:=list (Z * Z)) := Vtmr (replicate 4 c) (-1) (replicate 4 0) [0] [0] [0] [].

Lemma demo_vtmr_ok c : vtmr_ok (conf:=demo_board) (demo_vtmr c).
Proof. done. Qed.

Theorem vtmr_cb_pointwise_witness :
  ∃ s', cmn_virtual_timer_cb (conf:=demo_board) trace_add (demo_vtmr 7) = Some s' ∧
    timer_at s' 2 = Some (Timer 8 0 false false true).
Proof.
  destruct (vtmr_cb_pointwise (conf:=demo_board) trace_add (demo_vtmr 7) (demo_vtmr_ok 7) ltac:(cbn; lia)) as (s' & H & _ & _ & Hat & _).
  exists s'. split; [exact H|]. exact (Hat 2 (Timer 7 0 false false false) ltac:(cbn; lia) eq_refl).
Defined.

(** A cyclic interrupt of half a second on timer 1: three in seven ticks. *)
Theorem vtmr_match_int_fires_witness :
  ∃ s1 s2, vtmr_set_match_int (conf:=demo_board) trace_add 1 (demo_vtmr 0) 33 500000 PLATFORM_TIMER_INT_CYCLIC = Some (s1, 0) ∧
    vtmr_run (conf:=demo_board) 7 s1 = Some s2 ∧ posts (conf:=demo_board) 1 (vtmr_ints s2) - posts (conf:=demo_board) 1 (vtmr_ints s1) = 3.
Proof.
  exact (vtmr_match_int_fires (conf:=demo_board) 0 (demo_vtmr 0) 1 500000 PLATFORM_TIMER_INT_CYCLIC 7 (demo_vtmr_ok 0) ltac:(cbn; lia) ltac:(lia)
    ltac:(vm_compute; split; congruence)).
Defined.

(** Setting up a match interrupt on a timer that has been running for longer than the new period: the interrupt flag is set right away. *)
Example vtmr_match_flag_stale :
  (p ← vtmr_set_match_int (conf:=demo_board) trace_add 1 (demo_vtmr 100) 32 1000000 PLATFORM_TIMER_INT_ONESHOT;
   snd <$> vtmr_int_get_flag p.1 32 0) = Some 1.
Proof. vm_compute. reflexivity. Qed.

(** The longest delay of a virtual timer does not fit the 32 bits of the result. *)
Example vtmr_max_delay_wraps :
  (λ r, r.2) <$> platform_timer_get_diff_us (conf:=demo_board) (λ w _ _ _, (w, 0)) tt 32 0 4294967295 = Some 4294717296
  ∧ 4294967295 * 1000000 / 4 = 1073741823750000.
Proof. split; reflexivity. Qed.
