(* ===== verification/BitArray.v ===== *)
(** * The bit array module (src/modules/bitarray.c)

    A Lua call is a function of its arguments; [inl] is the message of [luaL_error]. The elements are packed in an object of
    bytes; an access outside it is undefined ([None]). *)
From S2P Require Import Prelude.

(** An argument. [lua_isnumber] also holds for the strings that the Lua core converts to numbers, which is the parameter
    [tonumber] of the functions below. A table is the list of its elements' integer values. *)
Inductive lua_arg :=
  | LNil
  | LNumber (n : Z)
  | LString (s : list Z)
  | LTable (l : list Z).

Abbreviation lua_result A := (string + A)%type.

Record bitarray_t := BitArray { capacity : Z; elsize : Z; values : mem }.

Definition ROUND_SIZE (s : Z) : Z := Z.shiftr s 3 + (if ctrue (Z.land s 7) then 1 else 0).

Definition bitarray_index_shift : list Z := [0; 3; 2; 0; 1].
Definition bitarray_index_mask : list Z := [0; 1; 3; 0; 15].

Definition set_values (pa : bitarray_t) (m : mem) : bitarray_t := BitArray (capacity pa) (elsize pa) m.

Section args.
Context (tonumber : list Z → option Z).

Definition lua_number (a : lua_arg) : option Z :=
  match a with LNumber n => Some n | LString s => tonumber s | _ => None end.

(** [lua_newuserdata]'s block before it is filled is the parameter [fresh]. *)
Definition bitarray_new (fresh : Z → mem) (a1 a2 a3 : lua_arg) : option (lua_result bitarray_t) :=
  let elsize := match lua_number a2 with Some n => u8 n | None => 8 end in
  let finish (capacity : Z) (fill : Z → mem → option mem) :=
    if (elsize <=? 0) || (32 <? elsize) || ctrue (Z.land elsize (elsize - 1))
    then Some (inl "invalid element size."%string)
    else
      let total := ROUND_SIZE (u32 (capacity * elsize)) in
      if total <=? 0 then Some (inl "invalid arguments."%string)
      else m ← fill total (fresh total); Some (inr (BitArray capacity elsize m)) in
  let from_bytes (bytes : list Z) :=
    let temp := msize bytes in
    if elsize =? 0 then None
    else if negb (u32 (Z.shiftl temp 3) mod elsize =? 0)
    then Some (inl "length is not a multiple of element size."%string)
    else finish (u32 (Z.shiftl temp 3) / elsize) (λ total m, mwrite m 0 bytes) in
  match lua_number a1 with
  | Some n =>
      let fill := match lua_number a3 with Some f => u8 f | None => 0 end in
      finish (u32 n) (λ total m, mwrite m 0 (replicate (Z.to_nat total) fill))
  | None =>
      match a1 with
      | LString s => from_bytes s
      | LTable l => from_bytes (u8 <$> l)
      | _ => Some (inl "invalid arguments."%string)
      end
  end.
End args.

(** The place of a sub-byte element: the index of its byte and the shift inside it. *)
Definition sub_byte (elsize idx : Z) : option (Z * Z * Z) :=
  s ← ld bitarray_index_shift elsize;
  m ← ld bitarray_index_mask elsize;
  let shift := Z.shiftr idx s in
  let mask := u8 (Z.shiftl 1 s) in
  let rest := Z.land idx (mask - 1) in
  Some (shift, (mask - 1 - rest) * elsize, m).

Definition bitarray_getval (pa : bitarray_t) (idx : Z) : option Z :=
  let idx := u32 (idx - 1) in
  if elsize pa <? 8 then
    '((shift, k), m) ← sub_byte (elsize pa) idx;
    val ← ld (values pa) shift;
    Some (Z.land (Z.shiftr val k) m)
  else if elsize pa =? 8 then ld (values pa) idx
  else if elsize pa =? 16 then
    a ← ld (values pa) (2 * idx); b ← ld (values pa) (2 * idx + 1); Some (of_le16 a b)
  else if elsize pa =? 32 then
    a ← ld (values pa) (4 * idx); b ← ld (values pa) (4 * idx + 1);
    c ← ld (values pa) (4 * idx + 2); d ← ld (values pa) (4 * idx + 3); Some (of_le32 a b c d)
  else Some 0.

Definition bitarray_get (pa : bitarray_t) (idx : Z) : option (lua_result Z) :=
  let idx := u32 idx in
  if (idx <=? 0) || (capacity pa <? idx) then Some (inl "invalid index."%string)
  else v ← bitarray_getval pa idx; Some (inr v).

Definition bitarray_set (pa : bitarray_t) (idx newval : Z) : option (lua_result bitarray_t) :=
  let idx := u32 idx in
  let newval := u32 newval in
  if (idx <=? 0) || (capacity pa <? idx) then Some (inl "invalid index."%string)
  else
    let idx := u32 (idx - 1) in
    let val := 0 in
    m ← (if elsize pa <? 8 then
           '((shift, k), msk) ← sub_byte (elsize pa) idx;
           val ← ld (values pa) shift;
           let val := Z.land val (Z.lnot (Z.shiftl msk k)) in
           let val := Z.lor val (u32 (Z.shiftl newval k)) in
           st (values pa) shift val
         else if elsize pa =? 8 then st (values pa) idx val
         else if elsize pa =? 16 then mwrite (values pa) (2 * idx) (le16 val)
         else if elsize pa =? 32 then mwrite (values pa) (4 * idx) (le32 val)
         else Some (values pa));
    Some (inr (set_values pa m)).

Definition bitarray_len (pa : bitarray_t) : Z := capacity pa.

(** One step of the iterator: the next index and its value, or nothing. *)
Definition bitarray_iter (pa : bitarray_t) (idx : Z) : option (option (Z * Z)) :=
  let idx := u32 (idx + 1) in
  if idx <=? capacity pa then v ← bitarray_getval pa idx; Some (Some (idx, v)) else Some None.

(** The mode argument: [true] is "raw". *)
Definition unpack_mode (a2 : option (list Z)) : option bool :=
  match a2 with
  | None => Some false
  | Some s => if bool_decide (s = txt "raw") then Some true else if bool_decide (s = txt "seq") then Some false else None
  end.

(** The loops over the elements from [idx] on. *)
Fixpoint unpack_seq (n : nat) (pa : bitarray_t) (idx : Z) : option (list Z) :=
  match n with
  | O => Some []
  | S n => v ← bitarray_getval pa idx; l ← unpack_seq n pa (idx + 1); Some (v :: l)
  end.

Definition bitarray_unpack (pa : bitarray_t) (a2 : option (list Z)) : option (lua_result (list Z)) :=
  match unpack_mode a2 with
  | None => Some (inl "invalid mode string."%string)
  | Some raw =>
      if negb raw && (8 <? elsize pa) then Some (inl "element size too large."%string)
      else if (raw : bool) then l ← mread (values pa) 0 (ROUND_SIZE (u32 (capacity pa * elsize pa))); Some (inr l)
      else l ← unpack_seq (Z.to_nat (capacity pa)) pa 1; Some (inr l)
  end.

(** A string: the elements as characters. *)
Definition bitarray_tostring (pa : bitarray_t) (a2 : option (list Z)) : option (lua_result (list Z)) :=
  r ← bitarray_unpack pa a2;
  Some (match r with inl e => inl e | inr l => inr (u8 <$> (l : list Z)) end : lua_result (list Z)).

(** A table: the elements, from index 1 on. *)
Definition bitarray_totable (pa : bitarray_t) (a2 : option (list Z)) : option (lua_result (list Z)) :=
  bitarray_unpack pa a2.

(** ** Elements *)

(** What [bitarray_new] makes: a legal element size and room for the elements. *)
Definition bitarray_ok (pa : bitarray_t) : Prop :=
  elsize pa ∈ [1; 2; 4; 8; 16; 32] ∧ 0 < capacity pa ∧ capacity pa * elsize pa < 4294967296 ∧
  msize (values pa) = ROUND_SIZE (capacity pa * elsize pa) ∧ bytes_ok (values pa).

Lemma round_size s : 0 <= s → s <= 8 * ROUND_SIZE s < s + 8.
Proof.
  intros Hs. unfold ROUND_SIZE, ctrue. rewrite Z.shiftr_div_pow2 by lia. change 7 with (Z.ones 3). rewrite Z.land_ones by lia.
  change (2 ^ 3) with 8. destruct (Z.eqb_spec (s mod 8) 0); cbn [negb]; Z.div_mod_to_equations; lia.
Qed.

(** The element size below a byte, and how many elements a byte holds. *)
Lemma sub_byte_spec e idx : e ∈ [1; 2; 4] → 0 <= idx →
  let c := 8 / e in sub_byte e idx = Some (idx / c, (c - 1 - idx mod c) * e, 2 ^ e - 1).
Proof.
  intros He Hi. rewrite !elem_of_cons, elem_of_nil in He. destruct He as [->|[->|[->|[]]]].
  1: change (8 / 1) with (2 ^ 3). 2: change (8 / 2) with (2 ^ 2). 3: change (8 / 4) with (2 ^ 1).
  all: unfold sub_byte; change (ld bitarray_index_mask _) with (Some (2 ^ 1 - 1)) || change (ld bitarray_index_mask _) with (Some (2 ^ 2 - 1)) || change (ld bitarray_index_mask _) with (Some (2 ^ 4 - 1)).
  1: change (ld bitarray_index_shift _) with (Some 3). 2: change (ld bitarray_index_shift _) with (Some 2). 3: change (ld bitarray_index_shift _) with (Some 1).
  all: cbn [mbind option_bind]; rewrite Z.shiftr_div_pow2 by lia.
  1: change (u8 (Z.shiftl 1 3) - 1) with (Z.ones 3). 2: change (u8 (Z.shiftl 1 2) - 1) with (Z.ones 2). 3: change (u8 (Z.shiftl 1 1) - 1) with (Z.ones 1).
  all: by rewrite Z.land_ones by lia.
Qed.

(** Inside a byte: the element written is read back, the others keep their values. *)
Definition put_elem (e b v r : Z) : Z :=
  let k := (8 / e - 1 - r) * e in u8 (Z.lor (Z.land b (Z.lnot (Z.shiftl (2 ^ e - 1) k))) (u32 (Z.shiftl v k))).

Definition get_elem (e b r : Z) : Z := Z.land (Z.shiftr b ((8 / e - 1 - r) * e)) (2 ^ e - 1).

Lemma get_elem_bit e b r i : 0 <= e → 0 <= (8 / e - 1 - r) * e → 0 <= i →
  Z.testbit (get_elem e b r) i = (i <? e) && Z.testbit b ((8 / e - 1 - r) * e + i).
Proof.
  intros He Hk Hi. unfold get_elem. replace (2 ^ e - 1) with (Z.ones e) by (rewrite Z.ones_equiv; lia).
  rewrite Z.land_spec, Z.shiftr_spec by lia. rewrite Z.testbit_ones_nonneg by lia. rewrite andb_comm. do 2 f_equal. lia.
Qed.

Lemma put_elem_bit e b v r j : 0 <= e → 0 <= v < 2 ^ e → 0 <= (8 / e - 1 - r) * e → 0 <= j < 8 →
  Z.testbit (put_elem e b v r) j =
    let k := (8 / e - 1 - r) * e in if (k <=? j) && (j <? k + e) then Z.testbit v (j - k) else Z.testbit b j.
Proof.
  intros He Hv Hk Hj. cbv zeta. unfold put_elem. set (k := (8 / e - 1 - r) * e) in *.
  rewrite testbit_u8, Z.lor_spec, Z.land_spec, testbit_u32, Z.lnot_spec, !Z.shiftl_spec by lia.
  replace (2 ^ e - 1) with (Z.ones e) by (rewrite Z.ones_equiv; lia).
  destruct (Z.leb_spec k j) as [H1|H1]; cbn [andb].
  - rewrite Z.testbit_ones_nonneg by lia. replace (j - k <? e) with (j <? k + e) by (apply eq_true_iff_eq; rewrite !Z.ltb_lt; lia).
    destruct (Z.ltb_spec j (k + e)); cbn [negb]; [by rewrite andb_false_r|].
    rewrite andb_true_r. rewrite <- (Z.mod_small v (2 ^ e)) at 1 by done. rewrite Z.mod_pow2_bits_high by lia. apply orb_false_r.
  - rewrite (Z.testbit_neg_r _ (j - k)), (Z.testbit_neg_r v (j - k)) by lia. cbn [negb]. by rewrite andb_true_r, orb_false_r.
Qed.

Lemma get_put_elem e b v r q : e ∈ [1; 2; 4] → 0 <= v < 2 ^ e → 0 <= r < 8 / e → 0 <= q < 8 / e →
  get_elem e (put_elem e b v r) q = if r =? q then v else get_elem e b q.
Proof.
  intros He Hv Hr Hq. assert (0 < e ∧ 8 / e * e = 8) as [He0 He8].
  { rewrite !elem_of_cons, elem_of_nil in He. by destruct He as [->|[->|[->|[]]]]. }
  assert (∀ x, 0 <= x < 8 / e → 0 <= (8 / e - 1 - x) * e ∧ (8 / e - 1 - x) * e + e <= 8) as Hk by (intros; nia).
  pose proof (Hk r Hr). pose proof (Hk q Hq). apply Z.bits_inj'. intros i Hi. rewrite get_elem_bit by lia.
  destruct (Z.ltb_spec i e) as [Hie|Hie]; cbn [andb].
  - rewrite put_elem_bit by lia. cbv zeta. destruct (Z.eqb_spec r q) as [->|Hne].
    + rewrite (proj2 (Z.leb_le _ _)), (proj2 (Z.ltb_lt _ _)) by lia. cbn [andb]. f_equal. lia.
    + rewrite get_elem_bit, (proj2 (Z.ltb_lt i e)) by lia. cbn [andb].
      destruct (Z.leb_spec ((8 / e - 1 - r) * e) ((8 / e - 1 - q) * e + i)), (Z.ltb_spec ((8 / e - 1 - q) * e + i) ((8 / e - 1 - r) * e + e)); cbn [andb]; try done.
      exfalso. destruct (Z.lt_trichotomy r q) as [|[|]]; nia.
  - destruct (r =? q).
    + rewrite <- (Z.mod_small v (2 ^ e)) by done. by rewrite Z.mod_pow2_bits_high by lia.
    + rewrite get_elem_bit, (proj2 (Z.ltb_ge i e)) by lia. done.
Qed.

Lemma same_place a b c : 0 < c → (a = b ↔ a / c = b / c ∧ a mod c = b mod c).
Proof.
  intros Hc. split; [by intros ->|]. intros [H1 H2]. rewrite (Z.div_mod a c), (Z.div_mod b c) by lia. congruence.
Qed.

(** The place of the element [idx] (from 1) of an array of sub-byte elements. *)
Lemma place_facts pa idx : bitarray_ok pa → elsize pa ∈ [1; 2; 4] → 1 <= idx <= capacity pa →
  let c := 8 / elsize pa in
  0 < c ∧ u32 (u32 idx - 1) = idx - 1 ∧ u32 idx = idx ∧ 0 <= (idx - 1) / c < msize (values pa) ∧ 0 <= (idx - 1) mod c < c.
Proof.
  intros (_ & Hc & Hov & Hsz & _) He Hi. pose proof (round_size (capacity pa * elsize pa)) as Hr. cbv zeta.
  assert (0 < elsize pa ∧ 8 / elsize pa * elsize pa = 8 ∧ 0 < 8 / elsize pa) as (He0 & He8 & Hc0).
  { rewrite !elem_of_cons, elem_of_nil in He. by destruct He as [->|[->|[->|[]]]]. }
  set (c := 8 / elsize pa) in *. assert (capacity pa < 4294967296) by nia.
  split; [done|]. rewrite (u32_id idx), u32_id by lia. split; [done|]. split; [done|]. split; [|apply Z.mod_pos_bound; lia].
  split; [apply Z.div_pos; lia|]. apply Z.div_lt_upper_bound; [done|]. rewrite Hsz. nia.
Qed.

(** Elements of 1, 2 and 4 bits: setting an element to a value that fits it succeeds, the element then reads as that value,
    every other element reads as before, and the array stays well formed. *)
Theorem bitarray_set_get pa idx v : bitarray_ok pa → elsize pa ∈ [1; 2; 4] → 1 <= idx <= capacity pa → 0 <= v < 2 ^ elsize pa →
  ∃ pa', bitarray_set pa idx v = Some (inr pa') ∧ bitarray_ok pa' ∧
    ∀ j, 1 <= j <= capacity pa → bitarray_get pa' j = if idx =? j then Some (inr v) else bitarray_get pa j.
Proof.
  intros Hok He Hi Hv. destruct (place_facts pa idx Hok He Hi) as (Hc0 & I1 & I2 & I3 & I4). set (c := 8 / elsize pa) in *.
  assert (0 < elsize pa < 8) as He8.
  { rewrite !elem_of_cons, elem_of_nil in He. by destruct He as [->|[->|[->|[]]]]. }
  assert (0 <= v < 4294967296) as Hv32.
  { split; [lia|]. assert (2 ^ elsize pa < 2 ^ 8) by (apply Z.pow_lt_mono_r; lia). lia. }
  destruct (ld_in_range (values pa) ((idx - 1) / c) I3) as [b Hb].
  unfold bitarray_set. rewrite I2, (u32_id v) by done. rewrite (proj2 (Z.leb_gt idx 0)), (proj2 (Z.ltb_ge (capacity pa) idx)) by lia. cbn [orb].
  rewrite I2 in I1. rewrite I1, (proj2 (Z.ltb_lt (elsize pa) 8)) by lia. rewrite (sub_byte_spec (elsize pa) (idx - 1) He) by lia. fold c.
  cbn [mbind option_bind]. rewrite Hb. cbn [mbind option_bind]. rewrite st_spec by done. cbn [mbind option_bind].
  change (u8 (Z.lor _ _)) with (put_elem (elsize pa) b v ((idx - 1) mod c)).
  set (b' := put_elem (elsize pa) b v ((idx - 1) mod c)). set (m := <[_ := b']> (values pa)).
  assert (msize m = msize (values pa)) as Hm by (unfold m, msize; by rewrite length_insert).
  exists (set_values pa m). split; [done|]. split.
  - destruct Hok as (O1 & O2 & O3 & O4 & O5). unfold bitarray_ok. cbn [elsize capacity values set_values].
    rewrite Hm. split; [done|]. split; [done|]. split; [done|]. split; [done|].
    apply Forall_insert; [done|]. unfold b', put_elem. apply u8_range.
  - intros j Hj. destruct (place_facts pa j Hok He Hj) as (_ & J1 & J2 & J3 & J4). fold c in J3, J4. rewrite J2 in J1.
    unfold bitarray_get. cbn [capacity set_values]. rewrite J2, (proj2 (Z.leb_gt j 0)), (proj2 (Z.ltb_ge (capacity pa) j)) by lia. cbn [orb].
    unfold bitarray_getval. rewrite J1. cbn [elsize values set_values]. rewrite (proj2 (Z.ltb_lt (elsize pa) 8)) by lia.
    rewrite (sub_byte_spec (elsize pa) (j - 1) He) by lia. fold c. cbn [mbind option_bind].
    pose proof (same_place (idx - 1) (j - 1) c Hc0) as Hsame.
    destruct (decide ((idx - 1) / c = (j - 1) / c)) as [E|E].
    + assert (ld m ((j - 1) / c) = Some b') as ->.
      { apply ld_Some_iff. split; [lia|]. unfold m. rewrite E. apply list_lookup_insert_eq. unfold msize in J3. lia. }
      rewrite E in Hb. rewrite Hb. cbn [mbind option_bind].
      change (Z.land (Z.shiftr b' ((c - 1 - (j - 1) mod c) * elsize pa)) (2 ^ elsize pa - 1)) with (get_elem (elsize pa) b' ((j - 1) mod c)).
      change (Z.land (Z.shiftr b ((c - 1 - (j - 1) mod c) * elsize pa)) (2 ^ elsize pa - 1)) with (get_elem (elsize pa) b ((j - 1) mod c)).
      unfold b'. rewrite get_put_elem by done. replace (idx =? j) with ((idx - 1) mod c =? (j - 1) mod c) by (apply eq_true_iff_eq; rewrite !Z.eqb_eq; lia).
      by destruct ((idx - 1) mod c =? (j - 1) mod c).
    + assert (ld m ((j - 1) / c) = ld (values pa) ((j - 1) / c)) as ->.
      { unfold ld, m. rewrite !decide_True by lia. apply list_lookup_insert_ne. lia. }
      rewrite (proj2 (Z.eqb_neq idx j)); [done|]. intros ->. done.
Qed.

(** Elements of a byte or more: setting an element stores zero, whatever the value is. *)
Theorem bitarray_set_wide_zero pa idx v : bitarray_ok pa → elsize pa ∈ [8; 16; 32] → 1 <= idx <= capacity pa →
  ∃ pa', bitarray_set pa idx v = Some (inr pa') ∧ bitarray_ok pa' ∧ bitarray_get pa' idx = Some (inr 0).
Proof.
  intros (O1 & O2 & O3 & O4 & O5) He Hi. pose proof (round_size (capacity pa * elsize pa)) as Hr.
  assert (elsize pa = 8 ∨ elsize pa = 16 ∨ elsize pa = 32) as He' 
    by (rewrite !elem_of_cons, elem_of_nil in He; destruct He as [->|[->|[->|[]]]]; auto).
  assert (u32 idx = idx ∧ u32 (idx - 1) = idx - 1) as [I1 I2] by (split; apply u32_id; nia).
  assert (∃ zs, (∀ m, mwrite (values pa) (elsize pa / 8 * (idx - 1)) zs = Some m → bitarray_set pa idx v = Some (inr (set_values pa m))) ∧
    msize zs = elsize pa / 8 ∧ zs = replicate (Z.to_nat (elsize pa / 8)) 0) as (zs & Hset & Hzs & Ezs).
  { unfold bitarray_set. rewrite I1, I2, (proj2 (Z.leb_gt idx 0)), (proj2 (Z.ltb_ge (capacity pa) idx)) by lia. cbn [orb].
    destruct He' as [E|[E|E]]; rewrite E.
    - exists [0]. split; [|done]. intros m Hm. cbn [Z.ltb Z.eqb Z.compare Pos.compare Pos.compare_cont Pos.eqb].
      rewrite st_mwrite. change (u8 0) with 0. change (8 / 8 * (idx - 1)) with (1 * (idx - 1)) in Hm. rewrite Z.mul_1_l in Hm. by rewrite Hm.
    - exists [0; 0]. split; [|done]. intros m Hm. change (16 / 8) with 2 in Hm. change (16 <? 8) with false. change (16 =? 8) with false.
      change (16 =? 16) with true. cbv iota. change (le16 0) with [0; 0]. by rewrite Hm.
    - exists [0; 0; 0; 0]. split; [|done]. intros m Hm. change (32 / 8) with 4 in Hm. change (32 <? 8) with false. change (32 =? 8) with false.
      change (32 =? 16) with false. change (32 =? 32) with true. cbv iota. change (le32 0) with [0; 0; 0; 0]. by rewrite Hm. }
  destruct (mwrite_is_Some (values pa) (elsize pa / 8 * (idx - 1)) zs) as [m Hm].
  { destruct He' as [E|[E|E]]; rewrite E; [change (8 / 8) with 1|change (16 / 8) with 2|change (32 / 8) with 4]; lia. }
  { rewrite Hzs. destruct He' as [E|[E|E]]; rewrite E in *; [change (8 / 8) with 1|change (16 / 8) with 2|change (32 / 8) with 4]; lia. }
  exists (set_values pa m). split; [by apply Hset|]. pose proof (mwrite_msize _ _ _ _ Hm) as Hms. split.
  - unfold bitarray_ok. cbn [elsize capacity values set_values]. rewrite Hms. split; [done|]. split; [done|]. split; [done|]. split; [done|].
    rewrite mwrite_spec in Hm. destruct Hm as (_ & _ & ->). apply bytes_ok_app. split; [by apply Forall_take|]. apply bytes_ok_app.
    split; [|by apply Forall_drop]. rewrite Ezs. apply Forall_replicate. unfold byte_ok. lia.
  - apply bytes_at_mwrite in Hm. unfold bitarray_get. cbn [capacity set_values]. rewrite I1, (proj2 (Z.leb_gt idx 0)), (proj2 (Z.ltb_ge (capacity pa) idx)) by lia.
    cbn [orb]. unfold bitarray_getval. rewrite I2. cbn [elsize values set_values]. rewrite Ezs in Hm.
    destruct He' as [E|[E|E]]; rewrite E in *.
    + change (8 / 8 * (idx - 1)) with (1 * (idx - 1)) in Hm. rewrite Z.mul_1_l in Hm. apply bytes_at_cons in Hm as [H1 _]. change (8 <? 8) with false. change (8 =? 8) with true. cbv iota. by rewrite H1.
    + change (16 / 8) with 2 in Hm. change (Z.to_nat 2) with 2%nat in Hm. cbn [replicate] in Hm. rewrite !bytes_at_cons in Hm. destruct Hm as (H1 & H2 & _).
      change (16 <? 8) with false. change (16 =? 8) with false. change (16 =? 16) with true. cbv iota. rewrite H1. cbn [mbind option_bind]. by rewrite H2.
    + change (32 / 8) with 4 in Hm. change (Z.to_nat 4) with 4%nat in Hm. cbn [replicate] in Hm. rewrite !bytes_at_cons in Hm. destruct Hm as (H1 & H2 & H3 & H4 & _).
      change (32 <? 8) with false. change (32 =? 8) with false. change (32 =? 16) with false. change (32 =? 32) with true. cbv iota.
      replace (4 * (idx - 1) + 1 + 1) with (4 * (idx - 1) + 2) in * by lia. replace (4 * (idx - 1) + 2 + 1) with (4 * (idx - 1) + 3) in * by lia.
      rewrite H1. cbn [mbind option_bind]. rewrite H2. cbn [mbind option_bind]. rewrite H3. cbn [mbind option_bind]. by rewrite H4.
Qed.

(** ** The theorems at work *)
Definition demo_bits : bitarray_t := BitArray 6 4 [16; 50; 84].

Lemma demo_bits_ok : bitarray_ok demo_bits.
Proof. split; [set_solver|]. split; [done|]. split; [done|]. split; [done|]. repeat (apply Forall_cons_2; [unfold byte_ok; lia|]). done. Qed.

(** The second of six elements of four bits. *)
Theorem bitarray_set_get_witness :
  ∃ pa', bitarray_set demo_bits 2 13 = Some (inr pa') ∧ bitarray_get pa' 2 = Some (inr 13) ∧ bitarray_get pa' 1 = Some (inr 1).
Proof.
  destruct (bitarray_set_get demo_bits 2 13 demo_bits_ok ltac:(set_solver) ltac:(cbn; lia) ltac:(cbn; lia)) as (pa' & H & _ & Hg).
  exists pa'. split; [exact H|]. split; [exact (Hg 2 ltac:(cbn; lia))|exact (Hg 1 ltac:(cbn; lia))].
Defined.

Theorem bitarray_set_wide_zero_witness :
  let pa := BitArray 2 16 [1; 2; 3; 4] in
  ∃ pa', bitarray_set pa 2 999 = Some (inr pa') ∧ bitarray_ok pa' ∧ bitarray_get pa' 2 = Some (inr 0).
Proof.
  apply (bitarray_set_wide_zero (BitArray 2 16 [1; 2; 3; 4]) 2 999); [|set_solver|cbn; lia].
  split; [set_solver|]. split; [done|]. split; [done|]. split; [done|]. repeat (apply Forall_cons_2; [unfold byte_ok; lia|]). done.
Defined.

(** A capacity for which the number of bits wraps: one byte is allocated, and the last element lies outside it. *)
Example bitarray_new_wraps :
  let pa := BitArray 536870913 8 [0] in
  bitarray_new (λ _, None) (λ n, replicate (Z.to_nat n) 0) (LNumber 536870913) LNil LNil = Some (inr pa) ∧
  bitarray_get pa 536870913 = None.
Proof.
  split; [reflexivity|]. unfold bitarray_get. rewrite (u32_id 536870913) by lia. cbn [capacity].
  change ((536870913 <=? 0) || (536870913 <? 536870913)) with false. cbv iota. unfold bitarray_getval.
  cbn [elsize values]. change (8 <? 8) with false. change (8 =? 8) with true. cbv iota. rewrite (u32_id (536870913 - 1)) by lia.
  rewrite ld_oob; [done|]. change (msize [0]) with 1. lia.
Qed.

(** An element size of zero with a string is a division by zero. *)
Example bitarray_new_zero_size : bitarray_new (λ _, None) (λ n, []) (LString (txt "ab")) (LNumber 0) LNil = None.
Proof. reflexivity. Qed.
