(* ===== verification/Psock.v ===== *)
(** * Protosockets and the sending side of a TCP connection

    Models src/uip/psock.c with the macros of src/uip/pt.h and src/uip/lc-switch.h, [uip_send] and the code around the
    label appsend of src/uip/uip.c.  A protothread is a function that is called again and again; between two calls it
    keeps only its local continuation, the label of a PT_WAIT_UNTIL.  Every protothread of psock.c has one such label,
    so its continuation [psockpt] is a boolean: waiting there, or at the beginning.  The outer protothread of a
    protosocket belongs to the program that uses it and is a part of that program's state.

    A pointer to the data to send is of a type [P] with an addition, and [fetch] reads the object at it at the time of
    the call: [None] for the packet buffer itself (which [uip_send] does not copy).  The packet buffer is shared by all
    connections: an event of the stack that is not new data leaves anything in it. *)
From S2P Require Import Prelude.

Definition UIP_ACKDATA : Z := 1.
Definition UIP_NEWDATA : Z := 2.
Definition UIP_REXMIT : Z := 4.
Definition UIP_POLL : Z := 8.
Definition UIP_CLOSE : Z := 16.
Definition UIP_ABORT : Z := 32.
Definition UIP_CONNECTED : Z := 64.
Definition UIP_TIMEDOUT : Z := 128.

(** What an application call sees and changes of the stack: [uip_appdata] is the packet buffer from the application
    data on (at the address [uip_sappdata] as well), [uip_len] the number of bytes that arrived. *)
Record uip := Uip { uip_flags : Z; uip_mss : Z; uip_appdata : mem; uip_len : Z; uip_slen : Z }.

Definition uip_flag (u : uip) (f : Z) : bool := ctrue (Z.land (uip_flags u) f).

Definition uip_acked (u : uip) : bool := uip_flag u UIP_ACKDATA.
Definition uip_newdata (u : uip) : bool := uip_flag u UIP_NEWDATA.
Definition uip_rexmit (u : uip) : bool := uip_flag u UIP_REXMIT.

Definition set_uip_flags (u : uip) (f : Z) : uip := Uip f (uip_mss u) (uip_appdata u) (uip_len u) (uip_slen u).

Definition uip_close (u : uip) : uip := set_uip_flags u UIP_CLOSE.
Definition uip_abort (u : uip) : uip := set_uip_flags u UIP_ABORT.

(** [uip_send( data, len )]: [None] when [data] is [uip_sappdata]. *)
Definition uip_send (u : uip) (data : option mem) (len : Z) : option uip :=
  if 0 <? len then
    let slen := u16 len in
    app ← (match data with
           | None => Some (uip_appdata u)
           | Some d => bs ← mread d 0 slen; mwrite (uip_appdata u) 0 bs
           end);
    Some (Uip (uip_flags u) (uip_mss u) app (uip_len u) slen)
  else Some u.

Definition PT_WAITING : Z := 0.
Definition PT_EXITED : Z := 1.
Definition PT_ENDED : Z := 2.

Definition STATE_NONE : Z := 0.
Definition STATE_ACKED : Z := 1.
Definition STATE_READ : Z := 2.
Definition STATE_BLOCKED_NEWDATA : Z := 3.
Definition STATE_DATA_SENT : Z := 6.

Definition BUF_NOT_FOUND : Z := 0.
Definition BUF_FULL : Z := 1.
Definition BUF_FOUND : Z := 2.

Section psock.
Context {P : Type} (padd : P → Z → P) (fetch : mem → P → option mem).

(** [bptr] is the offset of [buf.ptr] in the object at [bufptr], [readptr] the offset in the packet buffer. *)
Record psock := Psock {
  psockpt : bool; sendptr : P; sendlen : Z; readptr : Z; readlen : Z; bptr : Z; bleft : Z; bufsize : Z; ps_state : Z }.

Definition set_state (s : psock) (st : Z) : psock :=
  Psock (psockpt s) (sendptr s) (sendlen s) (readptr s) (readlen s) (bptr s) (bleft s) (bufsize s) st.

Definition set_psockpt (s : psock) (b : bool) : psock :=
  Psock b (sendptr s) (sendlen s) (readptr s) (readlen s) (bptr s) (bleft s) (bufsize s) (ps_state s).

Definition set_send (s : psock) (p : P) (len : Z) : psock :=
  Psock (psockpt s) p len (readptr s) (readlen s) (bptr s) (bleft s) (bufsize s) (ps_state s).

Definition set_read (s : psock) (rp rl : Z) : psock :=
  Psock (psockpt s) (sendptr s) (sendlen s) rp rl (bptr s) (bleft s) (bufsize s) (ps_state s).

Definition buf_setup (s : psock) (bp room : Z) : psock :=
  Psock (psockpt s) (sendptr s) (sendlen s) (readptr s) (readlen s) bp room (bufsize s) (ps_state s).

(** [psock_init]; the other fields keep their values. *)
Definition psock_init (s : psock) (buffersize : Z) : psock :=
  Psock false (sendptr s) (sendlen s) (readptr s) 0 0 (u16 buffersize) buffersize STATE_NONE.

(** ** Sending *)

Definition send_data (u : uip) (s : psock) : option (uip * psock * bool) :=
  if negb (ps_state s =? STATE_DATA_SENT) || uip_rexmit u then
    u' ← uip_send u (fetch (uip_appdata u) (sendptr s)) (if uip_mss u <? sendlen s then uip_mss u else sendlen s);
    Some (u', set_state s STATE_DATA_SENT, true)
  else Some (u, s, false).

Definition data_acked (u : uip) (s : psock) : psock * bool :=
  if (ps_state s =? STATE_DATA_SENT) && uip_acked u then
    let s := if uip_mss u <? sendlen s then set_send s (padd (sendptr s) (uip_mss u)) (u16 (sendlen s - uip_mss u))
             else set_send s (padd (sendptr s) (sendlen s)) 0 in
    (set_state s STATE_ACKED, true)
  else (s, false).

(** [data_acked(s) & send_data(s)], in the order the comment of [psock_send] asks for. *)
Definition acked_and_sent (u : uip) (s : psock) : option (uip * psock * bool) :=
  let '(s, a) := data_acked u s in
  '(u, s, b) ← send_data u s;
  Some (u, s, a && b).

(** [psock_send] from its label on. *)
Fixpoint psock_send_wait (fuel : nat) (u : uip) (s : psock) : option (uip * psock * Z) :=
  match fuel with
  | O => None
  | S fuel =>
      '(u, s, ok) ← acked_and_sent u s;
      if negb ok then Some (u, set_psockpt s true, PT_WAITING)
      else if 0 <? sendlen s then psock_send_wait fuel u s
      else Some (u, set_psockpt (set_state s STATE_NONE) false, PT_ENDED)
  end.

Definition psock_send (fuel : nat) (u : uip) (s : psock) (buf : P) (len : Z) : option (uip * psock * Z) :=
  if psockpt s then psock_send_wait fuel u s
  else if len =? 0 then Some (u, set_psockpt s false, PT_EXITED)
  else
    let s := set_state (set_send s buf (u16 len)) STATE_NONE in
    if 0 <? sendlen s then psock_send_wait fuel u s
    else Some (u, set_psockpt (set_state s STATE_NONE) false, PT_ENDED).

(** [psock_generator_send]: [generate] changes the state [W] of its argument and the packet buffer, at which
    [papp] points. *)
Section generator.
Context {W : Type} (generate : W → uip → option (W * uip * Z)) (papp : P).

Fixpoint generator_wait (fuel : nat) (w : W) (u : uip) (s : psock) : option (W * uip * psock * Z) :=
  match fuel with
  | O => None
  | S fuel =>
      '(u, s, ok) ← acked_and_sent u s;
      if negb ok then Some (w, u, set_psockpt s true, PT_WAITING)
      else if 0 <? sendlen s then
        '(w, u) ← (if uip_rexmit u then '(w, u, _) ← generate w u; Some (w, u) else Some (w, u));
        generator_wait fuel w u s
      else Some (w, u, set_psockpt (set_state s STATE_NONE) false, PT_ENDED)
  end.

Definition psock_generator_send (fuel : nat) (w : W) (u : uip) (s : psock) : option (W * uip * psock * Z) :=
  if psockpt s then generator_wait fuel w u s
  else
    '(w, u, n) ← generate w u;
    let s := set_state (set_send s papp (u16 n)) STATE_NONE in
    '(w, u) ← (if uip_rexmit u then '(w, u, _) ← generate w u; Some (w, u) else Some (w, u));
    generator_wait fuel w u s.
End generator.

(** ** Receiving *)

(** The loops of [buf_bufto] over [datalen]: while the buffer has room, the bytes are copied. *)
Fixpoint bufto_skip (n : nat) (app : mem) (rp : Z) (endmarker : Z) : option (Z * Z * Z) :=
  match n with
  | O => Some (rp, 0, BUF_FULL)
  | S n => c ← ld app rp;
      if c =? endmarker then Some (rp + 1, Z.of_nat n, Z.lor BUF_FOUND BUF_FULL) else bufto_skip n app (rp + 1) endmarker
  end.

Fixpoint bufto_copy (n : nat) (inbuf app : mem) (s : psock) (rp : Z) (endmarker : Z) : option (mem * psock * Z * Z * Z) :=
  match n with
  | O => Some (inbuf, s, rp, 0, BUF_NOT_FOUND)
  | S n' =>
      if 0 <? bleft s then
        c ← ld app rp;
        inbuf ← st inbuf (bptr s) c;
        let s := buf_setup s (bptr s + 1) (bleft s - 1) in
        if c =? endmarker then Some (inbuf, s, rp + 1, Z.of_nat n', BUF_FOUND)
        else bufto_copy n' inbuf app s (rp + 1) endmarker
      else '(rp, rest, r) ← bufto_skip n app rp endmarker; Some (inbuf, s, rp, rest, r)
  end.

Definition buf_bufto (inbuf app : mem) (s : psock) (endmarker : Z) : option (mem * psock * Z) :=
  '(inbuf, s, rp, rest, r) ← bufto_copy (Z.to_nat (readlen s)) inbuf app s (readptr s) endmarker;
  Some (inbuf, set_read s rp rest, r).

Definition psock_datalen (s : psock) : Z := u16 (bufsize s - bleft s).

Definition psock_newdata (u : uip) (s : psock) : psock * bool :=
  if 0 <? readlen s then (s, true)
  else if ps_state s =? STATE_READ then (set_state s STATE_BLOCKED_NEWDATA, false)
  else (s, uip_newdata u).

(** [psock_readto] from the test of [readlen] on; [resumed] when it is called at its label. *)
Fixpoint readto_loop (fuel : nat) (resumed : bool) (u : uip) (s : psock) (inbuf : mem) (c : Z) : option (psock * mem * Z) :=
  match fuel with
  | O => None
  | S fuel =>
      let '(s, ok) :=
        if resumed || (readlen s =? 0) then
          let '(s, ok) := psock_newdata u s in
          (if (ok : bool) then set_read (set_state s STATE_READ) 0 (uip_len u) else s, ok)
        else (s, true) in
      if negb ok then Some (set_psockpt s true, inbuf, PT_WAITING)
      else
        '(inbuf, s, r) ← buf_bufto inbuf (uip_appdata u) s c;
        if Z.land r BUF_FOUND =? 0 then readto_loop fuel false u s inbuf c
        else if psock_datalen s =? 0 then Some (set_psockpt (set_state s STATE_NONE) false, inbuf, PT_WAITING)
        else Some (set_psockpt s false, inbuf, PT_ENDED)
  end.

Definition psock_readto (u : uip) (s : psock) (inbuf : mem) (c : Z) : option (psock * mem * Z) :=
  readto_loop 3 (psockpt s) u (if psockpt s then s else buf_setup s 0 (u16 (bufsize s))) inbuf c.
End psock.

Arguments Psock {P}.
Arguments psockpt {P}.
Arguments sendptr {P}.
Arguments sendlen {P}.
Arguments readptr {P}.
Arguments readlen {P}.
Arguments bptr {P}.
Arguments bleft {P}.
Arguments bufsize {P}.
Arguments ps_state {P}.

(** ** The connection

    [inflight] is the data last sent and not acknowledged ([uip_connr->len] is its length), [delivered] what the peer
    has acknowledged, [fin] is set when the connection was closed or aborted by the application. *)
Record conn := Conn { inflight : option mem; delivered : mem; fin : bool }.

(** The calls of the application: an acknowledgment may come with new data. *)
Inductive event :=
| Ack
| Rexmit
| New (d : mem)
| Poll
| AckNew (d : mem).

Definition event_enabled (e : event) (c : conn) : bool :=
  negb (fin c) &&
  match e with
  | Ack | Rexmit | AckNew _ => bool_decide (is_Some (inflight c))
  | New _ | Poll => true
  end.

Definition event_flags (e : event) : Z :=
  match e with
  | Ack => UIP_ACKDATA | Rexmit => UIP_REXMIT | New _ => UIP_NEWDATA | Poll => UIP_POLL | AckNew _ => Z.lor UIP_ACKDATA UIP_NEWDATA
  end.

(** Before the call: the acknowledged data is delivered, the new data is at the front of the packet buffer [b]. *)
Definition event_conn (e : event) (c : conn) : conn :=
  match e, inflight c with
  | (Ack | AckNew _), Some d => Conn None (delivered c ++ d) (fin c)
  | _, _ => c
  end.

Definition event_uip (mss : Z) (e : event) (b : mem) : uip :=
  match e with
  | New d | AckNew d => Uip (event_flags e) mss (d ++ drop (length d) b) (msize d) 0
  | _ => Uip (event_flags e) mss b 0 0
  end.

(** The code after the call, from the label appsend (after REXMIT: apprexmit) on. *)
Definition tcp_appsend (u : uip) (c : conn) : option conn :=
  if uip_flag u UIP_ABORT then Some (Conn (inflight c) (delivered c) true)
  else if uip_flag u UIP_CLOSE then Some (Conn (inflight c) (delivered c) true)
  else if 0 <? uip_slen u then
    let c := if uip_flag u UIP_ACKDATA then Conn None (delivered c) (fin c) else c in
    let slen := match inflight c with
                | None => if uip_mss u <? uip_slen u then uip_mss u else uip_slen u
                | Some d => msize d
                end in
    d ← mread (uip_appdata u) 0 slen;
    Some (Conn (Some d) (delivered c) (fin c))
  else Some c.

Definition tcp_apprexmit (u : uip) (c : conn) : option conn :=
  match inflight c with
  | Some d => if 0 <? uip_slen u then d ← mread (uip_appdata u) 0 (msize d); Some (Conn (Some d) (delivered c) (fin c))
              else Some c
  | None => Some c
  end.

Section tcp.
Context {W : Type} (app : W → uip → option (W * uip)).

(** One event: the outer [option] is [None] when the application leaves C's defined behaviour. *)
Definition tcp_call (mss : Z) (x : W * conn) (e : event * mem) : option (W * conn) :=
  let '(w, c) := x in
  let '(e, b) := e in
  let c := event_conn e c in
  '(w, u) ← app w (event_uip mss e b);
  c ← (match e with Rexmit => tcp_apprexmit u c | _ => tcp_appsend u c end);
  Some (w, c).

Definition tcp_step (mss : Z) (x : W * conn) (e : event * mem) : option (W * conn) :=
  if event_enabled e.1 x.2 then tcp_call mss x e else Some x.

(** The windows of the peer do not change the maximum segment size. *)
Fixpoint tcp_run (mss : Z) (x : W * conn) (es : list (event * mem)) : option (W * conn) :=
  match es with
  | [] => Some x
  | e :: es => x ← tcp_step mss x e; tcp_run mss x es
  end.

(** Calls that each have their own maximum segment size: the stack takes it from the window of every segment. *)
Fixpoint tcp_calls (x : W * conn) (es : list (Z * (event * mem))) : option (W * conn) :=
  match es with
  | [] => Some x
  | (m, e) :: es => x ← tcp_step m x e; tcp_calls x es
  end.

Lemma tcp_run_app mss x es1 es2 : tcp_run mss x (es1 ++ es2) = (x ← tcp_run mss x es1; tcp_run mss x es2).
Proof. revert x. induction es1 as [|e es1 IH]; intros x; [done|]. rewrite <- app_comm_cons. cbn [tcp_run]. destruct (tcp_step mss x e); cbn [mbind option_bind]; [apply IH|done]. Qed.

Lemma tcp_calls_steady mss x es : Forall (λ e, e.1 = mss) es → tcp_calls x es = tcp_run mss x es.*2.
Proof.
  intros H. revert x. induction H as [|[m e] es Hm _ IH]; intros x; [done|]. cbn in Hm. subst m. cbn [tcp_calls tcp_run fmap list_fmap snd].
  destruct (tcp_step mss x e); [apply IH|done].
Qed.
End tcp.

(** ** Sending data of at most one segment *)

(** The stack after the application has put [d] into the packet buffer. *)
Definition put_out (u : uip) (d : mem) : uip :=
  Uip (uip_flags u) (uip_mss u) (d ++ drop (length d) (uip_appdata u)) (uip_len u) (msize d).

Lemma uip_send_put u obj len d :
  0 < len < 65536 → mread obj 0 len = Some d → len <= msize (uip_appdata u) → uip_send u (Some obj) len = Some (put_out u d).
Proof.
  intros Hl Hd Hr. unfold uip_send. rewrite (proj2 (Z.ltb_lt 0 len)), (u16_id len) by lia.
  rewrite Hd. cbn [mbind option_bind]. pose proof (mread_msize _ _ _ _ Hd) as Hs.
  destruct (mwrite_is_Some (uip_appdata u) 0 d) as [m Hm]; [lia|lia|]. rewrite Hm. cbn [mbind option_bind].
  unfold put_out. by rewrite (mwrite_prefix _ _ _ Hm), Hs.
Qed.

Lemma uip_send_none u data len : len <= 0 → uip_send u data len = Some u.
Proof. intros. unfold uip_send. by rewrite (proj2 (Z.ltb_ge 0 len)). Qed.

Lemma put_out_read u d : mread (uip_appdata (put_out u d)) 0 (msize d) = Some d.
Proof.
  unfold mread. cbn [uip_appdata put_out]. pose proof (msize_nonneg d).
  rewrite decide_True by (rewrite msize_app; pose proof (msize_nonneg (drop (length d) (uip_appdata u))); lia).
  unfold msize. rewrite Nat2Z.id. change (Z.to_nat 0) with 0%nat. by rewrite drop_0, take_app_length.
Qed.

Lemma put_out_room u d : msize d <= msize (uip_appdata u) → msize (uip_appdata (put_out u d)) = msize (uip_appdata u).
Proof. unfold msize. cbn. rewrite length_app, length_drop. lia. Qed.

Section send.
Context {P : Type} (padd : P → Z → P) (fetch : mem → P → option mem).

(** The segment of [len] bytes at [p] is in flight. *)
Definition sending (s : psock (P:=P)) (p : P) (len : Z) : Prop :=
  psockpt s = true ∧ sendptr s = p ∧ sendlen s = len ∧ ps_state s = STATE_DATA_SENT.

Lemma psock_send_start f u s p len obj d :
  psockpt s = false → 0 < len < 65536 → len <= uip_mss u → len <= msize (uip_appdata u) →
  fetch (uip_appdata u) p = Some obj → mread obj 0 len = Some d →
  ∃ s', psock_send padd fetch (S f) u s p len = Some (put_out u d, s', PT_WAITING) ∧ sending s' p len.
Proof.
  intros Hs Hl Hm Ha Hf Hd. unfold psock_send. rewrite Hs, (proj2 (Z.eqb_neq len 0)), (u16_id len) by lia.
  cbn [set_state set_send sendlen]. rewrite (proj2 (Z.ltb_lt 0 len)) by lia.
  cbn [psock_send_wait]. unfold acked_and_sent, data_acked, send_data. cbn.
  rewrite (proj2 (Z.ltb_ge (uip_mss u) len)) by lia. rewrite Hf, (uip_send_put _ _ _ _ Hl Hd Ha). cbn.
  eexists. split; [done|]. done.
Qed.

Lemma psock_send_ack f u s p len q n :
  sending s p len → 0 < len <= uip_mss u → uip_acked u = true →
  ∃ s', psock_send padd fetch (S f) u s q n = Some (u, s', PT_ENDED) ∧ psockpt s' = false.
Proof.
  intros (Hs & <- & <- & Hst) Hl Ha. unfold psock_send. rewrite Hs. cbn [psock_send_wait].
  unfold acked_and_sent, data_acked, send_data. rewrite Hst, Ha. change (STATE_DATA_SENT =? STATE_DATA_SENT) with true.
  cbn [andb]. rewrite (proj2 (Z.ltb_ge (uip_mss u) (sendlen s))) by lia.
  cbn [set_state set_send sendlen ps_state sendptr]. change (negb (STATE_ACKED =? STATE_DATA_SENT)) with true. cbn [orb].
  rewrite uip_send_none by (destruct (uip_mss u <? 0) eqn:E; lia). cbn. eexists. done.
Qed.

Lemma psock_send_resend f u s p len obj d q n :
  sending s p len → 0 < len < 65536 → len <= uip_mss u → len <= msize (uip_appdata u) →
  fetch (uip_appdata u) p = Some obj → mread obj 0 len = Some d →
  uip_acked u = false → uip_rexmit u = true →
  ∃ s', psock_send padd fetch (S f) u s q n = Some (put_out u d, s', PT_WAITING) ∧ sending s' p len.
Proof.
  intros (Hs & <- & <- & Hst) Hl Hm Hr Hf Hd Ha Hx. unfold psock_send. rewrite Hs. cbn [psock_send_wait].
  unfold acked_and_sent, data_acked, send_data. rewrite Hst, Ha, andb_false_r, Hx, orb_true_r.
  rewrite (proj2 (Z.ltb_ge (uip_mss u) (sendlen s))) by lia. rewrite Hf, (uip_send_put _ _ _ _ Hl Hd Hr). cbn.
  eexists. split; [done|]. done.
Qed.

Lemma psock_send_idle f u s p len q n :
  sending s p len → uip_acked u = false → uip_rexmit u = false →
  ∃ s', psock_send padd fetch (S f) u s q n = Some (u, s', PT_WAITING) ∧ sending s' p len.
Proof.
  intros (Hs & <- & <- & Hst) Ha Hx. unfold psock_send. rewrite Hs. cbn [psock_send_wait].
  unfold acked_and_sent, data_acked, send_data. rewrite Hst, Ha, andb_false_r, Hst, Hx.
  change (negb (STATE_DATA_SENT =? STATE_DATA_SENT)) with false. cbn. eexists. split; [done|]. done.
Qed.
End send.

(** ** The connection after a call *)

Lemma uip_flag_flags u u' f : uip_flags u = uip_flags u' → uip_flag u f = uip_flag u' f.
Proof. unfold uip_flag. by intros ->. Qed.

Lemma appsend_put u d c :
  uip_flag u UIP_ABORT = false → uip_flag u UIP_CLOSE = false → inflight c = None →
  0 < msize d <= uip_mss u →
  tcp_appsend (put_out u d) c = Some (Conn (Some d) (delivered c) (fin c)).
Proof.
  intros Ha Hc Hi Hd. unfold tcp_appsend. rewrite !(uip_flag_flags (put_out u d) u) by done. rewrite Ha, Hc.
  cbn [uip_slen put_out]. rewrite (proj2 (Z.ltb_lt 0 _)) by lia. destruct c as [i dl fn]. cbn in Hi. subst i.
  destruct (uip_flag u UIP_ACKDATA); cbn [inflight uip_mss delivered fin put_out]; rewrite (proj2 (Z.ltb_ge (uip_mss u) (msize d))) by lia;
    change (uip_appdata _) with (uip_appdata (put_out u d)); by rewrite put_out_read.
Qed.

Lemma appsend_none u c :
  uip_flag u UIP_ABORT = false → uip_flag u UIP_CLOSE = false → uip_slen u = 0 → tcp_appsend u c = Some c.
Proof. intros Ha Hc Hs. unfold tcp_appsend. by rewrite Ha, Hc, Hs. Qed.

Lemma appsend_close u c :
  uip_flag u UIP_CLOSE = true → tcp_appsend u c = Some (Conn (inflight c) (delivered c) true).
Proof. intros Hc. unfold tcp_appsend. rewrite Hc. by destruct (uip_flag u UIP_ABORT). Qed.

Lemma apprexmit_put u d c :
  inflight c = Some d → 0 < msize d → tcp_apprexmit (put_out u d) c = Some c.
Proof.
  intros Hi Hd. unfold tcp_apprexmit. rewrite Hi. cbn [uip_slen put_out]. rewrite (proj2 (Z.ltb_lt 0 _)) by lia.
  change (uip_appdata _) with (uip_appdata (put_out u d)). rewrite put_out_read. destruct c. cbn in *. by subst.
Qed.

(** An event finds room for a segment in the packet buffer. *)
Definition event_room (mss : Z) (e : event * mem) : Prop :=
  mss <= msize e.2 ∧ match e.1 with New d | AckNew d => msize d <= msize e.2 | _ => True end.

Lemma event_uip_room mss e b : event_room mss (e, b) → mss <= msize (uip_appdata (event_uip mss e b)).
Proof.
  unfold event_room. cbn. intros [H1 H2]. destruct e; cbn; [done|done| |done|];
    rewrite msize_app; unfold msize in *; rewrite length_drop; lia.
Qed.

Definition is_ack (e : event * mem) : bool := match e.1 with Ack | AckNew _ => true | _ => false end.

(** The number of acknowledgments. *)
Definition acks (es : list (event * mem)) : nat := length (filter (λ e, is_ack e = true) es).

(** An application that sends [data] and nothing else; [snd] is the last result of [psock_send]. *)
Section sender.
Context (fuel : nat) (data : mem).

Definition const_add (p : mem) (n : Z) : mem := drop (Z.to_nat n) p.
Definition const_fetch (app : mem) (p : mem) : option mem := Some p.

Definition sender (w : psock (P:=mem) * Z) (u : uip) : option (psock (P:=mem) * Z * uip) :=
  if w.2 =? PT_WAITING then
    '(u, s, r) ← psock_send const_add const_fetch fuel u w.1 data (msize data); Some ((s, r), u)
  else Some (w, u).
End sender.

Section reliable.
Context (f : nat) (data D : mem) (mss : Z).
Hypothesis Hsize : 0 < msize data <= mss.
Hypothesis Hmss : mss < 65536.

(** The states of the sender: the segment in flight, or done. *)
Definition sent_state (x : psock (P:=mem) * Z * conn) (acked : bool) : Prop :=
  if acked then x.1.2 = PT_ENDED ∧ x.2 = Conn None (D ++ data) false
  else x.1.2 = PT_WAITING ∧ sending x.1.1 data (msize data) ∧ x.2 = Conn (Some data) D false.

Lemma data_read : mread data 0 (msize data) = Some data.
Proof. apply mread_all. Qed.

Lemma sender_first s e b :
  psockpt s = false → event_room mss (e, b) → event_enabled e (Conn None D false) = true →
  ∃ x, tcp_step (sender (S f) data) mss ((s, PT_WAITING), Conn None D false) (e, b) = Some x ∧ sent_state x false.
Proof.
  intros Hs Hr He. pose proof (event_uip_room _ _ _ Hr) as Hroom. unfold tcp_step, tcp_call. cbn [fst snd]. rewrite He.
  set (u := event_uip mss e b) in *.
  destruct (psock_send_start const_add const_fetch f u s data (msize data) data data) as (s' & Hsend & Hs');
    [done|lia|by destruct e; cbn; lia|lia|done|apply data_read|].
  unfold sender. cbn [fst snd]. change (PT_WAITING =? PT_WAITING) with true. cbv iota. rewrite Hsend. cbn [mbind option_bind].
  destruct e; try done; cbn [event_conn inflight];
    (rewrite (appsend_put _ _ _); [|done|done|done|cbn; lia]); eexists; (split; [reflexivity|]); done.
Qed.

Lemma sender_step x acked e b :
  sent_state x acked → event_room mss (e, b) →
  ∃ x', tcp_step (sender (S f) data) mss x (e, b) = Some x' ∧ sent_state x' (acked || is_ack (e, b)).
Proof.
  intros Hx Hr. pose proof (event_uip_room _ _ _ Hr) as Hroom. destruct x as [[s r] c].
  destruct acked; destruct Hx as [Hw Hx]; cbn in Hw; subst r.
  - cbn in Hx. subst c. cbn [orb]. unfold tcp_step, tcp_call, sender. cbn [fst snd]. change (PT_ENDED =? PT_WAITING) with false. cbv iota.
    destruct e; cbn; (eexists; split; [reflexivity|done]).
  - destruct Hx as [Hs Hc]. cbn in Hs, Hc. subst c. unfold tcp_step, tcp_call, sender. cbn [fst snd].
    change (PT_WAITING =? PT_WAITING) with true. cbv iota. set (u := event_uip mss e b) in *.
    assert (uip_mss u = mss) as Hmu by by destruct e.
    destruct e; cbn [is_ack fst orb event_enabled negb andb fin inflight bool_decide decide_rel event_conn].
    + destruct (psock_send_ack const_add const_fetch f u s data (msize data) data (msize data)) as (s' & -> & Hs'); [done|lia|done|].
      cbn. eexists. split; [reflexivity|done].
    + destruct (psock_send_resend const_add const_fetch f u s data (msize data) data data data (msize data)) as (s' & -> & Hs');
        [done|lia|lia|lia|done|apply data_read|done|done|].
      cbn [mbind option_bind]. rewrite bool_decide_eq_true_2 by done. rewrite apprexmit_put by (done || lia). cbn.
      eexists. split; [reflexivity|done].
    + destruct (psock_send_idle const_add const_fetch f u s data (msize data) data (msize data)) as (s' & -> & Hs'); [done|done|done|].
      cbn. eexists. split; [reflexivity|done].
    + destruct (psock_send_idle const_add const_fetch f u s data (msize data) data (msize data)) as (s' & -> & Hs'); [done|done|done|].
      cbn. eexists. split; [reflexivity|done].
    + destruct (psock_send_ack const_add const_fetch f u s data (msize data) data (msize data)) as (s' & -> & Hs'); [done|lia|done|].
      cbn. eexists. split; [reflexivity|done].
Qed.

Lemma sender_run es x acked :
  sent_state x acked → Forall (event_room mss) es →
  ∃ x', tcp_run (sender (S f) data) mss x es = Some x' ∧ sent_state x' (acked || existsb is_ack es).
Proof.
  revert x acked. induction es as [|[e b] es IH]; intros x acked Hx Hr; cbn.
  { rewrite orb_false_r. by exists x. }
  apply Forall_cons in Hr as [Hr Hrs]. destruct (sender_step x acked e b Hx Hr) as (x1 & -> & Hx1). cbn [mbind option_bind].
  destruct (IH x1 _ Hx1 Hrs) as (x2 & -> & Hx2). exists x2. by rewrite orb_assoc.
Qed.

(** Sending data of at most one segment: from the first call on, whatever the stack asks for (retransmissions with
    anything in the packet buffer, new data, acknowledgments), exactly the data is in flight until it is acknowledged,
    it is delivered exactly once, and [psock_send] ends at the acknowledgment. *)
Theorem psock_send_reliable s e b es :
  psockpt s = false → event_enabled e (Conn None D false) = true → Forall (event_room mss) ((e, b) :: es) →
  ∃ s' r c, tcp_run (sender (S f) data) mss ((s, PT_WAITING), Conn None D false) ((e, b) :: es) = Some ((s', r), c) ∧
    if existsb is_ack es then r = PT_ENDED ∧ c = Conn None (D ++ data) false
    else r = PT_WAITING ∧ c = Conn (Some data) D false.
Proof.
  intros Hs He Hr. apply Forall_cons in Hr as [Hr Hrs]. destruct (sender_first s e b Hs Hr He) as (x & Hx & Hsx).
  destruct (sender_run es x false Hsx Hrs) as ([[s' r] c] & Hx' & H). exists s', r, c. cbn [tcp_run]. rewrite Hx. cbn [mbind option_bind].
  split; [done|]. cbn [orb] in H. destruct (existsb is_ack es); cbn in H; tauto.
Qed.
End reliable.

(** Three bytes, retransmitted over a packet buffer with other bytes, and acknowledged. *)
Theorem psock_send_reliable_witness :
  let s := Psock false [] 0 0 0 0 0 0 0 in
  let es := [(Poll, [0; 0; 0; 0]); (Rexmit, [9; 9; 9; 9]); (New [5], [7; 7; 7; 7]); (Ack, [0; 0; 0; 0])] in
  ∃ s' r c, tcp_run (sender 1 [1; 2; 3]) 4 ((s, PT_WAITING), Conn None [8] false) es = Some ((s', r), c) ∧
    r = PT_ENDED ∧ c = Conn None [8; 1; 2; 3] false.
Proof.
  intros s es.
  destruct (psock_send_reliable 0 [1; 2; 3] [8] 4 ltac:(done) ltac:(done) s Poll [0; 0; 0; 0] (tail es)) as (s' & r & c & E & H);
    [done|done|repeat constructor; done|].
  exists s', r, c. split; [exact E|exact H].
Defined.

Lemma sender_step_eq fuel data mss s c e b u s' r c' :
  event_enabled e c = true → e ≠ Rexmit →
  psock_send const_add const_fetch fuel (event_uip mss e b) s data (msize data) = Some (u, s', r) →
  tcp_appsend u (event_conn e c) = Some c' →
  tcp_step (sender fuel data) mss ((s, PT_WAITING), c) (e, b) = Some ((s', r), c').
Proof.
  intros He Hx Hs Hc. unfold tcp_step, tcp_call. cbn [fst snd]. rewrite He. unfold sender. cbn [fst snd]. change (PT_WAITING =? PT_WAITING) with true.
  cbv iota. rewrite Hs. cbn [mbind option_bind]. destruct e; try done; by rewrite Hc.
Qed.

(** ** Sending more than one segment

    After an acknowledgment the loop of [psock_send] tests [uip_acked] again for the segment it has just put into the
    packet buffer, in the same call. *)
Definition last_segment (m : Z) (p : mem) : mem := drop (Z.to_nat ((msize p - 1) / m * m)) p.

Lemma last_segment_one m p : 0 < msize p <= m → last_segment m p = p.
Proof. intros. unfold last_segment. rewrite Z.div_small by lia. done. Qed.

Lemma last_segment_drop m p : 0 < m < msize p → last_segment m (drop (Z.to_nat m) p) = last_segment m p.
Proof.
  intros H. unfold last_segment. assert (msize (drop (Z.to_nat m) p) = msize p - m) as ->.
  { unfold msize in *. rewrite length_drop. lia. }
  rewrite drop_drop. f_equal. replace (msize p - 1) with ((msize p - m - 1) + 1 * m) by lia. rewrite Z.div_add by lia.
  assert (0 <= (msize p - m - 1) / m * m) by (apply Z.mul_nonneg_nonneg; [apply Z.div_pos|]; lia). lia.
Qed.

Lemma last_segment_size m p : 0 < m → 0 < msize p → 0 < msize (last_segment m p) <= m.
Proof.
  intros Hm Hp. unfold last_segment, msize in *. rewrite length_drop. set (n := Z.of_nat (length p)) in *.
  pose proof (Z.div_mod (n - 1) m ltac:(lia)). pose proof (Z.mod_pos_bound (n - 1) m Hm).
  assert (0 <= (n - 1) / m * m) by (apply Z.mul_nonneg_nonneg; [apply Z.div_pos|]; lia). lia.
Qed.

(** The data [d] is what the call leaves to be sent. *)
Definition holds_out (u : uip) (d : mem) : Prop :=
  uip_slen u = msize d ∧ mread (uip_appdata u) 0 (msize d) = Some d.

Lemma lossy_step u s p :
  ps_state s = STATE_DATA_SENT → sendptr s = p → sendlen s = msize p → uip_acked u = true →
  0 < uip_mss u < msize p → msize p < 65536 → uip_mss u <= msize (uip_appdata u) →
  let q := drop (Z.to_nat (uip_mss u)) p in
  ∃ u' s', acked_and_sent const_add const_fetch u s = Some (u', s', true) ∧
    ps_state s' = STATE_DATA_SENT ∧ sendptr s' = q ∧ sendlen s' = msize q ∧
    holds_out u' (take (Z.to_nat (uip_mss u)) q) ∧
    uip_flags u' = uip_flags u ∧ uip_mss u' = uip_mss u ∧ msize (uip_appdata u') = msize (uip_appdata u).
Proof.
  intros Hst Hp Hn Ha Hm Hmax Hroom q. assert (msize q = msize p - uip_mss u) as Hq.
  { unfold q, msize in *. rewrite length_drop. lia. }
  unfold acked_and_sent, data_acked, send_data. rewrite Hst, Ha, Hn, Hp. change (STATE_DATA_SENT =? STATE_DATA_SENT) with true.
  cbn [andb]. rewrite (proj2 (Z.ltb_lt (uip_mss u) (msize p))) by lia. cbn [set_state set_send ps_state sendptr sendlen].
  change (negb (STATE_ACKED =? STATE_DATA_SENT)) with true. cbn [orb]. unfold const_fetch, const_add. fold q.
  rewrite (u16_id (msize p - uip_mss u)), <- Hq by lia.
  set (len := if uip_mss u <? msize q then uip_mss u else msize q).
  assert (len = msize (take (Z.to_nat (uip_mss u)) q)) as El.
  { unfold len, msize. rewrite length_take. destruct (Z.ltb_spec (uip_mss u) (Z.of_nat (length q))); lia. }
  assert (0 < len <= uip_mss u ∧ len <= msize q) as Hlen by (unfold len; destruct (Z.ltb_spec (uip_mss u) (msize q)); lia).
  assert (mread q 0 len = Some (take (Z.to_nat (uip_mss u)) q)) as Hr.
  { apply mread_spec. change (Z.to_nat 0) with 0%nat. rewrite drop_0. split_and!; try lia. unfold len.
    destruct (Z.ltb_spec (uip_mss u) (msize q)); [done|]. unfold msize. rewrite Nat2Z.id, !take_ge; [done|lia|unfold msize in *; lia]. }
  rewrite (uip_send_put u q len _ ltac:(lia) Hr) by lia.
  cbn [mbind option_bind]. eexists _, _. split; [reflexivity|]. cbn [ps_state sendptr sendlen set_state].
  split; [done|]. split; [done|]. split; [done|]. split; [split; [done|apply put_out_read]|]. split; [done|]. split; [done|].
  apply put_out_room. rewrite <- El. lia.
Qed.

Lemma lossy_loop fuel u s p :
  ps_state s = STATE_DATA_SENT → sendptr s = p → sendlen s = msize p → uip_acked u = true →
  0 < uip_mss u → 0 < msize p < 65536 → uip_mss u <= msize (uip_appdata u) → msize p <= Z.of_nat fuel →
  holds_out u (take (Z.to_nat (uip_mss u)) p) →
  ∃ u' s', psock_send_wait const_add const_fetch fuel u s = Some (u', s', PT_ENDED) ∧ psockpt s' = false ∧
    holds_out u' (last_segment (uip_mss u) p) ∧ uip_flags u' = uip_flags u ∧ uip_mss u' = uip_mss u.
Proof.
  revert u s p. induction fuel as [|f IH]; intros u s p Hst Hp Hn Ha Hm Hl Hroom Hf Hout; [lia|].
  destruct (decide (uip_mss u < msize p)) as [Hlt|Hge].
  - destruct (lossy_step u s p) as (u1 & s1 & E & H1 & H2 & H3 & H4 & H5 & H6 & H7); [done..|lia|lia|lia|].
    cbn [psock_send_wait]. rewrite E. cbn [mbind option_bind negb].
    assert (msize (drop (Z.to_nat (uip_mss u)) p) = msize p - uip_mss u) as Hq by (unfold msize in *; rewrite length_drop; lia).
    rewrite H3, Hq, (proj2 (Z.ltb_lt 0 _)) by lia.
    destruct (IH u1 s1 (drop (Z.to_nat (uip_mss u)) p)) as (u' & s' & E' & Hpt & Ho & Hfl & Hms);
      [done|done|done|unfold uip_acked; by rewrite (uip_flag_flags u1 u)|lia|lia|lia|lia|by rewrite H6|].
    exists u', s'. rewrite E'. split; [done|]. split; [done|]. rewrite H6, last_segment_drop in Ho by lia.
    split; [done|]. split; congruence.
  - destruct (psock_send_ack const_add const_fetch f u (set_psockpt s true) p (msize p) p 0) as (s' & E & Hs');
      [done|lia|done|]. unfold psock_send in E. cbn [psockpt set_psockpt] in E.
    assert (psock_send_wait const_add const_fetch (S f) u (set_psockpt s true) = psock_send_wait const_add const_fetch (S f) u s) as Ew.
    { cbn [psock_send_wait]. unfold acked_and_sent, data_acked, send_data. cbn [set_psockpt ps_state sendlen sendptr].
      rewrite Hst, Ha, Hn. change (STATE_DATA_SENT =? STATE_DATA_SENT) with true. cbn [andb].
      rewrite (proj2 (Z.ltb_ge _ _)) by lia. cbn. rewrite uip_send_none by (destruct (uip_mss u <? 0) eqn:?; lia). done. }
    rewrite <- Ew, E. exists u, s'. split; [done|]. split; [done|]. rewrite last_segment_one by lia. split; [|done].
    rewrite take_ge in Hout by (unfold msize in *; lia). done.
Qed.

(** Data of more than one segment is not sent whole: after the first acknowledgment [psock_send] ends, having put
    into the packet buffer only the last segment; every segment between the first and the last is skipped, and nothing
    remains that would retransmit the last one. *)
Theorem psock_send_skips_segments fuel data D mss s b1 b2 :
  psockpt s = false → 0 < mss < msize data → msize data < 65536 → msize data <= Z.of_nat fuel →
  mss <= msize b1 → mss <= msize b2 →
  ∃ s', tcp_run (sender fuel data) mss ((s, PT_WAITING), Conn None D false) [(Poll, b1); (Ack, b2)]
    = Some ((s', PT_ENDED), Conn (Some (last_segment mss data)) (D ++ take (Z.to_nat mss) data) false) ∧ psockpt s' = false.
Proof.
  intros Hs Hm Hmax Hf Hb1 Hb2. destruct fuel as [|f]; [lia|].
  assert (msize (take (Z.to_nat mss) data) = mss) as Ht by (unfold msize in *; rewrite length_take; lia).
  assert (mread data 0 mss = Some (take (Z.to_nat mss) data)) as Hr by (apply mread_spec; split_and!; [lia|lia|lia|done]).
  assert (psock_send const_add const_fetch (S f) (event_uip mss Poll b1) s data (msize data)
    = Some (put_out (event_uip mss Poll b1) (take (Z.to_nat mss) data),
            set_psockpt (set_state (set_state (set_send s data (msize data)) STATE_NONE) STATE_DATA_SENT) true, PT_WAITING)) as E1.
  { unfold psock_send. rewrite Hs, (proj2 (Z.eqb_neq _ 0)), (u16_id (msize data)) by lia. cbn [set_state set_send sendlen].
    rewrite (proj2 (Z.ltb_lt 0 _)) by lia. cbn [psock_send_wait]. unfold acked_and_sent, data_acked, send_data. cbn.
    rewrite (proj2 (Z.ltb_lt mss _)) by lia. unfold const_fetch.
    change (Uip UIP_POLL mss b1 0 0) with (event_uip mss Poll b1).
    rewrite (uip_send_put _ _ mss _ ltac:(lia) Hr) by (cbn; lia). done. }
  set (s1 := set_psockpt _ true) in E1. cbn [tcp_run].
  erewrite (sender_step_eq (S f) data mss s _ Poll b1); [|done|done|exact E1|apply appsend_put; [done|done|done|cbn; lia]].
  cbn [mbind option_bind delivered event_conn fin].
  destruct (lossy_step (event_uip mss Ack b2) s1 data) as (u2 & s2 & E2 & H1 & H2 & H3 & H4 & H5 & H6 & H7); [done|done|done|done|cbn; lia|lia|cbn; lia|].
  cbn [uip_mss event_uip] in H2, H3, H4, H6. cbn [uip_flags event_uip] in H5.
  cbn [uip_appdata event_uip] in H7.
  assert (msize (drop (Z.to_nat mss) data) = msize data - mss) as Hq by (unfold msize in *; rewrite length_drop; lia).
  destruct (lossy_loop f u2 s2 (drop (Z.to_nat mss) data)) as (u3 & s3 & E3 & Hpt & [Ho1 Ho2] & Hfl & Hms);
    [done|done|done|unfold uip_acked; by rewrite (uip_flag_flags u2 (event_uip mss Ack b2))|lia|lia|lia|lia|by rewrite H6|].
  rewrite H6, last_segment_drop in Ho1, Ho2 by lia.
  pose proof (last_segment_size mss data ltac:(lia) ltac:(lia)) as Hlb.
  exists s3. split; [|done].
  assert (psock_send const_add const_fetch (S f) (event_uip mss Ack b2) s1 data (msize data) = Some (u3, s3, PT_ENDED)) as E4.
  { unfold psock_send. change (psockpt s1) with true. cbv iota. cbn [psock_send_wait]. rewrite E2. cbn [mbind option_bind negb].
    by rewrite H3, Hq, (proj2 (Z.ltb_lt 0 _)) by lia. }
  erewrite (sender_step_eq (S f) data mss s1 _ Ack b2 u3 s3 PT_ENDED
    (Conn (Some (last_segment mss data)) (D ++ take (Z.to_nat mss) data) false)); [done|done|done|exact E4|].
  unfold tcp_appsend.
  rewrite !(uip_flag_flags u3 (event_uip mss Ack b2)) by (by rewrite Hfl, H5).
  change (uip_flag (event_uip mss Ack b2) UIP_ABORT) with false. change (uip_flag (event_uip mss Ack b2) UIP_CLOSE) with false.
  change (uip_flag (event_uip mss Ack b2) UIP_ACKDATA) with true. cbv iota.
  rewrite Ho1, (proj2 (Z.ltb_lt 0 _)) by lia. cbn [inflight delivered fin]. rewrite Hms, H6, (proj2 (Z.ltb_ge mss _)) by lia. by rewrite Ho2.
Qed.

(** Of five segments the second, third and fourth are skipped. *)
Theorem psock_send_skips_segments_witness :
  ∃ s', tcp_run (sender 9 [1; 2; 3; 4; 5; 6; 7; 8; 9]) 2 ((Psock false [] 0 0 0 0 0 0 0, PT_WAITING), Conn None [] false) [(Poll, [0; 0]); (Ack, [0; 0])]
    = Some ((s', PT_ENDED), Conn (Some [9]) [1; 2] false) ∧ psockpt s' = false.
Proof. exact (psock_send_skips_segments 9 [1; 2; 3; 4; 5; 6; 7; 8; 9] [] 2 (Psock false [] 0 0 0 0 0 0 0) [0; 0] [0; 0] eq_refl ltac:(done) ltac:(done) ltac:(done) ltac:(done) ltac:(done)). Defined.

(** ** Reading up to a marker *)
Section readto.
Context {P : Type}.
Implicit Types (s : psock (P:=P)).

(** The buffer of [bufsize] bytes holds as much of [acc] as fits. *)
Definition kept s (acc : mem) : mem := take (Z.to_nat (bufsize s)) acc.

Definition fill s (inbuf acc : mem) : Prop :=
  bptr s = msize (kept s acc) ∧ bleft s = bufsize s - msize (kept s acc) ∧
  bytes_at inbuf 0 (kept s acc) ∧ bufsize s <= msize inbuf ∧ 0 < bufsize s < 65536.

Lemma kept_size s acc : 0 <= bufsize s → msize (kept s acc) = Z.min (bufsize s) (msize acc).
Proof. intros. unfold kept, msize. rewrite length_take. lia. Qed.

Lemma fill_room s inbuf acc x :
  fill s inbuf acc → 0 < bleft s → byte_ok x →
  ∃ inbuf', st inbuf (bptr s) x = Some inbuf' ∧ fill (buf_setup s (bptr s + 1) (bleft s - 1)) inbuf' (acc ++ [x]).
Proof.
  intros (H1 & H2 & H3 & H4 & H5) Hl Hx. rewrite kept_size in H1, H2 by lia. pose proof (msize_nonneg acc).
  assert (kept s acc = acc) as Ek by (unfold kept; apply take_ge; unfold msize in *; lia).
  assert (kept s (acc ++ [x]) = acc ++ [x]) as Ek' by (unfold kept; apply take_ge; rewrite length_app; unfold msize in *; cbn; lia).
  rewrite st_mwrite, (u8_id x) by done.
  destruct (mwrite_is_Some inbuf (bptr s) [x]) as [inbuf' Hw]; [lia|change (msize [x]) with 1; lia|].
  exists inbuf'. split; [done|]. unfold fill, buf_setup. cbn [bptr bleft bufsize].
  change (kept (Psock _ _ _ _ _ _ _ _ _) (acc ++ [x])) with (kept s (acc ++ [x])). rewrite Ek', msize_app. change (msize [x]) with 1.
  rewrite (mwrite_msize _ _ _ _ Hw). split; [lia|]. split; [lia|]. split; [|lia].
  apply bytes_at_app. split.
  - unfold bytes_at in *. rewrite Ek in H3. rewrite <- H3. apply (mread_mwrite_disjoint _ _ _ _ _ _ Hw). lia.
  - replace (0 + msize acc) with (bptr s) by lia. exact (bytes_at_mwrite _ _ _ _ Hw).
Qed.

Lemma fill_full s inbuf acc l : fill s inbuf acc → bleft s <= 0 → fill s inbuf (acc ++ l).
Proof.
  intros (H1 & H2 & H3 & H4 & H5) Hl. rewrite kept_size in H1, H2 by lia.
  assert (kept s (acc ++ l) = kept s acc) as E by (unfold kept; apply take_app_le; unfold msize in *; lia).
  unfold fill. rewrite E. rewrite kept_size by lia. split_and!; try lia. done.
Qed.

Lemma skip_none d pkt rp c :
  bytes_at pkt rp d → c ∉ d → bufto_skip (length d) pkt rp c = Some (rp + msize d, 0, BUF_FULL).
Proof.
  revert rp. induction d as [|x d IH]; intros rp Hb Hc; cbn [bufto_skip length].
  { rewrite msize_nil, Z.add_0_r. done. }
  apply bytes_at_cons in Hb as [Hx Hb]. apply not_elem_of_cons in Hc as [Hn Hc]. rewrite Hx. cbn [mbind option_bind].
  rewrite (proj2 (Z.eqb_neq x c)) by done. rewrite IH by done. rewrite msize_cons. do 3 f_equal. lia.
Qed.

Lemma skip_found d1 d2 pkt rp c :
  bytes_at pkt rp (d1 ++ c :: d2) → c ∉ d1 →
  bufto_skip (length (d1 ++ c :: d2)) pkt rp c = Some (rp + msize d1 + 1, msize d2, Z.lor BUF_FOUND BUF_FULL).
Proof.
  revert rp. induction d1 as [|x d1 IH]; intros rp Hb Hc; cbn [bufto_skip length app].
  { apply bytes_at_cons in Hb as [Hx _]. cbn [bufto_skip length]. rewrite Hx. cbn [mbind option_bind]. rewrite Z.eqb_refl, msize_nil, Z.add_0_r. done. }
  rewrite <- app_comm_cons in Hb. apply bytes_at_cons in Hb as [Hx Hb]. apply not_elem_of_cons in Hc as [Hn Hc].
  cbn [app length bufto_skip]. rewrite Hx. cbn [mbind option_bind].
  rewrite (proj2 (Z.eqb_neq x c)) by done. rewrite IH by done. rewrite msize_cons. do 3 f_equal. lia.
Qed.

(** The fields that the copy does not touch. *)
Definition same_frame s s' : Prop :=
  psockpt s' = psockpt s ∧ ps_state s' = ps_state s ∧ bufsize s' = bufsize s.

Lemma copy_none d inbuf pkt s rp c acc :
  fill s inbuf acc → bytes_at pkt rp d → bytes_ok d → c ∉ d →
  ∃ inbuf' s' r, bufto_copy (length d) inbuf pkt s rp c = Some (inbuf', s', rp + msize d, 0, r) ∧
    Z.land r BUF_FOUND = 0 ∧ fill s' inbuf' (acc ++ d) ∧ same_frame s s' ∧ msize inbuf' = msize inbuf.
Proof.
  revert inbuf s rp acc. induction d as [|x d IH]; intros inbuf s rp acc Hf Hb Hok Hc; cbn [bufto_copy length].
  { exists inbuf, s, BUF_NOT_FOUND. rewrite msize_nil, Z.add_0_r, app_nil_r. split; [done|]. split; [done|]. split; [done|]. split; done. }
  destruct (Z.ltb_spec 0 (bleft s)) as [Hl|Hl].
  - apply bytes_at_cons in Hb as [Hx Hb]. apply not_elem_of_cons in Hc as [Hn Hc]. apply Forall_cons in Hok as [Hok1 Hok].
    rewrite Hx. cbn [mbind option_bind]. destruct (fill_room s inbuf acc x Hf Hl Hok1) as (inb & Hst & Hf1). rewrite Hst. cbn [mbind option_bind].
    rewrite (proj2 (Z.eqb_neq x c)) by done. destruct (IH _ _ (rp + 1) _ Hf1 Hb Hok Hc) as (inbuf' & s' & r & E & Hr & Hf' & Hfr & Hsz).
    exists inbuf', s', r. rewrite E, msize_cons. split; [do 4 f_equal; lia|]. split; [done|]. rewrite <- app_assoc in Hf'.
    split; [done|]. split; [done|]. by rewrite Hsz, (st_msize _ _ _ _ Hst).
  - rewrite (skip_none (x :: d) pkt rp c Hb Hc : bufto_skip (S (length d)) pkt rp c = _). cbn [mbind option_bind].
    exists inbuf, s, BUF_FULL. split; [done|]. split; [done|]. split; [by apply fill_full|]. split; done.
Qed.

Lemma copy_found d1 d2 inbuf pkt s rp c acc :
  fill s inbuf acc → bytes_at pkt rp (d1 ++ c :: d2) → bytes_ok (d1 ++ [c]) → c ∉ d1 →
  ∃ inbuf' s' r, bufto_copy (length (d1 ++ c :: d2)) inbuf pkt s rp c = Some (inbuf', s', rp + msize d1 + 1, msize d2, r) ∧
    Z.land r BUF_FOUND = BUF_FOUND ∧ fill s' inbuf' (acc ++ d1 ++ [c]) ∧ same_frame s s' ∧ msize inbuf' = msize inbuf.
Proof.
  revert inbuf s rp acc. induction d1 as [|x d1 IH]; intros inbuf s rp acc Hf Hb Hok Hc;
    destruct (Z.ltb_spec 0 (bleft s)) as [Hl|Hl].
  - apply bytes_at_cons in Hb as [Hx _]. apply Forall_cons in Hok as [Hok1 _]. cbn [app length bufto_copy].
    rewrite (proj2 (Z.ltb_lt _ _)) by done. rewrite Hx. cbn [mbind option_bind].
    destruct (fill_room s inbuf acc c Hf Hl Hok1) as (inb & Hst & Hf1). rewrite Hst. cbn [mbind option_bind]. rewrite Z.eqb_refl.
    exists inb, (buf_setup s (bptr s + 1) (bleft s - 1)), BUF_FOUND. rewrite msize_nil, Z.add_0_r. split; [done|]. split; [done|]. split; [done|]. split; [done|].
    by apply st_msize in Hst.
  - pose proof (skip_found [] d2 pkt rp c Hb Hc) as E. cbn [app length] in E. cbn [app length bufto_copy].
    rewrite (proj2 (Z.ltb_ge _ _)) by done. rewrite E. cbn [mbind option_bind].
    exists inbuf, s, (Z.lor BUF_FOUND BUF_FULL). split; [done|]. split; [done|]. split; [by apply fill_full|]. done.
  - rewrite <- !app_comm_cons in *. apply bytes_at_cons in Hb as [Hx Hb]. apply not_elem_of_cons in Hc as [Hn Hc]. apply Forall_cons in Hok as [Hok1 Hok].
    cbn [length bufto_copy]. rewrite (proj2 (Z.ltb_lt _ _)) by done.
    rewrite Hx. cbn [mbind option_bind]. destruct (fill_room s inbuf acc x Hf Hl Hok1) as (inb & Hst & Hf1). rewrite Hst. cbn [mbind option_bind].
    rewrite (proj2 (Z.eqb_neq x c)) by done. destruct (IH _ _ (rp + 1) _ Hf1 Hb Hok Hc) as (inbuf' & s' & r & E & Hr & Hf' & Hfr & Hsz).
    exists inbuf', s', r. rewrite E, msize_cons. split; [do 4 f_equal; lia|]. split; [done|]. rewrite <- app_assoc in Hf'.
    split; [done|]. split; [done|]. by rewrite Hsz, (st_msize _ _ _ _ Hst).
  - pose proof (skip_found (x :: d1) d2 pkt rp c Hb Hc) as E. rewrite <- !app_comm_cons in *. cbn [length bufto_copy].
    cbn [length] in E. rewrite (proj2 (Z.ltb_ge _ _)) by done. rewrite E. cbn [mbind option_bind].
    exists inbuf, s, (Z.lor BUF_FOUND BUF_FULL). split; [done|]. split; [done|]. split; [by apply fill_full|]. done.
Qed.

(** The bytes [d] of this call that have not been read yet. *)
Inductive avail (u : uip) s : mem → Prop :=
| avail_more d : d ≠ [] → readlen s = msize d → bytes_at (uip_appdata u) (readptr s) d → ps_state s = STATE_READ → avail u s d
| avail_none : readlen s = 0 → ps_state s = STATE_READ ∨ uip_newdata u = false → avail u s []
| avail_new d : readlen s = 0 → ps_state s ≠ STATE_READ → uip_newdata u = true → uip_len u = msize d →
    bytes_at (uip_appdata u) 0 d → avail u s d.

(** Everything of this call was read; the next data is read from the next call's packet. *)
Definition drained s : Prop := readlen s = 0 ∧ ps_state s ≠ STATE_READ.

Lemma avail_length u s d : avail u s d → ps_state s = STATE_READ → readlen s = msize d.
Proof. intros [] Hs; [done|by rewrite msize_nil|done]. Qed.

(** The loop when the bytes [d] are to be read. *)
Lemma loop_reads fuel u s inbuf acc c d :
  fill s inbuf acc → readlen s = msize d → bytes_at (uip_appdata u) (readptr s) d → ps_state s = STATE_READ →
  bytes_ok d → c ∉ d →
  ∃ s' inbuf',
    ('(inbuf, s, r) ← buf_bufto inbuf (uip_appdata u) s c;
     if Z.land r BUF_FOUND =? 0 then readto_loop (S fuel) false u s inbuf c
     else if psock_datalen s =? 0 then Some (set_psockpt (set_state s STATE_NONE) false, inbuf, PT_WAITING)
     else Some (set_psockpt s false, inbuf, PT_ENDED)) = Some (s', inbuf', PT_WAITING) ∧
    psockpt s' = true ∧ drained s' ∧ fill s' inbuf' (acc ++ d) ∧ bufsize s' = bufsize s ∧ msize inbuf' = msize inbuf.
Proof.
  intros Hf Hn Hb Hst Hok Hc. unfold buf_bufto. rewrite Hn. unfold msize at 1. rewrite Nat2Z.id.
  destruct (copy_none d inbuf (uip_appdata u) s (readptr s) c acc) as (inb & s1 & r & -> & Hr & Hf1 & (Hp & Hs & Hz) & Hsz); [done..|].
  cbn [mbind option_bind]. rewrite Hr. change (0 =? 0) with true. cbv iota. cbn [readto_loop orb].
  set (s2 := set_read s1 _ 0). assert (readlen s2 = 0) as E1 by done.
  assert (ps_state s2 = STATE_READ) as E2 by (rewrite <- Hst, <- Hs; done).
  unfold psock_newdata. rewrite E1, E2. change (0 =? 0) with true. change (0 <? 0) with false.
  change (STATE_READ =? STATE_READ) with true. cbv iota. cbn [negb].
  eexists _, _. split; [reflexivity|]. split; [done|]. split; [done|]. split; [done|]. done.
Qed.

Lemma loop_finds fuel u s inbuf acc c d1 d2 :
  fill s inbuf acc → readlen s = msize (d1 ++ c :: d2) → bytes_at (uip_appdata u) (readptr s) (d1 ++ c :: d2) →
  ps_state s = STATE_READ → bytes_ok (d1 ++ [c]) → c ∉ d1 →
  ∃ s' inbuf',
    ('(inbuf, s, r) ← buf_bufto inbuf (uip_appdata u) s c;
     if Z.land r BUF_FOUND =? 0 then readto_loop fuel false u s inbuf c
     else if psock_datalen s =? 0 then Some (set_psockpt (set_state s STATE_NONE) false, inbuf, PT_WAITING)
     else Some (set_psockpt s false, inbuf, PT_ENDED)) = Some (s', inbuf', PT_ENDED) ∧
    psockpt s' = false ∧ ps_state s' = STATE_READ ∧ avail u s' d2 ∧ fill s' inbuf' (acc ++ d1 ++ [c]) ∧
    bufsize s' = bufsize s ∧ msize inbuf' = msize inbuf.
Proof.
  intros Hf Hn Hb Hst Hok Hc. unfold buf_bufto. rewrite Hn. unfold msize at 1. rewrite Nat2Z.id.
  destruct (copy_found d1 d2 inbuf (uip_appdata u) s (readptr s) c acc) as (inb & s1 & r & -> & Hr & Hf1 & (Hp & Hs & Hz) & Hsz); [done..|].
  cbn [mbind option_bind]. rewrite Hr. change (BUF_FOUND =? 0) with false. cbv iota.
  pose proof Hf1 as (_ & H2 & _ & _ & H5).
  rewrite kept_size in H2 by lia. rewrite !msize_app in H2. change (msize [c]) with 1 in H2.
  pose proof (msize_nonneg acc). pose proof (msize_nonneg d1).
  unfold psock_datalen. cbn [bleft bufsize set_read]. rewrite H2, (u16_id _) by lia.
  rewrite (proj2 (Z.eqb_neq _ 0)) by lia. eexists _, _. split; [reflexivity|]. split; [done|]. cbn. split; [congruence|].
  split; [|done]. destruct (decide (d2 = [])) as [->|Hne].
  - apply avail_none; cbn; [by rewrite msize_nil|left; congruence].
  - apply avail_more; cbn; [done|done| |congruence].
    change (c :: d2) with ([c] ++ d2) in Hb. rewrite app_assoc in Hb.
    apply bytes_at_app in Hb as [_ Hb]. rewrite msize_app in Hb. change (msize [c]) with 1 in Hb. by rewrite Z.add_assoc in Hb.
Qed.

(** The state in which the loop starts. *)
Definition reading s inbuf acc : Prop :=
  if psockpt s then fill s inbuf acc ∧ drained s
  else acc = [] ∧ bufsize s <= msize inbuf ∧ 0 < bufsize s < 65536.

Lemma fill_setup s inbuf :
  bufsize s <= msize inbuf → 0 < bufsize s < 65536 → fill (buf_setup s 0 (u16 (bufsize s))) inbuf [].
Proof.
  intros H1 H2. unfold fill, kept. cbn [buf_setup bptr bleft bufsize]. rewrite take_nil, msize_nil, (u16_id _) by lia.
  split_and!; try lia. unfold bytes_at, mread. rewrite msize_nil, decide_True by (pose proof (msize_nonneg inbuf); lia). done.
Qed.

Lemma avail_setup u s d a b : avail u s d → avail u (buf_setup s a b) d.
Proof. intros []; [by apply avail_more|by apply avail_none|by apply avail_new]. Qed.

Lemma readto_start u s inbuf acc c d :
  reading s inbuf acc → avail u s d →
  ∃ s1, fill s1 inbuf acc ∧ avail u s1 d ∧ bufsize s1 = bufsize s ∧ psockpt s1 = psockpt s ∧
    (psockpt s = true → drained s1) ∧
    psock_readto u s inbuf c = readto_loop 3 (psockpt s) u s1 inbuf c.
Proof.
  unfold reading, psock_readto. intros Hr Ha. destruct (psockpt s) eqn:Hp.
  - exists s. tauto.
  - destruct Hr as (-> & H1 & H2). exists (buf_setup s 0 (u16 (bufsize s))). split; [by apply fill_setup|].
    split; [by apply avail_setup|]. done.
Qed.

Lemma readto_loop_S fuel resumed u s inbuf c :
  readto_loop (S fuel) resumed u s inbuf c =
  (let '(s, ok) :=
     if resumed || (readlen s =? 0) then
       let '(s, ok) := psock_newdata u s in (if (ok : bool) then set_read (set_state s STATE_READ) 0 (uip_len u) else s, ok)
     else (s, true) in
   if negb ok then Some (set_psockpt s true, inbuf, PT_WAITING)
   else
     '(inbuf, s, r) ← buf_bufto inbuf (uip_appdata u) s c;
     if Z.land r BUF_FOUND =? 0 then readto_loop fuel false u s inbuf c
     else if psock_datalen s =? 0 then Some (set_psockpt (set_state s STATE_NONE) false, inbuf, PT_WAITING)
     else Some (set_psockpt s false, inbuf, PT_ENDED)).
Proof. done. Qed.

Lemma readto_waits u s inbuf acc c d :
  reading s inbuf acc → avail u s d → bytes_ok d → c ∉ d →
  ∃ s' inbuf', psock_readto u s inbuf c = Some (s', inbuf', PT_WAITING) ∧
    psockpt s' = true ∧ reading s' inbuf' (acc ++ d) ∧ bufsize s' = bufsize s ∧ msize inbuf' = msize inbuf.
Proof.
  intros Hr Ha Hok Hc. destruct (readto_start u s inbuf acc c d Hr Ha) as (s1 & Hf & Ha1 & Hz & Hp & Hd & ->).
  assert (∀ s' inb, psockpt s' = true → fill s' inb (acc ++ d) → drained s' → reading s' inb (acc ++ d)) as Hrd
    by (intros s' inb E ? ?; unfold reading; by rewrite E).
  destruct Ha1 as [d Hne Hl Hb Hst|Hl Hst|d Hl Hst Hnew Hlen Hb].
  - assert (psockpt s = false) as Hps by (destruct (psockpt s); [destruct (Hd eq_refl); congruence|done]).
    rewrite Hps. rewrite readto_loop_S. rewrite orb_false_l, Hl.
    rewrite (proj2 (Z.eqb_neq _ 0)) by (destruct d; [done|rewrite msize_cons; pose proof (msize_nonneg d); lia]). cbv iota. cbn [negb].
    destruct (loop_reads 1 u s1 inbuf acc c d) as (s' & inb & E & H1 & H2 & H3 & H4 & H5); [done..|].
    exists s', inb. split; [exact E|]. split; [done|]. split; [by apply Hrd|]. split; [by rewrite H4|done].
  - rewrite readto_loop_S. rewrite Hl. change (0 =? 0) with true. rewrite orb_true_r. unfold psock_newdata. rewrite Hl. change (0 <? 0) with false. cbv iota.
    rewrite app_nil_r in *. destruct (Z.eqb_spec (ps_state s1) STATE_READ) as [E|E].
    + cbn [negb]. eexists _, _. split; [reflexivity|]. split; [done|]. split; [apply Hrd; [done|done|done]|]. done.
    + destruct Hst as [Hst|Hst]; [done|]. rewrite Hst. cbn [negb]. eexists _, _. split; [reflexivity|]. split; [done|].
      split; [apply Hrd; [done|done|done]|]. done.
  - rewrite readto_loop_S. rewrite Hl. change (0 =? 0) with true. rewrite orb_true_r. unfold psock_newdata. rewrite Hl. change (0 <? 0) with false. cbv iota.
    rewrite (proj2 (Z.eqb_neq _ _)) by done. rewrite Hnew. cbn [negb].
    destruct (loop_reads 1 u (set_read (set_state s1 STATE_READ) 0 (uip_len u)) inbuf acc c d) as (s' & inb & E & H1 & H2 & H3 & H4 & H5); [done..|].
    exists s', inb. split; [exact E|]. split; [done|]. split; [by apply Hrd|]. split; [by rewrite H4|done].
Qed.

Lemma readto_ends u s inbuf acc c d1 d2 :
  reading s inbuf acc → avail u s (d1 ++ c :: d2) → bytes_ok (d1 ++ [c]) → c ∉ d1 →
  ∃ s' inbuf', psock_readto u s inbuf c = Some (s', inbuf', PT_ENDED) ∧
    psockpt s' = false ∧ avail u s' d2 ∧ fill s' inbuf' (acc ++ d1 ++ [c]) ∧ bufsize s' = bufsize s ∧ msize inbuf' = msize inbuf.
Proof.
  intros Hr Ha Hok Hc. destruct (readto_start u s inbuf acc c (d1 ++ c :: d2) Hr Ha) as (s1 & Hf & Ha1 & Hz & Hp & Hd & ->).
  remember (d1 ++ c :: d2) as d eqn:Ed. assert (0 < msize d) as Hpos.
  { subst d. rewrite msize_app, msize_cons. pose proof (msize_nonneg d1). pose proof (msize_nonneg d2). lia. }
  destruct Ha1 as [d Hne Hl Hb Hst|Hl Hst|d Hl Hst Hnew Hlen Hb].
  - assert (psockpt s = false) as Hps by (destruct (psockpt s); [destruct (Hd eq_refl); congruence|done]).
    rewrite Hps. rewrite readto_loop_S. rewrite orb_false_l, Hl.
    rewrite (proj2 (Z.eqb_neq _ 0)) by lia. cbv iota. cbn [negb]. subst d.
    destruct (loop_finds 2 u s1 inbuf acc c d1 d2) as (s' & inb & E & H1 & H2 & H3 & H4 & H5 & H6); [done..|].
    exists s', inb. split; [exact E|]. split; [done|]. split; [done|]. split; [done|]. split; [by rewrite H5|done].
  - exfalso. rewrite msize_nil in Hpos. lia.
  - rewrite readto_loop_S. rewrite Hl. change (0 =? 0) with true. rewrite orb_true_r. unfold psock_newdata. rewrite Hl. change (0 <? 0) with false. cbv iota.
    rewrite (proj2 (Z.eqb_neq _ _)) by done. rewrite Hnew. cbn [negb]. subst d.
    destruct (loop_finds 2 u (set_read (set_state s1 STATE_READ) 0 (uip_len u)) inbuf acc c d1 d2) as (s' & inb & E & H1 & H2 & H3 & H4 & H5 & H6); [done..|].
    exists s', inb. split; [exact E|]. split; [done|]. split; [done|]. split; [done|]. split; [by rewrite H5|done].
Qed.

(** One call of [psock_readto], whatever bytes arrive and however long the line is, is defined when the buffer has
    [bufsize] bytes: nothing is written outside them. It ends exactly when the end marker has arrived; then the buffer
    holds the first [bufsize] bytes of the line and the bytes after the marker are still to be read. *)
Theorem psock_readto_bounded u s inbuf acc c d :
  reading s inbuf acc → avail u s d → bytes_ok d →
  ∃ s' inbuf' r, psock_readto u s inbuf c = Some (s', inbuf', r) ∧ msize inbuf' = msize inbuf ∧
    if bool_decide (c ∈ d)
    then ∃ line rest, d = (line ++ c :: rest) ∧ (c ∉ line) ∧ r = PT_ENDED ∧ avail u s' rest ∧ bytes_at inbuf' 0 (kept s (acc ++ line ++ [c]))
    else r = PT_WAITING ∧ reading s' inbuf' (acc ++ d).
Proof.
  intros Hr Ha Hok. case_bool_decide as Hc.
  - destruct (list_elem_of_split_l _ _ Hc) as (d1 & d2 & -> & Hn).
    destruct (readto_ends u s inbuf acc c d1 d2) as (s' & inbuf' & E & _ & Ha' & (_ & _ & Hb & _) & Hz & Hs); [done|done| |done|].
    { change (c :: d2) with ([c] ++ d2) in Hok. rewrite app_assoc in Hok. by apply bytes_ok_app in Hok as [? _]. }
    exists s', inbuf', PT_ENDED. split; [done|]. split; [done|]. exists d1, d2. unfold kept in *. by rewrite Hz in Hb.
  - destruct (readto_waits u s inbuf acc c d) as (s' & inbuf' & E & _ & Hr' & _ & Hs); [done..|].
    by exists s', inbuf', PT_WAITING.
Qed.
End readto.

(** Four bytes of buffer, a line of six: the last two are read and forgotten. *)
Theorem psock_readto_bounded_witness :
  let s := Psock false tt 0 0 0 0 0 4 STATE_NONE in
  let u := Uip UIP_NEWDATA 100 [1; 2; 3; 4; 5; 10; 7] 7 0 in
  ∃ s' inbuf' r, psock_readto u s [0; 0; 0; 0] 10 = Some (s', inbuf', r) ∧ msize inbuf' = 4 ∧
    ∃ line rest, [1; 2; 3; 4; 5; 10; 7] = (line ++ 10 :: rest) ∧ (10 ∉ line) ∧ r = PT_ENDED ∧ avail u s' rest ∧
      bytes_at inbuf' 0 (kept s ([] ++ line ++ [10])).
Proof.
  intros s u. apply (psock_readto_bounded u s [0; 0; 0; 0] [] 10 [1; 2; 3; 4; 5; 10; 7]).
  - repeat constructor; done.
  - by apply avail_new.
  - repeat constructor; done.
Defined.

(** ** Sending generated data

    The generated data is in the packet buffer only: [uip_send] of the packet buffer itself sets the length. *)
Section generated.
Context {P W : Type} (padd : P → Z → P) (fetch : mem → P → option mem).
Context (generate : W → uip → option (W * uip * Z)) (papp : P).
Hypothesis Hpapp : ∀ pkt, fetch pkt papp = None.

Definition set_slen (u : uip) (n : Z) : uip := Uip (uip_flags u) (uip_mss u) (uip_appdata u) (uip_len u) n.

Lemma uip_send_app u n : 0 < n < 65536 → uip_send u None n = Some (set_slen u n).
Proof. intros. unfold uip_send. rewrite (proj2 (Z.ltb_lt 0 n)), (u16_id n) by lia. done. Qed.

Lemma generator_start f w u s w' u' n :
  psockpt s = false → generate w u = Some (w', u', n) → 0 < n < 65536 → n <= uip_mss u' → uip_rexmit u' = false →
  ∃ s', psock_generator_send padd fetch generate papp (S f) w u s = Some (w', set_slen u' n, s', PT_WAITING) ∧
    sending s' papp n.
Proof.
  intros Hs Hg Hn Hm Hx. unfold psock_generator_send. rewrite Hs, Hg. cbn [mbind option_bind]. rewrite Hx. cbn [mbind option_bind generator_wait].
  unfold acked_and_sent, data_acked, send_data. cbn. rewrite (u16_id n), (proj2 (Z.ltb_ge (uip_mss u') n)) by lia.
  rewrite Hpapp, uip_send_app by lia. cbn. eexists. split; [done|]. done.
Qed.

Lemma generator_ack f w u s n :
  sending s papp n → 0 < n <= uip_mss u → uip_acked u = true →
  ∃ s', psock_generator_send padd fetch generate papp (S f) w u s = Some (w, u, s', PT_ENDED) ∧ psockpt s' = false.
Proof.
  intros (Hs & Hp & <- & Hst) Hl Ha. unfold psock_generator_send. rewrite Hs. cbn [generator_wait].
  unfold acked_and_sent, data_acked, send_data. rewrite Hst, Ha. change (STATE_DATA_SENT =? STATE_DATA_SENT) with true.
  cbn [andb]. rewrite (proj2 (Z.ltb_ge (uip_mss u) (sendlen s))) by lia.
  cbn [set_state set_send sendlen ps_state sendptr]. change (negb (STATE_ACKED =? STATE_DATA_SENT)) with true. cbn [orb].
  rewrite uip_send_none by (destruct (uip_mss u <? 0) eqn:E; lia). cbn. eexists. done.
Qed.

Lemma generator_idle f w u s n :
  sending s papp n → uip_acked u = false → uip_rexmit u = false →
  ∃ s', psock_generator_send padd fetch generate papp (S f) w u s = Some (w, u, s', PT_WAITING) ∧ sending s' papp n.
Proof.
  intros (Hs & Hp & <- & Hst) Ha Hx. unfold psock_generator_send. rewrite Hs. cbn [generator_wait].
  unfold acked_and_sent, data_acked, send_data. rewrite Hst, Ha, andb_false_r, Hst, Hx.
  change (negb (STATE_DATA_SENT =? STATE_DATA_SENT)) with false. cbn. eexists. split; [done|]. done.
Qed.

(** A retransmission does not call [generate]: the local continuation is behind the test of [uip_rexmit]. *)
Lemma generator_resend f w u s n :
  sending s papp n → 0 < n < 65536 → n <= uip_mss u → uip_acked u = false → uip_rexmit u = true →
  ∃ s', psock_generator_send padd fetch generate papp (S f) w u s = Some (w, set_slen u n, s', PT_WAITING) ∧ sending s' papp n.
Proof.
  intros (Hs & Hp & <- & Hst) Hn Hm Ha Hx. unfold psock_generator_send. rewrite Hs. cbn [generator_wait].
  unfold acked_and_sent, data_acked, send_data. rewrite Hst, Ha, andb_false_r, Hx, orb_true_r.
  rewrite (proj2 (Z.ltb_ge (uip_mss u) (sendlen s))) by lia. rewrite Hp, Hpapp, uip_send_app by lia. cbn.
  eexists. split; [done|]. done.
Qed.
End generated.
