(* ===== verification/UipSum.v ===== *)
(** * Checksums and sequence numbers of uIP

    The arithmetic of src/uip/uip.c that does not depend on the stack's state: the Internet checksum, the byte order of 16-bit
    values, and sequence numbers as arrays of four bytes. *)
From S2P Require Import Prelude.

(** ** The Internet checksum *)

(** The addition of the loops of [chksum]. *)
Definition chksum_add (sum t : Z) : Z :=
  let sum := u16 (sum + t) in if sum <? t then u16 (sum + 1) else sum.

(** The two loops of [chksum]: pairs of bytes, and the last byte of an odd number. *)
Fixpoint chksum (sum : Z) (data : mem) : Z :=
  match data with
  | a :: b :: data => chksum (chksum_add sum (u16 (Z.shiftl a 8 + b))) data
  | [a] => chksum_add sum (u16 (Z.shiftl a 8 + 0))
  | [] => sum
  end.

(** ** 32-bit numbers as four bytes, the first is the highest *)

Definition u8x4 : Type := Z * Z * Z * Z.

Definition uip_add32 (op32 : u8x4) (op16 : Z) : u8x4 :=
  let '(o0, o1, o2, o3) := op32 in
  let a3 := u8 (o3 + Z.land op16 255) in
  let a2 := u8 (o2 + Z.shiftr op16 8) in
  let '(a0, a1) := if a2 <? Z.shiftr op16 8 then (let a1 := u8 (o1 + 1) in (if a1 =? 0 then u8 (o0 + 1) else o0, a1)) else (o0, o1) in
  if a3 <? Z.land op16 255 then
    let a2 := u8 (a2 + 1) in
    if a2 =? 0 then
      let a1 := u8 (a1 + 1) in
      (if a1 =? 0 then u8 (a0 + 1) else a0, a1, a2, a3)
    else (a0, a1, a2, a3)
  else (a0, a1, a2, a3).

(** [++] of the last byte with the carry to the others. *)
Definition incr32 (x : u8x4) : u8x4 :=
  let '(x0, x1, x2, x3) := x in
  let x3 := u8 (x3 + 1) in
  if x3 =? 0 then
    let x2 := u8 (x2 + 1) in
    if x2 =? 0 then
      let x1 := u8 (x1 + 1) in
      if x1 =? 0 then (u8 (x0 + 1), x1, x2, x3) else (x0, x1, x2, x3)
    else (x0, x1, x2, x3)
  else (x0, x1, x2, x3).

(** The number. *)
Definition be32 (x : u8x4) : Z := let '(a, b, c, d) := x in ((a * 256 + b) * 256 + c) * 256 + d.

(** A value of 16 bits. *)
Definition word_ok (z : Z) : Prop := 0 <= z < 65536.

Definition u8x4_ok (x : u8x4) : Prop := let '(a, b, c, d) := x in byte_ok a ∧ byte_ok b ∧ byte_ok c ∧ byte_ok d.

(** ** Theorems

    The sum of 16-bit words in ones' complement: zero only for words that are all zero. *)
Definition norm (z : Z) : Z := if z =? 0 then 0 else (z - 1) mod 65535 + 1.

(** The words of a string of bytes, the last one filled with a zero. *)
Fixpoint words (data : mem) : Z :=
  match data with
  | a :: b :: data => a * 256 + b + words data
  | [a] => a * 256
  | [] => 0
  end.

Lemma norm_small z : 0 <= z < 65536 → norm z = z.
Proof. unfold norm. intros. destruct (Z.eqb_spec z 0); [done|]. rewrite Z.mod_small; lia. Qed.

Lemma norm_range z : 0 <= z → 0 <= norm z < 65536.
Proof. unfold norm. intros. destruct (Z.eqb_spec z 0); [lia|]. pose proof (Z.mod_pos_bound (z - 1) 65535). lia. Qed.

Lemma norm_pos z : 0 < z → 0 < norm z.
Proof. unfold norm. intros. rewrite (proj2 (Z.eqb_neq _ _)) by lia. pose proof (Z.mod_pos_bound (z - 1) 65535). lia. Qed.

Lemma norm_add a b : 0 <= a → 0 <= b → norm (norm a + b) = norm (a + b).
Proof.
  intros. unfold norm at 2. destruct (Z.eqb_spec a 0) as [->|]; [done|].
  unfold norm. pose proof (Z.mod_pos_bound (a - 1) 65535). rewrite !(proj2 (Z.eqb_neq _ _)) by lia. f_equal.
  replace (_ + 1 + b - 1) with ((a - 1) mod 65535 + b) by lia. rewrite Zplus_mod_idemp_l. f_equal. lia.
Qed.

Lemma chksum_add_norm sum t : word_ok sum → word_ok t → chksum_add sum t = norm (sum + t).
Proof.
  unfold word_ok, chksum_add, norm, u16. intros. destruct (Z.eqb_spec (sum + t) 0) as [E|].
  - assert (sum = 0) as -> by lia. assert (t = 0) as -> by lia. done.
  - destruct (Z.ltb_spec ((sum + t) mod 65536) t); Z.div_mod_to_equations; lia.
Qed.

Lemma words_nonneg data : bytes_ok data → 0 <= words data.
Proof.
  revert data. fix IH 1. intros [|a [|b data]]; [done| |]; intros H; apply Forall_cons in H as [Ha H]; unfold byte_ok in Ha; cbn [words]; [lia|].
  apply Forall_cons in H as [Hb H]. specialize (IH _ H). unfold byte_ok in Hb. lia.
Qed.

Lemma shift_word a b : byte_ok a → byte_ok b → u16 (Z.shiftl a 8 + b) = a * 256 + b.
Proof. unfold byte_ok. intros. rewrite Z.shiftl_mul_pow2 by lia. apply Z.mod_small. lia. Qed.

(** The loops of the code compute the sum. *)
Lemma chksum_words data : bytes_ok data → ∀ sum, word_ok sum → chksum sum data = norm (sum + words data).
Proof.
  revert data. fix IH 1. intros [|a [|b data]] H sum Hs.
  - cbn. rewrite Z.add_0_r. symmetry. by apply norm_small.
  - apply Forall_cons in H as [Ha _]. cbn [chksum words]. rewrite shift_word by (done || unfold byte_ok; lia).
    rewrite chksum_add_norm; [f_equal; lia|done|]. unfold byte_ok in Ha. unfold word_ok. lia.
  - apply Forall_cons in H as [Ha H]. apply Forall_cons in H as [Hb H]. cbn [chksum words]. rewrite shift_word by done. unfold byte_ok in Ha, Hb.
    assert (word_ok (a * 256 + b)) as Hw by (unfold word_ok; lia). unfold word_ok in Hs. rewrite chksum_add_norm by done.
    rewrite (IH data H) by (apply norm_range; lia). rewrite norm_add; [f_equal; lia|lia|by apply words_nonneg].
Qed.

Lemma words_app x y : Nat.even (length x) = true → words (x ++ y) = words x + words y.
Proof.
  revert x. fix IH 1. intros [|a [|b x]] H; [done|done|]. cbn [app words]. rewrite IH by done. lia.
Qed.

Lemma be32_range x : u8x4_ok x → 0 <= be32 x < 4294967296.
Proof. destruct x as [[[a b] c] d]. unfold u8x4_ok, byte_ok, be32. lia. Qed.

Lemma be32_inj x y : u8x4_ok x → u8x4_ok y → be32 x = be32 y → x = y.
Proof. destruct x as [[[a b] c] d], y as [[[a' b'] c'] d']. unfold u8x4_ok, byte_ok, be32. intros. assert (a = a' ∧ b = b' ∧ c = c' ∧ d = d') as (-> & -> & -> & ->) by lia. done. Qed.

Lemma add32_spec x n : u8x4_ok x → word_ok n → u8x4_ok (uip_add32 x n) ∧ be32 (uip_add32 x n) = u32 (be32 x + n).
Proof.
  destruct x as [[[o0 o1] o2] o3]. unfold u8x4_ok, word_ok. intros (H0 & H1 & H2 & H3) Hn. unfold uip_add32.
  change 255 with (Z.ones 8). rewrite Z.land_ones, Z.shiftr_div_pow2 by lia. change (2 ^ 8) with 256.
  set (lo := n mod 256). set (hi := n / 256). assert (n = hi * 256 + lo ∧ 0 <= lo < 256 ∧ 0 <= hi < 256) as (En & Hlo & Hhi) by (unfold lo, hi; Z.div_mod_to_equations; lia).
  clearbody lo hi. unfold byte_ok, u8, u32, be32 in *.
  repeat match goal with |- context [?a <? ?b] => destruct (Z.ltb_spec a b) | |- context [?a =? ?b] => destruct (Z.eqb_spec a b) end; cbn [fst snd];
  (split; [repeat split; Z.div_mod_to_equations; lia|]); Z.div_mod_to_equations; lia.
Qed.

Lemma incr32_spec x : u8x4_ok x → u8x4_ok (incr32 x) ∧ be32 (incr32 x) = u32 (be32 x + 1).
Proof.
  destruct x as [[[a b] c] d]. unfold u8x4_ok, byte_ok, incr32, u8, u32, be32. intros.
  repeat match goal with |- context [?a =? ?b] => destruct (Z.eqb_spec a b) end; (split; [repeat split; Z.div_mod_to_equations; lia|]); Z.div_mod_to_equations; lia.
Qed.
