(* ===== verification/Uip.v ===== *)
(** * The TCP/IP stack

    src/uip/uip.c with IP version 4, without reassembly of fragments, urgent data and statistics, as the boards configure it.
    [uip_process] is one function in C, with labels; here a label is a function of the state, which ends at [send] or [drop].
    Pointers into the packet buffer are offsets. A header is inside the buffer, which is an array: its fields are read and
    written directly, where an offset comes from the packet the access is checked ([None] is outside). 16-bit fields are read
    and written in the byte order of the processor. The application is a parameter that works on the whole state. *)
From S2P Require Import Prelude Psock UipSum.

(** A build: the byte order and the sizes of the arrays. *)
Class UipConf := { uip_little : bool; UIP_BUFSIZE : Z; UIP_CONNS : Z; UIP_LISTENPORTS : Z; UIP_UDP_CONNS : Z }.

Definition ipaddr : Type := Z * Z.

Record uip_conn := UipConn {
  ripaddr : ipaddr; lport : Z; rport : Z; rcv_nxt : u8x4; snd_nxt : u8x4; c_len : Z; mss : Z; initialmss : Z;
  sa : Z; sv : Z; rto : Z; tcpstateflags : Z; timer : Z; nrtx : Z }.

Record uip_udp_conn := UipUdpConn { u_ripaddr : ipaddr; u_lport : Z; u_rport : Z; u_ttl : Z }.

(** The variables of the stack, and the state of the application. *)
Record stack (A : Type) := Stack {
  s_buf : mem; s_appdata : Z; s_sappdata : Z; s_len : Z; s_slen : Z; s_flags : Z; s_conn : option nat; s_conns : list uip_conn; s_listenports : list Z; s_forced_poll : bool; s_udp_conn : nat; s_udp_conns : list uip_udp_conn; s_ipid : Z; s_iss : u8x4; s_lastport : Z; s_hostaddr : ipaddr; s_draddr : ipaddr; s_netmask : ipaddr; s_ethaddr : mem; s_app : A }.
Arguments Stack {A}.
Arguments s_buf {A}.
Arguments s_appdata {A}.
Arguments s_sappdata {A}.
Arguments s_len {A}.
Arguments s_slen {A}.
Arguments s_flags {A}.
Arguments s_conn {A}.
Arguments s_conns {A}.
Arguments s_listenports {A}.
Arguments s_forced_poll {A}.
Arguments s_udp_conn {A}.
Arguments s_udp_conns {A}.
Arguments s_ipid {A}.
Arguments s_iss {A}.
Arguments s_lastport {A}.
Arguments s_hostaddr {A}.
Arguments s_draddr {A}.
Arguments s_netmask {A}.
Arguments s_ethaddr {A}.
Arguments s_app {A}.

Section setters.
Context {A : Type}.
Definition set_buf (v : mem) (s : stack A) : stack A := Stack v (s_appdata s) (s_sappdata s) (s_len s) (s_slen s) (s_flags s) (s_conn s) (s_conns s) (s_listenports s) (s_forced_poll s) (s_udp_conn s) (s_udp_conns s) (s_ipid s) (s_iss s) (s_lastport s) (s_hostaddr s) (s_draddr s) (s_netmask s) (s_ethaddr s) (s_app s).
Definition set_appdata (v : Z) (s : stack A) : stack A := Stack (s_buf s) v (s_sappdata s) (s_len s) (s_slen s) (s_flags s) (s_conn s) (s_conns s) (s_listenports s) (s_forced_poll s) (s_udp_conn s) (s_udp_conns s) (s_ipid s) (s_iss s) (s_lastport s) (s_hostaddr s) (s_draddr s) (s_netmask s) (s_ethaddr s) (s_app s).
Definition set_sappdata (v : Z) (s : stack A) : stack A := Stack (s_buf s) (s_appdata s) v (s_len s) (s_slen s) (s_flags s) (s_conn s) (s_conns s) (s_listenports s) (s_forced_poll s) (s_udp_conn s) (s_udp_conns s) (s_ipid s) (s_iss s) (s_lastport s) (s_hostaddr s) (s_draddr s) (s_netmask s) (s_ethaddr s) (s_app s).
Definition set_len (v : Z) (s : stack A) : stack A := Stack (s_buf s) (s_appdata s) (s_sappdata s) v (s_slen s) (s_flags s) (s_conn s) (s_conns s) (s_listenports s) (s_forced_poll s) (s_udp_conn s) (s_udp_conns s) (s_ipid s) (s_iss s) (s_lastport s) (s_hostaddr s) (s_draddr s) (s_netmask s) (s_ethaddr s) (s_app s).
Definition set_slen (v : Z) (s : stack A) : stack A := Stack (s_buf s) (s_appdata s) (s_sappdata s) (s_len s) v (s_flags s) (s_conn s) (s_conns s) (s_listenports s) (s_forced_poll s) (s_udp_conn s) (s_udp_conns s) (s_ipid s) (s_iss s) (s_lastport s) (s_hostaddr s) (s_draddr s) (s_netmask s) (s_ethaddr s) (s_app s).
Definition set_flags (v : Z) (s : stack A) : stack A := Stack (s_buf s) (s_appdata s) (s_sappdata s) (s_len s) (s_slen s) v (s_conn s) (s_conns s) (s_listenports s) (s_forced_poll s) (s_udp_conn s) (s_udp_conns s) (s_ipid s) (s_iss s) (s_lastport s) (s_hostaddr s) (s_draddr s) (s_netmask s) (s_ethaddr s) (s_app s).
Definition set_conn (v : option nat) (s : stack A) : stack A := Stack (s_buf s) (s_appdata s) (s_sappdata s) (s_len s) (s_slen s) (s_flags s) v (s_conns s) (s_listenports s) (s_forced_poll s) (s_udp_conn s) (s_udp_conns s) (s_ipid s) (s_iss s) (s_lastport s) (s_hostaddr s) (s_draddr s) (s_netmask s) (s_ethaddr s) (s_app s).
Definition set_conns (v : list uip_conn) (s : stack A) : stack A := Stack (s_buf s) (s_appdata s) (s_sappdata s) (s_len s) (s_slen s) (s_flags s) (s_conn s) v (s_listenports s) (s_forced_poll s) (s_udp_conn s) (s_udp_conns s) (s_ipid s) (s_iss s) (s_lastport s) (s_hostaddr s) (s_draddr s) (s_netmask s) (s_ethaddr s) (s_app s).
Definition set_listenports (v : list Z) (s : stack A) : stack A := Stack (s_buf s) (s_appdata s) (s_sappdata s) (s_len s) (s_slen s) (s_flags s) (s_conn s) (s_conns s) v (s_forced_poll s) (s_udp_conn s) (s_udp_conns s) (s_ipid s) (s_iss s) (s_lastport s) (s_hostaddr s) (s_draddr s) (s_netmask s) (s_ethaddr s) (s_app s).
Definition set_forced_poll (v : bool) (s : stack A) : stack A := Stack (s_buf s) (s_appdata s) (s_sappdata s) (s_len s) (s_slen s) (s_flags s) (s_conn s) (s_conns s) (s_listenports s) v (s_udp_conn s) (s_udp_conns s) (s_ipid s) (s_iss s) (s_lastport s) (s_hostaddr s) (s_draddr s) (s_netmask s) (s_ethaddr s) (s_app s).
Definition set_udp_conn (v : nat) (s : stack A) : stack A := Stack (s_buf s) (s_appdata s) (s_sappdata s) (s_len s) (s_slen s) (s_flags s) (s_conn s) (s_conns s) (s_listenports s) (s_forced_poll s) v (s_udp_conns s) (s_ipid s) (s_iss s) (s_lastport s) (s_hostaddr s) (s_draddr s) (s_netmask s) (s_ethaddr s) (s_app s).
Definition set_udp_conns (v : list uip_udp_conn) (s : stack A) : stack A := Stack (s_buf s) (s_appdata s) (s_sappdata s) (s_len s) (s_slen s) (s_flags s) (s_conn s) (s_conns s) (s_listenports s) (s_forced_poll s) (s_udp_conn s) v (s_ipid s) (s_iss s) (s_lastport s) (s_hostaddr s) (s_draddr s) (s_netmask s) (s_ethaddr s) (s_app s).
Definition set_ipid (v : Z) (s : stack A) : stack A := Stack (s_buf s) (s_appdata s) (s_sappdata s) (s_len s) (s_slen s) (s_flags s) (s_conn s) (s_conns s) (s_listenports s) (s_forced_poll s) (s_udp_conn s) (s_udp_conns s) v (s_iss s) (s_lastport s) (s_hostaddr s) (s_draddr s) (s_netmask s) (s_ethaddr s) (s_app s).
Definition set_iss (v : u8x4) (s : stack A) : stack A := Stack (s_buf s) (s_appdata s) (s_sappdata s) (s_len s) (s_slen s) (s_flags s) (s_conn s) (s_conns s) (s_listenports s) (s_forced_poll s) (s_udp_conn s) (s_udp_conns s) (s_ipid s) v (s_lastport s) (s_hostaddr s) (s_draddr s) (s_netmask s) (s_ethaddr s) (s_app s).
Definition set_lastport (v : Z) (s : stack A) : stack A := Stack (s_buf s) (s_appdata s) (s_sappdata s) (s_len s) (s_slen s) (s_flags s) (s_conn s) (s_conns s) (s_listenports s) (s_forced_poll s) (s_udp_conn s) (s_udp_conns s) (s_ipid s) (s_iss s) v (s_hostaddr s) (s_draddr s) (s_netmask s) (s_ethaddr s) (s_app s).
Definition set_hostaddr (v : ipaddr) (s : stack A) : stack A := Stack (s_buf s) (s_appdata s) (s_sappdata s) (s_len s) (s_slen s) (s_flags s) (s_conn s) (s_conns s) (s_listenports s) (s_forced_poll s) (s_udp_conn s) (s_udp_conns s) (s_ipid s) (s_iss s) (s_lastport s) v (s_draddr s) (s_netmask s) (s_ethaddr s) (s_app s).
Definition set_draddr (v : ipaddr) (s : stack A) : stack A := Stack (s_buf s) (s_appdata s) (s_sappdata s) (s_len s) (s_slen s) (s_flags s) (s_conn s) (s_conns s) (s_listenports s) (s_forced_poll s) (s_udp_conn s) (s_udp_conns s) (s_ipid s) (s_iss s) (s_lastport s) (s_hostaddr s) v (s_netmask s) (s_ethaddr s) (s_app s).
Definition set_netmask (v : ipaddr) (s : stack A) : stack A := Stack (s_buf s) (s_appdata s) (s_sappdata s) (s_len s) (s_slen s) (s_flags s) (s_conn s) (s_conns s) (s_listenports s) (s_forced_poll s) (s_udp_conn s) (s_udp_conns s) (s_ipid s) (s_iss s) (s_lastport s) (s_hostaddr s) (s_draddr s) v (s_ethaddr s) (s_app s).
Definition set_ethaddr (v : mem) (s : stack A) : stack A := Stack (s_buf s) (s_appdata s) (s_sappdata s) (s_len s) (s_slen s) (s_flags s) (s_conn s) (s_conns s) (s_listenports s) (s_forced_poll s) (s_udp_conn s) (s_udp_conns s) (s_ipid s) (s_iss s) (s_lastport s) (s_hostaddr s) (s_draddr s) (s_netmask s) v (s_app s).
Definition set_app (v : A) (s : stack A) : stack A := Stack (s_buf s) (s_appdata s) (s_sappdata s) (s_len s) (s_slen s) (s_flags s) (s_conn s) (s_conns s) (s_listenports s) (s_forced_poll s) (s_udp_conn s) (s_udp_conns s) (s_ipid s) (s_iss s) (s_lastport s) (s_hostaddr s) (s_draddr s) (s_netmask s) (s_ethaddr s) v.
End setters.

Definition with_ripaddr (v : ipaddr) (c : uip_conn) : uip_conn := UipConn v (lport c) (rport c) (rcv_nxt c) (snd_nxt c) (c_len c) (mss c) (initialmss c) (sa c) (sv c) (rto c) (tcpstateflags c) (timer c) (nrtx c).
Definition with_lport (v : Z) (c : uip_conn) : uip_conn := UipConn (ripaddr c) v (rport c) (rcv_nxt c) (snd_nxt c) (c_len c) (mss c) (initialmss c) (sa c) (sv c) (rto c) (tcpstateflags c) (timer c) (nrtx c).
Definition with_rport (v : Z) (c : uip_conn) : uip_conn := UipConn (ripaddr c) (lport c) v (rcv_nxt c) (snd_nxt c) (c_len c) (mss c) (initialmss c) (sa c) (sv c) (rto c) (tcpstateflags c) (timer c) (nrtx c).
Definition with_rcv_nxt (v : u8x4) (c : uip_conn) : uip_conn := UipConn (ripaddr c) (lport c) (rport c) v (snd_nxt c) (c_len c) (mss c) (initialmss c) (sa c) (sv c) (rto c) (tcpstateflags c) (timer c) (nrtx c).
Definition with_snd_nxt (v : u8x4) (c : uip_conn) : uip_conn := UipConn (ripaddr c) (lport c) (rport c) (rcv_nxt c) v (c_len c) (mss c) (initialmss c) (sa c) (sv c) (rto c) (tcpstateflags c) (timer c) (nrtx c).
Definition with_len (v : Z) (c : uip_conn) : uip_conn := UipConn (ripaddr c) (lport c) (rport c) (rcv_nxt c) (snd_nxt c) v (mss c) (initialmss c) (sa c) (sv c) (rto c) (tcpstateflags c) (timer c) (nrtx c).
Definition with_mss (v : Z) (c : uip_conn) : uip_conn := UipConn (ripaddr c) (lport c) (rport c) (rcv_nxt c) (snd_nxt c) (c_len c) v (initialmss c) (sa c) (sv c) (rto c) (tcpstateflags c) (timer c) (nrtx c).
Definition with_initialmss (v : Z) (c : uip_conn) : uip_conn := UipConn (ripaddr c) (lport c) (rport c) (rcv_nxt c) (snd_nxt c) (c_len c) (mss c) v (sa c) (sv c) (rto c) (tcpstateflags c) (timer c) (nrtx c).
Definition with_sa (v : Z) (c : uip_conn) : uip_conn := UipConn (ripaddr c) (lport c) (rport c) (rcv_nxt c) (snd_nxt c) (c_len c) (mss c) (initialmss c) v (sv c) (rto c) (tcpstateflags c) (timer c) (nrtx c).
Definition with_sv (v : Z) (c : uip_conn) : uip_conn := UipConn (ripaddr c) (lport c) (rport c) (rcv_nxt c) (snd_nxt c) (c_len c) (mss c) (initialmss c) (sa c) v (rto c) (tcpstateflags c) (timer c) (nrtx c).
Definition with_rto (v : Z) (c : uip_conn) : uip_conn := UipConn (ripaddr c) (lport c) (rport c) (rcv_nxt c) (snd_nxt c) (c_len c) (mss c) (initialmss c) (sa c) (sv c) v (tcpstateflags c) (timer c) (nrtx c).
Definition with_tcpstateflags (v : Z) (c : uip_conn) : uip_conn := UipConn (ripaddr c) (lport c) (rport c) (rcv_nxt c) (snd_nxt c) (c_len c) (mss c) (initialmss c) (sa c) (sv c) (rto c) v (timer c) (nrtx c).
Definition with_timer (v : Z) (c : uip_conn) : uip_conn := UipConn (ripaddr c) (lport c) (rport c) (rcv_nxt c) (snd_nxt c) (c_len c) (mss c) (initialmss c) (sa c) (sv c) (rto c) (tcpstateflags c) v (nrtx c).
Definition with_nrtx (v : Z) (c : uip_conn) : uip_conn := UipConn (ripaddr c) (lport c) (rport c) (rcv_nxt c) (snd_nxt c) (c_len c) (mss c) (initialmss c) (sa c) (sv c) (rto c) (tcpstateflags c) (timer c) v.

(** ** Constants *)

Definition UIP_DATA := 1.
Definition UIP_TIMER := 2.
Definition UIP_POLL_REQUEST := 3.
Definition UIP_UDP_SEND_CONN := 4.
Definition UIP_UDP_TIMER := 5.

Definition UIP_CLOSED := 0.
Definition UIP_SYN_RCVD := 1.
Definition UIP_SYN_SENT := 2.
Definition UIP_ESTABLISHED := 3.
Definition UIP_FIN_WAIT_1 := 4.
Definition UIP_FIN_WAIT_2 := 5.
Definition UIP_CLOSING := 6.
Definition UIP_TIME_WAIT := 7.
Definition UIP_LAST_ACK := 8.
Definition UIP_RESERVED := 9.
Definition UIP_TS_MASK := 15.
Definition UIP_STOPPED := 16.

Definition TCP_FIN := 1.
Definition TCP_SYN := 2.
Definition TCP_RST := 4.
Definition TCP_PSH := 8.
Definition TCP_ACK := 16.
Definition TCP_URG := 32.
Definition TCP_CTL := 63.

Definition TCP_OPT_END := 0.
Definition TCP_OPT_NOOP := 1.
Definition TCP_OPT_MSS := 2.
Definition TCP_OPT_MSS_LEN := 4.

Definition ICMP_ECHO_REPLY := 0.
Definition ICMP_ECHO := 8.

Definition UIP_PROTO_ICMP := 1.
Definition UIP_PROTO_TCP := 6.
Definition UIP_PROTO_UDP := 17.

Definition UIP_LLH_LEN := 14.
Definition UIP_IPH_LEN := 20.
Definition UIP_UDPH_LEN := 8.
Definition UIP_TCPH_LEN := 20.
Definition UIP_IPUDPH_LEN := UIP_UDPH_LEN + UIP_IPH_LEN.
Definition UIP_IPTCPH_LEN := UIP_TCPH_LEN + UIP_IPH_LEN.
Definition UIP_TCPIP_HLEN := UIP_IPTCPH_LEN.

Definition UIP_TTL := 64.
Definition UIP_RTO := 3.
Definition UIP_MAXRTX := 8.
Definition UIP_MAXSYNRTX := 5.
Definition UIP_TIME_WAIT_TIMEOUT := 120.

Definition all_ones_addr : ipaddr := (65535, 65535).
Definition all_zeroes_addr : ipaddr := (0, 0).

(** The fields of the headers, from the beginning of the IP header. *)
Definition f_vhl := 0.
Definition f_tos := 1.
Definition f_len := 2.
Definition f_ipid := 4.
Definition f_ipoffset := 6.
Definition f_ttl := 8.
Definition f_proto := 9.
Definition f_ipchksum := 10.
Definition f_srcipaddr := 12.
Definition f_destipaddr := 16.
Definition f_srcport := 20.
Definition f_destport := 22.
Definition f_seqno := 24.
Definition f_ackno := 28.
Definition f_tcpoffset := 32.
Definition f_flags := 33.
Definition f_wnd := 34.
Definition f_tcpchksum := 36.
Definition f_urgp := 38.
Definition f_optdata := 40.
Definition f_udplen := 24.
Definition f_udpchksum := 26.
Definition f_type := 20.
Definition f_icmpchksum := 22.

Definition bits (x m : Z) : bool := ctrue (Z.land x m).

Section uip.
Context {conf : UipConf} {A : Type}.
Abbreviation St := (stack A).

Definition UIP_TCP_MSS : Z := UIP_BUFSIZE - UIP_LLH_LEN - UIP_TCPIP_HLEN.
Definition UIP_RECEIVE_WINDOW : Z := UIP_TCP_MSS.

Definition HTONS (n : Z) : Z := if uip_little then u16 (Z.lor (Z.shiftl (u16 n) 8) (Z.shiftr (u16 n) 8)) else n.
Definition htons (val : Z) : Z := HTONS val.

(** ** Fields *)

Definition get8 (s : St) (o : Z) : Z := default 0 (s_buf s !! Z.to_nat (UIP_LLH_LEN + o)).
Definition put8 (o v : Z) (s : St) : St := set_buf (<[Z.to_nat (UIP_LLH_LEN + o) := u8 v]> (s_buf s)) s.

Definition get16 (s : St) (o : Z) : Z :=
  if uip_little then get8 s o + 256 * get8 s (o + 1) else 256 * get8 s o + get8 s (o + 1).
Definition put16 (o v : Z) (s : St) : St :=
  if uip_little then put8 (o + 1) (v / 256) (put8 o v s) else put8 (o + 1) v (put8 o (v / 256) s).

Definition get32 (s : St) (o : Z) : u8x4 := (get8 s o, get8 s (o + 1), get8 s (o + 2), get8 s (o + 3)).
Definition put32 (o : Z) (x : u8x4) (s : St) : St :=
  let '(a, b, c, d) := x in put8 (o + 3) d (put8 (o + 2) c (put8 (o + 1) b (put8 o a s))).

Definition get_ip (s : St) (o : Z) : ipaddr := (get16 s o, get16 s (o + 2)).
Definition put_ip (o : Z) (a : ipaddr) (s : St) : St := put16 (o + 2) a.2 (put16 o a.1 s).

Definition uip_ipaddr_cmp (a b : ipaddr) : bool := (a.1 =? b.1) && (a.2 =? b.2).

(** A flag of [uip_flags]. *)
Definition uflag (s : St) (f : Z) : bool := bits (s_flags s) f.

Definition mod_conn (i : nat) (f : uip_conn → uip_conn) (s : St) : St := set_conns (alter f i (s_conns s)) s.

(** ** Checksums *)

Definition uip_ipchksum (s : St) : Z :=
  let sum := chksum 0 (take (Z.to_nat UIP_IPH_LEN) (drop (Z.to_nat UIP_LLH_LEN) (s_buf s))) in
  if sum =? 0 then 65535 else htons sum.

Definition upper_layer_chksum (proto : Z) (s : St) : option Z :=
  let upper_layer_len := u16 (Z.shiftl (get8 s f_len) 8 + get8 s (f_len + 1) - UIP_IPH_LEN) in
  let sum := u16 (upper_layer_len + proto) in
  let sum := chksum sum (take 8 (drop (Z.to_nat (UIP_LLH_LEN + f_srcipaddr)) (s_buf s))) in
  data ← mread (s_buf s) (UIP_IPH_LEN + UIP_LLH_LEN) upper_layer_len;
  let sum := chksum sum data in
  Some (if sum =? 0 then 65535 else htons sum).

Definition uip_tcpchksum : St → option Z := upper_layer_chksum UIP_PROTO_TCP.
Definition uip_udpchksum : St → option Z := upper_layer_chksum UIP_PROTO_UDP.

(** ** The end of [uip_process]: sending *)

Definition drop_packet (s : St) : option St := Some (set_flags 0 (set_len 0 s)).

Definition send (s : St) : option St := Some (set_flags 0 s).

Definition ip_send_nolen (s : St) : option St :=
  let s := put8 f_vhl 69 s in
  let s := put8 f_tos 0 s in
  let s := put8 f_ipoffset 0 (put8 (f_ipoffset + 1) 0 s) in
  let s := set_ipid (u16 (s_ipid s + 1)) s in
  let s := put8 f_ipid (Z.shiftr (s_ipid s) 8) s in
  let s := put8 (f_ipid + 1) (Z.land (s_ipid s) 255) s in
  let s := put16 f_ipchksum 0 s in
  let s := put16 f_ipchksum (u16 (Z.lnot (uip_ipchksum s))) s in
  send s.

Definition tcp_send_noconn (s : St) : option St :=
  let s := put8 f_ttl UIP_TTL s in
  let s := put8 f_len (Z.shiftr (s_len s) 8) s in
  let s := put8 (f_len + 1) (Z.land (s_len s) 255) s in
  let s := put8 f_urgp 0 (put8 (f_urgp + 1) 0 s) in
  let s := put16 f_tcpchksum 0 s in
  x ← uip_tcpchksum s;
  ip_send_nolen (put16 f_tcpchksum (u16 (Z.lnot x)) s).

(** From here on the connection [uip_connr] is [i]. *)
Definition tcp_send (i : nat) (s : St) : option St :=
  c ← s_conns s !! i;
  let s := put32 f_ackno (rcv_nxt c) s in
  let s := put32 f_seqno (snd_nxt c) s in
  let s := put8 f_proto UIP_PROTO_TCP s in
  let s := put16 f_srcport (lport c) s in
  let s := put16 f_destport (rport c) s in
  let s := put_ip f_srcipaddr (s_hostaddr s) s in
  let s := put_ip f_destipaddr (ripaddr c) s in
  let s := if bits (tcpstateflags c) UIP_STOPPED then put8 f_wnd 0 (put8 (f_wnd + 1) 0 s)
           else put8 (f_wnd + 1) (Z.land UIP_RECEIVE_WINDOW 255) (put8 f_wnd (Z.shiftr UIP_RECEIVE_WINDOW 8) s) in
  tcp_send_noconn s.

Definition tcp_send_noopts (i : nat) (s : St) : option St := tcp_send i (put8 f_tcpoffset (Z.shiftl (UIP_TCPH_LEN / 4) 4) s).

Definition tcp_send_nodata (i : nat) (s : St) : option St := tcp_send_noopts i (set_len UIP_IPTCPH_LEN s).

Definition tcp_send_ack (i : nat) (s : St) : option St := tcp_send_nodata i (put8 f_flags TCP_ACK s).

Definition tcp_send_finack (i : nat) (s : St) : option St := tcp_send_nodata i (put8 f_flags (Z.lor TCP_FIN TCP_ACK) s).

Definition tcp_send_syn (i : nat) (s : St) : option St :=
  let s := put8 f_flags (Z.lor (get8 s f_flags) TCP_SYN) s in
  let s := put8 f_optdata TCP_OPT_MSS s in
  let s := put8 (f_optdata + 1) TCP_OPT_MSS_LEN s in
  let s := put8 (f_optdata + 2) (UIP_TCP_MSS / 256) s in
  let s := put8 (f_optdata + 3) (Z.land UIP_TCP_MSS 255) s in
  let s := set_len (UIP_IPTCPH_LEN + TCP_OPT_MSS_LEN) s in
  tcp_send i (put8 f_tcpoffset (Z.shiftl ((UIP_TCPH_LEN + TCP_OPT_MSS_LEN) / 4) 4) s).

Definition tcp_send_synack (i : nat) (s : St) : option St := tcp_send_syn i (put8 f_flags TCP_ACK s).

(** The reset of a segment that belongs to no connection. *)
Definition reset (s : St) : option St :=
  if bits (get8 s f_flags) TCP_RST then drop_packet s
  else
    let s := put8 f_flags (Z.lor TCP_RST TCP_ACK) s in
    let s := set_len UIP_IPTCPH_LEN s in
    let s := put8 f_tcpoffset (Z.shiftl 5 4) s in
    let seqno := get32 s f_seqno in
    let s := put32 f_seqno (get32 s f_ackno) s in
    let s := put32 f_ackno (incr32 seqno) s in
    let tmp16 := get16 s f_srcport in
    let s := put16 f_srcport (get16 s f_destport) s in
    let s := put16 f_destport tmp16 s in
    let s := put_ip f_destipaddr (get_ip s f_srcipaddr) s in
    let s := put_ip f_srcipaddr (s_hostaddr s) s in
    tcp_send_noconn s.

Definition udp_send (s : St) : option St :=
  if s_slen s =? 0 then drop_packet s
  else
    u ← s_udp_conns s !! s_udp_conn s;
    let s := set_len (u16 (s_slen s + UIP_IPUDPH_LEN)) s in
    let s := put8 f_len (Z.shiftr (s_len s) 8) s in
    let s := put8 (f_len + 1) (Z.land (s_len s) 255) s in
    let s := put8 f_ttl (u_ttl u) s in
    let s := put8 f_proto UIP_PROTO_UDP s in
    let s := put16 f_udplen (HTONS (s_slen s + UIP_UDPH_LEN)) s in
    let s := put16 f_udpchksum 0 s in
    let s := put16 f_srcport (u_lport u) s in
    let s := put16 f_destport (u_rport u) s in
    let s := put_ip f_srcipaddr (s_hostaddr s) s in
    let s := put_ip f_destipaddr (u_ripaddr u) s in
    let s := set_appdata (UIP_LLH_LEN + UIP_IPTCPH_LEN) s in
    x ← uip_udpchksum s;
    let s := put16 f_udpchksum (u16 (Z.lnot x)) s in
    let s := if get16 s f_udpchksum =? 0 then put16 f_udpchksum 65535 s else s in
    ip_send_nolen s.

(** ** After a call of the application *)

Definition apprexmit (i : nat) (s : St) : option St :=
  let s := set_appdata (s_sappdata s) s in
  c ← s_conns s !! i;
  if (0 <? s_slen s) && (0 <? c_len c) then
    let s := set_len (u16 (c_len c + UIP_TCPIP_HLEN)) s in
    tcp_send_noopts i (put8 f_flags (Z.lor TCP_ACK TCP_PSH) s)
  else if uflag s UIP_NEWDATA then tcp_send_noopts i (put8 f_flags TCP_ACK (set_len UIP_TCPIP_HLEN s))
  else drop_packet s.

(** How much the application may send: the outstanding data again, or at most the segment size. *)
Definition limit_slen (i : nat) (s : St) : option St :=
  if 0 <? s_slen s then
    let s := if uflag s UIP_ACKDATA then mod_conn i (with_len 0) s else s in
    c ← s_conns s !! i;
    if c_len c =? 0 then
      let s := if mss c <? s_slen s then set_slen (mss c) s else s in
      Some (mod_conn i (with_len (s_slen s)) s)
    else Some (set_slen (c_len c) s)
  else Some s.

Definition appsend (i : nat) (s : St) : option St :=
  if uflag s UIP_ABORT then
    let s := mod_conn i (with_tcpstateflags UIP_CLOSED) (set_slen 0 s) in
    tcp_send_nodata i (put8 f_flags (Z.lor TCP_RST TCP_ACK) s)
  else if uflag s UIP_CLOSE then
    let s := mod_conn i (λ c, with_nrtx 0 (with_tcpstateflags UIP_FIN_WAIT_1 (with_len 1 c))) (set_slen 0 s) in
    tcp_send_nodata i (put8 f_flags (Z.lor TCP_FIN TCP_ACK) s)
  else
    s ← limit_slen i s;
    apprexmit i (mod_conn i (with_nrtx 0) s).

(** ** Options of a SYN *)

(** The loop over the options, from [c] on: the size in an MSS option. *)
Fixpoint mss_option (fuel : nat) (s : St) (c : Z) : option (option Z) :=
  match fuel with
  | O => None
  | S fuel =>
      if c <? Z.shiftl (Z.shiftr (get8 s f_tcpoffset) 4 - 5) 2 then
        let at_ o := ld (s_buf s) (UIP_TCPIP_HLEN + UIP_LLH_LEN + o + c) in
        opt ← at_ 0;
        if opt =? TCP_OPT_END then Some None
        else if opt =? TCP_OPT_NOOP then mss_option fuel s (u8 (c + 1))
        else
          l ← at_ 1;
          if (opt =? TCP_OPT_MSS) && (l =? TCP_OPT_MSS_LEN) then
            hi ← at_ 2; lo ← at_ 3; Some (Some (Z.lor (Z.shiftl hi 8) lo))
          else if l =? 0 then Some None
          else mss_option fuel s (u8 (c + l))
      else Some None
  end.

Definition parse_mss (fuel : nat) (i : nat) (s : St) : option St :=
  if 80 <? Z.land (get8 s f_tcpoffset) 240 then
    m ← mss_option fuel s 0;
    match m with
    | None => Some s
    | Some tmp16 =>
        let v := if UIP_TCP_MSS <? tmp16 then UIP_TCP_MSS else tmp16 in
        Some (mod_conn i (λ c, with_initialmss v (with_mss v c)) s)
    end
  else Some s.

(** ** New connections *)

(** The first closed connection, or the one that has been in TIME_WAIT for the longest time. *)
Fixpoint unused_conn (cs : list uip_conn) (i : nat) (found : option (nat * Z)) : option nat :=
  match cs with
  | [] => fst <$> found
  | c :: cs =>
      if tcpstateflags c =? UIP_CLOSED then Some i
      else if (tcpstateflags c =? UIP_TIME_WAIT) && (match found with None => true | Some (_, t) => t <? timer c end)
      then unused_conn cs (S i) (Some (i, timer c))
      else unused_conn cs (S i) found
  end.

Definition found_listen (fuel : nat) (s : St) : option St :=
  match unused_conn (s_conns s) 0 None with
  | None => drop_packet s
  | Some i =>
      let s := set_conn (Some i) s in
      let new c := UipConn (get_ip s f_srcipaddr) (get16 s f_destport) (get16 s f_srcport)
                     (uip_add32 (get32 s f_seqno) 1) (s_iss s) 1 (mss c) (initialmss c) 0 4 UIP_RTO UIP_SYN_RCVD UIP_RTO 0 in
      let s := mod_conn i new s in
      s ← parse_mss fuel i s;
      tcp_send_synack i s
  end.
End uip.

(** ** The application *)

Section process.
Context {conf : UipConf} {A : Type} (UIP_APPCALL UIP_UDP_APPCALL : stack A → option (stack A)).
Abbreviation St := (stack A).

(** ** Segments of a connection *)

(** The estimation of the round-trip time, in [signed char]. *)
Definition rtt_estimation (c : uip_conn) : uip_conn :=
  if nrtx c =? 0 then
    let m := s8 (rto c - timer c) in
    let m := s8 (m - Z.shiftr (sa c) 3) in
    let c := with_sa (u8 (sa c + m)) c in
    let m := if m <? 0 then s8 (- m) else m in
    let m := s8 (m - Z.shiftr (sv c) 2) in
    let c := with_sv (u8 (sv c + m)) c in
    with_rto (u8 (Z.shiftr (sa c) 3 + sv c)) c
  else c.

(** An acknowledgment of all the outstanding data. *)
Definition check_ack (i : nat) (s : St) : option St :=
  c ← s_conns s !! i;
  if bits (get8 s f_flags) TCP_ACK && negb (c_len c =? 0) then
    let acc32 := uip_add32 (snd_nxt c) (c_len c) in
    if bool_decide (get32 s f_ackno = acc32) then
      let s := mod_conn i (λ c, let c := rtt_estimation (with_snd_nxt acc32 c) in with_len 0 (with_timer (rto c) c)) s in
      Some (set_flags UIP_ACKDATA s)
    else Some s
  else Some s.

Definition uip_add_rcv_nxt (i : nat) (n : Z) (s : St) : St := mod_conn i (λ c, with_rcv_nxt (uip_add32 (rcv_nxt c) (u16 n)) c) s.

Definition set_state (i : nat) (t : Z) (s : St) : St := mod_conn i (with_tcpstateflags t) s.

Definition add_flags (f : Z) (s : St) : St := set_flags (Z.lor (s_flags s) f) s.

Definition on_syn_rcvd (i : nat) (s : St) : option St :=
  if uflag s UIP_ACKDATA then
    let s := set_state i UIP_ESTABLISHED s in
    let s := set_flags UIP_CONNECTED s in
    let s := mod_conn i (with_len 0) s in
    let s := if 0 <? s_len s then uip_add_rcv_nxt i (s_len s) (add_flags UIP_NEWDATA s) else s in
    s ← UIP_APPCALL (set_slen 0 s);
    appsend i s
  else drop_packet s.

Definition on_syn_sent (fuel : nat) (i : nat) (s : St) : option St :=
  if uflag s UIP_ACKDATA && (Z.land (get8 s f_flags) TCP_CTL =? Z.lor TCP_SYN TCP_ACK) then
    s ← parse_mss fuel i s;
    let s := set_state i UIP_ESTABLISHED s in
    let s := mod_conn i (with_rcv_nxt (get32 s f_seqno)) s in
    let s := uip_add_rcv_nxt i 1 s in
    let s := set_flags (Z.lor UIP_CONNECTED UIP_NEWDATA) s in
    let s := mod_conn i (with_len 0) s in
    s ← UIP_APPCALL (set_slen 0 (set_len 0 s));
    appsend i s
  else
    s ← UIP_APPCALL (set_flags UIP_ABORT s);
    reset (set_state i UIP_CLOSED s).

(** The window of the other end limits the segment size. *)
Definition set_mss (i : nat) (s : St) : option St :=
  c ← s_conns s !! i;
  let tmp16 := u16 (Z.shiftl (get8 s f_wnd) 8 + get8 s (f_wnd + 1)) in
  let tmp16 := if (initialmss c <? tmp16) || (tmp16 =? 0) then initialmss c else tmp16 in
  Some (mod_conn i (with_mss tmp16) s).

Definition on_established (i : nat) (s : St) : option St :=
  c ← s_conns s !! i;
  let stopped := bits (tcpstateflags c) UIP_STOPPED in
  if bits (get8 s f_flags) TCP_FIN && negb stopped then
    if negb (c_len c =? 0) then drop_packet s
    else
      let s := uip_add_rcv_nxt i (1 + s_len s) s in
      let s := add_flags UIP_CLOSE s in
      let s := if 0 <? s_len s then add_flags UIP_NEWDATA s else s in
      s ← UIP_APPCALL s;
      let s := mod_conn i (λ c, with_nrtx 0 (with_tcpstateflags UIP_LAST_ACK (with_len 1 c))) s in
      tcp_send_finack i s
  else
    let urgp := Z.lor (Z.shiftl (get8 s f_urgp) 8) (get8 s (f_urgp + 1)) in
    let s := if bits (get8 s f_flags) TCP_URG then set_len (u16 (s_len s - urgp)) (set_appdata (s_appdata s + urgp) s) else s in
    let s := if (0 <? s_len s) && negb stopped then uip_add_rcv_nxt i (s_len s) (add_flags UIP_NEWDATA s) else s in
    s ← set_mss i s;
    if uflag s UIP_NEWDATA || uflag s UIP_ACKDATA then
      s ← UIP_APPCALL (set_slen 0 s);
      appsend i s
    else drop_packet s.

Definition on_last_ack (i : nat) (s : St) : option St :=
  if uflag s UIP_ACKDATA then
    s ← UIP_APPCALL (set_flags UIP_CLOSE (set_state i UIP_CLOSED s));
    drop_packet s
  else drop_packet s.

(** The other end's FIN, after ours. *)
Definition peer_closes (i : nat) (s : St) : option St :=
  s ← UIP_APPCALL (set_flags UIP_CLOSE (uip_add_rcv_nxt i 1 s));
  tcp_send_ack i s.

Definition on_fin_wait_1 (i : nat) (s : St) : option St :=
  let s := if 0 <? s_len s then uip_add_rcv_nxt i (s_len s) s else s in
  if bits (get8 s f_flags) TCP_FIN then
    let s := if uflag s UIP_ACKDATA then mod_conn i (λ c, with_len 0 (with_timer 0 (with_tcpstateflags UIP_TIME_WAIT c))) s
             else set_state i UIP_CLOSING s in
    peer_closes i s
  else if uflag s UIP_ACKDATA then drop_packet (mod_conn i (λ c, with_len 0 (with_tcpstateflags UIP_FIN_WAIT_2 c)) s)
  else if 0 <? s_len s then tcp_send_ack i s
  else drop_packet s.

Definition on_fin_wait_2 (i : nat) (s : St) : option St :=
  let s := if 0 <? s_len s then uip_add_rcv_nxt i (s_len s) s else s in
  if bits (get8 s f_flags) TCP_FIN then
    peer_closes i (mod_conn i (λ c, with_timer 0 (with_tcpstateflags UIP_TIME_WAIT c)) s)
  else if 0 <? s_len s then tcp_send_ack i s
  else drop_packet s.

Definition on_closing (i : nat) (s : St) : option St :=
  if uflag s UIP_ACKDATA then drop_packet (mod_conn i (λ c, with_timer 0 (with_tcpstateflags UIP_TIME_WAIT c)) s)
  else drop_packet s.

Definition by_state (fuel : nat) (i : nat) (s : St) : option St :=
  c ← s_conns s !! i;
  let t := Z.land (tcpstateflags c) UIP_TS_MASK in
  if t =? UIP_SYN_RCVD then on_syn_rcvd i s
  else if t =? UIP_SYN_SENT then on_syn_sent fuel i s
  else if t =? UIP_ESTABLISHED then on_established i s
  else if t =? UIP_LAST_ACK then on_last_ack i s
  else if t =? UIP_FIN_WAIT_1 then on_fin_wait_1 i s
  else if t =? UIP_FIN_WAIT_2 then on_fin_wait_2 i s
  else if t =? UIP_TIME_WAIT then tcp_send_ack i s
  else if t =? UIP_CLOSING then on_closing i s
  else drop_packet s.

(** A segment that is not the next one, of those that have a place in the stream. *)
Definition out_of_order (c : uip_conn) (s : St) : bool :=
  negb ((Z.land (tcpstateflags c) UIP_TS_MASK =? UIP_SYN_SENT) && (Z.land (get8 s f_flags) TCP_CTL =? Z.lor TCP_SYN TCP_ACK)) &&
  ((0 <? s_len s) || bits (get8 s f_flags) (Z.lor TCP_SYN TCP_FIN)) && negb (bool_decide (get32 s f_seqno = rcv_nxt c)).

Definition found (fuel : nat) (i : nat) (s : St) : option St :=
  let s := set_flags 0 (set_conn (Some i) s) in
  if bits (get8 s f_flags) TCP_RST then
    s ← UIP_APPCALL (set_flags UIP_ABORT (set_state i UIP_CLOSED s));
    drop_packet s
  else
    let c := u8 (Z.shiftl (Z.shiftr (get8 s f_tcpoffset) 4) 2) in
    let s := set_len (u16 (s_len s - c - UIP_IPH_LEN)) s in
    cn ← s_conns s !! i;
    if out_of_order cn s then tcp_send_ack i s
    else s ← check_ack i s; by_state fuel i s.

(** ** Input *)

(** A connection that the segment belongs to. *)
Fixpoint find_conn (s : St) (cs : list uip_conn) (i : nat) : option nat :=
  match cs with
  | [] => None
  | c :: cs =>
      if negb (tcpstateflags c =? UIP_CLOSED) && negb (tcpstateflags c =? UIP_RESERVED) && (get16 s f_destport =? lport c) &&
         (get16 s f_srcport =? rport c) && uip_ipaddr_cmp (get_ip s f_srcipaddr) (ripaddr c)
      then Some i
      else find_conn s cs (S i)
  end.

Definition tcp_input (fuel : nat) (s : St) : option St :=
  x ← uip_tcpchksum s;
  if negb (x =? 65535) then drop_packet s
  else
    match find_conn s (s_conns s) 0 with
    | Some i => found fuel i s
    | None =>
        if negb (Z.land (get8 s f_flags) TCP_CTL =? TCP_SYN) then reset s
        else if bool_decide (get16 s f_destport ∈ s_listenports s) then found_listen fuel s
        else reset s
    end.

Fixpoint find_udp (s : St) (us : list uip_udp_conn) (i : nat) : option nat :=
  match us with
  | [] => None
  | u :: us =>
      if negb (u_lport u =? 0) && (get16 s f_destport =? u_lport u) &&
         ((u_rport u =? 0) || (get16 s f_srcport =? u_rport u) || (u_rport u =? HTONS 69)) &&
         (uip_ipaddr_cmp (u_ripaddr u) all_zeroes_addr || uip_ipaddr_cmp (u_ripaddr u) all_ones_addr || uip_ipaddr_cmp (get_ip s f_srcipaddr) (u_ripaddr u))
      then Some i
      else find_udp s us (S i)
  end.

Definition udp_input (s : St) : option St :=
  let s := set_len (u16 (s_len s - UIP_IPUDPH_LEN)) s in
  let s := set_appdata (UIP_LLH_LEN + UIP_IPUDPH_LEN) s in
  ok ← (if get16 s f_udpchksum =? 0 then Some true else x ← uip_udpchksum s; Some (x =? 65535));
  if negb ok then drop_packet s
  else
    match find_udp s (s_udp_conns s) 0 with
    | None => drop_packet s
    | Some i =>
        let s := set_conn None (set_udp_conn i s) in
        let s := set_flags UIP_NEWDATA s in
        let s := set_appdata (UIP_LLH_LEN + UIP_IPUDPH_LEN) (set_sappdata (UIP_LLH_LEN + UIP_IPUDPH_LEN) s) in
        s ← UIP_UDP_APPCALL (set_slen 0 s);
        udp_send s
    end.

Definition icmp_input (s : St) : option St :=
  if negb (get8 s f_proto =? UIP_PROTO_ICMP) then drop_packet s
  else if negb (get8 s f_type =? ICMP_ECHO) then drop_packet s
  else
    let s := put8 f_type ICMP_ECHO_REPLY s in
    let sum := get16 s f_icmpchksum in
    let s := if HTONS (65535 - Z.shiftl ICMP_ECHO 8) <=? sum then put16 f_icmpchksum (u16 (sum + HTONS (Z.shiftl ICMP_ECHO 8) + 1)) s
             else put16 f_icmpchksum (u16 (sum + HTONS (Z.shiftl ICMP_ECHO 8))) s in
    let s := put_ip f_destipaddr (get_ip s f_srcipaddr) s in
    let s := put_ip f_srcipaddr (s_hostaddr s) s in
    send s.

Definition ip_input (fuel : nat) (s : St) : option St :=
  if negb (get8 s f_vhl =? 69) then drop_packet s
  else
    let len := Z.shiftl (get8 s f_len) 8 + get8 s (f_len + 1) in
    if negb (len <=? s_len s) then drop_packet s
    else
      let s := set_len len s in
      if negb (Z.land (get8 s f_ipoffset) 63 =? 0) || negb (get8 s (f_ipoffset + 1) =? 0) then drop_packet s
      else
        let noaddr := uip_ipaddr_cmp (s_hostaddr s) all_zeroes_addr in
        if negb noaddr && (get8 s f_proto =? UIP_PROTO_UDP) && uip_ipaddr_cmp (get_ip s f_destipaddr) all_ones_addr then udp_input s
        else if negb noaddr && negb (uip_ipaddr_cmp (get_ip s f_destipaddr) (s_hostaddr s)) then drop_packet s
        else if negb (uip_ipchksum s =? 65535) then drop_packet s
        else if get8 s f_proto =? UIP_PROTO_TCP then tcp_input fuel s
        else if get8 s f_proto =? UIP_PROTO_UDP then udp_input s
        else icmp_input s.

(** ** Timers *)

Definition retransmit (i : nat) (s : St) : option St :=
  c ← s_conns s !! i;
  let t := Z.land (tcpstateflags c) UIP_TS_MASK in
  if t =? UIP_SYN_RCVD then tcp_send_synack i s
  else if t =? UIP_SYN_SENT then tcp_send_syn i (put8 f_flags 0 s)
  else if t =? UIP_ESTABLISHED then s ← UIP_APPCALL (set_flags UIP_REXMIT s); apprexmit i s
  else if (t =? UIP_FIN_WAIT_1) || (t =? UIP_CLOSING) || (t =? UIP_LAST_ACK) then tcp_send_finack i s
  else drop_packet s.

(** The retransmission timer has run out. *)
Definition timed_out (c : uip_conn) : bool :=
  (nrtx c =? UIP_MAXRTX) || (((tcpstateflags c =? UIP_SYN_SENT) || (tcpstateflags c =? UIP_SYN_RCVD)) && (nrtx c =? UIP_MAXSYNRTX)).

Definition outstanding_timer (i : nat) (s : St) : option St :=
  c ← s_conns s !! i;
  let s := mod_conn i (with_timer (u8 (timer c - 1))) s in
  if timer c =? 0 then
    if timed_out c then
      s ← UIP_APPCALL (set_flags UIP_TIMEDOUT (set_state i UIP_CLOSED s));
      tcp_send_nodata i (put8 f_flags (Z.lor TCP_RST TCP_ACK) s)
    else
      let backoff c := with_nrtx (u8 (nrtx c + 1)) (with_timer (u8 (Z.shiftl UIP_RTO (if 4 <? nrtx c then 4 else nrtx c))) c) in
      retransmit i (mod_conn i backoff s)
  else drop_packet s.

Definition uip_timer (i : nat) (s : St) : option St :=
  let s := set_slen 0 (set_len 0 (set_iss (incr32 (s_iss s)) s)) in
  c ← s_conns s !! i;
  if negb (s_forced_poll s) && ((tcpstateflags c =? UIP_TIME_WAIT) || (tcpstateflags c =? UIP_FIN_WAIT_2)) then
    let t := u8 (timer c + 1) in
    let s := mod_conn i (with_timer t) s in
    drop_packet (if t =? UIP_TIME_WAIT_TIMEOUT then set_state i UIP_CLOSED s else s)
  else if negb (tcpstateflags c =? UIP_CLOSED) && negb (tcpstateflags c =? UIP_RESERVED) then
    if negb (c_len c =? 0) && negb (s_forced_poll s) then outstanding_timer i s
    else if Z.land (tcpstateflags c) UIP_TS_MASK =? UIP_ESTABLISHED then
      s ← UIP_APPCALL (set_flags UIP_POLL s);
      appsend i s
    else drop_packet s
  else drop_packet s.

Definition uip_poll_request (i : nat) (s : St) : option St :=
  c ← s_conns s !! i;
  if (Z.land (tcpstateflags c) UIP_TS_MASK =? UIP_ESTABLISHED) && (c_len c =? 0) then
    s ← UIP_APPCALL (set_flags UIP_POLL s);
    appsend i s
  else drop_packet s.

Definition uip_udp_timer (s : St) : option St :=
  u ← s_udp_conns s !! s_udp_conn s;
  if negb (u_lport u =? 0) then
    let s := set_conn None s in
    let s := set_appdata (UIP_LLH_LEN + UIP_IPUDPH_LEN) (set_sappdata (UIP_LLH_LEN + UIP_IPUDPH_LEN) s) in
    let s := set_slen 0 (set_len 0 s) in
    s ← UIP_UDP_APPCALL (set_flags UIP_POLL s);
    udp_send s
  else drop_packet s.

Definition uip_process (fuel : nat) (flag : Z) (s : St) : option St :=
  if flag =? UIP_UDP_SEND_CONN then udp_send s
  else
    let s := set_appdata (UIP_IPTCPH_LEN + UIP_LLH_LEN) (set_sappdata (UIP_IPTCPH_LEN + UIP_LLH_LEN) s) in
    if flag =? UIP_POLL_REQUEST then i ← s_conn s; uip_poll_request i s
    else if flag =? UIP_TIMER then i ← s_conn s; uip_timer i s
    else if flag =? UIP_UDP_TIMER then uip_udp_timer s
    else ip_input fuel s.

Definition uip_input (fuel : nat) (s : St) : option St := uip_process fuel UIP_DATA s.
Definition uip_periodic (fuel : nat) (conn : nat) (s : St) : option St := uip_process fuel UIP_TIMER (set_conn (Some conn) s).
Definition uip_udp_periodic (fuel : nat) (conn : nat) (s : St) : option St := uip_process fuel UIP_UDP_TIMER (set_udp_conn conn s).
Definition uip_poll_conn (fuel : nat) (conn : nat) (s : St) : option St := uip_process fuel UIP_POLL_REQUEST (set_conn (Some conn) s).
End process.

(** ** Opening *)

Section open.
Context {conf : UipConf} {A : Type}.
Abbreviation St := (stack A).

Definition uip_init (s : St) : St :=
  let s := set_listenports ((λ _, 0) <$> s_listenports s) s in
  let s := set_conns (with_tcpstateflags UIP_CLOSED <$> s_conns s) s in
  let s := set_lastport 1024 s in
  set_udp_conns ((λ u, UipUdpConn (u_ripaddr u) 0 (u_rport u) (u_ttl u)) <$> s_udp_conns s) s.

(** The first entry of a list with a value gets another. *)
Fixpoint replace_first (x y : Z) (l : list Z) : list Z :=
  match l with [] => [] | a :: l => if a =? x then y :: l else a :: replace_first x y l end.

Definition uip_listen (port : Z) (s : St) : St := set_listenports (replace_first 0 port (s_listenports s)) s.
Definition uip_unlisten (port : Z) (s : St) : St := set_listenports (replace_first port 0 (s_listenports s)) s.

Definition port_used (s : St) (p : Z) : bool :=
  existsb (λ c, negb (tcpstateflags c =? UIP_CLOSED) && negb (tcpstateflags c =? UIP_RESERVED) && (lport c =? htons p)) (s_conns s).

Definition next_port (s : St) : Z := let p := u16 (s_lastport s + 1) in if 32000 <=? p then 4096 else p.

Fixpoint uip_find_unused_port (fuel : nat) (s : St) : option St :=
  match fuel with
  | O => None
  | S fuel =>
      let s := set_lastport (next_port s) s in
      if port_used s (s_lastport s) then uip_find_unused_port fuel s else Some s
  end.

Definition uip_prepare_conn (i : nat) (ip : ipaddr) (port : Z) (s : St) : St :=
  mod_conn i (λ c, UipConn ip (htons (s_lastport s)) port (rcv_nxt c) (s_iss s) 1 UIP_TCP_MSS UIP_TCP_MSS 0 16 UIP_RTO UIP_SYN_SENT 1 0) s.

(** The connection, if there was one left. *)
Definition uip_connect (fuel : nat) (ip : ipaddr) (port : Z) (s : St) : option (St * option nat) :=
  s ← uip_find_unused_port fuel s;
  match unused_conn (s_conns s) 0 None with
  | None => Some (s, None)
  | Some i => Some (uip_prepare_conn i ip port s, Some i)
  end.

Definition uip_connect_socket (fuel : nat) (i : nat) (ip : ipaddr) (port : Z) (s : St) : option (St * option nat) :=
  c ← s_conns s !! i;
  if negb (tcpstateflags c =? UIP_RESERVED) then Some (s, None)
  else s ← uip_find_unused_port fuel s; Some (uip_prepare_conn i ip port s, Some i).

Definition udp_port_used (s : St) (p : Z) : bool := existsb (λ u, u_lport u =? htons p) (s_udp_conns s).

Fixpoint udp_unused_port (fuel : nat) (s : St) : option St :=
  match fuel with
  | O => None
  | S fuel =>
      let s := set_lastport (next_port s) s in
      if udp_port_used s (s_lastport s) then udp_unused_port fuel s else Some s
  end.

Definition uip_udp_new (fuel : nat) (ip : option ipaddr) (port : Z) (s : St) : option (St * option nat) :=
  s ← udp_unused_port fuel s;
  match list_find (λ u, u_lport u = 0) (s_udp_conns s) with
  | None => Some (s, None)
  | Some (i, _) => Some (set_udp_conns (<[i := UipUdpConn (default all_zeroes_addr ip) (HTONS (s_lastport s)) port UIP_TTL]> (s_udp_conns s)) s, Some i)
  end.
End open.

(** The fields are the last thing that conversion looks into. *)
Strategy 1000 [get8 get16 get32 get_ip put8 put16 put32 put_ip mod_conn set_buf set_appdata set_sappdata set_len set_slen set_flags set_conn set_conns set_listenports set_forced_poll set_udp_conn set_udp_conns set_ipid set_iss set_lastport set_hostaddr set_draddr set_netmask set_ethaddr set_app].
