(* ===== verification/UipInv.v ===== *)
(** * The invariant of the TCP/IP stack

    The arrays keep their sizes and hold bytes; no connection has more in flight than a segment of the packet buffer can hold.
    [uip_process] keeps the invariant for every application that leaves the stack's own variables alone ([AppOk]). *)
From S2P Require Import Prelude Psock UipSum Uip.

(** The buffer has room for the headers with the options of a SYN, and its size fits 16 bits. *)
Class UipSizes (conf : UipConf) : Prop := { bufsize_ok : 110 <= UIP_BUFSIZE <= 60000 }.

Section inv.
Context {conf : UipConf} {sizes : UipSizes conf} {A : Type}.
Abbreviation St := (stack A).

Definition ip_ok (a : ipaddr) : Prop := word_ok a.1 ∧ word_ok a.2.

Record conn_ok (c : uip_conn) : Prop := ConnOk {
  cok_len : 0 <= c_len c <= UIP_TCP_MSS; cok_mss : 0 <= mss c <= UIP_TCP_MSS; cok_initialmss : 0 <= initialmss c <= UIP_TCP_MSS;
  cok_rcv : u8x4_ok (rcv_nxt c); cok_snd : u8x4_ok (snd_nxt c); cok_lport : word_ok (lport c); cok_rport : word_ok (rport c); cok_ip : ip_ok (ripaddr c) }.

Definition buf_ok (s : St) : Prop := msize (s_buf s) = UIP_BUFSIZE + 2 ∧ bytes_ok (s_buf s).

Record stack_ok (s : St) : Prop := StackOk {
  sok_buf : buf_ok s; sok_conns : Forall conn_ok (s_conns s); sok_len : word_ok (s_len s); sok_slen : 0 <= s_slen s <= UIP_BUFSIZE;
  sok_iss : u8x4_ok (s_iss s); sok_ipid : word_ok (s_ipid s); sok_host : ip_ok (s_hostaddr s) }.

(** What the application may change for the connection: only the flag that stops it. *)
Definition same_but_stopped (c c' : uip_conn) : Prop :=
  ∃ f, c' = with_tcpstateflags f c ∧ Z.land f UIP_TS_MASK = Z.land (tcpstateflags c) UIP_TS_MASK.

Record app_frame (s s' : St) : Prop := AppFrame {
  af_size : msize (s_buf s') = msize (s_buf s); af_bytes : bytes_ok (s_buf s'); af_slen : 0 <= s_slen s' <= UIP_BUFSIZE;
  af_header : ∀ o, 0 <= o → UIP_LLH_LEN + o < s_sappdata s → get8 s' o = get8 s o;
  af_len : s_len s' = s_len s; af_sappdata : s_sappdata s' = s_sappdata s;
  af_conn : s_conn s' = s_conn s; af_conns : Forall2 same_but_stopped (s_conns s) (s_conns s');
  af_iss : s_iss s' = s_iss s; af_ipid : s_ipid s' = s_ipid s; af_host : s_hostaddr s' = s_hostaddr s }.

(** An application that leaves the stack alone. *)
Class AppOk (app : St → option St) : Prop := { app_frames : ∀ s s', app s = Some s' → stack_ok s → app_frame s s' }.

Lemma same_but_stopped_ok c c' : same_but_stopped c c' → conn_ok c → conn_ok c'.
Proof. intros (f & -> & _) []. by constructor. Qed.

Lemma app_keeps app `{!AppOk app} s s' : app s = Some s' → stack_ok s → stack_ok s'.
Proof.
  intros H Hs. destruct (app_frames s s' H Hs) as [F1 F2 F3 _ F4 F5 F6 F7 F8 F9 F10].
  destruct Hs as [Hb Hc Hl Hsl Hi Hid Hh]. constructor; try congruence; [destruct Hb; split; congruence|].
  clear -F7 Hc. induction F7 as [|c c' cs cs' Hcc Hcs IH]; [done|]. apply Forall_cons in Hc as [Hc Hcs']. constructor; [by eapply same_but_stopped_ok|by apply IH].
Qed.

(** ** The setters keep the invariant *)

Lemma u8_ok z : byte_ok (u8 z).
Proof. apply Z.mod_pos_bound. lia. Qed.

Lemma u16_word z : word_ok (u16 z).
Proof. apply Z.mod_pos_bound. lia. Qed.

Lemma buf_ok_put8 o v s : buf_ok s → buf_ok (put8 o v s).
Proof.
  intros [Hs Hb]. split; cbn.
  - unfold msize in *. by rewrite length_insert.
  - apply Forall_insert; [done|apply u8_ok].
Qed.

Lemma ok_put8 o v s : stack_ok s → stack_ok (put8 o v s).
Proof. intros []. constructor; try done. by apply buf_ok_put8. Qed.

Lemma ok_put16 o v s : stack_ok s → stack_ok (put16 o v s).
Proof. intros. unfold put16. destruct uip_little; by do 2 apply ok_put8. Qed.

Lemma ok_put32 o x s : stack_ok s → stack_ok (put32 o x s).
Proof. intros. destruct x as [[[a b] c] d]. cbn. by do 4 apply ok_put8. Qed.

Lemma ok_put_ip o x s : stack_ok s → stack_ok (put_ip o x s).
Proof. intros. unfold put_ip. by do 2 apply ok_put16. Qed.

Lemma ok_set_len v s : word_ok v → stack_ok s → stack_ok (set_len v s).
Proof. intros ? []. by constructor. Qed.

Lemma ok_set_slen v s : 0 <= v <= UIP_BUFSIZE → stack_ok s → stack_ok (set_slen v s).
Proof. intros ? []. by constructor. Qed.

Lemma ok_set_flags v s : stack_ok s → stack_ok (set_flags v s).
Proof. intros []. by constructor. Qed.

Lemma ok_add_flags v s : stack_ok s → stack_ok (add_flags v s).
Proof. apply ok_set_flags. Qed.

Lemma ok_set_conn v s : stack_ok s → stack_ok (set_conn v s).
Proof. intros []. by constructor. Qed.

Lemma ok_set_udp_conn v s : stack_ok s → stack_ok (set_udp_conn v s).
Proof. intros []. by constructor. Qed.

Lemma ok_set_appdata v s : stack_ok s → stack_ok (set_appdata v s).
Proof. intros []. by constructor. Qed.

Lemma ok_set_sappdata v s : stack_ok s → stack_ok (set_sappdata v s).
Proof. intros []. by constructor. Qed.

Lemma ok_set_forced_poll v s : stack_ok s → stack_ok (set_forced_poll v s).
Proof. intros []. by constructor. Qed.

Lemma ok_set_ipid v s : word_ok v → stack_ok s → stack_ok (set_ipid v s).
Proof. intros ? []. by constructor. Qed.

Lemma ok_set_iss v s : u8x4_ok v → stack_ok s → stack_ok (set_iss v s).
Proof. intros ? []. by constructor. Qed.

Lemma ok_mod_conn i f s : (∀ c, conn_ok c → conn_ok (f c)) → stack_ok s → stack_ok (mod_conn i f s).
Proof.
  intros Hf [? Hc]. constructor; try done. cbn. apply Forall_forall. intros c [k Hk]%list_elem_of_lookup. rewrite Forall_lookup in Hc.
  destruct (decide (k = i)) as [->|Hne]; [rewrite list_lookup_alter_eq in Hk|rewrite list_lookup_alter_ne in Hk by done; by eapply Hc].
  destruct (s_conns s !! i) as [c0|] eqn:E; [|done]. injection Hk as <-. by eapply Hf, Hc.
Qed.

Lemma ok_conn s i c : stack_ok s → s_conns s !! i = Some c → conn_ok c.
Proof. intros [_ Hc _ _ _ _ _]. rewrite Forall_lookup in Hc. apply Hc. Qed.

Lemma get8_ok s o : buf_ok s → byte_ok (get8 s o).
Proof.
  intros [_ Hb]. unfold get8. destruct (s_buf s !! _) as [b|] eqn:E; cbn; [|unfold byte_ok; lia]. unfold bytes_ok in Hb. rewrite Forall_lookup in Hb. by eapply Hb.
Qed.

Lemma get16_ok s o : buf_ok s → word_ok (get16 s o).
Proof.
  intros H. pose proof (get8_ok s o H). pose proof (get8_ok s (o + 1) H). unfold byte_ok, word_ok, get16 in *. destruct uip_little; lia.
Qed.

Lemma get32_ok s o : buf_ok s → u8x4_ok (get32 s o).
Proof. intros H. repeat split; apply (get8_ok s _ H). Qed.

Lemma get_ip_ok s o : buf_ok s → ip_ok (get_ip s o).
Proof. intros H. split; by apply get16_ok. Qed.

Lemma mss_ok : 0 < UIP_TCP_MSS < 65536 ∧ UIP_TCP_MSS <= UIP_BUFSIZE.
Proof. pose proof bufsize_ok. unfold UIP_TCP_MSS, UIP_LLH_LEN, UIP_TCPIP_HLEN, UIP_IPTCPH_LEN, UIP_TCPH_LEN, UIP_IPH_LEN. lia. Qed.
End inv.


(** A computation that has a result, taken apart. *)
Ltac took H :=
  repeat match type of H with
  | (if ?b then _ else _) = Some _ => let E := fresh "E" in destruct b eqn:E
  | _ ≫= _ = Some _ => let x := fresh "x" in let E := fresh "E" in apply bind_Some in H as (x & E & H)
  | None = Some _ => discriminate H
  | Some _ = Some _ => injection H as H
  | drop_packet _ = Some _ => unfold drop_packet in H
  | send _ = Some _ => unfold send in H
  | match ?x with None => _ | Some _ => _ end = Some _ => let E := fresh "E" in destruct x eqn:E
  end.

Section keeps.
Context {conf : UipConf} {sizes : UipSizes conf} {A : Type}.
Abbreviation St := (stack A).

(** ** Connections *)

Lemma cok_with_len v c : 0 <= v <= UIP_TCP_MSS → conn_ok c → conn_ok (with_len v c).
Proof. intros ? []. by constructor. Qed.
Lemma cok_with_mss v c : 0 <= v <= UIP_TCP_MSS → conn_ok c → conn_ok (with_mss v c).
Proof. intros ? []. by constructor. Qed.
Lemma cok_with_initialmss v c : 0 <= v <= UIP_TCP_MSS → conn_ok c → conn_ok (with_initialmss v c).
Proof. intros ? []. by constructor. Qed.
Lemma cok_with_rcv v c : u8x4_ok v → conn_ok c → conn_ok (with_rcv_nxt v c).
Proof. intros ? []. by constructor. Qed.
Lemma cok_with_snd v c : u8x4_ok v → conn_ok c → conn_ok (with_snd_nxt v c).
Proof. intros ? []. by constructor. Qed.
Lemma cok_with_state v c : conn_ok c → conn_ok (with_tcpstateflags v c).
Proof. intros []. by constructor. Qed.
Lemma cok_with_timer v c : conn_ok c → conn_ok (with_timer v c).
Proof. intros []. by constructor. Qed.
Lemma cok_with_nrtx v c : conn_ok c → conn_ok (with_nrtx v c).
Proof. intros []. by constructor. Qed.
Lemma cok_rtt c : conn_ok c → conn_ok (rtt_estimation c).
Proof. intros []. unfold rtt_estimation. destruct (_ =? _); by constructor. Qed.

Lemma cok_add32 c n : conn_ok c → u8x4_ok (uip_add32 (rcv_nxt c) (u16 n)).
Proof. intros H. apply add32_spec; [apply H|apply u16_word]. Qed.

Lemma ok_add_rcv_nxt i n (s : St) : stack_ok s → stack_ok (uip_add_rcv_nxt i n s).
Proof. intros. apply ok_mod_conn; [|done]. intros c Hc. apply cok_with_rcv; [by apply cok_add32|done]. Qed.

Lemma ok_set_state i t (s : St) : stack_ok s → stack_ok (set_state i t s).
Proof. intros. apply ok_mod_conn; [|done]. intros c. apply cok_with_state. Qed.
End keeps.


Lemma word_const z : (0 <=? z) && (z <? 65536) = true → word_ok z.
Proof. unfold word_ok. rewrite andb_true_iff, Z.leb_le, Z.ltb_lt. lia. Qed.


(** A connection that was changed, and a state that was changed, keep the invariant. *)
Ltac cok :=
  lazymatch goal with
  | |- conn_ok (with_len _ _) => apply cok_with_len; [try solve [pose proof mss_ok; lia]|cok]
  | |- conn_ok (with_mss _ _) => apply cok_with_mss; [try solve [pose proof mss_ok; lia]|cok]
  | |- conn_ok (with_initialmss _ _) => apply cok_with_initialmss; [try solve [pose proof mss_ok; lia]|cok]
  | |- conn_ok (with_rcv_nxt _ _) => apply cok_with_rcv; [|cok]
  | |- conn_ok (with_snd_nxt _ _) => apply cok_with_snd; [|cok]
  | |- conn_ok (with_tcpstateflags _ _) => apply cok_with_state; cok
  | |- conn_ok (with_timer _ _) => apply cok_with_timer; cok
  | |- conn_ok (with_nrtx _ _) => apply cok_with_nrtx; cok
  | |- conn_ok (rtt_estimation _) => apply cok_rtt; cok
  | |- conn_ok _ => try assumption
  end.

(** A value of 16 bits: cut to it, a constant, or known to be one. *)
Ltac word :=
  lazymatch goal with
  | |- word_ok (u16 _) => apply u16_word
  | |- word_ok _ => try (first [assumption | apply word_const; reflexivity])
  | |- _ => idtac
  end.

Ltac stk :=
  lazymatch goal with
  | |- stack_ok (put8 _ _ _) => apply ok_put8; stk
  | |- stack_ok (put16 _ _ _) => apply ok_put16; stk
  | |- stack_ok (put32 _ _ _) => apply ok_put32; stk
  | |- stack_ok (put_ip _ _ _) => apply ok_put_ip; stk
  | |- stack_ok (set_flags _ _) => apply ok_set_flags; stk
  | |- stack_ok (add_flags _ _) => apply ok_add_flags; stk
  | |- stack_ok (set_conn _ _) => apply ok_set_conn; stk
  | |- stack_ok (set_udp_conn _ _) => apply ok_set_udp_conn; stk
  | |- stack_ok (set_appdata _ _) => apply ok_set_appdata; stk
  | |- stack_ok (set_sappdata _ _) => apply ok_set_sappdata; stk
  | |- stack_ok (set_forced_poll _ _) => apply ok_set_forced_poll; stk
  | |- stack_ok (set_len _ _) => apply ok_set_len; [word|stk]
  | |- stack_ok (set_slen _ _) => apply ok_set_slen; [try solve [pose proof bufsize_ok; lia]|stk]
  | |- stack_ok (set_ipid _ _) => apply ok_set_ipid; [apply u16_word|stk]
  | |- stack_ok (set_iss _ _) => apply ok_set_iss; [|stk]
  | |- stack_ok (set_state _ _ _) => apply ok_set_state; stk
  | |- stack_ok (uip_add_rcv_nxt _ _ _) => apply ok_add_rcv_nxt; stk
  | |- stack_ok (mod_conn _ _ _) => apply ok_mod_conn; [intros; cok|stk]
  | |- stack_ok (if ?b then _ else _) => destruct b; stk
  | |- stack_ok _ => try assumption
  end.

Section process_keeps.
Context {conf : UipConf} {sizes : UipSizes conf} {A : Type}.
Abbreviation St := (stack A).
Context (UIP_APPCALL UIP_UDP_APPCALL : St → option St) `{!AppOk UIP_APPCALL, !AppOk UIP_UDP_APPCALL}.

Definition keeps (f : St → option St) : Prop := ∀ s s', stack_ok s → f s = Some s' → stack_ok s'.

Lemma keeps_app : keeps UIP_APPCALL.
Proof. intros s s' H E. by eapply (app_keeps UIP_APPCALL). Qed.

Lemma keeps_udp_app : keeps UIP_UDP_APPCALL.
Proof. intros s s' H E. by eapply (app_keeps UIP_UDP_APPCALL). Qed.

Lemma keeps_drop : keeps drop_packet.
Proof. intros s s' H [= <-]. stk. Qed.

Lemma keeps_send : keeps send.
Proof. intros s s' H [= <-]. stk. Qed.

Lemma keeps_ip_send_nolen : keeps ip_send_nolen.
Proof. intros s s' H E. unfold ip_send_nolen in E. cbv zeta in E. apply keeps_send in E; [done|]. stk. Qed.

Lemma keeps_tcp_send_noconn : keeps tcp_send_noconn.
Proof. intros s s' H E. unfold tcp_send_noconn in E. cbv zeta in E. apply bind_Some in E as (x & _ & E). apply keeps_ip_send_nolen in E; [done|]. stk. Qed.

Lemma keeps_tcp_send i : keeps (tcp_send i).
Proof.
  intros s s' H E. unfold tcp_send in E. cbv zeta in E. apply bind_Some in E as (c & _ & E). apply keeps_tcp_send_noconn in E; [done|].
  destruct (bits _ _); stk.
Qed.

Lemma keeps_tcp_send_noopts i : keeps (tcp_send_noopts i).
Proof. intros s s' H E. unfold tcp_send_noopts in E. cbv zeta in E. apply keeps_tcp_send in E; stk. Qed.

Lemma keeps_tcp_send_nodata i : keeps (tcp_send_nodata i).
Proof. intros s s' H E. unfold tcp_send_nodata in E. cbv zeta in E. apply keeps_tcp_send_noopts in E; stk. Qed.

Lemma keeps_tcp_send_ack i : keeps (tcp_send_ack i).
Proof. intros s s' H E. unfold tcp_send_ack in E. cbv zeta in E. apply keeps_tcp_send_nodata in E; stk. Qed.

Lemma keeps_tcp_send_finack i : keeps (tcp_send_finack i).
Proof. intros s s' H E. unfold tcp_send_finack in E. cbv zeta in E. apply keeps_tcp_send_nodata in E; stk. Qed.

Lemma keeps_tcp_send_syn i : keeps (tcp_send_syn i).
Proof. intros s s' H E. unfold tcp_send_syn in E. cbv zeta in E. apply keeps_tcp_send in E; stk. Qed.

Lemma keeps_tcp_send_synack i : keeps (tcp_send_synack i).
Proof. intros s s' H E. unfold tcp_send_synack in E. cbv zeta in E. apply keeps_tcp_send_syn in E; stk. Qed.

Lemma keeps_reset : keeps reset.
Proof.
  intros s s' H E. unfold reset in E. cbv zeta in E. destruct (bits _ _); [by eapply keeps_drop|]. apply keeps_tcp_send_noconn in E; [done|]. stk.
Qed.

Lemma keeps_udp_send : keeps udp_send.
Proof.
  intros s s' H E. unfold udp_send in E. cbv zeta in E. destruct (_ =? 0); [by eapply keeps_drop|]. apply bind_Some in E as (u & _ & E). apply bind_Some in E as (x & _ & E).
  apply keeps_ip_send_nolen in E; [done|]. destruct (_ =? _); stk.
Qed.

(** ** The answer of the application *)

Lemma keeps_apprexmit i : keeps (apprexmit i).
Proof.
  intros s s' H E. unfold apprexmit in E. cbv zeta in E. apply bind_Some in E as (c & _ & E). destruct (_ && _); [|destruct (uflag _ _)].
  - apply keeps_tcp_send_noopts in E; stk.
  - apply keeps_tcp_send_noopts in E; stk.
  - apply keeps_drop in E; stk.
Qed.

Lemma keeps_limit_slen i : keeps (limit_slen i).
Proof.
  intros s s' H E. unfold limit_slen in E. destruct (Z.ltb_spec 0 (s_slen s)) as [Hpos|]; [|by injection E as <-].
  set (s0 := if uflag s UIP_ACKDATA then _ else _) in E. assert (stack_ok s0) as H0 by (unfold s0; destruct (uflag _ _); stk).
  assert (s_slen s0 = s_slen s) as Hsl by (unfold s0; by destruct (uflag _ _)). clearbody s0.
  apply bind_Some in E as (c & Hc & E). pose proof (ok_conn _ _ _ H0 Hc) as Hok. destruct (_ =? _).
  - injection E as <-. destruct (Z.ltb_spec (mss c) (s_slen s0)); cbn [s_slen set_slen].
    + apply ok_mod_conn; [intros; apply cok_with_len; [apply Hok|done]|]. pose proof (cok_mss c Hok). pose proof mss_ok. apply ok_set_slen; [lia|done].
    + pose proof (cok_mss c Hok). apply ok_mod_conn; [intros; apply cok_with_len; [lia|done]|done].
  - injection E as <-. pose proof (cok_len c Hok). pose proof mss_ok. apply ok_set_slen; [lia|done].
Qed.

Lemma keeps_appsend i : keeps (appsend i).
Proof.
  intros s s' H E. unfold appsend in E. cbv zeta in E. destruct (uflag _ _); [|destruct (uflag _ _)].
  - apply keeps_tcp_send_nodata in E; [done|]. stk.
  - apply keeps_tcp_send_nodata in E; [done|]. stk.
  - apply bind_Some in E as (s1 & E1 & E). apply keeps_limit_slen in E1; [|done]. apply keeps_apprexmit in E; stk.
Qed.

Lemma ld_byte (m : mem) i v : bytes_ok m → ld m i = Some v → byte_ok v.
Proof. intros H [_ Hv]%ld_Some_iff. unfold bytes_ok in H. rewrite Forall_lookup in H. by eapply H. Qed.

Lemma mss_option_nonneg fuel (s : St) c v : buf_ok s → mss_option fuel s c = Some (Some v) → 0 <= v.
Proof.
  intros [_ Hb]. revert c. induction fuel as [|fuel IH]; [done|]. intros c E. cbn [mss_option] in E. cbv zeta in E. took E; try (by eapply IH).
  subst v. apply Z.lor_nonneg. split; [apply Z.shiftl_nonneg|]; eapply ld_byte; done.
Qed.

Lemma keeps_parse_mss fuel i : keeps (parse_mss fuel i).
Proof.
  intros s s' H E. unfold parse_mss in E. destruct (_ <? _); [|by injection E as <-]. apply bind_Some in E as (m & Hm & E).
  destruct m as [v|]; injection E as <-; [|done]. pose proof (mss_option_nonneg _ _ _ _ (sok_buf _ H) Hm) as Hv. pose proof mss_ok.
  assert (0 <= (if UIP_TCP_MSS <? v then UIP_TCP_MSS else v) <= UIP_TCP_MSS) by (destruct (Z.ltb_spec UIP_TCP_MSS v); lia). stk.
Qed.

(** ** New connections *)

(** The entry of a new connection, from its SYN. *)
Lemma ok_new_conn i (s : St) : stack_ok s →
  stack_ok (mod_conn i (λ c, UipConn (get_ip s f_srcipaddr) (get16 s f_destport) (get16 s f_srcport)
              (uip_add32 (get32 s f_seqno) 1) (s_iss s) 1 (mss c) (initialmss c) 0 4 UIP_RTO UIP_SYN_RCVD UIP_RTO 0) s).
Proof.
  intros H. apply ok_mod_conn; [|done]. pose proof (sok_buf _ H) as Hb. pose proof mss_ok.
  intros c [H1 H2 H3 H4 H5 H6 H7 H8]. constructor; cbn [c_len mss initialmss rcv_nxt snd_nxt lport rport ripaddr]; [lia|done|done|apply add32_spec; [by apply get32_ok|by apply word_const]|apply (sok_iss _ H)|by apply get16_ok|by apply get16_ok|by apply get_ip_ok].
Qed.

Lemma keeps_found_listen fuel : keeps (found_listen fuel).
Proof.
  intros s s' H E. unfold found_listen in E. destruct (unused_conn _ _ _) as [i|]; [|by eapply keeps_drop]. cbv zeta in E. apply bind_Some in E as (s1 & E1 & E).
  apply keeps_tcp_send_synack in E; [done|]. apply keeps_parse_mss in E1; [done|]. by apply ok_new_conn, ok_set_conn.
Qed.

(** ** Segments of a connection *)

Lemma keeps_check_ack i : keeps (check_ack i).
Proof.
  intros s s' H E. unfold check_ack in E. apply bind_Some in E as (c & Hc & E). pose proof (ok_conn _ _ _ H Hc) as Hok. destruct (_ && _); [|by injection E as <-].
  case_bool_decide; injection E as <-; [|done]. assert (u8x4_ok (uip_add32 (snd_nxt c) (c_len c))) by (apply add32_spec; [apply Hok|pose proof (cok_len c Hok); pose proof mss_ok; unfold word_ok; lia]).
  apply ok_set_flags, ok_mod_conn; [|done]. intros c0 Hc0. cbv zeta. by cok.
Qed.

Lemma keeps_on_syn_rcvd i : keeps (on_syn_rcvd UIP_APPCALL i).
Proof.
  intros s s' H E. unfold on_syn_rcvd in E. cbv zeta in E. destruct (uflag _ _); [|by eapply keeps_drop]. apply bind_Some in E as (s1 & E1 & E).
  apply keeps_appsend in E; [done|]. eapply keeps_app; [|exact E1]. stk.
Qed.

Lemma keeps_on_syn_sent fuel i : keeps (on_syn_sent UIP_APPCALL fuel i).
Proof.
  intros s s' H E. unfold on_syn_sent in E. cbv zeta in E. destruct (_ && _); apply bind_Some in E as (s1 & E1 & E).
  - apply bind_Some in E as (s2 & E2 & E). apply keeps_parse_mss in E1; [|done]. apply keeps_appsend in E; [done|]. eapply keeps_app; [|exact E2]. stk.
    apply get32_ok, (sok_buf _ E1).
  - apply keeps_reset in E; [done|]. apply ok_set_state. eapply keeps_app; [|exact E1]. stk.
Qed.

Lemma keeps_set_mss i : keeps (set_mss i).
Proof.
  intros s s' H E. unfold set_mss in E. cbv zeta in E. apply bind_Some in E as (c & Hc & E). injection E as <-. pose proof (cok_initialmss _ (ok_conn _ _ _ H Hc)) as Hm.
  set (w := u16 _). pose proof (u16_word (Z.shiftl (get8 s f_wnd) 8 + get8 s (f_wnd + 1))) as Hw. fold w in Hw. unfold word_ok in Hw.
  assert (0 <= (if (initialmss c <? w) || (w =? 0) then initialmss c else w) <= UIP_TCP_MSS) by (destruct (Z.ltb_spec (initialmss c) w); cbn; [lia|]; destruct (w =? 0); lia). stk.
Qed.

Lemma keeps_on_established i : keeps (on_established UIP_APPCALL i).
Proof.
  intros s s' H E. unfold on_established in E. cbv zeta in E. apply bind_Some in E as (c & Hc & E). destruct (_ && _).
  - destruct (negb _); [by eapply keeps_drop|]. apply bind_Some in E as (s1 & E1 & E). apply keeps_tcp_send_finack in E; [done|]. stk. eapply keeps_app; [|exact E1]. stk.
  - apply bind_Some in E as (s1 & E1 & E). apply keeps_set_mss in E1; [|stk]. destruct (_ || _); [|by eapply keeps_drop].
    apply bind_Some in E as (s2 & E2 & E). apply keeps_appsend in E; [done|]. eapply keeps_app; [|exact E2]. stk.
Qed.

Lemma keeps_on_last_ack i : keeps (on_last_ack UIP_APPCALL i).
Proof.
  intros s s' H E. unfold on_last_ack in E. destruct (uflag _ _); [|by eapply keeps_drop]. apply bind_Some in E as (s1 & E1 & E). apply keeps_drop in E; [done|].
  eapply keeps_app; [|exact E1]. stk.
Qed.

Lemma keeps_peer_closes i : keeps (peer_closes UIP_APPCALL i).
Proof. intros s s' H E. apply bind_Some in E as (s1 & E1 & E). apply keeps_tcp_send_ack in E; [done|]. eapply keeps_app; [|exact E1]. stk. Qed.

Lemma keeps_on_fin_wait_1 i : keeps (on_fin_wait_1 UIP_APPCALL i).
Proof.
  intros s s' H E. unfold on_fin_wait_1 in E. cbv zeta in E. destruct (bits _ _); [|destruct (uflag _ _); [|destruct (_ <? _)]].
  - apply keeps_peer_closes in E; [done|]. stk.
  - apply keeps_drop in E; [done|]. stk.
  - apply keeps_tcp_send_ack in E; [done|]. stk.
  - apply keeps_drop in E; [done|]. stk.
Qed.

Lemma keeps_on_fin_wait_2 i : keeps (on_fin_wait_2 UIP_APPCALL i).
Proof.
  intros s s' H E. unfold on_fin_wait_2 in E. cbv zeta in E. destruct (bits _ _); [|destruct (_ <? _)].
  - apply keeps_peer_closes in E; [done|]. stk.
  - apply keeps_tcp_send_ack in E; [done|]. stk.
  - apply keeps_drop in E; [done|]. stk.
Qed.

Lemma keeps_on_closing (i : nat) : keeps (on_closing i).
Proof. intros s s' H E. unfold on_closing in E. destruct (uflag _ _); apply keeps_drop in E; [done|stk|done|done]. Qed.

Lemma keeps_by_state fuel i : keeps (by_state UIP_APPCALL fuel i).
Proof.
  intros s s' H E. unfold by_state in E. apply bind_Some in E as (c & _ & E). cbv zeta in E. repeat case_match.
  - by eapply keeps_on_syn_rcvd.
  - by eapply keeps_on_syn_sent.
  - by eapply keeps_on_established.
  - by eapply keeps_on_last_ack.
  - by eapply keeps_on_fin_wait_1.
  - by eapply keeps_on_fin_wait_2.
  - by eapply keeps_tcp_send_ack.
  - by eapply keeps_on_closing.
  - by eapply keeps_drop.
Qed.

Lemma keeps_found fuel i : keeps (found UIP_APPCALL fuel i).
Proof.
  intros s s' H E. unfold found in E. cbv zeta in E. destruct (bits _ _).
  - apply bind_Some in E as (s1 & E1 & E). apply keeps_drop in E; [done|]. eapply keeps_app; [|exact E1]. stk.
  - apply bind_Some in E as (c & _ & E). destruct (out_of_order _ _); [apply keeps_tcp_send_ack in E; [done|stk]|].
    apply bind_Some in E as (s1 & E1 & E). apply keeps_check_ack in E1; [|stk]. by eapply keeps_by_state.
Qed.

(** ** Input and timers *)

Lemma keeps_tcp_input fuel : keeps (tcp_input UIP_APPCALL fuel).
Proof.
  intros s s' H E. unfold tcp_input in E. apply bind_Some in E as (x & _ & E). destruct (negb _); [by eapply keeps_drop|]. destruct (find_conn _ _ _); [by eapply keeps_found|].
  destruct (negb _); [by eapply keeps_reset|]. case_bool_decide; [by eapply keeps_found_listen|by eapply keeps_reset].
Qed.

Lemma keeps_udp_input : keeps (udp_input UIP_UDP_APPCALL).
Proof.
  intros s s' H E. unfold udp_input in E. cbv zeta in E. apply bind_Some in E as (x & _ & E). destruct (negb _); [apply keeps_drop in E; [done|stk]|].
  destruct (find_udp _ _ _); [|apply keeps_drop in E; [done|stk]]. apply bind_Some in E as (s1 & E1 & E). apply keeps_udp_send in E; [done|]. eapply keeps_udp_app; [|exact E1]. stk.
Qed.

Lemma keeps_icmp_input : keeps icmp_input.
Proof.
  intros s s' H E. unfold icmp_input in E. cbv zeta in E. destruct (negb _); [by eapply keeps_drop|]. destruct (negb _); [by eapply keeps_drop|].
  apply keeps_send in E; [done|]. stk.
Qed.

Lemma keeps_ip_input fuel : keeps (ip_input UIP_APPCALL UIP_UDP_APPCALL fuel).
Proof.
  intros s s' H E. unfold ip_input in E. cbv zeta in E. destruct (negb _); [by eapply keeps_drop|]. destruct (negb _); [by eapply keeps_drop|].
  set (len := Z.shiftl _ 8 + _) in E.
  assert (word_ok len) as Hl.
  { pose proof (get8_ok s f_len (sok_buf _ H)). pose proof (get8_ok s (f_len + 1) (sok_buf _ H)). unfold word_ok, byte_ok, len in *. rewrite Z.shiftl_mul_pow2 by lia. lia. }
  clearbody len. assert (stack_ok (set_len len s)) as H1 by stk. repeat (case_match; [|]); try (by eapply keeps_drop); try (by eapply keeps_udp_input); [by eapply keeps_tcp_input|by eapply keeps_icmp_input].
Qed.

Lemma keeps_retransmit i : keeps (retransmit UIP_APPCALL i).
Proof.
  intros s s' H E. unfold retransmit in E. apply bind_Some in E as (c & _ & E). cbv zeta in E. repeat case_match.
  - by eapply keeps_tcp_send_synack.
  - apply keeps_tcp_send_syn in E; [done|stk].
  - apply bind_Some in E as (s1 & E1 & E). apply keeps_apprexmit in E; [done|]. eapply keeps_app; [|exact E1]. stk.
  - by eapply keeps_tcp_send_finack.
  - by eapply keeps_drop.
Qed.

Lemma keeps_outstanding_timer i : keeps (outstanding_timer UIP_APPCALL i).
Proof.
  intros s s' H E. unfold outstanding_timer in E. apply bind_Some in E as (c & _ & E). cbv zeta in E. destruct (_ =? 0); [|apply keeps_drop in E; [done|stk]].
  destruct (timed_out c).
  - apply bind_Some in E as (s1 & E1 & E). apply keeps_tcp_send_nodata in E; [done|]. stk. eapply keeps_app; [|exact E1]. stk.
  - apply keeps_retransmit in E; [done|]. stk.
Qed.

Lemma keeps_uip_timer i : keeps (uip_timer UIP_APPCALL i).
Proof.
  intros s s' H E. unfold uip_timer in E. cbv zeta in E. apply bind_Some in E as (c & _ & E). set (s0 := set_slen 0 _) in E.
  assert (stack_ok s0) as H0 by (unfold s0; stk; apply incr32_spec; apply (sok_iss _ H)). clearbody s0. repeat case_match; try (apply keeps_drop in E; [done|stk]).
  - by eapply keeps_outstanding_timer.
  - apply bind_Some in E as (s1 & E1 & E). apply keeps_appsend in E; [done|]. eapply keeps_app; [|exact E1]. stk.
Qed.

Lemma keeps_process fuel flag : keeps (uip_process UIP_APPCALL UIP_UDP_APPCALL fuel flag).
Proof.
  intros s s' H E. unfold uip_process in E. cbv zeta in E. set (s0 := set_appdata _ _) in E. assert (stack_ok s0) as H0 by (unfold s0; stk). clearbody s0.
  repeat case_match.
  - by apply (keeps_udp_send s).
  - apply bind_Some in E as (i & _ & E). unfold uip_poll_request in E. apply bind_Some in E as (c & _ & E). destruct (_ && _); [|by eapply keeps_drop].
    apply bind_Some in E as (s1 & E1 & E). apply keeps_appsend in E; [done|]. eapply keeps_app; [|exact E1]. stk.
  - apply bind_Some in E as (i & _ & E). by eapply keeps_uip_timer.
  - unfold uip_udp_timer in E. apply bind_Some in E as (u & _ & E). cbv zeta in E. destruct (negb _); [|by eapply keeps_drop].
    apply bind_Some in E as (s1 & E1 & E). apply keeps_udp_send in E; [done|]. eapply keeps_udp_app; [|exact E1]. stk.
  - by eapply keeps_ip_input.
Qed.

End process_keeps.
