(* ===== verification/UipOut.v ===== *)
(** * What the TCP/IP stack sends

    Every packet that [uip_process] leaves in the buffer has the length and the checksums that a receiver expects. *)
From S2P Require Import Prelude Psock UipSum Uip UipInv.

(** ** Sums of words with one word replaced *)

Definition set_word (p : nat) (v : Z) (l : mem) : mem := <[S p := v mod 256]> (<[p := v / 256]> l).

Lemma words_set_word p v l : Nat.even p = true → (S p < length l)%nat → 
  words (set_word p v l) = words l - (l !!! p * 256 + l !!! S p) + (v / 256 * 256 + v mod 256).
Proof.
  intros He Hp. assert (∃ x a b y, l = x ++ a :: b :: y ∧ length x = p) as (x & a & b & y & -> & Hx).
  { destruct (drop p l) as [|a [|b y]] eqn:E.
    - apply (f_equal length) in E. rewrite length_drop in E. cbn in E. lia.
    - apply (f_equal length) in E. rewrite length_drop in E. cbn in E. lia.
    - exists (take p l), a, b, y. rewrite <- E, take_drop, length_take. split; [done|lia]. }
  subst p. unfold set_word. rewrite insert_app_r_alt, Nat.sub_diag by lia. cbn [list_insert insert]. rewrite insert_app_r_alt by lia.
  replace (S (length x) - length x)%nat with 1%nat by lia. cbn [list_insert insert]. rewrite !words_app by done. cbn [words].
  rewrite !lookup_total_app_r by lia. replace (S (length x) - length x)%nat with 1%nat by lia. rewrite Nat.sub_diag. cbn. lia.
Qed.

(** A checksum field that is filled in makes the sum that of a valid packet; a sum of zero stays zero. *)
Lemma chksum_fill init p l : word_ok init → bytes_ok l → Nat.even p = true → (S p < length l)%nat → l !!! p = 0 → l !!! S p = 0 →
  let sum := chksum init l in
  chksum init (set_word p (65535 - sum) l) = 65535 ∧ chksum init (set_word p (if sum =? 0 then 0 else 65535 - sum) l) = (if sum =? 0 then 0 else 65535).
Proof.
  intros Hi Hl He Hp H0 H1. pose proof (words_nonneg l Hl) as Hw. cbv zeta. rewrite (chksum_words l Hl) by done. unfold word_ok in Hi.
  set (sum := norm (init + words l)). assert (0 <= sum < 65536) as Hs by (apply norm_range; lia).
  assert (∀ v, 0 <= v < 65536 → chksum init (set_word p v l) = norm (init + words l + v)) as Hc.
  { intros v Hv. assert (bytes_ok (set_word p v l)) as Hb by (unfold set_word; repeat apply Forall_insert; try done; unfold byte_ok; Z.div_mod_to_equations; lia).
    rewrite chksum_words by done. rewrite words_set_word by done. rewrite H0, H1. f_equal. Z.div_mod_to_equations; lia. }
  assert (norm (init + words l + (65535 - sum)) = 65535) as Hn.
  { rewrite <- norm_add by lia. fold sum. replace (sum + (65535 - sum)) with 65535 by lia. done. }
  split; [rewrite Hc by lia; exact Hn|]. destruct (Z.eqb_spec sum 0) as [E|E]; rewrite Hc by lia; [|exact Hn].
  by rewrite Z.add_0_r.
Qed.

(** The same for a field of ones. *)
Lemma chksum_ones init p l : word_ok init → bytes_ok l → Nat.even p = true → (S p < length l)%nat → l !!! p = 0 → l !!! S p = 0 →
  chksum init l = 0 ∨ chksum init l = 65535 → chksum init (set_word p 65535 l) = 65535.
Proof.
  intros Hi Hl He Hp H0 H1 Hs. pose proof (words_nonneg l Hl) as Hw. rewrite (chksum_words l Hl) in Hs by done. unfold word_ok in Hi.
  assert (bytes_ok (set_word p 65535 l)) as Hb by (unfold set_word; repeat apply Forall_insert; try done; unfold byte_ok; Z.div_mod_to_equations; lia).
  rewrite chksum_words by done. rewrite words_set_word by done. rewrite H0, H1.
  replace (init + _) with (init + words l + 65535) by (change (65535 / 256) with 255; change (65535 mod 256) with 255; lia).
  rewrite <- norm_add by lia. by destruct Hs as [-> | ->].
Qed.

Section fields.
Context {conf : UipConf} {sizes : UipSizes conf} {A : Type}.
Abbreviation St := (stack A).

(** An offset of a byte of the headers, from the beginning of the IP header. *)
Definition in_header (o : Z) : Prop := -14 <= o < 84.

Lemma get8_put8 o v (s : St) : buf_ok s → in_header o → get8 (put8 o v s) o = u8 v.
Proof.
  intros [Hs _] Ho. pose proof bufsize_ok. unfold in_header in Ho. unfold get8, put8, UIP_LLH_LEN. cbn [s_buf set_buf].
  rewrite list_lookup_insert_eq; [done|]. unfold msize in Hs. lia.
Qed.

Lemma get8_put8_ne o o' v (s : St) : -14 <= o → -14 <= o' → o ≠ o' → get8 (put8 o v s) o' = get8 s o'.
Proof. intros. unfold get8, put8, UIP_LLH_LEN. cbn [s_buf set_buf]. rewrite list_lookup_insert_ne by lia. done. Qed.

(** ** 16-bit values in the order of the network *)

Lemma HTONS_spec v : word_ok v → HTONS v = if uip_little then v mod 256 * 256 + v / 256 else v.
Proof.
  unfold word_ok, HTONS. intros Hv. destruct uip_little; [|done]. rewrite (u16_id v) by lia.
  assert (u16 (Z.shiftl v 8) = v mod 256 * 256) as E by (rewrite Z.shiftl_mul_pow2 by lia; unfold u16; Z.div_mod_to_equations; lia).
  unfold u16 in *. rewrite <- (Z.mod_small (v mod 256 * 256 + v / 256) 65536) by (Z.div_mod_to_equations; lia).
  rewrite Z.shiftr_div_pow2, Z.shiftl_mul_pow2 by lia. change (2 ^ 8) with 256.
  assert (Z.lor (v * 256) (v / 256) = v * 256 + v / 256) as ->; [|Z.div_mod_to_equations; lia].
  rewrite <- Z.lxor_lor; [rewrite <- Z.add_nocarry_lxor; [done|]|].
  all: apply Z.bits_inj_0; intros n; rewrite Z.land_spec; destruct (Z_lt_ge_dec n 8) as [Hn|Hn];
    [change 256 with (2 ^ 8); rewrite Z.mul_pow2_bits_low by lia; done|].
  all: rewrite andb_comm; destruct (Z_lt_ge_dec n 0); [lia|]; rewrite <- (Z.mod_small (v / 256) (2 ^ 8)) by (Z.div_mod_to_equations; lia); rewrite Z.mod_pow2_bits_high by lia; done.
Qed.

Lemma htons_range v : word_ok v → word_ok (htons v).
Proof. intros Hv. unfold htons. rewrite HTONS_spec by done. unfold word_ok in *. destruct uip_little; [|lia]. Z.div_mod_to_equations; lia. Qed.

Lemma htons_lnot v : word_ok v → u16 (Z.lnot (htons v)) = htons (65535 - v).
Proof.
  intros Hv. pose proof (htons_range v Hv) as Hh. unfold htons in *. assert (word_ok (65535 - v)) by (unfold word_ok in *; lia).
  rewrite HTONS_spec in Hh |- * by done. rewrite HTONS_spec by done. unfold word_ok, u16, Z.lnot in *. destruct uip_little; Z.div_mod_to_equations; lia.
Qed.

Lemma put8_u8 o v (s : St) : put8 o (u8 v) s = put8 o v s.
Proof. unfold put8. by rewrite u8_idem. Qed.

Lemma put8_comm o o' v v' (s : St) : -14 <= o → -14 <= o' → o ≠ o' → put8 o v (put8 o' v' s) = put8 o' v' (put8 o v s).
Proof. intros. destruct s. unfold put8, set_buf, UIP_LLH_LEN. cbn. f_equal. apply list_insert_insert_ne. lia. Qed.

Lemma put16_htons o v (s : St) : word_ok v → 0 <= o → put16 o (htons v) s = put8 (o + 1) (v mod 256) (put8 o (v / 256) s).
Proof.
  intros Hv Ho. unfold htons. rewrite HTONS_spec by done. unfold put16. unfold word_ok in Hv. destruct uip_little.
  - rewrite <- (put8_u8 o (_ * _ + _)). replace (u8 (v mod 256 * 256 + v / 256)) with (v / 256) by (unfold u8; Z.div_mod_to_equations; lia).
    f_equal. Z.div_mod_to_equations; lia.
  - rewrite <- (put8_u8 (o + 1) v). done.
Qed.

(** ** Parts of the buffer *)

Definition region (d n : nat) (s : St) : mem := take n (drop d (s_buf s)).

Lemma region_length d n s : buf_ok s → (Z.of_nat (d + n) <= UIP_BUFSIZE + 2) → length (region d n s) = n.
Proof. intros [Hs _] H. unfold region. rewrite length_take, length_drop. unfold msize in Hs. lia. Qed.

Lemma region_bytes d n s : buf_ok s → bytes_ok (region d n s).
Proof. intros [_ Hb]. by apply Forall_take, Forall_drop. Qed.

Lemma region_get d n s (o : Z) k : buf_ok s → (k < n)%nat → Z.of_nat (d + n) <= UIP_BUFSIZE + 2 → 0 <= o → (Z.to_nat (UIP_LLH_LEN + o) = d + k)%nat → region d n s !!! k = get8 s o.
Proof.
  intros [Hs _] Hk Hn Ho E. unfold region, get8. rewrite E, list_lookup_total_alt. rewrite lookup_take_lt by done. rewrite lookup_drop.
  destruct (lookup_lt_is_Some_2 (s_buf s) (d + k)) as [x ->]; [unfold msize in Hs; lia|done].
Qed.

(** A byte outside of a part, and inside. *)
Lemma region_put8_out d n o v s : 0 <= o → UIP_LLH_LEN + o < Z.of_nat d ∨ Z.of_nat (d + n) <= UIP_LLH_LEN + o → region d n (put8 o v s) = region d n s.
Proof.
  intros Ho H. unfold region, put8, UIP_LLH_LEN in *. cbn [s_buf set_buf]. destruct H as [H|H]; [rewrite drop_insert_lt by lia; done|].
  rewrite drop_insert_ge by lia. by rewrite take_insert_ge by lia.
Qed.

Lemma region_put8_in d n o v s k : 0 <= o → (Z.to_nat (UIP_LLH_LEN + o) = d + k)%nat → (k < n)%nat → region d n (put8 o v s) = <[k := u8 v]> (region d n s).
Proof.
  intros Ho E Hk. unfold region, put8. cbn [s_buf set_buf]. rewrite E. rewrite drop_insert_ge by lia. replace (d + k - d)%nat with k by lia.
  by rewrite take_insert_lt.
Qed.

Lemma region_set_word d n o v s k : word_ok v → 0 <= o → (Z.to_nat (UIP_LLH_LEN + o) = d + k)%nat → (S k < n)%nat →
  region d n (put16 o (htons v) s) = set_word k v (region d n s).
Proof.
  intros Hv Ho E Hk. rewrite put16_htons by done. rewrite (region_put8_in _ _ _ _ _ (S k)) by (unfold UIP_LLH_LEN in *; lia). rewrite (region_put8_in _ _ _ _ _ k) by (done || lia).
  unfold set_word. unfold word_ok in Hv. do 2 f_equal; unfold u8; Z.div_mod_to_equations; lia.
Qed.
End fields.

Section valid.
Context {conf : UipConf} {sizes : UipSizes conf} {A : Type}.
Abbreviation St := (stack A).

(** The length of the packet in the IP header. *)
Definition len_field (s : St) : Z := Z.shiftl (get8 s f_len) 8 + get8 s (f_len + 1).

(** The result of the functions that check and compute sums. *)
Definition sum_result (sum : Z) : Z := if sum =? 0 then 65535 else htons sum.

Lemma htons_ones : htons 65535 = 65535.
Proof. unfold htons. rewrite HTONS_spec by (by apply word_const). by destruct uip_little. Qed.

Lemma sum_result_lnot sum : word_ok sum → u16 (Z.lnot (sum_result sum)) = htons (if sum =? 0 then 0 else 65535 - sum).
Proof.
  intros H. unfold sum_result. destruct (sum =? 0); [|by apply htons_lnot]. rewrite <- htons_ones at 1. rewrite htons_lnot by (by apply word_const). done.
Qed.

Lemma sum_result_valid sum : sum = 0 ∨ sum = 65535 → sum_result sum = 65535.
Proof. intros [-> | ->]; [done|]. unfold sum_result. cbn. apply htons_ones. Qed.

Lemma put16_zero o (s : St) : 0 <= o → put16 o 0 s = put8 (o + 1) 0 (put8 o 0 s).
Proof. intros Ho. unfold put16. by destruct uip_little. Qed.

Lemma buf_ok_put16 o v (s : St) : buf_ok s → buf_ok (put16 o v s).
Proof. intros. unfold put16. destruct uip_little; by do 2 apply buf_ok_put8. Qed.

Lemma get8_put16_ne o o' v (s : St) : -14 <= o → -14 <= o' → o' ≠ o → o' ≠ o + 1 → get8 (put16 o v s) o' = get8 s o'.
Proof. intros. unfold put16. destruct uip_little; rewrite !get8_put8_ne by lia; done. Qed.

Lemma get8_put16_zero o (s : St) : buf_ok s → 0 <= o < 80 → get8 (put16 o 0 s) o = 0 ∧ get8 (put16 o 0 s) (o + 1) = 0.
Proof.
  intros H Ho. rewrite put16_zero by lia. split; [rewrite get8_put8_ne by lia; by rewrite get8_put8 by (first [done | unfold in_header; lia])|].
  rewrite get8_put8; [done|by apply buf_ok_put8|unfold in_header; lia].
Qed.

(** ** The IP header *)

Lemma ipchksum_region (s : St) : uip_ipchksum s = sum_result (chksum 0 (region 14 20 s)).
Proof. done. Qed.

Lemma ipchksum_fill (s : St) : buf_ok s → uip_ipchksum (put16 f_ipchksum (u16 (Z.lnot (uip_ipchksum (put16 f_ipchksum 0 s)))) (put16 f_ipchksum 0 s)) = 65535.
Proof.
  intros Hs. set (s0 := put16 f_ipchksum 0 s). pose proof bufsize_ok as Hsz. assert (buf_ok s0) as H0 by (by apply buf_ok_put16).
  destruct (get8_put16_zero f_ipchksum s Hs) as [Ha Hb]; [unfold f_ipchksum; lia|]. fold s0 in Ha, Hb.
  assert (length (region 14 20 s0) = 20%nat) as Hlen by (apply region_length; [done|lia]).
  destruct (chksum_fill 0 10 (region 14 20 s0)) as [_ Hc]; [by apply word_const|by apply region_bytes|done|lia| | |].
  { rewrite (region_get _ _ _ f_ipchksum) by (done || lia || unfold f_ipchksum; lia). exact Ha. }
  { rewrite (region_get _ _ _ (f_ipchksum + 1)) by (done || lia || unfold f_ipchksum; lia). exact Hb. }
  rewrite !ipchksum_region. pose proof (region_bytes 14 20 s0 H0) as Hby. set (sum := chksum 0 (region 14 20 s0)) in *.
  assert (word_ok sum) as Hw by (unfold sum; rewrite chksum_words by (done || by apply word_const); apply norm_range; pose proof (words_nonneg _ Hby); lia).
  rewrite sum_result_lnot by done. assert (word_ok (if sum =? 0 then 0 else 65535 - sum)) by (unfold word_ok in *; destruct (Z.eqb_spec sum 0); lia).
  rewrite (region_set_word _ _ _ _ _ 10) by (done || unfold f_ipchksum; lia). apply sum_result_valid. rewrite Hc. destruct (sum =? 0); auto.
Qed.

(** ** The segment or the datagram *)

Definition upper_sum (proto : Z) (s : St) : Z :=
  let n := u16 (len_field s - UIP_IPH_LEN) in chksum (chksum (u16 (n + proto)) (region 26 8 s)) (region 34 (Z.to_nat n) s).

Lemma mread_region (s : St) d n : 0 <= d → mread (s_buf s) d n = if decide (0 <= n ∧ d + n <= msize (s_buf s)) then Some (region (Z.to_nat d) (Z.to_nat n) s) else None.
Proof. intros Hd. unfold mread. repeat case_decide; try done; lia. Qed.

Lemma upper_layer_result proto (s : St) x : upper_layer_chksum proto s = Some x →
  u16 (len_field s - UIP_IPH_LEN) + 34 <= msize (s_buf s) ∧ x = sum_result (upper_sum proto s).
Proof.
  unfold upper_layer_chksum. fold (len_field s). rewrite mread_region by (unfold UIP_IPH_LEN, UIP_LLH_LEN; lia). case_decide as Hd; [|done].
  intros [= <-]. split; [unfold UIP_IPH_LEN, UIP_LLH_LEN in *; lia|done].
Qed.

Lemma upper_layer_total proto (s : St) : u16 (len_field s - UIP_IPH_LEN) + 34 <= msize (s_buf s) → upper_layer_chksum proto s = Some (sum_result (upper_sum proto s)).
Proof.
  intros H. unfold upper_layer_chksum. fold (len_field s). rewrite mread_region by (unfold UIP_IPH_LEN, UIP_LLH_LEN; lia). rewrite decide_True; [done|].
  pose proof (u16_word (len_field s - UIP_IPH_LEN)) as Hw. unfold word_ok in Hw. unfold UIP_IPH_LEN, UIP_LLH_LEN in *. lia.
Qed.

(** A byte that is not in the pseudo header nor behind the IP header does not matter. *)
Lemma upper_layer_put8 proto o v (s : St) : 0 <= o < f_srcipaddr → o ≠ f_len → o ≠ f_len + 1 → upper_layer_chksum proto (put8 o v s) = upper_layer_chksum proto s.
Proof.
  unfold f_srcipaddr, f_len. intros Ho H2 H3. unfold upper_layer_chksum. unfold f_len. rewrite !get8_put8_ne by lia. rewrite !mread_region by (unfold UIP_IPH_LEN, UIP_LLH_LEN; lia).
  change (take 8 (drop (Z.to_nat (UIP_LLH_LEN + f_srcipaddr)) (s_buf (put8 o v s)))) with (region 26 8 (put8 o v s)).
  rewrite region_put8_out by (unfold UIP_LLH_LEN; lia). assert (msize (s_buf (put8 o v s)) = msize (s_buf s)) as -> by (unfold msize, put8; cbn; by rewrite length_insert).
  case_decide; [|done]. rewrite region_put8_out by (unfold UIP_LLH_LEN, UIP_IPH_LEN; lia). done.
Qed.

Lemma len_field_put8 o v (s : St) : 0 <= o → o ≠ f_len → o ≠ f_len + 1 → len_field (put8 o v s) = len_field s.
Proof. intros. unfold len_field, f_len in *. by rewrite !get8_put8_ne by lia. Qed.

Lemma len_field_put16 o v (s : St) : f_ipchksum <= o → len_field (put16 o v s) = len_field s.
Proof. unfold f_ipchksum. intros. unfold put16. destruct uip_little; by rewrite !len_field_put8 by (unfold f_len; lia). Qed.

Lemma upper_sum_range proto (s : St) : buf_ok s → word_ok (upper_sum proto s).
Proof.
  intros H. unfold upper_sum. pose proof (region_bytes 26 8 s H) as H1. set (n := Z.to_nat _). pose proof (region_bytes 34 n s H) as H2.
  pose proof (words_nonneg _ H1). pose proof (words_nonneg _ H2). set (init := u16 _). assert (word_ok init) as Hi by (apply u16_word). unfold word_ok in Hi.
  rewrite (chksum_words _ H1) by done. rewrite (chksum_words _ H2); [|apply norm_range; lia]. apply norm_range. pose proof (norm_range (init + words (region 26 8 s))). lia.
Qed.

(** The sum with its field set to [v], when it was zero. *)
Lemma upper_sum_set proto o k v (s : St) : buf_ok s → o = UIP_IPH_LEN + Z.of_nat k → Nat.even k = true → word_ok v → 
  Z.of_nat (S k) < u16 (len_field s - UIP_IPH_LEN) → u16 (len_field s - UIP_IPH_LEN) + 34 <= msize (s_buf s) →
  let n := Z.to_nat (u16 (len_field s - UIP_IPH_LEN)) in
  let init := chksum (u16 (u16 (len_field s - UIP_IPH_LEN) + proto)) (region 26 8 s) in
  word_ok init ∧ bytes_ok (region 34 n s) ∧ (S k < length (region 34 n s))%nat ∧ upper_sum proto s = chksum init (region 34 n s) ∧
  upper_sum proto (put16 o (htons v) s) = chksum init (set_word k v (region 34 n s)) ∧
  region 34 n s !!! k = get8 s o ∧ region 34 n s !!! S k = get8 s (o + 1).
Proof.
  intros Hs -> He Hv Hk Hn. cbv zeta. unfold UIP_IPH_LEN in *. set (n := Z.to_nat _). pose proof (region_bytes 26 8 s Hs) as H1. pose proof (region_bytes 34 n s Hs) as H2.
  destruct Hs as [Hsz Hb] eqn:E. clear E. assert (buf_ok s) as Hs' by done. split_and!.
  - rewrite (chksum_words _ H1) by apply u16_word. apply norm_range. pose proof (words_nonneg _ H1). pose proof (u16_word (u16 (len_field s - 20) + proto)) as Hw. unfold word_ok in Hw. lia.
  - done.
  - rewrite region_length; [lia|done|]. unfold n. unfold msize in *. lia.
  - done.
  - unfold upper_sum. rewrite len_field_put16 by (unfold f_ipchksum; lia). unfold UIP_IPH_LEN. fold n.
    assert (region 26 8 (put16 (20 + Z.of_nat k) (htons v) s) = region 26 8 s) as -> by (unfold put16; destruct uip_little; rewrite !region_put8_out by (unfold UIP_LLH_LEN; lia); done).
    by rewrite (region_set_word _ _ _ _ _ k) by (done || unfold UIP_LLH_LEN; lia).
  - apply region_get; [done|lia|lia|lia|unfold UIP_LLH_LEN; lia].
  - apply region_get; [done|lia|lia|lia|unfold UIP_LLH_LEN; lia].
Qed.

Lemma upper_fill proto o k (s : St) x : buf_ok s → o = UIP_IPH_LEN + Z.of_nat k → o < 80 → Nat.even k = true → Z.of_nat (S k) < u16 (len_field s - UIP_IPH_LEN) →
  let s0 := put16 o 0 s in upper_layer_chksum proto s0 = Some x →
  let s1 := put16 o (u16 (Z.lnot x)) s0 in
  upper_layer_chksum proto s1 = Some 65535 ∧ (get16 s1 o = 0 → upper_layer_chksum proto (put16 o 65535 s1) = Some 65535).
Proof.
  intros Hs Eo Ho He Hk s0 Hx s1. assert (buf_ok s0) as H0 by (by apply buf_ok_put16). apply upper_layer_result in Hx as [Hn Ex].
  assert (len_field s0 = len_field s) as El by (apply len_field_put16; unfold f_ipchksum, UIP_IPH_LEN in *; lia). rewrite El in Hn.
  pose proof (upper_sum_range proto s0 H0) as Hw. set (sum := upper_sum proto s0) in *. set (v := if sum =? 0 then 0 else 65535 - sum).
  assert (word_ok v) as Hv by (unfold v, word_ok in *; destruct (Z.eqb_spec sum 0); lia).
  assert (s1 = put16 o (htons v) s0) as E1 by (unfold s1; by rewrite Ex, sum_result_lnot).
  destruct (get8_put16_zero o s Hs) as [Z1 Z2]; [unfold UIP_IPH_LEN in *; lia|]. fold s0 in Z1, Z2.
  destruct (upper_sum_set proto o k v s0 H0 Eo He Hv) as (Hi & Hb & Hl & Hsum & Hset & G1 & G2); [by rewrite El|by rewrite El|]. fold sum in Hsum.
  rewrite Z1 in G1. rewrite Z2 in G2. destruct (chksum_fill _ k _ Hi Hb He Hl G1 G2) as [_ Hfill]. rewrite <- Hsum in Hfill. fold v in Hfill. rewrite <- Hset, <- E1 in Hfill.
  assert (buf_ok s1) as H1 by (by apply buf_ok_put16). assert (len_field s1 = len_field s) as El1.
  { rewrite <- El. apply len_field_put16. unfold f_ipchksum, UIP_IPH_LEN in *; lia. }
  assert (∀ t, buf_ok t → len_field t = len_field s → upper_layer_chksum proto t = Some (sum_result (upper_sum proto t))) as Htot.
  { intros t [Ht _] Elt. apply upper_layer_total. rewrite Elt, Ht. destruct H0 as [H0 _]. by rewrite <- H0. }
  split; [rewrite Htot by done; f_equal; apply sum_result_valid; rewrite Hfill; destruct (sum =? 0); auto|].
  intros Hz. assert (get8 s1 o = 0 ∧ get8 s1 (o + 1) = 0) as [Y1 Y2].
  { pose proof (get8_ok s1 o H1). pose proof (get8_ok s1 (o + 1) H1). unfold byte_ok, get16 in *. destruct uip_little; lia. }
  destruct (upper_sum_set proto o k 65535 s1 H1 Eo He) as (Hi1 & Hb1 & Hl1 & Hsum1 & Hset1 & G3 & G4); [by apply word_const|by rewrite El1|rewrite El1; destruct H0 as [H0 _], H1 as [H1 _]; lia|].
  rewrite Y1 in G3. rewrite Y2 in G4. rewrite htons_ones in Hset1. rewrite Htot; [|by apply buf_ok_put16|rewrite <- El1; apply len_field_put16; unfold f_ipchksum, UIP_IPH_LEN in *; lia].
  f_equal. apply sum_result_valid. right. rewrite Hset1. apply chksum_ones; try done. rewrite <- Hsum1, Hfill. destruct (sum =? 0); auto.
Qed.
End valid.

(** ** The packets that are sent *)

Section output.
Context {conf : UipConf} {sizes : UipSizes conf} {A : Type}.
Abbreviation St := (stack A).

Lemma get16_put16 o v (s : St) : buf_ok s → word_ok v → -14 <= o < 80 → get16 (put16 o v s) o = v.
Proof.
  intros H Hv Ho. unfold word_ok in Hv. unfold get16, put16. destruct uip_little.
  - rewrite get8_put8 by (first [by apply buf_ok_put8 | unfold in_header; lia]). rewrite get8_put8_ne by lia. rewrite get8_put8 by (first [done | unfold in_header; lia]).
    unfold u8. Z.div_mod_to_equations; lia.
  - rewrite get8_put8 by (first [by apply buf_ok_put8 | unfold in_header; lia]). rewrite get8_put8_ne by lia. rewrite get8_put8 by (first [done | unfold in_header; lia]).
    unfold u8. Z.div_mod_to_equations; lia.
Qed.

Lemma get16_put16_ne o o' v (s : St) : -14 <= o → -14 <= o' → o' < o - 1 ∨ o + 1 < o' → get16 (put16 o v s) o' = get16 s o'.
Proof. intros. unfold get16. rewrite !get8_put16_ne by lia. done. Qed.

Lemma get_ip_put_ip o a (s : St) : buf_ok s → ip_ok a → -14 <= o < 70 → get_ip (put_ip o a s) o = a.
Proof.
  intros H [H1 H2] Ho. unfold get_ip, put_ip. rewrite get16_put16_ne by lia. rewrite get16_put16, get16_put16 by (first [done | by apply buf_ok_put16 | lia]).
  by destruct a.
Qed.

Lemma get_ip_put_ip_ne o o' a (s : St) : -14 <= o → -14 <= o' → o' < o - 3 ∨ o + 3 < o' → get_ip (put_ip o a s) o' = get_ip s o'.
Proof. intros. unfold get_ip, put_ip. by rewrite !get16_put16_ne by lia. Qed.

Lemma buf_ok_put_ip o a (s : St) : buf_ok s → buf_ok (put_ip o a s).
Proof. intros. unfold put_ip. by do 2 apply buf_ok_put16. Qed.

(** A packet that a receiver accepts: the header with the board's address, the length, the checksum of the header, and a TCP segment with its
    checksum or a UDP datagram with its length and checksum. *)
Definition tcp_valid (s : St) : Prop := get8 s f_proto = UIP_PROTO_TCP ∧ uip_tcpchksum s = Some 65535.
Definition udp_valid (s : St) : Prop :=
  get8 s f_proto = UIP_PROTO_UDP ∧ get16 s f_udplen = HTONS (s_len s - UIP_IPH_LEN) ∧ uip_udpchksum s = Some 65535.

Definition packet_valid (s : St) : Prop :=
  get8 s f_vhl = 69 ∧ len_field s = s_len s ∧ uip_ipchksum s = 65535 ∧ get_ip s f_srcipaddr = s_hostaddr s ∧ (tcp_valid s ∨ udp_valid s).

(** The fields that the end of [uip_process] takes as they are. *)
Definition addressed_as (proto : Z) (s : St) : Prop := get8 s f_proto = proto ∧ get_ip s f_srcipaddr = s_hostaddr s.

Lemma host_put16 o v (s : St) : s_hostaddr (put16 o v s) = s_hostaddr s.
Proof. unfold put16. by destruct uip_little. Qed.

Lemma host_put32 o v (s : St) : s_hostaddr (put32 o v s) = s_hostaddr s.
Proof. by destruct v as [[[a b] c] d]. Qed.

Lemma host_put_ip o v (s : St) : s_hostaddr (put_ip o v s) = s_hostaddr s.
Proof. unfold put_ip. by rewrite !host_put16. Qed.

Lemma addressed_same proto (s s' : St) : s_hostaddr s' = s_hostaddr s → (∀ o, o = f_proto ∨ f_srcipaddr <= o < f_destipaddr → get8 s' o = get8 s o) →
  addressed_as proto s → addressed_as proto s'.
Proof.
  intros Hh H [H1 H2]. unfold addressed_as, get_ip, get16 in *. rewrite Hh. rewrite !H by (unfold f_proto, f_srcipaddr, f_destipaddr; lia). done.
Qed.

Lemma addressed_put8 proto o v (s : St) : 0 <= o → o ≠ f_proto → o < f_srcipaddr ∨ f_destipaddr <= o → addressed_as proto s → addressed_as proto (put8 o v s).
Proof. unfold f_proto, f_srcipaddr, f_destipaddr. intros. apply (addressed_same proto s); [done|intros; rewrite get8_put8_ne; [done|unfold f_proto, f_srcipaddr, f_destipaddr in *; lia..]|done]. Qed.

Lemma addressed_put16 proto o v (s : St) : f_destipaddr <= o → addressed_as proto s → addressed_as proto (put16 o v s).
Proof. unfold f_destipaddr. intros. unfold put16. destruct uip_little; repeat apply addressed_put8; unfold f_proto, f_srcipaddr, f_destipaddr; try lia; done. Qed.

Lemma upper_layer_put16 proto o v (s : St) : f_ipoffset <= o < f_srcipaddr - 1 → upper_layer_chksum proto (put16 o v s) = upper_layer_chksum proto s.
Proof. unfold f_ipoffset, f_srcipaddr. intros. unfold put16. destruct uip_little; by rewrite !upper_layer_put8 by (unfold f_srcipaddr, f_len; lia). Qed.

Lemma ip_send_nolen_valid (s s' : St) : stack_ok s → ip_send_nolen s = Some s' →
  get8 s' f_vhl = 69 ∧ uip_ipchksum s' = 65535 ∧ s_len s' = s_len s ∧ len_field s' = len_field s ∧ s_hostaddr s' = s_hostaddr s ∧
  (∀ o, o = f_proto ∨ f_srcipaddr <= o → get8 s' o = get8 s o) ∧ ∀ proto, upper_layer_chksum proto s' = upper_layer_chksum proto s.
Proof.
  intros Hs E. unfold ip_send_nolen in E. cbv zeta in E. unfold send in E.
  set (t := set_ipid _ (put8 f_ipoffset 0 _)) in E. set (t1 := put8 (f_ipid + 1) _ _) in E.
  assert (stack_ok t1) as H1 by (unfold t1, t; stk).
  assert (s' = set_flags 0 (put16 f_ipchksum (u16 (Z.lnot (uip_ipchksum (put16 f_ipchksum 0 t1)))) (put16 f_ipchksum 0 t1))) as -> by (by injection E). clear E.
  split_and!.
  - change (get8 (set_flags 0 ?x) f_vhl) with (get8 x f_vhl). rewrite !get8_put16_ne by (unfold f_vhl, f_ipchksum; lia). unfold t1. rewrite !get8_put8_ne by (unfold f_vhl, f_ipid; lia).
    unfold t. change (get8 (set_ipid ?v ?x) f_vhl) with (get8 x f_vhl). rewrite !get8_put8_ne by (unfold f_vhl, f_ipoffset, f_tos; lia). rewrite get8_put8; [done|apply Hs|unfold in_header, f_vhl; lia].
  - change (uip_ipchksum (set_flags 0 ?x)) with (uip_ipchksum x). by apply ipchksum_fill, H1.
  - unfold put16. by destruct uip_little.
  - change (len_field (set_flags 0 ?x)) with (len_field x). rewrite !len_field_put16 by (unfold f_ipchksum; lia). unfold t1. rewrite !len_field_put8 by (unfold f_len, f_ipid; lia).
    unfold t. change (len_field (set_ipid ?v ?x)) with (len_field x). by rewrite !len_field_put8 by (unfold f_len, f_ipoffset, f_tos, f_vhl; lia).
  - unfold put16. by destruct uip_little.
  - intros o Ho. change (get8 (set_flags 0 ?x) o) with (get8 x o). unfold f_proto, f_srcipaddr in Ho. rewrite !get8_put16_ne by (unfold f_ipchksum; lia). unfold t1. rewrite !get8_put8_ne by (unfold f_ipid; lia).
    unfold t. change (get8 (set_ipid ?v ?x) o) with (get8 x o). by rewrite !get8_put8_ne by (unfold f_vhl, f_ipoffset, f_tos; lia).
  - intros proto. change (upper_layer_chksum proto (set_flags 0 ?x)) with (upper_layer_chksum proto x). rewrite !upper_layer_put16 by (unfold f_ipchksum, f_ipoffset, f_srcipaddr; lia).
    unfold t1. rewrite !upper_layer_put8 by (unfold f_len, f_ipid, f_srcipaddr; lia). unfold t. change (upper_layer_chksum proto (set_ipid ?v ?x)) with (upper_layer_chksum proto x).
    by rewrite !upper_layer_put8 by (unfold f_len, f_ipoffset, f_tos, f_vhl, f_srcipaddr; lia).
Qed.

Lemma len_bytes n (s : St) : buf_ok s → word_ok n → len_field (put8 (f_len + 1) (Z.land n 255) (put8 f_len (Z.shiftr n 8) s)) = n.
Proof.
  intros Hs Hn. unfold len_field. rewrite get8_put8 by (first [by apply buf_ok_put8 | unfold in_header, f_len; lia]). rewrite get8_put8_ne by (unfold f_len; lia).
  rewrite get8_put8 by (first [done | unfold in_header, f_len; lia]). change 255 with (Z.ones 8). rewrite Z.land_ones, Z.shiftr_div_pow2, Z.shiftl_mul_pow2 by lia. change (2 ^ 8) with 256.
  unfold word_ok, u8 in *. Z.div_mod_to_equations; lia.
Qed.

Lemma tcp_send_noconn_valid (s s' : St) : stack_ok s → UIP_IPTCPH_LEN <= s_len s → addressed_as UIP_PROTO_TCP s → tcp_send_noconn s = Some s' →
  packet_valid s' ∧ get8 s' f_proto = UIP_PROTO_TCP ∧ s_len s' = s_len s.
Proof.
  intros Hs Hl Hp E. unfold tcp_send_noconn in E. cbv zeta in E. apply bind_Some in E as (x & Hx & E).
  set (t0 := put8 f_ttl UIP_TTL s) in *. set (t := put8 f_urgp 0 _) in *. assert (stack_ok t) as Ht by (unfold t, t0; stk).
  assert (addressed_as UIP_PROTO_TCP t) as Hpt by (unfold t, t0; repeat apply addressed_put8; unfold f_urgp, f_len, f_ttl, f_proto, f_srcipaddr, f_destipaddr; try lia; done).
  assert (len_field t = s_len s) as Hlen.
  { unfold t. do 2 rewrite len_field_put8 by (unfold f_urgp, f_len; lia). change (s_len (put8 f_len _ _)) with (s_len s). change (s_len t0) with (s_len s). apply len_bytes; [unfold t0; by apply buf_ok_put8, Hs|apply Hs]. }
  assert (s_len t = s_len s) as Hsl by done. clearbody t. pose proof (sok_len _ Hs) as Hw. unfold word_ok in Hw. unfold UIP_IPTCPH_LEN, UIP_TCPH_LEN, UIP_IPH_LEN in Hl.
  destruct (upper_fill UIP_PROTO_TCP f_tcpchksum 16 t x) as [Hv _]; [apply Ht|done|done|done|rewrite Hlen, u16_id by (unfold UIP_IPH_LEN; lia); unfold UIP_IPH_LEN; lia|exact Hx|].
  apply ip_send_nolen_valid in E as (E1 & E2 & E3 & E4 & E5 & E6 & E7); [|by repeat apply ok_put16].
  rewrite !len_field_put16 in E4 by (unfold f_ipchksum, f_tcpchksum; lia).
  assert (s_len s' = s_len s) as El by (rewrite E3, <- Hsl; unfold put16; by destruct uip_little).
  assert (addressed_as UIP_PROTO_TCP s') as [P1 P2].
  { eapply addressed_same; [exact E5|intros o Ho; apply E6; lia|]. repeat apply addressed_put16; (done || unfold f_destipaddr, f_tcpchksum; lia). }
  split; [|by split]. split_and!; [done|congruence|done|done|]. left. split; [done|]. unfold uip_tcpchksum. by rewrite E7.
Qed.

(** The fields of a packet that the stack makes. *)
Lemma proto_put16 o v (s : St) : f_proto < o → get8 (put16 o v s) f_proto = get8 s f_proto.
Proof. unfold f_proto. intros. apply get8_put16_ne; lia. Qed.

Lemma proto_put32 o v (s : St) : f_proto < o → get8 (put32 o v s) f_proto = get8 s f_proto.
Proof. unfold f_proto. intros. destruct v as [[[a b] c] d]. unfold put32. cbv beta iota. by rewrite !get8_put8_ne by lia. Qed.

Lemma proto_put_ip o v (s : St) : f_proto < o → get8 (put_ip o v s) f_proto = get8 s f_proto.
Proof. unfold f_proto. intros. unfold put_ip. by rewrite !get8_put16_ne by lia. Qed.

Lemma proto_put8 o v (s : St) : 0 <= o → o ≠ f_proto → get8 (put8 o v s) f_proto = get8 s f_proto.
Proof. unfold f_proto. intros. by rewrite get8_put8_ne by lia. Qed.

Lemma addressed_src proto h (s : St) : stack_ok s → get8 s f_proto = proto → h = s_hostaddr s → addressed_as proto (put_ip f_srcipaddr h s).
Proof.
  intros Hs Hp ->. split; [by rewrite proto_put_ip by (unfold f_proto, f_srcipaddr; lia)|]. rewrite host_put_ip.
  apply get_ip_put_ip; [apply Hs|apply Hs|unfold f_srcipaddr; lia].
Qed.

Lemma addressed_dest proto a (s : St) : addressed_as proto s → addressed_as proto (put_ip f_destipaddr a s).
Proof. intros H. unfold put_ip. repeat apply addressed_put16; (done || unfold f_destipaddr; lia). Qed.

Lemma addressed_header proto a lp rp (t : St) : stack_ok t → byte_ok proto → let u := put16 f_destport rp (put16 f_srcport lp (put8 f_proto proto t)) in
  addressed_as proto (put_ip f_destipaddr a (put_ip f_srcipaddr (s_hostaddr u) u)).
Proof.
  intros Ht Hp u. apply addressed_dest, addressed_src; [unfold u; stk| |done]. unfold u. rewrite !proto_put16 by (unfold f_proto, f_destport, f_srcport; lia).
  rewrite get8_put8 by (first [apply Ht | unfold in_header, f_proto; lia]). by apply u8_id.
Qed.

(** What a label does with a state of the invariant, when it is entered with [pre]. *)
Definition sends (pre : St → Prop) (f : St → option St) : Prop := ∀ s s', stack_ok s → pre s → f s = Some s' → s_len s' = 0 ∨ packet_valid s'.
Definition any : St → Prop := λ _, True.
Definition has_header (s : St) : Prop := UIP_IPTCPH_LEN <= s_len s.

(** A TCP segment is in the buffer, and the application writes behind the header. *)
Definition tcp_in (s : St) : Prop := get8 s f_proto = UIP_PROTO_TCP ∧ UIP_LLH_LEN + f_proto < s_sappdata s.

Lemma sends_drop pre : sends pre drop_packet.
Proof. intros s s' _ _ [= <-]. by left. Qed.

Lemma sends_tcp_send_noconn : sends (λ s, has_header s ∧ addressed_as UIP_PROTO_TCP s) tcp_send_noconn.
Proof. intros s s' H [Hp Ha] E. right. by apply (tcp_send_noconn_valid s). Qed.

Lemma s_len_put16 o v (s : St) : s_len (put16 o v s) = s_len s.
Proof. unfold put16. by destruct uip_little. Qed.

Lemma s_len_put32 o v (s : St) : s_len (put32 o v s) = s_len s.
Proof. by destruct v as [[[a b] c] d]. Qed.

Lemma s_len_put_ip o v (s : St) : s_len (put_ip o v s) = s_len s.
Proof. unfold put_ip. by rewrite !s_len_put16. Qed.

Lemma s_len_put8 o v (s : St) : s_len (put8 o v s) = s_len s.
Proof. done. Qed.

Lemma s_slen_put8 o v (s : St) : s_slen (put8 o v s) = s_slen s.
Proof. done. Qed.

Lemma sends_tcp_send i : sends has_header (tcp_send i).
Proof.
  intros s s' H Hp E. unfold tcp_send in E. cbv zeta in E. apply bind_Some in E as (c & _ & E). apply sends_tcp_send_noconn in E; [done| |].
  - destruct (bits _ _); stk.
  - split; [unfold has_header in *; destruct (bits _ _); by rewrite !s_len_put8, !s_len_put_ip, !s_len_put16, s_len_put8, !s_len_put32|].
    set (t := put_ip f_destipaddr _ _). assert (addressed_as UIP_PROTO_TCP t) as Ht by (apply addressed_header; [stk|done]).
    destruct (bits _ _); repeat apply addressed_put8; (done || unfold f_wnd, f_proto, f_srcipaddr, f_destipaddr; lia).
Qed.

Lemma sends_tcp_send_noopts i : sends has_header (tcp_send_noopts i).
Proof. intros s s' H Hp E. unfold tcp_send_noopts in E. apply sends_tcp_send in E; [done|stk|done]. Qed.

Lemma sends_tcp_send_nodata i : sends any (tcp_send_nodata i).
Proof. intros s s' H _ E. unfold tcp_send_nodata in E. apply sends_tcp_send_noopts in E; [done|stk|done]. Qed.

Lemma sends_tcp_send_ack i : sends any (tcp_send_ack i).
Proof. intros s s' H _ E. unfold tcp_send_ack in E. apply sends_tcp_send_nodata in E; [done|stk|done]. Qed.

Lemma sends_tcp_send_finack i : sends any (tcp_send_finack i).
Proof. intros s s' H _ E. unfold tcp_send_finack in E. apply sends_tcp_send_nodata in E; [done|stk|done]. Qed.

Lemma sends_tcp_send_syn i : sends any (tcp_send_syn i).
Proof. intros s s' H _ E. unfold tcp_send_syn in E. cbv zeta in E. apply sends_tcp_send in E; [done|stk|]. done. Qed.

Lemma sends_tcp_send_synack i : sends any (tcp_send_synack i).
Proof. intros s s' H _ E. unfold tcp_send_synack in E. apply sends_tcp_send_syn in E; [done|stk|done]. Qed.

Lemma sends_reset : sends (λ s, get8 s f_proto = UIP_PROTO_TCP) reset.
Proof.
  intros s s' H Hp E. unfold reset in E. cbv zeta in E. destruct (bits _ _); [by apply (sends_drop any s)|]. apply sends_tcp_send_noconn in E; [done|stk; by apply incr32_spec, get32_ok, H|].
  split; [unfold has_header; by rewrite !s_len_put_ip, !s_len_put16, !s_len_put32|]. apply addressed_src; [stk| |done].
  rewrite proto_put_ip, !proto_put16, !proto_put32, !proto_put8 by (unfold f_proto, f_destipaddr, f_srcport, f_destport, f_seqno, f_ackno, f_tcpoffset; lia).
  change (get8 (set_len ?v ?x) f_proto) with (get8 x f_proto). rewrite proto_put8 by (unfold f_flags, f_proto; lia). exact Hp.
Qed.

Lemma put8_id o (s : St) : buf_ok s → 0 <= o → get8 s o = 0 → put8 o 0 s = s.
Proof.
  intros [Hb _] Ho Hz. destruct s. unfold put8, get8, set_buf, UIP_LLH_LEN in *. cbn in *. f_equal. destruct (s_buf !! Z.to_nat (14 + o)) eqn:E; cbn in Hz.
  - apply list_insert_id. by rewrite E, Hz.
  - apply list_insert_ge. by apply lookup_ge_None.
Qed.

Lemma get8_put_ip_ne o o' v (s : St) : -14 <= o → -14 <= o' → o' < o ∨ o + 4 <= o' → get8 (put_ip o v s) o' = get8 s o'.
Proof. intros. unfold put_ip. by rewrite !get8_put16_ne by lia. Qed.

Lemma len_field_put_ip o v (s : St) : f_ipchksum <= o → len_field (put_ip o v s) = len_field s.
Proof. unfold f_ipchksum. intros. unfold put_ip. by rewrite !len_field_put16 by (unfold f_ipchksum; lia). Qed.

Lemma sends_udp_send : sends any udp_send.
Proof.
  intros s s' H _ E. unfold udp_send in E. cbv zeta in E. destruct (Z.eqb_spec (s_slen s) 0); [by apply (sends_drop any s)|]. right.
  apply bind_Some in E as (u & _ & E). apply bind_Some in E as (x & Hx & E). pose proof (sok_slen _ H) as Hsl. pose proof bufsize_ok as Hsz.
  unfold UIP_IPUDPH_LEN, UIP_UDPH_LEN, UIP_IPH_LEN in *. rewrite (u16_id (s_slen s + (8 + 20))) in * by lia. set (len := s_slen s + (8 + 20)) in *.
  set (t0 := set_len len s) in *. set (t1 := put8 (f_len + 1) _ _) in *. assert (stack_ok t1) as H1 by (unfold t1, t0; stk; unfold word_ok; lia).
  assert (len_field t1 = len) as Hlen by (apply (len_bytes len t0); [apply H|unfold word_ok; lia]). assert (s_len t1 = len) as Hl1 by done. assert (s_slen t1 = s_slen s) as Hs1 by done. clearbody t1.
  set (t2 := put16 f_udpchksum 0 _) in *. set (t := set_appdata _ _) in Hx, E.
  assert (stack_ok t) as Ht by (unfold t, t2; stk). assert (len_field t = len) as Hlt.
  { unfold t. change (len_field (set_appdata ?v ?y)) with (len_field y). rewrite !len_field_put_ip, !len_field_put16 by (unfold f_ipchksum, f_srcipaddr, f_destipaddr, f_srcport, f_destport; lia).
    unfold t2. by rewrite !len_field_put16, !len_field_put8 by (unfold f_ipchksum, f_udpchksum, f_udplen, f_proto, f_ttl, f_len; lia). }
  assert (s_len t = len) as Hst by (unfold t; change (s_len (set_appdata ?v ?y)) with (s_len y); rewrite !s_len_put_ip, !s_len_put16; unfold t2; by rewrite !s_len_put16, !s_len_put8).
  assert (put16 f_udpchksum 0 t = t) as Hz.
  { assert (buf_ok t2) as Hb2 by (unfold t2; repeat apply buf_ok_put16; repeat apply buf_ok_put8; apply H1).
    assert (∀ k, k = 26 ∨ k = 27 → get8 t k = 0) as Hk.
    { intros k Hk. unfold t. change (get8 (set_appdata ?v ?y) k) with (get8 y k). rewrite !get8_put_ip_ne, !get8_put16_ne by (unfold f_srcipaddr, f_destipaddr, f_srcport, f_destport; lia).
      unfold t2. set (t3 := put16 f_udplen _ _). assert (buf_ok t3) as H3 by (unfold t3; apply buf_ok_put16; repeat apply buf_ok_put8; apply H1).
      destruct (get8_put16_zero f_udpchksum t3 H3) as [G1 G2]; [unfold f_udpchksum; lia|]. by destruct Hk as [-> | ->]. }
    rewrite put16_zero by (unfold f_udpchksum; lia). rewrite (put8_id f_udpchksum) by (first [apply Ht|unfold f_udpchksum; lia|by apply Hk; auto]). apply put8_id; [apply Ht|unfold f_udpchksum; lia|by apply Hk; auto]. }
  assert (word_ok (s_slen s + 8)) as Hw8 by (unfold word_ok; lia).
  assert (addressed_as UIP_PROTO_UDP t ∧ get16 t f_udplen = HTONS (s_slen s + 8)) as [Hat Hut].
  { unfold t. change (addressed_as ?p (set_appdata ?v ?y)) with (addressed_as p y). change (get16 (set_appdata ?v ?y) ?o) with (get16 y o). split.
    - apply addressed_dest, addressed_src; [unfold t2; stk| |done]. unfold t2. rewrite !proto_put16 by (unfold f_proto, f_destport, f_srcport, f_udpchksum, f_udplen; lia).
      apply get8_put8; [apply buf_ok_put8, H1|unfold in_header, f_proto; lia].
    - assert (∀ o a (y : St), o + 3 < f_udplen → 0 <= o → get16 (put_ip o a y) f_udplen = get16 y f_udplen) as Hi.
      { unfold f_udplen. intros. unfold put_ip. by rewrite !get16_put16_ne by lia. }
      rewrite !Hi by (unfold f_udplen, f_srcipaddr, f_destipaddr; lia). rewrite !get16_put16_ne by (unfold f_udplen, f_srcport, f_destport; lia).
      unfold t2. rewrite get16_put16_ne by (unfold f_udplen, f_udpchksum; lia). rewrite !s_slen_put8, Hs1. rewrite get16_put16; [|by apply buf_ok_put8, buf_ok_put8, H1|apply htons_range; exact Hw8|unfold f_udplen; lia].
      done. }
  clearbody t. rewrite <- Hz in Hx. destruct (upper_fill UIP_PROTO_UDP f_udpchksum 6 t x) as [Hv1 Hv2]; [apply Ht|done|done|done|rewrite Hlt, u16_id by (unfold UIP_IPH_LEN; lia); unfold UIP_IPH_LEN; lia|exact Hx|].
  rewrite Hz in Hv1, Hv2. set (w := put16 f_udpchksum (u16 (Z.lnot x)) t) in *. set (w' := if get16 w f_udpchksum =? 0 then _ else _) in E.
  assert (upper_layer_chksum UIP_PROTO_UDP w' = Some 65535 ∧ len_field w' = len ∧ s_len w' = len ∧ stack_ok w' ∧ addressed_as UIP_PROTO_UDP w' ∧ get16 w' f_udplen = HTONS (s_slen s + 8)) as (Hw1 & Hw2 & Hw3 & Hw4 & Hw5 & Hw6).
  { unfold w'. destruct (Z.eqb_spec (get16 w f_udpchksum) 0) as [E0|]; unfold w; rewrite ?len_field_put16, ?s_len_put16 by (unfold f_ipchksum, f_udpchksum; lia);
      rewrite !get16_put16_ne by (unfold f_udpchksum, f_udplen; lia).
    - split_and!; [by apply Hv2|done|done|by repeat apply ok_put16|repeat apply addressed_put16; (done || unfold f_destipaddr, f_udpchksum; lia)|done].
    - split_and!; [done|done|done|by repeat apply ok_put16|repeat apply addressed_put16; (done || unfold f_destipaddr, f_udpchksum; lia)|done]. }
  clearbody w'. apply ip_send_nolen_valid in E as (E1 & E2 & E3 & E4 & E5 & E6 & E7); [|done].
  assert (addressed_as UIP_PROTO_UDP s') as [P1 P2] by (eapply addressed_same; [exact E5|intros o Ho; apply E6; lia|done]).
  split_and!; [done|congruence|done|done|]. right. split_and!; [done| |unfold uip_udpchksum; by rewrite E7].
  rewrite E3, Hw3. unfold get16. rewrite !E6 by (unfold f_proto, f_srcipaddr, f_udplen; lia). change (get16 w' f_udplen = HTONS (len - UIP_IPH_LEN)). rewrite Hw6. unfold len, UIP_IPH_LEN. f_equal. lia.
Qed.

(** ** The answer of the application *)

Lemma sends_apprexmit i : sends any (apprexmit i).
Proof.
  intros s s' H _ E. unfold apprexmit in E. cbv zeta in E. apply bind_Some in E as (c & Hc & E). pose proof (cok_len _ (ok_conn _ _ _ H Hc)) as Hl. pose proof mss_ok.
  destruct (_ && _); [|destruct (uflag _ _)].
  - apply sends_tcp_send_noopts in E; [done|stk|]. unfold has_header. rewrite s_len_put8. cbn [s_len set_len]. rewrite u16_id; [unfold UIP_TCPIP_HLEN; lia|].
    unfold UIP_TCP_MSS, UIP_TCPIP_HLEN, UIP_IPTCPH_LEN, UIP_TCPH_LEN, UIP_IPH_LEN in *. pose proof bufsize_ok. unfold UIP_LLH_LEN in *. lia.
  - apply sends_tcp_send_noopts in E; [done|stk|done].
  - by apply (sends_drop any) in E; [|stk|].
Qed.

Lemma sends_appsend i : sends any (appsend i).
Proof.
  intros s s' H _ E. unfold appsend in E. cbv zeta in E. destruct (uflag _ _); [|destruct (uflag _ _)].
  - apply sends_tcp_send_nodata in E; [done|stk|done].
  - apply sends_tcp_send_nodata in E; [done|stk|done].
  - apply bind_Some in E as (s1 & E1 & E). apply keeps_limit_slen in E1; [|done]. apply sends_apprexmit in E; [done|stk|done].
Qed.

(** ** The labels that call the application *)

Context (UIP_APPCALL UIP_UDP_APPCALL : St → option St) `{!AppOk UIP_APPCALL, !AppOk UIP_UDP_APPCALL}.

(** A label that keeps the invariant, and then one that sends. *)
Lemma sends_after f g (s s' : St) : keeps f → sends any g → stack_ok s → (s1 ← f s; g s1) = Some s' → s_len s' = 0 ∨ packet_valid s'.
Proof. intros Hf Hg H (s1 & E1 & E)%bind_Some. eapply Hg; [by eapply Hf|done|exact E]. Qed.

Lemma sends_found_listen fuel : sends any (found_listen fuel).
Proof.
  intros s s' H _ E. unfold found_listen in E. destruct (unused_conn _ _ _) as [i|]; [|by apply (sends_drop any s)]. cbv zeta in E.
  eapply (sends_after (parse_mss fuel i)); [apply keeps_parse_mss|apply sends_tcp_send_synack| |exact E]. by apply ok_new_conn, ok_set_conn.
Qed.

Lemma sends_on_syn_rcvd i : sends any (on_syn_rcvd UIP_APPCALL i).
Proof.
  intros s s' H _ E. unfold on_syn_rcvd in E. cbv zeta in E. destruct (uflag _ _); [|by apply (sends_drop any s)].
  eapply (sends_after UIP_APPCALL); [by apply (keeps_app UIP_APPCALL)|apply sends_appsend| |exact E]. stk.
Qed.

Lemma app_proto (s s' : St) : stack_ok s → tcp_in s → UIP_APPCALL s = Some s' → get8 s' f_proto = UIP_PROTO_TCP.
Proof. intros H [Hp Hs] E. destruct (app_frames s s' E H) as [_ _ _ F4 _ _ _ _ _ _ _]. by rewrite F4. Qed.

Lemma tcp_in_check_ack i (s s' : St) : tcp_in s → check_ack i s = Some s' → tcp_in s'.
Proof.
  intros H E. unfold check_ack in E. cbv zeta in E. apply bind_Some in E as (c & _ & E). destruct (_ && _); [|by injection E as <-].
  destruct (bool_decide _); by injection E as <-.
Qed.

Lemma sends_on_syn_sent fuel i : sends tcp_in (on_syn_sent UIP_APPCALL fuel i).
Proof.
  intros s s' H Hin E. unfold on_syn_sent in E. cbv zeta in E. destruct (_ && _); apply bind_Some in E as (s1 & E1 & E).
  - apply keeps_parse_mss in E1; [|done]. eapply (sends_after UIP_APPCALL); [by apply (keeps_app UIP_APPCALL)|apply sends_appsend| |exact E]. stk.
    apply get32_ok, (sok_buf _ E1).
  - pose proof E1 as Ep. apply (keeps_app UIP_APPCALL) in E1; [|stk]. apply sends_reset in E; [done|stk|]. change (get8 s1 f_proto = UIP_PROTO_TCP). eapply (app_proto (set_flags UIP_ABORT s)); [stk|exact Hin|exact Ep].
Qed.

Lemma sends_on_established i : sends any (on_established UIP_APPCALL i).
Proof.
  intros s s' H _ E. unfold on_established in E. cbv zeta in E. apply bind_Some in E as (c & Hc & E). destruct (_ && _).
  - destruct (negb _); [by apply (sends_drop any s)|]. apply bind_Some in E as (s1 & E1 & E). apply (keeps_app UIP_APPCALL) in E1; [|stk]. apply sends_tcp_send_finack in E; [done|stk|done].
  - apply bind_Some in E as (s1 & E1 & E). apply keeps_set_mss in E1; [|stk]. destruct (_ || _); [|by apply (sends_drop any s1)].
    eapply (sends_after UIP_APPCALL); [by apply (keeps_app UIP_APPCALL)|apply sends_appsend| |exact E]. stk.
Qed.

Lemma sends_on_last_ack i : sends any (on_last_ack UIP_APPCALL i).
Proof.
  intros s s' H _ E. unfold on_last_ack in E. destruct (uflag _ _); [|by apply (sends_drop any s)]. apply bind_Some in E as (s1 & _ & E).
  injection E as <-. by left.
Qed.

Lemma sends_peer_closes i : sends any (peer_closes UIP_APPCALL i).
Proof.
  intros s s' H _ E. unfold peer_closes in E. eapply (sends_after UIP_APPCALL); [by apply (keeps_app UIP_APPCALL)|apply sends_tcp_send_ack| |exact E]. stk.
Qed.

Lemma sends_on_fin_wait_1 i : sends any (on_fin_wait_1 UIP_APPCALL i).
Proof.
  intros s s' H _ E. unfold on_fin_wait_1 in E. cbv zeta in E. destruct (bits _ _); [|destruct (uflag _ _); [|destruct (_ <? _)]].
  - apply sends_peer_closes in E; [done|stk|done].
  - injection E as <-. by left.
  - apply sends_tcp_send_ack in E; [done|stk|done].
  - injection E as <-. by left.
Qed.

Lemma sends_on_fin_wait_2 i : sends any (on_fin_wait_2 UIP_APPCALL i).
Proof.
  intros s s' H _ E. unfold on_fin_wait_2 in E. cbv zeta in E. destruct (bits _ _); [|destruct (_ <? _)].
  - apply sends_peer_closes in E; [done|stk|done].
  - apply sends_tcp_send_ack in E; [done|stk|done].
  - injection E as <-. by left.
Qed.

Lemma sends_on_closing i : sends any (on_closing i).
Proof. intros s s' H _ E. unfold on_closing in E. destruct (uflag _ _); injection E as <-; by left. Qed.

Lemma sends_by_state fuel i : sends tcp_in (by_state UIP_APPCALL fuel i).
Proof.
  intros s s' H Hin E. unfold by_state in E. apply bind_Some in E as (c & _ & E). cbv zeta in E. repeat case_match.
  - by eapply sends_on_syn_rcvd.
  - by eapply sends_on_syn_sent.
  - by eapply sends_on_established.
  - by eapply sends_on_last_ack.
  - by eapply sends_on_fin_wait_1.
  - by eapply sends_on_fin_wait_2.
  - by eapply sends_tcp_send_ack.
  - by eapply sends_on_closing.
  - by eapply (sends_drop any).
Qed.

Lemma sends_found fuel i : sends tcp_in (found UIP_APPCALL fuel i).
Proof.
  intros s s' H Hin E. unfold found in E. cbv zeta in E. destruct (bits _ _).
  - apply bind_Some in E as (s1 & E1 & E). injection E as <-. by left.
  - apply bind_Some in E as (c & _ & E). destruct (out_of_order _ _); [apply sends_tcp_send_ack in E; [done|stk|done]|].
    apply bind_Some in E as (s1 & E1 & E). pose proof E1 as Ei. apply keeps_check_ack in E1; [|stk]. eapply sends_by_state; [exact E1| |exact E]. by eapply tcp_in_check_ack; [|exact Ei].
Qed.

Lemma sends_tcp_input fuel : sends tcp_in (tcp_input UIP_APPCALL fuel).
Proof.
  intros s s' H Hin E. unfold tcp_input in E. apply bind_Some in E as (x & _ & E). destruct (negb _); [by apply (sends_drop any s)|]. destruct (find_conn _ _ _); [by eapply sends_found|].
  destruct (negb _); [by eapply sends_reset; [|apply Hin|]|]. case_bool_decide; [by eapply sends_found_listen|by eapply sends_reset; [|apply Hin|]].
Qed.

Lemma sends_udp_input : sends any (udp_input UIP_UDP_APPCALL).
Proof.
  intros s s' H _ E. unfold udp_input in E. cbv zeta in E. apply bind_Some in E as (x & _ & E). destruct (negb _); [injection E as <-; by left|].
  destruct (find_udp _ _ _); [|injection E as <-; by left]. eapply (sends_after UIP_UDP_APPCALL); [by apply (keeps_app UIP_UDP_APPCALL)|apply sends_udp_send| |exact E]. stk.
Qed.

Lemma sends_retransmit i : sends any (retransmit UIP_APPCALL i).
Proof.
  intros s s' H _ E. unfold retransmit in E. apply bind_Some in E as (c & _ & E). cbv zeta in E. repeat case_match.
  - by eapply sends_tcp_send_synack.
  - apply sends_tcp_send_syn in E; [done|stk|done].
  - eapply (sends_after UIP_APPCALL); [by apply (keeps_app UIP_APPCALL)|apply sends_apprexmit| |exact E]. stk.
  - by eapply sends_tcp_send_finack.
  - by eapply (sends_drop any).
Qed.

Lemma sends_outstanding_timer i : sends any (outstanding_timer UIP_APPCALL i).
Proof.
  intros s s' H _ E. unfold outstanding_timer in E. apply bind_Some in E as (c & _ & E). cbv zeta in E. destruct (_ =? 0); [|injection E as <-; by left].
  destruct (timed_out c).
  - apply bind_Some in E as (s1 & E1 & E). apply (keeps_app UIP_APPCALL) in E1; [|stk]. apply sends_tcp_send_nodata in E; [done|stk|done].
  - apply sends_retransmit in E; [done| |done]. stk.
Qed.

Lemma sends_uip_timer i : sends any (uip_timer UIP_APPCALL i).
Proof.
  intros s s' H _ E. unfold uip_timer in E. cbv zeta in E. apply bind_Some in E as (c & _ & E). set (s0 := set_slen 0 _) in E.
  assert (stack_ok s0) as H0 by (unfold s0; stk; apply incr32_spec; apply (sok_iss _ H)). clearbody s0. repeat case_match; try (injection E as <-; by left).
  - by eapply sends_outstanding_timer.
  - eapply (sends_after UIP_APPCALL); [by apply (keeps_app UIP_APPCALL)|apply sends_appsend| |exact E]. stk.
Qed.
End output.
