(* ===== verification/UipEcho.v ===== *)
(** * Echo replies, and every packet of the stack

    [icmp_input] turns a request into the reply in place and adjusts the checksum for the changed type; the reply is correct when
    the request was.  With this, all that [uip_process] leaves to be sent is described. *)
From S2P Require Import Prelude Psock UipSum Uip UipInv UipOut.

(** ** Sums modulo 65535 *)

Lemma norm_ones z : 0 <= z → norm z = 65535 ↔ 0 < z ∧ z mod 65535 = 0.
Proof.
  intros Hz. unfold norm. destruct (Z.eqb_spec z 0) as [->|].
  - split; [done|]. intros [? _]. lia.
  - split; [intros; split; [lia|]|intros [_ ?]]; Z.div_mod_to_equations; lia.
Qed.

Lemma norm_moved z z' : 0 <= z → 0 <= z' → z mod 65535 = z' mod 65535 → norm z = 65535 → norm z' = 65535 ∨ z' = 0.
Proof.
  intros Hz Hz' E [Hp H0]%norm_ones; [|done]. destruct (Z.eq_dec z' 0) as [|Hne]; [by right|]. left. apply norm_ones; [done|]. split; [lia|congruence].
Qed.

(** A string of bytes whose words are zero. *)
Lemma words_zero l : bytes_ok l → words l = 0 → Forall (λ b, b = 0) l.
Proof.
  revert l. fix IH 1. intros [|a [|b l]] H Hw; [done| |].
  - apply Forall_cons in H as [Ha _]. unfold byte_ok in Ha. cbn in Hw. constructor; [lia|done].
  - apply Forall_cons in H as [Ha H]. apply Forall_cons in H as [Hb H]. pose proof (words_nonneg l H). unfold byte_ok in *. cbn [words] in Hw. repeat constructor; [lia..|]. apply IH; [done|lia].
Qed.

Lemma zeros_words l : Forall (λ b, b = 0) l → words l = 0.
Proof.
  revert l. fix IH 1. intros [|a [|b l]] H; [done| |]; apply Forall_cons in H as [-> H]; [done|]. apply Forall_cons in H as [-> H]. cbn [words]. by rewrite (IH l H).
Qed.

Section echo.
Context {conf : UipConf} {sizes : UipSizes conf} {A : Type}.
Abbreviation St := (stack A).

(** ** Words of the buffer in the order of the network *)

Definition word_at (s : St) (o : Z) : Z := get8 s o * 256 + get8 s (o + 1).

Lemma word_at_get16 (s : St) o : buf_ok s → word_at s o = htons (get16 s o).
Proof.
  intros H. unfold htons. rewrite HTONS_spec by (by apply get16_ok). pose proof (get8_ok s o H). pose proof (get8_ok s (o + 1) H). unfold word_at, get16, byte_ok in *.
  destruct uip_little; Z.div_mod_to_equations; lia.
Qed.

(** A part of the buffer that begins with a word. *)
Lemma region_word d n (s : St) : buf_ok s → (14 <= d)%nat → Z.of_nat (d + S (S n)) <= UIP_BUFSIZE + 2 →
  words (region d (S (S n)) s) = word_at s (Z.of_nat d - 14) + words (region (S (S d)) n s).
Proof.
  intros H Hd Hn. unfold region. destruct H as [Hsz _]. unfold msize in Hsz.
  assert (∃ a b l, drop d (s_buf s) = a :: b :: l) as (a & b & l & E).
  { destruct (drop d (s_buf s)) as [|a [|b l]] eqn:E; [| |by eauto]; apply (f_equal length) in E; rewrite length_drop in E; cbn in E; lia. }
  assert (drop (S (S d)) (s_buf s) = l) as El.
  { replace (S (S d)) with (d + 2)%nat by lia. rewrite <- drop_drop, E. done. }
  rewrite E, El. cbn [take words]. unfold word_at, get8, UIP_LLH_LEN.
  assert (s_buf s !! Z.to_nat (14 + (Z.of_nat d - 14)) = Some a) as ->.
  { replace (Z.to_nat _) with (d + 0)%nat by lia. by rewrite <- lookup_drop, E. }
  assert (s_buf s !! Z.to_nat (14 + (Z.of_nat d - 14 + 1)) = Some b) as ->.
  { replace (Z.to_nat _) with (d + 1)%nat by lia. by rewrite <- lookup_drop, E. }
  done.
Qed.

Lemma region_zero d (s : St) : words (region d 0 s) = 0.
Proof. unfold region. by rewrite take_0. Qed.

(** The words of the IP header. *)
Lemma header_words (s : St) : buf_ok s → words (region 14 20 s) =
  word_at s 0 + word_at s 2 + word_at s 4 + word_at s 6 + word_at s 8 + word_at s 10 + word_at s 12 + word_at s 14 + word_at s 16 + word_at s 18.
Proof.
  intros H. pose proof bufsize_ok. do 10 (rewrite region_word by (done || lia)). rewrite region_zero.
  rewrite Z.add_0_r, !Z.add_assoc. reflexivity.
Qed.

Lemma ipchksum_words (s : St) : buf_ok s → uip_ipchksum s = sum_result (norm (words (region 14 20 s))).
Proof. intros H. rewrite ipchksum_region. rewrite chksum_words by (first [by apply region_bytes | by apply word_const]). done. Qed.

(** ** The reply *)

(** The sum of an ICMP message. *)
Definition icmp_sum (s : St) : Z := chksum 0 (region 34 (Z.to_nat (len_field s - UIP_IPH_LEN)) s).

(** A message with its four bytes of header inside the buffer, and a valid sum. *)
Definition icmp_valid (s : St) : Prop := UIP_IPH_LEN + 4 <= len_field s <= UIP_BUFSIZE - UIP_LLH_LEN ∧ icmp_sum s = 65535.

(** Only zeros but for the type and the checksum. *)
Definition icmp_zero (s : St) : Prop := ∀ o, UIP_IPH_LEN < o < len_field s → o ≠ f_icmpchksum → o ≠ f_icmpchksum + 1 → get8 s o = 0.

(** The reply to a request: the type changed, the addresses exchanged, the rest of the packet as it was, the sum of the header valid, and
    that of the message when the request's is: but the reply to a message of zeros gets a sum of zero in place of ones. *)
Definition echo_reply (s s' : St) : Prop :=
  get8 s f_proto = UIP_PROTO_ICMP ∧ get8 s f_type = ICMP_ECHO ∧ get8 s' f_type = ICMP_ECHO_REPLY ∧ s_len s' = len_field s ∧
  get_ip s' f_destipaddr = get_ip s f_srcipaddr ∧ get_ip s' f_srcipaddr = s_hostaddr s ∧ get8 s' f_vhl = 69 ∧
  (∀ o, 0 <= o < f_ipchksum ∨ UIP_IPH_LEN < o → o ≠ f_icmpchksum → o ≠ f_icmpchksum + 1 → get8 s' o = get8 s o) ∧
  (s_hostaddr s ≠ all_zeroes_addr → uip_ipchksum s' = 65535) ∧
  (icmp_valid s → (¬ icmp_zero s → icmp_sum s' = 65535) ∧ (icmp_zero s → icmp_sum s' = 0)).

Lemma HTONS_congr v : word_ok v → HTONS v mod 65535 = (if uip_little then 256 * v else v) mod 65535.
Proof. intros H. rewrite HTONS_spec by done. unfold word_ok in H. destruct uip_little; Z.div_mod_to_equations; lia. Qed.

(** The adjustment of the checksum is an addition in ones' complement. *)
Definition adjusted (sum : Z) : Z :=
  if HTONS (65535 - Z.shiftl ICMP_ECHO 8) <=? sum then u16 (sum + HTONS (Z.shiftl ICMP_ECHO 8) + 1) else u16 (sum + HTONS (Z.shiftl ICMP_ECHO 8)).

Lemma adjusted_word sum : word_ok (adjusted sum).
Proof. unfold adjusted. destruct (_ <=? _); apply u16_word. Qed.

Lemma adjusted_congr sum : word_ok sum → htons (adjusted sum) mod 65535 = (htons sum + 2048) mod 65535.
Proof.
  intros H. unfold htons. rewrite (HTONS_spec (adjusted _)), (HTONS_spec sum) by (done || apply adjusted_word).
  unfold adjusted, ICMP_ECHO. rewrite !Z.shiftl_mul_pow2 by lia. change (8 * 2 ^ 8) with 2048. change (65535 - 2048) with 63487.
  rewrite !HTONS_spec by (by apply word_const). unfold word_ok, u16 in *. destruct uip_little.
  - change (63487 mod 256 * 256 + 63487 / 256) with 65527. change (2048 mod 256 * 256 + 2048 / 256) with 8. destruct (Z.leb_spec 65527 sum); Z.div_mod_to_equations; lia.
  - destruct (Z.leb_spec 63487 sum); Z.div_mod_to_equations; lia.
Qed.

Definition echoed (s : St) : St :=
  put_ip f_srcipaddr (s_hostaddr s) (put_ip f_destipaddr (get_ip s f_srcipaddr) (put16 f_icmpchksum (adjusted (get16 s f_icmpchksum)) (put8 f_type ICMP_ECHO_REPLY s))).

Lemma icmp_input_echoed (s : St) : get8 s f_proto = UIP_PROTO_ICMP → get8 s f_type = ICMP_ECHO → icmp_input s = Some (set_flags 0 (echoed s)).
Proof.
  intros H1 H2. unfold icmp_input. rewrite H1, H2. cbn [Z.eqb negb UIP_PROTO_ICMP ICMP_ECHO]. cbv zeta.
  assert (get16 (put8 f_type ICMP_ECHO_REPLY s) f_icmpchksum = get16 s f_icmpchksum) as E1 by (unfold get16; by rewrite !get8_put8_ne by (unfold f_type, f_icmpchksum; lia)).
  rewrite E1. unfold echoed, adjusted. set (s1 := put8 f_type ICMP_ECHO_REPLY s).
  assert (∀ v, get_ip (put16 f_icmpchksum v s1) f_srcipaddr = get_ip s f_srcipaddr) as E2.
  { intros v. unfold get_ip. rewrite !get16_put16_ne by (unfold f_icmpchksum, f_srcipaddr; lia). unfold get16, s1. by rewrite !get8_put8_ne by (unfold f_type, f_srcipaddr; lia). }
  assert (∀ o a (t : St), s_hostaddr (put_ip o a t) = s_hostaddr t) as E3 by (intros; unfold put_ip, put16; by destruct uip_little).
  assert (∀ o a (t : St), s_hostaddr (put16 o a t) = s_hostaddr t) as E4 by (intros; unfold put16; by destruct uip_little).
  destruct (_ <=? _); rewrite E2, E3, E4; done.
Qed.

Lemma get8_echoed (s : St) o : 0 <= o → o < f_srcipaddr ∨ UIP_IPH_LEN < o → o ≠ f_icmpchksum → o ≠ f_icmpchksum + 1 → get8 (echoed s) o = get8 s o.
Proof.
  unfold f_srcipaddr, UIP_IPH_LEN, f_icmpchksum. intros. unfold echoed. rewrite !get8_put_ip_ne by (unfold f_srcipaddr, f_destipaddr; lia). rewrite get8_put16_ne by (unfold f_icmpchksum; lia).
  by rewrite get8_put8_ne by (unfold f_type; lia).
Qed.

Section one_request.
Context (s : St) (Hs : stack_ok s).

Lemma echoed_ips : get_ip (echoed s) f_destipaddr = get_ip s f_srcipaddr ∧ get_ip (echoed s) f_srcipaddr = s_hostaddr s.
Proof.
  pose proof (sok_buf _ Hs) as Hb. pose proof (sok_host _ Hs) as Hh. unfold echoed. set (t := put16 _ _ _).
  assert (buf_ok t) as Ht by (unfold t; by apply buf_ok_put16, buf_ok_put8). split.
  - rewrite get_ip_put_ip_ne by (unfold f_srcipaddr, f_destipaddr; lia). apply get_ip_put_ip; [done|by apply get_ip_ok|unfold f_destipaddr; lia].
  - apply get_ip_put_ip; [by apply buf_ok_put_ip|done|unfold f_srcipaddr; lia].
Qed.

Lemma buf_ok_echoed : buf_ok (echoed s).
Proof. unfold echoed. apply buf_ok_put_ip, buf_ok_put_ip, buf_ok_put16, buf_ok_put8, Hs. Qed.

Lemma echoed_ipchksum : get_ip s f_destipaddr = s_hostaddr s → uip_ipchksum (echoed s) = uip_ipchksum s.
Proof.
  intros Hd. pose proof buf_ok_echoed as He. pose proof (sok_buf _ Hs) as Hb. rewrite !ipchksum_words by done. do 2 f_equal. rewrite !header_words by done.
  destruct echoed_ips as [E1 E2]. rewrite <- Hd in E2. unfold get_ip, f_srcipaddr, f_destipaddr in E1, E2. cbn in E1, E2. injection E1 as E11 E12. injection E2 as E21 E22. change (16 + 2) with 18 in *. change (12 + 2) with 14 in *.
  assert (∀ o, 0 <= o < 11 → word_at (echoed s) o = word_at s o) as Hw.
  { intros o Ho. unfold word_at. by rewrite !get8_echoed by (unfold f_srcipaddr, UIP_IPH_LEN, f_icmpchksum; lia). }
  rewrite !Hw by lia. rewrite !(word_at_get16 (echoed s)) by done. rewrite E11, E12, E21, E22. rewrite <- !word_at_get16 by done. lia.
Qed.

(** A message in words: the first, the checksum, and the rest. *)
Lemma icmp_rest : icmp_valid s → ∃ n, Z.of_nat (38 + n) <= UIP_BUFSIZE + 2 ∧ Z.of_nat n = len_field s - 24 ∧ region 38 n (echoed s) = region 38 n s ∧
  ∀ t : St, buf_ok t → len_field t = len_field s → icmp_sum t = norm (word_at t 20 + word_at t 22 + words (region 38 n t)).
Proof.
  intros [Hlen _]. unfold UIP_IPH_LEN, UIP_LLH_LEN in Hlen. exists (Z.to_nat (len_field s - 24)). split_and!; [lia..| |].
  - unfold echoed, put_ip, put16, f_srcipaddr, f_destipaddr, f_icmpchksum, f_type. destruct uip_little; by rewrite !region_put8_out by (unfold UIP_LLH_LEN; lia).
  - intros t Hb El. unfold icmp_sum. rewrite El. unfold UIP_IPH_LEN. replace (Z.to_nat (len_field s - 20)) with (S (S (S (S (Z.to_nat (len_field s - 24)))))) by lia.
    rewrite chksum_words by (first [by apply region_bytes | by apply word_const]). cbn [Z.add]. do 2 (rewrite region_word by (done || lia)). rewrite Z.add_0_l, Z.add_assoc. reflexivity.
Qed.

Lemma echoed_len_field : len_field (echoed s) = len_field s.
Proof. unfold len_field. by rewrite !get8_echoed by (unfold f_len, f_srcipaddr, f_icmpchksum; lia). Qed.

Lemma echoed_type_word : get8 s f_type = ICMP_ECHO → word_at (echoed s) 20 = word_at s 20 - 2048.
Proof.
  intros Ht. unfold word_at. change 20 with f_type. rewrite Ht. rewrite (get8_echoed s (f_type + 1)) by (unfold f_type, f_srcipaddr, UIP_IPH_LEN, f_icmpchksum; lia).
  assert (get8 (echoed s) f_type = 0) as ->; [|unfold ICMP_ECHO; lia]. unfold echoed.
  rewrite !get8_put_ip_ne by (unfold f_srcipaddr, f_destipaddr, f_type; lia). rewrite get8_put16_ne by (unfold f_icmpchksum, f_type; lia). apply get8_put8; [apply Hs|unfold in_header, f_type; lia].
Qed.

Lemma echoed_sum_field : get16 (echoed s) f_icmpchksum = adjusted (get16 s f_icmpchksum).
Proof.
  unfold echoed, put_ip. rewrite !get16_put16_ne by (unfold f_srcipaddr, f_destipaddr, f_icmpchksum; lia).
  rewrite get16_put16 by (first [apply buf_ok_put8, Hs | apply adjusted_word | unfold f_icmpchksum; lia]). done.
Qed.

(** A byte of the message behind its header is in the rest. *)
Lemma rest_byte n (t : St) k : buf_ok t → (k < n)%nat → Z.of_nat (38 + n) <= UIP_BUFSIZE + 2 → region 38 n t !! k = Some (get8 t (24 + Z.of_nat k)).
Proof.
  intros Hb Hk Hn. pose proof (region_length 38 n t Hb Hn) as Hl. destruct (lookup_lt_is_Some_2 (region 38 n t) k) as [x Hx]; [lia|]. rewrite Hx. f_equal.
  rewrite <- (region_get 38 n t (24 + Z.of_nat k) k) by (done || unfold UIP_LLH_LEN; lia). by apply list_lookup_total_correct in Hx.
Qed.

Lemma echoed_sum_valid : get8 s f_type = ICMP_ECHO → icmp_valid s → ¬ icmp_zero s → icmp_sum (echoed s) = 65535.
Proof.
  intros Ht Hv Hz. pose proof buf_ok_echoed as He. pose proof (sok_buf _ Hs) as Hb. destruct (icmp_rest Hv) as (n & Hn & En & Er & Hsum).
  destruct Hv as [_ Hval]. rewrite (Hsum s Hb eq_refl) in Hval. rewrite (Hsum _ He echoed_len_field), Er, echoed_type_word by done.
  pose proof (words_nonneg _ (region_bytes 38 n s Hb)) as Hw. pose proof (adjusted_congr _ (get16_ok s f_icmpchksum Hb)) as Hadj.
  rewrite (word_at_get16 s 22), (word_at_get16 (echoed s) 22) in * by done. change 22 with f_icmpchksum in *. rewrite echoed_sum_field.
  assert (word_ok (htons (get16 s f_icmpchksum)) ∧ word_ok (htons (adjusted (get16 s f_icmpchksum)))) as [H1 H2].
  { split; apply htons_range; [by apply get16_ok|apply adjusted_word]. }
  assert (2048 <= word_at s 20) as H3. { unfold word_at. change 20 with f_type. rewrite Ht. pose proof (get8_ok s (f_type + 1) Hb) as H. unfold ICMP_ECHO, byte_ok in *. lia. }
  unfold word_ok in *. eapply norm_moved in Hval as [H|H]; [exact H| |lia..|Z.div_mod_to_equations; lia].
  exfalso. apply Hz. intros o Ho Ho1 Ho2. unfold UIP_IPH_LEN, f_icmpchksum in *.
  assert (word_at s 20 = 2048 ∧ words (region 38 n s) = 0) as [Hw1 Hw2] by lia. destruct (decide (o = 21)) as [->|].
  - unfold word_at in Hw1. change 20 with f_type in Hw1. rewrite Ht in Hw1. change (f_type + 1) with 21 in Hw1. unfold ICMP_ECHO in Hw1. lia.
  - assert (region 38 n s !! Z.to_nat (o - 24) = Some (get8 s o)) as Hx by (rewrite rest_byte by (done || lia); do 2 f_equal; lia).
    apply (words_zero _ (region_bytes 38 n s Hb)) in Hw2. rewrite Forall_lookup in Hw2. by eapply Hw2.
Qed.

Lemma echoed_sum_zero : get8 s f_type = ICMP_ECHO → icmp_valid s → icmp_zero s → icmp_sum (echoed s) = 0.
Proof.
  intros Ht Hv Hz. pose proof buf_ok_echoed as He. pose proof (sok_buf _ Hs) as Hb. destruct (icmp_rest Hv) as (n & Hn & En & Er & Hsum).
  destruct Hv as [Hlen Hval]. unfold UIP_IPH_LEN in Hlen. rewrite (Hsum s Hb eq_refl) in Hval. rewrite (Hsum _ He echoed_len_field), Er, echoed_type_word by done.
  assert (words (region 38 n s) = 0) as Ew0.
  { apply zeros_words, Forall_lookup. intros k x Hx. pose proof (lookup_lt_Some _ _ _ Hx) as Hk. rewrite region_length in Hk by done. rewrite rest_byte in Hx by done. injection Hx as <-.
    apply Hz; unfold UIP_IPH_LEN, f_icmpchksum; lia. }
  rewrite Ew0 in *. assert (word_at s 20 = 2048) as E20.
  { unfold word_at. change 20 with f_type. rewrite Ht, (Hz (f_type + 1)) by (unfold UIP_IPH_LEN, f_type, f_icmpchksum; lia). done. }
  rewrite E20 in *. rewrite (word_at_get16 s 22), (word_at_get16 (echoed s) 22) in * by done. change 22 with f_icmpchksum in *. rewrite echoed_sum_field.
  pose proof (get16_ok s f_icmpchksum Hb) as H1. pose proof (htons_range _ H1) as H2. set (w := get16 s f_icmpchksum) in *.
  assert (htons w = 63487) as Ew.
  { unfold word_ok in H2. apply norm_ones in Hval; [|lia]. destruct Hval as [_ Hval]. Z.div_mod_to_equations. lia. }
  assert (adjusted w = 0) as ->; [|unfold htons, HTONS; by destruct uip_little].
  unfold htons in Ew. rewrite HTONS_spec in Ew by done. unfold adjusted, ICMP_ECHO. rewrite !Z.shiftl_mul_pow2 by lia. change (8 * 2 ^ 8) with 2048. change (65535 - 2048) with 63487.
  rewrite !HTONS_spec by (by apply word_const). unfold word_ok, u16 in *. destruct uip_little.
  - assert (w = 65527) as -> by (Z.div_mod_to_equations; lia). done.
  - subst w. by rewrite Ew.
Qed.

Lemma echo_reply_echoed (s' : St) : get8 s f_proto = UIP_PROTO_ICMP → get8 s f_type = ICMP_ECHO → s_len s = len_field s → get8 s f_vhl = 69 →
  (s_hostaddr s ≠ all_zeroes_addr → get_ip s f_destipaddr = s_hostaddr s ∧ uip_ipchksum s = 65535) → icmp_input s = Some s' → echo_reply s s'.
Proof.
  intros Hp Ht Hl Hv Hh E. rewrite icmp_input_echoed in E by done. assert (s' = set_flags 0 (echoed s)) as -> by (by injection E). clear E.
  destruct echoed_ips as [E1 E2]. unfold echo_reply. change (get8 (set_flags 0 ?x) ?o) with (get8 x o). change (get_ip (set_flags 0 ?x) ?o) with (get_ip x o). split_and!; try done.
  - unfold echoed, put_ip, put16. destruct uip_little; rewrite !get8_put8_ne by (unfold f_srcipaddr, f_destipaddr, f_icmpchksum, f_type; lia); by rewrite get8_put8 by (first [apply Hs | unfold in_header, f_type; lia]).
  - rewrite <- Hl. unfold echoed. change (s_len (set_flags 0 ?x)) with (s_len x). by rewrite !s_len_put_ip, s_len_put16, s_len_put8.
  - by rewrite get8_echoed by (unfold f_vhl, f_srcipaddr, UIP_IPH_LEN, f_icmpchksum; lia).
  - intros o Ho H1 H2. unfold f_ipchksum, UIP_IPH_LEN in *. apply get8_echoed; unfold f_srcipaddr, UIP_IPH_LEN; (lia || done).
  - intros [Hd Hc]%Hh. change (uip_ipchksum (set_flags 0 ?x)) with (uip_ipchksum x). by rewrite echoed_ipchksum.
  - intros Hi. change (icmp_sum (set_flags 0 ?x)) with (icmp_sum x). split; [by apply echoed_sum_valid|by apply echoed_sum_zero].
Qed.
End one_request.

(** ** All that is sent *)

Context (UIP_APPCALL UIP_UDP_APPCALL : St → option St) `{!AppOk UIP_APPCALL, !AppOk UIP_UDP_APPCALL}.

Lemma ip_input_sends fuel (s s' : St) : stack_ok s → UIP_LLH_LEN + f_proto < s_sappdata s → ip_input UIP_APPCALL UIP_UDP_APPCALL fuel s = Some s' → s_len s' = 0 ∨ packet_valid s' ∨ echo_reply s s'.
Proof.
  intros H Hsa E. unfold ip_input in E. cbv zeta in E. fold (len_field s) in E. destruct (Z.eqb_spec (get8 s f_vhl) 69) as [Hv|]; [|injection E as <-; by left].
  destruct (negb (_ <=? _)); [injection E as <-; by left|].
  assert (word_ok (len_field s)) as Hl.
  { pose proof (get8_ok s f_len (sok_buf _ H)). pose proof (get8_ok s (f_len + 1) (sok_buf _ H)). unfold len_field, word_ok, byte_ok in *. rewrite Z.shiftl_mul_pow2 by lia. lia. }
  set (t := set_len (len_field s) s) in *. assert (stack_ok t) as Ht by (unfold t; stk).
  assert (∀ f, sends any f → f t = Some s' → s_len s' = 0 ∨ packet_valid s' ∨ echo_reply s s') as Hin by (intros f Hf Ef; apply Hf in Ef; [naive_solver|done|done]).
  cbn [negb] in E. destruct (_ || _); [by apply (Hin _ (sends_drop any))|]. destruct (_ && uip_ipaddr_cmp (get_ip t f_destipaddr) all_ones_addr); [by apply (Hin _ (sends_udp_input UIP_UDP_APPCALL))|].
  destruct (negb (uip_ipaddr_cmp (s_hostaddr t) all_zeroes_addr) && _) eqn:Hd; [by apply (Hin _ (sends_drop any))|]. destruct (Z.eqb_spec (uip_ipchksum t) 65535) as [Hc|]; [|by apply (Hin _ (sends_drop any))]. cbn [negb] in E.
  destruct (Z.eqb_spec (get8 t f_proto) UIP_PROTO_TCP) as [Htcp|]; [apply (sends_tcp_input UIP_APPCALL fuel) in E; [naive_solver|done|by split]|]. destruct (_ =? UIP_PROTO_UDP); [by apply (Hin _ (sends_udp_input UIP_UDP_APPCALL))|].
  destruct (Z.eqb_spec (get8 t f_proto) UIP_PROTO_ICMP) as [Hp|Hp]; [|unfold icmp_input in E; rewrite (proj2 (Z.eqb_neq _ _) Hp) in E; injection E as <-; by left].
  destruct (Z.eqb_spec (get8 t f_type) ICMP_ECHO) as [He|He].
  - right. right. apply (echo_reply_echoed t Ht s'); [done|done|done|done| |done]. intros Hz. split; [|done]. apply andb_false_iff in Hd as [Hd|Hd].
    + exfalso. apply Hz. apply negb_false_iff, andb_true_iff in Hd as [H1%Z.eqb_eq H2%Z.eqb_eq]. destruct (s_hostaddr t). by cbn in *; subst.
    + apply negb_false_iff, andb_true_iff in Hd as [H1%Z.eqb_eq H2%Z.eqb_eq]. destruct (s_hostaddr t), (get_ip t f_destipaddr). by cbn in *; subst.
  - unfold icmp_input in E. rewrite Hp, (proj2 (Z.eqb_neq _ _) He) in E. injection E as <-. by left.
Qed.

(** The event of a packet that has come; the others are timers and requests of the program. *)
Definition is_input (flag : Z) : bool := negb (bool_decide (flag ∈ [UIP_UDP_SEND_CONN; UIP_POLL_REQUEST; UIP_TIMER; UIP_UDP_TIMER])).

Lemma process_output fuel flag (s s' : St) : stack_ok s → uip_process UIP_APPCALL UIP_UDP_APPCALL fuel flag s = Some s' →
  s_len s' = 0 ∨ packet_valid s' ∨ is_input flag = true ∧ echo_reply s s'.
Proof.
  intros H E. unfold uip_process in E. cbv zeta in E. set (s0 := set_appdata _ _) in E. assert (stack_ok s0) as H0 by (unfold s0; stk).
  assert (∀ f, sends any f → f s0 = Some s' → s_len s' = 0 ∨ packet_valid s' ∨ is_input flag = true ∧ echo_reply s s') as Hin by (intros f Hf Ef; apply Hf in Ef; [naive_solver|done|done]).
  destruct (Z.eqb_spec flag UIP_UDP_SEND_CONN) as [|F1]; [|destruct (Z.eqb_spec flag UIP_POLL_REQUEST) as [|F2]; [|destruct (Z.eqb_spec flag UIP_TIMER) as [|F3]; [|destruct (Z.eqb_spec flag UIP_UDP_TIMER) as [|F4]]]].
  - apply sends_udp_send in E; [naive_solver|done|done].
  - apply bind_Some in E as (i & _ & E). unfold uip_poll_request in E. apply bind_Some in E as (c & _ & E). destruct (_ && _); [|by apply (Hin _ (sends_drop any))].
    apply (sends_after UIP_APPCALL (appsend i)) in E; [naive_solver|by apply (keeps_app UIP_APPCALL)|apply sends_appsend|stk].
  - apply bind_Some in E as (i & _ & E). by apply (Hin _ (sends_uip_timer UIP_APPCALL i)).
  - unfold uip_udp_timer in E. apply bind_Some in E as (u & _ & E). cbv zeta in E. destruct (negb _); [|by apply (Hin _ (sends_drop any))].
    apply (sends_after UIP_UDP_APPCALL udp_send) in E; [naive_solver|by apply (keeps_app UIP_UDP_APPCALL)|apply sends_udp_send|stk].
  - apply (ip_input_sends fuel s0 s' H0) in E as [E|[E|E]]; [by left|by right; left|right; right|done]. split; [|exact E].
    unfold is_input. rewrite bool_decide_eq_false_2; [done|]. rewrite !elem_of_cons, elem_of_nil. naive_solver.
Qed.
End echo.
