(* ===== verification/UipArp.v ===== *)
(** * Address resolution

    src/uip/uip_arp.c: the table of hardware addresses, its ageing, the packets that ask and answer, and the Ethernet header of a packet that is
    sent.  The fields of ARP and of Ethernet are given, like those of IP, from the beginning of the IP header. *)
From S2P Require Import Prelude Psock UipSum Uip UipInv UipOut UipEcho.

Definition ARP_REQUEST := 1.
Definition ARP_REPLY := 2.
Definition ARP_HWTYPE_ETH := 1.
Definition UIP_ETHTYPE_ARP := 2054.
Definition UIP_ETHTYPE_IP := 2048.
Definition UIP_ARP_MAXAGE := 120.

Definition f_ethdest := -14.
Definition f_ethsrc := -8.
Definition f_ethtype := -2.
Definition f_hwtype := 0.
Definition f_protocol := 2.
Definition f_hwlen := 4.
Definition f_protolen := 5.
Definition f_opcode := 6.
Definition f_shwaddr := 8.
Definition f_sipaddr := 14.
Definition f_dhwaddr := 18.
Definition f_dipaddr := 24.

(** [sizeof( struct arp_hdr )] and [sizeof( struct uip_eth_hdr )]. *)
Definition ARP_HDR_LEN := 42.
Definition ETH_HDR_LEN := 14.

Definition broadcast_ethaddr : mem := replicate 6 255.
Definition broadcast_ipaddr : ipaddr := (65535, 65535).

Record arp_entry := ArpEntry { a_ipaddr : ipaddr; a_ethaddr : mem; a_time : Z }.

Record arp := Arp { arp_table : list arp_entry; arptime : Z }.

Definition uip_arp_init (a : arp) : arp := Arp ((λ e, ArpEntry all_zeroes_addr (a_ethaddr e) (a_time e)) <$> arp_table a) (arptime a).

Definition expire (now : Z) (e : arp_entry) : arp_entry :=
  if negb (Z.lor (a_ipaddr e).1 (a_ipaddr e).2 =? 0) && (UIP_ARP_MAXAGE <=? now - a_time e) then ArpEntry all_zeroes_addr (a_ethaddr e) (a_time e) else e.

Definition uip_arp_timer (a : arp) : arp :=
  let now := u8 (arptime a + 1) in Arp (expire now <$> arp_table a) now.

(** The first entry with the address, of those whose words both are not zero. *)
Definition arp_known (ip : ipaddr) (e : arp_entry) : bool :=
  negb ((a_ipaddr e).1 =? 0) && negb ((a_ipaddr e).2 =? 0) && (ip.1 =? (a_ipaddr e).1) && (ip.2 =? (a_ipaddr e).2).

Definition arp_unused (e : arp_entry) : bool := ((a_ipaddr e).1 =? 0) && ((a_ipaddr e).2 =? 0).

Fixpoint index_of (f : arp_entry → bool) (l : list arp_entry) : option nat :=
  match l with [] => None | e :: l => if f e then Some O else S <$> index_of f l end.

(** The oldest entry; [tmpage] has eight bits. *)
Fixpoint arp_oldest (now : Z) (l : list arp_entry) (i : nat) (tmpage : Z) (c : nat) : nat :=
  match l with
  | [] => c
  | e :: l => if tmpage <? now - a_time e then arp_oldest now l (S i) (u8 (now - a_time e)) i else arp_oldest now l (S i) tmpage c
  end.

(** The entry that is overwritten when the address is not in the table. *)
Definition arp_victim (a : arp) : nat :=
  match index_of arp_unused (arp_table a) with Some i => i | None => arp_oldest (arptime a) (arp_table a) 0 0 0 end.

Definition uip_arp_update (ip : ipaddr) (eth : mem) (a : arp) : arp :=
  match index_of (arp_known ip) (arp_table a) with
  | Some i => Arp (alter (λ e, ArpEntry (a_ipaddr e) eth (arptime a)) i (arp_table a)) (arptime a)
  | None => Arp (<[arp_victim a := ArpEntry ip eth (arptime a)]> (arp_table a)) (arptime a)
  end.

Section arp.
Context {conf : UipConf} {A : Type}.
Abbreviation St := (stack A).

(** [memcpy] of six bytes from and into the buffer. *)
Definition get_eth (s : St) (o : Z) : mem := [get8 s o; get8 s (o + 1); get8 s (o + 2); get8 s (o + 3); get8 s (o + 4); get8 s (o + 5)].

Fixpoint put_bytes (o : Z) (l : mem) (s : St) : St :=
  match l with [] => s | b :: l => put_bytes (o + 1) l (put8 o b s) end.

Definition arp_answer (s : St) : St :=
  let s := put16 f_opcode (HTONS 2) s in
  let s := put_bytes f_dhwaddr (get_eth s f_shwaddr) s in
  let s := put_bytes f_shwaddr (s_ethaddr s) s in
  let s := put_bytes f_ethsrc (s_ethaddr s) s in
  let s := put_bytes f_ethdest (get_eth s f_dhwaddr) s in
  let s := put_ip f_dipaddr (get_ip s f_sipaddr) s in
  let s := put_ip f_sipaddr (s_hostaddr s) s in
  let s := put16 f_ethtype (HTONS UIP_ETHTYPE_ARP) s in
  set_len ARP_HDR_LEN s.

Definition uip_arp_arpin (a : arp) (s : St) : arp * St :=
  if s_len s <? ARP_HDR_LEN then (a, set_len 0 s)
  else
    let s := set_len 0 s in
    let mine := uip_ipaddr_cmp (get_ip s f_dipaddr) (s_hostaddr s) in
    if get16 s f_opcode =? HTONS ARP_REQUEST then
      if mine then (uip_arp_update (get_ip s f_sipaddr) (get_eth s f_shwaddr) a, arp_answer s) else (a, s)
    else if get16 s f_opcode =? HTONS ARP_REPLY then
      (if mine then uip_arp_update (get_ip s f_sipaddr) (get_eth s f_shwaddr) a else a, s)
    else (a, s).

Definition uip_ipaddr_maskcmp (x y m : ipaddr) : bool := (Z.land x.1 m.1 =? Z.land y.1 m.1) && (Z.land x.2 m.2 =? Z.land y.2 m.2).

(** The packet in the buffer becomes a request for the address. *)
Definition arp_ask (ip : ipaddr) (s : St) : St :=
  let s := put_bytes f_ethdest broadcast_ethaddr s in
  let s := put_bytes f_dhwaddr (replicate 6 0) s in
  let s := put_bytes f_ethsrc (s_ethaddr s) s in
  let s := put_bytes f_shwaddr (s_ethaddr s) s in
  let s := put_ip f_dipaddr ip s in
  let s := put_ip f_sipaddr (s_hostaddr s) s in
  let s := put16 f_opcode (HTONS ARP_REQUEST) s in
  let s := put16 f_hwtype (HTONS ARP_HWTYPE_ETH) s in
  let s := put16 f_protocol (HTONS UIP_ETHTYPE_IP) s in
  let s := put8 f_protolen 4 (put8 f_hwlen 6 s) in
  let s := put16 f_ethtype (HTONS UIP_ETHTYPE_ARP) s in
  let s := set_appdata (UIP_TCPIP_HLEN + UIP_LLH_LEN) s in
  set_len ARP_HDR_LEN s.

(** The Ethernet header of an IP packet for the hardware address. *)
Definition eth_header (dest : mem) (s : St) : St :=
  let s := put_bytes f_ethdest dest s in
  let s := put_bytes f_ethsrc (s_ethaddr s) s in
  let s := put16 f_ethtype (HTONS UIP_ETHTYPE_IP) s in
  set_len (u16 (s_len s + ETH_HDR_LEN)) s.

(** The address that is looked for: the destination, or the router for another network. *)
Definition next_hop (s : St) : ipaddr :=
  if negb (uip_ipaddr_maskcmp (get_ip s f_destipaddr) (s_hostaddr s) (s_netmask s)) then s_draddr s else get_ip s f_destipaddr.

Definition arp_lookup (a : arp) (ip : ipaddr) : option mem :=
  match index_of (λ e, uip_ipaddr_cmp ip (a_ipaddr e)) (arp_table a) with
  | Some i => a_ethaddr <$> arp_table a !! i
  | None => None
  end.

Definition uip_arp_out (a : arp) (s : St) : St :=
  if uip_ipaddr_cmp (get_ip s f_destipaddr) broadcast_ipaddr then eth_header broadcast_ethaddr s
  else
    match arp_lookup a (next_hop s) with
    | None => arp_ask (next_hop s) s
    | Some eth => eth_header eth s
    end.
End arp.

(** ** The table

    An address is good when both of its words are not zero. *)
Definition good_ip (ip : ipaddr) : Prop := ip.1 ≠ 0 ∧ ip.2 ≠ 0.

Lemma index_of_Some f l i : index_of f l = Some i → ∃ e, l !! i = Some e ∧ f e = true ∧ ∀ j e', (j < i)%nat → l !! j = Some e' → f e' = false.
Proof.
  revert i. induction l as [|e l IH]; intros i H; [done|]. cbn in H. destruct (f e) eqn:Hf.
  - injection H as <-. exists e. split_and!; [done|done|lia].
  - apply fmap_Some in H as (k & Hk & ->). destruct (IH k Hk) as (e' & H1 & H2 & H3). exists e'. split_and!; [done|done|]. intros [|j] e2 Hj He; [cbn in He; congruence|]. apply (H3 j); [lia|done].
Qed.

Lemma index_of_None f l : index_of f l = None → ∀ j e, l !! j = Some e → f e = false.
Proof.
  induction l as [|e l IH]; intros H j e' Hj; [done|]. cbn in H. destruct (f e) eqn:Hf; [done|]. apply fmap_None in H. destruct j; [cbn in Hj; congruence|by eapply IH].
Qed.

Lemma index_of_first f l i e : l !! i = Some e → f e = true → (∀ j e', (j < i)%nat → l !! j = Some e' → f e' = false) → index_of f l = Some i.
Proof.
  revert l. induction i as [|i IH]; intros [|e' l] Hi Hf Hbefore; try done.
  - injection Hi as <-. cbn. by rewrite Hf.
  - cbn in Hi |- *. rewrite (Hbefore 0%nat e') by (done || lia). rewrite (IH l Hi Hf); [done|]. intros j e2 Hj He2. apply (Hbefore (S j) e2); [lia|done].
Qed.

Lemma arp_oldest_in now l i t c : (c < i + length l)%nat → (arp_oldest now l i t c < i + length l)%nat.
Proof.
  revert i t c. induction l as [|e l IH]; intros i t c H; [done|]. cbn [arp_oldest length] in *. destruct (t <? now - a_time e).
  - specialize (IH (S i) (u8 (now - a_time e)) i). lia.
  - specialize (IH (S i) t c). lia.
Qed.

(** No address is in the table twice. *)
Definition arp_ok (a : arp) : Prop :=
  (0 < length (arp_table a))%nat ∧
  ∀ i j e e', arp_table a !! i = Some e → arp_table a !! j = Some e' → good_ip (a_ipaddr e) → a_ipaddr e = a_ipaddr e' → i = j.

Lemma victim_in a : arp_ok a → (arp_victim a < length (arp_table a))%nat.
Proof.
  intros [Hl _]. unfold arp_victim. destruct (index_of arp_unused (arp_table a)) as [i|] eqn:E.
  - destruct (index_of_Some _ _ _ E) as (e & He & _). by apply lookup_lt_Some in He.
  - apply (arp_oldest_in (arptime a) (arp_table a) 0 0 0). lia.
Qed.

Lemma ip_cmp_eq (x y : ipaddr) : uip_ipaddr_cmp x y = true ↔ x = y.
Proof. unfold uip_ipaddr_cmp. rewrite andb_true_iff, !Z.eqb_eq. destruct x, y. cbn. split; [by intros [-> ->]|by intros [= -> ->]]. Qed.

Lemma known_eq ip e : good_ip ip → arp_known ip e = true ↔ a_ipaddr e = ip.
Proof.
  intros [H1 H2]. unfold arp_known. rewrite !andb_true_iff, !negb_true_iff, !Z.eqb_neq, !Z.eqb_eq. destruct (a_ipaddr e) as [x y], ip as [x' y']. cbn in *. split.
  - by intros [[_ ->] ->].
  - intros [= -> ->]. done.
Qed.

(** The table after an update: the address has the new hardware address, and no address is there twice. *)
Lemma update_ok ip eth a : arp_ok a → good_ip ip → arp_ok (uip_arp_update ip eth a) ∧ arp_lookup (uip_arp_update ip eth a) ip = Some eth.
Proof.
  intros Ha Hip. pose proof (victim_in a Ha) as Hv. destruct Ha as [Hl Hu]. unfold uip_arp_update.
  assert (∀ l i e, (∀ i j e e', l !! i = Some e → l !! j = Some e' → good_ip (a_ipaddr e) → a_ipaddr e = a_ipaddr e' → i = j) → l !! i = Some e → a_ipaddr e = ip →
    index_of (λ e, uip_ipaddr_cmp ip (a_ipaddr e)) l = Some i) as Hfirst.
  { intros l i e Hl' Hi He. apply (index_of_first _ _ _ e); [done|by apply ip_cmp_eq|]. intros j e' Hj Hj'. apply not_true_iff_false. rewrite ip_cmp_eq. intros ->.
    assert (i = j) as ->; [|lia]. apply (Hl' i j e e'); try done. by rewrite He. }
  destruct (index_of (arp_known ip) (arp_table a)) as [i|] eqn:E.
  - destruct (index_of_Some _ _ _ E) as (e & He & Hk & _). apply known_eq in Hk; [|done]. set (f := λ e, ArpEntry (a_ipaddr e) eth (arptime a)).
    assert (arp_ok (Arp (alter f i (arp_table a)) (arptime a))) as Hok.
    { split; [cbn; by rewrite length_alter|]. cbn. intros j k e1 e2 H1 H2 Hg Heq. 
      assert (∀ j e, alter f i (arp_table a) !! j = Some e → ∃ e0, arp_table a !! j = Some e0 ∧ a_ipaddr e0 = a_ipaddr e) as Hback.
      { intros j' e' H'. destruct (decide (j' = i)) as [->|]; [|rewrite list_lookup_alter_ne in H' by done; by exists e'].
        rewrite list_lookup_alter_eq, He in H'. injection H' as <-. by exists e. }
      destruct (Hback j e1 H1) as (e1' & H1' & Q1), (Hback k e2 H2) as (e2' & H2' & Q2). apply (Hu j k e1' e2'); try done; congruence. }
    split; [done|]. unfold arp_lookup. cbn [arp_table]. assert (alter f i (arp_table a) !! i = Some (f e)) as Hi by (by rewrite list_lookup_alter_eq, He).
    rewrite (Hfirst _ i (f e)); [by rewrite Hi|apply Hok|done|done].
  - pose proof (index_of_None _ _ E) as Hno. set (v := arp_victim a) in *. set (e := ArpEntry ip eth (arptime a)).
    assert (<[v:=e]> (arp_table a) !! v = Some e) as Hi by (by apply list_lookup_insert_eq).
    assert (arp_ok (Arp (<[v:=e]> (arp_table a)) (arptime a))) as Hok.
    { split; [cbn; by rewrite length_insert|]. cbn. intros j k e1 e2 H1 H2 Hg Heq.
      assert (∀ j e', j ≠ v → <[v:=e]> (arp_table a) !! j = Some e' → arp_table a !! j = Some e' ∧ a_ipaddr e' ≠ ip) as Hother.
      { intros j' e' Hne H'. rewrite list_lookup_insert_ne in H' by done. split; [done|]. intros Q. apply (known_eq ip e' Hip) in Q. by rewrite (Hno j' e' H') in Q. }
      destruct (decide (j = v)) as [->|Hj], (decide (k = v)) as [->|Hk]; [done| | |].
      - destruct (Hother k e2 Hk H2) as [_ Q]. rewrite Hi in H1. injection H1 as <-. by destruct Q.
      - destruct (Hother j e1 Hj H1) as [_ Q]. rewrite Hi in H2. injection H2 as <-. by destruct Q.
      - apply (Hu j k e1 e2); try done; [by apply (Hother j)|by apply (Hother k)]. }
    split; [done|]. unfold arp_lookup. cbn [arp_table]. rewrite (Hfirst _ v e); [by rewrite Hi|apply Hok|done|done].
Qed.

(** ** The fields of the packets *)

Section fields.
Context {conf : UipConf} {sizes : UipSizes conf} {A : Type}.
Abbreviation St := (stack A).

Lemma get8_put_bytes_ne o l (s : St) o' : -14 <= o → -14 <= o' → o' < o ∨ o + msize l <= o' → get8 (put_bytes o l s) o' = get8 s o'.
Proof.
  unfold msize. revert o s. induction l as [|b l IH]; intros o s H1 H2 H3; [done|]. cbn [put_bytes length] in *. rewrite IH by lia. by rewrite get8_put8_ne by lia.
Qed.

Lemma buf_ok_put_bytes o l (s : St) : buf_ok s → buf_ok (put_bytes o l s).
Proof. revert o s. induction l as [|b l IH]; intros o s H; [done|]. cbn [put_bytes]. by apply IH, buf_ok_put8. Qed.

Lemma get16_put_bytes_ne o l (s : St) o' : -14 <= o → -14 <= o' → o' < o - 1 ∨ o + msize l <= o' → get16 (put_bytes o l s) o' = get16 s o'.
Proof. intros. unfold get16. by rewrite !get8_put_bytes_ne by lia. Qed.

Lemma get_ip_put_bytes_ne o l (s : St) o' : -14 <= o → -14 <= o' → o' < o - 3 ∨ o + msize l <= o' → get_ip (put_bytes o l s) o' = get_ip s o'.
Proof. intros. unfold get_ip. by rewrite !get16_put_bytes_ne by lia. Qed.

Lemma get_ip_put16_ne o v (s : St) o' : -14 <= o → -14 <= o' → o' < o - 3 ∨ o + 1 < o' → get_ip (put16 o v s) o' = get_ip s o'.
Proof. intros. unfold get_ip. by rewrite !get16_put16_ne by lia. Qed.

Lemma get_eth_put_bytes_ne o l (s : St) o' : -14 <= o → -14 <= o' → o' < o - 5 ∨ o + msize l <= o' → get_eth (put_bytes o l s) o' = get_eth s o'.
Proof. intros. unfold get_eth. by rewrite !get8_put_bytes_ne by lia. Qed.

Lemma get_eth_put16_ne o v (s : St) o' : -14 <= o → -14 <= o' → o' < o - 5 ∨ o + 1 < o' → get_eth (put16 o v s) o' = get_eth s o'.
Proof. intros. unfold get_eth. by rewrite !get8_put16_ne by lia. Qed.

Lemma get_eth_put_ip_ne o v (s : St) o' : -14 <= o → -14 <= o' → o' < o - 5 ∨ o + 3 < o' → get_eth (put_ip o v s) o' = get_eth s o'.
Proof. intros. unfold get_eth. by rewrite !get8_put_ip_ne by lia. Qed.

Lemma get_eth_put8_ne o v (s : St) o' : -14 <= o → -14 <= o' → o' < o - 5 ∨ o < o' → get_eth (put8 o v s) o' = get_eth s o'.
Proof. intros. unfold get_eth. by rewrite !get8_put8_ne by lia. Qed.

Lemma get16_put_ip_out o v (s : St) o' : -14 <= o → -14 <= o' → o' < o - 1 ∨ o + 3 < o' → get16 (put_ip o v s) o' = get16 s o'.
Proof. intros. unfold put_ip. by rewrite !get16_put16_ne by lia. Qed.

Lemma get16_put8_out o v (s : St) o' : -14 <= o → -14 <= o' → o' < o - 1 ∨ o < o' → get16 (put8 o v s) o' = get16 s o'.
Proof. intros. unfold get16. by rewrite !get8_put8_ne by lia. Qed.

Lemma get_ip_put8_out o v (s : St) o' : -14 <= o → -14 <= o' → o' < o - 3 ∨ o < o' → get_ip (put8 o v s) o' = get_ip s o'.
Proof. intros. unfold get_ip. by rewrite !get16_put8_out by lia. Qed.

(** An address of the hardware. *)
Definition eth_ok (l : mem) : Prop := length l = 6%nat ∧ bytes_ok l.

Lemma get_eth_put_bytes o l (s : St) : buf_ok s → eth_ok l → -14 <= o < 70 → get_eth (put_bytes o l s) o = l.
Proof.
  intros Hs [Hl Hb] Ho. destruct l as [|b0 [|b1 [|b2 [|b3 [|b4 [|b5 [|]]]]]]]; try done. repeat (apply Forall_cons in Hb as [? Hb]).
  unfold get_eth. cbn [put_bytes]. replace (o + 1 + 1) with (o + 2) by lia. replace (o + 2 + 1) with (o + 3) by lia. replace (o + 3 + 1) with (o + 4) by lia. replace (o + 4 + 1) with (o + 5) by lia.
  repeat first [rewrite get8_put8_ne by lia | rewrite get8_put8 by (first [repeat apply buf_ok_put8; exact Hs | unfold in_header; lia])].
  by rewrite !u8_id by done.
Qed.

Lemma keeps_ethaddr_bytes o l (s : St) : s_ethaddr (put_bytes o l s) = s_ethaddr s ∧ s_hostaddr (put_bytes o l s) = s_hostaddr s ∧ s_len (put_bytes o l s) = s_len s.
Proof. revert o s. induction l as [|b l IH]; intros o s; [done|]. cbn [put_bytes]. by destruct (IH (o + 1) (put8 o b s)) as (-> & -> & ->). Qed.

Lemma eth_bytes o l (s : St) : s_ethaddr (put_bytes o l s) = s_ethaddr s.
Proof. apply keeps_ethaddr_bytes. Qed.
Lemma host_bytes o l (s : St) : s_hostaddr (put_bytes o l s) = s_hostaddr s.
Proof. apply keeps_ethaddr_bytes. Qed.
Lemma len_bytes_same o l (s : St) : s_len (put_bytes o l s) = s_len s.
Proof. apply keeps_ethaddr_bytes. Qed.
Lemma eth_put16 o v (s : St) : s_ethaddr (put16 o v s) = s_ethaddr s.
Proof. unfold put16. by destruct uip_little. Qed.
Lemma eth_put_ip o v (s : St) : s_ethaddr (put_ip o v s) = s_ethaddr s.
Proof. unfold put_ip. by rewrite !eth_put16. Qed.
End fields.

(** A field that was written elsewhere is as before; the offsets are numbers. *)
Ltac offsets := unfold f_ethdest, f_ethsrc, f_ethtype, f_hwtype, f_protocol, f_hwlen, f_protolen, f_opcode, f_shwaddr, f_sipaddr, f_dhwaddr, f_dipaddr, f_destipaddr in *.

Ltac elsewhere :=
  repeat first
    [ rewrite eth_bytes | rewrite host_bytes | rewrite eth_put16 | rewrite host_put16 | rewrite eth_put_ip | rewrite host_put_ip
    | rewrite get16_put16_ne by lia | rewrite get16_put_ip_out by lia | rewrite get16_put8_out by lia
    | rewrite get_ip_put16_ne by lia | rewrite get_ip_put_ip_ne by lia | rewrite get_ip_put8_out by lia
    | rewrite get_eth_put16_ne by lia | rewrite get_eth_put_ip_ne by lia | rewrite get_eth_put8_ne by lia
    | rewrite get16_put_bytes_ne by (unfold msize; rewrite ?length_replicate; lia) | rewrite get_ip_put_bytes_ne by (unfold msize; rewrite ?length_replicate; lia) | rewrite get_eth_put_bytes_ne by (unfold msize; rewrite ?length_replicate; lia) ].

Ltac buffer_ok :=
  lazymatch goal with
  | |- buf_ok (put16 _ _ _) => apply buf_ok_put16; buffer_ok
  | |- buf_ok (put_ip _ _ _) => apply buf_ok_put_ip; buffer_ok
  | |- buf_ok (put8 _ _ _) => apply buf_ok_put8; buffer_ok
  | |- buf_ok (put_bytes _ _ _) => apply buf_ok_put_bytes; buffer_ok
  | |- _ => assumption
  end.

Section packets.
Context {conf : UipConf} {sizes : UipSizes conf} {A : Type}.
Abbreviation St := (stack A).

Lemma HTONS_word v : word_ok v → word_ok (HTONS v).
Proof. apply htons_range. Qed.

(** What an ARP packet says. *)
Definition arp_fields (s : St) : Z * Z * mem * ipaddr * ipaddr * mem := (get16 s f_ethtype, get16 s f_opcode, get_eth s f_shwaddr, get_ip s f_sipaddr, get_ip s f_dipaddr, get_eth s f_ethdest).

Lemma arp_ask_fields ip (s : St) : stack_ok s → ip_ok ip → eth_ok (s_ethaddr s) →
  arp_fields (arp_ask ip s) = (HTONS UIP_ETHTYPE_ARP, HTONS ARP_REQUEST, s_ethaddr s, s_hostaddr s, ip, broadcast_ethaddr) ∧ s_len (arp_ask ip s) = ARP_HDR_LEN ∧ buf_ok (arp_ask ip s).
Proof.
  intros Hs Hip [He1 He2]. pose proof (sok_buf _ Hs) as Hb. pose proof (sok_host _ Hs) as Hh. unfold arp_ask. cbv zeta. set (t := put16 f_ethtype _ _).
  assert (buf_ok t) as Ht by (unfold t; buffer_ok). split; [|done]. change (arp_fields (set_len _ (set_appdata _ t))) with (arp_fields t).
  assert (∀ v, 0 <= v < 65536 → word_ok (HTONS v)) as Hw by (intros; by apply HTONS_word).
  unfold arp_fields, t. offsets. repeat apply (f_equal2 pair).
  - apply get16_put16; [buffer_ok|apply Hw; unfold UIP_ETHTYPE_ARP; lia|lia].
  - elsewhere. apply get16_put16; [buffer_ok|apply Hw; unfold ARP_REQUEST; lia|lia].
  - elsewhere. apply get_eth_put_bytes; [buffer_ok|done|lia].
  - elsewhere. apply get_ip_put_ip; [buffer_ok|done|lia].
  - elsewhere. apply get_ip_put_ip; [buffer_ok|done|lia].
  - elsewhere. apply get_eth_put_bytes; [done|split; [done|repeat constructor; lia]|lia].
Qed.

Lemma get_eth_ok (s : St) o : buf_ok s → eth_ok (get_eth s o).
Proof. intros H. split; [done|]. repeat constructor; apply (get8_ok s _ H). Qed.

(** The answer to a request: the one who asked is the target. *)
Lemma arp_answer_fields (s : St) : stack_ok s → eth_ok (s_ethaddr s) →
  arp_fields (arp_answer s) = (HTONS UIP_ETHTYPE_ARP, HTONS ARP_REPLY, s_ethaddr s, s_hostaddr s, get_ip s f_sipaddr, get_eth s f_shwaddr) ∧
  s_len (arp_answer s) = ARP_HDR_LEN ∧ buf_ok (arp_answer s).
Proof.
  intros Hs [He1 He2]. pose proof (sok_buf _ Hs) as Hb. pose proof (sok_host _ Hs) as Hh. pose proof (get_ip_ok s f_sipaddr Hb) as Hip. pose proof (get_eth_ok s f_shwaddr Hb) as [Hq1 Hq2].
  assert (∀ v, 0 <= v < 65536 → word_ok (HTONS v)) as Hw by (intros; by apply HTONS_word).
  unfold arp_answer. cbv zeta. set (t1 := put16 f_opcode _ s). assert (get_eth t1 f_shwaddr = get_eth s f_shwaddr) as -> by (unfold t1; offsets; by elsewhere).
  set (q := get_eth s f_shwaddr) in *. set (t2 := put_bytes f_dhwaddr q t1). rewrite eth_bytes.
  assert (buf_ok t1) as H1 by (unfold t1; buffer_ok). assert (buf_ok t2) as H2 by (unfold t2; buffer_ok). assert (s_ethaddr t2 = s_ethaddr s) as -> by (unfold t2, t1; by elsewhere).
  set (t4 := put_bytes f_ethsrc _ _). assert (get_eth t4 f_dhwaddr = q) as ->.
  { unfold t4. offsets. elsewhere. unfold t2. apply get_eth_put_bytes; [done|done|offsets; lia]. }
  assert (buf_ok t4) as H4 by (unfold t4; buffer_ok). set (t5 := put_bytes f_ethdest q t4). assert (get_ip t5 f_sipaddr = get_ip s f_sipaddr) as ->.
  { unfold t5, t4, t2, t1. offsets. by elsewhere. }
  assert (buf_ok t5) as H5 by (unfold t5; buffer_ok). set (t6 := put_ip f_dipaddr _ t5). assert (s_hostaddr t6 = s_hostaddr s) as -> by (unfold t6, t5, t4, t2, t1; by elsewhere).
  assert (buf_ok t6) as H6 by (unfold t6; buffer_ok). set (t := put16 f_ethtype _ _). assert (buf_ok t) as Ht by (unfold t; buffer_ok).
  split; [|done]. change (arp_fields (set_len _ t)) with (arp_fields t). unfold arp_fields, t. refine (f_equal2 pair (f_equal2 pair (f_equal2 pair (f_equal2 pair (f_equal2 pair _ _) _) _) _) _).
  - offsets. apply get16_put16; [buffer_ok|apply Hw; unfold UIP_ETHTYPE_ARP; lia|lia].
  - unfold t6, t5, t4, t2, t1. offsets. elsewhere. apply get16_put16; [buffer_ok|apply Hw; unfold ARP_REPLY; lia|lia].
  - unfold t6, t5, t4. offsets. elsewhere. apply get_eth_put_bytes; [buffer_ok|done|lia].
  - offsets. elsewhere. apply get_ip_put_ip; [done|done|lia].
  - offsets. elsewhere. unfold t6. apply get_ip_put_ip; [done|done|offsets; lia].
  - unfold t6, t5. offsets. elsewhere. apply get_eth_put_bytes; [done|done|lia].
Qed.

(** The header of a packet for a known address. *)
Lemma eth_header_fields dest (s : St) : buf_ok s → eth_ok dest → eth_ok (s_ethaddr s) →
  get_eth (eth_header dest s) f_ethdest = dest ∧ get_eth (eth_header dest s) f_ethsrc = s_ethaddr s ∧ get16 (eth_header dest s) f_ethtype = HTONS UIP_ETHTYPE_IP ∧
  s_len (eth_header dest s) = u16 (s_len s + ETH_HDR_LEN) ∧ drop 14 (s_buf (eth_header dest s)) = drop 14 (s_buf s).
Proof.
  intros Hb [Hd1 Hd2] [He1 He2]. unfold eth_header. cbv zeta. assert (∀ v, 0 <= v < 65536 → word_ok (HTONS v)) as Hw by (intros; by apply HTONS_word).
  set (t := put16 f_ethtype _ _). change (get_eth (set_len _ t)) with (get_eth t). change (get16 (set_len _ t)) with (get16 t). change (s_buf (set_len _ t)) with (s_buf t).
  unfold t. split_and!.
  - offsets. elsewhere. apply get_eth_put_bytes; [done|done|lia].
  - offsets. elsewhere. apply get_eth_put_bytes; [buffer_ok|done|lia].
  - offsets. apply get16_put16; [buffer_ok|apply Hw; unfold UIP_ETHTYPE_IP; lia|lia].
  - cbn [s_len set_len]. unfold put16. destruct uip_little; rewrite !s_len_put8, !len_bytes_same; done.
  - clear t. assert (∀ o v (s : St), -14 <= o < 0 → drop 14 (s_buf (put8 o v s)) = drop 14 (s_buf s)) as H8.
    { intros o v s' Ho. unfold put8. cbn [s_buf set_buf]. by rewrite drop_insert_lt by (unfold UIP_LLH_LEN; lia). }
    assert (∀ l o (s : St), -14 <= o → o + Z.of_nat (length l) <= 0 → drop 14 (s_buf (put_bytes o l s)) = drop 14 (s_buf s)) as Hl.
    { induction l as [|b l IH]; intros o s' H1 H2; [done|]. cbn [put_bytes length] in *. rewrite IH by lia. apply H8. lia. }
    unfold put16. offsets. destruct uip_little; rewrite !H8 by lia; rewrite !Hl by (rewrite ?eth_bytes, ?Hd1, ?He1; lia); done.
Qed.
End packets.

(** ** Two hosts on a network *)

(** A frame arrives in the buffer of another stack. *)
Definition frame_to {A B} (s : stack A) (s' : stack B) : stack B := set_len (s_len s) (set_buf (s_buf s) s').

Section exchange.
Context {conf : UipConf} {sizes : UipSizes conf} {A B : Type}.

Lemma frame_fields (s : stack A) (s' : stack B) : arp_fields (frame_to s s') = arp_fields s.
Proof. done. Qed.

Lemma frame_ok (s : stack A) (s' : stack B) : buf_ok s → word_ok (s_len s) → stack_ok s' → stack_ok (frame_to s s').
Proof. intros H1 H2 []. by constructor. Qed.

Lemma fields_inv {C} (s : stack C) a b c d e f : arp_fields s = (a, b, c, d, e, f) →
  get16 s f_ethtype = a ∧ get16 s f_opcode = b ∧ get_eth s f_shwaddr = c ∧ get_ip s f_sipaddr = d ∧ get_ip s f_dipaddr = e ∧ get_eth s f_ethdest = f.
Proof.
  unfold arp_fields. generalize (get16 s f_ethtype) (get16 s f_opcode) (get_eth s f_shwaddr) (get_ip s f_sipaddr) (get_ip s f_dipaddr) (get_eth s f_ethdest).
  by intros ? ? ? ? ? ? [= -> -> -> -> -> ->].
Qed.

Lemma htons_inj a b : word_ok a → word_ok b → HTONS a = HTONS b → a = b.
Proof. intros Ha Hb. rewrite !HTONS_spec by done. unfold word_ok in *. destruct uip_little; [|done]. intros. Z.div_mod_to_equations. lia. Qed.

(** C32: a packet for a neighbour that is not in the table becomes a request; the neighbour answers it and learns who asked; with the answer the
    first host sends its next packet for the neighbour to the neighbour's hardware address. *)
Theorem arp_resolves (a b : arp) (s : stack A) (t : stack B) : stack_ok s → stack_ok t → arp_ok a → arp_ok b → eth_ok (s_ethaddr s) → eth_ok (s_ethaddr t) →
  good_ip (s_hostaddr s) → good_ip (s_hostaddr t) → s_hostaddr t ≠ broadcast_ipaddr →
  get_ip s f_destipaddr ≠ broadcast_ipaddr → next_hop s = s_hostaddr t → arp_lookup a (s_hostaddr t) = None →
  let asked := uip_arp_out a s in
  let '(b', answer) := uip_arp_arpin b (frame_to asked t) in
  let '(a', s') := uip_arp_arpin a (frame_to answer asked) in
  get_eth asked f_ethdest = broadcast_ethaddr ∧ get_eth answer f_ethdest = s_ethaddr s ∧ s_len answer = ARP_HDR_LEN ∧ s_len s' = 0 ∧
  arp_lookup b' (s_hostaddr s) = Some (s_ethaddr s) ∧ arp_ok a' ∧ arp_ok b' ∧
  ∀ p : stack A, buf_ok p → s_ethaddr p = s_ethaddr s → get_ip p f_destipaddr ≠ broadcast_ipaddr → next_hop p = s_hostaddr t →
    get_eth (uip_arp_out a' p) f_ethdest = s_ethaddr t ∧ drop 14 (s_buf (uip_arp_out a' p)) = drop 14 (s_buf p).
Proof.
  intros Hs Ht Ha Hb Hes Het His Hit Hbt Hdest Hhop Hno asked.
  assert (asked = arp_ask (s_hostaddr t) s) as Eask.
  { unfold asked, uip_arp_out. rewrite Hhop, Hno. destruct (uip_ipaddr_cmp _ broadcast_ipaddr) eqn:E; [|done]. by apply ip_cmp_eq in E. }
  destruct (arp_ask_fields (s_hostaddr t) s Hs (sok_host _ Ht) Hes) as (F1 & F2 & F3). rewrite <- Eask in F1, F2, F3. apply fields_inv in F1 as (G1 & G2 & G3 & G4 & G5 & G6).
  assert (s_ethaddr asked = s_ethaddr s ∧ s_hostaddr asked = s_hostaddr s) as [Ge Gh].
  { rewrite Eask. unfold arp_ask. cbv zeta. split.
    - change (s_ethaddr (set_len _ (set_appdata _ ?x))) with (s_ethaddr x). elsewhere. change (s_ethaddr (put8 _ _ (put8 _ _ ?x))) with (s_ethaddr x). by elsewhere.
    - change (s_hostaddr (set_len _ (set_appdata _ ?x))) with (s_hostaddr x). elsewhere. change (s_hostaddr (put8 _ _ (put8 _ _ ?x))) with (s_hostaddr x). by elsewhere. }
  clearbody asked. set (tq := frame_to asked t). assert (stack_ok tq) as Htq by (apply frame_ok; [done|by rewrite F2|done]).
  unfold uip_arp_arpin at 1. change (s_len tq) with (s_len asked). rewrite F2. change (ARP_HDR_LEN <? ARP_HDR_LEN) with false. cbv zeta.
  change (get16 (set_len 0 tq) f_opcode) with (get16 asked f_opcode). rewrite G2, Z.eqb_refl. change (get_ip (set_len 0 tq)) with (get_ip asked). change (s_hostaddr (set_len 0 tq)) with (s_hostaddr t).
  rewrite G5. assert (uip_ipaddr_cmp (s_hostaddr t) (s_hostaddr t) = true) as -> by (by apply ip_cmp_eq). change (get_eth (set_len 0 tq)) with (get_eth asked). rewrite G3, G4.
  destruct (update_ok (s_hostaddr s) (s_ethaddr s) b Hb His) as [Hb' Lb]. set (b' := uip_arp_update _ _ b) in *. clearbody b'.
  assert (stack_ok (set_len 0 tq)) as Htq0 by (apply ok_set_len; [by apply word_const|done]).
  destruct (arp_answer_fields (set_len 0 tq) Htq0 Het) as (A1 & A2 & A3). set (answer := arp_answer (set_len 0 tq)) in *. apply fields_inv in A1 as (B1 & B2 & B3 & B4 & B5 & B6).
  change (get_ip (set_len 0 tq)) with (get_ip asked) in B5. change (get_eth (set_len 0 tq)) with (get_eth asked) in B6. change (s_ethaddr (set_len 0 tq)) with (s_ethaddr t) in B3.
  change (s_hostaddr (set_len 0 tq)) with (s_hostaddr t) in B4. rewrite G4 in B5. rewrite G3 in B6. clearbody answer.
  unfold uip_arp_arpin. set (sr := frame_to answer asked). change (s_len sr) with (s_len answer). rewrite A2. change (ARP_HDR_LEN <? ARP_HDR_LEN) with false. cbv zeta.
  change (get16 (set_len 0 sr) f_opcode) with (get16 answer f_opcode). rewrite B2.
  assert ((HTONS ARP_REPLY =? HTONS ARP_REQUEST) = false) as ->.
  { apply Z.eqb_neq. intros E. apply htons_inj in E; [done|by apply word_const..]. }
  rewrite Z.eqb_refl. change (get_ip (set_len 0 sr)) with (get_ip answer). change (s_hostaddr (set_len 0 sr)) with (s_hostaddr asked). rewrite B5, Gh.
  assert (uip_ipaddr_cmp (s_hostaddr s) (s_hostaddr s) = true) as -> by (by apply ip_cmp_eq). change (get_eth (set_len 0 sr)) with (get_eth answer). rewrite B3, B4.
  destruct (update_ok (s_hostaddr t) (s_ethaddr t) a Ha Hit) as [Ha' La]. set (a' := uip_arp_update _ _ a) in *. clearbody a'.
  split_and!; try done. intros p Hp Hpe Hpd Hph. assert (uip_arp_out a' p = eth_header (s_ethaddr t) p) as ->.
  { unfold uip_arp_out. rewrite Hph, La. destruct (uip_ipaddr_cmp _ broadcast_ipaddr) eqn:E; [|done]. by apply ip_cmp_eq in E. }
  destruct (eth_header_fields (s_ethaddr t) p Hp Het) as (H1 & _ & _ & _ & H5); [by rewrite Hpe|]. done.
Qed.
End exchange.

(** ** Ageing *)

Lemma iter_arptime n a : byte_ok (arptime a) → arptime (Nat.iter n uip_arp_timer a) = u8 (arptime a + Z.of_nat n).
Proof.
  intros Ha. induction n as [|n IH]; [cbn; rewrite Z.add_0_r; symmetry; apply u8_id; exact Ha|]. cbn [Nat.iter nat_rect]. unfold uip_arp_timer at 1. cbn [arptime].
  change (nat_rect _ _ _ n) with (Nat.iter n uip_arp_timer a). rewrite IH. unfold u8. rewrite Zplus_mod_idemp_l. f_equal. lia.
Qed.

(** An entry of the table is forgotten after 120 ticks without news, when the clock of eight bits does not wrap around before; an entry of the
    last 120 values of the clock is never forgotten. *)
Theorem arp_ages a i e n : byte_ok (arptime a) → arp_table a !! i = Some e → Z.lor (a_ipaddr e).1 (a_ipaddr e).2 ≠ 0 → a_time e = arptime a →
  arp_table (Nat.iter n uip_arp_timer a) !! i =
    Some (if (UIP_ARP_MAXAGE <=? Z.of_nat n) && (arptime a + UIP_ARP_MAXAGE <? 256) then ArpEntry all_zeroes_addr (a_ethaddr e) (a_time e) else e).
Proof.
  intros Ha Hi Hu Ht. unfold UIP_ARP_MAXAGE. induction n as [|n IH]; [done|]. cbn [Nat.iter nat_rect]. unfold uip_arp_timer at 1. cbn [arp_table].
  change (nat_rect _ _ _ n) with (Nat.iter n uip_arp_timer a). rewrite list_lookup_fmap, IH, iter_arptime by done. cbn [fmap option_fmap option_map]. f_equal. unfold byte_ok in Ha.
  destruct ((120 <=? Z.of_nat n) && (arptime a + 120 <? 256)) eqn:E1.
  - unfold expire. cbn [a_ipaddr all_zeroes_addr fst snd Z.lor Z.eqb negb andb]. apply andb_true_iff in E1 as [H1%Z.leb_le ->]. by rewrite (proj2 (Z.leb_le 120 (Z.of_nat (S n)))) by lia.
  - unfold expire. rewrite (proj2 (Z.eqb_neq _ _) Hu), Ht. cbn [negb andb]. unfold UIP_ARP_MAXAGE, u8.
    destruct (Z.leb_spec 120 (((arptime a + Z.of_nat n) mod 256 + 1) mod 256 - arptime a)) as [H|H].
    + assert (arptime a + 120 < 256) by (Z.div_mod_to_equations; lia). rewrite (proj2 (Z.ltb_lt _ _)) in * by done. rewrite andb_true_r in *. apply Z.leb_gt in E1.
      rewrite (proj2 (Z.leb_le 120 (Z.of_nat (S n)))) by (Z.div_mod_to_equations; lia). by rewrite <- Ht.
    + destruct (Z.leb_spec 120 (Z.of_nat (S n))) as [H2|H2]; [|done]. destruct (Z.ltb_spec (arptime a + 120) 256) as [H3|H3]; [|done]. exfalso.
      cbn [andb] in E1. rewrite andb_true_r in E1. apply Z.leb_gt in E1. Z.div_mod_to_equations. lia.
Qed.

Theorem arp_ages_witness :
  let a t := Arp [ArpEntry (1, 2) (replicate 6 7) t] t in
  arp_table (Nat.iter 120 uip_arp_timer (a 100)) !! 0%nat = Some (ArpEntry (0, 0) (replicate 6 7) 100) ∧
  arp_table (Nat.iter 1000 uip_arp_timer (a 136)) !! 0%nat = Some (ArpEntry (1, 2) (replicate 6 7) 136).
Proof.
  intros a. split.
  - rewrite (arp_ages (a 100) 0 (ArpEntry (1, 2) (replicate 6 7) 100) 120); [reflexivity|unfold byte_ok; vm_compute; split; congruence|reflexivity|vm_compute; congruence|reflexivity].
  - rewrite (arp_ages (a 136) 0 (ArpEntry (1, 2) (replicate 6 7) 136) 1000); [reflexivity|unfold byte_ok; vm_compute; split; congruence|reflexivity|vm_compute; congruence|reflexivity].
Defined.
