(* ===== verification/UipSend.v ===== *)
(** * An application of the stack, and the segments that a connection sends

    The applications of Psock.v, Net.v and Httpd.v see of the stack only what [Psock.uip] has: the flags, the segment size, the
    packet buffer from the data on, and the two lengths.  [appcall] makes such a function the UIP_APPCALL of the stack.

    [tcp_send_noopts] with its checksums always has a result when the segment fits the buffer; the segment has the numbers and the
    ports of the connection and the data of the buffer. *)
From S2P Require Import Prelude Psock UipSum Uip UipInv UipOut UipEcho.

(** The packet buffer behind the headers of TCP. *)
Definition body {A} (s : stack A) : mem := drop 54 (s_buf s).

Definition put_body {A} (d : mem) (s : stack A) : stack A := set_buf (take 54 (s_buf s) ++ d) s.

Section adaptor.
Context {conf : UipConf} {W : Type} (app : W → uip → option (W * uip)).
Abbreviation St := (stack W).

(** What the application sees: it reads at [uip_appdata] and writes at [uip_sappdata], which are the same without urgent data. *)
Definition app_view (s : St) (c : Uip.uip_conn) : uip := Uip (s_flags s) (Uip.mss c) (body s) (s_len s) (s_slen s).

Definition app_result (w : W) (u : uip) (s : St) : St := set_app w (set_flags (uip_flags u) (set_slen (uip_slen u) (put_body (uip_appdata u) s))).

Definition appcall (s : St) : option St :=
  i ← s_conn s;
  c ← s_conns s !! i;
  if (s_appdata s =? 54) && (s_sappdata s =? 54) then
    '(w, u) ← app (s_app s) (app_view s c);
    Some (app_result w u s)
  else None.
End adaptor.

(** An application that stays in the buffer and does not change what it was told. *)
Class UAppOk {conf : UipConf} {W} (app : W → uip → option (W * uip)) : Prop := {
  uapp_ok : ∀ w u w' u', app w u = Some (w', u') → bytes_ok (uip_appdata u) → 0 <= uip_slen u <= UIP_BUFSIZE →
    msize (uip_appdata u') = msize (uip_appdata u) ∧ bytes_ok (uip_appdata u') ∧ uip_mss u' = uip_mss u ∧ uip_len u' = uip_len u ∧ 0 <= uip_slen u' <= UIP_BUFSIZE }.

Section bodies.
Context {conf : UipConf} {sizes : UipSizes conf} {A : Type}.
Abbreviation St := (stack A).

Lemma body_put8 o v (s : St) : 0 <= o < 40 → body (put8 o v s) = body s.
Proof. intros H. unfold body, put8, UIP_LLH_LEN. cbn [s_buf set_buf]. by rewrite drop_insert_lt by lia. Qed.

Lemma body_put16 o v (s : St) : 0 <= o < 39 → body (put16 o v s) = body s.
Proof. intros H. unfold put16. destruct uip_little; by rewrite !body_put8 by lia. Qed.

Lemma body_put32 o v (s : St) : 0 <= o < 37 → body (put32 o v s) = body s.
Proof. intros H. destruct v as [[[a b] c] d]. unfold put32. cbv beta iota. by rewrite !body_put8 by lia. Qed.

Lemma body_put_ip o v (s : St) : 0 <= o < 37 → body (put_ip o v s) = body s.
Proof. intros H. unfold put_ip. by rewrite !body_put16 by lia. Qed.

Lemma body_size (s : St) : buf_ok s → msize (body s) = UIP_BUFSIZE - 52.
Proof. intros [H _]. pose proof bufsize_ok. unfold msize, body in *. rewrite length_drop. lia. Qed.

Lemma body_bytes (s : St) : buf_ok s → bytes_ok (body s).
Proof. intros [_ H]. by apply Forall_drop. Qed.
End bodies.

Section frame.
Context {conf : UipConf} {sizes : UipSizes conf} {W : Type} (app : W → uip → option (W * uip)) `{!UAppOk app}.
Abbreviation St := (stack W).

Lemma appcall_inv (s s' : St) : appcall app s = Some s' → ∃ i c w u, s_conn s = Some i ∧ s_conns s !! i = Some c ∧ s_appdata s = 54 ∧ s_sappdata s = 54 ∧
  app (s_app s) (app_view s c) = Some (w, u) ∧ s' = app_result w u s.
Proof.
  intros (i & Hi & E)%bind_Some. apply bind_Some in E as (c & Hc & E). destruct (_ && _) eqn:Hd; [|done]. apply andb_true_iff in Hd as [H1%Z.eqb_eq H2%Z.eqb_eq].
  apply bind_Some in E as ([w u] & Hu & E). injection E as <-. eauto 10.
Qed.

#[export] Instance appcall_ok : AppOk (appcall app).
Proof.
  constructor. intros s s' (i & c & w & u & Hi & Hc & Ha & Hsa & Hu & ->)%appcall_inv Hs. pose proof (sok_buf _ Hs) as Hb. pose proof bufsize_ok as Hsz.
  destruct (uapp_ok _ _ _ _ Hu) as (U1 & U2 & U3 & U4 & U5); [by apply body_bytes|apply Hs|]. cbn [uip_appdata app_view] in U1. rewrite (body_size s Hb) in U1.
  assert (length (take 54 (s_buf s)) = 54%nat) as Ht by (rewrite length_take; destruct Hb as [Hb _]; unfold msize in Hb; lia).
  constructor; cbn [app_result s_buf s_slen s_len s_sappdata s_conn s_conns s_iss s_ipid s_hostaddr set_app set_flags set_slen set_buf put_body]; try done.
  - destruct Hb as [-> _]. rewrite msize_app. unfold msize at 1. rewrite Ht. lia.
  - apply Forall_app. split; [apply Forall_take; apply Hb|done].
  - intros o Ho H. rewrite Hsa in H. unfold get8. cbn [app_result s_buf set_app set_flags set_slen set_buf put_body]. unfold UIP_LLH_LEN in *. rewrite lookup_app_l by lia. by rewrite lookup_take_lt by lia.
  - apply Forall_Forall2_diag, Forall_forall. intros x _. exists (tcpstateflags x). split; [by destruct x|done].
Qed.
End frame.

Section segments.
Context {conf : UipConf} {sizes : UipSizes conf} {A : Type}.
Abbreviation St := (stack A).

(** The variables that sending does not change. *)
Definition vars (s : St) : list Uip.uip_conn * A * ipaddr * bool * list Z * list uip_udp_conn * u8x4 :=
  (s_conns s, s_app s, s_hostaddr s, s_forced_poll s, s_listenports s, s_udp_conns s, s_iss s).

Lemma vars_put16 o v (s : St) : vars (put16 o v s) = vars s.
Proof. unfold put16. by destruct uip_little. Qed.

Lemma vars_put32 o v (s : St) : vars (put32 o v s) = vars s.
Proof. by destruct v as [[[a b] c] d]. Qed.

Lemma vars_put_ip o v (s : St) : vars (put_ip o v s) = vars s.
Proof. unfold put_ip. by rewrite !vars_put16. Qed.

Lemma vars_put8 o v (s : St) : vars (put8 o v s) = vars s.
Proof. done. Qed.

Lemma vars_conns (s s' : St) : vars s' = vars s → s_conns s' = s_conns s.
Proof. by injection 1. Qed.

Lemma vars_app (s s' : St) : vars s' = vars s → s_app s' = s_app s.
Proof. by injection 1. Qed.

Lemma get32_put8_ne o o' v (s : St) : 0 <= o → 0 <= o' → o < o' ∨ o' + 3 < o → get32 (put8 o v s) o' = get32 s o'.
Proof. intros. unfold get32. by rewrite !get8_put8_ne by lia. Qed.

Lemma get32_put16_ne o o' v (s : St) : 0 <= o → 0 <= o' → o + 1 < o' ∨ o' + 3 < o → get32 (put16 o v s) o' = get32 s o'.
Proof. intros. unfold put16. destruct uip_little; by rewrite !get32_put8_ne by lia. Qed.

Lemma get32_put_ip_ne o o' v (s : St) : 0 <= o → 0 <= o' → o + 3 < o' ∨ o' + 3 < o → get32 (put_ip o v s) o' = get32 s o'.
Proof. intros. unfold put_ip. by rewrite !get32_put16_ne by lia. Qed.

Lemma get32_put32_ne o o' v (s : St) : 0 <= o → 0 <= o' → o + 3 < o' ∨ o' + 3 < o → get32 (put32 o v s) o' = get32 s o'.
Proof. intros. destruct v as [[[a b] c] d]. unfold put32. cbv beta iota. by rewrite !get32_put8_ne by lia. Qed.

Lemma get32_put32 o v (s : St) : buf_ok s → u8x4_ok v → 0 <= o < 70 → get32 (put32 o v s) o = v.
Proof.
  intros Hb Hv Ho. destruct v as [[[a b] c] d]. destruct Hv as (Ha & Hb' & Hc & Hd). unfold get32, put32. cbv beta iota.
  assert (∀ x, byte_ok x → u8 x = x) as Hu by (intros x Hx; apply u8_id; exact Hx).
  repeat first [rewrite get8_put8_ne by lia | rewrite get8_put8 by (first [repeat apply buf_ok_put8; exact Hb | unfold in_header; lia])]. by rewrite !Hu.
Qed.

Lemma get8_put32_ne o o' v (s : St) : 0 <= o → 0 <= o' → o' < o ∨ o + 3 < o' → get8 (put32 o v s) o' = get8 s o'.
Proof. intros. destruct v as [[[a b] c] d]. unfold put32. cbv beta iota. by rewrite !get8_put8_ne by lia. Qed.

Lemma get16_put8_ne o o' v (s : St) : -14 <= o → -14 <= o' → o < o' ∨ o' + 1 < o → get16 (put8 o v s) o' = get16 s o'.
Proof. intros. unfold get16. by rewrite !get8_put8_ne by lia. Qed.

Lemma get16_put_ip_ne o o' v (s : St) : -14 <= o → -14 <= o' → o + 3 < o' ∨ o' + 1 < o → get16 (put_ip o v s) o' = get16 s o'.
Proof. intros. unfold put_ip. by rewrite !get16_put16_ne by lia. Qed.

(** What a packet says in the fields that the end of [uip_process] does not fill in. *)
Definition fields (s : St) : u8x4 * u8x4 * Z * Z * Z * ipaddr := (get32 s f_seqno, get32 s f_ackno, get8 s f_flags, get16 s f_srcport, get16 s f_destport, get_ip s f_destipaddr).

Definition done_by (s s' : St) : Prop := vars s' = vars s ∧ s_len s' = s_len s ∧ body s' = body s ∧ fields s' = fields s.

Lemma done_refl s : done_by s s.
Proof. done. Qed.

Lemma done_trans s1 s2 s3 : done_by s1 s2 → done_by s2 s3 → done_by s1 s3.
Proof. unfold done_by. intuition congruence. Qed.

(** An offset of a field that is not among [fields]. *)
Definition outside (o : Z) : Prop := 0 <= o < 16 ∨ 34 <= o < 40.

Lemma done_put8 o v (s : St) : outside o → done_by s (put8 o v s).
Proof.
  intros H. unfold outside in H. split_and!; [done|done|by apply body_put8; lia|]. unfold fields, get_ip, f_seqno, f_ackno, f_flags, f_srcport, f_destport, f_destipaddr.
  rewrite !get32_put8_ne, get8_put8_ne, !get16_put8_ne by lia. done.
Qed.

Lemma done_put16 o v (s : St) : outside o → outside (o + 1) → done_by s (put16 o v s).
Proof. intros H1 H2. unfold put16. destruct uip_little; (eapply done_trans; [|apply done_put8]; [by apply done_put8|done]). Qed.

Lemma done_set_ipid v (s : St) : done_by s (set_ipid v s).
Proof. done. Qed.

Lemma done_ip_send_nolen (s : St) : ∃ s', ip_send_nolen s = Some s' ∧ done_by s s'.
Proof.
  unfold ip_send_nolen. cbv zeta. eexists. split; [reflexivity|].
  change (done_by s (set_flags 0 ?x)) with (done_by s x).
  repeat first [apply done_refl | eapply done_trans; [|apply done_put16; unfold outside, f_ipchksum; lia] | eapply done_trans; [|apply done_put8; unfold outside, f_ipid, f_ipoffset, f_tos, f_vhl; lia] | eapply done_trans; [|apply done_set_ipid]].
Qed.

Lemma tcp_send_noconn_returns (s : St) : stack_ok s → UIP_IPTCPH_LEN <= s_len s <= UIP_BUFSIZE - UIP_LLH_LEN → ∃ s', tcp_send_noconn s = Some s' ∧ done_by s s'.
Proof.
  intros Hs Hl. unfold tcp_send_noconn. cbv zeta. set (t := put16 f_tcpchksum 0 _). assert (done_by s t) as Ht.
    { unfold t. repeat first [apply done_refl | eapply done_trans; [|apply done_put16; unfold outside, f_tcpchksum; lia] | eapply done_trans; [|apply done_put8; unfold outside, f_urgp, f_len, f_ttl; lia]]. }
    assert (stack_ok t) as Hok by (unfold t; stk). assert (len_field t = s_len s) as Hlen.
    { unfold t. rewrite len_field_put16 by (unfold f_ipchksum, f_tcpchksum; lia). rewrite !(len_field_put8 f_urgp), !(len_field_put8 (f_urgp + 1)) by (unfold f_urgp, f_len; lia).
      apply len_bytes; [apply buf_ok_put8, Hs|apply Hs]. }
    unfold uip_tcpchksum. rewrite upper_layer_total.
    + cbn [mbind option_bind]. edestruct done_ip_send_nolen as (s' & E & Hd). eexists. split; [exact E|].
      eapply done_trans; [exact Ht|]. eapply done_trans; [|exact Hd]. apply done_put16; unfold outside, f_tcpchksum; lia.
    + rewrite Hlen. destruct (sok_buf _ Hok) as [-> _]. unfold UIP_IPTCPH_LEN, UIP_TCPH_LEN, UIP_IPH_LEN, UIP_LLH_LEN in *. pose proof bufsize_ok. rewrite u16_id; lia.
Qed.

Lemma tcp_send_noconn_total (s : St) : stack_ok s → UIP_IPTCPH_LEN <= s_len s <= UIP_BUFSIZE - UIP_LLH_LEN → addressed_as UIP_PROTO_TCP s →
  ∃ s', tcp_send_noconn s = Some s' ∧ done_by s s' ∧ packet_valid s' ∧ get8 s' f_proto = UIP_PROTO_TCP.
Proof.
  intros Hs Hl Ha. destruct (tcp_send_noconn_returns s Hs Hl) as (s' & E & Hd). exists s'.
  destruct (tcp_send_noconn_valid s s') as (H1 & H2 & _); [done|lia|done..|]. split_and!; [done|apply Hd..|done|done].
Qed.

(** A segment of the connection [c] in the buffer. *)
Record segment_of (s : St) (c : Uip.uip_conn) (fl : Z) (data : mem) : Prop := {
  seg_valid : packet_valid s; seg_proto : get8 s f_proto = UIP_PROTO_TCP; seg_len : s_len s = UIP_IPTCPH_LEN + msize data; seg_data : take (length data) (body s) = data;
  seg_fields : fields s = (Uip.snd_nxt c, Uip.rcv_nxt c, fl, Uip.lport c, Uip.rport c, Uip.ripaddr c) }.

Lemma fields_put8 o v (s : St) : outside o → fields (put8 o v s) = fields s.
Proof. intros H. by apply done_put8. Qed.

Lemma get_ip_put8_ne o o' v (s : St) : -14 <= o → -14 <= o' → o < o' ∨ o' + 3 < o → get_ip (put8 o v s) o' = get_ip s o'.
Proof. intros. unfold get_ip. by rewrite !get16_put8_ne by lia. Qed.

Lemma tcp_send_total i c (s : St) : stack_ok s → s_conns s !! i = Some c → UIP_IPTCPH_LEN <= s_len s <= UIP_BUFSIZE - UIP_LLH_LEN →
  ∃ s', tcp_send i s = Some s' ∧ vars s' = vars s ∧ s_len s' = s_len s ∧ body s' = body s ∧ packet_valid s' ∧ get8 s' f_proto = UIP_PROTO_TCP ∧
    fields s' = (Uip.snd_nxt c, Uip.rcv_nxt c, get8 s f_flags, Uip.lport c, Uip.rport c, Uip.ripaddr c).
Proof.
  intros Hs Hc Hl. pose proof (ok_conn _ _ _ Hs Hc) as Hok. unfold tcp_send. rewrite Hc. cbn [mbind option_bind]. cbv zeta.
  set (t := put_ip f_destipaddr _ _). set (w := if bits _ _ then _ else _). assert (stack_ok t) as Ht by (unfold t; stk).
  assert (addressed_as UIP_PROTO_TCP t) as Hat by (apply addressed_header; [stk|done]).
  assert (addressed_as UIP_PROTO_TCP w) as Haw.
  { unfold w. destruct (bits _ _); repeat apply addressed_put8; (done || unfold f_wnd, f_proto, f_srcipaddr, f_destipaddr; lia). }
  assert (stack_ok w ∧ vars w = vars t ∧ s_len w = s_len t ∧ body w = body t ∧ fields w = fields t) as (Hw & W1 & W2 & W3 & W4).
  { unfold w. destruct (bits _ _); (split_and!; [stk|done|done|by rewrite !body_put8 by (unfold f_wnd; lia)|by rewrite !fields_put8 by (unfold outside, f_wnd; lia)]). }
  assert (s_len t = s_len s) as T1 by (unfold t; by rewrite !s_len_put_ip, !s_len_put16, s_len_put8, !s_len_put32).
  assert (vars t = vars s) as T2 by (unfold t; by rewrite !vars_put_ip, !vars_put16, vars_put8, !vars_put32).
  assert (body t = body s) as T3.
  { unfold t, f_destipaddr, f_srcipaddr, f_destport, f_srcport, f_proto, f_seqno, f_ackno. by rewrite !body_put_ip, !body_put16, body_put8, !body_put32 by lia. }
  assert (fields t = (Uip.snd_nxt c, Uip.rcv_nxt c, get8 s f_flags, Uip.lport c, Uip.rport c, Uip.ripaddr c)) as T4.
  { pose proof (sok_buf _ Hs) as Hb. unfold t, fields, f_destipaddr, f_srcipaddr, f_destport, f_srcport, f_proto, f_seqno, f_ackno, f_flags.
    repeat apply (f_equal2 pair).
    - rewrite !get32_put_ip_ne, !get32_put16_ne, get32_put8_ne by lia. apply get32_put32; [|apply Hok|lia]. destruct (Uip.rcv_nxt c) as [[[? ?] ?] ?]. by repeat apply buf_ok_put8.
    - rewrite !get32_put_ip_ne, !get32_put16_ne, get32_put8_ne, get32_put32_ne by lia. apply get32_put32; [done|apply Hok|lia].
    - by rewrite !get8_put_ip_ne, !get8_put16_ne, get8_put8_ne, !get8_put32_ne by lia.
    - rewrite !get16_put_ip_ne, get16_put16_ne by lia. apply get16_put16; [|apply Hok|lia]. apply buf_ok_put8. destruct (Uip.rcv_nxt c) as [[[? ?] ?] ?], (Uip.snd_nxt c) as [[[? ?] ?] ?]. by repeat apply buf_ok_put8.
    - rewrite !get16_put_ip_ne by lia. apply get16_put16; [|apply Hok|lia]. apply buf_ok_put16, buf_ok_put8. destruct (Uip.rcv_nxt c) as [[[? ?] ?] ?], (Uip.snd_nxt c) as [[[? ?] ?] ?]. by repeat apply buf_ok_put8.
    - apply get_ip_put_ip; [|apply Hok|lia]. apply buf_ok_put_ip, buf_ok_put16, buf_ok_put16, buf_ok_put8. destruct (Uip.rcv_nxt c) as [[[? ?] ?] ?], (Uip.snd_nxt c) as [[[? ?] ?] ?]. by repeat apply buf_ok_put8. }
  clearbody t w. destruct (tcp_send_noconn_total w Hw) as (s' & E & (D1 & D2 & D3 & D4) & Hv & Hpr); [by rewrite W2, T1|done|].
  exists s'. split_and!; try done; congruence.
Qed.

(** A segment with [n] bytes of the buffer. *)
Lemma tcp_send_noopts_total i c n (s : St) : stack_ok s → s_conns s !! i = Some c → s_len s = UIP_IPTCPH_LEN + n → 0 <= n <= UIP_TCP_MSS →
  ∃ s', tcp_send_noopts i s = Some s' ∧ segment_of s' c (get8 s f_flags) (take (Z.to_nat n) (body s)) ∧ vars s' = vars s.
Proof.
  intros Hs Hc Hl Hn. unfold tcp_send_noopts. set (t := put8 _ _ _). assert (stack_ok t) as Ht by (unfold t; stk).
  pose proof (body_size s (sok_buf _ Hs)) as Hsz. pose proof bufsize_ok as Hbs. unfold UIP_TCP_MSS, UIP_TCPIP_HLEN, UIP_LLH_LEN, UIP_IPTCPH_LEN, UIP_TCPH_LEN, UIP_IPH_LEN in *.
  destruct (tcp_send_total i c t Ht Hc) as (s' & E & E1 & E2 & E3 & E4 & E4p & E5).
  { change (s_len t) with (s_len s). unfold UIP_LLH_LEN, UIP_IPTCPH_LEN, UIP_TCPH_LEN, UIP_IPH_LEN. lia. }
  assert (body t = body s) as Eb by (apply body_put8; unfold f_tcpoffset; lia). exists s'. split_and!; [done| |done]. unfold msize in Hsz.
  constructor; [done|done| | |].
  - rewrite E2. change (s_len t) with (s_len s). rewrite Hl. unfold msize. rewrite length_take. unfold UIP_IPTCPH_LEN, UIP_TCPH_LEN, UIP_IPH_LEN. lia.
  - rewrite E3, Eb. rewrite length_take. f_equal. lia.
  - rewrite E5. unfold t. by rewrite get8_put8_ne by (unfold f_tcpoffset, f_flags; lia).
Qed.

Lemma tcp_send_nodata_total i c (s : St) : stack_ok s → s_conns s !! i = Some c →
  ∃ s', tcp_send_nodata i s = Some s' ∧ segment_of s' c (get8 s f_flags) [] ∧ vars s' = vars s.
Proof.
  intros Hs Hc. pose proof mss_ok. destruct (tcp_send_noopts_total i c 0 (set_len UIP_IPTCPH_LEN s)) as (s' & E & Hseg & Hv); [stk|done|done|lia|]. by exists s'.
Qed.

Lemma tcp_send_flags_total i c fl (s : St) : stack_ok s → s_conns s !! i = Some c → byte_ok fl →
  ∃ s', tcp_send_nodata i (put8 f_flags fl s) = Some s' ∧ segment_of s' c fl [] ∧ vars s' = vars s.
Proof.
  intros Hs Hc Hf. destruct (tcp_send_nodata_total i c (put8 f_flags fl s)) as (s' & E & Hseg & Hv); [stk|done|].
  rewrite get8_put8 in Hseg by (first [apply Hs | unfold in_header, f_flags; lia]). rewrite u8_id in Hseg by exact Hf. by exists s'.
Qed.
End segments.
