(* ===== verification/UipTotal.v ===== *)
(** * The stack has a result

    What [uip_process] needs to return without leaving its buffer: a datagram whose lengths agree, options that a SYN has by RFC 793,
    and applications that return when they are called for a connection of the table with data inside the buffer.  With it the properties
    of the whole of [uip_process]. *)
From S2P Require Import Prelude Psock UipSum Uip UipInv UipOut UipEcho UipSend.

(** The options of a SYN: an end, or options of one byte or with a length that counts the two bytes of kind and length. *)
Inductive options_wf : mem → Prop :=
| options_nil : options_wf []
| options_end l : options_wf (TCP_OPT_END :: l)
| options_noop l : options_wf l → options_wf (TCP_OPT_NOOP :: l)
| options_other kind body l : kind ≠ TCP_OPT_END → kind ≠ TCP_OPT_NOOP → options_wf l → options_wf (kind :: 2 + msize body :: body ++ l).

Section total.
Context {conf : UipConf} {sizes : UipSizes conf} {A : Type}.
Abbreviation St := (stack A).

(** ** What arrives *)

(** The header's length, the options, and how much data is urgent. *)
Definition header_len (s : St) : Z := u8 (Z.shiftl (Z.shiftr (get8 s f_tcpoffset) 4) 2).
Definition options_len (s : St) : Z := Z.shiftl (Z.shiftr (get8 s f_tcpoffset) 4 - 5) 2.
Definition options (s : St) : mem := take (Z.to_nat (options_len s)) (drop 54 (s_buf s)).
Definition urgent (s : St) : Z := Z.lor (Z.shiftl (get8 s f_urgp) 8) (get8 s (f_urgp + 1)).

Record segment_wf (s : St) : Prop := {
  swf_header : UIP_TCPH_LEN <= header_len s; swf_len : UIP_IPH_LEN + header_len s <= len_field s;
  swf_urgent : bits (get8 s f_flags) TCP_URG = true → urgent s <= len_field s - UIP_IPH_LEN - header_len s;
  swf_options : bits (get8 s f_flags) TCP_SYN = true → options_wf (options s) }.

(** A datagram inside the buffer. *)
Definition datagram_wf (s : St) : Prop :=
  UIP_IPH_LEN <= len_field s <= UIP_BUFSIZE - UIP_LLH_LEN ∧
  (get8 s f_proto = UIP_PROTO_TCP → segment_wf s) ∧ (get8 s f_proto = UIP_PROTO_UDP → UIP_IPUDPH_LEN <= len_field s).

(** An event that names an entry of the tables, or a datagram; the fuel is for the loop over at most forty bytes of options. *)
Definition event_wf (fuel : nat) (flag : Z) (s : St) : Prop :=
  if flag =? UIP_UDP_SEND_CONN then (s_udp_conn s < length (s_udp_conns s))%nat ∧ UIP_LLH_LEN + UIP_IPUDPH_LEN + s_slen s <= msize (s_buf s)
  else if (flag =? UIP_POLL_REQUEST) || (flag =? UIP_TIMER) then ∃ i, s_conn s = Some i ∧ (i < length (s_conns s))%nat
  else if flag =? UIP_UDP_TIMER then (s_udp_conn s < length (s_udp_conns s))%nat
  else (40 < fuel)%nat ∧ datagram_wf s.

(** ** Applications that return *)

(** The data of a call is inside the buffer. *)
Definition data_inside (s : St) : Prop := uflag s UIP_NEWDATA = true → s_appdata s + s_len s <= msize (s_buf s).

Record tcp_called (s : St) : Prop := {
  tcc_place : s_sappdata s = 54; tcc_data : 54 <= s_appdata s; tcc_inside : data_inside s;
  tcc_conn : ∃ i, s_conn s = Some i ∧ (i < length (s_conns s))%nat }.

Record udp_called (s : St) : Prop := {
  ucc_place : s_sappdata s = 42; ucc_data : s_appdata s = 42; ucc_inside : data_inside s; ucc_slen : s_slen s = 0;
  ucc_conn : s_conn s = None ∧ (s_udp_conn s < length (s_udp_conns s))%nat }.

(** They return, keep the table of the UDP connections at its size, and what they leave to be sent by UDP is in the buffer. *)
Class TcpTotal (app : St → option St) : Prop := {
  tcp_total : ∀ s, stack_ok s → tcp_called s → ∃ s', app s = Some s' ∧ length (s_udp_conns s') = length (s_udp_conns s) }.

Class UdpTotal (app : St → option St) : Prop := {
  udp_total : ∀ s, stack_ok s → udp_called s → ∃ s', app s = Some s' ∧ length (s_udp_conns s') = length (s_udp_conns s) ∧
    s_udp_conn s' = s_udp_conn s ∧ UIP_LLH_LEN + UIP_IPUDPH_LEN + s_slen s' <= msize (s_buf s') }.

(** ** Results *)

(** The sizes of the tables. *)
Definition shape (s : St) : nat * nat := (length (s_conns s), length (s_udp_conns s)).

(** The tables are as large as before, and what is to be sent is in the buffer, with the place for the Ethernet header. *)
Definition good (s s' : St) : Prop := shape s' = shape s ∧ s_len s' + UIP_LLH_LEN <= msize (s_buf s').

Definition total (pre : St → Prop) (f : St → option St) : Prop := ∀ s, stack_ok s → pre s → ∃ s', f s = Some s' ∧ stack_ok s' ∧ good s s'.

Definition has (i : nat) (s : St) : Prop := (i < length (s_conns s))%nat.

Lemma buf_size (s : St) : stack_ok s → msize (s_buf s) = UIP_BUFSIZE + 2.
Proof. intros H. apply H. Qed.

Lemma good_trans (s t s' : St) : shape t = shape s → good t s' → good s s'.
Proof. intros E [H1 H2]. split; [congruence|done]. Qed.

Lemma vars_shape (s s' : St) : vars s' = vars s → shape s' = shape s.
Proof. unfold vars, shape. by injection 1 as -> _ _ _ _ -> _. Qed.

Lemma shape_mod i f (s : St) : shape (mod_conn i f s) = shape s.
Proof. unfold shape. cbn [mod_conn set_conns s_conns s_udp_conns]. by rewrite length_alter. Qed.

Lemma has_shape i (s s' : St) : shape s' = shape s → has i s → has i s'.
Proof. unfold shape, has. injection 1 as -> _. done. Qed.

Lemma has_conn i (s : St) : has i s → ∃ c, s_conns s !! i = Some c.
Proof. intros H. by apply lookup_lt_is_Some_2. Qed.

(** The setters leave the tables. *)
Lemma shape_put8 o v (s : St) : shape (put8 o v s) = shape s.
Proof. done. Qed.

(** What can follow a change of the state: the result is good for the state before as well. *)
Lemma total_at pre f (s t : St) : total pre f → stack_ok t → pre t → shape t = shape s → ∃ s', f t = Some s' ∧ stack_ok s' ∧ good s s'.
Proof. intros Hf Ht Hp E. destruct (Hf t Ht Hp) as (s' & E1 & H1 & H2). exists s'. split_and!; [done|done|by eapply good_trans]. Qed.

Lemma total_drop pre : total pre drop_packet.
Proof.
  intros s Hs _. eexists. split; [reflexivity|]. split; [by apply (keeps_drop s)|]. split; [done|].
  change (0 + UIP_LLH_LEN <= msize (s_buf s)). rewrite buf_size by done. pose proof bufsize_ok. unfold UIP_LLH_LEN. lia.
Qed.

(** ** Sending *)

Lemma total_tcp_send i : total (λ s, has i s ∧ UIP_IPTCPH_LEN <= s_len s <= UIP_BUFSIZE - UIP_LLH_LEN) (tcp_send i).
Proof.
  intros s Hs [Hi Hl]. destruct (has_conn i s Hi) as [c Hc]. destruct (tcp_send_total i c s Hs Hc Hl) as (s' & E & Hv & Hl' & _). pose proof (keeps_tcp_send i s s' Hs E) as Hs'.
  exists s'. split; [done|]. split; [done|]. split; [by apply vars_shape|]. rewrite Hl', buf_size by done. lia.
Qed.

Lemma total_tcp_send_noopts i : total (λ s, has i s ∧ UIP_IPTCPH_LEN <= s_len s <= UIP_BUFSIZE - UIP_LLH_LEN) (tcp_send_noopts i).
Proof. intros s Hs Hp. unfold tcp_send_noopts. by eapply total_at; [apply (total_tcp_send i)|stk|exact Hp|]. Qed.

Lemma header_fits : UIP_IPTCPH_LEN <= UIP_IPTCPH_LEN <= UIP_BUFSIZE - UIP_LLH_LEN.
Proof. pose proof bufsize_ok. unfold UIP_IPTCPH_LEN, UIP_TCPH_LEN, UIP_IPH_LEN, UIP_LLH_LEN. lia. Qed.

Lemma total_nodata i : total (has i) (tcp_send_nodata i).
Proof. intros s Hs Hp. unfold tcp_send_nodata. by eapply total_at; [apply (total_tcp_send_noopts i)|stk|split; [exact Hp|apply header_fits]|]. Qed.

Lemma total_ack i : total (has i) (tcp_send_ack i).
Proof. intros s Hs Hp. unfold tcp_send_ack. by eapply total_at; [apply (total_nodata i)|stk|exact Hp|]. Qed.

Lemma total_finack i : total (has i) (tcp_send_finack i).
Proof. intros s Hs Hp. unfold tcp_send_finack. by eapply total_at; [apply (total_nodata i)|stk|exact Hp|]. Qed.

Lemma total_syn i : total (has i) (tcp_send_syn i).
Proof.
  intros s Hs Hp. unfold tcp_send_syn. cbv zeta. eapply total_at; [apply (total_tcp_send i)|stk|split; [exact Hp|]|done]. rewrite !s_len_put8.
  cbn [s_len set_len]. pose proof bufsize_ok. unfold UIP_IPTCPH_LEN, UIP_TCPH_LEN, UIP_IPH_LEN, UIP_LLH_LEN, TCP_OPT_MSS_LEN. lia.
Qed.

Lemma total_synack i : total (has i) (tcp_send_synack i).
Proof. intros s Hs Hp. unfold tcp_send_synack. by eapply total_at; [apply (total_syn i)|stk|exact Hp|]. Qed.

Lemma total_noconn : total (λ s, UIP_IPTCPH_LEN <= s_len s <= UIP_BUFSIZE - UIP_LLH_LEN) tcp_send_noconn.
Proof.
  intros s Hs Hl. destruct (tcp_send_noconn_returns s Hs Hl) as (s' & E & Hv & Hl' & _). pose proof (keeps_tcp_send_noconn s s' Hs E) as Hs'.
  exists s'. split; [done|]. split; [done|]. split; [by apply vars_shape|]. rewrite Hl', buf_size by done. lia.
Qed.

Lemma total_reset pre : total pre reset.
Proof.
  intros s Hs _. unfold reset. cbv zeta. destruct (bits _ _); [by apply (total_drop any)|]. eapply total_at; [apply total_noconn|stk; by apply incr32_spec, get32_ok, Hs| |].
  - cbv beta. rewrite !s_len_put_ip, !s_len_put16, !s_len_put32. apply header_fits.
  - apply vars_shape. by rewrite !vars_put_ip, !vars_put16, !vars_put32.
Qed.

Lemma total_udp_send : total (λ s, (s_udp_conn s < length (s_udp_conns s))%nat ∧ UIP_LLH_LEN + UIP_IPUDPH_LEN + s_slen s <= msize (s_buf s)) udp_send.
Proof.
  intros s Hs [Hu Hl]. rewrite buf_size in Hl by done. pose proof (keeps_udp_send s) as Hk. unfold udp_send in *. cbv zeta in *.
  destruct (s_slen s =? 0); [by apply (total_drop any)|]. destruct (lookup_lt_is_Some_2 (s_udp_conns s) (s_udp_conn s) Hu) as [u Eu]. rewrite Eu in *. cbn [mbind option_bind] in *.
  pose proof (sok_slen _ Hs) as Hsl. pose proof bufsize_ok as Hsz. unfold UIP_IPUDPH_LEN, UIP_UDPH_LEN, UIP_IPH_LEN, UIP_LLH_LEN in Hl.
  assert (u16 (s_slen s + UIP_IPUDPH_LEN) = s_slen s + 28) as El by (unfold UIP_IPUDPH_LEN, UIP_UDPH_LEN, UIP_IPH_LEN; rewrite u16_id; lia). rewrite El in *.
  set (t0 := set_len (s_slen s + 28) s) in *. set (t1 := put8 (f_len + 1) _ _) in *. assert (stack_ok t1) as H1 by (unfold t1, t0; stk; unfold word_ok; lia).
  assert (len_field t1 = s_slen s + 28) as Hlen by (apply (len_bytes (s_slen s + 28) t0); [apply Hs|unfold word_ok; lia]). assert (vars t1 = vars s) as Hv1 by done. assert (s_len t1 = s_slen s + 28) as Hl1 by done. clearbody t1.
  set (t := set_appdata _ _) in *. assert (stack_ok t) as Ht by (unfold t; stk). assert (len_field t = s_slen s + 28) as Hlt.
  { unfold t. change (len_field (set_appdata ?v ?y)) with (len_field y). rewrite !len_field_put_ip, !len_field_put16 by (unfold f_ipchksum, f_udpchksum, f_udplen, f_srcipaddr, f_destipaddr, f_srcport, f_destport; lia).
    by rewrite !len_field_put8 by (unfold f_proto, f_ttl, f_len; lia). }
  assert (vars t = vars s) as Hvt by (unfold t; change (vars (set_appdata ?v ?y)) with (vars y); by rewrite !vars_put_ip, !vars_put16).
  assert (s_len t = s_slen s + 28) as Hst by (unfold t; change (s_len (set_appdata ?v ?y)) with (s_len y); by rewrite !s_len_put_ip, !s_len_put16, !s_len_put8).
  clearbody t. unfold uip_udpchksum in *. rewrite upper_layer_total in Hk |- *; [|rewrite Hlt, buf_size by done; unfold UIP_IPH_LEN; rewrite u16_id; lia..].
  cbn [mbind option_bind] in *. set (w := put16 f_udpchksum _ t) in *. set (w' := if get16 w f_udpchksum =? 0 then _ else _) in *.
  assert (vars w' = vars t ∧ s_len w' = s_len t) as [Hv2 Hs2] by (unfold w', w; destruct (_ =? 0); by rewrite !vars_put16, !s_len_put16). clearbody w'.
  destruct (done_ip_send_nolen w') as (s' & E & Hv & Hl' & _). exists s'. specialize (Hk s' Hs E). split; [done|]. split; [done|]. split.
  - apply vars_shape. congruence.
  - rewrite Hl', Hs2, Hst, buf_size by done. unfold UIP_LLH_LEN. lia.
Qed.

(** ** After the application *)

Lemma segment_fits n : 0 <= n <= UIP_TCP_MSS → u16 (n + UIP_TCPIP_HLEN) = n + UIP_IPTCPH_LEN ∧ UIP_IPTCPH_LEN <= n + UIP_IPTCPH_LEN <= UIP_BUFSIZE - UIP_LLH_LEN.
Proof. pose proof bufsize_ok. unfold UIP_TCP_MSS, UIP_TCPIP_HLEN, UIP_IPTCPH_LEN, UIP_TCPH_LEN, UIP_IPH_LEN, UIP_LLH_LEN. intros. rewrite u16_id; lia. Qed.

Lemma total_apprexmit i : total (has i) (apprexmit i).
Proof.
  intros s Hs Hi. unfold apprexmit. cbv zeta. set (t := set_appdata _ s). assert (stack_ok t) as Ht by (unfold t; stk).
  destruct (has_conn i s Hi) as [c Hc]. change (s_conns t) with (s_conns s). rewrite Hc. cbn [mbind option_bind].
  destruct (segment_fits (c_len c) (cok_len _ (ok_conn _ _ _ Hs Hc))) as [E Hf]. rewrite E. destruct (_ && _); [|destruct (uflag _ _)].
  - eapply total_at; [apply (total_tcp_send_noopts i)| |split; [exact Hi|exact Hf]|done]. apply ok_put8, ok_set_len; [|done]. pose proof bufsize_ok.
    unfold word_ok, UIP_IPTCPH_LEN, UIP_TCPH_LEN, UIP_IPH_LEN, UIP_LLH_LEN in *. lia.
  - eapply total_at; [apply (total_tcp_send_noopts i)|stk|split; [exact Hi|apply header_fits]|done].
  - by eapply total_at; [apply (total_drop any)| | |].
Qed.

Lemma limit_slen_returns i (s : St) : stack_ok s → has i s → ∃ s', limit_slen i s = Some s' ∧ stack_ok s' ∧ shape s' = shape s.
Proof.
  intros Hs Hi. pose proof (keeps_limit_slen i s) as Hk. unfold limit_slen in *. destruct (0 <? s_slen s); [|by exists s].
  set (t := if uflag s UIP_ACKDATA then _ else _) in *. assert (shape t = shape s) as Ht by (unfold t; destruct (uflag _ _); [apply shape_mod|done]). clearbody t.
  destruct (has_conn i t) as [c Hc]; [by eapply has_shape|]. rewrite Hc in *. cbn [mbind option_bind] in *.
  destruct (c_len c =? 0); (eexists; split; [reflexivity|]; split; [by apply Hk|]); [rewrite shape_mod|exact Ht]. destruct (_ <? _); exact Ht.
Qed.

Lemma total_appsend i : total (has i) (appsend i).
Proof.
  intros s Hs Hi. unfold appsend. cbv zeta. destruct (uflag _ _); [|destruct (uflag _ _)].
  - eapply total_at; [apply (total_nodata i)|stk| |exact (shape_mod i _ (set_slen 0 s))]. eapply has_shape; [exact (shape_mod i _ (set_slen 0 s))|exact Hi].
  - eapply total_at; [apply (total_nodata i)|stk| |exact (shape_mod i _ (set_slen 0 s))]. eapply has_shape; [exact (shape_mod i _ (set_slen 0 s))|exact Hi].
  - destruct (limit_slen_returns i s Hs Hi) as (t & -> & Ht & Et). cbn [mbind option_bind].
    assert (shape (mod_conn i (with_nrtx 0) t) = shape s) as E by (rewrite shape_mod; exact Et).
    eapply total_at; [apply (total_apprexmit i)|stk| |exact E]. by eapply has_shape.
Qed.

(** ** The options *)

Lemma options_length (s : St) : buf_ok s → length (options s) = Z.to_nat (options_len s) ∧ options_len s <= 40.
Proof.
  intros Hb. pose proof (get8_ok s f_tcpoffset Hb) as H. unfold byte_ok in H. destruct Hb as [Hb _]. pose proof bufsize_ok. unfold options, options_len in *.
  rewrite Z.shiftl_mul_pow2, Z.shiftr_div_pow2 by lia. assert (get8 s f_tcpoffset / 2 ^ 4 <= 15) by (Z.div_mod_to_equations; lia).
  rewrite length_take, length_drop. unfold msize in Hb. split; lia.
Qed.

(** The loop at a place of well-formed options: every option ends in them, and the counter does not come back. *)
Lemma mss_option_returns (s : St) fuel c rest : buf_ok s → options_wf rest → drop (Z.to_nat c) (options s) = rest → 0 <= c → (length rest < fuel)%nat →
  is_Some (mss_option fuel s c).
Proof.
  intros Hb. destruct (options_length s Hb) as [Hlen Hmax]. revert c rest. induction fuel as [|fuel IH]; [lia|]. intros c rest Hw Hd Hc Hf. cbn [mss_option]. cbv zeta. fold (options_len s).
  destruct (Z.ltb_spec c (options_len s)) as [Hlt|]; [|by eexists].
  assert (∀ o, 0 <= o < 4 → ∃ v, ld (s_buf s) (UIP_TCPIP_HLEN + UIP_LLH_LEN + o + c) = Some v ∧ (c + o < options_len s → rest !! Z.to_nat o = Some v)) as Hat.
  { intros o Ho. change (UIP_TCPIP_HLEN + UIP_LLH_LEN) with 54. destruct (ld_in_range (s_buf s) (54 + o + c)) as [v Hv]; [destruct Hb as [-> _]; pose proof bufsize_ok; lia|].
    exists v. split; [done|]. intros Ho2. apply ld_Some_iff in Hv as [_ Hv]. rewrite <- Hd, lookup_drop. unfold options. rewrite lookup_take_lt, lookup_drop by lia. rewrite <- Hv. f_equal. lia. }
  destruct (Hat 0) as (k & -> & Hk); [lia|]. destruct (Hat 1) as (l & El & Hl); [lia|]. destruct (Hat 2) as (hi & Ehi & _); [lia|]. destruct (Hat 3) as (lo & Elo & _); [lia|].
  specialize (Hk ltac:(lia)). change (Z.to_nat 0) with 0%nat in Hk. change (Z.to_nat 1) with 1%nat in Hl. cbn [mbind option_bind].
  assert (length rest = Z.to_nat (options_len s - c)) as Hr by (rewrite <- Hd, length_drop, Hlen; lia).
  inversion Hw as [E0|l0 E0|l0 Hw0 E0|kind body l0 N1 N2 Hw0 E0]; rewrite <- E0 in *; clear E0 rest; cbn in Hk; [discriminate Hk| | |]; injection Hk as <-; [by eexists| |].
  - change (TCP_OPT_NOOP =? TCP_OPT_END) with false. change (TCP_OPT_NOOP =? TCP_OPT_NOOP) with true. cbv iota. cbn [length] in *. rewrite u8_id by lia.
    apply (IH (c + 1) l0); [done| |lia|lia]. replace (Z.to_nat (c + 1)) with (Z.to_nat c + 1)%nat by lia. by rewrite <- drop_drop, Hd.
  - rewrite (proj2 (Z.eqb_neq _ _) N1), (proj2 (Z.eqb_neq _ _) N2). rewrite El. cbn [mbind option_bind length] in *. rewrite length_app in *.
    rewrite Ehi. cbn [mbind option_bind]. rewrite Elo. cbn [mbind option_bind]. destruct (_ && _); [by eexists|]. destruct (l =? 0); [by eexists|].
    assert (l = 2 + msize body) as -> by (specialize (Hl ltac:(lia)); by injection Hl). unfold msize. rewrite u8_id by lia.
    apply (IH _ l0); [done| |lia|lia]. replace (Z.to_nat (c + (2 + Z.of_nat (length body)))) with (Z.to_nat c + (2 + length body))%nat by lia.
    rewrite <- drop_drop, Hd. cbn [drop plus]. by rewrite drop_app_length.
Qed.

(** What has not changed of a packet and its connection. *)
Definition same_packet (s s' : St) : Prop :=
  s_buf s' = s_buf s ∧ s_conn s' = s_conn s ∧ s_sappdata s' = s_sappdata s ∧ s_appdata s' = s_appdata s ∧ s_len s' = s_len s ∧ shape s' = shape s.

Lemma same_refl s : same_packet s s.
Proof. done. Qed.

Lemma same_mod i f (s : St) : same_packet s (mod_conn i f s).
Proof. unfold same_packet. by rewrite shape_mod. Qed.

Lemma same_trans (s t u : St) : same_packet s t → same_packet t u → same_packet s u.
Proof. unfold same_packet. intuition congruence. Qed.

Lemma parse_mss_returns fuel i (s : St) : stack_ok s → (40 < fuel)%nat → options_wf (options s) → ∃ s', parse_mss fuel i s = Some s' ∧ stack_ok s' ∧ same_packet s s'.
Proof.
  intros Hs Hf Hw. pose proof (keeps_parse_mss fuel i s) as Hk. unfold parse_mss in *. destruct (80 <? Z.land (get8 s f_tcpoffset) 240) eqn:E8; [|by exists s].
  destruct (options_length s (sok_buf _ Hs)) as [Hl Hm].
  destruct (mss_option_returns s fuel 0 (options s)) as [m Em]; [apply Hs|done|by rewrite drop_0|lia|lia|]. rewrite Em in *. cbn [mbind option_bind] in *.
  destruct m as [v|]; (eexists; split; [reflexivity|]; split; [by apply Hk|]); [apply same_mod|done].
Qed.
End total.

Section process_total.
Context {conf : UipConf} {sizes : UipSizes conf} {A : Type}.
Abbreviation St := (stack A).
Context (UIP_APPCALL UIP_UDP_APPCALL : St → option St) `{!AppOk UIP_APPCALL, !AppOk UIP_UDP_APPCALL, !TcpTotal UIP_APPCALL, !UdpTotal UIP_UDP_APPCALL} (fuel : nat).

(** ** Calls of the application *)

Lemma call_returns (s : St) : stack_ok s → tcp_called s → ∃ s', UIP_APPCALL s = Some s' ∧ stack_ok s' ∧ shape s' = shape s.
Proof.
  intros Hs Hc. destruct (tcp_total s Hs Hc) as (s' & E & Hu). exists s'. split; [done|]. split; [by eapply (app_keeps UIP_APPCALL)|].
  unfold shape. rewrite Hu. f_equal. symmetry. exact (Forall2_length _ _ _ (af_conns _ _ (app_frames s s' E Hs))).
Qed.

(** A call for the connection [i], and the label after it. *)
Lemma total_called i (g : St → option St) (s t : St) : total (has i) g → stack_ok t → tcp_called t → has i t → shape t = shape s →
  ∃ s', (s1 ← UIP_APPCALL t; g s1) = Some s' ∧ stack_ok s' ∧ good s s'.
Proof.
  intros Hg Ht Hc Hi E. destruct (call_returns t Ht Hc) as (u & -> & Hu & Eu). cbn [mbind option_bind].
  eapply total_at; [exact Hg|done|by eapply has_shape|congruence].
Qed.

(** The connection [i] with a packet in the buffer, before its labels. *)
Record in_conn (i : nat) (s : St) : Prop := {
  ic_conn : s_conn s = Some i; ic_has : has i s; ic_sapp : s_sappdata s = 54; ic_app : s_appdata s = 54; ic_len : 54 + s_len s <= msize (s_buf s) }.

Lemma in_conn_called i (s : St) : in_conn i s → tcp_called s.
Proof. intros [H1 H2 H3 H4 H5]. constructor; [done|lia|intros _; by rewrite H4|by exists i]. Qed.

Lemma in_conn_same i (s t : St) : same_packet s t → in_conn i s → in_conn i t.
Proof.
  intros (E1 & E2 & E3 & E4 & E5 & E6) [H1 H2 H3 H4 H5]. constructor; [congruence|by eapply has_shape|congruence..|by rewrite E1, E5].
Qed.

(** Without new data the length does not matter. *)
Lemma quiet_called i (s : St) : s_conn s = Some i → has i s → s_sappdata s = 54 → s_appdata s = 54 → uflag s UIP_NEWDATA = false → tcp_called s.
Proof. intros H1 H2 H3 H4 H5. constructor; [done|lia|unfold data_inside; by rewrite H5|by exists i]. Qed.

(** ** Segments *)

Lemma total_found_listen : total (λ s : St, (40 < fuel)%nat ∧ options_wf (options s)) (found_listen fuel).
Proof.
  intros s Hs [Hf Hw]. unfold found_listen. destruct (unused_conn (s_conns s) 0 None) as [i|] eqn:Ei; [|by apply (total_drop any)]. cbv zeta.
  set (t := mod_conn i _ _). assert (stack_ok t) as Ht by (apply ok_new_conn, ok_set_conn, Hs). assert (shape t = shape s) as Et by exact (shape_mod i _ (set_conn (Some i) s)).
  assert (has i s) as Hi.
  { assert (∀ cs k found, unused_conn cs k found = Some i → (∀ j v, found = Some (j, v) → (j < k)%nat) → (i < k + length cs)%nat) as Hu.
    { clear. induction cs as [|c cs IH]; intros k found H Hfd; cbn [unused_conn length] in *.
      - destruct found as [[j v]|]; [|done]. injection H as <-. specialize (Hfd j v eq_refl). lia.
      - destruct (_ =? UIP_CLOSED); [injection H as <-; lia|]. destruct (_ && _); apply IH in H; try lia.
        + intros j v [= <- _]. lia.
        + intros j v E. specialize (Hfd j v E). lia. }
    specialize (Hu (s_conns s) 0%nat None Ei ltac:(done)). exact Hu. }
  destruct (parse_mss_returns fuel i t Ht Hf) as (u & -> & Hu & Es); [exact Hw|]. cbn [mbind option_bind]. destruct Es as (_ & _ & _ & _ & _ & Eu).
  eapply total_at; [apply (total_synack i)|done|eapply has_shape; [|exact Hi]; congruence|congruence].
Qed.

Lemma total_on_syn_rcvd i : total (in_conn i) (on_syn_rcvd UIP_APPCALL i).
Proof.
  intros s Hs Hin. unfold on_syn_rcvd. cbv zeta. destruct (uflag _ _); [|by apply (total_drop any)].
  set (t := if 0 <? _ then _ else _). assert (shape t = shape s) as Et.
  { unfold t. destruct (0 <? _); unfold uip_add_rcv_nxt, set_state; rewrite ?shape_mod; change (shape (add_flags ?f ?x)) with (shape x); rewrite ?shape_mod; change (shape (set_flags ?f ?x)) with (shape x); by rewrite ?shape_mod. }
  assert (in_conn i t) as Ht by (destruct Hin; constructor; try (unfold t; by destruct (0 <? _)); by eapply has_shape).
  assert (stack_ok t) as Hok by (unfold t; stk). eapply (total_called i); [apply total_appsend|stk| |apply Ht|exact Et]. apply (in_conn_called i). by destruct Ht; constructor.
Qed.

Lemma total_on_syn_sent i : total (λ s : St, in_conn i s ∧ (40 < fuel)%nat ∧ (bits (get8 s f_flags) TCP_SYN = true → options_wf (options s))) (on_syn_sent UIP_APPCALL fuel i).
Proof.
  intros s Hs (Hin & Hf & Hw). unfold on_syn_sent. cbv zeta. destruct (uflag s UIP_ACKDATA && _) eqn:E.
  - apply andb_true_iff in E as [_ E%Z.eqb_eq]. destruct (parse_mss_returns fuel i s Hs Hf) as (t & -> & Ht & Es).
    { apply Hw. unfold bits. change TCP_SYN with (Z.land TCP_CTL TCP_SYN). by rewrite Z.land_assoc, E. }
    cbn [mbind option_bind]. apply (in_conn_same i _ _ Es) in Hin. destruct Es as (_ & _ & _ & _ & _ & Es).
    set (u := mod_conn i (with_len 0) _). assert (shape u = shape t) as Eu by (unfold u, uip_add_rcv_nxt, set_state; rewrite shape_mod; change (shape (set_flags ?f ?x)) with (shape x); by rewrite !shape_mod).
    assert (stack_ok u) as Hu by (unfold u; stk; apply get32_ok, Ht). pose proof (ic_has _ _ Hin) as Hh.
    eapply (total_called i); [apply total_appsend|stk| |by eapply (has_shape i t)|change (shape u = shape s); congruence].
    destruct Hin as [H1 H2 H3 H4 H5]. apply (in_conn_called i). constructor; [done|by eapply (has_shape i t)|done..|]. change (54 + 0 <= msize (s_buf t)). rewrite buf_size by done. pose proof bufsize_ok. lia.
  - destruct Hin as [H1 H2 H3 H4 H5]. destruct (call_returns (set_flags UIP_ABORT s)) as (t & -> & Ht & Et); [stk|by apply (quiet_called i)|]. cbn [mbind option_bind].
    eapply total_at; [apply (total_reset any)|stk|done|unfold set_state; by rewrite shape_mod].
Qed.

Lemma check_ack_returns i (s : St) : stack_ok s → has i s → ∃ s', check_ack i s = Some s' ∧ stack_ok s' ∧ same_packet s s'.
Proof.
  intros Hs Hi. pose proof (keeps_check_ack i s) as Hk. unfold check_ack in *. destruct (has_conn i s Hi) as [c Hc]. rewrite Hc in *. cbn [mbind option_bind] in *. cbv zeta in *.
  destruct (_ && _); [|by exists s]. destruct (bool_decide _); [|by exists s]. eexists. split; [reflexivity|]. split; [by apply Hk|].
  exact (same_mod i _ s).
Qed.

Lemma set_mss_returns i (s : St) : stack_ok s → has i s → ∃ s', set_mss i s = Some s' ∧ stack_ok s' ∧ same_packet s s'.
Proof.
  intros Hs Hi. pose proof (keeps_set_mss i s) as Hk. unfold set_mss in *. destruct (has_conn i s Hi) as [c Hc]. rewrite Hc in *. cbn [mbind option_bind] in *. cbv zeta in *.
  eexists. split; [reflexivity|]. split; [by apply Hk|]. apply same_mod.
Qed.

Lemma total_on_established i :
  total (λ s : St, in_conn i s ∧ (bits (get8 s f_flags) TCP_URG = true → urgent s <= s_len s)) (on_established UIP_APPCALL i).
Proof.
  intros s Hs [Hin Hurg]. unfold on_established. cbv zeta. destruct (has_conn i s (ic_has _ _ Hin)) as [c Hc]. rewrite Hc. cbn [mbind option_bind].
  pose proof Hin as [H1 H2 H3 H4 H5]. destruct (_ && negb _).
  - destruct (negb _); [by apply (total_drop any)|]. set (t := if 0 <? _ then _ else _).
    assert (stack_ok t) as Ht by (unfold t; stk). assert (shape t = shape s) as Et by (unfold t; destruct (0 <? _); exact (shape_mod i _ s)).
    eapply (total_called i (λ s1, tcp_send_finack i (mod_conn i _ s1))); [|done| |by eapply has_shape|done].
    + intros u Hu Hiu. eapply total_at; [apply (total_finack i)|stk|eapply has_shape; [|exact Hiu]; apply shape_mod|apply shape_mod].
    + apply (in_conn_called i). constructor; [unfold t; by destruct (0 <? _)|by eapply has_shape|unfold t; by destruct (0 <? _)..].
  - fold (urgent s). set (t := if bits _ _ then _ else s). assert (stack_ok t) as Ht by (unfold t; stk).
    assert (s_conn t = Some i ∧ shape t = shape s ∧ s_sappdata t = 54 ∧ 54 <= s_appdata t ∧ s_appdata t + s_len t <= msize (s_buf t)) as (T1 & T2 & T3 & T4 & T5).
    { unfold t. destruct (bits _ _); [|split_and!; try done; lia]. specialize (Hurg eq_refl).
      assert (0 <= urgent s) as Hu0.
      { pose proof (get8_ok s f_urgp (sok_buf _ Hs)) as B1. pose proof (get8_ok s (f_urgp + 1) (sok_buf _ Hs)) as B2. unfold byte_ok in *. apply Z.lor_nonneg. split; [apply Z.shiftl_nonneg|]; lia. }
      split_and!; try done; change (s_appdata (set_len ?v ?x)) with (s_appdata x); cbn [s_appdata set_appdata]; [lia|].
      change (s_len (set_len ?v ?x)) with v. change (s_buf (set_len ?v ?x)) with (s_buf x). change (s_buf (set_appdata ?v ?x)) with (s_buf x).
      pose proof (sok_len _ Hs) as Hl. unfold word_ok in Hl. rewrite u16_id by lia. lia. }
    clearbody t. set (u := if _ && _ then _ else t). assert (stack_ok u) as Hu by (unfold u; stk).
    assert (shape u = shape s ∧ s_conn u = Some i ∧ s_sappdata u = 54 ∧ 54 <= s_appdata u ∧ s_appdata u + s_len u <= msize (s_buf u)) as (U1 & U2 & U3 & U4 & U5).
    { unfold u. destruct (_ && _); [|done]. split_and!; [|done..]. rewrite <- T2. exact (shape_mod i _ t). }
    clearbody u. destruct (set_mss_returns i u) as (v & -> & Hv & (E1 & E2 & E3 & E4 & E5 & E6)); [done|by eapply has_shape|]. cbn [mbind option_bind].
    assert (shape v = shape s) as Ev by congruence. destruct (_ || _); [|by eapply total_at; [apply (total_drop any)| | |]].
    eapply (total_called i); [apply total_appsend|stk; pose proof bufsize_ok; lia| |by eapply has_shape|exact Ev].
    constructor; [by rewrite <- U3|change (54 <= s_appdata v); lia| |exists i; split; [by rewrite <- U2|by eapply has_shape]].
    intros _. change (s_appdata v + s_len v <= msize (s_buf v)). by rewrite E1, E4, E5.
Qed.

Lemma total_on_last_ack i : total (in_conn i) (on_last_ack UIP_APPCALL i).
Proof.
  intros s Hs Hin. unfold on_last_ack. destruct (uflag _ _); [|by apply (total_drop any)]. destruct Hin as [H1 H2 H3 H4 H5].
  assert (has i (set_flags UIP_CLOSE (set_state i UIP_CLOSED s))) as Hh by (eapply (has_shape i s); [exact (shape_mod i _ s)|done]).
  eapply (total_called i); [apply total_drop|stk|by apply (quiet_called i)|exact Hh|exact (shape_mod i _ s)].
Qed.

Lemma total_peer_closes i : total (λ s : St, s_conn s = Some i ∧ has i s ∧ s_sappdata s = 54 ∧ s_appdata s = 54) (peer_closes UIP_APPCALL i).
Proof.
  intros s Hs (H1 & H2 & H3 & H4). unfold peer_closes. assert (has i (set_flags UIP_CLOSE (uip_add_rcv_nxt i 1 s))) as Hh by (eapply (has_shape i s); [exact (shape_mod i _ s)|done]).
  eapply (total_called i); [apply total_ack|stk|by apply (quiet_called i)|exact Hh|exact (shape_mod i _ s)].
Qed.

(** A change of the connection's entry before a label. *)
Lemma peer_closes_at i (s t : St) : stack_ok t → in_conn i s → same_packet s t → ∃ s', peer_closes UIP_APPCALL i t = Some s' ∧ stack_ok s' ∧ good s s'.
Proof.
  intros Ht Hin Hst. apply (in_conn_same i _ _ Hst) in Hin as [H1 H2 H3 H4 _]. destruct Hst as (_ & _ & _ & _ & _ & E).
  by eapply total_at; [apply (total_peer_closes i)| | |].
Qed.

Lemma total_on_fin_wait_1 i : total (in_conn i) (on_fin_wait_1 UIP_APPCALL i).
Proof.
  intros s Hs Hin. unfold on_fin_wait_1. cbv zeta. set (t := if 0 <? s_len s then _ else s). assert (stack_ok t) as Ht by (unfold t; stk).
  assert (same_packet s t) as Hst by (unfold t; destruct (0 <? s_len s); [apply same_mod|done]). pose proof (in_conn_same i _ _ Hst Hin) as Hint. clearbody t.
  assert (shape t = shape s) as Et by apply Hst. destruct (bits _ _); [|destruct (uflag _ _); [|destruct (0 <? _)]].
  - apply peer_closes_at; [destruct (uflag _ _); stk|done|]. eapply same_trans; [exact Hst|]. destruct (uflag _ _); [apply same_mod|apply same_mod].
  - eapply total_at; [apply (total_drop any)|stk|done|by rewrite shape_mod].
  - by eapply total_at; [apply (total_ack i)| |apply Hint|].
  - by eapply total_at; [apply (total_drop any)| | |].
Qed.

Lemma total_on_fin_wait_2 i : total (in_conn i) (on_fin_wait_2 UIP_APPCALL i).
Proof.
  intros s Hs Hin. unfold on_fin_wait_2. cbv zeta. set (t := if 0 <? s_len s then _ else s). assert (stack_ok t) as Ht by (unfold t; stk).
  assert (same_packet s t) as Hst by (unfold t; destruct (0 <? s_len s); [apply same_mod|done]). pose proof (in_conn_same i _ _ Hst Hin) as Hint. clearbody t.
  assert (shape t = shape s) as Et by apply Hst. destruct (bits _ _); [|destruct (0 <? _)].
  - apply peer_closes_at; [stk|done|]. eapply same_trans; [exact Hst|apply same_mod].
  - by eapply total_at; [apply (total_ack i)| |apply Hint|].
  - by eapply total_at; [apply (total_drop any)| | |].
Qed.

Lemma total_on_closing i : total (any (A:=A)) (on_closing i).
Proof.
  intros s Hs _. unfold on_closing. destruct (uflag _ _); [|by apply (total_drop any)]. eapply total_at; [apply (total_drop any)|stk|done|apply shape_mod].
Qed.

(** A segment as the labels of the states want it. *)
Definition segment_in (i : nat) (s : St) : Prop :=
  in_conn i s ∧ (bits (get8 s f_flags) TCP_URG = true → urgent s <= s_len s) ∧ (40 < fuel)%nat ∧ (bits (get8 s f_flags) TCP_SYN = true → options_wf (options s)).

Lemma total_by_state i : total (segment_in i) (by_state UIP_APPCALL fuel i).
Proof.
  intros s Hs (Hin & Hu & Hf & Ho). unfold by_state. destruct (has_conn i s (ic_has _ _ Hin)) as [c Hc]. rewrite Hc. cbn [mbind option_bind]. cbv zeta.
  destruct (_ =? UIP_SYN_RCVD); [by apply total_on_syn_rcvd|]. destruct (_ =? UIP_SYN_SENT); [by apply total_on_syn_sent|]. destruct (_ =? UIP_ESTABLISHED); [by apply total_on_established|].
  destruct (_ =? UIP_LAST_ACK); [by apply total_on_last_ack|]. destruct (_ =? UIP_FIN_WAIT_1); [by apply total_on_fin_wait_1|]. destruct (_ =? UIP_FIN_WAIT_2); [by apply total_on_fin_wait_2|].
  destruct (_ =? UIP_TIME_WAIT); [by apply total_ack, (ic_has _ _ Hin)|]. destruct (_ =? UIP_CLOSING); [by apply total_on_closing|by apply (total_drop any)].
Qed.

Lemma total_found i : total (λ s : St, s_sappdata s = 54 ∧ s_appdata s = 54 ∧ has i s ∧ s_len s = len_field s ∧ len_field s <= UIP_BUFSIZE - UIP_LLH_LEN ∧ segment_wf s ∧ (40 < fuel)%nat)
  (found UIP_APPCALL fuel i).
Proof.
  intros s Hs (H1 & H2 & Hi & Hl & Hb & [W1 W2 W3 W4] & Hf). unfold found. cbv zeta. set (s1 := set_flags 0 _). change (get8 s1) with (get8 s).
  assert (stack_ok s1) as Hs1 by (unfold s1; stk). unfold UIP_TCPH_LEN, UIP_IPH_LEN, UIP_LLH_LEN in *. destruct (bits (get8 s f_flags) TCP_RST).
  - eapply (total_called i); [apply total_drop|stk| |exact (has_shape i s _ (shape_mod i _ s) Hi)|exact (shape_mod i _ s1)].
    apply (quiet_called i); [done|exact (has_shape i s _ (shape_mod i _ s) Hi)|done..].
  - fold (header_len s). change (s_len s1) with (s_len s). rewrite Hl. set (n := len_field s - header_len s - 20).
    assert (u16 n = n) as En by (apply u16_id; unfold n; pose proof bufsize_ok; lia). unfold UIP_IPH_LEN. fold n. rewrite En. set (s2 := set_len n s1).
    assert (stack_ok s2) as Hs2 by (unfold s2; apply ok_set_len; [rewrite <- En; apply u16_word|done]). change (s_conns s2) with (s_conns s).
    destruct (has_conn i s Hi) as [c Hc]. rewrite Hc. cbn [mbind option_bind]. destruct (out_of_order _ _); [by eapply total_at; [apply (total_ack i)| | |]|].
    destruct (check_ack_returns i s2 Hs2 Hi) as (s3 & -> & Hs3 & Est). cbn [mbind option_bind]. eapply total_at; [apply (total_by_state i)|done| |apply Est].
    assert (in_conn i s2) as Hin.
    { constructor; [done|exact Hi|exact H1|exact H2|]. change (54 + n <= msize (s_buf s)). rewrite buf_size by done. unfold n. lia. }
    pose proof (in_conn_same i _ _ Est Hin) as Hin3. destruct Est as (E1 & _ & _ & _ & E5 & _).
    assert (∀ o, get8 s3 o = get8 s o) as Hg by (intros o; unfold get8; by rewrite E1). unfold segment_in, urgent, options, options_len. rewrite !Hg, E1, E5.
    split_and!; [done|intros Hb1; unfold urgent in W3; specialize (W3 Hb1); change (s_len s2) with n; unfold n; lia|done|exact W4].
Qed.

Lemma find_conn_lt (s : St) i : find_conn s (s_conns s) 0 = Some i → has i s.
Proof.
  assert (∀ cs k, find_conn s cs k = Some i → (i < k + length cs)%nat) as H; [|intros E; by apply (H _ 0%nat)].
  induction cs as [|c cs IH]; intros k E; cbn [find_conn length] in *; [done|]. destruct (_ && _); [injection E as <-; lia|apply IH in E; lia].
Qed.

Lemma find_udp_lt (s : St) i : find_udp s (s_udp_conns s) 0 = Some i → (i < length (s_udp_conns s))%nat.
Proof.
  assert (∀ us k, find_udp s us k = Some i → (i < k + length us)%nat) as H; [|intros E; by apply (H _ 0%nat)].
  induction us as [|u us IH]; intros k E; cbn [find_udp length] in *; [done|]. destruct (_ && _); [injection E as <-; lia|apply IH in E; lia].
Qed.

(** The checksum of a datagram in the buffer has a value. *)
Lemma checksum_returns proto (s : St) : stack_ok s → UIP_IPH_LEN <= len_field s <= UIP_BUFSIZE - UIP_LLH_LEN → is_Some (upper_layer_chksum proto s).
Proof.
  intros Hs Hl. unfold UIP_IPH_LEN, UIP_LLH_LEN in *. pose proof bufsize_ok. rewrite upper_layer_total; [by eexists|]. rewrite buf_size by done.
  unfold UIP_IPH_LEN. rewrite u16_id by lia. lia.
Qed.

(** A datagram before its protocol is looked at. *)
Definition datagram_in (s : St) : Prop :=
  s_sappdata s = 54 ∧ s_appdata s = 54 ∧ s_len s = len_field s ∧ (40 < fuel)%nat ∧ UIP_IPH_LEN <= len_field s <= UIP_BUFSIZE - UIP_LLH_LEN.

Lemma total_tcp_input : total (λ s : St, datagram_in s ∧ segment_wf s) (tcp_input UIP_APPCALL fuel).
Proof.
  intros s Hs ((H1 & H2 & H3 & Hf & Hl) & Hw). unfold tcp_input. destruct (checksum_returns UIP_PROTO_TCP s Hs Hl) as [x Ex]. unfold uip_tcpchksum. rewrite Ex. cbn [mbind option_bind].
  destruct (negb _); [by apply (total_drop any)|]. destruct (find_conn s (s_conns s) 0) as [i|] eqn:Ei.
  - apply total_found; [done|]. apply find_conn_lt in Ei. split_and!; (done || lia).
  - destruct (Z.eqb_spec (Z.land (get8 s f_flags) TCP_CTL) TCP_SYN) as [E|]; [|by apply (total_reset any)]. cbn [negb]. destruct (bool_decide _); [|by apply (total_reset any)].
    apply total_found_listen; [done|]. split; [done|]. apply (swf_options _ Hw). unfold bits. change TCP_SYN with (Z.land TCP_CTL TCP_SYN) at 1. by rewrite Z.land_assoc, E.
Qed.

Lemma total_udp_called (s t : St) : stack_ok t → udp_called t → shape t = shape s → ∃ s', (s1 ← UIP_UDP_APPCALL t; udp_send s1) = Some s' ∧ stack_ok s' ∧ good s s'.
Proof.
  intros Ht Hc E. destruct (udp_total t Ht Hc) as (u & Eu & U1 & U2 & U3). rewrite Eu. cbn [mbind option_bind]. pose proof (app_keeps UIP_UDP_APPCALL t u Eu Ht) as Hu.
  destruct Hc as [_ _ _ _ [_ Hi]]. eapply total_at; [apply total_udp_send|done|split; [by rewrite U1, U2|done]|]. rewrite <- E. unfold shape. rewrite U1. f_equal.
  symmetry. exact (Forall2_length _ _ _ (af_conns _ _ (app_frames t u Eu Ht))).
Qed.

Lemma total_udp_input : total (λ s : St, datagram_in s ∧ UIP_IPUDPH_LEN <= len_field s) (udp_input UIP_UDP_APPCALL).
Proof.
  intros s Hs ((H1 & H2 & H3 & Hf & Hl) & Hu). unfold udp_input. cbv zeta. set (t := set_appdata _ (set_len _ s)). assert (stack_ok t) as Ht by (unfold t; stk).
  assert (∃ ok, (if get16 t f_udpchksum =? 0 then Some true else x ← uip_udpchksum t; Some (x =? 65535)) = Some ok) as [ok ->].
  { destruct (_ =? 0); [by eexists|]. destruct (checksum_returns UIP_PROTO_UDP t Ht Hl) as [x Ex]. unfold uip_udpchksum. rewrite Ex. by eexists. }
  cbn [mbind option_bind]. destruct (negb ok); [by eapply total_at; [apply (total_drop any)| | |]|].
  destruct (find_udp t (s_udp_conns t) 0) as [i|] eqn:Ei; [|by eapply total_at; [apply (total_drop any)| | |]]. apply find_udp_lt in Ei.
  apply total_udp_called; [stk; pose proof bufsize_ok; lia| |done]. constructor; [done|done| |done|by split].
  intros _. set (n := s_len _). assert (n = len_field s - 28) as ->; [|change (42 + (len_field s - 28) <= msize (s_buf s)); rewrite buf_size by done; unfold UIP_LLH_LEN in *; lia].
  change n with (u16 (s_len s - UIP_IPUDPH_LEN)). rewrite H3. unfold UIP_IPUDPH_LEN, UIP_UDPH_LEN, UIP_IPH_LEN, UIP_LLH_LEN in *. pose proof bufsize_ok. apply u16_id. lia.
Qed.

Lemma total_icmp_input : total datagram_in icmp_input.
Proof.
  intros s Hs (H1 & H2 & H3 & Hf & Hl). pose proof (keeps_icmp_input s) as Hk. unfold icmp_input in *. cbv zeta in *. destruct (negb _); [by apply (total_drop any)|]. destruct (negb _); [by apply (total_drop any)|].
  specialize (Hk _ Hs eq_refl). eexists. split; [reflexivity|]. split; [exact Hk|]. apply buf_size in Hk. revert Hk. set (t := if _ <=? _ then _ else _). assert (vars t = vars s ∧ s_len t = s_len s) as [E1 E2].
  { unfold t. destruct (_ <=? _); by rewrite vars_put16, s_len_put16. }
  clearbody t. intros Hk. split.
  - apply vars_shape. change (vars (set_flags ?v ?x)) with (vars x). by rewrite !vars_put_ip.
  - rewrite Hk. change (s_len (set_flags ?v ?x)) with (s_len x). rewrite !s_len_put_ip, E2, H3. lia.
Qed.

Lemma total_ip_input : total (λ s : St, s_sappdata s = 54 ∧ s_appdata s = 54 ∧ (40 < fuel)%nat ∧ datagram_wf s) (ip_input UIP_APPCALL UIP_UDP_APPCALL fuel).
Proof.
  intros s Hs (H1 & H2 & Hf & Hl & Ht & Hu). unfold ip_input. cbv zeta. destruct (negb _); [by apply (total_drop any)|]. fold (len_field s). destruct (negb _); [by apply (total_drop any)|].
  set (t := set_len _ s). assert (stack_ok t) as Hok. { unfold t. apply ok_set_len; [|done]. unfold word_ok, UIP_IPH_LEN, UIP_LLH_LEN in *. pose proof bufsize_ok. lia. }
  assert (datagram_in t) as Hd by done. assert (segment_wf s → segment_wf t) as Hst by (intros []; by constructor).
  assert (∀ pre f, total pre f → pre t → ∃ s', f t = Some s' ∧ stack_ok s' ∧ good s s') as Hgo by (intros pre f Hpf Hp; by eapply total_at).
  change (get8 t) with (get8 s). destruct (_ || _); [by apply (Hgo _ _ (total_drop any))|].
  destruct (negb (uip_ipaddr_cmp (s_hostaddr t) all_zeroes_addr) && _ && uip_ipaddr_cmp _ all_ones_addr) eqn:E.
  - apply andb_true_iff in E as [[_ E%Z.eqb_eq]%andb_true_iff _]. apply (Hgo _ _ total_udp_input). split; [done|by apply Hu].
  - clear E. destruct (_ && negb _); [by apply (Hgo _ _ (total_drop any))|]. destruct (negb _); [by apply (Hgo _ _ (total_drop any))|].
    destruct (Z.eqb_spec (get8 s f_proto) UIP_PROTO_TCP) as [Ep|_]; [apply (Hgo _ _ total_tcp_input); split; [done|by apply Hst, Ht]|].
    destruct (Z.eqb_spec (get8 s f_proto) UIP_PROTO_UDP) as [Ep|_]; [apply (Hgo _ _ total_udp_input); split; [done|by apply Hu]|]. by apply (Hgo _ _ total_icmp_input).
Qed.

(** ** Timers *)

(** A connection whose timer runs, or that is polled: there is no data. *)
Definition polled (i : nat) (s : St) : Prop := s_conn s = Some i ∧ has i s ∧ s_sappdata s = 54 ∧ s_appdata s = 54 ∧ s_len s = 0.

Lemma polled_called i (s : St) : stack_ok s → polled i s → tcp_called s.
Proof.
  intros Hs (H1 & H2 & H3 & H4 & H5). constructor; [done|lia| |by exists i]. intros _. rewrite H4, H5, buf_size by done. pose proof bufsize_ok. lia.
Qed.

Lemma polled_mod i f (s : St) : polled i s → polled i (mod_conn i f s).
Proof. intros (H1 & H2 & H3 & H4 & H5). split_and!; try done. eapply has_shape; [apply shape_mod|done]. Qed.

Lemma total_retransmit i : total (polled i) (retransmit UIP_APPCALL i).
Proof.
  intros s Hs Hp. unfold retransmit. pose proof Hp as (_ & Hi & _). destruct (has_conn i s Hi) as [c Hc]. rewrite Hc. cbn [mbind option_bind]. cbv zeta.
  destruct (_ =? UIP_SYN_RCVD); [by apply total_synack|]. destruct (_ =? UIP_SYN_SENT); [by eapply total_at; [apply (total_syn i)|stk| |]|]. destruct (_ =? UIP_ESTABLISHED).
  - eapply (total_called i); [apply total_apprexmit|stk| |exact Hi|done]. apply (polled_called i); [stk|exact Hp].
  - destruct (_ || _); [by apply total_finack|by apply (total_drop any)].
Qed.

Lemma total_outstanding_timer i : total (polled i) (outstanding_timer UIP_APPCALL i).
Proof.
  intros s Hs Hp. unfold outstanding_timer. pose proof Hp as (_ & Hi & _). destruct (has_conn i s Hi) as [c Hc]. rewrite Hc. cbn [mbind option_bind]. cbv zeta.
  set (t := mod_conn i _ s). assert (stack_ok t) as Ht by (unfold t; stk). assert (polled i t) as Hpt by by apply polled_mod. assert (shape t = shape s) as Et by apply shape_mod. clearbody t.
  destruct (timer c =? 0); [|by eapply total_at; [apply (total_drop any)| | |]]. destruct (timed_out c).
  - assert (polled i (set_state i UIP_CLOSED t)) as Hpc by by apply polled_mod.
    eapply (total_called i (λ s1, tcp_send_nodata i (put8 f_flags _ s1))); [|stk|apply (polled_called i); [stk|exact Hpc]|apply Hpc|rewrite <- Et; exact (shape_mod i _ t)].
    intros u Hu Hiu. by eapply total_at; [apply (total_nodata i)|stk| |].
  - eapply total_at; [apply (total_retransmit i)|stk|by apply polled_mod|by rewrite shape_mod].
Qed.

Lemma total_uip_timer i : total (λ s : St, s_conn s = Some i ∧ has i s ∧ s_sappdata s = 54 ∧ s_appdata s = 54) (uip_timer UIP_APPCALL i).
Proof.
  intros s Hs (H1 & H2 & H3 & H4). unfold uip_timer. cbv zeta. set (t := set_slen 0 _). assert (stack_ok t) as Ht by (unfold t; stk; apply incr32_spec, (sok_iss _ Hs)).
  assert (polled i t) as Hp by done. assert (shape t = shape s) as Et by done. clearbody t. pose proof Hp as (_ & Hi & _). destruct (has_conn i t Hi) as [c Hc]. rewrite Hc. cbn [mbind option_bind].
  destruct (negb (s_forced_poll t) && _).
  - eapply total_at; [apply (total_drop any)|stk|done|]. rewrite <- Et. destruct (_ =? UIP_TIME_WAIT_TIMEOUT); unfold set_state; by rewrite !shape_mod.
  - destruct (negb _ && negb _); [|by eapply total_at; [apply (total_drop any)| | |]]. destruct (negb _ && negb _); [by eapply total_at; [apply (total_outstanding_timer i)| | |]|].
    destruct (_ =? UIP_ESTABLISHED); [|by eapply total_at; [apply (total_drop any)| | |]].
    eapply (total_called i); [apply total_appsend|stk|apply (polled_called i); [stk|exact Hp]|exact Hi|exact Et].
Qed.

(** ** The whole *)

Lemma process_returns flag (s : St) : stack_ok s → event_wf fuel flag s → ∃ s', uip_process UIP_APPCALL UIP_UDP_APPCALL fuel flag s = Some s' ∧ stack_ok s' ∧ good s s'.
Proof.
  intros Hs Hw. unfold event_wf, uip_process in *. cbv zeta. set (t := set_appdata _ _). assert (stack_ok t) as Ht by (unfold t; stk).
  assert (s_sappdata t = 54 ∧ s_appdata t = 54) as [P1 P2] by done. assert (shape t = shape s) as Et by done.
  destruct (flag =? UIP_UDP_SEND_CONN); [by apply total_udp_send|]. destruct (flag =? UIP_POLL_REQUEST); [|destruct (flag =? UIP_TIMER)]; cbn [orb] in Hw.
  - destruct Hw as (i & Hi & Hlt). change (s_conn t) with (s_conn s). rewrite Hi. cbn [mbind option_bind]. unfold uip_poll_request. destruct (has_conn i s Hlt) as [c Hc].
    change (s_conns t) with (s_conns s). rewrite Hc. cbn [mbind option_bind]. destruct (_ && _); [|by eapply total_at; [apply (total_drop any)| | |]].
    eapply (total_called i); [apply total_appsend|stk|apply (quiet_called i); done|exact Hlt|done].
  - destruct Hw as (i & Hi & Hlt). change (s_conn t) with (s_conn s). rewrite Hi. cbn [mbind option_bind]. by eapply total_at; [apply (total_uip_timer i)| | |].
  - destruct (flag =? UIP_UDP_TIMER).
    + unfold uip_udp_timer. change (s_udp_conns t) with (s_udp_conns s). change (s_udp_conn t) with (s_udp_conn s). destruct (lookup_lt_is_Some_2 (s_udp_conns s) (s_udp_conn s) Hw) as [u Eu].
      rewrite Eu. cbn [mbind option_bind]. cbv zeta. destruct (negb _); [|by eapply total_at; [apply (total_drop any)| | |]].
      apply total_udp_called; [stk|by constructor|done].
    + destruct Hw as (Hf & Hl & Htcp & Hudp). eapply total_at; [apply total_ip_input|done| |done]. split_and!; [done|done|done|]. split; [exact Hl|]. split; [|exact Hudp]. intros E. destruct (Htcp E). by constructor.
Qed.

(** C5: the stack keeps its invariant at every event from which it returns, whatever arrives: sequence numbers, ports and sizes stay in their
    ranges, and no connection has more in flight than fits a segment.  And it does return, with what it sends inside its buffer, at every
    tick and request for an entry of its tables and for every datagram that fits the buffer and whose lengths agree, with options as
    RFC 793 has them on a SYN, when the applications return. *)
Theorem uip_process_keeps flag (s : St) : stack_ok s →
  (∀ s', uip_process UIP_APPCALL UIP_UDP_APPCALL fuel flag s = Some s' → stack_ok s') ∧
  (event_wf fuel flag s → ∃ s', uip_process UIP_APPCALL UIP_UDP_APPCALL fuel flag s = Some s' ∧ stack_ok s' ∧ good s s').
Proof. intros Hs. split; [intros s'; by apply keeps_process|by apply process_returns]. Qed.

(** C6: what the stack leaves in the buffer to be sent is nothing, or a TCP segment or UDP datagram with the board's address whose protocol,
    lengths and checksums a receiver accepts, or, when a packet has come, the reply to the echo request in it: the same packet with the
    type changed and the addresses exchanged, whose sums are valid when the request's were, but for a message of zeros, to which the
    reply has a wrong sum.  And there is such a result at every event that is well-formed in the sense of [event_wf]. *)
Theorem uip_output_valid flag (s : St) : stack_ok s →
  (∀ s', uip_process UIP_APPCALL UIP_UDP_APPCALL fuel flag s = Some s' → s_len s' = 0 ∨ packet_valid s' ∨ is_input flag = true ∧ echo_reply s s') ∧
  (event_wf fuel flag s → is_Some (uip_process UIP_APPCALL UIP_UDP_APPCALL fuel flag s)).
Proof.
  intros Hs. split; [intros s'; by apply process_output|]. intros Hw. destruct (process_returns flag s Hs Hw) as (s' & -> & _). by eexists.
Qed.
End process_total.
