(* ===== verification/UipTcp.v ===== *)
(** * The stack implements the connection of the application

    Psock.v describes a connection by the events that call the application and by the data in flight and delivered.  Here the stack is
    related to that description: for a connection that is established, every segment that arrives and every tick of its timer is one
    event of Psock.v or none, and the packet that the stack leaves to be sent holds the data in flight with the right number. *)
From S2P Require Import Prelude Psock UipSum Uip UipInv UipOut UipEcho UipSend.

(** Changes of one entry of a list. *)
Lemma alter_same {B} (f g : B → B) i (l : list B) x : l !! i = Some x → f x = g x → alter f i l = alter g i l.
Proof.
  intros Hx E. apply list_eq. intros k. destruct (decide (k = i)) as [->|]; [rewrite !list_lookup_alter_eq, Hx; cbn; by rewrite E|by rewrite !list_lookup_alter_ne].
Qed.

Lemma alter_none {B} (f : B → B) i (l : list B) x : l !! i = Some x → f x = x → alter f i l = l.
Proof. intros Hx E. rewrite (alter_same f id i l x Hx E). apply list_eq. intros k. destruct (decide (k = i)) as [->|]; [rewrite list_lookup_alter_eq, Hx; done|by rewrite list_lookup_alter_ne]. Qed.

Lemma alter_twice {B} (f g : B → B) i (l : list B) : alter f i (alter g i l) = alter (f ∘ g) i l.
Proof. apply list_eq. intros k. destruct (decide (k = i)) as [->|]; [rewrite !list_lookup_alter_eq; by destruct (l !! i)|by rewrite !list_lookup_alter_ne]. Qed.

Section refine.
Context {conf : UipConf} {sizes : UipSizes conf} {W : Type} (app : W → uip → option (W * uip)) `{!UAppOk app}.
Abbreviation St := (stack W).

(** The data in flight has the length that the connection remembers. *)
Record established (cn : Uip.uip_conn) (c : conn) : Prop := {
  est_state : tcpstateflags cn = UIP_ESTABLISHED;
  est_len : c_len cn = match inflight c with Some d => msize d | None => 0 end;
  est_some : inflight c ≠ Some []; est_open : fin c = false;
  est_mss : 0 < Uip.mss cn; est_initialmss : 0 < initialmss cn }.

(** Nothing of the place in the two streams is changed. *)
Definition same_stream (cn cn' : Uip.uip_conn) : Prop :=
  Uip.snd_nxt cn' = Uip.snd_nxt cn ∧ Uip.rcv_nxt cn' = Uip.rcv_nxt cn ∧ Uip.ripaddr cn' = Uip.ripaddr cn ∧ Uip.lport cn' = Uip.lport cn ∧ Uip.rport cn' = Uip.rport cn ∧
  initialmss cn' = initialmss cn ∧ Uip.mss cn' = Uip.mss cn.

(** What is sent after a call that keeps the connection open: the data in flight, when the application asked for it to be sent; else the
    acknowledgment of new data. *)
Definition answer (cn : Uip.uip_conn) (c : conn) (slen : Z) (new : bool) (s : St) : Prop :=
  if 0 <? slen then ∃ d, inflight c = Some d ∧ segment_of s cn (Z.lor TCP_ACK TCP_PSH) d
  else if new then segment_of s cn TCP_ACK []
  else s_len s = 0.

Definition answered (i : nat) (cn : Uip.uip_conn) (c : conn) (slen : Z) (new : bool) (s : St) : Prop :=
  ∃ cn', s_conns s !! i = Some cn' ∧ same_stream cn cn' ∧
    if fin c then (tcpstateflags cn' = UIP_CLOSED ∧ segment_of s cn' (Z.lor TCP_RST TCP_ACK) []) ∨
                  (tcpstateflags cn' = UIP_FIN_WAIT_1 ∧ segment_of s cn' (Z.lor TCP_FIN TCP_ACK) [])
    else established cn' c ∧ answer cn' c slen new s.

Lemma mod_conn_lookup i f (s : St) cn : s_conns s !! i = Some cn → s_conns (mod_conn i f s) !! i = Some (f cn).
Proof. intros H. unfold mod_conn. cbn [s_conns set_conns]. by rewrite list_lookup_alter_eq, H. Qed.

Lemma body_room (s : St) : buf_ok s → UIP_TCP_MSS + 2 = msize (body s).
Proof. intros H. rewrite body_size by done. unfold UIP_TCP_MSS, UIP_LLH_LEN, UIP_TCPIP_HLEN, UIP_IPTCPH_LEN, UIP_TCPH_LEN, UIP_IPH_LEN. lia. Qed.

Lemma body_read (s : St) n : buf_ok s → 0 <= n <= UIP_TCP_MSS → mread (body s) 0 n = Some (take (Z.to_nat n) (body s)) ∧ msize (take (Z.to_nat n) (body s)) = n.
Proof.
  intros H Hn. pose proof (body_room s H) as Hs. unfold mread, msize in *. rewrite decide_True by lia. rewrite length_take. split; [|lia]. change (Z.to_nat 0) with 0%nat. by rewrite drop_0.
Qed.

Lemma apprexmit_answer i cn c (s : St) : stack_ok s → s_conns s !! i = Some cn → 0 <= c_len cn → 
  inflight c = (if 0 <? s_slen s then Some (take (Z.to_nat (c_len cn)) (body s)) else inflight c) → (0 < s_slen s → 0 < c_len cn) →
  ∃ s', apprexmit i s = Some s' ∧ answer cn c (s_slen s) (uflag s UIP_NEWDATA) s' ∧ vars s' = vars s.
Proof.
  intros Hs Hc Hlen Hin Hpos. unfold apprexmit. cbv zeta. set (t := set_appdata _ s). assert (stack_ok t) as Ht by (unfold t; stk).
  change (s_conns t) with (s_conns s). rewrite Hc. cbn [mbind option_bind]. change (s_slen t) with (s_slen s). change (uflag t UIP_NEWDATA) with (uflag s UIP_NEWDATA).
  pose proof (ok_conn _ _ _ Hs Hc) as Hok. pose proof (cok_len _ Hok) as Hl. pose proof mss_ok as Hm. pose proof bufsize_ok as Hbs. unfold answer.
  destruct (Z.ltb_spec 0 (s_slen s)) as [Hsl|Hsl]; cbn [andb].
  - rewrite (proj2 (Z.ltb_lt _ _) (Hpos Hsl)). set (w := set_len _ t).
    assert (s_len w = UIP_IPTCPH_LEN + c_len cn) as Hw.
    { unfold w. cbn [s_len set_len]. unfold UIP_TCP_MSS, UIP_LLH_LEN, UIP_TCPIP_HLEN, UIP_IPTCPH_LEN, UIP_TCPH_LEN, UIP_IPH_LEN in *. rewrite u16_id; lia. }
    destruct (tcp_send_noopts_total i cn (c_len cn) (put8 f_flags (Z.lor TCP_ACK TCP_PSH) w)) as (s' & E & Hseg & Hv); [unfold w; stk|done|done|lia|].
    exists s'. rewrite get8_put8 in Hseg by (first [apply Ht | unfold in_header, f_flags; lia]). rewrite body_put8 in Hseg by (unfold f_flags; lia). split_and!; [done|by eauto|done].
  - destruct (uflag s UIP_NEWDATA).
    + destruct (tcp_send_noopts_total i cn 0 (put8 f_flags TCP_ACK (set_len UIP_TCPIP_HLEN t))) as (s' & E & Hseg & Hv); [stk|done|done|lia|].
      exists s'. rewrite get8_put8 in Hseg by (first [apply Ht | unfold in_header, f_flags; lia]). done.
    + eexists. done.
Qed.

Lemma limit_slen_refines i cn c (s : St) : stack_ok s → s_conns s !! i = Some cn → established cn c → uflag s UIP_ABORT = false → uflag s UIP_CLOSE = false →
  ∃ s' cn' c', limit_slen i s = Some s' ∧ tcp_appsend (app_view s cn) c = Some c' ∧ established cn' c' ∧ cn' = with_len (c_len cn') cn ∧
    s_conns s' = alter (with_len (c_len cn')) i (s_conns s) ∧ body s' = body s ∧ s_app s' = s_app s ∧ s_flags s' = s_flags s ∧ (0 <? s_slen s') = (0 <? s_slen s) ∧
    inflight c' = (if 0 <? s_slen s' then Some (take (Z.to_nat (c_len cn')) (body s)) else inflight c') ∧ (0 < s_slen s' → 0 < c_len cn').
Proof.
  intros Hs Hc [E1 E2 E3 E4 E5 E6] Ha Hcl. pose proof (ok_conn _ _ _ Hs Hc) as Hok. pose proof (cok_len _ Hok) as Hl. pose proof (cok_mss _ Hok) as Hm. pose proof (sok_buf _ Hs) as Hb.
  unfold tcp_appsend. change (uip_flag (app_view s cn) UIP_ABORT) with (uflag s UIP_ABORT). change (uip_flag (app_view s cn) UIP_CLOSE) with (uflag s UIP_CLOSE).
  rewrite Ha, Hcl. change (uip_slen (app_view s cn)) with (s_slen s). change (uip_flag (app_view s cn) UIP_ACKDATA) with (uflag s UIP_ACKDATA). cbn [uip_mss uip_appdata app_view].
  destruct (Z.ltb_spec 0 (s_slen s)) as [Hsl|Hsl].
  2:{ exists s, cn, c. split_and!; try done; [unfold limit_slen; by rewrite (proj2 (Z.ltb_ge _ _))|by destruct cn| |by rewrite (proj2 (Z.ltb_ge _ _))..|lia].
      symmetry. apply (alter_none _ i _ cn Hc). by destruct cn. }
  set (n := match inflight (if uflag s UIP_ACKDATA then Conn None (delivered c) (fin c) else c) with None => if Uip.mss cn <? s_slen s then Uip.mss cn else s_slen s | Some d => msize d end).
  assert (0 < n <= UIP_TCP_MSS) as Hn.
  { unfold n. destruct (uflag s UIP_ACKDATA); cbn [inflight]; [destruct (Z.ltb_spec (Uip.mss cn) (s_slen s)); lia|].
    destruct (inflight c) as [[|b d]|]; [done| |destruct (Z.ltb_spec (Uip.mss cn) (s_slen s)); lia]. unfold msize in *. cbn [length] in *. lia. }
  destruct (body_read s n Hb) as [Hr Hrl]; [lia|].
  assert (∃ s', limit_slen i s = Some s' ∧
     s_slen s' = n ∧ s_conns s' = alter (with_len n) i (s_conns s) ∧ body s' = body s ∧ s_app s' = s_app s ∧ s_flags s' = s_flags s) as (s' & -> & S1 & S2 & S3 & S4 & S5).
  { unfold limit_slen, n. clear Hr Hrl Hn n. rewrite (proj2 (Z.ltb_lt _ _)) by done. destruct (uflag s UIP_ACKDATA).
    - rewrite (mod_conn_lookup _ _ _ _ Hc). cbn [mbind option_bind c_len with_len Uip.mss inflight]. change (s_slen (mod_conn i (with_len 0) s)) with (s_slen s). cbn [Z.eqb].
      eexists. split; [reflexivity|]. destruct (Uip.mss cn <? s_slen s); (split_and!; [done| |done..]); cbn [s_conns mod_conn set_conns s_slen set_slen]; rewrite alter_twice; by apply (alter_same _ _ i _ cn).
    - rewrite Hc. cbn [mbind option_bind]. rewrite E2. destruct (inflight c) as [[|b d]|]; [done| |].
      + rewrite (proj2 (Z.eqb_neq _ _)) by (unfold msize; cbn; lia). eexists. split; [reflexivity|]. split_and!; try done. cbn [s_conns set_slen].
        symmetry. apply (alter_none _ i _ cn Hc). rewrite <- E2. by destruct cn.
      + eexists. split; [reflexivity|]. destruct (Uip.mss cn <? s_slen s); done. }
  exists s', (with_len n cn), (Conn (Some (take (Z.to_nat n) (body s))) (delivered c) (fin c)). split_and!; try done.
  - rewrite Hr. cbn [mbind option_bind]. by destruct (uflag s UIP_ACKDATA).
  - constructor; try done. intros H. injection H as H. rewrite H in Hrl. unfold msize in Hrl. cbn in Hrl. clear - Hrl Hn. lia.
  - rewrite S1. apply Z.ltb_lt. lia.
  - rewrite S1, (proj2 (Z.ltb_lt _ _)) by lia. done.
  - cbn. lia.
Qed.

Lemma appsend_refines i cn c (s : St) : stack_ok s → s_conns s !! i = Some cn → established cn c →
  ∃ s' c', tcp_appsend (app_view s cn) c = Some c' ∧ appsend i s = Some s' ∧ s_app s' = s_app s ∧ answered i cn c' (s_slen s) (uflag s UIP_NEWDATA) s'.
Proof.
  intros Hs Hc He. pose proof (sok_buf _ Hs) as Hb. destruct (uflag s UIP_ABORT) eqn:Ha; [|destruct (uflag s UIP_CLOSE) eqn:Hcl].
  - unfold appsend. rewrite Ha. set (t := mod_conn i _ _). assert (stack_ok t) as Ht by (unfold t; stk).
    edestruct (tcp_send_flags_total i (with_tcpstateflags UIP_CLOSED cn) (Z.lor TCP_RST TCP_ACK) t) as (s' & E & Hseg & Hv); [done|by apply mod_conn_lookup|done|].
    eexists s', _. unfold tcp_appsend. change (uip_flag (app_view s cn) UIP_ABORT) with (uflag s UIP_ABORT). rewrite Ha. split_and!; [done|done|by apply vars_app in Hv|].
    exists (with_tcpstateflags UIP_CLOSED cn). split_and!; [apply vars_conns in Hv; rewrite Hv; by apply (mod_conn_lookup _ _ (set_slen 0 s))|done|]. cbn [fin]. by left.
  - unfold appsend. rewrite Ha, Hcl. set (t := mod_conn i _ _). assert (stack_ok t) as Ht by (unfold t; stk).
    set (f := λ c, with_nrtx 0 (with_tcpstateflags UIP_FIN_WAIT_1 (with_len 1 c))) in t. set (cn' := f cn).
    edestruct (tcp_send_flags_total i cn' (Z.lor TCP_FIN TCP_ACK) t) as (s' & E & Hseg & Hv); [done|exact (mod_conn_lookup i f (set_slen 0 s) cn Hc)|done|].
    eexists s', _. unfold tcp_appsend. change (uip_flag (app_view s cn) UIP_ABORT) with (uflag s UIP_ABORT). change (uip_flag (app_view s cn) UIP_CLOSE) with (uflag s UIP_CLOSE).
    rewrite Ha, Hcl. split_and!; [done|done|by apply vars_app in Hv|].
    exists cn'. split_and!; [apply vars_conns in Hv; rewrite Hv; exact (mod_conn_lookup i f (set_slen 0 s) cn Hc)|done|]. cbn [fin]. by right.
  - destruct (limit_slen_refines i cn c s Hs Hc He Ha Hcl) as (s1 & cn1 & c' & E1 & E2 & He1 & Ecn & L1 & L2 & L3 & L4 & L5 & L6 & L7).
    unfold appsend. rewrite Ha, Hcl, E1. cbn [mbind option_bind]. assert (stack_ok s1) as Hs1 by (by apply (keeps_limit_slen i s)).
    set (t := mod_conn i (with_nrtx 0) s1). assert (stack_ok t) as Ht by (unfold t; stk). assert (s_conns t !! i = Some (with_nrtx 0 cn1)) as Hct.
    { apply mod_conn_lookup. rewrite L1, list_lookup_alter_eq, Hc. cbn. by rewrite <- Ecn. }
    pose proof (cok_len _ (ok_conn _ _ _ Ht Hct)) as Hl. destruct (apprexmit_answer i (with_nrtx 0 cn1) c' t Ht Hct) as (s' & E & Hans & Hv).
    { cbn [c_len with_nrtx] in *. lia. } { change (s_slen t) with (s_slen s1). change (body t) with (body s1). rewrite L2. cbn [c_len with_nrtx]. exact L6. } { exact L7. }
    exists s', c'. split_and!; [done|done|apply vars_app in Hv; rewrite Hv; exact L3|]. exists (with_nrtx 0 cn1). split_and!.
    + apply vars_conns in Hv. rewrite Hv. exact Hct.
    + rewrite Ecn. done.
    + destruct He1 as [F1 F2 F3 F4 F5 F6]. rewrite F4. split; [by constructor|]. unfold answer in *. change (s_slen t) with (s_slen s1) in Hans. rewrite L5 in Hans.
      unfold uflag in *. change (s_flags t) with (s_flags s1) in Hans. by rewrite L4 in Hans.
Qed.

(** ** The application and the code after it *)

Lemma called (s : St) i cn : stack_ok s → s_conn s = Some i → s_conns s !! i = Some cn → s_appdata s = 54 → s_sappdata s = 54 →
  match app (s_app s) (app_view s cn) with
  | None => appcall app s = None
  | Some (w, u) => ∃ s1, appcall app s = Some s1 ∧ s_app s1 = w ∧ app_view s1 cn = u ∧ stack_ok s1 ∧ s_conns s1 = s_conns s ∧ s_conn s1 = s_conn s ∧ s_sappdata s1 = 54
  end.
Proof.
  intros Hs Hi Hc Ha Hsa. unfold appcall. rewrite Hi. cbn [mbind option_bind]. rewrite Hc. cbn [mbind option_bind]. rewrite Ha, Hsa. change ((54 =? 54) && (54 =? 54)) with true. cbv iota.
  destruct (app (s_app s) (app_view s cn)) as [[w u]|] eqn:E; [|done]. cbn [mbind option_bind].
  eexists. split; [reflexivity|]. destruct (uapp_ok _ _ _ _ E) as (U1 & U2 & U3 & U4 & U5); [apply body_bytes, Hs|apply Hs|]. cbn [app_view uip_appdata uip_mss uip_len] in *.
  assert (appcall app s = Some (app_result w u s)) as Ec.
  { unfold appcall. rewrite Hi. cbn [mbind option_bind]. rewrite Hc. cbn [mbind option_bind]. rewrite Ha, Hsa. change ((54 =? 54) && (54 =? 54)) with true. cbv iota. by rewrite E. }
  split_and!; [done| |by apply (keeps_app (appcall app) s)|done|done|done]. unfold app_view, app_result. cbn [s_flags s_len s_slen set_app set_flags set_slen set_buf put_body].
  assert (body (set_app w (set_flags (uip_flags u) (set_slen (uip_slen u) (put_body (uip_appdata u) s)))) = uip_appdata u) as ->.
  { unfold body, put_body. cbn [s_buf set_app set_flags set_slen set_buf]. rewrite drop_app_length'; [done|]. rewrite length_take. destruct (sok_buf _ Hs) as [H _]. unfold msize in H. pose proof bufsize_ok. lia. }
  rewrite <- U3, <- U4. by destruct u.
Qed.

(** The application does not take back that data has come, unless it closes the connection. *)
Definition keeps_new : Prop := ∀ w u w' u', app w u = Some (w', u') → uip_newdata u = true → uip_newdata u' || uip_flag u' UIP_CLOSE || uip_flag u' UIP_ABORT = true.

Definition event_new (e : event) : bool := match e with New _ | AckNew _ => true | _ => false end.

(** An event, and the segment after it; new data is acknowledged. *)
Definition does (i : nat) (cn : Uip.uip_conn) (x : W * conn) (e : event) (b : mem) (r : option St) : Prop :=
  match tcp_call app (Uip.mss cn) x (e, b) with
  | None => r = None
  | Some (w, c) => ∃ s' slen new, r = Some s' ∧ s_app s' = w ∧ answered i cn c slen new s' ∧ (keeps_new → event_new e = true → s_len s' ≠ 0)
  end.

Lemma segment_some (s : St) cn fl d : segment_of s cn fl d → s_len s ≠ 0.
Proof. intros [_ _ H _ _]. pose proof (msize_nonneg d). unfold UIP_IPTCPH_LEN, UIP_TCPH_LEN, UIP_IPH_LEN in H. lia. Qed.

Lemma answered_some i cn c slen new (s : St) : answered i cn c slen new s → new = true ∨ fin c = true → s_len s ≠ 0.
Proof.
  intros (cn' & _ & _ & H) Hn. destruct (fin c); [destruct H as [[_ H]|[_ H]]; by eapply segment_some|]. destruct Hn as [-> | [=]]. destruct H as [_ H]. unfold answer in H.
  destruct (0 <? slen); [destruct H as (d & _ & H)|]; by eapply segment_some.
Qed.

Lemma appsend_fin u c c' : tcp_appsend u c = Some c' → uip_flag u UIP_CLOSE || uip_flag u UIP_ABORT = true → fin c' = true.
Proof. unfold tcp_appsend. destruct (uip_flag u UIP_ABORT); [by intros [= <-]|]. destruct (uip_flag u UIP_CLOSE); [by intros [= <-]|done]. Qed.

Lemma call_appsend i cn c e b (s : St) : stack_ok s → s_conn s = Some i → s_conns s !! i = Some cn → s_appdata s = 54 → s_sappdata s = 54 →
  event_uip (Uip.mss cn) e b = app_view s cn → e ≠ Rexmit → established cn (event_conn e c) →
  does i cn (s_app s, c) e b (s1 ← appcall app s; appsend i s1).
Proof.
  intros Hs Hi Hc Ha Hsa Ev Hne He. pose proof (called s i cn Hs Hi Hc Ha Hsa) as H. unfold does, tcp_call. rewrite Ev.
  destruct (app (s_app s) (app_view s cn)) as [[w u]|] eqn:Eapp; [|by rewrite H]. destruct H as (s1 & -> & E2 & E3 & E4 & E5 & E6 & E7). cbn [mbind option_bind].
  destruct (appsend_refines i cn (event_conn e c) s1) as (s' & c' & F1 & F2 & F3 & F4); [done|by rewrite E5|done|]. rewrite <- E3.
  assert (∀ (o1 o2 : option conn), (match e with Rexmit => o1 | _ => o2 end) = o2) as -> by (intros; by destruct e).
  rewrite F1. cbn [mbind option_bind]. exists s'. do 2 eexists. split_and!; [exact F2|congruence|exact F4|].
  intros Hk Hnew. eapply answered_some; [exact F4|]. assert (uip_newdata (app_view s cn) = true) as Hn by (rewrite <- Ev; by destruct e).
  specialize (Hk _ _ _ _ Eapp Hn). rewrite <- E3 in Hk. apply orb_true_iff in Hk as [[Hk|Hk]%orb_true_iff|Hk]; [by left|right; eapply appsend_fin; [exact F1|by rewrite Hk]|right; eapply appsend_fin; [exact F1|by rewrite Hk, orb_true_r]].
Qed.

Lemma call_apprexmit i cn c d b (s : St) : stack_ok s → s_conn s = Some i → s_conns s !! i = Some cn → s_appdata s = 54 → s_sappdata s = 54 →
  event_uip (Uip.mss cn) Rexmit b = app_view s cn → established cn c → inflight c = Some d →
  does i cn (s_app s, c) Rexmit b (s1 ← appcall app s; apprexmit i s1).
Proof.
  intros Hs Hi Hc Ha Hsa Ev He Hd. pose proof (called s i cn Hs Hi Hc Ha Hsa) as H. unfold does, tcp_call. rewrite Ev. change (event_conn Rexmit c) with c.
  destruct (app (s_app s) (app_view s cn)) as [[w u]|]; [|by rewrite H]. destruct H as (s1 & -> & E2 & E3 & E4 & E5 & E6 & E7). cbn [mbind option_bind].
  pose proof (est_len _ _ He) as Hl. rewrite Hd in Hl. pose proof (cok_len _ (ok_conn _ _ _ Hs Hc)) as Hcl. assert (0 < msize d) as Hpos.
  { destruct d as [|? d]; [by destruct (est_some _ _ He)|]. unfold msize. cbn [length]. lia. }
  destruct (body_read s1 (msize d) (sok_buf _ E4)) as [Hr Hrl]; [lia|]. rewrite <- E3. set (c' := if 0 <? s_slen s1 then Conn (Some (take (Z.to_nat (msize d)) (body s1))) (delivered c) (fin c) else c).
  assert (tcp_apprexmit (app_view s1 cn) c = Some c') as ->.
  { unfold tcp_apprexmit, c'. rewrite Hd. cbn [uip_slen app_view uip_appdata]. destruct (0 <? s_slen s1); [by rewrite Hr|done]. }
  cbn [mbind option_bind]. destruct He as [F1 F2 F3 F4 F5 F6]. assert (established cn c') as He'.
  { unfold c'. destruct (0 <? s_slen s1); [|by constructor]. constructor; try done; cbn [inflight]; [by rewrite Hrl|]. intros [= H]. rewrite H in Hrl. unfold msize in Hrl at 1. cbn in Hrl. lia. }
  destruct (apprexmit_answer i cn c' s1) as (s' & E & Hans & Hv); [done|by rewrite E5|lia| |lia|].
  { unfold c'. destruct (0 <? s_slen s1); [by rewrite Hl|done]. }
  exists s', (s_slen s1), (uflag s1 UIP_NEWDATA). split_and!; [done|apply vars_app in Hv; congruence| |done]. exists cn. split_and!; [apply vars_conns in Hv; by rewrite Hv, E5|done|].
  rewrite (est_open _ _ He'). done.
Qed.
End refine.
