(* ===== verification/UipRun.v ===== *)
(** * A connection in the stack, event after event

    A connection that is established lives through segments, with any numbers and any data, and ticks of its timer.  Each of them is one
    event of Psock.v, or none; the peer's data reaches the application in order and once, and what is sent is the data in flight at its
    place in the stream. *)
From S2P Require Import Prelude Psock UipSum Uip UipInv UipOut UipEcho UipSend UipTcp.

(** ** The data in events *)

Definition event_acks (e : event) : bool := match e with Ack | AckNew _ => true | _ => false end.

Definition event_data (e : event) : mem := match e with New d | AckNew d => d | _ => [] end.

Lemma appsend_delivered u c c' : tcp_appsend u c = Some c' → delivered c' = delivered c.
Proof.
  unfold tcp_appsend. destruct (uip_flag u UIP_ABORT); [by intros [= <-]|]. destruct (uip_flag u UIP_CLOSE); [by intros [= <-]|].
  destruct (0 <? uip_slen u); [|by intros [= <-]]. intros (d & _ & [= <-])%bind_Some. by destruct (uip_flag u UIP_ACKDATA).
Qed.

Lemma apprexmit_delivered u c c' : tcp_apprexmit u c = Some c' → delivered c' = delivered c.
Proof. unfold tcp_apprexmit. destruct (inflight c); [|by intros [= <-]]. destruct (0 <? uip_slen u); [|by intros [= <-]]. by intros (d & _ & [= <-])%bind_Some. Qed.

Section run.
Context {conf : UipConf} {sizes : UipSizes conf} {W : Type} (app : W → uip → option (W * uip)) `{!UAppOk app}.
Context (UIP_UDP_APPCALL : stack W → option (stack W)) `{!AppOk UIP_UDP_APPCALL}.
Abbreviation St := (stack W).

Lemma call_delivered m x e b x' : tcp_call app m x (e, b) = Some x' → delivered x'.2 = delivered (event_conn e x.2).
Proof.
  destruct x as [w c]. unfold tcp_call. intros ([w1 u] & _ & E)%bind_Some. apply bind_Some in E as (c' & E & [= <-]). cbn [snd].
  destruct e; first [by apply appsend_delivered in E | by apply apprexmit_delivered in E].
Qed.

(** The connection [i], established, in its place in the two streams: [snd0] and [rcv0] are the numbers of the first bytes, [rcvd] is what the
    application was given. *)
Record place (snd0 rcv0 : Z) (M : Z) (rcvd : mem) (dlv : mem) (cn : Uip.uip_conn) : Prop := {
  place_snd : be32 (Uip.snd_nxt cn) = u32 (snd0 + msize dlv); place_rcv : be32 (Uip.rcv_nxt cn) = u32 (rcv0 + msize rcvd);
  place_mss : Uip.mss cn = M; place_initialmss : initialmss cn = M }.

Record live (i : nat) (snd0 rcv0 M : Z) (rcvd : mem) (s : St) (x : W * conn) : Prop := {
  live_ok : stack_ok s; live_app : s_app s = x.1;
  live_conn : ∃ cn, s_conns s !! i = Some cn ∧ established cn x.2 ∧ place snd0 rcv0 M rcvd (delivered x.2) cn }.

(** What is sent: nothing, or a segment of the connection with no data or with the data in flight, numbered by what was delivered and
    received. *)
Definition emits (i : nat) (snd0 rcv0 : Z) (rcvd : mem) (c : conn) (s : St) : Prop :=
  s_len s = 0 ∨ ∃ cn fl d, s_conns s !! i = Some cn ∧ segment_of s cn fl d ∧ (d = [] ∨ inflight c = Some d) ∧
    be32 (get32 s f_seqno) = u32 (snd0 + msize (delivered c)) ∧ be32 (get32 s f_ackno) = u32 (rcv0 + msize rcvd).

(** A step without a call of the application, and one with a call for the event [e]: new data is acknowledged. *)
Definition no_event (i : nat) (snd0 rcv0 M : Z) (rcvd : mem) (x : W * conn) (r : option St) : Prop :=
  ∃ s', r = Some s' ∧ live i snd0 rcv0 M rcvd s' x ∧ emits i snd0 rcv0 rcvd x.2 s'.

Definition one_event (i : nat) (snd0 rcv0 M : Z) (rcvd : mem) (x : W * conn) (e : event) (r : option St) : Prop :=
  event_enabled e x.2 = true ∧ ∃ b,
  match tcp_call app M x (e, b) with
  | None => r = None
  | Some x' => ∃ s', r = Some s' ∧ stack_ok s' ∧ emits i snd0 rcv0 (rcvd ++ event_data e) x'.2 s' ∧ (keeps_new app → event_data e ≠ [] → s_len s' ≠ 0) ∧
      if fin x'.2 then (∃ cn, s_conns s' !! i = Some cn ∧ tcpstateflags cn ≠ UIP_ESTABLISHED)
      else live i snd0 rcv0 M (rcvd ++ event_data e) s' x'
  end.

(** The silent peer: the application is told and the connection is closed. *)
Definition times_out (i : nat) (w : W) (r : option St) : Prop :=
  ∃ u, uip_flags u = UIP_TIMEDOUT ∧
  match app w u with None => r = None | Some _ => ∃ s' cn, r = Some s' ∧ s_conns s' !! i = Some cn ∧ tcpstateflags cn = UIP_CLOSED end.

Lemma segment_numbers (s : St) cn fl d : segment_of s cn fl d → get32 s f_seqno = Uip.snd_nxt cn ∧ get32 s f_ackno = Uip.rcv_nxt cn.
Proof. intros [_ _ _ _ H]. unfold fields in H. by injection H. Qed.

Lemma place_same snd0 rcv0 M rcvd dlv cn cn' : same_stream cn cn' → place snd0 rcv0 M rcvd dlv cn → place snd0 rcv0 M rcvd dlv cn'.
Proof. intros (H1 & H2 & H3 & H4 & H5 & H6 & H7) []. constructor; congruence. Qed.

Lemma segment_emits i snd0 rcv0 M rcvd c (s : St) cn fl d : s_conns s !! i = Some cn → place snd0 rcv0 M rcvd (delivered c) cn → segment_of s cn fl d →
  d = [] ∨ inflight c = Some d → emits i snd0 rcv0 rcvd c s.
Proof.
  intros Hc [P1 P2 _ _] Hseg Hd. right. exists cn, fl, d. destruct (segment_numbers _ _ _ _ Hseg) as [-> ->]. done.
Qed.

(** From the call of the application to the step. *)
Lemma does_one_event i snd0 rcv0 M rcvd cn x e b (r : option St) : event_enabled e x.2 = true → established cn (event_conn e x.2) →
  place snd0 rcv0 M (rcvd ++ event_data e) (delivered (event_conn e x.2)) cn → (∀ s', r = Some s' → stack_ok s') → does app i cn x e b r →
  one_event i snd0 rcv0 M rcvd x e r.
Proof.
  intros He Hes Hp Hok Hd. split; [done|]. exists b. unfold does in Hd. rewrite (place_mss _ _ _ _ _ _ Hp) in Hd.
  destruct (tcp_call app M x (e, b)) as [[w c]|] eqn:E; [|done]. destruct Hd as (s' & slen & new & -> & Ea & (cn' & Hc & Hss & Hans) & Hnew). specialize (Hok _ eq_refl).
  apply call_delivered in E. cbn [snd] in E. pose proof (place_same _ _ _ _ _ _ _ Hss Hp) as Hp'. rewrite <- E in Hp'. exists s'. cbn [snd fst].
  assert (keeps_new app → event_data e ≠ [] → s_len s' ≠ 0) as Hsome by (intros Hk Hne; apply Hnew; [done|by destruct e]).
  destruct (fin c).
  - assert (∃ fl, segment_of s' cn' fl []) as [fl Hseg] by (destruct Hans as [[_ H]|[_ H]]; eauto). split_and!; [done|done|by eapply segment_emits; eauto|done|].
    exists cn'. split; [done|]. by destruct Hans as [[-> _]|[-> _]].
  - destruct Hans as [He' Ha]. split_and!; [done|done| |done|by constructor; eauto]. unfold answer in Ha. destruct (0 <? slen).
    + destruct Ha as (d & Hd & Hseg). eapply segment_emits; eauto.
    + destruct new; [eapply segment_emits; eauto|by left].
Qed.

(** ** The timer *)

Lemma be32_add x n : u8x4_ok x → word_ok n → be32 (uip_add32 x n) = u32 (be32 x + n).
Proof. intros H Hn. by apply add32_spec. Qed.

(** Before a call of the application for the connection [i]. *)
Record ready (i : nat) (cn : Uip.uip_conn) (w : W) (s : St) : Prop := {
  ready_ok : stack_ok s; ready_i : s_conn s = Some i; ready_conn : s_conns s !! i = Some cn; ready_appdata : s_appdata s = 54;
  ready_sappdata : s_sappdata s = 54; ready_app : s_app s = w }.

Lemma ready_mod i cn w f (s : St) : (∀ c, conn_ok c → conn_ok (f c)) → ready i cn w s → ready i (f cn) w (mod_conn i f s).
Proof. intros Hf [H1 H2 H3 H4 H5 H7]. constructor; try done; [by apply ok_mod_conn|by apply mod_conn_lookup]. Qed.

Lemma ready_flags i cn w v (s : St) : ready i cn w s → ready i cn w (set_flags v s).
Proof. intros [H1 H2 H3 H4 H5 H7]. constructor; try done. by apply ok_set_flags. Qed.

Lemma front_of (d b : mem) : d = take (length d) b → d ++ drop (length d) b = b.
Proof. intros H. rewrite H at 1. apply take_drop. Qed.

(** A call, and what the code after it sends. *)
Lemma call_event i snd0 rcv0 M rcvd cn x e (s : St) : ready i cn x.1 s → established cn (event_conn e x.2) → place snd0 rcv0 M (rcvd ++ event_data e) (delivered (event_conn e x.2)) cn →
  event_enabled e x.2 = true → e ≠ Rexmit → s_slen s = 0 → s_len s = msize (event_data e) → s_flags s = event_flags e → event_data e = take (length (event_data e)) (body s) →
  one_event i snd0 rcv0 M rcvd x e (s1 ← appcall app s; appsend i s1).
Proof.
  intros [H1 H2 H3 H4 H5 H7] He Hp Hen Hne H6 Hl Hfl Hd. destruct x as [w c]. cbn [fst snd] in *. eapply (does_one_event i snd0 rcv0 M rcvd cn _ e (body s)); try done.
  - intros s' (s1 & E1 & E2)%bind_Some. apply (keeps_app (appcall app)) in E1; [|done]. by eapply keeps_appsend.
  - rewrite <- H7. apply call_appsend; try done. unfold app_view. rewrite Hfl, H6. destruct e; try done; unfold event_uip; cbn [event_data] in *; rewrite Hl; try done.
    all: by rewrite (front_of _ _ Hd).
Qed.

Lemma rexmit_event i snd0 rcv0 M rcvd cn x (s : St) : ready i cn x.1 s → established cn x.2 → place snd0 rcv0 M rcvd (delivered x.2) cn →
  c_len cn ≠ 0 → s_slen s = 0 → s_len s = 0 → s_flags s = UIP_REXMIT → one_event i snd0 rcv0 M rcvd x Rexmit (s1 ← appcall app s; apprexmit i s1).
Proof.
  intros [H1 H2 H3 H4 H5 H7] He Hp Hn H6 Hl Hfl. destruct x as [w c]. cbn [fst snd] in *. destruct (inflight c) as [d|] eqn:Hd; [|pose proof (est_len _ _ He) as H; by rewrite Hd in H].
  eapply (does_one_event i snd0 rcv0 M rcvd cn _ Rexmit (body s)).
  - cbn [snd]. unfold event_enabled. by rewrite (est_open _ _ He), Hd.
  - exact He.
  - cbn [event_data]. by rewrite app_nil_r.
  - intros s' (s1 & E1 & E2)%bind_Some. apply (keeps_app (appcall app)) in E1; [|done]. by eapply keeps_apprexmit.
  - rewrite <- H7. eapply call_apprexmit; try done. unfold event_uip, app_view. by rewrite Hfl, Hl, H6.
Qed.

Lemma est_timer cn c t : established cn c → established (with_timer t cn) c.
Proof. intros []. by constructor. Qed.

Lemma outstanding_event i snd0 rcv0 M rcvd cn x (s : St) : ready i cn x.1 s → established cn x.2 → place snd0 rcv0 M rcvd (delivered x.2) cn → c_len cn ≠ 0 → s_slen s = 0 → s_len s = 0 →
  let r := outstanding_timer (appcall app) i s in no_event i snd0 rcv0 M rcvd x r ∨ one_event i snd0 rcv0 M rcvd x Rexmit r ∨ times_out i x.1 r.
Proof.
  intros Hr He Hp Hn Hsl Hl r. unfold r, outstanding_timer. rewrite (ready_conn _ _ _ _ Hr). cbn [mbind option_bind]. cbv zeta.
  set (t := u8 (timer cn - 1)). assert (ready i (with_timer t cn) x.1 (mod_conn i (with_timer t) s)) as Hr2 by (apply ready_mod; [intros c; apply cok_with_timer|done]).
  set (s2 := mod_conn i (with_timer t) s) in *. destruct (timer cn =? 0); [destruct (timed_out cn)|].
  - right. right. set (f := with_tcpstateflags UIP_CLOSED). set (s4 := set_flags UIP_TIMEDOUT _).
    assert (ready i (f (with_timer t cn)) x.1 s4) as Hr4 by (apply ready_flags, (ready_mod _ _ _ f); [intros c; apply cok_with_state|done]).
    exists (app_view s4 (f (with_timer t cn))). split; [done|]. destruct Hr4 as [R1 R2 R3 R4 R5 R6]. pose proof (called app s4 i _ R1 R2 R3 R4 R5) as H. rewrite R6 in H.
    destruct (app x.1 _) as [[w u]|]; [|by rewrite H]. destruct H as (s3 & -> & _ & _ & Hs3 & Ec & _). cbn [mbind option_bind].
    destruct (tcp_send_flags_total i (f (with_timer t cn)) (Z.lor TCP_RST TCP_ACK) s3) as (s5 & E5 & _ & Hv); [done|by rewrite Ec|done|].
    exists s5, (f (with_timer t cn)). split_and!; [exact E5| |done]. apply vars_conns in Hv. by rewrite Hv, Ec.
  - right. left. unfold retransmit. set (f := λ c, with_nrtx (u8 (nrtx c + 1)) (with_timer (u8 (Z.shiftl UIP_RTO (if 4 <? nrtx c then 4 else nrtx c))) c)).
    assert (ready i (f (with_timer t cn)) x.1 (mod_conn i f s2)) as Hr3 by (apply ready_mod; [intros c Hc; unfold f; cok|done]).
    rewrite (ready_conn _ _ _ _ Hr3). cbn [mbind option_bind]. cbv zeta. change (tcpstateflags (f (with_timer t cn))) with (tcpstateflags cn). rewrite (est_state _ _ He).
    change (Z.land UIP_ESTABLISHED UIP_TS_MASK) with UIP_ESTABLISHED. cbn [UIP_ESTABLISHED UIP_SYN_RCVD UIP_SYN_SENT Z.eqb Pos.eqb].
    apply (rexmit_event i snd0 rcv0 M rcvd (f (with_timer t cn))); [by apply ready_flags|by destruct He|by destruct Hp|done..].
  - left. eexists. split; [reflexivity|]. split; [|by left]. constructor; [apply ok_set_flags, ok_set_len; [by apply word_const|apply Hr2]|by apply Hr|].
    exists (with_timer t cn). split_and!; [apply Hr2|by apply est_timer|by destruct Hp].
Qed.

Lemma timer_event fuel i snd0 rcv0 M rcvd forced (s : St) x : live i snd0 rcv0 M rcvd s x →
  let r := uip_periodic (appcall app) UIP_UDP_APPCALL fuel i (set_forced_poll forced s) in
  no_event i snd0 rcv0 M rcvd x r ∨ one_event i snd0 rcv0 M rcvd x Poll r ∨ one_event i snd0 rcv0 M rcvd x Rexmit r ∨ times_out i x.1 r.
Proof.
  intros [Hs Ha (cn & Hc & He & Hp)] r. unfold r, uip_periodic, uip_process. cbn [UIP_TIMER UIP_UDP_SEND_CONN UIP_POLL_REQUEST Z.eqb Pos.eqb]. cbv zeta.
  set (s0 := set_appdata _ _). change (s_conn s0) with (Some i). cbn [mbind option_bind]. unfold uip_timer. cbv zeta. set (s1 := set_slen 0 _).
  assert (ready i cn x.1 s1) as Hr.
  { constructor; try done. unfold s1, s0. stk. apply incr32_spec, (sok_iss _ Hs). }
  rewrite (ready_conn _ _ _ _ Hr). cbn [mbind option_bind]. rewrite (est_state _ _ He). change (s_forced_poll s1) with forced.
  cbn [UIP_ESTABLISHED UIP_TIME_WAIT UIP_FIN_WAIT_2 UIP_CLOSED UIP_RESERVED Z.eqb Pos.eqb orb negb]. rewrite andb_false_r. cbn [andb].
  destruct (negb (c_len cn =? 0) && negb forced) eqn:Eo.
  - apply andb_true_iff in Eo as [Hl _]. apply negb_true_iff, Z.eqb_neq in Hl. destruct (outstanding_event i snd0 rcv0 M rcvd cn x s1 Hr He Hp Hl eq_refl eq_refl) as [H|[H|H]]; auto.
  - right. left. change (Z.land 3 UIP_TS_MASK =? 3) with true. cbv iota. apply (call_event i snd0 rcv0 M rcvd cn); [by apply ready_flags|done|cbn [event_data]; by rewrite app_nil_r| |done..].
    unfold event_enabled. by rewrite (est_open _ _ He).
Qed.

(** ** Segments *)

(** A segment in the buffer for the connection [i], with the data [d]: an IP packet with valid sums, without options, that neither opens nor
    closes a connection and has no urgent data; its numbers are any. *)
Record arrives (i : nat) (d : mem) (s : St) : Prop := {
  ar_vhl : get8 s f_vhl = 69; ar_len : len_field s = UIP_IPTCPH_LEN + msize d; ar_got : len_field s <= s_len s;
  ar_frag : Z.land (get8 s f_ipoffset) 63 = 0 ∧ get8 s (f_ipoffset + 1) = 0; ar_dest : get_ip s f_destipaddr = s_hostaddr s;
  ar_ipsum : uip_ipchksum s = 65535; ar_proto : get8 s f_proto = UIP_PROTO_TCP; ar_sum : uip_tcpchksum s = Some 65535;
  ar_conn : find_conn s (s_conns s) 0 = Some i; ar_flags : Z.land (get8 s f_flags) (Z.lor TCP_RST (Z.lor TCP_SYN (Z.lor TCP_FIN TCP_URG))) = 0;
  ar_off : Z.shiftr (get8 s f_tcpoffset) 4 = 5; ar_data : d = take (length d) (body s) }.

(** The window of the peer does not limit the segments. *)
Definition window_wide (M : Z) (s : St) : Prop := let w := Z.shiftl (get8 s f_wnd) 8 + get8 s (f_wnd + 1) in w = 0 ∨ M <= w.

Lemma find_conn_same (s s' : St) cs k : s_buf s' = s_buf s → find_conn s' cs k = find_conn s cs k.
Proof.
  intros E. assert (∀ o, get8 s' o = get8 s o) as H8 by (intros; unfold get8; by rewrite E).
  revert k. induction cs as [|c cs IH]; intros k; [done|]. cbn [find_conn]. unfold get_ip, get16. rewrite !H8, IH. done.
Qed.

Lemma arrives_found fuel i d (s : St) : arrives i d s →
  uip_input (appcall app) UIP_UDP_APPCALL fuel s = found (appcall app) fuel i (set_len (len_field s) (set_appdata 54 (set_sappdata 54 s))).
Proof.
  intros [A1 A2 A3 [A4 A5] A6 A7 A8 A9 A10 A11 A12 A13]. unfold uip_input, uip_process. cbn [UIP_DATA UIP_TIMER UIP_UDP_SEND_CONN UIP_POLL_REQUEST UIP_UDP_TIMER Z.eqb Pos.eqb]. cbv zeta.
  set (s0 := set_appdata _ _). unfold ip_input. change (get8 s0) with (get8 s). rewrite A1. change (69 =? 69) with true. cbn [negb]. cbv zeta. fold (len_field s).
  change (s_len s0) with (s_len s). rewrite (proj2 (Z.leb_le _ _) A3). cbn [negb]. set (s1 := set_len (len_field s) s0).
  change (get8 s1) with (get8 s). change (get_ip s1) with (get_ip s). change (s_hostaddr s1) with (s_hostaddr s). change (uip_ipchksum s1) with (uip_ipchksum s).
  rewrite A4, A5, A6, A7, A8. change ((0 =? 0)) with true. cbn [negb orb].
  change (UIP_PROTO_TCP =? UIP_PROTO_UDP) with false. rewrite andb_false_r. cbn [andb]. assert (uip_ipaddr_cmp (s_hostaddr s) (s_hostaddr s) = true) as -> by (unfold uip_ipaddr_cmp; by rewrite !Z.eqb_refl).
  cbn [negb]. rewrite andb_false_r. change (65535 =? 65535) with true. change (UIP_PROTO_TCP =? UIP_PROTO_TCP) with true. cbn [negb].
  unfold tcp_input. change (uip_tcpchksum s1) with (uip_tcpchksum s). rewrite A9. cbn [mbind option_bind]. change (65535 =? 65535) with true. cbn [negb].
  rewrite (find_conn_same s s1) by done. change (s_conns s1) with (s_conns s). by rewrite A10.
Qed.

Lemma bits_within x m k : Z.land x m = 0 → Z.land m k = k → bits x k = false.
Proof. intros H E. unfold bits. rewrite <- E, Z.land_assoc, H. done. Qed.

(** The acknowledgment of what is in flight. *)
Definition acked (cn : Uip.uip_conn) (s : St) : bool :=
  bits (get8 s f_flags) TCP_ACK && negb (c_len cn =? 0) && bool_decide (get32 s f_ackno = uip_add32 (Uip.snd_nxt cn) (c_len cn)).

Lemma rtt_same c : ∃ a v r, rtt_estimation c = with_rto r (with_sv v (with_sa a c)).
Proof. unfold rtt_estimation. destruct (_ =? _); [cbv zeta; eauto|]. exists (sa c), (sv c), (rto c). by destruct c. Qed.

Lemma check_ack_acked i snd0 rcv0 M rcvd cn w c (s : St) : ready i cn w s → established cn c → place snd0 rcv0 M rcvd (delivered c) cn → acked cn s = true →
  ∃ f, check_ack i s = Some (set_flags UIP_ACKDATA (mod_conn i f s)) ∧ (∀ c, conn_ok c → conn_ok (f c)) ∧ is_Some (inflight c) ∧
    established (f cn) (event_conn Ack c) ∧ place snd0 rcv0 M rcvd (delivered (event_conn Ack c)) (f cn) ∧ Uip.rcv_nxt (f cn) = Uip.rcv_nxt cn.
Proof.
  intros Hr He [P1 P2 P3 P4] Ha. pose proof (ok_conn _ _ _ (ready_ok _ _ _ _ Hr) (ready_conn _ _ _ _ Hr)) as Hok. destruct He as [F1 F2 F3 F4 F5 F6].
  apply andb_true_iff in Ha as [Ha Hack%bool_decide_eq_true_1]. apply andb_true_iff in Ha as [Hf Hl]. apply negb_true_iff, Z.eqb_neq in Hl as Hl'.
  destruct (inflight c) as [d|] eqn:Hd; [|lia]. set (acc := uip_add32 (Uip.snd_nxt cn) (c_len cn)) in *.
  assert (word_ok (c_len cn)) as Hw by (pose proof (cok_len _ Hok); pose proof mss_ok; unfold word_ok; lia). assert (u8x4_ok acc) as Hacc by (apply add32_spec; [apply Hok|done]).
  exists (λ c, let c := rtt_estimation (with_snd_nxt acc c) in with_len 0 (with_timer (rto c) c)).
  unfold check_ack. rewrite (ready_conn _ _ _ _ Hr). cbn [mbind option_bind]. rewrite Hf, Hl. cbn [andb]. cbv zeta. fold acc. rewrite bool_decide_eq_true_2 by done.
  split_and!; [done|intros c0 Hc0; cok; exact Hacc|by eauto| | |].
  - unfold event_conn. rewrite Hd. cbv zeta. destruct (rtt_same (with_snd_nxt acc cn)) as (a & v & r & ->). by constructor.
  - unfold event_conn. rewrite Hd. cbn [delivered]. assert (be32 acc = u32 (snd0 + msize (delivered c ++ d))) as Hb.
    { unfold acc. rewrite be32_add by (done || apply Hok). rewrite P1, F2, msize_app. unfold u32. rewrite Zplus_mod_idemp_l. f_equal. lia. }
    cbv zeta. destruct (rtt_same (with_snd_nxt acc cn)) as (a & v & r & ->). by constructor.
  - cbv zeta. by destruct (rtt_same (with_snd_nxt acc cn)) as (a & v & r & ->).
Qed.

Lemma check_ack_not i cn w (s : St) : ready i cn w s → acked cn s = false → check_ack i s = Some s.
Proof.
  intros Hr Ha. unfold check_ack. rewrite (ready_conn _ _ _ _ Hr). cbn [mbind option_bind]. unfold acked in Ha. destruct (bits _ _ && negb _) eqn:E; [|done].
  cbn [andb] in Ha. by rewrite Ha.
Qed.

(** The place in the stream of the peer after its next bytes. *)
Lemma place_received i snd0 rcv0 M rcvd dlv d cn w (s : St) : ready i cn w s → place snd0 rcv0 M rcvd dlv cn → msize d < 65536 →
  place snd0 rcv0 M (rcvd ++ d) dlv (with_rcv_nxt (uip_add32 (Uip.rcv_nxt cn) (u16 (msize d))) cn).
Proof.
  intros Hr [P1 P2 P3 P4] Hd. pose proof (ok_conn _ _ _ (ready_ok _ _ _ _ Hr) (ready_conn _ _ _ _ Hr)) as Hok. pose proof (msize_nonneg d). constructor; try done. cbn [Uip.rcv_nxt with_rcv_nxt].
  rewrite be32_add by (apply Hok || apply u16_word). rewrite u16_id by lia. rewrite P2, msize_app. unfold u32. rewrite Zplus_mod_idemp_l. f_equal. lia.
Qed.

Lemma set_mss_wide i cn w M (s : St) : ready i cn w s → Uip.mss cn = M → initialmss cn = M → window_wide M s → set_mss i s = Some (mod_conn i (with_mss M) s).
Proof.
  intros Hr H1 H2 Hw. unfold set_mss. rewrite (ready_conn _ _ _ _ Hr). cbn [mbind option_bind]. cbv zeta. unfold window_wide in Hw.
  pose proof (sok_buf _ (ready_ok _ _ _ _ Hr)) as Hb. pose proof (get8_ok s f_wnd Hb). pose proof (get8_ok s (f_wnd + 1) Hb). unfold byte_ok in *.
  cbv zeta in Hw. rewrite Z.shiftl_mul_pow2 in * by lia. rewrite u16_id by lia. set (n := get8 s f_wnd * 2 ^ 8 + get8 s (f_wnd + 1)) in *. rewrite H2.
  destruct (Z.ltb_spec M n); cbn [orb]; [done|]. destruct (Z.eqb_spec n 0); [done|]. assert (n = M) as -> by lia. done.
Qed.

(** The event of a segment with the data [d], when it acknowledges the data in flight or not. *)
Definition event_of (a : bool) (d : mem) : event := if a then (if 0 <? msize d then AckNew d else Ack) else New d.

Lemma event_of_data a d : event_data (event_of a d) = d.
Proof. unfold event_of. destruct a; [|done]. destruct (Z.ltb_spec 0 (msize d)); [done|]. destruct d; [done|]. unfold msize in *. cbn in *. lia. Qed.

Lemma event_of_flags a d : a = true ∨ 0 < msize d → event_flags (event_of a d) = Z.lor (if a then UIP_ACKDATA else 0) (if 0 <? msize d then UIP_NEWDATA else 0).
Proof. unfold event_of. intros [-> | H]; [by destruct (0 <? msize d)|]. rewrite (proj2 (Z.ltb_lt _ _) H). by destruct a. Qed.

Lemma event_of_conn a d c : event_conn (event_of a d) c = if a then event_conn Ack c else c.
Proof. unfold event_of. destruct a; [by destruct (0 <? msize d)|done]. Qed.

(** The call of [on_established], after [check_ack]. *)
Lemma established_event i snd0 rcv0 M rcvd cn x d a (s : St) : let e := event_of a d in ready i cn x.1 s → established cn (event_conn e x.2) →
  place snd0 rcv0 M rcvd (delivered (event_conn e x.2)) cn → event_enabled e x.2 = true → a = true ∨ 0 < msize d → s_len s = msize d → msize d < 65536 → d = take (length d) (body s) →
  Z.land (get8 s f_flags) (Z.lor TCP_RST (Z.lor TCP_SYN (Z.lor TCP_FIN TCP_URG))) = 0 → window_wide M s → s_flags s = (if a then UIP_ACKDATA else 0) →
  one_event i snd0 rcv0 M rcvd x e (on_established (appcall app) i s).
Proof.
  intros e Hr He Hp Hen Hany Hl Hsz Hfr Hfl Hw Hsf. unfold on_established. rewrite (ready_conn _ _ _ _ Hr). cbn [mbind option_bind]. cbv zeta.
  rewrite (est_state _ _ He). change (bits UIP_ESTABLISHED UIP_STOPPED) with false. cbn [negb]. rewrite (bits_within _ _ TCP_FIN Hfl) by done. rewrite (bits_within _ _ TCP_URG Hfl) by done.
  cbn [andb]. rewrite Hl, andb_true_r. set (s1 := if 0 <? msize d then _ else _). pose proof (msize_nonneg d) as Hd0.
  assert (∃ cn1, ready i cn1 x.1 s1 ∧ s_flags s1 = event_flags e ∧ s_len s1 = msize d ∧ s_buf s1 = s_buf s ∧ established cn1 (event_conn e x.2) ∧
    place snd0 rcv0 M (rcvd ++ d) (delivered (event_conn e x.2)) cn1) as (cn1 & Hr1 & Hf1 & Hl1 & Hb1 & He1 & Hp1).
  { unfold e at 1. rewrite event_of_flags by done. unfold s1. destruct (Z.ltb_spec 0 (msize d)) as [Hn|Hn].
    - exists (with_rcv_nxt (uip_add32 (Uip.rcv_nxt cn) (u16 (msize d))) cn). split_and!; [|cbn; by rewrite Hsf|done|done|by destruct He|by eapply place_received].
      apply (ready_mod i cn x.1 (λ c, with_rcv_nxt (uip_add32 (Uip.rcv_nxt c) (u16 (msize d))) c)); [intros c Hc; apply cok_with_rcv; [by apply cok_add32|done]|]. by apply ready_flags.
    - assert (d = []) as -> by (destruct d; [done|unfold msize in Hn; cbn in Hn; lia]). rewrite app_nil_r. exists cn. split_and!; try done. rewrite Hsf. by destruct a. }
  rewrite (set_mss_wide i cn1 x.1 M); [|done|by destruct Hp1..|].
  2: { unfold window_wide, get8 in *. by rewrite Hb1. }
  cbn [mbind option_bind]. set (s2 := mod_conn i (with_mss M) s1). assert (ready i (with_mss M cn1) x.1 s2) as Hr2.
  { apply ready_mod; [|done]. intros c Hc. apply cok_with_mss; [|done]. pose proof (cok_mss _ (ok_conn _ _ _ (ready_ok _ _ _ _ Hr1) (ready_conn _ _ _ _ Hr1))) as H. by rewrite (place_mss _ _ _ _ _ _ Hp1) in H. }
  assert (uflag s2 UIP_NEWDATA || uflag s2 UIP_ACKDATA = true) as ->.
  { unfold uflag. change (s_flags s2) with (s_flags s1). rewrite Hf1. unfold e. rewrite event_of_flags by done. destruct Hany as [-> | Hn]; [by destruct (0 <? msize d)|]. rewrite (proj2 (Z.ltb_lt _ _) Hn). by destruct a. }
  apply (call_event i snd0 rcv0 M rcvd (with_mss M cn1)); try done.
  - destruct Hr2 as [R1 R2 R3 R4 R5 R7]. constructor; try done. pose proof bufsize_ok. stk.
  - pose proof (place_mss _ _ _ _ _ _ Hp1) as Hm. destruct He1. constructor; try done. cbn. congruence.
  - unfold e. rewrite event_of_data. by destruct Hp1.
  - unfold e, event_of. destruct a; [by destruct (0 <? msize d)|done].
  - unfold e. by rewrite event_of_data.
  - unfold e. rewrite event_of_data. unfold body in *. by change (s_buf (set_slen 0 s2)) with (s_buf s1); rewrite Hb1.
Qed.

(** A segment that is no event: the application is not called, and data is answered with an acknowledgment of what was received; else nothing is
    sent. *)
Definition ignored (i : nat) (snd0 rcv0 M : Z) (rcvd : mem) (x : W * conn) (d : mem) (r : option St) : Prop :=
  ∃ s', r = Some s' ∧ live i snd0 rcv0 M rcvd s' x ∧
    if 0 <? msize d then ∃ cn, s_conns s' !! i = Some cn ∧ segment_of s' cn TCP_ACK [] ∧
      be32 (get32 s' f_seqno) = u32 (snd0 + msize (delivered x.2)) ∧ be32 (get32 s' f_ackno) = u32 (rcv0 + msize rcvd)
    else s_len s' = 0.

Lemma ignored_no_event i snd0 rcv0 M rcvd x d r : ignored i snd0 rcv0 M rcvd x d r → no_event i snd0 rcv0 M rcvd x r.
Proof.
  intros (s' & Hr & Hl & H). exists s'. split; [done|]. split; [done|]. destruct (0 <? msize d); [|by left]. destruct H as (cn & Hc & Hseg & H1 & H2). right. exists cn, TCP_ACK, []. split_and!; auto.
Qed.

(** The event of a segment for a connection [cn]: data at another place in the stream is none. *)
Definition segment_event_of (cn : Uip.uip_conn) (s : St) (d : mem) : option event :=
  if (0 <? msize d) && negb (bool_decide (get32 s f_seqno = Uip.rcv_nxt cn)) then None
  else if acked cn s || (0 <? msize d) then Some (event_of (acked cn s) d) else None.

Lemma segment_event fuel i snd0 rcv0 M rcvd cn (s : St) x d : live i snd0 rcv0 M rcvd s x → arrives i d s → window_wide M s → s_conns s !! i = Some cn →
  let r := uip_input (appcall app) UIP_UDP_APPCALL fuel s in
  match segment_event_of cn s d with None => ignored i snd0 rcv0 M rcvd x d r | Some e => one_event i snd0 rcv0 M rcvd x e r end.
Proof.
  intros [Hs Ha (cn' & Hc & He & Hp)] Harr Hw Hc' r. assert (cn' = cn) as -> by congruence. unfold r. clear r. rewrite (arrives_found fuel i d s Harr).
  destruct Harr as [A1 A2 A3 [A4 A5] A6 A7 A8 A9 A10 A11 A12 A13]. pose proof (msize_nonneg d) as Hd0. assert (msize d <= UIP_BUFSIZE) as Hdb.
  { pose proof (body_size s (sok_buf _ Hs)) as Hb. rewrite A13. unfold msize in *. rewrite length_take. lia. } pose proof bufsize_ok as Hbs.
  unfold found. cbv zeta. set (s1 := set_flags 0 _). change (get8 s1) with (get8 s). rewrite (bits_within _ _ TCP_RST A11) by done. rewrite A12.
  set (s2 := set_len _ s1). assert (s_len s2 = msize d) as Hl.
  { unfold s2. cbn [s_len set_len]. change (s_len s1) with (len_field s). rewrite A2. change (u8 (Z.shiftl 5 2)) with 20. unfold UIP_IPTCPH_LEN, UIP_TCPH_LEN, UIP_IPH_LEN. rewrite u16_id; lia. }
  assert (ready i cn x.1 s2) as Hr. { constructor; try done. unfold s2, s1. stk. unfold word_ok. rewrite A2. unfold UIP_IPTCPH_LEN, UIP_TCPH_LEN, UIP_IPH_LEN. lia.
   }
  change (s_conns s2) with (s_conns s). rewrite Hc. cbn [mbind option_bind]. change (get8 s2) with (get8 s) in *.
  assert (out_of_order cn s2 = (0 <? msize d) && negb (bool_decide (get32 s f_seqno = Uip.rcv_nxt cn))) as ->.
  { unfold out_of_order. rewrite (est_state _ _ He). change (Z.land UIP_ESTABLISHED UIP_TS_MASK =? UIP_SYN_SENT) with false. cbn [andb negb]. change (get8 s2) with (get8 s). change (get32 s2) with (get32 s).
    rewrite Hl. rewrite (bits_within _ _ (Z.lor TCP_SYN TCP_FIN) A11) by done. by rewrite orb_false_r. }
  unfold segment_event_of. destruct (_ && negb _) eqn:Eooo.
  - apply andb_true_iff in Eooo as [Ed _]. destruct (tcp_send_flags_total i cn TCP_ACK s2) as (s' & E & Hseg & Hv); [apply Hr|done|done|]. exists s'. split; [exact E|]. split.
    + constructor; [by eapply (keeps_tcp_send_ack i s2); [apply Hr|]|apply vars_app in Hv; rewrite Hv; exact Ha|]. exists cn. apply vars_conns in Hv. by rewrite Hv.
    + rewrite Ed. exists cn. apply vars_conns in Hv. destruct (segment_numbers _ _ _ _ Hseg) as [-> ->]. split_and!; [by rewrite Hv|exact Hseg|apply Hp|apply Hp].
  - change (acked cn s) with (acked cn s2). destruct (acked cn s2) eqn:Hack; cbn [orb].
    + destruct (check_ack_acked i snd0 rcv0 M rcvd cn x.1 x.2 s2 Hr He Hp Hack) as (f & -> & Hf & Hin & Hef & Hpf & _). cbn [mbind option_bind].
      set (s3 := set_flags UIP_ACKDATA _). assert (ready i (f cn) x.1 s3) as Hr3 by (apply ready_flags, ready_mod; done).
      unfold by_state. rewrite (ready_conn _ _ _ _ Hr3). cbn [mbind option_bind]. cbv zeta. rewrite (est_state _ _ Hef).
      change (Z.land UIP_ESTABLISHED UIP_TS_MASK) with UIP_ESTABLISHED. cbn [UIP_ESTABLISHED UIP_SYN_RCVD UIP_SYN_SENT Z.eqb Pos.eqb].
      apply (established_event i snd0 rcv0 M rcvd (f cn) x d true s3); try done; rewrite ?event_of_conn; try done; [|by left|lia].
      unfold event_of, event_enabled. rewrite (est_open _ _ He). destruct (0 <? msize d); cbn [negb andb]; by apply bool_decide_eq_true_2.
    + rewrite (check_ack_not i cn x.1 s2 Hr Hack). cbn [mbind option_bind]. unfold by_state. rewrite (ready_conn _ _ _ _ Hr). cbn [mbind option_bind]. cbv zeta. rewrite (est_state _ _ He).
      change (Z.land UIP_ESTABLISHED UIP_TS_MASK) with UIP_ESTABLISHED. cbn [UIP_ESTABLISHED UIP_SYN_RCVD UIP_SYN_SENT Z.eqb Pos.eqb]. destruct (Z.ltb_spec 0 (msize d)) as [Hn|Hn].
      * apply (established_event i snd0 rcv0 M rcvd cn x d false s2); try done; [|by right|lia]. unfold event_of, event_enabled. by rewrite (est_open _ _ He).
      * assert (msize d = 0) as Hz by lia. unfold on_established. rewrite (ready_conn _ _ _ _ Hr). cbn [mbind option_bind]. cbv zeta.
        rewrite (est_state _ _ He). change (bits UIP_ESTABLISHED UIP_STOPPED) with false. cbn [negb]. change (get8 s2) with (get8 s). rewrite (bits_within _ _ TCP_FIN A11) by done. rewrite (bits_within _ _ TCP_URG A11) by done.
        cbn [andb]. rewrite Hl, Hz. cbn [Z.ltb Z.compare andb]. rewrite (set_mss_wide i cn x.1 M); [|done|by destruct Hp..|done]. cbn [mbind option_bind].
        change (uflag (mod_conn i (with_mss M) s2) UIP_NEWDATA || uflag (mod_conn i (with_mss M) s2) UIP_ACKDATA) with false. cbv iota.
        eexists. split; [reflexivity|]. split; [|by rewrite Hz]. constructor; [|done|].
        -- unfold drop_packet. apply ok_set_flags, ok_set_len; [by apply word_const|]. apply ok_mod_conn; [|apply Hr]. intros c Hc0. apply cok_with_mss; [|done].
           pose proof (cok_mss _ (ok_conn _ _ _ Hs Hc)) as H. by rewrite (place_mss _ _ _ _ _ _ Hp) in H.
        -- exists (with_mss M cn). split_and!; [exact (mod_conn_lookup i (with_mss M) s2 cn Hc)| |by destruct Hp]. pose proof (place_mss _ _ _ _ _ _ Hp). destruct He. constructor; try done. cbn. congruence.
Qed.
End run.
