(* ===== verification/UipStream.v ===== *)
(** * Runs of the stack

    Segments and ticks of a connection one after another: the run is a run of the events of Psock.v, the application is given the
    stream of the peer in order and once, and a peer that is silent is given up after a bounded number of ticks. *)
From S2P Require Import Prelude Psock UipSum Uip UipInv UipOut UipEcho UipSend UipTcp UipRun.

(** What happens to a connection: a packet in the buffer with the length from the driver, or a tick. *)
Inductive stimulus :=
| Segment (packet : mem) (len : Z)
| Tick (forced : bool).

(** The events that give data, one after another, take it from the places [q] of the peer's stream that the stack waits for. *)
Fixpoint in_order (place : Z → mem → Prop) (rcv0 : Z) (rcvd : mem) (es : list (event * mem)) : Prop :=
  match es with
  | [] => True
  | (e, _) :: es => (event_data e = [] ∨ place (u32 (rcv0 + msize rcvd)) (event_data e)) ∧ in_order place rcv0 (rcvd ++ event_data e) es
  end.

(** The data [d] is in the stream of the peer at a place with the number [q]. *)
Definition from_peer (peer : mem) (rcv0 : Z) (q : Z) (d : mem) : Prop :=
  ∃ p, q = u32 (rcv0 + Z.of_nat p) ∧ d = take (length d) (drop p peer) ∧ (p + length d <= length peer)%nat.

Lemma u32_place rcv0 a b : 0 <= a < 4294967296 → 0 <= b < 4294967296 → u32 (rcv0 + a) = u32 (rcv0 + b) → a = b.
Proof. unfold u32. intros Ha Hb H. Z.div_mod_to_equations. lia. Qed.

Lemma in_order_prefix peer rcv0 rcvd es : msize peer < 4294967296 → rcvd `prefix_of` peer → in_order (from_peer peer rcv0) rcv0 rcvd es →
  rcvd ++ concat (event_data <$> es.*1) `prefix_of` peer.
Proof.
  intros Hp. revert rcvd. induction es as [|[e b] es IH]; intros rcvd Hr H; cbn [fmap list_fmap concat fst in_order] in *; [by rewrite app_nil_r|].
  destruct H as [Hd H]. rewrite app_assoc. apply IH; [|done]. destruct Hd as [-> | (p & Hq & Hd & Hl)]; [by rewrite app_nil_r|]. destruct Hr as [rest ->].
  unfold msize in *. rewrite length_app in *. apply u32_place in Hq; [|lia..]. assert (p = length rcvd) as -> by lia. rewrite drop_app_length in Hd.
  exists (drop (length (event_data e)) rest). rewrite <- app_assoc. f_equal. by rewrite (front_of _ _ Hd).
Qed.

Section stream.
Context {conf : UipConf} {sizes : UipSizes conf} {W : Type} (app : W → uip → option (W * uip)) `{!UAppOk app}.
Context (UIP_UDP_APPCALL : stack W → option (stack W)) `{!AppOk UIP_UDP_APPCALL}.
Abbreviation St := (stack W).
Context (fuel i : nat).

Definition receive (packet : mem) (len : Z) (s : St) : St := set_len len (set_buf packet s).

Definition react (st : stimulus) (s : St) : option St :=
  match st with
  | Segment p n => uip_input (appcall app) UIP_UDP_APPCALL fuel (receive p n s)
  | Tick forced => uip_periodic (appcall app) UIP_UDP_APPCALL fuel i (set_forced_poll forced s)
  end.

Definition is_established (s : St) : bool := match s_conns s !! i with Some cn => tcpstateflags cn =? UIP_ESTABLISHED | None => false end.

(** While the connection is established. *)
Fixpoint run (sts : list stimulus) (s : St) : option St :=
  match sts with
  | [] => Some s
  | st :: sts => if is_established s then s' ← react st s; run sts s' else Some s
  end.

(** A segment for the connection, with a window that does not limit the segments, whose data has its [place]. *)
Definition stimulus_ok (place : Z → mem → Prop) (M : Z) (s : St) (st : stimulus) : Prop :=
  match st with
  | Segment p n => let t := receive p n s in buf_ok t ∧ word_ok n ∧ window_wide M t ∧ ∃ d, arrives i d t ∧ place (be32 (get32 t f_seqno)) d
  | Tick _ => True
  end.

Fixpoint run_ok (place : Z → mem → Prop) (M : Z) (sts : list stimulus) (s : St) : Prop :=
  match sts with
  | [] => True
  | st :: sts => is_established s = true → stimulus_ok place M s st ∧ ∀ s', react st s = Some s' → run_ok place M sts s'
  end.

(** Where a run ends: the connection as the events say, or closed: by the application, or because the peer was silent. *)
Definition run_end (snd0 rcv0 M : Z) (rcvd : mem) (s : St) (x : W * conn) : Prop :=
  live i snd0 rcv0 M rcvd s x ∨ is_established s = false.

Lemma live_established snd0 rcv0 M rcvd (s : St) x : live i snd0 rcv0 M rcvd s x → is_established s = true.
Proof. intros [_ _ (cn & Hc & He & _)]. unfold is_established. rewrite Hc, (est_state _ _ He). done. Qed.

Lemma run_closed sts (s : St) : is_established s = false → run sts s = Some s.
Proof. intros H. destruct sts; [done|]. cbn [run]. by rewrite H. Qed.

Lemma react_events place snd0 rcv0 M rcvd (s : St) x st : live i snd0 rcv0 M rcvd s x → stimulus_ok place M s st →
  no_event i snd0 rcv0 M rcvd x (react st s) ∨ times_out app i x.1 (react st s) ∨
  ∃ e, one_event app i snd0 rcv0 M rcvd x e (react st s) ∧ (event_data e = [] ∨ place (u32 (rcv0 + msize rcvd)) (event_data e)).
Proof.
  intros Hl Hok. destruct st as [p n|forced]; cbn [react].
  - destruct Hok as (Hb & Hn & Hw & d & Ha & Hpl). pose proof Hl as [Hs Happ (cn & Hc & He & Hp)]. set (t := receive p n s) in *.
    assert (live i snd0 rcv0 M rcvd t x) as Ht.
    { constructor; [|done|by exists cn]. destruct Hs. unfold t, receive. by constructor. }
    pose proof (segment_event app UIP_UDP_APPCALL fuel i snd0 rcv0 M rcvd cn t x d Ht Ha Hw Hc) as H. cbv zeta in H. unfold segment_event_of in H.
    destruct (Z.ltb_spec 0 (msize d)) as [Hd|Hd]; cbn [andb] in H.
    + destruct (bool_decide (get32 t f_seqno = Uip.rcv_nxt cn)) eqn:Hq; cbn [negb] in H; [|left; by eapply ignored_no_event]. rewrite orb_true_r in H. right. right. eexists. split; [exact H|]. right.
      rewrite event_of_data. apply bool_decide_eq_true_1 in Hq. rewrite Hq, (place_rcv _ _ _ _ _ _ Hp) in Hpl. done.
    + destruct (acked cn t); cbn [orb] in H; [|left; by eapply ignored_no_event]. right. right. eexists. split; [exact H|]. left. rewrite event_of_data. destruct d; [done|]. unfold msize in Hd. cbn in Hd. lia.
  - destruct (timer_event app UIP_UDP_APPCALL fuel i snd0 rcv0 M rcvd forced s x Hl) as [H|[H|[H|H]]]; [by left|right; right..|right; left; done]; eexists; (split; [exact H|by left]).
Qed.

(** The application has an answer when it is told that the peer is silent. *)
Definition hears_timeout : Prop := ∀ w u, uip_flags u = UIP_TIMEDOUT → is_Some (app w u).

Lemma run_events place snd0 rcv0 M sts (s : St) x rcvd : hears_timeout → live i snd0 rcv0 M rcvd s x → run_ok place M sts s →
  ∃ es, in_order place rcv0 rcvd es ∧
  match tcp_run app M x es with
  | None => run sts s = None
  | Some x' => ∃ s', run sts s = Some s' ∧ run_end snd0 rcv0 M (rcvd ++ concat (event_data <$> es.*1)) s' x'
  end.
Proof.
  intros Hto. revert s x rcvd. induction sts as [|st sts IH]; intros s x rcvd Hl Hok.
  { exists []. split; [done|]. cbn. exists s. split; [done|]. left. by rewrite app_nil_r. }
  cbn [run run_ok] in *. rewrite (live_established _ _ _ _ _ _ Hl) in Hok |- *. destruct (Hok eq_refl) as [Hst Hok'].
  destruct (react_events place snd0 rcv0 M rcvd s x st Hl Hst) as [(s1 & E & Hl1 & _)|[(u & Hu & Ht)|(e & (Hen & b & H) & Hpl)]].
  - rewrite E. cbn [mbind option_bind]. by apply IH, Hok'.
  - exists []. split; [done|]. cbn. destruct (Hto x.1 u Hu) as [y Ey]. rewrite Ey in Ht. destruct Ht as (s1 & cn & E & Hc & Hs).
    assert (is_established s1 = false) as Hf by (unfold is_established; by rewrite Hc, Hs). exists s1. rewrite E. cbn [mbind option_bind]. rewrite run_closed by done. split; [done|by right].
  - assert (tcp_step app M x (e, b) = tcp_call app M x (e, b)) as Estep by (unfold tcp_step; cbn [fst]; by rewrite Hen).
    destruct (tcp_call app M x (e, b)) as [x'|] eqn:Ec.
    + destruct H as (s1 & E & Hs1 & _ & _ & H). rewrite E. cbn [mbind option_bind]. destruct (fin x'.2) eqn:Hf.
      * destruct H as (cn & Hc & Hne). exists [(e, b)]. split; [by split|]. cbn [tcp_run]. rewrite Estep. cbn [mbind option_bind]. 
        assert (is_established s1 = false) as Hf1 by (unfold is_established; rewrite Hc; by apply Z.eqb_neq). exists s1. rewrite run_closed by done. split; [done|by right].
      * destruct (IH s1 x' _ H (Hok' s1 E)) as (es & Hio & Hes). exists ((e, b) :: es). split; [by split|]. cbn [tcp_run]. rewrite Estep. cbn [mbind option_bind].
        cbn [fmap list_fmap concat fst]. by rewrite app_assoc.
    + exists [(e, b)]. split; [by split|]. cbn [tcp_run]. rewrite Estep. cbn [mbind option_bind]. by rewrite H.
Qed.

(** A connection in the stack is the connection of Psock.v: whatever segments arrive for it, with any sequence and acknowledgment numbers
    and any data, and whenever its timer ticks, there are events for which the application makes the same calls; while the connection is
    open the data in flight and delivered is that of the events, and all numbers are those of the bytes delivered and received. *)
Theorem connection_refines snd0 rcv0 M sts (s : St) x rcvd : hears_timeout → live i snd0 rcv0 M rcvd s x → run_ok (λ _ _, True) M sts s →
  ∃ es, match tcp_run app M x es with
        | None => run sts s = None
        | Some x' => ∃ s', run sts s = Some s' ∧ run_end snd0 rcv0 M (rcvd ++ concat (event_data <$> es.*1)) s' x'
        end.
Proof. intros Hto Hl Hok. destruct (run_events _ snd0 rcv0 M sts s x rcvd Hto Hl Hok) as (es & _ & H). by exists es. Qed.

(** C4: the application is given the stream of the peer in order, without gaps and without repetition, though segments may be lost, repeated,
    split otherwise and arrive in any order: the data of all events is a prefix of the stream, when it is shorter than 4 GB. *)
Theorem stream_in_order snd0 rcv0 M sts (s : St) x rcvd peer : hears_timeout → live i snd0 rcv0 M rcvd s x → msize peer < 4294967296 → rcvd `prefix_of` peer →
  run_ok (from_peer peer rcv0) M sts s →
  ∃ es, rcvd ++ concat (event_data <$> es.*1) `prefix_of` peer ∧
    match tcp_run app M x es with
    | None => run sts s = None
    | Some x' => ∃ s', run sts s = Some s' ∧ run_end snd0 rcv0 M (rcvd ++ concat (event_data <$> es.*1)) s' x'
    end.
Proof.
  intros Hto Hl Hp Hr Hok. destruct (run_events _ snd0 rcv0 M sts s x rcvd Hto Hl Hok) as (es & Hio & H). exists es. split; [|done]. by eapply in_order_prefix.
Qed.

(** C3: a segment for an established connection, without options and without the flags SYN, FIN, RST and URG, whose window does not limit the
    segments, is the event that its numbers say.  Data that is not the next is answered with an acknowledgment of what was received, and the
    application is not called; the acknowledgment of all that is in flight delivers it; any other acknowledgment is ignored, and
    without data nothing is sent.  After a call the stack sends nothing or a valid segment with the data in flight; for new data it
    sends one, unless the application takes the flag of new data back; all numbers are those of the bytes. *)
Theorem segment_refines snd0 rcv0 M rcvd cn (s : St) x d : live i snd0 rcv0 M rcvd s x → arrives i d s → window_wide M s → s_conns s !! i = Some cn →
  let r := uip_input (appcall app) UIP_UDP_APPCALL fuel s in
  match segment_event_of cn s d with None => ignored i snd0 rcv0 M rcvd x d r | Some e => one_event app i snd0 rcv0 M rcvd x e r end.
Proof. intros Hl Ha Hw Hc. by apply segment_event. Qed.

(** ** The silent peer *)

(** The ticks of the [k] retransmissions that are left. *)
Fixpoint resend_ticks (k : nat) : Z :=
  match k with
  | O => 0
  | S k' => let n := UIP_MAXRTX - Z.of_nat k in Z.shiftl UIP_RTO (if 4 <? n then 4 else n) + 1 + resend_ticks k'
  end.

(** The ticks until the connection is given up. *)
Definition ticks_left (cn : Uip.uip_conn) : Z := timer cn + 1 + resend_ticks (Z.to_nat (UIP_MAXRTX - nrtx cn)).

Definition unanswered (cn : Uip.uip_conn) : Prop := tcpstateflags cn = UIP_ESTABLISHED ∧ c_len cn ≠ 0 ∧ byte_ok (timer cn) ∧ 0 <= nrtx cn <= UIP_MAXRTX.

Lemma apprexmit_vars k cn (s : St) : stack_ok s → s_conns s !! k = Some cn → c_len cn ≠ 0 → ∃ s', apprexmit k s = Some s' ∧ vars s' = vars s.
Proof.
  intros Hs Hc Hl. pose proof (cok_len _ (ok_conn _ _ _ Hs Hc)) as Hn.
  destruct (apprexmit_answer k cn (Conn (if 0 <? s_slen s then Some (take (Z.to_nat (c_len cn)) (body s)) else None) [] false) s Hs Hc) as (s' & E & _ & Hv); [lia| |lia|by exists s'].
  cbn [inflight]. by destruct (0 <? s_slen s).
Qed.

(** The states [fit] of the application in which it has an answer when it is asked to send again and when it is told that the peer is silent. *)
Definition answers_silence (fit : W → Prop) : Prop := ∀ w u, fit w → uip_flags u = UIP_REXMIT ∨ uip_flags u = UIP_TIMEDOUT → msize (uip_appdata u) = UIP_BUFSIZE - 52 →
  ∃ w' u', app w u = Some (w', u') ∧ fit w'.

Context (fit : W → Prop) (Hfit : answers_silence fit).

Lemma silent_tick cn (s : St) : stack_ok s → s_conns s !! i = Some cn → unanswered cn → fit (s_app s) →
  ∃ s', react (Tick false) s = Some s' ∧ stack_ok s' ∧ fit (s_app s') ∧
    (is_established s' = false ∨ ∃ cn', s_conns s' !! i = Some cn' ∧ unanswered cn' ∧ ticks_left cn' = ticks_left cn - 1).
Proof.
  intros Hs Hc (Hst & Hl & Ht & Hn) Hi. cbn [react]. unfold uip_periodic, uip_process. cbn [UIP_TIMER UIP_UDP_SEND_CONN UIP_POLL_REQUEST Z.eqb Pos.eqb]. cbv zeta.
  set (s0 := set_appdata _ _). change (s_conn s0) with (Some i). cbn [mbind option_bind]. unfold uip_timer. cbv zeta. set (s1 := set_slen 0 _).
  assert (ready i cn (s_app s) s1) as Hr.
  { constructor; try done. unfold s1, s0. stk. apply incr32_spec, (sok_iss _ Hs). }
  rewrite (ready_conn _ _ _ _ Hr). cbn [mbind option_bind]. rewrite Hst. change (s_forced_poll s1) with false.
  cbn [UIP_ESTABLISHED UIP_TIME_WAIT UIP_FIN_WAIT_2 UIP_CLOSED UIP_RESERVED Z.eqb Pos.eqb orb negb andb]. rewrite (proj2 (Z.eqb_neq _ _) Hl). cbn [negb andb].
  unfold outstanding_timer. rewrite (ready_conn _ _ _ _ Hr). cbn [mbind option_bind]. cbv zeta. set (t := u8 (timer cn - 1)).
  assert (ready i (with_timer t cn) (s_app s) (mod_conn i (with_timer t) s1)) as Hr2 by (apply ready_mod; [intros c; apply cok_with_timer|done]).
  set (s2 := mod_conn i (with_timer t) s1) in *. unfold byte_ok, UIP_MAXRTX in *. destruct (Z.eqb_spec (timer cn) 0) as [Hz|Hz]; [destruct (timed_out cn) eqn:Hto|].
  - set (f := with_tcpstateflags UIP_CLOSED). set (s4 := set_flags UIP_TIMEDOUT _).
    assert (ready i (f (with_timer t cn)) (s_app s) s4) as [R1 R2 R3 R4 R5 R6] by (apply ready_flags, (ready_mod _ _ _ f); [intros c; apply cok_with_state|done]).
    pose proof (called app s4 i _ R1 R2 R3 R4 R5) as H. destruct (Hfit (s_app s4) (app_view s4 (f (with_timer t cn)))) as (w & u & Ea & Hw); [exact Hi|by right|exact (body_size s4 (sok_buf _ R1))|].
    rewrite Ea in H. destruct H as (s3 & -> & Ew & _ & Hs3 & Ec & _). cbn [mbind option_bind].
    destruct (tcp_send_flags_total i (f (with_timer t cn)) (Z.lor TCP_RST TCP_ACK) s3) as (s5 & E5 & _ & Hv); [done|by rewrite Ec|done|].
    exists s5. split_and!; [exact E5|eapply keeps_tcp_send_nodata; [|exact E5]; stk|apply vars_app in Hv; by rewrite Hv, Ew|]. left. unfold is_established. apply vars_conns in Hv. by rewrite Hv, Ec, R3.
  - set (f := λ c, with_nrtx (u8 (nrtx c + 1)) (with_timer (u8 (Z.shiftl UIP_RTO (if 4 <? nrtx c then 4 else nrtx c))) c)).
    assert (ready i (f (with_timer t cn)) (s_app s) (mod_conn i f s2)) as Hr3 by (apply ready_mod; [intros c Hc0; unfold f; cok|done]).
    unfold retransmit. rewrite (ready_conn _ _ _ _ Hr3). cbn [mbind option_bind]. cbv zeta. change (tcpstateflags (f (with_timer t cn))) with (tcpstateflags cn). rewrite Hst.
    change (Z.land UIP_ESTABLISHED UIP_TS_MASK) with UIP_ESTABLISHED. cbn [UIP_ESTABLISHED UIP_SYN_RCVD UIP_SYN_SENT Z.eqb Pos.eqb].
    apply (ready_flags _ _ _ UIP_REXMIT) in Hr3. destruct Hr3 as [R1 R2 R3 R4 R5 R6]. set (s4 := set_flags UIP_REXMIT _) in *.
    pose proof (called app s4 i _ R1 R2 R3 R4 R5) as H. destruct (Hfit (s_app s4) (app_view s4 (f (with_timer t cn)))) as (w & u & Ea & Hw); [exact Hi|by left|exact (body_size s4 (sok_buf _ R1))|].
    rewrite Ea in H. destruct H as (s3 & -> & Ew & _ & Hs3 & Ec & _). cbn [mbind option_bind].
    destruct (apprexmit_vars i (f (with_timer t cn)) s3) as (s5 & E5 & Hv); [done|by rewrite Ec|done|]. exists s5. split_and!; [exact E5|by eapply keeps_apprexmit|apply vars_app in Hv; by rewrite Hv, Ew|]. right.
    exists (f (with_timer t cn)). split; [apply vars_conns in Hv; by rewrite Hv, Ec|]. unfold timed_out, UIP_MAXRTX in Hto. apply orb_false_iff in Hto as [Hto%Z.eqb_neq _].
    assert (∃ k, Z.to_nat (8 - nrtx cn) = S k ∧ Z.of_nat k = 7 - nrtx cn) as (k & Ek & Ek') by (exists (Z.to_nat (7 - nrtx cn)); lia).
    unfold unanswered, ticks_left, f. cbn [tcpstateflags c_len timer nrtx with_nrtx with_timer]. unfold byte_ok, UIP_MAXRTX. rewrite (u8_id (nrtx cn + 1)) by lia.
    assert (0 <= Z.shiftl UIP_RTO (if 4 <? nrtx cn then 4 else nrtx cn) < 256) as Hsh.
    { assert (nrtx cn = 0 ∨ nrtx cn = 1 ∨ nrtx cn = 2 ∨ nrtx cn = 3 ∨ nrtx cn = 4 ∨ 4 < nrtx cn) as Hcs by lia. destruct Hcs as [->|[->|[->|[->|[->|H]]]]]; try done. by rewrite (proj2 (Z.ltb_lt _ _) H). }
    rewrite u8_id by done. split_and!; [done|done|lia..|]. rewrite Ek, Hz. cbn [resend_ticks]. unfold UIP_MAXRTX. replace (8 - Z.of_nat (S k)) with (nrtx cn) by lia.
    replace (Z.to_nat (8 - (nrtx cn + 1))) with k by lia. lia.
  - eexists. split; [reflexivity|]. split; [apply ok_set_flags, ok_set_len; [by apply word_const|apply Hr2]|]. split; [exact Hi|]. right. exists (with_timer t cn). split; [apply Hr2|].
    unfold unanswered, ticks_left. cbn [tcpstateflags c_len timer nrtx with_timer]. assert (t = timer cn - 1) as -> by (apply u8_id; lia). unfold byte_ok, UIP_MAXRTX. split_and!; try done; lia.
Qed.

Lemma ticks_left_pos cn : unanswered cn → 0 < ticks_left cn.
Proof.
  intros (_ & _ & Ht & _). unfold ticks_left, byte_ok in *. assert (∀ k, 0 <= resend_ticks k) as H; [|specialize (H (Z.to_nat (UIP_MAXRTX - nrtx cn))); lia].
  induction k as [|k IH]; [done|]. cbn [resend_ticks]. set (n := UIP_MAXRTX - Z.of_nat (S k)). assert (0 <= Z.shiftl UIP_RTO (if 4 <? n then 4 else n)) by (apply Z.shiftl_nonneg; done). lia.
Qed.

(** C8: a connection whose peer is silent is closed: after the ticks that the eight retransmissions take, at most 255 + 1 + 245, it is not
    established any more, when the application has an answer whenever it is asked to send again and when it is told of the silence. *)
Theorem silent_peer_closed cn (s : St) n : stack_ok s → s_conns s !! i = Some cn → unanswered cn → fit (s_app s) → ticks_left cn <= Z.of_nat n →
  ∃ s', run (replicate n (Tick false)) s = Some s' ∧ is_established s' = false.
Proof.
  revert cn s. induction n as [|n IH]; intros cn s Hs Hc Hu Hi Hn; [pose proof (ticks_left_pos cn Hu); lia|]. cbn [replicate run].
  assert (is_established s = true) as -> by (unfold is_established; rewrite Hc; destruct Hu as [-> _]; done).
  destruct (silent_tick cn s Hs Hc Hu Hi) as (s1 & E & Hs1 & Hi1 & [H|(cn' & Hc' & Hu' & Ht)]).
  - rewrite E. cbn [mbind option_bind]. exists s1. by rewrite run_closed.
  - rewrite E. cbn [mbind option_bind]. apply (IH cn'); [done..|lia].
Qed.
End stream.
