(* ===== verification/UipDemo.v ===== *)
(** * Examples of the stack

    A stack of a small build with an application that keeps what it receives and answers each piece with two bytes; the peer's packets are
    made by a second stack.  The theorems of the stack are applied to it. *)
From S2P Require Import Prelude Psock UipSum Uip UipInv UipOut UipEcho UipSend UipTotal UipTcp UipRun UipStream UipArp.

#[local] Instance demo_uip_conf : UipConf := {| uip_little := true; UIP_BUFSIZE := 120; UIP_CONNS := 2; UIP_LISTENPORTS := 2; UIP_UDP_CONNS := 1 |}.
#[local] Instance demo_uip_sizes : UipSizes demo_uip_conf.
Proof. constructor. cbn. lia. Qed.

(** What is new is kept and answered, and answered again when the answer is lost. *)
Definition demo_app (w : mem) (u : uip) : option (mem * uip) :=
  let w := if uip_newdata u then w ++ take (Z.to_nat (uip_len u)) (uip_appdata u) else w in
  if uip_newdata u || uip_rexmit u then
    m ← mwrite (uip_appdata u) 0 [111; 107];
    Some (w, Uip (uip_flags u) (uip_mss u) m (uip_len u) 2)
  else Some (w, u).

Lemma demo_app_ok : UAppOk demo_app.
Proof.
  constructor. intros w u w' u' H Hb Hs. unfold demo_app in H. destruct (_ || _).
  - apply bind_Some in H as (m & Hm & H). injection H as <- <-. cbn. split_and!; [by apply mwrite_msize in Hm| |done|done|lia|lia].
    apply mwrite_prefix in Hm. subst m. apply Forall_app. split; [repeat constructor; unfold byte_ok; lia|by apply Forall_drop].
  - injection H as <- <-. done.
Qed.
#[local] Existing Instance demo_app_ok.

Definition demo_udp (s : stack mem) : option (stack mem) := Some s.

Lemma demo_udp_ok : AppOk demo_udp.
Proof.
  constructor. intros s s' [= <-] Hs. destruct (sok_buf _ Hs). constructor; try done; [apply Hs|]. apply Forall_Forall2_diag, Forall_forall.
  intros x _. exists (tcpstateflags x). split; [by destruct x|done].
Qed.
#[local] Existing Instance demo_udp_ok.

(** An application on the stack itself that keeps what comes and sends it back. *)
Definition demo_echo (s : stack mem) : option (stack mem) :=
  if uflag s UIP_NEWDATA then
    d ← mread (s_buf s) (s_appdata s) (s_len s);
    Some (set_app (s_app s ++ d) (set_slen (if UIP_TCP_MSS <? s_len s then UIP_TCP_MSS else s_len s) s))
  else Some s.

Lemma demo_echo_ok : AppOk demo_echo.
Proof.
  constructor. intros s s' E Hs. unfold demo_echo in E. assert (Forall2 same_but_stopped (s_conns s) (s_conns s)) as Hc.
  { apply Forall_Forall2_diag, Forall_forall. intros x _. exists (tcpstateflags x). split; [by destruct x|done]. }
  destruct (sok_buf _ Hs) as [Hb1 Hb2]. pose proof (sok_len _ Hs) as Hl. pose proof (sok_slen _ Hs). unfold word_ok in Hl. destruct (uflag s UIP_NEWDATA).
  - apply bind_Some in E as (d & _ & E). injection E as <-. constructor; try done. cbn [s_slen set_app set_slen]. change UIP_TCP_MSS with 66. change UIP_BUFSIZE with 120. destruct (Z.ltb_spec 66 (s_len s)); lia.
  - injection E as <-. by constructor.
Qed.
#[local] Existing Instance demo_echo_ok.

(** It returns because the data of a call is inside the buffer. *)
Lemma demo_echo_total : TcpTotal demo_echo.
Proof.
  constructor. intros s Hs [_ Hd Hi _]. unfold demo_echo. pose proof (sok_len _ Hs) as Hl. unfold word_ok in Hl. destruct (uflag s UIP_NEWDATA) eqn:E; [|by exists s].
  destruct (mread_is_Some (s_buf s) (s_appdata s) (s_len s)) as [d Ed]; [lia..|by apply Hi|]. rewrite Ed. cbn [mbind option_bind]. by eexists.
Qed.
#[local] Existing Instance demo_echo_total.

Lemma demo_udp_total : UdpTotal demo_udp.
Proof. constructor. intros s Hs [_ _ _ Hl _]. exists s. split_and!; try done. rewrite Hl. destruct (sok_buf _ Hs) as [-> _]. done. Qed.
#[local] Existing Instance demo_udp_total.

Definition demo_host : ipaddr := (192 + 168 * 256, 1 + 10 * 256).
Definition demo_peer : ipaddr := (192 + 168 * 256, 1 + 20 * 256).

(** The connection 0: the stack is to send the number 1000, the peer 4294967295 (which is followed by 0). *)
Definition demo_conn (host : ipaddr) (lp rp : Z) (rcv snd : u8x4) (len : Z) : Uip.uip_conn := UipConn host lp rp rcv snd len 66 66 0 16 3 UIP_ESTABLISHED 3 0.

Definition demo_stack (host : ipaddr) (c : Uip.uip_conn) : stack mem :=
  Stack (replicate 122 0) 54 54 0 0 0 None [c] [HTONS 80; 0] false 0 [] 7 (0, 0, 0, 1) 1024 host (0, 0) (0, 0) [] [].

Definition demo_start : stack mem := demo_stack demo_host (demo_conn demo_peer (HTONS 80) (HTONS 1025) (255, 255, 255, 255) (0, 0, 3, 232) 0).

(** A packet of the peer: sequence number, acknowledgment number, data. *)
Definition demo_segment (seq ack : u8x4) (d : mem) : stimulus :=
  let s := demo_stack demo_peer (demo_conn demo_host (HTONS 1025) (HTONS 80) ack seq 0) in
  let s := put_body (d ++ replicate (68 - length d) 0) (set_len (40 + msize d) s) in
  match tcp_send_noopts 0 (put8 f_flags TCP_ACK s) with Some s => Segment (s_buf s) (s_len s) | None => Tick false end.

(** Bytes, fields and the rest of the hypotheses are checked by evaluation. *)
Definition bytesb (l : mem) : bool := forallb (λ b, (0 <=? b) && (b <? 256)) l.

Lemma bytesb_ok l : bytesb l = true → bytes_ok l.
Proof. intros H. apply Forall_forall. intros b Hb%list_elem_of_In. unfold bytesb in H. rewrite forallb_forall in H. specialize (H b Hb). unfold byte_ok. lia. Qed.

Lemma demo_conn_ok host lp rp rcv snd len : ip_ok host → word_ok lp → word_ok rp → u8x4_ok rcv → u8x4_ok snd → 0 <= len <= 66 → conn_ok (demo_conn host lp rp rcv snd len).
Proof. intros. constructor; try done; cbn; change UIP_TCP_MSS with 66; lia. Qed.

Lemma demo_stack_ok host c : ip_ok host → conn_ok c → stack_ok (demo_stack host c).
Proof.
  intros. constructor; try done; [split; [done|by apply bytesb_ok]|by constructor].
Qed.

Ltac closed := unfold ip_ok, word_ok, u8x4_ok, byte_ok; vm_compute; repeat split; congruence.

Lemma demo_start_ok : stack_ok demo_start.
Proof. apply demo_stack_ok; [closed|]. apply demo_conn_ok; closed. Qed.

Lemma demo_live : live 0 1000 4294967295 66 [] demo_start ([], Conn None [] false).
Proof.
  constructor; [exact demo_start_ok|done|]. eexists. split; [reflexivity|]. split; constructor; done.
Qed.

(** ** One event *)

(** A request of three bytes, and the acknowledgment of the answer with two more, which comes twice. *)
Definition demo_first : stimulus := demo_segment (255, 255, 255, 255) (0, 0, 3, 232) [1; 2; 3].
Definition demo_second : stimulus := demo_segment (0, 0, 0, 2) (0, 0, 3, 234) [4; 5].

Definition demo_peer_stream : mem := [1; 2; 3; 4; 5; 6].

Definition demo_run (sts : list stimulus) : option (stack mem) := run demo_app demo_udp 9 0 sts demo_start.

Example demo_exchange :
  option_map (λ s, (s_app s, c_len <$> s_conns s, Uip.snd_nxt <$> s_conns s, Uip.rcv_nxt <$> s_conns s)) (demo_run [demo_first; Tick false; demo_second; demo_second])
  = Some ([1; 2; 3; 4; 5], [2], [(0, 0, 3, 234)], [(0, 0, 0, 4)]).
Proof. vm_compute. reflexivity. Qed.

Lemma demo_hears : hears_timeout demo_app.
Proof. intros w u Hu. unfold demo_app, uip_newdata, uip_rexmit, uip_flag. rewrite Hu. cbn. by eexists. Qed.

(** A segment of the peer as the hypotheses of the theorems want it. *)
Definition arrivesb (d : mem) (s : stack mem) : bool :=
  (get8 s f_vhl =? 69) && (len_field s =? 40 + msize d) && (len_field s <=? s_len s) && (Z.land (get8 s f_ipoffset) 63 =? 0) && (get8 s (f_ipoffset + 1) =? 0) &&
  bool_decide (get_ip s f_destipaddr = s_hostaddr s) && (uip_ipchksum s =? 65535) && (get8 s f_proto =? UIP_PROTO_TCP) && bool_decide (uip_tcpchksum s = Some 65535) &&
  bool_decide (find_conn s (s_conns s) 0 = Some 0%nat) && (Z.land (get8 s f_flags) 39 =? 0) && (Z.shiftr (get8 s f_tcpoffset) 4 =? 5) && bool_decide (d = take (length d) (body s)).

Lemma arrivesb_ok d s : arrivesb d s = true → arrives 0 d s.
Proof.
  unfold arrivesb. rewrite !andb_true_iff, !Z.eqb_eq, Z.leb_le. intros H. repeat match type of H with _ ∧ _ => destruct H as [H ?] end.
  repeat match goal with H : bool_decide _ = true |- _ => apply bool_decide_eq_true_1 in H end. by constructor.
Qed.

(** The first segment is new; the second, when the first was lost, is not the next, and is answered with the number that is waited for. *)
Theorem segment_refines_witness :
  let cn := demo_conn demo_peer (HTONS 80) (HTONS 1025) (255, 255, 255, 255) (0, 0, 3, 232) 0 in
  let s := receive (match demo_first with Segment p _ => p | _ => [] end) 43 demo_start in
  let s2 := receive (match demo_second with Segment p _ => p | _ => [] end) 42 demo_start in
  (segment_event_of cn s [1; 2; 3] = Some (New [1; 2; 3]) ∧
   one_event demo_app 0 1000 4294967295 66 [] ([], Conn None [] false) (New [1; 2; 3]) (Uip.uip_input (appcall demo_app) demo_udp 9 s)) ∧
  (segment_event_of cn s2 [4; 5] = None ∧
   ignored 0 1000 4294967295 66 [] ([], Conn None [] false) [4; 5] (Uip.uip_input (appcall demo_app) demo_udp 9 s2)).
Proof.
  intros cn s s2. assert (arrives 0 [1; 2; 3] s ∧ arrives 0 [4; 5] s2) as [Ha Ha2] by (split; apply arrivesb_ok; vm_compute; reflexivity).
  assert (live 0 1000 4294967295 66 [] s ([], Conn None [] false) ∧ live 0 1000 4294967295 66 [] s2 ([], Conn None [] false)) as [Hl Hl2].
  { split; (constructor; [|done|]; [|eexists; split; [reflexivity|]; split; constructor; done]); destruct demo_start_ok; constructor; try done; (split; [done|]); apply bytesb_ok; vm_compute; reflexivity. }
  split; (split; [vm_compute; reflexivity|]).
  - apply (segment_refines demo_app demo_udp 9 0 1000 4294967295 66 [] cn s ([], Conn None [] false) [1; 2; 3] Hl Ha); [right; vm_compute; congruence|reflexivity].
  - apply (segment_refines demo_app demo_udp 9 0 1000 4294967295 66 [] cn s2 ([], Conn None [] false) [4; 5] Hl2 Ha2); [right; vm_compute; congruence|reflexivity].
Defined.

(** Both segments have their places in the stream of the peer, and the second one when it comes again. *)
Lemma demo_run_ok : run_ok demo_app demo_udp 9 0 (from_peer demo_peer_stream 4294967295) 66 [demo_first; Tick false; demo_second; demo_second] demo_start.
Proof.
  assert (∀ (s : stack mem) st d k, match st with
     | Segment p n => let t := receive p n s in (msize (s_buf t) =? 122) && bytesb (s_buf t) && (0 <=? n) && (n <? 65536) && (66 <=? Z.shiftl (get8 t f_wnd) 8 + get8 t (f_wnd + 1)) && arrivesb d t &&
         (be32 (get32 t f_seqno) =? u32 (4294967295 + Z.of_nat k)) && bool_decide (d = take (length d) (drop k demo_peer_stream)) && (k + length d <=? length demo_peer_stream)%nat
     | Tick _ => true end = true → stimulus_ok 0 (from_peer demo_peer_stream 4294967295) 66 s st) as Hok.
  { intros s [p n|f] d k H; [|done]. cbv zeta in H. rewrite !andb_true_iff, !Z.eqb_eq, !Z.leb_le, Z.ltb_lt, Nat.leb_le in H. repeat match type of H with _ ∧ _ => destruct H as [H ?] end.
    repeat match goal with H : bool_decide _ = true |- _ => apply bool_decide_eq_true_1 in H end.
    split; [split; [done|by apply bytesb_ok]|]. split; [done|]. split; [by right|]. exists d. split; [by apply arrivesb_ok|]. by exists k. }
  cbn [run_ok]. intros _. split; [apply (Hok _ _ [1; 2; 3] 0%nat); vm_compute; reflexivity|]. intros s1 E1. vm_compute in E1. injection E1 as <-.
  intros _. split; [done|]. intros s2 E2. vm_compute in E2. injection E2 as <-.
  intros _. split; [apply (Hok _ _ [4; 5] 3%nat); vm_compute; reflexivity|]. intros s3 E3. vm_compute in E3. injection E3 as <-.
  intros _. split; [apply (Hok _ _ [4; 5] 3%nat); vm_compute; reflexivity|]. done.
Qed.

Theorem stream_in_order_witness :
  ∃ es, [] ++ concat (event_data <$> es.*1) `prefix_of` demo_peer_stream ∧
    match tcp_run demo_app 66 ([], Conn None [] false) es with
    | None => run demo_app demo_udp 9 0 [demo_first; Tick false; demo_second; demo_second] demo_start = None
    | Some x' => ∃ s', run demo_app demo_udp 9 0 [demo_first; Tick false; demo_second; demo_second] demo_start = Some s' ∧
        run_end 0 1000 4294967295 66 ([] ++ concat (event_data <$> es.*1)) s' x'
    end.
Proof.
  apply (stream_in_order demo_app demo_udp 9 0 1000 4294967295 66 _ demo_start ([], Conn None [] false) [] demo_peer_stream).
  - exact demo_hears.
  - exact demo_live.
  - vm_compute. reflexivity.
  - apply prefix_nil.
  - exact demo_run_ok.
Defined.

Theorem connection_refines_witness :
  ∃ es, match tcp_run demo_app 66 ([], Conn None [] false) es with
    | None => run demo_app demo_udp 9 0 [Tick true; Tick false] demo_start = None
    | Some x' => ∃ s', run demo_app demo_udp 9 0 [Tick true; Tick false] demo_start = Some s' ∧
        run_end 0 1000 4294967295 66 ([] ++ concat (event_data <$> es.*1)) s' x'
    end.
Proof.
  apply (connection_refines demo_app demo_udp 9 0 1000 4294967295 66 _ demo_start ([], Conn None [] false) []).
  - exact demo_hears.
  - exact demo_live.
  - repeat (cbn [run_ok]; intros _; split; [done|]; intros ? ?). done.
Defined.

(** ** Silence *)

Definition demo_waiting : Uip.uip_conn := demo_conn demo_peer (HTONS 80) (HTONS 1025) (255, 255, 255, 255) (0, 0, 3, 232) 2.

Lemma demo_answers_silence : answers_silence demo_app (λ _, True).
Proof.
  intros w u _ Hu Hs. unfold demo_app. destruct (_ || _); [|by eexists _, _]. destruct (mwrite_is_Some (uip_appdata u) 0 [111; 107]) as [m Em]; [done|by rewrite Hs|]. rewrite Em. by eexists _, _.
Qed.

Theorem silent_peer_closed_witness :
  ticks_left demo_waiting = 249 ∧
  ∃ s', run demo_app demo_udp 9 0 (replicate 249 (Tick false)) (demo_stack demo_host demo_waiting) = Some s' ∧ is_established 0 s' = false.
Proof.
  split; [vm_compute; reflexivity|]. apply (silent_peer_closed demo_app demo_udp 9 0 (λ _, True) demo_answers_silence demo_waiting).
  - apply demo_stack_ok; [closed|]. apply demo_conn_ok; closed.
  - reflexivity.
  - unfold unanswered, byte_ok. vm_compute. repeat split; congruence.
  - done.
  - vm_compute. congruence.
Defined.

(** ** The whole stack *)

(** A SYN with the options [opts] for the port that the stack listens to. *)
Definition demo_syn_with (opts : mem) : stack mem :=
  let s := demo_stack demo_peer (demo_conn demo_host (HTONS 1026) (HTONS 80) (0, 0, 0, 0) (0, 0, 0, 9) 0) in
  let s := put8 f_tcpoffset 96 (put8 f_flags TCP_SYN (set_len 44 (put_body (opts ++ replicate 64 0) s))) in
  let idle := set_conns [with_tcpstateflags UIP_CLOSED demo_waiting] demo_start in
  match tcp_send 0 s with Some s => receive (s_buf s) (s_len s) idle | None => idle end.

(** With a segment size of 256 bytes. *)
Definition demo_syn_mss : stack mem := demo_syn_with [2; 4; 1; 0].

Lemma demo_syn_mss_ok : stack_ok demo_syn_mss.
Proof.
  constructor; [split; [vm_compute; reflexivity|apply bytesb_ok; vm_compute; reflexivity]| |closed|closed|closed|closed|closed].
  repeat constructor; closed.
Qed.

Lemma demo_syn_mss_wf : event_wf 41 UIP_DATA demo_syn_mss.
Proof.
  split; [lia|]. split; [vm_compute; split; congruence|]. split; [|vm_compute; congruence]. intros _. constructor.
  - vm_compute. congruence.
  - vm_compute. congruence.
  - vm_compute. discriminate.
  - intros _. apply (options_other 2 [1; 0] []); [done|done|constructor].
Qed.

(** The stack answers the SYN. *)
Theorem uip_process_keeps_witness :
  ∃ s', uip_process demo_echo demo_udp 41 UIP_DATA demo_syn_mss = Some s' ∧ stack_ok s' ∧ good demo_syn_mss s'.
Proof. apply (uip_process_keeps demo_echo demo_udp 41 UIP_DATA demo_syn_mss demo_syn_mss_ok), demo_syn_mss_wf. Defined.

(** The answer is a packet of 44 bytes. *)
Theorem uip_output_valid_witness :
  ∃ s', uip_process demo_echo demo_udp 41 UIP_DATA demo_syn_mss = Some s' ∧ s_len s' = 44 ∧ (s_len s' = 0 ∨ packet_valid s' ∨ is_input UIP_DATA = true ∧ echo_reply demo_syn_mss s').
Proof.
  destruct (uip_output_valid demo_echo demo_udp 41 UIP_DATA demo_syn_mss demo_syn_mss_ok) as [H1 H2]. destruct (H2 demo_syn_mss_wf) as [s' E]. exists s'. split; [exact E|].
  split; [|exact (H1 s' E)]. assert (s_len <$> uip_process demo_echo demo_udp 41 UIP_DATA demo_syn_mss = Some 44) as Hl by (vm_compute; reflexivity). rewrite E in Hl. by injection Hl.
Defined.

(** ** Two hosts *)

Definition demo_with_eth (l : mem) (s : stack mem) : stack mem := set_ethaddr l (set_netmask (65535, 255) s).

(** A host with a packet for its neighbour 192.168.1.20. *)
Definition demo_asker : stack mem := demo_with_eth [2; 0; 0; 0; 0; 1] (put_ip f_destipaddr demo_peer demo_start).
Definition demo_neighbour : stack mem := demo_with_eth [2; 0; 0; 0; 0; 2] (demo_stack demo_peer (demo_conn demo_host (HTONS 1025) (HTONS 80) (0, 0, 0, 0) (0, 0, 0, 0) 0)).
Definition demo_arp : arp := Arp (replicate 2 (ArpEntry (0, 0) (replicate 6 0) 0)) 5.

Theorem arp_resolves_witness :
  let '(b', answer) := uip_arp_arpin demo_arp (frame_to (uip_arp_out demo_arp demo_asker) demo_neighbour) in
  let '(a', s') := uip_arp_arpin demo_arp (frame_to answer (uip_arp_out demo_arp demo_asker)) in
  get_eth answer f_ethdest = [2; 0; 0; 0; 0; 1] ∧ get_eth (uip_arp_out a' demo_asker) f_ethdest = [2; 0; 0; 0; 0; 2].
Proof.
  assert (stack_ok demo_asker ∧ stack_ok demo_neighbour) as [Hs Ht].
  { split; (constructor; [split; [reflexivity|apply bytesb_ok; vm_compute; reflexivity]| | | | | |]); try closed.
    all: constructor; [|constructor]; apply demo_conn_ok; closed. }
  assert (arp_ok demo_arp) as Ha.
  { split; [vm_compute; lia|]. intros i j e e' Hi Hj [Hg _] _. exfalso. apply Hg. unfold demo_arp in Hi. cbn [arp_table] in Hi. apply lookup_replicate in Hi as [-> _]. reflexivity. }
  assert (∀ b, eth_ok [2; 0; 0; 0; 0; b] ↔ byte_ok b) as He.
  { intros b. unfold eth_ok. split; [intros [_ H]|intros H; split; [done|]; repeat constructor; unfold byte_ok in *; lia]. unfold bytes_ok in H. rewrite !Forall_cons in H. naive_solver. }
  assert (eth_ok (s_ethaddr demo_asker)) as H1 by (apply He; unfold byte_ok; lia). assert (eth_ok (s_ethaddr demo_neighbour)) as H2 by (apply He; unfold byte_ok; lia).
  assert (good_ip (s_hostaddr demo_asker)) as H3 by (unfold good_ip; vm_compute; split; congruence). assert (good_ip (s_hostaddr demo_neighbour)) as H4 by (unfold good_ip; vm_compute; split; congruence).
  assert (s_hostaddr demo_neighbour ≠ broadcast_ipaddr) as H5 by (vm_compute; congruence). assert (get_ip demo_asker f_destipaddr ≠ broadcast_ipaddr) as H6 by (vm_compute; congruence).
  assert (next_hop demo_asker = s_hostaddr demo_neighbour) as H7 by (vm_compute; reflexivity). assert (arp_lookup demo_arp (s_hostaddr demo_neighbour) = None) as H8 by (vm_compute; reflexivity).
  pose proof (arp_resolves demo_arp demo_arp demo_asker demo_neighbour Hs Ht Ha Ha H1 H2 H3 H4 H5 H6 H7 H8) as H. cbv zeta in H.
  destruct (uip_arp_arpin demo_arp (frame_to (uip_arp_out demo_arp demo_asker) demo_neighbour)) as [b' answer]. destruct (uip_arp_arpin demo_arp (frame_to answer _)) as [a' s'].
  destruct H as (_ & Q & _ & _ & _ & _ & _ & R). split; [exact Q|]. apply (R demo_asker (sok_buf _ Hs) eq_refl H6 H7).
Defined.

(** ** Faults *)

(** A SYN whose options are a NOP and an option of length 255. *)
Definition demo_syn : stack mem := demo_syn_with [1; 8; 255; 0].

(** The counter of the options has eight bits: it comes back to the beginning, and the loop does not end. *)
Lemma syn_options_hang fuel : mss_option fuel demo_syn 0 = None ∧ mss_option fuel demo_syn 1 = None.
Proof.
  assert (∀ f, mss_option (S f) demo_syn 0 = mss_option f demo_syn 1 ∧ mss_option (S f) demo_syn 1 = mss_option f demo_syn 0) as H.
  { intros f. split; cbn [mss_option]; cbv zeta.
    - assert ((0 <? Z.shiftl (Z.shiftr (get8 demo_syn f_tcpoffset) 4 - 5) 2) = true) as -> by (vm_compute; reflexivity).
      assert (ld (s_buf demo_syn) (UIP_TCPIP_HLEN + UIP_LLH_LEN + 0 + 0) = Some 1) as -> by (vm_compute; reflexivity). reflexivity.
    - assert ((1 <? Z.shiftl (Z.shiftr (get8 demo_syn f_tcpoffset) 4 - 5) 2) = true) as -> by (vm_compute; reflexivity).
      assert (ld (s_buf demo_syn) (UIP_TCPIP_HLEN + UIP_LLH_LEN + 0 + 1) = Some 8) as -> by (vm_compute; reflexivity).
      assert (ld (s_buf demo_syn) (UIP_TCPIP_HLEN + UIP_LLH_LEN + 1 + 1) = Some 255) as -> by (vm_compute; reflexivity). reflexivity. }
  induction fuel as [|fuel [IH1 IH2]]; [done|]. destruct (H fuel) as [-> ->]. done.
Qed.

Example syn_hangs : uip_input (appcall demo_app) demo_udp 300 demo_syn = None.
Proof. vm_compute. reflexivity. Qed.

(** An echo request of zeros: the reply has no checksum. *)
Definition demo_ping : stack mem :=
  let s := demo_stack demo_peer (demo_conn demo_host 0 0 (0, 0, 0, 0) (0, 0, 0, 0) 0) in
  let s := put8 f_type ICMP_ECHO (put16 f_icmpchksum (HTONS 63487) (put8 f_proto UIP_PROTO_ICMP (put8 (f_len + 1) 28 (set_len 28 s)))) in
  let s := put_ip f_srcipaddr demo_peer (put_ip f_destipaddr demo_host s) in
  match ip_send_nolen s with Some s => receive (s_buf s) 28 demo_start | None => s end.

Example ping_of_zeros :
  icmp_sum demo_ping = 65535 ∧ option_map (λ s, (s_len s, icmp_sum s)) (uip_input (appcall demo_app) demo_udp 9 demo_ping) = Some (28, 0).
Proof. vm_compute. split; reflexivity. Qed.
