(* ===== verification/UipLoop.v ===== *)
(** * The main loops of the stack

    src/elua_uip.c and src/webserver/httpd-uip.c: what the Ethernet interrupt does with the time that has passed and a frame that has come,
    the driver's way of sending, and the configuration at the start.  The application is that of Uip.v; frames are lists of bytes. *)
From S2P Require Import Prelude Psock UipSum Uip UipInv UipOut UipEcho UipArp.

Definition UIP_PERIODIC_TIMER_MS := 500.
Definition UIP_ARP_TIMER_MS := 10000.
Definition IP_TCP_HEADER_LENGTH := 40.
Definition TOTAL_HEADER_LENGTH := IP_TCP_HEADER_LENGTH + UIP_LLH_LEN.

(** The stack, the table of addresses, and the two timers. *)
Record board (A : Type) := Board { b_stack : stack A; b_arp : arp; periodic_timer : Z; arp_timer : Z }.
Arguments Board {A}.
Arguments b_stack {A}.
Arguments b_arp {A}.
Arguments periodic_timer {A}.
Arguments arp_timer {A}.

Section loop.
Context {conf : UipConf} {A : Type} (UIP_APPCALL UIP_UDP_APPCALL : stack A → option (stack A)) (fuel : nat).
Abbreviation St := (stack A).
Abbreviation Bd := (board A).

Definition with_stack (s : St) (b : Bd) : Bd := Board s (b_arp b) (periodic_timer b) (arp_timer b).

(** The two pieces that the driver is given: the headers from the buffer, the data from [uip_appdata]. *)
Definition device_driver_send (s : St) : option mem :=
  if s_len s <=? TOTAL_HEADER_LENGTH then mread (s_buf s) 0 (s_len s)
  else
    h ← mread (s_buf s) 0 TOTAL_HEADER_LENGTH;
    d ← mread (s_buf s) (s_appdata s) (s_len s - TOTAL_HEADER_LENGTH);
    Some (h ++ d).

(** The web server's loop sends the buffer. *)
Definition send_buffer (s : St) : option mem := mread (s_buf s) 0 (s_len s).

Section sending.
Context (send : St → option mem).

Definition send_if_any (b : Bd) : option (list mem) := if 0 <? s_len (b_stack b) then f ← send (b_stack b); Some [f] else Some [].

Definition arp_out_if_any (b : Bd) : Bd := if 0 <? s_len (b_stack b) then with_stack (uip_arp_out (b_arp b) (b_stack b)) b else b.

(** What the stack has left in the buffer goes out with its Ethernet header. *)
Definition send_ip (b : Bd) : option (Bd * list mem) := let b := arp_out_if_any b in out ← send_if_any b; Some (b, out).

(** A frame is in the buffer. *)
Definition receive (rx : mem) (b : Bd) : option (Bd * list mem) :=
  m ← mwrite (s_buf (b_stack b)) 0 rx;
  let s := set_len (u16 (msize rx)) (set_buf m (b_stack b)) in
  if get16 s f_ethtype =? htons UIP_ETHTYPE_IP then
    s ← uip_input UIP_APPCALL UIP_UDP_APPCALL fuel s;
    send_ip (with_stack s b)
  else if get16 s f_ethtype =? htons UIP_ETHTYPE_ARP then
    let '(a, s) := uip_arp_arpin (b_arp b) s in
    let b := Board s a (periodic_timer b) (arp_timer b) in
    out ← send_if_any b;
    Some (b, out)
  else Some (with_stack s b, []).

(** The timers of [n] connections from [i], of TCP and of UDP. *)
Fixpoint tcp_timers (n i : nat) (b : Bd) : option (Bd * list mem) :=
  match n with
  | O => Some (b, [])
  | S n =>
      s ← uip_periodic UIP_APPCALL UIP_UDP_APPCALL fuel i (b_stack b);
      '(b, out) ← send_ip (with_stack s b);
      '(b, outs) ← tcp_timers n (S i) b;
      Some (b, out ++ outs)
  end.

Fixpoint udp_timers (n i : nat) (b : Bd) : option (Bd * list mem) :=
  match n with
  | O => Some (b, [])
  | S n =>
      s ← uip_udp_periodic UIP_APPCALL UIP_UDP_APPCALL fuel i (b_stack b);
      '(b, out) ← send_ip (with_stack s b);
      '(b, outs) ← udp_timers n (S i) b;
      Some (b, out ++ outs)
  end.

Definition all_timers (b : Bd) : option (Bd * list mem) :=
  '(b, out) ← tcp_timers (Z.to_nat UIP_CONNS) 0 b;
  '(b, outs) ← udp_timers (Z.to_nat UIP_UDP_CONNS) 0 b;
  Some (b, out ++ outs).
End sending.

Definition passed (elapsed : Z) (b : Bd) : Bd := Board (b_stack b) (b_arp b) (u32 (periodic_timer b + elapsed)) (u32 (arp_timer b + elapsed)).

Definition check_arp_timer (b : Bd) : Bd :=
  if UIP_ARP_TIMER_MS <=? arp_timer b then Board (b_stack b) (uip_arp_timer (b_arp b)) (periodic_timer b) 0 else b.

(** The timers count only when half a second has passed; else every connection is polled. *)
Definition check_periodic (b : Bd) : Bd :=
  if UIP_PERIODIC_TIMER_MS <=? periodic_timer b then Board (set_forced_poll false (b_stack b)) (b_arp b) 0 (arp_timer b)
  else with_stack (set_forced_poll true (b_stack b)) b.

(** [rx] is the frame that the driver has; none is empty. *)
Definition elua_uip_mainloop (elapsed : Z) (rx : mem) (b : Bd) : option (Bd * list mem) :=
  let b := passed elapsed b in
  '(b, out) ← (if 0 <? msize rx then receive device_driver_send rx b else Some (b, []));
  '(b, outs) ← all_timers device_driver_send (check_periodic b);
  Some (check_arp_timer b, out ++ outs).

Definition httpd_uip_mainloop (elapsed : Z) (rx : mem) (b : Bd) : option (Bd * list mem) :=
  let b := passed elapsed b in
  if 0 <? msize rx then receive send_buffer rx b
  else if UIP_PERIODIC_TIMER_MS <=? periodic_timer b then
    '(b, outs) ← all_timers send_buffer (Board (b_stack b) (b_arp b) 0 (arp_timer b));
    Some (check_arp_timer b, outs)
  else Some (b, []).
End loop.

(** ** The configuration *)

Section configuration.
Context {conf : UipConf} {A : Type} (fuel : nat).
Abbreviation St := (stack A).

Definition uip_udp_remove (i : nat) (s : St) : St :=
  set_udp_conns (alter (λ u, UipUdpConn (u_ripaddr u) 0 (u_rport u) (u_ttl u)) i (s_udp_conns s)) s.

(** The resolver's connection is opened again for another server. *)
Definition resolv_conf (dns : ipaddr) (resolv_conn : option nat) (s : St) : option (St * option nat) :=
  let s := match resolv_conn with Some i => uip_udp_remove i s | None => s end in
  uip_udp_new fuel (Some dns) (HTONS 53) s.

(** The addresses of the build: the board's, the netmask, the router, the name server. *)
Record addresses := Addresses { CONF_IPADDR : ipaddr; CONF_NETMASK : ipaddr; CONF_DEFGW : ipaddr; CONF_DNS : ipaddr }.

Definition elua_uip_conf_static (c : addresses) (resolv_conn : option nat) (s : St) : option (St * option nat) :=
  resolv_conf (CONF_DNS c) resolv_conn (set_draddr (CONF_DEFGW c) (set_netmask (CONF_NETMASK c) (set_hostaddr (CONF_IPADDR c) s))).

(** The start of a build without DHCP, with the port that the console listens on. *)
Definition elua_uip_init (paddr : mem) (c : addresses) (telnet_port : option Z) (s : St) (a : arp) : option (St * arp * option nat) :=
  let s := uip_init (set_ethaddr paddr s) in
  '(s, rc) ← elua_uip_conf_static c None s;
  Some (match telnet_port with Some p => uip_listen (HTONS p) s | None => s end, uip_arp_init a, rc).

Definition http_uip_init (paddr : mem) (c : addresses) (s : St) (a : arp) : option (St * arp * option nat) :=
  elua_uip_init paddr c (Some 80) s a.
End configuration.
