(* ===== verification/UipFrames.v ===== *)
(** * What the board puts on the wire

    The driver sends the headers from the buffer and the data from [uip_appdata]: after every event the two are one piece. Every
    frame that the main loop sends is one that a receiver accepts. *)
From S2P Require Import Prelude Psock UipSum Uip UipInv UipOut UipEcho UipArp UipSend UipTotal UipLoop.

(** An application that does not move the send buffer and does not change the board's addresses. *)
Class AppKeeps {A} (app : stack A → option (stack A)) : Prop := {
  app_keeps_place : ∀ s s', app s = Some s' → s_sappdata s' = s_sappdata s ∧ s_ethaddr s' = s_ethaddr s ∧ s_draddr s' = s_draddr s }.

(** The applications of the library work on a view of the stack. *)
#[export] Instance appcall_keeps {conf : UipConf} {W} (app : W → uip → option (W * uip)) : AppKeeps (appcall app).
Proof.
  constructor. intros s s' E. unfold appcall in E. apply bind_Some in E as (i & _ & E). apply bind_Some in E as (c & _ & E).
  destruct (_ && _); [|done]. apply bind_Some in E as ([w u] & _ & E). injection E as <-. done.
Qed.

(** ** Where the data of a packet is *)

Section place.
Context {conf : UipConf} {A : Type}.
Abbreviation St := (stack A).

(** Only the packet, the flags and the number of the packet have changed. *)
Definition packet_only (s s' : St) : Prop := ∃ b f i, s' = set_ipid i (set_flags f (set_buf b s)).

Lemma po_refl (s : St) : packet_only s s.
Proof. exists (s_buf s), (s_flags s), (s_ipid s). by destruct s. Qed.

Lemma po_put8 s o v (t : St) : packet_only s t → packet_only s (put8 o v t).
Proof. intros (b & f & i & ->). eexists _, f, i. reflexivity. Qed.

Lemma po_put16 s o v (t : St) : packet_only s t → packet_only s (put16 o v t).
Proof. intros H. unfold put16. destruct uip_little; by do 2 apply po_put8. Qed.

Lemma po_put32 s o v (t : St) : packet_only s t → packet_only s (put32 o v t).
Proof. destruct v as [[[a b] c] d]. intros H. unfold put32. by do 4 apply po_put8. Qed.

Lemma po_put_ip s o v (t : St) : packet_only s t → packet_only s (put_ip o v t).
Proof. intros H. unfold put_ip. by do 2 apply po_put16. Qed.

Lemma po_flags s f (t : St) : packet_only s t → packet_only s (set_flags f t).
Proof. intros (b & f' & i & ->). eexists _, f, i. reflexivity. Qed.

Lemma po_ipid s i (t : St) : packet_only s t → packet_only s (set_ipid i t).
Proof. intros (b & f & i' & ->). eexists _, f, i. reflexivity. Qed.

Lemma po_put_bytes s o l : ∀ t : St, packet_only s t → packet_only s (put_bytes o l t).
Proof. revert o. induction l as [|x l IH]; intros o t H; [done|]. cbn [put_bytes]. by apply IH, po_put8. Qed.

Ltac po :=
  repeat first [apply po_put8 | apply po_put_bytes | apply po_put16 | apply po_put32 | apply po_put_ip | apply po_flags | apply po_ipid | apply po_refl].

Lemma po_trans (s t u : St) : packet_only s t → packet_only t u → packet_only s u.
Proof. intros (b & f & i & ->) (b' & f' & i' & ->). eexists _, _, _. reflexivity. Qed.

Lemma po_ip_send_nolen (s s' : St) : ip_send_nolen s = Some s' → packet_only s s'.
Proof. unfold ip_send_nolen, send. cbv zeta. intros [= <-]. po. Qed.

Lemma po_tcp_send_noconn (s s' : St) : tcp_send_noconn s = Some s' → packet_only s s'.
Proof.
  unfold tcp_send_noconn. cbv zeta. intros (x & _ & E)%bind_Some. apply po_ip_send_nolen in E. eapply po_trans; [|exact E]. po.
Qed.

Lemma po_tcp_send i (s s' : St) : tcp_send i s = Some s' → packet_only s s'.
Proof.
  unfold tcp_send. cbv zeta. intros (c & _ & E)%bind_Some. apply po_tcp_send_noconn in E. eapply po_trans; [|exact E].
  destruct (bits _ _); po.
Qed.

Lemma po_tcp_send_noopts i (s s' : St) : tcp_send_noopts i s = Some s' → packet_only s s'.
Proof. unfold tcp_send_noopts. intros E%po_tcp_send. eapply po_trans; [|exact E]. po. Qed.

Lemma po_len v (s t : St) : packet_only s t → packet_only (set_len v s) (set_len v t).
Proof. intros (b & f & i & ->). exists b, f, i. reflexivity. Qed.

Lemma po_fields (s t : St) : packet_only s t →
  s_len t = s_len s ∧ s_appdata t = s_appdata s ∧ s_sappdata t = s_sappdata s ∧ s_ethaddr t = s_ethaddr s ∧ s_draddr t = s_draddr s.
Proof. intros (b & f & i & ->). done. Qed.

Lemma po_shape (s t : St) : packet_only s t → shape t = shape s.
Proof. intros (b & f & i & ->). done. Qed.

(** The addresses, where data is put, and where it is. *)
Context (e : mem) (d : ipaddr).

Definition after (s : St) : Prop := s_sappdata s = TOTAL_HEADER_LENGTH ∧ s_ethaddr s = e ∧ s_draddr s = d.
Definition ready (s : St) : Prop := s_appdata s = TOTAL_HEADER_LENGTH ∧ after s.
Definition placed (s : St) : Prop := (s_len s <= IP_TCP_HEADER_LENGTH ∨ s_appdata s = TOTAL_HEADER_LENGTH) ∧ s_ethaddr s = e ∧ s_draddr s = d.

Lemma po_after (s t : St) : packet_only s t → after s → after t.
Proof. intros (_ & _ & E1 & E2 & E3)%po_fields (H1 & H2 & H3). unfold after. by rewrite E1, E2, E3. Qed.

Lemma po_ready (s t : St) : packet_only s t → ready s → ready t.
Proof. intros H [H1 H2]. split; [|by eapply po_after]. apply po_fields in H as (_ & -> & _). done. Qed.

Lemma po_placed (s t : St) : packet_only s t → placed s → placed t.
Proof. intros (E1 & E2 & _ & E3 & E4)%po_fields (H1 & H2 & H3). unfold placed. by rewrite E1, E2, E3, E4. Qed.

Definition places (pre : St → Prop) (f : St → option St) : Prop := ∀ s s', pre s → f s = Some s' → placed s'.

Lemma placed_short v (s : St) : after s → v <= IP_TCP_HEADER_LENGTH → placed (set_len v s).
Proof. intros (_ & H1 & H2) Hv. split; [by left|done]. Qed.

Lemma placed_ready v (s : St) : ready s → placed (set_len v s).
Proof. intros (H0 & _ & H1 & H2). split; [by right|done]. Qed.

Lemma places_drop : places after drop_packet.
Proof. intros s s' H [= <-]. apply (po_placed (set_len 0 s)); [po|]. by apply placed_short. Qed.

Lemma places_nodata i : places after (tcp_send_nodata i).
Proof. intros s s' H E. unfold tcp_send_nodata in E. apply po_tcp_send_noopts in E. eapply po_placed; [exact E|]. by apply placed_short. Qed.

Lemma places_ack i : places after (tcp_send_ack i).
Proof. intros s s' H E. unfold tcp_send_ack in E. eapply places_nodata; [|exact E]. eapply po_after; [|exact H]. po. Qed.

Lemma places_finack i : places after (tcp_send_finack i).
Proof. intros s s' H E. unfold tcp_send_finack in E. eapply places_nodata; [|exact E]. eapply po_after; [|exact H]. po. Qed.

Lemma places_syn i : places ready (tcp_send_syn i).
Proof.
  intros s s' H E. unfold tcp_send_syn in E. cbv zeta in E. apply po_tcp_send in E. eapply po_placed; [exact E|].
  eapply po_placed; [apply po_put8, po_refl|]. apply placed_ready. eapply po_ready; [|exact H]. po.
Qed.

Lemma places_synack i : places ready (tcp_send_synack i).
Proof. intros s s' H E. unfold tcp_send_synack in E. eapply places_syn; [|exact E]. eapply po_ready; [|exact H]. po. Qed.

Lemma places_reset : places after reset.
Proof.
  intros s s' H E. unfold reset in E. cbv zeta in E. destruct (bits _ _); [by apply (places_drop s)|]. apply po_tcp_send_noconn in E.
  eapply po_placed; [exact E|]. eapply po_placed with (set_len UIP_IPTCPH_LEN (put8 f_flags (Z.lor TCP_RST TCP_ACK) s)); [po|].
  apply placed_short; [|done]. eapply po_after; [|exact H]. po.
Qed.

(** What UDP sends does not depend on the place of the data before. *)
Definition addressed (s : St) : Prop := s_ethaddr s = e ∧ s_draddr s = d.

Lemma drop_addressed : places addressed drop_packet.
Proof. intros s s' [He Hd] [= <-]. split; [by left|done]. Qed.

Lemma places_udp_send : places addressed udp_send.
Proof.
  intros s s' H E. unfold udp_send in E. cbv zeta in E. destruct (s_slen s =? 0); [by apply (drop_addressed s)|].
  apply bind_Some in E as (u & _ & E). apply bind_Some in E as (x & _ & E). set (t := put_ip f_destipaddr _ _) in E.
  assert (packet_only (set_len (u16 (s_slen s + UIP_IPUDPH_LEN)) s) t) as Ht by (unfold t; po). clearbody t.
  apply po_ip_send_nolen in E. eapply po_placed; [exact E|].
  assert (placed (set_appdata (UIP_LLH_LEN + UIP_IPTCPH_LEN) t)) as Hp.
  { apply po_fields in Ht as (_ & _ & _ & H2 & H3). destruct H as (He & Hd). split; [by right|]. cbn [s_ethaddr s_draddr set_appdata]. rewrite H2, H3. done. }
  eapply po_placed; [|exact Hp]. destruct (_ =? 0); po.
Qed.

Lemma places_apprexmit i : places after (apprexmit i).
Proof.
  intros s s' H E. unfold apprexmit in E. cbv zeta in E. set (t := set_appdata _ _) in E. assert (ready t) as Ht by (unfold t; split; [apply H|exact H]). clearbody t.
  apply bind_Some in E as (c & _ & E). destruct (_ && _); [|destruct (uflag _ _)].
  - apply po_tcp_send_noopts in E. eapply po_placed; [exact E|]. eapply po_placed; [apply po_put8, po_refl|]. by apply placed_ready.
  - apply po_tcp_send_noopts in E. eapply po_placed; [exact E|]. eapply po_placed; [apply po_put8, po_refl|]. by apply placed_ready.
  - eapply places_drop; [|exact E]. apply Ht.
Qed.

Lemma after_limit_slen i (s s' : St) : after s → limit_slen i s = Some s' → after s'.
Proof.
  intros H E. unfold limit_slen in E. cbv zeta in E. destruct (0 <? s_slen s); [|by injection E as <-]. apply bind_Some in E as (c & _ & E).
  set (t := if uflag s UIP_ACKDATA then _ else _) in E. assert (after t) as Ht by (unfold t; destruct (uflag _ _); exact H). clearbody t.
  destruct (c_len c =? 0); [|injection E as <-; exact Ht]. injection E as <-. destruct (mss c <? s_slen t); exact Ht.
Qed.

Lemma places_appsend i : places after (appsend i).
Proof.
  intros s s' H E. unfold appsend in E. cbv zeta in E. destruct (uflag _ _); [|destruct (uflag _ _)].
  - eapply places_nodata; [|exact E]. eapply po_after; [apply po_put8, po_refl|]. exact H.
  - eapply places_nodata; [|exact E]. eapply po_after; [apply po_put8, po_refl|]. exact H.
  - apply bind_Some in E as (s1 & E1 & E). apply after_limit_slen in E1; [|done]. eapply places_apprexmit; [|exact E]. exact E1.
Qed.

(** ** After the application *)

Context (UIP_APPCALL UIP_UDP_APPCALL : St → option St) `{!AppKeeps UIP_APPCALL, !AppKeeps UIP_UDP_APPCALL}.

Lemma app_after app `{!AppKeeps app} (s s' : St) : after s → app s = Some s' → after s'.
Proof. intros (H1 & H2 & H3) E. apply app_keeps_place in E as (E1 & E2 & E3). unfold after. by rewrite E1, E2, E3. Qed.

(** The application is called, and then a label that places. *)
Lemma places_called app g (s s' : St) `{!AppKeeps app} : after s → places after g → (s1 ← app s; g s1) = Some s' → placed s'.
Proof. intros H Hg (s1 & E1 & E)%bind_Some. eapply Hg; [|exact E]. by eapply app_after. Qed.

Lemma ready_parse_mss fuel i (s s' : St) : ready s → parse_mss fuel i s = Some s' → ready s'.
Proof.
  intros H E. unfold parse_mss in E. destruct (80 <? _); [|by injection E as <-]. apply bind_Some in E as ([m|] & _ & E); injection E as <-; exact H.
Qed.

Lemma places_found_listen fuel : places ready (found_listen fuel).
Proof.
  intros s s' H E. unfold found_listen in E. destruct (unused_conn _ _ _) as [i|]; [|eapply places_drop; [apply H|exact E]]. cbv zeta in E.
  apply bind_Some in E as (s1 & E1 & E). apply ready_parse_mss in E1; [|exact H]. by eapply places_synack.
Qed.

Lemma ready_check_ack i (s s' : St) : ready s → check_ack i s = Some s' → ready s'.
Proof.
  intros H E. unfold check_ack in E. apply bind_Some in E as (c & _ & E). cbv zeta in E. destruct (_ && _); [|by injection E as <-].
  destruct (bool_decide _); injection E as <-; exact H.
Qed.

Lemma places_on_syn_rcvd i : places ready (on_syn_rcvd UIP_APPCALL i).
Proof.
  intros s s' [_ H] E. unfold on_syn_rcvd in E. cbv zeta in E. destruct (uflag _ _); [|by eapply places_drop].
  refine (places_called UIP_APPCALL (appsend i) _ _ _ (places_appsend i) E). destruct (0 <? _); exact H.
Qed.

Lemma places_on_syn_sent fuel i : places ready (on_syn_sent UIP_APPCALL fuel i).
Proof.
  intros s s' H E. unfold on_syn_sent in E. cbv zeta in E. destruct (_ && _).
  - apply bind_Some in E as (s1 & E1 & E). apply ready_parse_mss in E1 as [_ H1]; [|done].
    refine (places_called UIP_APPCALL (appsend i) _ _ _ (places_appsend i) E). exact H1.
  - refine (places_called UIP_APPCALL (λ s, reset (set_state i UIP_CLOSED s)) _ _ _ _ E); [apply H|].
    intros t t' Ht. apply places_reset. exact Ht.
Qed.

Lemma places_on_established i : places ready (on_established UIP_APPCALL i).
Proof.
  intros s s' [_ H] E. unfold on_established in E. apply bind_Some in E as (c & _ & E). cbv zeta in E. destruct (_ && negb _).
  - destruct (negb _); [by eapply places_drop|].
    refine (places_called UIP_APPCALL (λ s, tcp_send_finack i (mod_conn i _ s)) _ _ _ _ E); [destruct (0 <? _); exact H|]. intros t t' Ht. apply places_finack. exact Ht.
  - set (t0 := if bits _ _ then _ else s) in E. assert (after t0) as H0 by (unfold t0; destruct (bits _ _); exact H). clearbody t0.
    set (t1 := if _ && _ then _ else t0) in E. assert (after t1) as H1 by (unfold t1; destruct (_ && _); exact H0). clearbody t1.
    apply bind_Some in E as (t2 & E2 & E). unfold set_mss in E2. apply bind_Some in E2 as (c' & _ & E2). injection E2 as <-.
    destruct (_ || _); [|eapply places_drop; [|exact E]; exact H1]. refine (places_called UIP_APPCALL (appsend i) _ _ _ (places_appsend i) E). exact H1.
Qed.

Lemma places_on_last_ack i : places ready (on_last_ack UIP_APPCALL i).
Proof.
  intros s s' [_ H] E. unfold on_last_ack in E. destruct (uflag _ _); [|by eapply places_drop].
  refine (places_called UIP_APPCALL drop_packet _ _ _ places_drop E). exact H.
Qed.

Lemma places_peer_closes i : places after (peer_closes UIP_APPCALL i).
Proof. intros s s' H E. unfold peer_closes in E. refine (places_called UIP_APPCALL (tcp_send_ack i) _ _ _ (places_ack i) E). exact H. Qed.

Lemma places_on_fin_wait_1 i : places ready (on_fin_wait_1 UIP_APPCALL i).
Proof.
  intros s s' [_ H] E. unfold on_fin_wait_1 in E. cbv zeta in E. set (t := if 0 <? _ then _ else s) in E.
  assert (after t) as Ht by (unfold t; destruct (0 <? _); exact H). clearbody t. destruct (bits _ _); [|destruct (uflag _ _); [|destruct (0 <? _)]].
  - eapply places_peer_closes; [|exact E]. destruct (uflag _ _); exact Ht.
  - eapply places_drop; [|exact E]. exact Ht.
  - by eapply places_ack.
  - by eapply places_drop.
Qed.

Lemma places_on_fin_wait_2 i : places ready (on_fin_wait_2 UIP_APPCALL i).
Proof.
  intros s s' [_ H] E. unfold on_fin_wait_2 in E. cbv zeta in E. set (t := if 0 <? _ then _ else s) in E.
  assert (after t) as Ht by (unfold t; destruct (0 <? _); exact H). clearbody t. destruct (bits _ _); [|destruct (0 <? _)].
  - eapply places_peer_closes; [|exact E]. exact Ht.
  - by eapply places_ack.
  - by eapply places_drop.
Qed.

Lemma places_on_closing i : places ready (on_closing i).
Proof. intros s s' [_ H] E. unfold on_closing in E. destruct (uflag _ _); (eapply places_drop; [|exact E]; exact H). Qed.

Lemma places_by_state fuel i : places ready (by_state UIP_APPCALL fuel i).
Proof.
  intros s s' H E. unfold by_state in E. apply bind_Some in E as (c & _ & E). cbv zeta in E. repeat case_match.
  - by eapply places_on_syn_rcvd.
  - by eapply places_on_syn_sent.
  - by eapply places_on_established.
  - by eapply places_on_last_ack.
  - by eapply places_on_fin_wait_1.
  - by eapply places_on_fin_wait_2.
  - eapply places_ack; [apply H|exact E].
  - by eapply places_on_closing.
  - eapply places_drop; [apply H|exact E].
Qed.

Lemma places_found fuel i : places ready (found UIP_APPCALL fuel i).
Proof.
  intros s s' H E. unfold found in E. cbv zeta in E. destruct (bits _ _).
  - refine (places_called UIP_APPCALL drop_packet _ _ _ places_drop E). apply H.
  - apply bind_Some in E as (c & _ & E). destruct (out_of_order _ _); [eapply places_ack; [|exact E]; apply H|].
    apply bind_Some in E as (s1 & E1 & E). apply ready_check_ack in E1; [|exact H]. by eapply places_by_state.
Qed.

Lemma places_tcp_input fuel : places ready (tcp_input UIP_APPCALL fuel).
Proof.
  intros s s' H E. unfold tcp_input in E. apply bind_Some in E as (x & _ & E). destruct (negb _); [eapply places_drop; [apply H|exact E]|].
  destruct (find_conn _ _ _); [by eapply places_found|]. destruct (negb _); [eapply places_reset; [apply H|exact E]|].
  destruct (bool_decide _); [by eapply places_found_listen|eapply places_reset; [apply H|exact E]].
Qed.

Lemma addressed_app app `{!AppKeeps app} (s s' : St) : addressed s → app s = Some s' → addressed s'.
Proof. intros (H2 & H3) E. apply app_keeps_place in E as (_ & E2 & E3). unfold addressed. by rewrite E2, E3. Qed.

Lemma places_udp_input : places addressed (udp_input UIP_UDP_APPCALL).
Proof.
  intros s s' H E. unfold udp_input in E. cbv zeta in E. apply bind_Some in E as (ok & _ & E). destruct (negb _); [eapply drop_addressed; [|exact E]; exact H|].
  destruct (find_udp _ _ _); [|eapply drop_addressed; [|exact E]; exact H]. apply bind_Some in E as (s1 & E1 & E).
  eapply places_udp_send; [|exact E]. eapply addressed_app; [exact _| |exact E1]. exact H.
Qed.

Lemma places_icmp_input : places ready icmp_input.
Proof.
  intros s s' H E. unfold icmp_input, send in E. cbv zeta in E. destruct (negb _); [eapply places_drop; [apply H|exact E]|]. destruct (negb _); [eapply places_drop; [apply H|exact E]|].
  injection E as <-. set (t := if _ <=? _ then _ else _). assert (packet_only s t) as Ht by (unfold t; destruct (_ <=? _); po). clearbody t.
  assert (placed s) as Hp by (destruct H as (H0 & _ & H1 & H2); split; [by right|done]). eapply po_placed; [|exact Hp].
  eapply po_trans; [exact Ht|]. po.
Qed.

Lemma places_ip_input fuel : places ready (ip_input UIP_APPCALL UIP_UDP_APPCALL fuel).
Proof.
  intros s s' H E. unfold ip_input in E. cbv zeta in E. assert (after s) as Ha by apply H.
  destruct (negb _); [by eapply places_drop|]. destruct (negb _); [by eapply places_drop|].
  set (t := set_len _ s) in E. assert (ready t) as Ht by exact H. clearbody t. assert (after t) as Hta by apply Ht. assert (addressed t) as Htd by apply Hta.
  repeat case_match; first [by eapply places_drop | by eapply places_udp_input | by eapply places_tcp_input | by eapply places_icmp_input].
Qed.

Lemma places_retransmit i : places ready (retransmit UIP_APPCALL i).
Proof.
  intros s s' H E. unfold retransmit in E. apply bind_Some in E as (c & _ & E). cbv zeta in E. assert (after s) as Ha by apply H. repeat case_match.
  - by eapply places_synack.
  - eapply places_syn; [|exact E]. eapply po_ready; [apply po_put8, po_refl|exact H].
  - refine (places_called UIP_APPCALL (apprexmit i) _ _ _ (places_apprexmit i) E). exact Ha.
  - by eapply places_finack.
  - by eapply places_drop.
Qed.

Lemma places_timer i : places ready (uip_timer UIP_APPCALL i).
Proof.
  intros s s' H E. unfold uip_timer in E. cbv zeta in E. apply bind_Some in E as (c & _ & E). set (s0 := set_slen 0 _) in E.
  assert (ready s0) as H0 by exact H. clearbody s0. assert (after s0) as Ha by apply H0. repeat case_match; try (eapply places_drop; [|exact E]; exact Ha).
  - unfold outstanding_timer in E. apply bind_Some in E as (c' & _ & E). cbv zeta in E. destruct (timer c' =? 0); [|eapply places_drop; [|exact E]; exact Ha].
    destruct (timed_out c').
    + refine (places_called UIP_APPCALL (λ s, tcp_send_nodata i (put8 f_flags _ s)) _ _ _ _ E); [exact Ha|].
      intros t t' Ht Et. eapply places_nodata; [|exact Et]. eapply po_after; [apply po_put8, po_refl|exact Ht].
    + eapply places_retransmit; [|exact E]. exact H0.
  - refine (places_called UIP_APPCALL (appsend i) _ _ _ (places_appsend i) E). exact Ha.
Qed.

(** After every event, what is to be sent is in one piece. *)
Lemma places_process fuel flag : places addressed (uip_process UIP_APPCALL UIP_UDP_APPCALL fuel flag).
Proof.
  intros s s' H E. unfold uip_process in E. cbv zeta in E. set (s0 := set_appdata _ _) in E. assert (ready s0) as H0 by (split; [done|split; [done|exact H]]).
  clearbody s0. assert (after s0) as Ha by apply H0. repeat case_match.
  - by apply (places_udp_send s).
  - apply bind_Some in E as (i & _ & E). unfold uip_poll_request in E. apply bind_Some in E as (c & _ & E). destruct (_ && _); [|by eapply places_drop].
    refine (places_called UIP_APPCALL (appsend i) _ _ _ (places_appsend i) E). exact Ha.
  - apply bind_Some in E as (i & _ & E). by eapply places_timer.
  - unfold uip_udp_timer in E. apply bind_Some in E as (u & _ & E). cbv zeta in E. destruct (negb _); [|by eapply places_drop].
    apply bind_Some in E as (s1 & E1 & E). eapply places_udp_send; [|exact E]. eapply addressed_app; [exact _| |exact E1]. apply Ha.
  - by eapply places_ip_input.
Qed.
End place.

(** ** The driver *)

Ltac po :=
  repeat first [apply po_put8 | apply po_put_bytes | apply po_put16 | apply po_put32 | apply po_put_ip | apply po_flags | apply po_ipid | apply po_refl].

Section frames.
Context {conf : UipConf} {sizes : UipSizes conf} {A : Type}.
Abbreviation St := (stack A).
Abbreviation Bd := (board A).

(** The two pieces of the driver are the buffer's content when the data is where the headers end. *)
Lemma driver_sends_buffer (s : St) : s_len s <= TOTAL_HEADER_LENGTH ∨ s_appdata s = TOTAL_HEADER_LENGTH →
  device_driver_send s = mread (s_buf s) 0 (s_len s).
Proof.
  unfold device_driver_send. destruct (Z.leb_spec (s_len s) TOTAL_HEADER_LENGTH); [done|]. intros [?|Ha]; [lia|]. rewrite Ha. unfold TOTAL_HEADER_LENGTH, IP_TCP_HEADER_LENGTH, UIP_LLH_LEN in *.
  destruct (mread (s_buf s) 0 (s_len s)) as [bs|] eqn:E.
  - apply (mread_split _ _ 54) in E as [E1 E2]; [|lia]. rewrite Z.add_0_l in E2. change (40 + 14) with 54. rewrite E1. cbn [mbind option_bind]. rewrite E2. cbn [mbind option_bind].
    by rewrite take_drop.
  - change (40 + 14) with 54. destruct (mread (s_buf s) 0 54) as [h|] eqn:E1; [|done]. cbn [mbind option_bind].
    destruct (mread (s_buf s) 54 (s_len s - 54)) as [x|] eqn:E2; [|done]. exfalso.
    apply mread_spec in E2 as (_ & _ & H2 & _). assert (is_Some (mread (s_buf s) 0 (s_len s))) as [? ?]; [|congruence]. apply mread_is_Some; lia.
Qed.

Context (e : mem) (d : ipaddr) (He : eth_ok e) (Hd : ip_ok d).

(** The reply to the echo request in the frame that has come, [q] is the buffer with it. *)
Definition reply_to (q : option mem) (s : St) : Prop := ∃ s0 : St, q = Some (s_buf s0) ∧ echo_reply s0 s.

(** What is in the buffer when the driver is called: an IP packet that is valid, or the reply to an echo request, behind an Ethernet
    header from the board; or a request or an answer of address resolution. *)
Definition frame_valid (q : option mem) (t : St) : Prop :=
  (get16 t f_ethtype = HTONS UIP_ETHTYPE_IP ∧ get_eth t f_ethsrc = e ∧
   ∃ s : St, (packet_valid s ∨ reply_to q s) ∧ s_len t = u16 (s_len s + ETH_HDR_LEN) ∧ drop 14 (s_buf t) = drop 14 (s_buf s)) ∨
  (s_len t = ARP_HDR_LEN ∧ ∃ op ip to, arp_fields t = (HTONS UIP_ETHTYPE_ARP, op, e, s_hostaddr t, ip, to) ∧ (op = HTONS ARP_REQUEST ∨ op = HTONS ARP_REPLY)).

(** A frame that was sent: the whole of what was in the buffer. *)
Definition sent (q : option mem) (f : mem) : Prop := ∃ t : St, buf_ok t ∧ frame_valid q t ∧ mread (s_buf t) 0 (s_len t) = Some f.

Lemma sent_none q f : sent None f → sent q f.
Proof. intros (t & Hb & [(H1 & H2 & s & [Hv | (s0 & [=] & _)] & H3)|Hv] & Hr); exists t; (split; [done|]); (split; [|done]); [left; split; [done|]; split; [done|]; exists s; by split; [left|]|by right]. Qed.

Definition hw_ok (a : arp) : Prop := Forall (λ x, eth_ok (a_ethaddr x)) (arp_table a).

Definition board_ok (b : Bd) : Prop := stack_ok (b_stack b) ∧ addressed e d (b_stack b) ∧ hw_ok (b_arp b).

Lemma ok_put_bytes o l (s : St) : stack_ok s → stack_ok (put_bytes o l s).
Proof. revert o s. induction l as [|x l IH]; intros o s H; [done|]. cbn [put_bytes]. apply IH. by apply ok_put8. Qed.

Ltac stkb := repeat first [apply ok_put_bytes | apply ok_put8 | apply ok_put16 | apply ok_put_ip | apply ok_set_appdata]; try assumption.

Lemma hw_lookup a ip x : hw_ok a → arp_lookup a ip = Some x → eth_ok x.
Proof.
  intros H E. unfold arp_lookup in E. destruct (index_of _ _) as [i|]; [|done]. destruct (arp_table a !! i) as [y|] eqn:Ey; [|done]. injection E as <-.
  exact (proj1 (Forall_lookup _ _) H _ _ Ey).
Qed.

Lemma hw_update ip x a : hw_ok a → eth_ok x → hw_ok (uip_arp_update ip x a).
Proof.
  intros H Hx. unfold uip_arp_update, hw_ok. destruct (index_of _ _) as [i|]; cbn [arp_table].
  - by apply Forall_alter.
  - by apply Forall_insert.
Qed.

Lemma hw_timer a : hw_ok a → hw_ok (uip_arp_timer a).
Proof. intros H. unfold uip_arp_timer, hw_ok. cbn [arp_table]. apply Forall_fmap. eapply Forall_impl; [exact H|]. intros x Hx. cbn. unfold expire. by destruct (_ && _). Qed.

Lemma arp_ask_host ip (s : St) : s_hostaddr (arp_ask ip s) = s_hostaddr s.
Proof.
  unfold arp_ask. cbv zeta. set (u := put16 f_ethtype _ _). assert (packet_only s u) as (b & f & i & Hu) by (unfold u; po).
  change (s_hostaddr (set_len ?v (set_appdata ?w u))) with (s_hostaddr u). by rewrite Hu.
Qed.

(** The Ethernet header, or the question in the packet's place. *)
Lemma arp_out_ok q a (s : St) : hw_ok a → stack_ok s → placed e d s → (packet_valid s ∨ reply_to q s) →
  let t := uip_arp_out a s in stack_ok t ∧ addressed e d t ∧ frame_valid q t ∧ (s_len t <= TOTAL_HEADER_LENGTH ∨ s_appdata t = TOTAL_HEADER_LENGTH).
Proof.
  intros Ha Hs (Hp & Hse & Hsd) Hv t. pose proof (sok_buf _ Hs) as Hb.
  assert (∀ x, eth_ok x → let t := eth_header x s in stack_ok t ∧ addressed e d t ∧ frame_valid q t ∧ (s_len t <= TOTAL_HEADER_LENGTH ∨ s_appdata t = TOTAL_HEADER_LENGTH)) as Heth.
  { intros x Hx. cbv zeta. destruct (eth_header_fields x s Hb Hx) as (_ & H2 & H3 & H4 & H5); [by rewrite Hse|]. split_and!.
    - unfold eth_header. cbv zeta. apply ok_set_len; [apply u16_word|]. stkb.
    - unfold eth_header. cbv zeta. set (u := put16 f_ethtype _ _). assert (packet_only s u) as Hu by (unfold u; po). apply po_fields in Hu as (_ & _ & _ & E1 & E2).
      unfold addressed. change (s_ethaddr (set_len ?v u)) with (s_ethaddr u). change (s_draddr (set_len ?v u)) with (s_draddr u). by rewrite E1, E2.
    - left. rewrite H2, Hse. split_and!; [done..|]. by exists s.
    - rewrite H4. destruct Hp as [Hp|Hp].
      + left. pose proof (sok_len _ Hs) as Hl. unfold word_ok in Hl. unfold ETH_HDR_LEN, TOTAL_HEADER_LENGTH, IP_TCP_HEADER_LENGTH, UIP_LLH_LEN in *. rewrite u16_id by lia. lia.
      + right. unfold eth_header. cbv zeta. set (u := put16 f_ethtype _ _). assert (packet_only s u) as Hu by (unfold u; po). apply po_fields in Hu as (_ & E1 & _).
        change (s_appdata (set_len ?v u)) with (s_appdata u). by rewrite E1. }
  unfold uip_arp_out in t. destruct (uip_ipaddr_cmp _ _); [apply Heth; split; [done|repeat constructor; lia]|].
  destruct (arp_lookup a (next_hop s)) as [x|] eqn:Ex; [apply Heth; by eapply hw_lookup|].
  assert (ip_ok (next_hop s)) as Hip by (unfold next_hop; destruct (negb _); [by rewrite Hsd|by apply get_ip_ok]).
  destruct (arp_ask_fields (next_hop s) s Hs Hip) as (H1 & H2 & H3); [by rewrite Hse|]. split_and!.
  - unfold t, arp_ask. cbv zeta. apply ok_set_len; [by apply word_const|]. stkb.
  - unfold t, arp_ask. cbv zeta. set (u := put16 f_ethtype _ _). assert (packet_only s u) as Hu by (unfold u; po). apply po_fields in Hu as (_ & _ & _ & E1 & E2).
    unfold addressed. change (s_ethaddr (set_len ?v (set_appdata ?w u))) with (s_ethaddr u). change (s_draddr (set_len ?v (set_appdata ?w u))) with (s_draddr u). by rewrite E1, E2.
  - right. split; [exact H2|]. eexists _, _, _. rewrite <- Hse. split; [|by left]. rewrite <- (arp_ask_host (next_hop s) s) in H1. exact H1.
  - left. change (s_len t) with (s_len (arp_ask (next_hop s) s)). rewrite H2. unfold ARP_HDR_LEN, TOTAL_HEADER_LENGTH, IP_TCP_HEADER_LENGTH, UIP_LLH_LEN. lia.
Qed.

Context (UIP_APPCALL UIP_UDP_APPCALL : St → option St) `{!AppOk UIP_APPCALL, !AppOk UIP_UDP_APPCALL, !AppKeeps UIP_APPCALL, !AppKeeps UIP_UDP_APPCALL} (fuel : nat).

(** What is in the buffer goes out. *)
Lemma sent_if_any q (b : Bd) out : buf_ok (b_stack b) → frame_valid q (b_stack b) → s_len (b_stack b) <= TOTAL_HEADER_LENGTH ∨ s_appdata (b_stack b) = TOTAL_HEADER_LENGTH →
  send_if_any device_driver_send b = Some out → Forall (sent q) out.
Proof.
  intros Hb Hv Hp E. unfold send_if_any in E. destruct (0 <? _); [|injection E as <-; constructor].
  apply bind_Some in E as (f & Ef & E). injection E as <-. rewrite driver_sends_buffer in Ef by done. apply Forall_singleton. by exists (b_stack b).
Qed.

(** An event of the stack, and what it sends. *)
Lemma event_sends q flag (s s' : St) (b b' : Bd) out : (is_input flag = true → q = Some (s_buf s)) → stack_ok s → addressed e d s → hw_ok (b_arp b) →
  uip_process UIP_APPCALL UIP_UDP_APPCALL fuel flag s = Some s' → send_ip device_driver_send (with_stack s' b) = Some (b', out) →
  board_ok b' ∧ Forall (sent q) out.
Proof.
  intros Hq Hs Ha Hw E Es. pose proof (keeps_process UIP_APPCALL UIP_UDP_APPCALL fuel flag s s' Hs E) as Hs'.
  pose proof (process_output UIP_APPCALL UIP_UDP_APPCALL fuel flag s s' Hs E) as Hv.
  pose proof (places_process e d UIP_APPCALL UIP_UDP_APPCALL fuel flag s s' Ha E) as Hp. unfold send_ip in Es. cbv zeta in Es. apply bind_Some in Es as (o & Eo & Es). injection Es as <- <-.
  unfold arp_out_if_any in *. change (b_stack (with_stack s' b)) with s' in *. change (b_arp (with_stack s' b)) with (b_arp b) in *.
  destruct (Z.ltb_spec 0 (s_len s')) as [Hl|Hl].
  - assert (packet_valid s' ∨ reply_to q s') as Hv' by (destruct Hv as [?|[?|[Hf ?]]]; [lia|by left|right; exists s; split; [by apply Hq|done]]).
    destruct (arp_out_ok q (b_arp b) s' Hw Hs' Hp Hv') as (H1 & H2 & H3 & H4). split; [split; [exact H1|split; [exact H2|exact Hw]]|].
    eapply sent_if_any; [| | |exact Eo]; [apply H1|exact H3|exact H4].
  - unfold send_if_any in Eo. change (b_stack (with_stack s' b)) with s' in Eo. rewrite (proj2 (Z.ltb_ge _ _)) in Eo by done. injection Eo as <-.
    split; [|constructor]. split; [exact Hs'|]. split; [apply Hp|exact Hw].
Qed.

Lemma tcp_timers_send n : ∀ i (b b' : Bd) out, board_ok b → tcp_timers UIP_APPCALL UIP_UDP_APPCALL fuel device_driver_send n i b = Some (b', out) → board_ok b' ∧ Forall (sent None) out.
Proof.
  induction n as [|n IH]; intros i b b' out Hb E; cbn [tcp_timers] in E; [injection E as <- <-; by split|].
  apply bind_Some in E as (s & E1 & E). apply bind_Some in E as ([b1 o1] & E2 & E). apply bind_Some in E as ([b2 o2] & E3 & E). injection E as <- <-.
  destruct Hb as (Hs & Ha & Hw). eapply (event_sends None) in E1 as [H1 H2]; [|done|apply ok_set_conn, Hs|exact Ha|exact Hw|exact E2].
  apply IH in E3 as [H3 H4]; [|done]. split; [done|]. by apply Forall_app.
Qed.

Lemma udp_timers_send n : ∀ i (b b' : Bd) out, board_ok b → udp_timers UIP_APPCALL UIP_UDP_APPCALL fuel device_driver_send n i b = Some (b', out) → board_ok b' ∧ Forall (sent None) out.
Proof.
  induction n as [|n IH]; intros i b b' out Hb E; cbn [udp_timers] in E; [injection E as <- <-; by split|].
  apply bind_Some in E as (s & E1 & E). apply bind_Some in E as ([b1 o1] & E2 & E). apply bind_Some in E as ([b2 o2] & E3 & E). injection E as <- <-.
  destruct Hb as (Hs & Ha & Hw). eapply (event_sends None) in E1 as [H1 H2]; [|done|apply ok_set_udp_conn, Hs|exact Ha|exact Hw|exact E2].
  apply IH in E3 as [H3 H4]; [|done]. split; [done|]. by apply Forall_app.
Qed.

Lemma arpin_ok a (s : St) a' s' : hw_ok a → stack_ok s → addressed e d s → uip_arp_arpin a s = (a', s') →
  shape s' = shape s ∧ hw_ok a' ∧ stack_ok s' ∧ addressed e d s' ∧ (s_len s' = 0 ∨ frame_valid None s' ∧ s_len s' <= TOTAL_HEADER_LENGTH).
Proof.
  intros Ha Hs [Hse Hsd] E. unfold uip_arp_arpin in E. cbv zeta in E. set (s0 := set_len 0 s) in E. assert (stack_ok s0) as H0 by (apply ok_set_len; [by apply word_const|done]).
  assert (∀ o, eth_ok (get_eth s0 o)) as Hg by (intros o; apply get_eth_ok, H0).
  assert (addressed e d s0) as Ha0 by done. assert (s_len s0 = 0) as Hl by done. assert (shape s0 = shape s) as Hsh by done. clearbody s0.
  assert (hw_ok a' ∧ (s' = s0 ∨ s' = arp_answer s0)) as [Hw Hc].
  { destruct (_ <? _); [injection E as <- <-|]; [by auto|].
    destruct (_ =? _); [destruct (uip_ipaddr_cmp _ _)|destruct (_ =? _); [destruct (uip_ipaddr_cmp _ _)|]]; injection E as <- <-; split; auto using hw_update. }
  destruct Hc as [-> | ->]; [by split_and!; [..|left]|].
  destruct (arp_answer_fields s0 H0) as (H1 & H2 & H3); [by rewrite (proj1 Ha0)|].
  assert (∃ u, packet_only s0 u ∧ stack_ok u ∧ arp_answer s0 = set_len ARP_HDR_LEN u) as (u & Hu & Huok & Eu).
  { unfold arp_answer. cbv zeta. eexists. split; [|split; [|reflexivity]]; [po|]. pose proof (sok_host _ H0) as Hh. stkb. }
  pose proof Hu as (_ & _ & _ & E1 & E2)%po_fields. split_and!.
  - rewrite Eu, <- Hsh. exact (po_shape _ _ Hu).
  - done.
  - rewrite Eu. apply ok_set_len; [by apply word_const|done].
  - rewrite Eu. unfold addressed. change (s_ethaddr (set_len ?v u)) with (s_ethaddr u). change (s_draddr (set_len ?v u)) with (s_draddr u). by rewrite E1, E2.
  - right. rewrite H2. split; [|unfold ARP_HDR_LEN, TOTAL_HEADER_LENGTH, IP_TCP_HEADER_LENGTH, UIP_LLH_LEN; lia].
    right. split; [done|]. eexists _, _, _. split; [|by right]. rewrite <- (proj1 Ha0).
    assert (s_hostaddr (arp_answer s0) = s_hostaddr s0) as ->; [|exact H1].
    rewrite Eu. change (s_hostaddr (set_len ?v u)) with (s_hostaddr u). destruct Hu as (b & f & n & ->). done.
Qed.

(** A frame that has come. *)
Lemma receive_sends rx (b b' : Bd) out : board_ok b → bytes_ok rx → receive UIP_APPCALL UIP_UDP_APPCALL fuel device_driver_send rx b = Some (b', out) →
  board_ok b' ∧ Forall (sent (mwrite (s_buf (b_stack b)) 0 rx)) out.
Proof.
  intros (Hs & Ha & Hw) Hrx E. unfold receive in E. apply bind_Some in E as (m & Em & E). cbv zeta in E. set (s := set_len _ _) in E.
  assert (stack_ok s) as H1.
  { unfold s. apply ok_set_len; [apply u16_word|]. destruct Hs as [[Hb1 Hb2] ? ? ? ? ? ?]. constructor; try done. split; cbn [s_buf set_buf].
    - apply mwrite_msize in Em. congruence.
    - apply mwrite_prefix in Em. subst m. apply Forall_app. split; [done|by apply Forall_drop]. }
  assert (addressed e d s) as H2 by exact Ha. assert (s_buf s = m) as Hm by done. clearbody s. subst m. destruct (get16 s f_ethtype =? _).
  - apply bind_Some in E as (s1 & E1 & E). by eapply (event_sends _ UIP_DATA s s1 b b').
  - destruct (get16 s f_ethtype =? _); [|injection E as <- <-; split; [split; [exact H1|split; [exact H2|exact Hw]]|constructor]].
    destruct (uip_arp_arpin (b_arp b) s) as [a1 s1] eqn:E1. destruct (arpin_ok _ _ _ _ Hw H1 H2 E1) as (_ & H3 & H4 & H5 & H6).
    apply bind_Some in E as (o & Eo & E). injection E as <- <-. split; [split; [exact H4|split; [exact H5|exact H3]]|]. destruct H6 as [H6|[H6 H7]].
    + unfold send_if_any in Eo. cbn [b_stack] in Eo. rewrite H6 in Eo. injection Eo as <-. constructor.
    + eapply Forall_impl; [|intros f; apply sent_none]. eapply sent_if_any; [| | |exact Eo]; [apply H4|exact H6|by left].
Qed.


(** ** The main loop returns *)

Context `{!TcpTotal UIP_APPCALL, !UdpTotal UIP_UDP_APPCALL}.

Lemma arp_out_shape a (s : St) : shape (uip_arp_out a s) = shape s ∧ (s_len (uip_arp_out a s) = u16 (s_len s + ETH_HDR_LEN) ∨ s_len (uip_arp_out a s) = ARP_HDR_LEN).
Proof.
  assert (∀ x, shape (eth_header x s) = shape s ∧ s_len (eth_header x s) = u16 (s_len s + ETH_HDR_LEN)) as He1.
  { intros x. unfold eth_header. cbv zeta. set (u := put16 f_ethtype _ _). assert (packet_only s u) as Hu by (unfold u; po). split; [by rewrite <- (po_shape _ _ Hu)|].
    apply po_fields in Hu as [Hu _]. by rewrite <- Hu. }
  unfold uip_arp_out. destruct (uip_ipaddr_cmp _ _); [by destruct (He1 broadcast_ethaddr); auto|]. destruct (arp_lookup a (next_hop s)) as [x|]; [by destruct (He1 x); auto|].
  split; [|by right]. unfold arp_ask. cbv zeta. set (u := put16 f_ethtype _ _). assert (packet_only s u) as Hu by (unfold u; po). by rewrite <- (po_shape _ _ Hu).
Qed.

Lemma send_returns (b : Bd) : buf_ok (b_stack b) → s_len (b_stack b) <= msize (s_buf (b_stack b)) →
  s_len (b_stack b) <= TOTAL_HEADER_LENGTH ∨ s_appdata (b_stack b) = TOTAL_HEADER_LENGTH → is_Some (send_if_any device_driver_send b).
Proof.
  intros Hb Hl Hp. unfold send_if_any. destruct (Z.ltb_spec 0 (s_len (b_stack b))); [|by eexists]. rewrite driver_sends_buffer by done.
  destruct (mread_is_Some (s_buf (b_stack b)) 0 (s_len (b_stack b))) as [f Ef]; [lia..|]. rewrite Ef. by eexists.
Qed.

(** An event that is well-formed: the stack returns, and what it leaves is sent. *)
Lemma event_returns flag (s : St) (b : Bd) : stack_ok s → addressed e d s → hw_ok (b_arp b) → event_wf fuel flag s →
  ∃ s' b' out, uip_process UIP_APPCALL UIP_UDP_APPCALL fuel flag s = Some s' ∧ send_ip device_driver_send (with_stack s' b) = Some (b', out) ∧
    board_ok b' ∧ shape (b_stack b') = shape s.
Proof.
  intros Hs Ha Hw Hev. destruct (process_returns UIP_APPCALL UIP_UDP_APPCALL fuel flag s Hs Hev) as (s' & E & Hs' & Hsh & Hl).
  pose proof (process_output UIP_APPCALL UIP_UDP_APPCALL fuel flag s s' Hs E) as Hv.
  pose proof (places_process e d UIP_APPCALL UIP_UDP_APPCALL fuel flag s s' Ha E) as Hp. rewrite buf_size in Hl by done. unfold UIP_LLH_LEN in Hl.
  assert (is_Some (send_if_any device_driver_send (arp_out_if_any (with_stack s' b))) ∧ shape (b_stack (arp_out_if_any (with_stack s' b))) = shape s) as [[out Eo] Hsh'].
  { unfold arp_out_if_any. change (b_stack (with_stack s' b)) with s'. change (b_arp (with_stack s' b)) with (b_arp b). destruct (Z.ltb_spec 0 (s_len s')) as [Hpos|Hz].
    - assert (packet_valid s' ∨ reply_to (Some (s_buf s)) s') as Hv' by (destruct Hv as [?|[?|[Hf ?]]]; [lia|by left|right; by exists s]).
      destruct (arp_out_ok _ (b_arp b) s' Hw Hs' Hp Hv') as (H1 & H2 & H3 & H4). destruct (arp_out_shape (b_arp b) s') as [H5 H6].
      split; [|change (shape (uip_arp_out (b_arp b) s') = shape s); congruence]. apply send_returns; [apply H1| |exact H4].
      change (b_stack (with_stack ?x ?y)) with x. rewrite buf_size by done. pose proof bufsize_ok. unfold ETH_HDR_LEN, ARP_HDR_LEN in *. destruct H6 as [-> | ->]; [rewrite u16_id|]; lia.
    - split; [|exact Hsh]. unfold send_if_any. change (b_stack (with_stack s' b)) with s'. rewrite (proj2 (Z.ltb_ge _ _)) by done. by eexists. }
  assert (send_ip device_driver_send (with_stack s' b) = Some (arp_out_if_any (with_stack s' b), out)) as Es by (unfold send_ip; cbv zeta; by rewrite Eo).
  exists s', (arp_out_if_any (with_stack s' b)), out. split_and!; [done|done| |done]. by eapply (event_sends (Some (s_buf s)) flag s s').
Qed.

Lemma tcp_timers_return n : ∀ i (b : Bd), board_ok b → (i + n <= length (s_conns (b_stack b)))%nat →
  ∃ b' out, tcp_timers UIP_APPCALL UIP_UDP_APPCALL fuel device_driver_send n i b = Some (b', out) ∧ board_ok b' ∧ shape (b_stack b') = shape (b_stack b).
Proof.
  induction n as [|n IH]; intros i b Hb Hi; [by exists b, []|]. pose proof Hb as (Hs & Ha & Hw). cbn [tcp_timers].
  destruct (event_returns UIP_TIMER (set_conn (Some i) (b_stack b)) b) as (s' & b1 & o1 & E1 & E2 & Hb1 & Hsh); [by apply ok_set_conn|done|done|exists i; split; [done|]; cbn; lia|].
  change (shape (set_conn ?v ?x)) with (shape x) in Hsh. unfold uip_periodic. rewrite E1. cbn [mbind option_bind]. rewrite E2. cbn [mbind option_bind]. assert (length (s_conns (b_stack b1)) = length (s_conns (b_stack b))) as Hl by (by injection Hsh).
  destruct (IH (S i) b1 Hb1) as (b2 & o2 & -> & Hb2 & Hsh2); [lia|]. eexists _, _. split; [reflexivity|]. split; [done|congruence].
Qed.

Lemma udp_timers_return n : ∀ i (b : Bd), board_ok b → (i + n <= length (s_udp_conns (b_stack b)))%nat →
  ∃ b' out, udp_timers UIP_APPCALL UIP_UDP_APPCALL fuel device_driver_send n i b = Some (b', out) ∧ board_ok b' ∧ shape (b_stack b') = shape (b_stack b).
Proof.
  induction n as [|n IH]; intros i b Hb Hi; [by exists b, []|]. pose proof Hb as (Hs & Ha & Hw). cbn [udp_timers].
  destruct (event_returns UIP_UDP_TIMER (set_udp_conn i (b_stack b)) b) as (s' & b1 & o1 & E1 & E2 & Hb1 & Hsh); [by apply ok_set_udp_conn|done|done|unfold event_wf; cbn; lia|].
  change (shape (set_udp_conn ?v ?x)) with (shape x) in Hsh. unfold uip_udp_periodic. rewrite E1. cbn [mbind option_bind]. rewrite E2. cbn [mbind option_bind]. assert (length (s_udp_conns (b_stack b1)) = length (s_udp_conns (b_stack b))) as Hl by (by injection Hsh).
  destruct (IH (S i) b1 Hb1) as (b2 & o2 & -> & Hb2 & Hsh2); [lia|]. eexists _, _. split; [reflexivity|]. split; [done|congruence].
Qed.

(** The frame in the buffer; it fits there, and a datagram in it is well-formed. *)
Definition frame_in (rx : mem) (s : St) : St := set_len (u16 (msize rx)) (set_buf (rx ++ drop (length rx) (s_buf s)) s).

Definition frame_wf (rx : mem) (s : St) : Prop :=
  msize rx <= UIP_BUFSIZE ∧ (get16 (frame_in rx s) f_ethtype = htons UIP_ETHTYPE_IP → (40 < fuel)%nat ∧ datagram_wf (frame_in rx s)).

Lemma receive_returns rx (b : Bd) : board_ok b → bytes_ok rx → frame_wf rx (b_stack b) →
  ∃ b' out, receive UIP_APPCALL UIP_UDP_APPCALL fuel device_driver_send rx b = Some (b', out) ∧ board_ok b' ∧ shape (b_stack b') = shape (b_stack b).
Proof.
  intros Hb Hrx [Hsz Hwf]. assert (∃ b' out, receive UIP_APPCALL UIP_UDP_APPCALL fuel device_driver_send rx b = Some (b', out) ∧ shape (b_stack b') = shape (b_stack b)) as (b' & out & E & Hsh);
    [|exists b', out; split; [done|]; split; [by eapply receive_sends|done]].
  pose proof Hb as (Hs & Ha & Hw). destruct (mwrite_is_Some (s_buf (b_stack b)) 0 rx) as [m Em]; [lia|rewrite buf_size by done; lia|].
  unfold receive. rewrite Em. cbn [mbind option_bind]. cbv zeta. pose proof (mwrite_prefix _ _ _ Em) as Hm. rewrite Hm. fold (frame_in rx (b_stack b)). set (s := frame_in rx (b_stack b)) in *.
  assert (stack_ok s) as Hss.
  { unfold s, frame_in. apply ok_set_len; [apply u16_word|]. destruct Hs as [[Hb1 Hb2] ? ? ? ? ? ?]. constructor; try done. split; cbn [s_buf set_buf].
    - apply mwrite_msize in Em. congruence.
    - apply Forall_app. split; [done|by apply Forall_drop]. }
  assert (addressed e d s ∧ shape s = shape (b_stack b)) as [Has Hsh] by done. clearbody s.
  destruct (Z.eqb_spec (get16 s f_ethtype) (htons UIP_ETHTYPE_IP)) as [Et|_].
  - destruct (event_returns UIP_DATA s b Hss Has Hw (Hwf Et)) as (s' & b' & out & E1 & E2 & _ & E4). unfold uip_input. rewrite E1. cbn [mbind option_bind]. exists b', out. split; [exact E2|congruence].
  - destruct (get16 s f_ethtype =? _); [|by eexists _, _]. destruct (uip_arp_arpin (b_arp b) s) as [a1 s1] eqn:E1. destruct (arpin_ok _ _ _ _ Hw Hss Has E1) as (H2 & H3 & H4 & H5 & H6).
    assert (s_len s1 <= TOTAL_HEADER_LENGTH) as Hl by (destruct H6 as [-> | [_ H6]]; [done|exact H6]).
    destruct (send_returns (Board s1 a1 (periodic_timer b) (arp_timer b))) as [out Eo]; [apply H4| |by left|].
    { cbn [b_stack]. rewrite buf_size by done. pose proof bufsize_ok. unfold TOTAL_HEADER_LENGTH, IP_TCP_HEADER_LENGTH, UIP_LLH_LEN in Hl. lia. }
    rewrite Eo. cbn [mbind option_bind]. eexists _, _. split; [reflexivity|]. cbn [b_stack]. congruence.
Qed.

(** The tables have the sizes of the build. *)
Definition board_wf (b : Bd) : Prop := shape (b_stack b) = (Z.to_nat UIP_CONNS, Z.to_nat UIP_UDP_CONNS).

Lemma mainloop_sends elapsed rx (b b' : Bd) out : board_ok b → bytes_ok rx →
  elua_uip_mainloop UIP_APPCALL UIP_UDP_APPCALL fuel elapsed rx b = Some (b', out) → board_ok b' ∧ Forall (sent (mwrite (s_buf (b_stack b)) 0 rx)) out.
Proof.
  intros Hb Hrx E. unfold elua_uip_mainloop in E. cbv zeta in E. apply bind_Some in E as ([b1 o1] & E1 & E). apply bind_Some in E as ([b2 o2] & E2 & E). injection E as <- <-.
  assert (board_ok (passed elapsed b)) as Hp by exact Hb.
  assert (board_ok b1 ∧ Forall (sent (mwrite (s_buf (b_stack b)) 0 rx)) o1) as [H1 H1'].
  { destruct (0 <? msize rx); [by apply (receive_sends rx (passed elapsed b) b1)|]. injection E1 as <- <-. by split. }
  assert (board_ok (check_periodic b1)) as H2.
  { destruct H1 as (Hs & Ha & Hw). unfold check_periodic. destruct (_ <=? _); (split; [apply ok_set_forced_poll; exact Hs|by split]). }
  unfold all_timers in E2. apply bind_Some in E2 as ([b3 o3] & E3 & E2). apply bind_Some in E2 as ([b4 o4] & E4 & E2). injection E2 as <- <-.
  apply tcp_timers_send in E3 as [H3 H3']; [|done]. apply udp_timers_send in E4 as [H4 H4']; [|done].
  split; [|rewrite !Forall_app; split_and!; [done|eapply Forall_impl; [done|apply sent_none]..]].
  unfold check_arp_timer. destruct (_ <=? _); [|done]. destruct H4 as (Hs & Ha & Hw). split; [exact Hs|]. split; [exact Ha|]. by apply hw_timer.
Qed.

Lemma mainloop_returns elapsed rx (b : Bd) : board_ok b → board_wf b → bytes_ok rx → frame_wf rx (b_stack b) →
  ∃ b' out, elua_uip_mainloop UIP_APPCALL UIP_UDP_APPCALL fuel elapsed rx b = Some (b', out) ∧ board_wf b'.
Proof.
  intros Hb Hwf Hrx Hfr. unfold elua_uip_mainloop, board_wf in *. cbv zeta.
  assert (∃ b1 o1, (if 0 <? msize rx then receive UIP_APPCALL UIP_UDP_APPCALL fuel device_driver_send rx (passed elapsed b) else Some (passed elapsed b, [])) = Some (b1, o1) ∧
    board_ok b1 ∧ shape (b_stack b1) = shape (b_stack b)) as (b1 & o1 & -> & Hb1 & Hsh1).
  { destruct (0 <? msize rx); [by apply (receive_returns rx (passed elapsed b))|by eexists _, _]. }
  cbn [mbind option_bind]. assert (board_ok (check_periodic b1) ∧ shape (b_stack (check_periodic b1)) = shape (b_stack b1)) as [Hb2 Hsh2].
  { destruct Hb1 as (Hs & Ha & Hw). unfold check_periodic. destruct (_ <=? _); (split; [split; [apply ok_set_forced_poll; exact Hs|by split]|done]). }
  unfold all_timers. pose proof Hwf as Hsh. rewrite <- Hsh1, <- Hsh2 in Hsh. injection Hsh as Hn1 Hn2.
  destruct (tcp_timers_return (Z.to_nat UIP_CONNS) 0 (check_periodic b1) Hb2) as (b3 & o3 & -> & Hb3 & Hsh3); [lia|]. cbn [mbind option_bind].
  assert (length (s_udp_conns (b_stack b3)) = Z.to_nat UIP_UDP_CONNS) as Hn3 by (injection Hsh3; congruence).
  destruct (udp_timers_return (Z.to_nat UIP_UDP_CONNS) 0 b3 Hb3) as (b4 & o4 & -> & Hb4 & Hsh4); [lia|]. cbn [mbind option_bind]. eexists _, _. split; [reflexivity|].
  unfold check_arp_timer. destruct (_ <=? _); cbn [b_stack]; congruence.
Qed.

(** C7: every frame that the board's main loop puts on the wire is, as one piece, what the stack left in its buffer: an IP packet with the board's
    address, a valid length and valid checksums, or the reply to the echo request in the frame that has come, behind an Ethernet header
    from the board, or a request or an answer of address resolution with the board's addresses; and the stack and the table of addresses
    keep their invariants.  The loop returns, and the next call finds the tables as large, when the frame fits the buffer and the datagram
    in it is well-formed in the sense of [datagram_wf], and the applications return. *)
Theorem mainloop_frames_valid elapsed rx (b : Bd) : board_ok b → bytes_ok rx →
  (∀ b' out, elua_uip_mainloop UIP_APPCALL UIP_UDP_APPCALL fuel elapsed rx b = Some (b', out) → board_ok b' ∧ Forall (sent (mwrite (s_buf (b_stack b)) 0 rx)) out) ∧
  (board_wf b → frame_wf rx (b_stack b) → ∃ b' out, elua_uip_mainloop UIP_APPCALL UIP_UDP_APPCALL fuel elapsed rx b = Some (b', out) ∧ board_wf b').
Proof. intros Hb Hrx. split; [intros b' out; by apply mainloop_sends|intros Hwf Hfr; by apply mainloop_returns]. Qed.
End frames.
