(* ===== verification/LoopDemo.v ===== *)
(** * Examples of the main loops

    The small build of UipDemo.v on a network: the theorem on what the board sends applied to a run, and what the loops do not do. *)
From S2P Require Import Prelude Psock UipSum Uip UipInv UipOut UipEcho UipArp UipSend UipTotal UipStream UipDemo UipLoop UipFrames.

#[local] Existing Instance demo_uip_conf.
#[local] Existing Instance demo_uip_sizes.
#[local] Existing Instance demo_app_ok.
#[local] Existing Instance demo_udp_ok.
#[local] Existing Instance demo_echo_ok.
#[local] Existing Instance demo_echo_total.
#[local] Existing Instance demo_udp_total.

#[local] Instance demo_udp_keeps : AppKeeps demo_udp.
Proof. constructor. by intros s s' [= <-]. Qed.

#[local] Instance demo_echo_keeps : AppKeeps demo_echo.
Proof.
  constructor. intros s s' E. unfold demo_echo in E. destruct (uflag s UIP_NEWDATA); [|by injection E as <-].
  apply bind_Some in E as (d & _ & E). injection E as <-. done.
Qed.

Definition demo_eth : mem := [2; 0; 0; 0; 0; 1].

(** One connection is open, the other is closed; the UDP connection is not used. *)
Definition demo_board (buf : mem) : board mem :=
  let s := set_conns [demo_conn demo_peer (HTONS 80) (HTONS 1025) (255, 255, 255, 255) (0, 0, 3, 232) 0;
                      with_tcpstateflags UIP_CLOSED (demo_conn (0, 0) 0 0 (0, 0, 0, 0) (0, 0, 0, 0) 0)] demo_start in
  Board (demo_with_eth demo_eth (set_udp_conns [UipUdpConn (0, 0) 0 0 64] (set_buf buf s))) demo_arp 0 0.

(** A frame with a packet. *)
Definition ip_frame (p : mem) : mem := demo_eth ++ [2; 0; 0; 0; 0; 2] ++ [8; 0] ++ p.

(** A segment of three bytes for the open connection. *)
Definition segment_frame : mem := ip_frame (match demo_first with Segment p n => take (Z.to_nat n) (drop 14 p) | _ => [] end).

Definition run_loop (elapsed : Z) (rx : mem) (b : board mem) : option (board mem * list mem) :=
  elua_uip_mainloop demo_echo demo_udp 41 elapsed rx b.

Lemma demo_board_ok : board_ok demo_eth (0, 0) (demo_board (replicate 122 0)).
Proof.
  split; [|split; [done|]].
  - constructor; [split; [reflexivity|apply bytesb_ok; vm_compute; reflexivity]| | | | | |]; try closed.
    constructor; [apply demo_conn_ok; closed|]. constructor; [|constructor]. constructor; closed.
  - repeat constructor; lia.
Qed.

(** The frame fits, and its segment has no options. *)
Lemma segment_frame_wf : frame_wf 41 segment_frame (b_stack (demo_board (replicate 122 0))).
Proof.
  split; [by vm_compute|]. intros _. split; [lia|]. split; [vm_compute; split; congruence|]. split; [|vm_compute; congruence]. intros _.
  constructor; [vm_compute; congruence..|vm_compute; discriminate|vm_compute; discriminate].
Qed.

(** The answer to the segment is held back: the neighbour's address is asked for in its place. *)
Lemma mainloop_frames_valid_witness :
  ∃ b' out, run_loop 100 segment_frame (demo_board (replicate 122 0)) = Some (b', [out]) ∧ msize out = ARP_HDR_LEN ∧ board_wf b' ∧
  board_ok demo_eth (0, 0) b' ∧ Forall (sent (A := mem) demo_eth (mwrite (replicate 122 0) 0 segment_frame)) [out].
Proof.
  assert (bytes_ok segment_frame) as Hrx by (apply bytesb_ok; vm_compute; reflexivity).
  assert (eth_ok demo_eth) as He by (split; [done|]; repeat constructor; lia). assert (ip_ok (0, 0)) as Hip by closed.
  destruct (mainloop_frames_valid demo_eth (0, 0) He Hip demo_echo demo_udp 41 100 segment_frame (demo_board (replicate 122 0)) demo_board_ok Hrx) as [H1 H2].
  destruct (H2 eq_refl segment_frame_wf) as (b' & out & E & Hwf). exists b'.
  assert (map msize <$> (snd <$> run_loop 100 segment_frame (demo_board (replicate 122 0))) = Some [ARP_HDR_LEN]) as Hl by (vm_compute; reflexivity).
  unfold run_loop in *. destruct (H1 b' out E) as [H3 H4]. rewrite E in Hl |- *. cbn [fmap option_fmap option_map snd map] in Hl. destruct out as [|x [|]]; try discriminate Hl.
  injection Hl as Hl. exists x. split; [reflexivity|]. split; [exact Hl|]. split; [exact Hwf|]. split; [exact H3|exact H4].
Defined.

(** ** Faults *)

(** An echo request of 42 bytes of which 28 come: the length of the packet is compared with that of the frame, which has 14 bytes
    more, and the reply has 14 bytes of what was in the buffer before. *)
Definition short_ping : mem :=
  let s := demo_stack demo_peer (demo_conn demo_host 0 0 (0, 0, 0, 0) (0, 0, 0, 0) 0) in
  let s := put8 f_type ICMP_ECHO (put8 f_proto UIP_PROTO_ICMP (put8 (f_len + 1) 42 (set_len 42 s))) in
  let s := put_ip f_srcipaddr demo_peer (put_ip f_destipaddr demo_host s) in
  match ip_send_nolen s with Some s => ip_frame (take 28 (drop 14 (s_buf s))) | None => [] end.

Example short_ping_answered :
  option_map (λ x, (s_len x, take 14 (drop 28 (drop 14 (s_buf x)))))
    (uip_input (appcall demo_app) demo_udp 9 (set_len (msize short_ping) (set_buf (short_ping ++ replicate 80 7) (b_stack (demo_board (replicate 122 7)))))) =
  Some (42, replicate 14 7).
Proof. vm_compute. reflexivity. Qed.

(** Several calls of a loop, each with a frame that is not for the stack and 600 milliseconds after the last: the value of the
    timer, and of a connection's counter of retransmissions. *)
Definition other_frame : mem := demo_eth ++ demo_eth ++ [134; 221] ++ replicate 46 0.

Fixpoint calls (loop : Z → mem → board mem → option (board mem * list mem)) (n : nat) (b : board mem) : option (board mem) :=
  match n with O => Some b | S n => '(b, _) ← loop 600 other_frame b; calls loop n b end.

(** Data is in flight, and its timer runs. *)
Definition waiting_board : board mem := with_stack (set_conns [demo_waiting; demo_waiting] (b_stack (demo_board (replicate 122 0)))) (demo_board (replicate 122 0)).

(** With a frame in every call, the web server's loop never runs the timers; that of the network services does. *)
Example httpd_timers_starve :
  (λ b, (periodic_timer b, timer <$> s_conns (b_stack b))) <$> calls (httpd_uip_mainloop (appcall demo_app) demo_udp 9) 3 waiting_board = Some (1800, [3; 3]) ∧
  (λ b, (periodic_timer b, timer <$> s_conns (b_stack b))) <$> calls (elua_uip_mainloop (appcall demo_app) demo_udp 9) 3 waiting_board = Some (0, [0; 0]).
Proof. vm_compute. split; reflexivity. Qed.
