(* ===== verification/Wire.v ===== *)
(** * Messages in a buffer

    What a program has written from the beginning of a buffer, directly or at a cursor; the parts of a buffer that is a
    concatenation. *)
From S2P Require Import Prelude.

Lemma ld_at (a b : mem) i x : i = msize a → ld (a ++ x :: b) i = Some x.
Proof. intros ->. rewrite ld_app_r by lia. by rewrite Z.sub_diag. Qed.

Lemma mread_at (a b c : mem) i n : i = msize a → n = msize b → mread (a ++ b ++ c) i n = Some b.
Proof.
  intros -> ->. apply mread_spec. rewrite !msize_app. pose proof (msize_nonneg a). pose proof (msize_nonneg b). pose proof (msize_nonneg c).
  split_and!; try lia. unfold msize. rewrite !Nat2Z.id, drop_app_length. by rewrite take_app_length.
Qed.


(** A message is written from its beginning: [a] is what is written so far. *)
Definition written (m : mem) (a : mem) : mem := a ++ drop (length a) m.

Lemma write_next m a bs off : off = msize a → msize a + msize bs <= msize m → mwrite (written m a) off bs = Some (written m (a ++ bs)).
Proof.
  intros -> H. unfold written. pose proof (msize_nonneg a). unfold mwrite. unfold msize in *.
  rewrite decide_True by (rewrite length_app, length_drop; lia). f_equal. rewrite Nat2Z.id, take_app_length.
  rewrite drop_app_ge, drop_drop by lia. rewrite <- app_assoc. do 3 f_equal. rewrite length_app. lia.
Qed.

Lemma st_next m a v off : off = msize a → msize a + 1 <= msize m → st (written m a) off v = Some (written m (a ++ [u8 v])).
Proof. intros. rewrite st_mwrite. by apply write_next. Qed.

(** The same at a cursor. *)
Definition cursor (m a : mem) : mem * Z := (written m a, msize a).

Lemma wr_next m a bs : msize a + msize bs <= msize m → wr (cursor m a) bs = Some (cursor m (a ++ bs)).
Proof. intros H. unfold wr, cursor. cbn [fst snd]. rewrite write_next by done. cbn. by rewrite msize_app. Qed.

Lemma put_next m a v : msize a + 1 <= msize m → put (cursor m a) v = Some (cursor m (a ++ [u8 v])).
Proof. intros. rewrite put_wr. by apply wr_next. Qed.

(** What is sent of a packet. *)
Lemma sent_bytes m a : take (Z.to_nat (msize a)) (written m a) = a.
Proof. unfold written, msize. by rewrite Nat2Z.id, take_app_length. Qed.

Lemma written_size m a : msize a <= msize m → msize (written m a) = msize m.
Proof. intros H. unfold written. rewrite msize_app. unfold msize in *. rewrite length_drop. lia. Qed.
