(* ===== verification/Dhcp.v ===== *)
(** * The DHCP client

    src/uip/dhcpc.c, an application of UDP that is a protothread, and [dhcpc_configured] of src/elua_uip.c. The packet is the
    memory from [uip_appdata] to the end of the packet buffer; time is what the platform's timer says in a call. *)
From S2P Require Import Prelude Psock UipSum Uip UipLoop.

Definition STATE_INITIAL := 0.
Definition STATE_SENDING := 1.
Definition STATE_OFFER_RECEIVED := 2.
Definition STATE_CONFIG_RECEIVED := 3.

Definition CLOCK_SECOND := 1000000.
Definition HOSTNAME : mem := ascii_bytes "elua".

Definition DHCP_REQUEST := 1.
Definition DHCP_REPLY := 2.
Definition DHCP_HTYPE_ETHERNET := 1.

Definition DHCPDISCOVER := 1.
Definition DHCPOFFER := 2.
Definition DHCPREQUEST := 3.
Definition DHCPACK := 5.
Definition DHCPNAK := 6.

Definition DHCP_OPTION_SUBNET_MASK := 1.
Definition DHCP_OPTION_ROUTER := 3.
Definition DHCP_OPTION_DNS_SERVER := 6.
Definition DHCP_OPTION_HOST_NAME := 12.
Definition DHCP_OPTION_REQ_IPADDR := 50.
Definition DHCP_OPTION_LEASE_TIME := 51.
Definition DHCP_OPTION_MSG_TYPE := 53.
Definition DHCP_OPTION_SERVER_ID := 54.
Definition DHCP_OPTION_REQ_LIST := 55.
Definition DHCP_OPTION_END := 255.

Definition xid : mem := [173; 222; 18; 35].
Definition magic_cookie : mem := [99; 130; 83; 99].

(** The fields of a message. *)
Definition m_op := 0.
Definition m_htype := 1.
Definition m_hlen := 2.
Definition m_hops := 3.
Definition m_xid := 4.
Definition m_secs := 8.
Definition m_flags := 10.
Definition m_ciaddr := 12.
Definition m_yiaddr := 16.
Definition m_siaddr := 20.
Definition m_giaddr := 24.
Definition m_chaddr := 28.
Definition m_sname := 44.
Definition m_file := 108.
Definition m_options := 236.

(** The protothread resumes at [s_pt]: 0 at the beginning, 1 and 2 in the waits, 3 in the last loop. *)
Record dhcpc_state := Dhcpc {
  s_pt : Z; s_state : Z; timer_init : Z; ticks : Z; mac_addr : mem; serverid : mem; lease_time : mem;
  s_ipaddr : mem; s_netmask : mem; dnsaddr : mem; default_router : mem }.

Definition with_pt (v : Z) (s : dhcpc_state) : dhcpc_state := Dhcpc v (s_state s) (timer_init s) (ticks s) (mac_addr s) (serverid s) (lease_time s) (s_ipaddr s) (s_netmask s) (dnsaddr s) (default_router s).
Definition with_state (v : Z) (s : dhcpc_state) : dhcpc_state := Dhcpc (s_pt s) v (timer_init s) (ticks s) (mac_addr s) (serverid s) (lease_time s) (s_ipaddr s) (s_netmask s) (dnsaddr s) (default_router s).
Definition with_timer (v : Z) (s : dhcpc_state) : dhcpc_state := Dhcpc (s_pt s) (s_state s) v (ticks s) (mac_addr s) (serverid s) (lease_time s) (s_ipaddr s) (s_netmask s) (dnsaddr s) (default_router s).
Definition with_ticks (v : Z) (s : dhcpc_state) : dhcpc_state := Dhcpc (s_pt s) (s_state s) (timer_init s) v (mac_addr s) (serverid s) (lease_time s) (s_ipaddr s) (s_netmask s) (dnsaddr s) (default_router s).
Definition with_serverid (v : mem) (s : dhcpc_state) : dhcpc_state := Dhcpc (s_pt s) (s_state s) (timer_init s) (ticks s) (mac_addr s) v (lease_time s) (s_ipaddr s) (s_netmask s) (dnsaddr s) (default_router s).
Definition with_lease (v : mem) (s : dhcpc_state) : dhcpc_state := Dhcpc (s_pt s) (s_state s) (timer_init s) (ticks s) (mac_addr s) (serverid s) v (s_ipaddr s) (s_netmask s) (dnsaddr s) (default_router s).
Definition with_ipaddr (v : mem) (s : dhcpc_state) : dhcpc_state := Dhcpc (s_pt s) (s_state s) (timer_init s) (ticks s) (mac_addr s) (serverid s) (lease_time s) v (s_netmask s) (dnsaddr s) (default_router s).
Definition with_netmask (v : mem) (s : dhcpc_state) : dhcpc_state := Dhcpc (s_pt s) (s_state s) (timer_init s) (ticks s) (mac_addr s) (serverid s) (lease_time s) (s_ipaddr s) v (dnsaddr s) (default_router s).
Definition with_dns (v : mem) (s : dhcpc_state) : dhcpc_state := Dhcpc (s_pt s) (s_state s) (timer_init s) (ticks s) (mac_addr s) (serverid s) (lease_time s) (s_ipaddr s) (s_netmask s) v (default_router s).
Definition with_router (v : mem) (s : dhcpc_state) : dhcpc_state := Dhcpc (s_pt s) (s_state s) (timer_init s) (ticks s) (mac_addr s) (serverid s) (lease_time s) (s_ipaddr s) (s_netmask s) (dnsaddr s) v.

Definition mac_len (s : dhcpc_state) : Z := msize (mac_addr s).

(** ** Messages that are sent *)

(** Options are written at a cursor: the packet and the offset of [optptr]. *)
Definition add_msg_type (type : Z) (w : mem * Z) : option (mem * Z) :=
  w ← put w DHCP_OPTION_MSG_TYPE; w ← put w 1; put w type.

Definition add_server_id (s : dhcpc_state) (w : mem * Z) : option (mem * Z) :=
  w ← put w DHCP_OPTION_SERVER_ID; w ← put w 4; wr w (serverid s).

Definition add_req_ipaddr (s : dhcpc_state) (w : mem * Z) : option (mem * Z) :=
  w ← put w DHCP_OPTION_REQ_IPADDR; w ← put w 4; wr w (s_ipaddr s).

(** [strcpy] writes the terminating zero too, which the next option overwrites. *)
Definition add_req_host_name (name : mem) (w : mem * Z) : option (mem * Z) :=
  w ← put w DHCP_OPTION_HOST_NAME;
  w ← put w (msize name);
  w' ← wr w (name ++ [0]);
  Some (w'.1, w.2 + msize name).

Definition add_req_options (w : mem * Z) : option (mem * Z) :=
  w ← put w DHCP_OPTION_REQ_LIST; w ← put w 3;
  w ← put w DHCP_OPTION_SUBNET_MASK; w ← put w DHCP_OPTION_ROUTER; put w DHCP_OPTION_DNS_SERVER.

Definition add_end (w : mem * Z) : option (mem * Z) := put w DHCP_OPTION_END.

Definition create_msg (hostaddr : mem) (s : dhcpc_state) (m : mem) : option mem :=
  m ← st m m_op DHCP_REQUEST;
  m ← st m m_htype DHCP_HTYPE_ETHERNET;
  m ← st m m_hlen (mac_len s);
  m ← st m m_hops 0;
  m ← mwrite m m_xid xid;
  m ← mwrite m m_secs [0; 0];
  m ← mwrite m m_flags [128; 0];
  m ← mwrite m m_ciaddr hostaddr;
  m ← mwrite m m_yiaddr [0; 0; 0; 0];
  m ← mwrite m m_siaddr [0; 0; 0; 0];
  m ← mwrite m m_giaddr [0; 0; 0; 0];
  m ← mwrite m m_chaddr (mac_addr s);
  m ← mwrite m (m_chaddr + mac_len s) (replicate (Z.to_nat (16 - mac_len s)) 0);
  m ← mwrite m m_sname (replicate 64 0);
  m ← mwrite m m_file (replicate 128 0);
  mwrite m m_options magic_cookie.

(** The packet and its length. *)
Definition send_discover (hostaddr : mem) (s : dhcpc_state) (m : mem) : option (mem * Z) :=
  m ← create_msg hostaddr s m;
  w ← add_msg_type DHCPDISCOVER (m, m_options + 4);
  w ← add_req_options w;
  w ← add_req_host_name HOSTNAME w;
  add_end w.

Definition send_request (hostaddr : mem) (s : dhcpc_state) (m : mem) : option (mem * Z) :=
  m ← create_msg hostaddr s m;
  w ← add_msg_type DHCPREQUEST (m, m_options + 4);
  w ← add_server_id s w;
  w ← add_req_ipaddr s w;
  w ← add_req_host_name HOSTNAME w;
  add_end w.

(** ** Messages that come *)

(** The loop over the options: an option at [p] moves it by at least 2. *)
Fixpoint parse_options_loop (fuel : nat) (m : mem) (p end_ : Z) (s : dhcpc_state) (type : Z) : option (dhcpc_state * Z) :=
  if p <? end_ then
    match fuel with
    | O => None
    | S fuel =>
        c ← ld m p;
        if c =? DHCP_OPTION_END then Some (s, type)
        else
          '(s, type) ←
            (if c =? DHCP_OPTION_SUBNET_MASK then v ← mread m (p + 2) 4; Some (with_netmask v s, type)
             else if c =? DHCP_OPTION_ROUTER then v ← mread m (p + 2) 4; Some (with_router v s, type)
             else if c =? DHCP_OPTION_DNS_SERVER then v ← mread m (p + 2) 4; Some (with_dns v s, type)
             else if c =? DHCP_OPTION_MSG_TYPE then v ← ld m (p + 2); Some (s, v)
             else if c =? DHCP_OPTION_SERVER_ID then v ← mread m (p + 2) 4; Some (with_serverid v s, type)
             else if c =? DHCP_OPTION_LEASE_TIME then v ← mread m (p + 2) 4; Some (with_lease v s, type)
             else Some (s, type));
          n ← ld m (p + 1);
          parse_options_loop fuel m (p + (n + 2)) end_ s type
    end
  else Some (s, type).

Definition parse_options (m : mem) (optptr len : Z) (s : dhcpc_state) : option (dhcpc_state * Z) :=
  parse_options_loop (Z.to_nat len) m optptr (optptr + len) s 0.

Definition parse_msg (m : mem) (datalen : Z) (s : dhcpc_state) : option (dhcpc_state * Z) :=
  op ← ld m m_op;
  if op =? DHCP_REPLY then
    x ← mread m m_xid 4;
    if bool_decide (x = xid) then
      a ← mread m m_chaddr (mac_len s);
      if bool_decide (a = mac_addr s) then
        y ← mread m m_yiaddr 4;
        parse_options m (m_options + 4) datalen (with_ipaddr y s)
      else Some (s, 0)
    else Some (s, 0)
  else Some (s, 0).

(** ** The thread *)

(** What the application does at the end: it takes the configuration, or its own. *)
Inductive action := Configured (ipaddr netmask router dns : mem) | Static.

Definition dhcpc_configured (s : dhcpc_state) : action :=
  if bool_decide (take 2 (s_ipaddr s) ≠ [0; 0]) then Configured (s_ipaddr s) (s_netmask s) (default_router s) (dnsaddr s) else Static.

(** A call: whether there is new data and how much; the time since the timer was started at its value; what starting it
    now returns, and the time from then to the end of the call. *)
Record event := Event { e_new : bool; e_len : Z; e_diff : Z → Z; e_start : Z; e_after : Z }.

(** What the thread works on: its state, [UIP_NEWDATA], the packet, and the length to be sent. *)
Record frame := Frame { f_s : dhcpc_state; f_new : bool; f_buf : mem; f_slen : Z }.

Definition in_state (g : dhcpc_state → dhcpc_state) (f : frame) : frame := Frame (g (f_s f)) (f_new f) (f_buf f) (f_slen f).
Definition no_new (f : frame) : frame := Frame (f_s f) false (f_buf f) (f_slen f).

Definition sends (send : dhcpc_state → mem → option (mem * Z)) (f : frame) : option frame :=
  '(m, n) ← send (f_s f) (f_buf f); Some (Frame (f_s f) (f_new f) m n).

Definition parses (len : Z) (f : frame) : option (frame * Z) :=
  '(s, t) ← parse_msg (f_buf f) len (f_s f); Some (Frame s (f_new f) (f_buf f) (f_slen f), t).

(** A loop of the thread waits, is left, or gives up. *)
Inductive outcome := Waiting (f : frame) | Leaves (f : frame) | GivesUp (f : frame).

Section thread.
Context (hostaddr : mem) (e : event).

(** The first loop; [waiting] resumes in the wait. *)
Fixpoint discover_loop (fuel : nat) (waiting : bool) (f : frame) : option outcome :=
  match fuel with
  | O => None
  | S fuel =>
      f ← (if waiting then Some f else f ← sends (send_discover hostaddr) f; Some (in_state (with_timer (e_start e)) f));
      let diff := if waiting then e_diff e (timer_init (f_s f)) else e_after e in
      if f_new f || (ticks (f_s f) <=? diff) then
        '(f, t) ← (if f_new f then parses (e_len e) f else Some (f, 0));
        if f_new f && (t =? DHCPOFFER) then Some (Leaves (in_state (with_state STATE_OFFER_RECEIVED) (no_new f)))
        else
          let f := no_new f in
          if ticks (f_s f) <? CLOCK_SECOND * 60 then discover_loop fuel false (in_state (with_ticks (u32 (ticks (f_s f) * 2))) f)
          else Some (GivesUp (in_state (with_ipaddr ([0; 0] ++ drop 2 (s_ipaddr (f_s f)))) f))
      else Some (Waiting (in_state (with_pt 1) f))
  end.

(** The second loop: a thread that gives up starts again. *)
Fixpoint request_loop (fuel : nat) (waiting : bool) (f : frame) : option outcome :=
  match fuel with
  | O => None
  | S fuel =>
      f ← (if waiting then Some f else f ← sends (send_request hostaddr) f; Some (in_state (with_timer (e_start e)) f));
      let diff := if waiting then e_diff e (timer_init (f_s f)) else e_after e in
      if f_new f || (ticks (f_s f) <=? diff) then
        '(f, t) ← (if f_new f then parses (e_len e) f else Some (f, 0));
        if f_new f && (t =? DHCPACK) then Some (Leaves (in_state (with_state STATE_CONFIG_RECEIVED) (no_new f)))
        else
          let f := no_new f in
          if ticks (f_s f) <=? CLOCK_SECOND * 10 then request_loop fuel false (in_state (with_ticks (u32 (ticks (f_s f) + CLOCK_SECOND))) f)
          else Some (GivesUp (in_state (with_pt 0) f))
      else Some (Waiting (in_state (with_pt 2) f))
  end.

(** A loop ends at the latest when the ticks have reached their bound. *)
Definition turns : nat := 16.

Definition after_request (o : outcome) : frame * list action :=
  match o with
  | Waiting f | GivesUp f => (f, [])
  | Leaves f => (in_state (with_pt 3) f, [dhcpc_configured (f_s f)])
  end.

Definition after_discover (o : outcome) : option (frame * list action) :=
  match o with
  | Waiting f => Some (f, [])
  | GivesUp f => Some (in_state (with_pt 3) f, [dhcpc_configured (f_s f)])
  | Leaves f => o ← request_loop turns false (in_state (with_ticks CLOCK_SECOND) f); Some (after_request o)
  end.

Definition handle_dhcp (f : frame) : option (frame * list action) :=
  let s := f_s f in
  if s_pt s =? 0 then
    o ← discover_loop turns false (in_state (λ s, with_ticks CLOCK_SECOND (with_state STATE_SENDING s)) f); after_discover o
  else if s_pt s =? 1 then o ← discover_loop turns true f; after_discover o
  else if s_pt s =? 2 then o ← request_loop turns true f; Some (after_request o)
  else Some (f, []).
End thread.

(** An event of the client's connection, with the packet that is in the buffer; what is sent is the result's first part. *)
Definition dhcpc_appcall (hostaddr : mem) (e : event) (m : mem) (s : dhcpc_state) : option (dhcpc_state * mem * list action) :=
  '(f, acts) ← handle_dhcp hostaddr e (Frame s (e_new e) m 0);
  Some (f_s f, take (Z.to_nat (f_slen f)) (f_buf f), acts).

(** ** The client in the stack *)

Section stack.
Context {conf : UipConf} {A : Type} (fuel : nat).
Abbreviation St := (stack A).

Definition DHCPC_SERVER_PORT := 67.
Definition DHCPC_CLIENT_PORT := 68.

Definition uip_udp_bind (i : nat) (port : Z) (s : St) : St :=
  set_udp_conns (alter (λ u, UipUdpConn (u_ripaddr u) port (u_rport u) (u_ttl u)) i (s_udp_conns s)) s.

(** The connection of the client, if there was one left, and its state. *)
Definition dhcpc_init (mac : mem) (stk : St) (s : dhcpc_state) : option (St * option nat * dhcpc_state) :=
  '(stk, c) ← uip_udp_new fuel (Some all_ones_addr) (HTONS DHCPC_SERVER_PORT) stk;
  let stk := match c with Some i => uip_udp_bind i (HTONS DHCPC_CLIENT_PORT) stk | None => stk end in
  Some (stk, c, Dhcpc 0 STATE_INITIAL (timer_init s) (ticks s) mac (serverid s) (lease_time s) (s_ipaddr s) (s_netmask s) (dnsaddr s) (default_router s)).

Definition dhcpc_request (stk : St) (s : dhcpc_state) : St := if s_state s =? STATE_INITIAL then set_hostaddr all_zeroes_addr stk else stk.

(** An address in memory: two words in the byte order of the processor. *)
Definition ip_bytes (a : ipaddr) : mem :=
  let word w := if uip_little then [w mod 256; w / 256] else [w / 256; w mod 256] in word a.1 ++ word a.2.

Definition ip_of (m : mem) : ipaddr :=
  let word i := if uip_little then nth i m 0 + 256 * nth (S i) m 0 else 256 * nth i m 0 + nth (S i) m 0 in (word 0%nat, word 2%nat).

(** What the end of the client does to the stack: its addresses, and the connection of the resolver. *)
Definition configure (c : addresses) (rc : option nat) (a : action) (stk : St) : option (St * option nat) :=
  match a with
  | Configured ip nm rt dns => resolv_conf fuel (ip_of dns) rc (set_draddr (ip_of rt) (set_netmask (ip_of nm) (set_hostaddr (ip_of ip) stk)))
  | Static => elua_uip_conf_static fuel c rc stk
  end.
End stack.

(** A list of events. *)
Fixpoint dhcp_run (hostaddr : mem) (l : list (event * mem)) (s : dhcpc_state) : option (dhcpc_state * list mem * list action) :=
  match l with
  | [] => Some (s, [], [])
  | (e, m) :: l =>
      '(s, out, acts) ← dhcpc_appcall hostaddr e m s;
      '(s, outs, acts') ← dhcp_run hostaddr l s;
      Some (s, out :: outs, acts ++ acts')
  end.
