(* ===== verification/DhcpSpec.v ===== *)
(** * What the DHCP client does

    The options as a list; the parser against the list; the exchange with a server, a server that is silent, and what is not as
    the protocol has it. *)
From S2P Require Import Prelude Psock UipSum Uip UipLoop Wire Dhcp.

(** ** Options as a list *)

Definition option_bytes (o : Z * mem) : mem := o.1 :: msize o.2 :: o.2.

Definition encode_options (l : list (Z * mem)) : mem := concat (map option_bytes l).

(** What an option means for the client. *)
Definition apply_option (x : dhcpc_state * Z) (o : Z * mem) : dhcpc_state * Z :=
  let '(s, type) := x in
  let '(c, v) := o in
  if c =? DHCP_OPTION_SUBNET_MASK then (with_netmask (take 4 v) s, type)
  else if c =? DHCP_OPTION_ROUTER then (with_router (take 4 v) s, type)
  else if c =? DHCP_OPTION_DNS_SERVER then (with_dns (take 4 v) s, type)
  else if c =? DHCP_OPTION_MSG_TYPE then (s, nth 0 v 0)
  else if c =? DHCP_OPTION_SERVER_ID then (with_serverid (take 4 v) s, type)
  else if c =? DHCP_OPTION_LEASE_TIME then (with_lease (take 4 v) s, type)
  else (s, type).

Definition apply_options (l : list (Z * mem)) (x : dhcpc_state * Z) : dhcpc_state * Z := fold_left apply_option l x.

(** An option of the protocol: an address or a time has four bytes at least, the type of a message one; not the pad option,
    which has no length. *)
Definition option_ok (o : Z * mem) : Prop :=
  0 < o.1 < 255 ∧ msize o.2 < 256 ∧ (o.1 ∈ [1; 3; 6; 51; 54] → 4 <= msize o.2) ∧ (o.1 = 53 → 1 <= msize o.2).

(** The first four bytes of a value. *)
Lemma mread_four (a v c : mem) i : i = msize a → 4 <= msize v → mread (a ++ v ++ c) i 4 = Some (take 4 v).
Proof.
  intros Hi Hv. rewrite <- (take_drop 4 v) at 1. rewrite <- app_assoc. apply mread_at; [done|]. unfold msize in *. rewrite length_take. lia.
Qed.

Lemma loop_option fuel pre c v rest end_ s type : option_ok (c, v) → msize pre < end_ →
  parse_options_loop (S fuel) (pre ++ option_bytes (c, v) ++ rest) (msize pre) end_ s type =
  parse_options_loop fuel (pre ++ option_bytes (c, v) ++ rest) (msize pre + (msize v + 2)) end_
    (apply_option (s, type) (c, v)).1 (apply_option (s, type) (c, v)).2.
Proof.
  intros (Hc & Hv & H4 & H1) Hend. cbn [fst snd] in *. cbn [parse_options_loop]. rewrite (proj2 (Z.ltb_lt _ _)) by done.
  unfold option_bytes. cbn [fst snd app]. set (m := pre ++ c :: msize v :: v ++ rest).
  assert (ld m (msize pre) = Some c) as -> by (by apply ld_at).
  assert (ld m (msize pre + 1) = Some (msize v)) as ->.
  { unfold m. replace (pre ++ c :: msize v :: v ++ rest) with ((pre ++ [c]) ++ msize v :: v ++ rest) by (by rewrite <- app_assoc). apply ld_at. rewrite msize_app. done. }
  assert (m = (pre ++ [c; msize v]) ++ v ++ rest) as Em by (unfold m; by rewrite <- app_assoc).
  assert (msize pre + 2 = msize (pre ++ [c; msize v])) as Ep by (by rewrite msize_app).
  assert (4 <= msize v → mread m (msize pre + 2) 4 = Some (take 4 v)) as Hr by (intros; rewrite Em; by apply mread_four).
  assert (1 <= msize v → ld m (msize pre + 2) = Some (nth 0 v 0)) as Hl.
  { intros Hp. rewrite Em. destruct v as [|x v]; [by cbn in Hp|]. by apply ld_at. }
  cbn [mbind option_bind]. unfold DHCP_OPTION_END. rewrite (proj2 (Z.eqb_neq c 255)) by lia. unfold apply_option.
  assert (∀ x, c = x → x ∈ [1; 3; 6; 51; 54] → 4 <= msize v) as H4' by (intros x ->; exact H4).
  unfold DHCP_OPTION_SUBNET_MASK, DHCP_OPTION_ROUTER, DHCP_OPTION_DNS_SERVER, DHCP_OPTION_MSG_TYPE, DHCP_OPTION_SERVER_ID, DHCP_OPTION_LEASE_TIME.
  destruct (Z.eqb_spec c 1); [rewrite Hr by (eapply H4'; [done|by left]); done|].
  destruct (Z.eqb_spec c 3); [rewrite Hr by (eapply H4'; [done|right; by left]); done|].
  destruct (Z.eqb_spec c 6); [rewrite Hr by (eapply H4'; [done|do 2 right; by left]); done|].
  destruct (Z.eqb_spec c 53); [rewrite Hl by auto; done|].
  destruct (Z.eqb_spec c 54); [rewrite Hr by (eapply H4'; [done|do 4 right; by left]); done|].
  destruct (Z.eqb_spec c 51); [rewrite Hr by (eapply H4'; [done|do 3 right; by left]); done|]. done.
Qed.

Lemma loop_options : ∀ l fuel pre rest end_ s type, Forall option_ok l → (length (encode_options l) < fuel)%nat →
  msize pre + msize (encode_options l) < end_ →
  parse_options_loop fuel (pre ++ encode_options l ++ DHCP_OPTION_END :: rest) (msize pre) end_ s type = Some (apply_options l (s, type)).
Proof.
  unfold encode_options, apply_options. induction l as [|[c v] l IH]; intros fuel pre rest end_ s type Hl Hf Hend; cbn [map concat fold_left] in *.
  - destruct fuel; [cbn in Hf; lia|]. cbn [parse_options_loop app]. rewrite (proj2 (Z.ltb_lt _ _)) by (rewrite msize_nil in Hend; lia).
    rewrite (ld_at pre rest (msize pre)) by done. done.
  - inversion Hl as [|? ? Hok Hl']; subst. destruct fuel as [|fuel]; [cbn in Hf; lia|].
    rewrite length_app, msize_app in *. pose proof (msize_nonneg (concat (map option_bytes l))).
    assert (msize (option_bytes (c, v)) = msize v + 2) as Hs by (unfold option_bytes; cbn [fst snd]; rewrite !msize_cons; lia).
    assert (length (option_bytes (c, v)) = S (S (length v))) as Hn by done.
    pose proof (msize_nonneg v). rewrite <- app_assoc, loop_option by (done || lia). rewrite app_assoc.
    replace (msize pre + (msize v + 2)) with (msize (pre ++ option_bytes (c, v))) by (rewrite msize_app; lia).
    rewrite IH; [by destruct (apply_option (s, type) (c, v))|done|lia|rewrite msize_app; lia].
Qed.

(** The options of a message, in any order and number, with options that the client does not know between them: the parser
    takes of each what it means, and the type of the message; what is behind the end option is not looked at. *)
Theorem options_parsed l pre rest len s : Forall option_ok l → msize (encode_options l) < len →
  parse_options (pre ++ encode_options l ++ DHCP_OPTION_END :: rest) (msize pre) len s = Some (apply_options l (s, 0)).
Proof.
  intros Hl Hlen. unfold parse_options. apply loop_options; [done| |lia]. unfold msize in *. lia.
Qed.

Ltac option_ok :=
  split; cbn [fst snd]; [lia|]; split; [by vm_compute|]; split; intros H;
  rewrite ?elem_of_cons, ?elem_of_nil in H; first [by vm_compute | exfalso; lia].

Definition sample_options : list (Z * mem) :=
  [(53, [2]); (54, [10; 0; 0; 1]); (51, [0; 0; 14; 16]); (15, [108; 97; 110]); (1, [255; 255; 255; 0]); (6, [10; 0; 0; 2; 10; 0; 0; 3])].

Definition idle_state : dhcpc_state := Dhcpc 0 0 0 0 [2; 0; 0; 0; 0; 9] [0; 0; 0; 0] [0; 0; 0; 0] [0; 0; 0; 0] [0; 0; 0; 0] [0; 0; 0; 0] [0; 0; 0; 0].

Lemma options_parsed_witness :
  parse_options (replicate 240 0 ++ encode_options sample_options ++ DHCP_OPTION_END :: [53; 1; 5]) 240 300 idle_state =
  Some (with_dns [10; 0; 0; 2] (with_netmask [255; 255; 255; 0] (with_lease [0; 0; 14; 16] (with_serverid [10; 0; 0; 1] idle_state))), 2).
Proof.
  apply (options_parsed sample_options (replicate 240 0) [53; 1; 5] 300 idle_state); [|by vm_compute].
  unfold sample_options. repeat (apply Forall_cons_2; [option_ok|]). apply Forall_nil_2.
Defined.

(** ** Messages of the client *)

Definition fits_message (hostaddr : mem) (s : dhcpc_state) : Prop :=
  msize hostaddr = 4 ∧ mac_len s <= 16 ∧ msize (serverid s) = 4 ∧ msize (s_ipaddr s) = 4.

(** The fixed part, with the cookie. *)
Definition header_bytes (hostaddr : mem) (s : dhcpc_state) : mem :=
  [DHCP_REQUEST; DHCP_HTYPE_ETHERNET; mac_len s; 0] ++ xid ++ [0; 0; 128; 0] ++ hostaddr ++ replicate 12 0 ++
  mac_addr s ++ replicate (Z.to_nat (16 - mac_len s)) 0 ++ replicate 192 0 ++ magic_cookie.

Lemma header_size hostaddr s : fits_message hostaddr s → msize (header_bytes hostaddr s) = 240.
Proof.
  intros (H4 & Hm & _). unfold header_bytes, mac_len in *. pose proof (msize_nonneg (mac_addr s)).
  rewrite !msize_app, !msize_replicate, !msize_cons, !msize_nil. change (msize xid) with 4. change (msize magic_cookie) with 4. lia.
Qed.

(** The sizes of the parts that are written. *)
Ltac sizes :=
  rewrite ?msize_app, ?msize_replicate, ?msize_cons, ?msize_nil in *;
  change (msize xid) with 4 in *; change (msize magic_cookie) with 4 in *; change (msize HOSTNAME) with 4 in *;
  unfold mac_len, m_op, m_htype, m_hlen, m_hops, m_xid, m_secs, m_flags, m_ciaddr, m_yiaddr, m_siaddr, m_giaddr, m_chaddr, m_sname, m_file, m_options in *;
  lia.

Lemma created hostaddr s m : fits_message hostaddr s → 548 <= msize m → create_msg hostaddr s m = Some (written m (header_bytes hostaddr s)).
Proof.
  intros Hfit Hm. destruct Hfit as (H4 & Hmac & _). pose proof (msize_nonneg (mac_addr s)) as Hpos.
  assert (m = written m []) as E0 by done. rewrite E0 at 1. unfold create_msg.
  do 4 (rewrite st_next by sizes; cbn [mbind option_bind]).
  do 11 (rewrite write_next by sizes; cbn [mbind option_bind]). rewrite write_next by sizes.
  unfold header_bytes. rewrite (u8_id (mac_len s)) by (unfold mac_len in *; lia). do 2 f_equal. rewrite <- !app_assoc.
  reflexivity.
Qed.

(** The name's terminating zero stays behind the cursor. *)
Lemma host_name_next m a name : msize a + 2 + msize name + 1 <= msize m → msize name < 256 →
  ∃ m', msize m' = msize m ∧ add_req_host_name name (cursor m a) = Some (cursor m' (a ++ option_bytes (DHCP_OPTION_HOST_NAME, name))).
Proof.
  intros H Hn. pose proof (msize_nonneg a). pose proof (msize_nonneg name). unfold add_req_host_name.
  rewrite put_next by lia. cbn [mbind option_bind]. rewrite put_next by sizes. cbn [mbind option_bind]. rewrite wr_next by sizes. cbn [mbind option_bind].
  set (a' := (a ++ [u8 DHCP_OPTION_HOST_NAME]) ++ [u8 (msize name)]). exists (a' ++ name ++ [0] ++ drop (length (a' ++ name ++ [0])) m).
  assert (msize a' = msize a + 2) as Ea by (unfold a'; rewrite !msize_app, !msize_cons, msize_nil; lia).
  assert (msize (drop (length (a' ++ name ++ [0])) m) = msize m - (msize a' + msize name + 1)) as Ed.
  { unfold msize in *. rewrite length_drop, !length_app. cbn [length]. lia. }
  split; [rewrite !msize_app, Ed; change (msize [0]) with 1; lia|]. unfold cursor, written. cbn [fst snd]. do 2 f_equal.
  - replace (a ++ option_bytes (DHCP_OPTION_HOST_NAME, name)) with (a' ++ name).
    + rewrite <- !app_assoc. do 2 f_equal. rewrite drop_app_ge by (rewrite length_app; lia).
      replace (length (a' ++ name) - length a')%nat with (length name) by (rewrite length_app; lia). by rewrite drop_app_length.
    + unfold a', option_bytes. cbn [fst snd]. rewrite (u8_id (msize name)) by lia. by rewrite <- !app_assoc.
  - unfold option_bytes. cbn [fst snd]. rewrite !msize_app, !msize_cons. lia.
Qed.

Definition discover_options : list (Z * mem) :=
  [(DHCP_OPTION_MSG_TYPE, [DHCPDISCOVER]); (DHCP_OPTION_REQ_LIST, [DHCP_OPTION_SUBNET_MASK; DHCP_OPTION_ROUTER; DHCP_OPTION_DNS_SERVER]); (DHCP_OPTION_HOST_NAME, HOSTNAME)].

Definition request_options (s : dhcpc_state) : list (Z * mem) :=
  [(DHCP_OPTION_MSG_TYPE, [DHCPREQUEST]); (DHCP_OPTION_SERVER_ID, serverid s); (DHCP_OPTION_REQ_IPADDR, s_ipaddr s); (DHCP_OPTION_HOST_NAME, HOSTNAME)].

(** A message on the wire. *)
Definition message (hostaddr : mem) (s : dhcpc_state) (l : list (Z * mem)) : mem :=
  header_bytes hostaddr s ++ encode_options l ++ [DHCP_OPTION_END].

(** A message whose last options are the name and the end. *)
Lemma message_end hostaddr s m a l : fits_message hostaddr s → a = header_bytes hostaddr s ++ encode_options l → msize a + 8 <= msize m →
  ∃ m' n, (w ← add_req_host_name HOSTNAME (cursor m a); add_end w) = Some (m', n) ∧ msize m' = msize m ∧
  take (Z.to_nat n) m' = message hostaddr s (l ++ [(DHCP_OPTION_HOST_NAME, HOSTNAME)]).
Proof.
  intros Hfit Ea Hm. destruct (host_name_next m a HOSTNAME) as (m' & Em & ->); [sizes|done|]. cbn [mbind option_bind]. unfold add_end.
  assert (msize (option_bytes (DHCP_OPTION_HOST_NAME, HOSTNAME)) = 6) as Eo by done.
  rewrite put_next by (rewrite msize_app, Eo, Em; lia). eexists _, _. split; [done|]. split.
  - rewrite written_size; [done|]. rewrite !msize_app, Eo, Em. change (msize [u8 DHCP_OPTION_END]) with 1. lia.
  - rewrite sent_bytes. unfold message, encode_options in *. rewrite Ea, map_app, concat_app, <- !app_assoc. done.
Qed.

Lemma discover_sent hostaddr s m : fits_message hostaddr s → 548 <= msize m →
  ∃ m' n, send_discover hostaddr s m = Some (m', n) ∧ msize m' = msize m ∧ take (Z.to_nat n) m' = message hostaddr s discover_options.
Proof.
  intros Hfit Hm. pose proof (header_size hostaddr s Hfit) as Hh. unfold send_discover. rewrite created by done. cbn [mbind option_bind].
  replace (m_options + 4) with (msize (header_bytes hostaddr s)) by (unfold m_options; lia).
  change (written m (header_bytes hostaddr s), msize (header_bytes hostaddr s)) with (cursor m (header_bytes hostaddr s)).
  unfold add_msg_type, add_req_options. do 8 (rewrite put_next by sizes; cbn [mbind option_bind]).
  apply (message_end hostaddr s m _ (take 2 discover_options)); [done|rewrite <- !app_assoc; reflexivity|sizes].
Qed.

Lemma request_sent hostaddr s m : fits_message hostaddr s → 548 <= msize m →
  ∃ m' n, send_request hostaddr s m = Some (m', n) ∧ msize m' = msize m ∧ take (Z.to_nat n) m' = message hostaddr s (request_options s).
Proof.
  intros Hfit Hm. pose proof (header_size hostaddr s Hfit) as Hh. unfold send_request. rewrite created by done. cbn [mbind option_bind].
  replace (m_options + 4) with (msize (header_bytes hostaddr s)) by (unfold m_options; lia).
  change (written m (header_bytes hostaddr s), msize (header_bytes hostaddr s)) with (cursor m (header_bytes hostaddr s)).
  pose proof Hfit as (_ & _ & Hsv & Hip). unfold add_msg_type, add_server_id, add_req_ipaddr.
  do 5 (rewrite put_next by sizes; cbn [mbind option_bind]). rewrite wr_next by sizes. cbn [mbind option_bind].
  do 2 (rewrite put_next by sizes; cbn [mbind option_bind]). rewrite wr_next by sizes. cbn [mbind option_bind].
  apply (message_end hostaddr s m _ (take 3 (request_options s))); [done| |sizes].
  unfold request_options, encode_options, option_bytes. cbn [take map concat fst snd]. rewrite Hsv, Hip, app_nil_r, <- !app_assoc. reflexivity.
Qed.

(** ** Messages of a server *)

(** A reply for this client, with its options and the end option. *)
Definition reply (s : dhcpc_state) (m yiaddr : mem) (l : list (Z * mem)) : Prop :=
  ∃ pre rest, msize pre = m_options + 4 ∧ m = pre ++ encode_options l ++ DHCP_OPTION_END :: rest ∧ Forall option_ok l ∧
  ld pre m_op = Some DHCP_REPLY ∧ mread pre m_xid 4 = Some xid ∧ mread pre m_chaddr (mac_len s) = Some (mac_addr s) ∧ mread pre m_yiaddr 4 = Some yiaddr.

Lemma mread_pre (a b : mem) i n v : mread a i n = Some v → mread (a ++ b) i n = Some v.
Proof.
  intros (H0 & H1 & H2 & ->)%mread_spec. apply mread_spec. rewrite msize_app. pose proof (msize_nonneg b). split_and!; try lia.
  unfold msize in *. rewrite drop_app_le by lia. rewrite take_app_le by (rewrite length_drop; lia). done.
Qed.

Lemma parse_reply s m yiaddr l len : reply s m yiaddr l → msize (encode_options l) < len →
  parse_msg m len s = Some (apply_options l (with_ipaddr yiaddr s, 0)).
Proof.
  intros (pre & rest & Hp & -> & Hl & Hop & Hx & Hc & Hy) Hlen. unfold parse_msg.
  assert (ld (pre ++ encode_options l ++ DHCP_OPTION_END :: rest) m_op = Some DHCP_REPLY) as ->.
  { rewrite ld_app_l; [done|]. rewrite Hp. by vm_compute. }
  cbn [mbind option_bind]. rewrite (mread_pre pre _ _ _ _ Hx). cbn [mbind option_bind]. rewrite bool_decide_true by done.
  rewrite (mread_pre pre _ _ _ _ Hc). cbn [mbind option_bind]. rewrite bool_decide_true by done.
  rewrite (mread_pre pre _ _ _ _ Hy). cbn [mbind option_bind Z.eqb]. rewrite <- Hp. unfold parse_options. apply loop_options; [done| |lia].
  unfold msize in *. lia.
Qed.

(** The configuration, without where the thread is and how long it waits. *)
Definition conf (s : dhcpc_state) : dhcpc_state :=
  Dhcpc 0 0 0 0 (mac_addr s) (serverid s) (lease_time s) (s_ipaddr s) (s_netmask s) (dnsaddr s) (default_router s).

Lemma apply_conf l : ∀ s t, apply_options l (conf s, t) = (conf (apply_options l (s, t)).1, (apply_options l (s, t)).2).
Proof.
  unfold apply_options. induction l as [|[c v] l IH]; intros s t; [done|]. cbn [fold_left].
  assert (apply_option (conf s, t) (c, v) = (conf (apply_option (s, t) (c, v)).1, (apply_option (s, t) (c, v)).2)) as ->.
  { unfold apply_option. repeat case_match; done. }
  rewrite IH. by destruct (apply_option (s, t) (c, v)).
Qed.

(** Options do the same to states of the same configuration. *)
Lemma apply_same l s1 s2 t : conf s1 = conf s2 →
  conf (apply_options l (s1, t)).1 = conf (apply_options l (s2, t)).1 ∧ (apply_options l (s1, t)).2 = (apply_options l (s2, t)).2.
Proof.
  intros H. pose proof (apply_conf l s1 t) as E1. pose proof (apply_conf l s2 t) as E2. rewrite H, E2 in E1.
  split; [exact (f_equal fst (eq_sym E1)) | exact (f_equal snd (eq_sym E1))].
Qed.

Lemma apply_mac l : ∀ s t, mac_addr (apply_options l (s, t)).1 = mac_addr s.
Proof.
  unfold apply_options. induction l as [|[c v] l IH]; intros s t; [done|]. cbn [fold_left].
  destruct (apply_option (s, t) (c, v)) as [s' t'] eqn:E. rewrite IH. unfold apply_option in E. repeat case_match; simplify_eq; done.
Qed.

(** Addresses of four bytes stay so. *)
Definition four (s : dhcpc_state) : Prop := msize (serverid s) = 4 ∧ msize (s_ipaddr s) = 4.

Lemma apply_four l : Forall option_ok l → ∀ s t, four s → four (apply_options l (s, t)).1.
Proof.
  unfold apply_options. induction 1 as [|[c v] l (_ & _ & H4 & _) _ IH]; intros s t Hs; [done|]. cbn [fold_left fst snd] in *.
  destruct (apply_option (s, t) (c, v)) as [s' t'] eqn:E. apply IH. unfold apply_option in E.
  unfold DHCP_OPTION_SUBNET_MASK, DHCP_OPTION_ROUTER, DHCP_OPTION_DNS_SERVER, DHCP_OPTION_MSG_TYPE, DHCP_OPTION_SERVER_ID, DHCP_OPTION_LEASE_TIME in E.
  destruct Hs as [H1 H2]. repeat case_match; simplify_eq; try done. split; [|done]. cbn [serverid with_serverid].
  match goal with H : (c =? 54) = true |- _ => apply Z.eqb_eq in H; subst c end.
  specialize (H4 ltac:(do 4 right; left)). unfold msize in *. rewrite length_take. lia.
Qed.

(** ** Calls of the thread *)

(** The client: an Ethernet address in the state, addresses of four bytes, and room in the packet buffer. *)
Definition client_ok (hostaddr : mem) (s : dhcpc_state) : Prop := msize hostaddr = 4 ∧ mac_len s <= 16 ∧ four s.

Lemma client_fits hostaddr s : client_ok hostaddr s → fits_message hostaddr s.
Proof. intros (? & ? & ? & ?). done. Qed.

Section calls.
Context (hostaddr : mem).

(** The first call sends a DISCOVER and waits. *)
Lemma call_first e m s : s_pt s = 0 → e_new e = false → e_after e < CLOCK_SECOND → 548 <= msize m → client_ok hostaddr s →
  dhcpc_appcall hostaddr e m s =
  Some (with_pt 1 (with_timer (e_start e) (with_ticks CLOCK_SECOND (with_state STATE_SENDING s))), message hostaddr s discover_options, []).
Proof.
  intros Hpt Hnew Hafter Hm Hc. unfold dhcpc_appcall, handle_dhcp. cbn [f_s]. rewrite Hpt. cbn [Z.eqb]. unfold turns.
  cbn [discover_loop]. unfold sends, in_state. cbn [f_s f_new f_buf f_slen].
  destruct (discover_sent hostaddr (with_ticks CLOCK_SECOND (with_state STATE_SENDING s)) m (client_fits _ _ Hc) Hm) as (m' & n & -> & Hm' & Hout).
  cbn. rewrite Hnew, (proj2 (Z.leb_gt _ _)) by done. cbn. rewrite Hout. done.
Qed.

(** Nothing happens in a poll before the time is over. *)
Lemma call_idle e m s : s_pt s = 1 ∨ s_pt s = 2 → e_new e = false → e_diff e (timer_init s) < ticks s →
  dhcpc_appcall hostaddr e m s = Some (s, [], []).
Proof.
  intros Hpt Hnew Hd. unfold dhcpc_appcall, handle_dhcp, turns. cbn [f_s].
  destruct s as [p st ti tk mac sv ls ip nm dns rt]. cbn [s_pt timer_init ticks] in *.
  destruct Hpt as [-> | ->]; cbn; rewrite Hnew, (proj2 (Z.leb_gt _ _)) by done; done.
Qed.

Lemma call_done e m s : s_pt s = 3 → dhcpc_appcall hostaddr e m s = Some (s, [], []).
Proof. intros Hpt. unfold dhcpc_appcall, handle_dhcp. cbn [f_s]. by rewrite Hpt. Qed.

(** An OFFER is answered with a REQUEST for the address and to the server of the offer. *)
Lemma call_offer e m s yiaddr l : s_pt s = 1 → e_new e = true → e_after e < CLOCK_SECOND → 548 <= msize m → client_ok hostaddr s →
  reply s m yiaddr l → msize (encode_options l) < e_len e → msize yiaddr = 4 →
  let x := apply_options l (with_ipaddr yiaddr s, 0) in x.2 = DHCPOFFER →
  dhcpc_appcall hostaddr e m s =
  Some (with_pt 2 (with_timer (e_start e) (with_ticks CLOCK_SECOND (with_state STATE_OFFER_RECEIVED x.1))), message hostaddr x.1 (request_options x.1), []).
Proof.
  intros Hpt Hnew Hafter Hm (H4 & Hmac & Hf) Hr Hlen Hy x Hx. unfold dhcpc_appcall, handle_dhcp, turns. cbn [f_s]. rewrite Hpt. cbn [Z.eqb Pos.eqb].
  cbn [discover_loop mbind option_bind f_s f_new f_buf f_slen]. rewrite Hnew. cbn [orb]. unfold parses. cbn [f_s f_new f_buf f_slen].
  rewrite (parse_reply s m yiaddr l) by done. fold x. destruct x as [s' t] eqn:Ex. cbn [fst snd] in *. subst t.
  cbn [mbind option_bind f_new andb]. rewrite Z.eqb_refl. cbn [mbind option_bind after_discover]. unfold turns. cbn [request_loop mbind option_bind].
  assert (client_ok hostaddr s') as Hc.
  { assert (s' = (apply_options l (with_ipaddr yiaddr s, 0)).1) as -> by (fold x; by rewrite Ex).
    split; [done|]. split; [unfold mac_len; by rewrite apply_mac|]. apply apply_four; [by destruct Hr as (? & ? & _ & _ & ? & _)|].
    destruct Hf. by split. }
  unfold sends, in_state, no_new. cbn [f_s f_new f_buf f_slen].
  destruct (request_sent hostaddr (with_ticks CLOCK_SECOND (with_state STATE_OFFER_RECEIVED s')) m (client_fits _ _ Hc) Hm) as (m' & n & -> & Hm' & Hout).
  cbn. rewrite (proj2 (Z.leb_gt _ _)) by done. cbn. rewrite Hout. done.
Qed.

(** An ACK ends it. *)
Lemma call_ack e m s yiaddr l : s_pt s = 2 → e_new e = true → reply s m yiaddr l → msize (encode_options l) < e_len e →
  let x := apply_options l (with_ipaddr yiaddr s, 0) in x.2 = DHCPACK →
  dhcpc_appcall hostaddr e m s = Some (with_pt 3 (with_state STATE_CONFIG_RECEIVED x.1), [], [dhcpc_configured x.1]).
Proof.
  intros Hpt Hnew Hr Hlen x Hx. unfold dhcpc_appcall, handle_dhcp, turns. cbn [f_s]. rewrite Hpt. cbn [Z.eqb Pos.eqb].
  cbn [request_loop mbind option_bind f_s f_new f_buf f_slen]. rewrite Hnew. cbn [orb]. unfold parses. cbn [f_s f_new f_buf f_slen].
  rewrite (parse_reply s m yiaddr l) by done. fold x. destruct x as [s' t]. cbn [fst snd] in *. subst t.
  cbn [mbind option_bind f_new andb]. rewrite Z.eqb_refl. done.
Qed.

Lemma run_app l1 : ∀ l2 s, dhcp_run hostaddr (l1 ++ l2) s =
  ('(s, o1, a1) ← dhcp_run hostaddr l1 s; '(s, o2, a2) ← dhcp_run hostaddr l2 s; Some (s, o1 ++ o2, a1 ++ a2)).
Proof.
  induction l1 as [|[e m] l1 IH]; intros l2 s; cbn [dhcp_run app].
  - cbn. by destruct (dhcp_run hostaddr l2 s) as [[[? ?] ?]|].
  - destruct (dhcpc_appcall hostaddr e m s) as [[[s' out] acts]|]; cbn; [|done]. rewrite IH.
    destruct (dhcp_run hostaddr l1 s') as [[[s1 o1] a1]|]; cbn; [|done].
    destruct (dhcp_run hostaddr l2 s1) as [[[s2 o2] a2]|]; cbn; [|done]. by rewrite app_assoc.
Qed.

(** Polls before the time is over. *)
Definition idle (s : dhcpc_state) (x : event * mem) : Prop := e_new x.1 = false ∧ e_diff x.1 (timer_init s) < ticks s.

Lemma run_idle l s : s_pt s = 1 ∨ s_pt s = 2 → Forall (idle s) l → dhcp_run hostaddr l s = Some (s, replicate (length l) [], []).
Proof.
  intros Hpt. induction 1 as [|[e m] l [Hn Hd] _ IH]; [done|]. cbn [dhcp_run length replicate].
  rewrite call_idle by done. cbn. by rewrite IH.
Qed.
End calls.

(** ** The values of options *)

(** The value of the last option of a kind, or what was known before. *)
Definition option_value (c : Z) (l : list (Z * mem)) (v : mem) : mem := fold_left (λ v o, if o.1 =? c then take 4 o.2 else v) l v.

Definition message_type (l : list (Z * mem)) : Z := fold_left (λ t o, if o.1 =? DHCP_OPTION_MSG_TYPE then nth 0 o.2 0 else t) l 0.

Lemma apply_values l : ∀ s t, let s' := (apply_options l (s, t)).1 in
  s_ipaddr s' = s_ipaddr s ∧ s_netmask s' = option_value 1 l (s_netmask s) ∧ default_router s' = option_value 3 l (default_router s) ∧
  dnsaddr s' = option_value 6 l (dnsaddr s) ∧ serverid s' = option_value 54 l (serverid s).
Proof.
  unfold apply_options, option_value. induction l as [|[c v] l IH]; intros s t; [done|]. cbn [fold_left fst snd].
  destruct (apply_option (s, t) (c, v)) as [s' t'] eqn:E. destruct (IH s' t') as (-> & -> & -> & -> & ->). clear IH. unfold apply_option in E.
  unfold DHCP_OPTION_SUBNET_MASK, DHCP_OPTION_ROUTER, DHCP_OPTION_DNS_SERVER, DHCP_OPTION_MSG_TYPE, DHCP_OPTION_SERVER_ID, DHCP_OPTION_LEASE_TIME in E. revert E.
  destruct (Z.eqb_spec c 1) as [->|]; [by intros [= <- <-]|]. destruct (Z.eqb_spec c 3) as [->|]; [by intros [= <- <-]|].
  destruct (Z.eqb_spec c 6) as [->|]; [by intros [= <- <-]|]. destruct (Z.eqb_spec c 53) as [->|]; [by intros [= <- <-]|].
  destruct (Z.eqb_spec c 54) as [->|]; [by intros [= <- <-]|]. destruct (c =? 51); by intros [= <- <-].
Qed.

Lemma apply_type l s : (apply_options l (s, 0)).2 = message_type l.
Proof.
  enough (∀ t s, (fold_left apply_option l (s, t)).2 = fold_left (λ t o, if o.1 =? DHCP_OPTION_MSG_TYPE then nth 0 o.2 0 else t) l t) as H by apply H.
  clear s. induction l as [|[c v] l IH]; intros t s; [done|]. cbn [fold_left fst snd].
  unfold apply_option at 2. unfold DHCP_OPTION_SUBNET_MASK, DHCP_OPTION_ROUTER, DHCP_OPTION_DNS_SERVER, DHCP_OPTION_MSG_TYPE, DHCP_OPTION_SERVER_ID, DHCP_OPTION_LEASE_TIME.
  destruct (Z.eqb_spec c 1) as [->|]; [by rewrite IH|]. destruct (Z.eqb_spec c 3) as [->|]; [by rewrite IH|].
  destruct (Z.eqb_spec c 6) as [->|]; [by rewrite IH|]. destruct (Z.eqb_spec c 53) as [->|]; [by rewrite IH|].
  destruct (c =? 54); [by rewrite IH|]. destruct (c =? 51); by rewrite IH.
Qed.

(** ** The connection *)

Section connection.
Context {conf : UipConf} {A : Type} (fuel : nat).

(** The connection that the client opens is to the broadcast address, between the ports of the protocol. *)
Lemma init_connection mac (stk stk' : stack A) i s0 s : dhcpc_init fuel mac stk s0 = Some (stk', Some i, s) →
  s_udp_conns stk' !! i = Some (UipUdpConn all_ones_addr (HTONS 68) (HTONS 67) UIP_TTL) ∧
  s = Dhcpc 0 STATE_INITIAL (timer_init s0) (ticks s0) mac (serverid s0) (lease_time s0) (s_ipaddr s0) (s_netmask s0) (dnsaddr s0) (default_router s0).
Proof.
  intros E. unfold dhcpc_init, uip_udp_new in E. cbv zeta in E. destruct (udp_unused_port fuel stk) as [s1|]; [|done]. cbn [mbind option_bind] in E.
  destruct (list_find _ (s_udp_conns s1)) as [[j u]|] eqn:Hj; cbn [mbind option_bind] in E; [|discriminate].
  injection E as <- <- <-. split; [|done]. apply list_find_Some in Hj as (Hj & _ & _). apply lookup_lt_Some in Hj.
  unfold uip_udp_bind. cbn [set_udp_conns s_udp_conns]. by rewrite list_lookup_alter_eq, list_lookup_insert_eq.
Qed.

(** What the board's addresses are after the end of the client. *)
Lemma configure_addresses c rc ip nm rt dns (stk stk' : stack A) rc' : configure fuel c rc (Configured ip nm rt dns) stk = Some (stk', rc') →
  s_hostaddr stk' = ip_of ip ∧ Uip.s_netmask stk' = ip_of nm ∧ s_draddr stk' = ip_of rt ∧
  ∀ j, rc' = Some j → ∃ u, s_udp_conns stk' !! j = Some u ∧ u_ripaddr u = ip_of dns ∧ u_rport u = HTONS 53.
Proof.
  assert (∀ n (x y : stack A), udp_unused_port n x = Some y → s_hostaddr y = s_hostaddr x ∧ Uip.s_netmask y = Uip.s_netmask x ∧ s_draddr y = s_draddr x) as Hport.
  { induction n as [|n IH]; intros x y Hxy; [done|]. cbn [udp_unused_port] in Hxy. cbv zeta in Hxy. destruct (udp_port_used _ _); [apply IH in Hxy; exact Hxy|by injection Hxy as <-]. }
  unfold configure, resolv_conf, uip_udp_new. set (x := match rc with Some _ => _ | None => _ end).
  assert (s_hostaddr x = ip_of ip ∧ Uip.s_netmask x = ip_of nm ∧ s_draddr x = ip_of rt) as (H1 & H2 & H3) by (unfold x; by destruct rc).
  clearbody x. intros E. destruct (udp_unused_port fuel x) as [y|] eqn:Hy; [|done]. destruct (Hport _ _ _ Hy) as (G1 & G2 & G3). rewrite <- G1 in H1. rewrite <- G2 in H2. rewrite <- G3 in H3.
  cbn [mbind option_bind] in E. destruct (list_find _ _) as [[j u]|] eqn:Hj; injection E as <- <-; [|by split_and!].
  apply list_find_Some in Hj as (Hj & _ & _). apply lookup_lt_Some in Hj. split_and!; try done. intros k [= <-].
  cbn [set_udp_conns s_udp_conns]. rewrite list_lookup_insert_eq by done. by eexists.
Qed.
End connection.

(** ** The exchange *)

(** The exchange from any state before the first call, with the states that the options make. *)
Lemma exchange hostaddr s e1 m1 idle1 e2 m2 y2 l2 idle2 e3 m3 y3 l3 :
  client_ok hostaddr s → s_pt s = 0 →
  e_new e1 = false → e_after e1 < CLOCK_SECOND → 548 <= msize m1 →
  Forall (λ x, e_new x.1 = false ∧ e_diff x.1 (e_start e1) < CLOCK_SECOND) idle1 →
  e_new e2 = true → e_after e2 < CLOCK_SECOND → 548 <= msize m2 → reply s m2 y2 l2 → msize (encode_options l2) < e_len e2 → msize y2 = 4 →
  let offer := apply_options l2 (with_ipaddr y2 s, 0) in offer.2 = DHCPOFFER →
  Forall (λ x, e_new x.1 = false ∧ e_diff x.1 (e_start e2) < CLOCK_SECOND) idle2 →
  e_new e3 = true → reply s m3 y3 l3 → msize (encode_options l3) < e_len e3 →
  let ack := apply_options l3 (with_ipaddr y3 offer.1, 0) in ack.2 = DHCPACK →
  ∃ s', dhcp_run hostaddr ((e1, m1) :: idle1 ++ (e2, m2) :: idle2 ++ [(e3, m3)]) s =
    Some (s', message hostaddr s discover_options :: replicate (length idle1) [] ++
              message hostaddr offer.1 (request_options offer.1) :: replicate (length idle2) [] ++ [[]],
          [dhcpc_configured ack.1]) ∧ s_pt s' = 3.
Proof.
  intros Hc Hpt Hn1 Ha1 Hm1 Hidle1 Hn2 Ha2 Hm2 Hr2 Hl2 Hy2 offer Hoffer Hidle2 Hn3 Hr3 Hl3 ack Hack.
  cbn [dhcp_run]. rewrite (call_first hostaddr e1 m1 s) by done. cbn [mbind option_bind].
  set (s1 := with_pt 1 (with_timer (e_start e1) (with_ticks CLOCK_SECOND (with_state STATE_SENDING s)))).
  rewrite run_app, (run_idle hostaddr idle1 s1) by (first [by left | exact Hidle1]). cbn [mbind option_bind dhcp_run].
  destruct (apply_same l2 (with_ipaddr y2 s1) (with_ipaddr y2 s) 0 eq_refl) as [Econf Etype].
  fold offer in Econf, Etype. set (x := apply_options l2 (with_ipaddr y2 s1, 0)) in *. assert (x.2 = DHCPOFFER) as Hx by congruence.
  rewrite (call_offer hostaddr e2 m2 s1 y2 l2) by done. fold x. cbn [mbind option_bind].
  set (s2 := with_pt 2 (with_timer (e_start e2) (with_ticks CLOCK_SECOND (with_state STATE_OFFER_RECEIVED x.1)))).
  rewrite run_app, (run_idle hostaddr idle2 s2) by (first [by right | exact Hidle2]). cbn [mbind option_bind dhcp_run].
  assert (conf (with_ipaddr y3 s2) = conf (with_ipaddr y3 offer.1)) as E3.
  { change (conf (with_ipaddr y3 (conf x.1)) = conf (with_ipaddr y3 (conf offer.1))). by rewrite Econf. }
  destruct (apply_same l3 _ _ 0 E3) as [Econf' Etype']. fold ack in Econf', Etype'.
  set (y := apply_options l3 (with_ipaddr y3 s2, 0)) in *. assert (y.2 = DHCPACK) as Hy by congruence.
  assert (reply s2 m3 y3 l3) as Hr3'.
  { unfold reply, mac_len. change (mac_addr s2) with (mac_addr x.1). unfold x. rewrite apply_mac. exact Hr3. }
  rewrite (call_ack hostaddr e3 m3 s2 y3 l3) by done. fold y. cbn [mbind option_bind app].
  exists (with_pt 3 (with_state STATE_CONFIG_RECEIVED y.1)). split; [|done].
  change (dhcpc_configured y.1) with (dhcpc_configured (conf y.1)). rewrite Econf'.
  change (message hostaddr x.1 (request_options x.1)) with (message hostaddr (conf x.1) (request_options (conf x.1))). rewrite Econf.
  done.
Qed.

(** A request for this address, to this server. *)
Definition request_for (server ip : mem) : list (Z * mem) :=
  [(DHCP_OPTION_MSG_TYPE, [DHCPREQUEST]); (DHCP_OPTION_SERVER_ID, server); (DHCP_OPTION_REQ_IPADDR, ip); (DHCP_OPTION_HOST_NAME, HOSTNAME)].

(** C12: the exchange with a server, from the initialisation on: the client has a connection from port 68 to port 67 of the broadcast
    address; it sends a DISCOVER; the OFFER that comes is answered with a REQUEST for the address that is offered, to the server that
    offered it; and the ACK configures the board with the ACK's address, and with the netmask, the router and the name server of the
    last option of each kind in the server's messages. Polls in between do nothing. An ACK's address begins with a word that is not 0. *)
Theorem dhcp_configures {conf : UipConf} {A} fuel mac (stk stk1 : stack A) i s0 s e1 m1 idle1 e2 m2 y2 l2 idle2 e3 m3 y3 l3 :
  dhcpc_init fuel mac stk s0 = Some (stk1, Some i, s) → msize mac <= 16 → four s0 →
  e_new e1 = false → e_after e1 < CLOCK_SECOND → 548 <= msize m1 →
  Forall (λ x, e_new x.1 = false ∧ e_diff x.1 (e_start e1) < CLOCK_SECOND) idle1 →
  e_new e2 = true → e_after e2 < CLOCK_SECOND → 548 <= msize m2 → reply s m2 y2 l2 → msize (encode_options l2) < e_len e2 → msize y2 = 4 →
  message_type l2 = DHCPOFFER →
  Forall (λ x, e_new x.1 = false ∧ e_diff x.1 (e_start e2) < CLOCK_SECOND) idle2 →
  e_new e3 = true → reply s m3 y3 l3 → msize (encode_options l3) < e_len e3 → message_type l3 = DHCPACK → take 2 y3 ≠ [0; 0] →
  let hostaddr := ip_bytes (s_hostaddr (dhcpc_request stk1 s)) in
  s_udp_conns stk1 !! i = Some (UipUdpConn all_ones_addr (HTONS 68) (HTONS 67) UIP_TTL) ∧
  ∃ s', dhcp_run hostaddr ((e1, m1) :: idle1 ++ (e2, m2) :: idle2 ++ [(e3, m3)]) s =
    Some (s', message hostaddr s discover_options :: replicate (length idle1) [] ++
              message hostaddr s (request_for (option_value DHCP_OPTION_SERVER_ID l2 (serverid s0)) y2) :: replicate (length idle2) [] ++ [[]],
          [Configured y3 (option_value DHCP_OPTION_SUBNET_MASK (l2 ++ l3) (s_netmask s0)) (option_value DHCP_OPTION_ROUTER (l2 ++ l3) (default_router s0))
             (option_value DHCP_OPTION_DNS_SERVER (l2 ++ l3) (dnsaddr s0))]) ∧ s_pt s' = 3.
Proof.
  intros Hinit Hmac Hf Hn1 Ha1 Hm1 Hidle1 Hn2 Ha2 Hm2 Hr2 Hl2 Hy2 Hoffer Hidle2 Hn3 Hr3 Hl3 Hack Hy3 hostaddr.
  destruct (init_connection fuel mac stk stk1 i s0 s Hinit) as [Hconn Es]. split; [exact Hconn|].
  assert (hostaddr = [0; 0; 0; 0]) as Eh by (unfold hostaddr, dhcpc_request; rewrite Es; cbn; unfold ip_bytes; destruct uip_little; reflexivity).
  assert (client_ok hostaddr s) as Hc by (rewrite Eh, Es; split; [done|]; by split).
  destruct (exchange hostaddr s e1 m1 idle1 e2 m2 y2 l2 idle2 e3 m3 y3 l3) as (s' & E & Hpt);
    try done; [by rewrite Es|by rewrite apply_type|by rewrite apply_type|].
  exists s'. split; [|exact Hpt]. rewrite E. clear E.
  destruct (apply_values l2 (with_ipaddr y2 s) 0) as (V1 & V2 & V3 & V4 & V5).
  set (offer := (apply_options l2 (with_ipaddr y2 s, 0)).1) in *.
  destruct (apply_values l3 (with_ipaddr y3 offer) 0) as (W1 & W2 & W3 & W4 & _).
  set (ack := (apply_options l3 (with_ipaddr y3 offer, 0)).1) in *.
  assert (mac_addr offer = mac_addr s) as Em by (unfold offer; by rewrite apply_mac).
  assert (dhcpc_configured ack = Configured y3 (option_value DHCP_OPTION_SUBNET_MASK (l2 ++ l3) (s_netmask s0))
    (option_value DHCP_OPTION_ROUTER (l2 ++ l3) (default_router s0)) (option_value DHCP_OPTION_DNS_SERVER (l2 ++ l3) (dnsaddr s0))) as ->.
  { unfold dhcpc_configured, option_value. rewrite W1. cbn [s_ipaddr with_ipaddr]. rewrite bool_decide_true by done. rewrite W2, W3, W4, !fold_left_app.
    cbn [s_netmask default_router dnsaddr with_ipaddr]. rewrite V2, V3, V4, Es. reflexivity. }
  assert (message hostaddr offer (request_options offer) = message hostaddr s (request_for (option_value DHCP_OPTION_SERVER_ID l2 (serverid s0)) y2)) as ->; [|done].
  unfold message, request_options, request_for, header_bytes, mac_len. rewrite Em, V5, V1, Es. reflexivity.
Qed.

(** ** A server that does not answer *)

(** A poll at a time: the timer counts microseconds. *)
Definition poll_at (now : Z) (m : mem) : event * mem := (Event false 0 (λ t, now - t) now 0, m).

(** Polls at these times, each at most [gap] after the one before it. *)
Fixpoint polls (gap last : Z) (l : list (Z * mem)) : Prop :=
  match l with [] => True | (now, m) :: l => last <= now <= last + gap ∧ 548 <= msize m ∧ polls gap now l end.

Definition events (l : list (Z * mem)) : list (event * mem) := map (λ x, poll_at x.1 x.2) l.

Section silent.
Context (hostaddr : mem) (t0 gap : Z).

(** After [k] messages without an answer. *)
Definition waits (k : nat) (last : Z) (s : dhcpc_state) : Prop :=
  (k <= 6)%nat ∧ s_pt s = 1 ∧ client_ok hostaddr s ∧ ticks s = CLOCK_SECOND * 2 ^ Z.of_nat k ∧
  timer_init s <= t0 + CLOCK_SECOND * (2 ^ Z.of_nat k - 1) + Z.of_nat k * gap ∧ timer_init s <= last < timer_init s + ticks s.

(** A poll when the time is over: the next message, and twice the time. *)
Lemma call_again k last now m s : waits k last s → (k < 6)%nat → last <= now <= last + gap → timer_init s + ticks s <= now → 548 <= msize m →
  ∃ s' out, dhcpc_appcall hostaddr (poll_at now m).1 m s = Some (s', out, []) ∧ waits (S k) now s'.
Proof.
  intros (Hk & Hpt & Hc & Ht & Hti & Hlast) Hlt Hnow Hover Hm. unfold dhcpc_appcall, handle_dhcp, turns, poll_at. cbn [f_s fst].
  rewrite Hpt. cbn [Z.eqb Pos.eqb]. cbn [discover_loop mbind option_bind f_s f_new f_buf f_slen e_new e_diff]. cbn [orb].
  rewrite (proj2 (Z.leb_le _ _)) by lia. cbn [mbind option_bind f_new andb]. unfold no_new, in_state, sends. cbn [f_s f_new f_buf f_slen].
  assert (2 ^ Z.of_nat k <= 2 ^ 5) as Hp by (apply Z.pow_le_mono_r; lia). assert (0 < 2 ^ Z.of_nat k) as Hp0 by (apply Z.pow_pos_nonneg; lia).
  change (2 ^ 5) with 32 in Hp. unfold CLOCK_SECOND in *.
  rewrite (proj2 (Z.ltb_lt _ _)) by lia. rewrite u32_id by lia.
  assert (client_ok hostaddr (with_ticks (ticks s * 2) s)) as Hc' by exact Hc.
  destruct (discover_sent hostaddr _ m (client_fits _ _ Hc') Hm) as (m' & n & -> & Hm' & Hout).
  cbn [mbind option_bind f_s f_new f_buf f_slen e_start e_after ticks with_timer with_ticks orb].
  rewrite (proj2 (Z.leb_gt _ _)) by lia. cbn [mbind option_bind after_discover f_s f_new f_buf f_slen]. eexists _, _. split; [done|].
  assert (2 ^ Z.of_nat (S k) = 2 * 2 ^ Z.of_nat k) as E2 by (rewrite Nat2Z.inj_succ, Z.pow_succ_r; lia).
  split_and!; cbn [s_pt ticks timer_init with_pt with_timer with_ticks]; try done; unfold CLOCK_SECOND; lia.
Qed.

(** The last one: the board takes its own configuration. *)
Lemma call_gives_up last now m s : waits 6 last s → timer_init s + ticks s <= now →
  ∃ s', dhcpc_appcall hostaddr (poll_at now m).1 m s = Some (s', [], [Static]) ∧ s_pt s' = 3.
Proof.
  intros (Hk & Hpt & Hc & Ht & Hti & Hlast) Hover. unfold dhcpc_appcall, handle_dhcp, turns, poll_at. cbn [f_s fst].
  rewrite Hpt. cbn [Z.eqb Pos.eqb]. cbn [discover_loop mbind option_bind f_s f_new f_buf f_slen e_new e_diff]. cbn [orb].
  rewrite (proj2 (Z.leb_le _ _)) by lia. cbn [mbind option_bind f_new andb]. unfold no_new, in_state. cbn [f_s f_new f_buf f_slen].
  rewrite Ht. change (CLOCK_SECOND * 2 ^ Z.of_nat 6 <? CLOCK_SECOND * 60) with false. cbn [mbind option_bind after_discover f_s f_new f_buf f_slen].
  set (s' := with_ipaddr _ _). assert (dhcpc_configured s' = Static) as Ea.
  { unfold dhcpc_configured. rewrite bool_decide_false; [done|]. intros H. by apply H. }
  exists (with_pt 3 s'). split; [|done]. change (Some (with_pt 3 s', @nil Z, [dhcpc_configured s']) = Some (with_pt 3 s', [], [Static])). by rewrite Ea.
Qed.

Lemma run_done l : ∀ s, s_pt s = 3 → ∃ outs, dhcp_run hostaddr l s = Some (s, outs, []).
Proof.
  induction l as [|[e m] l IH]; intros s Hpt; [by exists []|]. cbn [dhcp_run]. rewrite call_done by done.
  destruct (IH s Hpt) as [outs E]. cbn. rewrite E. by eexists.
Qed.

Lemma run_silent : ∀ l k last s, waits k last s → polls gap last l →
  ∃ s' outs acts, dhcp_run hostaddr (events l) s = Some (s', outs, acts) ∧
  (acts = [Static] ∨ acts = [] ∧ ∃ k' , waits k' (List.last (map fst l) last) s').
Proof.
  induction l as [|[now m] l IH]; intros k last s Hw Hp.
  - exists s, [], []. split; [done|]. right. split; [done|]. by exists k.
  - destruct Hp as (Hnow & Hm & Hp). cbn [events map dhcp_run fst snd]. change (map (λ x, poll_at x.1 x.2) l) with (events l).
    unfold poll_at at 1. cbv beta iota zeta.
    assert (List.last (now :: map fst l) last = List.last (map fst l) now) as El.
    { clear. revert now last. induction (map fst l) as [|x xs IH]; intros now last; [done|].
      change (List.last (now :: x :: xs) last) with (List.last (x :: xs) last). rewrite (IH x last), (IH x now). done. }
    change (Event false 0 (λ t : Z, now - t) now 0) with (poll_at now m).1. rewrite El.
    destruct (Z.lt_ge_cases now (timer_init s + ticks s)) as [Hlt|Hover].
    + assert (waits k now s) as Hw' by (destruct Hw as (? & ? & ? & ? & ? & ?); split_and!; (done || lia)).
      rewrite call_idle; [|left; apply Hw|done|cbn; lia]. cbn [mbind option_bind].
      destruct (IH k now s Hw' Hp) as (s' & outs & acts & -> & H). cbn. by exists s', ([] :: outs), acts.
    + destruct (decide (k = 6%nat)) as [->|Hk].
      * destruct (call_gives_up last now m s Hw Hover) as (s' & -> & Hpt). cbn [mbind option_bind].
        destruct (run_done (events l) s' Hpt) as [outs ->]. cbn. eexists _, _, _. split; [done|]. by left.
      * assert (k < 6)%nat by (destruct Hw; lia).
        destruct (call_again k last now m s) as (s' & out & -> & Hw'); [done..|]. cbn [mbind option_bind].
        destruct (IH (S k) now s' Hw' Hp) as (s2 & outs & acts & -> & H'). cbn. by exists s2, (out :: outs), acts.
Qed.
End silent.

(** A network without a DHCP server: when the client is polled at least every [gap] microseconds, then 127 seconds and seven
    gaps after its first message it has taken the configuration of the board, and this once. *)
Theorem dhcp_gives_up hostaddr gap t0 m0 l s : 0 <= gap → client_ok hostaddr s → s_pt s = 0 → 548 <= msize m0 → polls gap t0 l →
  t0 + 127 * CLOCK_SECOND + 7 * gap <= List.last (map fst l) t0 →
  ∃ s' outs, dhcp_run hostaddr (events ((t0, m0) :: l)) s = Some (s', outs, [Static]).
Proof.
  intros Hgap Hc Hpt Hm Hp Hlast. cbn [events map dhcp_run fst snd]. change (map (λ x, poll_at x.1 x.2) l) with (events l).
  unfold poll_at at 1. cbv beta iota zeta. rewrite call_first by done. cbn [mbind option_bind e_start].
  set (s1 := with_pt 1 (with_timer t0 (with_ticks CLOCK_SECOND (with_state STATE_SENDING s)))).
  destruct (run_silent hostaddr t0 gap l 0 t0 s1) as (s' & outs & acts & -> & [->|[-> [k Hw]]]).
  - split_and!; cbn [s_pt ticks timer_init s1 with_pt with_timer with_ticks]; try done; unfold CLOCK_SECOND; cbn; lia.
  - done.
  - cbn. eexists _, _. done.
  - exfalso. destruct Hw as (Hk & _ & _ & Ht & Hti & Hl). unfold CLOCK_SECOND in *.
    assert (2 ^ Z.of_nat k <= 2 ^ 6) as Hp2 by (apply Z.pow_le_mono_r; lia). change (2 ^ 6) with 64 in Hp2.
    assert (Z.of_nat k * gap <= 6 * gap) by (apply Z.mul_le_mono_nonneg_r; lia).
    assert (gap = 0 ∨ 0 < gap) by lia. lia.
Qed.

(** ** At work *)

(** The packet that a server at 10.0.0.1 sends: its address for the client, and its options. *)
Definition server_packet (yiaddr : mem) (l : list (Z * mem)) : mem :=
  [DHCP_REPLY; 1; 6; 0] ++ xid ++ replicate 8 0 ++ yiaddr ++ replicate 8 0 ++ [2; 0; 0; 0; 0; 9] ++ replicate 202 0 ++ magic_cookie ++
  encode_options l ++ DHCP_OPTION_END :: replicate 400 0.

Definition offer_options : list (Z * mem) := [(53, [DHCPOFFER]); (54, [10; 0; 0; 1]); (1, [255; 255; 255; 0])].
Definition ack_options : list (Z * mem) :=
  [(53, [DHCPACK]); (54, [10; 0; 0; 1]); (51, [0; 0; 14; 16]); (1, [255; 255; 255; 0]); (3, [10; 0; 0; 254]); (6, [10; 0; 0; 2])].

Definition free_packet : mem := replicate 700 0.

Lemma server_reply s yiaddr l : msize yiaddr = 4 → mac_addr s = [2; 0; 0; 0; 0; 9] → Forall option_ok l → reply s (server_packet yiaddr l) yiaddr l.
Proof.
  intros Hy Hmac Hl. destruct yiaddr as [|a [|b [|c [|d [|]]]]]; try (unfold msize in Hy; cbn in Hy; lia).
  unfold reply, mac_len. rewrite Hmac.
  exists ([DHCP_REPLY; 1; 6; 0] ++ xid ++ replicate 8 0 ++ [a; b; c; d] ++ replicate 8 0 ++ [2; 0; 0; 0; 0; 9] ++ replicate 202 0 ++ magic_cookie), (replicate 400 0).
  split; [done|]. split; [unfold server_packet; by rewrite <- !app_assoc|]. split; [done|]. split_and!; reflexivity.
Qed.

Lemma offer_options_ok : Forall option_ok offer_options.
Proof. unfold offer_options. repeat (apply Forall_cons_2; [option_ok|]). apply Forall_nil_2. Qed.

Lemma ack_options_ok : Forall option_ok ack_options.
Proof. unfold ack_options. repeat (apply Forall_cons_2; [option_ok|]). apply Forall_nil_2. Qed.

Definition data_at (now len : Z) : event := Event true len (λ t, now - t) now 0.

Definition poll_event (now : Z) : event := Event false 0 (λ t, now - t) now 0.

Definition dhcp_demo_stack : stack unit :=
  Stack [] 0 0 0 0 0 None [] [] false 0 [UipUdpConn (0, 0) 0 0 0; UipUdpConn (0, 0) 0 0 0] 0 (0, 0, 0, 0) 1024 (0, 0) (0, 0) (0, 0) [] ().

#[local] Instance dhcp_demo_conf : UipConf := {| uip_little := true; UIP_BUFSIZE := 1500; UIP_CONNS := 4; UIP_LISTENPORTS := 4; UIP_UDP_CONNS := 2 |}.

Definition dhcp_demo_opened : stack unit := match dhcpc_init 10 [2; 0; 0; 0; 0; 9] dhcp_demo_stack idle_state with Some (stk, _, _) => stk | None => dhcp_demo_stack end.

(** A poll, the offer, a poll, the acknowledgement: the board is configured. *)
Lemma dhcp_configures_witness :
  dhcpc_init 10 [2; 0; 0; 0; 0; 9] dhcp_demo_stack idle_state = Some (dhcp_demo_opened, Some 0%nat, idle_state) ∧
  s_udp_conns dhcp_demo_opened !! 0%nat = Some (UipUdpConn (65535, 65535) 17408 17152 64) ∧ ∃ s',
  dhcp_run [0; 0; 0; 0]
    ((poll_event 0, free_packet) :: [(poll_event 400000, free_packet)] ++ (data_at 500000 300, server_packet [10; 0; 0; 7] offer_options) ::
     [(poll_event 600000, free_packet)] ++ [(data_at 700000 300, server_packet [10; 0; 0; 7] ack_options)]) idle_state =
  Some (s', message [0; 0; 0; 0] idle_state discover_options :: replicate 1 [] ++
            message [0; 0; 0; 0] idle_state (request_for [10; 0; 0; 1] [10; 0; 0; 7]) :: replicate 1 [] ++ [[]],
        [Configured [10; 0; 0; 7] [255; 255; 255; 0] [10; 0; 0; 254] [10; 0; 0; 2]]).
Proof.
  destruct (dhcp_configures 10 [2; 0; 0; 0; 0; 9] dhcp_demo_stack dhcp_demo_opened 0 idle_state idle_state (poll_event 0) free_packet [(poll_event 400000, free_packet)]
    (data_at 500000 300) (server_packet [10; 0; 0; 7] offer_options) [10; 0; 0; 7] offer_options [(poll_event 600000, free_packet)]
    (data_at 700000 300) (server_packet [10; 0; 0; 7] ack_options) [10; 0; 0; 7] ack_options) as (Hconn & s' & E & _).
  - vm_compute. reflexivity.
  - by vm_compute.
  - by split.
  - reflexivity.
  - reflexivity.
  - by vm_compute.
  - apply Forall_cons_2; [split; reflexivity|apply Forall_nil_2].
  - reflexivity.
  - reflexivity.
  - by vm_compute.
  - apply server_reply; [reflexivity..|apply offer_options_ok].
  - reflexivity.
  - reflexivity.
  - reflexivity.
  - apply Forall_cons_2; [split; reflexivity|apply Forall_nil_2].
  - reflexivity.
  - apply server_reply; [reflexivity..|apply ack_options_ok].
  - reflexivity.
  - reflexivity.
  - discriminate.
  - split; [vm_compute; reflexivity|]. split; [exact Hconn|]. exists s'. exact E.
Defined.

(** Polls every ten seconds. *)
Definition every_ten_seconds : list (Z * mem) := map (λ i, (Z.of_nat i * 10000000, free_packet)) (seq 1 20).

Lemma dhcp_gives_up_witness :
  ∃ s' outs, dhcp_run [0; 0; 0; 0] (events ((0, free_packet) :: every_ten_seconds)) idle_state = Some (s', outs, [Static]).
Proof.
  apply (dhcp_gives_up [0; 0; 0; 0] 10000000 0 free_packet every_ten_seconds idle_state); try (by vm_compute).
  all: split_and!; by vm_compute.
Defined.

(** ** Not as the protocol has it *)

(** Seven datagrams for the client's port, each without any content, and the client has given up in the same moment: the ticks are
    doubled for each. *)
Example stray_datagrams_end_it :
  (λ x, x.2) <$> dhcp_run [0; 0; 0; 0] (poll_at 0 free_packet :: replicate 7 (data_at 1 0, free_packet)) idle_state = Some [Static].
Proof. reflexivity. Qed.

(** The length given to the option parser is that of the datagram, of which 240 bytes are before the options: without an end
    option the rest of the buffer is parsed, here the type of an older message. *)
Example options_behind_the_datagram :
  (λ x, x.2) <$> parse_msg (server_packet [10; 0; 0; 7] [(54, [10; 0; 0; 1]); (53, [DHCPACK])]) 246 idle_state = Some DHCPACK.
Proof. reflexivity. Qed.

(** The pad option has no length in the protocol; here the next byte is taken for it. *)
Example pad_option_swallows : (λ x, x.2) <$> parse_options [0; 53; 1; DHCPACK; 255] 0 5 idle_state = Some 0.
Proof. reflexivity. Qed.

(** A refusal takes the offered address from the state: the next request is for 0.0.0.0. *)
Example refusal_takes_address :
  (λ x, s_ipaddr x.1) <$> parse_msg (server_packet [0; 0; 0; 0] [(53, [DHCPNAK])]) 300 (with_ipaddr [10; 0; 0; 7] idle_state) = Some [0; 0; 0; 0].
Proof. reflexivity. Qed.
