(* ===== verification/Resolv.v ===== *)
(** * The name resolver

    src/uip/resolv.c, an application of UDP, and what src/elua_uip.c makes of it: [resolv_found] and [elua_net_lookup]. The
    packet is the memory from [uip_appdata] to the end of the packet buffer. *)
From S2P Require Import Prelude Dhcp.

Definition MAX_RETRIES := 8.
Definition RESOLV_ENTRIES := 4.

Definition STATE_UNUSED := 0.
Definition STATE_NEW := 1.
Definition STATE_ASKING := 2.
Definition STATE_DONE := 3.
Definition STATE_ERROR := 4.

Definition DNS_FLAG1_RD := 1.
Definition DNS_FLAG2_ERR_MASK := 15.

(** The fields of the header, and of an answer from behind its name. *)
Definition h_id := 0.
Definition h_flags1 := 2.
Definition h_flags2 := 3.
Definition h_numquestions := 4.
Definition h_numanswers := 6.
Definition sizeof_dns_hdr := 12.
Definition a_type := 0.
Definition a_class := 2.
Definition a_len := 8.
Definition a_ipaddr := 10.

(** [n_name] is the array with its 32 characters. *)
Record namemap := NameMap { n_state : Z; n_tmr : Z; n_retries : Z; n_seqno : Z; n_err : Z; n_name : mem; n_ipaddr : mem }.

(** The table of the names and its sequence number; the result of the last query and whether it has come. *)
Record resolver := Resolver { names : list namemap; seqno : Z; elua_resolv_ip : mem; elua_resolv_req_done : bool }.

Definition set_timer (st tmr retries : Z) (e : namemap) : namemap := NameMap st tmr retries (n_seqno e) (n_err e) (n_name e) (n_ipaddr e).
Definition set_result (st err : Z) (e : namemap) : namemap := NameMap st (n_tmr e) (n_retries e) (n_seqno e) err (n_name e) (n_ipaddr e).
Definition set_addr (ip : mem) (e : namemap) : namemap := NameMap (n_state e) (n_tmr e) (n_retries e) (n_seqno e) (n_err e) (n_name e) ip.

Definition set_names (l : list namemap) (r : resolver) : resolver := Resolver l (seqno r) (elua_resolv_ip r) (elua_resolv_req_done r).

(** The callback: no address is 0.0.0.0. *)
Definition resolv_found (ipaddr : option mem) (r : resolver) : resolver :=
  Resolver (names r) (seqno r) (default [0; 0; 0; 0] ipaddr) true.

(** ** Queries *)

(** One label of the name at [p]; [n] counts in a byte. *)
Fixpoint label_loop (fuel : nat) (name : mem) (p : Z) (w : mem * Z) (n : Z) : option (Z * (mem * Z) * Z) :=
  match fuel with
  | O => None
  | S fuel =>
      c ← ld name p;
      if (c =? ch ".") || (c =? 0) then Some (p, w, n) else w ← put w c; label_loop fuel name (p + 1) w (u8 (n + 1))
  end.

(** The labels from [p], each with its length before it. *)
Fixpoint labels_loop (fuel : nat) (name : mem) (p : Z) (w : mem * Z) : option (mem * Z) :=
  match fuel with
  | O => None
  | S fuel =>
      let nptr := w.2 in
      '(p, w, n) ← label_loop (S (length name)) name p (w.1, w.2 + 1) 0;
      m ← st w.1 nptr n;
      c ← ld name p;
      if c =? 0 then Some (m, w.2) else labels_loop fuel name (p + 1) (m, w.2)
  end.

(** The packet and its length, of which a byte is given to the stack. *)
Definition send_query (i : nat) (name : mem) (m : mem) : option (mem * Z) :=
  m ← mwrite m 0 (replicate (Z.to_nat sizeof_dns_hdr) 0);
  m ← mwrite m h_id [0; Z.of_nat i];
  m ← st m h_flags1 DNS_FLAG1_RD;
  m ← mwrite m h_numquestions [0; 1];
  w ← labels_loop (S (length name)) name 0 (m, sizeof_dns_hdr);
  w ← wr w [0; 0; 1; 0; 1];
  Some (w.1, u8 w.2).

(** What the timer of an entry says: nothing to be done, the last try is over, or a query is to be sent. *)
Inductive verdict := Idle | GaveUp | Ask.

Definition check_entry (e : namemap) : namemap * verdict :=
  if n_state e =? STATE_ASKING then
    let tmr := u8 (n_tmr e - 1) in
    if tmr =? 0 then
      let retries := u8 (n_retries e + 1) in
      if retries =? MAX_RETRIES then (set_timer STATE_ERROR tmr retries e, GaveUp)
      else (set_timer (n_state e) retries retries e, Ask)
    else (set_timer (n_state e) tmr (n_retries e) e, Idle)
  else if n_state e =? STATE_NEW then (set_timer STATE_ASKING 1 0 e, Ask)
  else (e, Idle).

(** The entries from [i] up to the first that is asked for. *)
Fixpoint check_loop (todo : nat) (i : nat) (m : mem) (r : resolver) : option (resolver * mem * Z) :=
  match todo with
  | O => Some (r, m, 0)
  | S todo =>
      e ← names r !! i;
      let '(e, v) := check_entry e in
      let r := set_names (<[i := e]> (names r)) r in
      match v with
      | Idle => check_loop todo (S i) m r
      | GaveUp => check_loop todo (S i) m (resolv_found None r)
      | Ask => '(m, n) ← send_query i (n_name e) m; Some (r, m, n)
      end
  end.

Definition check_entries (m : mem) (r : resolver) : option (resolver * mem * Z) := check_loop (Z.to_nat RESOLV_ENTRIES) 0 m r.

(** ** Answers *)

(** Behind a name: labels to a zero. A label's length is not tested for the end or a pointer. *)
Fixpoint parse_name_loop (fuel : nat) (m : mem) (query : Z) : option Z :=
  match fuel with
  | O => None
  | S fuel =>
      n ← ld m query;
      let query := query + 1 + n in
      c ← ld m query;
      if c =? 0 then Some (query + 1) else parse_name_loop fuel m query
  end.

Definition parse_name (m : mem) (query : Z) : option Z := parse_name_loop (S (length m)) m query.

Definition rd16 (m : mem) (p : Z) : option Z := a ← ld m p; b ← ld m (p + 1); Some (a * 256 + b).

(** The first answer that has an address. *)
Fixpoint answer_loop (nanswers : nat) (m : mem) (nameptr : Z) : option (option mem) :=
  match nanswers with
  | O => Some None
  | S nanswers =>
      c ← ld m nameptr;
      p ← (if ctrue (Z.land c 192) then Some (nameptr + 2) else parse_name m nameptr);
      type ← rd16 m (p + a_type);
      class ← rd16 m (p + a_class);
      len ← rd16 m (p + a_len);
      if (type =? 1) && (class =? 1) && (len =? 4) then ip ← mread m (p + a_ipaddr) 4; Some (Some ip)
      else answer_loop nanswers m (p + 10 + len)
  end.

(** The identifier is the entry: of 16 bits the lower 8. *)
Definition newdata (m : mem) (r : resolver) : option resolver :=
  id ← rd16 m h_id;
  let i := Z.to_nat (u8 id) in
  match names r !! i with
  | None => Some r
  | Some e =>
      if negb (n_state e =? STATE_ASKING) then Some r
      else
        flags2 ← ld m h_flags2;
        let err := Z.land flags2 DNS_FLAG2_ERR_MASK in
        if negb (err =? 0) then Some (resolv_found None (set_names (<[i := set_result STATE_ERROR err e]> (names r)) r))
        else
          let e := set_result STATE_DONE err e in
          nanswers ← rd16 m h_numanswers;
          p ← parse_name m sizeof_dns_hdr;
          found ← answer_loop (Z.to_nat (u8 nanswers)) m (p + 4);
          match found with
          | Some ip => Some (resolv_found (Some ip) (set_names (<[i := set_addr ip e]> (names r)) r))
          | None => Some (set_names (<[i := e]> (names r)) r)
          end
  end.

(** An event of the resolver's connection. *)
Inductive event := Poll (m : mem) | Data (m : mem).

(** The port is that of the resolver's own connection, 53 since [resolv_conf]; what is sent is the second part of the result. *)
Definition resolv_appcall (rport : Z) (ev : event) (r : resolver) : option (resolver * mem) :=
  if rport =? 53 then
    match ev with
    | Poll m => '(r, m, n) ← check_entries m r; Some (r, take (Z.to_nat n) m)
    | Data m => r ← newdata m r; Some (r, [])
    end
  else Some (r, []).

(** The application of UDP: both are called for an event of any connection; a message of the second replaces that of the first in
    the packet buffer. *)
Definition elua_uip_udp_appcall (rport : Z) (hostaddr : mem) (e : Dhcp.event) (m : mem) (r : resolver) (s : dhcpc_state) :
    option (resolver * dhcpc_state * mem * list action) :=
  '(r, q) ← resolv_appcall rport (if e_new e then Data m else Poll m) r;
  '(s, out, acts) ← dhcpc_appcall hostaddr e (q ++ drop (length q) m) s;
  Some (r, s, match out with [] => q | _ => out end, acts).

(** ** Lookups *)

(** The entry for a new name: one that is unused, or the one that is the oldest by its sequence number. *)
Fixpoint choose_entry (l : list namemap) (i : nat) (sq lseq : Z) (lseqi : nat) : nat :=
  match l with
  | [] => lseqi
  | e :: l =>
      if n_state e =? STATE_UNUSED then i
      else if lseq <? sq - n_seqno e then choose_entry l (S i) sq (u8 (sq - n_seqno e)) i
      else choose_entry l (S i) sq lseq lseqi
  end.

Definition resolv_query (name : mem) (r : resolver) : option resolver :=
  let i := choose_entry (names r) 0 (seqno r) 0 0 in
  e ← names r !! i;
  nm ← c_strcpy (n_name e) name;
  Some (Resolver (<[i := NameMap STATE_NEW (n_tmr e) (n_retries e) (seqno r) (n_err e) nm (n_ipaddr e)]> (names r)) (u8 (seqno r + 1))
    (elua_resolv_ip r) (elua_resolv_req_done r)).

Fixpoint lookup_loop (name : mem) (l : list namemap) : option (option mem) :=
  match l with
  | [] => Some None
  | e :: l =>
      if n_state e =? STATE_DONE then
        a ← cstr name; b ← cstr (n_name e);
        if bool_decide (a = b) then Some (Some (n_ipaddr e)) else lookup_loop name l
      else lookup_loop name l
  end.

Definition resolv_lookup (name : mem) (r : resolver) : option (option mem) := lookup_loop name (names r).

Definition resolv_init (r : resolver) : resolver :=
  set_names (map (λ e, set_timer STATE_DONE (n_tmr e) (n_retries e) e) (names r)) r.

(** The events until the result has come; what is sent. *)
Fixpoint await (l : list event) (r : resolver) : option (resolver * list mem) :=
  if elua_resolv_req_done r then Some (r, [])
  else match l with
       | [] => Some (r, [])
       | ev :: l => '(r, out) ← resolv_appcall 53 ev r; '(r, outs) ← await l r; Some (r, out :: outs)
       end.

(** A lookup, while these events happen: the address, if it has come. *)
Definition elua_net_lookup (hostname : mem) (l : list event) (r : resolver) : option (option mem * resolver * list mem) :=
  data ← resolv_lookup hostname r;
  match data with
  | Some a => Some (Some a, r, [])
  | None =>
      r ← resolv_query hostname (Resolver (names r) (seqno r) (elua_resolv_ip r) false);
      '(r, outs) ← await l r;
      Some (if elua_resolv_req_done r then Some (elua_resolv_ip r) else None, r, outs)
  end.
