(* ===== verification/ResolvSpec.v ===== *)
(** * What the resolver does

    Names as lists of labels; the query that is sent and the answer that is read; lookups with an answer and without; what is not
    as the protocol has it. *)
From S2P Require Import Prelude Wire Dhcp Resolv.

(** ** Names and queries *)

Definition dot := ch ".".

(** A part of a name, as the resolver's loop takes it. *)
Definition label_ok (l : mem) : Prop := bytes_ok l ∧ Forall (λ c, c ≠ dot ∧ c ≠ 0) l ∧ 0 < msize l < 64.

Fixpoint dotted (ls : list mem) : mem :=
  match ls with [] => [] | [l] => l | l :: ls => l ++ dot :: dotted ls end.

Definition encode_labels (ls : list mem) : mem := concat (map (λ l, msize l :: l) ls).

Lemma dotted_cons l ls : ls ≠ [] → dotted (l :: ls) = l ++ dot :: dotted ls.
Proof. by destruct ls. Qed.

Lemma encode_cons l ls : encode_labels (l :: ls) = (msize l :: l) ++ encode_labels ls.
Proof. done. Qed.

Lemma encode_size ls : ls ≠ [] → msize (encode_labels ls) = msize (dotted ls) + 1.
Proof.
  induction ls as [|l [|l' ls] IH]; intros H; [done| |]; rewrite encode_cons, msize_app, msize_cons.
  - cbn [dotted]. change (msize (encode_labels [])) with 0. lia.
  - rewrite dotted_cons, msize_app, msize_cons by done. specialize (IH ltac:(done)). lia.
Qed.

Lemma dotted_nonzero ls : Forall label_ok ls → Forall (λ c, c ≠ 0) (dotted ls).
Proof.
  induction 1 as [|l ls (_ & Hl & _) Hls IH]; [constructor|].
  assert (Forall (λ c, c ≠ 0) l) as Hz by (eapply Forall_impl; [exact Hl|]; cbn; tauto).
  destruct ls as [|l' ls]; [done|]. rewrite dotted_cons by done. apply Forall_app. split; [done|]. by constructor.
Qed.

(** The byte behind what is written is there, whatever it is. *)
Lemma written_skip m a : msize a < msize m → ∃ x, written m a = written m (a ++ [x]).
Proof.
  intros H. unfold written, msize in *. destruct (drop (length a) m) as [|x t] eqn:E.
  { apply (f_equal length) in E. rewrite length_drop in E. cbn in E. lia. }
  exists x. rewrite <- app_assoc. f_equal. cbn. f_equal. rewrite length_app. cbn. rewrite <- drop_drop, E. done.
Qed.

Lemma st_written m a x b v : st (written m (a ++ x :: b)) (msize a) v = Some (written m (a ++ u8 v :: b)).
Proof.
  unfold written. rewrite st_spec by (rewrite !msize_app, msize_cons; pose proof (msize_nonneg a); pose proof (msize_nonneg b); pose proof (msize_nonneg (drop (length (a ++ x :: b)) m)); lia).
  f_equal. unfold msize. rewrite Nat2Z.id, <- !app_assoc. rewrite insert_app_r_alt by lia. rewrite Nat.sub_diag. cbn. do 4 f_equal. rewrite !length_app. done.
Qed.

Lemma label_copied m fuel : ∀ lab pre c rest a n, bytes_ok lab → Forall (λ c, c ≠ dot ∧ c ≠ 0) lab → c = dot ∨ c = 0 → (length lab < fuel)%nat →
  msize a + msize lab <= msize m → 0 <= n → n + msize lab < 256 →
  label_loop fuel (pre ++ lab ++ c :: rest) (msize pre) (cursor m a) n = Some (msize pre + msize lab, cursor m (a ++ lab), n + msize lab).
Proof.
  induction fuel as [|fuel IH]; intros lab pre c rest a n Hb Hl Hc Hf Hm Hn Hs; [lia|]. cbn [label_loop]. destruct lab as [|x lab]; cbn [app].
  - rewrite (ld_at pre rest) by done. cbn [mbind option_bind].
    assert ((c =? ch ".") || (c =? 0) = true) as -> by (destruct Hc as [-> | ->]; reflexivity). rewrite app_nil_r, msize_nil, !Z.add_0_r. done.
  - apply Forall_cons in Hb as [Hx Hb]. apply Forall_cons in Hl as [[H1 H2] Hl]. rewrite msize_cons in *. cbn [length] in Hf.
    rewrite (ld_at pre) by done. cbn [mbind option_bind]. fold dot. rewrite (proj2 (Z.eqb_neq x dot)), (proj2 (Z.eqb_neq x 0)) by done. cbn [orb].
    pose proof (msize_nonneg lab). rewrite put_next by lia. cbn [mbind option_bind]. rewrite (u8_id x) by done. rewrite (u8_id (n + 1)) by lia.
    specialize (IH lab (pre ++ [x]) c rest (a ++ [x]) (n + 1)). rewrite <- !app_assoc in IH. cbn [app] in IH. rewrite !msize_app in IH. change (msize [x]) with 1 in IH.
    rewrite IH by (done || lia). f_equal. f_equal; [f_equal|]; lia.
Qed.

Lemma labels_copied m fuel : ∀ ls pre rest a, ls ≠ [] → Forall label_ok ls → (length ls <= fuel)%nat → msize a + msize (encode_labels ls) <= msize m →
  labels_loop fuel (pre ++ dotted ls ++ 0 :: rest) (msize pre) (cursor m a) = Some (cursor m (a ++ encode_labels ls)).
Proof.
  induction fuel as [|fuel IH]; intros ls pre rest a Hne Hls Hf Hm; [destruct ls; [done|cbn in Hf; lia]|].
  destruct ls as [|l ls]; [done|]. apply Forall_cons in Hls as [(Hb & Hl & Hs) Hls]. cbn [labels_loop]. cbn [length] in Hf.
  pose proof (encode_cons l ls) as He. rewrite He, msize_app, msize_cons in Hm.
  pose proof (msize_nonneg (encode_labels ls)). destruct (written_skip m a) as [x Ex]; [lia|]. unfold cursor at 1 2 3. cbn [fst snd].
  assert ((written m a, msize a + 1) = cursor m (a ++ [x])) as -> by (unfold cursor; by rewrite <- Ex, msize_app).
  assert (∃ c rest', dotted (l :: ls) ++ 0 :: rest = l ++ c :: rest' ∧ (c = dot ∧ rest' = dotted ls ++ 0 :: rest ∧ ls ≠ [] ∨ c = 0 ∧ ls = [])) as (c & rest' & Ed & Hc).
  { destruct ls as [|l' ls]; [by exists 0, rest; auto|]. exists dot, (dotted (l' :: ls) ++ 0 :: rest). rewrite dotted_cons, <- app_assoc by done. auto. }
  rewrite Ed, label_copied; [|done|done|tauto| |rewrite msize_app; change (msize [x]) with 1; lia|lia|lia].
  2:{ rewrite !length_app. cbn. lia. }
  cbn [mbind option_bind]. unfold cursor. cbn [fst snd]. rewrite <- (app_assoc a [x] l). cbn [app]. rewrite st_written. cbn [mbind option_bind].
  rewrite Z.add_0_l, (u8_id (msize l)) by lia. rewrite app_assoc. rewrite (ld_at (pre ++ l) rest' _ c) by (by rewrite msize_app). cbn [mbind option_bind].
  assert (msize (a ++ x :: l) = msize (a ++ msize l :: l)) as Es by (rewrite !msize_app, !msize_cons; lia). rewrite Es.
  change (written m (a ++ msize l :: l), msize (a ++ msize l :: l)) with (cursor m (a ++ msize l :: l)).
  change (Some (written m (a ++ encode_labels (l :: ls)), msize (a ++ encode_labels (l :: ls)))) with (Some (cursor m (a ++ encode_labels (l :: ls)))).
  rewrite He. destruct Hc as [(-> & -> & Hne') | (-> & ->)]; [|by rewrite app_nil_r].
  change (dot =? 0) with false. cbn match. rewrite (app_assoc a). rewrite <- IH with (pre := (pre ++ l) ++ [dot]) (rest := rest); [|done|done|lia|].
  - rewrite <- !app_assoc. cbn [app]. f_equal. rewrite !msize_app. change (msize [dot]) with 1. lia.
  - rewrite !msize_app, msize_cons. lia.
Qed.

(** The query for entry [i]: one question, recursion wanted; an address of the Internet. *)
Definition query (i : nat) (ls : list mem) : mem :=
  [0; Z.of_nat i; DNS_FLAG1_RD; 0; 0; 1; 0; 0; 0; 0; 0; 0] ++ encode_labels ls ++ [0; 0; 1; 0; 1].

(** A name that an entry holds. *)
Definition name_ok (ls : list mem) : Prop := ls ≠ [] ∧ Forall label_ok ls ∧ msize (dotted ls) < 32.

Lemma labels_fewer ls : Forall label_ok ls → (length ls <= length (encode_labels ls))%nat.
Proof. induction 1 as [|l ls _ _ IH]; [done|]. rewrite encode_cons, length_app. cbn [length]. lia. Qed.

Lemma query_sent i ls rest m : name_ok ls → 64 <= msize m →
  ∃ m' n, send_query i (dotted ls ++ 0 :: rest) m = Some (m', n) ∧ take (Z.to_nat n) m' = query i ls.
Proof.
  intros (Hne & Hls & Hs) Hm. pose proof (encode_size ls Hne) as He. unfold send_query.
  assert (mwrite m 0 (replicate (Z.to_nat sizeof_dns_hdr) 0) = Some (written m (replicate 12 0))) as ->.
  { change m with (written m []) at 1. rewrite write_next by (done || (change (msize [] + msize (replicate (Z.to_nat sizeof_dns_hdr) 0)) with 12; lia)). done. }
  cbn [mbind option_bind]. unfold written at 1. set (t := drop (length (replicate 12 0)) m).
  assert (∃ m0, m0 = replicate 12 0 ++ t ∧ mwrite m0 h_id [0; Z.of_nat i] = Some ([0; Z.of_nat i] ++ replicate 10 0 ++ t)) as (m0 & <- & ->).
  { exists (replicate 12 0 ++ t). split; [done|]. unfold mwrite. rewrite decide_True; [done|]. unfold h_id, msize. cbn. lia. }
  cbn [mbind option_bind]. rewrite st_mwrite.
  assert (mwrite ([0; Z.of_nat i] ++ replicate 10 0 ++ t) h_flags1 [u8 DNS_FLAG1_RD] = Some ([0; Z.of_nat i; DNS_FLAG1_RD] ++ replicate 9 0 ++ t)) as ->.
  { unfold mwrite. rewrite decide_True; [done|]. unfold h_flags1, msize. cbn. lia. }
  cbn [mbind option_bind].
  assert (mwrite ([0; Z.of_nat i; DNS_FLAG1_RD] ++ replicate 9 0 ++ t) h_numquestions [0; 1] =
    Some (written m [0; Z.of_nat i; DNS_FLAG1_RD; 0; 0; 1; 0; 0; 0; 0; 0; 0])) as ->.
  { unfold mwrite. rewrite decide_True; [done|]. unfold h_numquestions, msize. cbn. lia. }
  cbn [mbind option_bind]. set (hd := [0; Z.of_nat i; DNS_FLAG1_RD; 0; 0; 1; 0; 0; 0; 0; 0; 0]).
  change (written m hd, sizeof_dns_hdr) with (cursor m hd). change 0 with (msize []) at 4.
  pose proof (labels_fewer ls Hls) as Hn.
  assert (length (encode_labels ls) = S (length (dotted ls))) as En by (unfold msize in He; lia).
  change (dotted ls ++ 0 :: rest) with ([] ++ dotted ls ++ 0 :: rest).
  rewrite labels_copied; [|done|done| |]; cycle 1.
  { cbn [app]. rewrite length_app. cbn. lia. }
  { change (msize hd) with 12. lia. }
  cbn [mbind option_bind]. assert (msize (hd ++ encode_labels ls) = 13 + msize (dotted ls)) as Eh by (rewrite msize_app, He; change (msize hd) with 12; lia).
  rewrite wr_next by (rewrite Eh; change (msize [0; 0; 1; 0; 1]) with 5; lia). cbn [mbind option_bind]. unfold cursor. cbn [fst snd].
  pose proof (msize_nonneg (dotted ls)). eexists _, _. split; [done|].
  rewrite u8_id by (rewrite msize_app, Eh; change (msize [0; 0; 1; 0; 1]) with 5; lia). rewrite sent_bytes. unfold query. by rewrite <- app_assoc.
Qed.

(** ** Answers *)

(** The name of a record is a pointer into the message, or written out. *)
Inductive owner := Pointer (a b : Z) | Written (ls : list mem).

Definition owner_bytes (o : owner) : mem := match o with Pointer a b => [a; b] | Written ls => encode_labels ls ++ [0] end.

Definition owner_ok (o : owner) : Prop :=
  match o with Pointer a b => 192 <= a < 256 | Written ls => ls ≠ [] ∧ Forall (λ l, 0 < msize l < 64) ls end.

Record rr := Rr { r_owner : owner; r_type : Z; r_class : Z; r_ttl : mem; r_data : mem }.

Definition be16 (z : Z) : mem := [z / 256; z mod 256].

Definition rr_bytes (x : rr) : mem := owner_bytes (r_owner x) ++ be16 (r_type x) ++ be16 (r_class x) ++ r_ttl x ++ be16 (msize (r_data x)) ++ r_data x.

Definition rr_ok (x : rr) : Prop :=
  owner_ok (r_owner x) ∧ 0 <= r_type x < 65536 ∧ 0 <= r_class x < 65536 ∧ msize (r_ttl x) = 4 ∧ msize (r_data x) < 65536.

(** An address record, and the first of them. *)
Definition is_address (x : rr) : bool := (r_type x =? 1) && (r_class x =? 1) && (msize (r_data x) =? 4).

Fixpoint first_address (l : list rr) : option mem :=
  match l with [] => None | x :: l => if is_address x then Some (r_data x) else first_address l end.

Lemma rd16_at (a b : mem) z i : i = msize a → 0 <= z < 65536 → rd16 (a ++ be16 z ++ b) i = Some z.
Proof.
  intros -> Hz. unfold rd16, be16. cbn [app]. rewrite (ld_at a (z mod 256 :: b) (msize a)) by done. cbn [mbind option_bind].
  assert (ld (a ++ z / 256 :: z mod 256 :: b) (msize a + 1) = Some (z mod 256)) as ->.
  { rewrite ld_app_r by lia. replace (msize a + 1 - msize a) with 1 by lia. done. }
  cbn. f_equal. pose proof (Z.div_mod z 256 ltac:(lia)). lia.
Qed.

Lemma name_parsed fuel m : ∀ ls pre rest, m = pre ++ encode_labels ls ++ 0 :: rest → ls ≠ [] → Forall (λ l, 0 < msize l < 64) ls → (length ls <= fuel)%nat →
  parse_name_loop fuel m (msize pre) = Some (msize pre + msize (encode_labels ls) + 1).
Proof.
  induction fuel as [|fuel IH]; intros ls pre rest Em Hne Hls Hf; [destruct ls; [done|cbn in Hf; lia]|].
  destruct ls as [|l ls]; [done|]. apply Forall_cons in Hls as [Hl Hls]. cbn [length] in Hf. cbn [parse_name_loop].
  rewrite encode_cons in *. cbn [app] in Em. rewrite Em at 1. rewrite ld_at by done. cbn [mbind option_bind].
  assert (m = (pre ++ msize l :: l) ++ encode_labels ls ++ 0 :: rest) as Em' by (rewrite Em, <- !app_assoc; done).
  assert (msize pre + 1 + msize l = msize (pre ++ msize l :: l)) as -> by (rewrite msize_app, msize_cons; lia).
  destruct ls as [|l' ls].
  - rewrite Em'. change (encode_labels []) with (@nil Z). cbn [app]. rewrite (ld_at (pre ++ msize l :: l)) by done. cbn [mbind option_bind Z.eqb]. f_equal. rewrite !msize_app, !msize_cons, ?msize_app, ?msize_nil. lia.
  - rewrite Em' at 1. rewrite encode_cons. cbn [app]. rewrite ld_at by done. cbn [mbind option_bind]. apply Forall_cons in Hls as [Hl' Hls'].
    rewrite (proj2 (Z.eqb_neq _ _)) by lia. rewrite (IH (l' :: ls) _ rest Em') by (done || (by constructor) || (cbn [length] in *; lia)).
    f_equal. rewrite ?encode_cons, ?msize_app, ?msize_cons, ?msize_app, ?msize_cons, ?msize_app.
    lia.
Qed.

Lemma labels_count ls : Forall (λ l, 0 < msize l < 64) ls → (length ls <= length (encode_labels ls))%nat.
Proof. induction 1 as [|l ls _ _ IH]; [done|]. rewrite encode_cons, length_app. cbn [length]. lia. Qed.

Lemma name_skipped pre ls rest : ls ≠ [] → Forall (λ l, 0 < msize l < 64) ls →
  parse_name (pre ++ encode_labels ls ++ 0 :: rest) (msize pre) = Some (msize pre + msize (encode_labels ls) + 1).
Proof.
  intros Hne Hls. unfold parse_name. eapply name_parsed; [done..|]. pose proof (labels_count ls Hls). rewrite !length_app. lia.
Qed.

(** Where the fixed part of a record begins. *)
Lemma owner_skipped pre o rest : owner_ok o →
  (c ← ld (pre ++ owner_bytes o ++ rest) (msize pre);
   if ctrue (Z.land c 192) then Some (msize pre + 2) else parse_name (pre ++ owner_bytes o ++ rest) (msize pre)) =
  Some (msize pre + msize (owner_bytes o)).
Proof.
  destruct o as [a b|ls]; intros Ho; cbn [owner_bytes owner_ok] in *.
  - cbn [app]. rewrite (ld_at pre) by done. cbn [mbind option_bind]. assert (ctrue (Z.land a 192) = true) as ->.
    { revert a Ho. assert (∀ k : nat, (k < 64)%nat → ctrue (Z.land (192 + Z.of_nat k) 192) = true) as H.
      { intros k Hk. do 64 (destruct k as [|k]; [reflexivity|]). lia. }
      intros a Ho. specialize (H (Z.to_nat (a - 192)) ltac:(lia)). rewrite Z2Nat.id in H by lia. by replace (192 + (a - 192)) with a in H by lia. }
    done.
  - destruct Ho as [Hne Hls]. rewrite <- app_assoc. cbn [app]. rewrite name_skipped by done. destruct ls as [|l ls]; [done|].
    apply Forall_cons in Hls as [Hl _] || idtac. rewrite encode_cons. cbn [app]. rewrite (ld_at pre) by done. cbn [mbind option_bind].
    assert (ctrue (Z.land (msize l) 192) = false) as ->.
    { assert (∀ k : nat, (k < 64)%nat → ctrue (Z.land (Z.of_nat k) 192) = false) as H.
      { intros k Hk. do 64 (destruct k as [|k]; [reflexivity|]). lia. }
      apply H. unfold msize in Hl. lia. }
    f_equal. rewrite msize_cons, !msize_app, msize_cons, !msize_app. change (msize [0]) with 1. lia.
Qed.

Lemma answer_found : ∀ l pre rest, Forall rr_ok l →
  answer_loop (length l) (pre ++ concat (map rr_bytes l) ++ rest) (msize pre) = Some (first_address l).
Proof.
  induction l as [|x l IH]; intros pre rest Hl; [done|]. apply Forall_cons in Hl as [(Ho & Ht & Hc & Httl & Hd) Hl].
  cbn [length answer_loop map concat]. 
  set (m := pre ++ (rr_bytes x ++ _) ++ rest). pose proof (msize_nonneg (owner_bytes (r_owner x))) as Hpos. pose proof (msize_nonneg (r_data x)).
  set (tl := concat (map rr_bytes l) ++ rest).
  assert (m = pre ++ owner_bytes (r_owner x) ++ be16 (r_type x) ++ be16 (r_class x) ++ r_ttl x ++ be16 (msize (r_data x)) ++ r_data x ++ tl) as Em
    by (unfold m, tl, rr_bytes; by rewrite <- !app_assoc).
  pose proof (owner_skipped pre (r_owner x) (be16 (r_type x) ++ be16 (r_class x) ++ r_ttl x ++ be16 (msize (r_data x)) ++ r_data x ++ tl) Ho) as Hs.
  rewrite <- Em in Hs. apply bind_Some in Hs as (c & -> & Hs). cbn [mbind option_bind]. rewrite Hs. cbn [mbind option_bind].
  set (q := msize pre + msize (owner_bytes (r_owner x))).
  assert (∀ P R z i, m = P ++ be16 z ++ R → i = msize P → 0 <= z < 65536 → rd16 m i = Some z) as Hrd by (intros P R z i ->; apply rd16_at).
  assert (∀ z, msize (be16 z) = 2) as H2 by done.
  rewrite (Hrd (pre ++ owner_bytes (r_owner x)) (be16 (r_class x) ++ r_ttl x ++ be16 (msize (r_data x)) ++ r_data x ++ tl) (r_type x) (q + a_type));
    [|rewrite Em, <- !app_assoc; done|rewrite msize_app; unfold q, a_type; lia|done].
  rewrite (Hrd (pre ++ owner_bytes (r_owner x) ++ be16 (r_type x)) (r_ttl x ++ be16 (msize (r_data x)) ++ r_data x ++ tl) (r_class x) (q + a_class));
    [|rewrite Em, <- !app_assoc; done|rewrite !msize_app, H2; unfold q, a_class; lia|done].
  rewrite (Hrd (pre ++ owner_bytes (r_owner x) ++ be16 (r_type x) ++ be16 (r_class x) ++ r_ttl x) (r_data x ++ tl) (msize (r_data x)) (q + a_len));
    [|rewrite Em, <- !app_assoc; done|rewrite !msize_app, !H2, Httl; unfold q, a_len; lia|lia].
  cbn [mbind option_bind first_address]. unfold is_address.
  destruct ((r_type x =? 1) && (r_class x =? 1) && (msize (r_data x) =? 4)) eqn:E.
  - apply andb_true_iff in E as [_ E%Z.eqb_eq].
    assert (m = (pre ++ owner_bytes (r_owner x) ++ be16 (r_type x) ++ be16 (r_class x) ++ r_ttl x ++ be16 (msize (r_data x))) ++ r_data x ++ tl) as ->
      by (rewrite Em, <- !app_assoc; done).
    rewrite (mread_at _ (r_data x)); [done| |lia]. rewrite !msize_app, !H2, Httl. unfold q, a_ipaddr. lia.
  - specialize (IH (pre ++ rr_bytes x) rest Hl). rewrite <- IH. unfold m. rewrite <- !app_assoc. f_equal.
    unfold rr_bytes. rewrite !msize_app, !H2, Httl. lia.
Qed.

(** The message of a server for entry [i]: a question, and the records. *)
Definition reply (i : nat) (flags1 flags2 : Z) (ls : list mem) (l : list rr) (rest : mem) : mem :=
  [0; Z.of_nat i; flags1; flags2; 0; 1] ++ be16 (Z.of_nat (length l)) ++ [0; 0; 0; 0] ++ encode_labels ls ++ 0 :: [0; 1; 0; 1] ++
  concat (map rr_bytes l) ++ rest.

Definition question_ok (ls : list mem) : Prop := ls ≠ [] ∧ Forall (λ l, 0 < msize l < 64) ls.

(** What the table is after a message of a server. *)
Definition taken (i : nat) (e : namemap) (flags2 : Z) (l : list rr) (r : resolver) : resolver :=
  let err := Z.land flags2 DNS_FLAG2_ERR_MASK in
  if err =? 0 then
    match first_address l with
    | Some ip => resolv_found (Some ip) (set_names (<[i := set_addr ip (set_result STATE_DONE 0 e)]> (names r)) r)
    | None => set_names (<[i := set_result STATE_DONE 0 e]> (names r)) r
    end
  else resolv_found None (set_names (<[i := set_result STATE_ERROR err e]> (names r)) r).

Lemma reply_taken i e f1 f2 ls l rest r : names r !! i = Some e → n_state e = STATE_ASKING → (i < 256)%nat → question_ok ls →
  Forall rr_ok l → (length l < 256)%nat → newdata (reply i f1 f2 ls l rest) r = Some (taken i e f2 l r).
Proof.
  intros He Hst Hi [Hne Hls] Hl Hn. unfold newdata, taken. set (m := reply i f1 f2 ls l rest).
  assert (rd16 m h_id = Some (Z.of_nat i)) as -> by done. cbn [mbind option_bind]. rewrite u8_id, Nat2Z.id, He, Hst by lia.
  change (negb (STATE_ASKING =? STATE_ASKING)) with false. cbn match. assert (ld m h_flags2 = Some f2) as -> by done. cbn [mbind option_bind].
  destruct (Z.land f2 DNS_FLAG2_ERR_MASK =? 0) eqn:Eerr; cbn [negb]; [|done]. apply Z.eqb_eq in Eerr. rewrite Eerr.
  assert (rd16 m h_numanswers = Some (Z.of_nat (length l))) as ->.
  { apply (rd16_at [0; Z.of_nat i; f1; f2; 0; 1]); [done|lia]. }
  cbn [mbind option_bind]. set (hd := [0; Z.of_nat i; f1; f2; 0; 1] ++ be16 (Z.of_nat (length l)) ++ [0; 0; 0; 0]).
  assert (m = hd ++ encode_labels ls ++ 0 :: [0; 1; 0; 1] ++ concat (map rr_bytes l) ++ rest) as Em by done.
  rewrite Em at 1. change sizeof_dns_hdr with (msize hd). rewrite name_skipped by done. cbn [mbind option_bind].
  assert (m = (hd ++ encode_labels ls ++ [0; 0; 1; 0; 1]) ++ concat (map rr_bytes l) ++ rest) as -> by (rewrite Em, <- !app_assoc; done).
  replace (msize hd + msize (encode_labels ls) + 1 + 4) with (msize (hd ++ encode_labels ls ++ [0; 0; 1; 0; 1]))
    by (rewrite !msize_app; change (msize [0; 0; 1; 0; 1]) with 5; lia).
  rewrite u8_id, Nat2Z.id, answer_found by (done || lia). cbn [mbind option_bind]. by destruct (first_address l).
Qed.

(** ** Lookups *)

Definition quiet (e : namemap) : Prop := n_state e ≠ STATE_ASKING ∧ n_state e ≠ STATE_NEW.

(** The table: its entries hold strings in their arrays. *)
Definition table_ok (r : resolver) : Prop :=
  length (names r) = Z.to_nat RESOLV_ENTRIES ∧ Forall (λ e, msize (n_name e) = 32 ∧ ∃ s, cstr (n_name e) = Some s) (names r).

Lemma set_names_id r : set_names (names r) r = r.
Proof. by destruct r. Qed.

Lemma check_quiet_entry e : quiet e → check_entry e = (e, Idle).
Proof. intros [H1 H2]. unfold check_entry. by rewrite (proj2 (Z.eqb_neq _ _) H1), (proj2 (Z.eqb_neq _ _) H2). Qed.

Lemma check_quiet todo m : ∀ j r, (∀ k e, (j <= k)%nat → names r !! k = Some e → quiet e) → (j + todo = length (names r))%nat →
  check_loop todo j m r = Some (r, m, 0).
Proof.
  induction todo as [|todo IH]; intros j r Hq Hn; [done|]. cbn [check_loop].
  destruct (lookup_lt_is_Some_2 (names r) j ltac:(lia)) as [e He]. rewrite He. cbn [mbind option_bind].
  rewrite (check_quiet_entry e) by (by apply (Hq j)). cbn match. rewrite list_insert_id, set_names_id by done.
  apply IH; [|lia]. intros k e' Hk. apply Hq. lia.
Qed.

(** What a poll does with the only entry [i] that is asked for. *)
Definition polled (i : nat) (e : namemap) (m : mem) (r : resolver) : option (resolver * mem * Z) :=
  let '(e, v) := check_entry e in
  let r := set_names (<[i := e]> (names r)) r in
  match v with Idle => Some (r, m, 0) | GaveUp => Some (resolv_found None r, m, 0) | Ask => '(m, n) ← send_query i (n_name e) m; Some (r, m, n) end.

Definition only (i : nat) (e : namemap) (r : resolver) : Prop :=
  names r !! i = Some e ∧ ∀ k e', k ≠ i → names r !! k = Some e' → quiet e'.

Lemma check_active todo i e m : ∀ j r, only i e r → (j <= i)%nat → (j + todo = length (names r))%nat → check_loop todo j m r = polled i e m r.
Proof.
  induction todo as [|todo IH]; intros j r [He Hq] Hj Hn; [apply lookup_lt_Some in He; lia|]. cbn [check_loop]. unfold polled.
  destruct (decide (j = i)) as [->|Hne].
  - rewrite He. cbn [mbind option_bind]. destruct (check_entry e) as [e' v].
    assert (∀ k e2, (S i <= k)%nat → <[i:=e']> (names r) !! k = Some e2 → quiet e2) as Hq'.
    { intros k e2 Hk. rewrite list_lookup_insert_ne by lia. apply Hq. lia. }
    destruct v; [| |done]; apply check_quiet; cbn [names set_names resolv_found]; rewrite ?length_insert; (done || lia).
  - destruct (lookup_lt_is_Some_2 (names r) j ltac:(apply lookup_lt_Some in He; lia)) as [e' He']. rewrite He'. cbn [mbind option_bind].
    rewrite (check_quiet_entry e') by (by apply (Hq j)). cbn match. rewrite list_insert_id, set_names_id by done. apply IH; [done|lia..].
Qed.

(** The timer and the retries after [k] more polls. *)
Fixpoint timers (k : nat) : Z * Z :=
  match k with
  | O => (1, 0)
  | S k => let '(t, n) := timers k in if t - 1 =? 0 then (n + 1, n + 1) else (t - 1, n)
  end.

(** Whether the poll after [k] polls sends the query again. *)
Definition again (k : nat) : bool := (timers k).1 =? 1.

Definition waiting (k : nat) (e : namemap) : namemap := set_timer STATE_ASKING (timers k).1 (timers k).2 e.

Lemma waiting_polled e k : (k < 28)%nat → check_entry (waiting k e) = (waiting (S k) e, if again k then Ask else Idle).
Proof. intros Hk. do 28 (destruct k as [|k]; [reflexivity|]). lia. Qed.

Lemma waiting_over e : check_entry (waiting 28 e) = (set_timer STATE_ERROR 0 8 e, GaveUp).
Proof. reflexivity. Qed.

Section lookup.
Context (i : nat) (ls : list mem) (hrest : mem) (e : namemap) (Hls : name_ok ls) (Hname : n_name e = dotted ls ++ 0 :: hrest).

Definition put_entry (e' : namemap) (r : resolver) : resolver := set_names (<[i := e']> (names r)) r.

Lemma only_put e1 e2 r : only i e1 r → only i e2 (put_entry e2 r).
Proof.
  intros [He Hq]. split; cbn [names put_entry set_names].
  - rewrite list_lookup_insert_eq; [done|]. by apply lookup_lt_Some in He.
  - intros k e' Hk. rewrite list_lookup_insert_ne by done. by apply Hq.
Qed.

Lemma put_put e1 e2 r : put_entry e2 (put_entry e1 r) = put_entry e2 r.
Proof. unfold put_entry. cbn [names set_names]. by rewrite list_insert_insert_eq. Qed.

Definition sent (k : nat) : mem := if again k then query i ls else [].

Lemma poll_again k r m : only i (waiting k e) r → length (names r) = Z.to_nat RESOLV_ENTRIES → (k < 28)%nat → 64 <= msize m →
  resolv_appcall 53 (Poll m) r = Some (put_entry (waiting (S k) e) r, sent k).
Proof.
  intros Ho Hn Hk Hm. unfold resolv_appcall, check_entries. rewrite (check_active _ i (waiting k e)) by (done || lia). unfold polled, sent.
  rewrite waiting_polled by done. destruct (again k); [|done]. change (n_name (waiting (S k) e)) with (n_name e). rewrite Hname.
  destruct (query_sent i ls hrest m Hls Hm) as (m' & n & -> & Hout). cbn. by rewrite Hout.
Qed.

(** Polls, as long as the query is not given up. *)
Lemma await_polls : ∀ ms k r l, only i (waiting k e) r → length (names r) = Z.to_nat RESOLV_ENTRIES → elua_resolv_req_done r = false →
  (k + length ms <= 28)%nat → Forall (λ m, 64 <= msize m) ms →
  await (map Poll ms ++ l) r =
  ('(r', outs) ← await l (put_entry (waiting (k + length ms) e) r); Some (r', map sent (seq k (length ms)) ++ outs)).
Proof.
  induction ms as [|m ms IH]; intros k r l Ho Hn Hd Hk Hms.
  - cbn [map app length seq]. rewrite Nat.add_0_r. unfold put_entry. rewrite list_insert_id by apply Ho. rewrite set_names_id.
    by destruct (await l r) as [[? ?]|].
  - apply Forall_cons in Hms as [Hm Hms]. cbn [map app length seq] in *. cbn [await]. rewrite Hd.
    rewrite (poll_again k) by (done || lia). cbn [mbind option_bind].
    rewrite (IH (S k)); [|by apply only_put with (waiting k e)|cbn; by rewrite length_insert|done|lia|done].
    rewrite put_put, Nat.add_succ_r. cbn [Nat.add]. by destruct (await l _) as [[? ?]|].
Qed.

(** The poll that gives up. *)
Lemma poll_gives_up r m : only i (waiting 28 e) r → length (names r) = Z.to_nat RESOLV_ENTRIES →
  resolv_appcall 53 (Poll m) r = Some (resolv_found None (put_entry (set_timer STATE_ERROR 0 8 e) r), []).
Proof.
  intros Ho Hn. unfold resolv_appcall, check_entries. rewrite (check_active _ i (waiting 28 e)) by (done || lia). unfold polled.
  by rewrite waiting_over.
Qed.

(** The first poll. *)
Lemma poll_first r m : n_state e = STATE_NEW → only i e r → length (names r) = Z.to_nat RESOLV_ENTRIES → 64 <= msize m →
  resolv_appcall 53 (Poll m) r = Some (put_entry (waiting 0 e) r, query i ls).
Proof.
  intros Hst Ho Hn Hm. unfold resolv_appcall, check_entries. rewrite (check_active _ i e) by (done || lia). unfold polled, check_entry. rewrite Hst.
  change (STATE_NEW =? STATE_ASKING) with false. change (STATE_NEW =? STATE_NEW) with true. cbn match.
  change (n_name (set_timer STATE_ASKING 1 0 e)) with (n_name e). rewrite Hname.
  destruct (query_sent i ls hrest m Hls Hm) as (m' & n & -> & Hout). cbn. by rewrite Hout.
Qed.

Lemma await_first r m l : n_state e = STATE_NEW → only i e r → length (names r) = Z.to_nat RESOLV_ENTRIES → elua_resolv_req_done r = false → 64 <= msize m →
  await (Poll m :: l) r = ('(r', outs) ← await l (put_entry (waiting 0 e) r); Some (r', query i ls :: outs)).
Proof. intros. cbn [await]. rewrite H2, poll_first by done. done. Qed.
End lookup.

(** The entry that a new name takes. *)
Definition slot (r : resolver) : nat := choose_entry (names r) 0 (seqno r) 0 0.

Lemma choose_bound l : ∀ i sq lseq lseqi, (lseqi < i + length l)%nat → (choose_entry l i sq lseq lseqi < i + length l)%nat.
Proof.
  induction l as [|e l IH]; intros i sq lseq lseqi H; cbn [choose_entry length] in *; [done|].
  destruct (n_state e =? STATE_UNUSED); [lia|]. destruct (lseq <? sq - n_seqno e); eapply Nat.lt_le_trans; try apply IH; lia.
Qed.

Lemma slot_bound r : length (names r) = Z.to_nat RESOLV_ENTRIES → (slot r < Z.to_nat RESOLV_ENTRIES)%nat.
Proof. intros Hn. rewrite <- Hn. unfold slot. apply (choose_bound (names r) 0). rewrite Hn. change (Z.to_nat RESOLV_ENTRIES) with 4%nat. lia. Qed.

(** The entry of a query. *)
Definition new_entry (r : resolver) (nm : mem) (e : namemap) : namemap := NameMap STATE_NEW (n_tmr e) (n_retries e) (seqno r) (n_err e) nm (n_ipaddr e).

Lemma query_entered r ls hrest : table_ok r → Forall quiet (names r) → name_ok ls →
  ∃ r' e nrest, resolv_query (dotted ls ++ 0 :: hrest) r = Some r' ∧ n_name e = dotted ls ++ 0 :: nrest ∧ n_state e = STATE_NEW ∧
  names r' = <[slot r := e]> (names r) ∧ only (slot r) e r' ∧ elua_resolv_req_done r' = elua_resolv_req_done r.
Proof.
  intros [Hn Hok] Hq (Hne & Hls & Hs). pose proof (slot_bound r Hn) as Hb. unfold resolv_query. fold (slot r).
  destruct (lookup_lt_is_Some_2 (names r) (slot r) ltac:(lia)) as [e He]. rewrite He. cbn [mbind option_bind].
  destruct (proj1 (Forall_lookup _ _) Hok _ _ He) as [Hsz _]. unfold c_strcpy. rewrite cstr_app by (by apply dotted_nonzero). cbn [mbind option_bind].
  pose proof (msize_nonneg (dotted ls)). change (n_name e) with (written (n_name e) []).
  rewrite write_next; [|done|rewrite msize_app, msize_nil; change (msize [0]) with 1; lia]. cbn [mbind option_bind app].
  unfold written. rewrite <- app_assoc. cbn [app]. eexists _, (new_entry r _ e), _. split; [done|]. split; [done|]. split; [done|]. split; [done|]. split; [|done].
  split; cbn [names]; [by rewrite list_lookup_insert_eq by lia|]. intros k e' Hk. rewrite list_lookup_insert_ne by done.
  apply (proj1 (Forall_lookup _ _) Hq).
Qed.

(** The entry of the answer is found by its name, when there was none before. *)
Lemma lookup_inserted host s l : ∀ i e' ip, cstr host = Some s → lookup_loop host l = Some None → (i < length l)%nat →
  n_state e' = STATE_DONE → cstr (n_name e') = Some s → n_ipaddr e' = ip → lookup_loop host (<[i := e']> l) = Some (Some ip).
Proof.
  induction l as [|e l IH]; intros i e' ip Hs Hnone Hi Hst He' Hip; [cbn in Hi; lia|]. destruct i as [|i]; cbn [insert list_insert lookup_loop] in *.
  - rewrite Hst. change (STATE_DONE =? STATE_DONE) with true. cbn match. rewrite Hs, He'. cbn [mbind option_bind].
    rewrite bool_decide_true by done. by rewrite Hip.
  - cbn [length] in Hi. destruct (n_state e =? STATE_DONE); [|apply IH; (done || lia)].
    rewrite Hs in *. cbn [mbind option_bind] in *. destruct (cstr (n_name e)) as [b|]; [|done]. cbn [mbind option_bind] in *.
    destruct (bool_decide (s = b)); [done|]. apply IH; (done || lia).
Qed.

Definition request (r : resolver) : resolver := Resolver (names r) (seqno r) (elua_resolv_ip r) false.

(** C13: a lookup of a name that is not in the table: the first poll sends a query with the labels of the name, and a server's
    message with an address record, which may follow aliases and come before the query has been given up, is what the
    program gets; a later lookup gets it from the table without a query. A name has less than 32 characters, and the records'
    owners are names written out or one pointer. *)
Theorem name_resolves r ls hrest m ms f1 f2 qs l rest ip : table_ok r → Forall quiet (names r) → name_ok ls →
  resolv_lookup (dotted ls ++ 0 :: hrest) r = Some None →
  Forall (λ m, 64 <= msize m) (m :: ms) → (length ms <= 28)%nat →
  question_ok qs → Forall rr_ok l → (length l < 256)%nat → Z.land f2 DNS_FLAG2_ERR_MASK = 0 → first_address l = Some ip →
  ∃ r' outs, elua_net_lookup (dotted ls ++ 0 :: hrest) (map Poll (m :: ms) ++ [Data (reply (slot r) f1 f2 qs l rest)]) r =
    Some (Some ip, r', query (slot r) ls :: outs) ∧ resolv_lookup (dotted ls ++ 0 :: hrest) r' = Some (Some ip).
Proof.
  intros Hok Hq Hls Hnone Hm Hms Hqs Hl Hn Herr Hip. apply Forall_cons in Hm as [Hm Hmms]. unfold elua_net_lookup. rewrite Hnone. cbn [mbind option_bind].
  fold (request r). destruct (query_entered (request r) ls hrest Hok Hq Hls) as (r1 & e & nrest & -> & Hnm & Hst & Hnames & Ho & Hd).
  cbn [mbind option_bind map app]. change (slot (request r)) with (slot r) in *. change (names (request r)) with (names r) in *. destruct Hok as [Hlen _].
  assert (length (names r1) = Z.to_nat RESOLV_ENTRIES) as Hlen1 by (rewrite Hnames, length_insert; done).
  rewrite (await_first (slot r) ls nrest e Hls Hnm) by done. assert (only (slot r) (waiting 0 e) (put_entry (slot r) (waiting 0 e) r1)) as Ho1 by (by eapply only_put).
  rewrite (await_polls (slot r) ls nrest e Hls Hnm ms 0); [|done|cbn; by rewrite length_insert|done|cbn; lia|done].
  rewrite put_put. cbn [Nat.add]. set (rk := put_entry (slot r) (waiting (length ms) e) r1). set (ek := waiting (length ms) e).
  assert (only (slot r) ek rk) as [Hek _] by (by eapply only_put). cbn [await]. change (elua_resolv_req_done rk) with (elua_resolv_req_done r1). rewrite Hd. cbn match.
  pose proof (slot_bound r Hlen) as Hb. change (Z.to_nat RESOLV_ENTRIES) with 4%nat in Hb. cbn [resolv_appcall Z.eqb Pos.eqb].
  rewrite (reply_taken (slot r) ek) by (done || lia). cbn [mbind option_bind]. unfold taken. rewrite Herr, Hip. cbn [Z.eqb].
  set (ed := set_addr ip (set_result STATE_DONE 0 ek)). cbn [elua_resolv_req_done resolv_found mbind option_bind app elua_resolv_ip default from_option id].
  eexists _, _. split; [done|]. unfold resolv_lookup. cbn [names resolv_found set_names put_entry rk].
  rewrite Hnames, !list_insert_insert_eq. pose proof (dotted_nonzero ls ltac:(apply Hls)) as Hnz.
  apply (lookup_inserted _ (dotted ls)); [by apply cstr_app|done|rewrite Hlen; change (Z.to_nat RESOLV_ENTRIES) with 4%nat; lia|done| |done].
  change (n_name ed) with (n_name e). rewrite Hnm. by apply cstr_app.
Qed.

(** A lookup that no server answers: the query is sent eight times, with longer and longer pauses, and at the thirtieth
    poll the program gets 0.0.0.0. *)
Theorem name_given_up r ls hrest ms l : table_ok r → Forall quiet (names r) → name_ok ls →
  resolv_lookup (dotted ls ++ 0 :: hrest) r = Some None → length ms = 30%nat → Forall (λ m, 64 <= msize m) ms →
  ∃ r' outs, elua_net_lookup (dotted ls ++ 0 :: hrest) (map Poll ms ++ l) r = Some (Some [0; 0; 0; 0], r', outs) ∧
  length outs = 30%nat ∧ length (filter (λ o, o ≠ []) outs) = 8%nat ∧ Forall (λ o, o = [] ∨ o = query (slot r) ls) outs.
Proof.
  intros Hok Hq Hls Hnone Hlen Hms. destruct ms as [|m ms]; [done|]. destruct (exists_last (l := ms)) as (ms' & m' & ->); [by intros ->|].
  apply Forall_cons in Hms as [Hm Hms]. apply Forall_app in Hms as [Hms Hm'%Forall_cons]. cbn [length] in Hlen. rewrite length_app in Hlen. cbn [length] in Hlen.
  unfold elua_net_lookup. rewrite Hnone. cbn [mbind option_bind].
  fold (request r). destruct (query_entered (request r) ls hrest Hok Hq Hls) as (r1 & e & nrest & -> & Hnm & Hst & Hnames & Ho & Hd).
  cbn [mbind option_bind map app]. change (slot (request r)) with (slot r) in *. change (names (request r)) with (names r) in *. destruct Hok as [Hlenr _].
  assert (length (names r1) = Z.to_nat RESOLV_ENTRIES) as Hlen1 by (rewrite Hnames, length_insert; done).
  rewrite (await_first (slot r) ls nrest e Hls Hnm) by done. rewrite map_app, <- app_assoc. cbn [map app].
  rewrite (await_polls (slot r) ls nrest e Hls Hnm ms' 0); [|by eapply only_put|cbn; by rewrite length_insert|done|cbn; lia|done].
  rewrite put_put. cbn [Nat.add]. replace (length ms') with 28%nat by lia. set (rk := put_entry (slot r) (waiting 28 e) r1).
  cbn [await]. change (elua_resolv_req_done rk) with (elua_resolv_req_done r1). rewrite Hd. cbn match.
  rewrite (poll_gives_up (slot r) e rk) by (first [by eapply only_put | by (cbn; rewrite length_insert)]). cbn [mbind option_bind].
  assert (∀ r0 l0, elua_resolv_req_done r0 = true → await l0 r0 = Some (r0, [])) as Hdone by (intros r0 [|? ?] H; cbn; by rewrite H).
  rewrite Hdone by done. cbn [mbind option_bind elua_resolv_req_done elua_resolv_ip resolv_found default from_option id]. eexists _, _. split; [done|].
  split; [by rewrite !length_cons, length_app, length_map, length_seq|]. split; [reflexivity|].
  constructor; [by right|]. apply Forall_app. split; [|constructor; [by left|constructor]]. apply Forall_map, Forall_true. intros k. unfold sent. destruct (again k); auto.
Qed.

(** ** At work *)

Definition packet_space : mem := replicate 100 0.

Definition empty_entry : namemap := NameMap STATE_DONE 0 0 0 0 (replicate 32 0) [0; 0; 0; 0].
Definition empty_table : resolver := Resolver (replicate 4 empty_entry) 0 [0; 0; 0; 0] false.

Definition www : list mem := [ascii_bytes "www"; ascii_bytes "eluaproject"; ascii_bytes "net"].
Definition www_name : mem := dotted www ++ [0].

Lemma empty_table_ok : table_ok empty_table.
Proof. split; [done|]. repeat constructor; by exists []. Qed.

Lemma empty_table_quiet : Forall quiet (names empty_table).
Proof. repeat constructor; done. Qed.

Lemma www_ok : name_ok www.
Proof.
  split; [done|]. split; [|done]. unfold www.
  repeat (apply Forall_cons_2; [split; [|split; [|done]]; apply (bool_decide_unpack _); by vm_compute|]). apply Forall_nil_2.
Qed.

(** An alias, then the address. *)
Definition www_records : list rr :=
  [Rr (Pointer 192 12) 5 1 [0; 0; 14; 16] [4; 104; 111; 115; 116; 192; 16]; Rr (Pointer 192 45) 1 1 [0; 0; 14; 16] [93; 184; 216; 34]].

Lemma www_records_ok : Forall rr_ok www_records.
Proof. repeat (apply Forall_cons_2; [split_and!; by vm_compute|]). apply Forall_nil_2. Qed.

Lemma www_question : question_ok www.
Proof. split; [done|]. repeat (apply Forall_cons_2; [split; by vm_compute|]). apply Forall_nil_2. Qed.

Lemma name_resolves_witness :
  ∃ r' outs, elua_net_lookup www_name
    (map Poll (packet_space :: [packet_space; packet_space]) ++ [Data (reply (slot empty_table) 129 128 www www_records [])]) empty_table =
    Some (Some [93; 184; 216; 34], r', query (slot empty_table) www :: outs) ∧ resolv_lookup www_name r' = Some (Some [93; 184; 216; 34]).
Proof.
  apply (name_resolves empty_table www [] packet_space [packet_space; packet_space] 129 128 www www_records [] [93; 184; 216; 34]).
  - exact empty_table_ok.
  - exact empty_table_quiet.
  - exact www_ok.
  - reflexivity.
  - repeat (apply Forall_cons_2; [by vm_compute|]). apply Forall_nil_2.
  - cbn. lia.
  - exact www_question.
  - exact www_records_ok.
  - cbn. lia.
  - reflexivity.
  - reflexivity.
Defined.

Lemma name_given_up_witness :
  ∃ r' outs, elua_net_lookup www_name (map Poll (replicate 30 packet_space) ++ []) empty_table = Some (Some [0; 0; 0; 0], r', outs) ∧
  length outs = 30%nat ∧ length (filter (λ o, o ≠ []) outs) = 8%nat ∧ Forall (λ o, o = [] ∨ o = query (slot empty_table) www) outs.
Proof.
  apply (name_given_up empty_table www [] (replicate 30 packet_space) []).
  - exact empty_table_ok.
  - exact empty_table_quiet.
  - exact www_ok.
  - reflexivity.
  - reflexivity.
  - apply Forall_replicate. by vm_compute.
Defined.

(** ** Not as the protocol has it *)

Definition first_of {A B C} (x : A * B * C) : A := x.1.1.

(** A message without an address record ends the query but not the lookup: the program waits, whatever comes, and the next lookup of
    the name gets the address that was in the entry before. *)
Example no_address_waits :
  first_of <$> elua_net_lookup www_name (Poll packet_space :: Data (reply 0 129 128 www (take 1 www_records) []) :: map Poll (replicate 40 packet_space)) empty_table =
    Some None ∧
  (x ← elua_net_lookup www_name [Poll packet_space; Data (reply 0 129 128 www (take 1 www_records) [])] empty_table;
   first_of <$> elua_net_lookup www_name [] x.1.2) = Some (Some [0; 0; 0; 0]).
Proof. split; reflexivity. Qed.

(** Of the identifier of a message the upper half is not looked at. *)
Example identifier_truncated :
  first_of <$> elua_net_lookup www_name [Poll packet_space; Data ([1; 0] ++ drop 2 (reply 0 129 128 www www_records []))] empty_table =
  Some (Some [93; 184; 216; 34]).
Proof. reflexivity. Qed.

(** A name of 32 characters is copied over the end of the array. *)
Example long_name_copied : elua_net_lookup (replicate 32 97 ++ [0]) [] empty_table = None.
Proof. reflexivity. Qed.

(** When the sequence number has wrapped, the entries with the numbers before look young: the first is taken, which may be the
    youngest. *)
Example sequence_wraps :
  choose_entry (map (λ n, NameMap STATE_DONE 0 0 n 0 (replicate 32 0) [0; 0; 0; 0]) [255; 252; 253; 254]) 0 0 0 0 = 0%nat.
Proof. reflexivity. Qed.

(** A record whose name is a label and a pointer: the pointer is taken for the length of a label, and the address is not found. *)
Example pointer_behind_label :
  answer_loop 1 ([4; 104; 111; 115; 116; 192; 16] ++ drop 2 (rr_bytes (Rr (Pointer 192 16) 1 1 [0; 0; 14; 16] [93; 184; 216; 34])) ++ replicate 600 0) 0 =
  Some None.
Proof. reflexivity. Qed.

(** A datagram for the DHCP client is an event of the resolver too: the query that entry 1 waits for is over, by a message of another
    protocol, and no call of [resolv_found] tells the program. *)
Example dhcp_datagram_ends_query :
  (λ x, (n_state <$> names x.1.1.1 !! 1%nat, elua_resolv_req_done x.1.1.1)) <$>
    elua_uip_udp_appcall 53 [0; 0; 0; 0] (Dhcp.Event true 300 (λ _, 0) 0 0) ([2; 1; 6; 0] ++ xid ++ replicate 1000 0)
      (set_names (<[1%nat := set_timer STATE_ASKING 1 0 empty_entry]> (names empty_table)) empty_table)
      (Dhcpc 3 0 0 0 [2; 0; 0; 0; 0; 9] [0; 0; 0; 0] [0; 0; 0; 0] [0; 0; 0; 0] [0; 0; 0; 0] [0; 0; 0; 0] [0; 0; 0; 0]) =
  Some (Some STATE_DONE, false).
Proof. vm_compute. reflexivity. Qed.
