(* ===== verification/Net.v ===== *)
(** * The network services and the console over TELNET

    Models src/elua_uip.c (without its main loop and the calls that only configure the stack) and src/newlib/stdtcp.c.
    A service prepares the state of its socket and waits until the application of the stack, [elua_uip_appcall], has
    made it idle again: it is a function that prepares and one that gives the result, and between them come the
    events of the connection.

    [tcpstateflags] is split into the state and the flag UIP_STOPPED. A connection that is stopped accepts no data.
    The main loop forces polls: unlike in the web server, a poll may come while data is in flight. *)
From S2P Require Import Prelude Psock.

Class NetConf := { UIP_CONNS : Z; UIP_RECEIVE_WINDOW : Z; BUILD_CON_TCP : bool }.

Definition UIP_CLOSED : Z := 0.
Definition UIP_RESERVED : Z := 9.

Definition ELUA_UIP_STATE_IDLE : Z := 0.
Definition ELUA_UIP_STATE_SEND : Z := 1.
Definition ELUA_UIP_STATE_RECV : Z := 2.
Definition ELUA_UIP_STATE_RECV_2 : Z := 3.
Definition ELUA_UIP_STATE_CONNECT : Z := 4.
Definition ELUA_UIP_STATE_CLOSE : Z := 5.

Definition ELUA_NET_ERR_OK : Z := 0.
Definition ELUA_NET_ERR_TIMEDOUT : Z := 1.
Definition ELUA_NET_ERR_CLOSED : Z := 2.
Definition ELUA_NET_ERR_ABORTED : Z := 3.
Definition ELUA_NET_ERR_OVERFLOW : Z := 4.
Definition ELUA_NET_NO_LASTCHAR : Z := -1.
Definition ELUA_NET_TELNET_PORT : Z := 23.
Definition ELUA_NET_SOCK_DGRAM : Z := 1.

Definition TELNET_IAC_CHAR : Z := 255.
Definition TELNET_IAC_3B_FIRST : Z := 251.
Definition TELNET_IAC_3B_LAST : Z := 254.
Definition TELNET_EOF : Z := 236.
Definition STD_CTRLZ_CODE : Z := 26.
Definition NET_CR : Z := 13.
Definition NET_LF : Z := 10.

(** What [ptr] points to: an object, at an offset, or a [luaL_Buffer] to which bytes have been added. *)
Inductive nptr :=
| PNull
| PMem (m : mem) (off : Z)
| PLua (acc : mem).

Record elua_uip_state := UipState { es_state : Z; es_res : Z; es_ptr : nptr; es_len : Z; es_readto : Z }.

Record uip_conn := UipConn { tcpstate : Z; stopped : bool; lport : Z; c_ripaddr : Z * Z; appstate : elua_uip_state }.

Record net := Net {
  configured : bool; telnet_socket : Z; accept_request : bool; accept_sock : Z; accept_remote : Z * Z;
  uip_conns : list uip_conn }.

Definition set_es_state (s : elua_uip_state) (x : Z) : elua_uip_state := UipState x (es_res s) (es_ptr s) (es_len s) (es_readto s).
Definition set_es_res (s : elua_uip_state) (r : Z) : elua_uip_state := UipState (es_state s) r (es_ptr s) (es_len s) (es_readto s).
Definition set_es_buf (s : elua_uip_state) (p : nptr) (len : Z) : elua_uip_state := UipState (es_state s) (es_res s) p (s16 len) (es_readto s).

Definition set_appstate (c : uip_conn) (s : elua_uip_state) : uip_conn := UipConn (tcpstate c) (stopped c) (lport c) (c_ripaddr c) s.
Definition set_tcpstate (c : uip_conn) (t : Z) : uip_conn := UipConn t (stopped c) (lport c) (c_ripaddr c) (appstate c).
Definition set_stopped (c : uip_conn) (b : bool) : uip_conn := UipConn (tcpstate c) b (lport c) (c_ripaddr c) (appstate c).

Definition set_conn (n : net) (k : Z) (c : uip_conn) : net :=
  Net (configured n) (telnet_socket n) (accept_request n) (accept_sock n) (accept_remote n) (<[Z.to_nat k := c]> (uip_conns n)).

Definition set_telnet_socket (n : net) (k : Z) : net :=
  Net (configured n) k (accept_request n) (accept_sock n) (accept_remote n) (uip_conns n).

Definition set_accept (n : net) (req : bool) (sock : Z) (rem : Z * Z) : net :=
  Net (configured n) (telnet_socket n) req sock rem (uip_conns n).

(** A byte through [*s->ptr] at an offset from it, or to the [luaL_Buffer]. *)
Definition ptr_put (p : nptr) (i c : Z) : option nptr :=
  match p with PMem m off => m ← st m (off + i) c; Some (PMem m off) | _ => None end.

Definition lua_addstring (p : nptr) (bs : mem) : option nptr :=
  match p with PLua acc => Some (PLua (acc ++ bs)) | _ => None end.

Definition ptr_add (p : nptr) (n : Z) : nptr :=
  match p with PMem m off => PMem m (off + n) | _ => p end.

Definition ptr_object (p : nptr) : mem :=
  match p with PMem m off => drop (Z.to_nat off) m | _ => [] end.

(** ** TELNET *)

(** [elua_uip_telnet_handle_input] from its loop on: [i] is the position in the packet, [n] the bytes written. *)
Fixpoint telnet_loop (fuel : nat) (u : uip) (p : nptr) (len i n : Z) : option (nptr * Z) :=
  match fuel with
  | O => None
  | S fuel =>
      if (i <? uip_len u) && (n <? len) then
        c ← ld (uip_appdata u) i;
        if negb (c =? TELNET_IAC_CHAR) then p ← ptr_put p n c; telnet_loop fuel u p len (i + 1) (n + 1)
        else
          c1 ← ld (uip_appdata u) (i + 1);
          if (TELNET_IAC_3B_FIRST <=? c1) && (c1 <=? TELNET_IAC_3B_LAST) then telnet_loop fuel u p len (i + 3) n
          else if c1 =? TELNET_EOF then p ← ptr_put p n STD_CTRLZ_CODE; telnet_loop fuel u p len (i + 2) (n + 1)
          else telnet_loop fuel u p len (i + 2) n
      else Some (p, n)
  end.

Definition telnet_handle_input (u : uip) (c : uip_conn) : option uip_conn :=
  let s := appstate c in
  '(p, n) ← telnet_loop (S (Z.to_nat (uip_len u))) u (es_ptr s) (es_len s) 0 0;
  let p := ptr_add p n in
  if 0 <? n then
    Some (set_stopped (set_appstate c (UipState ELUA_UIP_STATE_IDLE ELUA_NET_ERR_OK p (s16 (es_len s - n)) (es_readto s))) true)
  else Some (set_appstate c (set_es_buf s p (es_len s))).

(** [elua_uip_telnet_prep_send]: what is written to the packet buffer. *)
Definition telnet_expand (src : mem) : mem := concat ((λ c, if c =? NET_LF then [NET_CR; c] else [c]) <$> src).

Definition telnet_prep_send (u : uip) (src : mem) (size : Z) : option (uip * Z) :=
  bs ← mread src 0 size;
  app ← mwrite (uip_appdata u) 0 (telnet_expand bs);
  Some (Uip (uip_flags u) (uip_mss u) app (uip_len u) (uip_slen u), s16 (msize (telnet_expand bs))).

(** ** The application of the stack *)
Section net.
Context {conf : NetConf}.

Definition uip_closing (u : uip) : bool := uip_flag u UIP_ABORT || uip_flag u UIP_TIMEDOUT || uip_flag u UIP_CLOSE.

Definition is_telnet (n : net) (k : Z) : bool := BUILD_CON_TCP && (k =? telnet_socket n).

Definition appcall_connected (n : net) (k : Z) (c : uip_conn) (u : uip) : net * uip :=
  if BUILD_CON_TCP && (lport c =? ELUA_NET_TELNET_PORT) then
    if negb (telnet_socket n =? -1) then (n, uip_close u)
    else (set_telnet_socket (set_conn n k (set_stopped c true)) k, u)
  else if accept_request n then (set_accept (set_conn n k (set_stopped c true)) false k (c_ripaddr c), u)
  else
    let s := if es_state (appstate c) =? ELUA_UIP_STATE_CONNECT then set_es_state (appstate c) ELUA_UIP_STATE_IDLE else appstate c in
    (set_conn n k (set_stopped (set_appstate c s) true), u).

Definition appcall_error (u : uip) (s : elua_uip_state) : elua_uip_state :=
  set_es_state (set_es_res s (if uip_flag u UIP_ABORT then ELUA_NET_ERR_ABORTED
                              else if uip_flag u UIP_TIMEDOUT then ELUA_NET_ERR_TIMEDOUT else ELUA_NET_ERR_CLOSED)) ELUA_UIP_STATE_IDLE.

Definition appcall_send (telnet : bool) (u : uip) (s : elua_uip_state) : option (elua_uip_state * uip) :=
  let s := if uip_acked u then
             let minlen := if es_len s <=? uip_mss u then es_len s else uip_mss u in
             let s := set_es_buf s (ptr_add (es_ptr s) minlen) (es_len s - minlen) in
             if es_len s =? 0 then set_es_state s ELUA_UIP_STATE_IDLE else s
           else s in
  if 0 <? es_len s then
    u ← (if telnet then '(u, temp) ← telnet_prep_send u (ptr_object (es_ptr s)) (es_len s); uip_send u None temp
         else uip_send u (Some (ptr_object (es_ptr s))) (if es_len s <=? uip_mss u then es_len s else uip_mss u));
    Some (s, u)
  else Some (s, u).

(** The loop over the packet up to the character [readto]; [dest] is the number of bytes stored. *)
Fixpoint recv_line (n : nat) (app : mem) (i : Z) (s : elua_uip_state) (dest : Z) : option (elua_uip_state * bool) :=
  match n with
  | O => Some (s, false)
  | S n =>
      c ← ld app i;
      if c =? es_readto s then Some (s, true)
      else if negb (c =? NET_CR) then
        p ← (if negb (es_res s =? 0) then lua_addstring (es_ptr s) [c] else ptr_put (es_ptr s) dest c);
        recv_line n app (i + 1) (set_es_buf s p (es_len s - 1)) (dest + 1)
      else recv_line n app (i + 1) s dest
  end.

Definition appcall_recv (u : uip) (c : uip_conn) : option uip_conn :=
  let s := appstate c in
  let lastfound := uip_len u <? UIP_RECEIVE_WINDOW in
  let '(s, temp) := if es_len s <? uip_len u then (set_es_res s ELUA_NET_ERR_OVERFLOW, es_len s) else (s, s16 (uip_len u)) in
  '(s, found) ← (if negb (es_readto s =? ELUA_NET_NO_LASTCHAR) then recv_line (Z.to_nat temp) (uip_appdata u) 0 s 0
                 else
                   bs ← mread (uip_appdata u) 0 temp;
                   p ← (if negb (es_res s =? 0) then lua_addstring (es_ptr s) bs
                        else match es_ptr s with PMem m off => m ← mwrite m off bs; Some (PMem m off) | _ => None end);
                   Some (set_es_buf s p (es_len s - temp), false));
  if (es_len s =? 0) || lastfound || found
  then Some (set_stopped (set_appstate c (set_es_state (set_es_res s ELUA_NET_ERR_OK) ELUA_UIP_STATE_IDLE)) true)
  else Some (set_appstate c s).

Definition elua_uip_appcall (n : net) (k : Z) (u : uip) : option (net * uip) :=
  if negb (configured n) then Some (n, u)
  else
    c ← uip_conns n !! Z.to_nat k;
    let s := appstate c in
    if uip_flag u UIP_CONNECTED then Some (appcall_connected n k c u)
    else if es_state s =? ELUA_UIP_STATE_IDLE then Some (n, u)
    else if es_state s =? ELUA_UIP_STATE_RECV then
      Some (set_conn n k (set_stopped (set_appstate c (set_es_state s ELUA_UIP_STATE_RECV_2)) false),
            set_uip_flags u (Z.lor (uip_flags u) UIP_NEWDATA))
    else if uip_closing u then
      let n := if is_telnet n k then set_telnet_socket n (-1) else n in
      Some (set_conn n k (set_appstate c (appcall_error u s)), u)
    else if (uip_acked u || uip_rexmit u || uip_flag u UIP_POLL) && (es_state s =? ELUA_UIP_STATE_SEND) then
      '(s, u) ← appcall_send (is_telnet n k) u s; Some (set_conn n k (set_appstate c s), u)
    else if es_state s =? ELUA_UIP_STATE_CLOSE then
      Some (set_conn n k (set_appstate c (set_es_state s ELUA_UIP_STATE_IDLE)), uip_close u)
    else if uip_newdata u then
      if es_state s =? ELUA_UIP_STATE_RECV_2 then
        c ← (if is_telnet n k then telnet_handle_input u c else appcall_recv u c); Some (set_conn n k c, u)
      else Some (set_conn n k (set_stopped c true), u)
    else Some (n, u).

(** ** The services

    [inl] is the result of a call that does not wait. *)
Definition is_sock_ok (n : net) (k : Z) : bool := configured n && (0 <=? k) && (k <? UIP_CONNS).

Definition uip_conn_active (c : uip_conn) : bool :=
  negb ((tcpstate c =? UIP_CLOSED) && negb (stopped c)) && negb ((tcpstate c =? UIP_RESERVED) && negb (stopped c)).

Definition elua_prep_socket_state (p : nptr) (len readto res state : Z) : elua_uip_state := UipState state (u8 res) p (s16 len) readto.

Definition net_prep (n : net) (k : Z) (s : elua_uip_state) : option net :=
  c ← uip_conns n !! Z.to_nat k; Some (set_conn n k (set_appstate c s)).

Definition sock_active (n : net) (k : Z) : option bool :=
  if is_sock_ok n k then c ← uip_conns n !! Z.to_nat k; Some (uip_conn_active c) else Some false.

Fixpoint find_free (i : Z) (cs : list uip_conn) : option Z :=
  match cs with
  | [] => None
  | c :: cs => if (tcpstate c =? UIP_CLOSED) && negb (stopped c) then Some i else find_free (i + 1) cs
  end.

Definition elua_net_socket (n : net) (type : Z) : option (net * Z) :=
  if type =? ELUA_NET_SOCK_DGRAM then Some (n, -1)
  else
    match find_free 0 (uip_conns n) with
    | None => Some (n, -1)
    | Some i => c ← uip_conns n !! Z.to_nat i; Some (set_conn n i (set_stopped (set_tcpstate c UIP_RESERVED) false), i)
    end.

Definition elua_net_send (n : net) (k : Z) (buf : mem) (len : Z) : option (Z + net) :=
  ok ← sock_active n k;
  if negb ok then Some (inl (-1))
  else if len =? 0 then Some (inl 0)
  else n ← net_prep n k (elua_prep_socket_state (PMem buf 0) len ELUA_NET_NO_LASTCHAR ELUA_NET_ERR_OK ELUA_UIP_STATE_SEND); Some (inr n).

Definition elua_net_recv_internal (n : net) (k : Z) (buf : nptr) (maxsize readto : Z) (with_buffer : bool) : option (Z + net) :=
  ok ← sock_active n k;
  if negb ok then Some (inl (-1))
  else if maxsize =? 0 then Some (inl 0)
  else n ← net_prep n k (elua_prep_socket_state buf maxsize readto (cbool with_buffer) ELUA_UIP_STATE_RECV); Some (inr n).

Definition elua_net_recv n k (buf : mem) maxsize readto := elua_net_recv_internal n k (PMem buf 0) maxsize readto false.

Definition elua_net_recvbuf n k (buf : mem) maxsize readto := elua_net_recv_internal n k (PLua buf) maxsize readto true.

(** The result of a transfer of [len] bytes, when the socket is idle. *)
Definition net_result (n : net) (k len : Z) : option Z :=
  c ← uip_conns n !! Z.to_nat k;
  if es_state (appstate c) =? ELUA_UIP_STATE_IDLE then Some (s16 (len - es_len (appstate c))) else None.

(** The time of a receive is over. *)
Definition recv_timeout (n : net) (k : Z) : option net :=
  c ← uip_conns n !! Z.to_nat k;
  let s := appstate c in
  if negb (es_state s =? ELUA_UIP_STATE_IDLE) then
    Some (set_conn n k (set_appstate c (set_es_state (set_es_res s ELUA_NET_ERR_TIMEDOUT) ELUA_UIP_STATE_IDLE)))
  else Some n.

Definition elua_net_close (n : net) (k : Z) : option (Z + net) :=
  ok ← sock_active n k;
  if negb ok then Some (inl (-1))
  else n ← net_prep n k (elua_prep_socket_state PNull 0 ELUA_NET_NO_LASTCHAR ELUA_NET_ERR_OK ELUA_UIP_STATE_CLOSE); Some (inr n).

(** The result of a close and of a connect. *)
Definition net_status (n : net) (k : Z) : option Z :=
  c ← uip_conns n !! Z.to_nat k;
  if es_state (appstate c) =? ELUA_UIP_STATE_IDLE then Some (if es_res (appstate c) =? ELUA_NET_ERR_OK then 0 else -1) else None.

Definition elua_net_get_last_err (n : net) (k : Z) : option Z :=
  if negb (is_sock_ok n k) then Some (-1) else c ← uip_conns n !! Z.to_nat k; Some (es_res (appstate c)).

Definition elua_net_get_telnet_socket (n : net) : option Z :=
  if BUILD_CON_TCP && negb (telnet_socket n =? -1) then
    c ← uip_conns n !! Z.to_nat (telnet_socket n);
    Some (if uip_conn_active c then telnet_socket n else -1)
  else Some (-1).

(** [elua_accept] without the list of the ports that the stack listens to. *)
Definition elua_accept (n : net) (port : Z) : Z + net :=
  if negb (configured n) then inl (-1)
  else if BUILD_CON_TCP && (port =? ELUA_NET_TELNET_PORT) then inl (-1)
  else inr (set_accept n true (-1) (accept_remote n)).

Definition accept_timeout (n : net) : net := set_accept n false (accept_sock n) (accept_remote n).

Definition accept_result (n : net) : option (Z * (Z * Z)) :=
  if accept_request n then None else Some (accept_sock n, accept_remote n).

(** [elua_net_connect]: the stack's [uip_connect_socket] starts the connection in the state [syn]. *)
Definition elua_net_connect (n : net) (k : Z) (addr : Z * Z) (syn : Z) : option (Z + net) :=
  if negb (is_sock_ok n k) then Some (inl (-1))
  else
    c ← uip_conns n !! Z.to_nat k;
    if negb ((tcpstate c =? UIP_RESERVED) && negb (stopped c)) then Some (inl (-1))
    else
      let s := elua_prep_socket_state PNull 0 ELUA_NET_NO_LASTCHAR ELUA_NET_ERR_OK ELUA_UIP_STATE_CONNECT in
      Some (inr (set_conn n k (UipConn syn false (lport c) addr s))).
End net.

(** ** A socket and its connection *)
Section connection.
Context {conf : NetConf} (mss k : Z).

(** What the stack makes of an event: the data for a stopped connection is not accepted. *)
Definition net_event (stop : bool) (e : event) : option event :=
  match e with
  | New _ => if stop then None else Some e
  | AckNew _ => if stop then Some Ack else Some e
  | _ => Some e
  end.

Definition net_enabled (e : event) (cn : conn) : bool :=
  match e with Ack | Rexmit | AckNew _ => bool_decide (is_Some (inflight cn)) | New _ | Poll => true end.

Definition net_step (x : net * conn) (e : event * mem) : option (net * conn) :=
  if fin x.2 then Some x
  else
    c ← uip_conns x.1 !! Z.to_nat k;
    match net_event (stopped c) e.1 with
    | Some e' => if net_enabled e' x.2 then tcp_call (λ n u, elua_uip_appcall n k u) mss x (e', e.2) else Some x
    | None => Some x
    end.

Fixpoint net_run (x : net * conn) (es : list (event * mem)) : option (net * conn) :=
  match es with
  | [] => Some x
  | e :: es => x ← net_step x e; net_run x es
  end.

(** ** Sending *)
Hypothesis Hmss : 0 < mss < 65536.

(** The socket [k] in the state of the program. *)
Definition sock_is (n : net) (s : elua_uip_state) (stop : bool) : Prop :=
  configured n = true ∧ ∃ c, uip_conns n !! Z.to_nat k = Some c ∧ appstate c = s ∧ stopped c = stop.

(** [rest] is to be sent. *)
Definition to_send (n : net) (rest : mem) : Prop :=
  is_telnet n k = false ∧
  ∃ m off post, sock_is n (UipState ELUA_UIP_STATE_SEND ELUA_NET_ERR_OK (PMem m off) (msize rest) ELUA_NET_NO_LASTCHAR) true ∧
    0 <= off ∧ drop (Z.to_nat off) m = rest ++ post ∧ 0 < msize rest < 32768.

(** When [i] segments have been acknowledged. *)
Definition in_transit (segs : list mem) (D : mem) (i : nat) : conn := Conn (segs !! i) (D ++ concat (take i segs)) false.

Lemma sock_set_conn n c c' :
  uip_conns n !! Z.to_nat k = Some c → uip_conns (set_conn n k c') !! Z.to_nat k = Some c'.
Proof. intros H. cbn. apply list_lookup_insert_eq. by apply lookup_lt_Some in H. Qed.

(** The segment of the call. *)
Lemma send_segment u rest m off post :
  0 <= off → drop (Z.to_nat off) m = rest ++ post → 0 < msize rest < 32768 → uip_mss u = mss → mss <= msize (uip_appdata u) →
  uip_send u (Some (drop (Z.to_nat off) m)) (if msize rest <=? mss then msize rest else mss) = Some (put_out u (take (Z.to_nat mss) rest)).
Proof.
  intros Ho Hd Hr Hu Hroom. rewrite Hd. set (n := if msize rest <=? mss then msize rest else mss).
  assert (n = msize (take (Z.to_nat mss) rest) ∧ 0 < n <= mss) as [En Hn].
  { unfold n. destruct (chunk_size mss (proj1 Hmss) rest) as [H1 H2]; [intros ->; rewrite msize_nil in Hr; lia|].
    unfold msize in *. rewrite length_take in *. destruct (Z.leb_spec (Z.of_nat (length rest)) mss); lia. }
  rewrite En. apply uip_send_put; [lia| |lia]. rewrite <- (take_drop (Z.to_nat mss) rest) at 1. rewrite <- app_assoc.
  exact (bytes_at_prefix _ [] (take (Z.to_nat mss) rest) (drop (Z.to_nat mss) rest ++ post) eq_refl).
Qed.

(** The application is called to transmit or to retransmit. *)
Lemma appcall_transmit n rest u :
  to_send n rest → uip_acked u = false → uip_rexmit u || uip_flag u UIP_POLL = true → uip_flag u UIP_CONNECTED = false → uip_closing u = false →
  uip_mss u = mss → mss <= msize (uip_appdata u) →
  ∃ n', elua_uip_appcall n k u = Some (n', put_out u (take (Z.to_nat mss) rest)) ∧ to_send n' rest.
Proof.
  intros (Ht & m & off & post & (Hc & c & Hk & Hs & Hst) & Ho & Hd & Hr) Ha Hx Hcon Hcl Hu Hroom.
  unfold elua_uip_appcall. rewrite Hc, Hk. cbn [negb mbind option_bind]. rewrite Hs, Hcon. cbn [es_state].
  change (ELUA_UIP_STATE_SEND =? ELUA_UIP_STATE_IDLE) with false. change (ELUA_UIP_STATE_SEND =? ELUA_UIP_STATE_RECV) with false.
  change (ELUA_UIP_STATE_SEND =? ELUA_UIP_STATE_SEND) with true. cbv iota. rewrite Hcl, Ha. cbn [orb]. rewrite Hx, Ht. cbn [andb].
  unfold appcall_send. rewrite Ha. cbn [es_len es_ptr]. rewrite (proj2 (Z.ltb_lt 0 _)) by lia. rewrite Hu. cbn [ptr_object].
  rewrite (send_segment u rest m off post) by done. cbn [mbind option_bind]. eexists. split; [reflexivity|]. split; [done|].
  exists m, off, post. split; [|done]. split; [done|]. eexists. split; [by eapply sock_set_conn|]. done.
Qed.

(** The application is called with an acknowledgment. *)
Lemma appcall_acked n rest rest' u :
  to_send n rest → uip_flags u = UIP_ACKDATA → uip_mss u = mss → mss <= msize (uip_appdata u) → rest' = drop (Z.to_nat mss) rest →
  ∃ n', elua_uip_appcall n k u = Some (n', if bool_decide (rest' = []) then u else put_out u (take (Z.to_nat mss) rest')) ∧
    if bool_decide (rest' = []) then ∃ p, sock_is n' (UipState ELUA_UIP_STATE_IDLE ELUA_NET_ERR_OK p 0 ELUA_NET_NO_LASTCHAR) true
    else to_send n' rest'.
Proof.
  intros (Ht & m & off & post & (Hc & c & Hk & Hs & Hst) & Ho & Hd & Hr) Hfl Hu Hroom Er'.
  assert (uip_acked u = true ∧ uip_flag u UIP_CONNECTED = false ∧ uip_closing u = false) as (Ha & Hcon & Hcl).
  { unfold uip_acked, uip_closing, uip_flag. by rewrite Hfl. }
  unfold elua_uip_appcall. rewrite Hc, Hk. cbn [negb mbind option_bind]. rewrite Hs, Hcon. cbn [es_state].
  change (ELUA_UIP_STATE_SEND =? ELUA_UIP_STATE_IDLE) with false. change (ELUA_UIP_STATE_SEND =? ELUA_UIP_STATE_RECV) with false.
  change (ELUA_UIP_STATE_SEND =? ELUA_UIP_STATE_SEND) with true. cbv iota. rewrite Hcl, Ha, Ht. cbn [orb andb].
  unfold appcall_send. rewrite Ha, Hu. cbn [es_len es_ptr ptr_add].
  set (ml := if msize rest <=? mss then msize rest else mss).
  assert (msize rest' = msize rest - ml ∧ ml = Z.min mss (msize rest)) as [Hrs Hml].
  { rewrite Er'. unfold ml, msize. rewrite length_drop. destruct (Z.leb_spec (Z.of_nat (length rest)) mss); lia. }
  assert (0 <= msize rest' < 32768) as Hrb by (pose proof (msize_nonneg rest'); lia).
  match goal with |- context [set_es_buf ?a ?b ?c] => set (s1 := set_es_buf a b c) end.
  assert (s1 = UipState ELUA_UIP_STATE_SEND ELUA_NET_ERR_OK (PMem m (off + ml)) (msize rest') ELUA_NET_NO_LASTCHAR) as ->.
  { unfold s1, set_es_buf. cbn. by rewrite <- Hrs, s16_id by lia. }
  cbn [es_len es_ptr]. case_bool_decide as He.
  - rewrite He, msize_nil, Z.eqb_refl. cbn [set_es_state es_len es_state es_res es_ptr es_readto]. rewrite Z.ltb_irrefl. cbn [mbind option_bind]. eexists. split; [reflexivity|]. exists (PMem m (off + ml)). split; [done|].
    eexists. split; [by eapply sock_set_conn|]. done.
  - assert (0 < msize rest') as Hpos by by apply msize_pos.
    rewrite (proj2 (Z.eqb_neq (msize rest') 0)) by lia. cbn [es_len es_ptr]. rewrite (proj2 (Z.ltb_lt 0 _)) by lia. cbn [ptr_object].
    assert (drop (Z.to_nat (off + ml)) m = rest' ++ post) as Hd'.
    { assert (ml = mss ∧ mss < msize rest) as [-> Hlt] by lia. rewrite Z2Nat.inj_add, <- drop_drop, Hd, Er' by lia. rewrite skipn_app.
      replace (Z.to_nat mss - length rest)%nat with 0%nat by (unfold msize in Hlt; lia). done. }
    rewrite (send_segment u rest' m (off + ml) post) by (done || lia). cbn [mbind option_bind]. eexists. split; [reflexivity|]. split; [done|].
    exists m, (off + ml), post. split; [|split; [lia|split; [done|lia]]]. split; [done|]. eexists. split; [by eapply sock_set_conn|]. done.
Qed.

(** The state of a transfer: [i] segments of [segs] have been acknowledged. *)
Definition send_state (segs : list mem) (D : mem) (x : net * conn) (i : nat) (rest : mem) : Prop :=
  x.2 = in_transit segs D i ∧ drop i segs = chunks mss rest ∧
  if bool_decide (rest = []) then ∃ p, sock_is x.1 (UipState ELUA_UIP_STATE_IDLE ELUA_NET_ERR_OK p 0 ELUA_NET_NO_LASTCHAR) true
  else to_send x.1 rest.

Lemma net_step_stopped n cn c e b :
  fin cn = false → uip_conns n !! Z.to_nat k = Some c → stopped c = true →
  net_step (n, cn) (e, b) = match net_event true e with
    | Some e' => if net_enabled e' cn then tcp_call (λ n u, elua_uip_appcall n k u) mss (n, cn) (e', b) else Some (n, cn)
    | None => Some (n, cn)
    end.
Proof. intros Hf Hk Hs. unfold net_step. cbn [fst snd]. rewrite Hf, Hk. cbn [mbind option_bind]. by rewrite Hs. Qed.

Lemma in_transit_next segs D i d :
  segs !! i = Some d → in_transit segs D (S i) = Conn (segs !! S i) ((D ++ concat (take i segs)) ++ d) false.
Proof. intros H. unfold in_transit. rewrite (take_S_r _ _ _ H), concat_app. cbn [concat]. by rewrite app_nil_r, app_assoc. Qed.

Lemma chunks_lookup segs i rest :
  drop i segs = chunks mss rest → rest ≠ [] →
  segs !! i = Some (take (Z.to_nat mss) rest) ∧ drop (S i) segs = chunks mss (drop (Z.to_nat mss) rest) ∧ (i < length segs)%nat.
Proof.
  intros E Hne. rewrite (chunks_unfold mss (proj1 Hmss) rest Hne) in E.
  assert (segs !! i = Some (take (Z.to_nat mss) rest)) as H by by rewrite <- (Nat.add_0_r i), <- lookup_drop, E.
  split; [done|]. split; [|by eapply lookup_lt_Some]. rewrite (drop_S _ _ _ H) in E. by injection E.
Qed.

Lemma chunks_head segs i rest : drop i segs = chunks mss rest → segs !! i = head (chunks mss rest).
Proof. intros E. rewrite <- E, <- (Nat.add_0_r i) at 1. rewrite <- lookup_drop. by destruct (drop i segs). Qed.

Lemma sock_is_conn n s stop : sock_is n s stop → ∃ c, uip_conns n !! Z.to_nat k = Some c ∧ stopped c = stop.
Proof. intros (_ & c & Hk & _ & Hs). by exists c. Qed.

Lemma transmit_call n cn d rest e b :
  to_send n rest → (e = Rexmit ∨ e = Poll) → event_room mss (e, b) → d = take (Z.to_nat mss) rest →
  (inflight cn = None ∧ e = Poll ∨ inflight cn = Some d) →
  ∃ n', tcp_call (λ n u, elua_uip_appcall n k u) mss (n, cn) (e, b) = Some (n', Conn (Some d) (delivered cn) (fin cn)) ∧ to_send n' rest.
Proof.
  intros Hn He Hr -> Hi. pose proof (event_uip_room _ _ _ Hr) as Hroom. pose proof Hn as (_ & _ & _ & _ & _ & _ & _ & Hsz).
  assert (rest ≠ []) as Hne by (intros ->; rewrite msize_nil in Hsz; lia). pose proof (chunk_size mss (proj1 Hmss) rest Hne) as Hd.
  destruct (appcall_transmit n rest (event_uip mss e b) Hn) as (n' & E & Hn'); [by destruct He as [-> | ->]..|done|].
  exists n'. split; [|done]. unfold tcp_call. assert (event_conn e cn = cn) as -> by by destruct He as [-> | ->]. rewrite E. cbn [mbind option_bind].
  set (d := take (Z.to_nat mss) rest) in *.
  assert (tcp_appsend (put_out (event_uip mss Poll b) d) cn = Some (Conn (Some d) (delivered cn) (fin cn))) as Ep.
  { destruct Hi as [[Hi _]|Hi]; [by apply appsend_put|]. unfold tcp_appsend. change (uip_flag (put_out (event_uip mss Poll b) d) UIP_ABORT) with false.
    change (uip_flag (put_out (event_uip mss Poll b) d) UIP_CLOSE) with false. change (uip_flag (put_out (event_uip mss Poll b) d) UIP_ACKDATA) with false. cbv iota.
    cbn [uip_slen put_out]. rewrite (proj2 (Z.ltb_lt 0 _)), Hi by lia. change (uip_appdata _) with (uip_appdata (put_out (event_uip mss Poll b) d)). by rewrite put_out_read. }
  destruct He as [-> | ->]; [|by rewrite Ep]. destruct Hi as [[_ ?]|Hi]; [done|]. rewrite (apprexmit_put (event_uip mss Rexmit b) d cn Hi) by lia. destruct cn. cbn in *. by subst.
Qed.

Lemma ack_call n cn d rest rest' b :
  to_send n rest → inflight cn = Some d → event_room mss (Ack, b) → rest' = drop (Z.to_nat mss) rest →
  ∃ n', tcp_call (λ n u, elua_uip_appcall n k u) mss (n, cn) (Ack, b) = Some (n', Conn (head (chunks mss rest')) (delivered cn ++ d) (fin cn)) ∧
    if bool_decide (rest' = []) then ∃ p, sock_is n' (UipState ELUA_UIP_STATE_IDLE ELUA_NET_ERR_OK p 0 ELUA_NET_NO_LASTCHAR) true
    else to_send n' rest'.
Proof.
  intros Hn Hi Hr Er. destruct (appcall_acked n rest rest' (event_uip mss Ack b) Hn) as (n' & E & Hn'); [done|done|by destruct Hr|done|].
  exists n'. split; [|done]. unfold tcp_call. rewrite E. cbn [mbind option_bind event_conn]. rewrite Hi. case_bool_decide as He.
  - by rewrite He.
  - pose proof (chunk_size mss (proj1 Hmss) rest' He) as Hd. rewrite (chunks_unfold mss (proj1 Hmss) rest' He). cbn [head].
    by rewrite appsend_put.
Qed.

Lemma send_step segs D x i rest e b :
  send_state segs D x i rest → event_room mss (e, b) →
  ∃ x' rest', net_step x (e, b) = Some x' ∧ send_state segs D x' (if is_ack (e, b) then Nat.min (S i) (length segs) else i) rest'.
Proof.
  intros (Hc & Hd & Hs) Hr. destruct x as [n cn]. cbn [fst snd] in *. subst cn. case_bool_decide as He.
  - subst rest. destruct Hs as [p Hp]. pose proof Hp as (Hcf & c & Hk & Hap & Hst).
    assert (length segs <= i)%nat as Hi by (apply (f_equal length) in Hd; rewrite length_drop in Hd; cbn in Hd; lia).
    assert (segs !! i = None) as Hnone by by apply lookup_ge_None. rewrite (net_step_stopped _ _ c) by done.
    exists (n, in_transit segs D i), []. split; [|split; [|split; [|by exists p]]].
    + unfold in_transit. rewrite Hnone. destruct e; try done. cbn [net_event net_enabled]. unfold tcp_call, elua_uip_appcall. cbn [event_conn]. rewrite Hcf, Hk. cbn [negb mbind option_bind]. by rewrite Hap.
    + destruct (is_ack (e, b)); [|done]. unfold in_transit. cbn [snd]. rewrite Hnone, (lookup_ge_None_2 segs) by lia. by rewrite !take_ge by lia.
    + destruct (is_ack (e, b)); [|done]. rewrite drop_ge by lia. done.
  - destruct (chunks_lookup segs i rest Hd He) as (Hl & Hd' & Hlt). set (d := take (Z.to_nat mss) rest) in *.
    pose proof Hs as (_ & m & off & post & (_ & c & Hk & _ & Hst) & _).
    assert (in_transit segs D i = Conn (Some d) (D ++ concat (take i segs)) false) as Et by (unfold in_transit; by rewrite Hl).
    rewrite (net_step_stopped _ _ c) by done. rewrite Et. destruct (is_ack (e, b)) eqn:Ea.
    + assert (net_event true e = Some Ack) as -> by by destruct e. cbn [net_enabled inflight]. rewrite bool_decide_eq_true_2 by done.
      destruct (ack_call n (Conn (Some d) (D ++ concat (take i segs)) false) d rest (drop (Z.to_nat mss) rest) b Hs eq_refl) as (n' & E & Hn'); [by destruct Hr|done|].
      rewrite E. eexists _, (drop (Z.to_nat mss) rest). split; [reflexivity|]. rewrite Nat.min_l by lia. split; [|by split].
      cbn [snd delivered fin]. by rewrite (in_transit_next segs D i d Hl), (chunks_head segs (S i) _ Hd').
    + destruct e as [| |d'| |d']; try done.
      * cbn [net_event net_enabled inflight]. rewrite bool_decide_eq_true_2 by done.
        destruct (transmit_call n (Conn (Some d) (D ++ concat (take i segs)) false) d rest Rexmit b Hs) as (n' & E & Hn'); [by left|done|done|by right|].
        rewrite E. eexists _, rest. split; [reflexivity|]. split; [by rewrite Et|]. split; [done|]. by rewrite bool_decide_eq_false_2.
      * exists (n, in_transit segs D i), rest. cbn [net_event]. rewrite Et. split; [done|]. split; [by rewrite Et|]. split; [done|]. by rewrite bool_decide_eq_false_2.
      * cbn [net_event net_enabled].
        destruct (transmit_call n (Conn (Some d) (D ++ concat (take i segs)) false) d rest Poll b Hs) as (n' & E & Hn'); [by right|done|done|by right|].
        rewrite E. eexists _, rest. split; [reflexivity|]. split; [by rewrite Et|]. split; [done|]. by rewrite bool_decide_eq_false_2.
Qed.

Lemma send_run segs D es x i rest :
  send_state segs D x i rest → (i <= length segs)%nat → Forall (event_room mss) es →
  ∃ x' rest', net_run x es = Some x' ∧ send_state segs D x' (Nat.min (i + acks es) (length segs)) rest'.
Proof.
  revert x i rest. induction es as [|[e b] es IH]; intros x i rest Hx Hi Hr.
  - exists x, rest. split; [done|]. change (acks []) with 0%nat. by rewrite Nat.add_0_r, Nat.min_l.
  - apply Forall_cons in Hr as [Hr Hrs]. destruct (send_step segs D x i rest e b Hx Hr) as (x1 & rest1 & E1 & H1). cbn [net_run]. rewrite E1. cbn [mbind option_bind].
    destruct (IH _ _ _ H1) as (x2 & rest2 & E2 & H2); [destruct (is_ack (e, b)); lia|done|]. exists x2, rest2. split; [done|].
    unfold acks in *. rewrite filter_cons. destruct (is_ack (e, b)).
    + rewrite decide_True by done. cbn [length]. replace (Nat.min (i + S (length (filter (λ e, is_ack e = true) es))) (length segs)) with
        (Nat.min (Nat.min (S i) (length segs) + length (filter (λ e, is_ack e = true) es)) (length segs)) by lia. done.
    + by rewrite decide_False by done.
Qed.
End connection.

(** Calls that each have their own maximum segment size: the stack takes it from the window of every segment. *)
Fixpoint net_calls {conf : NetConf} (k : Z) (x : net * conn) (es : list (Z * (event * mem))) : option (net * conn) :=
  match es with
  | [] => Some x
  | (m, e) :: es => x ← net_step m k x e; net_calls k x es
  end.

Lemma net_calls_steady {conf : NetConf} mss k x es : Forall (λ e, e.1 = mss) es → net_calls k x es = net_run mss k x es.*2.
Proof.
  intros H. revert x. induction H as [|[m e] es Hm _ IH]; intros x; [done|]. cbn in Hm. subst m. cbn [net_calls net_run fmap list_fmap snd].
  destruct (net_step mss k x e); [apply IH|done].
Qed.

Lemma net_send_runs `{NetConf} mss k n data post D b es n1 :
  0 < mss < 65536 → configured n = true → is_telnet n k = false → (∃ c, uip_conns n !! Z.to_nat k = Some c ∧ stopped c = true) →
  0 < msize data < 32768 → elua_net_send n k (data ++ post) (msize data) = Some (inr n1) →
  Forall (event_room mss) ((Poll, b) :: es) →
  let segs := chunks mss data in let i := Nat.min (acks es) (length segs) in
  ∃ n2, net_run mss k (n1, Conn None D false) ((Poll, b) :: es) = Some (n2, Conn (segs !! i) (D ++ concat (take i segs)) false) ∧
    net_result n2 k (msize data) = if bool_decide (i = length segs) then Some (msize data) else None.
Proof.
  intros Hm Hcf Htel (c & Hk & Hst) Hsz Hsend Hr segs i. unfold elua_net_send in Hsend.
  destruct (sock_active n k) as [[]|]; [|done|done]. cbn [mbind option_bind negb] in Hsend. rewrite (proj2 (Z.eqb_neq (msize data) 0)) in Hsend by lia.
  unfold net_prep in Hsend. rewrite Hk in Hsend. cbn [mbind option_bind] in Hsend. injection Hsend as <-.
  set (s := elua_prep_socket_state _ _ _ _ _). set (n1 := set_conn n k (set_appstate c s)).
  assert (data ≠ []) as Hne by (intros ->; rewrite msize_nil in Hsz; lia).
  assert (to_send k n1 data) as Hts.
  { split; [done|]. exists (data ++ post), 0, post. split; [|split; [lia|split; [done|lia]]]. split; [done|].
    exists (set_appstate c s). split; [by eapply sock_set_conn|]. split; [|done]. unfold s, elua_prep_socket_state. cbn. by rewrite s16_id by lia. }
  apply Forall_cons in Hr as [Hr Hrs]. cbn [net_run].
  destruct (transmit_call mss k Hm n1 (Conn None D false) _ data Poll b Hts ltac:(by right) Hr eq_refl) as (n2 & E & Hn2); [by left|].
  assert (net_step mss k (n1, Conn None D false) (Poll, b) = Some (n2, Conn (Some (take (Z.to_nat mss) data)) D false)) as ->.
  { rewrite (net_step_stopped mss k _ _ (set_appstate c s)) by (done || by eapply sock_set_conn). exact E. }
  cbn [mbind option_bind]. destruct (send_run mss k Hm segs D es (n2, Conn (Some (take (Z.to_nat mss) data)) D false) 0 data) as (x & rest & -> & Hx & Hd & Hs);
    [|lia|done|].
  { split; [|split; [done|by rewrite bool_decide_eq_false_2]]. unfold in_transit, segs. rewrite (chunks_unfold mss (proj1 Hm) data Hne). by rewrite app_nil_r. }
  destruct x as [n3 cn]. cbn [fst snd] in *. subst cn. exists n3. split; [done|]. unfold net_result. change (0 + acks es)%nat with (acks es) in *. fold i in Hd.
  destruct (decide (rest = [])) as [->|Hr'].
  - rewrite bool_decide_eq_true_2 in Hs by done. destruct Hs as (p & _ & c' & Hk3 & Hs3 & _). rewrite Hk3. cbn [mbind option_bind]. rewrite Hs3. cbn.
    assert (length segs <= i)%nat by (apply (f_equal length) in Hd; rewrite length_drop in Hd; cbn in Hd; lia).
    rewrite bool_decide_eq_true_2 by lia. by rewrite Z.sub_0_r, s16_id by lia.
  - rewrite bool_decide_eq_false_2 in Hs by done. destruct Hs as (_ & m & off & post' & (_ & c' & Hk3 & Hs3 & _) & _). rewrite Hk3. cbn [mbind option_bind]. rewrite Hs3. cbn.
    destruct (chunks_lookup mss Hm segs i rest Hd Hr') as (_ & _ & Hlt). by rewrite bool_decide_eq_false_2 by lia.
Qed.

(** A board with two connections, of which the second is the console's. *)
Definition demo_net_conf : NetConf := {| UIP_CONNS := 2; UIP_RECEIVE_WINDOW := 4; BUILD_CON_TCP := true |}.

Definition demo_conn : uip_conn := UipConn 3 true 80 (0, 0) (UipState ELUA_UIP_STATE_IDLE ELUA_NET_ERR_OK PNull 0 ELUA_NET_NO_LASTCHAR).

Definition demo_net : net := Net true 1 false (-1) (0, 0) [demo_conn; demo_conn].

(** C37: [elua_net_send] while the windows of the peer leave the maximum segment size as it is (each of them is zero or
    at least the size of the beginning): data of 1 to 32767 bytes is delivered in segments, each once and in order,
    whatever is retransmitted, polled (also while data is in flight) or sent by the peer meanwhile; the socket is idle,
    and the result is the length, exactly when all segments have been acknowledged. *)
Theorem net_send_delivers `{NetConf} mss k n data post D b es n1 :
  0 < mss < 65536 → configured n = true → is_telnet n k = false → (∃ c, uip_conns n !! Z.to_nat k = Some c ∧ stopped c = true) →
  0 < msize data < 32768 → elua_net_send n k (data ++ post) (msize data) = Some (inr n1) →
  Forall (λ e, e.1 = mss ∧ event_room mss e.2) ((mss, (Poll, b)) :: es) →
  let segs := chunks mss data in let i := Nat.min (acks es.*2) (length segs) in
  ∃ n2, net_calls k (n1, Conn None D false) ((mss, (Poll, b)) :: es) = Some (n2, Conn (segs !! i) (D ++ concat (take i segs)) false) ∧
    net_result n2 k (msize data) = if bool_decide (i = length segs) then Some (msize data) else None.
Proof.
  intros Hm Hcf Htel (c & Hk & Hst) Hsz Hsend Hr segs i. pose proof (Forall_impl _ (λ e, e.1 = mss) _ Hr ltac:(tauto)) as Hms.
  pose proof (Forall_impl _ (λ e, event_room mss e.2) _ Hr ltac:(tauto)) as Hrm. clear Hr. rewrite (net_calls_steady mss) by done.
  apply (proj2 (Forall_fmap snd (event_room mss) _)) in Hrm.
  rewrite fmap_cons in Hrm |- *. cbn [snd] in *. apply (net_send_runs mss k n data post D b es.*2 n1 Hm Hcf Htel (ex_intro _ c (conj Hk Hst)) Hsz Hsend Hrm).
Qed.

(** Five bytes in segments of two, with a retransmission, a poll and data from the peer. *)
Lemma net_send_delivers_witness :
  let b := replicate 4 0 in
  let es := pair 2 <$> [(Rexmit, b); (Ack, b); (Poll, b); (New [9], b); (AckNew [7], b); (Ack, b)] in
  ∃ n1 n2, elua_net_send (conf:=demo_net_conf) demo_net 0 [1; 2; 3; 4; 5; 6] 5 = Some (inr n1) ∧
    net_calls (conf:=demo_net_conf) 0 (n1, Conn None [] false) ((2, (Poll, b)) :: es) = Some (n2, Conn None [1; 2; 3; 4; 5] false) ∧ net_result n2 0 5 = Some 5.
Proof.
  intros b es. eexists.
  destruct (@net_send_delivers demo_net_conf 2 0 demo_net [1; 2; 3; 4; 5] [6] [] b es _ ltac:(lia) eq_refl eq_refl
    (ex_intro _ demo_conn (conj eq_refl eq_refl)) ltac:(by vm_compute) eq_refl) as (n2 & H1 & H2).
  { repeat constructor; by vm_compute. }
  exists n2. split; [reflexivity|]. split; [exact H1|exact H2].
Defined.

(** What the peer has received and the result of the call, after a call that sends five bytes. *)
Definition sent_under (es : list (Z * (event * mem))) : option (mem * option Z) :=
  r ← elua_net_send (conf:=demo_net_conf) demo_net 0 [1; 2; 3; 4; 5] 5;
  match r with
  | inr n => '(n, cn) ← net_calls (conf:=demo_net_conf) 0 (n, Conn None [] false) es; Some (delivered cn, net_result n 0 5)
  | inl _ => None
  end.

(** The window of an acknowledgment sets the size by which the code counts. With a smaller window than that of the
    segment it acknowledges, bytes are sent twice; with a larger one, bytes are left out. *)
Example net_send_narrow_window :
  let b := replicate 4 0 in
  sent_under [(4, (Poll, b)); (2, (Ack, b)); (2, (Ack, b)); (2, (Ack, b))] = Some ([1; 2; 3; 4; 3; 4; 5], Some 5).
Proof. reflexivity. Qed.

Example net_send_wide_window :
  let b := replicate 4 0 in
  sent_under [(2, (Poll, b)); (4, (Ack, b)); (4, (Ack, b))] = Some ([1; 2; 5], Some 5).
Proof. reflexivity. Qed.
