(* ===== verification/NetInput.v ===== *)
(** * What the network services receive

    The receiving side of Net.v: a call of [elua_net_recvbuf] gets a part of the stream that [received] defines,
    and the console's input without the sequences of the TELNET protocol. *)
From S2P Require Import Prelude Psock Net.

(** ** One packet *)

(** The part of a text before the character [c]. *)
Fixpoint before (c : Z) (l : mem) : mem :=
  match l with
  | [] => []
  | x :: l => if x =? c then [] else x :: before c l
  end.

(** What a call with room for [len] bytes takes of a packet, and whether the character [readto] ended it. *)
Definition packet_part (readto len : Z) (d : mem) : mem * bool :=
  let d := take (Z.to_nat len) d in
  if readto =? ELUA_NET_NO_LASTCHAR then (d, false)
  else (filter (λ x, x ≠ NET_CR) (before readto d), bool_decide (readto ∈ d)).

Lemma before_size c l : msize (filter (λ x, x ≠ NET_CR) (before c l)) <= msize l.
Proof.
  induction l as [|x l IH]; [done|]. cbn [before]. pose proof (msize_nonneg l). destruct (x =? c); [rewrite msize_cons; change (msize (filter _ [])) with 0; lia|].
  rewrite filter_cons. destruct (decide _); rewrite ?msize_cons; lia.
Qed.

Lemma packet_part_size readto len d q f : 0 <= len → packet_part readto len d = (q, f) → msize q <= len.
Proof.
  intros Hl. unfold packet_part. assert (msize (take (Z.to_nat len) d) <= len) as H by (unfold msize; rewrite length_take; lia).
  destruct (readto =? _); intros [= <- _]; [done|]. pose proof (before_size readto (take (Z.to_nat len) d)). lia.
Qed.

(** The loop over the packet with a [luaL_Buffer]. *)
Lemma recv_line_lua l : ∀ app i st res acc len readto dest post,
  0 <= i → drop (Z.to_nat i) app = l ++ post → res ≠ 0 → msize l <= len < 32768 →
  let q := filter (λ x, x ≠ NET_CR) (before readto l) in
  recv_line (length l) app i (UipState st res (PLua acc) len readto) dest =
    Some (UipState st res (PLua (acc ++ q)) (len - msize q) readto, bool_decide (readto ∈ l)).
Proof.
  induction l as [|x l IH]; intros app i st res acc len readto dest post Hi Hd Hr Hl q.
  - cbn. by rewrite app_nil_r, Z.sub_0_r.
  - rewrite msize_cons in Hl. pose proof (msize_nonneg l). cbn [length recv_line].
    assert (ld app i = Some x) as ->.
    { apply ld_Some_iff. split; [done|]. rewrite <- (Nat.add_0_r (Z.to_nat i)), <- lookup_drop, Hd. done. }
    assert (drop (Z.to_nat (i + 1)) app = l ++ post) as Hd'.
    { replace (Z.to_nat (i + 1)) with (Z.to_nat i + 1)%nat by lia. by rewrite <- drop_drop, Hd. }
    cbn [mbind option_bind es_readto]. unfold q. cbn [before]. destruct (Z.eqb_spec x readto) as [->|Hx].
    + rewrite bool_decide_eq_true_2 by by left. cbn. by rewrite app_nil_r, Z.sub_0_r.
    + assert (bool_decide (readto ∈ x :: l) = bool_decide (readto ∈ l)) as ->.
      { apply bool_decide_ext. rewrite elem_of_cons. naive_solver. }
      rewrite filter_cons. destruct (Z.eqb_spec x NET_CR) as [->|Hc]; cbn [negb es_res].
      * rewrite decide_False by (by intros []). apply (IH app (i + 1) st res acc len readto dest post); done || lia.
      * rewrite decide_True by done. rewrite (proj2 (Z.eqb_neq res 0)) by done. cbn [negb lua_addstring es_ptr mbind option_bind].
        unfold set_es_buf. cbn [es_state es_res es_readto es_len]. rewrite s16_id by lia.
        rewrite (IH app (i + 1) st res (acc ++ [x]) (len - 1) readto (dest + 1) post) by (done || lia).
        rewrite <- app_assoc, msize_cons. cbn [Datatypes.app]. do 3 f_equal. lia.
Qed.

Section receive.
Context {conf : NetConf} (mss k : Z).

(** The receiving call with [len] bytes to go, and its end. *)
Definition reading (s : elua_uip_state) (acc : mem) (len readto : Z) : Prop :=
  ∃ res, res ≠ 0 ∧ s = UipState ELUA_UIP_STATE_RECV_2 res (PLua acc) len readto.

Definition read_end (q : mem) (len : Z) (d : mem) (found : bool) : bool :=
  (len - msize q =? 0) || (msize d <? UIP_RECEIVE_WINDOW) || found.

Lemma appcall_recv_packet c acc len readto d b q found :
  reading (appstate c) acc len readto → 0 < len < 32768 → packet_part readto len d = (q, found) →
  ∃ s, appcall_recv (event_uip mss (New d) b) c =
         Some (if read_end q len d found then set_stopped (set_appstate c s) true else set_appstate c s) ∧
    if read_end q len d found then s = UipState ELUA_UIP_STATE_IDLE ELUA_NET_ERR_OK (PLua (acc ++ q)) (len - msize q) readto
    else reading s (acc ++ q) (len - msize q) readto.
Proof.
  intros (res & Hr & Hs) Hl Hp. pose proof (packet_part_size readto len d q found ltac:(lia) Hp) as Hq. pose proof (msize_nonneg q).
  set (d' := take (Z.to_nat len) d). set (app := d ++ drop (length d) b).
  assert (∃ post, app = d' ++ post) as [post Happ].
  { exists (drop (Z.to_nat len) d ++ drop (length d) b). unfold app, d'. by rewrite app_assoc, take_drop. }
  assert (msize d' = if len <? msize d then len else msize d) as Hd'.
  { unfold d', msize. rewrite length_take. destruct (Z.ltb_spec len (Z.of_nat (length d))); lia. }
  unfold appcall_recv. cbn [event_uip uip_len uip_appdata]. fold app. rewrite Hs. cbn [es_len].
  assert (∃ res', res' ≠ 0 ∧ (if len <? msize d
      then (set_es_res (UipState ELUA_UIP_STATE_RECV_2 res (PLua acc) len readto) ELUA_NET_ERR_OVERFLOW, len)
      else (UipState ELUA_UIP_STATE_RECV_2 res (PLua acc) len readto, s16 (msize d))) =
      (UipState ELUA_UIP_STATE_RECV_2 res' (PLua acc) len readto, msize d')) as (res' & Hr' & ->).
  { rewrite Hd'. destruct (Z.ltb_spec len (msize d)); [by exists ELUA_NET_ERR_OVERFLOW|]. exists res. split; [done|].
    pose proof (msize_nonneg d). by rewrite s16_id by lia. }
  set (s := UipState ELUA_UIP_STATE_RECV_2 res' (PLua (acc ++ q)) (len - msize q) readto). cbn [es_readto].
  match goal with |- ∃ _, (x ← ?a; _) = _ ∧ _ => assert (a = Some (s, found)) as -> end.
  { unfold packet_part in Hp. fold d' in Hp. destruct (Z.eqb_spec readto ELUA_NET_NO_LASTCHAR); cbn [negb]; injection Hp as <- <-.
    - pose proof (bytes_at_prefix app [] d' post Happ) as Hb. unfold bytes_at in Hb. change (msize []) with 0 in Hb. rewrite Hb. cbn [mbind option_bind es_res es_ptr]. rewrite (proj2 (Z.eqb_neq res' 0)) by done.
      cbn [negb lua_addstring mbind option_bind]. unfold set_es_buf. cbn. by rewrite s16_id by lia.
    - unfold msize at 1. rewrite Nat2Z.id. apply (recv_line_lua d' app 0 _ res' acc len readto 0 post); [lia| |done|].
      + change (Z.to_nat 0) with 0%nat. by rewrite drop_0.
      + rewrite Hd'. destruct (Z.ltb_spec len (msize d)); lia. }
  cbn [mbind option_bind]. unfold read_end. change (es_len s) with (len - msize q).
  destruct ((len - msize q =? 0) || (msize d <? UIP_RECEIVE_WINDOW) || found).
  - eexists. split; [reflexivity|]. done.
  - exists s. split; [done|]. by exists res'.
Qed.

(** What a receiving call gets of a stream of packets, and whether it is complete. *)
Fixpoint received (readto len : Z) (ds : list mem) : mem * bool :=
  match ds with
  | [] => ([], false)
  | d :: ds =>
      let '(q, found) := packet_part readto len d in
      if read_end q len d found then (q, true)
      else let '(r, fin) := received readto (len - msize q) ds in (q ++ r, fin)
  end.

Definition packets (es : list (event * mem)) : list mem := omap (λ e, match e.1 with New d => Some d | _ => None end) es.

Definition at_socket (n : net) (stop : bool) (P : elua_uip_state → Prop) : Prop :=
  configured n = true ∧ is_telnet n k = false ∧ ∃ c, uip_conns n !! Z.to_nat k = Some c ∧ stopped c = stop ∧ P (appstate c).

Lemma at_socket_set n c c' (P : elua_uip_state → Prop) :
  configured n = true → is_telnet n k = false → uip_conns n !! Z.to_nat k = Some c → P (appstate c') →
  at_socket (set_conn n k c') (stopped c') P.
Proof. intros Hc Ht Hk HP. split; [done|]. split; [done|]. exists c'. split; [by eapply sock_set_conn|done]. Qed.

Lemma idle_step n D e : at_socket n true (λ s, es_state s = ELUA_UIP_STATE_IDLE) → net_step mss k (n, Conn None D false) e = Some (n, Conn None D false).
Proof.
  intros (Hc & _ & c & Hk & Hst & Hs). destruct e as [e b]. rewrite (net_step_stopped mss k _ _ c) by done.
  destruct e; try done. cbn [net_event net_enabled]. unfold tcp_call, elua_uip_appcall. cbn [event_conn]. rewrite Hc, Hk.
  cbn [negb mbind option_bind]. by rewrite Hs.
Qed.

Lemma idle_run n D es : at_socket n true (λ s, es_state s = ELUA_UIP_STATE_IDLE) → net_run mss k (n, Conn None D false) es = Some (n, Conn None D false).
Proof. intros H. induction es as [|e es IH]; [done|]. cbn [net_run]. by rewrite idle_step. Qed.

(** An event that brings no data changes nothing. *)
Lemma reading_other n D acc len readto e b :
  at_socket n false (λ s, reading s acc len readto) → packets [(e, b)] = [] →
  net_step mss k (n, Conn None D false) (e, b) = Some (n, Conn None D false).
Proof.
  intros (Hc & _ & c & Hk & Hst & (res & _ & Hs)) He. unfold net_step. cbn [fst snd fin]. rewrite Hk. cbn [mbind option_bind]. rewrite Hst.
  destruct e; try done. cbn [net_event net_enabled]. unfold tcp_call, elua_uip_appcall. cbn [event_conn]. rewrite Hc, Hk.
  cbn [negb mbind option_bind]. by rewrite Hs.
Qed.

Lemma reading_new n D acc len readto d b q found :
  at_socket n false (λ s, reading s acc len readto) → 0 < len < 32768 → packet_part readto len d = (q, found) →
  ∃ n', net_step mss k (n, Conn None D false) (New d, b) = Some (n', Conn None D false) ∧
    at_socket n' (read_end q len d found) (λ s, if read_end q len d found
      then s = UipState ELUA_UIP_STATE_IDLE ELUA_NET_ERR_OK (PLua (acc ++ q)) (len - msize q) readto
      else reading s (acc ++ q) (len - msize q) readto).
Proof.
  intros (Hc & Ht & c & Hk & Hst & Hs) Hl Hp. destruct (appcall_recv_packet c acc len readto d b q found Hs Hl Hp) as (s & E & Hs').
  unfold net_step. cbn [fst snd fin]. rewrite Hk. cbn [mbind option_bind]. rewrite Hst. cbn [net_event net_enabled].
  unfold tcp_call, elua_uip_appcall. cbn [event_conn]. rewrite Hc, Hk, Ht. cbn [negb mbind option_bind].
  destruct Hs as (res & _ & Hs). rewrite Hs. cbn [es_state].
  change (uip_flag (event_uip mss (New d) b) UIP_CONNECTED) with false. change (uip_closing (event_uip mss (New d) b)) with false.
  change (uip_newdata (event_uip mss (New d) b)) with true.
  change (uip_acked (event_uip mss (New d) b) || uip_rexmit (event_uip mss (New d) b) || uip_flag (event_uip mss (New d) b) UIP_POLL) with false.
  change (ELUA_UIP_STATE_RECV_2 =? ELUA_UIP_STATE_IDLE) with false. change (ELUA_UIP_STATE_RECV_2 =? ELUA_UIP_STATE_RECV) with false.
  change (ELUA_UIP_STATE_RECV_2 =? ELUA_UIP_STATE_CLOSE) with false. change (ELUA_UIP_STATE_RECV_2 =? ELUA_UIP_STATE_RECV_2) with true.
  cbn [andb]. cbv iota. rewrite E. cbn [mbind option_bind]. rewrite appsend_none by done. cbn [mbind option_bind].
  eexists. split; [reflexivity|]. destruct (read_end q len d found) eqn:He.
  - exact (at_socket_set n c (set_stopped (set_appstate c s) true) _ Hc Ht Hk Hs').
  - rewrite <- Hst. exact (at_socket_set n c (set_appstate c s) _ Hc Ht Hk Hs').
Qed.

Lemma reading_run es : ∀ n D acc len readto,
  at_socket n false (λ s, reading s acc len readto) → 0 < len < 32768 →
  let '(q, fin) := received readto len (packets es) in
  ∃ n', net_run mss k (n, Conn None D false) es = Some (n', Conn None D false) ∧
    at_socket n' fin (λ s, if (fin : bool) then s = UipState ELUA_UIP_STATE_IDLE ELUA_NET_ERR_OK (PLua (acc ++ q)) (len - msize q) readto
                       else reading s (acc ++ q) (len - msize q) readto) ∧ msize q <= len.
Proof.
  induction es as [|[e b] es IH]; intros n D acc len readto Hn Hl.
  - cbn. exists n. split; [done|]. split; [|unfold msize; cbn; lia]. by rewrite app_nil_r, msize_nil, Z.sub_0_r.
  - cbn [net_run]. destruct (packets [(e, b)]) as [|d' ds'] eqn:Ee.
    + assert (packets ((e, b) :: es) = packets es) as -> by by destruct e.
      rewrite (reading_other n D acc len readto e b Hn Ee). cbn [mbind option_bind]. by apply IH.
    + destruct e as [| |d| |]; try done. change (packets ((New d, b) :: es)) with (d :: packets es). cbn [received].
      destruct (packet_part readto len d) as [q found] eqn:Ep. pose proof (packet_part_size readto len d q found ltac:(lia) Ep).
      pose proof (msize_nonneg q).
      destruct (reading_new n D acc len readto d b q found Hn Hl Ep) as (n1 & E1 & H1). destruct (read_end q len d found) eqn:He.
      * exists n1. rewrite E1. cbn [mbind option_bind]. split; [|done]. apply idle_run.
        destruct H1 as (? & ? & c & ? & ? & Hs). split; [done|]. split; [done|]. exists c. by rewrite Hs.
      * assert (len - msize q <> 0) by by (unfold read_end in He; destruct (Z.eqb_spec (len - msize q) 0)).
        specialize (IH n1 D (acc ++ q) (len - msize q) readto H1 ltac:(lia)).
        destruct (received readto (len - msize q) (packets es)) as [r fin]. destruct IH as (n2 & E2 & Hat & Hsz).
        exists n2. rewrite E1. cbn [mbind option_bind]. split; [done|]. rewrite msize_app. split; [|lia].
        replace (len - (msize q + msize r)) with (len - msize q - msize r) by lia. by rewrite app_assoc.
Qed.
End receive.

(** [elua_net_recvbuf]: the buffer gets the part of the stream that [received] defines, up to the character
    [readto], the end of the room or the first packet that is shorter than the window, whatever the events between
    the packets; when that part is complete, the call returns its length and the connection is stopped. *)
Theorem net_recvbuf_reads `{NetConf} mss k n acc maxsize readto D b es n1 :
  configured n = true → is_telnet n k = false → (∃ c, uip_conns n !! Z.to_nat k = Some c ∧ stopped c = true) →
  0 < maxsize < 32768 → elua_net_recvbuf n k acc maxsize readto = Some (inr n1) →
  let q := (received readto maxsize (packets es)).1 in let fin := (received readto maxsize (packets es)).2 in
  ∃ n2 c, net_run mss k (n1, Conn None D false) ((Poll, b) :: es) = Some (n2, Conn None D false) ∧
    uip_conns n2 !! Z.to_nat k = Some c ∧ es_ptr (appstate c) = PLua (acc ++ q) ∧ stopped c = fin ∧
    net_result n2 k maxsize = if fin then Some (msize q) else None.
Proof.
  intros Hcf Htel (c & Hk & Hst) Hsz Hrecv q fin. unfold elua_net_recvbuf, elua_net_recv_internal in Hrecv.
  destruct (sock_active n k) as [[]|]; [|done|done]. cbn [mbind option_bind negb] in Hrecv. rewrite (proj2 (Z.eqb_neq maxsize 0)) in Hrecv by lia.
  unfold net_prep in Hrecv. rewrite Hk in Hrecv. cbn [mbind option_bind] in Hrecv. injection Hrecv as <-.
  assert (elua_prep_socket_state (PLua acc) maxsize readto 1 ELUA_UIP_STATE_RECV = UipState ELUA_UIP_STATE_RECV 1 (PLua acc) maxsize readto) as ->.
  { unfold elua_prep_socket_state. by rewrite s16_id by lia. }
  set (c1 := set_appstate c _). set (n1 := set_conn n k c1). assert (uip_conns n1 !! Z.to_nat k = Some c1) as Hk1 by by eapply sock_set_conn.
  set (c2 := set_stopped (set_appstate c1 (UipState ELUA_UIP_STATE_RECV_2 1 (PLua acc) maxsize readto)) false).
  assert (net_step mss k (n1, Conn None D false) (Poll, b) = Some (set_conn n1 k c2, Conn None D false)) as E1.
  { rewrite (net_step_stopped mss k _ _ c1) by done. cbn [net_event net_enabled]. unfold tcp_call, elua_uip_appcall. cbn [event_conn].
    change (configured n1) with (configured n). rewrite Hcf, Hk1. reflexivity. }
  pose proof (reading_run mss k es (set_conn n1 k c2) D acc maxsize readto) as H2. subst q fin.
  destruct (received readto maxsize (packets es)) as [q fin]. destruct H2 as (n2 & E2 & (Hc2 & Ht2 & c3 & Hk3 & Hst3 & Hs3) & Hq).
  { apply (at_socket_set k n1 c1 c2); [done..|]. by exists 1. }
  { done. }
  exists n2, c3. cbn [net_run fst snd]. rewrite E1. cbn [mbind option_bind]. split; [done|]. split; [done|]. pose proof (msize_nonneg q).
  unfold net_result. rewrite Hk3. cbn [mbind option_bind]. destruct fin; [|destruct Hs3 as (res & _ & Hs3)]; rewrite Hs3; (split; [done|]); (split; [done|]).
  - cbn. f_equal. rewrite s16_id; lia.
  - done.
Qed.

(** A window of four bytes: two packets of the window's size and a shorter one, with room for ten bytes. *)
Lemma net_recvbuf_reads_witness :
  let b := replicate 4 0 in
  let es := [(New [1; 2; 3; 4], b); (Poll, b); (New [5; 6; 7; 8], b); (New [9], b); (New [10], b)] in
  ∃ n1 n2 c, elua_net_recvbuf (conf:=demo_net_conf) demo_net 0 [0] 10 (-1) = Some (inr n1) ∧
    net_run (conf:=demo_net_conf) 4 0 (n1, Conn None [] false) ((Poll, b) :: es) = Some (n2, Conn None [] false) ∧
    uip_conns n2 !! 0%nat = Some c ∧ es_ptr (appstate c) = PLua [0; 1; 2; 3; 4; 5; 6; 7; 8; 9] ∧ stopped c = true ∧ net_result n2 0 10 = Some 9.
Proof.
  intros b es. eexists.
  destruct (@net_recvbuf_reads demo_net_conf 4 0 demo_net [0] 10 (-1) [] b es _ eq_refl eq_refl
    (ex_intro _ demo_conn (conj eq_refl eq_refl)) ltac:(lia) eq_refl) as (n2 & c & H1 & H2 & H3 & H4 & H5).
  exists n2, c. split; [reflexivity|]. split_and!; [exact H1|exact H2|exact H3|exact H4|exact H5].
Defined.

(** ** Errors *)

(** When the time of a receive is over while its connection accepts data, the next packet is accepted and lost. *)
Lemma net_timeout_loses_data `{NetConf} mss k n n' acc len readto D d b :
  at_socket k n false (λ s, reading s acc len readto) → recv_timeout n k = Some n' →
  net_step mss k (n', Conn None D false) (New d, b) = Some (n', Conn None D false) ∧
  (∃ c, uip_conns n' !! Z.to_nat k = Some c ∧ stopped c = false ∧ es_ptr (appstate c) = PLua acc).
Proof.
  intros (Hc & Ht & c & Hk & Hst & (res & Hres & Hs)) E. unfold recv_timeout in E. rewrite Hk in E. cbn [mbind option_bind] in E.
  rewrite Hs in E. cbn [es_state] in E. change (ELUA_UIP_STATE_RECV_2 =? ELUA_UIP_STATE_IDLE) with false in E. cbn [negb] in E. injection E as <-.
  set (c' := set_appstate c _). assert (uip_conns (set_conn n k c') !! Z.to_nat k = Some c') as Hk' by by eapply sock_set_conn. split.
  - unfold net_step. cbn [fst snd fin]. rewrite Hk'. cbn [mbind option_bind]. change (stopped c') with (stopped c). rewrite Hst. cbn [net_event net_enabled].
    unfold tcp_call, elua_uip_appcall. cbn [event_conn]. change (configured (set_conn n k c')) with (configured n). rewrite Hc, Hk'. reflexivity.
  - by exists c'.
Qed.

(** A packet larger than the room of a call with a plain buffer: [res], now an error, is taken for the mark of a
    [luaL_Buffer]. *)
Lemma recv_overflow_undefined `{NetConf} mss c m off len d b :
  appstate c = UipState ELUA_UIP_STATE_RECV_2 ELUA_NET_ERR_OK (PMem m off) len ELUA_NET_NO_LASTCHAR → 0 <= len < msize d →
  appcall_recv (event_uip mss (New d) b) c = None.
Proof.
  intros Hs Hl. unfold appcall_recv. rewrite Hs. cbn [event_uip uip_len uip_appdata es_len]. rewrite (proj2 (Z.ltb_lt len (msize d))) by lia.
  cbn [set_es_res es_readto es_res es_state es_ptr es_len]. change (ELUA_NET_NO_LASTCHAR =? ELUA_NET_NO_LASTCHAR) with true.
  change (ELUA_NET_ERR_OVERFLOW =? 0) with false. cbn [negb lua_addstring]. by destruct (mread _ 0 len).
Qed.

(** Packets of the window's size into a plain buffer: each is written at its beginning. *)
Example recv_overwrites :
  let c := set_appstate demo_conn (UipState ELUA_UIP_STATE_RECV_2 0 (PMem (replicate 6 0) 0) 6 (-1)) in
  (c ← appcall_recv (conf:=demo_net_conf) (event_uip 4 (New [1; 2; 3; 4]) []) c; c ← appcall_recv (conf:=demo_net_conf) (event_uip 4 (New [5; 6]) []) c;
    Some (es_ptr (appstate c), es_len (appstate c))) = Some (PMem [5; 6; 3; 4; 0; 0] 0, 0).
Proof. reflexivity. Qed.
