(* ===== verification/Telnet.v ===== *)
(** * The console over TELNET

    The console's socket in Net.v: what a packet from a TELNET client leaves in the buffer of the reader, and what a
    client gets of what the console writes. *)
From S2P Require Import Prelude Psock Net NetInput.

(** ** Input *)

(** What a client sends: characters, commands of two bytes and of three, and the end of the file. *)
Inductive tel_item :=
| TelChar (c : Z)
| TelCmd2 (c : Z)
| TelCmd3 (c o : Z)
| TelEof.

Definition tel_bytes (t : tel_item) : mem :=
  match t with
  | TelChar c => [c]
  | TelCmd2 c => [TELNET_IAC_CHAR; c]
  | TelCmd3 c o => [TELNET_IAC_CHAR; c; o]
  | TelEof => [TELNET_IAC_CHAR; TELNET_EOF]
  end.

Definition tel_char (t : tel_item) : mem :=
  match t with TelChar c => [c] | TelEof => [STD_CTRLZ_CODE] | _ => [] end.

Definition tel_ok (t : tel_item) : Prop :=
  match t with
  | TelChar c => 0 <= c < TELNET_IAC_CHAR
  | TelCmd2 c => ¬ (TELNET_IAC_3B_FIRST <= c <= TELNET_IAC_3B_LAST) ∧ c ≠ TELNET_EOF
  | TelCmd3 c _ => TELNET_IAC_3B_FIRST <= c <= TELNET_IAC_3B_LAST
  | TelEof => True
  end.

Definition tel_encode (ts : list tel_item) : mem := concat (tel_bytes <$> ts).
Definition tel_text (ts : list tel_item) : mem := concat (tel_char <$> ts).

Lemma mwrite_nil_inv m p m' : mwrite m p [] = Some m' → m' = m.
Proof. intros H. pose proof (proj1 (mwrite_spec _ _ _ _) H) as (? & Hm & _). rewrite msize_nil in Hm. rewrite mwrite_nil in H by lia. congruence. Qed.

Lemma ld_middle (pre post : mem) x i : i = msize pre → ld (pre ++ x :: post) i = Some x.
Proof. intros ->. rewrite ld_app_r by lia. by rewrite Z.sub_diag, ld_cons_0. Qed.

Lemma telnet_loop_stop fuel u p len i n : uip_len u <= i ∨ len <= n → telnet_loop (S fuel) u p len i n = Some (p, n).
Proof. intros H. cbn [telnet_loop]. destruct (Z.ltb_spec i (uip_len u)), (Z.ltb_spec n len); done || lia. Qed.

Lemma ld_second (pre post : mem) a x i : i = msize pre → ld (pre ++ a :: x :: post) (i + 1) = Some x.
Proof. intros ->. change (a :: x :: post) with ([a] ++ x :: post). rewrite app_assoc. apply ld_middle. by rewrite msize_app. Qed.

(** One turn of the loop. *)
Lemma telnet_loop_item fuel u m m1 off len i n t rest :
  uip_appdata u = rest.1 ++ tel_bytes t ++ rest.2 → i = msize rest.1 → i < uip_len u → tel_ok t → n < len →
  mwrite m (off + n) (tel_char t) = Some m1 →
  telnet_loop (S fuel) u (PMem m off) len i n = telnet_loop fuel u (PMem m1 off) len (i + msize (tel_bytes t)) (n + msize (tel_char t)).
Proof.
  intros Ha Hi Hu Ht Hn Hw. cbn [telnet_loop]. rewrite (proj2 (Z.ltb_lt i _)), (proj2 (Z.ltb_lt n len)) by lia. cbn [andb].
  rewrite Ha. destruct rest as [pre post]. cbn [fst snd] in *.
  destruct t as [c|c|c o|]; cbn [tel_bytes tel_char Datatypes.app tel_ok] in *; rewrite (ld_middle pre _ _ i) by done; cbn [mbind option_bind];
    [|rewrite (ld_second pre _ _ _ i) by done; change (TELNET_IAC_CHAR =? TELNET_IAC_CHAR) with true; cbn [negb mbind option_bind]..].
  - rewrite (proj2 (Z.eqb_neq c TELNET_IAC_CHAR)) by lia. cbn [negb ptr_put].
    rewrite st_mwrite, u8_id, Hw by (unfold TELNET_IAC_CHAR in Ht; lia). done.
  - destruct Ht as [H1 H2]. assert ((TELNET_IAC_3B_FIRST <=? c) && (c <=? TELNET_IAC_3B_LAST) = false) as -> by lia.
    rewrite (proj2 (Z.eqb_neq c TELNET_EOF)) by done. apply mwrite_nil_inv in Hw as ->. by rewrite msize_nil, Z.add_0_r.
  - assert ((TELNET_IAC_3B_FIRST <=? c) && (c <=? TELNET_IAC_3B_LAST) = true) as -> by lia.
    apply mwrite_nil_inv in Hw as ->. by rewrite msize_nil, Z.add_0_r.
  - change ((TELNET_IAC_3B_FIRST <=? TELNET_EOF) && (TELNET_EOF <=? TELNET_IAC_3B_LAST)) with false. change (TELNET_EOF =? TELNET_EOF) with true.
    cbv iota. cbn [ptr_put]. rewrite st_mwrite. change (u8 STD_CTRLZ_CODE) with STD_CTRLZ_CODE. by rewrite Hw.
Qed.

Lemma telnet_loop_items ts : ∀ fuel u m m' off len i n pre post,
  uip_appdata u = pre ++ tel_encode ts ++ post → i = msize pre → uip_len u = i + msize (tel_encode ts) →
  (length (tel_encode ts) < fuel)%nat → Forall tel_ok ts → n + msize (tel_text ts) <= len →
  mwrite m (off + n) (tel_text ts) = Some m' →
  telnet_loop fuel u (PMem m off) len i n = Some (PMem m' off, n + msize (tel_text ts)).
Proof.
  induction ts as [|t ts IH]; intros fuel u m m' off len i n pre post Ha Hi Hu Hf Hok Hl Hw; (destruct fuel as [|fuel]; [lia|]).
  - apply mwrite_nil_inv in Hw as ->. rewrite telnet_loop_stop by (left; change (msize (tel_encode [])) with 0 in Hu; lia). by rewrite Z.add_0_r.
  - apply Forall_cons in Hok as [Ht Hok].
    change (tel_encode (t :: ts)) with (tel_bytes t ++ tel_encode ts) in *. change (tel_text (t :: ts)) with (tel_char t ++ tel_text ts) in *.
    rewrite !msize_app in *. rewrite length_app in Hf. pose proof (msize_nonneg (tel_encode ts)). pose proof (msize_nonneg (tel_text ts)).
    pose proof (msize_nonneg (tel_char t)). assert (0 < msize (tel_bytes t)) as Hpos by by destruct t. destruct (Z.ltb_spec n len) as [Hlt|Hge].
    2:{ rewrite telnet_loop_stop by lia. assert (tel_char t ++ tel_text ts = []) as E.
        { apply nil_length_inv. rewrite length_app. unfold msize in *. lia. }
        rewrite E in Hw. apply mwrite_nil_inv in Hw as ->. do 2 f_equal. lia. }
    rewrite mwrite_app in Hw. destruct (mwrite m (off + n) (tel_char t)) as [m1|] eqn:Hm1; [|done]. cbn [mbind option_bind] in Hw.
    rewrite (telnet_loop_item fuel u m m1 off len i n t (pre, tel_encode ts ++ post)) by (done || cbn; lia || by rewrite Ha, <- app_assoc).
    rewrite Z.add_assoc. apply (IH _ u m1 m' off len _ _ (pre ++ tel_bytes t) post); [by rewrite Ha, <- !app_assoc|by rewrite msize_app, Hi|lia|unfold msize in *; lia|done|lia|].
    by rewrite Z.add_assoc.
Qed.

(** ** The console's socket *)
Section console.
Context {conf : NetConf} (mss k : Z).

(** The socket [k] is the console's and its state is [s]. *)
Definition console_is (n : net) (s : elua_uip_state) : Prop :=
  configured n = true ∧ is_telnet n k = true ∧ ∃ c, uip_conns n !! Z.to_nat k = Some c ∧ appstate c = s ∧ stopped c = true.

(** [data] has been given to the stack. *)
Definition console_sends (n : net) (data : mem) : Prop :=
  ∃ m off post, drop (Z.to_nat off) m = data ++ post ∧
    console_is n (UipState ELUA_UIP_STATE_SEND ELUA_NET_ERR_OK (PMem m off) (msize data) ELUA_NET_NO_LASTCHAR).

Definition console_idle (n : net) : Prop :=
  ∃ p, console_is n (UipState ELUA_UIP_STATE_IDLE ELUA_NET_ERR_OK p 0 ELUA_NET_NO_LASTCHAR).

(** The packet that [telnet_prep_send] makes. *)
Lemma expand_size data : msize data <= msize (telnet_expand data).
Proof.
  induction data as [|c data IH]; [done|]. change (telnet_expand (c :: data)) with ((if c =? NET_LF then [NET_CR; c] else [c]) ++ telnet_expand data).
  rewrite msize_app, msize_cons. destruct (c =? NET_LF); [change (msize [NET_CR; c]) with 2|change (msize [c]) with 1]; lia.
Qed.

Definition console_room (data : mem) (e : event * mem) : Prop := event_room mss e ∧ msize (telnet_expand data) <= msize e.2.

Lemma event_appdata_size e b : event_room mss (e, b) → msize (uip_appdata (event_uip mss e b)) = msize b.
Proof. intros [_ H]. destruct e; cbn in *; [done|done| |done|]; rewrite msize_app; unfold msize in *; rewrite length_drop; lia. Qed.

Lemma prep_send_put u data post :
  0 < msize data → msize (telnet_expand data) < 32768 → msize (telnet_expand data) <= msize (uip_appdata u) →
  ('(u, temp) ← telnet_prep_send u (data ++ post) (msize data); uip_send u None temp) = Some (put_out u (telnet_expand data)).
Proof.
  intros H0 Hs Hr. pose proof (expand_size data). unfold telnet_prep_send.
  pose proof (bytes_at_prefix (data ++ post) [] data post eq_refl) as Hb. unfold bytes_at in Hb. change (msize []) with 0 in Hb. rewrite Hb.
  cbn [mbind option_bind]. destruct (mwrite_is_Some (uip_appdata u) 0 (telnet_expand data)) as [m Hm]; [lia|lia|]. rewrite Hm.
  cbn [mbind option_bind]. rewrite s16_id by lia. unfold uip_send. rewrite (proj2 (Z.ltb_lt 0 _)), u16_id by lia.
  cbn [uip_flags uip_mss uip_appdata uip_len]. unfold put_out. by rewrite (mwrite_prefix _ _ _ Hm).
Qed.

(** A call that is not an acknowledgment puts the packet into the buffer (again). *)
Lemma console_transmit n data u :
  console_sends n data → 0 < msize data → msize (telnet_expand data) < 32768 → msize (telnet_expand data) <= msize (uip_appdata u) →
  uip_flags u = UIP_REXMIT ∨ uip_flags u = UIP_POLL →
  ∃ n', elua_uip_appcall n k u = Some (n', put_out u (telnet_expand data)) ∧ console_sends n' data.
Proof.
  intros (m & off & post & Hd & Hc & Ht & c & Hk & Hs & Hst) H0 Hl Hr Hf. unfold elua_uip_appcall. rewrite Hc, Hk, Ht. cbn [negb mbind option_bind].
  assert (uip_flag u UIP_CONNECTED = false ∧ uip_closing u = false ∧ uip_acked u = false ∧ uip_rexmit u || uip_flag u UIP_POLL = true) as (-> & -> & -> & Hx).
  { unfold uip_closing, uip_acked, uip_rexmit, uip_flag. by destruct Hf as [-> | ->]. }
  rewrite Hs. cbn [es_state]. change (ELUA_UIP_STATE_SEND =? ELUA_UIP_STATE_IDLE) with false. change (ELUA_UIP_STATE_SEND =? ELUA_UIP_STATE_RECV) with false.
  change (ELUA_UIP_STATE_SEND =? ELUA_UIP_STATE_SEND) with true. cbn [orb]. rewrite Hx. cbn [andb]. unfold appcall_send.
  assert (uip_acked u = false) as -> by (unfold uip_acked, uip_flag; by destruct Hf as [-> | ->]). cbn [es_len es_ptr ptr_object].
  rewrite (proj2 (Z.ltb_lt 0 _)), Hd, prep_send_put by done. cbn [mbind option_bind]. eexists. split; [reflexivity|].
  exists m, off, post. split; [done|]. split; [done|]. split; [done|]. eexists. split; [by eapply sock_set_conn|]. done.
Qed.

(** The acknowledgment makes the socket idle. *)
Lemma console_acked n data u :
  console_sends n data → 0 < msize data <= mss → msize data < 32768 → uip_flags u = UIP_ACKDATA → uip_mss u = mss →
  ∃ n', elua_uip_appcall n k u = Some (n', u) ∧ console_idle n'.
Proof.
  intros (m & off & post & Hd & Hc & Ht & c & Hk & Hs & Hst) H0 Hl Hf Hm. unfold elua_uip_appcall. rewrite Hc, Hk. cbn [negb mbind option_bind].
  assert (uip_flag u UIP_CONNECTED = false ∧ uip_closing u = false ∧ uip_acked u = true) as (-> & -> & Ha).
  { unfold uip_closing, uip_acked, uip_flag. by rewrite Hf. }
  rewrite Hs. cbn [es_state]. change (ELUA_UIP_STATE_SEND =? ELUA_UIP_STATE_IDLE) with false. change (ELUA_UIP_STATE_SEND =? ELUA_UIP_STATE_RECV) with false.
  change (ELUA_UIP_STATE_SEND =? ELUA_UIP_STATE_SEND) with true. rewrite Ha. cbn [orb andb]. unfold appcall_send. rewrite Ha, Hm. cbn [es_len es_ptr ptr_add].
  rewrite (proj2 (Z.leb_le _ _)) by lia. rewrite Z.sub_diag. unfold set_es_buf. cbn. eexists. split; [reflexivity|]. eexists. split; [done|]. split; [done|].
  eexists. split; [by eapply sock_set_conn|]. done.
Qed.

(** The connection of a console that sends one packet. *)
Definition console_conn (D : mem) (out : mem) (acked : bool) : conn := if acked then Conn None (D ++ out) false else Conn (Some out) D false.

Definition console_state (data D : mem) (acked : bool) (x : net * conn) : Prop :=
  x.2 = console_conn D (take (Z.to_nat mss) (telnet_expand data)) acked ∧ (if acked then console_idle x.1 else console_sends x.1 data).

Lemma take_mss_size out : 0 < mss → msize (take (Z.to_nat mss) out) = if mss <? msize out then mss else msize out.
Proof. intros. unfold msize. rewrite length_take. destruct (Z.ltb_spec mss (Z.of_nat (length out))); lia. Qed.

(** The stack reads the segment that it sends, or sends again, from the packet. *)
Lemma put_out_segment u out seg : seg = take (Z.to_nat mss) out → mread (uip_appdata (put_out u out)) 0 (msize seg) = Some seg.
Proof.
  intros ->. exact (bytes_at_prefix _ [] (take (Z.to_nat mss) out) (drop (Z.to_nat mss) out ++ drop (length out) (uip_appdata u))
    ltac:(cbn [uip_appdata put_out Datatypes.app]; by rewrite app_assoc, take_drop)).
Qed.

Lemma console_call n data D e b cn :
  0 < mss → console_sends n data → 0 < msize data → msize (telnet_expand data) < 32768 → console_room data (e, b) → e = Rexmit ∨ e = Poll →
  let seg := take (Z.to_nat mss) (telnet_expand data) in cn = Conn (Some seg) D false ∨ e = Poll ∧ cn = Conn None D false →
  ∃ n', tcp_call (λ n u, elua_uip_appcall n k u) mss (n, cn) (e, b) = Some (n', Conn (Some seg) D false) ∧ console_sends n' data.
Proof.
  intros Hm Hn H0 Hl [Hr Hb] He seg Hcn. set (out := telnet_expand data) in *.
  pose proof (expand_size data : _ <= msize out). assert (msize out <= msize (uip_appdata (event_uip mss e b))) as Hb' by by rewrite event_appdata_size.
  destruct (console_transmit n data (event_uip mss e b) Hn H0 Hl Hb') as (n' & E & Hn'); [by destruct He as [-> | ->]; [left|right]|].
  change (telnet_expand data) with out in E.
  exists n'. split; [|done]. unfold tcp_call. assert (event_conn e cn = cn) as -> by by destruct He as [-> | ->]. rewrite E. cbn [mbind option_bind].
  pose proof (put_out_segment (event_uip mss e b) out seg eq_refl) as Hseg. pose proof (take_mss_size out Hm : msize seg = _) as Hsz.
  destruct He as [-> | ->].
  - destruct Hcn as [-> | [? _]]; [|done]. unfold tcp_apprexmit. cbn [inflight uip_slen put_out]. rewrite (proj2 (Z.ltb_lt 0 _)) by lia. by rewrite Hseg.
  - unfold tcp_appsend. change (uip_flag (put_out (event_uip mss Poll b) _) UIP_ABORT) with false.
    change (uip_flag (put_out (event_uip mss Poll b) _) UIP_CLOSE) with false. change (uip_flag (put_out (event_uip mss Poll b) _) UIP_ACKDATA) with false.
    cbn [uip_slen put_out uip_mss event_uip]. rewrite (proj2 (Z.ltb_lt 0 _)) by lia.
    destruct Hcn as [-> | [_ ->]]; cbn [inflight delivered fin]; [|rewrite <- Hsz]; change (uip_appdata _) with (uip_appdata (put_out (event_uip mss Poll b) out)); by rewrite Hseg.
Qed.

Lemma console_step data D x acked e b :
  0 < mss → 0 < msize data <= mss → msize (telnet_expand data) < 32768 → console_state data D acked x → console_room data (e, b) →
  ∃ x', net_step mss k x (e, b) = Some x' ∧ console_state data D (acked || is_ack (e, b)) x'.
Proof.
  intros Hm H0 Hl [Hcn Hs] [Hr Hb]. destruct x as [n cn]. cbn [fst snd] in *. subst cn. pose proof (expand_size data).
  set (out := telnet_expand data) in *. destruct acked; cbn [orb console_conn] in *.
  - exists (n, Conn None (D ++ take (Z.to_nat mss) out) false). split; [|done]. destruct Hs as (p & Hc & _ & c & Hk & Hs & Hst).
    rewrite (net_step_stopped mss k _ _ c) by done. destruct e; try done. cbn [net_event net_enabled]. unfold tcp_call, elua_uip_appcall.
    cbn [event_conn]. rewrite Hc, Hk. cbn [negb mbind option_bind]. by rewrite Hs.
  - destruct Hs as (m & off & post & Hs). pose proof Hs as (_ & _ & _ & c & Hk & _ & Hst). rewrite (net_step_stopped mss k _ _ c) by done.
    assert (console_sends n data) as Hn by by exists m, off, post.
    destruct (is_ack (e, b)) eqn:Ea.
    + assert (net_event true e = Some Ack) as -> by by destruct e. cbn [net_enabled inflight]. rewrite bool_decide_eq_true_2 by done.
      destruct (console_acked n data (event_uip mss Ack b) Hn H0 ltac:(lia) eq_refl eq_refl) as (n' & E & Hi).
      exists (n', Conn None (D ++ take (Z.to_nat mss) out) false). unfold tcp_call. rewrite E. cbn [mbind option_bind event_conn inflight].
      by rewrite appsend_none.
    + destruct e as [| |d| |]; try done; cbn [net_event net_enabled inflight].
      2:{ exists (n, Conn (Some (take (Z.to_nat mss) out)) D false). done. }
      all: rewrite ?bool_decide_eq_true_2 by done.
      all: match goal with |- context [tcp_call _ _ _ (?e, ?b')] => destruct (console_call n data D e b' (Conn (Some (take (Z.to_nat mss) out)) D false)) as (n' & E & Hn') end;
        [done|done|lia|done|done|(by left) || by right|by left|]; rewrite E; by exists (n', Conn (Some (take (Z.to_nat mss) out)) D false).
Qed.

Lemma console_run data D es : ∀ x acked,
  0 < mss → 0 < msize data <= mss → msize (telnet_expand data) < 32768 → console_state data D acked x → Forall (console_room data) es →
  ∃ x', net_run mss k x es = Some x' ∧ console_state data D (acked || (0 <? Z.of_nat (acks es))) x'.
Proof.
  induction es as [|[e b] es IH]; intros x acked Hm H0 Hl Hx Hr.
  - exists x. split; [done|]. by rewrite orb_false_r.
  - apply Forall_cons in Hr as [Hr Hrs]. destruct (console_step data D x acked e b Hm H0 Hl Hx Hr) as (x1 & E1 & H1). cbn [net_run]. rewrite E1.
    cbn [mbind option_bind]. destruct (IH x1 _ Hm H0 Hl H1 Hrs) as (x2 & E2 & H2). exists x2. split; [done|].
    unfold acks in *. rewrite filter_cons. destruct (is_ack (e, b)); [rewrite decide_True by done|by rewrite decide_False, orb_false_r in * by done].
    rewrite (proj2 (Z.ltb_lt 0 (Z.of_nat (length (_ :: _))))) by (cbn [length]; lia). by rewrite orb_true_r in *.
Qed.
End console.

(** The console's output: the client gets the text with a carriage return before each line feed, once, whatever is
    retransmitted, polled or sent by the client meanwhile, as far as it fits one segment: the rest is lost. The call ends
    with the acknowledgment and its result is the size of the text also then. *)
Theorem telnet_send_delivers `{NetConf} mss k n data post D b es n1 :
  0 < mss → configured n = true → is_telnet n k = true → (∃ c, uip_conns n !! Z.to_nat k = Some c ∧ stopped c = true) →
  0 < msize data <= mss → msize (telnet_expand data) < 32768 → elua_net_send n k (data ++ post) (msize data) = Some (inr n1) →
  Forall (console_room mss data) ((Poll, b) :: es) →
  let seg := take (Z.to_nat mss) (telnet_expand data) in let acked := 0 <? Z.of_nat (acks es) in
  ∃ n2, net_run mss k (n1, Conn None D false) ((Poll, b) :: es) = Some (n2, if acked then Conn None (D ++ seg) false else Conn (Some seg) D false) ∧
    net_result n2 k (msize data) = if acked then Some (msize data) else None.
Proof.
  intros Hm Hcf Htel (c & Hk & Hst) H0 Hl Hsend Hr seg acked. pose proof (expand_size data). unfold elua_net_send in Hsend.
  destruct (sock_active n k) as [[]|]; [|done|done]. cbn [mbind option_bind negb] in Hsend. rewrite (proj2 (Z.eqb_neq (msize data) 0)) in Hsend by lia.
  unfold net_prep in Hsend. rewrite Hk in Hsend. cbn [mbind option_bind] in Hsend. injection Hsend as <-.
  unfold elua_prep_socket_state. rewrite s16_id by lia. set (s := UipState _ _ _ _ _). set (n1 := set_conn n k (set_appstate c s)).
  assert (console_sends k n1 data) as Hs.
  { exists (data ++ post), 0, post. split; [done|]. split; [done|]. split; [done|]. eexists. split; [by eapply sock_set_conn|]. done. }
  apply Forall_cons in Hr as [Hr Hrs]. destruct (console_call mss k n1 data D Poll b (Conn None D false) Hm Hs) as (n2 & E & Hn2); [lia|done|done|by right|by right|]. fold seg in E.
  cbn [net_run]. rewrite (net_step_stopped mss k _ _ (set_appstate c s)) by (done || by eapply sock_set_conn). cbn [net_event net_enabled]. rewrite E. cbn [mbind option_bind].
  destruct (console_run mss k data D es (n2, Conn (Some seg) D false) false) as ([n3 cn] & -> & Hx & Hi); [done..|]. cbn [fst snd orb] in *. fold acked in Hx, Hi.
  subst cn. exists n3. split; [done|]. unfold net_result. destruct acked.
  - destruct Hi as (p & _ & _ & c' & Hk3 & Hs3 & _). rewrite Hk3. cbn [mbind option_bind]. rewrite Hs3. cbn. by rewrite Z.sub_0_r, s16_id by lia.
  - destruct Hi as (m & off & post' & _ & _ & _ & c' & Hk3 & Hs3 & _). rewrite Hk3. cbn [mbind option_bind]. by rewrite Hs3.
Qed.

(** Two lines in one packet, which is sent twice. *)
Lemma telnet_send_delivers_witness :
  let b := replicate 8 0 in let es := [(Rexmit, b); (New [9], b); (Ack, b)] in
  ∃ n1 n2, elua_net_send (conf:=demo_net_conf) demo_net 1 [97; 10; 98; 10] 4 = Some (inr n1) ∧
    net_run (conf:=demo_net_conf) 8 1 (n1, Conn None [] false) ((Poll, b) :: es) = Some (n2, Conn None [97; 13; 10; 98; 13; 10] false) ∧ net_result n2 1 4 = Some 4.
Proof.
  intros b es. eexists.
  destruct (@telnet_send_delivers demo_net_conf 8 1 demo_net [97; 10; 98; 10] [] [] b es _ ltac:(lia) eq_refl eq_refl
    (ex_intro _ demo_conn (conj eq_refl eq_refl)) ltac:(by vm_compute) ltac:(by vm_compute) eq_refl) as (n2 & H1 & H2).
  { repeat constructor; by vm_compute. }
  exists n2. split; [reflexivity|]. split; [exact H1|exact H2].
Defined.

(** The console's input: a packet that a TELNET client has sent leaves its characters in the buffer of the reader,
    with the code of control-Z for the end of the file and without the commands; the reader is woken up, and the
    connection stopped, exactly when the packet has a character. *)
Theorem telnet_input_decodes `{NetConf} mss k n c m m' off len readto res ts b :
  configured n = true → is_telnet n k = true → uip_conns n !! Z.to_nat k = Some c →
  appstate c = UipState ELUA_UIP_STATE_RECV_2 res (PMem m off) len readto → 0 < len < 32768 →
  Forall tel_ok ts → msize (tel_text ts) <= len → mwrite m off (tel_text ts) = Some m' →
  let size := msize (tel_text ts) in let u := event_uip mss (New (tel_encode ts)) b in
  elua_uip_appcall n k u = Some (set_conn n k (if bool_decide (tel_text ts = [])
    then set_appstate c (UipState ELUA_UIP_STATE_RECV_2 res (PMem m off) len readto)
    else set_stopped (set_appstate c (UipState ELUA_UIP_STATE_IDLE ELUA_NET_ERR_OK (PMem m' (off + size)) (len - size) readto)) true), u).
Proof.
  intros Hcf Htel Hk Hs Hl Hok Hsz Hw size u. unfold elua_uip_appcall. rewrite Hcf, Hk, Htel. cbn [negb mbind option_bind]. rewrite Hs. cbn [es_state].
  change (uip_flag u UIP_CONNECTED) with false. change (uip_closing u) with false. change (uip_newdata u) with true.
  change (uip_acked u || uip_rexmit u || uip_flag u UIP_POLL) with false.
  change (ELUA_UIP_STATE_RECV_2 =? ELUA_UIP_STATE_IDLE) with false. change (ELUA_UIP_STATE_RECV_2 =? ELUA_UIP_STATE_RECV) with false.
  change (ELUA_UIP_STATE_RECV_2 =? ELUA_UIP_STATE_CLOSE) with false. change (ELUA_UIP_STATE_RECV_2 =? ELUA_UIP_STATE_RECV_2) with true.
  cbn [andb]. cbv iota. unfold telnet_handle_input. rewrite Hs. cbn [es_ptr es_len es_readto].
  rewrite (telnet_loop_items ts (S (Z.to_nat (uip_len u))) u m m' off len 0 0 [] (drop (length (tel_encode ts)) b)); [|done|done|done| |done|lia|by rewrite Z.add_0_r].
  2:{ change (uip_len u) with (msize (tel_encode ts)). unfold msize. lia. }
  cbn [mbind option_bind ptr_add]. change (0 + msize (tel_text ts)) with size. case_bool_decide as He.
  - unfold size. rewrite He in *. apply mwrite_nil_inv in Hw as ->. rewrite msize_nil, Z.ltb_irrefl, Z.add_0_r. unfold set_es_buf. cbn. by rewrite s16_id by lia.
  - pose proof (msize_pos _ He) as Hp. fold size in Hp, Hsz. rewrite (proj2 (Z.ltb_lt 0 size)) by lia. by rewrite s16_id by lia.
Qed.

(** "a", a command of three bytes, "b" and the end of the file. *)
Lemma telnet_input_decodes_witness :
  let c := set_appstate demo_conn (UipState ELUA_UIP_STATE_RECV_2 0 (PMem [0; 0; 0; 0] 0) 4 (-1)) in
  let n := set_conn demo_net 1 c in let u := event_uip 8 (New [97; 255; 251; 1; 98; 255; 236]) (replicate 8 0) in
  elua_uip_appcall (conf:=demo_net_conf) n 1 u =
    Some (set_conn n 1 (set_stopped (set_appstate c (UipState ELUA_UIP_STATE_IDLE ELUA_NET_ERR_OK (PMem [97; 98; STD_CTRLZ_CODE; 0] 3) 1 (-1))) true), u).
Proof.
  intros c n u. refine (@telnet_input_decodes demo_net_conf 8 1 n c [0; 0; 0; 0] [97; 98; STD_CTRLZ_CODE; 0] 0 4 (-1) 0
    [TelChar 97; TelCmd3 251 1; TelChar 98; TelEof] (replicate 8 0) eq_refl eq_refl eq_refl eq_refl _ _ _ eq_refl); [lia| |by vm_compute].
  repeat constructor; by vm_compute.
Defined.
