(* ===== verification/Console.v ===== *)
(** * The console: src/newlib/genstd.c and src/newlib/stdtcp.c

    The standard streams on a serial line, whose reader edits and echoes a line, and over TELNET (Telnet.v). A console
    function that waits for a character or a packet that has not come gives no result; the answers of
    [std_get_char_func] and the packets that [elua_net_recv] brings are lists in the order of the calls. *)
From S2P Require Import Prelude Psock Net Telnet.

Definition EBADF : Z := 9.
Definition EINVAL : Z := 22.
Definition DM_STDIN_NUM : Z := 0.
Definition DM_STDOUT_NUM : Z := 1.
Definition DM_STDERR_NUM : Z := 2.
Definition CON_BS : Z := 8.
Definition CON_DEL : Z := 127.

Definition isprint (c : Z) : bool := (32 <=? c) && (c <=? 126).

(** [funcs]: [std_set_send_func] and [std_set_get_func] have been called; [inp]: the answers of [std_get_char_func],
    -1 when the time is over; [outp]: the characters sent. *)
Record con := Con { funcs : bool; std_prev_char : Z; inp : list Z; outp : list Z; con_errno : Z }.

Definition set_prev (c : con) (x : Z) : con := Con (funcs c) x (inp c) (outp c) (con_errno c).
Definition set_inp (c : con) (l : list Z) : con := Con (funcs c) (std_prev_char c) l (outp c) (con_errno c).
Definition std_send_char (c : con) (x : Z) : con := Con (funcs c) (std_prev_char c) (inp c) (outp c ++ [x]) (con_errno c).
Definition con_fail (c : con) (e : Z) : con := Con (funcs c) (std_prev_char c) (inp c) (outp c) e.

(** [std_read] from its loop on; the result is [None] while the function waits. *)
Fixpoint std_read_loop (fuel : nat) (c : con) (m : mem) (i len : Z) : option (con * mem * option Z) :=
  match fuel with
  | O => None
  | S fuel =>
      if negb (i <? len) then Some (c, m, Some len)
      else if negb (std_prev_char c =? -1) then m ← st m i (std_prev_char c); std_read_loop fuel (set_prev c (-1)) m (i + 1) len
      else
        match inp c with
        | [] => Some (c, m, None)
        | x :: rest =>
            let c := set_inp c rest in
            if x =? -1 then Some (c, m, Some len)
            else if (x =? CON_BS) || (x =? CON_DEL) then
              if 0 <? i then std_read_loop fuel (std_send_char (std_send_char (std_send_char c CON_BS) 32) CON_BS) m (i - 1) len
              else std_read_loop fuel c m i len
            else if negb (isprint x) && negb (x =? NET_LF) && negb (x =? NET_CR) && negb (x =? STD_CTRLZ_CODE) then std_read_loop fuel c m i len
            else if x =? STD_CTRLZ_CODE then Some (c, m, Some 0)
            else
              let c := std_send_char c x in
              if (x =? NET_CR) || (x =? NET_LF) then
                match inp c with
                | [] => Some (c, m, None)
                | y :: rest =>
                    let c := set_prev (set_inp c rest) (if y + x =? NET_CR + NET_LF then -1 else y) in
                    let c := std_send_char c (NET_CR + NET_LF - x) in
                    m ← st m i NET_LF; Some (c, m, Some (i + 1))
                end
              else m ← st m i x; std_read_loop fuel c m (i + 1) len
        end
  end.

Definition std_read (c : con) (fd : Z) (m : mem) (len : Z) : option (con * mem * option Z) :=
  if negb (funcs c) then Some (con_fail c EBADF, m, Some (-1))
  else if (fd <? DM_STDIN_NUM) || (DM_STDERR_NUM <? fd) then Some (con_fail c EBADF, m, Some (-1))
  else if negb (fd =? DM_STDIN_NUM) then Some (con_fail c EINVAL, m, Some (-1))
  else std_read_loop (S (S (length (inp c)))) c m 0 len.

Fixpoint std_write_loop (n : nat) (c : con) (m : mem) (i : Z) : option con :=
  match n with
  | O => Some c
  | S n =>
      x ← ld m i;
      let c := if x =? NET_LF then std_send_char c NET_CR else c in
      x ← ld m i;
      std_write_loop n (std_send_char c x) m (i + 1)
  end.

Definition std_write (c : con) (fd : Z) (m : mem) (len : Z) : option (con * Z) :=
  if negb (funcs c) then Some (con_fail c EBADF, -1)
  else if (fd <? DM_STDIN_NUM) || (DM_STDERR_NUM <? fd) then Some (con_fail c EBADF, -1)
  else if negb (fd =? DM_STDOUT_NUM) && negb (fd =? DM_STDERR_NUM) then Some (con_fail c EINVAL, -1)
  else c ← std_write_loop (Z.to_nat len) c m 0; Some (c, len).

(** ** The console over TELNET *)
Module Tcp.

(** The loop that looks for the end of the file among [n] bytes ([size_t], compared with [pktsize]). *)
Fixpoint find_eof (l : mem) (n : Z) : option bool :=
  if n <=? 0 then Some false
  else
    match l with
    | [] => None
    | c :: l => if c =? STD_CTRLZ_CODE then Some true else find_eof l (n - 1)
    end.

(** [std_read] from its loop on: each call of [elua_net_recv] stores a packet or fails (-1). *)
Fixpoint read_loop (rs : list (option mem)) (m : mem) (lptr len actsize : Z) : option (mem * option Z) :=
  match rs with
  | [] => Some (m, None)
  | r :: rs =>
      m ← (match r with Some bs => mwrite m lptr bs | None => Some m end);
      let pktsize := match r with Some bs => s16 (msize bs) | None => -1 end in
      eof ← find_eof (drop (Z.to_nat lptr) m) (u32 pktsize);
      if (eof : bool) then Some (m, Some 0)
      else
        let actsize := u32 (actsize + pktsize) in
        if len <=? actsize then Some (m, Some len)
        else
          final ← (if 2 <=? pktsize then c1 ← ld m (lptr + pktsize - 2); c2 ← ld m (lptr + pktsize - 1); Some ((c1 =? NET_CR) && (c2 =? NET_LF))
                   else Some false);
          if (final : bool) then Some (m, Some actsize)
          else read_loop rs m (lptr + pktsize) (u32 (len - pktsize)) actsize
  end.

(** [inl]: an error; the packets that come are those of the console's socket. *)
Definition std_read (fd : Z) (rs : list (option mem)) (m : mem) (len : Z) : option (Z + (mem * option Z)) :=
  if negb (fd =? DM_STDIN_NUM) then Some (inl EINVAL) else r ← read_loop rs m 0 len 0; Some (inr r).

(** [inr None]: the function waits for a client; its result does not depend on that of [elua_net_send]. *)
Definition std_write {conf : NetConf} (n : net) (fd : Z) (buf : mem) (len : Z) : option (Z + option (Z + net)) :=
  if negb (fd =? DM_STDOUT_NUM) && negb (fd =? DM_STDERR_NUM) then Some (inl EINVAL)
  else
    sock ← elua_net_get_telnet_socket n;
    if sock =? -1 then Some (inr None) else r ← elua_net_send n sock buf (s16 len); Some (inr (Some r)).
End Tcp.

(** ** A line from the serial line *)

(** What a key does to the line [t]. *)
Definition is_erase (x : Z) : bool := (x =? CON_BS) || (x =? CON_DEL).

Definition key (t : mem) (x : Z) : mem := if is_erase x then take (length t - 1) t else if isprint x then t ++ [x] else t.

Definition edit (t keys : mem) : mem := foldl key t keys.

(** A key that does not end the line. *)
Definition key_ok (x : Z) : Prop := x ≠ -1 ∧ x ≠ STD_CTRLZ_CODE ∧ x ≠ NET_CR ∧ x ≠ NET_LF.

Definition key_echo (t : mem) (x : Z) : mem :=
  if is_erase x then (if bool_decide (t = []) then [] else [CON_BS; 32; CON_BS]) else if isprint x then [x] else [].

Fixpoint echo (t keys : mem) : mem :=
  match keys with
  | [] => []
  | x :: keys => key_echo t x ++ echo (key t x) keys
  end.

(** A terminal: what is written on its line, and its cursor. *)
Definition terminal (t : mem * nat) (x : Z) : mem * nat :=
  if x =? CON_BS then (t.1, (t.2 - 1)%nat) else (take t.2 t.1 ++ x :: drop (S t.2) t.1, S t.2).

(** Left of the cursor it shows the line. *)
Definition shows (t : mem * nat) (line : mem) : Prop := take t.2 t.1 = line ∧ t.2 = length line.

Lemma terminal_put t line x : shows t line → x ≠ CON_BS → shows (terminal t x) (line ++ [x]).
Proof.
  intros [H1 H2] Hx. unfold terminal. rewrite (proj2 (Z.eqb_neq x CON_BS)) by done. unfold shows. cbn [fst snd]. rewrite H1, H2, length_app.
  split; [|cbn; lia]. replace (S (length line)) with (length line + 1)%nat by lia. by rewrite take_app_add.
Qed.

Lemma terminal_erase t line : shows t line → line ≠ [] → shows (foldl terminal t [CON_BS; 32; CON_BS]) (take (length line - 1) line).
Proof.
  destruct t as [l cur]. intros [H1 H2] Hne. cbn in H1, H2. subst cur. assert (length line ≠ 0%nat) by by destruct line.
  cbn [foldl]. unfold terminal. change (CON_BS =? CON_BS) with true. change (32 =? CON_BS) with false. cbn [fst snd].
  set (n := (length line - 1)%nat). unfold shows. cbn [fst snd]. replace (S n - 1)%nat with n by lia. rewrite length_take. split; [|lia].
  assert (n <= length l)%nat by (apply (f_equal length) in H1; rewrite length_take in H1; lia).
  rewrite take_app_le by (rewrite length_take; lia). rewrite <- H1, !take_take. f_equal. lia.
Qed.

Lemma key_echo_shows t line x : shows t line → shows (foldl terminal t (key_echo line x)) (key line x).
Proof.
  intros H. unfold key, key_echo. destruct (is_erase x) eqn:He.
  - case_bool_decide as Hl; [by subst line|]. by apply terminal_erase.
  - destruct (isprint x) eqn:Hp; [|done]. apply terminal_put; [done|]. intros ->. done.
Qed.

Lemma echo_shows keys : ∀ t line, shows t line → shows (foldl terminal t (echo line keys)) (edit line keys).
Proof.
  induction keys as [|x keys IH]; intros t line H; [done|]. cbn [echo]. rewrite foldl_app. by apply IH, key_echo_shows.
Qed.

Lemma key_size t x : msize (key t x) <= msize t + 1.
Proof.
  unfold key. destruct (is_erase x); [unfold msize; rewrite length_take; lia|]. destruct (isprint x); [|lia]. rewrite msize_app. change (msize [x]) with 1. lia.
Qed.

(** The object holds the line. *)
Definition holds (m : mem) (t : mem) : Prop := bytes_at m 0 t.

Lemma holds_put m t x : holds m t → msize t < msize m → byte_ok x → ∃ m', st m (msize t) x = Some m' ∧ holds m' (t ++ [x]) ∧ msize m' = msize m.
Proof.
  intros Ht Hm Hx. pose proof (msize_nonneg t). destruct (mwrite_is_Some m (msize t) [x]) as [m' E]; [lia|change (msize [x]) with 1; lia|].
  exists m'. rewrite st_mwrite, u8_id by done. split; [done|]. split; [|by eapply mwrite_msize].
  apply bytes_at_app. split; [|by apply (bytes_at_mwrite m)]. unfold holds, bytes_at in *. rewrite <- Ht.
  apply (mread_mwrite_disjoint _ _ _ _ 0 (msize t) E). left. lia.
Qed.

Lemma holds_take m t n : holds m t → holds m (take n t).
Proof. intros H. unfold holds in *. rewrite <- (take_drop n t) in H. by apply bytes_at_app in H as [? _]. Qed.

Lemma isprint_range x : isprint x = true → 32 <= x <= 126.
Proof. unfold isprint. lia. Qed.

(** One key. *)
Lemma std_read_key fuel c m t x rest len :
  std_prev_char c = -1 → inp c = x :: rest → key_ok x → holds m t → msize t < len → len <= msize m →
  ∃ m', std_read_loop (S fuel) c m (msize t) len =
    std_read_loop fuel (Con (funcs c) (-1) rest (outp c ++ key_echo t x) (con_errno c)) m' (msize (key t x)) len ∧ holds m' (key t x) ∧ msize m' = msize m.
Proof.
  intros Hp Hi (H1 & H2 & H3 & H4) Ht Hl Hm. cbn [std_read_loop]. rewrite (proj2 (Z.ltb_lt (msize t) len)), Hp, Hi by lia.
  change (-1 =? -1) with true. cbn [negb]. rewrite (proj2 (Z.eqb_neq x (-1))) by done. fold (is_erase x). unfold key, key_echo.
  destruct c as [f p l o e]. cbn in Hp. subst p. destruct (is_erase x) eqn:He.
  - exists m. split; [|split; [by apply holds_take|done]]. case_bool_decide as Hnil.
    + subst t. cbn. by rewrite app_nil_r.
    + pose proof (msize_pos t Hnil). rewrite (proj2 (Z.ltb_lt 0 _)) by lia. unfold std_send_char. cbn [funcs std_prev_char inp outp con_errno set_inp].
      rewrite <- !app_assoc. do 2 f_equal. unfold msize in *. rewrite length_take. lia.
  - rewrite (proj2 (Z.eqb_neq x NET_LF)), (proj2 (Z.eqb_neq x NET_CR)), (proj2 (Z.eqb_neq x STD_CTRLZ_CODE)) by done. cbn [negb]. rewrite !andb_true_r.
    destruct (isprint x) eqn:Hpr; cbn [negb].
    + pose proof (isprint_range x Hpr). destruct (holds_put m t x Ht) as (m' & -> & Hm' & Hs); [lia|unfold byte_ok; lia|].
      exists m'. cbn [orb mbind option_bind]. rewrite msize_app. done.
    + exists m. split; [|done]. unfold set_inp. cbn. by rewrite app_nil_r.
Qed.

Lemma std_read_keys keys : ∀ fuel c m t rest len,
  std_prev_char c = -1 → inp c = keys ++ rest → Forall key_ok keys → holds m t → msize t + msize keys < len → len <= msize m →
  ∃ m', std_read_loop (length keys + fuel) c m (msize t) len =
    std_read_loop fuel (Con (funcs c) (-1) rest (outp c ++ echo t keys) (con_errno c)) m' (msize (edit t keys)) len ∧
    holds m' (edit t keys) ∧ msize (edit t keys) < len ∧ msize m' = msize m.
Proof.
  induction keys as [|x keys IH]; intros fuel c m t rest len Hp Hi Hok Ht Hl Hm.
  - exists m. cbn in *. rewrite app_nil_r, <- Hi, <- Hp. destruct c. change (msize []) with 0 in Hl. split_and!; [done|done|lia|done].
  - apply Forall_cons in Hok as [Hx Hok]. rewrite msize_cons in Hl. pose proof (msize_nonneg keys).
    cbn [length Nat.add]. destruct (std_read_key (length keys + fuel) c m t x (keys ++ rest) len Hp Hi Hx Ht) as (m1 & -> & H1 & Hs); [lia|done|].
    pose proof (key_size t x). destruct (IH fuel (Con (funcs c) (-1) (keys ++ rest) (outp c ++ key_echo t x) (con_errno c)) m1 (key t x) rest len) as (m2 & E & H2 & Hsz & Hs2);
      [done|done|done|done|lia|lia|].
    exists m2. rewrite E. cbn [funcs outp con_errno echo]. rewrite <- app_assoc. split_and!; [done|done|done|congruence].
Qed.

(** The character that ends the line. *)
Lemma std_read_eol fuel c m t eol y rest len :
  std_prev_char c = -1 → inp c = eol :: y :: rest → eol = NET_CR ∨ eol = NET_LF → holds m t → msize t < len → len <= msize m →
  ∃ m', std_read_loop (S fuel) c m (msize t) len =
    Some (Con (funcs c) (if y + eol =? NET_CR + NET_LF then -1 else y) rest (outp c ++ [eol; NET_CR + NET_LF - eol]) (con_errno c), m', Some (msize t + 1)) ∧
    holds m' (t ++ [NET_LF]).
Proof.
  intros Hp Hi He Ht Hl Hm. cbn [std_read_loop]. rewrite (proj2 (Z.ltb_lt (msize t) len)), Hp, Hi by lia. change (-1 =? -1) with true. cbn [negb].
  destruct (holds_put m t NET_LF Ht) as (m' & E & Hm' & _); [lia|done|]. exists m'. split; [|done].
  assert (∀ c0, (let c1 := std_send_char (set_inp c (y :: rest)) eol in match inp c1 with
      | [] => Some (c1, m, None)
      | y :: rest => let c2 := set_prev (set_inp c1 rest) (if y + eol =? NET_CR + NET_LF then -1 else y) in
          let c3 := std_send_char c2 (NET_CR + NET_LF - eol) in m ← st m (msize t) NET_LF; Some (c3, m, Some (msize t + 1)) end) = c0 →
      c0 = Some (Con (funcs c) (if y + eol =? NET_CR + NET_LF then -1 else y) rest (outp c ++ [eol; NET_CR + NET_LF - eol]) (con_errno c), m', Some (msize t + 1))) as Hend.
  { intros c0 <-. cbn [inp std_send_char set_inp]. rewrite E. cbn [mbind option_bind]. unfold std_send_char, set_prev, set_inp. cbn [funcs std_prev_char inp outp con_errno].
    by rewrite <- app_assoc. }
  destruct He as [-> | ->]; by apply Hend.
Qed.

(** Reading a line from a serial line: the reader gets the characters before the line end that were not erased, then
    a line feed, whichever way the line ends (carriage return, line feed, or a pair of them); other control characters
    are ignored. The echo leaves the terminal showing that text, and a character that came right after the line
    end begins the next line. *)
Theorem console_reads_line c m len keys eol y rest :
  funcs c = true → inp c = keys ++ eol :: y :: rest → Forall key_ok keys → eol = NET_CR ∨ eol = NET_LF →
  std_prev_char c = -1 ∨ byte_ok (std_prev_char c) → 1 + msize keys < len <= msize m →
  let start := if std_prev_char c =? -1 then [] else [std_prev_char c] in
  let text := edit start keys in
  ∃ c' m' shown, std_read c DM_STDIN_NUM m len = Some (c', m', Some (msize text + 1)) ∧ bytes_at m' 0 (text ++ [NET_LF]) ∧
    inp c' = rest ∧ std_prev_char c' = (if y + eol =? NET_CR + NET_LF then -1 else y) ∧
    outp c' = outp c ++ shown ++ [eol; NET_CR + NET_LF - eol] ∧ (∀ t, shows t start → shows (foldl terminal t shown) text).
Proof.
  intros Hf Hi Hok He Hprev Hl start text. unfold std_read. rewrite Hf. cbn [negb]. change ((DM_STDIN_NUM <? DM_STDIN_NUM) || (DM_STDERR_NUM <? DM_STDIN_NUM)) with false.
  change (DM_STDIN_NUM =? DM_STDIN_NUM) with true. cbn [negb]. pose proof (msize_nonneg keys).
  assert (∃ fuel m1, std_read_loop (S (S (length (inp c)))) c m 0 len = std_read_loop (length keys + S fuel) (set_prev c (-1)) m1 (msize start) len ∧
    holds m1 start ∧ msize m1 = msize m) as (fuel & m1 & -> & H1 & Hs1).
  { rewrite Hi, length_app. cbn [length]. unfold start. destruct (Z.eqb_spec (std_prev_char c) (-1)) as [Hp|Hp].
    - exists (S (S (S (length rest)))), m. split; [|split; [|done]].
      + replace (set_prev c (-1)) with c by (destruct c; cbn in *; by subst). f_equal. lia.
      + exact (bytes_at_prefix m [] [] m eq_refl).
    - destruct Hprev as [?|Hb]; [done|]. destruct (holds_put m [] (std_prev_char c)) as (m1 & E & Hm1 & Hs1); [exact (bytes_at_prefix m [] [] m eq_refl)|change (msize []) with 0; lia|done|].
      exists (S (S (length rest))), m1. split; [|done]. remember (S (length keys + S (S (length rest)))) as f eqn:Ef. cbn [std_read_loop].
      rewrite (proj2 (Z.ltb_lt 0 len)), (proj2 (Z.eqb_neq _ _)) by (done || lia). cbn [negb]. change (msize []) with 0 in E. rewrite E. cbn [mbind option_bind].
      f_equal. lia. }
  assert (msize start <= 1) as Hss by (unfold start; by destruct (_ =? _)).
  destruct (std_read_keys keys (S fuel) (set_prev c (-1)) m1 start (eol :: y :: rest) len eq_refl Hi Hok H1) as (m2 & -> & H2 & Hsz & Hs2); [lia|lia|]. fold text in H2, Hsz.
  destruct (std_read_eol fuel (Con (funcs (set_prev c (-1))) (-1) (eol :: y :: rest) (outp (set_prev c (-1)) ++ echo start keys) (con_errno (set_prev c (-1)))) m2 text eol y rest len)
    as (m3 & E & H3); [done|done|done|done|done|lia|].
  fold text. rewrite E. eexists _, m3, (echo start keys). split; [reflexivity|]. split; [done|]. split; [done|]. split; [done|]. split; [by rewrite app_assoc|].
  intros t Ht. by apply echo_shows.
Qed.

(** "ab", erased to "a", then "c" and a return with its line feed. *)
Lemma console_reads_line_witness :
  let c := Con true (-1) ([97; 98; 8; 99] ++ 13 :: 10 :: []) [] 0 in let m := replicate 8 0 in
  ∃ c' m' shown, std_read c DM_STDIN_NUM m 8 = Some (c', m', Some 3) ∧ bytes_at m' 0 [97; 99; NET_LF] ∧ inp c' = [] ∧ std_prev_char c' = -1 ∧
    outp c' = shown ++ [13; 10] ∧ (∀ t, shows t [] → shows (foldl terminal t shown) [97; 99]).
Proof.
  intros c m. destruct (console_reads_line c m 8 [97; 98; 8; 99] 13 10 []) as (c' & m' & shown & H1 & H2 & H3 & H4 & H5 & H6);
    [reflexivity|reflexivity| |by left|by left|vm_compute; split; congruence|by exists c', m', shown].
  repeat constructor; done.
Defined.

(** A second return within the time that is waited for a pair is a character of the next line, not its end. *)
Example console_second_return :
  let c := Con true (-1) [97; NET_CR; NET_CR; 98; NET_CR; NET_LF] [] 0 in
  ('(c1, m1, r1) ← std_read c DM_STDIN_NUM (replicate 8 0) 8; '(c2, m2, r2) ← std_read c1 DM_STDIN_NUM m1 8; Some (r1, r2, take 3 m2)) =
    Some (Some 2, Some 3, [NET_CR; 98; NET_LF]).
Proof. vm_compute. reflexivity. Qed.

(** Writing: both consoles send a carriage return before each line feed. *)
Lemma std_write_loop_output data : ∀ c m i post, 0 <= i → drop (Z.to_nat i) m = data ++ post →
  std_write_loop (length data) c m i = Some (Con (funcs c) (std_prev_char c) (inp c) (outp c ++ telnet_expand data) (con_errno c)).
Proof.
  induction data as [|x data IH]; intros c m i post Hi Hd.
  - cbn. rewrite app_nil_r. by destruct c.
  - cbn [length std_write_loop]. assert (ld m i = Some x) as ->.
    { apply ld_Some_iff. split; [done|]. by rewrite <- (Nat.add_0_r (Z.to_nat i)), <- lookup_drop, Hd. }
    cbn [mbind option_bind]. rewrite (IH _ m (i + 1) post); [|lia|by rewrite Z2Nat.inj_add, <- drop_drop, Hd by lia].
    change (telnet_expand (x :: data)) with ((if x =? NET_LF then [NET_CR; x] else [x]) ++ telnet_expand data).
    destruct (x =? NET_LF); cbn [funcs std_prev_char inp outp con_errno std_send_char]; by rewrite <- !app_assoc.
Qed.

Lemma std_write_output c data post : funcs c = true →
  std_write c DM_STDOUT_NUM (data ++ post) (msize data) =
    Some (Con (funcs c) (std_prev_char c) (inp c) (outp c ++ telnet_expand data) (con_errno c), msize data).
Proof.
  intros Hf. unfold std_write. rewrite Hf. cbn [negb]. change ((DM_STDOUT_NUM <? DM_STDIN_NUM) || (DM_STDERR_NUM <? DM_STDOUT_NUM)) with false.
  change (negb (DM_STDOUT_NUM =? DM_STDOUT_NUM) && negb (DM_STDOUT_NUM =? DM_STDERR_NUM)) with false. cbv iota.
  assert (Z.to_nat (msize data) = length data) as -> by (unfold msize; lia). by rewrite (std_write_loop_output data c (data ++ post) 0 post), Hf.
Qed.

(** ** A line over TELNET *)
Lemma find_eof_none bs post : Forall (λ c, c ≠ STD_CTRLZ_CODE) bs → Tcp.find_eof (bs ++ post) (msize bs) = Some false.
Proof.
  induction 1 as [|c bs Hc _ IH]; [by destruct post|]. rewrite msize_cons. pose proof (msize_nonneg bs). cbn [Datatypes.app Tcp.find_eof].
  rewrite (proj2 (Z.leb_gt _ _)), (proj2 (Z.eqb_neq c STD_CTRLZ_CODE)) by (done || lia). by replace (1 + msize bs - 1) with (msize bs) by lia.
Qed.

(** The packet ends the line. *)
Definition ends_line (bs : mem) : Prop := ∃ bs', bs = bs' ++ [NET_CR; NET_LF].

Lemma holds_append m acc bs : holds m acc → msize acc + msize bs <= msize m →
  ∃ m' post, mwrite m (msize acc) bs = Some m' ∧ m' = acc ++ bs ++ post ∧ msize m' = msize m.
Proof.
  intros H Hs. pose proof (msize_nonneg acc). destruct (mwrite_is_Some m (msize acc) bs) as [m' E]; [lia|lia|].
  destruct (front_split m acc H) as [rest ->]. exists m', (drop (length bs) rest). split; [done|]. split; [|by eapply mwrite_msize].
  apply mwrite_spec in E as (_ & _ & ->). unfold msize. rewrite Nat2Z.id, take_app_length. f_equal. f_equal. by rewrite drop_app_add.
Qed.

(** One packet without the code of control-Z. *)
Lemma tcp_packet rs m acc bs len :
  holds m acc → Forall (λ c, c ≠ STD_CTRLZ_CODE) bs → msize bs < 32768 → 2 * msize acc + msize bs < len → len < 4294967296 → len - msize acc <= msize m - msize acc →
  ∃ m' post, m' = acc ++ bs ++ post ∧ msize m' = msize m ∧ ∃ final, (final = true ↔ ends_line bs) ∧
    Tcp.read_loop (Some bs :: rs) m (msize acc) (len - msize acc) (msize acc) =
      if final : bool then Some (m', Some (msize (acc ++ bs))) else Tcp.read_loop rs m' (msize (acc ++ bs)) (len - msize (acc ++ bs)) (msize (acc ++ bs)).
Proof.
  intros Hh Hz Hb Hl Hlen Hm. pose proof (msize_nonneg acc). pose proof (msize_nonneg bs). destruct (holds_append m acc bs Hh) as (m' & post & E & Em & Hs); [lia|].
  exists m', post. split; [done|]. split; [done|]. cbn [Tcp.read_loop]. rewrite E. cbn [mbind option_bind]. rewrite s16_id by lia.
  assert (drop (Z.to_nat (msize acc)) m' = bs ++ post) as -> by (rewrite Em; unfold msize; rewrite Nat2Z.id; by apply drop_app_length).
  rewrite (u32_id (msize bs)), (find_eof_none bs post) by (done || lia). cbn [mbind option_bind]. rewrite (u32_id (msize acc + msize bs)), (proj2 (Z.leb_gt _ _)), msize_app by lia.
  rewrite (u32_id (len - msize acc - msize bs)) by lia. replace (len - msize acc - msize bs) with (len - (msize acc + msize bs)) by lia.
  destruct (Z.leb_spec 2 (msize bs)) as [H2|H2].
  - assert (∃ bs' x y, bs = bs' ++ [x; y]) as (bs' & x & y & ->).
    { destruct (exists_last (l:=bs)) as (l & y & ->); [by intros ->|]. destruct (exists_last (l:=l)) as (l' & x & ->); [by intros ->|].
      exists l', x, y. by rewrite <- app_assoc. }
    assert (ld m' (msize acc + msize (bs' ++ [x; y]) - 2) = Some x) as ->.
    { rewrite Em, <- app_assoc, app_assoc. apply ld_middle. rewrite !msize_app. change (msize [x; y]) with 2. lia. }
    assert (ld m' (msize acc + msize (bs' ++ [x; y]) - 1) = Some y) as ->.
    { rewrite Em. replace (acc ++ (bs' ++ [x; y]) ++ post) with ((acc ++ bs' ++ [x]) ++ y :: post) by by rewrite <- !app_assoc.
      apply ld_middle. rewrite !msize_app. change (msize [x; y]) with 2. change (msize [x]) with 1. lia. }
    exists ((x =? NET_CR) && (y =? NET_LF)). split.
    + rewrite andb_true_iff, !Z.eqb_eq. split; [intros [-> ->]; by exists bs'|]. intros (b & Eb). by apply app_inj_2 in Eb as [_ [= -> ->]].
    + cbn [mbind option_bind]. by destruct ((x =? NET_CR) && (y =? NET_LF)).
  - exists false. split; [|done]. split; [done|]. intros (b & ->). rewrite msize_app in H2. change (msize [NET_CR; NET_LF]) with 2 in H2. pose proof (msize_nonneg b). lia.
Qed.

(** A line that comes in packets, as far as it takes less than half of the room (see [tcp_line_cut]): the
    reader gets the whole line. *)
Lemma tcp_reads_line pkts : ∀ m acc last rest len,
  holds m acc → Forall (λ bs, Forall (λ c, c ≠ STD_CTRLZ_CODE) bs ∧ msize bs < 32768 ∧ ¬ ends_line bs) pkts →
  Forall (λ c, c ≠ STD_CTRLZ_CODE) last → msize last < 32768 → ends_line last →
  let line := acc ++ concat pkts ++ last in 2 * msize line < len + msize last → len <= msize m → len < 4294967296 →
  ∃ m', Tcp.read_loop ((Some <$> pkts) ++ Some last :: rest) m (msize acc) (len - msize acc) (msize acc) = Some (m', Some (msize line)) ∧ holds m' line.
Proof.
  induction pkts as [|bs pkts IH]; intros m acc last rest len Hh Hp Hz Hl32 He line Hl Hm H32.
  - cbn [concat Datatypes.app fmap list_fmap] in *. unfold line in *. rewrite msize_app in Hl.
    destruct (tcp_packet rest m acc last len Hh Hz Hl32) as (m' & post & -> & Hs & fin & Hf & E); [lia|lia|lia|].
    rewrite (proj2 Hf He) in E. exists (acc ++ last ++ post). split; [exact E|]. rewrite app_assoc. exact (bytes_at_prefix _ [] _ post eq_refl).
  - apply Forall_cons in Hp as [(Hb1 & Hb2 & Hb3) Hp]. unfold line in *. cbn [concat] in *. rewrite !msize_app in Hl.
    pose proof (msize_nonneg bs). pose proof (msize_nonneg last). pose proof (msize_nonneg acc). pose proof (msize_nonneg (concat pkts)).
    destruct (tcp_packet ((Some <$> pkts) ++ Some last :: rest) m acc bs len Hh Hb1 Hb2) as (m' & post & -> & Hs & fin & Hf & E); [lia|lia|lia|].
    destruct fin; [by destruct Hb3; apply Hf|]. cbn [fmap list_fmap Datatypes.app]. rewrite E.
    destruct (IH (acc ++ bs ++ post) (acc ++ bs) last rest len) as (m2 & E2 & Hm2); [|done|done|done|done|rewrite !msize_app; lia|lia|done|].
    + rewrite app_assoc. exact (bytes_at_prefix _ [] _ post eq_refl).
    + exists m2. rewrite <- !app_assoc in *. done.
Qed.

(** [actsize] is compared with the room that is left: of a longer line, the result counts only a part. *)
Example tcp_line_cut :
  Tcp.read_loop [Some (txt "abcdef"); Some (txt "gh" ++ [NET_CR; NET_LF])] (replicate 10 0) 0 10 0 =
    Some (txt "abcdefgh" ++ [NET_CR; NET_LF], Some 4).
Proof. vm_compute. reflexivity. Qed.

(** When the client has gone, the search for the end of the file runs out of the object. *)
Lemma tcp_error_reads_outside rs m lptr len actsize :
  Forall (λ c, c ≠ STD_CTRLZ_CODE) m → msize m < 4294967295 → Tcp.read_loop (None :: rs) m lptr len actsize = None.
Proof.
  intros Hz Hm. cbn [Tcp.read_loop mbind option_bind]. change (u32 (-1)) with 4294967295.
  assert (∀ l n, Forall (λ c, c ≠ STD_CTRLZ_CODE) l → msize l < n → Tcp.find_eof l n = None) as Hf.
  { induction l as [|c l IH]; intros n Hl Hn; [change (msize []) with 0 in Hn|rewrite msize_cons in Hn; apply Forall_cons in Hl as [Hc Hl]; pose proof (msize_nonneg l)];
      cbn [Tcp.find_eof]; rewrite (proj2 (Z.leb_gt _ _)) by lia; [done|]. rewrite (proj2 (Z.eqb_neq c _)) by done. apply IH; [done|lia]. }
  rewrite Hf; [done|by apply Forall_drop|]. unfold msize in *. rewrite length_drop. lia.
Qed.
