(* ===== verification/Rotable.v ===== *)
(** * Read-only tables of the Lua fork: src/lua/lrotable.c and its callers in src/lua/ltable.c

    A table is the list of its entries; what ends it in the source, an entry with a nil key, is the end of the list.
    A key that is a string is given without its final 0. The values are a parameter. *)
From S2P Require Import Prelude.

Definition LUA_MAX_ROTABLE_NAME : Z := 32.

Inductive luaR_key := KStr (s : mem) | KNum (n : Z).

#[export] Instance luaR_key_eq_dec : EqDecision luaR_key.
Proof. solve_decision. Defined.

(** A key of the interpreter: a [TString] may have any bytes; a number that is an integer. *)
Inductive lkey := LNil | LStr (s : mem) | LNum (n : Z) | LOther.

Section rotable.
Context {V : Type}.

(** The comparison of [luaR_auxfind]: [strkey] as a pointer. *)
Definition key_matches (k : luaR_key) (strkey : option mem) (numkey : Z) : bool :=
  match strkey, k with
  | Some s, KStr s' => bool_decide (s' = s)
  | None, KNum n => n =? numkey
  | _, _ => false
  end.

(** The value and its position. *)
Fixpoint luaR_auxfind (t : list (luaR_key * V)) (strkey : option mem) (numkey i : Z) : option (V * Z) :=
  match t with
  | [] => None
  | (k, v) :: t => if key_matches k strkey numkey then Some (v, i) else luaR_auxfind t strkey numkey (i + 1)
  end.

Definition luaR_findentry (data : option (list (luaR_key * V))) (strkey : option mem) (numkey : Z) : option (V * Z) :=
  match data with None => None | Some t => luaR_auxfind t strkey numkey 0 end.

(** [luaR_getcstr] into an array of [maxsize] + 1 characters, read as a C string: [memcpy] copies up to the length, and
    what is read ends at the first 0. *)
Definition cstring (s : mem) : mem := match cstr (s ++ [0]) with Some l => l | None => s end.

Definition luaR_getcstr (src : mem) (maxsize : Z) : mem := if maxsize <? msize src + 1 then [] else cstring src.

(** The key and value at a position: behind the table there is nothing to read. *)
Definition luaR_next_helper (t : list (luaR_key * V)) (pos : Z) : option (lkey * option V) :=
  if (pos <? 0) || (Z.of_nat (length t) <? pos) then None
  else
    match t !! Z.to_nat pos with
    | Some (KStr s, v) => Some (LStr s, Some v)
    | Some (KNum n, v) => Some (LNum n, Some v)
    | None => Some (LNil, None)
    end.

(** When the key is not found, the position is not set and what is read is undefined; other keys leave the arguments
    as they are ([val]). *)
Definition luaR_next (t : list (luaR_key * V)) (key : lkey) (val : option V) : option (lkey * option V) :=
  match key with
  | LNil => luaR_next_helper t 0
  | LStr s => '(_, keypos) ← luaR_findentry (Some t) (Some (luaR_getcstr s LUA_MAX_ROTABLE_NAME)) 0; luaR_next_helper t (u32 (keypos + 1))
  | LNum n => '(_, keypos) ← luaR_findentry (Some t) None (s32 n); luaR_next_helper t (u32 (keypos + 1))
  | LOther => Some (key, val)
  end.

(** [luaH_get_ro] and the functions it calls: [None] is nil. *)
Definition luaH_getnum_ro (t : option (list (luaR_key * V))) (key : Z) : option V := fst <$> luaR_findentry t None key.

Definition luaH_getstr_ro (t : option (list (luaR_key * V))) (key : mem) : option V :=
  match t with
  | None => None
  | Some t => fst <$> luaR_findentry (Some t) (Some (luaR_getcstr key LUA_MAX_ROTABLE_NAME)) 0
  end.

Definition luaH_get_ro (t : option (list (luaR_key * V))) (key : lkey) : option V :=
  match key with
  | LNil | LOther => None
  | LStr s => luaH_getstr_ro t s
  | LNum n => if s32 n =? n then luaH_getnum_ro t (s32 n) else None
  end.

(** [luaH_getn_ro]: [i] is the next index, [len] the count. *)
Fixpoint getn_loop (fuel : nat) (t : option (list (luaR_key * V))) (i len : Z) : option Z :=
  match fuel with
  | O => None
  | S fuel => match luaR_findentry t None i with Some _ => getn_loop fuel t (i + 1) (len + 1) | None => Some len end
  end.

Definition luaH_getn_ro (t : option (list (luaR_key * V))) : option Z :=
  getn_loop (S (match t with Some t => length t | None => 0%nat end)) t 1 0.

(** The result is whether the key is not nil. *)
Definition luaH_next_ro (t : list (luaR_key * V)) (key : lkey) (val : option V) : option (bool * lkey * option V) :=
  '(key, val) ← luaR_next t key val; Some (match key with LNil => false | _ => true end, key, val).

(** A caller's loop over a table: [luaH_next_ro] from the key nil until there are no more elements. *)
Fixpoint traverse (fuel : nat) (t : list (luaR_key * V)) (key : lkey) (val : option V) : option (list (lkey * option V)) :=
  match fuel with
  | O => None
  | S fuel =>
      '(more, key, val) ← luaH_next_ro t key val;
      if (more : bool) then l ← traverse fuel t key val; Some ((key, val) :: l) else Some []
  end.

(** ** The table as a finite map *)

(** The keys that a table may have. *)
Definition key_ok (k : luaR_key) : Prop :=
  match k with
  | KStr s => Forall (λ c, c ≠ 0) s ∧ msize s < LUA_MAX_ROTABLE_NAME
  | KNum n => -2147483648 <= n < 2147483648
  end.

Definition table_ok (t : list (luaR_key * V)) : Prop := Forall (λ e, key_ok e.1) t ∧ NoDup t.*1 ∧ Z.of_nat (length t) < 4294967295.

Definition of_key (k : luaR_key) : lkey := match k with KStr s => LStr s | KNum n => LNum n end.

(** The first entry with a key. *)
Fixpoint assoc (t : list (luaR_key * V)) (k : luaR_key) : option V :=
  match t with
  | [] => None
  | (k', v) :: t => if decide (k' = k) then Some v else assoc t k
  end.

Lemma getcstr_ok s : Forall (λ c, c ≠ 0) s → msize s < LUA_MAX_ROTABLE_NAME → luaR_getcstr s LUA_MAX_ROTABLE_NAME = s.
Proof. intros Hs Hl. unfold luaR_getcstr. rewrite (proj2 (Z.ltb_ge _ _)) by lia. unfold cstring. by rewrite cstr_app. Qed.

(** What the arguments of [luaR_findentry] ask for. *)
Definition asked (strkey : option mem) (numkey : Z) : luaR_key := match strkey with Some s => KStr s | None => KNum numkey end.

Lemma key_matches_eq k strkey numkey : key_matches k strkey numkey = bool_decide (k = asked strkey numkey).
Proof.
  destruct strkey, k; cbn; try done.
  - apply bool_decide_ext. split; [by intros ->|by intros [=]].
  - destruct (Z.eqb_spec n numkey) as [->|]; [by rewrite bool_decide_eq_true_2|]. rewrite bool_decide_eq_false_2; [done|by intros [=]].
Qed.

Lemma auxfind_assoc t strkey numkey : ∀ i, fst <$> luaR_auxfind t strkey numkey i = assoc t (asked strkey numkey).
Proof.
  induction t as [|[k v] t IH]; intros i; [done|]. cbn [luaR_auxfind assoc]. rewrite key_matches_eq. case_bool_decide; [by rewrite decide_True|]. by rewrite decide_False.
Qed.

(** A lookup finds the entry with the key. *)
Lemma get_ro_assoc t k : key_ok k → luaH_get_ro (Some t) (of_key k) = assoc t k.
Proof.
  intros Hk. destruct k as [s|n]; cbn [of_key luaH_get_ro].
  - destruct Hk as [Hs Hl]. unfold luaH_getstr_ro, luaR_findentry. by rewrite getcstr_ok, auxfind_assoc.
  - cbn in Hk. rewrite s32_id, Z.eqb_refl by lia. unfold luaH_getnum_ro, luaR_findentry. by rewrite auxfind_assoc.
Qed.

(** With distinct keys, a key of the table is found at its position. *)
Lemma auxfind_at t : ∀ (i : nat) k v j strkey numkey,
  NoDup t.*1 → t !! i = Some (k, v) → k = asked strkey numkey → luaR_auxfind t strkey numkey j = Some (v, j + Z.of_nat i).
Proof.
  induction t as [|[k' v'] t IH]; intros i k v j strkey numkey Hnd Hi Hk; [done|]. apply NoDup_cons in Hnd as [Hni Hnd]. cbn [luaR_auxfind].
  rewrite key_matches_eq. destruct i as [|i].
  - injection Hi as -> ->. rewrite bool_decide_eq_true_2 by done. by rewrite Z.add_0_r.
  - cbn in Hi. rewrite bool_decide_eq_false_2.
    + rewrite (IH i k v (j + 1) _ _ Hnd Hi Hk). do 2 f_equal. lia.
    + intros E. apply Hni. cbn. rewrite E, <- Hk. apply (list_elem_of_fmap_2 fst t (k, v)). by eapply list_elem_of_lookup_2.
Qed.

Lemma next_helper_at t (i : nat) : (i <= length t)%nat →
  luaR_next_helper t (Z.of_nat i) = Some (match t !! i with Some (k, v) => (of_key k, Some v) | None => (LNil, None) end).
Proof.
  intros Hi. unfold luaR_next_helper. rewrite (proj2 (Z.ltb_ge _ 0)), (proj2 (Z.ltb_ge _ _)), Nat2Z.id by lia.
  cbn [orb]. destruct (t !! i) as [[k v]|]; [by destruct k|done].
Qed.

Lemma next_at t (i : nat) k v val : table_ok t → t !! i = Some (k, v) →
  luaR_next t (of_key k) val = Some (match t !! S i with Some (k, v) => (of_key k, Some v) | None => (LNil, None) end).
Proof.
  intros (Hok & Hnd & Hl) Hi. pose proof (lookup_lt_Some _ _ _ Hi) as Hlt.
  assert (key_ok k) as Hk by exact (proj1 (Forall_lookup _ _) Hok i (k, v) Hi).
  assert (luaR_next t (of_key k) val = luaR_next_helper t (u32 (Z.of_nat i + 1))) as ->.
  { destruct k as [s|n]; cbn [of_key luaR_next luaR_findentry].
    - destruct Hk as [Hs Hm]. rewrite getcstr_ok, (auxfind_at t i (KStr s) v 0) by done. reflexivity.
    - cbn in Hk. rewrite s32_id, (auxfind_at t i (KNum n) v 0) by (done || lia). reflexivity. }
  rewrite u32_id by lia. replace (Z.of_nat i + 1) with (Z.of_nat (S i)) by lia. apply next_helper_at. lia.
Qed.

Lemma traverse_from t : table_ok t → ∀ (n i : nat) k v val, t !! i = Some (k, v) → (length t - i <= n)%nat →
  traverse n t (of_key k) val = Some ((λ e : luaR_key * V, (of_key e.1, Some e.2)) <$> drop (S i) t).
Proof.
  intros Ht. induction n as [|n IH]; intros i k v val Hi Hn; [apply lookup_lt_Some in Hi; lia|]. cbn [traverse]. unfold luaH_next_ro. rewrite (next_at t i k v val Ht Hi).
  cbn [mbind option_bind]. destruct (t !! S i) as [[k' v']|] eqn:Hs.
  - rewrite (drop_S _ _ _ Hs). cbn [fmap list_fmap fst snd]. pose proof (IH (S i) k' v' (Some v') Hs ltac:(lia)) as E. destruct k'; cbn [of_key mbind option_bind] in *; by rewrite E.
  - apply lookup_ge_None in Hs. by rewrite drop_ge by lia.
Qed.

Lemma getn_loop_count t (n : nat) : ∀ m i len, (m < n)%nat → (∀ j : nat, (j < m)%nat → is_Some (luaR_findentry t None (i + Z.of_nat j))) →
  luaR_findentry t None (i + Z.of_nat m) = None → getn_loop n t i len = Some (len + Z.of_nat m).
Proof.
  induction n as [|n IH]; intros m i len Hm Hin Hout; [lia|]. cbn [getn_loop]. destruct m as [|m].
  - rewrite Z.add_0_r in Hout. rewrite Hout. by rewrite Z.add_0_r.
  - destruct (Hin 0%nat) as [x Hx]; [lia|]. rewrite Z.add_0_r in Hx. rewrite Hx.
    rewrite (IH m (i + 1) (len + 1)); [f_equal; lia|lia| |].
    + intros j Hj. replace (i + 1 + Z.of_nat j) with (i + Z.of_nat (S j)) by lia. apply Hin. lia.
    + by replace (i + 1 + Z.of_nat m) with (i + Z.of_nat (S m)) by lia.
Qed.

(** An index that is found is a key. *)
Lemma findentry_key t i : is_Some (luaR_findentry (Some t) None i) → KNum i ∈ t.*1.
Proof.
  cbn. generalize 0. induction t as [|[k v] t IH]; intros j; cbn [luaR_auxfind]; [by intros []|]. rewrite key_matches_eq.
  rewrite fmap_cons, elem_of_cons. cbn [fst]. case_bool_decide as Hk; [intros _; left; by rewrite Hk|]. intros H. right. by apply (IH (j + 1)).
Qed.
(** The first index that is not in the table. *)
Lemma first_gap t : ∃ n : nat, (n <= length t)%nat ∧ luaR_findentry (Some t) None (1 + Z.of_nat n) = None ∧
  ∀ j : nat, (j < n)%nat → is_Some (luaR_findentry (Some t) None (1 + Z.of_nat j)).
Proof.
  assert (∀ m : nat, (∃ n : nat, (n < m)%nat ∧ luaR_findentry (Some t) None (1 + Z.of_nat n) = None ∧
      ∀ j : nat, (j < n)%nat → is_Some (luaR_findentry (Some t) None (1 + Z.of_nat j))) ∨
    ∀ j : nat, (j < m)%nat → is_Some (luaR_findentry (Some t) None (1 + Z.of_nat j))) as Hsearch.
  { induction m as [|m [(n & Hn & H)|IH]]; [right; lia|left; exists n; split; [lia|done]|].
    destruct (luaR_findentry (Some t) None (1 + Z.of_nat m)) as [x|] eqn:E; [right|left; exists m; split; [lia|done]].
    intros j Hj. destruct (decide (j = m)) as [->|]; [by exists x|]. apply IH. lia. }
  destruct (Hsearch (S (length t))) as [(n & Hn & H)|H]; [exists n; split; [lia|done]|].
  assert (length ((λ j : nat, KNum (1 + Z.of_nat j)) <$> seq 0 (S (length t))) <= length t.*1)%nat as Hlen.
  { apply NoDup_incl_length.
    - apply NoDup_ListNoDup, NoDup_fmap_2; [|apply NoDup_seq]. intros x y [= E]. lia.
    - intros k Hk. apply list_elem_of_In, list_elem_of_fmap in Hk as (j & -> & Hj). apply elem_of_seq in Hj. apply list_elem_of_In, findentry_key, H. lia. }
  rewrite !length_fmap, length_seq in Hlen. lia.
Qed.
End rotable.

(** A table whose keys are distinct and fit the buffers: the interpreter's loop ends and visits each entry once, in
    order; each key it visits looks up the entry's value; and the length is the number of the indices from 1 on that the
    table has without a gap (the computation of it ends, for any table). *)
Theorem rotable_traversed {V} (t : list (luaR_key * V)) : table_ok t →
  traverse (S (length t)) t LNil None = Some ((λ e : luaR_key * V, (of_key e.1, Some e.2)) <$> t) ∧
  (∀ k v, (k, v) ∈ t → luaH_get_ro (Some t) (of_key k) = Some v) ∧
  ∃ n : nat, luaH_getn_ro (Some t) = Some (Z.of_nat n) ∧ (∀ j, 1 <= j <= Z.of_nat n → KNum j ∈ t.*1) ∧ luaR_findentry (Some t) None (Z.of_nat n + 1) = None.
Proof.
  intros Ht. pose proof Ht as (Hok & Hnd & Hl). split; [|split].
  - cbn [traverse]. unfold luaH_next_ro. cbn [luaR_next]. pose proof (next_helper_at t 0 ltac:(lia)) as E. change (Z.of_nat 0) with 0 in E. rewrite E. cbn [mbind option_bind].
    destruct t as [|[k v] t']; [done|]. cbn [lookup list_lookup]. pose proof (traverse_from ((k, v) :: t') Ht (length ((k, v) :: t')) 0 k v (Some v) eq_refl ltac:(lia)) as E2.
    destruct k; cbn [of_key mbind option_bind] in *; by rewrite E2.
  - intros k v Hin. apply list_elem_of_lookup in Hin as [i Hi]. rewrite get_ro_assoc by exact (proj1 (Forall_lookup _ _) Hok i (k, v) Hi).
    destruct k as [s|n].
    + pose proof (auxfind_assoc t (Some s) 0 0) as E. cbn [asked] in E. rewrite <- E. by rewrite (auxfind_at t i (KStr s) v 0).
    + pose proof (auxfind_assoc t None n 0) as E. cbn [asked] in E. rewrite <- E. by rewrite (auxfind_at t i (KNum n) v 0).
  - assert (∃ n, (n <= length t)%nat ∧ luaR_findentry (Some t) None (1 + Z.of_nat n) = None ∧ ∀ j : nat, (j < n)%nat → is_Some (luaR_findentry (Some t) None (1 + Z.of_nat j)))
      as (n & Hn & Hout & Hin).
    { by apply first_gap. }
    exists n. unfold luaH_getn_ro. rewrite (getn_loop_count (Some t) (S (length t)) n 1 0) by (done || lia). split; [done|]. split.
    + intros j Hj. apply findentry_key. replace j with (1 + Z.of_nat (Z.to_nat (j - 1))) by lia. apply Hin. lia.
    + by rewrite Z.add_comm.
Qed.

Lemma rotable_traversed_witness :
  let t := [(KStr [112; 105], 1); (KNum 1, 2); (KNum 2, 3)] in
  traverse 4 t LNil None = Some [(LStr [112; 105], Some 1); (LNum 1, Some 2); (LNum 2, Some 3)] ∧
  (∀ k v, (k, v) ∈ t → luaH_get_ro (Some t) (of_key k) = Some v) ∧
  ∃ n : nat, luaH_getn_ro (Some t) = Some (Z.of_nat n) ∧ (∀ j, 1 <= j <= Z.of_nat n → KNum j ∈ t.*1) ∧ luaR_findentry (Some t) None (Z.of_nat n + 1) = None.
Proof.
  intros t. apply (rotable_traversed t). split; [|split; [|done]].
  - repeat (constructor; [cbn; (split; [repeat constructor; done|done]) || lia|]). constructor.
  - apply (bool_decide_eq_true_1 (NoDup _)). by vm_compute.
Defined.

(** A key of the length that [LUA_MAX_ROTABLE_NAME] allows is not found, and the loop over the table goes on at an
    undefined position. *)
Example rotable_long_key :
  let s := replicate 32 97 in let t := [(KStr s, 1)] in
  luaH_get_ro (Some t) (LStr s) = None ∧ traverse 2 t LNil None = None.
Proof. done. Qed.

(** A string with a 0 finds the entry whose key is the part before it. *)
Example rotable_zero_in_key : luaH_get_ro (Some [(KStr [112; 105], 1)]) (LStr [112; 105; 0; 120]) = Some 1.
Proof. done. Qed.
