(* ===== verification/LineEdit.v ===== *)
(** * The line editor: src/linenoise.c on the terminal of src/term.c

    Keys are the codes of inc/term.h. The prompt is a string without its final 0, an entry of the history likewise. A
    call waits for a key when there is no more; the allocator is supposed to have room for the lines of the history.
    The branch without a history (a maximal length of 0) only calls the C library. *)
From S2P Require Import Prelude Psock Net Console.

Definition KC_UP : Z := 256.
Definition KC_DOWN : Z := 257.
Definition KC_LEFT : Z := 258.
Definition KC_RIGHT : Z := 259.
Definition KC_HOME : Z := 260.
Definition KC_END : Z := 261.
Definition KC_ENTER : Z := 264.
Definition KC_BACKSPACE : Z := 266.
Definition KC_CTRL_Z : Z := 268.
Definition KC_CTRL_C : Z := 271.
Definition KC_CTRL_T : Z := 272.
Definition KC_CTRL_U : Z := 273.
Definition KC_CTRL_K : Z := 274.
Definition KC_DEL : Z := 275.

Definition LINENOISE_CTRL_C : Z := -2.
Definition MAX_SEQ_LEN : Z := 16.
Definition LINE_ESC : Z := 27.
Definition LINENOISE_HISTORY_NOT_ENABLED : Z := -2.
Definition LINENOISE_HISTORY_EMPTY : Z := -3.

(** The keys with a case of their own in the loop of [linenoisePrompt], and those it is made for: these and characters. *)
Definition editor_keys : list Z :=
  [KC_ENTER; KC_CTRL_C; KC_CTRL_Z; KC_BACKSPACE; KC_CTRL_T; KC_LEFT; KC_RIGHT; KC_UP; KC_DOWN; KC_DEL; KC_HOME; KC_END; KC_CTRL_U; KC_CTRL_K].

Definition typed (c : Z) : Prop := c ∈ editor_keys ∨ -1 <= c < 256.

#[export] Instance typed_dec c : Decision (typed c).
Proof. unfold typed. apply _. Defined.

(** The digits of [%d]. *)
Fixpoint digits (fuel : nat) (n : Z) : mem :=
  match fuel with
  | O => []
  | S fuel => if n <? 10 then [48 + n] else digits fuel (n / 10) ++ [48 + n mod 10]
  end.

Definition print_int (n : Z) : mem := if n <? 0 then 45 :: digits 10 (- n) else digits 10 n.

(** [snprintf] into [seq]. *)
Definition seq_of (s : mem) : mem := take (Z.to_nat (MAX_SEQ_LEN - 1)) s.

(** The variables of [linenoisePrompt], the history of its component, and what was sent to the terminal. *)
Record editor := Editor { ed_buf : mem; ed_len : Z; ed_pos : Z; ed_hist : list mem; ed_index : Z; ed_out : mem }.

Section editor.
Context (cols : Z) (prompt : mem) (history_max_len : Z) (buflen : Z).

(** ** [refreshLine] *)

(** The loop that shifts the line to the left: [off] is what is added to [buf]. *)
Fixpoint shift_loop (fuel : nat) (off len pos : Z) : option (Z * Z * Z) :=
  match fuel with
  | O => None
  | S fuel => if cols <=? u32 (msize prompt + pos) then shift_loop fuel (off + 1) (u32 (len - 1)) (u32 (pos - 1)) else Some (off, len, pos)
  end.

Fixpoint trunc_loop (fuel : nat) (len : Z) : option Z :=
  match fuel with
  | O => None
  | S fuel => if cols <? u32 (msize prompt + len) then trunc_loop fuel (u32 (len - 1)) else Some len
  end.

Definition refreshLine (buf : mem) (len pos : Z) : option mem :=
  '(off, len, pos) ← shift_loop (S (Z.to_nat pos)) 0 len pos;
  len ← trunc_loop (S (Z.to_nat len)) len;
  text ← mread buf off len;
  Some (seq_of ([LINE_ESC] ++ txt "[0G") ++ prompt ++ text ++ seq_of ([LINE_ESC] ++ txt "[0K")
        ++ seq_of ([LINE_ESC] ++ txt "[0G" ++ [LINE_ESC] ++ txt "[" ++ print_int (s32 (pos + msize prompt)) ++ txt "C")).

(** ** The history *)

Definition push_history (hist : list mem) (x : mem) : list mem :=
  (if Z.of_nat (length hist) =? history_max_len then drop 1 hist else hist) ++ [x].

(** The part of a string before its first line feed. *)
Fixpoint upto_newline (s : mem) : mem :=
  match s with
  | [] => []
  | c :: s => if c =? NET_LF then [] else c :: upto_newline s
  end.

Fixpoint addhistory_loop (fuel : nat) (hist : list mem) (line : mem) (force_empty : bool) : option (list mem) :=
  match fuel with
  | O => None
  | S fuel =>
      let p := upto_newline line in
      let hist := if negb (bool_decide (p = [])) || force_empty then push_history hist p else hist in
      match drop (length p) line with
      | [] => Some hist
      | _ :: line => if bool_decide (line = []) then Some hist else addhistory_loop fuel hist line force_empty
      end
  end.

Definition linenoise_internal_addhistory (hist : list mem) (line : mem) (force_empty : bool) : option (list mem * Z) :=
  if history_max_len =? 0 then Some (hist, 0)
  else hist ← addhistory_loop (S (length line)) hist line force_empty; Some (hist, 1).

Definition linenoise_addhistory (hist : list mem) (line : mem) : option (list mem * Z) := linenoise_internal_addhistory hist line false.

(** [linenoise_savehistory]: the result and what is written to the file when it can be opened. *)
Definition linenoise_savehistory (hist : list mem) (opened : bool) : Z * option mem :=
  if history_max_len =? 0 then (LINENOISE_HISTORY_NOT_ENABLED, None)
  else if bool_decide (hist = []) then (LINENOISE_HISTORY_EMPTY, None)
  else if negb opened then (-1, None)
  else (0, Some (concat ((λ h, h ++ [NET_LF]) <$> hist))).

(** ** The keys *)

Definition ed_refresh (buf : mem) (len pos : Z) (hist : list mem) (index : Z) (out : mem) : option editor :=
  o ← refreshLine buf len pos; Some (Editor buf len pos hist index (out ++ o)).

Definition key_enter (e : editor) (c : Z) : option (editor + editor * Z) :=
  match ed_hist e with
  | [] => None
  | h =>
      let e' := Editor (ed_buf e) (ed_len e) (ed_pos e) (take (length h - 1) h) (ed_index e) (ed_out e) in
      Some (inr (e', if c =? KC_CTRL_C then LINENOISE_CTRL_C else if c =? KC_CTRL_Z then -1 else ed_len e))
  end.

Definition key_backspace (e : editor) : option editor :=
  let '(buf, len, pos) := (ed_buf e, ed_len e, ed_pos e) in
  if (0 <? pos) && (0 <? len) then
    bs ← mread buf pos (len - pos); buf ← mwrite buf (pos - 1) bs;
    buf ← st buf (len - 1) 0;
    ed_refresh buf (len - 1) (pos - 1) (ed_hist e) (ed_index e) (ed_out e)
  else Some e.

Definition key_del (e : editor) : option editor :=
  let '(buf, len, pos) := (ed_buf e, ed_len e, ed_pos e) in
  if (0 <? len) && (pos <? len) then
    bs ← mread buf (pos + 1) (len - pos - 1); buf ← mwrite buf pos bs;
    buf ← st buf (len - 1) 0;
    ed_refresh buf (len - 1) pos (ed_hist e) (ed_index e) (ed_out e)
  else Some e.

Definition key_history (e : editor) (up : bool) : option editor :=
  let n := Z.of_nat (length (ed_hist e)) in
  if 1 <? n then
    let i := n - 1 - ed_index e in
    if (i <? 0) || (n <=? i) then None
    else
      line ← cstr (ed_buf e);
      let hist := <[Z.to_nat i := line]> (ed_hist e) in
      let index := ed_index e + (if up then 1 else -1) in
      if index <? 0 then Some (Editor (ed_buf e) (ed_len e) (ed_pos e) hist 0 (ed_out e))
      else if n <=? index then Some (Editor (ed_buf e) (ed_len e) (ed_pos e) hist (n - 1) (ed_out e))
      else
        h ← hist !! Z.to_nat (n - 1 - index);
        buf ← c_strncpy (ed_buf e) (h ++ [0]) buflen;
        buf ← st buf buflen 0;
        len ← strlen buf;
        ed_refresh buf len len hist index (ed_out e)
  else Some e.

(** Any other key; [isprint] is defined for characters and EOF only. *)
Definition key_char (e : editor) (c : Z) : option editor :=
  let '(buf, len, pos) := (ed_buf e, ed_len e, ed_pos e) in
  if negb ((-1 <=? c) && (c <? 256)) then None
  else if isprint c && (len <? buflen) then
    if len =? pos then
      buf ← st buf pos c;
      buf ← st buf (len + 1) 0;
      if msize prompt + (len + 1) <? cols then Some (Editor buf (len + 1) (pos + 1) (ed_hist e) (ed_index e) (ed_out e ++ [u8 c]))
      else ed_refresh buf (len + 1) (pos + 1) (ed_hist e) (ed_index e) (ed_out e)
    else
      bs ← mread buf pos (len - pos); buf ← mwrite buf (pos + 1) bs;
      buf ← st buf pos c;
      buf ← st buf (len + 1) 0;
      ed_refresh buf (len + 1) (pos + 1) (ed_hist e) (ed_index e) (ed_out e)
  else Some e.

(** One turn of the loop of [linenoisePrompt]: [inr] when it returns. *)
Definition line_key (e : editor) (c : Z) : option (editor + editor * Z) :=
  let '(buf, len, pos, hist, index, out) := (ed_buf e, ed_len e, ed_pos e, ed_hist e, ed_index e, ed_out e) in
  if (c =? KC_ENTER) || (c =? KC_CTRL_C) || (c =? KC_CTRL_Z) then key_enter e c
  else
    inl <$>
    if c =? KC_BACKSPACE then key_backspace e
    else if c =? KC_CTRL_T then Some e
    else if c =? KC_LEFT then if 0 <? pos then ed_refresh buf len (pos - 1) hist index out else Some e
    else if c =? KC_RIGHT then if negb (pos =? len) then ed_refresh buf len (pos + 1) hist index out else Some e
    else if (c =? KC_UP) || (c =? KC_DOWN) then key_history e (c =? KC_UP)
    else if c =? KC_DEL then key_del e
    else if c =? KC_HOME then ed_refresh buf len 0 hist index out
    else if c =? KC_END then ed_refresh buf len len hist index out
    else if c =? KC_CTRL_U then buf ← st buf 0 0; ed_refresh buf 0 0 hist index out
    else if c =? KC_CTRL_K then buf ← st buf pos 0; ed_refresh buf pos pos hist index out
    else key_char e c.

(** The loop: the keys that are left, and the result when it has returned. *)
Fixpoint line_loop (e : editor) (keys : list Z) : option (editor * list Z * option Z) :=
  match keys with
  | [] => Some (e, [], None)
  | c :: keys => r ← line_key e c; match r with inl e => line_loop e keys | inr (e, r) => Some (e, keys, Some r) end
  end.

(** [linenoisePrompt], whose argument [buflen] is one more than the one of the section. *)
Definition linenoisePrompt (buf : mem) (hist : list mem) (out : mem) (keys : list Z) : option (editor * list Z * option Z) :=
  buf ← st buf 0 0;
  '(hist, _) ← linenoise_internal_addhistory hist [] true;
  line_loop (Editor buf 0 0 hist 0 (out ++ prompt)) keys.

(** [linenoise_getline] with a history: the loop goes on after control-C. *)
Fixpoint getline_loop (fuel : nat) (buf : mem) (hist : list mem) (out : mem) (keys : list Z) : option (editor * list Z * option Z) :=
  match fuel with
  | O => None
  | S fuel =>
      '(e, keys, r) ← linenoisePrompt buf hist out keys;
      match r with
      | None => Some (e, keys, None)
      | Some count =>
          let out := if negb (count =? -1) then ed_out e ++ [NET_LF] else ed_out e in
          let e := Editor (ed_buf e) (ed_len e) (ed_pos e) (ed_hist e) (ed_index e) out in
          if negb (count =? LINENOISE_CTRL_C) then
            if 0 <? count then
              c ← ld (ed_buf e) count;
              buf ← (if negb (c =? 0) then st (ed_buf e) count 0 else Some (ed_buf e));
              Some (Editor buf (ed_len e) (ed_pos e) (ed_hist e) (ed_index e) (ed_out e), keys, Some count)
            else Some (e, keys, Some count)
          else getline_loop fuel (ed_buf e) (ed_hist e) (ed_out e) keys
      end
  end.

Definition linenoise_getline (buf : mem) (hist : list mem) (out : mem) (keys : list Z) : option (editor * list Z * option Z) :=
  getline_loop (S (length keys)) buf hist out keys.
End editor.
