(* ===== verification/LineSpec.v ===== *)
(** * What the line editor does

    A specification of the editor of LineEdit.v, with the text left and right of the cursor, and the proof that the
    editor implements it inside its buffer. *)
From S2P Require Import Prelude Psock Net Console LineEdit.

(** The line with its cursor and the history. *)
Record view := View { v_left : mem; v_right : mem; v_hist : list mem; v_index : Z }.

Definition v_text (v : view) : mem := v_left v ++ v_right v.

Section spec.
Context (buflen : Z).

Definition set_text (v : view) (l r : mem) : view := View l r (v_hist v) (v_index v).

(** The line becomes the history's entry, and another entry the line, with the cursor at its end. *)
Definition view_history (v : view) (up : bool) : view :=
  let n := Z.of_nat (length (v_hist v)) in
  if 1 <? n then
    let hist := <[Z.to_nat (n - 1 - v_index v) := v_text v]> (v_hist v) in
    let index := v_index v + (if up then 1 else -1) in
    if index <? 0 then View (v_left v) (v_right v) hist 0
    else if n <=? index then View (v_left v) (v_right v) hist (n - 1)
    else View (take (Z.to_nat buflen) (hist !!! Z.to_nat (n - 1 - index))) [] hist index
  else v.

Definition view_key (v : view) (c : Z) : view + view * Z :=
  let '(l, r) := (v_left v, v_right v) in
  if (c =? KC_ENTER) || (c =? KC_CTRL_C) || (c =? KC_CTRL_Z) then
    inr (View l r (take (length (v_hist v) - 1) (v_hist v)) (v_index v),
         if c =? KC_CTRL_C then LINENOISE_CTRL_C else if c =? KC_CTRL_Z then -1 else msize (v_text v))
  else inl (
    if c =? KC_BACKSPACE then set_text v (take (length l - 1) l) r
    else if c =? KC_CTRL_T then v
    else if c =? KC_LEFT then set_text v (take (length l - 1) l) (drop (length l - 1) l ++ r)
    else if c =? KC_RIGHT then set_text v (l ++ take 1 r) (drop 1 r)
    else if (c =? KC_UP) || (c =? KC_DOWN) then view_history v (c =? KC_UP)
    else if c =? KC_DEL then set_text v l (drop 1 r)
    else if c =? KC_HOME then set_text v [] (l ++ r)
    else if c =? KC_END then set_text v (l ++ r) []
    else if c =? KC_CTRL_U then set_text v [] []
    else if c =? KC_CTRL_K then set_text v l []
    else if isprint c && (msize (v_text v) <? buflen) then set_text v (l ++ [c]) r
    else v).

Fixpoint view_loop (v : view) (keys : list Z) : view * list Z * option Z :=
  match keys with
  | [] => (v, [], None)
  | c :: keys => match view_key v c with inl v => view_loop v keys | inr (v, r) => (v, keys, Some r) end
  end.
(** The whole call: control-C begins a new line. *)
Fixpoint view_getline (history_max_len : Z) (fuel : nat) (hist : list mem) (keys : list Z) : view * list Z * option Z :=
  let '(v, rest, r) := view_loop (View [] [] (push_history history_max_len hist []) 0) keys in
  match fuel with
  | S fuel => if bool_decide (r = Some LINENOISE_CTRL_C) then view_getline history_max_len fuel (v_hist v) rest else (v, rest, r)
  | O => (v, rest, r)
  end.

(** A call that returns has taken a key, and its result is one of the errors or the size of the line. *)
Lemma view_loop_result keys : ∀ v v' rest r, view_loop v keys = (v', rest, Some r) →
  (length rest < length keys)%nat ∧ (r = LINENOISE_CTRL_C ∨ r = -1 ∨ r = msize (v_text v')).
Proof.
  induction keys as [|c keys IH]; intros v v' rest r; cbn [view_loop]; [done|]. destruct (view_key v c) as [v1|[v1 r1]] eqn:E.
  - intros H. destruct (IH _ _ _ _ H) as [H1 H2]. split; [cbn; lia|done].
  - intros [= -> -> ->]. split; [cbn; lia|]. unfold view_key in E. destruct (_ || _ || _); [|done]. injection E as <- <-.
    destruct (c =? KC_CTRL_C); [by left|]. destruct (c =? KC_CTRL_Z); [by right; left|by right; right].
Qed.

Lemma view_loop_rest keys : ∀ v, (view_loop v keys).1.2 `suffix_of` keys.
Proof.
  induction keys as [|c keys IH]; intros v; cbn [view_loop]; [done|]. destruct (view_key v c) as [v1|[v1 r1]]; cbn; apply suffix_cons_r; [by apply IH|done].
Qed.

Lemma view_getline_rest m fuel : ∀ hist keys, (view_getline m fuel hist keys).1.2 `suffix_of` keys.
Proof.
  induction fuel as [|fuel IH]; intros hist keys; cbn [view_getline]; pose proof (view_loop_rest keys (View [] [] (push_history m hist []) 0)) as H; destruct (view_loop _ keys) as [[v rest] r]; [done|].
  destruct (bool_decide _); [|done]. etrans; [apply IH|exact H].
Qed.
End spec.

(** The keys that are taken are those that the editor is made for. *)
Definition taken_typed (keys rest : list Z) : Prop := ∀ used, keys = used ++ rest → Forall typed used.

Lemma taken_head keys rest1 rest : rest `suffix_of` rest1 → taken_typed keys rest → taken_typed keys rest1.
Proof. intros [w ->] Hk used ->. exact (proj1 (proj1 (Forall_app _ _ _) (Hk (used ++ w) ltac:(by rewrite <- app_assoc)))). Qed.

Lemma taken_tail keys rest1 rest : rest1 `suffix_of` keys → taken_typed keys rest → taken_typed rest1 rest.
Proof. intros [u ->] Hk used ->. exact (proj2 (proj1 (Forall_app _ _ _) (Hk (u ++ used) ltac:(by rewrite <- app_assoc)))). Qed.

Lemma taken_all keys rest : Forall typed keys → taken_typed keys rest.
Proof. intros Hk used ->. by apply Forall_app in Hk as [? _]. Qed.

(** ** [refreshLine] stays in the line *)
Section refresh.
Context (cols : Z) (prompt : mem) (buflen : Z).
Hypothesis Hcols : msize prompt < cols < 2147483648.

Lemma shift_loop_ok fuel : ∀ off len pos, 0 <= pos <= len → len < 2147483648 → (Z.to_nat pos < fuel)%nat →
  let k := Z.max 0 (msize prompt + pos + 1 - cols) in shift_loop cols prompt fuel off len pos = Some (off + k, len - k, pos - k).
Proof.
  pose proof (msize_nonneg prompt). induction fuel as [|fuel IH]; intros off len pos Hp Hl Hf k; [lia|]. cbn [shift_loop]. rewrite u32_id by lia.
  destruct (Z.leb_spec cols (msize prompt + pos)).
  - rewrite !u32_id by lia. rewrite IH by lia. do 2 f_equal; [f_equal|]; lia.
  - assert (k = 0) as -> by lia. by rewrite Z.add_0_r, !Z.sub_0_r.
Qed.

Lemma trunc_loop_ok fuel : ∀ len, 0 <= len < 2147483648 → (Z.to_nat len < fuel)%nat → trunc_loop cols prompt fuel len = Some (Z.min len (cols - msize prompt)).
Proof.
  pose proof (msize_nonneg prompt). induction fuel as [|fuel IH]; intros len Hl Hf; [lia|]. cbn [trunc_loop]. rewrite u32_id by lia.
  destruct (Z.ltb_spec cols (msize prompt + len)); [rewrite u32_id, IH by lia; f_equal; lia|]. f_equal. lia.
Qed.

(** The part of the line that is shown ends in the last column, and the cursor is in it. *)
Lemma refreshLine_shows buf line len pos : bytes_at buf 0 line → len = msize line → 0 <= pos <= len → len < 2147483648 →
  let off := Z.max 0 (msize prompt + pos + 1 - cols) in let n := Z.min (len - off) (cols - msize prompt) in
  ∃ text, text = take (Z.to_nat n) (drop (Z.to_nat off) line) ∧ 0 <= off <= pos ∧ msize prompt + pos - off < cols ∧
  refreshLine cols prompt buf len pos = Some (seq_of ([LINE_ESC] ++ txt "[0G") ++ prompt ++ text ++ seq_of ([LINE_ESC] ++ txt "[0K")
        ++ seq_of ([LINE_ESC] ++ txt "[0G" ++ [LINE_ESC] ++ txt "[" ++ print_int (pos - off + msize prompt) ++ txt "C")).
Proof.
  intros Hb Hlen Hp Hl off n. exists (take (Z.to_nat n) (drop (Z.to_nat off) line)). split; [done|]. pose proof (msize_nonneg prompt). split; [lia|]. split; [lia|].
  unfold refreshLine. rewrite shift_loop_ok by lia. cbn [mbind option_bind]. fold off. rewrite trunc_loop_ok by lia. cbn [mbind option_bind]. fold n. rewrite Z.add_0_l.
  assert (mread buf off n = Some (take (Z.to_nat n) (drop (Z.to_nat off) line))) as ->.
  { destruct (front_split buf line Hb) as [rest ->]. apply mread_spec. rewrite msize_app. pose proof (msize_nonneg rest). split_and!; [lia..|].
    unfold msize in *. rewrite skipn_app, take_app_le; [done|]. rewrite length_drop. lia. }
  cbn [mbind option_bind]. rewrite s32_id by lia. done.
Qed.

Lemma refresh_defined buf line len pos hist index out : bytes_at buf 0 line → len = msize line → 0 <= pos <= len → len < 2147483648 →
  ∃ out', ed_refresh cols prompt buf len pos hist index out = Some (Editor buf len pos hist index out').
Proof.
  intros Hb Hl Hp Hm. destruct (refreshLine_shows buf line len pos Hb Hl Hp Hm) as (text & _ & _ & _ & E). unfold ed_refresh. rewrite E. by eexists.
Qed.
End refresh.

(** ** Objects as lists *)

Lemma mwrite_over (pre rest bs : mem) p : p = msize pre → (length bs <= length rest)%nat →
  mwrite (pre ++ rest) p bs = Some (pre ++ bs ++ drop (length bs) rest).
Proof.
  intros -> Hl. pose proof (msize_nonneg pre). apply mwrite_spec. split; [done|]. split; [unfold msize; rewrite length_app; lia|].
  unfold msize. by rewrite Nat2Z.id, take_app_length, drop_app_add.
Qed.

Lemma st_over (pre rest : mem) p v : p = msize pre → rest ≠ [] → st (pre ++ rest) p v = Some (pre ++ u8 v :: drop 1 rest).
Proof. intros -> Hr. rewrite st_mwrite. apply mwrite_over; [done|]. destruct rest; [done|]. cbn. lia. Qed.

Lemma mread_over (pre bs post : mem) p n : p = msize pre → n = msize bs → mread (pre ++ bs ++ post) p n = Some bs.
Proof. intros -> ->. exact (bytes_at_prefix _ pre bs post eq_refl). Qed.

(** ** The keys *)
Section keys.
Context (cols : Z) (prompt : mem) (history_max_len buflen : Z).
Hypothesis Hcols : msize prompt < cols < 2147483648.
Hypothesis Hbuf : 0 < buflen < 2147483647.

Definition nonzero (s : mem) : Prop := Forall (λ c, c ≠ 0) s.

(** The buffer holds the line and its terminator. *)
Definition text_in (buf l r : mem) : Prop := ∃ post, buf = l ++ r ++ 0 :: post ∧ msize buf = buflen + 1 ∧ nonzero (l ++ r).

Definition represents (e : editor) (v : view) : Prop :=
  text_in (ed_buf e) (v_left v) (v_right v) ∧ ed_len e = msize (v_text v) ∧ ed_pos e = msize (v_left v) ∧ ed_hist e = v_hist v ∧ ed_index e = v_index v.

Definition history_ok (v : view) : Prop := Forall nonzero (v_hist v) ∧ 0 <= v_index v < Z.of_nat (length (v_hist v)).

Lemma text_fits buf l r : text_in buf l r → msize l + msize r <= buflen.
Proof. intros (post & -> & Hs & _). rewrite !msize_app, msize_cons in Hs. pose proof (msize_nonneg post). lia. Qed.

Lemma text_cstr buf l r : text_in buf l r → cstr buf = Some (l ++ r).
Proof. intros (post & -> & _ & Hn). rewrite app_assoc. by apply cstr_app. Qed.

Lemma refresh_represents buf l r len pos hist index out : text_in buf l r → len = msize (l ++ r) → pos = msize l →
  ∃ e, ed_refresh cols prompt buf len pos hist index out = Some e ∧ represents e (View l r hist index).
Proof.
  intros Ht -> ->. pose proof (text_fits _ _ _ Ht). pose proof Ht as (post & E & _). pose proof (msize_nonneg l). pose proof (msize_nonneg r).
  destruct (refresh_defined cols prompt Hcols buf (l ++ r) (msize (l ++ r)) (msize l) hist index out) as [out' ->];
    [rewrite E, app_assoc; exact (bytes_at_prefix _ [] (l ++ r) (0 :: post) eq_refl)|done|rewrite msize_app; lia|rewrite msize_app; lia|].
  eexists. split; [reflexivity|]. by split_and!.
Qed.

Ltac sizes := unfold msize in *; repeat (progress (rewrite ?length_app, ?length_drop in *; cbn [length] in * )); lia.

(** Deleting the character [x]. *)
Lemma delete_char buf l x r : text_in buf l (x :: r) → ∃ buf', text_in buf' l r ∧ ∀ B (K : mem → option B),
  (bs ← mread buf (msize l + 1) (msize r); buf ← mwrite buf (msize l) bs; buf ← st buf (msize l + msize r) 0; K buf) = K buf'.
Proof.
  intros (post & -> & Hs & Hn). set (rest := x :: r ++ 0 :: post).
  assert (drop (length r) rest ≠ []) as Hd by (intros E; apply (f_equal length) in E; unfold rest in E; sizes).
  exists (l ++ r ++ 0 :: drop 1 (drop (length r) rest)). split.
  - eexists. split; [reflexivity|]. split; [unfold rest; sizes|]. apply Forall_app in Hn as [H1 H2]. apply Forall_cons in H2 as [_ H2]. by apply Forall_app.
  - intros B K. change (l ++ (x :: r) ++ 0 :: post) with (l ++ rest).
    assert (mread (l ++ rest) (msize l + 1) (msize r) = Some r) as ->.
    { unfold rest. change (l ++ x :: r ++ 0 :: post) with (l ++ [x] ++ r ++ 0 :: post). rewrite app_assoc. apply mread_over; [|done]. by rewrite msize_app. }
    cbn [mbind option_bind]. rewrite mwrite_over by (done || (unfold rest; sizes)). cbn [mbind option_bind].
    rewrite app_assoc, st_over by (by rewrite ?msize_app). cbn [mbind option_bind]. by rewrite <- app_assoc.
Qed.

(** Inserting a character at the end of the line, and before [r]. *)
Lemma append_char buf l c : text_in buf l [] → msize l < buflen → 0 < c < 256 → ∃ buf', text_in buf' (l ++ [c]) [] ∧ ∀ B (K : mem → option B),
  (buf ← st buf (msize l) c; buf ← st buf (msize l + 1) 0; K buf) = K buf'.
Proof.
  intros (post & -> & Hs & Hn) Hl Hc. cbn [Datatypes.app] in *. rewrite app_nil_r in Hn. rewrite msize_app, msize_cons in Hs.
  destruct post as [|y post]; [change (msize []) with 0 in Hs; lia|]. exists ((l ++ [c]) ++ [] ++ 0 :: post). split.
  - eexists. split; [reflexivity|]. rewrite !msize_app, !msize_cons in *. change (msize []) with 0 in *. split; [lia|]. rewrite app_nil_r. apply Forall_app. split; [done|]. repeat constructor. lia.
  - intros B K. rewrite st_over by done. cbn [mbind option_bind drop]. rewrite u8_id by lia. change (l ++ c :: y :: post) with (l ++ [c] ++ y :: post).
    rewrite app_assoc, st_over by (by rewrite ?msize_app). reflexivity.
Qed.

Lemma insert_char buf l r c : text_in buf l r → msize (l ++ r) < buflen → 0 < c < 256 → ∃ buf', text_in buf' (l ++ [c]) r ∧ ∀ B (K : mem → option B),
  (bs ← mread buf (msize l) (msize r); buf ← mwrite buf (msize l + 1) bs; buf ← st buf (msize l) c; buf ← st buf (msize (l ++ r) + 1) 0; K buf) = K buf'.
Proof.
  intros (post & -> & Hs & Hn) Hl Hc. assert (∃ y rest, r ++ 0 :: post = y :: rest) as (y & rest & Er) by (destruct r; by eexists _, _).
  assert (length r < length rest)%nat as Hlen.
  { apply (f_equal length) in Er. sizes. }
  assert (drop (length r) rest ≠ []) as Hd by (intros E; apply (f_equal length) in E; sizes).
  exists ((l ++ [c]) ++ r ++ 0 :: drop 1 (drop (length r) rest)). split.
  - eexists. split; [reflexivity|]. split.
    + rewrite Er in Hs. sizes.
    + apply Forall_app in Hn as [H1 H2]. rewrite <- app_assoc. apply Forall_app. split; [done|]. constructor; [lia|done].
  - intros B K. rewrite mread_over by done. cbn [mbind option_bind]. rewrite Er. change (l ++ y :: rest) with (l ++ [y] ++ rest).
    rewrite (app_assoc l [y]), mwrite_over by (rewrite ?msize_app; done || lia). cbn [mbind option_bind]. rewrite <- (app_assoc l [y]), st_over by done. cbn [mbind option_bind].
    change (drop 1 ([y] ++ r ++ drop (length r) rest)) with (r ++ drop (length r) rest). rewrite u8_id by lia.
    change (l ++ c :: r ++ drop (length r) rest) with (l ++ [c] ++ r ++ drop (length r) rest). rewrite (app_assoc l [c]), (app_assoc (l ++ [c])), st_over by (done || rewrite !msize_app; change (msize [c]) with 1; lia).
    cbn [mbind option_bind]. by rewrite <- (app_assoc (l ++ [c])).
Qed.

(** The line without the part right of the cursor. *)
Lemma cut_line buf l r : text_in buf l r → ∃ buf', text_in buf' l [] ∧ ∀ B (K : mem → option B), (buf ← st buf (msize l) 0; K buf) = K buf'.
Proof.
  intros (post & -> & Hs & Hn). exists (l ++ 0 :: drop 1 (r ++ 0 :: post)). assert (r ++ 0 :: post ≠ []) by by destruct r. split.
  - eexists. split; [reflexivity|]. split; [sizes|].
    rewrite app_nil_r. by apply Forall_app in Hn as [? _].
  - intros B K. by rewrite st_over.
Qed.

Ltac open_editor e v He := destruct e as [buf len pos hist index out]; destruct v as [l r vhist vindex]; destruct He as (Ht & Hlen & Hpos & Hhist & Hindex);
  cbn [ed_buf ed_len ed_pos ed_hist ed_index ed_out v_left v_right v_hist v_index] in *; unfold v_text in *; cbn [v_left v_right] in *; subst.

Lemma key_backspace_ok e v : represents e v →
  ∃ e', key_backspace cols prompt e = Some e' ∧ represents e' (set_text v (take (length (v_left v) - 1) (v_left v)) (v_right v)).
Proof.
  intros He. open_editor e v He. unfold key_backspace, set_text. cbn [ed_buf ed_len ed_pos ed_hist ed_index ed_out v_hist v_index].
  destruct (decide (l = [])) as [->|Hne]; [change (msize []) with 0; rewrite Z.ltb_irrefl; cbn [andb]; eexists; split; [reflexivity|by split_and!]|].
  destruct (exists_last Hne) as (l' & x & ->). rewrite length_app. cbn [length]. replace (length l' + 1 - 1)%nat with (length l') by lia. rewrite take_app_length.
  pose proof (msize_nonneg l'). pose proof (msize_nonneg r). assert (text_in buf l' (x :: r)) as Ht' by (destruct Ht as (post & -> & ? & Hn); exists post; by rewrite <- !app_assoc in *).
  destruct (delete_char buf l' x r Ht') as (buf' & Hb & EK). rewrite !msize_app. change (msize [x]) with 1.
  rewrite (proj2 (Z.ltb_lt 0 (msize l' + 1))), (proj2 (Z.ltb_lt 0 (msize l' + 1 + msize r))) by lia. cbn [andb].
  replace (msize l' + 1 + msize r - (msize l' + 1)) with (msize r) by lia. replace (msize l' + 1 - 1) with (msize l') by lia.
  replace (msize l' + 1 + msize r - 1) with (msize l' + msize r) by lia. rewrite (EK _ (λ b, ed_refresh cols prompt b (msize l' + msize r) (msize l') vhist vindex out)).
  apply refresh_represents; [done|by rewrite msize_app|done].
Qed.

Lemma key_del_ok e v : represents e v → ∃ e', key_del cols prompt e = Some e' ∧ represents e' (set_text v (v_left v) (drop 1 (v_right v))).
Proof.
  intros He. open_editor e v He. unfold key_del, set_text. cbn [ed_buf ed_len ed_pos ed_hist ed_index ed_out v_hist v_index].
  pose proof (msize_nonneg l). destruct r as [|x r].
  - rewrite app_nil_r, Z.ltb_irrefl, andb_false_r. eexists. split; [reflexivity|]. split_and!; try done. unfold v_text. cbn. by rewrite app_nil_r.
  - pose proof (msize_nonneg r). rewrite msize_app, msize_cons. rewrite (proj2 (Z.ltb_lt 0 _)), (proj2 (Z.ltb_lt (msize l) _)) by lia. cbn [andb drop].
    destruct (delete_char buf l x r Ht) as (buf' & Hb & EK). replace (msize l + (1 + msize r) - msize l - 1) with (msize r) by lia.
    replace (msize l + (1 + msize r) - 1) with (msize l + msize r) by lia. rewrite (EK _ (λ b, ed_refresh cols prompt b (msize l + msize r) (msize l) vhist vindex out)).
    apply refresh_represents; [done|by rewrite msize_app|done].
Qed.

Lemma key_char_ok e v c : -1 <= c < 256 → represents e v →
  ∃ e', key_char cols prompt buflen e c = Some e' ∧ represents e' (if isprint c && (msize (v_text v) <? buflen) then set_text v (v_left v ++ [c]) (v_right v) else v).
Proof.
  intros Hr0 He. pose proof He as He0. open_editor e v He. unfold key_char, set_text. rewrite (proj2 (Z.leb_le _ _)), (proj2 (Z.ltb_lt c _)) by lia. cbn [andb negb]. cbn [ed_buf ed_len ed_pos ed_hist ed_index ed_out v_hist v_index].
  destruct (isprint c) eqn:Hc; [|by eexists]. destruct (Z.ltb_spec (msize (l ++ r)) buflen) as [Hl|Hl]; [|by eexists]. cbn [andb]. pose proof (isprint_range c Hc).
  destruct r as [|y r].
  - rewrite app_nil_r in *. rewrite Z.eqb_refl. destruct (append_char buf l c Ht) as (buf' & Hb & EK); [lia|lia|].
    rewrite (EK _ (λ b, if msize prompt + (msize l + 1) <? cols then Some (Editor b (msize l + 1) (msize l + 1) vhist vindex (out ++ [u8 c]))
                        else ed_refresh cols prompt b (msize l + 1) (msize l + 1) vhist vindex out)).
    destruct (_ <? cols).
    + eexists. split; [reflexivity|]. split_and!; try done; unfold v_text; cbn; rewrite ?app_nil_r; by rewrite msize_app.
    + apply refresh_represents; [done|rewrite app_nil_r; by rewrite msize_app|by rewrite msize_app].
  - pose proof (msize_nonneg r). assert (msize (l ++ y :: r) - msize l = msize (y :: r)) as Hr by (rewrite msize_app; lia). rewrite msize_cons in Hr.
    rewrite (proj2 (Z.eqb_neq _ _)) by lia. destruct (insert_char buf l (y :: r) c Ht Hl) as (buf' & Hb & EK); [lia|]. rewrite Hr, <- (msize_cons y).
    rewrite (EK _ (λ b, ed_refresh cols prompt b (msize (l ++ y :: r) + 1) (msize l + 1) vhist vindex out)).
    apply refresh_represents; [done|rewrite !msize_app; change (msize [c]) with 1; lia|by rewrite msize_app].
Qed.
(** The line that [strncpy] makes of an entry of the history. *)
Lemma copy_entry buf l r h : text_in buf l r → nonzero h → ∃ buf', text_in buf' (take (Z.to_nat buflen) h) [] ∧ ∀ B (K : mem → option B),
  (buf ← c_strncpy buf (h ++ [0]) buflen; buf ← st buf buflen 0; K buf) = K buf'.
Proof.
  intros (post & _ & Hs & _) Hh. set (w := take (Z.to_nat buflen) h). assert (length w <= Z.to_nat buflen)%nat as Hw by (unfold w; rewrite length_take; lia).
  set (z := replicate (Z.to_nat buflen - length w) 0). assert (length (w ++ z) = Z.to_nat buflen) as Hwz by (unfold z; rewrite length_app, length_replicate; lia).
  exists (w ++ z ++ [0]). split.
  - exists (replicate (Z.to_nat buflen - length w) 0). split; [|split; [|by rewrite app_nil_r; apply Forall_take]].
    + cbn [Datatypes.app]. change (0 :: replicate (Z.to_nat buflen - length w) 0) with (replicate (S (Z.to_nat buflen - length w)) 0). unfold z.
      by rewrite replicate_S_end.
    + rewrite app_assoc. unfold msize. rewrite length_app, Hwz. cbn. lia.
  - intros B K. unfold c_strncpy. rewrite (cstr_app h []) by done. cbn [mbind option_bind]. fold w. fold z.
    pose proof (mwrite_over [] buf (w ++ z) 0 eq_refl ltac:(rewrite Hwz; unfold msize in Hs; lia)) as E. cbn [Datatypes.app] in E. rewrite E. cbn [mbind option_bind]. rewrite Hwz.
    rewrite st_over; [|unfold msize; lia|intros E2; apply (f_equal length) in E2; unfold msize in Hs; rewrite length_drop in E2; cbn in E2; lia].
    rewrite drop_drop, drop_ge by (unfold msize in Hs; lia). cbn [mbind option_bind]. by rewrite app_assoc.
Qed.

Lemma key_history_ok e v up : represents e v → history_ok v →
  ∃ e', key_history cols prompt buflen e up = Some e' ∧ represents e' (view_history buflen v up) ∧ history_ok (view_history buflen v up).
Proof.
  intros He Hh. pose proof He as He0. open_editor e v He. destruct Hh as [Hnz Hix]. cbn [v_hist v_index] in *. unfold key_history, view_history.
  cbn [ed_buf ed_len ed_pos ed_hist ed_index ed_out v_left v_right v_hist v_index v_text]. unfold v_text. cbn [v_left v_right]. set (n := Z.of_nat (length vhist)) in *.
  destruct (Z.ltb_spec 1 n) as [Hn|Hn]; [|by eexists]. rewrite (proj2 (Z.ltb_ge _ 0)), (proj2 (Z.leb_gt n _)) by lia. cbn [orb]. rewrite (text_cstr _ _ _ Ht). cbn [mbind option_bind].
  set (hist := <[Z.to_nat (n - 1 - vindex) := l ++ r]> vhist). set (index := vindex + (if up then 1 else -1)).
  assert (Forall nonzero hist) as Hnz' by (apply Forall_insert; [done|by destruct Ht as (? & _ & _ & ?)]).
  assert (Z.of_nat (length hist) = n) as Hlen' by (unfold hist; by rewrite length_insert).
  destruct (Z.ltb_spec index 0); [|destruct (Z.leb_spec n index)].
  - eexists. split; [reflexivity|]. split; [by split_and!|]. split; [done|cbn; lia].
  - eexists. split; [reflexivity|]. split; [by split_and!|]. split; [done|cbn; lia].
  - destruct (lookup_lt_is_Some_2 hist (Z.to_nat (n - 1 - index))) as [h Hh]; [lia|]. rewrite Hh, (list_lookup_total_correct _ _ _ Hh). cbn [mbind option_bind].
    assert (nonzero h) as Hz by exact (proj1 (Forall_lookup _ _) Hnz' _ _ Hh). destruct (copy_entry buf l r h Ht Hz) as (buf' & Hb & EK).
    rewrite (EK _ (λ b, len ← strlen b; ed_refresh cols prompt b len len hist index out)). unfold strlen. rewrite (text_cstr _ _ _ Hb), app_nil_r. cbn [mbind option_bind].
    destruct (refresh_represents buf' (take (Z.to_nat buflen) h) [] (msize (take (Z.to_nat buflen) h)) (msize (take (Z.to_nat buflen) h)) hist index out) as (e' & -> & He');
      [done|by rewrite app_nil_r|done|]. eexists. split; [reflexivity|]. split; [done|]. split; [done|cbn; lia].
Qed.

(** A key that only moves the cursor, or draws the line again. *)
Lemma key_moves buf len pos l r l' r' hist index out : represents (Editor buf len pos hist index out) (View l r hist index) → l' ++ r' = l ++ r →
  ∃ e', ed_refresh cols prompt buf len (msize l') hist index out = Some e' ∧ represents e' (View l' r' hist index).
Proof.
  intros ((post & Hb & Hs & Hn) & Hlen & _) E. cbn in Hb, Hs, Hlen. unfold v_text in Hlen. cbn [v_left v_right] in *. subst buf. apply refresh_represents; [|by rewrite E|done].
  exists post. split; [by rewrite (app_assoc l'), E, <- app_assoc|]. by rewrite E.
Qed.

Lemma set_text_history v l r : history_ok v → history_ok (set_text v l r).
Proof. done. Qed.

Lemma typed_char c : typed c → c ∉ editor_keys → -1 <= c < 256.
Proof. by intros [?|?] ?. Qed.

(** One key. *)
Lemma line_key_ok e v c : typed c → represents e v → history_ok v →
  match view_key buflen v c with
  | inl v' => ∃ e', line_key cols prompt buflen e c = Some (inl e') ∧ represents e' v' ∧ history_ok v'
  | inr (v', r) => ∃ e', line_key cols prompt buflen e c = Some (inr (e', r)) ∧ represents e' v' ∧ Forall nonzero (v_hist v')
  end.
Proof.
  intros Htyped He Hh. unfold view_key, line_key. destruct (_ || _ || _) eqn:Hret.
  - pose proof Hh as [Hnz Hix]. open_editor e v He. unfold key_enter. cbn [ed_hist]. destruct vhist as [|h hs]; [cbn in Hix; lia|].
    eexists. split; [reflexivity|]. split; [done|by apply Forall_take].
  - assert (∀ (x : option editor) v', (∃ e', x = Some e' ∧ represents e' v') → history_ok v' → ∃ e', (inl <$> x : option (editor + editor * Z)) = Some (inl e') ∧ represents e' v' ∧ history_ok v') as Hinl.
    { intros x v' (e' & -> & H) H'. by exists e'. }
    destruct (c =? KC_BACKSPACE) eqn:E1; [by apply Hinl; [apply key_backspace_ok|]|]. destruct (c =? KC_CTRL_T) eqn:E2; [by apply Hinl; [exists e|]|].
    destruct (c =? KC_LEFT) eqn:E3.
    { apply Hinl; [|done]. pose proof He as He0. open_editor e v He. destruct (decide (l = [])) as [->|Hne]; [by eexists|]. rewrite (proj2 (Z.ltb_lt 0 _)) by by apply msize_pos.
      replace (msize l - 1) with (msize (take (length l - 1) l)) by (apply msize_pos in Hne; unfold msize in *; rewrite length_take; lia).
      eapply key_moves; [exact He0|]. by rewrite app_assoc, take_drop. }
    destruct (c =? KC_RIGHT) eqn:E4.
    { apply Hinl; [|done]. pose proof He as He0. open_editor e v He. destruct r as [|x r].
      - unfold set_text. cbn [v_hist v_index take drop]. rewrite !app_nil_r in *. rewrite Z.eqb_refl. eexists. split; [reflexivity|exact He0].
      - pose proof (msize_nonneg r). rewrite (proj2 (Z.eqb_neq _ _)) by (rewrite msize_app, msize_cons; lia). cbn [negb take drop]. unfold set_text. cbn [v_hist v_index].
        replace (msize l + 1) with (msize (l ++ [x])) by by rewrite msize_app. rewrite take_0. eapply key_moves; [exact He0|]. by rewrite <- app_assoc. }
    destruct ((c =? KC_UP) || (c =? KC_DOWN)) eqn:E5.
    { destruct (key_history_ok e v (c =? KC_UP) He Hh) as (e' & H1 & H2 & H3). apply Hinl; [by exists e'|done]. }
    destruct (c =? KC_DEL) eqn:E6; [by apply Hinl; [apply key_del_ok|]|].
    destruct (c =? KC_HOME) eqn:E7; [apply Hinl; [|done]; pose proof He as He0; open_editor e v He; by eapply (key_moves _ _ _ _ _ [])|].
    destruct (c =? KC_END) eqn:E8; [apply Hinl; [|done]; pose proof He as He0; open_editor e v He; eapply (key_moves _ _ _ _ _ (l ++ r) []); [exact He0|by rewrite app_nil_r]|].
    destruct (c =? KC_CTRL_U) eqn:E9.
    { apply Hinl; [|done]. open_editor e v He. assert (text_in buf [] (l ++ r)) as Ht2 by (destruct Ht as (post & -> & ?); exists post; by rewrite <- app_assoc).
      destruct (cut_line buf [] (l ++ r) Ht2) as (buf' & Hb & EK). change (msize []) with 0 in EK.
      rewrite (EK _ (λ b, ed_refresh cols prompt b 0 0 vhist vindex out)). by apply refresh_represents. }
    destruct (c =? KC_CTRL_K) eqn:E10.
    { apply Hinl; [|done]. open_editor e v He. destruct (cut_line buf l r Ht) as (buf' & Hb & EK). rewrite (EK _ (λ b, ed_refresh cols prompt b (msize l) (msize l) vhist vindex out)).
      apply refresh_represents; [done|by rewrite app_nil_r|done]. }
    apply Hinl; [apply key_char_ok; [|done]|by destruct (_ && _)]. apply typed_char; [done|].
    rewrite !orb_false_iff, !Z.eqb_neq in *. unfold editor_keys. rewrite !not_elem_of_cons. split_and!; try tauto. apply not_elem_of_nil.
Qed.

Lemma line_loop_ok keys : ∀ e v, represents e v → history_ok v →
  let '(v', rest, r) := view_loop buflen v keys in taken_typed keys rest →
  ∃ e', line_loop cols prompt buflen e keys = Some (e', rest, r) ∧ represents e' v' ∧ Forall nonzero (v_hist v').
Proof.
  induction keys as [|c keys IH]; intros e v He Hh; [intros _; exists e; split; [done|]; split; [done|by destruct Hh]|]. cbn [view_loop line_loop].
  pose proof (line_key_ok e v c) as H. destruct (view_key buflen v c) as [v1|[v1 r]].
  - pose proof (view_loop_rest buflen keys v1) as Hsuf. destruct (view_loop buflen v1 keys) as [[v' rest] r] eqn:E. cbn in Hsuf. intros Hk.
    assert (typed c) as Hc by exact (proj1 (Forall_singleton _ _) (taken_head _ _ _ Hsuf Hk [c] eq_refl)). destruct (H Hc He Hh) as (e1 & -> & H1 & H2). cbn [mbind option_bind].
    specialize (IH e1 v1 H1 H2). rewrite E in IH. apply IH. eapply taken_tail; [|exact Hk]. by apply suffix_cons_r.
  - intros Hk. assert (typed c) as Hc by exact (proj1 (Forall_singleton _ _) (Hk [c] eq_refl)). destruct (H Hc He Hh) as (e1 & -> & H1). cbn [mbind option_bind]. by exists e1.
Qed.
End keys.

(** [linenoisePrompt]. *)
Lemma prompt_ok cols prompt history_max_len buflen buf hist out keys :
  msize prompt < cols < 2147483648 → 0 < buflen < 2147483647 → 0 < history_max_len → msize buf = buflen + 1 → Forall nonzero hist →
  let '(v, rest, r) := view_loop buflen (View [] [] (push_history history_max_len hist []) 0) keys in taken_typed keys rest →
  ∃ e, linenoisePrompt cols prompt history_max_len buflen buf hist out keys = Some (e, rest, r) ∧ represents buflen e v ∧ Forall nonzero (v_hist v).
Proof.
  intros Hc Hb Hm Hs Hh. unfold linenoisePrompt. destruct buf as [|x post] eqn:Eb; [change (msize []) with 0 in Hs; lia|].
  pose proof (st_over [] (x :: post) 0 0 eq_refl ltac:(done)) as E. cbn [Datatypes.app drop] in E. rewrite E. change (u8 0) with 0. cbn [mbind option_bind].
  unfold linenoise_internal_addhistory. rewrite (proj2 (Z.eqb_neq _ _)) by lia. cbn [addhistory_loop upto_newline length drop]. rewrite bool_decide_eq_true_2 by done.
  cbn [negb orb mbind option_bind]. rewrite drop_0.
  pose proof (line_loop_ok cols prompt buflen Hc Hb keys (Editor (0 :: post) 0 0 (push_history history_max_len hist []) 0 (out ++ prompt)) (View [] [] (push_history history_max_len hist []) 0)) as H.
  destruct (view_loop buflen _ keys) as [[v rest] r]. intros Hk. destruct H as (e & E1 & He & Hn).
  - split_and!; try done. exists post. split; [done|]. rewrite msize_cons in Hs. split; [by cbn [ed_buf]; rewrite msize_cons|constructor].
  - split; cbn; [|unfold push_history; rewrite length_app; cbn; lia]. unfold push_history. apply Forall_app. split; [|repeat constructor].
    by destruct (_ =? _); [apply Forall_drop|].
  - done.
  - exists e. rewrite E1. by cbn [mbind option_bind].
Qed.

Lemma getline_ok cols prompt history_max_len buflen fuel : ∀ buf hist out keys,
  msize prompt < cols < 2147483648 → 0 < buflen < 2147483647 → 0 < history_max_len → msize buf = buflen + 1 → Forall nonzero hist → (length keys < fuel)%nat →
  let '(v, rest, r) := view_getline buflen history_max_len fuel hist keys in taken_typed keys rest →
  ∃ e, getline_loop cols prompt history_max_len buflen fuel buf hist out keys = Some (e, rest, r) ∧ text_in buflen (ed_buf e) (v_left v) (v_right v) ∧ ed_hist e = v_hist v ∧ Forall nonzero (v_hist v).
Proof.
  induction fuel as [|fuel IH]; intros buf hist out keys Hc Hb Hm Hs Hh Hf; [lia|]. cbn [view_getline getline_loop].
  pose proof (view_loop_rest buflen keys (View [] [] (push_history history_max_len hist []) 0)) as Hsuf.
  pose proof (prompt_ok cols prompt history_max_len buflen buf hist out keys Hc Hb Hm Hs Hh) as H. pose proof (view_loop_result buflen keys (View [] [] (push_history history_max_len hist []) 0)) as Hr.
  destruct (view_loop buflen _ keys) as [[v rest] [r|]].
  2:{ rewrite bool_decide_eq_false_2 by done. intros Hk. destruct (H Hk) as (e & -> & (Ht & _ & _ & Hhist & _) & Hn). cbn [mbind option_bind]. by exists e. }
  destruct (Hr _ _ _ eq_refl) as [Hrest Hres]. cbn in Hsuf. destruct (Z.eqb_spec r LINENOISE_CTRL_C) as [->|Hne]; cbn [negb].
  - rewrite bool_decide_eq_true_2 by done. pose proof (view_getline_rest buflen history_max_len fuel (v_hist v) rest) as Hsuf2.
    destruct (view_getline _ _ _ _ rest) as [[v2 rest2] r2] eqn:E2. cbn in Hsuf2. intros Hk. destruct (H (taken_head _ _ _ Hsuf2 Hk)) as (e & -> & (Ht & _ & _ & Hhist & _) & Hn). cbn [mbind option_bind ed_buf ed_hist ed_out].
    rewrite Z.eqb_refl, Hhist. cbn [negb]. specialize (IH (ed_buf e) (ed_hist e) (if negb (LINENOISE_CTRL_C =? -1) then ed_out e ++ [NET_LF] else ed_out e) rest). rewrite Hhist, E2 in IH. apply IH; try done; [by destruct Ht as (? & _ & ? & _)|lia|]. by eapply taken_tail.
  - rewrite bool_decide_eq_false_2 by congruence. intros Hk. destruct (H Hk) as (e & -> & (Ht & Hlen & _ & Hhist & _) & Hn). cbn [mbind option_bind ed_buf ed_hist ed_out ed_len ed_pos ed_index].
    rewrite (proj2 (Z.eqb_neq _ _) Hne). cbn [negb]. destruct (Z.ltb_spec 0 r) as [Hpos|Hpos].
    + assert (r = msize (v_text v)) as -> by (unfold LINENOISE_CTRL_C in Hres; lia). pose proof Ht as (post & Eb & _).
      assert (ld (ed_buf e) (msize (v_text v)) = Some 0) as ->.
      { rewrite Eb, app_assoc. unfold v_text. apply ld_Some_iff. split; [apply msize_nonneg|]. unfold msize. by rewrite Nat2Z.id, list_lookup_middle. }
      cbn [mbind option_bind]. eexists. by split.
    + eexists. by split.
Qed.

(** C38: reading a line with the editor, from characters and the keys it is made for ([typed]: the cursor and history keys,
    return, backspace, delete and its control keys; for any other key, such as tab, isprint is called with a code that is no
    character): it stays in its buffers (the line, the sequences of the terminal, the history) and does what the specification
    does: the line with its cursor, the history, the entries edited in it, a new line after control-C, the keys that are left
    when it returns and its result, which is never that of control-C; the buffer then holds the line as a string. *)
Theorem line_editor_refines cols prompt history_max_len buflen buf hist out keys : Forall typed keys →
  msize prompt < cols < 2147483648 → 0 < buflen < 2147483647 → 0 < history_max_len → msize buf = buflen + 1 → Forall nonzero hist →
  let '(v, rest, r) := view_getline buflen history_max_len (S (length keys)) hist keys in
  ∃ e, linenoise_getline cols prompt history_max_len buflen buf hist out keys = Some (e, rest, r) ∧
    cstr (ed_buf e) = Some (v_text v) ∧ msize (v_text v) <= buflen ∧ ed_hist e = v_hist v.
Proof.
  intros Hk Hc Hb Hm Hs Hh. pose proof (getline_ok cols prompt history_max_len buflen (S (length keys)) buf hist out keys Hc Hb Hm Hs Hh ltac:(lia)) as H.
  destruct (view_getline _ _ _ _ _) as [[v rest] r]. destruct (H (taken_all _ _ Hk)) as (e & E & Ht & Hhist & _). exists e. split; [exact E|]. split; [by apply (text_cstr buflen)|]. split; [|done].
  unfold v_text. rewrite msize_app. by apply (text_fits buflen (ed_buf e)).
Qed.

(** A line given up with control-C; then "ab", left, "c", an entry of the history, back to the line, backspace at the
    cursor, return. *)
Lemma line_editor_refines_witness :
  let keys := [98; KC_CTRL_C; 97; 98; KC_LEFT; 99; KC_UP; KC_DOWN; KC_LEFT; KC_BACKSPACE; KC_ENTER; 120] in
  ∃ e, linenoise_getline 80 (txt "> ") 3 7 (replicate 8 0) [txt "x"] [] keys = Some (e, [120], Some 2) ∧
    cstr (ed_buf e) = Some [97; 98] ∧ msize [97; 98] <= 7 ∧ ed_hist e = [txt "x"].
Proof.
  intros keys. refine (line_editor_refines 80 (txt "> ") 3 7 (replicate 8 0) [txt "x"] [] keys _ _ _ _ _ _); [apply (bool_decide_unpack _); by vm_compute|by vm_compute|by vm_compute|by vm_compute|done|].
  repeat constructor; done.
Defined.

(** The key for tab (KC_TAB, 265), for which the loop has no case. *)
Example linenoise_tab : key_char 80 (txt "> ") 7 (Editor (replicate 8 0) 0 0 [] 0 []) 265 = None ∧ ¬ typed 265.
Proof. split; [done|]. by apply (bool_decide_unpack _). Qed.
