(* ===== verification/Term.v ===== *)
(** * The terminal: src/term.c

    The sequences sent to an ANSI terminal and the cursor the program keeps. Unsigned numbers are 32 bits wide. The
    functions of the platform ([term_in], [term_translate]) are parameters. *)
From S2P Require Import Prelude Psock Net Console LineEdit.

Definition TERM_MAX_ANSI_SIZE : Z := 14.

Record term := Term { term_num_lines : Z; term_num_cols : Z; term_cx : Z; term_cy : Z; term_sent : mem }.

Definition term_init (lines cols : Z) : term := Term lines cols 0 0 [].

Definition set_cursor (t : term) (x y : Z) : term := Term (term_num_lines t) (term_num_cols t) (u32 x) (u32 y) (term_sent t).

Definition term_out (t : term) (c : Z) : term := Term (term_num_lines t) (term_num_cols t) (term_cx t) (term_cy t) (term_sent t ++ [u8 c]).

(** [term_putstr]: [size] bytes of [str]. *)
Definition term_putstr (t : term) (str : mem) (size : Z) : option term := bs ← mread str 0 size; Some (foldl term_out t bs).

(** [term_ansi] with the text that its format gives: [vsnprintf] stores at most TERM_MAX_ANSI_SIZE - 3 characters. *)
Definition term_ansi (t : term) (s : mem) : option term :=
  let seq := [LINE_ESC] ++ txt "[" ++ take (Z.to_nat (TERM_MAX_ANSI_SIZE - 3)) s in
  term_putstr t seq (msize seq).

Definition term_clrscr (t : term) : option term := t ← term_ansi t (txt "2J"); Some (set_cursor t 0 0).
Definition term_clreol (t : term) : option term := term_ansi t (txt "K").

Definition term_gotoxy (t : term) (x y : Z) : option term :=
  t ← term_ansi t (digits 10 (u32 y) ++ txt ";" ++ digits 10 (u32 x) ++ txt "H"); Some (set_cursor t x y).

Definition term_up (t : term) (delta : Z) : option term :=
  t ← term_ansi t (digits 10 (u32 delta) ++ txt "A"); Some (set_cursor t (term_cx t) (term_cy t - delta)).

Definition term_down (t : term) (delta : Z) : option term :=
  t ← term_ansi t (digits 10 (u32 delta) ++ txt "B"); Some (set_cursor t (term_cx t) (term_cy t + delta)).

Definition term_right (t : term) (delta : Z) : option term :=
  t ← term_ansi t (digits 10 (u32 delta) ++ txt "C"); Some (set_cursor t (term_cx t - delta) (term_cy t)).

Definition term_left (t : term) (delta : Z) : option term :=
  t ← term_ansi t (digits 10 (u32 delta) ++ txt "D"); Some (set_cursor t (term_cx t + delta) (term_cy t)).

Definition term_putch (t : term) (ch : Z) : term :=
  let t := if u8 ch =? NET_LF then set_cursor t 0 (if term_cy t <? term_num_lines t then term_cy t + 1 else term_cy t) else t in
  term_out t ch.

Definition term_getch (term_in term_translate : Z → Z) (mode : Z) : Z := if term_in mode =? -1 then -1 else term_translate (term_in mode).

(** ** An ANSI terminal *)

(** Its cursor, and the part of a sequence that has come: the parameters before the last, and the last one. *)
Record ansi := Ansi { an_x : Z; an_y : Z; an_seq : option (list Z * Z) }.

Definition ansi_final (a : ansi) (ps : list Z) (c : Z) : ansi :=
  match ps with
  | [y; x] => if c =? ch "H" then Ansi x y None else Ansi (an_x a) (an_y a) None
  | [n] =>
      if c =? ch "A" then Ansi (an_x a) (an_y a - n) None else if c =? ch "B" then Ansi (an_x a) (an_y a + n) None
      else if c =? ch "C" then Ansi (an_x a + n) (an_y a) None else if c =? ch "D" then Ansi (an_x a - n) (an_y a) None
      else Ansi (an_x a) (an_y a) None
  | _ => Ansi (an_x a) (an_y a) None
  end.

Definition ansi_byte (a : ansi) (c : Z) : ansi :=
  match an_seq a with
  | Some (ps, n) =>
      if c =? ch "[" then a
      else if (48 <=? c) && (c <=? 57) then Ansi (an_x a) (an_y a) (Some (ps, 10 * n + (c - 48)))
      else if c =? ch ";" then Ansi (an_x a) (an_y a) (Some (ps ++ [n], 0))
      else ansi_final a (ps ++ [n]) c
  | None => if c =? LINE_ESC then Ansi (an_x a) (an_y a) (Some ([], 0)) else a
  end.

(** The program's cursor is that of a terminal that began at the top left. *)
Definition cursor_agrees (t : term) : Prop := foldl ansi_byte (Ansi 0 0 None) (term_sent t) = Ansi (term_cx t) (term_cy t) None.

(** Decimal digits are read back. *)
Lemma digits_ok fuel : ∀ n, 0 <= n < 10 ^ Z.of_nat fuel → Forall (λ c, 48 <= c <= 57) (digits fuel n) ∧ (length (digits fuel n) <= fuel)%nat ∧
  ∀ x y ps, foldl ansi_byte (Ansi x y (Some (ps, 0))) (digits fuel n) = Ansi x y (Some (ps, n)).
Proof.
  induction fuel as [|fuel IH]; intros n Hn; [cbn in *; assert (n = 0) as -> by lia; split; [constructor|split; [done|done]]|]. cbn [digits].
  assert (∀ d x y ps m, 0 <= d < 10 → ansi_byte (Ansi x y (Some (ps, m))) (48 + d) = Ansi x y (Some (ps, 10 * m + d))) as Hbyte.
  { intros d x y ps m Hd. unfold ansi_byte. cbn [an_seq an_x an_y]. rewrite (proj2 (Z.eqb_neq _ _)) by (cbn; lia). rewrite (proj2 (Z.leb_le 48 _)), (proj2 (Z.leb_le _ 57)) by lia.
    cbn [andb]. do 4 f_equal. lia. }
  destruct (Z.ltb_spec n 10).
  - split; [repeat constructor; lia|]. split; [cbn; lia|]. intros x y ps. cbn [foldl]. by rewrite Hbyte by lia.
  - pose proof (Z.mod_pos_bound n 10 ltac:(lia)). pose proof (Z.div_mod n 10 ltac:(lia)).
    destruct (IH (n / 10)) as (Hd1 & Hd2 & Hd3); [rewrite Nat2Z.inj_succ, Z.pow_succ_r in Hn by lia; split; [lia|]; apply Z.div_lt_upper_bound; lia|].
    split; [apply Forall_app; split; [done|repeat constructor; lia]|]. split; [rewrite length_app; cbn; lia|].
    intros x y ps. rewrite foldl_app, Hd3. cbn [foldl]. rewrite Hbyte by lia. do 3 f_equal. lia.
Qed.

Lemma foldl_term_out t bs : bytes_ok bs → foldl term_out t bs = Term (term_num_lines t) (term_num_cols t) (term_cx t) (term_cy t) (term_sent t ++ bs).
Proof.
  intros Hb. revert t. induction Hb as [|c bs Hc _ IH]; intros t; [cbn; rewrite app_nil_r; by destruct t|]. cbn [foldl]. rewrite IH. unfold term_out. cbn.
  by rewrite u8_id, <- app_assoc by done.
Qed.

(** A sequence that fits is sent whole. *)
Lemma term_ansi_sent t s : bytes_ok s → (length s <= 11)%nat →
  term_ansi t s = Some (Term (term_num_lines t) (term_num_cols t) (term_cx t) (term_cy t) (term_sent t ++ LINE_ESC :: ch "[" :: s)).
Proof.
  intros Hs Hl. unfold term_ansi. rewrite take_ge by (unfold TERM_MAX_ANSI_SIZE; lia). unfold term_putstr. rewrite mread_all. cbn [mbind option_bind].
  rewrite foldl_term_out; [done|]. apply bytes_ok_app. split; [repeat constructor; unfold byte_ok, LINE_ESC; lia|]. apply bytes_ok_app. split; [repeat constructor; unfold byte_ok; cbn; lia|done].
Qed.

Lemma digits_bytes fuel n : 0 <= n < 10 ^ Z.of_nat fuel → bytes_ok (digits fuel n).
Proof. intros Hn. destruct (digits_ok fuel n Hn) as (H & _ & _). eapply Forall_impl; [exact H|]. intros c Hc. cbn in Hc. unfold byte_ok. lia. Qed.

(** Fewer digits than the fuel allows. *)
Lemma digits_short fuel k n : (0 < k <= fuel)%nat → 0 <= n < 10 ^ Z.of_nat k → digits fuel n = digits k n.
Proof.
  revert fuel n. induction k as [|k IH]; intros fuel n Hf Hn; [lia|]. destruct fuel as [|fuel]; [lia|]. cbn [digits]. destruct (Z.ltb_spec n 10); [done|].
  pose proof (Z.div_mod n 10 ltac:(lia)). pose proof (Z.mod_pos_bound n 10 ltac:(lia)). rewrite Nat2Z.inj_succ, Z.pow_succ_r in Hn by lia.
  destruct k as [|k]; [cbn in Hn; lia|]. rewrite IH; [done|lia|]. split; [lia|]. apply Z.div_lt_upper_bound; lia.
Qed.

(** A command with one parameter. *)
Lemma ansi_one x y n c : 0 <= n < 10 ^ 10 → negb ((48 <=? c) && (c <=? 57)) && negb (c =? ch "[") && negb (c =? ch ";") = true →
  foldl ansi_byte (Ansi x y None) (LINE_ESC :: ch "[" :: digits 10 n ++ [c]) = ansi_final (Ansi x y (Some ([], n))) [n] c.
Proof.
  intros Hn Hc. apply andb_true_iff in Hc as [Hc H3]. apply andb_true_iff in Hc as [H1 H2]. destruct (digits_ok 10 n Hn) as (_ & _ & H).
  cbn [foldl]. change (ansi_byte (ansi_byte (Ansi x y None) LINE_ESC) (ch "[")) with (Ansi x y (Some ([], 0))). rewrite foldl_app, H. cbn [foldl]. unfold ansi_byte. cbn [an_seq].
  destruct (c =? ch "["); [done|]. destruct (_ && _); [done|]. by destruct (c =? ch ";").
Qed.

Lemma digits_length fuel k n : (0 < k <= fuel)%nat → 0 <= n < 10 ^ Z.of_nat k → (length (digits fuel n) <= k)%nat.
Proof. intros Hf Hn. rewrite (digits_short fuel k n Hf Hn). by destruct (digits_ok k n Hn) as (_ & H & _). Qed.

(** A move by [delta] with the final character [c]. *)
Lemma term_move t delta c : cursor_agrees t → 0 <= delta < 10 ^ 10 → byte_ok c → negb ((48 <=? c) && (c <=? 57)) && negb (c =? ch "[") && negb (c =? ch ";") = true →
  ∃ t', term_ansi t (digits 10 delta ++ [c]) = Some t' ∧ term_cx t' = term_cx t ∧ term_cy t' = term_cy t ∧
    foldl ansi_byte (Ansi 0 0 None) (term_sent t') = ansi_final (Ansi (term_cx t) (term_cy t) (Some ([], delta))) [delta] c.
Proof.
  intros Ht Hd Hb Hc. destruct (digits_ok 10 delta Hd) as (_ & Hlen & _). rewrite term_ansi_sent.
  - eexists. split; [reflexivity|]. split; [done|]. split; [done|]. cbn [term_sent]. unfold cursor_agrees in Ht. by rewrite foldl_app, Ht, ansi_one.
  - apply bytes_ok_app. split; [by apply digits_bytes|by apply bytes_ok_one].
  - rewrite length_app. cbn [length]. lia.
Qed.

(** Moving up and down, and to a position of a screen, keeps the cursors together. *)
Lemma term_moves_agree t delta x y : cursor_agrees t → 0 <= term_cx t < 4294967296 → 0 <= delta < 1000000000 → 0 <= x < 10000 → 0 <= y < 10000 →
  (delta <= term_cy t < 4294967296 → ∃ t', term_up t delta = Some t' ∧ cursor_agrees t' ∧ term_cy t' = term_cy t - delta) ∧
  (0 <= term_cy t < 4294967296 - delta → ∃ t', term_down t delta = Some t' ∧ cursor_agrees t' ∧ term_cy t' = term_cy t + delta) ∧
  ∃ t', term_gotoxy t x y = Some t' ∧ cursor_agrees t' ∧ term_cx t' = x ∧ term_cy t' = y.
Proof.
  intros Ht Hcx Hd Hx Hy. split; [|split].
  - intros Hc. unfold term_up. rewrite u32_id by lia. destruct (term_move t delta (ch "A") Ht ltac:(lia)) as (t1 & E & Ex & Ey & Ha); [unfold byte_ok; cbn; lia|done|].
    change (txt "A") with [ch "A"]. rewrite E. cbn [mbind option_bind]. eexists. split; [reflexivity|]. unfold cursor_agrees, set_cursor. cbn [term_sent term_cx term_cy].
    rewrite Ha, Ex, Ey, !u32_id by lia. done.
  - intros Hc. unfold term_down. rewrite u32_id by lia. destruct (term_move t delta (ch "B") Ht ltac:(lia)) as (t1 & E & Ex & Ey & Ha); [unfold byte_ok; cbn; lia|done|].
    change (txt "B") with [ch "B"]. rewrite E. cbn [mbind option_bind]. eexists. split; [reflexivity|]. unfold cursor_agrees, set_cursor. cbn [term_sent term_cx term_cy].
    rewrite Ha, Ex, Ey, !u32_id by lia. done.
  - unfold term_gotoxy. rewrite !u32_id by lia. change (txt ";") with [ch ";"]. change (txt "H") with [ch "H"].
    pose proof (digits_length 10 4 x ltac:(lia) ltac:(lia)). pose proof (digits_length 10 4 y ltac:(lia) ltac:(lia)). rewrite term_ansi_sent.
    + cbn [mbind option_bind]. eexists. split; [reflexivity|]. unfold cursor_agrees, set_cursor. cbn [term_sent term_cx term_cy]. unfold cursor_agrees in Ht.
      destruct (digits_ok 10 x ltac:(lia)) as (_ & _ & Hfx). destruct (digits_ok 10 y ltac:(lia)) as (_ & _ & Hfy). rewrite !u32_id by lia. split; [|done].
      rewrite foldl_app, Ht. cbn [foldl]. change (ansi_byte (ansi_byte _ LINE_ESC) (ch "[")) with (Ansi (term_cx t) (term_cy t) (Some ([], 0))).
      rewrite foldl_app, Hfy. cbn [Datatypes.app foldl]. change (ansi_byte _ (ch ";")) with (Ansi (term_cx t) (term_cy t) (Some ([y], 0))). by rewrite foldl_app, Hfx.
    + repeat (apply bytes_ok_app; split); try (apply digits_bytes; lia); apply bytes_ok_one; unfold byte_ok; cbn; lia.
    + rewrite !length_app. cbn [length]. lia.
Qed.

(** Moving right is taken for moving left, and the other way round. *)
Lemma term_right_disagrees t delta t' : cursor_agrees t → 0 < delta <= term_cx t → term_cx t < 1000000000 → 0 <= term_cy t < 4294967296 → term_right t delta = Some t' →
  term_cx t' = term_cx t - delta ∧ foldl ansi_byte (Ansi 0 0 None) (term_sent t') = Ansi (term_cx t + delta) (term_cy t) None.
Proof.
  intros Ht Hd Hx Hy E. unfold term_right in E. rewrite u32_id in E by lia. destruct (term_move t delta (ch "C") Ht ltac:(lia)) as (t1 & E1 & Ex & Ey & Ha); [unfold byte_ok; cbn; lia|done|].
  change (txt "C") with [ch "C"] in E. rewrite E1 in E. cbn [mbind option_bind] in E. injection E as <-. unfold set_cursor. cbn [term_sent term_cx].
  by rewrite Ha, Ex, u32_id by lia.
Qed.
