(* ===== verification/Shell.v ===== *)
(** * The shell: src/shell.c on the line editor of LineEdit.v

    A command line is read with the editor into the array [cmd] and changed there; a handler gets the position of its
    arguments in it. Files are those of the C library: a name has contents, a file that is opened for writing is made
    empty, and the file system takes as much of what is written as it has room for. Lua and the telnet socket are
    parameters; the file receiver is the one of Xmodem.v, the devices those of Devman.v. The build is one with
    BUILD_XMODEM and BUILD_CON_GENERIC. *)
From S2P Require Import Prelude Psock Net Console Devman Xmodem LineEdit.

Definition SHELL_ALT_SPACE : Z := 7.
Definition SHELL_MAXSIZE : Z := 50.
Definition SHELL_MAX_LUA_ARGS : Z := 8.
Definition CH_SPACE : Z := 32.
Definition CH_QUOTE : Z := 39.
Definition CH_DQUOTE : Z := 34.
Definition CH_LF : Z := 10.
Definition CH_CR : Z := 13.

Definition is_quote (c : Z) : bool := (c =? CH_QUOTE) || (c =? CH_DQUOTE).

Definition ELUA_STR_VERSION : mem := txt "v0.8".
Definition SHELL_PROMPT : mem := txt "eLua# ".
Definition SHELL_ERRMSG : mem := txt "Invalid command, type 'help' for help" ++ [CH_LF].
Definition SHELL_WELCOMEMSG : mem :=
  [CH_LF] ++ txt "eLua " ++ ELUA_STR_VERSION ++ txt "  Copyright (C) 2007-2011 www.eluaproject.net" ++ [CH_LF].
Definition SHELL_BADQUOTE : mem := txt "Invalid quoted string" ++ [CH_LF].

(** [strchr( m + i, c )] as an index of [m]. *)
Definition strchr_from (m : mem) (i c : Z) : option (option Z) :=
  if (i <? 0) || (msize m <? i) then None
  else r ← strchr (drop (Z.to_nat i) m) c; Some (option_map (Z.add i) r).

(** The string at [i]. *)
Definition str_at (m : mem) (i : Z) : option mem := if i <? 0 then None else cstr (drop (Z.to_nat i) m).

(** ** The command line *)

(** Carriage returns and line feeds become spaces. *)
Fixpoint crlf_loop (m : mem) : option mem :=
  match m with
  | [] => None
  | c :: m' =>
      if c =? 0 then Some m
      else r ← crlf_loop m'; Some ((if (c =? CH_CR) || (c =? CH_LF) then CH_SPACE else c) :: r)
  end.

(** Spaces inside quotes become [SHELL_ALT_SPACE]; the second result is [inside_quotes]. *)
Fixpoint quote_loop (m : mem) (inside_quotes : bool) (quote_char : Z) : option (mem * bool) :=
  match m with
  | [] => None
  | c :: m' =>
      if c =? 0 then Some (m, inside_quotes)
      else
        let '(c, inside_quotes, quote_char) :=
          if is_quote c then
            if negb inside_quotes then (c, true, c)
            else if c =? quote_char then (c, false, 0) else (c, inside_quotes, quote_char)
          else if (c =? CH_SPACE) && inside_quotes then (SHELL_ALT_SPACE, inside_quotes, quote_char)
          else (c, inside_quotes, quote_char) in
        '(r, ins) ← quote_loop m' inside_quotes quote_char; Some (c :: r, ins)
  end.

(** The inner loop over the spaces at [temp]: [memmove( temp, temp + 1, strlen( temp ) )]. *)
Fixpoint squeeze_loop (fuel : nat) (m : mem) (temp : Z) : option mem :=
  match fuel with
  | O => None
  | S fuel =>
      c ← ld m temp;
      if negb (c =? 0) && (c =? CH_SPACE) then
        t ← str_at m temp;
        bs ← mread m (temp + 1) (msize t);
        m ← mwrite m temp bs;
        squeeze_loop fuel m temp
      else Some m
  end.

(** The loop over the spaces of the line, from [p]. *)
Fixpoint spaces_loop (fuel : nat) (m : mem) (p : option Z) : option mem :=
  match fuel, p with
  | _, None => Some m
  | O, _ => None
  | S fuel, Some p =>
      m ← squeeze_loop (length m) m (p + 1);
      p ← strchr_from m (p + 1) CH_SPACE;
      spaces_loop fuel m p
  end.

Inductive shell_handler := shell_help | shell_lua | shell_recv | shell_ver | shell_ls | shell_cat | shell_cp.

Definition shell_commands : list (mem * option shell_handler) :=
  [(txt "help", Some shell_help); (txt "lua", Some shell_lua); (txt "recv", Some shell_recv); (txt "ver", Some shell_ver);
   (txt "exit", None); (txt "ls", Some shell_ls); (txt "dir", Some shell_ls); (txt "cat", Some shell_cat);
   (txt "type", Some shell_cat); (txt "cp", Some shell_cp)].

Fixpoint find_command (l : list (mem * option shell_handler)) (temp : mem) : option (option shell_handler) :=
  match l with
  | [] => None
  | (cmd, h) :: l => if caseeq cmd temp then Some h else find_command l temp
  end.

(** What a line asks for: nothing, a message, or a handler (none for "exit") with the position of its arguments. *)
Inductive shell_action := ANothing | AMessage (text : mem) | ARun (h : option shell_handler) (args : Z).

(** The line feed that the loops need at the end. *)
Definition append_newline (cmd : mem) : option mem :=
  n ← strlen cmd;
  c ← ld cmd (n - 1);
  if negb (c =? CH_LF) then c_strcat cmd [CH_LF; 0] else Some cmd.

(** From the line to the action, for a line that is not empty. *)
Definition shell_parse (cmd : mem) : option (mem * shell_action) :=
  cmd ← append_newline cmd;
  cmd ← crlf_loop cmd;
  '(cmd, inside_quotes) ← quote_loop cmd false 0;
  if (inside_quotes : bool) then Some (cmd, AMessage SHELL_BADQUOTE)
  else
    p ← strchr_from cmd 0 CH_SPACE;
    cmd ← spaces_loop (S (length cmd)) cmd p;
    n ← strlen cmd;
    if n =? 1 then Some (cmd, ANothing)
    else
      c ← ld cmd 0;
      let temp := if c =? CH_SPACE then 1 else 0 in
      p ← strchr_from cmd temp CH_SPACE;
      match p with
      | None => Some (cmd, AMessage SHELL_ERRMSG)
      | Some p =>
          cmd ← st cmd p 0;
          name ← str_at cmd temp;
          Some (cmd, match find_command shell_commands name with None => AMessage SHELL_ERRMSG | Some h => ARun h (p + 1) end)
      end.

(** ** The arguments of "lua" *)

(** The loop that turns the alternate characters of the argument at [temp] back: the memory and the end of the
    argument. *)
Fixpoint alt_loop (m : mem) : option (mem * Z) :=
  match m with
  | [] => None
  | c :: m' =>
      if c =? 0 then Some (m, 0)
      else '(r, e) ← alt_loop m'; Some ((if c =? SHELL_ALT_SPACE then CH_SPACE else c) :: r, e + 1)
  end.

(** A quoted argument at [temp]: its quotes go. *)
Definition unquote_arg (m : mem) (temp : Z) : option (mem * Z) :=
  c ← ld m temp;
  if is_quote c then
    '(t, e) ← alt_loop (drop (Z.to_nat (temp + 1)) m);
    m ← st (take (Z.to_nat (temp + 1)) m ++ t) (temp + 1 + e - 1) 0;
    Some (m, temp + 1)
  else Some (m, temp).

(** The loop over the spaces: [argv] has the positions of [lua_argv] from the second on, and the result is [inr] when
    there are too many. *)
Fixpoint lua_args_loop (fuel : nat) (m : mem) (argv : list Z) (prev : Z) (p : option Z) : option (mem * (list Z + unit)) :=
  match fuel, p with
  | _, None => Some (m, inl argv)
  | O, _ => None
  | S fuel, Some p =>
      if Z.of_nat (length argv) =? SHELL_MAX_LUA_ARGS then Some (m, inr tt)
      else
        m ← st m p 0;
        q ← strchr_from m (p + 1) CH_SPACE;
        '(m, a) ← unquote_arg m prev;
        lua_args_loop fuel m (argv ++ [a]) (p + 1) q
  end.

(** The strings of [lua_argv], or the message. *)
Definition lua_args (m : mem) (args : Z) : option (mem * (list mem + mem)) :=
  c ← ld m args;
  '(m, r) ← (if negb (c =? 0) then
      p ← strchr_from m args CH_SPACE; lua_args_loop (S (length m)) m [] args p
    else Some (m, inl []));
  match r with
  | inr _ => Some (m, inr (txt "Too many arguments to 'lua' (maxim 8)" ++ [CH_LF]))
  | inl argv => l ← mapM (str_at m) argv; Some (m, inl (txt "lua" :: l))
  end.

(** ** The handlers *)

(** The files of the C library: the contents of each name, whether a name can be opened for writing, and the room that
    is left. *)
Record stdio := Stdio { contents : gmap mem mem; writable : mem → bool; room : Z }.

Definition fopen_wb (f : stdio) (nm : mem) : option stdio :=
  if writable f nm then Some (Stdio (<[nm := []]> (contents f)) (writable f) (room f)) else None.

(** [fread( buf, 1, n, fp )] at a position: what is read. *)
Definition fread (f : stdio) (nm : mem) (pos n : Z) : mem :=
  take (Z.to_nat n) (drop (Z.to_nat pos) (default [] (contents f !! nm))).

(** [fwrite], to the end of a file opened for writing. *)
Definition fwrite (f : stdio) (nm : mem) (data : mem) : stdio :=
  let d := take (Z.to_nat (room f)) data in
  Stdio (<[nm := default [] (contents f !! nm) ++ d]> (contents f)) (writable f) (room f - msize d).

(** The state around the shell: what it prints, the files, the devices, the serial line of the receiver, and the state
    of Lua. *)
Record world {D X L : Type} := World { w_out : mem; w_files : stdio; w_dm : dm_state (W := D); w_line : X; w_lua : L }.
Arguments world : clear implicits.
Arguments World {D X L} _ _ _ _ _.

Definition shell_help_text : mem :=
  concat ((λ s, txt s ++ [CH_LF]) <$>
    ["Shell commands:"; "  exit        - exit from this shell"; "  help        - print this help"; "  ls or dir   - lists filesystems files and sizes";
     "  cat or type - lists file contents"; "  lua [args]  - run Lua with the given arguments"; "  recv        - receive a file via XMODEM and execute it";
     "  cp <src> <dst> - copy source file 'src' to 'dst'"; "  ver         - print eLua version"]%string).

Definition shell_ver_text : mem :=
  txt "eLua version " ++ ELUA_STR_VERSION ++ [CH_LF]
  ++ txt "For more information visit www.eluaproject.net and wiki.eluaproject.net" ++ [CH_LF].

Definition cat_usage : mem := txt "Usage: cat (or type) <filename1> [<filename2> ...]" ++ [CH_LF].

Section handlers.
Context {D X L : Type}.
Abbreviation W := (world D X L).

Definition printf (w : W) (s : mem) : W := World (w_out w ++ s) (w_files w) (w_dm w) (w_line w) (w_lua w).
Definition set_files (w : W) (f : stdio) : W := World (w_out w) f (w_dm w) (w_line w) (w_lua w).
Definition set_dm (w : W) (d : dm_state) : W := World (w_out w) (w_files w) d (w_line w) (w_lua w).
Definition set_line (w : W) (x : X) : W := World (w_out w) (w_files w) (w_dm w) x (w_lua w).

(** *** cat *)

(** The characters from [pos] to the end of the file. *)
Fixpoint cat_loop (fuel : nat) (w : W) (nm : mem) (pos : Z) : option W :=
  match fuel with
  | O => None
  | S fuel =>
      match fread (w_files w) nm pos 1 with
      | c :: _ => cat_loop fuel (printf w [u8 c]) nm (pos + 1)
      | [] => Some w
      end
  end.

Definition cat_file (w : W) (nm : mem) : option W :=
  match contents (w_files w) !! nm with
  | Some data => cat_loop (S (length data)) w nm 0
  | None => Some (printf w (txt "File " ++ nm ++ txt " not found" ++ [CH_LF]))
  end.

Fixpoint cat_args (fuel : nat) (w : W) (m : mem) (args : Z) : option (W * mem) :=
  match fuel with
  | O => None
  | S fuel =>
      c ← ld m args;
      if negb (c =? 0) then
        r ← strchr_from m args CH_SPACE;
        p ← r;
        m ← st m p 0;
        nm ← str_at m args;
        w ← cat_file w nm;
        cat_args fuel w m (p + 1)
      else Some (w, m)
  end.

Definition do_cat (w : W) (m : mem) (args : Z) : option (W * mem) :=
  c ← ld m args;
  if negb (c =? 0) then cat_args (S (length m)) w m args
  else Some (printf w cat_usage, m).

(** *** cp *)

Section copy.
Context (SHELL_COPY_BUFSIZE : Z).

Fixpoint cp_loop (fuel : nat) (f : stdio) (src dst : mem) (pos total : Z) : option (stdio * Z) :=
  match fuel with
  | O => None
  | S fuel =>
      let d := fread f src pos SHELL_COPY_BUFSIZE in
      let f := fwrite f dst d in
      let total := u32 (total + msize d) in
      if msize d <? SHELL_COPY_BUFSIZE then Some (f, total) else cp_loop fuel f src dst (pos + msize d) total
  end.

(** [malloc] of the buffer: [mem_ok]. The second result is [res]. *)
Definition cp_files (mem_ok : bool) (fuel : nat) (w : W) (src dst : mem) : option (W * bool) :=
  match contents (w_files w) !! src with
  | None => Some (printf w (txt "Unable to open " ++ src ++ txt " for reading" ++ [CH_LF]), false)
  | Some _ =>
      match fopen_wb (w_files w) dst with
      | None => Some (printf w (txt "Unable to open " ++ dst ++ txt " for writing" ++ [CH_LF]), false)
      | Some f =>
          let w := set_files w f in
          if negb mem_ok then Some (printf w (txt "Not enough memory" ++ [CH_LF]), false)
          else
            '(f, total) ← cp_loop fuel f src dst 0 0;
            Some (printf (set_files w f) (digits 10 total ++ txt " bytes copied" ++ [CH_LF]), true)
      end
  end.

Definition do_cp (mem_ok : bool) (fuel : nat) (w : W) (m : mem) (args : Z) : option (W * mem) :=
  c ← ld m args;
  '(w, m, res) ← (if negb (c =? 0) then
      p1 ← strchr_from m args CH_SPACE;
      match p1 with
      | None => Some (w, m, false)
      | Some p1 =>
          m ← st m p1 0;
          p2 ← strchr_from m (p1 + 1) CH_SPACE;
          match p2 with
          | None => Some (w, m, false)
          | Some p2 =>
              m ← st m p2 0;
              src ← str_at m args;
              dst ← str_at m (p1 + 1);
              '(w, res) ← cp_files mem_ok fuel w src dst;
              Some (w, m, res)
          end
      end
    else Some (w, m, false));
  Some (if (res : bool) then w else printf w (txt "Syntax error." ++ [CH_LF]), m).
End copy.

(** *** recv *)

(** The loop over the padding of the last packet, from its end. *)
Fixpoint pad_loop (fuel : nat) (m : mem) (p : Z) : option Z :=
  match fuel with
  | O => None
  | S fuel => c ← ld m p; if c =? 26 then pad_loop fuel m (p - 1) else Some p
  end.

(** Lua: a message is that of an error. *)
Class LuaVm := {
  lua_open : W → W * bool;
  luaL_openlibs : W → W;
  luaL_loadbuffer : W → mem → W * option mem;
  lua_pcall : W → W * option mem;
  lua_close : W → W;
  lua_main : W → list mem → W
}.

Section lua.
Context {vm : LuaVm} (xin : X → Z → X * Z) (xout : X → Z → X) (realloc : mem → Z → option mem).

Definition lua_error (w : W) (msg : option mem) : W :=
  match msg with Some s => printf w (txt "Error: " ++ s ++ [CH_LF]) | None => w end.

(** The program in [shell_prog] is run. *)
Definition run_prog (w : W) (prog : mem) : W :=
  let '(w, ok) := lua_open w in
  if negb ok then printf w (txt "Unable to create Lua state" ++ [CH_LF])
  else
    let w := luaL_openlibs w in
    let '(w, e) := luaL_loadbuffer w prog in
    let w := match e with
             | Some _ => lua_error w e
             | None => let '(w, e) := lua_pcall w in lua_error w e
             end in
    lua_close w.

(** [dest] is what [malloc] gives for [shell_prog], [buf] the receiver's local buffer; [fuel] and [ff] are those of
    [xmodem_receive]. *)
Definition do_recv (dest : option mem) (buf : mem) (fuel ff : nat) (w : W) : option W :=
  match dest with
  | None => Some (printf w (txt "Unable to allocate memory" ++ [CH_LF]))
  | Some dest =>
      let w := printf w (txt "Waiting for file ... ") in
      '(x, prog, actsize) ← xmodem_receive xin xout realloc fuel ff (w_line w) buf dest;
      let w := set_line w x in
      if actsize <? 0 then
        Some (printf w (if actsize =? XMODEM_ERROR_OUTOFMEM then txt "file too big" ++ [CH_LF] else txt "XMODEM error" ++ [CH_LF]))
      else
        p ← pad_loop (S (length prog)) prog (actsize - 1);
        let p := p + 1 in
        let w := printf w (txt "done, got " ++ digits 10 (u32 p) ++ txt " bytes" ++ [CH_LF]) in
        prog ← mread prog 0 p;
        Some (run_prog w prog)
  end.

(** *** lua *)

Definition do_lua (w : W) (m : mem) (args : Z) : option (W * mem) :=
  '(m, r) ← lua_args m args;
  Some (match r with
        | inr msg => printf w msg
        | inl argv => lua_main (printf w (txt "Press CTRL+Z to exit Lua" ++ [CH_LF])) argv
        end, m).
End lua.

(** *** ls *)

Section ls.
(** The entry at the pointer that [dm_readdir] gives: its name and size. *)
Context (set_errno : D → Z → D) (dirent : D → Z → option (mem * Z)) (dir_room : bool).

Definition ls_entry (fn : mem) (fsize : Z) : mem :=
  [CH_LF] ++ fn ++ replicate (Z.to_nat (RomFs.DM_MAX_FNAME_LENGTH + 1 - msize fn)) CH_SPACE ++ digits 10 fsize ++ txt " bytes".

Fixpoint ls_dir (fuel : nat) (w : W) (d : DM_DIR) (total : Z) : option (W * Z) :=
  match fuel with
  | O => None
  | S fuel =>
      '(s, e) ← dm_readdir set_errno (w_dm w) d;
      let w := set_dm w s in
      if e =? 0 then Some (w, total)
      else
        '(fn, fsize) ← dirent (Devman.world s) e;
        ls_dir fuel (printf w (ls_entry fn fsize)) d (u32 (total + fsize))
  end.

Definition ls_device (fuel : nat) (w : W) (pdev : DM_DEVICE (W := D)) : option W :=
  match p_opendir_r pdev, p_readdir_r pdev, p_closedir_r pdev with
  | Some _, Some _, Some _ =>
      nm ← cstr (name pdev);
      '(s, d) ← dm_opendir set_errno dir_room (w_dm w) (name pdev);
      let w := set_dm w s in
      match d with
      | None => Some w
      | Some d =>
          '(w, total) ← ls_dir fuel (printf w ([CH_LF] ++ nm)) d 0;
          let w := printf w ([CH_LF; CH_LF] ++ txt "Total on " ++ nm ++ txt ": " ++ digits 10 total ++ txt " bytes" ++ [CH_LF]) in
          '(s, _) ← dm_closedir set_errno (w_dm w) d;
          Some (set_dm w s)
      end
  | _, _, _ => Some w
  end.

(** The devices from [dev] on; [n] are left. *)
Fixpoint ls_devices (n : nat) (fuel : nat) (w : W) (dev : Z) : option W :=
  match n with
  | O => Some w
  | S n =>
      pdev ← dm_get_device_at (w_dm w) dev;
      w ← ls_device fuel w pdev;
      ls_devices n fuel w (dev + 1)
  end.

Definition do_ls (fuel : nat) (w : W) : option W :=
  w ← ls_devices (Z.to_nat (dm_get_num_devices (w_dm w))) fuel w 0;
  Some (printf w [CH_LF]).
End ls.

(** ** The loop *)

(** What the shell uses of the system: the terminal's width, the length of its history, the serial line, the allocator
    (the results of [malloc], and [realloc]), the devices, Lua, the bound of the loops that are not structural, and, in
    a build with the TCP/IP stack, the telnet socket. *)
Record shell_env := ShellEnv {
  env_cols : Z; env_history : Z;
  env_in : X → Z → X * Z; env_out : X → Z → X; env_realloc : mem → Z → option mem;
  env_prog : option mem; env_packet : mem; env_copy_size : Z; env_copy_ok : bool;
  env_errno : D → Z → D; env_dirent : D → Z → option (mem * Z); env_dir_room : bool;
  env_fuel : nat;
  env_uip : bool; elua_net_get_telnet_socket : W → Z; elua_net_close : W → Z → W
}.

Section start.
Context {vm : LuaVm} (env : shell_env).

Definition run_handler (h : shell_handler) (w : W) (cmd : mem) (args : Z) : option (W * mem) :=
  match h with
  | shell_help => Some (printf w shell_help_text, cmd)
  | shell_lua => do_lua w cmd args
  | shell_recv =>
      w ← do_recv (env_in env) (env_out env) (env_realloc env) (env_prog env) (env_packet env) (env_fuel env) (env_fuel env) w;
      Some (w, cmd)
  | shell_ver => Some (printf w shell_ver_text, cmd)
  | shell_ls => w ← do_ls (env_errno env) (env_dirent env) (env_dir_room env) (env_fuel env) w; Some (w, cmd)
  | shell_cat => do_cat w cmd args
  | shell_cp => do_cp (env_copy_size env) (env_copy_ok env) (env_fuel env) w cmd args
  end.

(** A line that was read: the last result is whether the shell ends. *)
Definition shell_exec (w : W) (hist : list mem) (cmd : mem) : option (W * list mem * mem * bool) :=
  n ← strlen cmd;
  if n =? 0 then Some (w, hist, cmd, false)
  else
    line ← cstr cmd;
    '(hist, _) ← linenoise_addhistory (env_history env) hist line;
    '(cmd, a) ← shell_parse cmd;
    match a with
    | ANothing => Some (w, hist, cmd, false)
    | AMessage text => Some (printf w text, hist, cmd, false)
    | ARun (Some h) args => '(w, cmd) ← run_handler h w cmd args; Some (w, hist, cmd, false)
    | ARun None _ =>
        if env_uip env then
          let i := elua_net_get_telnet_socket env w in
          Some (if negb (i =? -1) then elua_net_close env w i else w, hist, cmd, false)
        else Some (w, hist, cmd, true)
    end.

(** The loop: it waits when there are no more keys. The editor gets the part of [cmd] that it is told of. The results
    are the state, the history, the line, the keys that are left and whether the shell has ended. *)
Fixpoint shell_loop (fuel : nat) (w : W) (hist : list mem) (cmd : mem) (keys : list Z) : option (W * list mem * mem * list Z * bool) :=
  match fuel with
  | O => None
  | S fuel =>
      '(e, keys, r) ← linenoise_getline (env_cols env) SHELL_PROMPT (env_history env) (SHELL_MAXSIZE - 1)
        (take (Z.to_nat SHELL_MAXSIZE) cmd) hist (w_out w) keys;
      let w := World (ed_out e) (w_files w) (w_dm w) (w_line w) (w_lua w) in
      let cmd := ed_buf e ++ drop (Z.to_nat SHELL_MAXSIZE) cmd in
      match r with
      | None => Some (w, ed_hist e, cmd, keys, false)
      | Some count =>
          if count =? -1 then shell_loop fuel (printf w [CH_LF]) (ed_hist e) cmd keys
          else
            '(w, hist, cmd, done) ← shell_exec w (ed_hist e) cmd;
            if (done : bool) then Some (w, hist, cmd, keys, true) else shell_loop fuel w hist cmd keys
      end
  end.

Definition shell_start (w : W) (hist : list mem) (cmd : mem) (keys : list Z) : option (W * list mem * mem * list Z * bool) :=
  shell_loop (S (length keys)) (printf w SHELL_WELCOMEMSG) hist cmd keys.
End start.
End handlers.
