(* ===== verification/ShellSpec.v ===== *)
(** * What a command line means to the shell of Shell.v

    A line is a list of words; quotes keep the blanks between them. *)
From S2P Require Import Prelude Psock Net Console Devman Xmodem LineEdit LineSpec Shell.

Definition blank (c : Z) : bool := (c =? CH_SPACE) || (c =? CH_CR) || (c =? CH_LF).

(** A word that ends, when it is not empty. *)
Definition flush_word (cur : mem) : list mem := match cur with [] => [] | _ => [cur] end.

(** The words of a line, with their quotes; [q] is the quote that is open or 0, [cur] the word so far. Nothing when a
    quote is left open. *)
Fixpoint tokens (s : mem) (q : Z) (cur : mem) : option (list mem) :=
  match s with
  | [] => if q =? 0 then Some (flush_word cur) else None
  | c :: s =>
      if negb (q =? 0) then tokens s (if c =? q then 0 else q) (cur ++ [c])
      else if is_quote c then tokens s c (cur ++ [c])
      else if blank c then ws ← tokens s 0 []; Some (flush_word cur ++ ws)
      else tokens s 0 (cur ++ [c])
  end.

(** A word as it is in the line that the handlers get. *)
Definition hide (w : mem) : mem := (λ c, if blank c then SHELL_ALT_SPACE else c) <$> w.

Definition hide_words (ws : list mem) : list mem := hide <$> ws.

Definition args_of (ws : list mem) : mem := concat ((λ w, hide w ++ [CH_SPACE]) <$> ws).

(** An argument of "lua": when it starts with a quote, what is between its first and last character. *)
Definition unhide (w : mem) : mem := (λ c, if c =? SHELL_ALT_SPACE then CH_SPACE else c) <$> w.

Definition arg_value (w : mem) : mem :=
  match hide w with
  | c :: t => if is_quote c then unhide (take (length t - 1) t) else c :: t
  | [] => []
  end.

(** ** The stages on a string *)

Definition norm (s : mem) : mem := (λ c, if (c =? CH_CR) || (c =? CH_LF) then CH_SPACE else c) <$> s.

Fixpoint hidden (s : mem) (q : Z) : mem * bool :=
  match s with
  | [] => ([], negb (q =? 0))
  | c :: s =>
      let '(c', q) := if is_quote c then (c, if q =? 0 then c else if c =? q then 0 else q)
                      else (if (c =? CH_SPACE) && negb (q =? 0) then SHELL_ALT_SPACE else c, q) in
      let r := hidden s q in (c' :: r.1, r.2)
  end.

(** Spaces that follow a space go. *)
Fixpoint collapse (s : mem) (after_space : bool) : mem :=
  match s with
  | [] => []
  | c :: s => if c =? CH_SPACE then if after_space then collapse s true else c :: collapse s true else c :: collapse s false
  end.

Fixpoint words (s : mem) (cur : mem) : list mem :=
  match s with
  | [] => flush_word cur
  | c :: s => if c =? CH_SPACE then flush_word cur ++ words s [] else words s (cur ++ [c])
  end.

Lemma crlf_ok s r : nonzero s → crlf_loop (s ++ 0 :: r) = Some (norm s ++ 0 :: r).
Proof. induction 1 as [|c s Hc _ IH]; [done|]. cbn [app crlf_loop]. rewrite (proj2 (Z.eqb_neq c 0)) by done. by rewrite IH. Qed.

Lemma norm_nonzero s : nonzero s → nonzero (norm s).
Proof. intros H. apply Forall_fmap. eapply Forall_impl; [exact H|]. intros c Hc. cbn. by destruct (_ || _). Qed.

Lemma is_quote_inv c : is_quote c = true → c = CH_QUOTE ∨ c = CH_DQUOTE.
Proof. unfold is_quote. intros [H|H]%orb_true_iff; apply Z.eqb_eq in H; [by left|by right]. Qed.

Lemma quotes_ok s : ∀ q r, nonzero s → quote_loop (s ++ 0 :: r) (negb (q =? 0)) q = Some ((hidden s q).1 ++ 0 :: r, (hidden s q).2).
Proof.
  induction s as [|c s IH]; intros q r Hs; [done|]. apply Forall_cons in Hs as [Hc Hs].
  cbn [app quote_loop hidden]. rewrite (proj2 (Z.eqb_neq c 0)) by done. destruct (is_quote c) eqn:Eq.
  - rewrite negb_involutive. destruct (Z.eqb_spec q 0) as [->|Hq].
    + pose proof (IH c r Hs) as E. rewrite (proj2 (Z.eqb_neq c 0)) in E by done. cbn [negb] in E. by rewrite E.
    + destruct (Z.eqb_spec c q) as [->|Hcq].
      * pose proof (IH 0 r Hs) as E. change (negb (0 =? 0)) with false in E. by rewrite E.
      * pose proof (IH q r Hs) as E. rewrite (proj2 (Z.eqb_neq q 0)) in E by done. cbn [negb] in *. by rewrite E.
  - destruct ((c =? CH_SPACE) && negb (q =? 0)); by rewrite (IH q r Hs).
Qed.

Lemma hidden_nonzero s : ∀ q, nonzero s → nonzero (hidden s q).1.
Proof.
  induction s as [|c s IH]; intros q Hs; [constructor|]. apply Forall_cons in Hs as [Hc Hs]. cbn [hidden].
  destruct (is_quote c); [constructor; [done|by apply IH]|]. cbn [fst]. constructor; [|by apply IH]. by destruct (_ && _).
Qed.

(** ** The tokens are the words of the hidden line *)

Lemma hide_app a b : hide (a ++ b) = hide a ++ hide b.
Proof. apply fmap_app. Qed.

Lemma hide_flush cur : hide <$> flush_word cur = flush_word (hide cur).
Proof. by destruct cur. Qed.

Lemma tokens_words s : ∀ q cur, (q = 0 ∨ is_quote q = true) →
  let '(t, ins) := hidden (norm s) q in
  hide_words <$> tokens s q cur = if (ins : bool) then None else Some (words t (hide cur)).
Proof.
  induction s as [|c s IH]; intros q cur Hq.
  - cbn. destruct (q =? 0); [|done]. cbn. by rewrite hide_flush.
  - cbn [norm fmap list_fmap hidden tokens].
    assert (blank c = true → is_quote c = false) as Hbq.
    { unfold blank, is_quote. destruct (Z.eqb_spec c CH_SPACE) as [->|]; [done|]. destruct (Z.eqb_spec c CH_CR) as [->|]; [done|].
      destruct (Z.eqb_spec c CH_LF) as [->|]; done. }
    fold (norm s). destruct (blank c) eqn:Eb.
    + rewrite (Hbq eq_refl).
      assert ((if (c =? CH_CR) || (c =? CH_LF) then CH_SPACE else c) = CH_SPACE) as ->.
      { revert Eb. unfold blank. destruct (Z.eqb_spec c CH_SPACE) as [->|]; [done|]. by cbn [orb]; intros ->. }
      change (is_quote CH_SPACE) with false. change (CH_SPACE =? CH_SPACE) with true. cbn [andb].
      destruct (Z.eqb_spec q 0) as [->|Hq0]; cbn [negb].
      * pose proof (IH 0 [] ltac:(by left)) as E. destruct (hidden (norm s) 0) as [t ins]. cbn [fst snd words].
        change (CH_SPACE =? CH_SPACE) with true. cbv iota. destruct (tokens s 0 []) as [ws|]; cbn [mbind option_bind fmap option_fmap option_map] in *.
        -- destruct ins; [done|]. injection E as E. cbn [hide fmap list_fmap] in E. unfold hide_words in *. rewrite fmap_app, hide_flush, E. done.
        -- by destruct ins.
      * assert ((c =? q) = false) as -> by (apply Z.eqb_neq; intros ->; destruct Hq as [|Hq]; [done|by rewrite Hbq in Hq]).
        pose proof (IH q (cur ++ [c]) Hq) as E. destruct (hidden (norm s) q) as [t ins]. cbn [fst snd words].
        change (SHELL_ALT_SPACE =? CH_SPACE) with false. cbv iota. rewrite hide_app in E. cbn [hide fmap list_fmap] in E. by rewrite Eb in E.
    + assert ((if (c =? CH_CR) || (c =? CH_LF) then CH_SPACE else c) = c ∧ (c =? CH_SPACE) = false) as [-> Ens].
      { revert Eb. unfold blank. by destruct (c =? CH_SPACE), (c =? CH_CR), (c =? CH_LF). }
      rewrite Ens. cbn [andb].
      assert (∀ q', (q' = 0 ∨ is_quote q' = true) → let '(t, ins) := hidden (norm s) q' in
        hide_words <$> tokens s q' (cur ++ [c]) = if (ins : bool) then None else Some (words (c :: t) (hide cur))) as Hgo.
      { intros q' Hq'. pose proof (IH q' (cur ++ [c]) Hq') as E. destruct (hidden (norm s) q') as [t ins]. cbn [words]. rewrite Ens.
        rewrite hide_app in E. cbn [hide fmap list_fmap] in E. by rewrite Eb in E. }
      destruct (is_quote c) eqn:Ec.
      * destruct (Z.eqb_spec q 0) as [->|Hq0]; cbn [negb].
        -- specialize (Hgo c ltac:(by right)). by destruct (hidden (norm s) c).
        -- specialize (Hgo (if c =? q then 0 else q)). destruct (c =? q); [specialize (Hgo ltac:(by left))|specialize (Hgo Hq)]; by destruct (hidden (norm s) _).
      * specialize (Hgo q Hq). destruct (Z.eqb_spec q 0) as [->|Hq0]; cbn [negb]; [by destruct (hidden (norm s) 0)|].
        assert ((c =? q) = false) as -> by (apply Z.eqb_neq; intros ->; destruct Hq as [|Hq]; [done|by rewrite Hq in Ec]). by destruct (hidden (norm s) q).
Qed.

(** ** The words are what is between the spaces *)

Definition joined (ws : list mem) : mem := concat ((λ w, w ++ [CH_SPACE]) <$> ws).

Lemma joined_app a b : joined (a ++ b) = joined a ++ joined b.
Proof. unfold joined. by rewrite fmap_app, concat_app. Qed.

Lemma args_joined ws : args_of ws = joined (hide_words ws).
Proof. unfold args_of, joined, hide_words. by rewrite <- list_fmap_compose. Qed.

Lemma collapse_words t : ∀ cur,
  cur ++ collapse (t ++ [CH_SPACE]) (bool_decide (cur = [])) = joined (words t cur).
Proof.
  induction t as [|c t IH]; intros cur.
  - destruct cur as [|x cur]; [done|]. cbn [app collapse words flush_word]. change (CH_SPACE =? CH_SPACE) with true. cbv iota.
    rewrite bool_decide_eq_false_2 by done. unfold joined. cbn. by rewrite app_nil_r.
  - cbn [app collapse words]. destruct (Z.eqb_spec c CH_SPACE) as [->|Hc].
    + pose proof (IH []) as E. rewrite bool_decide_eq_true_2 in E by done. cbn [app] in E. rewrite joined_app, <- E. destruct cur as [|x cur].
      * by rewrite bool_decide_eq_true_2 by done.
      * rewrite bool_decide_eq_false_2 by done. cbn [flush_word joined fmap list_fmap concat]. unfold joined. cbn. by rewrite app_nil_r, <- app_assoc.
    + pose proof (IH (cur ++ [c])) as E. rewrite bool_decide_eq_false_2 in E by (by destruct cur). by rewrite <- E, <- app_assoc.
Qed.

(** The words have no space and are not empty. *)
Definition word_ok (w : mem) : Prop := w ≠ [] ∧ Forall (λ c, c ≠ 0 ∧ c ≠ CH_SPACE) w.

Lemma words_ok t : ∀ cur, nonzero t → Forall (λ c, c ≠ 0 ∧ c ≠ CH_SPACE) cur → Forall word_ok (words t cur).
Proof.
  assert (∀ cur, Forall (λ c, c ≠ 0 ∧ c ≠ CH_SPACE) cur → Forall word_ok (flush_word cur)) as Hf.
  { intros [|x cur] H; [constructor|]. constructor; [|constructor]. by split. }
  induction t as [|c t IH]; intros cur Ht Hc; [by apply Hf|]. apply Forall_cons in Ht as [Hc0 Ht]. cbn [words].
  destruct (Z.eqb_spec c CH_SPACE) as [->|Hcs].
  - apply Forall_app. split; [by apply Hf|]. by apply IH.
  - apply IH; [done|]. apply Forall_app. split; [done|]. by constructor.
Qed.

Lemma to_nat_msize (m : mem) : Z.to_nat (msize m) = length m.
Proof. unfold msize. apply Nat2Z.id. Qed.

Lemma str_at_app pre s post : nonzero s → str_at (pre ++ s ++ 0 :: post) (msize pre) = Some s.
Proof.
  intros Hs. unfold str_at. rewrite (proj2 (Z.ltb_ge _ 0)) by apply msize_nonneg. rewrite to_nat_msize, drop_app_length. by apply cstr_app.
Qed.

Lemma ld_mid pre c post : ld (pre ++ c :: post) (msize pre) = Some c.
Proof. apply ld_Some_iff. split; [apply msize_nonneg|]. unfold msize. by rewrite Nat2Z.id, list_lookup_middle. Qed.

Lemma strchr_from_found pre a c post : Forall (λ x, x ≠ 0 ∧ x ≠ c) a →
  strchr_from (pre ++ a ++ c :: post) (msize pre) c = Some (Some (msize pre + msize a)).
Proof.
  intros Ha. unfold strchr_from. pose proof (msize_nonneg pre). pose proof (msize_nonneg (a ++ c :: post)).
  rewrite (proj2 (Z.ltb_ge (msize pre) 0)) by lia. rewrite (proj2 (Z.ltb_ge _ (msize pre))) by (rewrite msize_app; lia). cbn [orb].
  rewrite to_nat_msize, drop_app_length, strchr_spec by done. done.
Qed.

Lemma strchr_from_none pre a c post : c ≠ 0 → Forall (λ x, x ≠ 0 ∧ x ≠ c) a → strchr_from (pre ++ a ++ 0 :: post) (msize pre) c = Some None.
Proof.
  intros Hc Ha. unfold strchr_from. pose proof (msize_nonneg pre). pose proof (msize_nonneg (a ++ 0 :: post)).
  rewrite (proj2 (Z.ltb_ge (msize pre) 0)) by lia. rewrite (proj2 (Z.ltb_ge _ (msize pre))) by (rewrite msize_app; lia). cbn [orb].
  rewrite to_nat_msize, drop_app_length, strchr_none by done. done.
Qed.

(** [memmove] over one character. *)
Lemma squeeze_one pre c s post : nonzero (c :: s) →
  (t ← str_at (pre ++ (c :: s) ++ 0 :: post) (msize pre); bs ← mread (pre ++ (c :: s) ++ 0 :: post) (msize pre + 1) (msize t);
   mwrite (pre ++ (c :: s) ++ 0 :: post) (msize pre) bs) = Some (pre ++ s ++ 0 :: 0 :: post).
Proof.
  intros Hs. rewrite str_at_app by done. cbn [mbind option_bind].
  assert (mread (pre ++ (c :: s) ++ 0 :: post) (msize pre + 1) (msize (c :: s)) = Some (s ++ [0])) as ->.
  { apply mread_spec. pose proof (msize_nonneg pre). pose proof (msize_nonneg s). pose proof (msize_nonneg post). split; [lia|].
    split; [rewrite msize_cons; lia|]. split; [rewrite !msize_app, !msize_cons; lia|].
    replace (Z.to_nat (msize pre + 1)) with (length pre + 1)%nat by (unfold msize; lia). rewrite <- drop_drop, drop_app_length. cbn [app drop].
    rewrite to_nat_msize. replace (length (c :: s)) with (length (s ++ [0])) by (rewrite length_app; cbn [length]; lia).
    rewrite drop_0, (cons_middle 0 s post), app_assoc, take_app_length. done. }
  cbn [mbind option_bind]. apply mwrite_spec. pose proof (msize_nonneg pre). pose proof (msize_nonneg s). pose proof (msize_nonneg post).
  split; [lia|]. split; [msz; lia|].
  rewrite to_nat_msize, take_app_length.
  rewrite <- drop_drop, drop_app_length.
  replace (length (s ++ [0])) with (length (c :: s)) by (rewrite length_app; cbn [length]; lia). rewrite drop_app_length.
  by rewrite <- !app_assoc.
Qed.

Definition no_space (s : mem) : Prop := head s ≠ Some CH_SPACE.

Lemma squeeze_ok n : ∀ fuel pre s post, (n < fuel)%nat → nonzero s → no_space s →
  squeeze_loop fuel (pre ++ (replicate n CH_SPACE ++ s) ++ 0 :: post) (msize pre) = Some (pre ++ s ++ 0 :: replicate n 0 ++ post).
Proof.
  induction n as [|n IH]; intros fuel pre s post Hf Hs Hh; (destruct fuel as [|fuel]; [lia|]); cbn [squeeze_loop].
  - cbn [replicate app]. destruct s as [|c s]; cbn [app]; rewrite ld_mid; cbn [mbind option_bind]; [done|].
    assert ((c =? CH_SPACE) = false) as -> by (apply Z.eqb_neq; intros ->; by apply Hh). by rewrite andb_false_r.
  - cbn [replicate app]. rewrite ld_mid. cbn [mbind option_bind]. change (negb (CH_SPACE =? 0) && (CH_SPACE =? CH_SPACE)) with true. cbv iota.
    assert (nonzero (CH_SPACE :: replicate n CH_SPACE ++ s)) as Hn by (constructor; [done|]; apply Forall_app; split; [by apply Forall_replicate|done]).
    pose proof (squeeze_one pre CH_SPACE (replicate n CH_SPACE ++ s) post Hn) as E. cbn [app] in E.
    destruct (str_at _ _) as [t|]; cbn [mbind option_bind] in *; [|done]. destruct (mread _ _ _) as [bs|]; cbn [mbind option_bind] in *; [|done].
    rewrite E. cbn [mbind option_bind]. rewrite (IH fuel pre s (0 :: post)) by (done || lia). change (0 :: replicate n 0 ++ post) with (replicate (S n) 0 ++ post). by rewrite replicate_S_end, <- app_assoc.
Qed.

(** The spaces in front of the rest of a string. *)
Lemma split_spaces s : ∃ n s', s = replicate n CH_SPACE ++ s' ∧ no_space s' ∧ collapse s true = collapse s' false ∧ (length s' <= length s)%nat.
Proof.
  induction s as [|c s (n & s' & -> & Hh & Hc & Hl)]; [by exists 0%nat, []|]. destruct (Z.eqb_spec c CH_SPACE) as [->|Hcs].
  - exists (S n), s'. split; [done|]. split; [done|]. split; [by cbn; rewrite Hc|]. cbn [length]. lia.
  - exists 0%nat, (c :: replicate n CH_SPACE ++ s'). split; [done|]. split; [by intros [=]|]. split; [|done].
    cbn [collapse]. by rewrite (proj2 (Z.eqb_neq c CH_SPACE)).
Qed.

(** The first space of a string, if it has one. *)
Lemma first_space s : nonzero s →
  (Forall (λ x, x ≠ 0 ∧ x ≠ CH_SPACE) s ∧ collapse s false = s) ∨
  ∃ a b, s = a ++ CH_SPACE :: b ∧ Forall (λ x, x ≠ 0 ∧ x ≠ CH_SPACE) a ∧ collapse s false = a ++ CH_SPACE :: collapse b true.
Proof.
  induction 1 as [|c s Hc Hs IH]; [by left|]. destruct (Z.eqb_spec c CH_SPACE) as [->|Hcs].
  - right. by exists [], s.
  - cbn [collapse]. rewrite (proj2 (Z.eqb_neq c CH_SPACE)) by done. destruct IH as [[H E]|(a & b & -> & Ha & E)].
    + left. split; [by constructor|]. by rewrite E.
    + right. exists (c :: a), b. split; [done|]. split; [by constructor|]. by rewrite E.
Qed.

(** The loop over the spaces, from a position in the line. *)
Lemma spaces_ok n : ∀ fuel pre s post, (length s <= n)%nat → (n < fuel)%nat → nonzero s →
  ∃ post', (p ← strchr_from (pre ++ s ++ 0 :: post) (msize pre) CH_SPACE; spaces_loop fuel (pre ++ s ++ 0 :: post) p)
    = Some (pre ++ collapse s false ++ 0 :: post') ∧ length (collapse s false ++ post') = length (s ++ post).
Proof.
  induction n as [|n IH]; intros fuel pre s post Hl Hf Hs; destruct (first_space s Hs) as [[Ha E]|(a & b & -> & Ha & E)].
  1,3: rewrite E, strchr_from_none by done; cbn [mbind option_bind]; exists post; split; [by destruct fuel|done].
  { rewrite length_app in Hl. cbn [length] in Hl. lia. }
  rewrite length_app in Hl. cbn [length] in Hl. apply Forall_app in Hs as [_ Hs]. apply Forall_cons in Hs as [_ Hs].
  rewrite E, <- app_assoc. cbn [app]. rewrite strchr_from_found by done. cbn [mbind option_bind]. destruct fuel as [|fuel]; [lia|]. cbn [spaces_loop].
  destruct (split_spaces b) as (k & b' & -> & Hh & Hc & Hl').
  assert (pre ++ a ++ CH_SPACE :: (replicate k CH_SPACE ++ b') ++ 0 :: post = (pre ++ a ++ [CH_SPACE]) ++ (replicate k CH_SPACE ++ b') ++ 0 :: post) as ->
    by (by rewrite <- !app_assoc).
  replace (msize pre + msize a + 1) with (msize (pre ++ a ++ [CH_SPACE])) by (msz; lia).
  apply Forall_app in Hs as [_ Hs]. rewrite squeeze_ok; [|rewrite !length_app, length_replicate; cbn [length]; lia|done|done]. cbn [mbind option_bind].
  destruct (IH fuel (pre ++ a ++ [CH_SPACE]) b' (replicate k 0 ++ post)) as (post' & E' & Hlen); [lia|lia|done|]. exists post'. rewrite E', Hc. split.
  - by rewrite <- !app_assoc.
  - rewrite !length_app, length_replicate in *. cbn [length]. rewrite !length_app, length_replicate in *. lia.
Qed.

(** ** The whole line *)

Lemma tokens_lf t : ∀ q cur, (q = 0 ∨ is_quote q = true) → tokens (t ++ [CH_LF]) q cur = tokens t q cur.
Proof.
  induction t as [|c t IH]; intros q cur Hq; cbn [app tokens].
  - destruct Hq as [->|Hq]; [cbn; by rewrite app_nil_r|]. by apply is_quote_inv in Hq as [-> | ->].
  - destruct (Z.eqb_spec q 0) as [->|]; cbn [negb].
    + destruct (is_quote c) eqn:Ec; [apply IH; by right|]. destruct (blank c); [rewrite IH by (by left); done|apply IH; by left].
    + apply IH. destruct (c =? q); [by left|done].
Qed.

Lemma hidden_length s : ∀ q, length (hidden s q).1 = length s.
Proof. induction s as [|c s IH]; intros q; cbn [hidden]; [done|]. destruct (is_quote c); cbn [fst length]; by rewrite IH. Qed.

Lemma hidden_snoc s : ∀ q, hidden (s ++ [CH_SPACE]) q =
  ((hidden s q).1 ++ [if (hidden s q).2 then SHELL_ALT_SPACE else CH_SPACE], (hidden s q).2).
Proof.
  induction s as [|c s IH]; intros q; cbn [app hidden].
  - change (is_quote CH_SPACE) with false. change (CH_SPACE =? CH_SPACE) with true. cbn [andb fst snd]. by destruct (q =? 0).
  - destruct (is_quote c); by rewrite IH.
Qed.

Lemma append_newline_ok cmd s : cstr cmd = Some s → s ≠ [] → msize s + 1 < msize cmd →
  ∃ t r, append_newline cmd = Some ((t ++ [CH_LF]) ++ 0 :: r) ∧ nonzero t ∧ tokens t 0 [] = tokens s 0 [] ∧ msize ((t ++ [CH_LF]) ++ 0 :: r) = msize cmd.
Proof.
  intros Hc Hs Hsz. unfold append_newline, strlen. rewrite Hc. cbn [mbind option_bind]. destruct (cstr_inv _ _ Hc) as [Hn [rest ->]].
  destruct (exists_last Hs) as (t & c & ->). apply Forall_app in Hn as [Hn Hcn].
  replace (msize (t ++ [c]) - 1) with (msize t) by (msz; lia). rewrite <- app_assoc. cbn [app]. rewrite ld_mid. cbn [mbind option_bind].
  destruct (Z.eqb_spec c CH_LF) as [->|Hl]; cbn [negb].
  - exists t, rest. split; [by rewrite <- app_assoc|]. split; [done|]. split; [rewrite tokens_lf by (by left); done|]. by rewrite <- app_assoc.
  - destruct rest as [|x rest]; [msz; lia|]. exists (t ++ [c]), rest. split; [|split; [by apply Forall_app|split; [done|]]].
    + assert (t ++ c :: 0 :: x :: rest = (t ++ [c]) ++ 0 :: x :: rest) as -> by (by rewrite <- app_assoc).
      unfold c_strcat. rewrite cstr_app by (by apply Forall_app).
      change (cstr [CH_LF; 0]) with (Some [CH_LF]). cbn [mbind option_bind]. apply mwrite_spec. split; [apply msize_nonneg|]. split; [msz; lia|].
      rewrite to_nat_msize, take_app_length. rewrite <- drop_drop, drop_app_length. cbn. by rewrite <- !app_assoc.
    + msz. lia.
Qed.

Lemma collapse_lead s : s ≠ [] → ∃ lead, collapse s false = lead ++ collapse s true ∧ (lead = [] ∨ lead = [CH_SPACE]) ∧ collapse s false ≠ [].
Proof.
  destruct s as [|c s]; [done|]. intros _. cbn [collapse]. destruct (c =? CH_SPACE) eqn:E; [|by exists []; split; [|split; [left|]]].
  apply Z.eqb_eq in E as ->. exists [CH_SPACE]. split; [done|]. split; [by right|done].
Qed.

Lemma joined_nonzero ws : Forall word_ok ws → nonzero (joined ws).
Proof.
  induction 1 as [|w ws [_ Hw] _ IH]; [constructor|]. unfold joined. cbn [fmap list_fmap concat]. apply Forall_app. split; [|exact IH].
  apply Forall_app. split; [|by constructor]. eapply Forall_impl; [exact Hw|]. by intros c [].
Qed.

(** The end of [shell_parse], on a line with the words [ws]. *)
Lemma parse_command lead ws post : (lead = [] ∨ lead = [CH_SPACE]) → Forall word_ok ws → lead ++ joined ws ≠ [] →
  let cmd := lead ++ joined ws ++ 0 :: post in
  ∃ m a, (n ← strlen cmd;
    if n =? 1 then Some (cmd, ANothing)
    else
      c ← ld cmd 0;
      let temp := if c =? CH_SPACE then 1 else 0 in
      p ← strchr_from cmd temp CH_SPACE;
      match p with
      | None => Some (cmd, AMessage SHELL_ERRMSG)
      | Some p =>
          cmd ← st cmd p 0;
          name ← str_at cmd temp;
          Some (cmd, match find_command shell_commands name with None => AMessage SHELL_ERRMSG | Some h => ARun h (p + 1) end)
      end) = Some (m, a) ∧ msize m = msize cmd ∧
    match ws with
    | [] => a = ANothing
    | w :: ws =>
        match find_command shell_commands w with
        | None => a = AMessage SHELL_ERRMSG
        | Some h => ∃ pre, a = ARun h (msize pre) ∧ m = pre ++ joined ws ++ 0 :: post
        end
    end.
Proof.
  intros Hlead Hws Hne cmd.
  assert (cstr cmd = Some (lead ++ joined ws)) as Hcs.
  { unfold cmd. rewrite app_assoc. apply cstr_app, Forall_app. split; [|by apply joined_nonzero]. destruct Hlead as [-> | ->]; [constructor|by constructor]. }
  unfold strlen. rewrite Hcs. cbn [mbind option_bind]. destruct ws as [|w ws].
  { destruct Hlead as [-> | ->]; [done|]. eexists _, _. split; [done|]. by split. }
  apply Forall_cons in Hws as [[Hw0 Hw] Hws].
  assert (joined (w :: ws) = w ++ CH_SPACE :: joined ws) as Ej by (unfold joined; cbn [fmap list_fmap concat]; by rewrite <- app_assoc).
  pose proof (msize_pos w Hw0). pose proof (msize_nonneg lead). pose proof (msize_nonneg (joined ws)).
  rewrite (proj2 (Z.eqb_neq _ 1)) by (rewrite Ej, msize_app, msize_app, msize_cons; lia).
  assert (∃ c, ld cmd 0 = Some c ∧ (if c =? CH_SPACE then 1 else 0) = msize lead) as (c & -> & Htemp).
  { unfold cmd. rewrite Ej. destruct Hlead as [-> | ->]; [|by exists CH_SPACE]. destruct w as [|c w]; [done|]. exists c. split; [done|].
    apply Forall_cons in Hw as [[_ Hc] _]. by rewrite (proj2 (Z.eqb_neq c CH_SPACE)). }
  cbn [mbind option_bind]. rewrite Htemp.
  assert (cmd = lead ++ w ++ CH_SPACE :: joined ws ++ 0 :: post) as Ecmd by (unfold cmd; rewrite Ej, <- app_assoc; done).
  rewrite Ecmd, strchr_from_found by done. cbn [mbind option_bind].
  assert (st (lead ++ w ++ CH_SPACE :: joined ws ++ 0 :: post) (msize lead + msize w) 0 = Some (lead ++ w ++ 0 :: joined ws ++ 0 :: post)) as ->.
  { rewrite !(app_assoc lead), st_spec by (pose proof (msize_nonneg post); msz; lia). f_equal. rewrite <- msize_app, to_nat_msize.
    rewrite insert_app_r_alt by lia. by rewrite Nat.sub_diag. }
  cbn [mbind option_bind]. rewrite str_at_app by (eapply Forall_impl; [exact Hw|]; by intros x []). cbn [mbind option_bind].
  eexists _, _. split; [reflexivity|]. split; [msz; lia|]. destruct (find_command shell_commands w) as [h|]; [|done].
  exists (lead ++ w ++ [0]). split; [f_equal; msz; lia|]. by rewrite <- !app_assoc.
Qed.

(** What a line is. *)
Definition line_action (s : mem) (m : mem) (a : shell_action) : Prop :=
  match tokens s 0 [] with
  | None => a = AMessage SHELL_BADQUOTE
  | Some [] => a = ANothing
  | Some (w :: ws) =>
      match find_command shell_commands (hide w) with
      | None => a = AMessage SHELL_ERRMSG
      | Some h => ∃ pre post, a = ARun h (msize pre) ∧ m = pre ++ args_of ws ++ 0 :: post ∧ Forall word_ok (hide_words ws)
      end
  end.

Lemma parse_ok cmd s : cstr cmd = Some s → s ≠ [] → msize s + 1 < msize cmd →
  ∃ m a, shell_parse cmd = Some (m, a) ∧ msize m = msize cmd ∧ line_action s m a.
Proof.
  intros Hc Hs Hsz. destruct (append_newline_ok cmd s Hc Hs Hsz) as (t & r & E1 & Ht & Htok & Hm). unfold shell_parse, line_action. rewrite E1, <- Htok, <- Hm.
  cbn [mbind option_bind]. rewrite crlf_ok by (apply Forall_app; split; [done|by constructor]). cbn [mbind option_bind].
  unfold norm at 1. rewrite fmap_app. fold (norm t). change (_ <$> [CH_LF]) with [CH_SPACE].
  pose proof (quotes_ok (norm t ++ [CH_SPACE]) 0 r) as E2. change (negb (0 =? 0)) with false in E2. rewrite E2 by (apply Forall_app; split; [by apply norm_nonzero|by constructor]).
  rewrite hidden_snoc. cbn [fst snd mbind option_bind]. pose proof (tokens_words t 0 [] ltac:(by left)) as Htw. pose proof (hidden_nonzero (norm t) 0 (norm_nonzero t Ht)) as Hh.
  assert (length (hidden (norm t) 0).1 = length t) as Hlen by (rewrite hidden_length; apply length_fmap).
  destruct (hidden (norm t) 0) as [h ins]. cbn [fst snd] in *. destruct ins; cbn [mbind option_bind].
  { destruct (tokens t 0 []); [done|]. eexists _, _. split; [done|]. split; [|done]. msz. unfold msize. lia. }
  destruct (tokens t 0 []) as [ws|]; [|done]. injection Htw as Hws.
  destruct (spaces_ok (length (h ++ [CH_SPACE])) (S (length ((h ++ [CH_SPACE]) ++ 0 :: r))) [] (h ++ [CH_SPACE]) r) as (post & E3 & Hl3);
    [lia|rewrite (length_app (h ++ _)); lia|apply Forall_app; split; [done|by constructor]|].
  cbn [app] in E3. rewrite msize_nil in E3. destruct (strchr_from _ 0 CH_SPACE) as [p|]; cbn [mbind option_bind] in *; [|done]. rewrite E3. cbn [mbind option_bind].
  destruct (collapse_lead (h ++ [CH_SPACE])) as (lead & El & Hlead & Hne); [by destruct h|].
  pose proof (collapse_words h []) as E4. rewrite bool_decide_eq_true_2 in E4 by done. cbn [app hide fmap list_fmap] in E4, Hws. rewrite <- Hws in E4.
  rewrite El, E4 in *. rewrite <- app_assoc.
  assert (Forall word_ok (hide_words ws)) as Hok by (rewrite Hws; apply words_ok; [done|constructor]).
  destruct (parse_command lead (hide_words ws) post Hlead Hok Hne) as (m & a & E5 & Hm5 & Ha). exists m, a. split; [exact E5|]. split.
  - rewrite Hm5. unfold msize. rewrite !length_app in *. cbn [length] in *. lia.
  - destruct ws as [|w ws]; [done|]. cbn [hide_words fmap list_fmap] in Ha. destruct (find_command shell_commands (hide w)) as [hd|]; [|done].
    destruct Ha as (pre & -> & ->). exists pre, post. split; [done|]. split; [by rewrite args_joined|]. apply Forall_cons in Hok. by destruct Hok.
Qed.

(** ** The arguments of "lua" *)

(** What the argument loop makes of a word. *)
Definition word_value (w : mem) : mem :=
  match w with
  | c :: t => if is_quote c then unhide (take (length t - 1) t) else c :: t
  | [] => []
  end.

Lemma alt_ok s r : nonzero s → alt_loop (s ++ 0 :: r) = Some (unhide s ++ 0 :: r, msize s).
Proof.
  induction 1 as [|c s Hc _ IH]; [done|]. cbn [app alt_loop]. rewrite (proj2 (Z.eqb_neq c 0)) by done. rewrite IH. cbn [mbind option_bind unhide fmap list_fmap app].
  by rewrite msize_cons, Z.add_comm.
Qed.

Lemma unhide_nonzero s : nonzero s → nonzero (unhide s).
Proof. intros H. apply Forall_fmap. eapply Forall_impl; [exact H|]. intros c Hc. cbn. by destruct (_ =? _). Qed.

Lemma st_mid pre c post v : st (pre ++ c :: post) (msize pre) v = Some (pre ++ u8 v :: post).
Proof.
  rewrite st_spec by (pose proof (msize_nonneg pre); pose proof (msize_nonneg post); msz; lia).
  f_equal. rewrite to_nat_msize, insert_app_r_alt by lia. by rewrite Nat.sub_diag.
Qed.

Lemma exists_last_or_nil (t : mem) : t = [] ∨ ∃ t' q, t = t' ++ [q].
Proof. destruct (decide (t = [])) as [->|H]; [by left|]. destruct (exists_last H) as (t' & q & ->). right. by eexists _, _. Qed.

Lemma unquote_ok pre w rest : w ≠ [] → nonzero w →
  ∃ w' a, unquote_arg (pre ++ w ++ 0 :: rest) (msize pre) = Some (pre ++ w' ++ 0 :: rest, a) ∧ length w' = length w ∧
    ∀ x, str_at (pre ++ w' ++ 0 :: x) a = Some (word_value w).
Proof.
  intros Hw Hn. destruct w as [|c t]; [done|]. apply Forall_cons in Hn as [Hc Ht]. unfold unquote_arg. cbn [app]. rewrite ld_mid. cbn [mbind option_bind word_value].
  destruct (is_quote c) eqn:Eq.
  - assert (Z.to_nat (msize pre + 1) = length (pre ++ [c])) as -> by (unfold msize; rewrite length_app; cbn [length]; lia).
    assert (pre ++ c :: t ++ 0 :: rest = (pre ++ [c]) ++ t ++ 0 :: rest) as -> by (by rewrite <- app_assoc).
    rewrite drop_app_length, take_app_length, alt_ok by done. cbn [mbind option_bind].
    destruct (exists_last_or_nil t) as [-> | (t' & q & ->)].
    + rewrite msize_nil. replace (msize pre + 1 + 0 - 1) with (msize pre) by lia. cbn [unhide fmap list_fmap app]. rewrite <- app_assoc. cbn [app].
      rewrite st_mid. cbn [mbind option_bind]. exists [0], (msize pre + 1). split; [done|]. split; [done|]. intros x.
      pose proof (str_at_app (pre ++ [0]) [] x ltac:(constructor)) as E. rewrite <- app_assoc in E. cbn [app] in E. msz. exact E.
    + unfold unhide at 1. rewrite fmap_app. fold (unhide t'). cbn [fmap list_fmap]. set (q' := if q =? SHELL_ALT_SPACE then CH_SPACE else q).
      replace (msize pre + 1 + msize (t' ++ [q]) - 1) with (msize ((pre ++ [c]) ++ unhide t')) by (unfold unhide; msz; unfold msize; rewrite length_fmap; lia).
      rewrite <- (app_assoc (unhide t')), app_assoc. cbn [app]. rewrite st_mid. cbn [mbind option_bind]. change (u8 0) with 0.
      exists (c :: unhide t' ++ [0]), (msize pre + 1). split; [cbn [app]; by rewrite <- !app_assoc|]. split; [cbn [length]; unfold unhide; rewrite !length_app, length_fmap; done|].
      intros x. rewrite length_app. cbn [length]. replace (length t' + 1 - 1)%nat with (length t') by lia. rewrite take_app_length.
      apply Forall_app in Ht as [Ht _].
      pose proof (str_at_app (pre ++ [c]) (unhide t') (0 :: x) (unhide_nonzero _ Ht)) as E. msz. rewrite <- !app_assoc in *. cbn [app] in *. rewrite <- app_assoc. exact E.
  - exists (c :: t), (msize pre). split; [done|]. split; [done|]. intros x. apply (str_at_app pre (c :: t)). by constructor.
Qed.

Lemma strchr_from_suffix a b s c : msize a = msize b → strchr_from (a ++ s) (msize a) c = strchr_from (b ++ s) (msize b) c.
Proof. intros H. unfold strchr_from. rewrite !msize_app, H. rewrite to_nat_msize, drop_app_length. replace (length b) with (length a) by (unfold msize in H; lia). by rewrite drop_app_length. Qed.

Lemma joined_cons w ws : joined (w :: ws) = w ++ CH_SPACE :: joined ws.
Proof. unfold joined. cbn [fmap list_fmap concat]. by rewrite <- app_assoc. Qed.

Lemma lua_loop_ok ws : ∀ fuel pre argv vs post, Forall2 (λ a v, ∀ x, str_at (pre ++ x) a = Some v) argv vs → Forall word_ok ws → (length ws < fuel)%nat →
  (length argv <= 8)%nat →
  ∃ m r, (p ← strchr_from (pre ++ joined ws ++ 0 :: post) (msize pre) CH_SPACE; lua_args_loop fuel (pre ++ joined ws ++ 0 :: post) argv (msize pre) p) = Some (m, r) ∧
    msize m = msize (pre ++ joined ws ++ 0 :: post) ∧
    if decide (length argv + length ws <= 8)%nat then ∃ argv', r = inl argv' ∧ Forall2 (λ a v, str_at m a = Some v) argv' (vs ++ (word_value <$> ws)) else r = inr tt.
Proof.
  induction ws as [|w ws IH]; intros fuel pre argv vs post Hv Hws Hf Hl.
  - assert (strchr_from (pre ++ joined [] ++ 0 :: post) (msize pre) CH_SPACE = Some None) as -> by (apply (strchr_from_none pre []); [done|constructor]).
    cbn [mbind option_bind]. eexists _, (inl argv). split; [by destruct fuel|]. split; [done|].
    rewrite decide_True by (cbn [length]; lia). exists argv. split; [done|]. cbn [fmap list_fmap]. rewrite app_nil_r. eapply Forall2_impl; [exact Hv|]. intros a v H. apply H.
  - apply Forall_cons in Hws as [[Hw0 Hw] Hws]. rewrite joined_cons, <- !app_assoc. cbn [app]. rewrite strchr_from_found by done. cbn [mbind option_bind].
    destruct fuel as [|fuel]; [lia|]. cbn [lua_args_loop length].
    destruct (Z.eqb_spec (Z.of_nat (length argv)) SHELL_MAX_LUA_ARGS) as [He|He]; unfold SHELL_MAX_LUA_ARGS in He.
    { eexists _, _. split; [done|]. split; [done|]. by rewrite decide_False by lia. }
    assert (nonzero w) as Hwn by (eapply Forall_impl; [exact Hw|]; by intros x []).
    rewrite <- msize_app, (app_assoc pre), st_mid. change (u8 0) with 0. cbn [mbind option_bind].
    destruct (unquote_ok pre w (joined ws ++ 0 :: post) Hw0 Hwn) as (w' & a & E & Hlw & Hval).
    assert (msize ((pre ++ w) ++ [0]) = msize ((pre ++ w') ++ [0])) as Hms by (msz; unfold msize; rewrite Hlw; lia).
    replace (msize (pre ++ w) + 1) with (msize ((pre ++ w) ++ [0])) by (msz; lia).
    assert (strchr_from ((pre ++ w) ++ 0 :: joined ws ++ 0 :: post) (msize ((pre ++ w) ++ [0])) CH_SPACE
      = strchr_from (((pre ++ w') ++ [0]) ++ joined ws ++ 0 :: post) (msize ((pre ++ w') ++ [0])) CH_SPACE) as ->.
    { rewrite <- (strchr_from_suffix ((pre ++ w) ++ [0])) by done. by rewrite <- (app_assoc (pre ++ w)). }
    rewrite (app_assoc pre w) in E. rewrite Hms.
    assert (pre ++ w' ++ 0 :: joined ws ++ 0 :: post = ((pre ++ w') ++ [0]) ++ joined ws ++ 0 :: post) as Eq2 by (by rewrite <- !app_assoc).
    unfold SHELL_MAX_LUA_ARGS in He. cbn [length] in Hf. destruct (IH fuel ((pre ++ w') ++ [0]) (argv ++ [a]) (vs ++ [word_value w]) post) as (m & r & E2 & Hm & Hr); [|done|lia|rewrite length_app; cbn [length]; lia|].
    { apply Forall2_app.
      - eapply Forall2_impl; [exact Hv|]. intros a' v H x. rewrite <- !app_assoc. apply H.
      - constructor; [|constructor]. intros x. rewrite <- !app_assoc. apply Hval. }
    exists m, r. split; [|split].
    + rewrite <- E2. destruct (strchr_from _ _ _) as [q|]; cbn [mbind option_bind]; [|done]. rewrite E. cbn [mbind option_bind]. by rewrite Eq2.
    + rewrite Hm. msz. unfold msize. rewrite Hlw. lia.
    + rewrite length_app in Hr. cbn [length fmap list_fmap] in *. destruct (decide (length argv + S (length ws) <= 8)%nat).
      * rewrite decide_True in Hr by lia. destruct Hr as (argv' & -> & H). exists argv'. split; [done|]. by rewrite <- app_assoc in H.
      * by rewrite decide_False in Hr by lia.
Qed.

Definition too_many : mem := txt "Too many arguments to 'lua' (maxim 8)" ++ [CH_LF].

Lemma lua_args_ok pre ws post : Forall word_ok ws →
  ∃ m, lua_args (pre ++ joined ws ++ 0 :: post) (msize pre) =
    Some (m, if decide (length ws <= 8)%nat then inl (txt "lua" :: (word_value <$> ws)) else inr too_many) ∧
    msize m = msize (pre ++ joined ws ++ 0 :: post).
Proof.
  intros Hws. unfold lua_args. destruct ws as [|w ws].
  { cbn [joined fmap list_fmap concat app]. rewrite ld_mid. cbn [mbind option_bind]. by eexists. }
  destruct (lua_loop_ok (w :: ws) (S (length (pre ++ joined (w :: ws) ++ 0 :: post))) pre [] [] post) as (m & r & E & Hm & Hr); [constructor|done| |cbn; lia|].
  { rewrite !length_app. assert (length (w :: ws) <= length (joined (w :: ws)))%nat; [|lia]. clear. unfold joined. induction (w :: ws) as [|x l IH]; [done|].
    cbn [fmap list_fmap concat length]. rewrite !length_app. cbn [length]. lia. }
  assert (∃ c, ld (pre ++ joined (w :: ws) ++ 0 :: post) (msize pre) = Some c ∧ c ≠ 0) as (c & -> & Hc).
  { apply Forall_cons in Hws as [[Hw0 Hw] _]. destruct w as [|c w]; [done|]. apply Forall_cons in Hw as [[Hc _] _]. exists c. by rewrite joined_cons, <- !app_assoc; cbn [app]; rewrite ld_mid. }
  cbn [mbind option_bind]. rewrite (proj2 (Z.eqb_neq c 0)) by done. cbn [negb]. rewrite E. cbn [mbind option_bind]. exists m.
  cbn [length Nat.add] in Hr. destruct (decide (S (length ws) <= 8)%nat) as [Hd|Hd].
  - destruct Hr as (argv' & -> & Hv). cbn [app] in Hv. split; [|done].
    assert (mapM (str_at m) argv' = Some (word_value <$> w :: ws)) as -> by (by apply mapM_Some_2). by rewrite decide_True by done.
  - rewrite Hr. split; [|done]. by rewrite decide_False by done.
Qed.

(** ** The handlers on words *)

Section handlers.
Context {D X L : Type}.
Abbreviation W := (world D X L).

Lemma printf_app (w : W) a b : printf (printf w a) b = printf w (a ++ b).
Proof. unfold printf. cbn. by rewrite app_assoc. Qed.

Lemma printf_nil (w : W) : printf w [] = w.
Proof. unfold printf. rewrite app_nil_r. by destruct w. Qed.

(** *** cat *)

(** What "cat" prints for a name. *)
Definition cat_text (f : stdio) (nm : mem) : mem :=
  match contents f !! nm with
  | Some data => u8 <$> data
  | None => txt "File " ++ nm ++ txt " not found" ++ [CH_LF]
  end.

Lemma cat_loop_ok nm data : ∀ n (w : W) (pos : nat), contents (w_files w) !! nm = Some data → (length data - pos < n)%nat →
  cat_loop n w nm (Z.of_nat pos) = Some (printf w (u8 <$> drop pos data)).
Proof.
  induction n as [|n IH]; intros w pos Hd Hn; [lia|]. cbn [cat_loop]. unfold fread. rewrite Hd, Nat2Z.id. change (default [] (Some data)) with data. change (Z.to_nat 1) with 1%nat.
  destruct (drop pos data) as [|c rest] eqn:Ed; cbn [take firstn fmap list_fmap]; [by rewrite printf_nil|].
  assert (pos < length data)%nat as Hlt by (apply (f_equal length) in Ed; rewrite length_drop in Ed; cbn [length] in Ed; lia).
  replace (Z.of_nat pos + 1) with (Z.of_nat (S pos)) by lia. rewrite (IH (printf w [u8 c]) (S pos)) by (done || lia). rewrite printf_app. do 2 f_equal.
  replace (S pos) with (pos + 1)%nat by lia. rewrite <- drop_drop, Ed. done.
Qed.

Lemma cat_file_ok (w : W) nm : cat_file w nm = Some (printf w (cat_text (w_files w) nm)).
Proof. unfold cat_file, cat_text. destruct (contents (w_files w) !! nm) as [data|] eqn:E; [|done]. apply (cat_loop_ok nm data _ w 0 E). lia. Qed.

Lemma cat_args_ok ws : ∀ fuel (w : W) pre post, Forall word_ok ws → (length ws < fuel)%nat →
  ∃ m, cat_args fuel w (pre ++ joined ws ++ 0 :: post) (msize pre) = Some (printf w (concat (cat_text (w_files w) <$> ws)), m) ∧
    msize m = msize (pre ++ joined ws ++ 0 :: post).
Proof.
  induction ws as [|x ws IH]; intros fuel w pre post Hws Hf; (destruct fuel as [|fuel]; [cbn in Hf; lia|]); cbn [cat_args].
  - cbn [joined fmap list_fmap concat app]. unfold joined. cbn [fmap list_fmap concat app]. rewrite ld_mid, printf_nil. by eexists.
  - apply Forall_cons in Hws as [[Hx0 Hx] Hws]. assert (nonzero x) as Hxn by (eapply Forall_impl; [exact Hx|]; by intros y []).
    rewrite joined_cons, <- app_assoc. cbn [app].
    assert (∃ c, ld (pre ++ x ++ CH_SPACE :: joined ws ++ 0 :: post) (msize pre) = Some c ∧ c ≠ 0) as (c & -> & Hc).
    { destruct x as [|c x]; [done|]. apply Forall_cons in Hxn as [Hc _]. exists c. by cbn [app]; rewrite ld_mid. }
    cbn [mbind option_bind]. rewrite (proj2 (Z.eqb_neq c 0)) by done. cbn [negb]. rewrite strchr_from_found by done. cbn [mbind option_bind].
    rewrite <- msize_app, (app_assoc pre), st_mid. change (u8 0) with 0. cbn [mbind option_bind]. rewrite <- (app_assoc pre), str_at_app by done.
    cbn [mbind option_bind]. rewrite cat_file_ok. cbn [mbind option_bind].
    destruct (IH fuel (printf w (cat_text (w_files w) x)) ((pre ++ x) ++ [0]) post Hws ltac:(cbn in Hf; lia)) as (m & E & Hm).
    replace (msize (pre ++ x) + 1) with (msize ((pre ++ x) ++ [0])) by (msz; lia).
    assert (pre ++ x ++ 0 :: joined ws ++ 0 :: post = ((pre ++ x) ++ [0]) ++ joined ws ++ 0 :: post) as -> by (by rewrite <- !app_assoc).
    exists m. rewrite E. rewrite printf_app. split; [done|]. rewrite Hm. msz. lia.
Qed.

(** *** cp *)

Lemma length_joined ws : (length ws <= length (joined ws))%nat.
Proof. induction ws as [|x l IH]; [cbn; lia|]. rewrite joined_cons, length_app. cbn [length]. lia. Qed.

(** The copy: each part that is read is written. *)
Lemma cp_loop_ok bs src dst d : 0 < bs → src ≠ dst → ∀ n (f : stdio) (pos : nat),
  contents f !! src = Some d → contents f !! dst = Some (take pos d) → (pos <= length d)%nat → msize d - Z.of_nat pos <= room f → msize d < 4294967296 →
  (length d - pos < n)%nat →
  cp_loop bs n f src dst (Z.of_nat pos) (Z.of_nat pos) = Some (Stdio (<[dst := d]> (contents f)) (writable f) (room f - (msize d - Z.of_nat pos)), msize d).
Proof.
  intros Hbs Hne. induction n as [|n IH]; intros f pos Hs Hd Hp Hroom Hsz Hn; [lia|]. cbn [cp_loop]. unfold fread. rewrite Hs, Nat2Z.id. change (default [] (Some d)) with d.
  set (part := take (Z.to_nat bs) (drop pos d)).
  assert (length part = Nat.min (Z.to_nat bs) (length d - pos)) as Hpl by (unfold part; by rewrite length_take, length_drop).
  assert (take (Z.to_nat (room f)) part = part) as Htp by (apply take_ge; unfold msize in *; lia).
  unfold fwrite. rewrite Hd, Htp. change (default [] (Some (take pos d))) with (take pos d).
  assert (take pos d ++ part = take (pos + length part) d) as Eap.
  { rewrite Hpl. unfold part. rewrite <- take_take_drop. f_equal. destruct (Nat.min_spec (Z.to_nat bs) (length d - pos)) as [[_ ->]|[Hle ->]]; [done|].
    rewrite !take_ge; [done|rewrite length_drop; lia|rewrite length_drop; lia]. }
  rewrite Eap. rewrite u32_id by (unfold msize in *; lia).
  destruct (Z.ltb_spec (msize part) bs) as [Hlt|Hge].
  - assert (pos + length part = length d)%nat as Hfull by (unfold msize in *; lia). rewrite Hfull, take_ge by done. unfold msize in *. do 2 f_equal; [f_equal|]; lia.
  - assert (0 < length part)%nat by (unfold msize in *; lia).
    replace (Z.of_nat pos + msize part) with (Z.of_nat (pos + length part)) by (unfold msize; lia).
    rewrite IH; cbn [contents writable room].
    + rewrite insert_insert_eq. do 3 f_equal. unfold msize. lia.
    + by rewrite lookup_insert_ne.
    + by rewrite lookup_insert_eq.
    + lia.
    + unfold msize in *. lia.
    + done.
    + lia.
Qed.

(** *** Every handler, on the words of the line *)

Section exec.
Context {vm : @LuaVm D X L} (env : @shell_env D X L).

Definition exec_words (h : shell_handler) (w : W) (ws : list mem) : option W :=
  match h with
  | shell_help => Some (printf w shell_help_text)
  | shell_ver => Some (printf w shell_ver_text)
  | shell_lua =>
      Some (if decide (length ws <= 8)%nat then lua_main (printf w (txt "Press CTRL+Z to exit Lua" ++ [CH_LF])) (txt "lua" :: (word_value <$> ws))
            else printf w too_many)
  | shell_cat => Some (match ws with [] => printf w cat_usage | _ => printf w (concat (cat_text (w_files w) <$> ws)) end)
  | shell_cp =>
      match ws with
      | src :: dst :: _ =>
          '(w, res) ← cp_files (env_copy_size env) (env_copy_ok env) (env_fuel env) w src dst;
          Some (if (res : bool) then w else printf w (txt "Syntax error." ++ [CH_LF]))
      | _ => Some (printf w (txt "Syntax error." ++ [CH_LF]))
      end
  | shell_recv => do_recv (env_in env) (env_out env) (env_realloc env) (env_prog env) (env_packet env) (env_fuel env) (env_fuel env) w
  | shell_ls => do_ls (env_errno env) (env_dirent env) (env_dir_room env) (env_fuel env) w
  end.

Lemma first_char pre w ws post : word_ok w → ∃ c, ld (pre ++ joined (w :: ws) ++ 0 :: post) (msize pre) = Some c ∧ c ≠ 0.
Proof.
  intros [Hw0 Hw]. destruct w as [|c w]; [done|]. apply Forall_cons in Hw as [[Hc _] _]. exists c. rewrite joined_cons, <- !app_assoc. cbn [app]. by rewrite ld_mid.
Qed.

Lemma no_char pre post : ld (pre ++ joined [] ++ 0 :: post) (msize pre) = Some 0.
Proof. apply ld_mid. Qed.

Lemma word_nonzero w : word_ok w → nonzero w.
Proof. intros [_ Hw]. eapply Forall_impl; [exact Hw|]. by intros x []. Qed.

Lemma cat_ok (w : W) pre ws post : Forall word_ok ws →
  ∃ m, do_cat w (pre ++ joined ws ++ 0 :: post) (msize pre) = Some (match ws with [] => printf w cat_usage | _ => printf w (concat (cat_text (w_files w) <$> ws)) end, m) ∧
    msize m = msize (pre ++ joined ws ++ 0 :: post).
Proof.
  intros Hws. unfold do_cat. destruct ws as [|x ws]; [rewrite no_char; by eexists|].
  destruct (first_char pre x ws post) as (c & -> & Hc); [by apply Forall_cons in Hws as []|]. cbn [mbind option_bind]. rewrite (proj2 (Z.eqb_neq c 0)) by done. cbn [negb].
  apply cat_args_ok; [done|]. pose proof (length_joined (x :: ws)). rewrite !length_app. lia.
Qed.

Lemma cp_ok (w : W) pre ws post : Forall word_ok ws →
  let r := do_cp (env_copy_size env) (env_copy_ok env) (env_fuel env) w (pre ++ joined ws ++ 0 :: post) (msize pre) in
  match exec_words shell_cp w ws with
  | Some w' => ∃ m, r = Some (w', m) ∧ msize m = msize (pre ++ joined ws ++ 0 :: post)
  | None => r = None
  end.
Proof.
  intros Hws r. unfold r, do_cp. destruct ws as [|x ws]; [rewrite no_char; by eexists|].
  apply Forall_cons in Hws as [Hx Hws]. destruct (first_char pre x ws post Hx) as (c & -> & Hc). cbn [mbind option_bind]. rewrite (proj2 (Z.eqb_neq c 0)) by done. cbn [negb].
  rewrite joined_cons, <- app_assoc. cbn [app]. rewrite strchr_from_found by apply Hx. cbn [mbind option_bind].
  rewrite <- msize_app, (app_assoc pre), st_mid. change (u8 0) with 0. cbn [mbind option_bind].
  replace (msize (pre ++ x) + 1) with (msize ((pre ++ x) ++ [0])) by (msz; lia).
  assert ((pre ++ x) ++ 0 :: joined ws ++ 0 :: post = ((pre ++ x) ++ [0]) ++ joined ws ++ 0 :: post) as -> by (by rewrite <- !app_assoc).
  destruct ws as [|y ws].
  - rewrite (strchr_from_none ((pre ++ x) ++ [0]) []) by (done || constructor). cbn [mbind option_bind exec_words]. eexists. split; [done|]. msz. cbn [joined fmap list_fmap concat]. msz. lia.
  - apply Forall_cons in Hws as [Hy Hws]. rewrite joined_cons, <- (app_assoc y). cbn [app]. rewrite strchr_from_found by apply Hy. cbn [mbind option_bind].
    rewrite <- msize_app, (app_assoc ((pre ++ x) ++ [0])), st_mid. change (u8 0) with 0. cbn [mbind option_bind].
    rewrite <- (app_assoc ((pre ++ x) ++ [0])). rewrite (str_at_app ((pre ++ x) ++ [0]) y) by (by apply word_nonzero).
    rewrite <- (app_assoc (pre ++ x)), <- (app_assoc pre). cbn [app]. rewrite str_at_app by (by apply word_nonzero). cbn [mbind option_bind exec_words].
    destruct (cp_files _ _ _ w x y) as [[w' res]|]; cbn [mbind option_bind]; [|done]. eexists. split; [done|]. msz. lia.
Qed.

Lemma run_ok h (w : W) pre ws post : Forall word_ok ws →
  let r := run_handler env h w (pre ++ joined ws ++ 0 :: post) (msize pre) in
  match exec_words h w ws with
  | Some w' => ∃ m, r = Some (w', m) ∧ msize m = msize (pre ++ joined ws ++ 0 :: post)
  | None => r = None
  end.
Proof.
  intros Hws. destruct h; cbn [run_handler].
  - by eexists.
  - cbn [exec_words]. destruct (lua_args_ok pre ws post Hws) as (m & E & Hm). unfold do_lua. rewrite E. cbn [mbind option_bind]. exists m. split; [|done].
    by destruct (decide (length ws <= 8)%nat).
  - cbn [exec_words]. destruct (do_recv _ _ _ _ _ _ _ w); cbn [mbind option_bind]; [by eexists|done].
  - by eexists.
  - cbn [exec_words]. destruct (do_ls _ _ _ _ w); cbn [mbind option_bind]; [by eexists|done].
  - apply (cat_ok w pre ws post Hws).
  - apply (cp_ok w pre ws post Hws).
Qed.
End exec.
End handlers.
