(* ===== verification/ShellRun.v ===== *)
(** * The shell's loop: what is typed is run

    The theorems on Shell.v, with the words of ShellSpec.v and the editor of LineSpec.v. *)
From S2P Require Import Prelude Psock Net Console Devman Xmodem LineEdit LineSpec Shell ShellSpec.

Section run.
Context {D X L : Type} {vm : @LuaVm D X L} (env : @shell_env D X L).
Abbreviation W := (world D X L).

(** What a line does, by its words; the second result is whether the shell ends. *)
Definition spec_line (w : W) (s : mem) : option (W * bool) :=
  match tokens s 0 [] with
  | None => Some (printf w SHELL_BADQUOTE, false)
  | Some [] => Some (w, false)
  | Some (c :: ws) =>
      match find_command shell_commands (hide c) with
      | None => Some (printf w SHELL_ERRMSG, false)
      | Some None =>
          if env_uip env then
            let i := elua_net_get_telnet_socket env w in Some (if negb (i =? -1) then elua_net_close env w i else w, false)
          else Some (w, true)
      | Some (Some h) => w ← exec_words env h w (hide_words ws); Some (w, false)
      end
  end.

(** States in which the handlers and Lua are defined, and which they keep. *)
Record handlers_keep (I : W → Prop) : Prop := HandlersKeep {
  keep_echo : ∀ w out, I w → I (World out (w_files w) (w_dm w) (w_line w) (w_lua w));
  keep_exec : ∀ h w ws, I w → Forall word_ok ws → ∃ w', exec_words env h w ws = Some w' ∧ I w';
  keep_close : ∀ w i, I w → I (elua_net_close env w i)
}.

(** Text of a command for "lua": an argument with its quotes, if it has some, after one space or more. *)
Definition arg_text (a : option Z * mem) : mem := match a.1 with Some q => q :: a.2 ++ [q] | None => a.2 end.

Definition arg_ok (a : option Z * mem) : Prop :=
  match a.1 with
  | Some q => is_quote q = true ∧ Forall (λ c, isprint c = true ∧ c ≠ q) a.2
  | None => a.2 ≠ [] ∧ Forall (λ c, isprint c = true ∧ c ≠ CH_SPACE ∧ is_quote c = false) a.2
  end.

Definition lua_command (args : list (nat * (option Z * mem))) : mem :=
  txt "lua" ++ concat ((λ a : nat * (option Z * mem), replicate (S a.1) CH_SPACE ++ arg_text a.2) <$> args).

(** ** One line *)

Lemma addhistory_loop_total m force fuel : ∀ line hist, (length line < fuel)%nat → nonzero line → Forall nonzero hist →
  ∃ hist', addhistory_loop m fuel hist line force = Some hist' ∧ Forall nonzero hist'.
Proof.
  assert (∀ s, nonzero s → nonzero (upto_newline s)) as Hup.
  { induction 1 as [|c s Hc _ IH]; cbn; [constructor|]. destruct (c =? NET_LF); [constructor|by constructor]. }
  assert (∀ h x, Forall nonzero h → nonzero x → Forall nonzero (push_history m h x)) as Hpush.
  { intros h x Hh Hx. unfold push_history. apply Forall_app. split; [|by repeat constructor]. destruct (_ =? _); [by apply Forall_drop|done]. }
  induction fuel as [|fuel IH]; intros line hist Hl Hn Hh; [lia|]. cbn [addhistory_loop].
  set (h := if _ : bool then _ else hist). assert (Forall nonzero h) as Hh' by (unfold h; destruct (_ || _); [by apply Hpush; [|apply Hup]|done]).
  destruct (drop _ line) as [|x rest] eqn:Ed; [by eexists|]. case_bool_decide; [by eexists|].
  assert (length (drop (length (upto_newline line)) line) = S (length rest)) as Hd by (by rewrite Ed). rewrite length_drop in Hd.
  apply IH; [lia| |done]. assert (nonzero (x :: rest)) as Hx by (rewrite <- Ed; by apply Forall_drop). by apply Forall_cons in Hx as [].
Qed.

Lemma addhistory_total m hist line : nonzero line → Forall nonzero hist →
  ∃ hist' r, linenoise_addhistory m hist line = Some (hist', r) ∧ Forall nonzero hist'.
Proof.
  intros Hn Hh. unfold linenoise_addhistory, linenoise_internal_addhistory. destruct (m =? 0); [by eexists _, _|].
  destruct (addhistory_loop_total m false (S (length line)) line hist) as (h & -> & H); [lia|done|done|]. cbn [mbind option_bind]. by eexists _, _.
Qed.

Lemma exec_ok (w : W) hist cmd s : cstr cmd = Some s → msize s + 1 < msize cmd → Forall nonzero hist →
  match spec_line w s with
  | Some (w', fin) => ∃ hist' cmd', shell_exec env w hist cmd = Some (w', hist', cmd', fin) ∧ msize cmd' = msize cmd ∧ Forall nonzero hist'
  | None => shell_exec env w hist cmd = None
  end.
Proof.
  intros Hc Hsz Hh. unfold shell_exec, strlen. rewrite Hc. cbn [mbind option_bind]. destruct (decide (s = [])) as [->|Hs].
  { cbn. by eexists _, _. }
  pose proof (msize_pos s Hs). rewrite (proj2 (Z.eqb_neq _ 0)) by lia.
  destruct (addhistory_total (env_history env) hist s) as (h & r & -> & Hh'); [by destruct (cstr_inv _ _ Hc)|done|]. cbn [mbind option_bind].
  destruct (parse_ok cmd s Hc Hs Hsz) as (m & a & -> & Hm & Ha). cbn [mbind option_bind]. unfold line_action in Ha. unfold spec_line.
  destruct (tokens s 0 []) as [[|c ws]|]; [subst a; by eexists _, _| |subst a; by eexists _, _].
  destruct (find_command shell_commands (hide c)) as [hd|]; [|subst a; by eexists _, _]. destruct Ha as (pre & post & -> & -> & Hws). destruct hd as [hd|].
  - rewrite args_joined in *. pose proof (run_ok env hd w pre (hide_words ws) post Hws) as Hr. cbn zeta in Hr.
    destruct (exec_words env hd w (hide_words ws)) as [w'|]; cbn [mbind option_bind].
    + destruct Hr as (m & -> & Hm'). cbn [mbind option_bind]. eexists _, _. split; [done|]. by rewrite Hm'.
    + by rewrite Hr.
  - destruct (env_uip env); by eexists _, _.
Qed.

(** ** The loop *)

Context (env_ok : msize SHELL_PROMPT < env_cols env < 2147483648 ∧ 0 < env_history env).

(** The line that the editor reads fits, with the line feed. *)
Lemma getline_cmd (w : W) hist cmd keys : msize cmd = SHELL_MAXSIZE + 1 → Forall nonzero hist →
  let '(v, rest, r) := view_getline (SHELL_MAXSIZE - 1) (env_history env) (S (length keys)) hist keys in taken_typed keys rest →
  ∃ e, linenoise_getline (env_cols env) SHELL_PROMPT (env_history env) (SHELL_MAXSIZE - 1) (take (Z.to_nat SHELL_MAXSIZE) cmd) hist (w_out w) keys = Some (e, rest, r) ∧
    let cmd' := ed_buf e ++ drop (Z.to_nat SHELL_MAXSIZE) cmd in
    cstr cmd' = Some (v_text v) ∧ msize cmd' = SHELL_MAXSIZE + 1 ∧ msize (v_text v) + 1 < msize cmd' ∧ ed_hist e = v_hist v ∧ Forall nonzero (v_hist v).
Proof.
  intros Hs Hh. destruct env_ok as [Hc Hm].
  assert (msize (take (Z.to_nat SHELL_MAXSIZE) cmd) = SHELL_MAXSIZE - 1 + 1 ∧ msize (drop (Z.to_nat SHELL_MAXSIZE) cmd) = 1) as [H1 H2].
  { unfold msize in *. rewrite length_take, length_drop. unfold SHELL_MAXSIZE in *. lia. }
  pose proof (getline_ok (env_cols env) SHELL_PROMPT (env_history env) (SHELL_MAXSIZE - 1) (S (length keys)) (take (Z.to_nat SHELL_MAXSIZE) cmd) hist (w_out w) keys
    Hc ltac:(unfold SHELL_MAXSIZE; lia) Hm H1 Hh ltac:(lia)) as H.
  destruct (view_getline _ _ _ _ _) as [[v rest] r]. intros Hk. destruct (H Hk) as (e & E & Ht & Hhist & Hn). exists e. split; [exact E|]. cbn zeta.
  pose proof Ht as (post & Eb & Hsz & Hnz).
  assert (msize (v_text v) <= SHELL_MAXSIZE - 1) as Hfit by (unfold v_text; rewrite msize_app; by apply (text_fits _ (ed_buf e))).
  split; [|split; [msz; lia|split; [msz; lia|done]]]. rewrite Eb, app_assoc, <- app_assoc. cbn [app]. by apply cstr_app.
Qed.

(** The editor takes keys. *)
Lemma view_getline_takes buflen m fuel : ∀ hist keys v rest r, view_getline buflen m fuel hist keys = (v, rest, Some r) → (length rest < length keys)%nat.
Proof.
  induction fuel as [|fuel IH]; intros hist keys v rest r; cbn [view_getline]; destruct (view_loop _ _ keys) as [[v1 rest1] r1] eqn:E.
  - intros [= -> -> ->]. by apply view_loop_result in E as [].
  - case_bool_decide as Hc.
    + subst r1. intros H. apply IH in H. apply view_loop_result in E as []. lia.
    + intros [= -> -> ->]. by apply view_loop_result in E as [].
Qed.

Lemma view_getline_waits buflen m fuel : ∀ hist keys v rest, view_getline buflen m fuel hist keys = (v, rest, None) → rest = [].
Proof.
  assert (∀ keys v v' rest, view_loop buflen v keys = (v', rest, None) → rest = []) as Hl.
  { induction keys as [|c keys IH]; intros v v' rest; cbn [view_loop]; [by intros [= _ <-]|]. destruct (view_key _ v c) as [v1|[v1 r]]; [apply IH|done]. }
  induction fuel as [|fuel IH]; intros hist keys v rest; cbn [view_getline]; destruct (view_loop _ _ keys) as [[v1 rest1] r1] eqn:E.
  - intros [= -> -> ->]. by apply Hl in E.
  - case_bool_decide as Hc; [apply IH|]. intros [= -> -> ->]. by apply Hl in E.
Qed.

Section total.
Context (I : W → Prop) (HI : handlers_keep I).

Lemma Iecho (w : W) out : I w → I (World out (w_files w) (w_dm w) (w_line w) (w_lua w)).
Proof. apply HI. Qed.

Lemma Iexec h (w : W) ws : I w → Forall word_ok ws → ∃ w', exec_words env h w ws = Some w' ∧ I w'.
Proof. apply HI. Qed.

Lemma Iclose (w : W) i : I w → I (elua_net_close env w i).
Proof. apply HI. Qed.

Lemma hide_words_ok s ws c : nonzero s → tokens s 0 [] = Some (c :: ws) → Forall word_ok (hide_words ws).
Proof.
  intros Hn Ht. pose proof (tokens_words s 0 [] ltac:(by left)) as E. pose proof (hidden_nonzero (norm s) 0 (norm_nonzero s Hn)) as Hh.
  destruct (hidden (norm s) 0) as [t ins]. cbn [fst] in Hh. rewrite Ht in E. destruct ins; [done|]. cbn in E. injection E as E.
  pose proof (words_ok t [] Hh ltac:(constructor)) as H. rewrite <- E in H. by apply Forall_cons in H as [].
Qed.

Lemma spec_line_total w s : nonzero s → I w → ∃ w' fin, spec_line w s = Some (w', fin) ∧ I w'.
Proof.
  intros Hn Hw. unfold spec_line. destruct (tokens s 0 []) as [[|c ws]|] eqn:Et; [by eexists _, _| |eexists _, _; split; [done|by apply Iecho]].
  destruct (find_command shell_commands (hide c)) as [[h|]|]; [| |eexists _, _; split; [done|by apply Iecho]].
  - destruct (Iexec h w (hide_words ws) Hw (hide_words_ok s ws c Hn Et)) as (w' & -> & Hw'). by eexists _, _.
  - destruct (env_uip env); [|by eexists _, _]. eexists _, _. split; [done|]. destruct (negb _); [by apply Iclose|done].
Qed.

Lemma loop_total n : ∀ keys (w : W) hist cmd, Forall typed keys → (length keys < n)%nat → msize cmd = SHELL_MAXSIZE + 1 → Forall nonzero hist → I w →
  ∃ w' hist' cmd' rest fin, shell_loop env n w hist cmd keys = Some (w', hist', cmd', rest, fin) ∧ msize cmd' = SHELL_MAXSIZE + 1 ∧ I w' ∧ (rest = [] ∨ fin = true).
Proof.
  induction n as [|n IH]; intros keys w hist cmd Hty Hk Hs Hh Hw; [lia|]. cbn [shell_loop]. pose proof (getline_cmd w hist cmd keys Hs Hh) as H.
  pose proof (view_getline_takes (SHELL_MAXSIZE - 1) (env_history env) (S (length keys)) hist keys) as Htake.
  pose proof (view_getline_waits (SHELL_MAXSIZE - 1) (env_history env) (S (length keys)) hist keys) as Hwait.
  pose proof (view_getline_rest (SHELL_MAXSIZE - 1) (env_history env) (S (length keys)) hist keys) as [used Hused].
  destruct (view_getline _ _ _ _ _) as [[v rest] r]. destruct (H (taken_all _ _ Hty)) as (e & -> & Hc & Hsz & Hfit & Hhist & Hn). cbn [mbind option_bind].
  cbn in Hused. assert (Forall typed rest) as Htyr by (rewrite Hused in Hty; by apply Forall_app in Hty as [_ ?]).
  destruct r as [count|].
  - specialize (Htake _ _ _ eq_refl). destruct (count =? -1).
    + apply IH; [done|lia|done|by rewrite Hhist|]. by apply (Iecho (World _ _ _ _ _)), Iecho.
    + set (w1 := World _ _ _ _ _). assert (I w1) as Hw1 by (by apply Iecho). rewrite Hhist.
      pose proof (exec_ok w1 (v_hist v) _ _ Hc Hfit Hn) as Hx. destruct (spec_line_total w1 (v_text v)) as (w2 & fin & E & Hw2); [by destruct (cstr_inv _ _ Hc)|done|].
      rewrite E in Hx. destruct Hx as (hist2 & cmd2 & -> & Hsz2 & Hh2). cbn [mbind option_bind]. destruct fin.
      * eexists _, _, _, _, _. split; [done|]. split; [lia|]. split; [done|by right].
      * apply IH; [done|lia|lia|done|done].
  - eexists _, _, _, _, _. split; [done|]. split; [done|]. split; [by apply Iecho|]. left. by apply (Hwait v).
Qed.

End total.

(** C31: the shell's loop, for any sequence of characters and of the keys that the line editor is made for (with any other key,
    such as tab, the editor calls isprint with a code that is no character): as long as the handlers are defined, it stays in its arrays (the line that is
    read always has room for the line feed), consumes every key or ends with "exit", and keeps the invariant of the
    handlers. *)
Theorem shell_start_total (I : W → Prop) keys (w : W) hist cmd : Forall typed keys → handlers_keep I → msize cmd = SHELL_MAXSIZE + 1 → Forall nonzero hist → I w →
  ∃ w' hist' cmd' rest fin, shell_start env w hist cmd keys = Some (w', hist', cmd', rest, fin) ∧ msize cmd' = SHELL_MAXSIZE + 1 ∧ I w' ∧ (rest = [] ∨ fin = true).
Proof. intros Hk HI Hs Hh Hw. unfold shell_start. apply (loop_total I HI); [done|lia|done|done|by apply (Iecho I HI)]. Qed.

(** ** Typing a command for "lua" *)

Lemma view_typed buflen t : ∀ l h i rest, Forall (λ c, isprint c = true) t → msize l + msize t <= buflen →
  view_loop buflen (View l [] h i) (t ++ KC_ENTER :: rest) = (View (l ++ t) [] (take (length h - 1) h) i, rest, Some (msize (l ++ t))).
Proof.
  induction t as [|c t IH]; intros l h i rest Hp Hl.
  - cbn. unfold v_text. cbn. by rewrite !app_nil_r.
  - apply Forall_cons in Hp as [Hc Hp]. rewrite msize_cons in Hl. pose proof (msize_nonneg t). cbn [app view_loop]. unfold view_key. cbn [v_left v_right v_hist v_index].
    assert (32 <= c <= 126) as Hr by (unfold isprint in Hc; lia).
    repeat match goal with |- context [c =? ?k] => let v := eval compute in k in rewrite (proj2 (Z.eqb_neq c k)) by (change k with v; lia) end.
    cbn [orb]. rewrite Hc. unfold v_text at 1. cbn [v_left v_right]. rewrite app_nil_r, (proj2 (Z.ltb_lt _ _)) by lia. cbn [andb]. unfold set_text. cbn [v_hist v_index].
    rewrite (IH (l ++ [c])) by (try done; msz; lia). by rewrite <- app_assoc.
Qed.

Lemma tokens_plain a s : ∀ cur, Forall (λ c, blank c = false ∧ is_quote c = false) a → tokens (a ++ s) 0 cur = tokens s 0 (cur ++ a).
Proof.
  induction a as [|c a IH]; intros cur Ha; [by rewrite app_nil_r|]. apply Forall_cons in Ha as [[Hb Hq] Ha]. cbn [app tokens]. change (negb (0 =? 0)) with false. cbv iota.
  rewrite Hq, Hb, IH by done. by rewrite <- app_assoc.
Qed.

Lemma tokens_open q a s : is_quote q = true → ∀ cur, Forall (λ c, c ≠ q) a → tokens (a ++ q :: s) q cur = tokens s 0 (cur ++ a ++ [q]).
Proof.
  intros Hq. assert (negb (q =? 0) = true) as Hq0 by (by apply is_quote_inv in Hq as [-> | ->]). induction a as [|c a IH]; intros cur Ha; cbn [app tokens]; rewrite Hq0.
  - by rewrite Z.eqb_refl.
  - apply Forall_cons in Ha as [Hc Ha]. rewrite (proj2 (Z.eqb_neq c q)), IH by done. by rewrite <- app_assoc.
Qed.

Lemma tokens_spaces n s cur : tokens (replicate (S n) CH_SPACE ++ s) 0 cur = ws ← tokens s 0 []; Some (flush_word cur ++ ws).
Proof.
  revert cur. induction n as [|n IH]; intros cur; [done|].
  transitivity (ws ← tokens (replicate (S n) CH_SPACE ++ s) 0 []; Some (flush_word cur ++ ws)); [done|]. rewrite IH. by destruct (tokens s 0 []).
Qed.

Lemma print_plain c : isprint c = true → c ≠ CH_SPACE → blank c = false.
Proof. unfold isprint, blank, CH_SPACE, CH_CR, CH_LF. lia. Qed.

Lemma tokens_arg a s : arg_ok a → tokens (arg_text a ++ s) 0 [] = tokens s 0 (arg_text a).
Proof.
  destruct a as [[q|] a]; unfold arg_ok, arg_text; cbn [fst snd]; intros [Hq Ha].
  - cbn [app tokens]. change (negb (0 =? 0)) with false. cbv iota. rewrite Hq, <- app_assoc. cbn [app]. rewrite tokens_open; [done|done|]. eapply Forall_impl; [exact Ha|]. by intros c [].
  - rewrite tokens_plain; [done|]. eapply Forall_impl; [exact Ha|]. intros c (Hp & Hs & Hc). split; [by apply print_plain|done].
Qed.

Lemma arg_text_word a : arg_ok a → flush_word (arg_text a) = [arg_text a].
Proof. destruct a as [[q|] [|c a]]; unfold arg_ok, arg_text; cbn; intros [? ?]; done. Qed.

Lemma tokens_args (args : list (nat * (option Z * mem))) : ∀ cur, Forall (λ a, arg_ok a.2) args →
  tokens (concat ((λ a : nat * (option Z * mem), replicate (S a.1) CH_SPACE ++ arg_text a.2) <$> args)) 0 cur = Some (flush_word cur ++ ((λ a, arg_text a.2) <$> args)).
Proof.
  induction args as [|[n a] args IH]; intros cur Ha; cbn [fmap list_fmap concat]; [by rewrite app_nil_r|]. apply Forall_cons in Ha as [Ha Hs]. cbn [fst snd] in *.
  rewrite <- app_assoc, tokens_spaces, tokens_arg, IH, arg_text_word by done. done.
Qed.

Lemma arg_value_ok a : arg_ok a → word_value (hide (arg_text a)) = a.2.
Proof.
  destruct a as [[q|] a]; unfold arg_ok, arg_text; cbn [fst snd]; intros [Hq Ha].
  - unfold hide. cbn [fmap list_fmap]. rewrite fmap_app. fold (hide a). cbn [fmap list_fmap]. assert (blank q = false) as -> by (by apply is_quote_inv in Hq as [-> | ->]).
    cbn [word_value]. rewrite Hq, length_app. cbn [length]. replace (length (hide a) + 1 - 1)%nat with (length (hide a)) by lia. rewrite take_app_length. unfold unhide, hide.
    rewrite <- list_fmap_compose. induction Ha as [|c a [Hc _] _ IH]; [done|]. cbn [fmap list_fmap]. rewrite IH. f_equal. unfold compose.
    destruct (Z.eqb_spec c CH_SPACE) as [->|Hs]; [done|]. rewrite print_plain by done. unfold isprint in Hc. by rewrite (proj2 (Z.eqb_neq c SHELL_ALT_SPACE)) by (unfold SHELL_ALT_SPACE; lia).
  - assert (hide a = a) as ->.
    { clear Hq. induction Ha as [|c a (Hp & Hs & _) _ IH]; [done|]. cbn [hide fmap list_fmap]. rewrite print_plain by done. f_equal. exact IH. }
    destruct a as [|c a]; [done|]. apply Forall_cons in Ha as [(_ & _ & Hc) _]. cbn. by rewrite Hc.
Qed.

Lemma arg_print a : arg_ok a → Forall (λ c, isprint c = true) (arg_text a).
Proof.
  destruct a as [[q|] a]; unfold arg_ok, arg_text; cbn [fst snd]; intros [Hq Ha].
  - assert (isprint q = true) as Hp by (by apply is_quote_inv in Hq as [-> | ->]). constructor; [done|]. apply Forall_app. split; [|by constructor].
    eapply Forall_impl; [exact Ha|]. by intros c [].
  - eapply Forall_impl; [exact Ha|]. by intros c [].
Qed.

Lemma command_print args : Forall (λ a : nat * (option Z * mem), arg_ok a.2) args → Forall (λ c, isprint c = true) (lua_command args).
Proof.
  intros Ha. apply Forall_app. split; [by repeat constructor|]. induction Ha as [|a args Ha _ IH]; [constructor|]. cbn [fmap list_fmap concat].
  apply Forall_app. split; [|exact IH]. apply Forall_app. split; [by apply Forall_replicate|by apply arg_print].
Qed.

(** They are characters, and return. *)
Lemma command_typed args rest : Forall (λ a : nat * (option Z * mem), arg_ok a.2) args → taken_typed (lua_command args ++ KC_ENTER :: rest) rest.
Proof.
  intros Ha used E. assert (used = lua_command args ++ [KC_ENTER]) as ->.
  { apply (app_inv_tail rest). rewrite <- E, <- app_assoc. done. }
  apply Forall_app. split; [|repeat constructor]. eapply Forall_impl; [by apply command_print|]. intros c Hc. right. unfold isprint in Hc. lia.
Qed.

(** C30: typing "lua" with arguments, plain or in quotes of either kind (which may then have spaces and the other quotes),
    with any number of spaces between them, and return: Lua's main function gets exactly the arguments, without the
    quotes, and then the shell reads the next line. *)
Theorem shell_lua_typed fuel (w : W) hist cmd args rest :
  Forall (λ a : nat * (option Z * mem), arg_ok a.2) args → Z.of_nat (length args) <= SHELL_MAX_LUA_ARGS → msize (lua_command args) < SHELL_MAXSIZE →
  msize cmd = SHELL_MAXSIZE + 1 → Forall nonzero hist →
  ∃ out hist' cmd', shell_loop env (S fuel) w hist cmd (lua_command args ++ KC_ENTER :: rest) =
    shell_loop env fuel (lua_main (printf (World out (w_files w) (w_dm w) (w_line w) (w_lua w)) (txt "Press CTRL+Z to exit Lua" ++ [CH_LF]))
      (txt "lua" :: ((λ a, a.2.2) <$> args))) hist' cmd' rest ∧
    msize cmd' = SHELL_MAXSIZE + 1 ∧ Forall nonzero hist'.
Proof.
  intros Ha Hn Hl Hs Hh. cbn [shell_loop]. pose proof (getline_cmd w hist cmd (lua_command args ++ KC_ENTER :: rest) Hs Hh) as H.
  cbn [view_getline] in H. rewrite (view_typed (SHELL_MAXSIZE - 1) (lua_command args) []) in H by (first [by apply command_print | rewrite msize_nil; unfold SHELL_MAXSIZE in *; lia]).
  cbn [app] in H. rewrite bool_decide_eq_false_2 in H by (pose proof (msize_nonneg (lua_command args)); intros [= E]; unfold LINENOISE_CTRL_C in E; lia).
  destruct H as (e & -> & Hc & Hsz & Hfit & Hhist & Hnz); [by apply command_typed|]. cbn [mbind option_bind]. unfold v_text in Hc, Hfit. cbn [v_left v_right] in Hc, Hfit. rewrite app_nil_r in Hc, Hfit.
  rewrite (proj2 (Z.eqb_neq _ (-1))) by (pose proof (msize_nonneg (lua_command args)); lia). set (w1 := World _ _ _ _ _). rewrite Hhist.
  pose proof (exec_ok w1 _ _ _ Hc Hfit Hnz) as Hx.
  assert (spec_line w1 (lua_command args) = Some (lua_main (printf w1 (txt "Press CTRL+Z to exit Lua" ++ [CH_LF])) (txt "lua" :: ((λ a, a.2.2) <$> args)), false)) as E.
  { unfold spec_line, lua_command. rewrite tokens_plain by (by repeat constructor). rewrite tokens_args by done. cbn [app].
    change (flush_word (txt "lua")) with [txt "lua"]. cbn [app].
    change (find_command shell_commands (hide (txt "lua"))) with (Some (Some shell_lua)). cbn [exec_words mbind option_bind]. unfold hide_words. rewrite length_fmap, length_fmap.
    rewrite decide_True by (unfold SHELL_MAX_LUA_ARGS in Hn; lia). do 4 f_equal. rewrite <- !list_fmap_compose. apply list_fmap_ext. intros i a Hi. unfold compose. apply arg_value_ok.
    exact (proj1 (Forall_lookup _ _) Ha i a Hi). }
  rewrite E in Hx. destruct Hx as (h & m & -> & Hm & Hh'). cbn [mbind option_bind]. exists (ed_out e), h, m. split; [done|]. split; [lia|done].
Qed.

(** ** "cp" *)

Lemma cp_files_ok (w : W) src dst d : src ≠ dst → contents (w_files w) !! src = Some d → writable (w_files w) dst = true → env_copy_ok env = true →
  0 < env_copy_size env → msize d <= room (w_files w) → msize d < 4294967296 → (length d < env_fuel env)%nat →
  cp_files (env_copy_size env) (env_copy_ok env) (env_fuel env) w src dst =
    Some (printf (set_files w (Stdio (<[dst := d]> (contents (w_files w))) (writable (w_files w)) (room (w_files w) - msize d))) (digits 10 (msize d) ++ txt " bytes copied" ++ [CH_LF]), true).
Proof.
  intros Hne Hs Hw Hok Hbs Hr Hsz Hf. unfold cp_files, fopen_wb. rewrite Hs, Hw, Hok. cbn [negb].
  pose proof (cp_loop_ok (env_copy_size env) src dst d Hbs Hne (env_fuel env) (Stdio (<[dst := []]> (contents (w_files w))) (writable (w_files w)) (room (w_files w))) 0) as E.
  cbn [contents writable room] in E. change (Z.of_nat 0) with 0 in E. rewrite E; [|by rewrite lookup_insert_ne|by rewrite lookup_insert_eq|lia|lia|done|lia].
  cbn [mbind option_bind]. by rewrite insert_insert_eq, Z.sub_0_r.
Qed.

Definition name_ok (s : mem) : Prop := arg_ok (None, s).

(** "cp src dst" with two names that differ, the second of which can be opened for writing: when there is room, the
    second file gets the contents of the first, of any length and in parts of any size, no other file changes, and the
    length is printed. *)
Theorem shell_cp_copies (w : W) hist cmd src dst d : name_ok src → name_ok dst → src ≠ dst →
  cstr cmd = Some (txt "cp " ++ src ++ txt " " ++ dst) → msize src + msize dst + 5 < msize cmd → Forall nonzero hist →
  contents (w_files w) !! src = Some d → writable (w_files w) dst = true → env_copy_ok env = true →
  0 < env_copy_size env → msize d <= room (w_files w) → msize d < 4294967296 → (length d < env_fuel env)%nat →
  ∃ hist' cmd', shell_exec env w hist cmd =
    Some (World (w_out w ++ digits 10 (msize d) ++ txt " bytes copied" ++ [CH_LF])
      (Stdio (<[dst := d]> (contents (w_files w))) (writable (w_files w)) (room (w_files w) - msize d)) (w_dm w) (w_line w) (w_lua w), hist', cmd', false).
Proof.
  intros Hsrc Hdst Hne Hc Hsz Hh Hs Hw Hok Hbs Hr Hd Hf.
  pose proof (exec_ok w hist cmd _ Hc ltac:(rewrite !msize_app; change (msize (txt "cp ")) with 3; change (msize (txt " ")) with 1; lia) Hh) as Hx.
  assert (tokens (txt "cp " ++ src ++ txt " " ++ dst) 0 [] = Some [txt "cp"; src; dst]) as Et.
  { pose proof (tokens_args [(0%nat, (None, src)); (0%nat, (None, dst))] (txt "cp")) as E.
    cbn [fmap list_fmap concat fst snd arg_text replicate] in E. unfold arg_text in E. cbn [fst snd] in E. rewrite app_nil_r in E. apply E. repeat apply Forall_cons_2; [done|done|constructor]. }
  assert (∀ s, name_ok s → hide s = s) as Hhide.
  { intros s Hn. pose proof (arg_value_ok (None, s) Hn) as E. unfold arg_text in E. cbn [fst snd] in E. destruct Hn as [Hn0 Hn]. destruct s as [|c s]; [done|].
    apply Forall_cons in Hn as [(Hp & Hcs & Hq) _]. cbn [hide fmap list_fmap word_value] in E. rewrite print_plain, Hq in E by done. unfold hide. cbn [fmap list_fmap]. rewrite print_plain by done. exact E. }
  unfold spec_line in Hx. rewrite Et in Hx. change (find_command shell_commands (hide (txt "cp"))) with (Some (Some shell_cp)) in Hx.
  unfold hide_words in Hx. cbn [fmap list_fmap exec_words] in Hx. rewrite !Hhide in Hx by done. rewrite (cp_files_ok w src dst d) in Hx by done. cbn [mbind option_bind] in Hx.
  destruct Hx as (h & m & -> & _). by exists h, m.
Qed.
End run.

(** ** "recv" *)

Section receive.
Context {D L : Type} {vm : @LuaVm D line L} (realloc : mem → Z → option mem).
Context (Hrealloc : ∀ m n, msize m <= n → ∃ m', realloc m n = Some m' ∧ msize m' = n ∧ take (length m) m' = m).

Lemma pad_ok m prog k : ∀ fuel, (k < fuel)%nat → (∀ i, 0 <= i < msize prog + Z.of_nat k → ld m i = ld (prog ++ replicate k 26) i) → prog ≠ [] → last prog ≠ Some 26 →
  pad_loop fuel m (msize prog + Z.of_nat k - 1) = Some (msize prog - 1).
Proof.
  induction k as [|k IH]; intros fuel Hf Hm Hne Hl; (destruct fuel as [|fuel]; [lia|]); cbn [pad_loop]; pose proof (msize_pos prog Hne).
  - rewrite Hm by lia. cbn [replicate]. rewrite app_nil_r. destruct (exists_last Hne) as (t & c & ->). rewrite last_snoc in Hl.
    replace (msize (t ++ [c]) + Z.of_nat 0 - 1) with (msize t) by (msz; lia). rewrite ld_mid. cbn [mbind option_bind].
    rewrite (proj2 (Z.eqb_neq c 26)) by congruence. f_equal. msz. lia.
  - rewrite Hm by lia. rewrite ld_app_r by lia. assert (ld (replicate (S k) 26) (msize prog + Z.of_nat (S k) - 1 - msize prog) = Some 26) as ->.
    { apply ld_Some_iff. split; [lia|]. apply lookup_replicate_2. lia. }
    cbn [mbind option_bind]. change (26 =? 26) with true. cbv iota. replace (msize prog + Z.of_nat (S k) - 1 - 1) with (msize prog + Z.of_nat k - 1) by lia.
    apply IH; [lia| |done|done]. intros i Hi. rewrite Hm by lia. rewrite replicate_S_end, app_assoc. apply ld_app_l. msz. lia.
Qed.

(** The packets hold the program and padding. *)
Definition padded (ps : list (list (list Z) * list Z)) (prog : mem) : Prop :=
  ∃ k, concat (snd <$> ps) = prog ++ replicate k 26 ∧ prog ≠ [] ∧ last prog ≠ Some 26.

(** "recv": a file that comes over the serial line with XMODEM, whatever silence or damaged packets come between its
    packets: Lua runs the program that was sent, without the padding of the last packet (which the transfer must have some
    program before), and its length is printed. *)
Theorem shell_recv_runs (w : world D line L) fuel ff ps ebads rest out buf dest prog :
  sent_ok 1 ps → Forall (λ a, a = [-1]) ebads → (length ebads < 20)%nat → msize buf = 132 →
  msize dest = XMODEM_INITIAL_BUFFER_SIZE → 128 * Z.of_nat (length ps) < 2147483648 → (20 * (length ps + 1) <= fuel)%nat → (0 < ff)%nat →
  padded ps prog → w_line w = (sent 1 ps ++ concat ebads ++ XM_EOT :: -1 :: rest, out) →
  ∃ x, x.1 = rest ∧ do_recv line_in line_out realloc (Some dest) buf fuel ff w =
    Some (run_prog (World (w_out w ++ txt "Waiting for file ... " ++ txt "done, got " ++ digits 10 (msize prog) ++ txt " bytes" ++ [CH_LF])
      (w_files w) (w_dm w) x (w_lua w)) prog).
Proof.
  intros Hok Heb Hel Hbuf Hdest Hsz Hf Hff (k & Hdata & Hne & Hlast) Hline. unfold do_recv. cbn [w_line printf]. rewrite Hline.
  destruct (xmodem_receive_ok realloc Hrealloc fuel ff ps ebads rest out buf dest Hok Heb Hel Hbuf Hdest Hsz Hf Hff) as (x & dest' & -> & Hx & Hread). cbn [mbind option_bind].
  rewrite (proj2 (Z.ltb_ge _ 0)) by lia. rewrite Hdata in Hread. apply mread_spec in Hread as (_ & _ & Hfit & E). change (Z.to_nat 0) with 0%nat in E. rewrite drop_0 in E.
  assert (128 * Z.of_nat (length ps) = msize prog + Z.of_nat k) as Hn.
  { apply (f_equal length) in E. rewrite length_app, length_replicate, length_take in E. unfold msize in *. lia. }
  rewrite Hn in *. pose proof (msize_pos prog Hne).
  rewrite (pad_ok dest' prog k); [|unfold msize in *; lia| |done|done].
  2:{ intros i Hi. rewrite E. unfold ld. rewrite !decide_True by lia. symmetry. apply lookup_take_lt. lia. }
  cbn [mbind option_bind]. replace (msize prog - 1 + 1) with (msize prog) by lia. rewrite u32_id by lia.
  assert (mread dest' 0 (msize prog) = Some prog) as ->.
  { apply mread_spec. split; [lia|]. split; [lia|]. split; [lia|]. change (Z.to_nat 0) with 0%nat. rewrite drop_0.
    apply (f_equal (take (Z.to_nat (msize prog)))) in E. rewrite to_nat_msize, take_app_length, take_take in E. rewrite to_nat_msize. etransitivity; [exact E|]. f_equal. unfold msize. lia. }
  cbn [mbind option_bind]. exists x. split; [done|]. unfold printf, set_line. cbn [w_out w_files w_dm w_line w_lua]. by rewrite <- !app_assoc.
Qed.
End receive.

(** ** The theorems at work: a Lua that records what it is given *)

Section demo.
Abbreviation DW := (world unit line (list (list mem))).

Definition record (w : DW) (l : list mem) : DW := World (w_out w) (w_files w) (w_dm w) (w_line w) (w_lua w ++ [l]).

Definition demo_vm : @LuaVm unit line (list (list mem)) := {|
  lua_open := λ w, (w, true); luaL_openlibs := λ w, w; luaL_loadbuffer := λ w prog, (record w [prog], None);
  lua_pcall := λ w, (w, None); lua_close := λ w, w; lua_main := record
|}.

Definition demo_env : @shell_env unit line (list (list mem)) :=
  ShellEnv 80 3 line_in line_out demo_realloc None (replicate 132 0) 4 true (λ d _, d) (λ _ _, None) true 220 false (λ _, -1) (λ w _, w).

Definition demo_files : stdio := Stdio (<[txt "a" := txt "0123456789"]> ∅) (λ n, bool_decide (n ≠ txt "rom")) 100.

Definition demo_world (x : line) : DW := World [] demo_files (DmState [] 0 tt) x [].

(** A file system for reading only, and no devices. *)
Definition quiet (w : DW) : Prop := dm_num_devs (w_dm w) = 0 ∧ ∀ n, writable (w_files w) n = false.

Lemma quiet_exec h w ws : quiet w → Forall word_ok ws → ∃ w', exec_words (vm := demo_vm) demo_env h w ws = Some w' ∧ quiet w'.
Proof.
  intros [Hd Hw] _. destruct h; cbn [exec_words demo_env env_prog do_recv do_ls].
  - eexists. by split.
  - eexists. split; [done|]. by destruct (decide _).
  - eexists. by split.
  - eexists. by split.
  - unfold do_ls, dm_get_num_devices. rewrite Hd. eexists. by split.
  - eexists. split; [done|]. by destruct ws.
  - destruct ws as [|src [|dst ws]]; [eexists; by split..|]. unfold cp_files, fopen_wb. rewrite Hw. destruct (_ !! src); cbn [mbind option_bind]; eexists; by split.
Qed.

Definition quiet_world : DW := World [] (Stdio (<[txt "a" := txt "0123456789"]> ∅) (λ _, false) 100) (DmState [] 0 tt) ([], []) [].

Lemma demo_env_ok : msize SHELL_PROMPT < env_cols demo_env < 2147483648 ∧ 0 < env_history demo_env.
Proof. by vm_compute. Qed.

(** A copy to a file that cannot be written, then "exit" with a space, and a key that is left. *)
Lemma shell_start_total_witness :
  ∃ w' hist' cmd' rest fin, shell_start (vm := demo_vm) demo_env quiet_world [] (replicate 51 170) (txt "cp a b" ++ [KC_ENTER] ++ txt "exit " ++ [KC_ENTER; 120]) =
    Some (w', hist', cmd', rest, fin) ∧ msize cmd' = SHELL_MAXSIZE + 1 ∧ quiet w' ∧ (rest = [] ∨ fin = true).
Proof.
  refine (shell_start_total (vm := demo_vm) demo_env demo_env_ok quiet (txt "cp a b" ++ [KC_ENTER] ++ txt "exit " ++ [KC_ENTER; 120]) quiet_world [] (replicate 51 170) _ (HandlersKeep demo_env quiet _ quiet_exec _) _ _ _);
    [apply (bool_decide_unpack _); by vm_compute|done|done|done|constructor|by split].
Defined.

Definition demo_args : list (nat * (option Z * mem)) := [(0%nat, (None, txt "-e")); (2%nat, (Some CH_QUOTE, txt "print( 1 )")); (0%nat, (Some CH_DQUOTE, txt "it's"))].

Lemma demo_args_ok : Forall (λ a : nat * (option Z * mem), arg_ok a.2) demo_args.
Proof. unfold demo_args. apply Forall_cons_2; [|apply Forall_cons_2; [|apply Forall_cons_2; [|constructor]]]; (split; [done|cbn; repeat constructor; done]). Qed.

Lemma shell_lua_typed_witness :
  ∃ out hist' cmd', shell_loop (vm := demo_vm) demo_env 2 (demo_world ([], [])) [] (replicate 51 170) (lua_command demo_args ++ [KC_ENTER]) =
    shell_loop (vm := demo_vm) demo_env 1 (record (printf (World out demo_files (DmState [] 0 tt) ([], []) []) (txt "Press CTRL+Z to exit Lua" ++ [CH_LF]))
      [txt "lua"; txt "-e"; txt "print( 1 )"; txt "it's"]) hist' cmd' [] ∧
    msize cmd' = SHELL_MAXSIZE + 1 ∧ Forall nonzero hist'.
Proof.
  exact (shell_lua_typed (vm := demo_vm) demo_env demo_env_ok 1 (demo_world ([], [])) [] (replicate 51 170) demo_args [] demo_args_ok ltac:(by vm_compute) ltac:(by vm_compute) eq_refl ltac:(constructor)).
Defined.

(** Ten bytes in parts of four. *)
Lemma shell_cp_copies_witness :
  ∃ hist' cmd', shell_exec (vm := demo_vm) demo_env (demo_world ([], [])) [] (txt "cp a b" ++ replicate 45 0) =
    Some (World (txt "10 bytes copied" ++ [CH_LF]) (Stdio (<[txt "b" := txt "0123456789"]> (contents demo_files)) (writable demo_files) 90) (DmState [] 0 tt) ([], []) [], hist', cmd', false).
Proof.
  refine (shell_cp_copies (vm := demo_vm) demo_env (demo_world ([], [])) [] (txt "cp a b" ++ replicate 45 0) (txt "a") (txt "b") (txt "0123456789") _ _ _ _ _ _ _ _ _ _ _ _ _);
    try (by vm_compute); try (split; [done|repeat constructor; done]); try done; try constructor. cbn. lia.
Defined.

(** Ten packets, the last of which is padded. *)
Definition demo_prog : mem := concat (replicate 9 (demo_data 7)) ++ [120].

Definition demo_sent : list (list (list Z) * list Z) := replicate 9 ([], demo_data 7) ++ [([], 120 :: replicate 127 26)].

Lemma demo_sent_ok : sent_ok 1 demo_sent.
Proof.
  assert (∀ data, length data = 128%nat → bytes_ok data → ∀ k ps, sent_ok (u8 (k + 1)) ps → sent_ok k (([], data) :: ps)) as H.
  { intros data Hl Hd k ps Hps. cbn [sent_ok]. split; [constructor|]. split; [cbn; lia|]. done. }
  assert (bytes_ok (demo_data 7)) as H7 by (by apply Forall_replicate; split).
  assert (bytes_ok (120 :: replicate 127 26)) as Hlast by (constructor; [by split|]; by apply Forall_replicate; split).
  unfold demo_sent. change (replicate 9 ([] : list (list Z), demo_data 7)) with (let x := ([] : list (list Z), demo_data 7) in [x; x; x; x; x; x; x; x; x]). cbn zeta. cbn [app]. do 9 (apply H; [done|done|]). by apply H.
Qed.

Lemma shell_recv_runs_witness :
  ∃ x, x.1 = [] ∧ do_recv (vm := demo_vm) line_in line_out demo_realloc (Some (replicate 1024 0)) (replicate 132 0) 220 1
      (demo_world (sent 1 demo_sent ++ concat [[-1]] ++ [XM_EOT; -1], [])) =
    Some (run_prog (vm := demo_vm) (World (txt "Waiting for file ... " ++ txt "done, got " ++ digits 10 (msize demo_prog) ++ txt " bytes" ++ [CH_LF]) demo_files (DmState [] 0 tt) x []) demo_prog).
Proof.
  refine (shell_recv_runs (vm := demo_vm) demo_realloc xm_realloc_ok (demo_world (sent 1 demo_sent ++ concat [[-1]] ++ [XM_EOT; -1], [])) 220 1
    demo_sent [[-1]] [] [] (replicate 132 0) (replicate 1024 0) demo_prog demo_sent_ok _ _ _ _ _ _ _ _ _).
  - by constructor.
  - cbn. lia.
  - done.
  - done.
  - done.
  - cbn. lia.
  - lia.
  - exists 127%nat. split; [by vm_compute|]. split; [done|by vm_compute].
  - done.
Defined.

(** ** What the code does not do as it means to *)

(** A file of padding only: the loop that takes the padding away reads in front of the program. *)
Example recv_only_padding : pad_loop 129 (replicate 128 26) 127 = None.
Proof. done. Qed.

(** What follows a quoted argument without a space takes the place of its second quote, whose predecessor is lost with
    it; and a quote inside an argument keeps its spaces as the alternate character. *)
Example lua_quote_then_text : word_value (hide (txt "'a'b")) = txt "a'" ∧ word_value (hide (txt "-e'a b'")) = txt "-e'a" ++ [SHELL_ALT_SPACE] ++ txt "b'".
Proof. done. Qed.

(** A copy of a file to itself: it is made empty before it is read. *)
Example cp_same_file :
  (f ← cp_files 4 true 10 (demo_world ([], [])) (txt "a") (txt "a"); Some (contents (w_files f.1) !! txt "a", f.2)) = Some (Some [], true).
Proof. by vm_compute. Qed.

(** A copy to a file system that is full: the whole length is reported. *)
Example cp_full :
  let w : DW := World [] (Stdio (<[txt "a" := txt "0123456789"]> ∅) (λ _, true) 3) (DmState [] 0 tt) ([], []) [] in
  (f ← cp_files 4 true 10 w (txt "a") (txt "b"); Some (contents (w_files f.1) !! txt "b", w_out f.1)) =
    Some (Some (txt "012"), txt "10 bytes copied" ++ [CH_LF]).
Proof. by vm_compute. Qed.

(** A file that cannot be opened is also reported as a syntax error. *)
Example cp_missing : (f ← shell_exec (vm := demo_vm) demo_env (demo_world ([], [])) [] (txt "cp x y" ++ replicate 45 0); Some (w_out f.1.1.1)) =
  Some (txt "Unable to open x for reading" ++ [CH_LF] ++ txt "Syntax error." ++ [CH_LF]).
Proof. by vm_compute. Qed.
End demo.
