(* ===== verification/Mmcfs.v ===== *)
(** * The file system of memory cards: src/mmcfs.c

    The functions of FatFs are a parameter, with the fields of its file objects that this code uses; so is the state of
    the disk. File names are strings in memory. *)
From S2P Require Import Prelude RomFs.

Definition MMCFS_MAX_FDS : Z := 4.
Definition PATH_BUF_SIZE : Z := 40.
Definition EIO : Z := 5.

(** The flags of newlib, which has no O_BINARY on these platforms. *)
Definition O_RDONLY : Z := 0.
Definition O_WRONLY : Z := 1.
Definition O_RDWR : Z := 2.
Definition O_ACCMODE : Z := 3.
Definition O_APPEND : Z := 8.
Definition O_CREAT : Z := 512.
Definition O_TRUNC : Z := 1024.
Definition O_EXCL : Z := 2048.

Definition FR_OK : Z := 0.
Definition FA_READ : Z := 1.
Definition FA_WRITE : Z := 2.
Definition FA_OPEN_EXISTING : Z := 0.
Definition FA_CREATE_ALWAYS : Z := 8.
Definition FA_OPEN_ALWAYS : Z := 16.
Definition AM_DIR : Z := 16.

Section mmcfs.
Context {K P DD : Type}.

(** A file object; [fil_fs] is 0 when the pointer is null. *)
Record FIL := MkFIL { fil_fs : Z; fptr : Z; fil_fsize : Z; fil_priv : P }.

(** An entry of a directory, with the long name, which may be empty. *)
Record FILINFO := MkInfo { fi_fsize : Z; fi_ftime : Z; fi_fattrib : Z; fi_fname : mem; fi_lfname : mem }.

(** FatFs: the last result of every function is its code. [f_write] gives the number of bytes written, [f_read] the bytes
    read. *)
Class FatFs := {
  f_open : K → FIL → mem → Z → K * FIL * Z;
  f_close : K → FIL → K * FIL * Z;
  f_write : K → FIL → mem → K * FIL * Z * Z;
  f_read : K → FIL → Z → K * FIL * mem * Z;
  f_lseek : K → FIL → Z → K * FIL * Z;
  f_opendir : K → mem → K * DD * Z;
  f_readdir : K → DD → K * DD * FILINFO * Z;
  fil_zero_priv : P
}.

Record mmcfs := Mmcfs { mmcfs_fd_table : list FIL; mmcfs_num_fd : Z; mmc_fileObject : FIL; mmc_pathBuf : mem; mmc_dir : option DD; disk : K; mm_errno : Z }.

Context {fat : FatFs}.

Definition FIL_zero : FIL := MkFIL 0 0 0 fil_zero_priv.

Definition set_error (s : mmcfs) (e : Z) : mmcfs :=
  Mmcfs (mmcfs_fd_table s) (mmcfs_num_fd s) (mmc_fileObject s) (mmc_pathBuf s) (mmc_dir s) (disk s) e.

(** A file object of the table and the disk after a call of FatFs. *)
Definition set_fil (s : mmcfs) (fd : Z) (f : FIL) (k : K) : mmcfs :=
  Mmcfs (<[Z.to_nat fd := f]> (mmcfs_fd_table s)) (mmcfs_num_fd s) (mmc_fileObject s) (mmc_pathBuf s) (mmc_dir s) k (mm_errno s).

(** [mmcfs_fd_table + fd]. *)
Definition fil_at (s : mmcfs) (fd : Z) : option FIL := if decide (0 <= fd) then mmcfs_fd_table s !! Z.to_nat fd else None.

Fixpoint find_empty (t : list FIL) (i : Z) : Z :=
  match t with
  | [] => -1
  | f :: t => if fil_fs f =? 0 then i else find_empty t (i + 1)
  end.

Definition mmcfs_find_empty_fd (s : mmcfs) : Z := find_empty (mmcfs_fd_table s) 0.

(** The translation of the flags; nothing for EINVAL. *)
Definition mmc_create_mode (flags : Z) : option Z :=
  if (Z.land flags (Z.lor O_CREAT O_TRUNC) =? Z.lor O_CREAT O_TRUNC) && ctrue (Z.land flags (Z.lor O_RDWR O_WRONLY)) then Some FA_CREATE_ALWAYS
  else if Z.land flags (Z.lor O_CREAT O_EXCL) =? Z.lor O_CREAT O_EXCL then Some FA_OPEN_EXISTING
  else if Z.land flags O_CREAT =? O_CREAT then Some FA_OPEN_ALWAYS
  else if (flags =? O_RDONLY) || (flags =? O_WRONLY) || (flags =? O_RDWR) then Some FA_OPEN_EXISTING
  else None.

Definition mmc_access_mode (flags : Z) : option Z :=
  if Z.land flags O_ACCMODE =? O_RDONLY then Some FA_READ
  else if Z.land flags O_ACCMODE =? O_WRONLY then Some FA_WRITE
  else if Z.land flags O_ACCMODE =? O_RDWR then Some (Z.lor FA_READ FA_WRITE)
  else None.

Definition mmc_mode (flags : Z) : option Z := m ← mmc_create_mode flags; a ← mmc_access_mode flags; Some (Z.lor m a).

(** The path, with a slash in front when it has none. *)
Definition mmc_path (buf path : mem) : option mem :=
  buf ← st buf 0 0;
  slash ← strchr path 47;
  buf ← (match slash with None => c_strcat buf [47; 0] | Some _ => Some buf end);
  c_strcat buf path.

Definition mmcfs_open_r (s : mmcfs) (path : mem) (flags mode : Z) : option (mmcfs * Z) :=
  if mmcfs_num_fd s =? MMCFS_MAX_FDS then Some (set_error s ENFILE, -1)
  else
    buf ← mmc_path (mmc_pathBuf s) path;
    let s := Mmcfs (mmcfs_fd_table s) (mmcfs_num_fd s) (mmc_fileObject s) buf (mmc_dir s) (disk s) (mm_errno s) in
    match mmc_mode flags with
    | None => Some (set_error s EINVAL, -1)
    | Some m =>
        name ← cstr buf;
        let '(k, f, res) := f_open (disk s) (mmc_fileObject s) name m in
        if negb (res =? FR_OK) then
          Some (Mmcfs (mmcfs_fd_table s) (mmcfs_num_fd s) f buf (mmc_dir s) k ENOENT, -1)
        else
          let f := if ctrue (Z.land mode O_APPEND) then MkFIL (fil_fs f) (fil_fsize f) (fil_fsize f) (fil_priv f) else f in
          let fd := mmcfs_find_empty_fd s in
          if decide (0 <= fd < Z.of_nat (length (mmcfs_fd_table s))) then
            Some (Mmcfs (<[Z.to_nat fd := f]> (mmcfs_fd_table s)) (mmcfs_num_fd s + 1) f buf (mmc_dir s) k (mm_errno s), fd)
          else None
    end.

Definition mmcfs_close_r (s : mmcfs) (fd : Z) : option (mmcfs * Z) :=
  f ← fil_at s fd;
  let '(k, _, _) := f_close (disk s) f in
  let s := set_fil s fd FIL_zero k in
  Some (Mmcfs (mmcfs_fd_table s) (mmcfs_num_fd s - 1) (mmc_fileObject s) (mmc_pathBuf s) (mmc_dir s) (disk s) (mm_errno s), 0).

Definition mmcfs_write_r (s : mmcfs) (fd : Z) (ptr : mem) (len : Z) : option (mmcfs * Z) :=
  f ← fil_at s fd;
  data ← mread ptr 0 len;
  let '(k, f, bytesWritten, res) := f_write (disk s) f data in
  let s := set_fil s fd f k in
  if negb (res =? FR_OK) then Some (set_error s EIO, -1) else Some (s, s32 bytesWritten).

Definition mmcfs_read_r (s : mmcfs) (fd : Z) (ptr : mem) (len : Z) : option (mmcfs * mem * Z) :=
  f ← fil_at s fd;
  let '(k, f, data, res) := f_read (disk s) f len in
  let s := set_fil s fd f k in
  ptr ← mwrite ptr 0 data;
  if negb (res =? FR_OK) then Some (set_error s EIO, ptr, -1) else Some (s, ptr, s32 (msize data)).

Definition mmcfs_lseek_r (s : mmcfs) (fd off whence : Z) : option (mmcfs * Z) :=
  f ← fil_at s fd;
  let go newpos :=
    let '(k, f, res) := f_lseek (disk s) f newpos in
    let s := set_fil s fd f k in
    Some (s, if negb (res =? FR_OK) then -1 else s32 newpos) in
  if whence =? SEEK_SET then go (u32 off)
  else if whence =? SEEK_CUR then go (u32 (fptr f + off))
  else if whence =? SEEK_END then go (u32 (fil_fsize f + off))
  else Some (s, -1).

(** The file's size, for [st_size]. *)
Definition mmcfs_fstat_r (s : mmcfs) (fd : Z) : option (Z * Z) := f ← fil_at s fd; Some (fil_fsize f, 0).

(** The result is whether the directory was opened. *)
Definition mmcfs_opendir_r (s : mmcfs) (dname : option mem) : option (mmcfs * bool) :=
  ok ← (match dname with
        | None => Some true
        | Some d => n ← cstr d; Some ((msize n =? 0) || ((msize n =? 1) && bool_decide (n = txt "/")))
        end);
  if (ok : bool) then
    let '(k, d, res) := f_opendir (disk s) (txt "/") in
    Some (Mmcfs (mmcfs_fd_table s) (mmcfs_num_fd s) (mmc_fileObject s) (mmc_pathBuf s) (Some d) k (mm_errno s), res =? FR_OK)
  else Some (s, false).

(** The loop to the next file; the entry's name is empty at the end of the directory. *)
Fixpoint readdir_loop (fuel : nat) (k : K) (d : DD) : option (K * DD * option FILINFO) :=
  match fuel with
  | O => None
  | S fuel =>
      let '(k, d, fi, res) := f_readdir k d in
      if negb (res =? FR_OK) then Some (k, d, None)
      else
        c ← head (fi_fname fi);
        if c =? 0 then Some (k, d, None)
        else if Z.land (fi_fattrib fi) AM_DIR =? 0 then Some (k, d, Some fi)
        else readdir_loop fuel k d
  end.

(** The entry's name in [dm_shared_fname], an array of [DM_MAX_FNAME_LENGTH] + 1 characters. *)
Definition mmcfs_readdir_r (fuel : nat) (shared : mem) (s : mmcfs) : option (mmcfs * mem * option (Z * Z)) :=
  d ← mmc_dir s;
  '(k, d, r) ← readdir_loop fuel (disk s) d;
  let s := Mmcfs (mmcfs_fd_table s) (mmcfs_num_fd s) (mmc_fileObject s) (mmc_pathBuf s) (Some d) k (mm_errno s) in
  match r with
  | None => Some (s, shared, None)
  | Some fi =>
      c ← head (fi_lfname fi);
      let fn := if negb (c =? 0) then fi_lfname fi else fi_fname fi in
      shared ← c_strncpy shared fn DM_MAX_FNAME_LENGTH;
      Some (s, shared, Some (fi_fsize fi, fi_ftime fi))
  end.
End mmcfs.
Arguments FIL : clear implicits.
Arguments FatFs : clear implicits.
Arguments mmcfs : clear implicits.

(** ** The table of descriptors *)

Section descriptors.
Context {K P DD : Type} {fat : FatFs K P DD}.
Abbreviation St := (mmcfs K P DD).

Definition in_use (f : FIL P) : Prop := fil_fs f ≠ 0.

#[export] Instance in_use_dec f : Decision (in_use f).
Proof. unfold in_use. apply _. Defined.

(** The number of the descriptors in use is the one that is counted. *)
Definition mm_ok (s : St) : Prop :=
  Z.of_nat (length (mmcfs_fd_table s)) = MMCFS_MAX_FDS ∧ mmcfs_num_fd s = Z.of_nat (length (filter in_use (mmcfs_fd_table s))) ∧
  msize (mmc_pathBuf s) = PATH_BUF_SIZE.

Definition is_open (s : St) (fd : Z) : Prop := ∃ f, fil_at s fd = Some f ∧ in_use f.

(** A call: the functions for a descriptor are called for one that is open, and a path has at most 38 characters. *)
Inductive mm_step (s : St) : St → Prop :=
  | step_open path p flags mode s' fd : cstr path = Some p → msize p <= 38 → mmcfs_open_r s path flags mode = Some (s', fd) → mm_step s s'
  | step_close fd s' r : is_open s fd → mmcfs_close_r s fd = Some (s', r) → mm_step s s'
  | step_write fd ptr len s' r : is_open s fd → mmcfs_write_r s fd ptr len = Some (s', r) → mm_step s s'
  | step_read fd ptr len s' ptr' r : is_open s fd → mmcfs_read_r s fd ptr len = Some (s', ptr', r) → mm_step s s'
  | step_lseek fd off whence s' r : is_open s fd → mmcfs_lseek_r s fd off whence = Some (s', r) → mm_step s s'
  | step_opendir dname s' r : mmcfs_opendir_r s dname = Some (s', r) → mm_step s s'
  | step_readdir fuel shared s' shared' r : mmcfs_readdir_r fuel shared s = Some (s', shared', r) → mm_step s s'.

(** What FatFs documents: a file object that was opened has its file system, and reading, writing and seeking leave that
    alone; no more is read than was asked for. *)
Class FatFsOk : Prop := {
  f_open_fs : ∀ k f n m k' f', f_open k f n m = (k', f', FR_OK) → fil_fs f' ≠ 0;
  f_write_fs : ∀ k f d k' f' n r, f_write k f d = (k', f', n, r) → fil_fs f' = fil_fs f;
  f_read_fs : ∀ k f len k' f' d r, f_read k f len = (k', f', d, r) → fil_fs f' = fil_fs f ∧ msize d <= Z.max 0 len;
  f_lseek_fs : ∀ k f n k' f' r, f_lseek k f n = (k', f', r) → fil_fs f' = fil_fs f
}.
Context {ok : FatFsOk}.

Lemma first_free (t : list (FIL P)) : ∀ i, 0 <= i →
  (find_empty t i = -1 ∧ filter in_use t = t) ∨
  ∃ a f b, t = a ++ f :: b ∧ find_empty t i = i + Z.of_nat (length a) ∧ filter in_use a = a ∧ ¬ in_use f.
Proof.
  induction t as [|f t IH]; intros i Hi; [by left|]. cbn [find_empty]. destruct (Z.eqb_spec (fil_fs f) 0) as [E|E].
  - right. exists [], f, t. split; [done|]. split; [cbn; lia|]. split; [done|]. unfold in_use. rewrite E. intros H. by apply H.
  - destruct (IH (i + 1)) as [[-> Hf]|(a & g & b & -> & -> & Ha & Hg)]; [lia| |].
    + left. split; [done|]. by rewrite filter_cons_True, Hf by done.
    + right. exists (f :: a), g, b. split; [done|]. split; [cbn [length]; lia|]. split; [by rewrite filter_cons_True, Ha by done|done].
Qed.

Lemma strchr_total c p rest : c ≠ 0 → Forall (λ x, x ≠ 0) p → ∃ r, strchr (p ++ 0 :: rest) c = Some r ∧ (r = None ↔ c ∉ p).
Proof.
  intros Hc. induction 1 as [|x p Hx _ (r & IH & Hr)]; cbn [app strchr].
  - rewrite (proj2 (Z.eqb_neq 0 c)) by done. exists None. split; [done|]. split; [|done]. intros _. apply not_elem_of_nil.
  - destruct (Z.eqb_spec x c) as [->|Hxc]; [exists (Some 0); split; [done|]; split; [done|intros []; by left]|].
    rewrite (proj2 (Z.eqb_neq x 0)), IH by done. exists (option_map Z.succ r). split; [done|]. rewrite not_elem_of_cons. destruct r; cbn; [|by rewrite <- Hr].
    split; [done|]. intros [_ H]. by apply Hr in H.
Qed.

Lemma strcat_app d r p rest : Forall (λ x, x ≠ 0) d → Forall (λ x, x ≠ 0) p → msize p <= msize r →
  ∃ r', c_strcat (d ++ 0 :: r) (p ++ 0 :: rest) = Some ((d ++ p) ++ 0 :: r') ∧ msize r' = msize r - msize p.
Proof.
  intros Hd Hp Hsz. unfold c_strcat. rewrite !cstr_app by done. cbn [mbind option_bind]. exists (drop (length p) r). split.
  - apply mwrite_spec. split; [apply msize_nonneg|]. split; [msz; lia|]. unfold msize at 1. rewrite Nat2Z.id, take_app_length, <- drop_drop. unfold msize. rewrite Nat2Z.id, drop_app_length.
    replace (length (p ++ [0])) with (S (length p)) by (rewrite length_app; cbn; lia). cbn [drop]. by rewrite <- !app_assoc.
  - unfold msize in *. rewrite length_drop. lia.
Qed.

(** The path that FatFs gets. *)
Definition full_path (p : mem) : mem := if decide (47 ∈ p) then p else 47 :: p.

Lemma path_fits buf path p : cstr path = Some p → msize p <= 38 → msize buf = PATH_BUF_SIZE →
  ∃ b, mmc_path buf path = Some b ∧ msize b = PATH_BUF_SIZE ∧ cstr b = Some (full_path p).
Proof.
  intros Hp Hl Hb. unfold PATH_BUF_SIZE in *. unfold mmc_path. destruct buf as [|x buf]; [done|]. rewrite msize_cons in Hb. rewrite st_spec by (rewrite msize_cons; lia).
  cbn [mbind option_bind]. change (<[Z.to_nat 0:=u8 0]> (x :: buf)) with (0 :: buf). destruct (cstr_inv _ _ Hp) as [Hn [rest ->]].
  destruct (strchr_total 47 p rest ltac:(done) Hn) as (r & -> & Hr). cbn [mbind option_bind]. unfold full_path. destruct r as [k|].
  - destruct (strcat_app [] buf p rest) as (r' & E & Hr'); [constructor|done|lia|]. cbn [app mbind option_bind] in *. rewrite E. eexists. split; [done|].
    split; [msz; lia|]. destruct (decide (47 ∈ p)) as [_|H]; [by apply cstr_app|]. by apply Hr in H.
  - destruct (strcat_app [] buf [47] []) as (r1 & E & Hr1); [constructor|by repeat constructor|unfold msize in *; cbn; lia|]. cbn [app mbind option_bind] in *. rewrite E. cbn [mbind option_bind].
    destruct (strcat_app [47] r1 p rest) as (r2 & E2 & Hr2); [by repeat constructor|done|rewrite Hr1; change (msize [47]) with 1; lia|]. cbn [app] in *. rewrite E2. eexists. split; [done|].
    change (msize [47]) with 1 in *. split; [msz; lia|]. rewrite decide_False by (by apply Hr). apply (cstr_app (47 :: p)). by constructor.
Qed.

(** The count after a change of an entry. *)
Lemma count_use (t : list (FIL P)) (i : nat) f g : t !! i = Some f → in_use f →
  length (filter in_use (<[i := g]> t)) = (length (filter in_use t) - (if decide (in_use g) then 0 else 1))%nat ∧ (0 < length (filter in_use t))%nat.
Proof.
  revert i. induction t as [|h t IH]; intros i Hi Hf; [done|]. destruct i as [|i].
  - injection Hi as ->. change (<[0%nat := g]> (f :: t)) with (g :: t). rewrite (filter_cons_True _ f) by done. cbn [length]. destruct (decide (in_use g)); [rewrite filter_cons_True by done|rewrite filter_cons_False by done]; cbn [length]; lia.
  - change (<[S i := g]> (h :: t)) with (h :: <[i := g]> t). destruct (IH i Hi Hf) as [E Hpos]. destruct (decide (in_use h)); [rewrite !filter_cons_True by done; cbn [length]; rewrite E|rewrite !filter_cons_False by done; rewrite E]; destruct (decide (in_use g)); lia.
Qed.

Lemma fil_at_lookup (s : St) fd f : fil_at s fd = Some f → 0 <= fd ∧ mmcfs_fd_table s !! Z.to_nat fd = Some f.
Proof. unfold fil_at. by case_decide. Qed.

Lemma fil_at_set (s s' : St) fd f : 0 <= fd < Z.of_nat (length (mmcfs_fd_table s)) → mmcfs_fd_table s' = <[Z.to_nat fd := f]> (mmcfs_fd_table s) →
  fil_at s' fd = Some f ∧ ∀ g, g ≠ fd → fil_at s' g = fil_at s g.
Proof.
  intros Hfd E. unfold fil_at. rewrite E. rewrite decide_True by lia. split; [apply list_lookup_insert_eq; lia|]. intros g Hg. case_decide; [|done]. rewrite list_lookup_insert_ne; [done|lia].
Qed.

(** An open file stays open when its file object changes and keeps its file system. *)
Lemma set_fil_ok (s : St) fd f g k : mm_ok s → fil_at s fd = Some f → in_use f → fil_fs g = fil_fs f →
  mm_ok (set_fil s fd g k) ∧ fil_at (set_fil s fd g k) fd = Some g ∧ ∀ h, h ≠ fd → fil_at (set_fil s fd g k) h = fil_at s h.
Proof.
  intros (Hl & Hn & Hb) Hf Hu Hg. destruct (fil_at_lookup _ _ _ Hf) as [Hfd Hi]. pose proof (lookup_lt_Some _ _ _ Hi). split; [|by apply fil_at_set; [lia|]].
  assert (in_use g) as Hug by (unfold in_use in *; congruence). destruct (count_use _ _ f g Hi Hu) as [E _]. rewrite decide_True in E by done.
  split; [|split]; cbn [set_fil mmcfs_fd_table mmcfs_num_fd mmc_pathBuf]; [by rewrite length_insert|rewrite E; lia|done].
Qed.

Lemma close_ok (s : St) fd : mm_ok s → is_open s fd →
  ∃ s', mmcfs_close_r s fd = Some (s', 0) ∧ mm_ok s' ∧ ¬ is_open s' fd ∧ ∀ g, g ≠ fd → fil_at s' g = fil_at s g.
Proof.
  intros (Hl & Hn & Hb) (f & Hf & Hu). destruct (fil_at_lookup _ _ _ Hf) as [Hfd Hi]. pose proof (lookup_lt_Some _ _ _ Hi). unfold mmcfs_close_r. rewrite Hf. cbn [mbind option_bind].
  destruct (f_close (disk s) f) as [[k f'] r]. eexists. split; [done|].
  assert (¬ in_use (FIL_zero (P := P))) as Hz by (unfold in_use; cbn; lia). destruct (count_use _ _ f FIL_zero Hi Hu) as [E Hpos]. rewrite decide_False in E by done.
  split; [split; [|split]; cbn; [by rewrite length_insert|rewrite E; lia|done]|].
  match goal with |- context [is_open ?s' fd] => destruct (fil_at_set s s' fd FIL_zero ltac:(lia) eq_refl) as [H1 H2] end. split; [|exact H2].
  intros (g & Hg & Hug). rewrite H1 in Hg. injection Hg as <-. done.
Qed.

(** What opening does: the file that FatFs opens, in the first descriptor that is free. *)
Definition open_result (s : St) (p : mem) (flags mode : Z) (s' : St) (fd : Z) : Prop :=
  (fd = -1 ∧ mmcfs_fd_table s' = mmcfs_fd_table s ∧
    ((mm_errno s' = ENFILE ∧ ∀ g, 0 <= g < MMCFS_MAX_FDS → is_open s g) ∨ (mm_errno s' = EINVAL ∧ mmc_mode flags = None) ∨
     (mm_errno s' = ENOENT ∧ ∃ m, mmc_mode flags = Some m ∧ (f_open (disk s) (mmc_fileObject s) (full_path p) m).2 ≠ FR_OK))) ∨
  (0 <= fd < MMCFS_MAX_FDS ∧ ¬ is_open s fd ∧ (∀ g, 0 <= g < fd → is_open s g) ∧ is_open s' fd ∧ (∀ g, g ≠ fd → fil_at s' g = fil_at s g) ∧
    ∃ m k f, mmc_mode flags = Some m ∧ f_open (disk s) (mmc_fileObject s) (full_path p) m = (k, f, FR_OK) ∧ disk s' = k ∧
      fil_at s' fd = Some (if ctrue (Z.land mode O_APPEND) then MkFIL (fil_fs f) (fil_fsize f) (fil_fsize f) (fil_priv f) else f)).

Lemma all_in_use (t : list (FIL P)) : length (filter in_use t) = length t → Forall in_use t.
Proof.
  induction t as [|f t IH]; [constructor|]. destruct (decide (in_use f)) as [Hf|Hf].
  - rewrite filter_cons_True by done. cbn [length]. intros [= E]. constructor; [done|by apply IH].
  - rewrite filter_cons_False by done. pose proof (length_filter in_use t). cbn [length]. lia.
Qed.

Lemma open_ok (s : St) path p flags mode : mm_ok s → cstr path = Some p → msize p <= 38 →
  ∃ s' fd, mmcfs_open_r s path flags mode = Some (s', fd) ∧ mm_ok s' ∧ open_result s p flags mode s' fd.
Proof.
  intros (Hl & Hn & Hb) Hp Hsz. unfold mmcfs_open_r. destruct (Z.eqb_spec (mmcfs_num_fd s) MMCFS_MAX_FDS) as [Hfull|Hfull].
  { eexists _, _. split; [done|]. split; [done|]. left. split; [done|]. split; [done|]. left. split; [done|]. intros g Hg.
    assert (Forall in_use (mmcfs_fd_table s)) as Hall by (apply all_in_use; lia). destruct (lookup_lt_is_Some_2 (mmcfs_fd_table s) (Z.to_nat g)) as [f Hf]; [lia|].
    exists f. split; [unfold fil_at; by rewrite decide_True by lia|]. exact (proj1 (Forall_lookup _ _) Hall _ _ Hf). }
  destruct (path_fits (mmc_pathBuf s) path p Hp Hsz Hb) as (b & -> & Hb' & Hc). cbn [mbind option_bind disk mmc_fileObject mmcfs_fd_table].
  destruct (mmc_mode flags) as [m|] eqn:Em.
  2:{ eexists _, _. split; [done|]. split; [done|]. left. split; [done|]. split; [done|]. right. left. done. }
  rewrite Hc. cbn [mbind option_bind]. destruct (f_open (disk s) (mmc_fileObject s) (full_path p) m) as [[k f] res] eqn:Ef.
  destruct (Z.eqb_spec res FR_OK) as [->|Hres]; cbn [negb].
  2:{ eexists _, _. split; [done|]. split; [done|]. left. split; [done|]. split; [done|]. right. right. split; [done|]. exists m. by rewrite Ef. }
  set (f1 := if ctrue _ then _ else f). assert (in_use f1) as Hu by (unfold in_use, f1; destruct (ctrue _); exact (f_open_fs _ _ _ _ _ _ Ef)).
  unfold mmcfs_find_empty_fd. cbn [mmcfs_fd_table]. destruct (first_free (mmcfs_fd_table s) 0 ltac:(lia)) as [[_ H]|(a & g & t & Et & -> & Ha & Hg)].
  { exfalso. apply Hfull. rewrite Hn, H. done. }
  rewrite Z.add_0_l. assert (length (mmcfs_fd_table s) = length a + S (length t))%nat as Hlen by (rewrite Et, length_app; done).
  rewrite decide_True by lia. eexists _, _. split; [done|]. rewrite Nat2Z.id. split; [split; [|split]|right].
  - cbn. by rewrite length_insert.
  - cbn. rewrite Hn, Et. rewrite insert_app_r_alt, Nat.sub_diag by done. cbn [insert list_insert]. rewrite !filter_app, !length_app, filter_cons_False, filter_cons_True by done. cbn [length]. lia.
  - done.
  - match goal with |- context [is_open ?s' (Z.of_nat (length a))] => destruct (fil_at_set s s' (Z.of_nat (length a)) f1 ltac:(lia)) as [H1 H2]; [cbn; by rewrite Nat2Z.id|] end.
    split; [lia|]. split; [|split; [|split; [by exists f1|split; [exact H2|by exists m, k, f]]]].
    + intros (g' & Hg' & Hug). apply fil_at_lookup in Hg' as [_ Hg']. rewrite Nat2Z.id, Et, list_lookup_middle in Hg' by done. by injection Hg' as <-.
    + intros j Hj. assert (Forall in_use a) as Hall by (apply all_in_use; by rewrite Ha). destruct (lookup_lt_is_Some_2 a (Z.to_nat j)) as [f' Hf']; [lia|].
      exists f'. split; [|exact (proj1 (Forall_lookup _ _) Hall _ _ Hf')]. unfold fil_at. rewrite decide_True, Et by lia. rewrite lookup_app_l by lia. done.
Qed.

(** Another descriptor's file object is the same. *)
Definition others_same (s s' : St) (fd : Z) : Prop := ∀ g, g ≠ fd → fil_at s' g = fil_at s g.

Lemma fil_kept (s : St) fd f g k : mm_ok s → fil_at s fd = Some f → in_use f → fil_fs g = fil_fs f →
  mm_ok (set_fil s fd g k) ∧ is_open (set_fil s fd g k) fd ∧ others_same s (set_fil s fd g k) fd.
Proof.
  intros Hs Hf Hu Hg. destruct (set_fil_ok s fd f g k Hs Hf Hu Hg) as (H1 & H2 & H3). split; [done|]. split; [|done]. exists g. split; [done|]. unfold in_use in *. congruence.
Qed.

Lemma error_ok (s s' : St) fd e : mm_ok s' ∧ is_open s' fd ∧ others_same s s' fd → mm_ok (set_error s' e) ∧ is_open (set_error s' e) fd ∧ others_same s (set_error s' e) fd.
Proof. done. Qed.

Lemma write_ok (s : St) fd ptr len : mm_ok s → is_open s fd → 0 <= len <= msize ptr →
  ∃ s' r, mmcfs_write_r s fd ptr len = Some (s', r) ∧ mm_ok s' ∧ is_open s' fd ∧ others_same s s' fd.
Proof.
  intros Hs (f & Hf & Hu) Hl. unfold mmcfs_write_r, mread. rewrite Hf, decide_True by lia. cbn [mbind option_bind].
  destruct (f_write _ f _) as [[[k f'] n] r] eqn:E. pose proof (fil_kept s fd f f' k Hs Hf Hu (f_write_fs _ _ _ _ _ _ _ E)) as H.
  destruct (negb _); eexists _, _; (split; [done|]); [by apply error_ok|exact H].
Qed.

Lemma read_ok (s : St) fd ptr len : mm_ok s → is_open s fd → 0 <= len <= msize ptr →
  ∃ s' ptr' r, mmcfs_read_r s fd ptr len = Some (s', ptr', r) ∧ msize ptr' = msize ptr ∧ mm_ok s' ∧ is_open s' fd ∧ others_same s s' fd.
Proof.
  intros Hs (f & Hf & Hu) Hl. unfold mmcfs_read_r. rewrite Hf. cbn [mbind option_bind]. destruct (f_read _ f _) as [[[k f'] d] r] eqn:E.
  destruct (f_read_fs _ _ _ _ _ _ _ E) as [Hfs Hd]. destruct (mwrite_is_Some ptr 0 d) as [ptr' Hp]; [lia|lia|]. rewrite Hp. cbn [mbind option_bind].
  pose proof (fil_kept s fd f f' k Hs Hf Hu Hfs) as H. apply mwrite_msize in Hp. destruct (negb _); eexists _, _, _; (split; [done|]); (split; [done|]); [by apply error_ok|exact H].
Qed.

Lemma lseek_ok (s : St) fd off whence : mm_ok s → is_open s fd →
  ∃ s' r, mmcfs_lseek_r s fd off whence = Some (s', r) ∧ mm_ok s' ∧ is_open s' fd ∧ others_same s s' fd.
Proof.
  intros Hs (f & Hf & Hu). unfold mmcfs_lseek_r. rewrite Hf. cbn [mbind option_bind].
  assert (∀ n, ∃ s' r, (let '(k, f', res) := f_lseek (disk s) f n in Some (set_fil s fd f' k, if negb (res =? FR_OK) then -1 else s32 n)) = Some (s', r) ∧ mm_ok s' ∧ is_open s' fd ∧ others_same s s' fd) as Hgo.
  { intros n. destruct (f_lseek _ f n) as [[k f'] r] eqn:E. eexists _, _. split; [done|]. exact (fil_kept s fd f f' k Hs Hf Hu (f_lseek_fs _ _ _ _ _ _ E)). }
  destruct (_ =? SEEK_SET); [apply Hgo|]. destruct (_ =? SEEK_CUR); [apply Hgo|]. destruct (_ =? SEEK_END); [apply Hgo|]. eexists _, _. split; [done|]. split; [done|]. split; [by exists f|done].
Qed.

Lemma step_ok (s s' : St) : mm_ok s → mm_step s s' → mm_ok s'.
Proof.
  intros Hs Hstep. inversion Hstep as [path p flags mode s1 fd Hp Hsz E|fd s1 r Ho E|fd ptr len s1 r Ho E|fd ptr len s1 ptr' r Ho E|fd off whence s1 r Ho E|dname s1 r E|fuel shared s1 shared' r E]; subst.
  - destruct (open_ok s path p flags mode Hs Hp Hsz) as (s2 & fd2 & E2 & H & _). by rewrite E2 in E; injection E as <- _.
  - destruct (close_ok s fd Hs Ho) as (s2 & E2 & H & _). by rewrite E2 in E; injection E as <- _.
  - destruct (mread ptr 0 len) as [d|] eqn:Hm; [|unfold mmcfs_write_r in E; rewrite Hm in E; by destruct (fil_at s fd)].
    apply mread_spec in Hm as (H1 & H2 & H3 & _). destruct (write_ok s fd ptr len Hs Ho ltac:(lia)) as (s2 & r2 & E2 & H & _). by rewrite E2 in E; injection E as <- _.
  - destruct Ho as (f & Hf & Hu). unfold mmcfs_read_r in E. rewrite Hf in E. cbn [mbind option_bind] in E. destruct (f_read _ f _) as [[[k f'] d] r'] eqn:Er.
    destruct (f_read_fs _ _ _ _ _ _ _ Er) as [Hfs _]. destruct (set_fil_ok s fd f f' k Hs Hf Hu Hfs) as (H & _). destruct (mwrite ptr 0 d); [|done]. cbn [mbind option_bind] in E.
    by destruct (negb _); injection E as <- _ _.
  - destruct (lseek_ok s fd off whence Hs Ho) as (s2 & r2 & E2 & H & _). by rewrite E2 in E; injection E as <- _.
  - unfold mmcfs_opendir_r in E. destruct (match dname with None => _ | Some d => _ end) as [[]|]; cbn [mbind option_bind] in E; [|by injection E as <- _|done].
    destruct (f_opendir _ _) as [[k d] res]. by injection E as <- _.
  - unfold mmcfs_readdir_r in E. destruct (mmc_dir s) as [d|]; [|done]. cbn [mbind option_bind] in E. destruct (readdir_loop fuel _ d) as [[[k d'] [fi|]]|]; cbn [mbind option_bind] in E; [|by injection E as <- _ _|done].
    destruct (head _) as [c|]; [|done]. cbn [mbind option_bind] in E. destruct (c_strncpy _ _ _); [|done]. by injection E as <- _ _.
Qed.

(** C40: the descriptors of the memory card, after any calls of which those with a descriptor are for an open one and those with
    a path for one of at most 38 characters: the count is that of the open files; opening such a path gives the first
    free descriptor, with the file that FatFs opened, or an error for the reason that the code names, and fails with
    ENFILE only when all are in use; a call for an open descriptor is defined inside the caller's buffer, keeps it open (or
    closes it) and leaves the files of the other descriptors alone. *)
Theorem mmcfs_descriptors (s s' : St) : mm_ok s → rtc mm_step s s' → mm_ok s' ∧
  (∀ path p flags mode, cstr path = Some p → msize p <= 38 →
    ∃ s2 fd, mmcfs_open_r s' path flags mode = Some (s2, fd) ∧ mm_ok s2 ∧ open_result s' p flags mode s2 fd) ∧
  ∀ fd, is_open s' fd →
    (∃ s2, mmcfs_close_r s' fd = Some (s2, 0) ∧ mm_ok s2 ∧ ¬ is_open s2 fd ∧ others_same s' s2 fd) ∧
    (∀ ptr len, 0 <= len <= msize ptr → ∃ s2 r, mmcfs_write_r s' fd ptr len = Some (s2, r) ∧ mm_ok s2 ∧ is_open s2 fd ∧ others_same s' s2 fd) ∧
    (∀ ptr len, 0 <= len <= msize ptr → ∃ s2 ptr' r, mmcfs_read_r s' fd ptr len = Some (s2, ptr', r) ∧ msize ptr' = msize ptr ∧ mm_ok s2 ∧ is_open s2 fd ∧ others_same s' s2 fd) ∧
    (∀ off whence, ∃ s2 r, mmcfs_lseek_r s' fd off whence = Some (s2, r) ∧ mm_ok s2 ∧ is_open s2 fd ∧ others_same s' s2 fd).
Proof.
  intros Hs Hrun. assert (mm_ok s') as Hs' by (induction Hrun; eauto using step_ok). split; [done|]. split; [intros; by eapply open_ok|]. intros fd Hfd.
  split; [by apply close_ok|]. split; [intros; by apply write_ok|]. split; [intros; by apply read_ok|]. intros. by apply lseek_ok.
Qed.
End descriptors.

(** ** A disk that holds a file per name: what is read back *)

Section demo.
(** The private part of a file object is its name. *)
Abbreviation DK := (gmap mem mem).

Definition demo_open (k : DK) (f : FIL mem) (n : mem) (m : Z) : DK * FIL mem * Z :=
  match k !! n with
  | Some d => if Z.land m FA_CREATE_ALWAYS =? 0 then (k, MkFIL 1 0 (msize d) n, FR_OK) else (<[n := []]> k, MkFIL 1 0 0 n, FR_OK)
  | None => if Z.land m (Z.lor FA_CREATE_ALWAYS FA_OPEN_ALWAYS) =? 0 then (k, MkFIL 0 0 0 n, 4) else (<[n := []]> k, MkFIL 1 0 0 n, FR_OK)
  end.

Definition demo_write (k : DK) (f : FIL mem) (d : mem) : DK * FIL mem * Z * Z :=
  let old := default [] (k !! fil_priv f) in
  let new := take (Z.to_nat (fptr f)) old ++ d ++ drop (Z.to_nat (fptr f) + length d) old in
  (<[fil_priv f := new]> k, MkFIL (fil_fs f) (fptr f + msize d) (msize new) (fil_priv f), msize d, FR_OK).

Definition demo_read (k : DK) (f : FIL mem) (len : Z) : DK * FIL mem * mem * Z :=
  let d := take (Z.to_nat len) (drop (Z.to_nat (fptr f)) (default [] (k !! fil_priv f))) in
  (k, MkFIL (fil_fs f) (fptr f + msize d) (fil_fsize f) (fil_priv f), d, FR_OK).

Definition demo_fat : FatFs DK mem unit := {|
  f_open := demo_open; f_close := λ k f, (k, f, FR_OK); f_write := demo_write; f_read := demo_read;
  f_lseek := λ k f n, (k, MkFIL (fil_fs f) n (fil_fsize f) (fil_priv f), FR_OK);
  f_opendir := λ k n, (k, tt, FR_OK); f_readdir := λ k d, (k, d, MkInfo 0 0 0 [0] [0], FR_OK); fil_zero_priv := []
|}.

Lemma demo_fat_ok : FatFsOk (fat := demo_fat).
Proof.
  split; cbn.
  - intros k f n m k' f'. unfold demo_open. destruct (k !! n); destruct (_ =? 0); by intros [= <- <-].
  - intros k f d k' f' n r. by intros [= <- <- <- <-].
  - intros k f len k' f' d r [= <- <- <- <-]. split; [done|]. unfold msize. rewrite length_take. lia.
  - intros k f n k' f' r. by intros [= <- <- <-].
Qed.

Definition demo_card : mmcfs DK mem unit :=
  Mmcfs (replicate 4 (MkFIL 0 0 0 [])) 0 (MkFIL 0 0 0 []) (replicate 40 0) None (<[txt "/log" := txt "first"]> ∅) 0.

Lemma demo_card_ok : mm_ok demo_card.
Proof. by vm_compute. Qed.

(** A file is open in the first descriptor. *)
Definition demo_opened : mmcfs DK mem unit :=
  match mmcfs_open_r (fat := demo_fat) demo_card (txt "log" ++ [0]) O_RDWR 0 with Some (s, _) => s | None => demo_card end.

Lemma demo_run : rtc (mm_step (fat := demo_fat)) demo_card demo_opened.
Proof. apply rtc_once. apply (step_open demo_card (txt "log" ++ [0]) (txt "log") O_RDWR 0 demo_opened 0); by vm_compute. Qed.

Lemma mmcfs_descriptors_witness :
  is_open demo_opened 0 ∧ mm_ok demo_opened ∧ ∃ s2, mmcfs_close_r (fat := demo_fat) demo_opened 0 = Some (s2, 0) ∧ mm_ok s2 ∧ ¬ is_open s2 0 ∧ others_same demo_opened s2 0.
Proof.
  assert (is_open demo_opened 0) as Hop by (by eexists).
  destruct (mmcfs_descriptors (ok := demo_fat_ok) demo_card demo_opened demo_card_ok demo_run) as (H1 & _ & H2). split; [done|]. split; [done|]. by destruct (H2 0 Hop) as [H _].
Defined.

(** The modes of [fopen], in the order r, w, a, r+, w+, a+. *)
Example mmcfs_fopen_modes :
  mmc_mode <$> [O_RDONLY; Z.lor O_WRONLY (Z.lor O_CREAT O_TRUNC); Z.lor O_WRONLY (Z.lor O_CREAT O_APPEND);
                O_RDWR; Z.lor O_RDWR (Z.lor O_CREAT O_TRUNC); Z.lor O_RDWR (Z.lor O_CREAT O_APPEND)] =
  [Some FA_READ; Some (Z.lor FA_CREATE_ALWAYS FA_WRITE); Some (Z.lor FA_OPEN_ALWAYS FA_WRITE);
   Some (Z.lor FA_READ FA_WRITE); Some (Z.lor FA_CREATE_ALWAYS (Z.lor FA_READ FA_WRITE)); Some (Z.lor FA_OPEN_ALWAYS (Z.lor FA_READ FA_WRITE))].
Proof. done. Qed.

(** Appending, as [fopen( ..., "a" )] asks for it (the mode is 0666): the text is written over the beginning of the file,
    since O_APPEND is looked for in the mode instead of the flags. *)
Example mmcfs_append_overwrites :
  (x ← mmcfs_open_r (fat := demo_fat) demo_card (txt "log" ++ [0]) (Z.lor O_WRONLY (Z.lor O_CREAT O_APPEND)) 438;
   y ← mmcfs_write_r (fat := demo_fat) x.1 x.2 (txt "2nd") 3; Some (disk y.1 !! txt "/log")) = Some (Some (txt "2ndst")).
Proof. by vm_compute. Qed.

(** Creating a file that must not exist opens the one that does. *)
Example mmcfs_excl_opens_existing :
  mmc_mode (Z.lor O_WRONLY (Z.lor O_CREAT O_EXCL)) = Some (Z.lor FA_OPEN_EXISTING FA_WRITE) ∧
  (x ← mmcfs_open_r (fat := demo_fat) demo_card (txt "log" ++ [0]) (Z.lor O_WRONLY (Z.lor O_CREAT O_EXCL)) 438; Some x.2) = Some 0 ∧
  (x ← mmcfs_open_r (fat := demo_fat) demo_card (txt "new" ++ [0]) (Z.lor O_WRONLY (Z.lor O_CREAT O_EXCL)) 438; Some x.2) = Some (-1).
Proof. by vm_compute. Qed.

(** Closing a descriptor that is not open counts one file too few: the next five are opened at once, and the fifth one is written
    in front of the table. *)
Example mmcfs_close_twice :
  (x ← mmcfs_close_r (fat := demo_fat) demo_card 0; Some (mmcfs_num_fd x.1)) = Some (-1) ∧
  (x ← mmcfs_close_r (fat := demo_fat) demo_card 0;
   foldr (λ _ y, y ← y; x ← mmcfs_open_r (fat := demo_fat) y (txt "log" ++ [0]) O_RDONLY 0; Some x.1) (Some x.1) (seq 0 4)) ≠ None ∧
  (x ← mmcfs_close_r (fat := demo_fat) demo_card 0;
   foldr (λ _ y, y ← y; x ← mmcfs_open_r (fat := demo_fat) y (txt "log" ++ [0]) O_RDONLY 0; Some x.1) (Some x.1) (seq 0 5)) = None.
Proof. by vm_compute. Qed.

(** A path of 39 characters without a slash does not fit the buffer. *)
Example mmcfs_long_path : mmcfs_open_r (fat := demo_fat) demo_card (replicate 39 97 ++ [0]) O_RDONLY 0 = None.
Proof. by vm_compute. Qed.
End demo.
