(* ===== verification/Adc.v ===== *)
(** * Support for analog-to-digital converters: src/elua_adc.c

    The state of the channels and of the device that converts them, with their buffers (Buf.v). The platform's
    functions, [realloc] and the flag BUF_ENABLE_ADC are parameters; [value_ptr] is an index into [sample_buf], and a
    channel is named by its number. Waiting for samples ([adc_wait_samples]) is a condition on the state. *)
From S2P Require Import Prelude Platform Buf.

Record adc_ch := AdcCh {
  op_pending : bool; blocking : bool; freerunning : bool; smooth_ready : bool; value_fresh : bool;
  ch_id : Z; logsmoothlen : Z; smoothidx : Z; smoothsum : Z; smoothbuf : option (list Z); reqsamples : Z; value_ptr : option Z }.

(** [seq] is [ch_state]; [None] is NULL. *)
Record adc_dev := AdcDev {
  seq : list (option Z); sample_buf : list Z; force_reseq : bool; skip_cycle : bool; running : bool;
  ch_active : Z; last_ch_active : Z; seq_id : Z; seq_ctr : Z; seq_len : Z }.

Record adc := Adc { adc_chs : list adc_ch; adc_d : adc_dev; adc_bufs : buf_state }.

Definition set_pending (s : adc_ch) (b : bool) (req : Z) : adc_ch :=
  AdcCh b (blocking s) (freerunning s) (smooth_ready s) (value_fresh s) (ch_id s) (logsmoothlen s) (smoothidx s) (smoothsum s) (smoothbuf s) req (value_ptr s).
Definition set_fresh (s : adc_ch) (b : bool) : adc_ch :=
  AdcCh (op_pending s) (blocking s) (freerunning s) (smooth_ready s) b (ch_id s) (logsmoothlen s) (smoothidx s) (smoothsum s) (smoothbuf s) (reqsamples s) (value_ptr s).
Definition set_value_ptr (s : adc_ch) (p : Z) : adc_ch :=
  AdcCh (op_pending s) (blocking s) (freerunning s) (smooth_ready s) (value_fresh s) (ch_id s) (logsmoothlen s) (smoothidx s) (smoothsum s) (smoothbuf s) (reqsamples s) (Some p).
Definition set_smooth (s : adc_ch) (ready : bool) (loglen idx sum : Z) (b : option (list Z)) : adc_ch :=
  AdcCh (op_pending s) (blocking s) (freerunning s) ready (value_fresh s) (ch_id s) loglen (u16 idx) (u32 sum) b (reqsamples s) (value_ptr s).

Definition adc_get_ch_state (a : adc) (id : Z) : option adc_ch := if decide (0 <= id) then adc_chs a !! Z.to_nat id else None.
Definition set_ch (a : adc) (id : Z) (s : adc_ch) : adc := Adc (<[Z.to_nat id := s]> (adc_chs a)) (adc_d a) (adc_bufs a).
Definition set_dev (a : adc) (d : adc_dev) : adc := Adc (adc_chs a) d (adc_bufs a).
Definition set_bufs (a : adc) (b : buf_state) : adc := Adc (adc_chs a) (adc_d a) b.

Definition set_active (d : adc_dev) (x : Z) : adc_dev :=
  AdcDev (seq d) (sample_buf d) (force_reseq d) (skip_cycle d) (running d) (u32 x) (last_ch_active d) (seq_id d) (seq_ctr d) (seq_len d).
Definition ACTIVATE_CHANNEL (d : adc_dev) (id : Z) : adc_dev := set_active d (Z.lor (ch_active d) (Z.shiftl 1 id)).
Definition INACTIVATE_CHANNEL (d : adc_dev) (id : Z) : adc_dev := set_active d (Z.ldiff (ch_active d) (Z.shiftl 1 id)).

Definition SMOOTH_REALSIZE (s : adc_ch) : Z := Z.shiftl 1 (logsmoothlen s).

(** Access to an array of [u16]. *)
Definition ld16 (l : list Z) (i : Z) : option Z := if decide (0 <= i) then l !! Z.to_nat i else None.
Definition st16 (l : list Z) (i v : Z) : option (list Z) := if decide (0 <= i < Z.of_nat (length l)) then Some (<[Z.to_nat i := u16 v]> l) else None.

Section adc.
Context `{PlatformConf} (BUF_ENABLE_ADC : bool) (ADC_BUF_SIZE : Z) (buf_realloc : option mem → Z → option mem)
  (realloc : option (list Z) → Z → option (list Z)) (platform_adc_stop platform_adc_setclock : adc → Z → adc) (platform_adc_update_sequence : adc → adc).

(** ** The sequence of the device *)

(** The loop over the channels: [ctr] is [seq_ctr], [tmp] is [tmp_seq_ctr]. *)
Fixpoint reseq_loop (n : nat) (a : adc) (previd id ctr tmp : Z) : option (adc * Z * Z) :=
  match n with
  | O => Some (a, ctr, tmp)
  | S n =>
      let d := adc_d a in
      if 0 <? Z.land (ch_active d) (u32 (Z.shiftl 1 id)) then
        s ← adc_get_ch_state a id;
        if negb ((0 <=? ctr) && (ctr <? Z.of_nat (length (seq d)))) then None
        else
          let d := AdcDev (<[Z.to_nat ctr := Some id]> (seq d)) (sample_buf d) (force_reseq d) (skip_cycle d) (running d) (ch_active d) (last_ch_active d) (seq_id d) (seq_ctr d) (seq_len d) in
          let a := set_ch (set_dev a d) id (set_fresh (set_value_ptr s ctr) false) in
          reseq_loop n a previd (id + 1) (u8 (ctr + 1)) (if ch_id s =? previd then ctr else tmp)
      else reseq_loop n a previd (id + 1) ctr tmp
  end.

Definition adc_update_dev_sequence (a : adc) : option adc :=
  let d := adc_d a in
  cur ← seq d !! Z.to_nat (seq_ctr d); cur ← cur; s ← adc_get_ch_state a cur;
  let previd := ch_id s in
  if negb (ch_active d =? last_ch_active d) || force_reseq d then
    '(a, ctr, tmp) ← reseq_loop (Z.to_nat NUM_ADC) a previd 0 0 0;
    let d := adc_d a in
    let nulled := take (Z.to_nat ctr) (seq d) ++ replicate (length (seq d) - Z.to_nat ctr) None in
    let d := AdcDev nulled (sample_buf d) (force_reseq d) (skip_cycle d) (running d) (ch_active d) (last_ch_active d) (seq_id d) 0 ctr in
    let a := platform_adc_update_sequence (set_dev a d) in
    let d := adc_d a in
    Some (set_dev a (AdcDev (seq d) (sample_buf d) false (skip_cycle d) (running d) (ch_active d) (ch_active d) (seq_id d) tmp (seq_len d)))
  else Some a.

(** ** Channels *)

Definition adc_setup_channel (a : adc) (id logcount : Z) : option (adc * Z) :=
  '(a, res) ← (if BUF_ENABLE_ADC then
    size ← buf_get_size (adc_bufs a) BUF_ID_ADC id;
    if negb (Z.shiftl 1 logcount =? size) then
      '(b, res) ← buf_set buf_realloc (adc_bufs a) BUF_ID_ADC id logcount BUF_DSIZE_U16;
      if negb (res =? PLATFORM_OK) then Some (set_bufs a b, Some res)
      else b ← buf_flush b BUF_ID_ADC id; Some (set_bufs a b, None)
    else Some (a, None)
  else Some (a, None));
  match res with
  | Some res => Some (a, res)
  | None =>
      s ← adc_get_ch_state a id;
      let a := set_ch a id (set_pending s true (u16 (Z.shiftl 1 logcount))) in
      Some (set_dev a (ACTIVATE_CHANNEL (adc_d a) id), PLATFORM_OK)
  end.

Definition adc_init_ch_state (a : adc) (id : Z) : option adc :=
  s ← adc_get_ch_state a id;
  let a := set_dev a (INACTIVATE_CHANNEL (adc_d a) id) in
  let a := set_ch a id (AdcCh false true false false (value_fresh s) id 0 0 0 (smoothbuf s) 0 (value_ptr s)) in
  a ← (if BUF_ENABLE_ADC then '(b, _) ← buf_set buf_realloc (adc_bufs a) BUF_ID_ADC id ADC_BUF_SIZE BUF_DSIZE_U16; Some (set_bufs a b) else Some a);
  Some (platform_adc_setclock a id).

Definition adc_init_dev_state (a : adc) : adc :=
  let d := adc_d a in set_dev a (AdcDev (seq d) (sample_buf d) false false false 0 0 0 (seq_ctr d) (seq_len d)).

(** ** Smoothing *)

Definition flush_step (c : option (list Z * Z)) : option (list Z * Z) := c ≫= λ '(l, i), l ← st16 l i 0; Some (l, u16 (i + 1)).

Definition adc_flush_smoothing (a : adc) (id : Z) : option adc :=
  s ← adc_get_ch_state a id;
  let s := set_smooth s false (logsmoothlen s) 0 0 (smoothbuf s) in
  s ← (if 0 <? logsmoothlen s then
         b ← smoothbuf s; '(b, _) ← DUFF_DEVICE_8 flush_step (SMOOTH_REALSIZE s) (Some (b, 0)); Some (set_smooth s false (logsmoothlen s) 0 0 (Some b))
       else Some s);
  Some (set_ch a id s).

Definition adc_update_smoothing (a : adc) (id loglen : Z) : option (adc * Z) :=
  s ← adc_get_ch_state a id;
  let a := if op_pending s then platform_adc_stop a id else a in
  s ← adc_get_ch_state a id;
  let '(a, err) :=
    if negb (loglen =? logsmoothlen s) then
      let s := set_smooth s (smooth_ready s) loglen (smoothidx s) (smoothsum s) (smoothbuf s) in
      match realloc (smoothbuf s) (SMOOTH_REALSIZE s) with
      | None => (set_ch a id (set_smooth s false 0 0 0 None), negb (loglen =? 0))
      | Some b => (set_ch a id (set_smooth s (smooth_ready s) loglen (smoothidx s) (smoothsum s) (Some b)), false)
      end
    else (a, false) in
  if (err : bool) then Some (a, PLATFORM_ERR)
  else
    a ← adc_flush_smoothing a id;
    a ← (if BUF_ENABLE_ADC then b ← buf_flush (adc_bufs a) BUF_ID_ADC id; Some (set_bufs a b) else Some a);
    Some (a, PLATFORM_OK).

(** The oldest sample: the fresh value, or the buffer's. *)
Definition take_sample (a : adc) (id : Z) : option (adc * Z) :=
  s ← adc_get_ch_state a id;
  if negb BUF_ENABLE_ADC || value_fresh s then p ← value_ptr s; sample ← ld16 (sample_buf (adc_d a)) p; Some (set_ch a id (set_fresh s false), sample)
  else
    '(b, data, res) ← buf_read (adc_bufs a) BUF_ID_ADC id [0; 0];
    if res =? PLATFORM_OK then lo ← ld data 0; hi ← ld data 1; Some (set_bufs a b, of_le16 lo hi) else None.

Definition adc_smooth_data (a : adc) (id : Z) : option adc :=
  s ← adc_get_ch_state a id;
  let '(idx, ready) := if smoothidx s =? SMOOTH_REALSIZE s then (0, true) else (smoothidx s, smooth_ready s) in
  b ← smoothbuf s; old ← ld16 b idx;
  let a := set_ch a id (set_smooth s ready (logsmoothlen s) idx (smoothsum s - old) (Some b)) in
  '(a, sample) ← take_sample a id;
  s ← adc_get_ch_state a id;
  b ← st16 b idx sample;
  Some (set_ch a id (set_smooth s ready (logsmoothlen s) (idx + 1) (smoothsum s + u16 sample) (Some b))).

Definition adc_samples_requested (a : adc) (id : Z) : option Z := s ← adc_get_ch_state a id; Some (reqsamples s).

Definition adc_samples_available (a : adc) (id : Z) : option Z :=
  s ← adc_get_ch_state a id;
  if BUF_ENABLE_ADC then n ← buf_get_count (adc_bufs a) BUF_ID_ADC id; Some (if u16 n =? 0 then cbool (value_fresh s) else u16 n)
  else Some (cbool (value_fresh s)).

Definition take_request (a : adc) (id : Z) : option adc :=
  s ← adc_get_ch_state a id; Some (if 0 <? reqsamples s then set_ch a id (set_pending s (op_pending s) (reqsamples s - 1)) else a).

Definition adc_get_processed_sample (a : adc) (id : Z) : option (adc * Z) :=
  n ← adc_samples_available a id; s ← adc_get_ch_state a id;
  if 0 <? n then
    if (0 <? logsmoothlen s) && smooth_ready s then
      a ← adc_smooth_data a id; a ← take_request a id; s ← adc_get_ch_state a id; Some (a, u16 (Z.shiftr (smoothsum s) (logsmoothlen s)))
    else if logsmoothlen s =? 0 then '(a, sample) ← take_sample a id; a ← take_request a id; Some (a, sample)
    else Some (a, 0)
  else Some (a, 0).

(** The loop of [adc_wait_samples] goes on. *)
Definition adc_waits (a : adc) (id samples : Z) : option bool :=
  n ← adc_samples_available a id; s ← adc_get_ch_state a id; Some ((n <? samples) && blocking s && op_pending s).
End adc.

(** ** The sequence is the active channels in order *)
Section sequence.
Context `{PlatformConf}.

Definition ch_is_active (d : adc_dev) (id : Z) : bool := 0 <? Z.land (ch_active d) (u32 (Z.shiftl 1 id)).

(** The active channels among [n] from [id] on. *)
Fixpoint active_from (d : adc_dev) (n : nat) (id : Z) : list Z :=
  match n with
  | O => []
  | S n => (if ch_is_active d id then [id] else []) ++ active_from d n (id + 1)
  end.

Lemma active_range d n : ∀ id i, i ∈ active_from d n id → id <= i < id + Z.of_nat n.
Proof.
  induction n as [|n IH]; intros id i; cbn [active_from]; [by intros ?%elem_of_nil|]. rewrite elem_of_app. intros [Hi|Hi].
  - destruct (ch_is_active d id); [|by apply elem_of_nil in Hi]. apply list_elem_of_singleton in Hi as ->. lia.
  - apply IH in Hi. lia.
Qed.

Lemma active_length d n id : (length (active_from d n id) <= n)%nat.
Proof. revert id. induction n as [|n IH]; intros id; cbn [active_from]; [done|]. rewrite length_app. specialize (IH (id + 1)). destruct (ch_is_active d id); cbn; lia. Qed.

(** Each channel knows its number. *)
Definition ids_ok (a : adc) : Prop := ∀ id, 0 <= id < NUM_ADC → ∃ s, adc_get_ch_state a id = Some s ∧ ch_id s = id.

(** Where the loop finds the channel [previd]. *)
Definition found_at (act : list Z) (previd ctr tmp tmp' : Z) : Prop :=
  (∃ j : nat, act !! j = Some previd ∧ tmp' = ctr + Z.of_nat j) ∨ (previd ∉ act) ∧ tmp' = tmp.

Lemma get_ch_other a id id' s : 0 <= id → id ≠ id' → adc_get_ch_state (set_ch a id s) id' = adc_get_ch_state a id'.
Proof. intros H0 Hne. unfold adc_get_ch_state, set_ch. case_decide; [|done]. cbn. apply list_lookup_insert_ne. lia. Qed.

Lemma get_ch_same a id s s' : adc_get_ch_state a id = Some s → adc_get_ch_state (set_ch a id s') id = Some s'.
Proof. unfold adc_get_ch_state, set_ch. case_decide; [|done]. cbn. intros Hs. apply list_lookup_insert_eq. by eapply lookup_lt_Some. Qed.

Lemma reseq_loop_ok n : ∀ a previd id ctr tmp,
  ids_ok a → 0 <= id → id + Z.of_nat n <= NUM_ADC → 0 <= ctr → ctr + Z.of_nat n <= Z.of_nat (length (seq (adc_d a))) → Z.of_nat (length (seq (adc_d a))) < 256 →
  let act := active_from (adc_d a) n id in
  ∃ a' tmp', reseq_loop n a previd id ctr tmp = Some (a', ctr + Z.of_nat (length act), tmp') ∧ found_at act previd ctr tmp tmp' ∧ ids_ok a' ∧
    adc_d a' = AdcDev (take (Z.to_nat ctr) (seq (adc_d a)) ++ (Some <$> act) ++ drop (Z.to_nat ctr + length act) (seq (adc_d a))) (sample_buf (adc_d a)) (force_reseq (adc_d a))
      (skip_cycle (adc_d a)) (running (adc_d a)) (ch_active (adc_d a)) (last_ch_active (adc_d a)) (seq_id (adc_d a)) (seq_ctr (adc_d a)) (seq_len (adc_d a)) ∧
    (∀ (j : nat) i, act !! j = Some i → ∃ s, adc_get_ch_state a i = Some s ∧ adc_get_ch_state a' i = Some (set_fresh (set_value_ptr s (ctr + Z.of_nat j)) false)) ∧
    (∀ i, i ∉ act → adc_get_ch_state a' i = adc_get_ch_state a i).
Proof.
  induction n as [|n IH]; intros a previd id ctr tmp Hids Hid Hn Hctr Hlen H256 act.
  { exists a, tmp. cbn. rewrite Z.add_0_r, Nat.add_0_r, take_drop. split; [done|]. split; [right; split; [by apply not_elem_of_nil|done]|]. split; [done|].
    split; [by destruct (adc_d a)|]. by split. }
  cbn [reseq_loop]. unfold act. cbn [active_from]. fold (ch_is_active (adc_d a) id). destruct (ch_is_active (adc_d a) id) eqn:Hact; [|by apply IH; [done|lia..]].
  destruct (Hids id ltac:(lia)) as (s & Hs & Hsid). rewrite Hs. cbn [mbind option_bind]. rewrite (proj2 (Z.leb_le 0 ctr)), (proj2 (Z.ltb_lt ctr _)) by lia. cbn [andb negb].
  set (d1 := AdcDev (<[Z.to_nat ctr := Some id]> (seq (adc_d a))) _ _ _ _ _ _ _ _ _). set (s1 := set_fresh (set_value_ptr s ctr) false). set (a1 := set_ch (set_dev a d1) id s1).
  assert (adc_get_ch_state (set_dev a d1) id = Some s) as Hs' by done. assert (adc_get_ch_state a1 id = Some s1) as Hs1 by by eapply get_ch_same.
  assert (ids_ok a1) as Hids1.
  { intros i Hi. destruct (decide (i = id)) as [->|Hne]; [by exists s1|]. unfold a1. rewrite get_ch_other by done. by apply Hids. }
  assert (active_from (adc_d a1) n (id + 1) = active_from (adc_d a) n (id + 1)) as Eact.
  { clear. generalize (id + 1). induction n as [|n IH]; intros i; [done|]. cbn [active_from]. by rewrite IH. }
  rewrite u8_id by lia. destruct (IH a1 previd (id + 1) (ctr + 1) (if ch_id s =? previd then ctr else tmp) Hids1) as (a' & tmp' & E & Hf & Hids' & Hd & Hin & Hout);
    [lia|lia|lia|unfold a1, d1; cbn; rewrite length_insert; lia|unfold a1, d1; cbn; rewrite length_insert; lia|].
  rewrite Eact in *. set (rest := active_from (adc_d a) n (id + 1)) in *. assert (id ∉ rest) as Hni by (intros Hx%active_range; lia).
  exists a', tmp'. rewrite E. cbn [Datatypes.app]. split; [f_equal; f_equal; f_equal; cbn [length]; lia|]. split; [|split; [done|split; [|split]]].
  - destruct Hf as [(j & Hj & ->)|[Hj ->]]; [left; exists (S j); split; [done|lia]|]. rewrite Hsid. destruct (Z.eqb_spec id previd) as [->|Hne].
    + left. exists 0%nat. split; [done|lia].
    + right. split; [|done]. rewrite elem_of_cons. naive_solver.
  - rewrite Hd. unfold a1, d1. cbn. f_equal. replace (Z.to_nat (ctr + 1)) with (S (Z.to_nat ctr)) by lia.
    rewrite (take_S_r _ _ (Some id)) by (apply list_lookup_insert_eq; lia). rewrite take_insert_ge, <- app_assoc by lia. f_equal. cbn [Datatypes.app]. f_equal. f_equal.
    rewrite drop_insert_lt by lia. f_equal. lia.
  - intros [|j] i Hj; cbn in Hj.
    + injection Hj as <-. exists s. split; [done|]. rewrite Hout by done. by rewrite Hs1, Z.add_0_r.
    + destruct (Hin j i Hj) as (s' & H1 & H2). exists s'. assert (id ≠ i) by (intros ->; apply Hni; by eapply list_elem_of_lookup_2).
      unfold a1 in H1. rewrite get_ch_other in H1 by done. split; [done|]. rewrite H2. do 3 f_equal. lia.
  - intros i Hi. rewrite elem_of_cons in Hi. rewrite Hout by naive_solver. unfold a1. rewrite get_ch_other; [done|done|]. intros ->. naive_solver.
Qed.

(** Writing the sequence again, when it has to be: it is the active channels in order, each with its place of the sample
    buffer; the next one to convert is the one it was, or the first. *)
Lemma adc_sequence_updated plat a prev s : (∀ a, plat a = a) → ids_ok a → 0 < NUM_ADC < 256 → Z.of_nat (length (seq (adc_d a))) = NUM_ADC →
  seq (adc_d a) !! Z.to_nat (seq_ctr (adc_d a)) = Some (Some prev) → adc_get_ch_state a prev = Some s →
  negb (ch_active (adc_d a) =? last_ch_active (adc_d a)) || force_reseq (adc_d a) = true →
  let act := active_from (adc_d a) (Z.to_nat NUM_ADC) 0 in
  ∃ a', adc_update_dev_sequence plat a = Some a' ∧ seq (adc_d a') = (Some <$> act) ++ replicate (Z.to_nat NUM_ADC - length act) None ∧
    seq_len (adc_d a') = Z.of_nat (length act) ∧ found_at act (ch_id s) 0 0 (seq_ctr (adc_d a')) ∧ last_ch_active (adc_d a') = ch_active (adc_d a') ∧
    force_reseq (adc_d a') = false ∧
    (∀ (j : nat) i, act !! j = Some i → ∃ s, adc_get_ch_state a i = Some s ∧ adc_get_ch_state a' i = Some (set_fresh (set_value_ptr s (Z.of_nat j)) false)) ∧
    (∀ i, i ∉ act → adc_get_ch_state a' i = adc_get_ch_state a i).
Proof.
  intros Hplat Hids Hnum Hlen Hcur Hs Hneed act. unfold adc_update_dev_sequence. rewrite Hcur. cbn [mbind option_bind]. rewrite Hs. cbn [mbind option_bind]. rewrite Hneed.
  destruct (reseq_loop_ok (Z.to_nat NUM_ADC) a (ch_id s) 0 0 0 Hids) as (a' & tmp' & E & Hf & _ & Hd & Hin & Hout); [lia..|]. fold act in E, Hf, Hd, Hin, Hout.
  pose proof (active_length (adc_d a) (Z.to_nat NUM_ADC) 0) as Hal. fold act in Hal. rewrite E. cbn [mbind option_bind]. rewrite Hplat. eexists. split; [reflexivity|].
  rewrite Hd. cbn [adc_d set_dev seq seq_len seq_ctr last_ch_active ch_active force_reseq]. rewrite Z.add_0_l, Nat2Z.id. change (Z.to_nat 0) with 0%nat. rewrite take_0. cbn [Datatypes.app Nat.add].
  split; [|by split_and!]. rewrite length_app, length_fmap, length_drop.
  rewrite take_app_length' by by rewrite length_fmap. f_equal. f_equal. lia.
Qed.

(** After a sequence without channels, the function reads through NULL. *)
Lemma adc_update_null plat a : seq (adc_d a) !! Z.to_nat (seq_ctr (adc_d a)) = Some None → adc_update_dev_sequence plat a = None.
Proof. intros Hc. unfold adc_update_dev_sequence. by rewrite Hc. Qed.
End sequence.
