(* ===== verification/AdcSmooth.v ===== *)
(** * The smoothing filter of the ADC channels

    A channel's filter (Adc.v) is the average of the last samples. *)
From S2P Require Import Prelude Platform Buf Adc.

Definition sumz (l : list Z) : Z := foldr Z.add 0 l.

Definition u16_ok (x : Z) : Prop := 0 <= x < 65536.

Lemma sumz_app a b : sumz (a ++ b) = sumz a + sumz b.
Proof. induction a as [|x a IH]; cbn; [done|]. unfold sumz in *. lia. Qed.

Lemma sumz_bound l : Forall u16_ok l → 0 <= sumz l <= 65535 * Z.of_nat (length l).
Proof. induction 1 as [|x l Hx _ IH]; cbn; [lia|]. unfold u16_ok in Hx. unfold sumz in *. lia. Qed.

Lemma sumz_insert l i x y : l !! i = Some y → sumz (<[i := x]> l) = sumz l - y + x.
Proof.
  intros Hi. assert (i < length l)%nat by by eapply lookup_lt_Some. rewrite insert_take_drop by done. rewrite <- (take_drop_middle l i y Hi) at 3.
  rewrite !sumz_app. cbn. fold (sumz (drop (S i) l)). lia.
Qed.

(** The samples of the filter, from the oldest on. *)
Definition window (b : list Z) (idx : nat) : list Z := drop idx b ++ take idx b.

(** The last [n] samples of those that have come, with zeros before them. *)
Definition last_samples (n : nat) (hist : list Z) : list Z := drop (length hist) (replicate n 0 ++ hist).

Lemma window_full b : window b (length b) = window b 0.
Proof. unfold window. by rewrite drop_all, firstn_all, drop_0, take_0, app_nil_r. Qed.

Lemma window_insert b idx x : (idx < length b)%nat → window (<[idx := x]> b) (S idx) = drop 1 (window b idx) ++ [x].
Proof.
  intros Hi. unfold window. rewrite (take_S_r _ _ x) by by rewrite list_lookup_insert_eq.
  rewrite take_insert_ge, drop_insert_lt by lia. rewrite skipn_app, drop_drop, app_assoc.
  replace (1 - length (drop idx b))%nat with 0%nat by (rewrite length_drop; lia). rewrite drop_0. by replace (idx + 1)%nat with (S idx) by lia.
Qed.

Lemma last_samples_snoc n hist x : (0 < n)%nat → last_samples n (hist ++ [x]) = drop 1 (last_samples n hist) ++ [x].
Proof.
  intros Hn. unfold last_samples. rewrite length_app. cbn [length]. rewrite app_assoc, skipn_app, drop_drop. f_equal.
  replace (length hist + 1 - length (replicate n (0:Z) ++ hist))%nat with 0%nat by (rewrite length_app, length_replicate; lia). done.
Qed.

Lemma last_samples_length n hist : length (last_samples n hist) = n.
Proof. unfold last_samples. rewrite length_drop, length_app, length_replicate. lia. Qed.

(** When enough samples have come, they are the last ones. *)
Lemma last_samples_all n hist : (n <= length hist)%nat → last_samples n hist = drop (length hist - n) hist.
Proof.
  intros Hn. unfold last_samples. rewrite skipn_app, length_replicate, drop_ge by (rewrite length_replicate; lia). done.
Qed.

Lemma window_sum b idx : sumz (window b idx) = sumz b.
Proof. unfold window. rewrite sumz_app, Z.add_comm, <- sumz_app. by rewrite take_drop. Qed.

(** One sample into the filter's array: the sum follows. *)
Lemma filter_step b idx hist x : (0 < length b)%nat → (idx < length b)%nat → window b idx = last_samples (length b) hist →
  ∃ old, b !! idx = Some old ∧ window (<[idx := x]> b) (S idx) = last_samples (length b) (hist ++ [x]) ∧
    sumz (<[idx := x]> b) = sumz (last_samples (length b) hist) - old + x.
Proof.
  intros Hb Hi Hw. destruct (lookup_lt_is_Some_2 b idx Hi) as [old Ho]. exists old. split; [done|].
  split; [by rewrite window_insert, last_samples_snoc, Hw by done|]. by rewrite (sumz_insert _ _ _ _ Ho), <- Hw, window_sum.
Qed.

(** ** The channel *)
Section filter.
Context `{PlatformConf} (BUF_ENABLE_ADC : bool) (id p k : Z).
Hypothesis Hk : 0 < k <= 15.

Definition filter_len : nat := Z.to_nat (2 ^ k).

Lemma filter_len_pos : (0 < filter_len)%nat ∧ Z.of_nat filter_len = 2 ^ k ∧ 2 ^ k <= 32768.
Proof. unfold filter_len. pose proof (Z.pow_pos_nonneg 2 k ltac:(lia) ltac:(lia)). pose proof (Z.pow_le_mono_r 2 k 15 ltac:(lia) ltac:(lia)). lia. Qed.

(** The filter has seen the samples [hist]; it is warmed up when the next one is put at the beginning again. *)
Definition filter_rep (a : adc) (hist : list Z) : Prop :=
  ∃ s b (idx : nat), adc_get_ch_state a id = Some s ∧ logsmoothlen s = k ∧ smoothbuf s = Some b ∧ length b = filter_len ∧ value_ptr s = Some p ∧
    smoothidx s = Z.of_nat idx ∧ (idx <= filter_len)%nat ∧ window b idx = last_samples filter_len hist ∧ Forall u16_ok b ∧ smoothsum s = sumz b ∧
    0 <= p < Z.of_nat (length (sample_buf (adc_d a))) ∧
    smooth_ready s = bool_decide (filter_len < length hist)%nat ∧ ((length hist <= filter_len)%nat → idx = length hist).

(** A conversion: the handler of the interrupt stores the value. *)
Definition new_sample (a : adc) (x : Z) : option adc :=
  s ← adc_get_ch_state a id; p ← value_ptr s; l ← st16 (sample_buf (adc_d a)) p x;
  let d := adc_d a in
  Some (set_ch (set_dev a (AdcDev (seq d) l (force_reseq d) (skip_cycle d) (running d) (ch_active d) (last_ch_active d) (seq_id d) (seq_ctr d) (seq_len d))) id (set_fresh s true)).

Definition fresh (a : adc) (x : Z) : Prop := ∃ s, adc_get_ch_state a id = Some s ∧ value_fresh s = true ∧ ld16 (sample_buf (adc_d a)) p = Some x.

Lemma get_set_ch a s s' : adc_get_ch_state a id = Some s → adc_get_ch_state (set_ch a id s') id = Some s'.
Proof.
  unfold adc_get_ch_state, set_ch. case_decide; [|done]. cbn. intros Hs. apply list_lookup_insert_eq. by eapply lookup_lt_Some.
Qed.

Lemma new_sample_ok a hist x : filter_rep a hist → u16_ok x → ∃ a', new_sample a x = Some a' ∧ filter_rep a' hist ∧ fresh a' x ∧ adc_bufs a' = adc_bufs a.
Proof.
  intros (s & b & idx & Hs & Hlog & Hb & Hlen & Hp & Hidx & Hi & Hw & Hok & Hsum & Hpr & Hr & Hn) Hx. unfold new_sample. rewrite Hs. cbn [mbind option_bind]. rewrite Hp.
  cbn [mbind option_bind]. unfold st16. rewrite decide_True by done. cbn [mbind option_bind]. eexists. split; [reflexivity|]. unfold u16_ok in Hx. rewrite u16_id by lia.
  split; [|split; [|done]].
  - eexists _, b, idx. split; [by eapply get_set_ch|]. cbn. rewrite length_insert. split_and!; done || lia.
  - eexists. split; [by eapply get_set_ch|]. split; [done|]. cbn. unfold ld16. rewrite decide_True by lia. apply list_lookup_insert_eq. lia.
Qed.

Lemma smooth_ok a hist x : filter_rep a hist → fresh a x → u16_ok x →
  ∃ a', adc_smooth_data BUF_ENABLE_ADC a id = Some a' ∧ filter_rep a' (hist ++ [x]) ∧ adc_bufs a' = adc_bufs a.
Proof.
  intros (s & b & idx & Hs & Hlog & Hb & Hlen & Hp & Hidx & Hi & Hw & Hok & Hsum & Hpr & Hr & Hn) (s' & Hs' & Hfr & Hld) Hx. rewrite Hs in Hs'. injection Hs' as <-.
  destruct filter_len_pos as (Hl0 & HlZ & Hl15). unfold adc_smooth_data. rewrite Hs. cbn [mbind option_bind]. unfold SMOOTH_REALSIZE. rewrite Hlog, Z.shiftl_1_l, Hidx.
  set (idx' := if decide (idx = filter_len) then 0%nat else idx). set (ready := bool_decide (filter_len <= length hist)%nat).
  assert ((if Z.of_nat idx =? 2 ^ k then (0, true) else (Z.of_nat idx, smooth_ready s)) = (Z.of_nat idx', ready)) as ->.
  { unfold idx', ready. rewrite <- HlZ. destruct (decide (idx = filter_len)) as [->|Hne].
    - rewrite Z.eqb_refl. rewrite bool_decide_eq_true_2; [done|]. destruct (decide (length hist <= filter_len)%nat) as [Hle|]; [|lia]. specialize (Hn Hle). lia.
    - rewrite (proj2 (Z.eqb_neq _ _)) by lia. rewrite Hr. f_equal. apply bool_decide_ext. split; [lia|]. intros Hle. destruct (decide (length hist = filter_len)) as [E|]; [|lia].
      rewrite <- E in Hn. specialize (Hn ltac:(lia)). lia. }
  assert (idx' < filter_len)%nat as Hi' by (unfold idx'; destruct (decide (idx = filter_len)); lia).
  assert (window b idx' = last_samples filter_len hist) as Hw'.
  { unfold idx'. destruct (decide (idx = filter_len)) as [E|]; [|done]. rewrite <- Hw, E, <- Hlen. symmetry. apply window_full. }
  rewrite <- Hlen in Hw'. destruct (filter_step b idx' hist x ltac:(lia) ltac:(lia) Hw') as (old & Ho & Hw2 & Hsum2).
  rewrite Hb. cbn [mbind option_bind]. unfold ld16 at 1. rewrite decide_True, Nat2Z.id, Ho by lia. cbn [mbind option_bind].
  set (s1 := set_smooth s _ _ _ _ _). unfold take_sample. rewrite (get_set_ch a s s1 Hs). cbn [mbind option_bind].
  assert (negb BUF_ENABLE_ADC || value_fresh s1 = true) as -> by (unfold s1; cbn; rewrite Hfr; by rewrite orb_true_r). change (value_ptr s1) with (value_ptr s). rewrite Hp.
  cbn [mbind option_bind]. change (sample_buf (adc_d (set_ch a id s1))) with (sample_buf (adc_d a)). rewrite Hld. cbn [mbind option_bind].
  rewrite (get_set_ch (set_ch a id s1) s1 (set_fresh s1 false)) by by eapply get_set_ch. cbn [mbind option_bind].
  unfold st16. rewrite decide_True, Nat2Z.id by lia. cbn [mbind option_bind]. unfold u16_ok in Hx. rewrite u16_id by lia.
  set (s2 := set_smooth _ _ _ _ _ _). eexists. split; [reflexivity|]. split; [|done].
  assert (Forall u16_ok (<[idx' := x]> b)) as Hok2 by (apply Forall_insert; [done|unfold u16_ok; lia]).
  pose proof (sumz_bound _ Hok2) as Hb2. rewrite length_insert in Hb2. rewrite <- Hw', window_sum in Hsum2.
  exists s2, (<[idx' := x]> b), (S idx'). split; [by eapply get_set_ch, get_set_ch, get_set_ch|]. rewrite length_insert. split_and!; try done; try lia.
  - unfold s2. cbn. rewrite u16_id by lia. lia.
  - by rewrite <- Hlen.
  - unfold s2, s1. cbn. rewrite Hsum. replace (u32 (u32 (sumz b - old) + x)) with (u32 (sumz b - old + x)) by (unfold u32; by rewrite Zplus_mod_idemp_l).
    rewrite Hsum2. apply u32_id. lia.
  - exact (proj2 Hpr).
  - unfold s2. cbn. rewrite length_app. cbn [length]. unfold ready. apply bool_decide_ext. lia.
  - rewrite length_app. cbn [length]. intros Hle. specialize (Hn ltac:(lia)). unfold idx'. rewrite decide_False by lia. lia.
Qed.
(** Flushing. *)
Lemma flush_iter (n : nat) b : (n <= length b)%nat → Z.of_nat n < 65536 → Nat.iter n flush_step (Some (b, 0)) = Some (replicate n 0 ++ drop n b, Z.of_nat n).
Proof.
  induction n as [|n IH]; intros Hn Hl; [by rewrite drop_0|]. change (Nat.iter (S n) flush_step (Some (b, 0))) with (flush_step (Nat.iter n flush_step (Some (b, 0)))).
  rewrite IH by lia. unfold flush_step, st16. cbn [mbind option_bind]. rewrite decide_True by (rewrite length_app, length_replicate, length_drop; lia). cbn [mbind option_bind].
  change (u16 0) with 0. rewrite (u16_id (Z.of_nat n + 1)), Nat2Z.id by lia. f_equal. f_equal; [|lia].
  rewrite insert_app_r_alt by (rewrite length_replicate; lia). rewrite length_replicate, Nat.sub_diag.
  destruct (lookup_lt_is_Some_2 b n) as [x Hx]; [lia|]. rewrite (drop_S _ _ _ Hx), replicate_S_end, <- app_assoc. done.
Qed.

Lemma last_samples_nil n : last_samples n [] = replicate n 0.
Proof. unfold last_samples. by rewrite app_nil_r, drop_0. Qed.

Lemma sumz_zeros n : sumz (replicate n 0) = 0.
Proof. induction n as [|n IH]; [done|]. cbn. fold (sumz (replicate n 0)). lia. Qed.

Lemma flush_smoothing_ok a s b : adc_get_ch_state a id = Some s → logsmoothlen s = k → smoothbuf s = Some b → length b = filter_len → value_ptr s = Some p →
  0 <= p < Z.of_nat (length (sample_buf (adc_d a))) → ∃ a', adc_flush_smoothing a id = Some a' ∧ filter_rep a' [] ∧ adc_bufs a' = adc_bufs a.
Proof.
  intros Hs Hlog Hb Hlen Hp Hpr. destruct filter_len_pos as (Hl0 & HlZ & Hl15). unfold adc_flush_smoothing. rewrite Hs. cbn [mbind option_bind]. set (s1 := set_smooth s _ _ _ _ _).
  assert (logsmoothlen s1 = k ∧ smoothbuf s1 = Some b) as [H1 H2] by done. rewrite H1, H2, (proj2 (Z.ltb_lt 0 k)) by lia. cbn [mbind option_bind].
  unfold SMOOTH_REALSIZE. rewrite H1, Z.shiftl_1_l, duff_iter by lia. replace (Z.to_nat (2 ^ k)) with filter_len by lia. rewrite flush_iter by lia. cbn [mbind option_bind].
  rewrite drop_ge, app_nil_r by lia. eexists. split; [reflexivity|]. split; [|done].
  exists (set_smooth s1 false k 0 0 (Some (replicate filter_len 0))), (replicate filter_len 0), 0%nat. split; [by eapply get_set_ch|].
  rewrite length_replicate. split_and!; try done; try lia.
  - apply Forall_replicate. unfold u16_ok. lia.
  - by rewrite sumz_zeros.
  - exact (proj2 Hpr).
Qed.

(** The samples [xs], each smoothed as it comes. *)
Fixpoint smooth_all (a : adc) (xs : list Z) : option adc :=
  match xs with
  | [] => Some a
  | x :: xs => a ← new_sample a x; a ← adc_smooth_data BUF_ENABLE_ADC a id; smooth_all a xs
  end.

Lemma smooth_all_ok xs : ∀ a hist, filter_rep a hist → Forall u16_ok xs → ∃ a', smooth_all a xs = Some a' ∧ filter_rep a' (hist ++ xs) ∧ adc_bufs a' = adc_bufs a.
Proof.
  induction xs as [|x xs IH]; intros a hist Ha Hxs; [exists a; by rewrite app_nil_r|]. apply Forall_cons in Hxs as [Hx Hxs]. cbn [smooth_all].
  destruct (new_sample_ok a hist x Ha Hx) as (a1 & -> & H1 & Hf & Hb1). cbn [mbind option_bind].
  destruct (smooth_ok a1 hist x H1 Hf Hx) as (a2 & -> & H2 & Hb2). cbn [mbind option_bind]. destruct (IH a2 (hist ++ [x]) H2 Hxs) as (a3 & -> & H3 & Hb3).
  exists a3. rewrite <- app_assoc in H3. split; [done|]. split; [done|]. congruence.
Qed.

Lemma filter_request a hist : filter_rep a hist → ∃ a' s s', take_request a id = Some a' ∧ adc_get_ch_state a id = Some s ∧ adc_get_ch_state a' id = Some s' ∧
  smoothsum s' = smoothsum s ∧ logsmoothlen s' = k.
Proof.
  intros (s & b & idx & Hs & Hlog & _). unfold take_request. rewrite Hs. cbn [mbind option_bind]. destruct (0 <? reqsamples s).
  - eexists _, s, _. split; [reflexivity|]. split; [done|]. split; [by eapply get_set_ch|]. done.
  - by exists a, s, s.
Qed.

(** Reading a fresh sample. *)
Lemma processed_ok a hist x : filter_rep a hist → fresh a x → u16_ok x → (BUF_ENABLE_ADC = true → is_Some (buf_get_count (adc_bufs a) BUF_ID_ADC id)) →
  ∃ a', adc_get_processed_sample BUF_ENABLE_ADC a id =
    Some (a', if bool_decide (filter_len < length hist)%nat then sumz (last_samples filter_len (hist ++ [x])) / 2 ^ k else 0).
Proof.
  intros Ha Hf Hx Hbuf. pose proof Ha as (s & b & idx & Hs & Hlog & _ & _ & _ & _ & _ & _ & _ & _ & _ & Hr & _). pose proof Hf as (s' & Hs' & Hfr & _). rewrite Hs in Hs'. injection Hs' as <-.
  destruct filter_len_pos as (Hl0 & HlZ & Hl15). unfold adc_get_processed_sample, adc_samples_available. rewrite Hs. cbn [mbind option_bind]. rewrite Hfr.
  assert (∃ n, (if BUF_ENABLE_ADC then n ← buf_get_count (adc_bufs a) BUF_ID_ADC id; Some (if u16 n =? 0 then cbool true else u16 n) else Some (cbool true)) = Some n ∧ 0 < n) as (n & -> & Hn).
  { destruct BUF_ENABLE_ADC; [|by exists 1]. destruct (Hbuf eq_refl) as [m ->]. cbn [mbind option_bind]. eexists. split; [reflexivity|].
    pose proof (u16_range m). destruct (Z.eqb_spec (u16 m) 0); [done|lia]. }
  cbn [mbind option_bind]. rewrite (proj2 (Z.ltb_lt 0 n)), Hlog, (proj2 (Z.ltb_lt 0 k)), Hr by lia. cbn [andb]. case_bool_decide as Hw.
  - destruct (smooth_ok a hist x Ha Hf Hx) as (a1 & -> & H1 & _). cbn [mbind option_bind]. destruct (filter_request a1 _ H1) as (a2 & s1 & s2 & -> & Hs1 & Hs2 & Hsum & Hlog2).
    cbn [mbind option_bind]. rewrite Hs2. cbn [mbind option_bind]. exists a2. do 2 f_equal. rewrite Hsum, Hlog2.
    destruct H1 as (s1' & b1 & idx1 & E & _ & _ & Hlen1 & _ & _ & _ & Hw1 & Hok1 & Hsum1 & _). rewrite Hs1 in E. injection E as <-.
    rewrite Hsum1, <- (window_sum b1 idx1), Hw1, Z.shiftr_div_pow2 by lia. pose proof (sumz_bound b1 Hok1) as Hbd. rewrite <- (window_sum b1 idx1), Hw1, Hlen1, HlZ in Hbd.
    apply u16_id. split; [apply Z.div_pos; lia|]. apply Z.div_lt_upper_bound; nia.
  - rewrite (proj2 (Z.eqb_neq k 0)) by lia. by eexists.
Qed.
End filter.

(** An allocator, and the descriptor of a channel's buffer. *)
Definition demo_realloc16 (old : option (list Z)) (n : Z) : option (list Z) := Some (replicate (Z.to_nat n) 7).

Lemma demo_realloc16_ok old n : 0 < n → ∃ b, demo_realloc16 old n = Some b ∧ Z.of_nat (length b) = n.
Proof. intros Hn. eexists. split; [reflexivity|]. rewrite length_replicate. lia. Qed.

Definition demo_desc16 : buf_desc := BufDesc 3 0 0 0 (Some (replicate 8 0)) 1.

(** The smoothing filter: after its length is set to 2^k, and samples have come that were smoothed one by one, the
    next one reads as the mean of the last 2^k samples, rounded down, when more than 2^k have come before it, and as 0
    until then; no sum overflows. *)
Theorem adc_moving_average `{PlatformConf} BUF_ENABLE_ADC realloc platform_adc_stop id p k a a0 s xs x :
  0 < k <= 15 → (∀ old n, 0 < n → ∃ b, realloc old n = Some b ∧ Z.of_nat (length b) = n) →
  adc_get_ch_state a id = Some s → op_pending s = false → logsmoothlen s ≠ k → value_ptr s = Some p → 0 <= p < Z.of_nat (length (sample_buf (adc_d a))) →
  adc_update_smoothing BUF_ENABLE_ADC realloc platform_adc_stop a id k = Some (a0, PLATFORM_OK) →
  (BUF_ENABLE_ADC = true → is_Some (buf_get_count (adc_bufs a0) BUF_ID_ADC id)) → Forall u16_ok xs → u16_ok x →
  ∃ a1 a2 a3, smooth_all BUF_ENABLE_ADC id a0 xs = Some a1 ∧ new_sample id a1 x = Some a2 ∧
    adc_get_processed_sample BUF_ENABLE_ADC a2 id =
      Some (a3, if bool_decide (2 ^ k < Z.of_nat (length xs)) then sumz (drop (S (length xs) - Z.to_nat (2 ^ k)) (xs ++ [x])) / 2 ^ k else 0).
Proof.
  intros Hk Hrealloc Hs Hop Hlog Hp Hpr Hup Hbuf Hxs Hx. destruct (filter_len_pos k Hk) as (Hl0 & HlZ & Hl15).
  unfold adc_update_smoothing in Hup. rewrite Hs in Hup. cbn [mbind option_bind] in Hup. rewrite Hop, Hs in Hup. cbn [mbind option_bind] in Hup.
  rewrite (proj2 (Z.eqb_neq k _)) in Hup by done. cbn [negb] in Hup. set (s1 := set_smooth s _ k _ _ _) in Hup.
  destruct (Hrealloc (smoothbuf s1) (SMOOTH_REALSIZE s1)) as (b & Eb & Hb); [unfold SMOOTH_REALSIZE; cbn; rewrite Z.shiftl_1_l; lia|]. rewrite Eb in Hup.
  set (s2 := set_smooth s1 _ k _ _ (Some b)) in Hup. unfold SMOOTH_REALSIZE in Hb. cbn in Hb. rewrite Z.shiftl_1_l in Hb.
  destruct (flush_smoothing_ok id p k Hk (set_ch a id s2) s2 b) as (a' & Ef & Hrep & Hbufs); [by eapply get_set_ch|done|done|lia|done|done|].
  rewrite Ef in Hup. cbn [mbind option_bind] in Hup.
  assert (filter_rep id p k a0 []) as Hrep0.
  { destruct BUF_ENABLE_ADC; cbn [mbind option_bind] in Hup; [|by injection Hup as <-]. destruct (buf_flush (adc_bufs a') BUF_ID_ADC id) as [bs|]; [|done]. by injection Hup as <-. }
  destruct (smooth_all_ok BUF_ENABLE_ADC id p k Hk xs a0 [] Hrep0 Hxs) as (a1 & E1 & H1 & Hb1). destruct (new_sample_ok id p k a1 xs x H1 Hx) as (a2 & E2 & H2 & Hf & Hb2).
  destruct (processed_ok BUF_ENABLE_ADC id p k Hk a2 xs x H2 Hf Hx) as (a3 & E3); [rewrite Hb2, Hb1; done|].
  exists a1, a2, a3. split; [done|]. split; [done|]. rewrite E3. do 2 f_equal.
  assert (bool_decide (filter_len k < length xs)%nat = bool_decide (2 ^ k < Z.of_nat (length xs))) as -> by (apply bool_decide_ext; lia).
  destruct (decide (2 ^ k < Z.of_nat (length xs))); [rewrite !bool_decide_eq_true_2 by done|by rewrite !bool_decide_eq_false_2 by done].
  rewrite last_samples_all by (rewrite length_app; unfold filter_len; cbn; lia). unfold filter_len. rewrite length_app. cbn [length].
  by replace (length xs + 1 - Z.to_nat (2 ^ k))%nat with (S (length xs) - Z.to_nat (2 ^ k))%nat by lia.
Qed.

(** A mean of two, of the samples 10, 20, 31 and then 40. *)
Lemma adc_moving_average_witness :
  let s := AdcCh false true false false false 0 0 0 0 None 0 (Some 0) in
  let a := Adc [s] (AdcDev [Some 0] [0] false false false 0 0 0 0 1) (BufState [] [desc_flush demo_desc16]) in
  let a0 := default a (fst <$> adc_update_smoothing (H:=demo_board) true demo_realloc16 (λ a _, a) a 0 1) in
  ∃ a1 a2 a3, adc_update_smoothing (H:=demo_board) true demo_realloc16 (λ a _, a) a 0 1 = Some (a0, PLATFORM_OK) ∧
    smooth_all (H:=demo_board) true 0 a0 [10; 20; 31] = Some a1 ∧ new_sample 0 a1 40 = Some a2 ∧ adc_get_processed_sample (H:=demo_board) true a2 0 = Some (a3, 35).
Proof.
  intros s a a0.
  destruct (@adc_moving_average demo_board true demo_realloc16 (λ a _, a) 0 0 1 a a0 s [10; 20; 31] 40 ltac:(lia)) as (a1 & a2 & a3 & H1 & H2 & H3);
    [exact demo_realloc16_ok|reflexivity|reflexivity|done|reflexivity|done|reflexivity|intros _; by eexists|repeat constructor; done|done|].
  exists a1, a2, a3. split; [reflexivity|]. split; [exact H1|]. split; [exact H2|exact H3].
Defined.
