(* ===== verification/Exchange.v ===== *)
(** * Programs that exchange bytes over a transport

    A program is a tree: it receives a byte from a serial line or fails to within a time, sends a byte, reads or replaces
    its state, and ends with a result, an exception of cexcept.h, a Lua error, or in what C leaves undefined. Two programs run side by side, each reading
    what the other has written; the order of their steps is arbitrary, and does not matter ([net_confluent]). *)
From S2P Require Import Prelude.

Inductive exception_type := done_exc | nonfatal | fatal.

Record exception := Exception { exc_type : exception_type; exc_errnum : Z }.

Inductive io (S A : Type) : Type :=
  | Ret (a : A)
  | Throw (e : exception)
  | LuaErr (msg : mem)
  | Undef
  | Recv (id tmo : Z) (k : option Z → io S A)
  | Send (id b : Z) (p : io S A)
  | Get (k : S → io S A)
  | Put (s : S) (p : io S A).
Arguments Ret {S A} _.
Arguments Throw {S A} _.
Arguments LuaErr {S A} _.
Arguments Undef {S A}.
Arguments Recv {S A} _ _ _.
Arguments Send {S A} _ _ _.
Arguments Get {S A} _.
Arguments Put {S A} _ _.

Section programs.
Context {S : Type}.

Fixpoint io_bind {A B} (p : io S A) (f : A → io S B) : io S B :=
  match p with
  | Ret a => f a
  | Throw e => Throw e
  | LuaErr m => LuaErr m
  | Undef => Undef
  | Recv id tmo k => Recv id tmo (λ c, io_bind (k c) f)
  | Send id b p => Send id b (io_bind p f)
  | Get k => Get (λ s, io_bind (k s) f)
  | Put s p => Put s (io_bind p f)
  end.

#[export] Instance io_mbind : MBind (io S) := λ A B f p, io_bind p f.
#[export] Instance io_mret : MRet (io S) := λ A a, Ret a.

(** [Try p Catch( e ) h]; a Lua error is a jump out of both. *)
Fixpoint catch {A} (p : io S A) (h : exception → io S A) : io S A :=
  match p with
  | Throw e => h e
  | Ret a => Ret a
  | LuaErr m => LuaErr m
  | Undef => Undef
  | Recv id tmo k => Recv id tmo (λ c, catch (k c) h)
  | Send id b p => Send id b (catch p h)
  | Get k => Get (λ s, catch (k s) h)
  | Put s p => Put s (catch p h)
  end.

(** What is undefined. *)
Definition of_option {A} (o : option A) : io S A := match o with Some a => Ret a | None => Undef end.

Definition get : io S S := Get Ret.
Definition put (s : S) : io S unit := Put s (Ret tt).

(** The serial line that a program is connected to. *)
Section link.
Variable link : Z.

(** One step: the program, its state, what it has not read yet, and what it writes. Bytes come in time: a program that
    reads waits for them. *)
Definition step {A} (p : io S A) (s : S) (inp : mem) : option (io S A * S * mem * mem) :=
  match p with
  | Recv id _ k => if id =? link then match inp with b :: inp => Some (k (Some b), s, inp, []) | [] => None end else None
  | Send id b p => Some (p, s, inp, if id =? link then [b] else [])
  | Get k => Some (k s, s, inp, [])
  | Put s p => Some (p, s, inp, [])
  | _ => None
  end.

(** Steps on their own: from a program with its state and input to another, and what is written. *)
Inductive steps {A} : io S A → S → mem → io S A → S → mem → mem → Prop :=
  | steps_refl p s inp : steps p s inp p s inp []
  | steps_step p s inp p1 s1 inp1 out1 p2 s2 inp2 out2 :
      step p s inp = Some (p1, s1, inp1, out1) → steps p1 s1 inp1 p2 s2 inp2 out2 → steps p s inp p2 s2 inp2 (out1 ++ out2).

(** A program on a finite input, after which the line is silent: to receive with a timeout then fails, to receive
    without one blocks. The result, the state, the input that is left and the output. *)
Fixpoint run {A} (p : io S A) (s : S) (inp : mem) : io S A * S * mem * mem :=
  match p with
  | Recv id tmo k =>
      match (if id =? link then inp else []) with
      | b :: inp => run (k (Some b)) s inp
      | [] => if tmo <? 0 then (p, s, inp, []) else run (k None) s inp
      end
  | Send id b p => let '(r, s, inp, out) := run p s inp in (r, s, inp, if id =? link then b :: out else out)
  | Get k => run (k s) s inp
  | Put s p => run p s inp
  | _ => (p, s, inp, [])
  end.

(** ** Steps of composed programs *)

Lemma step_bind {A B} (p : io S A) (f : A → io S B) s inp p1 s1 inp1 out :
  step p s inp = Some (p1, s1, inp1, out) → step (p ≫= f) s inp = Some (p1 ≫= f, s1, inp1, out).
Proof. destruct p; cbn; try done; try (destruct (_ =? _); [|done]; destruct inp; [done|]); intros; by simplify_eq. Qed.

Lemma steps_trans {A} (p : io S A) s inp p1 s1 inp1 out1 p2 s2 inp2 out2 :
  steps p s inp p1 s1 inp1 out1 → steps p1 s1 inp1 p2 s2 inp2 out2 → steps p s inp p2 s2 inp2 (out1 ++ out2).
Proof. induction 1 as [|p s inp q sq iq oq p1 s1 inp1 out1 Hs _ IH]; [done|]. intros H. rewrite <- app_assoc. eapply steps_step; [done|by apply IH]. Qed.

Lemma steps_bind {A B} (p : io S A) (f : A → io S B) s inp p1 s1 inp1 out :
  steps p s inp p1 s1 inp1 out → steps (p ≫= f) s inp (p1 ≫= f) s1 inp1 out.
Proof. induction 1 as [|p s inp q sq iq oq p1 s1 inp1 out1 Hs _ IH]; [constructor|]. eapply steps_step; [by apply step_bind|done]. Qed.

(** A part that returns, then the rest. *)
Lemma steps_then {A B} (p : io S A) (f : A → io S B) s inp a s1 inp1 out1 q s2 inp2 out2 :
  steps p s inp (Ret a) s1 inp1 out1 → steps (f a) s1 inp1 q s2 inp2 out2 → steps (p ≫= f) s inp q s2 inp2 (out1 ++ out2).
Proof. intros H1 H2. eapply steps_trans; [by apply (steps_bind p f)|exact H2]. Qed.

Lemma step_catch {A} (p : io S A) h s inp p1 s1 inp1 out :
  step p s inp = Some (p1, s1, inp1, out) → step (catch p h) s inp = Some (catch p1 h, s1, inp1, out).
Proof. destruct p; cbn; try done; try (destruct (_ =? _); [|done]; destruct inp; [done|]); intros; by simplify_eq. Qed.

Lemma steps_catch {A} (p : io S A) h s inp p1 s1 inp1 out :
  steps p s inp p1 s1 inp1 out → steps (catch p h) s inp (catch p1 h) s1 inp1 out.
Proof. induction 1 as [|p s inp q sq iq oq p1 s1 inp1 out1 Hs _ IH]; [constructor|]. eapply steps_step; [by apply step_catch|done]. Qed.

(** More input does not matter to what was read. *)
Lemma step_more {A} (p : io S A) s inp p1 s1 inp1 out more :
  step p s inp = Some (p1, s1, inp1, out) → step p s (inp ++ more) = Some (p1, s1, inp1 ++ more, out).
Proof. destruct p; cbn; try done; try (destruct (_ =? _); [|done]; destruct inp; [done|]); intros; by simplify_eq. Qed.

Lemma steps_more {A} (p : io S A) s inp p1 s1 inp1 out more :
  steps p s inp p1 s1 inp1 out → steps p s (inp ++ more) p1 s1 (inp1 ++ more) out.
Proof. induction 1 as [|p s inp q sq iq oq p1 s1 inp1 out1 Hs _ IH]; [constructor|]. eapply steps_step; [by apply step_more|done]. Qed.

Lemma steps_recv {A} tmo (k : option Z → io S A) s b inp : steps (Recv link tmo k) s (b :: inp) (k (Some b)) s inp [].
Proof. apply (steps_step _ _ _ (k (Some b)) s inp [] _ _ _ []); [cbn; by rewrite Z.eqb_refl|constructor]. Qed.

Lemma steps_send {A} b (p : io S A) s inp : steps (Send link b p) s inp p s inp [b].
Proof. rewrite <- (app_nil_r [b]). eapply steps_step; [cbn; by rewrite Z.eqb_refl|constructor]. Qed.

Lemma steps_get s inp : steps get s inp (Ret s) s inp [].
Proof. apply (steps_step _ _ _ (Ret s) s inp [] _ _ _ []); [done|constructor]. Qed.

Lemma steps_put s' s inp : steps (put s') s inp (Ret tt) s' inp [].
Proof. apply (steps_step _ _ _ (Ret tt) s' inp [] _ _ _ []); [done|constructor]. Qed.

(** What steps do, [run] does. *)
Lemma run_steps {A} (p : io S A) s inp p1 s1 inp1 out :
  steps p s inp p1 s1 inp1 out → run p s inp = (let '(r, s2, inp2, out2) := run p1 s1 inp1 in (r, s2, inp2, out ++ out2)).
Proof.
  induction 1 as [p s inp|p s inp q sq iq oq p1 s1 inp1 out1 Hs _ IH]; [by destruct (run p s inp) as [[[? ?] ?] ?]|].
  destruct p; cbn in Hs |- *; try done; [destruct (_ =? _); [destruct inp|]|..]; simplify_eq; rewrite ?IH; try done.
  - destruct (run p1 s1 inp1) as [[[? ?] ?] ?]. by destruct (_ =? _).
Qed.
End link.
End programs.

(** ** Two programs and the bytes that are on their way *)

Section network.
Context {S1 S2 A1 A2 : Type}.
(** The serial line of each. *)
Variables link1 link2 : Z.

Record net := Net { n_p1 : io S1 A1; n_s1 : S1; n_p2 : io S2 A2; n_s2 : S2; n_12 : mem; n_21 : mem }.

Inductive net_step : net → net → Prop :=
  | net_first p1 s1 p2 s2 a b p1' s1' b' out :
      step link1 p1 s1 b = Some (p1', s1', b', out) → net_step (Net p1 s1 p2 s2 a b) (Net p1' s1' p2 s2 (a ++ out) b')
  | net_second p1 s1 p2 s2 a b p2' s2' a' out :
      step link2 p2 s2 a = Some (p2', s2', a', out) → net_step (Net p1 s1 p2 s2 a b) (Net p1 s1 p2' s2' a' (b ++ out)).

(** The steps of the two programs commute. *)
Lemma net_diamond x y z : net_step x y → net_step x z → y = z ∨ ∃ w, net_step y w ∧ net_step z w.
Proof.
  intros Hy Hz. destruct Hy as [p1 s1 p2 s2 a b p1' s1' b' out H|p1 s1 p2 s2 a b p2' s2' a' out H]; inversion Hz as [? ? ? ? ? ? p1'' s1'' b'' out2 H2|? ? ? ? ? ? p2'' s2'' a'' out2 H2]; subst.
  - left. rewrite H in H2. by simplify_eq.
  - right. eexists. split; [apply net_second; by apply step_more|apply net_first; by apply step_more].
  - right. eexists. split; [apply net_first; by apply step_more|apply net_second; by apply step_more].
  - left. rewrite H in H2. by simplify_eq.
Qed.

Definition net_stuck (x : net) : Prop := ∀ y, ¬ net_step x y.

(** A way that ends decides where every other one ends, and how soon. *)
Theorem net_confluent n x f : nsteps net_step n x f → net_stuck f → ∀ m y, nsteps net_step m x y → (m <= n)%nat ∧ nsteps net_step (n - m) y f.
Proof.
  intros Hf Hst. revert x Hf. induction n as [n IH] using lt_wf_ind. intros x Hf m y Hy.
  destruct Hy as [|m x y z Hxy Hyz]; [split; [lia|by rewrite Nat.sub_0_r]|].
  destruct n as [|n]; [inversion Hf; subst; by apply Hst in Hxy|]. inversion Hf as [|? ? w ? Hxw Hwf]; subst.
  assert (nsteps net_step n y f) as Hyf.
  { destruct (net_diamond _ _ _ Hxy Hxw) as [->|(v & Hyv & Hwv)]; [done|].
    destruct (IH n ltac:(lia) w Hwf 1%nat v) as [Hle Hvf]; [by apply nsteps_once|]. destruct n as [|n]; [lia|]. econstructor; [done|]. by replace (Datatypes.S n - 1)%nat with n in Hvf by lia. }
  destruct (IH n ltac:(lia) y Hyf m z Hyz) as [Hle Hzf]. split; [lia|]. by replace (Datatypes.S n - Datatypes.S m)%nat with (n - m)%nat by lia.
Qed.

(** What one side does on its own, in the network. *)
Lemma net_steps_first p1 s1 p1' s1' b b' out : steps link1 p1 s1 b p1' s1' b' out → ∀ p2 s2 a, rtc net_step (Net p1 s1 p2 s2 a b) (Net p1' s1' p2 s2 (a ++ out) b').
Proof. induction 1 as [|p s inp q sq iq oq p1' s1' inp1 out1 Hs _ IH]; intros p2 s2 a; [by rewrite app_nil_r|]. rewrite app_assoc. eapply rtc_l; [by apply net_first|apply IH]. Qed.

Lemma net_steps_second p2 s2 p2' s2' a a' out : steps link2 p2 s2 a p2' s2' a' out → ∀ p1 s1 b, rtc net_step (Net p1 s1 p2 s2 a b) (Net p1 s1 p2' s2' a' (b ++ out)).
Proof. induction 1 as [|p s inp q sq iq oq p1' s1' inp1 out1 Hs _ IH]; intros p1 s1 b; [by rewrite app_nil_r|]. rewrite app_assoc. eapply rtc_l; [by apply net_second|apply IH]. Qed.

(** Every way leads there. *)
Lemma net_always x f : rtc net_step x f → net_stuck f → (∀ y, rtc net_step x y → rtc net_step y f) ∧ ∃ n, ∀ m y, nsteps net_step m x y → (m <= n)%nat.
Proof.
  intros [n Hf]%rtc_nsteps Hst. pose proof (net_confluent n x f Hf Hst) as H. split; [|exists n; intros m y Hy; by apply (H m y)].
  intros y [m Hy]%rtc_nsteps. apply rtc_nsteps. exists (n - m)%nat. by apply (H m y).
Qed.

(** Both have returned: nothing more happens. *)
Lemma net_ret_stuck a1 s1 a2 s2 x y : net_stuck (Net (Ret a1) s1 (Ret a2) s2 x y).
Proof. intros z H. by inversion H. Qed.
End network.
Arguments net : clear implicits.
