(* ===== verification/LuaNum.v ===== *)
(** * The numbers of Lua on different machines

    A build of eLua has integers or doubles as its numbers, in the byte order of its processor. An integer is its value, a
    double its 64 bits. *)
From S2P Require Import Prelude.

Inductive lua_Number := NInt (z : Z) | NDbl (bits : Z).

#[export] Instance lua_Number_eq_dec : EqDecision lua_Number.
Proof. solve_decision. Defined.

(** A machine: whether it is little endian, whether its numbers are integers, and their size. *)
Record host := Host { h_little : bool; h_intnum : bool; h_bytes : Z }.

(** ** Bytes of integers *)

Fixpoint le_bytes (n : nat) (z : Z) : mem :=
  match n with O => [] | S n => z mod 256 :: le_bytes n (z / 256) end.

Fixpoint le_val (l : mem) : Z := match l with [] => 0 | b :: l => b + 256 * le_val l end.

(** An unsigned value of [n] bytes in the byte order of a machine. *)
Definition host_bytes (little : bool) (n : nat) (z : Z) : mem := if little then le_bytes n z else rev (le_bytes n z).

Definition host_val (little : bool) (l : mem) : Z := le_val (if little then l else rev l).

(** The value as a signed integer of [n] bytes. *)
Definition signed (n : Z) (z : Z) : Z := let m := 256 ^ n in if z mod m <? m / 2 then z mod m else z mod m - m.

(** [a] fits a signed integer of [n] bytes. *)
Definition fits (n a : Z) : bool := (- (256 ^ n / 2) <=? a) && (a <? 256 ^ n / 2).

Lemma le_bytes_length n : ∀ z, length (le_bytes n z) = n.
Proof. induction n as [|n IH]; intros z; cbn; [done|by rewrite IH]. Qed.

Lemma host_bytes_length little n z : length (host_bytes little n z) = n.
Proof. unfold host_bytes. destruct little; [|rewrite length_rev]; apply le_bytes_length. Qed.

Lemma le_bytes_ok n : ∀ z, bytes_ok (le_bytes n z).
Proof. induction n as [|n IH]; intros z; [constructor|]. constructor; [unfold byte_ok; apply Z.mod_pos_bound; lia|apply IH]. Qed.

Lemma host_bytes_ok little n z : bytes_ok (host_bytes little n z).
Proof. unfold host_bytes. destruct little; [|apply Forall_rev]; apply le_bytes_ok. Qed.

Lemma msize_host_bytes little n z : msize (host_bytes little n z) = Z.of_nat n.
Proof. unfold msize. by rewrite host_bytes_length. Qed.

Lemma le_val_bytes n : ∀ z, le_val (le_bytes n z) = z mod 256 ^ Z.of_nat n.
Proof.
  induction n as [|n IH]; intros z; cbn [le_bytes le_val]; [by rewrite Z.mod_1_r|]. rewrite IH, Nat2Z.inj_succ, Z.pow_succ_r by lia.
  rewrite Z.rem_mul_r by (try apply Z.pow_pos_nonneg; lia). lia.
Qed.

Lemma host_val_bytes little n z : host_val little (host_bytes little n z) = z mod 256 ^ Z.of_nat n.
Proof. unfold host_val, host_bytes. destruct little; [|rewrite rev_involutive]; apply le_val_bytes. Qed.

(** Reversing the bytes is the other byte order. *)
Lemma host_bytes_rev little n z : rev (host_bytes little n z) = host_bytes (negb little) n z.
Proof. unfold host_bytes. destruct little; cbn; [done|apply rev_involutive]. Qed.

Lemma pow256_half n : 0 < n → 0 < 256 ^ n ∧ 256 ^ n = 2 * (256 ^ n / 2).
Proof.
  intros Hn. split; [apply Z.pow_pos_nonneg; lia|]. replace n with (Z.succ (n - 1)) by lia. rewrite Z.pow_succ_r by lia.
  replace (256 * 256 ^ (n - 1)) with (128 * 256 ^ (n - 1) * 2) by lia. rewrite Z.div_mul by lia. lia.
Qed.

Lemma signed_mod n z : 0 < n → fits n z = true → signed n (z mod 256 ^ n) = z.
Proof.
  intros Hn Hf. unfold fits in Hf. apply andb_true_iff in Hf as [H1%Z.leb_le H2%Z.ltb_lt]. unfold signed.
  destruct (pow256_half n Hn) as [Hp E].
  set (m := 256 ^ n) in *. set (h := m / 2) in *. rewrite Z.mod_mod by lia.
  destruct (Z.lt_ge_cases z 0).
  - assert (z mod m = z + m) as -> by (rewrite <- (Z.mod_add z 1), Z.mul_1_l by lia; apply Z.mod_small; lia). rewrite (proj2 (Z.ltb_ge _ _)) by lia. lia.
  - rewrite Z.mod_small by lia. by rewrite (proj2 (Z.ltb_lt _ _)) by lia.
Qed.

Lemma signed_mod_any n z : 0 < n → signed n (z mod 256 ^ n) = signed n z.
Proof. intros Hn. unfold signed. assert (0 < 256 ^ n) by (apply Z.pow_pos_nonneg; lia). by rewrite Z.mod_mod by lia. Qed.

Lemma signed_fits n z : 0 < n → fits n (signed n z) = true.
Proof.
  intros Hn. unfold signed, fits. destruct (pow256_half n Hn) as [Hp E].
  set (m := 256 ^ n) in *. set (h := m / 2) in *. pose proof (Z.mod_pos_bound z m Hp). apply andb_true_iff. rewrite Z.leb_le, Z.ltb_lt. destruct (Z.ltb_spec (z mod m) h); lia.
Qed.

(** ** Doubles *)

Definition dbl_exp (bits : Z) : Z := (bits / 2 ^ 52) mod 2048.
Definition dbl_frac (bits : Z) : Z := bits mod 2 ^ 52.
Definition dbl_neg (bits : Z) : bool := 2 ^ 63 <=? bits mod 2 ^ 64.

Definition dbl_nan (bits : Z) : bool := (dbl_exp bits =? 2047) && negb (dbl_frac bits =? 0).
Definition dbl_zero (bits : Z) : bool := (dbl_exp bits =? 0) && (dbl_frac bits =? 0).

(** The cast to an integer, towards 0; infinities and what is not a number have none. *)
Definition dbl_to_int (bits : Z) : option Z :=
  if dbl_exp bits =? 2047 then None
  else
    let m := 2 ^ 52 + dbl_frac bits in
    let e := dbl_exp bits - 1075 in
    let v := if dbl_exp bits =? 0 then 0 else if 0 <=? e then m * 2 ^ e else m / 2 ^ (- e) in
    Some (if dbl_neg bits then - v else v).

(** The significand and the exponent of a positive integer, rounded to the nearest, ties to even. *)
Definition dbl_round (a : Z) : Z * Z :=
  let e := Z.log2 a in
  if e <=? 52 then (a * 2 ^ (52 - e), e)
  else
    let q := a / 2 ^ (e - 52) in
    let r := a mod 2 ^ (e - 52) in
    let half := 2 ^ (e - 53) in
    let q := if (half <? r) || ((r =? half) && Z.odd q) then q + 1 else q in
    if q =? 2 ^ 53 then (2 ^ 52, e + 1) else (q, e).

Definition dbl_of_int (z : Z) : Z :=
  if z =? 0 then 0
  else let '(m, e) := dbl_round (Z.abs z) in (if z <? 0 then 2 ^ 63 else 0) + (e + 1023) * 2 ^ 52 + (m - 2 ^ 52).

(** An integer of at most 53 bits is a double. *)
Lemma dbl_int_exact z : Z.abs z < 2 ^ 53 → dbl_to_int (dbl_of_int z) = Some z.
Proof.
  intros Hz. unfold dbl_of_int. destruct (Z.eqb_spec z 0) as [->|Hz0]; [done|]. set (a := Z.abs z).
  assert (0 < a) as Ha by (unfold a; lia). pose proof (Z.log2_spec a Ha) as [Hl1 Hl2]. assert (0 <= Z.log2 a < 53) as Hl by (split; [apply Z.log2_nonneg|apply Z.log2_lt_pow2; unfold a in *; lia]).
  unfold dbl_round. rewrite (proj2 (Z.leb_le _ 52)) by lia. set (e := Z.log2 a) in *. set (m := a * 2 ^ (52 - e)).
  assert (2 ^ 52 = 2 ^ e * 2 ^ (52 - e)) as E52 by (rewrite <- Z.pow_add_r by lia; f_equal; lia). rewrite Z.pow_succ_r in Hl2 by lia.
  assert (0 < 2 ^ (52 - e)) as Hp by (apply Z.pow_pos_nonneg; lia).
  assert (2 ^ 52 <= m < 2 * 2 ^ 52) as Hm by (unfold m; nia).
  set (s := if z <? 0 then 2 ^ 63 else 0). set (b := s + (e + 1023) * 2 ^ 52 + (m - 2 ^ 52)).
  assert (0 <= e + 1023 < 2047) as Hx by lia.
  assert (dbl_frac b = m - 2 ^ 52) as Hf.
  { unfold dbl_frac, b. replace (s + (e + 1023) * 2 ^ 52 + (m - 2 ^ 52)) with ((m - 2 ^ 52) + ((if z <? 0 then 2048 else 0) + (e + 1023)) * 2 ^ 52) by (unfold s; destruct (z <? 0); lia).
    rewrite Z.mod_add by lia. apply Z.mod_small. lia. }
  assert (dbl_exp b = e + 1023) as He.
  { unfold dbl_exp, b. replace (s + (e + 1023) * 2 ^ 52 + (m - 2 ^ 52)) with ((m - 2 ^ 52) + ((if z <? 0 then 2048 else 0) + (e + 1023)) * 2 ^ 52) by (unfold s; destruct (z <? 0); lia).
    rewrite Z.div_add, Z.div_small by lia. rewrite Z.add_0_l. destruct (z <? 0); [|rewrite Z.add_0_l; apply Z.mod_small; lia].
    replace (2048 + (e + 1023)) with (e + 1023 + 1 * 2048) by lia. rewrite Z.mod_add by lia. apply Z.mod_small. lia. }
  assert (0 <= b < 2 ^ 64) as Hb by (unfold b, s; destruct (z <? 0); lia).
  assert (dbl_neg b = (z <? 0)) as Hs.
  { unfold dbl_neg. rewrite Z.mod_small by lia. unfold b, s. destruct (z <? 0); [apply Z.leb_le|apply Z.leb_gt]; lia. }
  unfold dbl_to_int. rewrite Hf, He, Hs. rewrite !(proj2 (Z.eqb_neq _ _)) by lia. replace (2 ^ 52 + (m - 2 ^ 52)) with m by lia.
  assert ((if 0 <=? e + 1023 - 1075 then m * 2 ^ (e + 1023 - 1075) else m / 2 ^ (- (e + 1023 - 1075))) = a) as ->.
  { destruct (Z.leb_spec 0 (e + 1023 - 1075)).
    - assert (e = 52) as E by lia. unfold m. rewrite E. change (2 ^ (52 - 52)) with 1. change (2 ^ (52 + 1023 - 1075)) with 1. lia.
    - replace (- (e + 1023 - 1075)) with (52 - e) by lia. unfold m. by apply Z.div_mul, Z.neq_sym, Z.lt_neq. }
  f_equal. unfold a. destruct (Z.ltb_spec z 0); lia.
Qed.

(** ** Casts of a machine *)

(** [( intN_t )x]: undefined when the value does not fit. *)
Definition num_to_int (n : Z) (x : lua_Number) : option Z :=
  match x with
  | NInt z => Some (signed n z)
  | NDbl b => v ← dbl_to_int b; if fits n v then Some v else None
  end.

(** [( lua_Number )y] *)
Definition num_of_int (h : host) (z : Z) : lua_Number := if h_intnum h then NInt (signed (h_bytes h) z) else NDbl (dbl_of_int z).

(** The bytes of a number in memory, and back. *)
Definition num_bytes (h : host) (x : lua_Number) : mem :=
  host_bytes (h_little h) (Z.to_nat (h_bytes h)) (match x with NInt z => z | NDbl b => b end).

Definition num_of_bytes (h : host) (l : mem) : lua_Number :=
  if h_intnum h then NInt (signed (h_bytes h) (host_val (h_little h) l)) else NDbl (host_val (h_little h) l).

(** The machines that there are, and the numbers of one. *)
Definition host_ok (h : host) : Prop := if h_intnum h then h_bytes h ∈ [1; 2; 4; 8] else h_bytes h = 8.

Definition num_ok (h : host) (x : lua_Number) : Prop :=
  match x with NInt z => h_intnum h = true ∧ fits (h_bytes h) z = true | NDbl b => h_intnum h = false ∧ 0 <= b < 2 ^ 64 end.

Lemma num_round_trip h x : host_ok h → num_ok h x → num_of_bytes h (num_bytes h x) = x.
Proof.
  unfold host_ok, num_ok, num_of_bytes, num_bytes. intros Hh Hx. rewrite host_val_bytes.
  destruct x as [z|b]; destruct Hx as [E Hx]; rewrite E in *.
  - assert (0 < h_bytes h) by (rewrite !elem_of_cons, elem_of_nil in Hh; lia). f_equal. rewrite Z2Nat.id by lia. by apply signed_mod.
  - rewrite Hh. f_equal. apply Z.mod_small. by change (256 ^ Z.of_nat (Z.to_nat 8)) with (2 ^ 64).
Qed.

Lemma num_bytes_length h x : length (num_bytes h x) = Z.to_nat (h_bytes h).
Proof. apply host_bytes_length. Qed.

(** Equality of keys: the two zeros are equal, and what is not a number is not equal to itself. *)
Definition num_eqb (x y : lua_Number) : bool :=
  match x, y with
  | NInt a, NInt b => a =? b
  | NDbl a, NDbl b => negb (dbl_nan a) && ((a =? b) || (dbl_zero a && dbl_zero b))
  | _, _ => false
  end.

Definition num_nan (x : lua_Number) : bool := match x with NInt _ => false | NDbl b => dbl_nan b end.
