(* ===== verification/LuaOp.v ===== *)
(** * Bytecode of Lua

    src/lua/lopcodes.h, src/lua/lopcodes.c and the prototype of a function of src/lua/lobject.h: an instruction is a 32-bit
    word of an opcode and its arguments. An array of the prototype is a list, and its size the length of the list. *)
From S2P Require Import Prelude LuaNum.

(** ** Instructions *)

Definition SIZE_C := 9.
Definition SIZE_B := 9.
Definition SIZE_Bx := SIZE_C + SIZE_B.
Definition SIZE_A := 8.
Definition SIZE_OP := 6.

Definition POS_OP := 0.
Definition POS_A := POS_OP + SIZE_OP.
Definition POS_C := POS_A + SIZE_A.
Definition POS_B := POS_C + SIZE_C.
Definition POS_Bx := POS_C.

Definition MAXARG_Bx := Z.shiftl 1 SIZE_Bx - 1.
Definition MAXARG_sBx := Z.shiftr MAXARG_Bx 1.
Definition MAXARG_A := Z.shiftl 1 SIZE_A - 1.

(** [n] bits from position [pos]: [( i >> pos ) & MASK1( n, 0 )]. *)
Definition getarg (i pos n : Z) : Z := Z.land (Z.shiftr i pos) (Z.ones n).

Definition GET_OPCODE (i : Z) : Z := getarg i POS_OP SIZE_OP.
Definition GETARG_A (i : Z) : Z := getarg i POS_A SIZE_A.
Definition GETARG_B (i : Z) : Z := getarg i POS_B SIZE_B.
Definition GETARG_C (i : Z) : Z := getarg i POS_C SIZE_C.
Definition GETARG_Bx (i : Z) : Z := getarg i POS_Bx SIZE_Bx.
Definition GETARG_sBx (i : Z) : Z := GETARG_Bx i - MAXARG_sBx.

Definition CREATE_ABC (o a b c : Z) : Z :=
  Z.lor (Z.lor (Z.lor (Z.shiftl o POS_OP) (Z.shiftl a POS_A)) (Z.shiftl b POS_B)) (Z.shiftl c POS_C).
Definition CREATE_ABx (o a bc : Z) : Z := Z.lor (Z.lor (Z.shiftl o POS_OP) (Z.shiftl a POS_A)) (Z.shiftl bc POS_Bx).

(** An operand that may be a constant. *)
Definition BITRK := Z.shiftl 1 (SIZE_B - 1).
Definition ISK (x : Z) : bool := ctrue (Z.land x BITRK).
Definition INDEXK (r : Z) : Z := Z.ldiff r BITRK.

(** Invalid register that fits in 8 bits. *)
Definition NO_REG := MAXARG_A.

Definition LUA_MULTRET := -1.
Definition LFIELDS_PER_FLUSH := 50.

(** ** Opcodes *)

Inductive OpCode :=
  | OP_MOVE | OP_LOADK | OP_LOADBOOL | OP_LOADNIL | OP_GETUPVAL | OP_GETGLOBAL | OP_GETTABLE | OP_SETGLOBAL | OP_SETUPVAL
  | OP_SETTABLE | OP_NEWTABLE | OP_SELF | OP_ADD | OP_SUB | OP_MUL | OP_DIV | OP_MOD | OP_POW | OP_UNM | OP_NOT | OP_LEN
  | OP_CONCAT | OP_JMP | OP_EQ | OP_LT | OP_LE | OP_TEST | OP_TESTSET | OP_CALL | OP_TAILCALL | OP_RETURN | OP_FORLOOP
  | OP_FORPREP | OP_TFORLOOP | OP_SETLIST | OP_CLOSE | OP_CLOSURE | OP_VARARG.

#[export] Instance OpCode_eq_dec : EqDecision OpCode.
Proof. solve_decision. Defined.

Definition opcodes : list OpCode :=
  [OP_MOVE; OP_LOADK; OP_LOADBOOL; OP_LOADNIL; OP_GETUPVAL; OP_GETGLOBAL; OP_GETTABLE; OP_SETGLOBAL; OP_SETUPVAL;
   OP_SETTABLE; OP_NEWTABLE; OP_SELF; OP_ADD; OP_SUB; OP_MUL; OP_DIV; OP_MOD; OP_POW; OP_UNM; OP_NOT; OP_LEN; OP_CONCAT;
   OP_JMP; OP_EQ; OP_LT; OP_LE; OP_TEST; OP_TESTSET; OP_CALL; OP_TAILCALL; OP_RETURN; OP_FORLOOP; OP_FORPREP; OP_TFORLOOP;
   OP_SETLIST; OP_CLOSE; OP_CLOSURE; OP_VARARG].

Definition NUM_OPCODES := 38.

(** The opcode of a number below [NUM_OPCODES]. *)
Definition op_of (n : Z) : option OpCode := opcodes !! Z.to_nat n.

Definition is_op (i : Z) (op : OpCode) : bool := bool_decide (op_of (GET_OPCODE i) = Some op).

Definition op_num (op : OpCode) : Z :=
  match list_find (λ o, o = op) opcodes with Some (n, _) => Z.of_nat n | None => NUM_OPCODES end.

(** ** Modes *)

Inductive OpMode := iABC | iABx | iAsBx.
Inductive OpArgMask := OpArgN | OpArgU | OpArgR | OpArgK.

(** The table [luaP_opmodes]: test, sets A, mode of B, mode of C, format. *)
Definition luaP_opmodes (op : OpCode) : bool * bool * OpArgMask * OpArgMask * OpMode :=
  match op with
  | OP_MOVE => (false, true, OpArgR, OpArgN, iABC)
  | OP_LOADK => (false, true, OpArgK, OpArgN, iABx)
  | OP_LOADBOOL => (false, true, OpArgU, OpArgU, iABC)
  | OP_LOADNIL => (false, true, OpArgR, OpArgN, iABC)
  | OP_GETUPVAL => (false, true, OpArgU, OpArgN, iABC)
  | OP_GETGLOBAL => (false, true, OpArgK, OpArgN, iABx)
  | OP_GETTABLE => (false, true, OpArgR, OpArgK, iABC)
  | OP_SETGLOBAL => (false, false, OpArgK, OpArgN, iABx)
  | OP_SETUPVAL => (false, false, OpArgU, OpArgN, iABC)
  | OP_SETTABLE => (false, false, OpArgK, OpArgK, iABC)
  | OP_NEWTABLE => (false, true, OpArgU, OpArgU, iABC)
  | OP_SELF => (false, true, OpArgR, OpArgK, iABC)
  | OP_ADD | OP_SUB | OP_MUL | OP_DIV | OP_MOD | OP_POW => (false, true, OpArgK, OpArgK, iABC)
  | OP_UNM | OP_NOT | OP_LEN => (false, true, OpArgR, OpArgN, iABC)
  | OP_CONCAT => (false, true, OpArgR, OpArgR, iABC)
  | OP_JMP => (false, false, OpArgR, OpArgN, iAsBx)
  | OP_EQ | OP_LT | OP_LE => (true, false, OpArgK, OpArgK, iABC)
  | OP_TEST | OP_TESTSET => (true, true, OpArgR, OpArgU, iABC)
  | OP_CALL | OP_TAILCALL => (false, true, OpArgU, OpArgU, iABC)
  | OP_RETURN => (false, false, OpArgU, OpArgN, iABC)
  | OP_FORLOOP | OP_FORPREP => (false, true, OpArgR, OpArgN, iAsBx)
  | OP_TFORLOOP => (true, false, OpArgN, OpArgU, iABC)
  | OP_SETLIST => (false, false, OpArgU, OpArgU, iABC)
  | OP_CLOSE => (false, false, OpArgN, OpArgN, iABC)
  | OP_CLOSURE => (false, true, OpArgU, OpArgN, iABx)
  | OP_VARARG => (false, true, OpArgU, OpArgN, iABC)
  end.

Definition testTMode (op : OpCode) : bool := let '(t, _, _, _, _) := luaP_opmodes op in t.
Definition testAMode (op : OpCode) : bool := let '(_, a, _, _, _) := luaP_opmodes op in a.
Definition getBMode (op : OpCode) : OpArgMask := let '(_, _, b, _, _) := luaP_opmodes op in b.
Definition getCMode (op : OpCode) : OpArgMask := let '(_, _, _, c, _) := luaP_opmodes op in c.
Definition getOpMode (op : OpCode) : OpMode := let '(_, _, _, _, m) := luaP_opmodes op in m.

(** ** Prototypes *)

(** A constant: nil, a boolean, a number or a string. *)
Inductive TConst := KNil | KBool (b : bool) | KNumber (x : lua_Number) | KString (s : option mem).

#[export] Instance TConst_eq_dec : EqDecision TConst.
Proof. solve_decision. Defined.

Definition ttisstring (o : TConst) : bool := match o with KString _ => true | _ => false end.

Record LocVar := LVar { varname : option mem; startpc : Z; endpc : Z }.

Inductive Proto := MkProto {
  pt_k : list TConst; pt_code : list Z; pt_p : list Proto; lineinfo : list Z; locvars : list LocVar;
  upvalues : list (option mem); source : option mem; linedefined : Z; lastlinedefined : Z;
  nups : Z; numparams : Z; is_vararg : Z; maxstacksize : Z }.

Definition sizecode (pt : Proto) : Z := msize (pt_code pt).
Definition sizek (pt : Proto) : Z := Z.of_nat (length (pt_k pt)).
Definition sizep (pt : Proto) : Z := Z.of_nat (length (pt_p pt)).
Definition sizeupvalues (pt : Proto) : Z := Z.of_nat (length (upvalues pt)).
Definition sizelineinfo (pt : Proto) : Z := msize (lineinfo pt).

(** The fields of type [lu_byte]. *)
Definition lu_bytes (f : Proto) : Prop :=
  byte_ok (nups f) ∧ byte_ok (numparams f) ∧ byte_ok (is_vararg f) ∧ byte_ok (maxstacksize f).

(** Induction over a function and those defined inside it. *)
Definition Proto_rect_strong (P : Proto → Prop)
  (H : ∀ f, Forall P (pt_p f) → P f) : ∀ f, P f :=
  fix go f := H f (match f with MkProto _ _ ps _ _ _ _ _ _ _ _ _ _ =>
    (fix all (l : list Proto) : Forall P l := match l with [] => Forall_nil_2 P | q :: l => Forall_cons_2 P q l (go q) (all l) end) ps end).

(** A property of a function and of those defined inside it. *)
Fixpoint every (P : Proto → Prop) (f : Proto) : Prop :=
  P f ∧ match f with MkProto _ _ ps _ _ _ _ _ _ _ _ _ _ =>
    (fix all (l : list Proto) : Prop := match l with [] => True | q :: l => every P q ∧ all l end) ps end.

Lemma every_here P f : every P f → P f.
Proof. destruct f. by intros [? _]. Qed.

Lemma every_sub P f : every P f → Forall (every P) (pt_p f).
Proof. destruct f as [? ? ps]. cbn [pt_p]. intros [_ H]. induction ps as [|q ps IH]; [done|]. destruct H as [Hq H]. constructor; [done|by apply IH]. Qed.

(** The depth of the nesting of functions. *)
Fixpoint proto_depth (f : Proto) : nat :=
  match f with MkProto _ _ ps _ _ _ _ _ _ _ _ _ _ => S (fold_right Nat.max O (map proto_depth ps)) end.

(** ** Arguments *)

Lemma getarg_range i pos n : 0 <= n → 0 <= getarg i pos n < 2 ^ n.
Proof. intros Hn. unfold getarg. rewrite Z.land_ones by done. apply Z.mod_pos_bound. by apply Z.pow_pos_nonneg. Qed.

Lemma GETARG_A_range i : 0 <= GETARG_A i < 256.
Proof. apply (getarg_range i POS_A SIZE_A). done. Qed.

Lemma GETARG_B_range i : 0 <= GETARG_B i < 512.
Proof. apply (getarg_range i POS_B SIZE_B). done. Qed.

Lemma GETARG_C_range i : 0 <= GETARG_C i < 512.
Proof. apply (getarg_range i POS_C SIZE_C). done. Qed.

Lemma GETARG_Bx_range i : 0 <= GETARG_Bx i < 262144.
Proof. apply (getarg_range i POS_Bx SIZE_Bx). done. Qed.

Lemma GET_OPCODE_range i : 0 <= GET_OPCODE i < 64.
Proof. apply (getarg_range i POS_OP SIZE_OP). done. Qed.

Lemma op_of_Some n : 0 <= n < NUM_OPCODES → ∃ op, op_of n = Some op.
Proof. intros Hn. unfold op_of. apply lookup_lt_is_Some_2. unfold NUM_OPCODES in Hn. cbn. lia. Qed.

Lemma op_of_num op : op_of (op_num op) = Some op.
Proof. by destruct op. Qed.

Lemma is_op_eq i op op' : op_of (GET_OPCODE i) = Some op → is_op i op' = bool_decide (op = op').
Proof. intros E. unfold is_op. rewrite E. apply bool_decide_ext. naive_solver. Qed.

Lemma depth_sub f q : q ∈ pt_p f → (proto_depth q < proto_depth f)%nat.
Proof.
  destruct f as [? ? ps]. cbn [pt_p proto_depth]. intros Hq. induction Hq as [ps|r q ps _ IH]; cbn; lia.
Qed.
