(* ===== verification/LuaCheck.v ===== *)
(** * The checker of bytecode

    [symbexec] of src/lua/ldebug.c, which [luaG_checkcode] runs on every function that is loaded, and the steps of the
    interpreter of src/lua/lvm.c within a function: where it can go from an instruction, and which registers, constants,
    upvalues and functions it uses. *)
From S2P Require Import Prelude LuaNum LuaOp.

(** What the checker does: it goes on, returns 0, or reads outside an array. *)
Inductive checked (A : Type) := Pass (a : A) | Reject | Outside.
Arguments Pass {A} _.
Arguments Reject {A}.
Arguments Outside {A}.

Definition checked_bind {A B} (r : checked A) (f : A → checked B) : checked B :=
  match r with Pass a => f a | Reject => Reject | Outside => Outside end.

#[export] Instance checked_mbind : MBind checked := λ A B f r, checked_bind r f.

(** [check( x )] *)
Definition check (b : bool) : checked unit := if b then Pass tt else Reject.

Definition elem {A} (o : option A) : checked A := match o with Some a => Pass a | None => Outside end.

Definition MAXSTACK := 250.
Definition VARARG_HASARG := 1.
Definition VARARG_ISVARARG := 2.
Definition VARARG_NEEDSARG := 4.

Definition code_at (pt : Proto) (pc : Z) : checked Z := elem (ld (pt_code pt) pc).

Definition checkreg (pt : Proto) (reg : Z) : checked unit := check (reg <? maxstacksize pt).

Definition precheck (pt : Proto) : checked unit :=
  _ ← check (maxstacksize pt <=? MAXSTACK);
  _ ← check (numparams pt + Z.land (is_vararg pt) VARARG_HASARG <=? maxstacksize pt);
  _ ← check (negb (ctrue (Z.land (is_vararg pt) VARARG_NEEDSARG)) || ctrue (Z.land (is_vararg pt) VARARG_HASARG));
  _ ← check (sizeupvalues pt <=? nups pt);
  _ ← check ((sizelineinfo pt =? sizecode pt) || (sizelineinfo pt =? 0));
  _ ← check (0 <? sizecode pt);
  i ← code_at pt (sizecode pt - 1);
  check (is_op i OP_RETURN).

Definition luaG_checkopenop (i : Z) : checked unit :=
  match op_of (GET_OPCODE i) with
  | Some (OP_CALL | OP_TAILCALL | OP_RETURN | OP_SETLIST) => check (GETARG_B i =? 0)
  | _ => Reject
  end.

Definition checkopenop (pt : Proto) (pc : Z) : checked unit := i ← code_at pt (pc + 1); luaG_checkopenop i.

Definition checkArgMode (pt : Proto) (r : Z) (mode : OpArgMask) : checked unit :=
  match mode with
  | OpArgN => check (r =? 0)
  | OpArgU => Pass tt
  | OpArgR => checkreg pt r
  | OpArgK => check (if ISK r then INDEXK r <? sizek pt else r <? maxstacksize pt)
  end.

(** An instruction that takes its count from the next word. *)
Definition counts_next (i : Z) : bool := is_op i OP_SETLIST && (GETARG_C i =? 0).

(** The loop over the words before [dest]: how many of them in a row look like such an instruction. *)
Fixpoint setlists_before (fuel : nat) (pt : Proto) (dest j : Z) : checked Z :=
  match fuel with
  | O => Pass j
  | S fuel =>
      if j <? dest then
        d ← code_at pt (dest - 1 - j);
        if counts_next d then setlists_before fuel pt dest (j + 1) else Pass j
      else Pass j
  end.

(** The arguments of an instruction, checked by its modes. *)
Definition check_args (pt : Proto) (pc i : Z) (op : OpCode) : checked (Z * Z) :=
  match getOpMode op with
  | iABC =>
      let b := GETARG_B i in
      let c := GETARG_C i in
      _ ← checkArgMode pt b (getBMode op);
      _ ← checkArgMode pt c (getCMode op);
      Pass (b, c)
  | iABx =>
      let b := GETARG_Bx i in
      _ ← match getBMode op with OpArgK => check (b <? sizek pt) | _ => Pass tt end;
      Pass (b, 0)
  | iAsBx =>
      let b := GETARG_sBx i in
      _ ← match getBMode op with
          | OpArgR =>
              let dest := pc + 1 + b in
              _ ← check ((0 <=? dest) && (dest <? sizecode pt));
              if 0 <? dest then j ← setlists_before (Z.to_nat dest) pt dest 0; check (Z.land j 1 =? 0) else Pass tt
          | _ => Pass tt
          end;
      Pass (b, 0)
  end.

(** The words that give a closure its upvalues. *)
Fixpoint closure_words (n : nat) (pt : Proto) (pc j : Z) : checked unit :=
  match n with
  | O => Pass tt
  | S n =>
      i ← code_at pt (pc + j);
      _ ← check (is_op i OP_GETUPVAL || is_op i OP_MOVE);
      closure_words n pt pc (j + 1)
  end.

Definition jump_over (pc b lastpc reg : Z) : Z :=
  let dest := pc + 1 + b in
  if negb (reg =? NO_REG) && (pc <? dest) && (dest <=? lastpc) then pc + b else pc.

(** The checks of an opcode, and what it changes of [pc] and [last]. *)
Definition symb_op (pt : Proto) (lastpc reg pc last : Z) (op : OpCode) (a b c : Z) : checked (Z * Z) :=
  match op with
  | OP_LOADBOOL =>
      _ ← (if c =? 1 then
             _ ← check (pc + 2 <? sizecode pt);
             i ← code_at pt (pc + 1);
             check (negb (is_op i OP_SETLIST) || negb (GETARG_C i =? 0))
           else Pass tt);
      Pass (pc, last)
  | OP_LOADNIL => Pass (pc, if (a <=? reg) && (reg <=? b) then pc else last)
  | OP_GETUPVAL | OP_SETUPVAL => _ ← check (b <? nups pt); Pass (pc, last)
  | OP_GETGLOBAL | OP_SETGLOBAL => o ← elem (pt_k pt !! Z.to_nat b); _ ← check (ttisstring o); Pass (pc, last)
  | OP_SELF => _ ← checkreg pt (a + 1); Pass (pc, if reg =? a + 1 then pc else last)
  | OP_CONCAT => _ ← check (b <? c); Pass (pc, last)
  | OP_TFORLOOP =>
      _ ← check (1 <=? c);
      _ ← checkreg pt (a + 2 + c);
      Pass (pc, if a + 2 <=? reg then pc else last)
  | OP_FORLOOP | OP_FORPREP => _ ← checkreg pt (a + 3); Pass (jump_over pc b lastpc reg, last)
  | OP_JMP => Pass (jump_over pc b lastpc reg, last)
  | OP_CALL | OP_TAILCALL =>
      _ ← (if negb (b =? 0) then checkreg pt (a + b - 1) else Pass tt);
      let c := c - 1 in
      _ ← (if c =? LUA_MULTRET then checkopenop pt pc else if negb (c =? 0) then checkreg pt (a + c - 1) else Pass tt);
      Pass (pc, if a <=? reg then pc else last)
  | OP_RETURN =>
      let b := b - 1 in
      _ ← (if 0 <? b then checkreg pt (a + b - 1) else Pass tt);
      Pass (pc, last)
  | OP_SETLIST =>
      _ ← (if 0 <? b then checkreg pt (a + b) else Pass tt);
      if c =? 0 then _ ← check (pc + 1 <? sizecode pt - 1); Pass (pc + 1, last) else Pass (pc, last)
  | OP_CLOSURE =>
      _ ← check (b <? sizep pt);
      f ← elem (pt_p pt !! Z.to_nat b);
      let nup := nups f in
      _ ← check (pc + nup <? sizecode pt);
      _ ← closure_words (Z.to_nat nup) pt pc 1;
      Pass (if negb (reg =? NO_REG) then pc + nup else pc, last)
  | OP_VARARG =>
      _ ← check (ctrue (Z.land (is_vararg pt) VARARG_ISVARARG) && negb (ctrue (Z.land (is_vararg pt) VARARG_NEEDSARG)));
      let b := b - 1 in
      _ ← (if b =? LUA_MULTRET then checkopenop pt pc else Pass tt);
      _ ← checkreg pt (a + b - 1);
      Pass (pc, last)
  | _ => Pass (pc, last)
  end.

(** The body of the loop. *)
Definition symb_step (pt : Proto) (lastpc reg pc last : Z) : checked (Z * Z) :=
  i ← code_at pt pc;
  let a := GETARG_A i in
  match op_of (GET_OPCODE i) with
  | None => Reject
  | Some op =>
      _ ← checkreg pt a;
      '(b, c) ← check_args pt pc i op;
      let last := if testAMode op && (a =? reg) then pc else last in
      _ ← (if testTMode op then
             _ ← check (pc + 2 <? sizecode pt);
             n ← code_at pt (pc + 1);
             check (is_op n OP_JMP)
           else Pass tt);
      symb_op pt lastpc reg pc last op a b c
  end.

(** The loop; every turn moves [pc] forward. *)
Fixpoint symb_loop (fuel : nat) (pt : Proto) (lastpc reg pc last : Z) : checked Z :=
  if pc <? lastpc then
    match fuel with
    | O => Outside
    | S fuel => '(pc, last) ← symb_step pt lastpc reg pc last; symb_loop fuel pt lastpc reg (pc + 1) last
    end
  else Pass last.

(** The result is an instruction; 0 is the failure of a check. *)
Definition symbexec (pt : Proto) (lastpc reg : Z) : option Z :=
  match (_ ← precheck pt;
         last ← symb_loop (Z.to_nat lastpc) pt lastpc reg 0 (sizecode pt - 1);
         code_at pt last) with
  | Pass i => Some i
  | Reject => Some 0
  | Outside => None
  end.

Definition luaG_checkcode (pt : Proto) : option bool := i ← symbexec pt (sizecode pt) NO_REG; Some (negb (i =? 0)).

(** ** The interpreter's steps within a function *)

(** Where the interpreter goes from the instruction [i] at [pc]; after a call it goes on when the callee returns. *)
Definition vm_next (pt : Proto) (pc i : Z) (op : OpCode) : list Z :=
  match op with
  | OP_LOADBOOL => if GETARG_C i =? 0 then [pc + 1] else [pc + 2]
  | OP_JMP | OP_FORPREP => [pc + 1 + GETARG_sBx i]
  | OP_FORLOOP => [pc + 1; pc + 1 + GETARG_sBx i]
  | OP_EQ | OP_LT | OP_LE | OP_TEST | OP_TESTSET | OP_TFORLOOP =>
      [pc + 2; pc + 2 + GETARG_sBx (default 0 (ld (pt_code pt) (pc + 1)))]
  | OP_RETURN => []
  | OP_SETLIST => if GETARG_C i =? 0 then [pc + 2] else [pc + 1]
  | OP_CLOSURE => [pc + 1 + default 0 (nups <$> (pt_p pt !! Z.to_nat (GETARG_Bx i)))]
  | _ => [pc + 1]
  end.

(** An operand is a register or a constant. *)
Definition rk_reg (x : Z) : list Z := if ISK x then [] else [x].
Definition rk_const (x : Z) : list Z := if ISK x then [INDEXK x] else [].

(** The words behind an [OP_CLOSURE], one for each upvalue of the new closure: what it captures. *)
Definition captured (pt : Proto) (pc i : Z) : list Z :=
  take (Z.to_nat (default 0 (nups <$> (pt_p pt !! Z.to_nat (GETARG_Bx i))))) (drop (Z.to_nat (pc + 1)) (pt_code pt)).

(** The registers that the instruction at [pc] reads, writes and captures; for a count of 0 up to the top that the last call has set. *)
Definition vm_regs (pt : Proto) (pc i : Z) (op : OpCode) : list Z :=
  let a := GETARG_A i in
  let b := GETARG_B i in
  let c := GETARG_C i in
  match op with
  | OP_MOVE | OP_UNM | OP_NOT | OP_LEN | OP_TESTSET => [a; b]
  | OP_LOADK | OP_LOADBOOL | OP_GETUPVAL | OP_GETGLOBAL | OP_SETGLOBAL | OP_SETUPVAL | OP_NEWTABLE | OP_TEST => [a]
  | OP_CLOSURE => a :: map GETARG_B (filter (λ w, is_op w OP_GETUPVAL = false) (captured pt pc i))
  | OP_LOADNIL => b :: seqZ a (b - a)
  | OP_GETTABLE => [a; b] ++ rk_reg c
  | OP_SETTABLE => [a] ++ rk_reg b ++ rk_reg c
  | OP_SELF => [a; a + 1; b] ++ rk_reg c
  | OP_ADD | OP_SUB | OP_MUL | OP_DIV | OP_MOD | OP_POW => [a] ++ rk_reg b ++ rk_reg c
  | OP_CONCAT => [a; b] ++ seqZ b (c - b + 1)
  | OP_JMP | OP_CLOSE => []
  | OP_EQ | OP_LT | OP_LE => rk_reg b ++ rk_reg c
  | OP_CALL | OP_TAILCALL => [a] ++ seqZ a b ++ seqZ a (c - 1)
  | OP_RETURN => seqZ a (b - 1)
  | OP_FORLOOP | OP_FORPREP => [a; a + 1; a + 2; a + 3]
  | OP_TFORLOOP => [a; a + 1; a + 2; a + 3; a + 4; a + 5] ++ seqZ (a + 3) c
  | OP_SETLIST => [a] ++ seqZ (a + 1) b
  | OP_VARARG => seqZ a (b - 1)
  end.

(** The constants that it reads. *)
Definition vm_consts (i : Z) (op : OpCode) : list Z :=
  match op with
  | OP_LOADK | OP_GETGLOBAL | OP_SETGLOBAL => [GETARG_Bx i]
  | OP_GETTABLE | OP_SELF => rk_const (GETARG_C i)
  | OP_SETTABLE | OP_ADD | OP_SUB | OP_MUL | OP_DIV | OP_MOD | OP_POW | OP_EQ | OP_LT | OP_LE =>
      rk_const (GETARG_B i) ++ rk_const (GETARG_C i)
  | _ => []
  end.

(** The upvalues of the running closure that it uses, or hands to a new closure. *)
Definition vm_upvals (pt : Proto) (pc i : Z) (op : OpCode) : list Z :=
  match op with
  | OP_GETUPVAL | OP_SETUPVAL => [GETARG_B i]
  | OP_CLOSURE => map GETARG_B (filter (λ w, is_op w OP_GETUPVAL = true) (captured pt pc i))
  | _ => []
  end.

(** A step of the interpreter, and what it must find at a place of the code. *)
Definition vm_step (pt : Proto) (pc pc' : Z) : Prop :=
  ∃ i op, ld (pt_code pt) pc = Some i ∧ op_of (GET_OPCODE i) = Some op ∧ pc' ∈ vm_next pt pc i op.

(** Beyond the frame: the call of a generic for uses registers up to the sixth. *)
Definition beyond (op : OpCode) : Z := match op with OP_TFORLOOP => 2 | _ => 0 end.

Record fits_frame (pt : Proto) (pc i : Z) (op : OpCode) : Prop := {
  ff_regs : ∀ r, r ∈ vm_regs pt pc i op → 0 <= r < maxstacksize pt + beyond op;
  ff_consts : ∀ c, c ∈ vm_consts i op → ∃ o, pt_k pt !! Z.to_nat c = Some o ∧
    (op = OP_GETGLOBAL ∨ op = OP_SETGLOBAL → ttisstring o = true);
  ff_upvals : ∀ u, u ∈ vm_upvals pt pc i op → 0 <= u < nups pt;
  ff_closure : op = OP_CLOSURE → ∃ f, pt_p pt !! Z.to_nat (GETARG_Bx i) = Some f ∧ length (captured pt pc i) = Z.to_nat (nups f) }.

(** The compiler makes [OP_LOADBOOL] with 0 or 1 in C. *)
Definition loadbools_01 (pt : Proto) : bool :=
  forallb (λ i, negb (is_op i OP_LOADBOOL) || (GETARG_C i <=? 1)) (pt_code pt).

(** ** Checks that pass *)

Lemma bind_Pass {A B} (r : checked A) (f : A → checked B) b : r ≫= f = Pass b → ∃ a, r = Pass a ∧ f a = Pass b.
Proof. destruct r; cbn; [eauto|done..]. Qed.

Lemma check_Pass b u : check b = Pass u → b = true.
Proof. by destruct b. Qed.

Lemma elem_Pass {A} (o : option A) a : elem o = Pass a → o = Some a.
Proof. destruct o; cbn; congruence. Qed.

Lemma checkreg_Pass pt r u : checkreg pt r = Pass u → r < maxstacksize pt.
Proof. intros H%check_Pass%Z.ltb_lt. done. Qed.

(** Takes apart the checks that have passed. *)
Ltac passed :=
  repeat match goal with
  | H : (_ ≫= _) = Pass _ |- _ => let x := fresh "x" in let E := fresh "E" in apply bind_Pass in H as (x & E & H)
  | H : check _ = Pass _ |- _ => apply check_Pass in H
  | H : checkreg _ _ = Pass _ |- _ => apply checkreg_Pass in H
  | H : elem _ = Pass _ |- _ => apply elem_Pass in H
  | H : code_at _ _ = Pass _ |- _ => apply elem_Pass in H
  | H : Pass _ = Pass _ |- _ => injection H as H
  | H : (_, _) = (_, _) |- _ => injection H as H
  | H : Reject = Pass _ |- _ => discriminate H
  | H : Outside = Pass _ |- _ => discriminate H
  | H : _ && _ = true |- _ => apply andb_true_iff in H as [? ?]
  | H : (_ <? _) = true |- _ => apply Z.ltb_lt in H
  | H : (_ <=? _) = true |- _ => apply Z.leb_le in H
  | H : (_ =? _) = true |- _ => apply Z.eqb_eq in H
  | H : (_ =? _) = false |- _ => apply Z.eqb_neq in H
  end.

(** ** Which words are instructions *)

(** The word at [n] is not the count of an instruction before it. *)
Fixpoint plain (l : list Z) (n : nat) : bool :=
  match n with
  | O => true
  | S n => negb (plain l n && match l !! n with Some i => counts_next i | None => false end)
  end.

Definition at_instr (pt : Proto) (pc : Z) : Prop := 0 <= pc < sizecode pt ∧ plain (pt_code pt) (Z.to_nat pc) = true.

Lemma plain_succ pt pc i : 0 <= pc → ld (pt_code pt) pc = Some i →
  plain (pt_code pt) (Z.to_nat (pc + 1)) = negb (plain (pt_code pt) (Z.to_nat pc) && counts_next i).
Proof. intros Hpc [_ E]%ld_Some_iff. replace (Z.to_nat (pc + 1)) with (S (Z.to_nat pc)) by lia. cbn [plain]. by rewrite E. Qed.

(** The words before [dest] alternate, so an even number of them leaves an instruction at [dest]. *)
Lemma setlists_parity pt : ∀ fuel dest j j', 0 <= j <= dest → dest <= sizecode pt → (Z.to_nat (dest - j) <= fuel)%nat →
  setlists_before fuel pt dest j = Pass j' → j <= j' ∧
  (plain (pt_code pt) (Z.to_nat (dest - j)) = Z.even (j' - j)).
Proof.
  induction fuel as [|fuel IH]; intros dest j j' Hj Hd Hf E; cbn [setlists_before] in E.
  - passed. subst j'. replace (dest - j) with 0 by lia. rewrite Z.sub_diag. split; [lia|done].
  - destruct (Z.ltb_spec j dest) as [Hlt|Hge].
    + apply bind_Pass in E as (d & Hc & E). apply elem_Pass in Hc.
      destruct (counts_next d) eqn:Hcn.
      * apply IH in E as [H1 H2]; [|lia..]. split; [lia|]. replace (dest - 1 - j) with (dest - (j + 1)) in Hc by lia.
        replace (dest - j) with (dest - (j + 1) + 1) by lia.
        rewrite (plain_succ pt _ d) by (done || lia). rewrite H2, Hcn, andb_true_r.
        replace (j' - j) with (Z.succ (j' - (j + 1))) by lia. by rewrite Z.even_succ, Z.negb_even.
      * passed. subst j'. split; [lia|]. replace (dest - j) with (dest - 1 - j + 1) by lia.
        rewrite (plain_succ pt _ d) by (done || lia). by rewrite Hcn, andb_false_r, Z.sub_diag.
    + passed. subst j'. replace (dest - j) with 0 by lia. rewrite Z.sub_diag. split; [lia|done].
Qed.

(** ** The loop visits every instruction *)

Lemma jump_over_check pc b lastpc : jump_over pc b lastpc NO_REG = pc.
Proof. done. Qed.

(** Without a register to trace, only a count is stepped over. *)
Lemma step_next pt lastpc pc last pc' last' i : ld (pt_code pt) pc = Some i →
  symb_step pt lastpc NO_REG pc last = Pass (pc', last') →
  pc' = (if counts_next i then pc + 1 else pc) ∧ (counts_next i = true → pc + 1 < sizecode pt - 1).
Proof.
  intros Hi E. unfold symb_step in E. apply bind_Pass in E as (i' & Hi' & E). passed. simplify_eq.
  destruct (op_of (GET_OPCODE i)) as [op|] eqn:Hop; [|done]. cbv zeta in E.
  apply bind_Pass in E as (u & _ & E). apply bind_Pass in E as ([b c] & Harg & E). apply bind_Pass in E as (u' & _ & E).
  assert (c = (match getOpMode op with iABC => GETARG_C i | _ => 0 end)) as ->.
  { unfold check_args in Harg. destruct (getOpMode op); passed; by subst. }
  unfold counts_next. rewrite (is_op_eq i op) by done. unfold symb_op in E.
  destruct op; cbn in E; try rewrite !jump_over_check in E; rewrite ?bool_decide_false by done; cbn [andb];
    try (passed; split; [by subst|done]).
  rewrite bool_decide_true by done. cbn [andb]. destruct (GETARG_C i =? 0); passed; subst; split; (done || lia).
Qed.

Lemma loop_visits pt lastpc : ∀ fuel pc last l, 0 <= pc → plain (pt_code pt) (Z.to_nat pc) = true →
  symb_loop fuel pt lastpc NO_REG pc last = Pass l →
  ∀ q, pc <= q < lastpc → plain (pt_code pt) (Z.to_nat q) = true →
  ∃ last r, symb_step pt lastpc NO_REG q last = Pass r.
Proof.
  induction fuel as [|fuel IH]; intros pc last l Hpc Hp E q Hq Hpq; cbn [symb_loop] in E;
    (destruct (Z.ltb_spec pc lastpc); [|lia]); [done|].
  apply bind_Pass in E as ([pc' last'] & Hs & E). destruct (decide (q = pc)) as [->|Hne]; [eauto|].
  assert (∃ i, ld (pt_code pt) pc = Some i) as [i Hi].
  { unfold symb_step in Hs. apply bind_Pass in Hs as (i & Hi & _). apply elem_Pass in Hi. eauto. }
  destruct (step_next pt lastpc pc last pc' last' i Hi Hs) as [-> Hc].
  pose proof (plain_succ pt pc i Hpc Hi) as Hn. rewrite Hp in Hn. cbn [andb] in Hn.
  destruct (counts_next i) eqn:Hcn; cbn [negb] in Hn.
  - assert (q ≠ pc + 1) by (intros ->; congruence).
    assert (is_Some (pt_code pt !! Z.to_nat (pc + 1))) as [d Hd] by (apply lookup_lt_is_Some_2; unfold sizecode, msize in *; specialize (Hc eq_refl); lia).
    apply (IH (pc + 1 + 1) last' l); [lia| |done|lia|done].
    rewrite (plain_succ pt (pc + 1) d); [by rewrite Hn|lia|]. apply ld_Some_iff. split; [lia|done].
  - apply (IH (pc + 1) last' l); [lia|done|done|lia|done].
Qed.

Lemma step_Pass pt lastpc reg pc last r : symb_step pt lastpc reg pc last = Pass r →
  ∃ i op b c last', ld (pt_code pt) pc = Some i ∧ op_of (GET_OPCODE i) = Some op ∧ GETARG_A i < maxstacksize pt ∧
    check_args pt pc i op = Pass (b, c) ∧
    (testTMode op = true → pc + 2 < sizecode pt ∧ ∃ n, ld (pt_code pt) (pc + 1) = Some n ∧ is_op n OP_JMP = true) ∧
    symb_op pt lastpc reg pc last' op (GETARG_A i) b c = Pass r.
Proof.
  intros E. unfold symb_step in E. apply bind_Pass in E as (i & Hi & E). apply elem_Pass in Hi. cbv zeta in E.
  destruct (op_of (GET_OPCODE i)) as [op|] eqn:Hop; [|done].
  apply bind_Pass in E as (u & Ha & E). apply checkreg_Pass in Ha.
  apply bind_Pass in E as ([b c] & Harg & E). apply bind_Pass in E as (u' & Ht & E).
  exists i, op, b, c, (if testAMode op && (GETARG_A i =? reg) then pc else last). split_and!; try done.
  intros HT. rewrite HT in Ht. passed. eauto.
Qed.

(** ** What the checker has accepted *)

Section accepted.
Context (pt : Proto) (Hok : luaG_checkcode pt = Some true).

Lemma accepted_parts : (∃ u, precheck pt = Pass u) ∧
  ∃ last, symb_loop (Z.to_nat (sizecode pt)) pt (sizecode pt) NO_REG 0 (sizecode pt - 1) = Pass last.
Proof using Hok.
  unfold luaG_checkcode, symbexec in Hok. destruct (precheck pt) as [u| |]; cbn in Hok; [|done..].
  destruct (symb_loop _ _ _ _ _ _) as [l| |]; cbn in Hok; [eauto|done..].
Qed.

Lemma accepted_size : 0 < sizecode pt.
Proof using Hok. destruct accepted_parts as [[u Hp] _]. unfold precheck in Hp. passed. done. Qed.

Lemma accepted_last : ∃ i, ld (pt_code pt) (sizecode pt - 1) = Some i ∧ is_op i OP_RETURN = true.
Proof using Hok. destruct accepted_parts as [[u Hp] _]. unfold precheck in Hp. passed. eauto. Qed.

Lemma accepted_step pc : at_instr pt pc → ∃ last r, symb_step pt (sizecode pt) NO_REG pc last = Pass r.
Proof using Hok.
  intros [Hr Hp]. destruct accepted_parts as [_ [l Hl]].
  exact (loop_visits pt (sizecode pt) _ 0 _ l (Z.le_refl 0) eq_refl Hl pc Hr Hp).
Qed.

(** Only the last word is the last instruction, a return. *)
Lemma not_last pc i op : ld (pt_code pt) pc = Some i → op_of (GET_OPCODE i) = Some op → op ≠ OP_RETURN → pc + 1 < sizecode pt.
Proof using Hok.
  intros Hi Hop Hne. destruct accepted_last as (j & Hj & Hret). pose proof (ld_lt _ _ _ Hi). unfold sizecode in *.
  destruct (decide (pc = msize (pt_code pt) - 1)) as [->|]; [|lia]. rewrite Hi in Hj. simplify_eq.
  rewrite (is_op_eq _ op) in Hret by done. apply bool_decide_eq_true_1 in Hret. done.
Qed.

Lemma counts_op i op : op_of (GET_OPCODE i) = Some op → op ≠ OP_SETLIST → counts_next i = false.
Proof. intros Hop Hne. unfold counts_next. rewrite (is_op_eq i op) by done. by rewrite bool_decide_false. Qed.

Lemma at_succ pc i : at_instr pt pc → ld (pt_code pt) pc = Some i → pc + 1 < sizecode pt → counts_next i = false → at_instr pt (pc + 1).
Proof. intros [Hr Hp] Hi Hlt Hc. split; [lia|]. rewrite (plain_succ pt pc i) by (done || lia). by rewrite Hc, andb_false_r. Qed.

(** The next word, for an instruction that is not a return and takes no count. *)
Lemma at_next pc i op : at_instr pt pc → ld (pt_code pt) pc = Some i → op_of (GET_OPCODE i) = Some op →
  op ≠ OP_RETURN → op ≠ OP_SETLIST → at_instr pt (pc + 1).
Proof using Hok. intros Ha Hi Hop H1 H2. apply (at_succ pc i); [done..|by apply (not_last pc i op)|by apply (counts_op i op)]. Qed.

(** A jump that is checked leads to an instruction. *)
Lemma at_jump pc i op b c : ld (pt_code pt) pc = Some i → getOpMode op = iAsBx → getBMode op = OpArgR →
  check_args pt pc i op = Pass (b, c) → b = GETARG_sBx i ∧ at_instr pt (pc + 1 + GETARG_sBx i).
Proof.
  intros Hi Hm Hb E. unfold check_args in E. rewrite Hm, Hb in E. cbv zeta in E. passed. subst. split; [done|].
  set (dest := pc + 1 + GETARG_sBx i) in *. destruct (Z.ltb_spec 0 dest) as [Hd|Hd].
  - passed. split; [lia|]. match goal with H : setlists_before _ _ _ _ = Pass _ |- _ =>
      destruct (setlists_parity pt (Z.to_nat dest) dest 0 _ ltac:(lia) ltac:(lia) ltac:(lia) H) as [_ Hp] end.
    rewrite Z.sub_0_r in Hp. rewrite Hp, Z.sub_0_r.
    match goal with H : Z.land ?j 1 = 0 |- _ => change 1 with (Z.ones 1) in H; rewrite Z.land_ones, Zmod_even in H by done; by destruct (Z.even j) end.
  - split; [lia|]. by replace (Z.to_nat dest) with O by lia.
Qed.

(** After the words of a closure there is an instruction. *)
Lemma closure_words_at : ∀ n pc j u, closure_words n pt pc j = Pass u → at_instr pt (pc + j) →
  at_instr pt (pc + j + Z.of_nat n).
Proof using Hok.
  induction n as [|n IH]; intros pc j u E Ha; [by rewrite Z.add_0_r|]. cbn [closure_words] in E.
  apply bind_Pass in E as (i & Hi & E). apply elem_Pass in Hi. apply bind_Pass in E as (u' & Hc & E). apply check_Pass in Hc.
  replace (pc + j + Z.of_nat (S n)) with (pc + (j + 1) + Z.of_nat n) by lia. apply (IH pc (j + 1) u E). rewrite Z.add_assoc.
  unfold is_op in Hc. apply orb_true_iff in Hc. rewrite !bool_decide_eq_true in Hc.
  destruct Hc as [Hc|Hc]; by apply (at_next (pc + j) i _ Ha Hi Hc).
Qed.

(** Each of the words is an instruction, and one of the two that may be there. *)
Lemma closure_words_each : ∀ n pc j u, closure_words n pt pc j = Pass u → at_instr pt (pc + j) →
  ∀ k, 0 <= k < Z.of_nat n → at_instr pt (pc + j + k) ∧ ∃ w op, ld (pt_code pt) (pc + j + k) = Some w ∧
    op_of (GET_OPCODE w) = Some op ∧ (op = OP_GETUPVAL ∨ op = OP_MOVE).
Proof using Hok.
  induction n as [|n IH]; intros pc j u E Ha k Hk; [lia|]. cbn [closure_words] in E.
  apply bind_Pass in E as (i & Hi & E). apply elem_Pass in Hi. apply bind_Pass in E as (u' & Hc & E). apply check_Pass in Hc.
  unfold is_op in Hc. apply orb_true_iff in Hc. rewrite !bool_decide_eq_true in Hc. destruct (decide (k = 0)) as [->|Hne].
  - rewrite Z.add_0_r. split; [done|]. destruct Hc as [Hc|Hc]; eauto 10.
  - replace (pc + j + k) with (pc + (j + 1) + (k - 1)) by lia. apply (IH pc (j + 1) u E); [|lia]. rewrite Z.add_assoc.
    destruct Hc as [Hc|Hc]; by apply (at_next (pc + j) i _ Ha Hi Hc).
Qed.
End accepted.

Section safe.
Context (pt : Proto) (Hok : luaG_checkcode pt = Some true) (Hlb : loadbools_01 pt = true) (Hp : Forall lu_bytes (pt_p pt)).

Lemma loadbool_01 pc i : ld (pt_code pt) pc = Some i → op_of (GET_OPCODE i) = Some OP_LOADBOOL → GETARG_C i <= 1.
Proof using Hlb.
  intros [_ Hi]%ld_Some_iff Hop. unfold loadbools_01 in Hlb. rewrite forallb_forall in Hlb.
  specialize (Hlb i (proj1 (list_elem_of_In _ _) (list_elem_of_lookup_2 _ _ _ Hi))).
  rewrite (is_op_eq i OP_LOADBOOL), bool_decide_true in Hlb by done. cbn in Hlb. by apply Z.leb_le.
Qed.

(** The second word after a test, and the place that the jump between them leads to. *)
Lemma test_next pc i op : at_instr pt pc → ld (pt_code pt) pc = Some i → op_of (GET_OPCODE i) = Some op →
  testTMode op = true → at_instr pt (pc + 2) ∧ at_instr pt (pc + 2 + GETARG_sBx (default 0 (ld (pt_code pt) (pc + 1)))).
Proof using Hok.
  intros Ha Hi Hop HT. destruct (accepted_step pt Hok pc Ha) as (l & r & Hs).
  destruct (step_Pass _ _ _ _ _ _ Hs) as (i' & op' & b & c & l' & Hi' & Hop' & _ & _ & Ht & _). simplify_eq.
  destruct (Ht HT) as (Hlt & n & Hn & Hjmp). unfold is_op in Hjmp. apply bool_decide_eq_true_1 in Hjmp.
  assert (at_instr pt (pc + 1)) as Ha1 by (apply (at_next pt Hok pc i op); (done || by intros ->)).
  rewrite Hn. cbn [default]. replace (pc + 2) with (pc + 1 + 1) by lia. split.
  - by apply (at_next pt Hok (pc + 1) n OP_JMP).
  - destruct (accepted_step pt Hok _ Ha1) as (l1 & r1 & Hs1).
    destruct (step_Pass _ _ _ _ _ _ Hs1) as (j & opj & b1 & c1 & l2 & Hj & Hopj & _ & Harg & _). simplify_eq.
    by apply (at_jump pt (pc + 1) n OP_JMP b1 c1).
Qed.

(** Every step leads to an instruction. *)
Lemma step_at pc pc' : at_instr pt pc → vm_step pt pc pc' → at_instr pt pc'.
Proof using Hok Hlb Hp.
  intros Ha (i & op & Hi & Hop & Hin). destruct (accepted_step pt Hok pc Ha) as (l & r & Hs).
  destruct (step_Pass _ _ _ _ _ _ Hs) as (i' & op' & b & c & l' & Hi' & Hop' & _ & Harg & _ & Ho). simplify_eq.
  assert (op ≠ OP_RETURN → op ≠ OP_SETLIST → at_instr pt (pc + 1)) as Hn by (intros; by apply (at_next pt Hok pc i op)).
  destruct op; cbn [vm_next] in Hin;
    try (rewrite list_elem_of_singleton in Hin; subst pc'; by apply Hn);
    try (apply elem_of_cons in Hin as [->|Hin%list_elem_of_singleton]; [|subst pc'];
         by apply (test_next pc i _ Ha Hi Hop)).
  - assert (c = GETARG_C i) as -> by (unfold check_args in Harg; cbn in Harg; passed; by subst).
    pose proof (loadbool_01 pc i Hi Hop). pose proof (GETARG_C_range i).
    destruct (Z.eqb_spec (GETARG_C i) 0); rewrite list_elem_of_singleton in Hin; subst pc'; [by apply Hn|].
    cbn in Ho. rewrite (proj2 (Z.eqb_eq (GETARG_C i) 1)) in Ho by lia. passed.
    match goal with H : ld _ (pc + 1) = Some ?n |- _ => rename n into w; rename H into Hw end.
    replace (pc + 2) with (pc + 1 + 1) by lia. apply (at_succ pt (pc + 1) w); [by apply Hn|done|lia|].
    unfold counts_next. match goal with Eo : _ || _ = true |- _ => destruct (orb_prop _ _ Eo) as [Eb%negb_true_iff|Eb%negb_true_iff]; rewrite Eb end; by rewrite ?andb_false_r.
  - rewrite list_elem_of_singleton in Hin. subst pc'. by apply (at_jump pt pc i OP_JMP b c).
  - by apply not_elem_of_nil in Hin.
  - apply elem_of_cons in Hin as [->|Hin%list_elem_of_singleton]; [by apply Hn|subst pc'; by apply (at_jump pt pc i OP_FORLOOP b c)].
  - rewrite list_elem_of_singleton in Hin. subst pc'. by apply (at_jump pt pc i OP_FORPREP b c).
  - assert (c = GETARG_C i) as -> by (unfold check_args in Harg; cbn in Harg; passed; by subst).
    assert (pc + 1 < sizecode pt) as Hlt by (apply (not_last pt Hok pc i OP_SETLIST); done).
    destruct Ha as [Hr Hpl]. assert (counts_next i = (GETARG_C i =? 0)) as Hc by (unfold counts_next; by rewrite (is_op_eq i OP_SETLIST), bool_decide_true).
    destruct (GETARG_C i =? 0) eqn:E0; rewrite list_elem_of_singleton in Hin; subst pc'; [|by apply (at_succ pt pc i)].
    destruct r as [pc' l1]. destruct (step_next pt _ pc l pc' l1 i Hi Hs) as [_ Hcn]. specialize (Hcn Hc).
    destruct (ld_in_range (pt_code pt) (pc + 1)) as [d Hd]; [unfold sizecode in *; lia|].
    split; [lia|]. replace (pc + 2) with (pc + 1 + 1) by lia.
    rewrite (plain_succ pt (pc + 1) d), (plain_succ pt pc i) by (done || lia). by rewrite Hpl, Hc.
  - rewrite list_elem_of_singleton in Hin. subst pc'.
    assert (b = GETARG_Bx i) as -> by (unfold check_args in Harg; cbn in Harg; passed; by subst). cbn in Ho. passed.
    match goal with H : pt_p pt !! _ = Some ?f |- _ => rewrite H; cbn [fmap option_fmap option_map default]; rename f into g end.
    match goal with H : closure_words _ _ _ _ = Pass _ |- _ => apply closure_words_at in H; [|done|by apply Hn];
      rewrite Z2Nat.id in H; [done|] end.
    assert (lu_bytes g) as [Hg _] by (eapply Forall_lookup_1; done). unfold byte_ok in Hg. lia.
Qed.
(** What the modes of the arguments say. *)
Lemma args_abc pc i op b c : check_args pt pc i op = Pass (b, c) → getOpMode op = iABC →
  b = GETARG_B i ∧ c = GETARG_C i ∧ checkArgMode pt b (getBMode op) = Pass tt ∧ checkArgMode pt c (getCMode op) = Pass tt.
Proof. intros E Hm. unfold check_args in E. rewrite Hm in E. cbv zeta in E. passed. subst. by destruct x, x0. Qed.

Lemma args_abx pc i op b c : check_args pt pc i op = Pass (b, c) → getOpMode op = iABx →
  b = GETARG_Bx i ∧ (getBMode op = OpArgK → b < sizek pt).
Proof. intros E Hm. unfold check_args in E. rewrite Hm in E. cbv zeta in E. passed. subst. split; [done|]. intros Hb. rewrite Hb in E0. by passed. Qed.

Lemma rk_reg_ok x r : 0 <= x → checkArgMode pt x OpArgK = Pass tt → r ∈ rk_reg x → 0 <= r < maxstacksize pt.
Proof.
  unfold rk_reg, checkArgMode. intros Hx E Hr. destruct (ISK x); [by apply not_elem_of_nil in Hr|].
  apply list_elem_of_singleton in Hr as ->. passed. done.
Qed.

Lemma const_in k : 0 <= k < sizek pt → ∃ o, pt_k pt !! Z.to_nat k = Some o.
Proof. intros Hk. apply lookup_lt_is_Some_2. unfold sizek in Hk. lia. Qed.

Lemma rk_const_ok x k : 0 <= x → checkArgMode pt x OpArgK = Pass tt → k ∈ rk_const x → ∃ o, pt_k pt !! Z.to_nat k = Some o.
Proof.
  unfold rk_const, checkArgMode. intros Hx E Hk. destruct (ISK x); [|by apply not_elem_of_nil in Hk].
  apply list_elem_of_singleton in Hk as ->. passed. apply const_in. split; [|done]. apply Z.ldiff_nonneg. by left.
Qed.

(** The arguments of an instruction and its checks, for a goal about one of its operands. *)
Ltac op_checks :=
  repeat match goal with
  | H : (if ?c then _ else _) = Pass _ |- _ => destruct c eqn:?
  | H : negb _ = true |- _ => apply negb_true_iff in H
  | H : negb _ = false |- _ => apply negb_false_iff in H
  | _ => progress passed
  end.

Ltac operands H :=
  repeat first [rewrite elem_of_cons in H | rewrite elem_of_app in H | rewrite elem_of_seqZ in H];
  repeat match type of H with
  | _ ∨ _ => destruct H as [H|H]
  | _ ∈ [] => by apply not_elem_of_nil in H
  end.

Lemma at_op pc i op : at_instr pt pc → ld (pt_code pt) pc = Some i → op_of (GET_OPCODE i) = Some op →
  GETARG_A i < maxstacksize pt ∧ ∃ b c l r, check_args pt pc i op = Pass (b, c) ∧
    symb_op pt (sizecode pt) NO_REG pc l op (GETARG_A i) b c = Pass r.
Proof using Hok.
  intros Ha Hi Hop. destruct (accepted_step pt Hok pc Ha) as (l & r & Hs).
  destruct (step_Pass _ _ _ _ _ _ Hs) as (i' & op' & b & c & l' & Hi' & Hop' & HA & Harg & _ & Ho). simplify_eq. eauto 10.
Qed.

Ltac op_args Harg :=
  first [destruct (args_abc _ _ _ _ _ Harg eq_refl) as (-> & -> & HB & HC) | destruct (args_abx _ _ _ _ _ Harg eq_refl) as (-> & HB) | idtac].

(** The words that an [OP_CLOSURE] takes. *)
Lemma closure_captures pc i : at_instr pt pc → ld (pt_code pt) pc = Some i → op_of (GET_OPCODE i) = Some OP_CLOSURE →
  ∃ f, pt_p pt !! Z.to_nat (GETARG_Bx i) = Some f ∧ length (captured pt pc i) = Z.to_nat (nups f) ∧
    ∀ w, w ∈ captured pt pc i → ∃ q op, at_instr pt q ∧ ld (pt_code pt) q = Some w ∧ op_of (GET_OPCODE w) = Some op ∧ (op = OP_GETUPVAL ∨ op = OP_MOVE).
Proof using Hok.
  intros Ha Hi Hop. destruct (at_op pc i _ Ha Hi Hop) as (_ & b & c & l & x & Harg & Ho).
  assert (b = GETARG_Bx i) as -> by (unfold check_args in Harg; cbn in Harg; passed; by subst). cbn in Ho. passed.
  match goal with H : pt_p pt !! _ = Some ?g |- _ => rename g into f; rename H into Hf end. exists f. split; [done|].
  match goal with H : closure_words _ _ _ _ = Pass _ |- _ => pose proof (closure_words_each pt Hok _ _ _ _ H) as Heach end.
  specialize (Heach (at_next pt Hok pc i _ Ha Hi Hop ltac:(done) ltac:(done))). assert (captured pt pc i = take (Z.to_nat (nups f)) (drop (Z.to_nat (pc + 1)) (pt_code pt))) as -> by (unfold captured; by rewrite Hf).
  destruct Ha as [Hr _]. assert (Z.to_nat (pc + 1) + Z.to_nat (nups f) <= length (pt_code pt))%nat as Hlen.
  { destruct (decide (nups f <= 0)); [unfold sizecode, msize in *; lia|]. destruct (Heach (nups f - 1) ltac:(lia)) as [[Hl _] _]. unfold sizecode, msize in *. lia. }
  split; [rewrite length_take, length_drop; lia|]. intros w (k & Hw)%list_elem_of_lookup. apply lookup_take_Some in Hw as [Hw Hk]. rewrite lookup_drop in Hw.
  destruct (Heach (Z.of_nat k) ltac:(lia)) as (Hq & w' & op & Hw' & Hopw & Hor). exists (pc + 1 + Z.of_nat k), op.
  assert (w' = w) as ->; [|done]. apply ld_Some_iff in Hw' as [_ Hw']. replace (Z.to_nat (pc + 1 + Z.of_nat k)) with (Z.to_nat (pc + 1) + k)%nat in Hw' by lia. congruence.
Qed.

(** What a captured word checks. *)
Lemma captured_fits pc i w : at_instr pt pc → ld (pt_code pt) pc = Some i → op_of (GET_OPCODE i) = Some OP_CLOSURE → w ∈ captured pt pc i →
  if is_op w OP_GETUPVAL then 0 <= GETARG_B w < nups pt else 0 <= GETARG_B w < maxstacksize pt.
Proof using Hok.
  intros Ha Hi Hop Hw. destruct (closure_captures pc i Ha Hi Hop) as (_ & _ & _ & Hall). destruct (Hall w Hw) as (q & op & Hq & Hwq & Hopw & Hor).
  destruct (at_op q w op Hq Hwq Hopw) as (_ & b & c & l & x & Harg & Ho). pose proof (GETARG_B_range w). rewrite (is_op_eq w op) by done.
  destruct Hor as [-> | ->]; op_args Harg; cbn in Ho; try cbn in HB; op_checks; rewrite ?bool_decide_true, ?bool_decide_false by done; lia.
Qed.

Lemma at_regs pc i op r : at_instr pt pc → ld (pt_code pt) pc = Some i → op_of (GET_OPCODE i) = Some op →
  r ∈ vm_regs pt pc i op → 0 <= r < maxstacksize pt + beyond op.
Proof using Hok.
  intros Ha Hi Hop Hr. destruct (decide (op = OP_CLOSURE)) as [->|Hncl].
  { cbn [vm_regs beyond] in *. rewrite Z.add_0_r. apply elem_of_cons in Hr as [->|(w & -> & [Hg Hw]%list_elem_of_filter)%list_elem_of_fmap].
    - destruct (at_op pc i _ Ha Hi Hop) as [HA _]. pose proof (GETARG_A_range i). lia.
    - pose proof (captured_fits pc i w Ha Hi Hop Hw) as H. by rewrite Hg in H. } destruct (at_op pc i op Ha Hi Hop) as (HA & b & c & l & x & Harg & Ho).
  pose proof (GETARG_A_range i). pose proof (GETARG_B_range i). pose proof (GETARG_C_range i).
  destruct op; try (destruct (Hncl eq_refl)); op_args Harg; cbn in Ho, Hr; unfold beyond; rewrite ?Z.add_0_r; operands Hr;
    try (apply rk_reg_ok in Hr; [done|lia|done]); try lia;
    try cbn in HB; try cbn in HC; op_checks; unfold LUA_MULTRET in *; lia.
Qed.

Lemma at_consts pc i op k : at_instr pt pc → ld (pt_code pt) pc = Some i → op_of (GET_OPCODE i) = Some op →
  k ∈ vm_consts i op → ∃ o, pt_k pt !! Z.to_nat k = Some o ∧ (op = OP_GETGLOBAL ∨ op = OP_SETGLOBAL → ttisstring o = true).
Proof using Hok.
  intros Ha Hi Hop Hk. destruct (at_op pc i op Ha Hi Hop) as (HA & b & c & l & x & Harg & Ho).
  pose proof (GETARG_B_range i). pose proof (GETARG_C_range i). pose proof (GETARG_Bx_range i).
  destruct op; op_args Harg; cbn in Ho, Hk; operands Hk;
    try (apply rk_const_ok in Hk as [o Ho']; [|lia|done]; exists o; split; [done|by intros [?|?]]); subst k;
    try (op_checks; eexists; split; [eassumption|by intros _]).
  destruct (const_in (GETARG_Bx i)) as [o Ho']; [specialize (HB eq_refl); lia|]. exists o. split; [done|by intros [?|?]].
Qed.

Lemma at_fits pc i op : at_instr pt pc → ld (pt_code pt) pc = Some i → op_of (GET_OPCODE i) = Some op → fits_frame pt pc i op.
Proof using Hok.
  intros Ha Hi Hop. destruct (at_op pc i op Ha Hi Hop) as (HA & b & c & l & x & Harg & Ho). split.
  - intros r Hr. by apply (at_regs pc i).
  - intros k Hk. by apply (at_consts pc i).
  - intros u Hu. pose proof (GETARG_B_range i). destruct (decide (op = OP_CLOSURE)) as [->|Hncl].
    { apply list_elem_of_fmap in Hu as (w & -> & [Hg Hw]%list_elem_of_filter). pose proof (captured_fits pc i w Ha Hi Hop Hw) as H'. by rewrite Hg in H'. }
    destruct op; try (destruct (Hncl eq_refl)); cbn in Hu; operands Hu; op_args Harg; cbn in Ho; op_checks; subst u; lia.
  - intros ->. destruct (closure_captures pc i Ha Hi Hop) as (f & ? & ? & _). eauto.
Qed.

End safe.

(** ** The checker and the interpreter *)

Lemma start_at pt : luaG_checkcode pt = Some true → at_instr pt 0.
Proof. intros Hok. pose proof (accepted_size pt Hok). split; [lia|done]. Qed.

(** C10: a function that the checker accepts is safe to run: from its first instruction, along any branch and jump, the
    interpreter only comes to places of the code that are instructions, never behind its end and never to a word that is a
    count; what each of them uses is there: its registers are in the frame (of a generic for, at most two beyond it), its
    constants, upvalues and functions exist, and the names of globals are strings; an [OP_CLOSURE] captures only registers
    of the frame and upvalues of the running closure. The only exception is an
    [OP_LOADBOOL] with more than 1 in C, which the compiler does not make. *)
Theorem checked_code_safe pt pc : luaG_checkcode pt = Some true → loadbools_01 pt = true → Forall lu_bytes (pt_p pt) →
  rtc (vm_step pt) 0 pc →
  ∃ i op, ld (pt_code pt) pc = Some i ∧ op_of (GET_OPCODE i) = Some op ∧ fits_frame pt pc i op.
Proof.
  intros Hok Hlb Hp Hrun.
  assert (at_instr pt pc) as Ha.
  { pose proof (start_at pt Hok) as H0. revert H0. induction Hrun as [|x y z Hxy _ IH]; [done|]. intros Hx. apply IH. by apply (step_at pt Hok Hlb Hp x). }
  destruct (accepted_step pt Hok pc Ha) as (l & r & Hs).
  destruct (step_Pass _ _ _ _ _ _ Hs) as (i & op & b & c & l' & Hi & Hop & _).
  exists i, op. split_and!; [done..|]. by apply (at_fits pt Hok pc).
Qed.

(** Places that follow one another. *)
Fixpoint vm_path (pt : Proto) (pc : Z) (l : list Z) : bool :=
  match l with
  | [] => true
  | q :: l =>
      match ld (pt_code pt) pc with
      | Some i => match op_of (GET_OPCODE i) with Some op => bool_decide (q ∈ vm_next pt pc i op) | None => false end
      | None => false
      end && vm_path pt q l
  end.

Lemma path_runs pt : ∀ l pc, vm_path pt pc l = true → rtc (vm_step pt) pc (fold_left (λ _ q, q) l pc).
Proof.
  induction l as [|q l IH]; intros pc H; cbn in H |- *; [constructor|]. apply andb_true_iff in H as [Hs Hl].
  eapply rtc_l; [|by apply IH]. destruct (ld (pt_code pt) pc) as [i|] eqn:Hi; [|done].
  destruct (op_of (GET_OPCODE i)) as [op|] eqn:Hop; [|done]. apply bool_decide_eq_true_1 in Hs. exists i, op. done.
Qed.

(** A function with a loop and a test: [x = 1; for i = 1, 2 do if i == x then print( i ) end end]. *)
Definition sample : Proto := MkProto
  [KString (Some [120]); KNumber (NInt 1); KNumber (NInt 2); KString (Some [112])]
  [CREATE_ABx 1 0 1; CREATE_ABx 7 0 0; CREATE_ABx 1 0 1; CREATE_ABx 1 1 2; CREATE_ABx 1 2 1; CREATE_ABx 32 0 (131071 + 6);
   CREATE_ABx 5 4 0; CREATE_ABC 23 0 3 4; CREATE_ABx 22 0 (131071 + 3); CREATE_ABx 5 4 3; CREATE_ABC 0 5 3 0;
   CREATE_ABC 28 4 2 1; CREATE_ABx 31 0 (131071 - 7); CREATE_ABC 30 0 1 0]
  [] [] [] [] None 0 0 0 0 2 6.

Lemma checked_code_safe_witness : ∃ i op, ld (pt_code sample) 12 = Some i ∧ op_of (GET_OPCODE i) = Some op ∧ fits_frame sample 12 i op.
Proof.
  apply checked_code_safe; [vm_compute; reflexivity|vm_compute; reflexivity|apply Forall_nil_2|].
  exact (path_runs sample [1; 2; 3; 4; 5; 12] 0 eq_refl).
Defined.

(** A function whose closure captures a register and an upvalue. *)
Definition captures : Proto :=
  MkProto [] [CREATE_ABx 36 0 0; CREATE_ABC 0 0 2 0; CREATE_ABC 4 0 1 0; CREATE_ABC 30 0 1 0]
    [MkProto [] [CREATE_ABC 30 0 1 0] [] [] [] [] None 0 0 2 0 0 2] [] [] [] None 0 0 2 0 0 3.

Example captures_checked : luaG_checkcode captures = Some true ∧
  vm_regs captures 0 (CREATE_ABx 36 0 0) OP_CLOSURE = [0; 2] ∧ vm_upvals captures 0 (CREATE_ABx 36 0 0) OP_CLOSURE = [1].
Proof. by vm_compute. Qed.

(** The checker looks at a C of 1 only, and the interpreter at any but 0: it accepts a function that leaves its code. *)
Definition skips_return : Proto := MkProto [] [CREATE_ABC 2 0 0 2; CREATE_ABC 30 0 1 0] [] [] [] [] None 0 0 0 0 0 1.

Example loadbool_escapes : luaG_checkcode skips_return = Some true ∧ vm_step skips_return 0 (sizecode skips_return).
Proof. split; [vm_compute; reflexivity|]. exists (CREATE_ABC 2 0 0 2), OP_LOADBOOL. split_and!; [done..|]. apply (bool_decide_unpack _). vm_compute. done. Qed.

(** ... and one that comes to a word that is a count, which may be anything. *)
Definition runs_count : Proto :=
  MkProto [] [CREATE_ABC 2 0 0 2; CREATE_ABC 34 0 0 0; 4294967295; CREATE_ABC 30 0 1 0] [] [] [] [] None 0 0 0 0 0 1.

Example loadbool_runs_count : luaG_checkcode runs_count = Some true ∧ vm_step runs_count 0 2 ∧ op_of (GET_OPCODE 4294967295) = None.
Proof. split; [vm_compute; reflexivity|]. split; [|done]. exists (CREATE_ABC 2 0 0 2), OP_LOADBOOL. split_and!; [done..|]. apply (bool_decide_unpack _). vm_compute. done. Qed.

(** The call of a generic for with one result: registers 4 and 5 of a frame of 4. *)
Definition small_for : Proto :=
  MkProto [] [CREATE_ABC 33 0 0 1; CREATE_ABx 22 0 131071; CREATE_ABC 30 0 1 0] [] [] [] [] None 0 0 0 0 0 4.

Example tforloop_beyond_frame : luaG_checkcode small_for = Some true ∧ 5 ∈ vm_regs small_for 0 (CREATE_ABC 33 0 0 1) OP_TFORLOOP ∧ maxstacksize small_for = 4.
Proof. split; [vm_compute; reflexivity|]. split; [|done]. apply (bool_decide_unpack _). vm_compute. done. Qed.

(** ** The checker stays in the arrays *)

Definition inside {A} (r : checked A) : Prop := match r with Outside => False | _ => True end.

Lemma inside_bind {A B} (r : checked A) (f : A → checked B) : inside r → (∀ a, r = Pass a → inside (f a)) → inside (r ≫= f).
Proof. destruct r; cbn; [eauto|done..]. Qed.

Lemma inside_check b : inside (check b).
Proof. by destruct b. Qed.

Lemma inside_code pt pc : 0 <= pc < sizecode pt → inside (code_at pt pc).
Proof. intros Hpc. unfold code_at. destruct (ld_in_range (pt_code pt) pc Hpc) as [v ->]. done. Qed.

Lemma inside_list {A} (l : list A) b : 0 <= b < Z.of_nat (length l) → inside (elem (l !! Z.to_nat b)).
Proof. intros Hb. destruct (lookup_lt_is_Some_2 l (Z.to_nat b)) as [v ->]; [lia|done]. Qed.

Lemma inside_argmode pt r mode : inside (checkArgMode pt r mode).
Proof. destruct mode; apply inside_check || done. Qed.

Lemma inside_openop i : inside (luaG_checkopenop i).
Proof. unfold luaG_checkopenop. destruct (op_of _) as [[]|]; apply inside_check || done. Qed.

Lemma inside_setlists pt : ∀ fuel dest j, 0 <= j → dest <= sizecode pt → inside (setlists_before fuel pt dest j).
Proof.
  induction fuel as [|fuel IH]; intros dest j Hj Hd; cbn [setlists_before]; [done|]. destruct (Z.ltb_spec j dest); [|done].
  apply inside_bind; [apply inside_code; lia|]. intros d _. destruct (counts_next d); [apply IH; lia|done].
Qed.

Lemma inside_closure pt : ∀ n pc j, 0 <= pc + j → pc + j + Z.of_nat n <= sizecode pt → inside (closure_words n pt pc j).
Proof.
  induction n as [|n IH]; intros pc j H0 H1; cbn [closure_words]; [done|].
  apply inside_bind; [apply inside_code; lia|]. intros i _. apply inside_bind; [apply inside_check|]. intros _ _. apply IH; lia.
Qed.

(** One step of these lemmas. *)
Ltac inside :=
  match goal with
  | |- inside (_ ≫= _) => apply inside_bind; [|intros ? ?]
  | |- inside (check _) => apply inside_check
  | |- inside (checkreg _ _) => apply inside_check
  | |- inside (checkArgMode _ _ _) => apply inside_argmode
  | |- inside (checkopenop _ _) => unfold checkopenop
  | |- inside (luaG_checkopenop _) => apply inside_openop
  | |- inside (if ?c then _ else _) => destruct c eqn:?
  | |- inside (let '(_, _) := ?x in _) => destruct x
  | |- inside (Pass _) => exact I
  | |- inside Reject => exact I
  end.

Lemma inside_precheck pt : inside (precheck pt).
Proof. unfold precheck. do 6 (inside; [inside|]). inside; [|inside]. passed. apply inside_code. lia. Qed.

Lemma inside_args pt pc i op : inside (check_args pt pc i op).
Proof.
  unfold check_args. destruct (getOpMode op); repeat inside; destruct (getBMode op); repeat inside.
  passed. apply inside_setlists; lia.
Qed.

Lemma args_sbx pt pc i op b c : check_args pt pc i op = Pass (b, c) → getOpMode op = iAsBx → b = GETARG_sBx i.
Proof. intros E Hm. unfold check_args in E. rewrite Hm in E. cbv zeta in E. passed. by subst. Qed.

Lemma inside_op pt lastpc reg pc last op i b c : Forall lu_bytes (pt_p pt) → 0 <= pc →
  (op ≠ OP_RETURN → pc + 1 < sizecode pt) → check_args pt pc i op = Pass (b, c) →
  inside (symb_op pt lastpc reg pc last op (GETARG_A i) b c).
Proof.
  intros Hp Hpc Hn Harg. pose proof (GETARG_Bx_range i).
  destruct op; cbn [symb_op]; cbv zeta; repeat inside; passed;
    try (apply inside_code; specialize (Hn ltac:(done)); lia).
  - destruct (args_abx _ _ _ _ _ _ Harg eq_refl) as (-> & HB). apply inside_list. specialize (HB eq_refl). unfold sizek in HB. lia.
  - destruct (args_abx _ _ _ _ _ _ Harg eq_refl) as (-> & HB). apply inside_list. specialize (HB eq_refl). unfold sizek in HB. lia.
  - destruct (args_abx _ _ _ _ _ _ Harg eq_refl) as (-> & _). apply inside_list. unfold sizep in *. lia.
  - match goal with H : pt_p pt !! _ = Some ?f |- _ => assert (lu_bytes f) as [Hf _] by (eapply Forall_lookup_1; done) end.
    unfold byte_ok in Hf. apply inside_closure; lia.
Qed.

(** Where the checks of an opcode leave [pc] and [last]. *)
Lemma op_moves pt lastpc reg pc last op i b c pc' last' : Forall lu_bytes (pt_p pt) → 0 <= pc < sizecode pt → 0 <= last < sizecode pt →
  symb_op pt lastpc reg pc last op (GETARG_A i) b c = Pass (pc', last') → pc <= pc' ∧ 0 <= last' < sizecode pt.
Proof.
  intros Hp Hpc Hl E. destruct op; cbn in E; passed; subst; unfold jump_over;
    repeat case_match; passed; subst; split; try lia.
  match goal with H : pt_p pt !! _ = Some ?f |- _ => assert (lu_bytes f) as [Hf _] by (eapply Forall_lookup_1; done) end.
  unfold byte_ok in Hf. lia.
Qed.

Lemma inside_loop pt lastpc reg : Forall lu_bytes (pt_p pt) → lastpc <= sizecode pt →
  (∃ i, ld (pt_code pt) (sizecode pt - 1) = Some i ∧ is_op i OP_RETURN = true) →
  ∀ fuel pc last, 0 <= pc → 0 <= last < sizecode pt → (Z.to_nat (lastpc - pc) <= fuel)%nat →
  ∃ r, symb_loop fuel pt lastpc reg pc last = r ∧ inside r ∧ ∀ l, r = Pass l → 0 <= l < sizecode pt.
Proof.
  intros Hp Hlast Hret. induction fuel as [|fuel IH]; intros pc last Hpc Hl Hf; cbn [symb_loop];
    (destruct (Z.ltb_spec pc lastpc); [|eexists; split; [done|]; split; [done|]; intros l E; by simplify_eq]); [lia|].
  eexists. split; [done|].
  assert (inside (symb_step pt lastpc reg pc last)) as Hs.
  { unfold symb_step. apply inside_bind; [apply inside_code; lia|]. intros i Hi. apply elem_Pass in Hi. cbv zeta.
    destruct (op_of (GET_OPCODE i)) as [op|] eqn:Hop; [|done].
    inside; [inside|]. apply inside_bind; [apply inside_args|]. intros [b c] Harg. apply inside_bind.
    { repeat inside. passed. apply inside_code. lia. }
    intros _ _. apply inside_op; [done..| |done]. intros Hne.
    destruct Hret as (j & Hj & Hret). destruct (decide (pc = sizecode pt - 1)) as [->|]; [|lia].
    rewrite Hi in Hj. simplify_eq. rewrite (is_op_eq _ op) in Hret by done. by apply bool_decide_eq_true_1 in Hret. }
  destruct (symb_step pt lastpc reg pc last) as [[pc' last']| |] eqn:E; cbn; [|done..].
  destruct (step_Pass _ _ _ _ _ _ E) as (i & op & b & c & l' & Hi & _ & _ & _ & _ & _).
  assert (pc <= pc' ∧ 0 <= last' < sizecode pt) as [Hpc' Hl'].
  { clear IH. unfold symb_step in E. unfold code_at in E. rewrite Hi in E. cbn [elem mbind checked_mbind checked_bind] in E. cbv zeta in E.
    destruct (op_of (GET_OPCODE i)) as [op'|]; [|done].
    apply bind_Pass in E as (u & _ & E). apply bind_Pass in E as ([b' c'] & _ & E). apply bind_Pass in E as (u' & _ & E).
    apply op_moves in E; [done|done|lia|]. destruct (testAMode op' && (GETARG_A i =? reg)); lia. }
  destruct (IH (pc' + 1) last') as (r & <- & Hr & Hrl); [lia..|]. done.
Qed.

(** C33: the checker itself is total: it ends, and whatever the words of a function that comes over the network or from a
    file are, it reads no word outside the code and no element outside the constants and functions; also when it traces
    a register up to a place for a message. *)
Theorem symbexec_total pt lastpc reg : Forall lu_bytes (pt_p pt) → lastpc <= sizecode pt → ∃ i, symbexec pt lastpc reg = Some i.
Proof.
  intros Hp Hlast. unfold symbexec. pose proof (inside_precheck pt) as Hpre.
  destruct (precheck pt) as [u| |] eqn:Epre; cbn [mbind checked_mbind checked_bind]; [|eauto|done].
  unfold precheck in Epre. passed.
  destruct (inside_loop pt lastpc reg Hp Hlast ltac:(eauto) (Z.to_nat lastpc) 0 (sizecode pt - 1)) as (r & -> & Hr & Hl); [lia..|].
  destruct r as [l| |]; cbn; [|eauto|done]. unfold code_at. destruct (ld_in_range (pt_code pt) l (Hl l eq_refl)) as [i ->]. cbn. eauto.
Qed.

Lemma symbexec_total_witness : ∃ i, symbexec runs_count 3 0 = Some i.
Proof. apply (symbexec_total runs_count 3 0); [apply Forall_nil_2|vm_compute; discriminate]. Defined.

(** ** What the checker looks at *)

(** Two functions with the same code, kinds of constants and numbers of upvalues. *)
Record same_shape (f g : Proto) : Prop := {
  ss_code : pt_code f = pt_code g;
  ss_k : map ttisstring (pt_k f) = map ttisstring (pt_k g);
  ss_p : map nups (pt_p f) = map nups (pt_p g);
  ss_vararg : is_vararg f = is_vararg g;
  ss_params : numparams f = numparams g;
  ss_stack : maxstacksize f = maxstacksize g;
  ss_nups : nups f = nups g }.

Section shape.
Context (f g : Proto) (Hs : same_shape f g).

Lemma shape_size : sizecode f = sizecode g.
Proof using Hs. unfold sizecode. by rewrite (ss_code _ _ Hs). Qed.

Lemma shape_code pc : code_at f pc = code_at g pc.
Proof using Hs. unfold code_at. by rewrite (ss_code _ _ Hs). Qed.

Lemma shape_k : sizek f = sizek g.
Proof using Hs. unfold sizek. f_equal. rewrite <- (length_map ttisstring (pt_k f)), (ss_k _ _ Hs). apply length_map. Qed.

Lemma shape_p : sizep f = sizep g.
Proof using Hs. unfold sizep. f_equal. rewrite <- (length_map nups (pt_p f)), (ss_p _ _ Hs). apply length_map. Qed.

(** A constant or a function of which only its kind or its upvalues are looked at. *)
Lemma elem_map {A B C} (k : A → B) (F : B → checked C) l n : (a ← elem (l !! n); F (k a)) = (b ← elem (map k l !! n); F b).
Proof. change (map k l) with (k <$> l). rewrite list_lookup_fmap. by destruct (l !! n). Qed.

Lemma shape_setlists : ∀ fuel dest j, setlists_before fuel f dest j = setlists_before fuel g dest j.
Proof using Hs. induction fuel as [|fuel IH]; intros dest j; cbn [setlists_before]; [done|]. rewrite shape_code. case_match; [|done]. destruct (code_at g _); cbn; [|done..]. by rewrite IH. Qed.

Lemma shape_words : ∀ n pc j, closure_words n f pc j = closure_words n g pc j.
Proof using Hs. induction n as [|n IH]; intros pc j; cbn [closure_words]; [done|]. rewrite shape_code. destruct (code_at g _); cbn; [|done..]. by rewrite IH. Qed.

Lemma shape_reg r : checkreg f r = checkreg g r.
Proof using Hs. unfold checkreg. by rewrite (ss_stack _ _ Hs). Qed.

Lemma shape_openop pc : checkopenop f pc = checkopenop g pc.
Proof using Hs. unfold checkopenop. by rewrite shape_code. Qed.

Lemma shape_mode r m : checkArgMode f r m = checkArgMode g r m.
Proof using Hs. unfold checkArgMode. by rewrite shape_reg, shape_k, (ss_stack _ _ Hs). Qed.

Lemma shape_args pc i op : check_args f pc i op = check_args g pc i op.
Proof using Hs. unfold check_args. cbv zeta. by rewrite !shape_mode, shape_k, shape_size, shape_setlists. Qed.

Lemma shape_op lastpc reg pc last op a b c : symb_op f lastpc reg pc last op a b c = symb_op g lastpc reg pc last op a b c.
Proof using Hs.
  destruct op; cbn [symb_op]; cbv zeta; rewrite ?shape_reg, ?shape_openop, ?shape_size, ?shape_p, ?(ss_nups _ _ Hs), ?(ss_vararg _ _ Hs); try done.
  - by rewrite shape_code.
  - rewrite (elem_map ttisstring (λ x, _ ← check x; Pass (pc, last)) (pt_k f)), (ss_k _ _ Hs). by rewrite <- elem_map.
  - rewrite (elem_map ttisstring (λ x, _ ← check x; Pass (pc, last)) (pt_k f)), (ss_k _ _ Hs). by rewrite <- elem_map.
  - f_equal.
    set (F h nup := _ ← check (pc + nup <? sizecode g); _ ← closure_words (Z.to_nat nup) h pc 1; Pass (if negb (reg =? NO_REG) then pc + nup else pc, last)).
    assert (∀ nup, F f nup = F g nup) as HF by (intros nup; unfold F; by rewrite shape_words).
    change ((λ _ : unit, x ← elem (pt_p f !! Z.to_nat b); F f (nups x)) = (λ _ : unit, x ← elem (pt_p g !! Z.to_nat b); F g (nups x))).
    rewrite (elem_map nups (F f)), (elem_map nups (F g)), (ss_p _ _ Hs).
    destruct (map nups (pt_p g) !! Z.to_nat b) as [n|]; cbn; [by rewrite HF|done].
Qed.

Lemma shape_loop : ∀ fuel lastpc reg pc last, symb_loop fuel f lastpc reg pc last = symb_loop fuel g lastpc reg pc last.
Proof using Hs.
  induction fuel as [|fuel IH]; intros lastpc reg pc last; cbn [symb_loop]; [done|]. case_match; [|done].
  assert (symb_step f lastpc reg pc last = symb_step g lastpc reg pc last) as ->.
  { unfold symb_step. rewrite !shape_code. destruct (code_at g pc) as [i| |]; cbn [mbind checked_mbind checked_bind]; [|done..].
    cbv zeta. destruct (op_of (GET_OPCODE i)) as [op|]; [|done]. rewrite shape_reg, shape_args, shape_size.
    destruct (checkreg g _); cbn [mbind checked_mbind checked_bind]; [|done..].
    destruct (check_args g _ _ _) as [[b c]| |]; cbn [mbind checked_mbind checked_bind]; [|done..]. by rewrite shape_op. }
  destruct (symb_step g _ _ _ _) as [[]| |]; cbn; [apply IH|done..].
Qed.

(** The names of upvalues and the lines may be left out. *)
Lemma check_shape : sizeupvalues g <= sizeupvalues f → sizelineinfo g = sizelineinfo f ∨ sizelineinfo g = 0 →
  luaG_checkcode f = Some true → luaG_checkcode g = Some true.
Proof using Hs.
  intros Hu Hl Hok. unfold luaG_checkcode, symbexec in *. rewrite shape_loop, shape_size in Hok.
  destruct (precheck f) as [[]| |] eqn:Ep; cbn [mbind checked_mbind checked_bind] in Hok; [|done..].
  assert (precheck g = Pass tt) as ->; [|by destruct (symb_loop _ g _ _ _ _); cbn in *; rewrite ?shape_code in Hok].
  unfold precheck in *. rewrite (ss_stack _ _ Hs), (ss_params _ _ Hs), (ss_vararg _ _ Hs), (ss_nups _ _ Hs), shape_size, shape_code in Ep.
  repeat (apply bind_Pass in Ep as (? & ?E & Ep)).
  repeat match goal with H : check _ = Pass _ |- _ => apply check_Pass in H end.
  assert (∀ b (r : checked unit), b = true → r = Pass tt → (_ ← check b; r) = Pass tt) as Hc by (by intros b r ->).
  do 3 (apply Hc; [assumption|]). apply Hc; [rewrite Z.leb_le in *; lia|].
  apply Hc; [rewrite !orb_true_iff, !Z.eqb_eq in *; lia|]. apply Hc; [assumption|].
  match goal with H : code_at g _ = Pass _ |- _ => rewrite H end. cbn [mbind checked_mbind checked_bind]. by rewrite Ep.
Qed.
End shape.
