(* ===== verification/LuaDump.v ===== *)
(** * Precompiled chunks: writing

    src/lua/ldump.c: a function is written for a target machine, which is not that which compiles it: its byte order, the
    size of its integers and its kind of numbers are in the header. The writer is the caller's. *)
From S2P Require Import Prelude LuaNum LuaOp.

Record DumpTargetInfo := Target {
  little_endian : bool; sizeof_int : Z; sizeof_strsize_t : Z; sizeof_lua_Number : Z; lua_Number_integral : bool; is_arm_fpa : bool }.

Definition LUA_ERR_CC_INTOVERFLOW := 101.
Definition LUA_ERR_CC_NOTINTEGER := 102.

Definition LUA_SIGNATURE : mem := [27; 76; 117; 97].
Definition LUAC_VERSION := 81.
Definition LUAC_FORMAT := 0.
Definition LUAC_HEADERSIZE := 12.
Definition sizeof_Instruction := 4.

Definition LUA_TNIL := 0.
Definition LUA_TBOOLEAN := 1.
Definition LUA_TNUMBER := 5.
Definition LUA_TSTRING := 6.

(** ** Single precision *)

(** [m / 2 ^ k] to the nearest, ties to even. *)
Definition round_shift (m k : Z) : Z :=
  let q := m / 2 ^ k in
  let r := m mod 2 ^ k in
  if (2 ^ k <? 2 * r) || ((2 * r =? 2 ^ k) && Z.odd q) then q + 1 else q.

(** [( float )z], which is an integer too. *)
Definition flt_of_int (z : Z) : Z :=
  let a := Z.abs z in
  let e := Z.log2 a in
  if e <=? 23 then z else Z.sgn z * (round_shift a (e - 23) * 2 ^ (e - 23)).

(** The bits of [( float )x] for a double. *)
Definition flt_of_dbl (bits : Z) : Z :=
  let s := if dbl_neg bits then 2 ^ 31 else 0 in
  let inf := 255 * 2 ^ 23 in
  if dbl_exp bits =? 2047 then
    if dbl_frac bits =? 0 then s + inf else s + Z.lor (255 * 2 ^ 23 + 2 ^ 22) (dbl_frac bits / 2 ^ 29)
  else if dbl_exp bits =? 0 then s
  else
    let m := 2 ^ 52 + dbl_frac bits in
    let e := dbl_exp bits - 1023 in
    if -126 <=? e then s + Z.min inf ((e + 126) * 2 ^ 23 + round_shift m 29)
    else s + round_shift m (29 + (-126 - e)).

Section dump.
Context {W : Type} (writer : mem → W → Z * W) (h : host) (target : DumpTargetInfo) (strip : bool).

Record DumpState := DState { d_status : Z; d_data : W }.

Definition set_status (v : Z) (D : DumpState) : DumpState := DState v (d_data D).

Definition DumpBlock (b : mem) (D : DumpState) : DumpState :=
  if d_status D =? 0 then let '(s, w) := writer b (d_data D) in DState s w else D.

Definition DumpChar (y : Z) (D : DumpState) : DumpState := DumpBlock [u8 y] D.

(** The bytes of an object of [numbersize] bytes: swapped from both ends to the middle. *)
Fixpoint swap_loop (n : nat) (i numbersize : Z) (number : mem) : mem :=
  match n with
  | O => number
  | S n =>
      let a := Z.to_nat i in
      let b := Z.to_nat (numbersize - 1 - i) in
      swap_loop n (i + 1) numbersize (<[b := nth a number 0]> (<[a := nth b number 0]> number))
  end.

Definition MaybeByteSwap (number : mem) (numbersize : Z) : mem :=
  if bool_decide (h_little h = little_endian target) then number
  else swap_loop (Z.to_nat (numbersize / 2)) 0 numbersize number.

Definition DumpIntWithSize (x sizeof_int : Z) (D : DumpState) : DumpState :=
  if sizeof_int =? 1 then
    let D := if (127 <? x) || (x <? -128) then set_status LUA_ERR_CC_INTOVERFLOW D else D in
    DumpChar x D
  else if sizeof_int =? 2 then
    let D := if (32767 <? x) || (x <? -32768) then set_status LUA_ERR_CC_INTOVERFLOW D else D in
    DumpBlock (MaybeByteSwap (host_bytes (h_little h) 2 x) 2) D
  else if sizeof_int =? 4 then
    let D := if (2147483646 <? x) || (x <? -2147483647) then set_status LUA_ERR_CC_INTOVERFLOW D else D in
    DumpBlock (MaybeByteSwap (host_bytes (h_little h) 4 x) 4) D
  else D.

Definition DumpInt (x : Z) (D : DumpState) : DumpState := DumpIntWithSize x (sizeof_int target) D.

(** [x] is an [int32_t]; only the last comparison is unsigned. *)
Definition DumpSize (x : Z) (D : DumpState) : DumpState :=
  if sizeof_strsize_t target =? 1 then
    let D := if 255 <? x then set_status LUA_ERR_CC_INTOVERFLOW D else D in
    DumpChar x D
  else if sizeof_strsize_t target =? 2 then
    let D := if 65535 <? x then set_status LUA_ERR_CC_INTOVERFLOW D else D in
    DumpBlock (MaybeByteSwap (host_bytes (h_little h) 2 x) 2) D
  else if sizeof_strsize_t target =? 4 then
    let D := if 4294967294 <? u32 x then set_status LUA_ERR_CC_INTOVERFLOW D else D in
    DumpBlock (MaybeByteSwap (host_bytes (h_little h) 4 x) 4) D
  else D.

(** A number; a double that does not fit an [int] has no cast. *)
Definition DumpNumber (x : lua_Number) (D : DumpState) : option DumpState :=
  match x with
  | NInt z => Some (DumpIntWithSize (signed 4 z) (sizeof_lua_Number target) D)
  | NDbl b =>
      if lua_Number_integral target then
        i ← num_to_int 4 x;
        let D := if negb (num_eqb (NDbl (dbl_of_int (flt_of_int i))) x) then set_status LUA_ERR_CC_NOTINTEGER D else D in
        Some (DumpIntWithSize i (sizeof_lua_Number target) D)
      else if sizeof_lua_Number target =? 4 then
        Some (DumpBlock (MaybeByteSwap (host_bytes (h_little h) 4 (flt_of_dbl b)) 4) D)
      else if sizeof_lua_Number target =? 8 then
        let y := host_bytes (h_little h) 8 b in
        let y := if is_arm_fpa target then drop 4 y ++ take 4 y else y in
        Some (DumpBlock (MaybeByteSwap y 8) D)
      else Some D
  end.

Fixpoint DumpInstructions (l : list Z) (D : DumpState) : DumpState :=
  match l with
  | [] => D
  | i :: l => DumpInstructions l (DumpBlock (MaybeByteSwap (host_bytes (h_little h) 4 i) sizeof_Instruction) D)
  end.

Definition DumpCode (f : Proto) (D : DumpState) : DumpState := DumpInstructions (pt_code f) (DumpInt (sizecode f) D).

(** A string, with its terminating zero. *)
Definition DumpString (s : option mem) (D : DumpState) : DumpState :=
  match s with
  | None => DumpSize 0 D
  | Some s =>
      let size := u32 (msize s + 1) in
      DumpBlock (take (Z.to_nat size) (s ++ [0])) (DumpSize (s32 size) D)
  end.

Definition DumpConstant (o : TConst) (D : DumpState) : option DumpState :=
  match o with
  | KNil => Some (DumpChar LUA_TNIL D)
  | KBool b => Some (DumpChar (cbool b) (DumpChar LUA_TBOOLEAN D))
  | KNumber x => DumpNumber x (DumpChar LUA_TNUMBER D)
  | KString s => Some (DumpString s (DumpChar LUA_TSTRING D))
  end.

Fixpoint DumpAll {A} (dump : A → DumpState → option DumpState) (l : list A) (D : DumpState) : option DumpState :=
  match l with [] => Some D | a :: l => D ← dump a D; DumpAll dump l D end.

Definition DumpLocVar (v : LocVar) (D : DumpState) : DumpState := DumpInt (endpc v) (DumpInt (startpc v) (DumpString (varname v) D)).

Definition DumpDebug (f : Proto) (D : DumpState) : option DumpState :=
  let lines := if strip then [] else lineinfo f in
  D ← DumpAll (λ x D, Some (DumpInt x D)) lines (DumpInt (msize lines) D);
  let vars := if strip then [] else locvars f in
  D ← DumpAll (λ v D, Some (DumpLocVar v D)) vars (DumpInt (Z.of_nat (length vars)) D);
  let ups := if strip then [] else upvalues f in
  DumpAll (λ s D, Some (DumpString s D)) ups (DumpInt (Z.of_nat (length ups)) D).

(** The fields before the code. *)
Definition DumpFields (f : Proto) (p : option mem) (D : DumpState) : DumpState :=
  let D := DumpString (if bool_decide (source f = p) || strip then None else source f) D in
  let D := DumpInt (linedefined f) D in
  let D := DumpInt (lastlinedefined f) D in
  let D := DumpChar (nups f) D in
  let D := DumpChar (numparams f) D in
  let D := DumpChar (is_vararg f) D in
  DumpChar (maxstacksize f) D.

(** A function, with those that are defined in it; a source that is that of the enclosing function is not repeated. *)
Fixpoint DumpFunction (f : Proto) (p : option mem) (D : DumpState) {struct f} : option DumpState :=
  let D := DumpCode f (DumpFields f p D) in
  D ← DumpAll DumpConstant (pt_k f) (DumpInt (sizek f) D);
  let D := DumpInt (sizep f) D in
  D ← match f with
      | MkProto _ _ ps _ _ _ src _ _ _ _ _ _ =>
          (fix dump (l : list Proto) (D : DumpState) : option DumpState :=
             match l with [] => Some D | q :: l => D ← DumpFunction q src D; dump l D end) ps D
      end;
  DumpDebug f D.

Definition DumpHeader (D : DumpState) : DumpState :=
  DumpBlock (LUA_SIGNATURE ++ [LUAC_VERSION; LUAC_FORMAT; cbool (little_endian target); u8 (sizeof_int target); u8 (sizeof_strsize_t target);
    sizeof_Instruction; u8 (sizeof_lua_Number target); cbool (lua_Number_integral target)]) D.

Definition luaU_dump_crosscompile (f : Proto) (data : W) : option (Z * W) :=
  D ← DumpFunction f None (DumpHeader (DState 0 data)); Some (d_status D, d_data D).
End dump.

Arguments DState {W} _ _.
Arguments d_status {W} _.
Arguments d_data {W} _.

(** The machine itself as the target, with an [int] of 32 bits. *)
Definition own_target (h : host) : DumpTargetInfo := Target (h_little h) 4 4 (h_bytes h) (h_intnum h) false.

Definition luaU_dump {W} (writer : mem → W → Z * W) (h : host) (strip : bool) (f : Proto) (data : W) : option (Z * W) :=
  luaU_dump_crosscompile writer h (own_target h) strip f data.

(** A writer into a buffer, as [string.dump] has it. *)
Definition append (b : mem) (out : mem) : Z * mem := (0, out ++ b).
