(* ===== verification/LuaUndump.v ===== *)
(** * Precompiled chunks: reading

    src/lua/lundump.c on the buffered input of src/lua/lzio.c: the blocks that the reader of the caller gives, of which an
    empty one is the end. Memory is not limited, except that a negative size is more than there is. *)
From S2P Require Import Prelude LuaNum LuaOp LuaCheck LuaDump.

(** ** The buffered input *)

(** The rest of the block, and the blocks that the reader has not given yet. *)
Record ZIO := Zio { z_p : mem; z_blocks : list mem }.

Definition EOZ := -1.

Definition luaZ_init (blocks : list mem) : ZIO := Zio [] blocks.

Definition luaZ_fill (z : ZIO) : Z * ZIO :=
  match z_blocks z with
  | [] => (EOZ, z)
  | b :: bs => match b with [] => (EOZ, Zio (z_p z) bs) | c :: b => (c, Zio b bs) end
  end.

Definition luaZ_lookahead (z : ZIO) : Z * ZIO :=
  match z_p z with
  | c :: _ => (c, z)
  | [] => let '(c, z) := luaZ_fill z in if c =? EOZ then (EOZ, z) else (c, Zio (c :: z_p z) (z_blocks z))
  end.

(** The bytes that have been read, and how many are missing. *)
Fixpoint luaZ_read_loop (fuel : nat) (z : ZIO) (b : mem) (n : nat) : mem * nat * ZIO :=
  match fuel with
  | O => (b, n, z)
  | S fuel =>
      if (n =? 0)%nat then (b, O, z)
      else
        let '(c, z) := luaZ_lookahead z in
        if c =? EOZ then (b, n, z)
        else
          let m := Nat.min n (length (z_p z)) in
          luaZ_read_loop fuel (Zio (drop m (z_p z)) (z_blocks z)) (b ++ take m (z_p z)) (n - m)
  end.

(** A block is used up in one turn, so two turns more than there are blocks are enough. *)
Definition luaZ_read (z : ZIO) (n : nat) : mem * nat * ZIO := luaZ_read_loop (S (S (length (z_blocks z)))) z [] n.

(** ** The reader of chunks *)

(** The machine that loads: its numbers, the size of an [int], whether [char] is signed, and whether the halves of a double
    are swapped in memory. *)
Record machine := Machine { m_host : host; m_int : Z; m_schar : bool; m_fpa : bool }.

Inductive load_error := BadChunk (name : mem) (why : string) | NoMemory | Undefined.

Inductive loaded (A : Type) := Loaded (a : A) (z : ZIO) | NotLoaded (e : load_error).
Arguments Loaded {A} _ _.
Arguments NotLoaded {A} _.

Definition loader (A : Type) : Type := ZIO → loaded A.

#[export] Instance loader_mret : MRet loader := λ A a z, Loaded a z.
#[export] Instance loader_mbind : MBind loader :=
  λ A B f m z, match m z with Loaded a z => f a z | NotLoaded e => NotLoaded e end.

Definition m_little (M : machine) : bool := h_little (m_host M).

(** The value of a [char] as an [int]. *)
Definition char_int (M : machine) (c : Z) : Z := if m_schar M then s8 c else c.

Definition luaU_header (M : machine) : mem :=
  LUA_SIGNATURE ++ [LUAC_VERSION; LUAC_FORMAT; cbool (m_little M); m_int M; 4; sizeof_Instruction; h_bytes (m_host M); cbool (h_intnum (m_host M))].

(** The name of the chunk in messages. *)
Definition chunk_name (name : mem) : mem :=
  match name with
  | c :: rest => if (c =? 64) || (c =? 61) then rest else if c =? 27 then ascii_bytes "binary string" else name
  | [] => name
  end.

Section load.
Context (M : machine) (name : mem) (swap : bool) (numsize : Z) (toflt : bool).

Definition error {A} (why : string) : loader A := λ _, NotLoaded (BadChunk (chunk_name name) why).

Definition fail {A} (e : load_error) : loader A := λ _, NotLoaded e.

Definition LoadBlock (size : Z) : loader mem := λ z,
  let '(b, r, z) := luaZ_read z (Z.to_nat size) in
  if (r =? 0)%nat then Loaded b z else error "unexpected end" z.

(** Each of [n] objects of [size] bytes with its bytes in the other order. *)
Fixpoint swap_objects (size n : nat) (l : mem) : mem :=
  match n with O => l | S n => rev (take size l) ++ swap_objects size n (drop size l) end.

Definition LoadMem (n size : Z) : loader mem :=
  b ← LoadBlock (n * size);
  if swap then
    if (size =? 1) || (size =? 2) || (size =? 4) || (size =? 8) then mret (swap_objects (Z.to_nat size) (Z.to_nat n) b)
    else error "bad size"
  else mret b.

Definition LoadVar (size : Z) : loader mem := LoadMem 1 size.

Definition LoadChar : loader Z := b ← LoadVar 1; mret (char_int M (host_val true b)).

Definition LoadByte : loader Z := c ← LoadChar; mret (u8 c).

(** A signed integer of [size] bytes. *)
Definition LoadSigned (size : Z) : loader Z := b ← LoadVar size; mret (signed size (host_val (m_little M) b)).

Definition LoadInt : loader Z := x ← LoadSigned (m_int M); if x <? 0 then error "bad integer" else mret x.

(** A number in the memory of the machine. *)
Definition num_of_mem (b : mem) : lua_Number :=
  num_of_bytes (m_host M) (if m_fpa M && negb (h_intnum (m_host M)) then drop 4 b ++ take 4 b else b).

Definition LoadNumber : loader lua_Number :=
  if toflt then
    if (numsize =? 1) || (numsize =? 2) || (numsize =? 4) || (numsize =? 8) then
      y ← LoadSigned numsize; mret (num_of_int (m_host M) y)
    else fail Undefined
  else b ← LoadVar (h_bytes (m_host M)); mret (num_of_mem b).

Definition LoadString : loader (option mem) :=
  size ← LoadSigned 4;
  if size =? 0 then mret None
  else if size <? 0 then fail NoMemory
  else s ← LoadBlock size; mret (Some (take (Z.to_nat (size - 1)) s)).

(** The values of [n] objects of [size] bytes in memory. *)
Fixpoint objects (little : bool) (size n : nat) (l : mem) : list Z :=
  match n with O => [] | S n => host_val little (take size l) :: objects little size n (drop size l) end.

Definition LoadVector (n size : Z) : loader (list Z) :=
  b ← LoadMem n size; mret (objects (m_little M) (Z.to_nat size) (Z.to_nat n) b).

(** An array of [int]. *)
Definition LoadInts (n : Z) : loader (list Z) := v ← LoadVector n (m_int M); mret (map (signed (m_int M)) v).

Definition LoadCode : loader (list Z) := n ← LoadInt; LoadVector n sizeof_Instruction.

Fixpoint LoadAll {A} (n : nat) (load : loader A) : loader (list A) :=
  match n with O => mret [] | S n => a ← load; l ← LoadAll n load; mret (a :: l) end.

Definition LoadConstant : loader TConst :=
  t ← LoadChar;
  if t =? LUA_TNIL then mret KNil
  else if t =? LUA_TBOOLEAN then b ← LoadChar; mret (KBool (negb (b =? 0)))
  else if t =? LUA_TNUMBER then x ← LoadNumber; mret (KNumber x)
  else if t =? LUA_TSTRING then s ← LoadString; mret (KString s)
  else error "bad constant".

Definition LoadLocVar : loader LocVar := s ← LoadString; a ← LoadInt; b ← LoadInt; mret (LVar s a b).

Definition LoadDebug : loader (list Z * list LocVar * list (option mem)) :=
  n ← LoadInt;
  lines ← LoadInts n;
  n ← LoadInt;
  vars ← LoadAll (Z.to_nat n) LoadLocVar;
  n ← LoadInt;
  ups ← LoadAll (Z.to_nat n) LoadString;
  mret (lines, vars, ups).

(** [depth] is how many calls are left of [LUAI_MAXCCALLS]. *)
Fixpoint LoadFunction (depth : nat) (p : option mem) : loader Proto :=
  match depth with
  | O => error "code too deep"
  | S depth =>
      src ← LoadString;
      let src := match src with None => p | Some s => Some s end in
      first ← LoadInt;
      last ← LoadInt;
      nu ← LoadByte;
      np ← LoadByte;
      va ← LoadByte;
      stk ← LoadByte;
      code ← LoadCode;
      n ← LoadInt;
      k ← LoadAll (Z.to_nat n) LoadConstant;
      n ← LoadInt;
      ps ← LoadAll (Z.to_nat n) (LoadFunction depth src);
      '(lines, vars, ups) ← LoadDebug;
      let f := MkProto k code ps lines vars ups src first last nu np va stk in
      match luaG_checkcode f with
      | None => fail Undefined
      | Some true => mret f
      | Some false => error "bad code"
      end
  end.
End load.

Definition LUAI_MAXCCALLS := 200.

(** Whether the bytes are to be swapped, the size of numbers, and whether they are integers where the machine has none. *)
Definition LoadHeader (M : machine) (name : mem) : loader (bool * Z * bool) :=
  s ← LoadBlock name LUAC_HEADERSIZE;
  let h := luaU_header M in
  let at_ (l : mem) (i : nat) := nth i l 0 in
  let swap := negb (at_ s 6%nat =? at_ h 6%nat) in
  let s := <[6%nat := at_ h 6%nat]> s in
  let h := <[10%nat := at_ s 10%nat]> h in
  let toflt := cbool (h_intnum (m_host M)) <? char_int M (at_ s 11%nat) in
  let s := if toflt then <[11%nat := at_ h 11%nat]> s else s in
  if bool_decide (h = s) then mret (swap, char_int M (at_ s 10%nat), toflt) else error name "bad header".

Definition luaU_undump (M : machine) (name : mem) (nCcalls : Z) : loader Proto :=
  '(swap, numsize, toflt) ← LoadHeader M name;
  LoadFunction M name swap numsize toflt (Z.to_nat (LUAI_MAXCCALLS - nCcalls)) (Some [61; 63]).
