(* ===== verification/LuaChunk.v ===== *)
(** * Precompiled chunks: from one machine to another

    What src/lua/ldump.c writes, src/lua/lundump.c reads, on another machine and however the input is cut into blocks. A
    writer and a reader that belong together are combined as their calls are. *)
From S2P Require Import Prelude LuaNum LuaOp LuaCheck LuaDump LuaUndump.

(** ** The input as a stream *)

Definition holds (z : ZIO) (l : mem) : Prop := Forall (λ b, b ≠ []) (z_blocks z) ∧ z_p z ++ concat (z_blocks z) = l ∧ bytes_ok l.

(** Whether there is something left of the block. *)
Definition pending (z : ZIO) : nat := match z_p z with [] => 0 | _ => 1 end.

Lemma lookahead_ok z c l : holds z (c :: l) → ∃ b, luaZ_lookahead z = (c, Zio (c :: b) (z_blocks (luaZ_lookahead z).2)) ∧
  holds (luaZ_lookahead z).2 (c :: l) ∧ (length (z_blocks (luaZ_lookahead z).2) + 1 = length (z_blocks z) + pending z)%nat.
Proof.
  intros (Hb & E & Hl). unfold luaZ_lookahead, luaZ_fill, pending. destruct z as [[|x p] blocks]; cbn [z_p z_blocks app concat] in *.
  - destruct blocks as [|[|x b] bs]; cbn [concat app] in E; [done|by inversion Hb|]. injection E as -> E.
    inversion Hb; subst. inversion Hl as [|? ? Hc Hl']; subst. unfold byte_ok in Hc.
    rewrite (proj2 (Z.eqb_neq c EOZ)) by (unfold EOZ; lia). cbn. exists b. split_and!; [done| |lia].
    split_and!; [done|done|by constructor].
  - injection E as -> E. cbn. exists p. split_and!; [done| |lia]. split_and!; [done|by subst|done].
Qed.

(** Reading [n] bytes of a stream that has them, and of one that has not. *)
Lemma zread_ok : ∀ fuel z b n l, holds z l → ((if (n =? 0)%nat then 0 else length (z_blocks z) + pending z) < fuel)%nat →
  ∃ z', luaZ_read_loop fuel z b n = (b ++ take n l, (n - length l)%nat, z') ∧ ((n <= length l)%nat → holds z' (drop n l)).
Proof.
  induction fuel as [|fuel IH]; intros z b n l Hz Hf; [lia|]. cbn [luaZ_read_loop].
  destruct (Nat.eqb_spec n 0) as [->|Hn]; [exists z; by rewrite take_0, app_nil_r|]. destruct l as [|c l].
  - exists (luaZ_lookahead z).2. destruct Hz as (Hb & E & _). apply app_nil in E as [Ep Ec].
    destruct z as [p blocks]; cbn [z_p z_blocks] in *. subst p. destruct blocks as [|x bs]; cbn in *; [|destruct x; [by inversion Hb|done]].
    rewrite take_nil, app_nil_r. split; [f_equal; f_equal; lia|]. intros; lia.
  - destruct (lookahead_ok z c l Hz) as (p & E & Hz' & Hlen). destruct (luaZ_lookahead z) as [c' z1] eqn:Ez. cbn [snd] in *.
    injection E as -> E. destruct Hz' as (Hb' & Ec & Hl). inversion Hl as [|? ? Hc Hl']; subst. unfold byte_ok in Hc.
    rewrite (proj2 (Z.eqb_neq c EOZ)) by (unfold EOZ; lia). rewrite E in *. cbn [z_p z_blocks] in *. set (bs := z_blocks z1) in *.
    set (m := Nat.min n (length (c :: p))). rewrite <- Ec.
    destruct (IH (Zio (drop m (c :: p)) bs) (b ++ take m (c :: p)) (n - m)%nat (drop m (c :: p) ++ concat bs)) as (z' & Er & Hz2).
    { split_and!; [done|done|]. cbn [z_p z_blocks]. rewrite <- Ec in Hl. unfold bytes_ok in *. rewrite Forall_app in *.
      destruct Hl as [H1 H2]. split; [by apply Forall_drop|done]. }
    { unfold pending at 1. cbn [z_p z_blocks].
      destruct (drop m (c :: p)) eqn:Ed; [destruct (n - m =? 0)%nat; lia|].
      assert (n - m = 0)%nat as ->. { apply (f_equal length) in Ed. rewrite length_drop in Ed. cbn [length] in Ed. unfold m in *. cbn [length] in *. lia. }
      cbn. unfold bs in *. lia. }
    exists z'. rewrite Er.
    assert (m = n ∨ m = length (c :: p) ∧ (length (c :: p) <= n)%nat) as Hm by (unfold m; lia). split.
    + refine (f_equal2 pair (f_equal2 pair _ _) eq_refl).
      * rewrite <- app_assoc. f_equal. destruct Hm as [Hm|[Hm Hle]]; rewrite Hm.
        -- rewrite Nat.sub_diag, take_0, app_nil_r. rewrite take_app_le; [done|unfold m in Hm; lia].
        -- rewrite drop_ge, take_ge, (take_app_ge (c :: p)) by done. done.
      * rewrite !length_app, length_drop. lia.
    + intros Hle. destruct Hm as [Hm|[Hm Hge]]; rewrite Hm in *.
      * rewrite Nat.sub_diag in Hz2. rewrite drop_0 in Hz2. rewrite (drop_app_le (c :: p)) by (unfold m in Hm; lia). apply Hz2. lia.
      * rewrite drop_ge in Hz2 by done. cbn [app] in Hz2. rewrite (drop_app_ge (c :: p)) by done. apply Hz2. rewrite !length_app in Hle. lia.
Qed.

Lemma read_exact z bs rest : holds z (bs ++ rest) → ∃ z', luaZ_read z (length bs) = (bs, O, z') ∧ holds z' rest.
Proof.
  intros Hz. destruct (zread_ok (S (S (length (z_blocks z)))) z [] (length bs) _ Hz) as (z' & E & H).
  { unfold pending. destruct (length bs =? 0)%nat, (z_p z); lia. }
  exists z'. unfold luaZ_read. rewrite E, take_app_length. cbn [app]. rewrite length_app, drop_app_length in *.
  replace (length bs - (length bs + length rest))%nat with O by lia. split; [done|]. apply H. lia.
Qed.

Lemma read_short z l n : holds z l → (length l < n)%nat → ∃ b z', luaZ_read z n = (b, (n - length l)%nat, z').
Proof.
  intros Hz Hn. destruct (zread_ok (S (S (length (z_blocks z)))) z [] n _ Hz) as (z' & E & _).
  { unfold pending. destruct (n =? 0)%nat, (z_p z); lia. }
  unfold luaZ_read. rewrite E. eauto.
Qed.

(** [bs] is a text that [load] reads as [y]; without its end, it is refused. *)
Section loads.
Context (name : mem).

Definition cut_short {A} (r : loaded A) : Prop := r = NotLoaded (BadChunk (chunk_name name) "unexpected end").

Record loads {A} (load : loader A) (bs : mem) (y : A) : Prop := {
  loads_whole : ∀ z rest, holds z (bs ++ rest) → ∃ z', load z = Loaded y z' ∧ holds z' rest;
  loads_part : ∀ z l more, holds z l → more ≠ [] → bs = l ++ more → cut_short (load z) }.

Lemma loads_ret {A} (y : A) : loads (mret y) [] y.
Proof. split; [intros z rest H; by exists z|]. intros z l more _ Hm E. symmetry in E. by apply app_nil in E as [_ ?]. Qed.

Lemma loads_bind {A B} (load : loader A) (f : A → loader B) b1 b2 y1 y2 :
  loads load b1 y1 → loads (f y1) b2 y2 → loads (load ≫= f) (b1 ++ b2) y2.
Proof.
  intros [W1 P1] [W2 P2]. split.
  - intros z rest H. rewrite <- app_assoc in H. destruct (W1 _ _ H) as (z1 & E1 & H1).
    destruct (W2 _ _ H1) as (z2 & E2 & H2). exists z2. unfold mbind, loader_mbind. by rewrite E1.
  - intros z l more H Hm E. destruct (decide (length l < length b1)%nat) as [Hlt|Hge].
    + assert (b1 = l ++ drop (length l) b1) as Eb.
      { rewrite <- (take_drop (length l) b1) at 1. f_equal. apply (f_equal (take (length l))) in E.
        by rewrite take_app_length, take_app_le in E by lia. }
      assert (drop (length l) b1 ≠ []) as Hd by (intros Hd; apply (f_equal length) in Hd; rewrite length_drop in Hd; cbn in Hd; lia).
      specialize (P1 z l _ H Hd Eb). unfold cut_short in *. unfold mbind, loader_mbind. by rewrite P1.
    + assert (l = b1 ++ drop (length b1) l) as El.
      { rewrite <- (take_drop (length b1) l) at 1. f_equal. apply (f_equal (take (length b1))) in E.
        by rewrite take_app_length, take_app_le in E by lia. }
      rewrite El in H, E. rewrite <- app_assoc in E. apply app_inv_head in E.
      destruct (W1 _ _ H) as (z1 & E1 & H1). unfold cut_short, mbind, loader_mbind. rewrite E1. by apply (P2 z1 (drop (length b1) l) more).
Qed.

(** A loader that reads nothing more. *)
Lemma loads_map {A B} (load : loader A) (f : A → loader B) bs y y' :
  loads load bs y → (∀ z, f y z = Loaded y' z) → loads (load ≫= f) bs y'.
Proof.
  intros [W P] Hf. split.
  - intros z rest H. destruct (W _ _ H) as (z1 & E1 & H1). exists z1. unfold mbind, loader_mbind. rewrite E1. by rewrite Hf.
  - intros z l more H Hm E. specialize (P _ _ _ H Hm E). unfold cut_short, mbind, loader_mbind in *. by rewrite P.
Qed.

Lemma loads_block bs size : size = msize bs → loads (LoadBlock name size) bs bs.
Proof.
  intros ->. unfold LoadBlock, msize. rewrite Nat2Z.id. split.
  - intros z rest H. destruct (read_exact z bs rest H) as (z' & -> & H'). by exists z'.
  - intros z l more H Hm ->. destruct (read_short z l (length (l ++ more)) H) as (b & z' & ->).
    { rewrite length_app. destruct more; [done|cbn; lia]. }
    rewrite length_app. destruct more; [done|]. cbn [length].
    rewrite (proj2 (Nat.eqb_neq _ 0)) by lia. done.
Qed.
End loads.

(** ** Writers and readers that belong together *)

Definition dumper : Type := DumpState (W := mem) → option (DumpState (W := mem)).

Section carries.
Context (name : mem).

(** When it is written without error, what [dump] writes is read by [load] as [y]. *)
Definition carries {A} (dump : dumper) (load : loader A) (y : A) : Prop :=
  ∀ D D', dump D = Some D' → d_status D' = 0 →
  d_status D = 0 ∧ ∃ bs, d_data D' = d_data D ++ bs ∧ bytes_ok bs ∧ loads name load bs y.

Lemma carries_ret {A} (y : A) : carries Some (mret y) y.
Proof. intros D D' E Hs. simplify_eq. split; [done|]. exists []. rewrite app_nil_r. split_and!; [done|by apply Forall_nil_2|apply loads_ret]. Qed.

Lemma carries_bind {A B} (d1 d2 : dumper) (l1 : loader A) (l2 : A → loader B) y1 y2 :
  carries d1 l1 y1 → carries d2 (l2 y1) y2 → carries (λ D, D ← d1 D; d2 D) (l1 ≫= l2) y2.
Proof.
  intros H1 H2 D D' E Hs. apply bind_Some in E as (D1 & E1 & E2). destruct (H2 _ _ E2 Hs) as (Hs1 & b2 & Ed2 & Hb2 & L2).
  destruct (H1 _ _ E1 Hs1) as (Hs0 & b1 & Ed1 & Hb1 & L1). split; [done|]. exists (b1 ++ b2). split_and!.
  - by rewrite Ed2, Ed1, app_assoc.
  - by apply bytes_ok_app.
  - by apply (loads_bind name l1 l2 b1 b2 y1).
Qed.

Lemma carries_then {A B} (d1 : DumpState (W := mem) → DumpState (W := mem)) (d2 : dumper) (l1 : loader A) (l2 : A → loader B) y1 y2 :
  carries (λ D, Some (d1 D)) l1 y1 → carries d2 (l2 y1) y2 → carries (λ D, d2 (d1 D)) (l1 ≫= l2) y2.
Proof. exact (carries_bind (λ D, Some (d1 D)) d2 l1 l2 y1 y2). Qed.

(** The last part, of which the reader makes the result. *)
Lemma carries_map {A B} (d : dumper) (load : loader A) (f : A → loader B) y y' :
  carries d load y → (∀ z, f y z = Loaded y' z) → carries d (load ≫= f) y'.
Proof.
  intros H Hf D D' E Hs. destruct (H _ _ E Hs) as (Hs0 & bs & Ed & Hb & L). split; [done|]. exists bs.
  split_and!; [done..|]. by apply (loads_map name load f bs y).
Qed.

Lemma carries_ext {A} (d d' : dumper) (load : loader A) y : (∀ D, d D = d' D) → carries d' load y → carries d load y.
Proof. intros Hd H D D' E. rewrite Hd in E. by apply H. Qed.

Lemma carries_all {A B} (dump : A → dumper) (load : loader B) (g : A → B) l :
  (∀ a, a ∈ l → carries (dump a) load (g a)) → carries (DumpAll dump l) (LoadAll (length l) load) (map g l).
Proof.
  induction l as [|a l IH]; intros H; [apply carries_ret|]. cbn [DumpAll LoadAll length map].
  apply (carries_bind (dump a) (DumpAll dump l) load _ (g a)); [apply H; by left|].
  eapply carries_map; [apply IH; intros b Hb; apply H; by right|done].
Qed.

(** A block that is written when the bytes before were. *)
Lemma carries_block {A} bs (load : loader A) y : bytes_ok bs → loads name load bs y → carries (λ D, Some (DumpBlock append bs D)) load y.
Proof.
  intros Hb L D D' [= <-] Hs. unfold DumpBlock in *. destruct (Z.eqb_spec (d_status D) 0) as [E0|E0]; [|done].
  split; [done|]. by exists bs.
Qed.

(** An error that the writer finds stays. *)
Lemma block_checked (bad : bool) code bs D : code ≠ 0 →
  d_status (DumpBlock append bs (if bad then set_status code D else D)) = 0 →
  bad = false ∧ d_status D = 0 ∧ d_data (DumpBlock append bs (if bad then set_status code D else D)) = d_data D ++ bs.
Proof.
  intros Hc Hs. unfold DumpBlock, set_status in *. destruct bad; cbn in *.
  - destruct (Z.eqb_spec code 0); [done|]. cbn in Hs. done.
  - destruct (Z.eqb_spec (d_status D) 0); cbn in *; done.
Qed.

Lemma carries_checked {A} (bad : bool) code bs (load : loader A) y : code ≠ 0 → bytes_ok bs → (bad = false → loads name load bs y) →
  carries (λ D, Some (DumpBlock append bs (if bad then set_status code D else D))) load y.
Proof. intros Hc Hb L D D' [= <-] Hs. destruct (block_checked bad code bs D Hc Hs) as (E & E0 & Ed). split; [done|]. exists bs. auto. Qed.
End carries.

(** ** Bytes of a value on the way *)

Lemma swap_rev number n : length number = n → n ∈ [2; 4; 8]%nat → swap_loop (Z.to_nat (Z.of_nat n / 2)) 0 (Z.of_nat n) number = rev number.
Proof.
  intros Hl Hn. rewrite !elem_of_cons, elem_of_nil in Hn. destruct Hn as [->|[->|[->|[]]]];
    [destruct number as [|a [|b [|]]]|destruct number as [|a [|b [|c [|d [|]]]]]|
     destruct number as [|a [|b [|c [|d [|e [|f [|g [|i [|]]]]]]]]]]; done.
Qed.

(** What a machine reads of a value of [n] bytes that fits. *)
Lemma signed_host little n z : (0 < n)%nat → fits (Z.of_nat n) z = true → signed (Z.of_nat n) (host_val little (host_bytes little n z)) = z.
Proof. intros Hn Hf. rewrite host_val_bytes. apply signed_mod; [lia|done]. Qed.

Lemma fits_range n a : - (256 ^ n / 2) <= a < 256 ^ n / 2 → fits n a = true.
Proof. intros [? ?]. unfold fits. apply andb_true_iff. by rewrite Z.leb_le, Z.ltb_lt. Qed.

Definition words (little : bool) (n : nat) (xs : list Z) : mem := concat (map (host_bytes little n) xs).

Lemma words_size little n xs : msize (words little n xs) = Z.of_nat (length xs) * Z.of_nat n.
Proof.
  unfold words. induction xs as [|x xs IH]; [done|]. cbn [map concat length]. rewrite msize_app, IH, msize_host_bytes. lia.
Qed.

Lemma words_bytes little n xs : bytes_ok (words little n xs).
Proof. unfold words. induction xs as [|x xs IH]; cbn; [by apply Forall_nil_2|]. apply bytes_ok_app. split; [apply host_bytes_ok|done]. Qed.

Lemma swap_words little n : ∀ xs, swap_objects n (length xs) (words little n xs) = words (negb little) n xs.
Proof.
  unfold words. induction xs as [|x xs IH]; [done|]. cbn [map concat length swap_objects].
  rewrite take_app_length', drop_app_length', IH by (by rewrite host_bytes_length). by rewrite host_bytes_rev.
Qed.

Lemma objects_words little n : ∀ xs, objects little n (length xs) (words little n xs) = map (λ x, x mod 256 ^ Z.of_nat n) xs.
Proof.
  unfold words. induction xs as [|x xs IH]; [done|]. cbn [map concat length objects].
  rewrite take_app_length', drop_app_length', IH by (by rewrite host_bytes_length). by rewrite host_val_bytes.
Qed.

(** The target is the machine that loads, or one whose chunks it can load: another byte order, or integers where it has
    doubles. *)
Record suits (t : DumpTargetInfo) (M : machine) : Prop := {
  su_int : sizeof_int t = m_int M;
  su_int_size : m_int M ∈ [1; 2; 4];
  su_str : sizeof_strsize_t t = 4;
  su_host : host_ok (m_host M);
  su_num : if lua_Number_integral t
           then sizeof_lua_Number t ∈ [1; 2; 4] ∧ (h_intnum (m_host M) = true → h_bytes (m_host M) = sizeof_lua_Number t)
           else h_intnum (m_host M) = false ∧ sizeof_lua_Number t = 8 ∧ is_arm_fpa t = m_fpa M ∧
                (m_fpa M = true → little_endian t = m_little M) }.

Section cross.
Context (h : host) (t : DumpTargetInfo) (strip : bool) (M : machine) (name : mem) (Hsuits : suits t M).

Abbreviation tl := (little_endian t).
Abbreviation swap := (negb (eqb (little_endian t) (m_little M))).
Abbreviation numsize := (sizeof_lua_Number t).
Abbreviation toflt := (lua_Number_integral t && negb (h_intnum (m_host M))).

Lemma byteswap n x : n ∈ [2; 4; 8]%nat → MaybeByteSwap h t (host_bytes (h_little h) n x) (Z.of_nat n) = host_bytes tl n x.
Proof.
  intros Hn. unfold MaybeByteSwap. case_bool_decide as E; [by rewrite E|].
  rewrite swap_rev by (by rewrite ?host_bytes_length). rewrite host_bytes_rev. f_equal. destruct (h_little h), tl; done.
Qed.

Lemma loads_words xs n : n ∈ [1; 2; 4; 8]%nat →
  loads name (LoadMem name swap (Z.of_nat (length xs)) (Z.of_nat n)) (words tl n xs) (words (m_little M) n xs).
Proof.
  intros Hn. unfold LoadMem. apply (loads_map name _ _ _ (words tl n xs)); [apply loads_block; by rewrite words_size|].
  intros z. destruct (eqb tl (m_little M)) eqn:E; cbn [negb].
  - apply eqb_prop in E. by rewrite E.
  - assert ((Z.of_nat n =? 1) || (Z.of_nat n =? 2) || (Z.of_nat n =? 4) || (Z.of_nat n =? 8) = true) as ->.
    { rewrite !elem_of_cons, elem_of_nil in Hn. by destruct Hn as [->|[->|[->|[->|[]]]]]. }
    rewrite !Nat2Z.id, swap_words. unfold mret, loader_mret. do 2 f_equal. destruct tl, (m_little M); done.
Qed.

Lemma loads_var n x : n ∈ [1; 2; 4; 8]%nat → loads name (LoadVar name swap (Z.of_nat n)) (host_bytes tl n x) (host_bytes (m_little M) n x).
Proof.
  intros Hn. pose proof (loads_words [x] n Hn) as H. unfold words in H. cbn [map concat length] in H. by rewrite !app_nil_r in H.
Qed.

Lemma loads_signed n x : n ∈ [1; 2; 4; 8]%nat → fits (Z.of_nat n) x = true → loads name (LoadSigned M name swap (Z.of_nat n)) (host_bytes tl n x) x.
Proof.
  intros Hn Hf. unfold LoadSigned. apply (loads_map name _ _ _ (host_bytes (m_little M) n x)); [by apply loads_var|].
  intros z. unfold mret, loader_mret. rewrite signed_host; [done| |done].
  rewrite !elem_of_cons, elem_of_nil in Hn. lia.
Qed.

(** An integer for the target: its bytes, if it fits. *)
Lemma sized_writes sz x D : sz ∈ [1; 2; 4] → d_status (DumpIntWithSize append h t x sz D) = 0 →
  fits sz x = true ∧ d_status D = 0 ∧ d_data (DumpIntWithSize append h t x sz D) = d_data D ++ host_bytes tl (Z.to_nat sz) x.
Proof.
  intros Hs. rewrite !elem_of_cons, elem_of_nil in Hs. destruct Hs as [->|[->|[->|[]]]]; unfold DumpIntWithSize, DumpChar; cbn [Z.eqb Pos.eqb].
  - assert ([u8 x] = host_bytes tl 1 x) as -> by (unfold host_bytes; by destruct tl).
    intros ([H1%Z.ltb_ge H2%Z.ltb_ge]%orb_false_iff & E0 & ->)%block_checked; [|done]. split; [|done].
    apply fits_range. change (256 ^ 1 / 2) with 128. lia.
  - rewrite (byteswap 2) by (by left). intros ([H1%Z.ltb_ge H2%Z.ltb_ge]%orb_false_iff & E0 & ->)%block_checked; [|done]. split; [|done].
    apply fits_range. change (256 ^ 2 / 2) with 32768. lia.
  - rewrite (byteswap 4) by (by right; left). intros ([H1%Z.ltb_ge H2%Z.ltb_ge]%orb_false_iff & E0 & ->)%block_checked; [|done]. split; [|done].
    apply fits_range. change (256 ^ 4 / 2) with 2147483648. lia.
Qed.

Lemma carries_sized {A} sz x (load : loader A) y : sz ∈ [1; 2; 4] →
  (fits sz x = true → loads name load (host_bytes tl (Z.to_nat sz) x) y) →
  carries name (λ D, Some (DumpIntWithSize append h t x sz D)) load y.
Proof.
  intros Hs HL D D' [= <-] HS. destruct (sized_writes sz x D Hs HS) as (Hf & E0 & Ed). split; [done|].
  exists (host_bytes tl (Z.to_nat sz) x). split_and!; [done|apply host_bytes_ok|by apply HL].
Qed.

Lemma size_cases sz : sz ∈ [1; 2; 4] → Z.to_nat sz ∈ [1; 2; 4; 8]%nat ∧ Z.of_nat (Z.to_nat sz) = sz ∧ 0 < sz.
Proof. rewrite !elem_of_cons, elem_of_nil. intros [->|[->|[->|[]]]]; (split; [|done]); set_solver. Qed.

Lemma carries_signed sz x : sz ∈ [1; 2; 4] → carries name (λ D, Some (DumpIntWithSize append h t x sz D)) (LoadSigned M name swap sz) x.
Proof.
  intros Hs. apply carries_sized; [done|]. intros Hf. destruct (size_cases sz Hs) as (Hn & E & _).
  pose proof (loads_signed (Z.to_nat sz) x Hn) as H. rewrite E in H. by apply H.
Qed.

Lemma carries_int x : 0 <= x → carries name (λ D, Some (DumpInt append h t x D)) (LoadInt M name swap) x.
Proof.
  intros Hx. unfold DumpInt, LoadInt. rewrite (su_int _ _ Hsuits). eapply carries_map; [apply carries_signed, (su_int_size _ _ Hsuits)|].
  intros z. by rewrite (proj2 (Z.ltb_ge x 0)).
Qed.

Lemma carries_char c : byte_ok c → carries name (λ D, Some (DumpChar append c D)) (LoadChar M name swap) (char_int M c).
Proof.
  intros Hc. unfold DumpChar. rewrite u8_id by exact Hc. apply carries_block; [by apply bytes_ok_one|].
  assert ([c] = host_bytes tl 1 c) as -> by (unfold host_bytes; cbn; rewrite Z.mod_small by exact Hc; by destruct tl).
  unfold LoadChar. eapply loads_map; [apply (loads_var 1 c); left|].
  intros z. unfold mret, loader_mret. do 2 f_equal. unfold host_val, host_bytes. cbn. rewrite Z.mod_small by exact Hc.
  destruct (m_little M); cbn; lia.
Qed.

Lemma carries_lu_byte c : byte_ok c → carries name (λ D, Some (DumpChar append c D)) (LoadByte M name swap) c.
Proof.
  intros Hc. unfold LoadByte. eapply carries_map; [by apply carries_char|]. intros z. unfold mret, loader_mret. f_equal.
  unfold byte_ok in Hc. unfold char_int. destruct (m_schar M); [|by apply u8_id]. unfold s8. rewrite (u8_id c) by lia.
  destruct (Z.ltb_spec c 128); zlia.
Qed.

(** A string: not longer than an [int32_t] counts, with its zero. *)
Definition string_ok (s : option mem) : Prop := match s with None => True | Some s => msize s + 1 < 2 ^ 31 ∧ bytes_ok s end.

Lemma carries_size x : 0 <= x < 2 ^ 31 → carries name (λ D, Some (DumpSize append h t x D)) (LoadSigned M name swap 4) x.
Proof.
  intros Hx. unfold DumpSize. rewrite (su_str _ _ Hsuits). cbn [Z.eqb Pos.eqb]. rewrite (byteswap 4) by (by right; left).
  apply carries_checked; [done|apply host_bytes_ok|]. intros _. apply (loads_signed 4 x); [do 2 right; left|].
  apply fits_range. change (256 ^ Z.of_nat 4 / 2) with 2147483648. lia.
Qed.

Lemma carries_string s : string_ok s → carries name (λ D, Some (DumpString append h t s D)) (LoadString M name swap) s.
Proof.
  intros Hs. unfold DumpString, LoadString. destruct s as [s|].
  - destruct Hs as [Hlen Hb]. pose proof (msize_nonneg s). rewrite u32_id by lia. rewrite s32_id by lia.
    apply (carries_bind name (λ D, Some (DumpSize append h t (msize s + 1) D)) (λ D, Some (DumpBlock append (take (Z.to_nat (msize s + 1)) (s ++ [0])) D)) _ _ (msize s + 1));
      [by apply carries_size; lia|].
    rewrite (proj2 (Z.eqb_neq _ 0)), (proj2 (Z.ltb_ge _ 0)) by lia.
    rewrite take_ge by (rewrite length_app; unfold msize; cbn; lia).
    eapply carries_map.
    + apply carries_block; [apply bytes_ok_app; split; [done|by apply bytes_ok_one]|]. apply loads_block. by rewrite msize_app.
    + intros z. unfold mret, loader_mret. do 2 f_equal. rewrite take_app_length'; [done|unfold msize; lia].
  - eapply carries_map; [by apply carries_size|done].
Qed.

(** A number as it is on the machine that loads. *)
Definition crossed (x : lua_Number) : lua_Number :=
  match x with
  | NInt z => num_of_int (m_host M) z
  | NDbl b => if lua_Number_integral t then default x (num_of_int (m_host M) <$> num_to_int 4 x) else x
  end.

(** The numbers of the machine that compiles: it has integers only for itself. *)
Definition number_ok (x : lua_Number) : Prop :=
  num_ok h x ∧ match x with NInt z => lua_Number_integral t = true ∧ fits 4 z = true | NDbl _ => True end.

Lemma carries_integral z : lua_Number_integral t = true → fits 4 z = true →
  carries name (λ D, Some (DumpIntWithSize append h t z numsize D)) (LoadNumber M name swap numsize toflt) (num_of_int (m_host M) z).
Proof.
  intros Hi Hf. pose proof (su_num _ _ Hsuits) as Hn. rewrite Hi in Hn. destruct Hn as [Hsz Hsame].
  unfold LoadNumber. rewrite Hi. cbn [andb]. destruct (size_cases _ Hsz) as (Hn & E & Hpos). destruct (h_intnum (m_host M)) eqn:Em; cbn [negb].
  - specialize (Hsame eq_refl). rewrite Hsame. apply carries_sized; [done|]. intros Hfs. eapply loads_map.
    + pose proof (loads_var (Z.to_nat numsize) z Hn) as H. rewrite E in H. exact H.
    + intros z'. unfold mret, loader_mret. f_equal. unfold num_of_mem, num_of_bytes, num_of_int. rewrite Em, andb_false_r, Hsame.
      rewrite host_val_bytes, E. rewrite signed_mod_any by done. done.
  - assert ((numsize =? 1) || (numsize =? 2) || (numsize =? 4) || (numsize =? 8) = true) as ->.
    { rewrite !elem_of_cons, elem_of_nil in Hsz. by destruct Hsz as [->|[->|[->|[]]]]. }
    eapply carries_map; [by apply carries_signed|done].
Qed.

(** The two words of a double. *)
Lemma halves_twice (l : mem) : length l = 8%nat → drop 4 (drop 4 l ++ take 4 l) ++ take 4 (drop 4 l ++ take 4 l) = l.
Proof. intros Hl. destruct l as [|x0 [|x1 [|x2 [|x3 [|x4 [|x5 [|x6 [|x7 [|]]]]]]]]]; done. Qed.

Lemma halves_rev (l : mem) : length l = 8%nat → rev (drop 4 l ++ take 4 l) = drop 4 (rev l) ++ take 4 (rev l).
Proof. intros Hl. destruct l as [|x0 [|x1 [|x2 [|x3 [|x4 [|x5 [|x6 [|x7 [|]]]]]]]]]; done. Qed.

Lemma double_bytes b :
  MaybeByteSwap h t (if is_arm_fpa t then drop 4 (host_bytes (h_little h) 8 b) ++ take 4 (host_bytes (h_little h) 8 b) else host_bytes (h_little h) 8 b) 8 =
  (if is_arm_fpa t then drop 4 (host_bytes tl 8 b) ++ take 4 (host_bytes tl 8 b) else host_bytes tl 8 b).
Proof.
  destruct (is_arm_fpa t); [|apply (byteswap 8); by do 2 right; left]. unfold MaybeByteSwap. case_bool_decide as E; [by rewrite E|].
  pose proof (host_bytes_length (h_little h) 8 b) as Hl. change 8 with (Z.of_nat 8).
  rewrite swap_rev by (rewrite ?length_app, ?length_drop, ?length_take, ?Hl; (done || by do 2 right; left)).
  rewrite halves_rev, host_bytes_rev by done. by replace (negb (h_little h)) with tl by (destruct (h_little h), tl; done).
Qed.

Lemma carries_double b : lua_Number_integral t = false → 0 <= b < 2 ^ 64 →
  carries name (λ D, DumpNumber append h t (NDbl b) D) (LoadNumber M name swap numsize toflt) (NDbl b).
Proof.
  intros Hi Hb. pose proof (su_num _ _ Hsuits) as Hn. rewrite Hi in Hn. destruct Hn as (Hm & Hsz & Hfpa & Hsame).
  pose proof (su_host _ _ Hsuits) as Hh. unfold host_ok in Hh. rewrite Hm in Hh.
  assert (num_of_bytes (m_host M) (host_bytes (m_little M) 8 b) = NDbl b) as Hval.
  { unfold num_of_bytes. rewrite Hm. unfold m_little. by rewrite host_val_bytes, Z.mod_small. }
  unfold LoadNumber, DumpNumber. rewrite Hi, Hsz, Hh. cbn [Z.eqb Pos.eqb andb]. cbv zeta. rewrite double_bytes, Hfpa.
  destruct (m_fpa M) eqn:Ef.
  - specialize (Hsame eq_refl). apply carries_block.
    { pose proof (host_bytes_ok tl 8 b) as Hbs. apply bytes_ok_app. split; [by apply Forall_drop|by apply Forall_take]. }
    rewrite Hsame, eqb_reflx. cbn [negb]. set (l := host_bytes (m_little M) 8 b) in *.
    assert (length l = 8%nat) as Hl by apply host_bytes_length.
    apply (loads_map name _ _ _ (drop 4 l ++ take 4 l)).
    + unfold LoadVar, LoadMem. eapply loads_map; [apply loads_block|done]. unfold msize. by rewrite length_app, length_drop, length_take, Hl.
    + intros z. unfold mret, loader_mret, num_of_mem. rewrite Ef, Hm. cbn [andb negb]. by rewrite halves_twice, Hval.
  - apply carries_block; [apply host_bytes_ok|]. eapply loads_map; [apply (loads_var 8 b); do 3 right; left|].
    intros z. unfold mret, loader_mret, num_of_mem. rewrite Ef. cbn [andb]. by rewrite Hval.
Qed.

Lemma carries_number x : number_ok x → carries name (DumpNumber append h t x) (LoadNumber M name swap numsize toflt) (crossed x).
Proof.
  intros [Hx Hi]. destruct x as [z|b]; cbn [crossed].
  - destruct Hi as [Hi Hf]. unfold DumpNumber. replace (signed 4 z) with z; [by apply carries_integral|].
    rewrite <- (signed_mod_any 4 z) by done. symmetry. by apply signed_mod.
  - destruct Hx as [_ Hb]. pose proof (carries_double b) as Hdouble. pose proof carries_integral as Hintegral.
    destruct (lua_Number_integral t) eqn:Et; [clear Hdouble|by apply Hdouble].
    intros D D' E Hs. unfold DumpNumber in E. rewrite Et in E. apply bind_Some in E as (i & Hc & E). rewrite Hc. cbn [fmap option_fmap option_map default].
    assert (fits 4 i = true) as Hf.
    { unfold num_to_int in Hc. apply bind_Some in Hc as (v & _ & Hc). by destruct (fits 4 v) eqn:?; simplify_eq. }
    pose proof (Hintegral i eq_refl Hf _ _ E Hs) as Hd. destruct (num_eqb _ _); [exact Hd|by destruct Hd].
Qed.

Definition const_ok (o : TConst) : Prop := match o with KNumber x => number_ok x | KString s => string_ok s | _ => True end.

Definition moved_const (o : TConst) : TConst := match o with KNumber x => KNumber (crossed x) | _ => o end.

Lemma carries_constant o : const_ok o → carries name (DumpConstant append h t o) (LoadConstant M name swap numsize toflt) (moved_const o).
Proof.
  intros Ho. unfold LoadConstant.
  assert (∀ c, c ∈ [0; 1; 5; 6] → byte_ok c ∧ char_int M c = c) as Hc.
  { intros c. rewrite !elem_of_cons, elem_of_nil. unfold byte_ok, char_int, s8. intros [->|[->|[->|[->|[]]]]]; destruct (m_schar M); done. }
  assert (∀ c (d : dumper) (l : Z → loader TConst) y, c ∈ [0; 1; 5; 6] → carries name d (l c) y →
    carries name (λ D, D ← Some (DumpChar append c D); d D) (LoadChar M name swap ≫= l) y) as Htag.
  { intros c d l y Hin Hd. destruct (Hc c Hin) as [Hb Hi]. apply (carries_bind name (λ D, Some (DumpChar append c D)) d _ _ (char_int M c)); [by apply carries_char|by rewrite Hi]. }
  destruct o as [|b|x|s]; cbn [DumpConstant moved_const].
  - apply (Htag LUA_TNIL Some); [by left|apply carries_ret].
  - apply (Htag LUA_TBOOLEAN (λ D, Some (DumpChar append (cbool b) D))); [right; left|]. cbn [Z.eqb Pos.eqb LUA_TBOOLEAN].
    eapply carries_map; [apply carries_char; by destruct b|]. intros z. unfold mret, loader_mret. do 2 f_equal.
    unfold char_int, s8. by destruct b, (m_schar M).
  - apply (Htag LUA_TNUMBER (DumpNumber append h t x)); [do 2 right; left|]. eapply carries_map; [by apply carries_number|done].
  - apply (Htag LUA_TSTRING (λ D, Some (DumpString append h t s D))); [do 3 right; left|]. eapply carries_map; [by apply carries_string|done].
Qed.
(** ** Vectors *)

Lemma instructions_write : ∀ l D, d_status (DumpInstructions append h t l D) = 0 →
  d_status D = 0 ∧ d_data (DumpInstructions append h t l D) = d_data D ++ words tl 4 l.
Proof.
  induction l as [|i l IH]; intros D Hs; cbn [DumpInstructions] in *; [by rewrite app_nil_r|].
  destruct (IH _ Hs) as [H1 ->]. unfold sizeof_Instruction in *. rewrite (byteswap 4) in * by (by right; left).
  destruct (block_checked false 1 (host_bytes tl 4 i) D ltac:(done) H1) as (_ & E0 & Ed). cbn [set_status] in Ed. split; [done|].
  rewrite Ed. unfold words. cbn [map concat]. by rewrite app_assoc.
Qed.

Lemma loads_vector xs n : n ∈ [1; 2; 4; 8]%nat →
  loads name (LoadVector M name swap (Z.of_nat (length xs)) (Z.of_nat n)) (words tl n xs) (map (λ x, x mod 256 ^ Z.of_nat n) xs).
Proof.
  intros Hn. unfold LoadVector. eapply loads_map; [by apply loads_words|]. intros z. unfold mret, loader_mret. by rewrite !Nat2Z.id, objects_words.
Qed.

Lemma carries_code f : Forall (λ i, 0 <= i < 2 ^ 32) (pt_code f) →
  carries name (λ D, Some (DumpCode append h t f D)) (LoadCode M name swap) (pt_code f).
Proof.
  intros Hc. unfold DumpCode, LoadCode, sizecode.
  apply (carries_bind name (λ D, Some (DumpInt append h t (msize (pt_code f)) D)) (λ D, Some (DumpInstructions append h t (pt_code f) D)) _ _ (msize (pt_code f)));
    [apply carries_int, msize_nonneg|].
  intros D D' [= <-] Hs. destruct (instructions_write _ _ Hs) as [E0 Ed]. split; [done|]. exists (words tl 4 (pt_code f)).
  split_and!; [done|apply words_bytes|]. pose proof (loads_vector (pt_code f) 4 ltac:(by do 2 right; left)) as HL.
  replace (map _ (pt_code f)) with (pt_code f) in HL; [exact HL|]. symmetry. change (256 ^ Z.of_nat 4) with (2 ^ 32).
  clear HL E0 Ed Hs. induction Hc as [|i l Hi _ IH]; [done|]. cbn [map]. by rewrite IH, Z.mod_small.
Qed.

Lemma lines_write : ∀ l D D', DumpAll (λ x D, Some (DumpInt append h t x D)) l D = Some D' → d_status D' = 0 →
  d_status D = 0 ∧ d_data D' = d_data D ++ words tl (Z.to_nat (m_int M)) l ∧ Forall (λ x, fits (m_int M) x = true) l.
Proof.
  induction l as [|x l IH]; intros D D' E Hs; cbn [DumpAll] in E; [simplify_eq; by rewrite app_nil_r|].
  cbn in E. destruct (IH _ _ E Hs) as (H1 & Ed & Hl). unfold DumpInt in *. rewrite (su_int _ _ Hsuits) in *.
  destruct (sized_writes (m_int M) x D (su_int_size _ _ Hsuits) H1) as (Hf & E0 & Ed'). split; [done|]. split; [|by constructor].
  rewrite Ed, Ed'. unfold words. cbn [map concat]. by rewrite app_assoc.
Qed.

Lemma carries_lines l : carries name (λ D, DumpAll (λ x D, Some (DumpInt append h t x D)) l (DumpInt append h t (msize l) D))
  (n ← LoadInt M name swap; LoadInts M name swap n) l.
Proof.
  apply (carries_then name (DumpInt append h t (msize l)) _ _ _ (msize l)); [apply carries_int, msize_nonneg|].
  intros D D' E Hs. destruct (lines_write _ _ _ E Hs) as (E0 & Ed & Hl). split; [done|]. exists (words tl (Z.to_nat (m_int M)) l).
  split_and!; [done|apply words_bytes|]. destruct (size_cases _ (su_int_size _ _ Hsuits)) as (Hn & Ei & Hpos).
  pose proof (loads_vector l _ Hn) as HL. rewrite Ei in HL. unfold LoadInts. eapply loads_map; [exact HL|]. intros z. unfold mret, loader_mret. f_equal.
  clear HL E Ed E0. induction Hl as [|x l Hx _ IH]; [done|]. cbn [map]. by rewrite IH, signed_mod.
Qed.

(** A list, with its length before it. *)
Lemma carries_list {A B} (dump : A → dumper) (load : loader B) (g : A → B) l :
  (∀ a, a ∈ l → carries name (dump a) load (g a)) →
  carries name (λ D, DumpAll dump l (DumpInt append h t (Z.of_nat (length l)) D))
    (n ← LoadInt M name swap; LoadAll (Z.to_nat n) load) (map g l).
Proof.
  intros H. apply (carries_then name (DumpInt append h t (Z.of_nat (length l))) _ _ _ (Z.of_nat (length l))); [apply carries_int; lia|].
  rewrite Nat2Z.id. by apply carries_all.
Qed.


(** A reader that is a part of another. *)
Lemma carries_assoc {A B C} (d : dumper) (m : loader A) (f : A → loader B) (g : B → loader C) y :
  carries name d ((m ≫= f) ≫= g) y → carries name d (m ≫= λ a, f a ≫= g) y.
Proof.
  intros H D D' E Hs. destruct (H D D' E Hs) as (E0 & bs & Ed & Hb & [W P]). split; [done|]. exists bs. split_and!; [done..|].
  assert (∀ z, ((m ≫= f) ≫= g) z = (m ≫= λ a, f a ≫= g) z) as Heq by (intros z; unfold mbind, loader_mbind; by destruct (m z)).
  split; [intros z rest Hz; rewrite <- Heq; by apply W|intros z l more Hz Hm Hl; rewrite <- Heq; by apply (P z l more)].
Qed.

(** ** Debug information *)

Definition locvar_ok (v : LocVar) : Prop := string_ok (varname v) ∧ 0 <= startpc v ∧ 0 <= endpc v.

Lemma carries_locvar v : locvar_ok v → carries name (λ D, Some (DumpLocVar append h t v D)) (LoadLocVar M name swap) v.
Proof.
  intros (Hs & H1 & H2). unfold DumpLocVar, LoadLocVar.
  apply (carries_bind name (λ D, Some (DumpString append h t (varname v) D)) (λ D, Some (DumpInt append h t (endpc v) (DumpInt append h t (startpc v) D))) _ _ (varname v)); [by apply carries_string|].
  apply (carries_bind name (λ D, Some (DumpInt append h t (startpc v) D)) (λ D, Some (DumpInt append h t (endpc v) D)) _ _ (startpc v)); [by apply carries_int|].
  eapply carries_map; [by apply carries_int|]. by destruct v.
Qed.

(** What is left of debug information. *)
Definition kept {A} (l : list A) : list A := if strip then [] else l.

Lemma Forall_kept {A} (P : A → Prop) l : Forall P l → Forall P (kept l).
Proof. unfold kept. by destruct strip. Qed.

Lemma carries_debug f : Forall locvar_ok (locvars f) → Forall string_ok (upvalues f) →
  carries name (DumpDebug append h t strip f) (LoadDebug M name swap) (kept (lineinfo f), kept (locvars f), kept (upvalues f)).
Proof.
  intros Hv%Forall_kept Hu%Forall_kept. unfold LoadDebug. apply carries_assoc.
  apply (carries_bind name (λ D, DumpAll (λ x D, Some (DumpInt append h t x D)) (kept (lineinfo f)) (DumpInt append h t (msize (kept (lineinfo f))) D))
    (λ D, D ← DumpAll (λ v D, Some (DumpLocVar append h t v D)) (kept (locvars f)) (DumpInt append h t (Z.of_nat (length (kept (locvars f)))) D);
          DumpAll (λ s D, Some (DumpString append h t s D)) (kept (upvalues f)) (DumpInt append h t (Z.of_nat (length (kept (upvalues f)))) D))
    _ _ (kept (lineinfo f))); [apply carries_lines|]. apply carries_assoc.
  apply (carries_bind name (λ D, DumpAll (λ v D, Some (DumpLocVar append h t v D)) (kept (locvars f)) (DumpInt append h t (Z.of_nat (length (kept (locvars f)))) D))
    (λ D, DumpAll (λ s D, Some (DumpString append h t s D)) (kept (upvalues f)) (DumpInt append h t (Z.of_nat (length (kept (upvalues f)))) D)) _ _ (kept (locvars f))).
  - pose proof (carries_list (λ v D, Some (DumpLocVar append h t v D)) (LoadLocVar M name swap) id (kept (locvars f))) as H.
    rewrite map_id in H. apply H. intros v Hin. rewrite Forall_forall in Hv. apply carries_locvar. by apply Hv.
  - pose proof (carries_list (λ s D, Some (DumpString append h t s D)) (LoadString M name swap) id (kept (upvalues f))) as H.
    rewrite map_id in H. apply carries_assoc. eapply carries_map; [apply H|done].
    intros s Hin. rewrite Forall_forall in Hu. apply carries_string. by apply Hu.
Qed.
(** ** Functions *)

(** A function as the compiler makes it. *)
Record proto_ok (f : Proto) : Prop := {
  po_code : Forall (λ i, 0 <= i < 2 ^ 32) (pt_code f);
  po_k : Forall const_ok (pt_k f);
  po_vars : Forall locvar_ok (locvars f);
  po_ups : Forall string_ok (upvalues f);
  po_source : string_ok (source f);
  po_lines : 0 <= linedefined f ∧ 0 <= lastlinedefined f;
  po_bytes : lu_bytes f }.

(** The source that is loaded: a source that is not in the chunk is that of the enclosing function. *)
Definition moved_source (f : Proto) (pd pl : option mem) : option mem :=
  match (if bool_decide (source f = pd) || strip then None else source f) with None => pl | Some s => Some s end.

(** The function on the machine that loads; [pd] and [pl] are the sources of the enclosing function on the two machines. *)
Fixpoint moved (f : Proto) (pd pl : option mem) : Proto :=
  match f with
  | MkProto k code ps lines vars ups src first last nu np va stk =>
      let src' := match (if bool_decide (src = pd) || strip then None else src) with None => pl | Some s => Some s end in
      MkProto (map moved_const k) code (map (λ q, moved q src src') ps) (kept lines) (kept vars) (kept ups) src' first last nu np va stk
  end.

Lemma dump_subs src : ∀ ps D,
  (fix dump (l : list Proto) (D : DumpState) : option DumpState :=
     match l with [] => Some D | q :: l => D ← DumpFunction append h t strip q src D; dump l D end) ps D =
  DumpAll (λ q D, DumpFunction append h t strip q src D) ps D.
Proof. induction ps as [|q ps IH]; intros D; [done|]. cbn [DumpAll]. destruct (DumpFunction _ _ _ _ q src D); [apply IH|done]. Qed.

Lemma dump_function f pd D : DumpFunction append h t strip f pd D =
  (D ← DumpAll (DumpConstant append h t) (pt_k f) (DumpInt append h t (sizek f) (DumpCode append h t f (DumpFields append h t strip f pd D)));
   D ← DumpAll (λ q D, DumpFunction append h t strip q (source f) D) (pt_p f) (DumpInt append h t (sizep f) D);
   DumpDebug append h t strip f D).
Proof.
  destruct f as [k code ps lines vars ups src first last nu np va stk]. cbn [DumpFunction pt_p source pt_k].
  destruct (DumpAll _ k _); [|done]. cbn. by rewrite dump_subs.
Qed.

(** The checker accepts on the other machine what it accepts here. *)
Lemma moved_accepted f pd pl : luaG_checkcode f = Some true → luaG_checkcode (moved f pd pl) = Some true.
Proof.
  destruct f as [k code ps lines vars ups src first last nu np va stk]. intros Hok. eapply check_shape; [| | |exact Hok]; cbn [moved].
  - split; cbn; try done.
    + rewrite map_map. apply map_ext. by intros [].
    + rewrite map_map. apply map_ext. by intros [].
  - unfold sizeupvalues, kept. cbn. destruct strip; cbn; lia.
  - unfold sizelineinfo, kept. cbn. destruct strip; cbn; auto.
Qed.

(** The first writer of a composition, and the first reader. *)
Ltac first_dump P y :=
  match goal with |- carries ?n ?d ?l ?r =>
    let F := constr:(λ D : DumpState (W := mem), ltac:(
      let b := eval cbv beta in (d D) in let b' := eval pattern (P D) in b in match b' with ?g _ => exact g end)) in
    match F with λ _, ?g => change (carries n (λ D, g (P D)) l r); apply (carries_then n P g _ _ y) end
  end.

Lemma carries_function : ∀ f depth pd pl, every proto_ok f → every (λ f, luaG_checkcode f = Some true) f → (proto_depth f <= depth)%nat →
  carries name (DumpFunction append h t strip f pd) (LoadFunction M name swap numsize toflt depth pl) (moved f pd pl).
Proof.
  induction f as [f IH] using Proto_rect_strong. intros depth pd pl Hok Hacc Hd.
  destruct depth as [|depth]; [destruct f; cbn in Hd; lia|].
  pose proof (every_here _ _ Hok) as [Hcode Hk Hv Hu Hsrc [Hl1 Hl2] (Hb1 & Hb2 & Hb3 & Hb4)].
  eapply carries_ext; [intros D; apply dump_function|]. cbn [LoadFunction]. unfold DumpFields. cbv zeta.
  set (src := if bool_decide (source f = pd) || strip then None else source f).
  first_dump (DumpString append h t src) src.
  { apply carries_string. unfold src. by case_match. }
  first_dump (DumpInt append h t (linedefined f)) (linedefined f); [by apply carries_int|].
  first_dump (DumpInt append h t (lastlinedefined f)) (lastlinedefined f); [by apply carries_int|].
  first_dump (DumpChar append (nups f)) (nups f); [by apply carries_lu_byte|].
  first_dump (DumpChar append (numparams f)) (numparams f); [by apply carries_lu_byte|].
  first_dump (DumpChar append (is_vararg f)) (is_vararg f); [by apply carries_lu_byte|].
  first_dump (DumpChar append (maxstacksize f)) (maxstacksize f); [by apply carries_lu_byte|].
  first_dump (DumpCode append h t f) (pt_code f); [by apply carries_code|]. cbv beta.
  apply carries_assoc.
  apply (carries_bind name (λ D, DumpAll (DumpConstant append h t) (pt_k f) (DumpInt append h t (sizek f) D)) _ _ _ (map moved_const (pt_k f))).
  { apply carries_list. intros o Ho. apply carries_constant. rewrite Forall_forall in Hk. by apply Hk. }
  set (pl' := match src with None => pl | Some s => Some s end). apply carries_assoc.
  apply (carries_bind name (λ D, DumpAll (λ q D, DumpFunction append h t strip q (source f) D) (pt_p f) (DumpInt append h t (sizep f) D)) _ _ _
    (map (λ q, moved q (source f) pl') (pt_p f))).
  { apply (carries_list (λ q D, DumpFunction append h t strip q (source f) D) _ (λ q, moved q (source f) pl')). intros q Hq.
    rewrite Forall_forall in IH. pose proof (depth_sub f q Hq). apply IH; [done| | |lia].
    - pose proof (every_sub _ _ Hok) as H1. rewrite Forall_forall in H1. by apply H1.
    - pose proof (every_sub _ _ Hacc) as H1. rewrite Forall_forall in H1. by apply H1. }
  eapply carries_map; [by apply carries_debug|]. intros z. cbv beta iota zeta.
  pose proof (moved_accepted f pd pl (every_here _ _ Hacc)) as Hm.
  assert (moved f pd pl = MkProto (map moved_const (pt_k f)) (pt_code f) (map (λ q, moved q (source f) pl') (pt_p f)) (kept (lineinfo f))
    (kept (locvars f)) (kept (upvalues f)) pl' (linedefined f) (lastlinedefined f) (nups f) (numparams f) (is_vararg f) (maxstacksize f)) as E by (by destruct f).
  fold pl'. rewrite <- E, Hm. done.
Qed.
(** ** Whole chunks *)

Lemma number_size : numsize ∈ [1; 2; 4; 8].
Proof.
  pose proof (su_num _ _ Hsuits) as Hn. destruct (lua_Number_integral t).
  - destruct Hn as [Hn _]. rewrite !elem_of_cons in *. tauto.
  - destruct Hn as (_ & -> & _). do 3 right. left.
Qed.

Lemma char_int_byte c : 0 <= c < 128 → char_int M c = c.
Proof. intros Hc. unfold char_int, s8. destruct (m_schar M); [|done]. rewrite u8_id by lia. by rewrite (proj2 (Z.ltb_lt _ _)) by lia. Qed.

Lemma carries_header : carries name (λ D, Some (DumpHeader append t D)) (LoadHeader M name) (swap, numsize, toflt).
Proof.
  pose proof number_size as Hn. pose proof (su_int_size _ _ Hsuits) as Hi.
  assert (0 <= numsize < 128 ∧ 0 <= m_int M < 128) as [Hn' Hi'] by (rewrite !elem_of_cons in Hn; rewrite !elem_of_cons in Hi; rewrite elem_of_nil in Hn; rewrite elem_of_nil in Hi; lia).
  unfold DumpHeader. rewrite (su_int _ _ Hsuits), (su_str _ _ Hsuits). rewrite (u8_id (m_int M)), (u8_id numsize), (u8_id 4) by lia.
  apply carries_block.
  { unfold LUA_SIGNATURE, LUAC_VERSION, LUAC_FORMAT, sizeof_Instruction. cbn [app].
    repeat (apply Forall_cons_2; [unfold byte_ok; try lia; unfold cbool; by case_match|]). apply Forall_nil_2. }
  unfold LoadHeader. eapply loads_map; [by apply loads_block|]. intros z. cbn [app LUA_SIGNATURE nth list_insert insert luaU_header].
  assert ((cbool (h_intnum (m_host M)) <? char_int M (cbool (lua_Number_integral t))) = toflt) as ->.
  { rewrite char_int_byte by (by destruct (lua_Number_integral t)). by destruct (lua_Number_integral t), (h_intnum (m_host M)). }
  assert (lua_Number_integral t = false → h_intnum (m_host M) = false) as Hk.
  { intros E. pose proof (su_num _ _ Hsuits) as H. rewrite E in H. tauto. }
  assert (negb (cbool tl =? cbool (m_little M)) = swap) as -> by (by destruct tl, (m_little M)).
  destruct (lua_Number_integral t), (h_intnum (m_host M)); try (by specialize (Hk eq_refl)); cbn [andb negb nth];
    rewrite bool_decide_true, (char_int_byte numsize) by done; done.
Qed.

Lemma carries_chunk f n : every proto_ok f → every (λ f, luaG_checkcode f = Some true) f → (proto_depth f <= Z.to_nat (LUAI_MAXCCALLS - n))%nat →
  carries name (λ D, DumpFunction append h t strip f None (DumpHeader append t D)) (luaU_undump M name n) (moved f None (Some [61; 63])).
Proof.
  intros Hok Hacc Hd. unfold luaU_undump.
  apply (carries_then name (DumpHeader append t) (DumpFunction append h t strip f None) _ _ (swap, numsize, toflt)); [apply carries_header|].
  by apply carries_function.
Qed.

Lemma dumped_chunk f n out : every proto_ok f → every (λ f, luaG_checkcode f = Some true) f → (proto_depth f <= Z.to_nat (LUAI_MAXCCALLS - n))%nat →
  luaU_dump_crosscompile append h t strip f [] = Some (0, out) →
  bytes_ok out ∧ loads name (luaU_undump M name n) out (moved f None (Some [61; 63])).
Proof.
  intros Hok Hacc Hd E. unfold luaU_dump_crosscompile in E. apply bind_Some in E as (D & E & E'). injection E' as Es Eo.
  destruct (carries_chunk f n Hok Hacc Hd _ _ E Es) as (_ & bs & Ed & Hb & HL). cbn in Ed. rewrite <- Eo, Ed. done.
Qed.
End cross.

Lemma init_holds blocks l : Forall (λ b, b ≠ []) blocks → concat blocks = l → bytes_ok l → holds (luaZ_init blocks) l.
Proof. intros Hb E Hl. done. Qed.

(** C9: a program that is compiled on one machine for another arrives: when the cross compiler reports no error, what it wrote is
    loaded on the target, or on a machine that can load the target's chunks (of the other byte order; with doubles, where the
    target has integers), however the reader cuts it into blocks, as the same function: with its numbers as they are there
    and, if they were stripped, without debug information; what follows in the input is not touched. *)
Theorem chunk_crosses h t strip M name f n out blocks rest : suits t M →
  every (proto_ok h t) f → every (λ f, luaG_checkcode f = Some true) f → (proto_depth f <= Z.to_nat (LUAI_MAXCCALLS - n))%nat →
  luaU_dump_crosscompile append h t strip f [] = Some (0, out) →
  Forall (λ b, b ≠ []) blocks → concat blocks = out ++ rest → bytes_ok rest →
  ∃ z, luaU_undump M name n (luaZ_init blocks) = Loaded (moved t strip M f None (Some [61; 63])) z ∧ holds z rest.
Proof.
  intros Hs Hok Hacc Hd E Hb Ec Hr. destruct (dumped_chunk h t strip M name Hs f n out Hok Hacc Hd E) as [Ho [W _]].
  apply W, init_holds; [done..|]. by apply bytes_ok_app.
Qed.

(** C14: a chunk that is not whole is refused: whatever part of it the input has, the loader stops at its end with an error that says
    so, and makes no function of it. *)
Theorem chunk_cut_refused h t strip M name f n out blocks l more : suits t M →
  every (proto_ok h t) f → every (λ f, luaG_checkcode f = Some true) f → (proto_depth f <= Z.to_nat (LUAI_MAXCCALLS - n))%nat →
  luaU_dump_crosscompile append h t strip f [] = Some (0, out) →
  Forall (λ b, b ≠ []) blocks → out = l ++ more → more ≠ [] → concat blocks = l →
  luaU_undump M name n (luaZ_init blocks) = NotLoaded (BadChunk (chunk_name name) "unexpected end").
Proof.
  intros Hs Hok Hacc Hd E Hb El Hm Ec. destruct (dumped_chunk h t strip M name Hs f n out Hok Hacc Hd E) as [Ho [_ P]].
  apply (P _ l more); [|done..]. apply init_holds; [done..|]. subst out. by apply bytes_ok_app in Ho as [? _].
Qed.

(** ** On concrete machines *)

Definition pc : host := Host true false 8.
Definition board_int : machine := Machine (Host true true 4) 4 false false.
Definition board_big : machine := Machine (Host false false 8) 4 true false.
Definition for_int : DumpTargetInfo := Target true 4 4 4 true false.
Definition for_big : DumpTargetInfo := Target false 4 4 8 false false.

(** [return x, 70000, "a", true, nil], with a function inside. *)
Definition inner : Proto := MkProto [] [CREATE_ABC 30 0 1 0] [] [7] [] [] (Some [64; 97]) 2 3 0 0 0 2.
Definition outer : Proto :=
  MkProto [KString (Some [120]); KNumber (NDbl (dbl_of_int 70000)); KString (Some [97]); KBool true; KNil]
    [CREATE_ABx 5 0 0; CREATE_ABx 1 1 1; CREATE_ABx 1 2 2; CREATE_ABx 36 3 0; CREATE_ABC 30 0 4 0; CREATE_ABC 30 0 1 0]
    [inner] [1; 1; 1; 2; 3; 3] [LVar (Some [121]) 1 5] [] (Some [64; 97]) 0 0 0 0 2 5.

Lemma outer_ok t : every (proto_ok pc t) outer.
Proof.
  split.
  - split; cbn; repeat first [apply Forall_cons_2 | apply Forall_nil_2 | split]; try done.
  - split; [|done]. split; [|done]. split; cbn; repeat first [apply Forall_cons_2 | apply Forall_nil_2 | split]; try done.
Qed.

Lemma outer_accepted : every (λ f, luaG_checkcode f = Some true) outer.
Proof. split; [vm_compute; reflexivity|]. split; [|done]. split; [vm_compute; reflexivity|done]. Qed.

Lemma suits_int : suits for_int board_int.
Proof. split; cbn; try done; [by do 2 right; left|by do 2 right; left|]. split; [by do 2 right; left|done]. Qed.

Lemma suits_big : suits for_big board_big.
Proof. split; cbn; try done. by do 2 right; left. Qed.

(** The chunk of [outer] for a target. *)
Definition chunk_for (t : DumpTargetInfo) (strip : bool) : mem :=
  match luaU_dump_crosscompile append pc t strip outer [] with Some (_, out) => out | None => [] end.

Lemma chunk_crosses_witness : ∃ z,
  luaU_undump board_int [64; 97] 3 (luaZ_init [take 10 (chunk_for for_int false); drop 10 (chunk_for for_int false) ++ [1; 2]]) =
  Loaded (moved for_int false board_int outer None (Some [61; 63])) z ∧ holds z [1; 2].
Proof.
  apply (chunk_crosses pc for_int false board_int [64; 97] outer 3 (chunk_for for_int false)).
  - exact suits_int.
  - exact (outer_ok for_int).
  - exact outer_accepted.
  - vm_compute. lia.
  - vm_compute. reflexivity.
  - apply Forall_cons_2; [by vm_compute|]. apply Forall_cons_2; [by vm_compute|apply Forall_nil_2].
  - vm_compute. reflexivity.
  - apply Forall_cons_2; [done|]. by apply bytes_ok_one.
Defined.

Lemma chunk_cut_refused_witness :
  luaU_undump board_big [61; 98] 0 (luaZ_init [take 100 (chunk_for for_big true)]) = NotLoaded (BadChunk [98] "unexpected end").
Proof.
  apply (chunk_cut_refused pc for_big true board_big [61; 98] outer 0 (chunk_for for_big true) _ (take 100 (chunk_for for_big true)) (drop 100 (chunk_for for_big true))).
  - exact suits_big.
  - exact (outer_ok for_big).
  - exact outer_accepted.
  - vm_compute. lia.
  - vm_compute. reflexivity.
  - apply Forall_cons_2; [by vm_compute|apply Forall_nil_2].
  - by rewrite take_drop.
  - by vm_compute.
  - vm_compute. reflexivity.
Defined.

(** On the board with integers 70000 is the integer; on that of the other byte order it is the same double. *)
Example outer_moved : map (moved_const for_int board_int) (pt_k outer) =
    [KString (Some [120]); KNumber (NInt 70000); KString (Some [97]); KBool true; KNil] ∧
  map (moved_const for_big board_big) (pt_k outer) = pt_k outer.
Proof. split; vm_compute; reflexivity. Qed.

(** ** What the cross compiler refuses, and what the loader does not *)

Definition constant (x : lua_Number) : Proto := MkProto [KNumber x] [CREATE_ABC 30 0 1 0] [] [] [] [] None 0 0 0 0 0 1.

(** The test for integers goes through single precision: a larger integer with more than 24 bits is no integer to it, though
    the target has it. *)
Example integer_refused :
  fst <$> luaU_dump_crosscompile append pc for_int false (constant (NDbl (dbl_of_int 16777216))) [] = Some 0 ∧
  fst <$> luaU_dump_crosscompile append pc for_int false (constant (NDbl (dbl_of_int 16777217))) [] = Some LUA_ERR_CC_NOTINTEGER.
Proof. split; vm_compute; reflexivity. Qed.

(** Half of an integer is refused, and so it should be. *)
Example fraction_refused :
  fst <$> luaU_dump_crosscompile append pc for_int false (constant (NDbl 4602678819172646912)) [] = Some LUA_ERR_CC_NOTINTEGER.
Proof. vm_compute. reflexivity. Qed.

(** The largest and the smallest integers are refused too, also by [string.dump] on a machine with integers. *)
Example extremes_refused :
  fst <$> luaU_dump append (Host true true 4) false (constant (NInt 2147483647)) [] = Some LUA_ERR_CC_INTOVERFLOW ∧
  fst <$> luaU_dump append (Host true true 4) false (constant (NInt (-2147483648))) [] = Some LUA_ERR_CC_INTOVERFLOW.
Proof. split; vm_compute; reflexivity. Qed.

(** The size of numbers in the header is not compared: a machine with 32-bit integers takes a chunk for 16 bits, and reads two
    bytes too many for each number. This one is loaded and accepted with other constants: 17104901 and nil, not 5 and 1. *)
Definition for_short : DumpTargetInfo := Target true 4 4 2 true false.

Definition two_numbers : Proto :=
  MkProto [KNumber (NDbl (dbl_of_int 5)); KNumber (NDbl (dbl_of_int 1))] [CREATE_ABC 30 0 1 0] [] [] [] [] None 0 0 0 0 0 1.

Example number_size_not_checked :
  match luaU_dump_crosscompile append pc for_short false two_numbers [] with
  | Some (status, out) =>
      status = 0 ∧
      match luaU_undump board_int [] 0 (luaZ_init [out]) with
      | Loaded f z => pt_k f = [KNumber (NInt 17104901); KNil] ∧ luaG_checkcode f = Some true ∧ z = Zio [] []
      | NotLoaded _ => False
      end
  | None => False
  end.
Proof. vm_compute. done. Qed.

(** ** Any input *)

Section any.
Context (M : machine) (name : mem) (swap : bool) (numsize : Z) (toflt : bool).

Lemma bind_Loaded {A B} (m : loader A) (f : A → loader B) z b z' :
  (m ≫= f) z = Loaded b z' → ∃ a z1, m z = Loaded a z1 ∧ f a z1 = Loaded b z'.
Proof. unfold mbind, loader_mbind. destruct (m z) as [a z1|e]; [eauto|done]. Qed.

Lemma all_loaded {A} (P : A → Prop) (load : loader A) : (∀ z a z', load z = Loaded a z' → P a) →
  ∀ n z l z', LoadAll n load z = Loaded l z' → Forall P l.
Proof.
  intros H. induction n as [|n IH]; intros z l z' E; cbn [LoadAll] in E; [by injection E as <- _|].
  apply bind_Loaded in E as (a & z1 & Ea & E). apply bind_Loaded in E as (l' & z2 & El & E). injection E as <- _. constructor; eauto.
Qed.

Lemma byte_loaded z c z' : LoadByte M name swap z = Loaded c z' → byte_ok c.
Proof. intros E. unfold LoadByte in E. apply bind_Loaded in E as (a & z1 & _ & E). injection E as <- _. apply u8_range. Qed.

(** What the checker has accepted, with its fields of one byte. *)
Definition checked_function (f : Proto) : Prop := luaG_checkcode f = Some true ∧ lu_bytes f.

Lemma every_intro P f : P f → Forall (every P) (pt_p f) → every P f.
Proof. destruct f as [? ? ps]. cbn [pt_p]. intros Hf Hs. split; [done|]. clear Hf. induction Hs as [|q ps Hq _ IH]; [done|by split]. Qed.

Lemma depth_intro f d : Forall (λ q, (proto_depth q <= d)%nat) (pt_p f) → (proto_depth f <= S d)%nat.
Proof. destruct f as [? ? ps]. cbn [pt_p proto_depth]. intros Hs. induction Hs as [|q ps Hq _ IH]; cbn; lia. Qed.

Lemma function_loaded : ∀ depth p z f z', LoadFunction M name swap numsize toflt depth p z = Loaded f z' →
  every checked_function f ∧ (proto_depth f <= depth)%nat.
Proof.
  induction depth as [|depth IH]; intros p z f z' E; cbn [LoadFunction] in E; [unfold error in E; discriminate E|].
  repeat (let a := fresh "a" in let y := fresh "y" in let Ea := fresh "Ea" in apply bind_Loaded in E as (a & y & Ea & E)).
  destruct a11 as [[lines vars] ups]. cbv zeta in E.
  match type of E with (match luaG_checkcode ?g with _ => _ end) _ = _ => destruct (luaG_checkcode g) as [[]|] eqn:Eg; [|unfold error in E; discriminate E|unfold fail in E; discriminate E] end.
  injection E as <- _.
  pose proof (all_loaded _ _ (IH _) _ _ _ _ Ea10) as [H1 H2]%Forall_and. split; [|by apply depth_intro].
  apply every_intro; [|exact H1]. split; [exact Eg|]. repeat split; cbn; by eapply byte_loaded.
Qed.
End any.

(** C15: whatever input arrives, of any origin: a function that is loaded has been checked, with every function inside it, so that
    running it is as safe as the checker makes it; and the nesting is no deeper than the limit of C calls allows. *)
Theorem loaded_chunk_checked M name n z f z' : luaU_undump M name n z = Loaded f z' →
  every checked_function f ∧ (proto_depth f <= Z.to_nat (LUAI_MAXCCALLS - n))%nat.
Proof.
  intros E. unfold luaU_undump in E. apply bind_Loaded in E as ([[swap numsize] toflt] & z1 & _ & E). by apply function_loaded in E.
Qed.

Lemma loaded_chunk_checked_witness : ∃ f z,
  luaU_undump board_big [] 0 (luaZ_init [chunk_for for_big true]) = Loaded f z ∧ every checked_function f ∧ (proto_depth f <= 200)%nat.
Proof.
  eexists _, _. split; [vm_compute; reflexivity|]. apply (loaded_chunk_checked board_big [] 0 (luaZ_init [chunk_for for_big true]) _ (Zio [] [])).
  vm_compute. reflexivity.
Defined.
