(* ===== verification/LuaApi.v ===== *)
(** * The interface of Lua to C

    The part of src/lua/lapi.c, src/lua/lvm.c and src/lua/ltable.c that the remote calls of Lua use: the stack of a C function, tables, fields,
    and calls. A table is the list of its entries in the order of [lua_next]; what a metamethod or a called function does is a
    parameter. A C function may push as many values as it has slots ([LUA_MINSTACK] of them when it is called). *)
From S2P Require Import Prelude Exchange LuaNum.

(** ** Values *)

Inductive value :=
  | VNil
  | VBool (b : bool)
  | VRotable (p : Z)
  | VLightFunction (p : Z)
  | VLightUserdata (p : Z)
  | VNumber (x : lua_Number)
  | VString (s : mem)
  | VTable (r : Z)
  | VFunction (f : Z)
  | VCFunction (f : Z)
  | VUserdata (u : Z)
  | VThread (p : Z).

#[export] Instance value_eq_dec : EqDecision value.
Proof. solve_decision. Defined.

(** Whether the metatable of a table has these events. *)
Record metatable := Meta { m_index : bool; m_newindex : bool }.

Definition no_meta : metatable := Meta false false.

Record table := Table { t_entries : list (value * value); t_metatable : metatable }.

(** What a block of userdata holds: an object of the remote calls, or another module's. *)
Inductive udata :=
  | UHelper (parent : option Z) (nparents : Z) (funcname : mem)
  | UHandle
  | UServerHandle
  | UOther (p : Z).

(** The stack has its top first; [l_slots] is the room of the running C function ([L->ci->top]). *)
Record lua_State := LState {
  l_stack : list value; l_slots : Z; l_heap : gmap Z table; l_udata : gmap Z udata; l_globals : Z }.

Definition set_stack (L : lua_State) (s : list value) : lua_State := LState s (l_slots L) (l_heap L) (l_udata L) (l_globals L).
Definition set_heap (L : lua_State) (h : gmap Z table) : lua_State := LState (l_stack L) (l_slots L) h (l_udata L) (l_globals L).

(** What a function of the interface does: a result, a Lua error, or what is undefined. *)
Inductive lres (A : Type) := LOk (a : A) | LErr (msg : mem) | LUndef.
Arguments LOk {A} _.
Arguments LErr {A} _.
Arguments LUndef {A}.

Definition lua_bind {A B} (r : lres A) (f : A → lres B) : lres B :=
  match r with LOk a => f a | LErr m => LErr m | LUndef => LUndef end.

#[export] Instance lres_mbind : MBind lres := λ A B f r, lua_bind r f.

Definition lopt {A} (o : option A) : lres A := match o with Some a => LOk a | None => LUndef end.

(** The parts of Lua that are parameters: metamethods and read-only tables, calls, the dump of a function and the load of
    a text or a dump, texts of numbers, the message of a wrong argument, and the position of the caller. *)
Class LuaVM := {
  index_tm : value → value → gmap Z table → (value + mem) * gmap Z table;
  newindex_tm : value → value → value → gmap Z table → option mem * gmap Z table;
  lua_calls : value → list value → gmap Z table → (list value + Z * value) * gmap Z table;
  luaU_dump : bool → Z → bool → Z → mem;
  luaL_load : mem → Z + mem;
  number2str : lua_Number → mem;
  str2number : mem → option lua_Number;
  luaL_argerror : Z → mem → mem;
  luaL_where : mem
}.

(** ** The stack *)

Definition lua_gettop (L : lua_State) : Z := Z.of_nat (length (l_stack L)).

(** The place of an index, from the top. *)
Definition index2adr (L : lua_State) (idx : Z) : option nat :=
  let n := lua_gettop L in
  if (0 <? idx) && (idx <=? n) then Some (Z.to_nat (n - idx))
  else if (idx <? 0) && (- idx <=? n) then Some (Z.to_nat (- idx - 1))
  else None.

Definition lua_index (L : lua_State) (idx : Z) : option value := a ← index2adr L idx; l_stack L !! a.

Definition lua_push (v : value) (L : lua_State) : lres lua_State :=
  if lua_gettop L <? l_slots L then LOk (set_stack L (v :: l_stack L)) else LUndef.

Definition lua_settop (idx : Z) (L : lua_State) : lres lua_State :=
  let n := if 0 <=? idx then idx else lua_gettop L + idx + 1 in
  if n <? 0 then LUndef
  else if n <=? lua_gettop L then LOk (set_stack L (drop (Z.to_nat (lua_gettop L - n)) (l_stack L)))
  else if n <=? l_slots L then LOk (set_stack L (replicate (Z.to_nat (n - lua_gettop L)) VNil ++ l_stack L))
  else LUndef.

Definition lua_pop (n : Z) (L : lua_State) : lres lua_State := lua_settop (- n - 1) L.

Definition lua_remove (idx : Z) (L : lua_State) : lres lua_State :=
  a ← lopt (index2adr L idx); LOk (set_stack L (take a (l_stack L) ++ drop (S a) (l_stack L))).

(** The top goes to the place of the index. *)
Definition lua_insert (idx : Z) (L : lua_State) : lres lua_State :=
  a ← lopt (index2adr L idx);
  match l_stack L with v :: l => LOk (set_stack L (take a l ++ v :: drop a l)) | [] => LUndef end.

Definition lua_replace (idx : Z) (L : lua_State) : lres lua_State :=
  a ← lopt (index2adr L idx);
  match l_stack L with v :: l => LOk (set_stack L (drop 1 (<[a := v]> (l_stack L)))) | [] => LUndef end.

Definition lua_pushvalue (idx : Z) (L : lua_State) : lres lua_State := v ← lopt (lua_index L idx); lua_push v L.

(** A block of userdata; its metatable is that of its kind. *)
Definition new_udata (m : gmap Z udata) : Z := map_fold (λ r _ n, Z.max n (r + 1)) 0 m.

Definition lua_newuserdata (d : udata) (L : lua_State) : lres lua_State :=
  let u := new_udata (l_udata L) in
  lua_push (VUserdata u) (LState (l_stack L) (l_slots L) (l_heap L) (<[u := d]> (l_udata L)) (l_globals L)).

Definition lua_touserdata (L : lua_State) (idx : Z) : option (Z * udata) :=
  match lua_index L idx with Some (VUserdata u) => d ← l_udata L !! u; Some (u, d) | _ => None end.

(** ** Tables *)

Definition rawequalObj (a b : value) : bool :=
  match a, b with VNumber x, VNumber y => num_eqb x y | _, _ => bool_decide (a = b) end.

Definition luaH_get (l : list (value * value)) (k : value) : value :=
  match list_find (λ e, rawequalObj e.1 k = true) l with Some (_, (_, v)) => v | None => VNil end.

(** A value for a key: in its place, or new; an entry that becomes nil is none. *)
Definition entries_set (l : list (value * value)) (k v : value) : list (value * value) :=
  match list_find (λ e, rawequalObj e.1 k = true) l with
  | Some (i, (k', _)) => if decide (v = VNil) then take i l ++ drop (S i) l else <[i := (k', v)]> l
  | None => if decide (v = VNil) then l else l ++ [(k, v)]
  end.

Definition luaH_set (l : list (value * value)) (k v : value) : lres (list (value * value)) :=
  match k with
  | VNil => LErr (ascii_bytes "table index is nil")
  | VNumber x => if num_nan x then LErr (ascii_bytes "table index is NaN") else LOk (entries_set l k v)
  | _ => LOk (entries_set l k v)
  end.

Definition set_entries (L : lua_State) (r : Z) (t : table) (l : list (value * value)) : lua_State :=
  set_heap L (<[r := Table l (t_metatable t)]> (l_heap L)).

(** A reference that no table has. *)
Definition new_ref (h : gmap Z table) : Z := map_fold (λ r _ m, Z.max m (r + 1)) 0 h.

Definition lua_newtable (L : lua_State) : lres lua_State :=
  let r := new_ref (l_heap L) in lua_push (VTable r) (set_heap L (<[r := Table [] no_meta]> (l_heap L))).

Definition lua_rawset (idx : Z) (L : lua_State) : lres lua_State :=
  match l_stack L, lua_index L idx with
  | v :: k :: l, Some (VTable r) =>
      t ← lopt (l_heap L !! r);
      es ← luaH_set (t_entries t) k v;
      LOk (set_stack (set_entries L r t es) l)
  | _, _ => LUndef
  end.

(** The entry after a key; the first after nil. *)
Fixpoint luaH_next (l : list (value * value)) (k : value) : lres (option (value * value)) :=
  match l with
  | [] => LErr (ascii_bytes "invalid key to 'next'")
  | (k', _) :: l => if rawequalObj k' k then LOk (head l) else luaH_next l k
  end.

Definition lua_next (idx : Z) (L : lua_State) : lres (bool * lua_State) :=
  match l_stack L, lua_index L idx with
  | k :: l, Some (VTable r) =>
      t ← lopt (l_heap L !! r);
      e ← (if decide (k = VNil) then LOk (head (t_entries t)) else luaH_next (t_entries t) k);
      match e with
      | Some (k', v) => L ← lua_push v (set_stack L (k' :: l)); LOk (true, L)
      | None => LOk (false, set_stack L l)
      end
  | _, _ => LUndef
  end.

(** ** Fields *)

Definition luaT_typename (v : value) : string :=
  match v with
  | VNil => "nil" | VBool _ => "boolean" | VRotable _ => "romtable" | VLightFunction _ => "lightfunction" | VLightUserdata _ => "userdata"
  | VNumber _ => "number" | VString _ => "string" | VTable _ => "table" | VFunction _ | VCFunction _ => "function"
  | VUserdata _ => "userdata" | VThread _ => "thread"
  end.

Definition luaG_typeerror {A} (v : value) : lres A := LErr (ascii_bytes ("attempt to index a " +:+ luaT_typename v +:+ " value")).

(** The name of the type of what is at an index. *)
Definition luaL_typename (L : lua_State) (idx : Z) : string := match lua_index L idx with Some v => luaT_typename v | None => "no value" end.

Section vm.
Context {vm : LuaVM}.

Definition by_tm (r : (value + mem) * gmap Z table) (L : lua_State) : lres (value * lua_State) :=
  match r with (inl v, h) => LOk (v, set_heap L h) | (inr m, _) => LErr m end.

(** Values other than tables, read-only tables, strings and userdata have no metatable. *)
Definition luaV_gettable (t k : value) (L : lua_State) : lres (value * lua_State) :=
  match t with
  | VTable r =>
      tb ← lopt (l_heap L !! r);
      let v := luaH_get (t_entries tb) k in
      if negb (bool_decide (v = VNil)) || negb (m_index (t_metatable tb)) then LOk (v, L) else by_tm (index_tm t k (l_heap L)) L
  | VRotable _ | VString _ | VUserdata _ => by_tm (index_tm t k (l_heap L)) L
  | _ => luaG_typeerror t
  end.

Definition luaV_settable (t k v : value) (L : lua_State) : lres lua_State :=
  match t with
  | VTable r =>
      tb ← lopt (l_heap L !! r);
      es ← luaH_set (t_entries tb) k v;
      if negb (bool_decide (luaH_get (t_entries tb) k = VNil)) || negb (m_newindex (t_metatable tb)) then LOk (set_entries L r tb es)
      else match newindex_tm t k v (l_heap L) with (None, h) => LOk (set_heap L h) | (Some m, _) => LErr m end
  | VRotable _ | VString _ | VUserdata _ => match newindex_tm t k v (l_heap L) with (None, h) => LOk (set_heap L h) | (Some m, _) => LErr m end
  | _ => luaG_typeerror t
  end.

Definition lua_getfield (idx : Z) (k : mem) (L : lua_State) : lres lua_State :=
  t ← lopt (lua_index L idx); '(v, L) ← luaV_gettable t (VString k) L; lua_push v L.

Definition lua_getglobal (k : mem) (L : lua_State) : lres lua_State :=
  '(v, L) ← luaV_gettable (VTable (l_globals L)) (VString k) L; lua_push v L.

Definition lua_settable (idx : Z) (L : lua_State) : lres lua_State :=
  match l_stack L with
  | v :: k :: l => t ← lopt (lua_index L idx); L ← luaV_settable t k v L; LOk (set_stack L l)
  | _ => LUndef
  end.

Definition lua_setglobal (k : mem) (L : lua_State) : lres lua_State :=
  match l_stack L with
  | v :: l => L' ← lua_push (VString k) L; L' ← luaV_settable (VTable (l_globals L)) (VString k) v L'; LOk (set_stack L' l)
  | _ => LUndef
  end.

(** The text of a string or a number, which becomes a string where it is. *)
Definition lua_tolstring (idx : Z) (L : lua_State) : lres (option mem * lua_State) :=
  match lua_index L idx, index2adr L idx with
  | Some (VString s), _ => LOk (Some s, L)
  | Some (VNumber x), Some a => LOk (Some (number2str x), set_stack L (<[a := VString (number2str x)]> (l_stack L)))
  | _, _ => LOk (None, L)
  end.

Definition LUA_ERRRUN : Z := 2.

(** [lua_pcall( L, nargs, nresults, 0 )]: the function and its arguments give way to the results, all of them and as much
    room as they need if [nresults] is [LUA_MULTRET], or to the error. *)
Definition LUA_MULTRET : Z := -1.

Definition lua_pcall (nargs nresults : Z) (L : lua_State) : lres (Z * lua_State) :=
  if nargs <? 0 then LUndef
  else
    let args := rev (take (Z.to_nat nargs) (l_stack L)) in
    match drop (Z.to_nat nargs) (l_stack L) with
    | f :: l =>
        if Z.of_nat (length args) <? nargs then LUndef
        else match lua_calls f args (l_heap L) with
             | (inl rs, h) =>
                 let rs := if nresults =? LUA_MULTRET then rs else take (Z.to_nat nresults) rs ++ replicate (Z.to_nat nresults - length rs) VNil in
                 let s := rev rs ++ l in
                 LOk (0, LState s (if nresults =? LUA_MULTRET then Z.max (l_slots L) (Z.of_nat (length s)) else l_slots L) h (l_udata L) (l_globals L))
             | (inr (code, e), h) => LOk (code, LState (e :: l) (l_slots L) h (l_udata L) (l_globals L))
             end
    | [] => LUndef
    end.

(** A number, or a string that is one. *)
Definition lua_tonumber (idx : Z) (L : lua_State) : option lua_Number :=
  match lua_index L idx with Some (VNumber x) => Some x | Some (VString s) => str2number s | _ => None end.

(** A Lua function can be dumped, by a build for other machines in the format of the negotiated byte order and numbers; of
    another closure the code takes what is no prototype. *)
Definition luaL_dump (little : bool) (bytes : Z) (intnum : bool) (idx : Z) (L : lua_State) : lres mem :=
  match lua_index L idx with Some (VFunction f) => LOk (luaU_dump little bytes intnum f) | _ => LUndef end.

Definition luaL_loadbuffer (s : mem) (L : lua_State) : lres lua_State :=
  lua_push (match luaL_load s with inl f => VFunction f | inr m => VString m end) L.

(** [lua_pushfstring] without arguments: a conversion takes one that is not there. *)
Fixpoint luaO_pushvfstring (fmt : mem) : option mem :=
  match fmt with
  | [] => Some []
  | e :: fmt =>
      if e =? 37 then
        match fmt with
        | [] => None
        | c :: fmt =>
            if bool_decide (c ∈ [115; 99; 100; 102; 112]) then None
            else m ← luaO_pushvfstring fmt; Some (if c =? 37 then 37 :: m else 37 :: c :: m)
        end
      else m ← luaO_pushvfstring fmt; Some (e :: m)
  end.

(** A C string ends at its first NUL. *)
Fixpoint cstr (l : mem) : mem := match l with [] => [] | c :: l => if c =? 0 then [] else c :: cstr l end.

Definition luaL_typerror {A} (narg : Z) (tname : string) (L : lua_State) : lres A :=
  LErr (luaL_argerror narg (ascii_bytes (tname +:+ " expected, got " +:+ luaL_typename L narg))).

Definition luaL_error {A} (fmt : mem) : lres A :=
  match luaO_pushvfstring (cstr fmt) with Some m => LErr (luaL_where ++ m) | None => LUndef end.
End vm.
