(* ===== verification/LuaTable.v ===== *)
(** * Tables of Lua

    src/lua/ltable.c, with the rehash in place of this repository, and what src/lua/lgc.c does to the entries of a table.  A table has an array
    part and a hash part, whose nodes are chained by their positions.  A pointer into the table is a [slot]; memory is not limited. *)
From S2P Require Import Prelude LuaNum LuaApi.

(** ** Values *)

Definition LUA_TSTRING := 6.

(** A value as it is in a table: one that is collected is its type and its address, light values likewise. *)
Inductive TValue := TNil | TBoolean (b : bool) | TNumber (n : lua_Number) | TLight (ty p : Z) | TGc (ty p : Z) | TDeadKey (p : Z).

#[export] Instance TValue_eq_dec : EqDecision TValue.
Proof. solve_decision. Defined.

(** The machine: its numbers, what it makes of a double that is not in the range of an integer, and the objects in its memory: the type in
    the header of the one at an address, and the hash that is stored in a string. *)
Class Machine := {
  m_host : host; out_of_range : lua_Number → Z; obj_type : Z → Z; str_hash : Z → Z;
  m_host_ok : if h_intnum m_host then h_bytes m_host = 4 ∨ h_bytes m_host = 8 else h_bytes m_host = 8 }.

Definition ttisnil (v : TValue) : bool := match v with TNil => true | _ => false end.
Definition ttisnumber (v : TValue) : bool := match v with TNumber _ => true | _ => false end.

Definition luaO_rawequalObj (a b : TValue) : bool :=
  match a, b with
  | TNil, TNil => true
  | TNumber x, TNumber y => num_eqb x y
  | TBoolean x, TBoolean y => Bool.eqb x y
  | TLight ty p, TLight ty' p' => (ty =? ty') && (p =? p')
  | TGc ty p, TGc ty' p' => (ty =? ty') && (p =? p')
  | TDeadKey p, TDeadKey p' => p =? p'
  | _, _ => false
  end.

(** ** Logarithms *)

Definition log_2 : list Z :=
  [0; 1] ++ replicate 2 2 ++ replicate 4 3 ++ replicate 8 4 ++ replicate 16 5 ++ replicate 32 6 ++ replicate 64 7 ++ replicate 128 8.

Fixpoint log2_loop (fuel : nat) (x l : Z) : option Z :=
  match fuel with
  | O => None
  | S fuel => if 256 <=? x then log2_loop fuel (Z.shiftr x 8) (l + 8) else d ← log_2 !! Z.to_nat x; Some (l + d)
  end.

(** An unsigned integer has four bytes. *)
Definition luaO_log2 (x : Z) : option Z := log2_loop 4 (u32 x) (-1).

Definition ceillog2 (x : Z) : option Z := l ← luaO_log2 (x - 1); Some (l + 1).

(** ** Tables *)

Record Node := NodeOf { i_val : TValue; i_key : TValue; n_next : option nat }.

(** An array is longer than [t_sizearray] while it shrinks, and the nodes are more than [sizenode] of them. [t_dummy]: the node is
    [dummynode]. *)
Record Table := TableOf {
  t_flags : Z; t_lsizenode : nat; t_array : list TValue; t_sizearray : nat; t_node : list Node; t_dummy : bool; t_lastfree : Z }.

Definition with_flags (f : Z) (t : Table) := TableOf f (t_lsizenode t) (t_array t) (t_sizearray t) (t_node t) (t_dummy t) (t_lastfree t).
Definition with_array (a : list TValue) (t : Table) := TableOf (t_flags t) (t_lsizenode t) a (t_sizearray t) (t_node t) (t_dummy t) (t_lastfree t).
Definition with_sizearray (n : nat) (t : Table) := TableOf (t_flags t) (t_lsizenode t) (t_array t) n (t_node t) (t_dummy t) (t_lastfree t).
Definition with_node (l : list Node) (t : Table) := TableOf (t_flags t) (t_lsizenode t) (t_array t) (t_sizearray t) l (t_dummy t) (t_lastfree t).
Definition with_lastfree (f : Z) (t : Table) := TableOf (t_flags t) (t_lsizenode t) (t_array t) (t_sizearray t) (t_node t) (t_dummy t) f.
Definition with_hash (lsize : nat) (l : list Node) (dummy : bool) (lastfree : Z) (t : Table) :=
  TableOf (t_flags t) lsize (t_array t) (t_sizearray t) l dummy lastfree.

Definition with_val (v : TValue) (n : Node) := NodeOf v (i_key n) (n_next n).
Definition with_key (k : TValue) (n : Node) := NodeOf (i_val n) k (n_next n).
Definition with_next (x : option nat) (n : Node) := NodeOf (i_val n) (i_key n) x.

Definition MAXBITS := 26.
Definition MAXASIZE := 2 ^ 26.
Definition MAX_INT := 2147483645.

Definition dummynode_ : Node := NodeOf TNil TNil None.

Definition twoto (x : nat) : nat := Nat.pow 2 x.
Definition sizenode (t : Table) : nat := twoto (t_lsizenode t).

(** Where a pointer to a value points to. *)
Inductive slot := Nilobject | ArraySlot (i : nat) | NodeSlot (i : nat).

Definition slot_get (t : Table) (s : slot) : option TValue :=
  match s with Nilobject => Some TNil | ArraySlot i => t_array t !! i | NodeSlot i => i_val <$> t_node t !! i end.

Definition slot_set (s : slot) (v : TValue) (t : Table) : option Table :=
  match s with
  | Nilobject => None
  | ArraySlot i => _ ← t_array t !! i; Some (with_array (<[i := v]> (t_array t)) t)
  | NodeSlot i => n ← t_node t !! i; Some (with_node (<[i := with_val v n]> (t_node t)) t)
  end.

Definition set_node (i : nat) (n : Node) (t : Table) : Table := with_node (<[i := n]> (t_node t)) t.

(** A loop over indices. *)
Fixpoint each {A} (f : A → nat → lres A) (l : list nat) (a : A) : lres A :=
  match l with [] => LOk a | i :: l => a ← f a i; each f l a end.

Section table.
Context {M : Machine}.

Definition cast_num (k : Z) : lua_Number := num_of_int m_host k.
Definition number2int (n : lua_Number) : Z := match num_to_int 4 n with Some k => k | None => s32 (out_of_range n) end.

(** ** Positions *)

(** The integers in the bytes of a number. *)
Fixpoint ints (fuel : nat) (l : mem) : list Z :=
  match fuel with O => [] | S fuel => host_val (h_little m_host) (take 4 l) :: ints fuel (drop 4 l) end.

Definition numints : nat := Z.to_nat (h_bytes m_host / 4).

Definition hashpow2 (size : nat) (n : Z) : nat := Z.to_nat (Z.land n (Z.of_nat size - 1)).
Definition hashmod (size : nat) (n : Z) : nat := Z.to_nat (n mod Z.lor (Z.of_nat size - 1) 1).

Definition hashnum (size : nat) (n : lua_Number) : nat :=
  if num_eqb n (cast_num 0) then 0%nat
  else hashmod size (foldl (λ a x, u32 (a + x)) 0 (ints numints (num_bytes m_host n))).

(** The position that the key has by its hash; the code takes the number of nodes from the table. It is never asked for that of nil. *)
Definition main_of (size : nat) (key : TValue) : nat :=
  match key with
  | TNumber n => hashnum size n
  | TGc ty p => if ty =? LUA_TSTRING then hashpow2 size (str_hash p) else hashmod size (u32 p)
  | TBoolean b => hashpow2 size (Z.b2z b)
  | TLight _ p | TDeadKey p => hashmod size (u32 p)
  | TNil => hashmod size 0
  end.

Definition mainposition (t : Table) (key : TValue) : nat := main_of (sizenode t) key.

Definition arrayindex (key : TValue) : Z :=
  match key with TNumber n => let k := number2int n in if num_eqb (cast_num k) n then k else -1 | _ => -1 end.

(** ** Searches *)

(** Along a chain, at most once for each node. *)
Fixpoint chain_find (p : TValue → bool) (fuel : nat) (nodes : list Node) (i : nat) : lres (option nat) :=
  match fuel with
  | O => LUndef
  | S fuel =>
      n ← lopt (nodes !! i);
      if p (i_key n) then LOk (Some i) else match n_next n with Some j => chain_find p fuel nodes j | None => LOk None end
  end.

Definition search (t : Table) (p : TValue → bool) (i : nat) : lres slot :=
  r ← chain_find p (length (t_node t)) (t_node t) i;
  LOk (match r with Some i => NodeSlot i | None => Nilobject end).

Definition luaH_getnum (t : Table) (key : Z) : lres slot :=
  if u32 (key - 1) <? u32 (Z.of_nat (t_sizearray t)) then LOk (ArraySlot (Z.to_nat (key - 1)))
  else
    let nk := cast_num key in
    search t (λ k, match k with TNumber n => num_eqb n nk | _ => false end) (hashnum (sizenode t) nk).

Definition luaH_getstr (t : Table) (key : Z) : lres slot :=
  search t (λ k, match k with TGc ty p => (ty =? LUA_TSTRING) && (p =? key) | _ => false end) (hashpow2 (sizenode t) (str_hash key)).

Definition get_other (t : Table) (key : TValue) : lres slot := search t (λ k, luaO_rawequalObj k key) (mainposition t key).

Definition luaH_get (t : Table) (key : TValue) : lres slot :=
  match key with
  | TNil => LOk Nilobject
  | TGc ty p => if ty =? LUA_TSTRING then luaH_getstr t p else get_other t key
  | TNumber n => let k := number2int n in if num_eqb (cast_num k) n then luaH_getnum t k else get_other t key
  | _ => get_other t key
  end.

(** ** Traversal *)

Definition findindex (t : Table) (key : TValue) : lres Z :=
  if ttisnil key then LOk (-1)
  else
    let i := arrayindex key in
    if (0 <? i) && (i <=? Z.of_nat (t_sizearray t)) then LOk (i - 1)
    else
      r ← chain_find (λ k, luaO_rawequalObj k key || match k, key with TDeadKey p, TGc _ p' => p =? p' | _, _ => false end)
            (length (t_node t)) (t_node t) (mainposition t key);
      match r with Some i => LOk (Z.of_nat i + Z.of_nat (t_sizearray t)) | None => LErr (ascii_bytes "invalid key to 'next'") end.

Fixpoint next_array (fuel i : nat) (t : Table) : lres (option (TValue * TValue)) :=
  match fuel with
  | O => LOk None
  | S fuel =>
      v ← lopt (t_array t !! i);
      if ttisnil v then next_array fuel (S i) t else LOk (Some (TNumber (cast_num (Z.of_nat i + 1)), v))
  end.

Fixpoint next_hash (fuel i : nat) (t : Table) : lres (option (TValue * TValue)) :=
  match fuel with
  | O => LOk None
  | S fuel =>
      n ← lopt (t_node t !! i);
      if ttisnil (i_val n) then next_hash fuel (S i) t else LOk (Some (i_key n, i_val n))
  end.

(** The next key and its value, or [None] at the end. *)
Definition luaH_next (t : Table) (key : TValue) : lres (option (TValue * TValue)) :=
  i ← findindex t key;
  let i := Z.to_nat (i + 1) in
  r ← next_array (t_sizearray t - i) i t;
  match r with
  | Some e => LOk (Some e)
  | None => let j := (Nat.max i (t_sizearray t) - t_sizearray t)%nat in next_hash (sizenode t - j) j t
  end.

(** ** Sizes *)

Fixpoint computesizes_loop (fuel i : nat) (nums : list Z) (narray twotoi a na n : Z) : lres (Z * Z) :=
  match fuel with
  | O => LUndef
  | S fuel =>
      if twotoi / 2 <? narray then
        x ← lopt (nums !! i);
        let '(a, na, n) :=
          if 0 <? x then let a := a + x in if twotoi / 2 <? a then (a, a, twotoi) else (a, na, n) else (a, na, n) in
        if a =? narray then LOk (n, na) else computesizes_loop fuel (S i) nums narray (twotoi * 2) a na n
      else LOk (n, na)
  end.

(** The size of the array part, and how many keys go there. *)
Definition computesizes (nums : list Z) (narray : Z) : lres (Z * Z) := computesizes_loop 33 0 nums narray 1 0 0 0.

Definition countint (key : TValue) (nums : list Z) : lres (bool * list Z) :=
  let k := arrayindex key in
  if (0 <? k) && (k <=? MAXASIZE) then
    l ← lopt (ceillog2 k);
    x ← lopt (nums !! Z.to_nat l);
    LOk (true, <[Z.to_nat l := x + 1]> nums)
  else LOk (false, nums).

(** The values that are not nil among [n] of the array. *)
Fixpoint count_slice (n i : nat) (t : Table) : lres Z :=
  match n with
  | O => LOk 0
  | S n => v ← lopt (t_array t !! i); c ← count_slice n (S i) t; LOk (if ttisnil v then c else c + 1)
  end.

(** [i] counts from 0. *)
Fixpoint numusearray_loop (lgs : list nat) (ttlg i : nat) (t : Table) (nums : list Z) (ause : Z) : lres (Z * list Z) :=
  match lgs with
  | [] => LOk (ause, nums)
  | lg :: lgs =>
      if (t_sizearray t <? ttlg)%nat && (t_sizearray t <=? i)%nat then LOk (ause, nums)
      else
        let lim := Nat.min ttlg (t_sizearray t) in
        lc ← count_slice (lim - i) i t;
        x ← lopt (nums !! lg);
        numusearray_loop lgs (ttlg * 2) (Nat.max i lim) t (<[lg := x + lc]> nums) (ause + lc)
  end.

Definition numusearray (t : Table) (nums : list Z) : lres (Z * list Z) := numusearray_loop (seq 0 27) 1 0 t nums 0.

(** All entries, the integers among them, and the counts. *)
Fixpoint numusehash_loop (i : nat) (t : Table) (nums : list Z) (totaluse ause : Z) : lres (Z * Z * list Z) :=
  match i with
  | O => LOk (totaluse, ause, nums)
  | S i =>
      n ← lopt (t_node t !! i);
      if ttisnil (i_val n) then numusehash_loop i t nums totaluse ause
      else '(c, nums) ← countint (i_key n) nums; numusehash_loop i t nums (totaluse + 1) (ause + Z.b2z c)
  end.

Definition numusehash (t : Table) (nums : list Z) : lres (Z * Z * list Z) := numusehash_loop (sizenode t) t nums 0 0.

(** ** Resizing *)

Definition setarrayvector (size : nat) (t : Table) : Table :=
  with_sizearray size (with_array (take size (take (t_sizearray t) (t_array t) ++ replicate (size - t_sizearray t) TNil)) t).

Fixpoint free_below (nodes : list Node) (k : nat) : lres (option nat) :=
  match k with
  | O => LOk None
  | S k => n ← lopt (nodes !! k); if ttisnil (i_key n) then LOk (Some k) else free_below nodes k
  end.

Definition getfreepos (t : Table) : lres (option nat * Table) :=
  r ← free_below (t_node t) (Z.to_nat (t_lastfree t));
  LOk (r, with_lastfree (match r with Some k => Z.of_nat k | None => Z.min (t_lastfree t) 0 - 1 end) t).

Definition table_overflow {A} : lres A := LErr (ascii_bytes "table overflow").

Definition resizenodevector (oldsize newsize : nat) (t : Table) : lres Table :=
  if (newsize =? 0)%nat then LOk (with_hash 0 [dummynode_] true 0 t)
  else
    lsize ← lopt (ceillog2 (Z.of_nat newsize));
    if MAXBITS <? lsize then table_overflow
    else
      let newsize := twoto (Z.to_nat lsize) in
      let '(oldsize, node) := if t_dummy t then (0%nat, []) else (oldsize, t_node t) in
      LOk (with_hash (Z.to_nat lsize) (take newsize node ++ replicate (newsize - oldsize) (NodeOf TNil TNil None)) false (Z.of_nat newsize) t).

Fixpoint find_prev (fuel : nat) (nodes : list Node) (prev next : nat) : lres (option nat) :=
  match fuel with
  | O => LUndef
  | S fuel =>
      n ← lopt (nodes !! prev);
      match n_next n with
      | Some j => if (j =? next)%nat then LOk (Some prev) else find_prev fuel nodes j next
      | None => LOk None
      end
  end.

Definition find_prev_node (t : Table) (mp next : nat) : lres (option nat) := find_prev (length (t_node t)) (t_node t) mp next.

Definition set_next (i : nat) (x : option nat) (t : Table) : lres Table := n ← lopt (t_node t !! i); LOk (set_node i (with_next x n) t).

Definition move_node (i : nat) (t : Table) : lres (bool * Table) :=
  node ← lopt (t_node t !! i);
  let mp := mainposition t (i_key node) in
  if (mp =? i)%nat then LOk (true, t)
  else
    found ← find_prev_node t mp i;
    match found with
    | Some _ => LOk (true, t)
    | None =>
        mn ← lopt (t_node t !! mp);
        if negb (ttisnil (i_val mn)) || t_dummy t then
          let othermp := mainposition t (i_key mn) in
          if negb (othermp =? mp)%nat then
            prev ← find_prev_node t othermp mp;
            t ← match prev with Some prev => set_next prev (Some i) t | None => LOk t end;
            mn ← lopt (t_node t !! mp);
            LOk (match prev with Some _ => true | None => false end, set_node mp node (set_node i mn t))
          else
            t ← set_next i (n_next mn) t;
            t ← set_next mp (Some i) t;
            LOk (true, t)
        else LOk (true, set_node i (NodeOf TNil TNil None) (set_node mp node t))
    end.

Definition move_number (i : nat) (t : Table) : lres (bool * Table) :=
  node ← lopt (t_node t !! i);
  match i_key node with
  | TNumber n =>
      let key := number2int n in
      if num_eqb (cast_num key) n && (u32 (key - 1) <? u32 (Z.of_nat (t_sizearray t))) then
        t' ← lopt (slot_set (ArraySlot (Z.to_nat (key - 1))) (i_val node) t);
        LOk (true, set_node i (NodeOf TNil TNil (n_next node)) t')
      else LOk (false, t)
  | _ => LUndef
  end.

(** A node is taken off its chain, and to the array or below the new size. *)
Definition compact_node (nhsize : nat) (t : Table) (i : nat) : lres Table :=
  old ← lopt (t_node t !! i);
  let old := with_next None old in
  let t := set_node i old t in
  if ttisnil (i_val old) then LOk (set_node i (with_key TNil old) t)
  else
    '(moved, t) ← (if ttisnumber (i_key old) then move_number i t else LOk (false, t));
    if moved : bool then LOk t
    else if (nhsize <=? i)%nat then
      '(n, t) ← getfreepos t;
      match n with Some n => LOk (set_node n old t) | None => LUndef end
    else LOk t.

(** [while (move_node(...) == 0);]: each time one node more gets to its main position. *)
Fixpoint move_until (fuel i : nat) (t : Table) : lres Table :=
  match fuel with O => LUndef | S fuel => '(done, t) ← move_node i t; if done : bool then LOk t else move_until fuel i t end.

Definition rechain_node (t : Table) (i : nat) : lres Table :=
  curr ← lopt (t_node t !! i);
  if ttisnil (i_val curr) then LOk t else move_until (S (length (t_node t))) i t.

Definition resize_nodes (oldhsize nhsize : nat) (t : Table) : lres Table :=
  t ← each (compact_node nhsize) (seq 0 oldhsize) t;
  t ← (if (nhsize <? oldhsize)%nat then resizenodevector oldhsize nhsize t else LOk t);
  each rechain_node (seq 0 nhsize) t.

Definition resize_hashpart (nhsize : nat) (t : Table) : lres Table :=
  let oldhsize := if t_dummy t then 0%nat else twoto (t_lsizenode t) in
  lsize ← (if (0 <? nhsize)%nat then lopt (ceillog2 (Z.of_nat nhsize)) else LOk 0);
  if MAXBITS <? lsize then table_overflow
  else
    let nhsize := twoto (Z.to_nat lsize) in
    if (oldhsize <? nhsize)%nat then t ← resizenodevector oldhsize nhsize t; resize_nodes oldhsize nhsize t
    else if (0 <? nhsize)%nat then
      resize_nodes oldhsize nhsize (with_hash (Z.to_nat lsize) (t_node t) (t_dummy t) (Z.of_nat nhsize) t)
    else resizenodevector oldhsize nhsize t.

(** ** Insertion *)

(** [newkey] and the functions that it calls call each other: they are given [newkey]. *)
Section newkey.
Context (newkey : TValue → Table → lres (slot * Table)).

Definition set_with (s : slot) (key : TValue) (t : Table) : lres (slot * Table) :=
  match s with Nilobject => newkey key t | _ => LOk (s, t) end.

Definition luaH_setnum_with (key : Z) (t : Table) : lres (slot * Table) :=
  s ← luaH_getnum t key; set_with s (TNumber (cast_num key)) t.

Definition luaH_set_with (key : TValue) (t : Table) : lres (slot * Table) :=
  s ← luaH_get t key;
  let t := with_flags 0 t in
  match s with
  | Nilobject =>
      match key with
      | TNil => LErr (ascii_bytes "table index is nil")
      | TNumber n => if negb (num_eqb n n) then LErr (ascii_bytes "table index is NaN") else newkey key t
      | _ => newkey key t
      end
  | _ => LOk (s, t)
  end.

Definition reinsert (t : Table) (i : nat) : lres Table :=
  v ← lopt (t_array t !! i);
  if ttisnil v then LOk t
  else '(s, t) ← luaH_setnum_with (Z.of_nat i + 1) t; lopt (slot_set s v t).

Definition resize (nasize nhsize : nat) (t : Table) : lres Table :=
  let oldasize := t_sizearray t in
  let t := if (oldasize <? nasize)%nat then setarrayvector nasize t else t in
  t ← resize_hashpart nhsize t;
  if (nasize <? oldasize)%nat then
    t ← each reinsert (seq nasize (oldasize - nasize)) (with_sizearray nasize t);
    LOk (with_array (take nasize (t_array t)) t)
  else LOk t.

Definition rehash (ek : TValue) (t : Table) : lres Table :=
  '(nasize, nums) ← numusearray t (replicate 27 0);
  '(hashuse, ause, nums) ← numusehash t nums;
  '(c, nums) ← countint ek nums;
  '(n, na) ← computesizes nums (nasize + ause + Z.b2z c);
  resize (Z.to_nat n) (Z.to_nat (nasize + hashuse + 1 - na)) t.
End newkey.

(** What [newkey] does in the chains, where [n] is free: the position of the key. *)
Definition chain_key (key : TValue) (mp n : nat) (t : Table) : lres (nat * Table) :=
  mn ← lopt (t_node t !! mp);
  let othern := mainposition t (i_key mn) in
  if negb (othern =? mp)%nat then
    prev ← find_prev_node t othern mp;
    match prev with
    | None => LUndef
    | Some prev =>
        t ← set_next prev (Some n) t;
        mn ← lopt (t_node t !! mp);
        LOk (mp, set_node mp (NodeOf TNil (i_key mn) None) (set_node n mn t))
    end
  else
    t ← set_next n (n_next mn) t;
    t ← set_next mp (Some n) t;
    LOk (n, t).

Definition write_key (mp : nat) (key : TValue) (t : Table) : lres (slot * Table) :=
  n ← lopt (t_node t !! mp); LOk (NodeSlot mp, set_node mp (with_key key n) t).

Fixpoint newkey (fuel : nat) (key : TValue) (t : Table) : lres (slot * Table) :=
  match fuel with
  | O => LUndef
  | S fuel =>
      let mp := mainposition t key in
      mn ← lopt (t_node t !! mp);
      if negb (ttisnil (i_val mn)) || t_dummy t then
        '(n, t) ← getfreepos t;
        match n with
        | None => t ← rehash (newkey fuel) key t; luaH_set_with (newkey fuel) key t
        | Some n => '(mp, t) ← chain_key key mp n t; write_key mp key t
        end
      else write_key mp key t
  end.

(** A rehash makes room: [newkey] is at most two calls deep. *)
Definition depth : nat := 3.

Definition luaH_set (key : TValue) (t : Table) : lres (slot * Table) := luaH_set_with (newkey depth) key t.
Definition luaH_setnum (key : Z) (t : Table) : lres (slot * Table) := luaH_setnum_with (newkey depth) key t.
Definition luaH_setstr (key : Z) (t : Table) : lres (slot * Table) := s ← luaH_getstr t key; set_with (newkey depth) s (TGc LUA_TSTRING key) t.

Definition luaH_resizearray (nasize : nat) (t : Table) : lres Table :=
  resize (newkey depth) nasize (if t_dummy t then 0%nat else sizenode t) t.

Definition luaH_new (narray nhash : nat) : lres Table :=
  let t := TableOf 255 0 [] 0 [dummynode_] true 0 in
  resizenodevector 0 nhash (setarrayvector narray t).

(** ** Boundaries *)

(** [i] is present, or 0, and [j] is not. *)
Fixpoint halve (fuel : nat) (absent : Z → lres bool) (i j : Z) : lres Z :=
  match fuel with
  | O => LUndef
  | S fuel => if 1 <? u32 (j - i) then let m := u32 (i + j) / 2 in b ← absent m; if b : bool then halve fuel absent i m else halve fuel absent m j else LOk i
  end.

Definition num_absent (t : Table) (j : Z) : lres bool := s ← luaH_getnum t (s32 j); v ← lopt (slot_get t s); LOk (ttisnil v).

Fixpoint linear_search (fuel : nat) (t : Table) (i : Z) : lres Z :=
  match fuel with O => LUndef | S fuel => b ← num_absent t i; if b : bool then LOk (i - 1) else linear_search fuel t (u32 (i + 1)) end.

Fixpoint unbound_loop (fuel : nat) (t : Table) (i j : Z) : lres Z :=
  match fuel with
  | O => LUndef
  | S fuel =>
      b ← num_absent t j;
      if b : bool then halve 33 (num_absent t) i j
      else
        let i := j in
        let j := u32 (j * 2) in
        if MAX_INT <? j then linear_search (S (t_sizearray t + length (t_node t))) t 1 else unbound_loop fuel t i j
  end.

Definition unbound_search (t : Table) (j : Z) : lres Z := unbound_loop 33 t j (u32 (j + 1)).

Definition luaH_getn (t : Table) : lres Z :=
  let j := Z.of_nat (t_sizearray t) in
  last ← (if 0 <? j then v ← lopt (t_array t !! (t_sizearray t - 1)%nat); LOk (ttisnil v) else LOk false);
  if last : bool then halve 33 (λ m, v ← lopt (t_array t !! Z.to_nat (m - 1)); LOk (ttisnil v)) 0 j
  else if t_dummy t then LOk j
  else unbound_search t j.
End table.

(** ** The collector *)

Definition iscollectable (k : TValue) : bool := match k with TGc _ _ | TDeadKey _ => true | _ => false end.

Definition removeentry (n : Node) : Node :=
  match i_key n with TGc _ p => with_key (TDeadKey p) n | _ => n end.

(** The hash part of a table that is not weak, when it is traversed. *)
Definition traverse_entries (t : Table) : Table := with_node (map (λ n, if ttisnil (i_val n) then removeentry n else n) (t_node t)) t.

(** The entries of a weak table whose keys or values are cleared. *)
Definition clear_entry (iscleared : TValue → bool → bool) (n : Node) : Node :=
  if negb (ttisnil (i_val n)) && (iscleared (i_key n) true || iscleared (i_val n) false) then removeentry (with_val TNil n) else n.

Definition cleartable (weakvalue : bool) (iscleared : TValue → bool → bool) (t : Table) : Table :=
  with_node (map (clear_entry iscleared) (t_node t))
    (if weakvalue then with_array (map (λ v, if iscleared v false then TNil else v) (t_array t)) t else t).
