(* ===== verification/TableChain.v ===== *)
(** * The chains of a table

    A node is found from the main position of its key ([chains], the invariant); the ways in which a key gets into the chains; the entries of a
    table, which are pairs of keys and values in any order. *)
From S2P Require Import Prelude LuaNum LuaApi LuaTable.

(** ** The chains of a table

    A node is found from the main position of its key.  Inserting a key, in its main position or in a free node, keeps the chains, in a table
    that is filled and in one that is being rehashed. *)

(** *** Keys *)

Definition proper (k : TValue) : Prop := match k with TNil | TDeadKey _ => False | _ => True end.

#[export] Instance proper_dec k : Decision (proper k).
Proof. destruct k; cbn; apply _. Defined.

(** Keys that are not in a table at once: the same address is one object. *)
Definition same (k k' : TValue) : Prop :=
  luaO_rawequalObj k k' = true ∨ match k, k' with TGc _ p, TGc _ p' => p = p' | _, _ => False end.

Lemma num_eqb_cases x y : num_eqb x y = true → x = y ∨ ∃ a b, x = NDbl a ∧ y = NDbl b ∧ dbl_zero a = true ∧ dbl_zero b = true.
Proof.
  destruct x as [a|a], y as [b|b]; cbn; try done; intros H.
  - left. f_equal. lia.
  - apply andb_true_iff in H as [_ [->%Z.eqb_eq|[Ha Hb]%andb_true_iff]%orb_true_iff]; [by left|]. right. eauto 10.
Qed.

Lemma zero_not_nan a : dbl_zero a = true → dbl_nan a = false.
Proof. unfold dbl_zero, dbl_nan. intros [H1%Z.eqb_eq H2%Z.eqb_eq]%andb_true_iff. by rewrite H1. Qed.

Lemma num_eqb_swap x y : num_eqb x y = true → num_eqb y x = true.
Proof. intros H. destruct (num_eqb_cases _ _ H) as [->|(a & b & -> & -> & Ha & Hb)]; [done|]. cbn. by rewrite Ha, Hb, zero_not_nan, orb_true_r. Qed.

Lemma num_eqb_comm x y : num_eqb x y = num_eqb y x.
Proof. apply eq_true_iff_eq; split; apply num_eqb_swap. Qed.

Lemma num_eqb_trans x y z : num_eqb x y = true → num_eqb y z = true → num_eqb x z = true.
Proof.
  intros H1 H2. destruct (num_eqb_cases _ _ H1) as [->|(a & b & -> & -> & Ha & Hb)]; [done|].
  destruct (num_eqb_cases _ _ H2) as [<-|(c & d & Hy & -> & Hc & Hd)]; [done|]. simplify_eq. cbn. by rewrite Ha, Hd, zero_not_nan, orb_true_r.
Qed.

Lemma rawequal_cases k k' : luaO_rawequalObj k k' = true → k = k' ∨ ∃ x y, k = TNumber x ∧ k' = TNumber y ∧ num_eqb x y = true.
Proof.
  destruct k, k'; cbn; try done; intros H; eauto 8.
  - left. f_equal. by apply eqb_prop.
  - apply andb_true_iff in H as [->%Z.eqb_eq ->%Z.eqb_eq]. by left.
  - apply andb_true_iff in H as [->%Z.eqb_eq ->%Z.eqb_eq]. by left.
  - left. f_equal. lia.
Qed.

Lemma rawequal_comm k k' : luaO_rawequalObj k k' = luaO_rawequalObj k' k.
Proof. destruct k, k'; cbn; try done; rewrite ?(Z.eqb_sym p), ?(Z.eqb_sym ty); [by destruct b, b0|apply num_eqb_comm|..]; done. Qed.

Lemma rawequal_trans k1 k2 k3 : luaO_rawequalObj k1 k2 = true → luaO_rawequalObj k2 k3 = true → luaO_rawequalObj k1 k3 = true.
Proof.
  intros H1 H2. destruct (rawequal_cases _ _ H1) as [->|(x & y & -> & -> & Hx)]; [done|].
  destruct (rawequal_cases _ _ H2) as [<-|(x' & z & ? & -> & Hz)]; [done|]. simplify_eq. cbn. by eapply num_eqb_trans.
Qed.

Lemma rawequal_proper k k' : luaO_rawequalObj k k' = true → proper k → proper k'.
Proof. intros [->|(x & y & -> & -> & _)]%rawequal_cases; done. Qed.

Lemma same_sym k k' : same k k' → same k' k.
Proof. unfold same. rewrite rawequal_comm. destruct k, k'; intuition congruence. Qed.

Section machine.
Context {M : Machine}.

(** A key that may be set: neither nil nor what is not a number, a number is one of the machine, and an object has its type. *)
Definition valid (k : TValue) : Prop :=
  proper k ∧ luaO_rawequalObj k k = true ∧ match k with TNumber n => num_ok m_host n | TGc ty p => ty = obj_type p | _ => True end.

Lemma number2int_zero c : dbl_zero c = true → number2int (NDbl c) = 0.
Proof.
  unfold dbl_zero, number2int, num_to_int, dbl_to_int. intros [H1%Z.eqb_eq H2%Z.eqb_eq]%andb_true_iff. rewrite H1. cbn. by destruct (dbl_neg c).
Qed.

Lemma same_valid k k' : valid k → valid k' → same k k' → luaO_rawequalObj k k' = true.
Proof.
  intros (_ & H & Ht) (_ & _ & Ht') [|Hs]; [done|]. destruct k as [| | | |ty p|], k' as [| | | |ty' p'|]; try done. cbn in *. subst. by rewrite !Z.eqb_refl.
Qed.

Lemma num_eqb_number2int x y : num_eqb x y = true → number2int x = number2int y.
Proof. intros [->|(a & b & -> & -> & Ha & Hb)]%num_eqb_cases; [done|]. by rewrite !number2int_zero. Qed.

Lemma rawequal_main size k k' : luaO_rawequalObj k k' = true → valid k → main_of size k = main_of size k'.
Proof.
  intros [->|(x & y & -> & -> & H)]%rawequal_cases (_ & _ & Hv); [done|]. cbn.
  destruct (num_eqb_cases _ _ H) as [->|(a & b & -> & -> & Ha & Hb)]; [done|].
  unfold hashnum, cast_num, num_of_int. cbn in Hv. destruct Hv as [-> _]. cbn [num_eqb]. change (dbl_zero (dbl_of_int 0)) with true.
  by rewrite Ha, Hb, !zero_not_nan, !orb_true_r by done.
Qed.

Lemma rawequal_arrayindex k k' : luaO_rawequalObj k k' = true → arrayindex k = arrayindex k'.
Proof.
  intros [->|(x & y & -> & -> & H)]%rawequal_cases; [done|]. cbn. rewrite (num_eqb_number2int _ _ H). set (z := cast_num _).
  assert (num_eqb z x = num_eqb z y) as ->; [|done]. apply eq_true_iff_eq; split; intros H'; eapply num_eqb_trans; try done. by rewrite num_eqb_comm.
Qed.

(** *** Following the chain *)

Section nodes.
Context (nodes : list Node) (k : TValue).

(** A node that [next] does not take for that of [k]: a dead key with its address. *)
Definition clear_of (n : Node) : Prop := ∀ ty p, k = TGc ty p → i_key n ≠ TDeadKey p.

(** The chain from a node comes to another, with such nodes before it. *)
Inductive leads : nat → nat → Prop :=
  | leads_here i : leads i i
  | leads_step j n x i : nodes !! j = Some n → n_next n = Some x → clear_of n → leads x i → leads j i.
End nodes.

Lemma leads_trans nodes k a b c : leads nodes k a b → leads nodes k b c → leads nodes k a c.
Proof. induction 1; [done|]. intros. by econstructor; eauto. Qed.

Lemma leads_sim nodes nodes' k (f : nat → nat) a i :
  (∀ j n x, nodes !! j = Some n → n_next n = Some x → clear_of k n → leads nodes' k (f j) (f x)) →
  leads nodes k a i → leads nodes' k (f a) (f i).
Proof. intros H. induction 1; [constructor|]. eapply leads_trans; eauto. Qed.

(** A measure that falls along the chains. *)
Definition falls (r : nat → nat) (nodes : list Node) : Prop := ∀ j n x, nodes !! j = Some n → n_next n = Some x → (r x < r j)%nat.

Record linked (nodes : list Node) : Prop := {
  l_falls : ∃ r, falls r nodes;
  l_next : ∀ j n x, nodes !! j = Some n → n_next n = Some x → ∃ n', nodes !! x = Some n' ∧ i_key n' ≠ TNil;
  l_pred : ∀ i j n n' x, nodes !! i = Some n → nodes !! j = Some n' → n_next n = Some x → n_next n' = Some x → i = j }.

(** The chains of a table with the main positions [mp]. *)
Record chains (mp : TValue → nat) (nodes : list Node) : Prop := {
  c_linked : linked nodes;
  c_nil : ∀ i n, nodes !! i = Some n → i_key n = TNil → n_next n = None;
  c_unset : ∀ i n, nodes !! i = Some n → ¬ proper (i_key n) → i_val n = TNil;
  c_leads : ∀ i n, nodes !! i = Some n → proper (i_key n) → leads nodes (i_key n) (mp (i_key n)) i;
  c_main : ∀ i n, nodes !! i = Some n → proper (i_key n) →
    ∃ mn, nodes !! mp (i_key n) = Some mn ∧ i_key mn ≠ TNil ∧ (proper (i_key mn) → mp (i_key mn) = mp (i_key n));
  c_same : ∀ i j n n', nodes !! i = Some n → nodes !! j = Some n' → proper (i_key n) → proper (i_key n') → same (i_key n) (i_key n') → i = j;
  c_valid : ∀ i n, nodes !! i = Some n → proper (i_key n) → valid (i_key n) }.

(** *** The searches *)

Section search.
Context (nodes : list Node) (Hl : linked nodes).

(** The loops along a chain end within as many steps as there are nodes. *)
Lemma chain_ind (P : nat → nat → Prop) :
  (∀ fuel i n, nodes !! i = Some n → (∀ x, n_next n = Some x → P fuel x) → P (S fuel) i) →
  ∀ i, (i < length nodes)%nat → P (length nodes) i.
Proof.
  intros HP i Hi. destruct (l_falls _ Hl) as [r Hr].
  set (c i := length (filter (λ j, (r j <= r i)%nat) (seq 0 (length nodes)))).
  assert (∀ fuel i, (i < length nodes)%nat → (c i <= fuel)%nat → P fuel i) as H.
  { clear i Hi. induction fuel as [|fuel IH]; intros i Hi Hc.
    - exfalso. assert (i ∈ filter (λ j, (r j <= r i)%nat) (seq 0 (length nodes))) as Hin by (apply list_elem_of_filter; rewrite elem_of_seq; lia).
      unfold c in Hc. apply list_elem_of_In in Hin. destruct (filter _ _); [done|cbn in Hc; lia].
    - destruct (lookup_lt_is_Some_2 nodes i Hi) as [n Hn]. eapply HP; [done|]. intros x Hx. pose proof (Hr _ _ _ Hn Hx) as Hrx.
      destruct (l_next _ Hl _ _ _ Hn Hx) as (n' & Hx' & _). apply lookup_lt_Some in Hx'. apply IH; [done|].
      enough (c x < c i)%nat by lia. unfold c. clear -Hrx Hi. assert (i ∈ seq 0 (length nodes)) as Hin by (apply elem_of_seq; lia).
      induction (seq 0 (length nodes)) as [|j l IH]; [by apply elem_of_nil in Hin|].
      assert (length (filter (λ j, (r j <= r x)%nat) l) <= length (filter (λ j, (r j <= r i)%nat) l))%nat as Hle.
      { clear -Hrx. induction l as [|j l IH]; [done|]. rewrite !filter_cons. repeat case_decide; cbn; lia. }
      rewrite !filter_cons. apply elem_of_cons in Hin as [<-|Hin].
      + rewrite decide_False by lia. rewrite decide_True by lia. cbn. lia.
      + specialize (IH Hin). repeat case_decide; cbn; lia. }
  apply H; [done|]. unfold c. etrans; [apply length_filter|]. by rewrite length_seq.
Qed.

Lemma chain_find_total p i : (i < length nodes)%nat → ∃ r, chain_find p (length nodes) nodes i = LOk r.
Proof.
  apply (chain_ind (λ fuel i, ∃ r, chain_find p fuel nodes i = LOk r)). intros fuel j n Hn IH. cbn. rewrite Hn. cbn.
  destruct (p (i_key n)); [eauto|]. destruct (n_next n); eauto.
Qed.

Lemma find_prev_total i x : (i < length nodes)%nat → ∃ r, find_prev (length nodes) nodes i x = LOk r.
Proof.
  apply (chain_ind (λ fuel i, ∃ r, find_prev fuel nodes i x = LOk r)). intros fuel j n Hn IH. cbn. rewrite Hn. cbn.
  destruct (n_next n) as [y|]; [|eauto]. destruct (y =? x)%nat; eauto.
Qed.
End search.

Lemma chain_find_some p nodes : ∀ fuel a i, chain_find p fuel nodes a = LOk (Some i) → ∃ n, nodes !! i = Some n ∧ p (i_key n) = true.
Proof.
  induction fuel as [|fuel IH]; intros a i; cbn; [done|]. destruct (nodes !! a) as [n|] eqn:Hn; cbn; [|done].
  destruct (p (i_key n)) eqn:Hp; [intros [= <-]; eauto|]. destruct (n_next n); [apply IH|done].
Qed.

Lemma chain_find_none p nodes k a i n : leads nodes k a i → nodes !! i = Some n →
  ∀ fuel, chain_find p fuel nodes a = LOk None → p (i_key n) = false.
Proof.
  intros Hl Hn. induction Hl as [i|j nj x i Hj Hx _ _ IH]; intros [|fuel]; cbn; try done.
  - rewrite Hn. cbn. by destruct (p (i_key n)).
  - rewrite Hj. cbn. destruct (p (i_key nj)); [done|]. rewrite Hx. by apply IH.
Qed.

(** The first node of the chain for which the search looks. *)
Lemma chain_find_first p nodes k a i n : leads nodes k a i → nodes !! i = Some n → p (i_key n) = true →
  (∀ j nj, nodes !! j = Some nj → clear_of k nj → p (i_key nj) = true → j = i) →
  ∀ fuel r, chain_find p fuel nodes a = LOk r → r = Some i.
Proof.
  intros Hl Hn Hp Hone. induction Hl as [i|j nj x i Hj Hx Hc _ IH]; intros [|fuel] r; cbn; try done.
  - rewrite Hn. cbn. rewrite Hp. congruence.
  - rewrite Hj. cbn. destruct (p (i_key nj)) eqn:E; [intros [= <-]; f_equal; by eapply Hone|]. rewrite Hx. by apply IH.
Qed.

Lemma find_prev_some nodes x : ∀ fuel a i, find_prev fuel nodes a x = LOk (Some i) → ∃ n, nodes !! i = Some n ∧ n_next n = Some x.
Proof.
  induction fuel as [|fuel IH]; intros a i; cbn; [done|]. destruct (nodes !! a) as [n|] eqn:Hn; cbn; [|done].
  destruct (n_next n) as [y|] eqn:Hy; [|done]. destruct (Nat.eqb_spec y x) as [->|]; [intros [= <-]; eauto|apply IH].
Qed.

Lemma find_prev_none nodes k a i : leads nodes k a i → ∀ fuel, find_prev fuel nodes a i = LOk None → a = i.
Proof.
  induction 1 as [i|j n x i Hj Hx Hc Hl IH]; intros [|fuel] Hf; cbn in Hf; try done. rewrite Hj in Hf. cbn in Hf. rewrite Hx in Hf.
  destruct (Nat.eqb_spec x i) as [->|Hne]; [done|]. by apply IH in Hf.
Qed.

Lemma leads_in nodes k a i n : leads nodes k a i → nodes !! i = Some n → (a < length nodes)%nat.
Proof. intros Hl Hn. destruct Hl as [|j nj x i Hj Hx Hc Hl]; by eapply lookup_lt_Some. Qed.
End machine.

(** ** Insertion into the chains

    The three ways in which a key gets into a table: into its main position when that is not in use, into it when the node there is not in its
    own, which moves to a free node, or into a free node behind the main position. *)

(** The nodes after each: [m] is the main position, [n] the free node. *)
Definition put_nodes (k v : TValue) (m : nat) (nm : Node) (nodes : list Node) : list Node := <[m := NodeOf v k (n_next nm)]> nodes.

Definition displaced_nodes (k v : TValue) (m n prev : nat) (nm np : Node) (nodes : list Node) : list Node :=
  <[m := NodeOf v k None]> (<[n := nm]> (<[prev := with_next (Some n) np]> nodes)).

Definition pushed_nodes (k v : TValue) (m n : nat) (nm : Node) (nodes : list Node) : list Node :=
  <[m := with_next (Some n) nm]> (<[n := NodeOf v k (n_next nm)]> nodes).

Section insert.
Context {M : Machine} (mp : TValue → nat) (nodes : list Node) (Hc : chains mp nodes).
Context (k v : TValue) (Hk : valid k).

(** No key of the table is that key, or the same object. *)
Definition absent (k : TValue) (nodes : list Node) : Prop := ∀ i n, nodes !! i = Some n → proper (i_key n) → ¬ same k (i_key n).

Context (Habs : absent k nodes).

Lemma proper_not_nil n : proper (i_key n) → i_key n ≠ TNil.
Proof. by destruct (i_key n). Qed.

Lemma proper_clear k' n : proper (i_key n) → clear_of k' n.
Proof. intros H ty p _ E. by rewrite E in H. Qed.

Lemma leads_one nodes' k' j n x : nodes' !! j = Some n → n_next n = Some x → clear_of k' n → leads nodes' k' j x.
Proof. intros. econstructor; [done..|constructor]. Qed.

(** *** Into the main position *)

Section put.
Context (m : nat) (nm : Node) (Hm : nodes !! m = Some nm) (Hv : i_val nm = TNil) (Hmp : mp k = m).

#[local] Abbreviation put := (put_nodes k v m nm nodes).

Lemma put_lookup i n : put !! i = Some n → (i = m ∧ n = NodeOf v k (n_next nm)) ∨ (i ≠ m ∧ nodes !! i = Some n).
Proof. unfold put_nodes. rewrite list_lookup_insert_Some. intuition congruence. Qed.

Lemma put_old i n : i ≠ m → nodes !! i = Some n → put !! i = Some n.
Proof. intros. unfold put_nodes. by rewrite list_lookup_insert_ne by done. Qed.

Lemma put_new : put !! m = Some (NodeOf v k (n_next nm)).
Proof. unfold put_nodes. apply list_lookup_insert_eq. by eapply lookup_lt_Some. Qed.

Lemma put_same_next j n : put !! j = Some n → ∃ n', nodes !! j = Some n' ∧ n_next n' = n_next n.
Proof. intros [[-> ->]|[_ H]]%put_lookup; eauto. Qed.

Lemma linked_put : linked put.
Proof.
  destruct Hk as (Hp & _). destruct (c_linked _ _ Hc) as [[r Hr] Hn Hpr]. split.
  - exists r. intros j n x (n' & Hj & <-)%put_same_next. by apply Hr.
  - intros j n x (n' & Hj & <-)%put_same_next Hx. destruct (Hn _ _ _ Hj Hx) as (nx & Hnx & Hkx). destruct (decide (x = m)) as [->|Hne].
    + rewrite put_new. eexists. split; [done|]. by apply (proper_not_nil (NodeOf v k (n_next nm))).
    + exists nx. by rewrite (put_old x nx).
  - intros i j n n' x (n1 & Hi & <-)%put_same_next (n2 & Hj & <-)%put_same_next. by apply Hpr.
Qed.

Lemma chains_put : chains mp put.
Proof.
  destruct Hk as (Hp & _). split; [exact linked_put|..].
  - intros i n [[-> ->]|[Hne H]]%put_lookup; cbn; [by intros ->|by eapply c_nil].
  - intros i n [[-> ->]|[Hne H]]%put_lookup; cbn; [done|by eapply c_unset].
  - intros i n [[-> ->]|[Hne H]]%put_lookup Hpi; cbn; [rewrite Hmp; constructor|].
    apply (leads_sim nodes put _ id); [|by eapply c_leads]. intros j nj x Hj Hx Hcl. destruct (decide (j = m)) as [->|Hne'].
    + assert (nj = nm) as -> by congruence. by eapply leads_one; [apply put_new|done|apply proper_clear].
    + by eapply leads_one; [apply put_old|done|].
  - intros i n Hi Hpi. assert (∃ mn, nodes !! mp (i_key n) = Some mn ∧ (mp (i_key n) ≠ m → i_key mn ≠ TNil ∧ (proper (i_key mn) → mp (i_key mn) = mp (i_key n)))) as (mn & Hmn & H).
    { apply put_lookup in Hi as [[-> ->]|[Hne H]]; cbn; [rewrite Hmp; by eexists|]. destruct (c_main _ _ Hc _ _ H Hpi) as (mn & ? & ?). eauto. }
    destruct (decide (mp (i_key n) = m)) as [E|E]; [|exists mn; split; [by apply put_old|by apply H]].
    rewrite E, put_new. eexists. split; [done|]. cbn. by split; [by intros ->|rewrite Hmp].
  - intros i j n n' [[-> ->]|[Hne H]]%put_lookup [[-> ->]|[Hne' H']]%put_lookup; cbn; [done|..].
    + intros _ Hpj Hs. by destruct (Habs _ _ H' Hpj).
    + intros Hpi _ Hs%same_sym. by destruct (Habs _ _ H Hpi).
    + by eapply c_same.
  - intros i n [[-> ->]|[Hne H]]%put_lookup; cbn; [done|by eapply c_valid].
Qed.
End put.

(** *** Where another chain has a node *)

Section displace.
Context (m n prev : nat) (nm nn np : Node).
Context (Hm : nodes !! m = Some nm) (Hpm : proper (i_key nm)) (Hother : mp (i_key nm) ≠ m).
Context (Hn : nodes !! n = Some nn) (Hfree : i_key nn = TNil) (Hprev : nodes !! prev = Some np) (Hnext : n_next np = Some m).

#[local] Abbreviation displaced := (displaced_nodes k v m n prev nm np nodes).

(** The node that led to the main position leads to the free node. *)
Let redirect (x : Node) : Node := with_next (if decide (n_next x = Some m) then Some n else n_next x) x.

Lemma m_not_n : m ≠ n.
Proof. intros ->. simplify_eq. by rewrite Hfree in Hpm. Qed.

Lemma displaced_main : displaced !! m = Some (NodeOf v k None).
Proof. unfold displaced_nodes. apply list_lookup_insert_eq. rewrite !length_insert. by eapply lookup_lt_Some. Qed.

Lemma displaced_free : displaced !! n = Some nm.
Proof.
  unfold displaced_nodes. rewrite list_lookup_insert_ne by apply m_not_n. apply list_lookup_insert_eq. rewrite length_insert. by eapply lookup_lt_Some.
Qed.

Lemma displaced_old i x : i ≠ m → i ≠ n → nodes !! i = Some x → displaced !! i = Some (redirect x).
Proof.
  intros Him Hin Hi. unfold displaced_nodes. rewrite !list_lookup_insert_ne by done. unfold redirect. destruct (decide (i = prev)) as [->|Hip].
  - rewrite list_lookup_insert_eq by (by eapply lookup_lt_Some). simplify_eq. by rewrite decide_True.
  - rewrite list_lookup_insert_ne, Hi by done. rewrite decide_False; [by destruct x|]. intros E. apply Hip. by eapply (l_pred _ (c_linked _ _ Hc)).
Qed.

Lemma displaced_lookup i x : displaced !! i = Some x →
  (i = m ∧ x = NodeOf v k None) ∨ (i = n ∧ x = nm) ∨ (i ≠ m ∧ i ≠ n ∧ ∃ y, nodes !! i = Some y ∧ x = redirect y).
Proof.
  intros Hi. destruct (decide (i = m)) as [->|Him]; [left; rewrite displaced_main in Hi; by simplify_eq|].
  destruct (decide (i = n)) as [->|Hin]; [right; left; rewrite displaced_free in Hi; by simplify_eq|]. right; right.
  assert (i < length nodes)%nat as Hlt by (apply lookup_lt_Some in Hi; unfold displaced_nodes in Hi; by rewrite !length_insert in Hi).
  destruct (lookup_lt_is_Some_2 _ _ Hlt) as [y Hy]. rewrite (displaced_old i y) in Hi by done. simplify_eq. eauto.
Qed.

(** A node of the table as it was, where it is now. *)
Let now (i : nat) : nat := if decide (i = m) then n else i.

Lemma not_to_free j x : nodes !! j = Some x → n_next x ≠ Some n.
Proof. intros Hj E. destruct (l_next _ (c_linked _ _ Hc) _ _ _ Hj E) as (y & Hy & Hky). simplify_eq. Qed.

Lemma next_not_free j x y : nodes !! j = Some x → n_next x = Some y → y ≠ n.
Proof. intros Hj Hx Hy. rewrite Hy in Hx. by eapply not_to_free. Qed.

Lemma now_next x : n_next x = Some m ∨ n_next x ≠ Some n → n_next (redirect x) = now <$> n_next x.
Proof. intros _. unfold redirect, now. cbn. destruct (n_next x) as [y|]; cbn; repeat case_decide; congruence. Qed.

Lemma displaced_now i x : i ≠ n → nodes !! i = Some x →
  ∃ x', displaced !! now i = Some x' ∧ n_next x' = now <$> n_next x ∧ i_key x' = i_key x ∧ i_val x' = i_val x.
Proof.
  intros Hin Hi. unfold now at 1. case_decide as Him.
  - rewrite displaced_free. assert (x = nm) as -> by congruence. eexists. split; [done|]. split_and!; [|done..]. destruct (n_next nm) as [y|] eqn:Hy; [|done]. cbn. unfold now.
    destruct (l_falls _ (c_linked _ _ Hc)) as [r Hr]. specialize (Hr _ _ _ Hm Hy). rewrite decide_False; [done|intros ->; lia].
  - rewrite (displaced_old i x) by done. eexists. split; [done|]. split; [|done]. apply now_next. right. by eapply not_to_free.
Qed.

(** Every node but the new one is one of before. *)
Lemma displaced_then i x : displaced !! i = Some x → i ≠ m →
  ∃ j y, j ≠ n ∧ i = now j ∧ nodes !! j = Some y ∧ n_next x = now <$> n_next y ∧ i_key x = i_key y ∧ i_val x = i_val y.
Proof.
  intros Hi Him. assert (∃ j y, j ≠ n ∧ i = now j ∧ nodes !! j = Some y) as (j & y & Hj & -> & Hy).
  { apply displaced_lookup in Hi as [[-> ->]|[[-> ->]|(Hne & Hn' & y & Hy & ->)]]; [done|..].
    - exists m, nm. unfold now. rewrite decide_True by done. split; [apply m_not_n|done].
    - exists i, y. unfold now. by rewrite decide_False. }
  exists j, y. destruct (displaced_now j y Hj Hy) as (x' & Hx' & ?). simplify_eq. intuition congruence.
Qed.

Lemma now_inj i j : i ≠ n → j ≠ n → now i = now j → i = j.
Proof. unfold now. intros. repeat case_decide; congruence. Qed.

Lemma now_not_main i : now i ≠ m.
Proof. unfold now. case_decide; [|done]. pose proof m_not_n. congruence. Qed.

Lemma displaced_linked : linked displaced.
Proof.
  destruct (l_falls _ (c_linked _ _ Hc)) as [r Hr].
  split.
  - exists (λ i, if decide (i = n) then r m else r i). intros j x y Hj Hy. destruct (decide (j = m)) as [->|Hjm]; [rewrite displaced_main in Hj; by simplify_eq|].
    apply displaced_then in Hj as (i & z & Hi & -> & Hz & Hx & _); [|done]. rewrite Hy in Hx. destruct (n_next z) as [w|] eqn:Hw; [|done]. cbn in Hx. simplify_eq.
    specialize (Hr _ _ _ Hz Hw). assert (w ≠ n) as Hwn by exact (next_not_free _ _ _ Hz Hw). pose proof m_not_n. unfold now. destruct (decide (i = m)) as [Eim|Eim], (decide (w = m)) as [Ewm|Ewm]; repeat case_decide; try congruence; try rewrite <- Eim; try rewrite <- Ewm; lia.
  - intros j x y Hj Hy. destruct (decide (j = m)) as [->|Hjm]; [rewrite displaced_main in Hj; by simplify_eq|].
    apply displaced_then in Hj as (i & z & Hi & -> & Hz & Hx & _); [|done]. rewrite Hy in Hx. destruct (n_next z) as [w|] eqn:Hw; [|done]. cbn in Hx. simplify_eq.
    destruct (l_next _ (c_linked _ _ Hc) _ _ _ Hz Hw) as (u & Hu & Hku). destruct (displaced_now w u) as (u' & Hu' & _ & E & _); [|done|rewrite <- E in Hku; eauto].
    exact (next_not_free _ _ _ Hz Hw).
  - intros i j x x' y Hi Hj Hy Hy'. destruct (decide (i = m)) as [->|Him]; [rewrite displaced_main in Hi; by simplify_eq|].
    destruct (decide (j = m)) as [->|Hjm]; [rewrite displaced_main in Hj; by simplify_eq|].
    apply displaced_then in Hi as (a & u & Ha & -> & Hu & Hxu & _); [|done]. apply displaced_then in Hj as (b & w & Hb & -> & Hw & Hxw & _); [|done].
    rewrite Hy in Hxu. rewrite Hy' in Hxw. destruct (n_next u) as [c|] eqn:Hcu; [|done]. destruct (n_next w) as [d|] eqn:Hdw; [|done]. cbn in Hxu, Hxw. simplify_eq.
    f_equal. eapply (l_pred _ (c_linked _ _ Hc)); [done..| |done]. rewrite Hcu. f_equal. apply now_inj; [exact (next_not_free _ _ _ Hu Hcu)|exact (next_not_free _ _ _ Hw Hdw)|congruence].
Qed.

Lemma chains_displaced : mp k = m → chains mp displaced.
Proof.
  intros Hmp. destruct Hk as (Hp & _). split; [exact displaced_linked|..].
  - intros i x Hi. destruct (decide (i = m)) as [->|Him]; [rewrite displaced_main in Hi; by simplify_eq|].
    apply displaced_then in Hi as (j & y & Hj & -> & Hy & -> & -> & _); [|done]. intros E. by erewrite c_nil.
  - intros i x Hi. destruct (decide (i = m)) as [->|Him]; [rewrite displaced_main in Hi; by simplify_eq|].
    apply displaced_then in Hi as (j & y & Hj & -> & Hy & _ & -> & ->); [|done]. by eapply c_unset.
  - intros i x Hi Hpi. destruct (decide (i = m)) as [->|Him]; [rewrite displaced_main in Hi; injection Hi as <-; cbn; rewrite Hmp; constructor|].
    apply displaced_then in Hi as (j & y & Hj & -> & Hy & _ & E & _); [|done]. rewrite E in Hpi |- *.
    assert (now (mp (i_key y)) = mp (i_key y)) as <-.
    { unfold now. rewrite decide_False; [done|]. intros Em. destruct (c_main _ _ Hc _ _ Hy Hpi) as (mn & Hmn & _ & Hmm). rewrite Em, Hm in Hmn. injection Hmn as <-. rewrite (Hmm Hpm) in Hother. congruence. }
    eapply leads_sim; [|by eapply c_leads]. intros a z x' Ha Hx' Hcl. assert (a ≠ n) as Han by (intros Han; rewrite Han, Hn in Ha; injection Ha as <-; by rewrite (c_nil _ _ Hc n nn) in Hx').
    destruct (displaced_now a z Han Ha) as (z' & Hz' & Hnz & Hkz & _). eapply leads_one; [done|rewrite Hnz, Hx'; done|]. intros ty p. rewrite Hkz. apply Hcl.
  - intros i x Hi Hpi. destruct (decide (i = m)) as [->|Him].
    + rewrite displaced_main in Hi. injection Hi as <-. cbn. rewrite Hmp, displaced_main. eexists. split; [done|]. split; [by apply (proper_not_nil (NodeOf v k None))|done].
    + apply displaced_then in Hi as (j & y & Hj & -> & Hy & _ & E & _); [|done]. rewrite E in Hpi |- *. destruct (c_main _ _ Hc _ _ Hy Hpi) as (mn & Hmn & Hkn & Hmm).
      assert (mp (i_key y) ≠ m) as Hmm' by (intros Em; rewrite Em, Hm in Hmn; injection Hmn as <-; rewrite (Hmm Hpm) in Hother; congruence).
      assert (mp (i_key y) ≠ n) as Hmn' by (intros En; rewrite En, Hn in Hmn; by injection Hmn as <-).
      rewrite (displaced_old _ mn) by done. eexists. split; [done|]. by cbn.
  - intros i j x x' Hi Hj. destruct (decide (i = m)) as [->|Him], (decide (j = m)) as [->|Hjm]; [done|..].
    + rewrite displaced_main in Hi. injection Hi as <-. cbn. apply displaced_then in Hj as (b & y & Hb & -> & Hy & _ & -> & _); [|done]. intros _ Hpj Hs. by destruct (Habs _ _ Hy Hpj).
    + rewrite displaced_main in Hj. injection Hj as <-. cbn. apply displaced_then in Hi as (b & y & Hb & -> & Hy & _ & -> & _); [|done]. intros Hpj _ Hs%same_sym. by destruct (Habs _ _ Hy Hpj).
    + apply displaced_then in Hi as (a & u & Ha & -> & Hu & _ & -> & _); [|done]. apply displaced_then in Hj as (b & w & Hb & -> & Hw & _ & -> & _); [|done].
      intros. f_equal. by eapply c_same.
  - intros i x Hi. destruct (decide (i = m)) as [->|Him]; [rewrite displaced_main in Hi; by simplify_eq|].
    apply displaced_then in Hi as (j & y & Hj & -> & Hy & _ & -> & _); [|done]. by eapply c_valid.
Qed.
End displace.

(** *** Behind the main position *)

Section push.
Context (m n : nat) (nm nn : Node) (Hm : nodes !! m = Some nm) (Hpm : proper (i_key nm)).
Context (Hn : nodes !! n = Some nn) (Hfree : i_key nn = TNil).

#[local] Abbreviation pushed := (pushed_nodes k v m n nm nodes).

Lemma push_not_n : m ≠ n.
Proof. intros E. rewrite E, Hn in Hm. injection Hm as ->. by rewrite Hfree in Hpm. Qed.

Lemma pushed_main : pushed !! m = Some (with_next (Some n) nm).
Proof. unfold pushed_nodes. apply list_lookup_insert_eq. rewrite length_insert. by eapply lookup_lt_Some. Qed.

Lemma pushed_free : pushed !! n = Some (NodeOf v k (n_next nm)).
Proof. unfold pushed_nodes. rewrite list_lookup_insert_ne by apply push_not_n. apply list_lookup_insert_eq. by eapply lookup_lt_Some. Qed.

Lemma pushed_old i x : i ≠ m → i ≠ n → nodes !! i = Some x → pushed !! i = Some x.
Proof. intros Him Hin Hi. unfold pushed_nodes. by rewrite !list_lookup_insert_ne. Qed.

(** A node of before has its key and its value. *)
Lemma pushed_now i x : i ≠ n → nodes !! i = Some x → ∃ x', pushed !! i = Some x' ∧ i_key x' = i_key x ∧ i_val x' = i_val x.
Proof.
  intros Hin Hi. destruct (decide (i = m)) as [Him|Him]; [|by exists x; rewrite (pushed_old i x)].
  rewrite Him, Hm in Hi. injection Hi as <-. rewrite Him, pushed_main. by eexists.
Qed.

Lemma pushed_then i x : pushed !! i = Some x → i ≠ n →
  ∃ y, nodes !! i = Some y ∧ i_key x = i_key y ∧ i_val x = i_val y ∧ n_next x = if decide (i = m) then Some n else n_next y.
Proof.
  intros Hi Hin. destruct (decide (i = m)) as [Him|Him].
  - rewrite Him, pushed_main in Hi. injection Hi as <-. exists nm. by rewrite Him.
  - assert (i < length nodes)%nat as Hlt by (apply lookup_lt_Some in Hi; unfold pushed_nodes in Hi; by rewrite !length_insert in Hi).
    destruct (lookup_lt_is_Some_2 _ _ Hlt) as [y Hy]. rewrite (pushed_old i y) in Hi by done. injection Hi as <-. eauto.
Qed.

Lemma push_not_to_free j x y : nodes !! j = Some x → n_next x = Some y → y ≠ n.
Proof. intros Hj Hx Hy. destruct (l_next _ (c_linked _ _ Hc) _ _ _ Hj Hx) as (z & Hz & Hkz). rewrite Hy, Hn in Hz. injection Hz as <-. done. Qed.

(** Where a chain goes on. *)
Lemma pushed_next i x y : pushed !! i = Some x → n_next x = Some y →
  (i = m ∧ y = n) ∨ (i = n ∧ n_next nm = Some y) ∨ (i ≠ m ∧ i ≠ n ∧ ∃ z, nodes !! i = Some z ∧ n_next z = Some y).
Proof.
  intros Hi Hx. destruct (decide (i = n)) as [Hin|Hin].
  - rewrite Hin, pushed_free in Hi. injection Hi as <-. by right; left.
  - destruct (pushed_then i x Hi Hin) as (z & Hz & _ & _ & Hnx). rewrite Hx in Hnx. destruct (decide (i = m)) as [Him|Him].
    + left. split; [done|congruence].
    + right; right. eauto.
Qed.

Lemma pushed_linked : linked pushed.
Proof.
  destruct Hk as (Hp & _). pose proof push_not_n as Hmn. destruct (c_linked _ _ Hc) as [[r Hr] Hnx Hpr]. split.
  - exists (λ i, if decide (i = n) then 2 * r m + 1 else 2 * r i + 2)%nat. intros j x y Hj Hy.
    destruct (pushed_next _ _ _ Hj Hy) as [[-> ->]|[[-> Hy']|(Hjm & Hjn & z & Hz & Hy')]].
    + rewrite decide_True, decide_False by done. lia.
    + rewrite decide_False by exact (push_not_to_free _ _ _ Hm Hy'). rewrite decide_True by done. specialize (Hr _ _ _ Hm Hy'). lia.
    + rewrite !decide_False by first [done|exact (push_not_to_free _ _ _ Hz Hy')]. specialize (Hr _ _ _ Hz Hy'). lia.
  - intros j x y Hj Hy. destruct (pushed_next _ _ _ Hj Hy) as [[-> ->]|H].
    + rewrite pushed_free. eexists. split; [done|]. by apply (proper_not_nil (NodeOf v k None)).
    + assert (∃ i z, nodes !! i = Some z ∧ n_next z = Some y) as (i & z & Hz & Hzy) by (destruct H as [[_ H]|(_ & _ & z & H)]; eauto).
      destruct (Hnx _ _ _ Hz Hzy) as (u & Hu & Hku). destruct (pushed_now y u) as (u' & Hu' & E & _); [exact (push_not_to_free _ _ _ Hz Hzy)|done|]. rewrite <- E in Hku. eauto.
  - intros i j x x' y Hi Hj Hy Hy'. destruct (pushed_next _ _ _ Hi Hy) as [[-> ->]|[[-> Hiy]|(Him & Hin & z & Hz & Hiy)]],
      (pushed_next _ _ _ Hj Hy') as [[-> Ey]|[[-> Hjy]|(Hjm & Hjn & z' & Hz' & Hjy)]]; try done.
    + by destruct (push_not_to_free _ _ _ Hm Hjy).
    + by destruct (push_not_to_free _ _ _ Hz' Hjy).
    + by destruct (push_not_to_free _ _ _ Hm Hiy).
    + by destruct (Hjm (Hpr _ _ _ _ _ Hz' Hm Hjy Hiy)).
    + by destruct (push_not_to_free _ _ _ Hz Hiy).
    + by destruct (Him (Hpr _ _ _ _ _ Hz Hm Hiy Hjy)).
    + exact (Hpr _ _ _ _ _ Hz Hz' Hiy Hjy).
Qed.

Lemma pushed_one k' j x y : nodes !! j = Some x → n_next x = Some y → clear_of k' x → leads pushed k' j y.
Proof.
  intros Hj Hy Hcl. destruct Hk as (Hp & _). destruct (decide (j = m)) as [Hjm|Hjm].
  - rewrite Hjm, Hm in Hj. injection Hj as <-. rewrite Hjm. eapply leads_step; [apply pushed_main|done|done|].
    eapply leads_one; [apply pushed_free|done|by apply proper_clear].
  - eapply leads_one; [apply pushed_old; [done| |exact Hj]|done|done]. intros Hjn. rewrite Hjn, Hn in Hj. injection Hj as <-. by rewrite (c_nil _ _ Hc n nn) in Hy.
Qed.

Lemma chains_pushed : mp (i_key nm) = m → mp k = m → chains mp pushed.
Proof.
  intros Hown Hmp. destruct Hk as (Hp & _). split; [exact pushed_linked|..].
  - intros i x Hi. destruct (decide (i = n)) as [Hin|Hin]; [rewrite Hin, pushed_free in Hi; injection Hi as <-; cbn; by intros E; rewrite E in Hp|].
    destruct (pushed_then i x Hi Hin) as (y & Hy & -> & _ & ->). intros E. destruct (decide (i = m)) as [Him|Him]; [|by eapply c_nil].
    rewrite Him, Hm in Hy. injection Hy as <-. by rewrite E in Hpm.
  - intros i x Hi. destruct (decide (i = n)) as [Hin|Hin]; [rewrite Hin, pushed_free in Hi; by injection Hi as <-|].
    destruct (pushed_then i x Hi Hin) as (y & Hy & -> & -> & _). by eapply c_unset.
  - intros i x Hi Hpi. destruct (decide (i = n)) as [Hin|Hin].
    + rewrite Hin in Hi |- *. rewrite pushed_free in Hi. injection Hi as <-. cbn. rewrite Hmp. eapply leads_one; [apply pushed_main|done|by apply proper_clear].
    + destruct (pushed_then i x Hi Hin) as (y & Hy & E & _). rewrite E in Hpi |- *. apply (leads_sim nodes pushed _ id); [|by eapply c_leads].
      intros a z y' Ha Hz Hcl. by eapply pushed_one.
  - intros i x Hi Hpi. destruct (decide (i = n)) as [Hin|Hin].
    + rewrite Hin, pushed_free in Hi. injection Hi as <-. cbn. rewrite Hmp, pushed_main. eexists. split; [done|]. cbn. split; [by apply proper_not_nil|done].
    + destruct (pushed_then i x Hi Hin) as (y & Hy & E & _). rewrite E in Hpi |- *. destruct (c_main _ _ Hc _ _ Hy Hpi) as (mn & Hmn & Hkn & Hmm).
      destruct (pushed_now (mp (i_key y)) mn) as (mn' & Hmn' & E' & _); [|done|rewrite <- E' in Hkn, Hmm; eauto]. intros Emn. rewrite Emn, Hn in Hmn. by injection Hmn as <-.
  - intros i j x x' Hi Hj. destruct (decide (i = n)) as [Hin|Hin], (decide (j = n)) as [Hjn|Hjn]; [congruence|..].
    + rewrite Hin, pushed_free in Hi. injection Hi as <-. cbn. destruct (pushed_then j x' Hj Hjn) as (y & Hy & -> & _). intros _ Hpj Hs. by destruct (Habs _ _ Hy Hpj).
    + rewrite Hjn, pushed_free in Hj. injection Hj as <-. cbn. destruct (pushed_then i x Hi Hin) as (y & Hy & -> & _). intros Hpj _ Hs%same_sym. by destruct (Habs _ _ Hy Hpj).
    + destruct (pushed_then i x Hi Hin) as (y & Hy & -> & _). destruct (pushed_then j x' Hj Hjn) as (y' & Hy' & -> & _). by eapply c_same.
  - intros i x Hi. destruct (decide (i = n)) as [Hin|Hin]; [rewrite Hin, pushed_free in Hi; by injection Hi as <-|].
    destruct (pushed_then i x Hi Hin) as (y & Hy & -> & _). by eapply c_valid.
Qed.
End push.
End insert.

(** ** The entries of a table

    The pairs of keys and values in nodes, in any order; no two of them have the same key.  What a list of pairs gives for a key is the
    contract of a table. *)

Abbreviation pair := (TValue * TValue)%type.

Definition ent (n : Node) : list pair := if ttisnil (i_val n) then [] else [(i_key n, i_val n)].

Definition entries (l : list Node) : list pair := l ≫= ent.

Lemma entries_app l l' : entries (l ++ l') = entries l ++ entries l'.
Proof. apply bind_app. Qed.

Lemma entries_insert l i n n' : l !! i = Some n → ent n ++ entries (<[i := n']> l) ≡ₚ ent n' ++ entries l.
Proof.
  intros Hi. assert (i < length l)%nat as Hlt by (by eapply lookup_lt_Some). rewrite insert_take_drop by done.
  rewrite <- (take_drop_middle _ _ _ Hi) at 3. change (n' :: drop (S i) l) with ([n'] ++ drop (S i) l). change (n :: drop (S i) l) with ([n] ++ drop (S i) l).
  rewrite !entries_app. unfold entries at 2 5. cbn. rewrite !app_nil_r. solve_Permutation.
Qed.

Lemma entries_same l i n n' : l !! i = Some n → ent n' = ent n → entries (<[i := n']> l) ≡ₚ entries l.
Proof. intros Hi He. pose proof (entries_insert l i n n' Hi) as H. rewrite He in H. by apply Permutation_app_inv_l in H. Qed.

(** Two nodes change places. *)
Lemma entries_swap l i j a b a' b' : i ≠ j → l !! i = Some a → l !! j = Some b → ent a' = ent a → ent b' = ent b →
  entries (<[j := a']> (<[i := b']> l)) ≡ₚ entries l.
Proof.
  intros Hij Hi Hj Ha Hb. apply (Permutation_app_inv_l (ent b)). rewrite (entries_insert (<[i := b']> l) j b a') by by rewrite list_lookup_insert_ne.
  rewrite Ha, (entries_insert l i a b') by done. by rewrite Hb.
Qed.

Lemma elem_of_entries l i n : l !! i = Some n → i_val n ≠ TNil → (i_key n, i_val n) ∈ entries l.
Proof.
  intros Hi Hv. unfold entries. apply list_elem_of_bind. exists n. split; [|by eapply list_elem_of_lookup_2]. unfold ent. destruct (i_val n); first [done|by left].
Qed.

Lemma entries_elem_of l e : e ∈ entries l → ∃ i n, l !! i = Some n ∧ i_val n ≠ TNil ∧ e = (i_key n, i_val n).
Proof.
  intros (n & He & [i Hi]%list_elem_of_lookup)%list_elem_of_bind. exists i, n. unfold ent in He. destruct (i_val n); first [by apply elem_of_nil in He|by apply list_elem_of_singleton in He].
Qed.

(** *** Different keys *)

Definition apart (l : list pair) : Prop := ForallOrdPairs (λ e e', ¬ same e.1 e'.1) l.

Lemma apart_cons e l : apart (e :: l) ↔ Forall (λ e', ¬ same e.1 e'.1) l ∧ apart l.
Proof. split; [by inversion 1|]. intros [? ?]. by constructor. Qed.

#[export] Instance apart_perm : Proper ((≡ₚ) ==> iff) apart.
Proof.
  assert (∀ l l', l ≡ₚ l' → apart l → apart l') as H; [|intros l l' Hl; split; apply H; [done|by symmetry]].
  induction 1 as [|e l l' Hl IH|e e' l|l1 l2 l3 _ IH1 _ IH2]; [done|..|by eauto].
  - rewrite !apart_cons. intros [He Ha]. split; [by rewrite <- Hl|by apply IH].
  - rewrite !apart_cons, !Forall_cons. intros [[H1 H2] [H3 H4]]. split_and!; try done. by intros ?%same_sym.
Qed.

Lemma apart_app l l' : apart (l ++ l') ↔ apart l ∧ apart l' ∧ ∀ e e', e ∈ l → e' ∈ l' → ¬ same e.1 e'.1.
Proof.
  induction l as [|e l IH]; cbn [app].
  - split; [|by intros (_ & ? & _)]. intros. split_and!; [constructor|done|]. by intros ? ? ?%elem_of_nil.
  - rewrite !apart_cons, IH, Forall_app, !Forall_forall. split.
    + intros ([H1 H2] & H3 & H4 & H5). split_and!; try done. intros x y [->|Hx]%elem_of_cons Hy; eauto.
    + intros ([H1 H2] & H3 & H4). split_and!; try done.
      * intros x Hx. apply H4; [left|done].
      * intros x y Hx. apply H4. by right.
Qed.

Lemma apart_nodes l i j n n' : apart (entries l) → l !! i = Some n → l !! j = Some n' → i ≠ j → i_val n ≠ TNil → i_val n' ≠ TNil →
  ¬ same (i_key n) (i_key n').
Proof.
  intros Ha Hi Hj Hij Hv Hv'. pose proof (entries_insert l i n (NodeOf TNil TNil None) Hi) as H1. cbn in H1. rewrite <- H1 in Ha.
  assert (<[i := NodeOf TNil TNil None]> l !! j = Some n') as Hj' by by rewrite list_lookup_insert_ne.
  pose proof (elem_of_entries _ _ _ Hj' Hv') as He. unfold ent in Ha. destruct (ttisnil (i_val n)) eqn:E; [by destruct (i_val n)|].
  cbn in Ha. apply apart_cons in Ha as [Ha _]. rewrite Forall_forall in Ha. by apply Ha in He.
Qed.

(** *** What a list gives for a key *)

Fixpoint assoc (l : list pair) (k : TValue) : TValue :=
  match l with [] => TNil | (k', v) :: l => if luaO_rawequalObj k' k then v else assoc l k end.

Lemma assoc_none l k : (∀ e, e ∈ l → luaO_rawequalObj e.1 k = false) → assoc l k = TNil.
Proof.
  induction l as [|[k' v] l IH]; intros H; cbn; [done|]. pose proof (H (k', v) (list_elem_of_here _ _)) as E. cbn in E. rewrite E. apply IH. intros e He. apply H. by right.
Qed.

Lemma assoc_in l k k' v : apart l → (k', v) ∈ l → luaO_rawequalObj k' k = true → assoc l k = v.
Proof.
  intros Ha He Hk. induction l as [|[k1 v1] l IH]; [by apply elem_of_nil in He|]. apply apart_cons in Ha as [Ha Hl]. cbn.
  destruct (luaO_rawequalObj k1 k) eqn:E.
  - apply elem_of_cons in He as [He|He]; [by simplify_eq|]. rewrite Forall_forall in Ha. destruct (Ha _ He). left. cbn.
    eapply rawequal_trans; [done|]. by rewrite rawequal_comm.
  - apply elem_of_cons in He as [He|He]; [simplify_eq; congruence|by apply IH].
Qed.

Lemma assoc_cases l k : (∃ k' v, (k', v) ∈ l ∧ luaO_rawequalObj k' k = true ∧ assoc l k = v) ∨
  (assoc l k = TNil ∧ ∀ e, e ∈ l → luaO_rawequalObj e.1 k = false).
Proof.
  induction l as [|[k1 v1] l IH]; cbn; [right; split; [done|]; by intros e ?%elem_of_nil|]. destruct (luaO_rawequalObj k1 k) eqn:E.
  - left. exists k1, v1. split; [left|done].
  - destruct IH as [(k' & v & Hin & H)|[H Hn]]; [left; exists k', v; split; [by right|done]|].
    right. split; [done|]. intros e [->|He]%elem_of_cons; [done|by apply Hn].
Qed.

Lemma assoc_perm l l' k : apart l → l ≡ₚ l' → assoc l k = assoc l' k.
Proof.
  intros Ha Hl. destruct (assoc_cases l k) as [(k' & v & Hin & Hk & ->)|[-> Hn]].
  - symmetry. eapply assoc_in; [by rewrite <- Hl|by rewrite <- Hl|done].
  - symmetry. apply assoc_none. intros e. rewrite <- Hl. apply Hn.
Qed.

(** An entry set, and removed when the value is nil. *)
Definition upd (k v : TValue) (l : list pair) : list pair :=
  (if ttisnil v then [] else [(k, v)]) ++ filter (λ e, luaO_rawequalObj e.1 k = false) l.

Lemma assoc_filter l k k' : luaO_rawequalObj k k' = false → assoc (filter (λ e, luaO_rawequalObj e.1 k = false) l) k' = assoc l k'.
Proof.
  intros Hk. induction l as [|[k1 v1] l IH]; [done|]. rewrite filter_cons. cbn. case_decide as H; cbn; rewrite IH; [done|].
  destruct (luaO_rawequalObj k1 k') eqn:E; [|done]. exfalso. apply not_false_is_true in H. rewrite rawequal_comm in H.
  by rewrite (rawequal_trans _ _ _ H E) in Hk.
Qed.

Lemma assoc_upd l k v k' : luaO_rawequalObj k k = true → assoc (upd k v l) k' = if luaO_rawequalObj k k' then v else assoc l k'.
Proof.
  intros Hkk. unfold upd. destruct (ttisnil v) eqn:Ev.
  - destruct v; try done. cbn [app]. destruct (luaO_rawequalObj k k') eqn:E; [|by apply assoc_filter]. apply assoc_none.
    intros e [He _]%list_elem_of_filter. destruct (luaO_rawequalObj e.1 k') eqn:E'; [|done]. rewrite rawequal_comm in E.
    by rewrite (rawequal_trans _ _ _ E' E) in He.
  - cbn. destruct (luaO_rawequalObj k k') eqn:E; [done|]. by apply assoc_filter.
Qed.
