(* ===== verification/TableSize.v ===== *)
(** * The sizes of a table

    Logarithms, the number of integer keys between powers of two, and the size of the array part: the largest power of two such that more than
    half of the array would be in use. *)
From S2P Require Import Prelude LuaNum LuaApi LuaTable TableChain.

(** ** Logarithms *)

Lemma log_2_lookup x : 0 < x < 256 → log_2 !! Z.to_nat x = Some (Z.log2 x + 1).
Proof.
  intros Hx. assert (forallb (λ n, bool_decide (log_2 !! S n = Some (Z.log2 (Z.of_nat (S n)) + 1))) (seq 0 255) = true) as H by by vm_compute.
  rewrite forallb_forall in H. specialize (H (Z.to_nat x - 1)%nat). replace (S (Z.to_nat x - 1)) with (Z.to_nat x) in H by lia. rewrite Z2Nat.id in H by lia.
  apply (bool_decide_eq_true_1 _), H, in_seq. lia.
Qed.

Lemma log2_loop_ok : ∀ fuel x l, 0 < x < 256 ^ Z.of_nat fuel → log2_loop fuel x l = Some (l + Z.log2 x + 1).
Proof.
  induction fuel as [|fuel IH]; intros x l Hx; [cbn in Hx; lia|]. cbn [log2_loop]. destruct (Z.leb_spec 256 x) as [Hge|Hlt].
  - rewrite IH.
    + rewrite Z.log2_shiftr by lia. assert (8 <= Z.log2 x) by (apply Z.log2_le_pow2; lia). f_equal. lia.
    + rewrite Z.shiftr_div_pow2 by lia. change (2 ^ 8) with 256. rewrite Nat2Z.inj_succ, Z.pow_succ_r in Hx by lia.
      split; [|apply Z.div_lt_upper_bound; lia]. assert (1 <= x / 256) by (apply Z.div_le_lower_bound; lia). lia.
  - rewrite log_2_lookup by lia. cbn. f_equal. lia.
Qed.

Lemma ceillog2_ok x : 1 <= x < 2 ^ 32 → ceillog2 x = Some (Z.log2_up x).
Proof.
  intros Hx. unfold ceillog2, luaO_log2, u32. rewrite Z.mod_small by lia. destruct (decide (x = 1)) as [->|Hne]; [done|].
  rewrite log2_loop_ok by (change (256 ^ Z.of_nat 4) with (2 ^ 32); lia). cbn. f_equal. rewrite Z.log2_up_eqn by lia. rewrite <- Z.sub_1_r. lia.
Qed.

Lemma twoto_pow x : Z.of_nat (twoto x) = 2 ^ Z.of_nat x.
Proof. unfold twoto. by rewrite Nat2Z.inj_pow. Qed.

Lemma twoto_pos x : (0 < twoto x)%nat.
Proof. pose proof (twoto_pow x). pose proof (Z.pow_pos_nonneg 2 (Z.of_nat x)). lia. Qed.

(** The next power of two. *)
Lemma ceillog2_round n : (0 < n)%nat → Z.of_nat n <= MAXASIZE → ∃ l, ceillog2 (Z.of_nat n) = Some (Z.of_nat l) ∧ (l <= 26)%nat ∧ (n <= twoto l)%nat.
Proof.
  intros Hn Hm. unfold MAXASIZE in Hm. exists (Z.to_nat (Z.log2_up (Z.of_nat n))). pose proof (Z.log2_up_nonneg (Z.of_nat n)).
  rewrite ceillog2_ok, Z2Nat.id by lia. split_and!; [done| |].
  - assert (Z.log2_up (Z.of_nat n) <= 26) by (apply Z.log2_up_le_pow2; lia). lia.
  - apply Nat2Z.inj_le. rewrite twoto_pow, Z2Nat.id by lia. apply Z.log2_up_le_pow2; lia.
Qed.

Lemma ceillog2_twoto l : (l <= 26)%nat → ceillog2 (Z.of_nat (twoto l)) = Some (Z.of_nat l).
Proof.
  intros Hl. rewrite twoto_pow. assert (1 <= 2 ^ Z.of_nat l <= 2 ^ 26) by (split; [apply Z.lt_pred_le; apply Z.pow_pos_nonneg; lia|apply Z.pow_le_mono_r; lia]).
  rewrite ceillog2_ok by lia. by rewrite Z.log2_up_pow2 by lia.
Qed.

(** ** Integer keys *)

Section sizes.
Context {M : Machine}.

Lemma fits_int n k : n = 4 ∨ n = 8 → - 2 ^ 31 <= k < 2 ^ 31 → fits n k = true.
Proof.
  intros Hn Hk. unfold fits. apply andb_true_iff. rewrite Z.leb_le, Z.ltb_lt. destruct Hn as [-> | ->].
  - change (256 ^ 4 / 2) with (2 ^ 31). lia.
  - change (256 ^ 8 / 2) with (2 ^ 63). lia.
Qed.

Lemma fits_int_range k : fits 4 k = true → - 2 ^ 31 <= k < 2 ^ 31.
Proof. unfold fits. intros [H1%Z.leb_le H2%Z.ltb_lt]%andb_true_iff. change (256 ^ 4 / 2) with (2 ^ 31) in *. lia. Qed.

(** The integers of 32 bits are numbers of the machine. *)
Lemma number2int_cast k : - 2 ^ 31 <= k < 2 ^ 31 → number2int (cast_num k) = k.
Proof.
  intros Hk. unfold number2int, cast_num, num_of_int. pose proof m_host_ok as Hh. destruct (h_intnum m_host).
  - cbn. assert (signed (h_bytes m_host) k = k) as ->.
    { rewrite <- (signed_mod_any (h_bytes m_host)) by lia. apply signed_mod; [lia|]. by apply fits_int. }
    rewrite <- (signed_mod_any 4) by lia. apply signed_mod; [lia|]. apply fits_int; [by left|done].
  - cbn. rewrite dbl_int_exact by lia. cbn. by rewrite fits_int by auto.
Qed.

Lemma dbl_of_int_nan k : - 2 ^ 31 <= k < 2 ^ 31 → dbl_nan (dbl_of_int k) = false.
Proof.
  intros Hk. pose proof (dbl_int_exact k) as H. unfold dbl_to_int in H. unfold dbl_nan. destruct (dbl_exp (dbl_of_int k) =? 2047); [|done]. discriminate H. lia.
Qed.

Lemma cast_num_refl k : - 2 ^ 31 <= k < 2 ^ 31 → num_eqb (cast_num k) (cast_num k) = true.
Proof.
  intros Hk. unfold cast_num, num_of_int. destruct (h_intnum m_host); cbn; [by rewrite Z.eqb_refl|]. by rewrite dbl_of_int_nan, Z.eqb_refl.
Qed.

Lemma cast_num_ok k : - 2 ^ 31 <= k < 2 ^ 31 → num_ok m_host (cast_num k).
Proof.
  intros Hk. unfold cast_num, num_of_int, num_ok. pose proof m_host_ok as Hh. destruct (h_intnum m_host) eqn:E.
  - split; [done|]. apply signed_fits. lia.
  - split; [done|]. unfold dbl_of_int. destruct (Z.eqb_spec k 0) as [->|Hk0]; [lia|]. unfold dbl_round.
    set (a := Z.abs k). assert (0 < a <= 2 ^ 31) as Ha by lia. assert (0 <= Z.log2 a <= 31) as Hl.
    { split; [apply Z.log2_nonneg|]. apply (Z.log2_le_mono a (2 ^ 31)). lia. }
    pose proof (Z.log2_spec a ltac:(lia)) as [H1 H2]. rewrite (proj2 (Z.leb_le _ 52)) by lia. set (e := Z.log2 a) in *.
    assert (2 ^ 52 = 2 ^ e * 2 ^ (52 - e)) as E52 by (rewrite <- Z.pow_add_r by lia; f_equal; lia). rewrite Z.pow_succ_r in H2 by lia.
    assert (0 < 2 ^ (52 - e)) by (apply Z.pow_pos_nonneg; lia). assert (2 ^ 52 <= a * 2 ^ (52 - e) < 2 * 2 ^ 52) by nia. destruct (k <? 0); lia.
Qed.

Lemma cast_num_valid k : - 2 ^ 31 <= k < 2 ^ 31 → valid (TNumber (cast_num k)).
Proof. intros Hk. split_and!; [done|by apply cast_num_refl|by apply cast_num_ok]. Qed.

Lemma arrayindex_cast k : - 2 ^ 31 <= k < 2 ^ 31 → arrayindex (TNumber (cast_num k)) = k.
Proof. intros Hk. cbn. rewrite number2int_cast by done. by rewrite cast_num_refl. Qed.

(** A positive integer key is the number that the array part gives for it. *)
Lemma arrayindex_key k : valid k → 0 < arrayindex k → k = TNumber (cast_num (arrayindex k)).
Proof.
  destruct k as [| |n| | |]; cbn; try done. destruct (num_eqb (cast_num (number2int n)) n) eqn:E; [|done]. intros _ Hk. f_equal.
  destruct (num_eqb_cases _ _ E) as [H|(a & b & Ha & Hb & Hza & Hzb)]; [|exfalso].
  - by rewrite H.
  - subst n. rewrite number2int_zero in Hk by done. lia.
Qed.

Lemma number2int_range n : - 2 ^ 31 <= number2int n < 2 ^ 31.
Proof.
  unfold number2int. destruct n as [z|b]; cbn; [apply fits_int_range, signed_fits; lia|].
  assert (∀ z, - 2 ^ 31 <= s32 z < 2 ^ 31) as H by (intros z; unfold s32; destruct (Z.ltb_spec (u32 z) 2147483648); zlia).
  destruct (dbl_to_int b) as [v|]; cbn; [|apply H]. destruct (fits 4 v) eqn:E; [by apply fits_int_range|apply H].
Qed.

Lemma arrayindex_range k : - 2 ^ 31 <= arrayindex k < 2 ^ 31.
Proof. destruct k as [| |n| | |]; cbn [arrayindex]; try lia. destruct (num_eqb _ _); [apply number2int_range|lia]. Qed.

(** The test for the array part. *)
Lemma array_test k sz : - 2 ^ 31 <= k < 2 ^ 31 → 0 <= sz <= MAXASIZE → (u32 (k - 1) <? u32 sz) = bool_decide (0 < k <= sz).
Proof.
  unfold MAXASIZE. intros Hk Hsz. apply eq_true_iff_eq. rewrite Z.ltb_lt, bool_decide_eq_true. zlia.
Qed.

(** ** Counting integer keys *)

(** The keys that are integers from 1 to [n]. *)
Definition cnt (n : Z) (ks : list TValue) : Z := Z.of_nat (length (filter (λ k, 0 < arrayindex k <= n) ks)).

(** Those that are below a power of two, and those of one slice. *)
Definition below (i : nat) (k : TValue) : Prop := 0 < arrayindex k <= MAXASIZE ∧ Z.log2_up (arrayindex k) < Z.of_nat i.
Definition slice (i : nat) (k : TValue) : Prop := 0 < arrayindex k <= MAXASIZE ∧ Z.log2_up (arrayindex k) = Z.of_nat i.

#[local] Instance below_dec i k : Decision (below i k).
Proof. unfold below. apply _. Defined.
#[local] Instance slice_dec i k : Decision (slice i k).
Proof. unfold slice. apply _. Defined.

Definition bucket (i : nat) (ks : list TValue) : Z := Z.of_nat (length (filter (slice i) ks)).

Definition nums_ok (nums : list Z) (ks : list TValue) : Prop := length nums = 27%nat ∧ ∀ i, (i < 27)%nat → nums !! i = Some (bucket i ks).

Lemma cnt_cons n k ks : cnt n (k :: ks) = (if decide (0 < arrayindex k <= n) then 1 else 0) + cnt n ks.
Proof. unfold cnt. rewrite filter_cons. destruct (decide _); cbn [length]; lia. Qed.

Lemma bucket_cons i k ks : bucket i (k :: ks) = (if decide (slice i k) then 1 else 0) + bucket i ks.
Proof. unfold bucket. rewrite filter_cons. destruct (decide _); cbn [length]; lia. Qed.

Lemma cnt_app n ks ks' : cnt n (ks ++ ks') = cnt n ks + cnt n ks'.
Proof. unfold cnt. rewrite filter_app, length_app. lia. Qed.

#[local] Instance cnt_perm n : Proper ((≡ₚ) ==> eq) (cnt n).
Proof. intros l l' H. unfold cnt. by rewrite H. Qed.

Lemma below_pow i k : (i <= 26)%nat → below (S i) k ↔ 0 < arrayindex k <= 2 ^ Z.of_nat i.
Proof.
  intros Hi. unfold below, MAXASIZE. assert (2 ^ Z.of_nat i <= 2 ^ 26) by (apply Z.pow_le_mono_r; lia). split.
  - intros [Hk Hl]. split; [lia|]. apply Z.log2_up_le_pow2; lia.
  - intros Hk. split; [lia|]. assert (Z.log2_up (arrayindex k) <= Z.of_nat i) by (apply Z.log2_up_le_pow2; lia). lia.
Qed.

Lemma cnt_pow i ks : (i <= 26)%nat → cnt (2 ^ Z.of_nat i) ks = Z.of_nat (length (filter (below (S i)) ks)).
Proof. intros Hi. unfold cnt. by rewrite (list_filter_iff _ (below (S i)) ks) by (intros; by rewrite below_pow). Qed.

Lemma below_step i ks : Z.of_nat (length (filter (below (S i)) ks)) = Z.of_nat (length (filter (below i) ks)) + bucket i ks.
Proof.
  induction ks as [|k ks IH]; [done|]. rewrite bucket_cons, !filter_cons. unfold below, slice in *.
  repeat match goal with |- context [decide ?P] => destruct (decide P) end; cbn [length]; lia.
Qed.

Lemma below_none ks : filter (below 0) ks = [].
Proof.
  induction ks as [|k ks IH]; [done|]. rewrite filter_cons, decide_False; [done|]. unfold below. pose proof (Z.log2_up_nonneg (arrayindex k)). lia.
Qed.

Lemma nums_start : nums_ok (replicate 27 0) [].
Proof. split; [done|]. intros i Hi. by rewrite lookup_replicate_2. Qed.

(** A slice of keys is counted. *)
Lemma nums_slice nums ks new i x : nums_ok nums ks → (i < 27)%nat → nums !! i = Some x → Forall (slice i) new →
  nums_ok (<[i := x + Z.of_nat (length new)]> nums) (new ++ ks).
Proof.
  intros [Hl Hn] Hi Hx Hnew. split; [by rewrite length_insert|]. intros j Hj. assert (bucket j (new ++ ks) = (if decide (i = j) then Z.of_nat (length new) else 0) + bucket j ks) as ->.
  { clear -Hnew. induction Hnew as [|k new Hk Hnew IH]; [cbn; by destruct (decide (i = j))|]. cbn [app]. rewrite bucket_cons, IH. cbn [length]. unfold slice in *.
    destruct (decide (i = j)) as [->|Hij]; [rewrite decide_True by done; lia|rewrite decide_False; [lia|]]. lia. }
  destruct (decide (i = j)) as [<-|Hij]; [|rewrite list_lookup_insert_ne by done; by apply Hn].
  rewrite list_lookup_insert_eq by lia. rewrite Hn in Hx by done. f_equal. simplify_eq. lia.
Qed.

Lemma countint_ok k nums ks : nums_ok nums ks →
  ∃ nums', countint k nums = LOk (bool_decide (0 < arrayindex k <= MAXASIZE), nums') ∧ nums_ok nums' (k :: ks).
Proof.
  intros Hn. unfold countint. destruct (decide (0 < arrayindex k <= MAXASIZE)) as [Hk|Hk].
  - rewrite (proj2 (andb_true_iff _ _)) by (rewrite Z.ltb_lt, Z.leb_le; lia). unfold MAXASIZE in Hk. rewrite ceillog2_ok by lia. cbn [lopt mbind lres_mbind lua_bind].
    assert (0 <= Z.log2_up (arrayindex k) <= 26) as Hl by (split; [apply Z.log2_up_nonneg|apply Z.log2_up_le_pow2; lia]).
    destruct Hn as [Hlen Hnums]. rewrite Hnums by lia. cbn. eexists. split; [by rewrite bool_decide_true by (unfold MAXASIZE; lia)|].
    apply (nums_slice nums ks [k] _ _); [done|lia|apply Hnums; lia|]. apply Forall_singleton. split; [unfold MAXASIZE; lia|lia].
  - rewrite (proj2 (andb_false_iff _ _)) by (rewrite Z.ltb_ge, Z.leb_gt; lia). exists nums. split; [by rewrite bool_decide_false|].
    destruct Hn as [Hlen Hnums]. split; [done|]. intros i Hi. rewrite bucket_cons, decide_False by (unfold slice; lia). by apply Hnums.
Qed.

(** ** The best size *)

(** A power of two, or 0, more than half of which is in use, and no larger one is. *)
Definition best (i : nat) (n : Z) (ks : list TValue) : Prop :=
  (n = 0 ∨ ∃ p, (p < i)%nat ∧ n = 2 ^ Z.of_nat p ∧ n / 2 < cnt n ks) ∧ ∀ p, (p < i)%nat → 2 ^ Z.of_nat p / 2 < cnt (2 ^ Z.of_nat p) ks → 2 ^ Z.of_nat p <= n.

Lemma cnt_mono n n' ks : n <= n' → cnt n ks <= cnt n' ks.
Proof.
  intros Hn. induction ks as [|k ks IH]; [done|]. rewrite !cnt_cons. repeat match goal with |- context [decide ?P] => destruct (decide P) end; lia.
Qed.

Lemma cnt_max i ks : (i <= 26)%nat → cnt (2 ^ Z.of_nat i) ks <= cnt MAXASIZE ks.
Proof. intros Hi. apply cnt_mono. unfold MAXASIZE. apply Z.pow_le_mono_r; lia. Qed.

Lemma best_stop i n ks : (∀ p, (i <= p < 27)%nat → cnt (2 ^ Z.of_nat p) ks <= 2 ^ Z.of_nat p / 2) → (i <= 27)%nat → best i n ks → best 27 n ks.
Proof.
  intros Hstop Hi [H1 H2]. split.
  - destruct H1 as [->|(p & Hp & H1)]; [by left|]. right. exists p. split; [lia|done].
  - intros p Hp Hc. destruct (decide (p < i)%nat); [by apply H2|]. specialize (Hstop p). lia.
Qed.

Lemma pow_half i j : (i < j)%nat → 2 ^ Z.of_nat i <= 2 ^ Z.of_nat j / 2.
Proof.
  intros Hij. apply Z.div_le_lower_bound; [lia|]. rewrite <- Z.pow_succ_r by lia. apply Z.pow_le_mono_r; lia.
Qed.

Section computesizes.
Context (nums : list Z) (ks : list TValue) (Hnums : nums_ok nums ks) (Hcnt : ∀ n, 0 <= n → cnt n ks <= n).

Lemma computesizes_loop_ok : ∀ fuel i n, (27 < i + fuel)%nat → (i <= 27)%nat → best i n ks →
  ∃ n', computesizes_loop fuel i nums (cnt MAXASIZE ks) (2 ^ Z.of_nat i) (Z.of_nat (length (filter (below i) ks))) (cnt n ks) n = LOk (n', cnt n' ks) ∧ best 27 n' ks.
Proof.
  induction fuel as [|fuel IH]; intros i n Hf Hi Hb; [lia|]. cbn [computesizes_loop]. destruct (Z.ltb_spec (2 ^ Z.of_nat i / 2) (cnt MAXASIZE ks)) as [Hlt|Hge].
  2: { exists n. split; [done|]. eapply best_stop; [|done..]. intros p Hp. etrans; [apply cnt_max; lia|]. etrans; [exact Hge|]. apply Z.div_le_mono; [lia|]. apply Z.pow_le_mono_r; lia. }
  assert (i <= 26)%nat as Hi26.
  { destruct (decide (i <= 26)%nat); [done|]. exfalso. replace i with 27%nat in Hlt by lia. pose proof (Hcnt MAXASIZE ltac:(done)). change (2 ^ Z.of_nat 27 / 2) with MAXASIZE in Hlt. lia. }
  destruct Hnums as [Hlen Hn]. rewrite Hn by lia. cbn [lopt mbind lres_mbind lua_bind].
  pose proof (below_step i ks) as Hstep. pose proof (cnt_pow i ks Hi26) as Hpow. assert (0 <= bucket i ks) as Hb0 by (unfold bucket; lia).
  set (a' := Z.of_nat (length (filter (below (S i)) ks))) in *.
  assert (∃ n1, (if 0 <? bucket i ks
     then if 2 ^ Z.of_nat i / 2 <? Z.of_nat (length (filter (below i) ks)) + bucket i ks
          then (Z.of_nat (length (filter (below i) ks)) + bucket i ks, Z.of_nat (length (filter (below i) ks)) + bucket i ks, 2 ^ Z.of_nat i)
          else (Z.of_nat (length (filter (below i) ks)) + bucket i ks, cnt n ks, n)
     else (Z.of_nat (length (filter (below i) ks)), cnt n ks, n)) = (a', cnt n1 ks, n1) ∧ best (S i) n1 ks) as (n1 & -> & Hb1).
  { rewrite <- Hstep, <- Hpow. destruct Hb as [H1 H2].
    assert (cnt (2 ^ Z.of_nat i) ks <= 2 ^ Z.of_nat i / 2 → best (S i) n ks) as Hsame.
    { intros Hle. split; [destruct H1 as [->|(p & Hp & H1)]; [by left|right; exists p; split; [lia|done]]|].
      intros p Hp Hc. destruct (decide (p = i)) as [->|]; [lia|]. apply H2; [lia|done]. }
    assert (n = 0 ∨ ∃ p, (p < i)%nat ∧ n = 2 ^ Z.of_nat p) as Hsmall by (destruct H1 as [->|(p & ? & ? & _)]; eauto).
    destruct (Z.ltb_spec 0 (bucket i ks)) as [Hpos|Hz].
    - destruct (Z.ltb_spec (2 ^ Z.of_nat i / 2) (cnt (2 ^ Z.of_nat i) ks)) as [Hmore|Hless]; [|exists n; split; [done|by apply Hsame]].
      exists (2 ^ Z.of_nat i). split; [done|]. split; [right; exists i; split; [lia|done]|]. intros p Hp _. apply Z.pow_le_mono_r; lia.
    - exists n. split; [f_equal; f_equal; lia|]. apply Hsame. rewrite Hpow. destruct i as [|i].
      + rewrite below_none in Hstep. cbn in Hstep. change (2 ^ Z.of_nat 0 / 2) with 0. lia.
      + assert (cnt (2 ^ Z.of_nat i) ks = a') as <- by (rewrite cnt_pow by lia; lia). etrans; [apply Hcnt; apply Z.pow_nonneg; lia|]. apply pow_half. lia. }
  destruct (Z.eqb_spec a' (cnt MAXASIZE ks)) as [Ea|Ea].
  - exists n1. split; [done|]. apply (best_stop (S i)); [|lia|exact Hb1]. intros p Hp. etrans; [apply cnt_max; lia|]. rewrite <- Ea, <- Hpow.
    etrans; [apply Hcnt; apply Z.pow_nonneg; lia|]. apply pow_half. lia.
  - unfold a'. replace (2 ^ Z.of_nat i * 2) with (2 ^ Z.of_nat (S i)) by (rewrite Nat2Z.inj_succ, Z.pow_succ_r by lia; lia). apply IH; [lia|lia|done].
Qed.

Lemma computesizes_ok : ∃ n, computesizes nums (cnt MAXASIZE ks) = LOk (n, cnt n ks) ∧ best 27 n ks.
Proof.
  assert (cnt 0 ks = 0) as H0. { pose proof (Hcnt 0 ltac:(done)). assert (0 <= cnt 0 ks) by (unfold cnt; lia). lia. }
  destruct (computesizes_loop_ok 33 0 0) as (n & E & Hb); [lia|lia|split; [by left|lia]|]. rewrite below_none, H0 in E. by exists n.
Qed.
End computesizes.
End sizes.
