(* ===== verification/TableResize.v ===== *)
(** * Resizing a table in place

    [move_node] puts the nodes of a table without chains into chains; [resize_hashpart] takes the chains apart, moves integer keys to the array
    and the rest below the new size, and rebuilds the chains.  The table has the same pairs afterwards. *)
From S2P Require Import Prelude LuaNum LuaApi LuaTable TableChain TableSize.

(** ** Rebuilding the chains in place

    [move_node] puts the nodes of a table without chains into chains.  The nodes that are not yet in the chain of their main position are
    loose: without them, the table is well formed at every step. *)

Definition unused : Node := NodeOf TNil TNil None.

Definition bare (L : gset nat) (nodes : list Node) : list Node := imap (λ i n, if decide (i ∈ L) then unused else n) nodes.

Lemma bare_lookup L nodes i : bare L nodes !! i = (λ n, if decide (i ∈ L) then unused else n) <$> nodes !! i.
Proof. unfold bare. by rewrite list_lookup_imap. Qed.

Lemma bare_length L nodes : length (bare L nodes) = length nodes.
Proof. unfold bare. by rewrite length_imap. Qed.

Lemma bare_empty nodes : bare ∅ nodes = nodes.
Proof. apply list_eq. intros i. rewrite bare_lookup. destruct (nodes !! i); cbn; [|done]. by rewrite decide_False by set_solver. Qed.

Lemma bare_insert_out L nodes i n : i ∉ L → bare L (<[i := n]> nodes) = <[i := n]> (bare L nodes).
Proof.
  intros Hi. apply list_eq. intros j. rewrite bare_lookup, !list_lookup_insert, bare_lookup, bare_length. destruct (decide (i = j ∧ _)) as [[<- Hlt]|Hj]; [|done].
  cbn. by rewrite decide_False.
Qed.

Lemma bare_insert_in L nodes i n : i ∈ L → bare L (<[i := n]> nodes) = bare L nodes.
Proof.
  intros Hi. apply list_eq. intros j. rewrite !bare_lookup, list_lookup_insert. destruct (decide (i = j ∧ _)) as [[<- Hlt]|Hj]; [|done].
  destruct (lookup_lt_is_Some_2 _ _ Hlt) as [x ->]. cbn. by rewrite !decide_True by done.
Qed.

Lemma bare_remove L nodes i n : nodes !! i = Some n → i ∈ L → bare (L ∖ {[i]}) nodes = <[i := n]> (bare L nodes).
Proof.
  intros Hn Hi. apply list_eq. intros j. rewrite list_lookup_insert, !bare_lookup, bare_length. destruct (decide (i = j ∧ _)) as [[<- Hlt]|Hj].
  - rewrite Hn. cbn. by rewrite decide_False by set_solver.
  - destruct (nodes !! j) as [x|] eqn:Hx; [|done]. cbn. f_equal. assert (i ≠ j) as Hne by (intros ->; apply Hj; split; [done|by eapply lookup_lt_Some]).
    destruct (decide (j ∈ L)); [rewrite decide_True by set_solver|rewrite decide_False by set_solver]; done.
Qed.

Lemma size_remove (L : gset nat) i : i ∈ L → (size (L ∖ {[i]}) < size L)%nat.
Proof. intros Hi. apply subset_size. split; [set_solver|]. intros H. specialize (H i Hi). set_solver. Qed.

Section rehash.
Context {M : Machine} (sz : nat).

Let mp (k : TValue) : nat := main_of sz k.

Record rehashing (nodes : list Node) (L : gset nat) : Prop := {
  h_chains : chains mp (bare L nodes);
  h_loose : ∀ i, i ∈ L → ∃ n, nodes !! i = Some n ∧ valid (i_key n) ∧ i_val n ≠ TNil ∧ n_next n = None ∧ mp (i_key n) ≠ i ∧ (mp (i_key n) < length nodes)%nat;
  h_used : ∀ i n, nodes !! i = Some n → i_val n = TNil → i_key n = TNil;
  h_apart : apart (entries nodes) }.

Section facts.
Context (nodes : list Node) (L : gset nat) (H : rehashing nodes L).

Lemma bare_next i n x : nodes !! i = Some n → n_next n = Some x → bare L nodes !! i = Some n.
Proof.
  intros Hi Hx. rewrite bare_lookup, Hi. cbn. destruct (decide (i ∈ L)) as [Hl|]; [|done].
  destruct (h_loose _ _ H _ Hl) as (n' & Hn' & _ & _ & E & _). simplify_eq.
Qed.

Lemma bare_back i n : bare L nodes !! i = Some n → n ≠ unused → nodes !! i = Some n ∧ i ∉ L.
Proof.
  rewrite bare_lookup. destruct (nodes !! i) as [x|] eqn:Hx; [|done]. cbn. destruct (decide (i ∈ L)); intros [= <-]; [done|]. done.
Qed.

Lemma rehashing_linked : linked nodes.
Proof.
  destruct (c_linked _ _ (h_chains _ _ H)) as [[r Hr] Hn Hp]. split.
  - exists r. intros j n x Hj Hx. eapply Hr; [|done]. by eapply bare_next.
  - intros j n x Hj Hx. destruct (Hn j n x) as (n' & Hn' & Hk); [by eapply bare_next|done|]. exists n'. split; [|done]. apply bare_back; [done|]. by intros ->.
  - intros i j n n' x Hi Hj Hx Hx'. eapply Hp; [by eapply bare_next|by eapply bare_next|done..].
Qed.

Lemma leads_bare k a i : leads (bare L nodes) k a i → leads nodes k a i.
Proof.
  intros Hl. apply (leads_sim (bare L nodes) nodes k id); [|done]. intros j n x Hj Hx Hc. apply bare_back in Hj as [Hj _]; [|by intros ->].
  by eapply leads_one.
Qed.

(** Nothing leads to a loose node. *)
Lemma loose_not_next i j n : i ∈ L → nodes !! j = Some n → n_next n ≠ Some i.
Proof.
  intros Hi Hj Hx. destruct (l_next _ (c_linked _ _ (h_chains _ _ H)) j n i) as (n' & Hn' & Hk); [by eapply bare_next|done|].
  apply Hk. rewrite bare_lookup in Hn'. destruct (nodes !! i); [|done]. cbn in Hn'. rewrite decide_True in Hn' by done. by simplify_eq.
Qed.

Lemma loose_no_prev i a : i ∈ L → (a < length nodes)%nat → find_prev (length nodes) nodes a i = LOk None.
Proof.
  intros Hi Ha. destruct (find_prev_total nodes rehashing_linked a i Ha) as [[j|] Hr]; [|done].
  destruct (find_prev_some _ _ _ _ _ Hr) as (n & Hn & Hx). by destruct (loose_not_next i j n).
Qed.

Lemma settled_prev i n : i ∉ L → nodes !! i = Some n → i_val n ≠ TNil → mp (i_key n) ≠ i →
  ∃ j nj, find_prev (length nodes) nodes (mp (i_key n)) i = LOk (Some j) ∧ nodes !! j = Some nj ∧ n_next nj = Some i ∧ j ∉ L.
Proof.
  intros Hi Hn Hv Hm. assert (bare L nodes !! i = Some n) as Hb by (rewrite bare_lookup, Hn; cbn; by rewrite decide_False).
  assert (proper (i_key n)) as Hp by (destruct (decide (proper (i_key n))) as [|Hnp]; [done|]; by destruct Hv; eapply c_unset; [apply H|..]).
  pose proof (c_leads _ _ (h_chains _ _ H) _ _ Hb Hp) as Hl. pose proof (leads_bare _ _ _ Hl) as Hl'.
  destruct (find_prev_total nodes rehashing_linked (mp (i_key n)) i) as [[j|] Hr]; [by eapply leads_in| |].
  - destruct (find_prev_some _ _ _ _ _ Hr) as (nj & Hj & Hx). exists j, nj. split_and!; try done.
    pose proof (bare_next _ _ _ Hj Hx) as Hbj. apply (bare_back j nj Hbj). by intros ->.
  - by apply (find_prev_none _ _ _ _ Hl') in Hr.
Qed.

Lemma loose_absent i n : i ∈ L → nodes !! i = Some n → absent (i_key n) (bare L nodes).
Proof.
  intros Hi Hn j x Hj Hp. destruct (h_loose _ _ H _ Hi) as (n' & Hn' & _ & Hv & _). simplify_eq.
  apply bare_back in Hj as [Hj Hjl]; [|by intros ->]. eapply (apart_nodes nodes i j); [apply H|done..| | |].
  - intros ->. done.
  - done.
  - intros E. apply (h_used _ _ H _ _ Hj) in E. by rewrite E in Hp.
Qed.
End facts.

(** *** The steps of [move_node] for a loose node *)

(** What a step leaves: [i] is settled, or there are fewer loose nodes. *)
Definition after (nodes : list Node) (L : gset nat) (i : nat) (b : bool) (nodes' : list Node) : Prop :=
  ∃ L' : gset nat, rehashing nodes' L' ∧ L' ⊆ L ∧ entries nodes' ≡ₚ entries nodes ∧ length nodes' = length nodes ∧
  if b then i ∉ L' else (size L' < size L)%nat ∧ ∃ n, nodes' !! i = Some n ∧ i_val n ≠ TNil.

Section steps.
Context (nodes : list Node) (L : gset nat) (H : rehashing nodes L).
Context (i : nat) (node : Node) (Hi : nodes !! i = Some node) (HiL : i ∈ L) (m : nat) (nm : Node) (Hm : nodes !! m = Some nm) (Hmp : mp (i_key node) = m).

Lemma loose_node : valid (i_key node) ∧ i_val node ≠ TNil ∧ n_next node = None ∧ i ≠ m.
Proof.
  destruct (h_loose _ _ H _ HiL) as (n & Hn & Hv & Hval & Hx & Hne & _). rewrite Hi in Hn. injection Hn as <-. split_and!; try done. congruence.
Qed.

Lemma node_eta : NodeOf (i_val node) (i_key node) None = node.
Proof. destruct loose_node as (_ & _ & E & _). destruct node; cbn in *. by rewrite E. Qed.

Lemma bare_at_loose j : j ∈ L → (j < length nodes)%nat → bare L nodes !! j = Some unused.
Proof. intros Hj [n Hn]%lookup_lt_is_Some_2. rewrite bare_lookup, Hn. cbn. by rewrite decide_True. Qed.

Lemma bare_at_settled j n : j ∉ L → nodes !! j = Some n → bare L nodes !! j = Some n.
Proof. intros Hj Hn. rewrite bare_lookup, Hn. cbn. by rewrite decide_False. Qed.

(** The nodes that stay loose are where they were. *)
Lemma loose_stay nodes' L' : length nodes' = length nodes → L' ⊆ L → (∀ j, j ∈ L' → nodes' !! j = nodes !! j) →
  ∀ j, j ∈ L' → ∃ n, nodes' !! j = Some n ∧ valid (i_key n) ∧ i_val n ≠ TNil ∧ n_next n = None ∧ mp (i_key n) ≠ j ∧ (mp (i_key n) < length nodes')%nat.
Proof. intros -> Hsub Hsame j Hj. rewrite Hsame by done. apply (h_loose _ _ H). set_solver. Qed.

Lemma free_loose : i_val nm = TNil → after nodes L i true (<[i := unused]> (<[m := node]> nodes)).
Proof.
  intros Hv. destruct loose_node as (Hk & Hval & Hx & Him). assert (i_key nm = TNil) as Hkm by (by eapply h_used).
  assert (m ∉ L) as HmL.
  { intros HmL. destruct (h_loose _ _ H _ HmL) as (n & Hn & _ & Hvn & _). rewrite Hm in Hn. by injection Hn as ->. }
  exists (L ∖ {[i]}). set (nodes' := <[i := unused]> (<[m := node]> nodes)).
  assert (length nodes' = length nodes) as Hlen by (unfold nodes'; by rewrite !length_insert).
  assert (entries nodes' ≡ₚ entries nodes) as Hent.
  { apply (entries_swap nodes m i nm node unused node); try done. unfold ent. by rewrite Hv. }
  assert (bare L nodes !! m = Some nm) as Hbm by by apply bare_at_settled.
  assert (bare (L ∖ {[i]}) nodes' = put_nodes (i_key node) (i_val node) m nm (bare L nodes)) as E.
  { unfold nodes', put_nodes. rewrite (c_nil _ _ (h_chains _ _ H) _ _ Hbm Hkm), node_eta. rewrite !bare_insert_out, (bare_remove L nodes i node) by set_solver.
    rewrite list_insert_insert_ne by done. rewrite list_insert_insert_eq, (list_insert_id (bare L nodes)); [done|]. apply bare_at_loose; [done|by eapply lookup_lt_Some]. }
  split_and!; [|set_solver|done|done|set_solver]. split.
  - rewrite E. apply chains_put; [apply H|done|exact (loose_absent _ _ H i node HiL Hi)|done..].
  - apply loose_stay; [done|set_solver|]. intros j Hj. unfold nodes'. rewrite !list_lookup_insert_ne; [done|set_solver..].
  - intros j n Hj. unfold nodes' in Hj. apply list_lookup_insert_Some in Hj as [(<- & <- & _)|[Hj1 [(<- & <- & _)|[Hj2 Hj]]%list_lookup_insert_Some]]; [done..|]. by eapply h_used.
  - rewrite Hent. apply H.
Qed.

(** A settled node in the main position of another: it makes room. *)
Lemma displaced_loose prev np : m ∉ L → i_val nm ≠ TNil → mp (i_key nm) ≠ m → nodes !! prev = Some np → n_next np = Some m → prev ∉ L →
  after nodes L i true (<[m := node]> (<[i := nm]> (<[prev := with_next (Some i) np]> nodes))).
Proof.
  intros HmL Hvm Hother Hp Hpx HpL. destruct loose_node as (Hk & Hval & Hx & Him).
  assert (bare L nodes !! m = Some nm) as Hbm by by apply bare_at_settled.
  assert (proper (i_key nm)) as Hpm by (destruct (decide (proper (i_key nm))) as [|Hnp]; [done|]; by destruct Hvm; eapply (c_unset _ _ (h_chains _ _ H))).
  assert (prev ≠ m) as Hpm'. { intros ->. assert (np = nm) as -> by congruence. destruct (l_falls _ (rehashing_linked _ _ H)) as [r Hr]. specialize (Hr _ _ _ Hm Hpx). lia. }
  assert (prev ≠ i) as Hpi by (intros ->; done).
  exists (L ∖ {[i]}). set (nodes' := <[m := node]> (<[i := nm]> (<[prev := with_next (Some i) np]> nodes))).
  assert (length nodes' = length nodes) as Hlen by (unfold nodes'; by rewrite !length_insert).
  assert (entries nodes' ≡ₚ entries nodes) as Hent.
  { unfold nodes'. rewrite (entries_swap (<[prev := with_next (Some i) np]> nodes) i m node nm node nm); [by rewrite (entries_same nodes prev np)|done|..];
      try done; by rewrite list_lookup_insert_ne. }
  assert (bare (L ∖ {[i]}) nodes' = displaced_nodes (i_key node) (i_val node) m i prev nm np (bare L nodes)) as E.
  { unfold nodes', displaced_nodes. rewrite node_eta, !bare_insert_out, (bare_remove L nodes i node) by set_solver.
    rewrite (list_insert_insert_ne (bare L nodes) prev i) by done. by rewrite list_insert_insert_eq. }
  split_and!; [|set_solver|done|done|set_solver]. split.
  - rewrite E. eapply chains_displaced; [apply H|done|exact (loose_absent _ _ H i node HiL Hi)|done..| | |exact (bare_at_settled _ _ HpL Hp)|done|done].
    + apply bare_at_loose; [done|by eapply lookup_lt_Some].
    + done.
  - apply loose_stay; [done|set_solver|]. intros j Hj. unfold nodes'. rewrite !list_lookup_insert_ne; [done|set_solver..].
  - intros j n Hj. unfold nodes' in Hj.
    apply list_lookup_insert_Some in Hj as [(<- & <- & _)|[Hj1 [(<- & <- & _)|[Hj2 [(<- & <- & _)|[Hj3 Hj]]%list_lookup_insert_Some]]%list_lookup_insert_Some]]; [done..| |].
    + cbn. by eapply h_used.
    + by eapply h_used.
  - rewrite Hent. apply H.
Qed.

(** The main position is in use by a node of its own. *)
Lemma pushed_loose : m ∉ L → i_val nm ≠ TNil → mp (i_key nm) = m →
  after nodes L i true (<[m := with_next (Some i) nm]> (<[i := with_next (n_next nm) node]> nodes)).
Proof.
  intros HmL Hvm Hown. destruct loose_node as (Hk & Hval & Hx & Him).
  assert (bare L nodes !! m = Some nm) as Hbm by by apply bare_at_settled.
  assert (proper (i_key nm)) as Hpm by (destruct (decide (proper (i_key nm))) as [|Hnp]; [done|]; by destruct Hvm; eapply (c_unset _ _ (h_chains _ _ H))).
  exists (L ∖ {[i]}). set (nodes' := <[m := with_next (Some i) nm]> (<[i := with_next (n_next nm) node]> nodes)).
  assert (length nodes' = length nodes) as Hlen by (unfold nodes'; by rewrite !length_insert).
  assert (entries nodes' ≡ₚ entries nodes) as Hent.
  { unfold nodes'. rewrite (entries_same _ m nm); [by rewrite (entries_same nodes i node)|by rewrite list_lookup_insert_ne|done]. }
  assert (bare (L ∖ {[i]}) nodes' = pushed_nodes (i_key node) (i_val node) m i nm (bare L nodes)) as E.
  { unfold nodes', pushed_nodes. rewrite !bare_insert_out, (bare_remove L nodes i node) by set_solver. by rewrite list_insert_insert_eq. }
  split_and!; [|set_solver|done|done|set_solver]. split.
  - rewrite E. eapply chains_pushed; [apply H|done|exact (loose_absent _ _ H i node HiL Hi)|done|done| | |done|done].
    + apply bare_at_loose; [done|by eapply lookup_lt_Some].
    + done.
  - apply loose_stay; [done|set_solver|]. intros j Hj. unfold nodes'. rewrite !list_lookup_insert_ne; [done|set_solver..].
  - intros j n Hj. unfold nodes' in Hj. apply list_lookup_insert_Some in Hj as [(<- & <- & _)|[Hj1 [(<- & <- & _)|[Hj2 Hj]]%list_lookup_insert_Some]]; [|done|by eapply h_used].
    cbn. by eapply h_used.
  - rewrite Hent. apply H.
Qed.

(** The main position is in use by a loose node: the two change places, and the other one is next. *)
Lemma swapped_loose : m ∈ L → after nodes L i false (<[m := node]> (<[i := nm]> nodes)).
Proof.
  intros HmL. destruct loose_node as (Hk & Hval & Hx & Him).
  destruct (h_loose _ _ H _ HmL) as (n & Hn & Hkm & Hvm & Hxm & Hother & Hlt). rewrite Hm in Hn. injection Hn as <-.
  set (nodes' := <[m := node]> (<[i := nm]> nodes)).
  assert (length nodes' = length nodes) as Hlen by (unfold nodes'; by rewrite !length_insert).
  assert (entries nodes' ≡ₚ entries nodes) as Hent by by apply (entries_swap nodes i m node nm node nm).
  assert (∀ j n, nodes' !! j = Some n → i_val n = TNil → i_key n = TNil) as Hused.
  { intros j n Hj. unfold nodes' in Hj. apply list_lookup_insert_Some in Hj as [(<- & <- & _)|[Hj1 [(<- & <- & _)|[Hj2 Hj]]%list_lookup_insert_Some]]; [done..|by eapply h_used]. }
  assert (nodes' !! i = Some nm) as Hi'. { unfold nodes'. rewrite list_lookup_insert_ne by done. apply list_lookup_insert_eq. by eapply lookup_lt_Some. }
  set (L1 := L ∖ {[m]}). assert (i ∈ L1) as Hi1 by set_solver.
  assert (bare L1 nodes' = put_nodes (i_key node) (i_val node) m unused (bare L nodes)) as E1.
  { unfold nodes', put_nodes. rewrite bare_insert_out, bare_insert_in by set_solver. unfold L1. rewrite (bare_remove L nodes m nm) by done. cbn. by rewrite list_insert_insert_eq, node_eta. }
  assert (chains mp (bare L1 nodes')) as Hc1.
  { rewrite E1. apply chains_put; [apply H|done|exact (loose_absent _ _ H i node HiL Hi)| |done..]. apply bare_at_loose; [done|by eapply lookup_lt_Some]. }
  assert (∀ j, j ∈ L1 → j ≠ i → nodes' !! j = nodes !! j) as Hstay.
  { intros j Hj Hji. unfold nodes'. rewrite !list_lookup_insert_ne; [done|set_solver..]. }
  assert (mp (i_key nm) ≠ i → rehashing nodes' L1) as Hne.
  { intros Hmi. split; [done| |done|rewrite Hent; apply H]. intros j Hj. rewrite Hlen. destruct (decide (j = i)) as [->|Hji]; [by exists nm|].
    rewrite Hstay by done. apply (h_loose _ _ H). set_solver. }
  assert (size L1 < size L)%nat as Hsz by by apply size_remove.
  destruct (decide (mp (i_key nm) = i)) as [Hmi|Hmi].
  - exists (L1 ∖ {[i]}). assert (bare (L1 ∖ {[i]}) nodes' = put_nodes (i_key nm) (i_val nm) i unused (bare L1 nodes')) as E2.
    { unfold put_nodes. rewrite (bare_remove L1 nodes' i nm) by done. cbn. f_equal. destruct nm; cbn in *. by rewrite Hxm. }
    assert (bare L1 nodes' !! i = Some unused) as Hbi by (rewrite bare_lookup, Hi'; cbn; by rewrite decide_True).
    split_and!; [|set_solver|done|done|etrans; [|exact Hsz]|by eauto].
    + split; [|intros j Hj|done|rewrite Hent; apply H].
      * rewrite E2. refine (chains_put _ _ Hc1 _ _ Hkm _ _ _ Hbi Hmi). intros j y Hj Hpy. rewrite bare_lookup in Hj. destruct (nodes' !! j) as [z|] eqn:Hz; [|done]. cbn in Hj.
        destruct (decide (j ∈ L1)); injection Hj as <-; [done|]. apply (apart_nodes nodes' i j nm z); [rewrite Hent; apply H|done|done|by intros ->|done|].
        intros Ez. apply Hused in Hz; [|done]. by rewrite Hz in Hpy.
      * rewrite Hlen, Hstay by set_solver. apply (h_loose _ _ H). set_solver.
    + by apply size_remove.
  - exists L1. split_and!; [by apply Hne|set_solver|done|done|done|by eauto].
Qed.
End steps.

(** *** The loops *)

Lemma sizenode_with nodes t : sizenode (with_node nodes t) = sizenode t.
Proof. done. Qed.

(** One call of [move_node]. *)
Lemma move_node_step t L i n : sizenode t = sz → t_dummy t = false → rehashing (t_node t) L → t_node t !! i = Some n → i_val n ≠ TNil →
  ∃ b nodes', move_node i t = LOk (b, with_node nodes' t) ∧ after (t_node t) L i b nodes'.
Proof.
  intros Hs Hd H Hn Hv. unfold move_node, mainposition, find_prev_node. rewrite Hn, Hs. cbn [lopt mbind lres_mbind lua_bind]. change (main_of sz (i_key n)) with (mp (i_key n)).
  assert (i ∉ L → after (t_node t) L i true (t_node t)) as Hstay by (intros HiL; exists L; by split_and!).
  destruct (Nat.eqb_spec (mp (i_key n)) i) as [Hm|Hm].
  { exists true, (t_node t). split; [by destruct t|]. apply Hstay. intros HiL. destruct (h_loose _ _ H _ HiL) as (n' & Hn' & _ & _ & _ & Hne & _). by simplify_eq. }
  destruct (decide (i ∈ L)) as [HiL|HiL].
  2: { destruct (settled_prev _ _ H i n HiL Hn Hv Hm) as (j & nj & -> & _). cbn. exists true, (t_node t). split; [by destruct t|by apply Hstay]. }
  destruct (h_loose _ _ H _ HiL) as (n' & Hn' & Hk & _ & Hx & _ & Hlt). rewrite Hn in Hn'. injection Hn' as <-.
  rewrite (loose_no_prev _ _ H i _ HiL Hlt). cbn. destruct (lookup_lt_is_Some_2 _ _ Hlt) as [nm Hnm]. rewrite Hnm. cbn. rewrite Hd, orb_false_r.
  destruct (ttisnil (i_val nm)) eqn:Evm; cbn.
  { exists true. eexists. split; [done|]. cbn. eapply free_loose; [done..|]. by destruct (i_val nm). }
  assert (i_val nm ≠ TNil) as Hvm by (by intros E; rewrite E in Evm). change (main_of sz (i_key nm)) with (mp (i_key nm)).
  assert (i ≠ mp (i_key n)) as Him by congruence.
  destruct (Nat.eqb_spec (mp (i_key nm)) (mp (i_key n))) as [Hown|Hown]; cbn.
  - unfold set_next. rewrite Hn. cbn. rewrite list_lookup_insert_ne, Hnm by done. cbn. exists true. eexists. split; [done|]. cbn.
    eapply pushed_loose; try done. intros HmL. destruct (h_loose _ _ H _ HmL) as (x & Hxm & _ & _ & _ & Hne & _). by simplify_eq.
  - destruct (decide (mp (i_key n) ∈ L)) as [HmL|HmL].
    + destruct (h_loose _ _ H _ HmL) as (x & Hxm & _ & _ & _ & _ & Hlt'). rewrite Hnm in Hxm. injection Hxm as <-.
      rewrite (loose_no_prev _ _ H (mp (i_key n)) _ HmL Hlt'). cbn. rewrite Hnm. cbn. exists false. eexists. split; [done|]. by eapply swapped_loose.
    + destruct (settled_prev _ _ H (mp (i_key n)) nm HmL Hnm Hvm Hown) as (j & nj & -> & Hj & Hjx & HjL). cbn. unfold set_next. rewrite Hj. cbn.
      assert (j ≠ mp (i_key n)) as Hjm. { intros ->. destruct (l_falls _ (rehashing_linked _ _ H)) as [r Hr]. specialize (Hr _ _ _ Hj Hjx). lia. }
      rewrite list_lookup_insert_ne, Hnm by done. cbn. exists true. eexists. split; [done|]. cbn. by eapply displaced_loose.
Qed.

(** The loop settles the node. *)
Lemma move_until_ok : ∀ fuel t L i n, sizenode t = sz → t_dummy t = false → rehashing (t_node t) L → t_node t !! i = Some n → i_val n ≠ TNil →
  (size L < fuel)%nat → ∃ nodes' L', move_until fuel i t = LOk (with_node nodes' t) ∧ rehashing nodes' L' ∧ L' ⊆ L ∧ i ∉ L' ∧
  entries nodes' ≡ₚ entries (t_node t) ∧ length nodes' = length (t_node t).
Proof.
  induction fuel as [|fuel IH]; intros t L i n Hs Hd H Hn Hv Hf; [lia|]. cbn.
  destruct (move_node_step t L i n Hs Hd H Hn Hv) as (b & nodes' & -> & L' & H' & Hsub & Hent & Hlen & Hb). cbn. destruct b.
  - exists nodes', L'. by split_and!.
  - destruct Hb as (Hsz & n' & Hn' & Hv'). destruct (IH (with_node nodes' t) L' i n') as (nodes2 & L2 & E & H2 & Hsub2 & Hi2 & Hent2 & Hlen2); [done..|lia|].
    exists nodes2, L2. cbn in *. split_and!; [by rewrite E; destruct t|done|set_solver|done|by rewrite Hent2|congruence].
Qed.

Lemma loose_size nodes L : rehashing nodes L → (size L <= length nodes)%nat.
Proof.
  intros H. change (size L <= length nodes)%nat. etrans; [apply (subseteq_size _ (set_seq (C := gset nat) 0 (length nodes)))|by rewrite size_set_seq].
  intros j Hj. destruct (h_loose _ _ H _ Hj) as (n & Hn & _). apply elem_of_set_seq. apply lookup_lt_Some in Hn. lia.
Qed.

(** The loop over all nodes. *)
Lemma rechain_ok : ∀ l t L, sizenode t = sz → t_dummy t = false → rehashing (t_node t) L → (∀ i, i ∈ l → (i < length (t_node t))%nat) → (∀ i, i ∈ L → i ∈ l) →
  ∃ nodes', each rechain_node l t = LOk (with_node nodes' t) ∧ rehashing nodes' ∅ ∧ entries nodes' ≡ₚ entries (t_node t) ∧ length nodes' = length (t_node t).
Proof.
  induction l as [|i l IH]; intros t L Hs Hd H Hl HL.
  - exists (t_node t). cbn. split; [by destruct t|]. assert (L = ∅) as -> by (apply elem_of_equiv_empty_L; intros j Hj; by apply HL, elem_of_nil in Hj). done.
  - cbn [each]. destruct (lookup_lt_is_Some_2 (t_node t) i) as [n Hn]; [apply Hl; left|]. assert (rechain_node t i = if ttisnil (i_val n) then LOk t else move_until (S (length (t_node t))) i t) as -> by (unfold rechain_node; by rewrite Hn).
    cbn [mbind lres_mbind lua_bind]. destruct (ttisnil (i_val n)) eqn:Ev.
    + destruct (IH t L) as (nodes' & E & ?); [done..|intros j Hj; apply Hl; by right| |by exists nodes'].
      intros j Hj. pose proof (HL _ Hj) as [->|]%elem_of_cons; [|done]. destruct (h_loose _ _ H _ Hj) as (x & Hx & _ & Hv & _). simplify_eq. by destruct (i_val n).
    + destruct (move_until_ok (S (length (t_node t))) t L i n) as (nodes1 & L1 & E1 & H1 & Hsub & Hi & Hent & Hlen); [done..|by intros E; rewrite E in Ev| |].
      { pose proof (loose_size _ _ H). lia. }
      rewrite E1. cbn [mbind lres_mbind lua_bind].
      destruct (IH (with_node nodes1 t) L1) as (nodes' & E & H' & Hent' & Hlen'); [done..| | |].
      * intros j Hj. cbn. rewrite Hlen. apply Hl. by right.
      * intros j Hj. assert (j ∈ i :: l) as [->|]%elem_of_cons by (apply HL; set_solver); done.
      * exists nodes'. cbn in *. rewrite E. split_and!; [by destruct t|done|by rewrite Hent'|congruence].
Qed.
End rehash.

(** ** Resizing a table

    [resize_hashpart] empties the chains, moves integer keys to the array part and the rest below the new size, and rebuilds the chains.
    The table has the same pairs afterwards. *)

Section resize.
Context {M : Machine}.

(** *** The pairs of a table *)

Definition arr_ent (i : nat) (v : TValue) : list pair := if ttisnil v then [] else [(TNumber (cast_num (Z.of_nat i + 1)), v)].

Fixpoint arr (i : nat) (l : list TValue) : list pair := match l with [] => [] | v :: l => arr_ent i v ++ arr (S i) l end.

Definition arr_pairs (t : Table) : list pair := arr 0 (take (t_sizearray t) (t_array t)).

Definition pairs (t : Table) : list pair := arr_pairs t ++ entries (t_node t).

Lemma arr_app l' : ∀ l i, arr i (l ++ l') = arr i l ++ arr (i + length l) l'.
Proof.
  induction l as [|v l IH]; intros i; cbn; [by rewrite Nat.add_0_r|]. rewrite IH, app_assoc. do 2 f_equal. lia.
Qed.

Lemma arr_nil n : ∀ i, arr i (replicate n TNil) = [].
Proof. induction n as [|n IH]; intros i; cbn; [done|apply IH]. Qed.

Lemma arr_in e : ∀ l i, e ∈ arr i l → ∃ j, (j < length l)%nat ∧ l !! j = Some e.2 ∧ e.2 ≠ TNil ∧ e.1 = TNumber (cast_num (Z.of_nat (i + j) + 1)).
Proof.
  induction l as [|v l IH]; intros i He; [by apply elem_of_nil in He|]. cbn in He. apply elem_of_app in He as [He|He].
  - exists 0%nat. unfold arr_ent in He. destruct (ttisnil v) eqn:Ev; [by apply elem_of_nil in He|]. apply list_elem_of_singleton in He as ->. cbn. rewrite Nat.add_0_r.
    split_and!; [lia|done|by intros ->|done].
  - apply IH in He as (j & Hj & Hl & Hv & Hk). exists (S j). cbn. split_and!; [lia|done|done|]. rewrite Hk. do 3 f_equal. lia.
Qed.

Lemma in_arr v : ∀ l i j, l !! j = Some v → v ≠ TNil → (TNumber (cast_num (Z.of_nat (i + j) + 1)), v) ∈ arr i l.
Proof.
  induction l as [|x l IH]; intros i j Hj Hv; [done|]. cbn. apply elem_of_app. destruct j as [|j]; cbn in Hj.
  - left. simplify_eq. unfold arr_ent. rewrite Nat.add_0_r. destruct v; first [done|by left].
  - right. replace (i + S j)%nat with (S i + j)%nat by lia. by apply IH.
Qed.

Lemma arr_insert v : ∀ l i j x, l !! j = Some x → arr_ent (i + j) x ++ arr i (<[j := v]> l) ≡ₚ arr_ent (i + j) v ++ arr i l.
Proof.
  induction l as [|y l IH]; intros i j x Hj; [done|]. destruct j as [|j]; cbn in Hj |- *.
  - simplify_eq. rewrite Nat.add_0_r. solve_Permutation.
  - specialize (IH (S i) j x Hj). replace (S i + j)%nat with (i + S j)%nat in IH by lia.
    rewrite (Permutation_app_swap_app _ (arr_ent i y)), IH. by rewrite (Permutation_app_swap_app _ (arr_ent i y)).
Qed.

(** Integer keys that are in an array part of a size. *)
Definition inrange (sz : nat) (k : TValue) : Prop := 0 < arrayindex k <= Z.of_nat sz.

#[export] Instance inrange_dec sz k : Decision (inrange sz k).
Proof. unfold inrange. apply _. Defined.

Definition keys_ok (l : list pair) : Prop := apart l ∧ Forall (λ e, valid e.1) l.

#[export] Instance keys_ok_perm : Proper ((≡ₚ) ==> iff) keys_ok.
Proof. intros l l' H. unfold keys_ok. by rewrite H. Qed.

Definition arraysize_ok (t : Table) : Prop := (t_sizearray t <= length (t_array t))%nat ∧ Z.of_nat (t_sizearray t) <= MAXASIZE.

Lemma arr_pairs_range t e : arraysize_ok t → e ∈ arr_pairs t → inrange (t_sizearray t) e.1 ∧ valid e.1.
Proof.
  intros [Hl Hm] (j & Hj & _ & _ & ->)%arr_in. rewrite length_take in Hj. unfold inrange, MAXASIZE in *. rewrite arrayindex_cast by lia. split; [lia|apply cast_num_valid; lia].
Qed.

(** The slot of the array for a key that is elsewhere is empty. *)
Lemma slot_empty t k v l : arraysize_ok t → keys_ok (arr_pairs t ++ l) → (k, v) ∈ l → inrange (t_sizearray t) k →
  t_array t !! Z.to_nat (arrayindex k - 1) = Some TNil ∧ k = TNumber (cast_num (arrayindex k)).
Proof.
  intros [Hl Hm] [Ha Hv] Hin Hr. unfold inrange in Hr. assert (valid k) as Hk. { rewrite Forall_app, !Forall_forall in Hv. destruct Hv as [_ Hv]. by apply (Hv (k, v)). }
  assert (k = TNumber (cast_num (arrayindex k))) as Ek by (apply arrayindex_key; [done|lia]). split; [|done].
  destruct (lookup_lt_is_Some_2 (t_array t) (Z.to_nat (arrayindex k - 1))) as [x Hx]; [lia|]. rewrite Hx. destruct (decide (x = TNil)) as [->|Hne]; [done|exfalso].
  apply apart_app in Ha as (_ & _ & Ha). eapply (Ha _ _ (in_arr x (take (t_sizearray t) (t_array t)) 0 (Z.to_nat (arrayindex k - 1)) _ Hne) Hin). left. cbn [fst].
  rewrite Ek at 2. replace (Z.of_nat (0 + Z.to_nat (arrayindex k - 1)) + 1) with (arrayindex k) by lia. rewrite <- Ek. apply Hk.
  Unshelve. rewrite lookup_take_Some. split; [done|lia].
Qed.

(** A free node is found below a position, if there is one. *)
Lemma free_below_ok nodes : ∀ k, (k <= length nodes)%nat → ∃ r, free_below nodes k = LOk r ∧
  match r with
  | Some j => (j < k)%nat ∧ (∃ n, nodes !! j = Some n ∧ i_key n = TNil) ∧ ∀ x n, (j < x < k)%nat → nodes !! x = Some n → i_key n ≠ TNil
  | None => ∀ x n, (x < k)%nat → nodes !! x = Some n → i_key n ≠ TNil
  end.
Proof.
  induction k as [|k IH]; intros Hk; cbn [free_below]; [exists None; split; [done|lia]|]. destruct (lookup_lt_is_Some_2 nodes k) as [n Hn]; [lia|].
  rewrite Hn. cbn [lopt mbind lres_mbind lua_bind]. destruct (ttisnil (i_key n)) eqn:E.
  - exists (Some k). split; [done|]. split_and!; [lia| |lia]. exists n. split; [done|]. by destruct (i_key n).
  - destruct (IH ltac:(lia)) as (r & -> & Hr). exists r. split; [done|]. assert (∀ x n', x = k → nodes !! x = Some n' → i_key n' ≠ TNil) as Hx.
    { intros x n' -> Hn'. simplify_eq. by intros Ek; rewrite Ek in E. }
    destruct r as [j|].
    + destruct Hr as (Hj & Hfree & Hr). split_and!; [lia|done|]. intros x n' Hxk Hxn. destruct (decide (x = k)); [by eapply Hx|]. eapply Hr; [|done]. lia.
    + intros x n' Hxk Hxn. destruct (decide (x = k)); [by eapply Hx|]. eapply Hr; [|done]. lia.
Qed.

Lemma entries_full (P : TValue → Prop) (dec : ∀ k, Decision (P k)) nodes : (∀ j n, nodes !! j = Some n → P (i_key n) ∧ i_val n ≠ TNil) →
  length (filter (λ e, P e.1) (entries nodes)) = length nodes.
Proof.
  induction nodes as [|n nodes IH]; intros Hn; [done|]. change (entries (n :: nodes)) with (ent n ++ entries nodes). rewrite filter_app, length_app.
  rewrite IH by (intros j x Hj; by apply (Hn (S j))). destruct (Hn 0%nat n eq_refl) as [HP Hv]. unfold ent. destruct (ttisnil (i_val n)) eqn:E; [by destruct (i_val n)|].
  rewrite filter_cons, decide_True by done. done.
Qed.

(** *** Emptying the chains *)

Section compact.
Context (nhsize : nat) (t0 : Table) (Hsize : arraysize_ok t0) (Hkeys : keys_ok (pairs t0)).
Context (Hlast : t_lastfree t0 = Z.of_nat nhsize) (Hnh : (nhsize <= length (t_node t0))%nat).
Context (Hroom : (length (filter (λ e, ¬ inrange (t_sizearray t0) e.1) (entries (t_node t0))) <= nhsize)%nat).

Record frame (t : Table) : Prop := {
  f_dummy : t_dummy t = t_dummy t0; f_lsize : t_lsizenode t = t_lsizenode t0; f_sizearray : t_sizearray t = t_sizearray t0;
  f_array : length (t_array t) = length (t_array t0); f_node : length (t_node t) = length (t_node t0); f_flags : t_flags t = t_flags t0 }.

(** Before node [i]: the nodes below the new size are clean and out of the chains, and nothing is lost. *)
Record compacting (i : nat) (t : Table) : Prop := {
  k_frame : frame t;
  k_rest : ∀ j, (i <= j)%nat → t_node t !! j = t_node t0 !! j;
  k_done : ∀ j n, (j < i)%nat → (j < nhsize)%nat → t_node t !! j = Some n →
    n_next n = None ∧ (i_val n = TNil → i_key n = TNil) ∧ (i_val n ≠ TNil → ¬ inrange (t_sizearray t0) (i_key n));
  k_pairs : arr_pairs t ++ entries (take (Nat.min i nhsize) (t_node t)) ++ entries (drop i (t_node t)) ≡ₚ pairs t0;
  k_free : 0 <= t_lastfree t <= Z.of_nat nhsize ∧ ((i <= nhsize)%nat → t_lastfree t = Z.of_nat nhsize) ∧
    ∀ j n, t_lastfree t <= Z.of_nat j → (j < nhsize)%nat → t_node t !! j = Some n → i_key n ≠ TNil }.

Lemma compacting_start : compacting 0 t0.
Proof. split; [by split|done|lia|done|]. rewrite Hlast. split_and!; [lia|lia|done|]. intros. lia. Qed.

Section step.
Context (i : nat) (t : Table) (H : compacting i t) (Hi : (i < length (t_node t0))%nat) (old : Node) (Hold : t_node t !! i = Some old).

Lemma node_i_lt : (i < length (t_node t))%nat.
Proof. by eapply lookup_lt_Some. Qed.

Lemma drop_i : entries (drop i (t_node t)) = ent old ++ entries (drop (S i) (t_node t)).
Proof. rewrite (drop_S _ _ _ Hold). done. Qed.

Lemma pass_node x : entries (take (Nat.min (S i) nhsize) (<[i := x]> (t_node t))) ++ entries (drop (S i) (<[i := x]> (t_node t))) ≡ₚ
  (if decide (i < nhsize)%nat then ent x else []) ++ entries (take (Nat.min i nhsize) (t_node t)) ++ entries (drop (S i) (t_node t)).
Proof.
  rewrite drop_insert_lt by lia. destruct (decide (i < nhsize)%nat).
  - replace (Nat.min (S i) nhsize) with (S i) by lia. replace (Nat.min i nhsize) with i by lia.
    rewrite (take_S_r _ i x) by (apply list_lookup_insert_eq, node_i_lt). rewrite take_insert_ge by lia. rewrite entries_app. change (entries [x]) with (ent x ++ []). rewrite app_nil_r. solve_Permutation.
  - replace (Nat.min (S i) nhsize) with nhsize by lia. replace (Nat.min i nhsize) with nhsize by lia. by rewrite take_insert_ge by lia.
Qed.

Lemma all_pairs : arr_pairs t ++ ent old ++ entries (take (Nat.min i nhsize) (t_node t)) ++ entries (drop (S i) (t_node t)) ≡ₚ pairs t0.
Proof. rewrite <- (k_pairs _ _ H), drop_i. solve_Permutation. Qed.

Lemma arraysize_t : arraysize_ok t.
Proof. destruct (k_frame _ _ H), Hsize. split; congruence || (rewrite f_sizearray0; done). Qed.

(** A step that changes nothing but node [i], which holds what it held, without its chain, or nothing. *)
Lemma compacting_node x t' :
  t' = set_node i x t → n_next x = None → (i_val x = TNil → i_key x = TNil) → ent x = ent old → (i_val x ≠ TNil → (i < nhsize)%nat) →
  (i_val x ≠ TNil → ¬ inrange (t_sizearray t0) (i_key x)) → compacting (S i) t'.
Proof.
  intros -> Hx Hnil Hent Hlt Hr. destruct H as [[Hd Hl Hsa Ha Hn Hfl] Hrest Hdone Hpairs (Hf1 & Hf2 & Hf3)]. pose proof node_i_lt as Hil. split.
  - split; try done. cbn. by rewrite length_insert.
  - intros j Hj. cbn. rewrite list_lookup_insert_ne by lia. apply Hrest. lia.
  - intros j n Hj Hjn. cbn. rewrite list_lookup_insert_Some. intros [(<- & <- & _)|[Hne Hjl]]; [by split_and!|]. apply (Hdone j n); [lia|done|done].
  - cbn [set_node with_node t_node]. unfold arr_pairs. cbn. fold (arr_pairs t). rewrite pass_node. rewrite <- all_pairs. destruct (decide (i < nhsize)%nat).
    + rewrite Hent. done.
    + assert (ent old = []) as ->; [|done]. rewrite <- Hent. unfold ent. destruct (ttisnil (i_val x)) eqn:E; [done|]. exfalso. assert (i < nhsize)%nat; [|done]. apply Hlt. by intros Ex; rewrite Ex in E.
  - cbn [set_node with_node with_array t_lastfree t_node]. split_and!; [lia|lia|intros; apply Hf2; lia|]. intros j n Hj Hjn. rewrite list_lookup_insert_Some. intros [(<- & <- & _)|[Hne Hjl]]; [|by eapply Hf3].
    rewrite Hf2 in Hj by lia. lia.
Qed.

(** An integer key that goes to the array. *)
Lemma compacting_array k : i_key old = TNumber k → i_val old ≠ TNil → inrange (t_sizearray t0) (i_key old) →
  compacting (S i) (set_node i unused (with_array (<[Z.to_nat (arrayindex (i_key old) - 1) := i_val old]> (t_array t)) t)) ∧
  t_array t !! Z.to_nat (arrayindex (i_key old) - 1) = Some TNil.
Proof.
  intros Hk Hv Hr. set (a := Z.to_nat (arrayindex (i_key old) - 1)).
  destruct (slot_empty t (i_key old) (i_val old) (ent old ++ entries (take (Nat.min i nhsize) (t_node t)) ++ entries (drop (S i) (t_node t)))) as [Hslot Hkey].
  { exact arraysize_t. } { by rewrite all_pairs. } { apply elem_of_app. left. unfold ent. destruct (i_val old); first [done|by left]. }
  { by rewrite (f_sizearray _ (k_frame _ _ H)). }
  fold a in Hslot. split; [|done]. pose proof node_i_lt as Hil. pose proof all_pairs as Hall. unfold inrange in Hr.
  destruct H as [[Hd Hl Hsa Ha Hn Hfl] Hrest Hdone Hpairs (Hf1 & Hf2 & Hf3)]. split.
  - split; try done; cbn; by rewrite length_insert.
  - intros j Hj. cbn. rewrite list_lookup_insert_ne by lia. apply Hrest. lia.
  - intros j n Hj Hjn. cbn. rewrite list_lookup_insert_Some. intros [(<- & <- & _)|[Hne Hjl]]; [done|]. apply (Hdone j n); [lia|done|done].
  - cbn [set_node with_node with_array t_node]. rewrite pass_node. assert ((if decide (i < nhsize)%nat then ent unused else []) = []) as -> by by case_decide.
    rewrite <- Hall. assert (arr_pairs (set_node i unused (with_array (<[a := i_val old]> (t_array t)) t)) ≡ₚ ent old ++ arr_pairs t) as ->; [|cbn [app]; solve_Permutation].
    unfold arr_pairs. cbn. rewrite take_insert_lt by lia. pose proof (arr_insert (i_val old) (take (t_sizearray t) (t_array t)) 0 a TNil) as E. cbn [app arr_ent ttisnil Nat.add] in E. rewrite E.
    + assert (arr_ent a (i_val old) = ent old) as ->; [|done]. unfold arr_ent, ent. rewrite Hkey at 1. replace (Z.of_nat a + 1) with (arrayindex (i_key old)) by lia. by rewrite <- Hkey.
    + rewrite lookup_take_Some. split; [done|lia].
  - cbn [set_node with_node with_array t_lastfree t_node]. split_and!; [lia|lia|intros; apply Hf2; lia|]. intros j n Hj Hjn. rewrite list_lookup_insert_Some. intros [(<- & <- & _)|[Hne Hjl]]; [|by eapply Hf3].
    rewrite Hf2 in Hj by lia. lia.
Qed.

Lemma nil_key_nil_val j n : (j < i)%nat → (j < nhsize)%nat → t_node t !! j = Some n → i_key n = TNil → i_val n = TNil.
Proof.
  intros Hj Hjn Hn Hk. destruct (decide (i_val n = TNil)) as [|Hv]; [done|exfalso].
  assert ((i_key n, i_val n) ∈ pairs t0) as Hin.
  { rewrite <- (k_pairs _ _ H). apply elem_of_app. right. apply elem_of_app. left. apply (elem_of_entries _ j); [|done]. rewrite lookup_take_Some. split; [done|lia]. }
  destruct Hkeys as [_ Hv']. rewrite Forall_forall in Hv'. apply Hv' in Hin as [Hp _]. cbn in Hp. by rewrite Hk in Hp.
Qed.

(** Not all nodes below the new size are in use. *)
Lemma not_full : (nhsize <= i)%nat → i_val old ≠ TNil → ¬ inrange (t_sizearray t0) (i_key old) →
  (∀ j n, (j < nhsize)%nat → t_node t !! j = Some n → i_key n ≠ TNil) → False.
Proof.
  intros Hni Hv Hr Hfull. assert (length (filter (λ e, ¬ inrange (t_sizearray t0) e.1) (pairs t0)) <= nhsize)%nat as Hc.
  { unfold pairs. rewrite filter_app, length_app. etrans; [|exact Hroom]. assert (filter (λ e, ¬ inrange (t_sizearray t0) e.1) (arr_pairs t0) = []) as ->; [|done].
    destruct (filter _ (arr_pairs t0)) as [|e l] eqn:E; [done|exfalso]. assert (e ∈ e :: l) as He by left. rewrite <- E in He.
    apply list_elem_of_filter in He as [HR He]. apply HR. by apply arr_pairs_range. }
  rewrite <- all_pairs, !filter_app, !length_app in Hc. replace (Nat.min i nhsize) with nhsize in Hc by lia.
  assert (length (filter (λ e, ¬ inrange (t_sizearray t0) e.1) (entries (take nhsize (t_node t)))) = length (take nhsize (t_node t))) as E.
  { apply (entries_full (λ k, ¬ inrange (t_sizearray t0) k) (λ k, not_dec (inrange_dec (t_sizearray t0) k))). intros j n [Hn Hj]%lookup_take_Some.
    assert (i_val n ≠ TNil) as Hvn. { intros E. apply (Hfull j n Hj Hn). by eapply (k_done _ _ H j n); [lia|..]. }
    split; [|done]. eapply (k_done _ _ H j n); [lia|done|done|done]. }
  rewrite E, length_take, (f_node _ (k_frame _ _ H)) in Hc. unfold ent in Hc. destruct (ttisnil (i_val old)) eqn:E'; [by destruct (i_val old)|].
  rewrite filter_cons, decide_True in Hc by done. cbn [length] in Hc. lia.
Qed.

(** A node beyond the new size goes to a free one below. *)
Lemma compacting_moved t1 : (nhsize <= i)%nat → i_val old ≠ TNil → ¬ inrange (t_sizearray t0) (i_key old) → t1 = set_node i (with_next None old) t →
  ∃ n t2, getfreepos t1 = LOk (Some n, t2) ∧ compacting (S i) (set_node n (with_next None old) t2).
Proof.
  intros Hni Hv Hr ->. pose proof node_i_lt as Hil. unfold getfreepos. cbn [set_node with_node t_node t_lastfree].
  pose proof (k_free _ _ H) as (Hf1 & _ & Hf3). pose proof (f_node _ (k_frame _ _ H)) as Hlen.
  destruct (free_below_ok (<[i := with_next None old]> (t_node t)) (Z.to_nat (t_lastfree t))) as (r & -> & Hfree); [rewrite length_insert; lia|].
  cbn [mbind lres_mbind lua_bind]. destruct r as [n|].
  2: { exfalso. apply not_full; [done..|]. intros j x Hj Hx. destruct (decide (Z.of_nat j < t_lastfree t)).
    - apply (Hfree j x); [lia|]. by rewrite list_lookup_insert_ne by lia.
    - apply (Hf3 j x); [lia|done|done]. }
  destruct Hfree as (Hn & (x & Hx & Hkx) & Habove). exists n. eexists. split; [done|]. assert (n < nhsize)%nat as Hnn by lia.
  rewrite list_lookup_insert_ne in Hx by lia. pose proof (nil_key_nil_val n x ltac:(lia) Hnn Hx Hkx) as Hvx. pose proof all_pairs as Hall.
  destruct H as [[Hd Hl Hsa Ha Hnode Hfl] Hrest Hdone Hpairs _]. split.
  - split; try done. cbn. by rewrite !length_insert.
  - intros j Hj. cbn. rewrite !list_lookup_insert_ne by lia. apply Hrest. lia.
  - intros j y Hj Hjn. cbn. rewrite !list_lookup_insert_Some. intros [(<- & <- & _)|[Hne [(<- & <- & _)|[Hne' Hjl]]]]; [by split_and!|lia|]. apply (Hdone j y); [lia|done|done].
  - cbn [set_node with_node with_lastfree t_node]. unfold arr_pairs. cbn [t_array t_sizearray with_node with_lastfree]. fold (arr_pairs t).
    rewrite list_insert_insert_ne by lia. replace (Nat.min (S i) nhsize) with nhsize by lia. rewrite take_insert_ge, drop_insert_lt, drop_insert_lt by lia.
    rewrite take_insert_lt by lia. pose proof (entries_insert (take nhsize (t_node t)) n x (with_next None old)) as E.
    rewrite lookup_take_Some in E. specialize (E (conj Hx Hnn)). unfold ent in E at 1. rewrite Hvx in E. cbn in E. rewrite E. rewrite <- Hall. replace (Nat.min i nhsize) with nhsize by lia.
    change (ent (with_next None old)) with (ent old). by rewrite <- app_assoc.
  - cbn [set_node with_node with_lastfree t_lastfree t_node]. split_and!; [lia|lia|lia|]. intros j y Hj Hjn. rewrite !list_lookup_insert_Some.
    intros [(<- & <- & _)|[Hne [(<- & <- & _)|[Hne' Hjl]]]]; [cbn|lia|].
    + intros Ek. assert ((i_key old, i_val old) ∈ pairs t0) as Hin. { rewrite <- Hall. apply elem_of_app. right. apply elem_of_app. left. unfold ent. destruct (i_val old); first [done|by left]. }
      destruct Hkeys as [_ Hv']. rewrite Forall_forall in Hv'. apply Hv' in Hin as [Hp _]. cbn in Hp. by rewrite Ek in Hp.
    + destruct (decide (Z.of_nat j < t_lastfree t)).
      * apply (Habove j y); [lia|]. by rewrite list_lookup_insert_ne.
      * apply (Hf3 j y); [lia|done|done].
Qed.

Lemma compact_node_ok : ∃ t', compact_node nhsize t i = LOk t' ∧ compacting (S i) t'.
Proof.
  unfold compact_node. rewrite Hold. cbn [lopt mbind lres_mbind lua_bind]. pose proof node_i_lt as Hil.
  change (i_val (with_next None old)) with (i_val old). change (i_key (with_next None old)) with (i_key old).
  assert (∀ x y, set_node i x (set_node i y t) = set_node i x t) as Htwice.
  { intros x y. unfold set_node, with_node. cbn. by rewrite list_insert_insert_eq. }
  destruct (ttisnil (i_val old)) eqn:Ev.
  { eexists. split; [done|]. rewrite Htwice. assert (i_val old = TNil) as E by by destruct (i_val old).
    eapply compacting_node; [done|done|done| |by intros []|by intros []]. unfold ent. cbn. by rewrite Ev. }
  assert (i_val old ≠ TNil) as Hv by (by intros E; rewrite E in Ev).
  assert ((if ttisnumber (i_key old) then move_number i (set_node i (with_next None old) t) else LOk (false, set_node i (with_next None old) t)) =
    LOk (if decide (inrange (t_sizearray t0) (i_key old)) then
      (true, set_node i unused (with_array (<[Z.to_nat (arrayindex (i_key old) - 1) := i_val old]> (t_array t)) t))
      else (false, set_node i (with_next None old) t))) as ->.
  { destruct (ttisnumber (i_key old)) eqn:En; [|rewrite decide_False; [done|]; unfold inrange; destruct (i_key old); try done; cbn; lia].
    destruct (i_key old) as [| |k| | |] eqn:Ek; try done. unfold move_number. cbn [set_node with_node t_node]. rewrite list_lookup_insert_eq by done. cbn [lopt mbind lres_mbind lua_bind with_next i_key].
    rewrite Ek. change (t_sizearray (set_node i (with_next None old) t)) with (t_sizearray t). rewrite array_test; [|apply number2int_range|pose proof arraysize_t as [_ Hmax]; lia].
    destruct (decide (inrange (t_sizearray t0) (TNumber k))) as [Hr|Hr].
    - destruct (compacting_array k Ek Hv) as [_ Hslot]; [by rewrite Ek|]. rewrite Ek in Hslot. unfold inrange in Hr. cbn [arrayindex] in Hr, Hslot |- *.
      destruct (num_eqb (cast_num (number2int k)) k) eqn:Eq; [|lia]. rewrite bool_decide_true by (rewrite (f_sizearray _ (k_frame _ _ H)); lia).
      cbn [andb slot_set]. change (t_array (set_node i (with_next None old) t)) with (t_array t). rewrite Hslot. cbn. unfold set_node, with_node, with_array. cbn. by rewrite list_insert_insert_eq.
    - unfold inrange in Hr. cbn [arrayindex] in Hr. destruct (num_eqb (cast_num (number2int k)) k); cbn [andb]; [|done].
      rewrite bool_decide_false; [done|]. by rewrite (f_sizearray _ (k_frame _ _ H)). }
  cbn [lopt mbind lres_mbind lua_bind]. destruct (decide (inrange (t_sizearray t0) (i_key old))) as [Hr|Hr].
  - eexists. split; [done|]. destruct (i_key old) as [| |k| | |] eqn:Ek; try (unfold inrange in Hr; cbn in Hr; lia). rewrite <- Ek in Hr |- *. by apply (compacting_array k).
  - destruct (Nat.leb_spec nhsize i) as [Hni|Hni].
    + destruct (compacting_moved _ Hni Hv Hr eq_refl) as (n & t2 & -> & Hc). cbn. by eexists.
    + eexists. split; [done|]. by eapply compacting_node.
Qed.
End step.

Lemma compact_loop : ∀ k i t, compacting i t → (i + k <= length (t_node t0))%nat →
  ∃ t', each (compact_node nhsize) (seq i k) t = LOk t' ∧ compacting (i + k) t'.
Proof.
  induction k as [|k IH]; intros i t H Hk; [exists t; rewrite Nat.add_0_r; by split|]. cbn [seq each].
  destruct (lookup_lt_is_Some_2 (t_node t) i) as [old Hold]; [rewrite (f_node _ (k_frame _ _ H)); lia|].
  destruct (compact_node_ok i t H ltac:(lia) old Hold) as (t1 & -> & H1). cbn [mbind lres_mbind lua_bind].
  destruct (IH (S i) t1 H1) as (t' & -> & H'); [lia|]. exists t'. split; [done|]. by replace (i + S k)%nat with (S i + k)%nat by lia.
Qed.
End compact.
End resize.

(** ** The hash part after a resize

    [resize_hashpart] as a whole: from any table whose pairs have keys of their own, and enough room, to one with chains, of the size that was
    asked for, and with the same pairs. *)

Section rebuild.
Context {M : Machine}.

(** *** Positions are in the table *)

Lemma odd_size l : Z.lor (2 ^ Z.of_nat (S l) - 1) 1 = 2 ^ Z.of_nat (S l) - 1.
Proof.
  rewrite Z.sub_1_r, <- Z.ones_equiv. apply Z.bits_inj'. intros i Hi. rewrite Z.lor_spec. destruct (decide (i < Z.of_nat (S l))).
  - by rewrite Z.ones_spec_low by lia.
  - rewrite (Z.ones_spec_high _ i) by lia. change 1 with (Z.ones 1). rewrite Z.ones_spec_high by lia. done.
Qed.

Lemma hashpow2_lt l n : (hashpow2 (twoto l) n < twoto l)%nat.
Proof.
  unfold hashpow2. pose proof (twoto_pow l) as E. apply Nat2Z.inj_lt. rewrite E, Z.sub_1_r, <- Z.ones_equiv, Z.land_ones by lia.
  pose proof (Z.mod_pos_bound n (2 ^ Z.of_nat l)) as H. assert (0 < 2 ^ Z.of_nat l) by (apply Z.pow_pos_nonneg; lia). rewrite Z2Nat.id by lia. lia.
Qed.

Lemma hashmod_lt l n : (hashmod (twoto l) n < twoto l)%nat.
Proof.
  unfold hashmod. pose proof (twoto_pow l) as E. apply Nat2Z.inj_lt. rewrite E. destruct l as [|l].
  - change (Z.lor (2 ^ Z.of_nat 0 - 1) 1) with 1. rewrite Z.mod_1_r. done.
  - rewrite odd_size. assert (2 <= 2 ^ Z.of_nat (S l)) by (change 2 with (2 ^ 1) at 1; apply Z.pow_le_mono_r; lia).
    pose proof (Z.mod_pos_bound n (2 ^ Z.of_nat (S l) - 1)). rewrite Z2Nat.id by lia. lia.
Qed.

Lemma main_lt l k : (main_of (twoto l) k < twoto l)%nat.
Proof.
  destruct k as [|b|n|ty p|ty p|p]; cbn; try apply hashmod_lt; try apply hashpow2_lt.
  - unfold hashnum. destruct (num_eqb _ _); [apply twoto_pos|apply hashmod_lt].
  - destruct (ty =? LUA_TSTRING); [apply hashpow2_lt|apply hashmod_lt].
Qed.

(** *** Well-formed tables *)

Definition clean (nodes : list Node) : Prop := ∀ j n, nodes !! j = Some n → i_val n = TNil → i_key n = TNil.

(** The chains, the free nodes and the keys; the array may be longer than its size. *)
Record hash_ok (t : Table) : Prop := {
  o_array : arraysize_ok t;
  o_node : length (t_node t) = sizenode t ∧ (t_lsizenode t <= 26)%nat;
  o_dummy : t_dummy t = true → t_node t = [dummynode_] ∧ t_lastfree t <= 0;
  o_chains : chains (main_of (sizenode t)) (t_node t);
  o_lastfree : t_lastfree t <= Z.of_nat (sizenode t);
  o_free : t_dummy t = false → ∀ j n, t_lastfree t <= Z.of_nat j → t_node t !! j = Some n → i_key n ≠ TNil;
  o_range : ∀ j n, t_node t !! j = Some n → proper (i_key n) → ¬ inrange (t_sizearray t) (i_key n) }.

Definition table_ok (t : Table) : Prop := hash_ok t ∧ length (t_array t) = t_sizearray t.

Lemma apart_entries nodes : (∀ i j n n', nodes !! i = Some n → nodes !! j = Some n' → i_val n ≠ TNil → i_val n' ≠ TNil → same (i_key n) (i_key n') → i = j) →
  apart (entries nodes).
Proof.
  induction nodes as [|n nodes IH]; intros H; [constructor|]. change (entries (n :: nodes)) with (ent n ++ entries nodes). apply apart_app. split_and!.
  - unfold ent. destruct (ttisnil (i_val n)); repeat constructor.
  - apply IH. intros i j x y Hi Hj Hvi Hvj Hs. specialize (H (S i) (S j) x y Hi Hj Hvi Hvj Hs). lia.
  - intros e e' He (j & x & Hx & Hv & ->)%entries_elem_of Hs. unfold ent in He. destruct (ttisnil (i_val n)) eqn:E; [by apply elem_of_nil in He|].
    apply list_elem_of_singleton in He as ->. cbn in Hs. specialize (H 0%nat (S j) n x eq_refl Hx). assert (0%nat = S j); [|done]. apply H; [|done..]. by intros Ev; rewrite Ev in E.
Qed.

Lemma same_number n k : same (TNumber n) k → luaO_rawequalObj (TNumber n) k = true.
Proof. by intros [H|H]. Qed.

Lemma apart_arr : ∀ l i, Z.of_nat (i + length l) <= MAXASIZE → apart (arr i l).
Proof.
  unfold MAXASIZE. induction l as [|v l IH]; intros i Hi; [constructor|]. cbn in Hi |- *. apply apart_app. split_and!.
  - unfold arr_ent. destruct (ttisnil v); repeat constructor.
  - apply IH. lia.
  - intros e e' He (j & Hj & _ & _ & Ek)%arr_in Hs. unfold arr_ent in He. destruct (ttisnil v); [by apply elem_of_nil in He|]. apply list_elem_of_singleton in He as ->.
    cbn in Hs. rewrite Ek in Hs. apply same_number, rawequal_arrayindex in Hs. rewrite !arrayindex_cast in Hs by lia. lia.
Qed.

Lemma used_proper t j n : hash_ok t → t_node t !! j = Some n → i_val n ≠ TNil → proper (i_key n).
Proof. intros H Hn Hv. destruct (decide (proper (i_key n))) as [|Hnp]; [done|]. destruct Hv. by eapply c_unset; [apply H|..]. Qed.

Lemma table_keys_ok t : hash_ok t → keys_ok (pairs t).
Proof.
  intros H. pose proof (o_array _ H) as Hsz. destruct Hsz as [Hl Hm]. pose proof (λ j n, used_proper t j n H) as Hp. pose proof (o_array _ H) as Hsz. split.
  - apply apart_app. split_and!.
    + apply apart_arr. rewrite length_take. lia.
    + apply apart_entries. intros i j n n' Hi Hj Hv Hv'. eapply c_same; [apply H|done..|by eapply Hp|by eapply Hp].
    + intros e e' He (j & n & Hn & Hv & ->)%entries_elem_of Hs. destruct (arr_pairs_range t e Hsz He) as [Hr _]. apply arr_in in He as (i & _ & _ & _ & Ek). rewrite Ek in Hs, Hr.
      apply same_number, rawequal_arrayindex in Hs. eapply o_range; [done|done|by eapply Hp|]. cbn [fst] in Hs. unfold inrange in *. by rewrite <- Hs.
  - apply Forall_app. split; apply Forall_forall.
    + intros e He. by apply (arr_pairs_range t).
    + intros e (j & n & Hn & Hv & ->)%entries_elem_of. eapply c_valid; [apply H|done|by eapply Hp].
Qed.

(** *** The loops of [resize_hashpart] *)

(** Nodes without chains: those that are not in their main position are loose. *)
Lemma rehashing_start l nodes : length nodes = twoto l → (∀ j n, nodes !! j = Some n → n_next n = None) → clean nodes → keys_ok (entries nodes) →
  ∃ L, rehashing (twoto l) nodes L ∧ ∀ i, i ∈ L → i ∈ seq 0 (twoto l).
Proof.
  intros Hlen Hnext Hclean [Ha Hv].
  set (P j := ∃ n, nodes !! j = Some n ∧ i_val n ≠ TNil ∧ main_of (twoto l) (i_key n) ≠ j).
  assert (∀ j, Decision (P j)) as Hdec.
  { intros j. unfold P. destruct (nodes !! j) as [n|] eqn:Hn; [|right; by intros (n & ? & _)]. destruct (decide (i_val n ≠ TNil ∧ main_of (twoto l) (i_key n) ≠ j)) as [HP|HP].
    - left. eauto.
    - right. intros (n' & [= <-] & HP'). done. }
  set (L := list_to_set (filter P (seq 0 (twoto l))) : gset nat).
  assert (∀ j, j ∈ L ↔ P j) as HL.
  { intros j. unfold L. rewrite elem_of_list_to_set, list_elem_of_filter, elem_of_seq. split; [by intros []|]. intros HP. split; [done|]. destruct HP as (n & Hn & _).
    apply lookup_lt_Some in Hn. lia. }
  assert (∀ j n, nodes !! j = Some n → i_val n ≠ TNil → valid (i_key n)) as Hvalid.
  { intros j n Hn Hvn. rewrite Forall_forall in Hv. by apply (Hv (i_key n, i_val n)), (elem_of_entries _ j). }
  assert (∀ j n, bare L nodes !! j = Some n → n_next n = None) as Hnone.
  { intros j n. rewrite bare_lookup. destruct (nodes !! j) as [x|] eqn:Hx; [|done]. cbn. case_decide; intros [= <-]; [done|by eapply Hnext]. }
  assert (∀ j n, bare L nodes !! j = Some n → proper (i_key n) → nodes !! j = Some n ∧ i_val n ≠ TNil ∧ main_of (twoto l) (i_key n) = j) as Hown.
  { intros j n. rewrite bare_lookup. destruct (nodes !! j) as [x|] eqn:Hx; [|done]. cbn. destruct (decide (j ∈ L)) as [Hj|Hj]; intros [= <-]; [done|]. intros Hp.
    assert (i_val x ≠ TNil) as Hvx by (intros E; apply (Hclean j) in E; [by rewrite E in Hp|done]). split_and!; [done|done|].
    destruct (decide (main_of (twoto l) (i_key x) = j)); [done|]. destruct Hj. apply HL. by exists x. }
  exists L. split; [|intros j Hj; apply HL in Hj as (n & Hn & _); apply elem_of_seq; apply lookup_lt_Some in Hn; lia]. split; [split; [split|..]|..].
  - exists (λ _, 0%nat). intros j n x Hj Hx. by rewrite (Hnone j n Hj) in Hx.
  - intros j n x Hj Hx. by rewrite (Hnone j n Hj) in Hx.
  - intros i j n n' x Hi _ Hx. by rewrite (Hnone i n Hi) in Hx.
  - intros i n Hi _. by eapply Hnone.
  - intros i n. rewrite bare_lookup. destruct (nodes !! i) as [x|] eqn:Hx; [|done]. cbn. case_decide; intros [= <-] Hp; [done|].
    destruct (decide (i_val x = TNil)) as [|Hne]; [done|]. destruct Hp. by apply (Hvalid i).
  - intros i n Hi Hp. destruct (Hown i n Hi Hp) as (_ & _ & E). rewrite E. constructor.
  - intros i n Hi Hp. destruct (Hown i n Hi Hp) as (_ & _ & E). rewrite E. exists n. split_and!; [done|by apply proper_not_nil|done].
  - intros i j n n' Hi Hj Hp Hp' Hs. destruct (Hown i n Hi Hp) as (Hi' & Hv1 & _), (Hown j n' Hj Hp') as (Hj' & Hv2 & _).
    destruct (decide (i = j)) as [|Hij]; [done|]. by destruct (apart_nodes nodes i j n n').
  - intros i n Hi Hp. destruct (Hown i n Hi Hp) as (Hi' & Hv1 & _). by eapply Hvalid.
  - intros i Hi. apply HL in Hi as (n & Hn & Hvn & Hm). exists n. rewrite Hlen. split_and!; try done; [by eapply Hvalid|by eapply Hnext|apply main_lt].
  - exact Hclean.
  - exact Ha.
Qed.

(** What a resize leaves: a table in which a node without value is unused, of a size, with the pairs of another. *)
Record rebuilt (l : nat) (t t' : Table) : Prop := {
  b_lsize : t_lsizenode t' = l; b_node : length (t_node t') = twoto l; b_dummy : t_dummy t' = false; b_last : t_lastfree t' = Z.of_nat (twoto l);
  b_chains : chains (main_of (twoto l)) (t_node t'); b_clean : clean (t_node t');
  b_range : ∀ e, e ∈ entries (t_node t') → ¬ inrange (t_sizearray t) e.1;
  b_pairs : pairs t' ≡ₚ pairs t;
  b_array : t_sizearray t' = t_sizearray t ∧ length (t_array t') = length (t_array t) }.

Lemma entries_unused nodes : (∀ j n, nodes !! j = Some n → n = unused) → entries nodes = [].
Proof.
  induction nodes as [|n nodes IH]; intros H; [done|]. change (entries (n :: nodes)) with (ent n ++ entries nodes). rewrite (H 0%nat n eq_refl). apply IH. intros j x Hj. by apply (H (S j)).
Qed.

Section resize_nodes.
Context (l old : nat) (t : Table) (Hl : (l <= 26)%nat) (Hsz : arraysize_ok t) (Hkeys : keys_ok (pairs t)) (Hls : t_lsizenode t = l) (Hd : t_dummy t = false).
Context (Hlast : t_lastfree t = Z.of_nat (twoto l)).
Context (Hroom : (length (filter (λ e, ¬ inrange (t_sizearray t) e.1) (entries (t_node t))) <= twoto l)%nat).
Context (Hlen : length (t_node t) = Nat.max old (twoto l)) (Hnew : ∀ j n, (old <= j)%nat → t_node t !! j = Some n → n = unused).

(** The nodes below the new size, when the chains are empty. *)
Lemma compacted : ∃ t1, each (compact_node (twoto l)) (seq 0 old) t = LOk t1 ∧ frame t t1 ∧
  (∀ j n, take (twoto l) (t_node t1) !! j = Some n → n_next n = None ∧ (i_val n = TNil → i_key n = TNil) ∧ (i_val n ≠ TNil → ¬ inrange (t_sizearray t) (i_key n))) ∧
  arr_pairs t1 ++ entries (take (twoto l) (t_node t1)) ≡ₚ pairs t ∧ ((old <= twoto l)%nat → t_lastfree t1 = Z.of_nat (twoto l)).
Proof.
  destruct (compact_loop (twoto l) t Hsz Hkeys ltac:(lia) Hroom old 0 t) as (t1 & E & [Hf Hrest Hdone Hpairs (Hf1 & Hf2 & Hf3)]); [apply compacting_start; [done|lia|done]|lia|].
  exists t1. change (0 + old)%nat with old in *. split; [done|]. split; [done|]. assert (∀ j n, (old <= j)%nat → t_node t1 !! j = Some n → n = unused) as Hnew1 by (intros j n Hj; rewrite Hrest by done; by apply Hnew).
  split_and!; [| |done].
  - intros j n [Hn Hj]%lookup_take_Some. destruct (decide (j < old)%nat) as [Hjo|Hjo]; [by apply (Hdone j n)|]. rewrite (Hnew1 j n) by (done || lia). by split_and!.
  - rewrite <- Hpairs. apply Permutation_app_head. rewrite (entries_unused (drop old (t_node t1))), app_nil_r.
    2: { intros j n. rewrite lookup_drop. intros Hj. eapply Hnew1; [|done]. lia. }
    destruct (decide (twoto l <= old)%nat); [by rewrite Nat.min_r by done|]. rewrite Nat.min_l by lia.
    rewrite <- (take_drop old (t_node t1)) at 1. rewrite take_app_ge by (rewrite length_take; lia). rewrite entries_app, (entries_unused (take _ (drop old (t_node t1)))), app_nil_r; [done|].
    intros j x [Hj _]%lookup_take_Some. rewrite lookup_drop in Hj. eapply Hnew1; [|done]. lia.
Qed.

Lemma resize_nodes_ok : ∃ t', resize_nodes old (twoto l) t = LOk t' ∧ rebuilt l t t'.
Proof.
  destruct compacted as (t1 & E1 & Hf & Hnodes & Hpairs & Hlast1). unfold resize_nodes. rewrite E1. cbn [mbind lres_mbind lua_bind].
  set (nodes := take (twoto l) (t_node t1)) in *. assert (length nodes = twoto l) as Hnl by (unfold nodes; rewrite length_take, (f_node _ _ Hf); lia).
  assert (∃ t2, (if (twoto l <? old)%nat then resizenodevector old (twoto l) t1 else LOk t1) = LOk t2 ∧ t2 = with_hash l nodes false (Z.of_nat (twoto l)) t1) as (t2 & -> & ->).
  { eexists. split; [|done]. destruct (Nat.ltb_spec (twoto l) old) as [Hlt|Hge].
    - unfold resizenodevector. pose proof (twoto_pos l). destruct (Nat.eqb_spec (twoto l) 0); [lia|]. rewrite ceillog2_twoto by done. cbn [lopt mbind lres_mbind lua_bind].
      unfold MAXBITS. destruct (Z.ltb_spec 26 (Z.of_nat l)); [lia|]. rewrite (f_dummy _ _ Hf), Hd, Nat2Z.id. replace (twoto l - old)%nat with 0%nat by lia. cbn [replicate]. by rewrite app_nil_r.
    - f_equal. unfold nodes. rewrite take_ge by (rewrite (f_node _ _ Hf); lia). unfold with_hash. destruct Hf as [Hfd Hfl _ _ _ _], t1. cbn in *. rewrite Hlast1 by lia. congruence. }
  cbn [mbind lres_mbind lua_bind].
  assert (clean nodes) as Hclean by (intros j n Hn; by apply (Hnodes j n)).
  assert (keys_ok (entries nodes)) as Hk. { rewrite <- Hpairs in Hkeys. destruct Hkeys as [(_ & Ha & _)%apart_app [_ Hv]%Forall_app]. done. }
  destruct (rehashing_start l nodes Hnl) as (L & HL & Hin); [intros j n Hn; by apply (Hnodes j n)|done..|].
  destruct (rechain_ok (twoto l) (seq 0 (twoto l)) (with_hash l nodes false (Z.of_nat (twoto l)) t1) L) as (nodes' & -> & H' & Hent & Hlen'); [done..| |done|].
  { intros i Hi%elem_of_seq. cbn. lia. }
  eexists. split; [done|]. cbn in Hent, Hlen'. pose proof (h_chains _ _ _ H') as Hc. rewrite bare_empty in Hc. split; try done.
  - cbn. congruence.
  - cbn. exact (h_used _ _ _ H').
  - cbn. intros e. rewrite Hent. intros (j & n & Hn & Hv & ->)%entries_elem_of. by apply (Hnodes j n).
  - unfold pairs at 1. cbn [with_node with_hash t_node]. rewrite Hent. rewrite <- Hpairs. done.
  - cbn. split; [by apply (f_sizearray _ _ Hf)|by apply (f_array _ _ Hf)].
Qed.
End resize_nodes.

(** The size for a number of keys. *)
Definition log_size (nh l : nat) : Prop := (l <= 26)%nat ∧ (nh <= twoto l)%nat.

(** A table of before a resize: well formed, but for the array part, which may just have grown or be about to shrink. *)
Lemma resize_hashpart_ok nh t : arraysize_ok t → keys_ok (pairs t) → length (t_node t) = sizenode t → (t_lsizenode t <= 26)%nat →
  (t_dummy t = true → t_node t = [dummynode_]) → Z.of_nat nh <= MAXASIZE →
  (length (filter (λ e, ¬ inrange (t_sizearray t) e.1) (entries (t_node t))) <= nh)%nat →
  ∃ l t', resize_hashpart nh t = LOk t' ∧ log_size nh l ∧ rebuilt l t t'.
Proof.
  intros Hsz Hkeys Hlen Hls Hdummy Hnh Hroom. unfold resize_hashpart.
  assert (∃ l, (if (0 <? nh)%nat then lopt (ceillog2 (Z.of_nat nh)) else LOk 0) = LOk (Z.of_nat l) ∧ log_size nh l) as (l & -> & [Hl Hnl]).
  { destruct (Nat.ltb_spec 0 nh) as [Hpos|Hz].
    - destruct (ceillog2_round nh Hpos Hnh) as (l & -> & ? & ?). by exists l.
    - exists 0%nat. split; [done|]. split; [lia|]. pose proof (twoto_pos 0). lia. }
  exists l. cbn [mbind lres_mbind lua_bind]. unfold MAXBITS. destruct (Z.ltb_spec 26 (Z.of_nat l)) as [Hbad|_]; [lia|]. rewrite Nat2Z.id.
  set (old := if t_dummy t then 0%nat else twoto (t_lsizenode t)). pose proof (twoto_pos l) as Hpos.
  assert (∀ t1, arr_pairs t1 = arr_pairs t → entries (t_node t1) = entries (t_node t) → t_sizearray t1 = t_sizearray t → length (t_array t1) = length (t_array t) →
    (∃ t', resize_nodes old (twoto l) t1 = LOk t' ∧ rebuilt l t1 t') → ∃ t', resize_nodes old (twoto l) t1 = LOk t' ∧ log_size nh l ∧ rebuilt l t t') as Hback.
  { intros t1 Ha He Hs Hal (t' & E & [? ? ? ? ? ? Hr Hp [Hs1 Hs2]]). exists t'. split; [done|]. split; [done|]. split; try done.
    - by rewrite <- Hs.
    - rewrite Hp. unfold pairs. by rewrite Ha, He.
    - split; congruence. }
  destruct (Nat.ltb_spec old (twoto l)) as [Hgrow|Hsame].
  - unfold resizenodevector. destruct (Nat.eqb_spec (twoto l) 0); [lia|]. rewrite ceillog2_twoto by done. cbn [lopt mbind lres_mbind lua_bind].
    unfold MAXBITS. destruct (Z.ltb_spec 26 (Z.of_nat l)); [lia|]. rewrite Nat2Z.id.
    assert ((if t_dummy t then (0%nat, []) else (old, t_node t)) = (old, if t_dummy t then [] else t_node t)) as -> by (unfold old; by destruct (t_dummy t)).
    set (node := if t_dummy t then [] else t_node t). assert (length node = old) as Hno by (unfold node, old; destruct (t_dummy t); [done|by rewrite Hlen]).
    rewrite take_ge by lia. assert (entries (node ++ replicate (twoto l - old) unused) = entries (t_node t)) as He.
    { rewrite entries_app, (entries_unused (replicate _ _)), app_nil_r by by intros j x [-> _]%lookup_replicate. unfold node. destruct (t_dummy t); [by rewrite Hdummy|done]. }
    apply Hback; [done|exact He|done|done|]. apply resize_nodes_ok; try done.
    + unfold pairs, arr_pairs. cbn [with_hash t_node t_array t_sizearray]. fold unused. by rewrite He.
    + cbn [with_hash t_node t_sizearray]. fold unused. rewrite He. lia.
    + cbn. rewrite length_app, length_replicate. lia.
    + intros j x Hj. cbn. rewrite lookup_app_r by lia. by intros [-> _]%lookup_replicate.
  - destruct (Nat.ltb_spec 0 (twoto l)); [|lia]. assert (t_dummy t = false) as Hd by (unfold old in Hsame; destruct (t_dummy t); [lia|done]).
    assert (old = twoto (t_lsizenode t)) as Ho by (unfold old; by rewrite Hd). rewrite Hd. apply Hback; [done..|]. apply resize_nodes_ok; try done.
    + etrans; [exact Hroom|done].
    + cbn. rewrite Hlen. unfold sizenode. lia.
    + intros j n Hj Hn%lookup_lt_Some. cbn in Hn. rewrite Hlen in Hn. unfold sizenode in Hn. lia.
Qed.
End rebuild.
