(* ===== verification/TableGrow.v ===== *)
(** * Searches and insertions

    The counts that a rehash uses; what the searches find; [newkey] with a free node, and with a rehash. *)
From S2P Require Import Prelude LuaNum LuaApi LuaTable TableChain TableSize TableResize.

(** ** Counting the keys of a table

    [numusearray] and [numusehash] count the integer keys of a table by powers of two; with the key that is to be inserted, this gives the sizes
    of a rehash. *)

Section count.
Context {M : Machine}.

#[export] Instance nums_ok_perm nums : Proper ((≡ₚ) ==> iff) (nums_ok nums).
Proof.
  intros l l' H. unfold nums_ok. assert (∀ i, bucket i l = bucket i l') as E by (intros i; unfold bucket; by rewrite H). by setoid_rewrite E.
Qed.

#[export] Instance cnt_permuted n : Proper ((≡ₚ) ==> eq) (cnt n).
Proof. intros l l' H. unfold cnt. by rewrite H. Qed.

(** *** The array part *)

Section array.
Context (t : Table) (Ha : length (t_array t) = t_sizearray t) (Hm : Z.of_nat (t_sizearray t) <= MAXASIZE).

#[local] Abbreviation A := (t_array t).

Lemma count_slice_ok : ∀ n i, (i + n <= length A)%nat → count_slice n i t = LOk (Z.of_nat (length (arr i (take n (drop i A))))).
Proof.
  induction n as [|n IH]; intros i Hi; [done|]. cbn [count_slice]. destruct (lookup_lt_is_Some_2 A i) as [v Hv]; [lia|]. rewrite Hv. cbn [lopt mbind lres_mbind lua_bind].
  rewrite IH by lia. cbn [mbind lres_mbind lua_bind]. rewrite (drop_S _ _ _ Hv). cbn [take arr]. rewrite length_app. unfold arr_ent. destruct (ttisnil v); cbn [length]; f_equal; lia.
Qed.

Lemma arr_slice lg i lim : (lg <= 26)%nat → (lim <= length A)%nat → (lim <= twoto lg)%nat → (match lg with O => i = 0 | S l => i = twoto l end)%nat →
  Forall (slice lg) (arr i (take (lim - i) (drop i A))).*1.
Proof.
  intros Hlg Hlim Hl Hi. apply Forall_forall. intros k (e & -> & He)%list_elem_of_fmap. apply arr_in in He as (j & Hj & _ & _ & ->). rewrite length_take, length_drop in Hj.
  pose proof (twoto_pow lg) as Elg. assert (2 ^ Z.of_nat lg <= 2 ^ 26) by (apply Z.pow_le_mono_r; lia). unfold slice. rewrite arrayindex_cast by lia. unfold MAXASIZE in *. split; [lia|].
  destruct lg as [|l].
  - subst i. change (twoto 0) with 1%nat in *. replace (0 + j)%nat with 0%nat by lia. done.
  - pose proof (twoto_pow l) as El. apply Z.log2_up_unique; [lia|]. rewrite Nat2Z.inj_succ in *. rewrite Z.pred_succ. rewrite <- El. split; [lia|]. rewrite <- Elg. lia.
Qed.

Lemma numusearray_loop_ok : ∀ k lg nums, (lg + k = 27)%nat →
  let i := (match lg with O => 0 | S l => Nat.min (twoto l) (t_sizearray t) end)%nat in
  nums_ok nums (arr 0 (take i A)).*1 →
  ∃ nums', numusearray_loop (seq lg k) (twoto lg) i t nums (Z.of_nat (length (arr 0 (take i A)))) = LOk (Z.of_nat (length (arr 0 A)), nums') ∧ nums_ok nums' (arr 0 A).*1.
Proof.
  induction k as [|k IH]; intros lg nums Hk i Hn.
  - exists nums. cbn [seq numusearray_loop]. assert (take i A = A) as E. { apply take_ge. unfold i. replace lg with 27%nat by lia. rewrite Ha. apply Nat.min_glb; [|lia].
      apply Nat2Z.inj_le. rewrite twoto_pow. done. }
    by rewrite E in *.
  - cbn [seq numusearray_loop]. destruct ((t_sizearray t <? twoto lg)%nat && (t_sizearray t <=? i)%nat) eqn:Eb.
    + apply andb_true_iff in Eb as [_ Hle%Nat.leb_le]. exists nums. rewrite take_ge in * by lia. done.
    + set (lim := Nat.min (twoto lg) (t_sizearray t)).
      assert (lg ≠ 0%nat → i = twoto (lg - 1)) as Hi.
      { intros Hlg. destruct lg as [|l]; [done|]. unfold i. replace (S l - 1)%nat with l by lia. apply andb_false_iff in Eb as [E%Nat.ltb_ge|E%Nat.leb_gt].
        - assert (twoto (S l) = 2 * twoto l)%nat as E2 by (unfold twoto; cbn; lia). lia.
        - unfold i in E. lia. }
      assert (i <= lim)%nat as Hilim. { unfold lim, i. destruct lg as [|l]; [lia|]. assert (twoto (S l) = 2 * twoto l)%nat as E2 by (unfold twoto; cbn; lia). lia. }
      rewrite count_slice_ok by (rewrite Ha; unfold lim; lia). cbn [mbind lres_mbind lua_bind]. pose proof Hn as [Hnl Hnb]. rewrite Hnb by lia. cbn [lopt mbind lres_mbind lua_bind].
      assert (arr 0 (take lim A) = arr 0 (take i A) ++ arr i (take (lim - i) (drop i A))) as Earr.
      { replace lim with (i + (lim - i))%nat at 1 by lia. rewrite <- take_take_drop, arr_app. do 2 f_equal. rewrite length_take. unfold lim in *. lia. }
      assert (nums_ok (<[lg := bucket lg (arr 0 (take i A)).*1 + Z.of_nat (length (arr i (take (lim - i) (drop i A))))]> nums) (arr 0 (take lim A)).*1) as Hn'.
      { rewrite Earr, fmap_app, Permutation_app_comm. pose proof (nums_slice nums (arr 0 (take i A)).*1 (arr i (take (lim - i) (drop i A))).*1 lg (bucket lg (arr 0 (take i A)).*1)) as Hs.
        rewrite length_fmap in Hs. apply Hs; [done|lia|apply Hnb; lia|]. apply arr_slice; [lia|rewrite Ha; unfold lim; lia|unfold lim; lia|]. destruct lg as [|l]; [done|]. rewrite Hi by done. f_equal. lia. }
      specialize (IH (S lg) _ ltac:(lia) Hn') as (nums' & E & Hn'').
      assert (twoto (S lg) = twoto lg * 2)%nat as E2 by (unfold twoto; cbn; lia). rewrite E2 in E. fold lim in E. exists nums'. split; [|done].
      rewrite Nat.max_r by lia. rewrite <- E. f_equal. rewrite Earr, length_app. lia.
Qed.

Lemma numusearray_ok : ∃ nums, numusearray t (replicate 27 0) = LOk (Z.of_nat (length (arr_pairs t)), nums) ∧ nums_ok nums (arr_pairs t).*1.
Proof.
  destruct (numusearray_loop_ok 27 0 (replicate 27 0) eq_refl nums_start) as (nums & E & Hn). exists nums. unfold arr_pairs. rewrite take_ge by lia. done.
Qed.
End array.

(** *** The hash part *)

Lemma numusehash_loop_ok t : ∀ i nums ks tot aus, (i <= length (t_node t))%nat → nums_ok nums ks →
  ∃ nums', numusehash_loop i t nums tot aus = LOk (tot + Z.of_nat (length (entries (take i (t_node t)))), aus + cnt MAXASIZE (entries (take i (t_node t))).*1, nums') ∧
    nums_ok nums' ((entries (take i (t_node t))).*1 ++ ks).
Proof.
  induction i as [|i IH]; intros nums ks tot aus Hi Hn.
  - exists nums. cbn [numusehash_loop take]. change (entries []) with (@nil pair). cbn [length fmap list_fmap]. change (cnt MAXASIZE []) with 0. by rewrite !Z.add_0_r.
  - destruct (lookup_lt_is_Some_2 (t_node t) i) as [n Hni]; [lia|]. rewrite (take_S_r _ _ _ Hni), entries_app. change (entries [n]) with (ent n ++ []). rewrite app_nil_r.
    cbn [numusehash_loop]. rewrite Hni. cbn [lopt mbind lres_mbind lua_bind]. unfold ent. destruct (ttisnil (i_val n)) eqn:E.
    + rewrite app_nil_r. apply IH; [lia|done].
    + destruct (countint_ok (i_key n) nums ks Hn) as (nums1 & -> & Hn1). cbn [mbind lres_mbind lua_bind].
      destruct (IH nums1 (i_key n :: ks) (tot + 1) (aus + Z.b2z (bool_decide (0 < arrayindex (i_key n) <= MAXASIZE)))) as (nums2 & -> & Hn2); [lia|done|].
      exists nums2. rewrite fmap_app, cnt_app, length_app. change ([(i_key n, i_val n)].*1) with [i_key n]. rewrite cnt_cons. change (cnt MAXASIZE []) with 0. cbn [length]. split.
      * do 3 f_equal; [lia|]. case_bool_decide; [rewrite decide_True by done|rewrite decide_False by done]; cbn [Z.b2z]; lia.
      * by rewrite <- app_assoc.
Qed.

Lemma numusehash_ok t nums ks : length (t_node t) = sizenode t → nums_ok nums ks →
  ∃ nums', numusehash t nums = LOk (Z.of_nat (length (entries (t_node t))), cnt MAXASIZE (entries (t_node t)).*1, nums') ∧ nums_ok nums' ((entries (t_node t)).*1 ++ ks).
Proof.
  intros Hl Hn. unfold numusehash. destruct (numusehash_loop_ok t (sizenode t) nums ks 0 0) as (nums' & E & Hn'); [lia|done|]. rewrite take_ge in * by lia. by exists nums'.
Qed.

(** *** Different keys are different integers *)

Lemma cnt_bound l n : keys_ok l → 0 <= n → cnt n l.*1 <= n.
Proof.
  intros [Ha Hv] Hn. assert (NoDup (map arrayindex (filter (λ k, 0 < arrayindex k <= n) l.*1))) as Hnd.
  { induction l as [|e l IH]; [constructor|]. apply apart_cons in Ha as [He Ha]. apply Forall_cons in Hv as [Hve Hv]. rewrite fmap_cons, filter_cons. case_decide as Hd; [|by apply IH].
    cbn. constructor; [|by apply IH]. intros (k & Ek & [Hk (e' & -> & He')%list_elem_of_fmap]%list_elem_of_filter)%list_elem_of_fmap. rewrite Forall_forall in He, Hv.
    apply (He e' He'). left. rewrite (arrayindex_key e'.1 (Hv e' He')) by lia. rewrite <- Ek. rewrite rawequal_comm, <- arrayindex_key; [apply Hve|done|lia]. }
  assert (map arrayindex (filter (λ k, 0 < arrayindex k <= n) l.*1) ⊆ seqZ 1 n) as Hsub.
  { intros z (k & -> & [Hk _]%list_elem_of_filter)%list_elem_of_fmap. apply elem_of_seqZ. lia. }
  unfold cnt. pose proof (submseteq_length _ _ (NoDup_submseteq _ _ Hnd Hsub)) as Hle. rewrite length_map, length_seqZ in Hle. lia.
Qed.

Lemma cnt_all sz ks : Forall (λ k, 0 < arrayindex k <= sz) ks → cnt sz ks = Z.of_nat (length ks).
Proof. induction 1 as [|k ks Hk _ IH]; [done|]. rewrite cnt_cons, IH, decide_True by done. cbn [length]. lia. Qed.

(** *** The sizes *)

(** The sizes that a rehash computes for a key: the best size of the array part, and room for all other keys. *)
Lemma rehash_sizes nk ek t : hash_ok t → length (t_array t) = t_sizearray t → valid ek → absent ek (t_node t) → ¬ inrange (t_sizearray t) ek →
  ∃ n, rehash nk ek t = resize nk (Z.to_nat n) (length (filter (λ e, ¬ inrange (Z.to_nat n) e.1) ((ek, TNil) :: pairs t))) t ∧
    best 27 n (ek :: (pairs t).*1) ∧ keys_ok ((ek, TNil) :: pairs t).
Proof.
  intros H Ha Hk Habs Hr. destruct (o_array _ H) as [_ Hm].
  assert (keys_ok ((ek, TNil) :: pairs t)) as Hkeys.
  { pose proof (table_keys_ok t H) as [Hap Hv]. split; [|by constructor]. apply apart_cons. split; [|done]. apply Forall_forall. intros e He Hs. cbn in Hs.
    apply elem_of_app in He as [He|He].
    - destruct (arr_pairs_range t e (o_array _ H) He) as [Hre _]. apply arr_in in He as (j & _ & _ & _ & Ee). rewrite Ee in Hs, Hre. apply same_sym, same_number, rawequal_arrayindex in Hs.
      apply Hr. unfold inrange in *. by rewrite <- Hs.
    - apply entries_elem_of in He as (j & n & Hn & Hvn & ->). apply (Habs j n Hn); [by eapply used_proper|done]. }
  unfold rehash. destruct (numusearray_ok t Ha Hm) as (nums1 & -> & H1). cbn [mbind lres_mbind lua_bind].
  destruct (numusehash_ok t nums1 _ (proj1 (o_node _ H)) H1) as (nums2 & -> & H2). cbn [mbind lres_mbind lua_bind].
  destruct (countint_ok ek nums2 _ H2) as (nums3 & -> & H3). cbn [mbind lres_mbind lua_bind].
  set (ks := ek :: (pairs t).*1). assert (ek :: (entries (t_node t)).*1 ++ (arr_pairs t).*1 ≡ₚ ks) as Eks by (unfold ks, pairs; rewrite fmap_app; by rewrite (Permutation_app_comm (entries _).*1)).
  rewrite Eks in H3. assert (Z.of_nat (length (arr_pairs t)) + cnt MAXASIZE (entries (t_node t)).*1 + Z.b2z (bool_decide (0 < arrayindex ek <= MAXASIZE)) = cnt MAXASIZE ks) as ->.
  { rewrite <- Eks, cnt_cons, cnt_app, (cnt_all MAXASIZE (arr_pairs t).*1).
    - rewrite length_fmap. case_bool_decide; [rewrite decide_True by done|rewrite decide_False by done]; cbn [Z.b2z]; lia.
    - apply Forall_fmap, Forall_forall. intros e He. destruct (arr_pairs_range t e (o_array _ H) He) as [Hre _]. unfold inrange in Hre. cbn. lia. }
  destruct (computesizes_ok nums3 ks H3) as (n & -> & Hb). { intros m Hm'. exact (cnt_bound _ m Hkeys Hm'). }
  cbn [mbind lres_mbind lua_bind]. exists n. split; [|done]. f_equal.
  assert (0 <= n) as Hn0. { destruct Hb as [[->|(p & _ & -> & _)] _]; [done|by apply Z.pow_nonneg]. }
  assert (∀ l, length (filter (λ e : pair, ¬ inrange (Z.to_nat n) e.1) l) = Z.to_nat (Z.of_nat (length l) - cnt n l.*1)) as Ef.
  { intros l. assert (Z.of_nat (length (filter (λ e : pair, ¬ inrange (Z.to_nat n) e.1) l)) = Z.of_nat (length l) - cnt n l.*1); [|lia]. induction l as [|e l IH]; [done|].
    rewrite fmap_cons, cnt_cons, filter_cons. repeat match goal with |- context [decide ?P] => destruct (decide P) end; unfold inrange in *; cbn [length]; lia. }
  rewrite Ef. f_equal. cbn [length fmap list_fmap fst]. fold ks. unfold pairs. rewrite length_app. fold (pairs t). lia.
Qed.
End count.

(** ** A table is a map

    What the searches find is what the pairs of the table give for the key. *)

Lemma chain_find_ext (p q : TValue → bool) nodes : (∀ k, p k = q k) → ∀ fuel i, chain_find p fuel nodes i = chain_find q fuel nodes i.
Proof.
  intros H. induction fuel as [|fuel IH]; intros i; cbn; [done|]. destruct (nodes !! i) as [n|]; [|done]. cbn. rewrite H. destruct (q _); [done|]. by destruct (n_next n).
Qed.

Section map.
Context {M : Machine}.

(** *** Lookup *)

(** What a search comes to: the place in the array, the node of the key, or none when there is none. *)
Definition found (t : Table) (key : TValue) (s : slot) : Prop :=
  match s with
  | ArraySlot i => inrange (t_sizearray t) key ∧ i = Z.to_nat (arrayindex key - 1)
  | NodeSlot i => ∃ n, t_node t !! i = Some n ∧ proper (i_key n) ∧ luaO_rawequalObj (i_key n) key = true
  | Nilobject => ¬ inrange (t_sizearray t) key ∧ ∀ i n, t_node t !! i = Some n → proper (i_key n) → luaO_rawequalObj (i_key n) key = false
  end.

Lemma found_equal t key key' s : luaO_rawequalObj key key' = true → found t key s → found t key' s.
Proof.
  intros He. unfold found, inrange. rewrite (rawequal_arrayindex _ _ He). destruct s; [|done|].
  - intros [H1 H2]. split; [done|]. intros i n Hn Hp. specialize (H2 i n Hn Hp). destruct (luaO_rawequalObj (i_key n) key') eqn:E; [|done].
    rewrite rawequal_comm in He. by rewrite (rawequal_trans _ _ _ E He) in H2.
  - intros (n & Hn & Hp & Hk). exists n. split_and!; try done. by eapply rawequal_trans.
Qed.

Lemma search_ok t key p a : hash_ok t → proper key → (∀ k, p k = luaO_rawequalObj k key) → a = main_of (sizenode t) key → ¬ inrange (t_sizearray t) key →
  ∃ s, search t p a = LOk s ∧ found t key s.
Proof.
  intros H Hp Hpk -> Hr. unfold search. rewrite (chain_find_ext p (λ k, luaO_rawequalObj k key)) by done.
  destruct (chain_find_total (t_node t) (c_linked _ _ (o_chains _ H)) (λ k, luaO_rawequalObj k key) (main_of (sizenode t) key)) as [r Er].
  { rewrite (proj1 (o_node _ H)). apply main_lt. }
  rewrite Er. cbn [mbind lres_mbind lua_bind]. eexists. split; [done|]. destruct r as [i|].
  - destruct (chain_find_some _ _ _ _ _ Er) as (n & Hn & Hk). exists n. split_and!; [done| |done]. rewrite rawequal_comm in Hk. by eapply rawequal_proper.
  - split; [done|]. intros i n Hn Hpn. destruct (luaO_rawequalObj (i_key n) key) eqn:E; [|done]. rewrite <- E.
    pose proof (c_leads _ _ (o_chains _ H) _ _ Hn Hpn) as Hl. rewrite (rawequal_main _ _ _ E) in Hl by (by eapply c_valid; [apply H|..]).
    exact (chain_find_none (λ k, luaO_rawequalObj k key) _ _ _ _ _ Hl Hn _ Er).
Qed.

Lemma luaH_getnum_ok t k : hash_ok t → - 2 ^ 31 <= k < 2 ^ 31 → ∃ s, luaH_getnum t k = LOk s ∧ found t (TNumber (cast_num k)) s.
Proof.
  intros H Hk. destruct (o_array _ H) as [Hl Hm]. unfold luaH_getnum. rewrite array_test by lia. destruct (bool_decide (0 < k <= Z.of_nat (t_sizearray t))) eqn:E.
  - apply bool_decide_eq_true in E. eexists. split; [done|]. cbn [found]. unfold inrange. by rewrite arrayindex_cast.
  - apply bool_decide_eq_false in E. apply search_ok; [done|done|by intros []|done|]. unfold inrange. by rewrite arrayindex_cast.
Qed.

Lemma arrayindex_equal k : 0 < arrayindex k → luaO_rawequalObj (TNumber (cast_num (arrayindex k))) k = true.
Proof. destruct k; cbn; try done. by destruct (num_eqb _ _) eqn:E. Qed.

Lemma inrange_not_number sz k : (∀ n, k ≠ TNumber n) → ¬ inrange sz k.
Proof. unfold inrange. destruct k; cbn; try lia. intros H. by destruct (H n). Qed.

Lemma get_other_ok t key : hash_ok t → proper key → ¬ inrange (t_sizearray t) key → ∃ s, get_other t key = LOk s ∧ found t key s.
Proof. intros H Hp Hr. by apply search_ok. Qed.

Lemma luaH_getstr_ok t p : hash_ok t → ∃ s, luaH_getstr t p = LOk s ∧ found t (TGc LUA_TSTRING p) s.
Proof. intros H. apply search_ok; [done|done|by intros []|done|]. by apply inrange_not_number. Qed.

Lemma luaH_get_ok t key : hash_ok t → proper key ∨ key = TNil → ∃ s, luaH_get t key = LOk s ∧ found t key s.
Proof.
  intros H [Hp| ->].
  2: { exists Nilobject. split; [done|]. split; [by apply inrange_not_number|]. intros i n _ Hp. by destruct (i_key n). }
  destruct key as [|b|n|ty p|ty p|p]; try done; cbn [luaH_get].
  - apply get_other_ok; [done|done|by apply inrange_not_number].
  - destruct (num_eqb (cast_num (number2int n)) n) eqn:E.
    + destruct (luaH_getnum_ok t (number2int n) H (number2int_range n)) as (s & -> & Hs). exists s. split; [done|]. by apply (found_equal t (TNumber (cast_num (number2int n)))).
    + apply get_other_ok; [done|done|]. unfold inrange. cbn [arrayindex]. rewrite E. lia.
  - apply get_other_ok; [done|done|by apply inrange_not_number].
  - destruct (Z.eqb_spec ty LUA_TSTRING) as [->|]; [by apply luaH_getstr_ok|]. apply get_other_ok; [done|done|by apply inrange_not_number].
Qed.

(** The value there is that of the pairs. *)
Lemma found_value t key s : hash_ok t → proper key ∨ key = TNil → found t key s → slot_get t s = Some (assoc (pairs t) key).
Proof.
  intros H Hk Hs. pose proof (table_keys_ok t H) as [Hap Hv]. destruct (o_array _ H) as [Hl Hm]. destruct s as [|i|i]; cbn [found slot_get] in *.
  - destruct Hs as [Hr Hno]. f_equal. symmetry. apply assoc_none. intros e [He|(i & n & Hn & Hvn & ->)%entries_elem_of]%elem_of_app.
    + destruct (luaO_rawequalObj e.1 key) eqn:E; [|done]. destruct (arr_pairs_range t e (o_array _ H) He) as [Hr' _]. unfold inrange in *. by rewrite (rawequal_arrayindex _ _ E) in Hr'.
    + apply (Hno i n Hn). by eapply used_proper.
  - destruct Hs as [Hr ->]. unfold inrange in Hr. set (i := Z.to_nat (arrayindex key - 1)). destruct (lookup_lt_is_Some_2 (t_array t) i) as [v Hv']; [lia|]. rewrite Hv'. f_equal.
    assert (take (t_sizearray t) (t_array t) !! i = Some v) as Hi by (rewrite lookup_take_Some; split; [done|lia]).
    destruct (decide (v = TNil)) as [->|Hvn].
    + symmetry. apply assoc_none. intros e He. destruct (luaO_rawequalObj e.1 key) eqn:E; [|done]. pose proof (rawequal_arrayindex _ _ E) as Ei. apply elem_of_app in He as [He|He].
      * apply arr_in in He as (j & Hj & Hlj & Hvj & Ek). rewrite length_take in Hj. rewrite Ek, arrayindex_cast in Ei by (unfold MAXASIZE in Hm; lia). replace j with i in Hlj by lia.
        rewrite Hi in Hlj. congruence.
      * apply entries_elem_of in He as (j & n & Hn & Hvn & ->). cbn in E, Ei. destruct (o_range _ H j n Hn); [by eapply used_proper|]. unfold inrange. by rewrite Ei.
    + symmetry. eapply assoc_in; [done|apply elem_of_app; left; by apply (in_arr v _ 0 i)|]. replace (Z.of_nat (0 + i) + 1) with (arrayindex key) by lia. apply arrayindex_equal. lia.
  - destruct Hs as (n & Hn & Hp & He). rewrite Hn. cbn. f_equal. destruct (decide (i_val n = TNil)) as [Hvn|Hvn].
    + rewrite Hvn. symmetry. apply assoc_none. intros e Hin. destruct (luaO_rawequalObj e.1 key) eqn:E; [|done]. exfalso.
      assert (luaO_rawequalObj e.1 (i_key n) = true) as Een by (rewrite rawequal_comm in He; by eapply rawequal_trans). apply elem_of_app in Hin as [Hin|Hin].
      * destruct (arr_pairs_range t e (o_array _ H) Hin) as [Hr' _]. apply (o_range _ H i n Hn Hp). unfold inrange in *. by rewrite <- (rawequal_arrayindex _ _ Een).
      * apply entries_elem_of in Hin as (j & n' & Hn' & Hvn' & ->). cbn in Een. assert (j = i) as ->; [|congruence].
        eapply c_same; [apply H|done|done|by eapply used_proper|done|by left].
    + symmetry. eapply assoc_in; [done|apply elem_of_app; right; by apply (elem_of_entries _ i)|done].
Qed.

(** What [t\[key\]] is. *)
Definition getv (t : Table) (key : TValue) : lres TValue := s ← luaH_get t key; lopt (slot_get t s).

Lemma getv_ok t key : hash_ok t → proper key ∨ key = TNil → getv t key = LOk (assoc (pairs t) key).
Proof. intros H Hk. unfold getv. destruct (luaH_get_ok t key H Hk) as (s & -> & Hs). cbn. by rewrite (found_value t key). Qed.
End map.

(** ** New keys

    [newkey] where there is a free node: it keeps the table and gives the key an entry without value. *)

Section new.
Context {M : Machine}.

(** The value of a node may change. *)
Lemma chains_value mp nodes i n v : chains mp nodes → nodes !! i = Some n → proper (i_key n) → chains mp (<[i := with_val v n]> nodes).
Proof.
  intros Hc Hi Hp. set (nodes' := <[i := with_val v n]> nodes).
  assert (∀ j x, nodes' !! j = Some x → ∃ y, nodes !! j = Some y ∧ i_key x = i_key y ∧ n_next x = n_next y ∧ (j ≠ i → i_val x = i_val y)) as Hback.
  { intros j x. unfold nodes'. rewrite list_lookup_insert_Some. intros [(<- & <- & _)|[Hne Hj]]; [by exists n|by exists x]. }
  assert (∀ j y, nodes !! j = Some y → ∃ x, nodes' !! j = Some x ∧ i_key x = i_key y ∧ n_next x = n_next y) as Hforth.
  { intros j y Hj. unfold nodes'. destruct (decide (i = j)) as [->|Hne]; [|by exists y; rewrite list_lookup_insert_ne].
    rewrite list_lookup_insert_eq by by eapply lookup_lt_Some. eexists. split; [done|]. by simplify_eq. }
  destruct (c_linked _ _ Hc) as [[r Hr] Hn Hpr]. split; [split|..].
  - exists r. intros j x y (z & Hz & _ & -> & _)%Hback. by apply Hr.
  - intros j x y (z & Hz & _ & -> & _)%Hback Hx. destruct (Hn _ _ _ Hz Hx) as (u & Hu & Hk). destruct (Hforth _ _ Hu) as (u' & Hu' & Ek & _). exists u'. by rewrite Ek.
  - intros a b x x' y (z & Hz & _ & -> & _)%Hback (z' & Hz' & _ & -> & _)%Hback. by apply Hpr.
  - intros j x (z & Hz & -> & -> & _)%Hback. by eapply c_nil.
  - intros j x Hj Hnp. destruct (Hback j x Hj) as (z & Hz & Ek & _ & Ev). rewrite Ek in Hnp. destruct (decide (j = i)) as [->|Hne]; [by simplify_eq|]. rewrite Ev by done. by eapply c_unset.
  - intros j x (z & Hz & -> & _ & _)%Hback Hpz. apply (leads_sim nodes nodes' _ id); [|by eapply c_leads]. intros a y w Ha Hw Hcl. destruct (Hforth _ _ Ha) as (y' & Hy' & Ek & En).
    eapply leads_one; [done|by rewrite En|]. intros ty p. rewrite Ek. apply Hcl.
  - intros j x (z & Hz & -> & _ & _)%Hback Hpz. destruct (c_main _ _ Hc _ _ Hz Hpz) as (mn & Hmn & Hk & Hm). destruct (Hforth _ _ Hmn) as (mn' & Hmn' & Ek & _). exists mn'. by rewrite Ek.
  - intros a b x x' (z & Hz & -> & _ & _)%Hback (z' & Hz' & -> & _ & _)%Hback. by eapply c_same.
  - intros j x (z & Hz & -> & _ & _)%Hback. by eapply c_valid.
Qed.

Lemma hash_ok_value t i n v : hash_ok t → t_node t !! i = Some n → proper (i_key n) → hash_ok (set_node i (with_val v n) t).
Proof.
  intros H Hi Hp. assert (∀ j x, <[i := with_val v n]> (t_node t) !! j = Some x → ∃ y, t_node t !! j = Some y ∧ i_key x = i_key y) as Hback.
  { intros j x. rewrite list_lookup_insert_Some. intros [(<- & <- & _)|[_ Hj]]; eauto. }
  destruct H as [Ha [Hn Hl] Hd Hc Hlf Hf Hr]. split; cbn; try done.
  - by rewrite length_insert.
  - intros Hdum. destruct (Hd Hdum) as [E _]. rewrite E in Hi. destruct i as [|i]; [cbn in Hi; by simplify_eq|done].
  - by apply chains_value.
  - intros Hdum j x Hj Hx. apply Hback in Hx as (y & Hy & ->). by eapply Hf.
  - intros j x Hx. apply Hback in Hx as (y & Hy & ->). by eapply Hr.
Qed.

(** *** Insertion with a free node *)

(** The key has the entry [m] without a value; all other entries are those of before. *)
Record placed (key : TValue) (m : nat) (t t' : Table) : Prop := {
  p_ok : hash_ok t'; p_node : ∃ n, t_node t' !! m = Some n ∧ i_key n = key ∧ i_val n = TNil;
  p_entries : entries (t_node t') ≡ₚ entries (t_node t);
  p_array : t_array t' = t_array t ∧ t_sizearray t' = t_sizearray t;
  p_size : t_lsizenode t' = t_lsizenode t ∧ t_dummy t' = t_dummy t;
  p_clean : clean (t_node t) → ∀ j n, j ≠ m → t_node t' !! j = Some n → i_val n = TNil → i_key n = TNil }.

Section place.
Context (t : Table) (H : hash_ok t) (key : TValue) (Hk : valid key) (Habs : absent key (t_node t)) (Hr : ¬ inrange (t_sizearray t) key).

#[local] Abbreviation mp := (main_of (sizenode t)).

(** Other nodes and another [lastfree], with what they must satisfy. *)
Lemma placed_nodes m nodes lf : chains mp nodes → length nodes = sizenode t → t_dummy t = false →
  (lf <= Z.of_nat (sizenode t)) → (∀ j n, lf <= Z.of_nat j → nodes !! j = Some n → i_key n ≠ TNil) →
  (∀ j n, nodes !! j = Some n → i_key n = key ∨ ∃ i n', t_node t !! i = Some n' ∧ i_key n = i_key n') →
  (∃ n, nodes !! m = Some n ∧ i_key n = key ∧ i_val n = TNil) → entries nodes ≡ₚ entries (t_node t) →
  (clean (t_node t) → ∀ j n, j ≠ m → nodes !! j = Some n → i_val n = TNil → i_key n = TNil) →
  placed key m t (with_lastfree lf (with_node nodes t)).
Proof.
  intros Hc Hl Hd Hlf Hfree Hkeys Hm He Hclean. destruct H as [Ha [Hn Hls] Hdum _ _ _ Hrange]. split; cbn; try done. split; cbn; try done.
  - rewrite Hd. done.
  - intros j n Hj Hp. destruct (Hkeys j n Hj) as [->|(i & n' & Hi & E)]; [done|]. rewrite E in Hp |- *. by eapply Hrange.
Qed.

Context (mn : Node) (Hmn : t_node t !! mp key = Some mn).

Lemma placed_main : i_val mn = TNil → t_dummy t = false → placed key (mp key) t (set_node (mp key) (with_key key mn) t).
Proof.
  intros Hv Hd. replace (set_node (mp key) (with_key key mn) t) with (with_lastfree (t_lastfree t) (with_node (put_nodes key TNil (mp key) mn (t_node t)) t)).
  2: { unfold set_node, put_nodes, with_key. rewrite Hv. by destruct t. }
  apply placed_nodes; unfold put_nodes; try done.
  - by apply chains_put; [apply H|..].
  - rewrite length_insert. apply H.
  - apply H.
  - intros j n Hj. rewrite list_lookup_insert_Some. intros [(<- & <- & _)|[_ Hn]]; [cbn; intros E; rewrite E in Hk; by destruct Hk|by eapply o_free].
  - intros j n. rewrite list_lookup_insert_Some. intros [(<- & <- & _)|[_ Hn]]; [by left|right; eauto].
  - eexists. split; [apply list_lookup_insert_eq; by eapply lookup_lt_Some|done].
  - apply (entries_same _ _ mn); [done|]. unfold ent. by rewrite Hv.
  - intros Hcl j n Hj. rewrite list_lookup_insert_ne by done. apply Hcl.
Qed.

(** With a free node [n], and no other one above it. *)
Context (Hused : i_val mn ≠ TNil) (Hd : t_dummy t = false) (n : nat) (nn : Node) (Hn : t_node t !! n = Some nn) (Hfree : i_key nn = TNil).
Context (Habove : ∀ j x, Z.of_nat n < Z.of_nat j → t_node t !! j = Some x → i_key x ≠ TNil).

Lemma main_proper : proper (i_key mn).
Proof. by eapply used_proper. Qed.

Lemma free_unset : i_val nn = TNil ∧ n_next nn = None.
Proof. split; [eapply c_unset; [apply H|done|by rewrite Hfree; intros []]|by eapply c_nil; [apply H|..]]. Qed.

Lemma main_not_free : mp key ≠ n.
Proof. intros E. pose proof main_proper as Hp. assert (mn = nn) as Em by congruence. by rewrite Em, Hfree in Hp. Qed.

Lemma key_not_nil : key ≠ TNil.
Proof. intros E. rewrite E in Hk. by destruct Hk. Qed.

Lemma n_bound : Z.of_nat n <= Z.of_nat (sizenode t).
Proof. pose proof (lookup_lt_Some _ _ _ Hn). rewrite (proj1 (o_node _ H)) in *. lia. Qed.

Lemma placed_behind : mp (i_key mn) = mp key →
  ∃ t', chain_key key (mp key) n (with_lastfree (Z.of_nat n) t) = LOk (n, t') ∧ ∃ t'', write_key n key t' = LOk (NodeSlot n, t'') ∧ placed key n t t''.
Proof.
  intros Hown. unfold chain_key, mainposition. cbn [with_lastfree t_node]. rewrite Hmn. cbn [lopt mbind lres_mbind lua_bind].
  change (sizenode (with_lastfree (Z.of_nat n) t)) with (sizenode t). rewrite Hown, Nat.eqb_refl. cbn [negb]. unfold set_next. cbn [with_lastfree t_node]. rewrite Hn. cbn [lopt mbind lres_mbind lua_bind].
  cbn [set_node with_node with_lastfree t_node]. rewrite list_lookup_insert_ne by (apply not_eq_sym, main_not_free). rewrite Hmn. cbn [lopt mbind lres_mbind lua_bind].
  eexists. split; [done|]. unfold write_key. cbn [set_node with_node with_lastfree t_node]. rewrite list_lookup_insert_ne by apply main_not_free.
  rewrite list_lookup_insert_eq by by eapply lookup_lt_Some. cbn [lopt mbind lres_mbind lua_bind]. eexists. split; [done|]. destruct free_unset as [Hvn Hxn].
  set (nodes := pushed_nodes key TNil (mp key) n mn (t_node t)).
  match goal with |- placed _ _ _ ?x => replace x with (with_lastfree (Z.of_nat n) (with_node nodes t)) end.
  2: { unfold set_node, nodes, pushed_nodes, with_key, with_next, with_node, with_lastfree. cbn. rewrite Hvn. f_equal.
    rewrite (list_insert_insert_ne _ n (mp key)) by (apply not_eq_sym, main_not_free). by rewrite list_insert_insert_eq. }
  apply placed_nodes; try done.
  - eapply chains_pushed; [apply H|done|done|done|exact main_proper|done|done|done|done].
  - unfold nodes, pushed_nodes. rewrite !length_insert. apply H.
  - apply n_bound.
  - intros j x Hj. unfold nodes, pushed_nodes. rewrite !list_lookup_insert_Some. intros [(<- & <- & _)|[Hj1 [(<- & <- & _)|[Hj2 Hx]]]]; cbn.
    + apply proper_not_nil, main_proper.
    + apply key_not_nil.
    + apply (Habove j); [lia|done].
  - intros j x. unfold nodes, pushed_nodes. rewrite !list_lookup_insert_Some. intros [(<- & <- & _)|[Hj1 [(<- & <- & _)|[Hj2 Hx]]]]; [right; by exists (mp key), mn|by left|right; eauto].
  - unfold nodes, pushed_nodes. rewrite list_lookup_insert_ne by apply main_not_free. rewrite list_lookup_insert_eq by by eapply lookup_lt_Some. by eexists.
  - unfold nodes, pushed_nodes. rewrite (entries_same _ (mp key) mn); [|by rewrite list_lookup_insert_ne by (apply not_eq_sym, main_not_free)|done].
    apply (entries_same _ n nn); [done|]. unfold ent. by rewrite Hvn.
  - intros Hcl j x Hjn. unfold nodes, pushed_nodes. rewrite !list_lookup_insert_Some. intros [(<- & <- & _)|[Hj1 [(<- & <- & _)|[Hj2 Hx]]]] Hvx; [by apply (Hcl (mp key) mn)|done|by eapply Hcl].
Qed.

Lemma placed_displacing : mp (i_key mn) ≠ mp key →
  ∃ t', chain_key key (mp key) n (with_lastfree (Z.of_nat n) t) = LOk (mp key, t') ∧ ∃ t'', write_key (mp key) key t' = LOk (NodeSlot (mp key), t'') ∧ placed key (mp key) t t''.
Proof.
  intros Hother. unfold chain_key, mainposition, find_prev_node. cbn [with_lastfree t_node]. rewrite Hmn. cbn [lopt mbind lres_mbind lua_bind].
  change (sizenode (with_lastfree (Z.of_nat n) t)) with (sizenode t). destruct (Nat.eqb_spec (mp (i_key mn)) (mp key)) as [|_]; [done|]. cbn [negb].
  pose proof (c_leads _ _ (o_chains _ H) _ _ Hmn main_proper) as Hl.
  destruct (find_prev_total (t_node t) (c_linked _ _ (o_chains _ H)) (mp (i_key mn)) (mp key)) as [[prev|] Er]; [by eapply leads_in| |by apply (find_prev_none _ _ _ _ Hl) in Er].
  rewrite Er. destruct (find_prev_some _ _ _ _ _ Er) as (np & Hp & Hpx). cbn [mbind lres_mbind lua_bind]. unfold set_next. cbn [with_lastfree t_node]. rewrite Hp. cbn [lopt mbind lres_mbind lua_bind].
  assert (prev ≠ mp key) as Hpm. { intros E. assert (np = mn) as Ep by congruence. rewrite Ep in Hpx. destruct (l_falls _ (c_linked _ _ (o_chains _ H))) as [r Hfall]. specialize (Hfall _ _ _ Hmn Hpx). lia. }
  destruct free_unset as [Hvn Hxn]. assert (prev ≠ n) as Hpn by (intros E; assert (np = nn) as Ep by congruence; by rewrite Ep, Hxn in Hpx).
  cbn [set_node with_node with_lastfree t_node]. rewrite list_lookup_insert_ne, Hmn by done. cbn [lopt mbind lres_mbind lua_bind]. eexists. split; [done|].
  unfold write_key. cbn [set_node with_node with_lastfree t_node]. assert (mp key < length (t_node t))%nat as Hlt by by eapply lookup_lt_Some.
  rewrite list_lookup_insert_eq by by rewrite !length_insert. cbn [lopt mbind lres_mbind lua_bind]. eexists. split; [done|].
  set (nodes := displaced_nodes key TNil (mp key) n prev mn np (t_node t)).
  match goal with |- placed _ _ _ ?x => replace x with (with_lastfree (Z.of_nat n) (with_node nodes t)) end.
  2: { unfold set_node, nodes, displaced_nodes, with_key, with_next, with_node, with_lastfree. cbn. f_equal. by rewrite list_insert_insert_eq. }
  pose proof main_not_free as Hmf. apply placed_nodes; try done.
  - eapply chains_displaced; [apply H|done|done|done|exact main_proper|done|exact Hn|done|exact Hp|done|done].
  - unfold nodes, displaced_nodes. rewrite !length_insert. apply H.
  - apply n_bound.
  - intros j x Hj. unfold nodes, displaced_nodes. rewrite !list_lookup_insert_Some. intros [(<- & <- & _)|[Hj1 [(<- & <- & _)|[Hj2 [(<- & <- & _)|[Hj3 Hx]]]]]]; cbn.
    + apply key_not_nil.
    + apply proper_not_nil, main_proper.
    + apply (Habove prev); [lia|done].
    + apply (Habove j); [lia|done].
  - intros j x. unfold nodes, displaced_nodes. rewrite !list_lookup_insert_Some.
    intros [(<- & <- & _)|[Hj1 [(<- & <- & _)|[Hj2 [(<- & <- & _)|[Hj3 Hx]]]]]]; [by left|right; by exists (mp key), mn|right; by exists prev, np|right; eauto].
  - unfold nodes, displaced_nodes. rewrite list_lookup_insert_eq by by rewrite !length_insert. by eexists.
  - unfold nodes, displaced_nodes. rewrite (entries_swap (<[prev := with_next (Some n) np]> (t_node t)) n (mp key) nn mn (NodeOf TNil key None) mn);
      [by apply (entries_same _ prev np)|done|by rewrite list_lookup_insert_ne|by rewrite list_lookup_insert_ne|unfold ent; by rewrite Hvn|done].
  - intros Hcl j x Hjm. unfold nodes, displaced_nodes. rewrite !list_lookup_insert_Some.
    intros [(<- & <- & _)|[Hj1 [(<- & <- & _)|[Hj2 [(<- & <- & _)|[Hj3 Hx]]]]]] Hvx; [done..|by apply (Hcl prev np)|by eapply Hcl].
Qed.
End place.

(** A node that was never used. *)
Definition has_free (nodes : list Node) : Prop := ∃ j n, nodes !! j = Some n ∧ i_key n = TNil.

Lemma newkey_free t key fuel : hash_ok t → valid key → absent key (t_node t) → ¬ inrange (t_sizearray t) key → t_dummy t = false → has_free (t_node t) →
  ∃ m t', newkey (S fuel) key t = LOk (NodeSlot m, t') ∧ placed key m t t'.
Proof.
  intros H Hk Habs Hr Hd (f & nf & Hf & Hkf). cbn [newkey]. unfold mainposition.
  destruct (lookup_lt_is_Some_2 (t_node t) (main_of (sizenode t) key)) as [mn Hmn]; [rewrite (proj1 (o_node _ H)); apply main_lt|]. rewrite Hmn. cbn [lopt mbind lres_mbind lua_bind].
  rewrite Hd, orb_false_r. destruct (ttisnil (i_val mn)) eqn:Ev; cbn [negb].
  { unfold write_key. rewrite Hmn. cbn. do 2 eexists. split; [done|]. apply placed_main; try done. by destruct (i_val mn). }
  assert (i_val mn ≠ TNil) as Hv by (by intros E; rewrite E in Ev). unfold getfreepos.
  destruct (free_below_ok (t_node t) (Z.to_nat (t_lastfree t))) as (r & -> & Hfree); [pose proof (o_lastfree _ H); rewrite (proj1 (o_node _ H)); lia|]. cbn [mbind lres_mbind lua_bind].
  destruct r as [n|].
  2: { exfalso. destruct (decide (Z.of_nat f < t_lastfree t)); [by apply (Hfree f nf); [lia|..]|]. by apply (o_free _ H Hd f nf); [lia|..]. }
  destruct Hfree as (Hn & (nn & Hnn & Hkn) & Habove).
  assert (∀ j x, Z.of_nat n < Z.of_nat j → t_node t !! j = Some x → i_key x ≠ TNil) as Habove'.
  { intros j x Hj Hx. destruct (decide (Z.of_nat j < t_lastfree t)); [apply (Habove j x); [lia|done]|]. apply (o_free _ H Hd j x); [lia|done]. }
  destruct (decide (main_of (sizenode t) (i_key mn) = main_of (sizenode t) key)) as [Hown|Hother].
  - destruct (placed_behind t H key Hk Habs Hr mn Hmn Hv Hd n nn Hnn Hkn Habove' Hown) as (t' & -> & t'' & E & Hp). cbn. rewrite E. eauto.
  - destruct (placed_displacing t H key Hk Habs Hr mn Hmn Hv Hd n nn Hnn Hkn Habove' Hother) as (t' & -> & t'' & E & Hp). cbn. rewrite E. eauto.
Qed.
End new.

(** ** Tables that grow

    [resize] gives a table of other sizes with the same pairs; [newkey] with a rehash, and an assignment to any key. *)

Lemma filter_le {X} (P Q : X → Prop) `{∀ x, Decision (P x)} `{∀ x, Decision (Q x)} (l : list X) : (∀ x, x ∈ l → P x → Q x) → (length (filter P l) <= length (filter Q l))%nat.
Proof.
  induction l as [|x l IH]; intros H1; [done|]. rewrite !filter_cons. specialize (IH (λ y Hy, H1 y (list_elem_of_further _ _ _ Hy))). pose proof (H1 x (list_elem_of_here _ _)).
  repeat case_decide; cbn; try lia. tauto.
Qed.

Lemma filter_every {X} (P : X → Prop) `{∀ x, Decision (P x)} (l : list X) : (∀ x, x ∈ l → P x) → filter P l = l.
Proof.
  induction l as [|x l IH]; intros H1; [done|]. rewrite filter_cons, decide_True by (apply H1; left). f_equal. apply IH. intros y Hy. apply H1. by right.
Qed.

Section grow.
Context {M : Machine}.

(** *** Back from the array to the hash part *)

(** The table while the array shrinks to [t_sizearray]: [A] is the array, from [i] on its values are still to be inserted. *)
Record shrinking (A : list TValue) (l : list pair) (i : nat) (t : Table) : Prop := {
  g_ok : hash_ok t; g_array : t_array t = A; g_dummy : t_dummy t = false; g_clean : clean (t_node t); g_low : (t_sizearray t <= i)%nat;
  g_pairs : pairs t ++ arr i (drop i A) ≡ₚ l;
  g_room : (length (entries (t_node t)) + length (arr i (drop i A)) <= sizenode t)%nat }.

Lemma clean_absent t key l : hash_ok t → clean (t_node t) → keys_ok ((key, TNil) :: l) → (∀ e, e ∈ entries (t_node t) → e ∈ l) → absent key (t_node t).
Proof.
  intros H Hcl [[Hap _]%apart_cons _] Hin j n Hn Hp Hs. rewrite Forall_forall in Hap. assert (i_val n ≠ TNil) as Hv by (intros E; apply (Hcl j n Hn) in E; by rewrite E in Hp).
  by apply (Hap (i_key n, i_val n)); [apply Hin, (elem_of_entries _ j)|].
Qed.

Lemma has_free_exists nodes : has_free nodes ↔ Exists (λ n, i_key n = TNil) nodes.
Proof.
  rewrite Exists_exists. split; [intros (j & n & Hj & Hk); exists n; split; [by eapply list_elem_of_lookup_2|done]|].
  intros (n & [j Hj]%list_elem_of_lookup & Hk). by exists j, n.
Qed.

#[local] Instance has_free_dec nodes : Decision (has_free nodes).
Proof. destruct (decide (Exists (λ n, i_key n = TNil) nodes)) as [H|H]; [left|right]; by rewrite has_free_exists. Defined.

Lemma clean_free t : hash_ok t → clean (t_node t) → (length (entries (t_node t)) < sizenode t)%nat → has_free (t_node t).
Proof.
  intros H Hcl Hlt. destruct (decide (has_free (t_node t))) as [|He]; [done|].
  - exfalso. rewrite has_free_exists in He. rewrite <- Forall_Exists_neg in He. rewrite Forall_forall in He.
    pose proof (entries_full (λ _, True) (λ _, left I) (t_node t)) as Hf. rewrite filter_every in Hf by done. rewrite Hf in Hlt; [rewrite (proj1 (o_node _ H)) in Hlt; lia|].
    intros j n Hn. split; [done|]. intros E. apply (He n); [by eapply list_elem_of_lookup_2|by eapply Hcl].
Qed.

Lemma reinsert_ok A l fuel i t : keys_ok l → Z.of_nat (length A) <= MAXASIZE → (i < length A)%nat → shrinking A l i t →
  ∃ t', reinsert (newkey (S fuel)) t i = LOk t' ∧ shrinking A l (S i) t' ∧ t_sizearray t' = t_sizearray t ∧ t_lsizenode t' = t_lsizenode t.
Proof.
  intros Hkeys HA Hi [H Harr Hd Hcl Hlow Hpairs Hroom]. unfold reinsert. destruct (lookup_lt_is_Some_2 A i Hi) as [v Hv]. rewrite Harr, Hv. cbn [lopt mbind lres_mbind lua_bind].
  assert (Z.of_nat i + 1 <= 2 ^ 26) as Hib by (unfold MAXASIZE in HA; lia). pose proof (drop_S _ _ _ Hv) as Hdrop. rewrite Hdrop in Hpairs, Hroom. cbn [arr] in Hpairs, Hroom. rewrite length_app in Hroom.
  unfold arr_ent in Hpairs, Hroom. destruct (ttisnil v) eqn:Ev.
  { exists t. split; [done|]. split; [|done]. split; try done. lia. }
  set (k := Z.of_nat i + 1) in *. assert (k = Z.of_nat i + 1) as Ek by done. clearbody k. set (key := TNumber (cast_num k)) in *.
  assert (valid key) as Hkv by (apply cast_num_valid; lia). assert (¬ inrange (t_sizearray t) key) as Hr by (unfold inrange, key; rewrite arrayindex_cast by lia; lia).
  assert ((key, v) :: pairs t ++ arr (S i) (drop (S i) A) ≡ₚ l) as Hl by (rewrite <- Hpairs; solve_Permutation).
  assert (absent key (t_node t)) as Habs.
  { apply (clean_absent t key (pairs t ++ arr (S i) (drop (S i) A))); [done|done| |intros e He; apply elem_of_app; left; apply elem_of_app; by right].
    rewrite <- Hl in Hkeys. destruct Hkeys as [Ha Hvl]. split; [|by constructor; [|apply Forall_cons in Hvl as [_ ?]]]. apply apart_cons in Ha as [Hf Ha]. by apply apart_cons. }
  unfold luaH_setnum_with. destruct (luaH_getnum_ok t k H ltac:(lia)) as (s & -> & Hs). cbn [mbind lres_mbind lua_bind]. fold key in Hs |- *.
  destruct s as [|j|j]; [|by destruct Hs|destruct Hs as (n & Hn & Hp & He); destruct (Habs j n Hn Hp); left; by rewrite rawequal_comm].
  cbn [set_with]. cbn [length] in Hroom. destruct (newkey_free t key fuel H Hkv Habs Hr Hd) as (m & t' & -> & Hp); [apply clean_free; [done|done|lia]|].
  cbn [mbind lres_mbind lua_bind slot_set]. destruct (p_node _ _ _ _ Hp) as (n & Hn & Hnk & Hnv). rewrite Hn. cbn [mbind option_bind lopt].
  assert (proper (i_key n)) as Hpn by by rewrite Hnk. eexists. split; [done|]. destruct (p_array _ _ _ _ Hp) as [Ea Esz], (p_size _ _ _ _ Hp) as [Els Ed].
  pose proof (entries_insert (t_node t') m n (with_val v n) Hn) as Hent. unfold ent in Hent. cbn [i_val i_key with_val] in Hent. rewrite Hnv, Hnk, Ev, (p_entries _ _ _ _ Hp) in Hent. cbn [ttisnil app] in Hent.
  split; [|by cbn]. split.
  - by apply hash_ok_value; [apply Hp|..].
  - cbn. congruence.
  - cbn. congruence.
  - intros j x. cbn. rewrite list_lookup_insert_Some. intros [(<- & <- & _)|[Hne Hx]] Hvx; [cbn in Hvx; subst v; done|]. by eapply (p_clean _ _ _ _ Hp Hcl).
  - cbn. lia.
  - unfold pairs, arr_pairs. cbn [with_node t_node t_array t_sizearray]. rewrite Hent, Ea, Esz, <- Hl. unfold pairs, arr_pairs. solve_Permutation.
  - cbn [with_node t_node]. rewrite Hent. unfold sizenode. cbn [with_node t_lsizenode]. rewrite Els. fold (sizenode t). cbn [length]. lia.
Qed.

Lemma reinsert_loop A l fuel : keys_ok l → Z.of_nat (length A) <= MAXASIZE → ∀ k i t, (i + k = length A)%nat → shrinking A l i t →
  ∃ t', each (reinsert (newkey (S fuel))) (seq i k) t = LOk t' ∧ shrinking A l (length A) t' ∧ t_sizearray t' = t_sizearray t ∧ t_lsizenode t' = t_lsizenode t.
Proof.
  intros Hkeys HA. induction k as [|k IH]; intros i t Hik H.
  - exists t. split; [done|]. by replace (length A) with i by lia.
  - cbn [seq each]. destruct (reinsert_ok A l fuel i t Hkeys HA ltac:(lia) H) as (t1 & -> & H1 & Es & El). cbn [mbind lres_mbind lua_bind].
    destruct (IH (S i) t1 ltac:(lia) H1) as (t' & -> & H' & Es' & El'). exists t'. split; [done|]. split; [done|]. split; congruence.
Qed.

(** *** Resizing *)

(** A table of other sizes, with room for a number of keys in the hash part. *)
Record resized (na nh : nat) (t t' : Table) : Prop := {
  r_ok : table_ok t'; r_array : t_sizearray t' = na; r_dummy : t_dummy t' = false; r_clean : clean (t_node t');
  r_pairs : pairs t' ≡ₚ pairs t; r_room : (nh <= sizenode t')%nat }.

Lemma rebuilt_ok l t t' na : (l <= 26)%nat → rebuilt l t t' → arraysize_ok t → (na <= t_sizearray t)%nat → hash_ok (with_sizearray na t').
Proof.
  intros Hl [Hls Hn Hd Hlast Hc Hcl Hr Hp [Hs Ha]] [Hsz Hm] Hna. assert (sizenode t' = twoto l) as Esz by (unfold sizenode; by rewrite Hls). 
  assert (sizenode (with_sizearray na t') = twoto l) as Esz' by exact Esz. split; rewrite ?Esz'; cbn [with_sizearray t_sizearray t_array t_node t_dummy t_lastfree t_lsizenode]; try done.
  - split; cbn; lia.
  - split; [done|lia].
  - by rewrite Hd.
  - lia.
  - intros _ j n Hj Hx%lookup_lt_Some. lia.
  - intros j n Hj Hp' Hin. apply (Hr (i_key n, i_val n)).
    + apply (elem_of_entries _ j); [done|]. intros E. apply (Hcl j n Hj) in E. by rewrite E in Hp'.
    + unfold inrange in *. cbn [fst]. lia.
Qed.

Lemma setarray_pairs t na : length (t_array t) = t_sizearray t → (t_sizearray t <= na)%nat →
  pairs (setarrayvector na t) = pairs t ∧ length (t_array (setarrayvector na t)) = na.
Proof.
  intros Ha Hna. unfold pairs, arr_pairs, setarrayvector. cbn. rewrite !take_ge by (rewrite ?length_take, ?length_app, ?length_replicate, ?length_take; lia). split.
  - f_equal. by rewrite arr_app, arr_nil, app_nil_r.
  - rewrite length_app, length_replicate. lia.
Qed.

Lemma resize_ok fuel na nh t : table_ok t → Z.of_nat na <= MAXASIZE → Z.of_nat nh <= MAXASIZE →
  (length (filter (λ e, ¬ inrange na e.1) (pairs t)) <= nh)%nat → ∃ t', resize (newkey (S fuel)) na nh t = LOk t' ∧ resized na nh t t'.
Proof.
  intros [H Ha] Hna Hnh Hroom. destruct (o_array _ H) as [_ Hm]. unfold resize.
  set (t1 := if (t_sizearray t <? na)%nat then setarrayvector na t else t). set (big := Nat.max (t_sizearray t) na).
  assert (pairs t1 = pairs t ∧ length (t_array t1) = big ∧ t_sizearray t1 = big ∧ t_node t1 = t_node t ∧ t_lsizenode t1 = t_lsizenode t ∧ t_dummy t1 = t_dummy t) as (Ep & Eal & Es & En & El & Ed).
  { unfold t1, big. destruct (Nat.ltb_spec (t_sizearray t) na); [destruct (setarray_pairs t na Ha ltac:(lia)) as [E1 E2]; rewrite E1, E2|]; split_and!; try done; cbn; lia. }
  assert (arraysize_ok t1) as Hsz1 by (split; [lia|unfold big in Es; lia]).
  destruct (resize_hashpart_ok nh t1) as (l & t2 & -> & [Hl Hnl] & Hb); try done.
  - rewrite Ep. by apply table_keys_ok.
  - rewrite En. unfold sizenode. rewrite El. apply H.
  - rewrite El. apply H.
  - rewrite Ed, En. intros Hd. by apply H.
  - etrans; [|exact Hroom]. rewrite <- Ep. unfold pairs. rewrite filter_app, length_app. etrans; [|apply Nat.le_add_l]. apply filter_le. intros e _. unfold inrange. rewrite Es. unfold big. lia.
  - cbn [mbind lres_mbind lua_bind]. pose proof Hb as [Hls Hn Hd Hlast Hc Hcl Hr Hp [Hs2 Ha2]]. rewrite Ep in Hp.
    pose proof (table_keys_ok t H) as Hkeys. destruct (Nat.ltb_spec na (t_sizearray t)) as [Hshrink|Hgrow].
    + assert (big = t_sizearray t) as Hbig by (unfold big; lia). set (A := t_array t2). assert (length A = t_sizearray t) as HA by (unfold A; congruence).
      assert (arr_pairs t2 = arr 0 (take na A) ++ arr na (drop na A)) as Earr.
      { unfold arr_pairs. rewrite Hs2, Es, Hbig, <- HA. fold A. rewrite take_ge by lia. rewrite <- (take_drop na A) at 1. rewrite arr_app, length_take. do 2 f_equal. lia. }
      assert (hash_ok (with_sizearray na t2)) as Hok by (eapply rebuilt_ok; [done|done|done|lia]).
      assert (pairs (with_sizearray na t2) ++ arr na (drop na A) ≡ₚ pairs t) as Hpairs.
      { rewrite <- Hp. unfold pairs. rewrite Earr. unfold arr_pairs. cbn [with_sizearray t_array t_sizearray t_node]. fold A. solve_Permutation. }
      destruct (reinsert_loop A (pairs t) fuel Hkeys) with (k := (t_sizearray t - na)%nat) (i := na) (t := with_sizearray na t2) as (t3 & -> & [H3 Ha3 Hd3 Hcl3 _ Hp3 _] & Es3 & El3); [lia|lia| |].
      * split; try done. rewrite <- Hp in Hroom. unfold pairs in Hroom. rewrite Earr, !filter_app, !length_app in Hroom.
        rewrite (filter_every _ (arr na (drop na A))), (filter_every _ (entries (t_node t2))) in Hroom.
        -- unfold sizenode. cbn [with_sizearray t_lsizenode t_node]. rewrite Hls. lia.
        -- intros e He%Hr. unfold inrange in *. lia.
        -- intros e (j & Hj & _ & _ & Ek)%arr_in. rewrite length_drop in Hj. unfold inrange. unfold MAXASIZE in Hm. rewrite Ek, arrayindex_cast by lia. lia.
      * cbn [mbind lres_mbind lua_bind]. cbn [with_sizearray t_sizearray] in Es3. eexists. split; [done|].
        rewrite drop_ge in Hp3 by lia. cbn [arr] in Hp3. rewrite app_nil_r in Hp3. rewrite Ha3.
        assert (arr_pairs (with_array (take na A) t3) = arr_pairs t3) as Etake.
        { unfold arr_pairs. cbn [with_array t_array t_sizearray]. rewrite Es3, Ha3. by rewrite take_take, Nat.min_id. }
        split; try done.
        -- split; [|cbn; rewrite length_take; lia]. destruct H3 as [[HA1 HA2] Hn3 Hd3' Hc3 Hlf3 Hf3 Hr3]. split; try done. split; cbn; rewrite ?length_take; lia.
        -- unfold pairs. rewrite Etake. exact Hp3.
        -- unfold sizenode. cbn [with_array t_lsizenode]. rewrite El3. cbn [with_sizearray t_lsizenode]. by rewrite Hls.
    + assert (big = na) as Hbig by (unfold big; lia). exists t2. split; [done|]. assert (hash_ok (with_sizearray na t2)) as Hok by (eapply rebuilt_ok; [done|done|done|lia]).
      assert (with_sizearray na t2 = t2) as E2 by (destruct t2; cbn in *; unfold with_sizearray; cbn; congruence). rewrite E2 in Hok. split; try done.
      * split; [done|]. congruence.
      * congruence.
      * unfold sizenode. by rewrite Hls.
Qed.

(** *** Any new key *)

(** Half of the nodes that there can be at most may be in use. *)
Definition entries_max (t : Table) : Prop := Z.of_nat (length (pairs t)) < MAXASIZE.

(** After [newkey] the key has a place without a value, in the array or in a node, and the other pairs are those of before. *)
Record entered (key : TValue) (s : slot) (t t' : Table) : Prop := {
  e_ok : table_ok t'; e_found : found t' key s; e_place : s ≠ Nilobject; e_pairs : pairs t' ≡ₚ pairs t }.

Lemma placed_entered key m t t' : valid key → table_ok t → placed key m t t' → entered key (NodeSlot m) t t'.
Proof.
  intros Hk [H Ha] Hp. destruct (p_array _ _ _ _ Hp) as [Ea Es]. split.
  - split; [apply Hp|congruence].
  - destruct (p_node _ _ _ _ Hp) as (n & Hn & Hnk & _). exists n. rewrite Hnk. split_and!; [done|apply Hk|apply Hk].
  - done.
  - unfold pairs, arr_pairs. rewrite Ea, Es. by rewrite (p_entries _ _ _ _ Hp).
Qed.

Lemma table_ok_flags t f : table_ok t → table_ok (with_flags f t).
Proof. intros [[] ?]. by split; [split|]. Qed.

(** A rehash, and the insertion into the table that it leaves. *)
Lemma rehashed fuel t t1 key : table_ok t1 → valid key → absent key (t_node t1) → ¬ inrange (t_sizearray t1) key → entries_max t1 → pairs t1 = pairs t →
  ∃ s t', (t ← rehash (newkey (S fuel)) key t1; luaH_set_with (newkey (S fuel)) key t) = LOk (s, t') ∧ entered key s t t'.
Proof.
  intros [H Ha] Hk Habs Hr Hmax Ept. destruct (rehash_sizes (newkey (S fuel)) key t1 H Ha Hk Habs Hr) as (n & -> & Hb & Hkeys). set (na := Z.to_nat n).
  set (nh := length (filter (λ e, ¬ inrange na e.1) ((key, TNil) :: pairs t1))). assert (Z.of_nat na <= MAXASIZE) as Hna.
  { destruct Hb as [[->|(p & Hp & -> & _)] _]; [done|]. unfold na, MAXASIZE. rewrite Z2Nat.id by (by apply Z.pow_nonneg). apply Z.pow_le_mono_r; lia. }
  assert (Z.of_nat nh <= MAXASIZE) as Hnh. { unfold entries_max in Hmax. pose proof (length_filter (λ e, ¬ inrange na e.1) ((key, TNil) :: pairs t1)) as Hf. cbn [length] in Hf. unfold nh. lia. }
  assert ((if decide (inrange na key) then 0 else 1) + length (filter (λ e, ¬ inrange na e.1) (pairs t1)) = nh)%nat as Enh.
  { unfold nh. rewrite filter_cons. cbn [fst]. destruct (decide (inrange na key)); [rewrite decide_False by tauto|rewrite decide_True by done]; done. }
  destruct (resize_ok fuel na nh t1 (conj H Ha) Hna Hnh) as (t2 & -> & [[H2 Ha2] Es2 Hd2 Hcl2 Hp2 Hroom2]); [lia|]. cbn [mbind lres_mbind lua_bind].
  unfold luaH_set_with. destruct (luaH_get_ok t2 key H2 (or_introl (proj1 Hk))) as (s & -> & Hs). cbn [mbind lres_mbind lua_bind].
  pose proof (table_ok_flags t2 0 (conj H2 Ha2)) as [H3 Ha3]. destruct s as [|i|i].
  - destruct Hs as [Hr2 _]. rewrite Es2 in Hr2. rewrite decide_False in Enh by done.
    assert (absent key (t_node (with_flags 0 t2))) as Habs2.
    { apply (clean_absent _ key (pairs t1)); [done|done|done|]. intros e He. rewrite <- Hp2. apply elem_of_app. by right. }
    assert (has_free (t_node (with_flags 0 t2))) as Hfree.
    { apply clean_free; [done|done|]. change (sizenode (with_flags 0 t2)) with (sizenode t2). cbn [with_flags t_node]. rewrite <- Hp2 in Enh. unfold pairs in Enh. rewrite filter_app, length_app in Enh.
      rewrite (filter_every _ (entries (t_node t2))) in Enh; [lia|]. intros e (j & x & Hx & Hvx & ->)%entries_elem_of. rewrite <- Es2. cbn. eapply o_range; [apply H2|done|by eapply used_proper]. }
    destruct (newkey_free (with_flags 0 t2) key fuel H3 Hk Habs2) as (m & t3 & E & Hp3); [by cbn; rewrite Es2|done|done|]. exists (NodeSlot m), t3.
    assert (entered key (NodeSlot m) t t3) as Hent. { destruct (placed_entered key m _ _ Hk (conj H3 Ha3) Hp3) as [Hok3 Hf3 Hn3 Hpp3]. split; try done. by rewrite Hpp3, <- Ept, <- Hp2. }
    split; [|done]. destruct key as [| |x| | |]; try done; [by destruct Hk|]. destruct Hk as (_ & Hkk & _). cbn in Hkk. by rewrite Hkk.
  - exists (ArraySlot i), (with_flags 0 t2). split; [done|]. split; [done|done|done|by rewrite <- Ept, <- Hp2].
  - exists (NodeSlot i), (with_flags 0 t2). split; [done|]. split; [done|done|done|by rewrite <- Ept, <- Hp2].
Qed.

Lemma newkey_ok fuel t key : table_ok t → valid key → absent key (t_node t) → ¬ inrange (t_sizearray t) key → entries_max t →
  ∃ s t', newkey (S (S fuel)) key t = LOk (s, t') ∧ entered key s t t'.
Proof.
  intros Hok Hk Habs Hr Hmax. pose proof Hok as [H Ha]. destruct (decide (has_free (t_node t) ∧ t_dummy t = false)) as [[Hfree Hd]|Hfull].
  { destruct (newkey_free t key (S fuel) H Hk Habs Hr Hd Hfree) as (m & t' & -> & Hp). do 2 eexists. split; [done|]. by apply placed_entered. }
  remember (S fuel) as fuel' eqn:Ef. cbn [newkey]. unfold mainposition. destruct (lookup_lt_is_Some_2 (t_node t) (main_of (sizenode t) key)) as [mn Hmn]; [rewrite (proj1 (o_node _ H)); apply main_lt|].
  rewrite Hmn. cbn [lopt mbind lres_mbind lua_bind]. destruct (negb (ttisnil (i_val mn)) || t_dummy t) eqn:Eb.
  2: { apply orb_false_iff in Eb as [Ev%negb_false_iff Hd]. unfold write_key. rewrite Hmn. cbn. do 2 eexists. split; [done|]. apply placed_entered; [done|done|]. apply placed_main; try done. by destruct (i_val mn). }
  assert (getfreepos t = LOk (None, with_lastfree (Z.min (t_lastfree t) 0 - 1) t)) as ->.
  { unfold getfreepos. destruct (free_below_ok (t_node t) (Z.to_nat (t_lastfree t))) as (r & -> & Hfr); [pose proof (o_lastfree _ H); rewrite (proj1 (o_node _ H)); lia|].
    cbn [mbind lres_mbind lua_bind]. destruct r as [n|]; [|done]. destruct Hfr as (Hn & (nn & Hnn & Hkn) & _). destruct (t_dummy t) eqn:Hd.
    - destruct (o_dummy _ H Hd). lia.
    - destruct Hfull. split; [by exists n, nn|done]. }
  cbn [mbind lres_mbind lua_bind]. set (t1 := with_lastfree (Z.min (t_lastfree t) 0 - 1) t).
  assert (table_ok t1) as Hok1.
  { split; [|done]. destruct H as [? ? Hdum ? Hlf Hfr ?]. split; cbn; try done.
    - intros Hd. destruct (Hdum Hd). split; [done|lia].
    - lia.
    - intros Hd j n _ Hn Hkn. apply Hfull. split; [by exists j, n|done]. }
  subst fuel'. by apply rehashed.
Qed.
End grow.
