(* ===== verification/TableSpec.v ===== *)
(** * The contract of a table

    Any sequence of assignments, of growths of the array part and of collections is a sequence of updates of a map. *)
From S2P Require Import Prelude LuaNum LuaApi LuaTable TableChain TableSize TableResize TableGrow.

Section spec.
Context {M : Machine}.

(** ** Assignments *)

Lemma found_absent t key : hash_ok t → valid key → found t key Nilobject → absent key (t_node t).
Proof.
  intros H Hk [_ Hno] j n Hn Hp Hs. apply same_valid in Hs; [|done|by eapply c_valid; [apply H|..]]. rewrite rawequal_comm in Hs. by rewrite (Hno j n Hn Hp) in Hs.
Qed.

(** A key that was found, or gets a place. *)
Lemma set_with_ok t key s : table_ok t → valid key → entries_max t → found t key s →
  ∃ s' t', set_with (newkey depth) s key t = LOk (s', t') ∧ entered key s' t t'.
Proof.
  intros Hok Hk Hmax Hs. destruct s as [|i|i]; [|by exists (ArraySlot i), t|by exists (NodeSlot i), t].
  pose proof (found_absent t key (proj1 Hok) Hk Hs) as Habs. destruct Hs as [Hr _]. by apply (newkey_ok 1).
Qed.

Lemma luaH_set_ok t key : table_ok t → valid key → entries_max t → ∃ s t', luaH_set key t = LOk (s, t') ∧ entered key s t t'.
Proof.
  intros Hok Hk Hmax. unfold luaH_set, luaH_set_with. destruct (luaH_get_ok t key (proj1 Hok) (or_introl (proj1 Hk))) as (s & -> & Hs). cbn [mbind lres_mbind lua_bind].
  destruct (set_with_ok (with_flags 0 t) key s) as (s' & t' & E & He); [by apply table_ok_flags|done|done|by destruct s|]. exists s', t'.
  assert (entered key s' t t') as He' by (destruct He as [? ? ? Hp]; by split). split; [|done]. rewrite <- E. destruct s as [|i|i]; [|done..].
  destruct key as [| |x| | |]; try done; [by destruct Hk|]. destruct Hk as (_ & Hkk & _). cbn in Hkk. by rewrite Hkk.
Qed.

(** Nil and what is not a number are refused as keys. *)
Lemma luaH_set_nil t : luaH_set TNil t = LErr (ascii_bytes "table index is nil").
Proof. done. Qed.

Lemma luaH_set_nan t n : table_ok t → num_eqb n n = false → luaH_set (TNumber n) t = LErr (ascii_bytes "table index is NaN").
Proof.
  intros Hok Hn. unfold luaH_set, luaH_set_with. destruct (luaH_get_ok t (TNumber n) (proj1 Hok) (or_introl I)) as (s & -> & Hs). cbn [mbind lres_mbind lua_bind].
  assert (∀ k, luaO_rawequalObj k (TNumber n) = true → False) as Hno.
  { intros k Hk. assert (luaO_rawequalObj (TNumber n) (TNumber n) = true) as E by (eapply rawequal_trans; [rewrite rawequal_comm; exact Hk|exact Hk]). cbn in E. congruence. }
  destruct s as [|i|i].
  - by rewrite Hn.
  - destruct Hs as [[Hr _] _]. destruct (Hno _ (arrayindex_equal (TNumber n) Hr)).
  - destruct Hs as (m & _ & _ & Hm). destruct (Hno _ Hm).
Qed.

Lemma luaH_setnum_ok t k : table_ok t → - 2 ^ 31 <= k < 2 ^ 31 → entries_max t → ∃ s t', luaH_setnum k t = LOk (s, t') ∧ entered (TNumber (cast_num k)) s t t'.
Proof.
  intros Hok Hk Hmax. unfold luaH_setnum, luaH_setnum_with. destruct (luaH_getnum_ok t k (proj1 Hok) Hk) as (s & -> & Hs). cbn [mbind lres_mbind lua_bind].
  apply set_with_ok; try done. by apply cast_num_valid.
Qed.

Lemma luaH_setstr_ok t p : table_ok t → obj_type p = LUA_TSTRING → entries_max t → ∃ s t', luaH_setstr p t = LOk (s, t') ∧ entered (TGc LUA_TSTRING p) s t t'.
Proof.
  intros Hok Hp Hmax. unfold luaH_setstr. destruct (luaH_getstr_ok t p (proj1 Hok)) as (s & -> & Hs). cbn [mbind lres_mbind lua_bind].
  apply set_with_ok; try done. split_and!; [done| |done]. cbn. by rewrite !Z.eqb_refl.
Qed.

(** ** Writing through the pointer *)

Lemma assoc_skip l l' k : (∀ e, e ∈ l → luaO_rawequalObj e.1 k = false) → assoc (l ++ l') k = assoc l' k.
Proof.
  induction l as [|[k1 v1] l IH]; intros H; [done|]. cbn [app assoc]. pose proof (H (k1, v1) (list_elem_of_here _ _)) as E. cbn in E. rewrite E. apply IH. intros e He. apply H. by right.
Qed.

Definition opt_ent (k v : TValue) : list pair := if ttisnil v then [] else [(k, v)].

(** One entry changes its value: for other keys nothing changes. *)
Lemma assoc_change l l' l0 kk old v key k : l ≡ₚ opt_ent kk old ++ l0 → l' ≡ₚ opt_ent kk v ++ l0 → apart l → apart l' →
  luaO_rawequalObj kk key = true → luaO_rawequalObj key k = false → assoc l' k = assoc l k.
Proof.
  intros Hl Hl' Ha Ha' Hkk Hk. assert (∀ x e, e ∈ opt_ent kk x → luaO_rawequalObj e.1 k = false) as Hskip.
  { intros x e He. unfold opt_ent in He. destruct (ttisnil x); [by apply elem_of_nil in He|]. apply list_elem_of_singleton in He as ->. cbn.
    destruct (luaO_rawequalObj kk k) eqn:E; [|done]. rewrite rawequal_comm in Hkk. by rewrite (rawequal_trans _ _ _ Hkk E) in Hk. }
  rewrite (assoc_perm _ _ k Ha Hl), (assoc_perm _ _ k Ha' Hl'). by rewrite !assoc_skip by eauto.
Qed.

Lemma pairs_slot t s v key : table_ok t → found t key s → s ≠ Nilobject → ∃ t' kk old l0, slot_set s v t = Some t' ∧ table_ok t' ∧ found t' key s ∧
  luaO_rawequalObj kk key = true ∧ pairs t ≡ₚ opt_ent kk old ++ l0 ∧ pairs t' ≡ₚ opt_ent kk v ++ l0.
Proof.
  intros [H Ha] Hs Hne. destruct s as [|i|i]; [done|..].
  - pose proof Hs as [Hr Ei]. unfold inrange in Hr. destruct (o_array _ H) as [Hl Hm]. destruct (lookup_lt_is_Some_2 (t_array t) i) as [old Hold]; [lia|].
    cbn [slot_set]. rewrite Hold. cbn [mbind option_bind]. eexists _, (TNumber (cast_num (arrayindex key))), old, (arr 0 (<[i := TNil]> (t_array t)) ++ entries (t_node t)). split; [done|].
    assert (Z.of_nat i + 1 = arrayindex key) as Eik by lia. split_and!.
    + split; [|cbn; by rewrite length_insert]. destruct H as [[HA1 HA2] ? ? ? ? ? ?]. split; try done. split; cbn; rewrite ?length_insert; lia.
    + done.
    + apply arrayindex_equal. lia.
    + unfold pairs, arr_pairs. rewrite take_ge by lia. pose proof (arr_insert TNil (t_array t) 0 i old Hold) as E. cbn [Nat.add] in E. unfold arr_ent in E. rewrite Eik in E.
      cbn [ttisnil app] in E. rewrite <- E. unfold opt_ent. by rewrite app_assoc.
    + unfold pairs, arr_pairs. cbn [with_array t_array t_sizearray t_node]. rewrite take_ge by (rewrite length_insert; lia).
      pose proof (arr_insert v (<[i := TNil]> (t_array t)) 0 i TNil) as E. rewrite list_insert_insert_eq, list_lookup_insert_eq in E by lia. specialize (E eq_refl). cbn [Nat.add] in E.
      unfold arr_ent in E. rewrite Eik in E. cbn [ttisnil app] in E. rewrite E. unfold opt_ent. by rewrite app_assoc.
  - destruct Hs as (n & Hn & Hp & He). cbn [slot_set]. rewrite Hn. cbn [mbind option_bind].
    eexists _, (i_key n), (i_val n), (arr_pairs t ++ entries (<[i := with_val TNil n]> (t_node t))). split; [done|]. split_and!.
    + split; [by apply hash_ok_value|done].
    + exists (with_val v n). cbn. rewrite list_lookup_insert_eq by by eapply lookup_lt_Some. done.
    + done.
    + unfold pairs. pose proof (entries_insert (t_node t) i n (with_val TNil n) Hn) as E. unfold ent in E. cbn [i_val i_key with_val ttisnil app] in E. rewrite <- E. unfold opt_ent. solve_Permutation.
    + unfold pairs. pose proof (entries_insert (<[i := with_val TNil n]> (t_node t)) i (with_val TNil n) (with_val v n)) as E.
      rewrite list_insert_insert_eq, list_lookup_insert_eq in E by by eapply lookup_lt_Some. specialize (E eq_refl). unfold ent in E. cbn [i_val i_key with_val ttisnil app] in E.
      change (arr_pairs (with_node (<[i := with_val v n]> (t_node t)) t)) with (arr_pairs t). cbn [with_node t_node]. rewrite E. unfold opt_ent. solve_Permutation.
Qed.

(** The assignment as a whole. *)
Lemma assigned s v key t t1 : valid key → entered key s t t1 → table_ok t → ∃ t', slot_set s v t1 = Some t' ∧ table_ok t' ∧
  (∀ k, proper k ∨ k = TNil → assoc (pairs t') k = if luaO_rawequalObj key k then v else assoc (pairs t) k) ∧ (length (pairs t') <= S (length (pairs t)))%nat.
Proof.
  intros Hk [Hok Hs Hne Hp] Hokt. destruct (pairs_slot t1 s v key Hok Hs Hne) as (t' & kk & old & l0 & E & Hok' & Hs' & Hkk & Hl & Hl'). exists t'. split; [done|]. split; [done|].
  pose proof (table_keys_ok t1 (proj1 Hok)) as [Ha _]. pose proof (table_keys_ok t' (proj1 Hok')) as [Ha' _]. split.
  - intros k Hpk. destruct (luaO_rawequalObj key k) eqn:Ek.
    + pose proof (found_value t' k s (proj1 Hok') Hpk (found_equal _ _ _ _ Ek Hs')) as Hv. enough (slot_get t' s = Some v) as Hv' by congruence.
      destruct s as [|i|i]; [done|..]; cbn [slot_set slot_get] in *.
      * destruct (t_array t1 !! i) as [x|] eqn:Hx; [|done]. cbn in E. injection E as <-. cbn. apply list_lookup_insert_eq. by eapply lookup_lt_Some.
      * destruct (t_node t1 !! i) as [x|] eqn:Hx; [|done]. cbn in E. injection E as <-. cbn. rewrite list_lookup_insert_eq by by eapply lookup_lt_Some. done.
    + rewrite (assoc_change _ _ _ _ _ _ _ _ Hl Hl' Ha Ha' Hkk Ek). apply assoc_perm; done.
  - rewrite Hl', <- Hp, Hl, !length_app. unfold opt_ent. destruct (ttisnil v), (ttisnil old); cbn; lia.
Qed.

(** ** The collector *)

(** A node that loses its value, and then perhaps its key, which stays as a dead one. *)
Definition relabels (n n' : Node) : Prop := n_next n' = n_next n ∧
  (i_key n' = i_key n ∧ (i_val n' = i_val n ∨ i_val n' = TNil) ∨ ∃ ty p, i_key n = TGc ty p ∧ i_key n' = TDeadKey p ∧ i_val n' = TNil).

Lemma relabels_key n n' : relabels n n' → proper (i_key n') → i_key n' = i_key n.
Proof. intros [_ [[-> _]|(ty & p & _ & -> & _)]]; done. Qed.

Lemma chains_relabel mp nodes nodes' : Forall2 relabels nodes nodes' → chains mp nodes → chains mp nodes'.
Proof.
  intros Hrel Hc. assert (∀ j n', nodes' !! j = Some n' → ∃ n, nodes !! j = Some n ∧ relabels n n') as Hback.
  { intros j n' Hj. destruct (Forall2_lookup_r _ _ _ _ _ Hrel Hj) as (n & ? & ?). eauto. }
  assert (∀ j n, nodes !! j = Some n → ∃ n', nodes' !! j = Some n' ∧ relabels n n') as Hforth.
  { intros j n Hj. destruct (Forall2_lookup_l _ _ _ _ _ Hrel Hj) as (n' & ? & ?). eauto. }
  assert (∀ n n', relabels n n' → i_key n ≠ TNil → i_key n' ≠ TNil) as Hnn by (intros n n' [_ [[-> _]|(ty & p & _ & -> & _)]]; done).
  destruct (c_linked _ _ Hc) as [[r Hr] Hn Hpr]. split; [split|..].
  - exists r. intros j n' x (n & Hj & [Ex _])%Hback. rewrite Ex. by apply Hr.
  - intros j n' x (n & Hj & [Ex _])%Hback. rewrite Ex. intros Hx. destruct (Hn _ _ _ Hj Hx) as (y & Hy & Hky). destruct (Hforth _ _ Hy) as (y' & Hy' & Hrel'). eauto.
  - intros a b n n' x (m & Ha & [Ex _])%Hback (m' & Hb & [Ex' _])%Hback. rewrite Ex, Ex'. by apply Hpr.
  - intros j n' (n & Hj & [Ex [[Ek _]|(ty & p & _ & Ek & _)]])%Hback; rewrite Ex, Ek; [by eapply c_nil|done].
  - intros j n' (n & Hj & [Ex [[Ek [Ev|Ev]]|(ty & p & _ & Ek & Ev)]])%Hback; rewrite Ek, Ev; try done. by eapply c_unset.
  - intros j n' Hj' Hp'. destruct (Hback j n' Hj') as (n & Hj & Hrn). pose proof (relabels_key _ _ Hrn Hp') as Ek. rewrite Ek in Hp' |- *.
    apply (leads_sim nodes nodes' _ id); [|by eapply c_leads]. intros a y x Ha Hx Hcl. destruct (Hforth _ _ Ha) as (y' & Hy' & Hry). pose proof Hry as [Exy Hcase].
    eapply leads_one; [done|by rewrite Exy|]. intros ty p Ekey Edead. destruct Hcase as [[E _]|(ty' & p' & Eold & Enew & _)]; [rewrite E in Edead; by eapply Hcl|].
    assert (a = j) as ->; [|simplify_eq; congruence]. eapply c_same; [done|exact Ha|exact Hj|by rewrite Eold|done|]. right. rewrite Eold, Ekey. congruence.
  - intros j n' Hj' Hp'. destruct (Hback j n' Hj') as (n & Hj & Hrn). pose proof (relabels_key _ _ Hrn Hp') as Ek. rewrite Ek in Hp' |- *.
    destruct (c_main _ _ Hc _ _ Hj Hp') as (mn & Hmn & Hk & Hm). destruct (Hforth _ _ Hmn) as (mn' & Hmn' & Hrm). exists mn'. split_and!; [done|by eapply Hnn|].
    intros Hpm. pose proof (relabels_key _ _ Hrm Hpm) as Ekm. rewrite Ekm in Hpm |- *. by apply Hm.
  - intros a b n n' Ha Hb Hp Hp'. destruct (Hback a n Ha) as (m & Hma & Hra), (Hback b n' Hb) as (m' & Hmb & Hrb).
    pose proof (relabels_key _ _ Hra Hp) as Ea. pose proof (relabels_key _ _ Hrb Hp') as Eb. rewrite Ea in Hp |- *. rewrite Eb in Hp' |- *. exact (c_same _ _ Hc _ _ _ _ Hma Hmb Hp Hp').
  - intros a n Ha Hp. destruct (Hback a n Ha) as (m & Hma & Hra). pose proof (relabels_key _ _ Hra Hp) as Ea. rewrite Ea in Hp |- *. exact (c_valid _ _ Hc _ _ Hma Hp).
Qed.

Lemma table_ok_relabel t nodes : table_ok t → (t_dummy t = true → nodes = t_node t) → Forall2 relabels (t_node t) nodes → table_ok (with_node nodes t).
Proof.
  intros [H Ha] Hd Hrel. split; [|done]. pose proof (Forall2_length _ _ _ Hrel) as Hlen.
  assert (∀ j n', nodes !! j = Some n' → ∃ n, t_node t !! j = Some n ∧ relabels n n') as Hback.
  { intros j n' Hj. destruct (Forall2_lookup_r _ _ _ _ _ Hrel Hj) as (n & ? & ?). eauto. }
  destruct H as [Harr [Hn Hl] Hdum Hc Hlf Hf Hr]. split; cbn; try done.
  - split; [rewrite <- Hlen; exact Hn|done].
  - intros Hd'. rewrite (Hd Hd'). by apply Hdum.
  - by eapply chains_relabel.
  - intros Hd' j n' Hj (n & Hn' & [_ [[-> _]|(ty & p & _ & -> & _)]])%Hback; [by eapply Hf|done].
  - intros j n' Hj Hp. destruct (Hback j n' Hj) as (n & Hjn & Hrn). pose proof (relabels_key _ _ Hrn Hp) as Ek. rewrite Ek in Hp |- *. by eapply Hr.
Qed.

Lemma removeentry_relabels n : i_val n = TNil → relabels n (removeentry n).
Proof. intros Hv. unfold removeentry. destruct (i_key n) eqn:E; split; try done; try (left; split; [done|by left]). right. eexists _, _. by split_and!. Qed.

Lemma dummy_relabel t f : hash_ok t → t_dummy t = true → f dummynode_ = dummynode_ → map f (t_node t) = t_node t.
Proof. intros H Hd Hf. destruct (o_dummy _ H Hd) as [-> _]. cbn. by rewrite Hf. Qed.

(** A collection keeps the table and its pairs. *)
Lemma traverse_ok t : table_ok t → table_ok (traverse_entries t) ∧ pairs (traverse_entries t) = pairs t.
Proof.
  intros H. unfold traverse_entries. set (f n := if ttisnil (i_val n) then removeentry n else n). split.
  - apply table_ok_relabel; [done| |].
    + intros Hd. by apply (dummy_relabel t f); [apply H|..].
    + induction (t_node t) as [|n l IH]; cbn; constructor; [|done]. unfold f. destruct (ttisnil (i_val n)) eqn:E; [apply removeentry_relabels; by destruct (i_val n)|].
      split; [done|]. left. split; [done|by left].
  - unfold pairs. change (arr_pairs (with_node (map f (t_node t)) t)) with (arr_pairs t). cbn [with_node t_node]. f_equal. induction (t_node t) as [|n l IH]; [done|]. cbn [map].
    change (ent (f n) ++ entries (map f l) = ent n ++ entries l). rewrite IH. f_equal. unfold f, ent, removeentry. destruct (ttisnil (i_val n)) eqn:E; [|by rewrite E].
    destruct (i_key n); cbn; by rewrite E.
Qed.

(** ** The other operations *)

Lemma luaH_new_ok narray nhash : Z.of_nat narray <= MAXASIZE → Z.of_nat nhash <= MAXASIZE → ∃ t, luaH_new narray nhash = LOk t ∧ table_ok t ∧ pairs t = [].
Proof.
  intros Ha Hn. unfold luaH_new. set (t0 := setarrayvector narray (TableOf 255 0 [] 0 [dummynode_] true 0)).
  assert (t_array t0 = replicate narray TNil) as Earr. { unfold t0, setarrayvector. cbn. rewrite Nat.sub_0_r. apply take_ge. by rewrite length_replicate. }
  assert (∀ l lsize dummy lf, (lsize <= 26)%nat → length l = twoto lsize → (∀ j n, l !! j = Some n → n = unused) → (dummy = true → l = [dummynode_] ∧ lf = 0) → (dummy = false → lf = Z.of_nat (twoto lsize)) →
    table_ok (with_hash lsize l dummy lf t0) ∧ pairs (with_hash lsize l dummy lf t0) = []) as Hfresh.
  { intros l lsize dummy lf Hls Hl Hun Hd Hd'. assert (∀ j n, l !! j = Some n → n_next n = None ∧ ¬ proper (i_key n)) as Hl' by (intros j n Hj; rewrite (Hun j n Hj); by split; [|intros []]).
    split.
    - split; [|cbn [with_hash t_array t_sizearray]; rewrite Earr; by rewrite length_replicate]. split; cbn [with_hash t_array t_sizearray t_node t_lsizenode t_dummy t_lastfree].
      + split; cbn [with_hash t_array t_sizearray]; [rewrite Earr, length_replicate; done|done].
      + done.
      + intros ->. destruct (Hd eq_refl) as [-> ->]. done.
      + split; [split|..].
        * exists (λ _, 0%nat). intros j n x Hj Hx. destruct (Hl' j n Hj). congruence.
        * intros j n x Hj Hx. destruct (Hl' j n Hj). congruence.
        * intros i j n n' x Hi _ Hx. destruct (Hl' i n Hi). congruence.
        * intros j n Hj _. by destruct (Hl' j n Hj).
        * intros j n Hj _. by rewrite (Hun j n Hj).
        * intros j n Hj Hp. by destruct (Hl' j n Hj).
        * intros j n Hj Hp. by destruct (Hl' j n Hj).
        * intros j i n n' Hj _ Hp. by destruct (Hl' j n Hj).
        * intros j n Hj Hp. by destruct (Hl' j n Hj).
      + unfold sizenode. cbn [with_hash t_lsizenode]. destruct dummy; [destruct (Hd eq_refl) as [_ ->]; lia|by rewrite (Hd' eq_refl)].
      + intros -> j n Hj Hn'%lookup_lt_Some. rewrite (Hd' eq_refl) in Hj. lia.
      + intros j n Hj Hp. by destruct (Hl' j n Hj).
    - unfold pairs, arr_pairs. cbn [with_hash t_array t_sizearray t_node]. rewrite Earr, (entries_unused l) by done. rewrite app_nil_r. by rewrite take_replicate, arr_nil. }
  unfold resizenodevector. destruct (Nat.eqb_spec nhash 0) as [->|Hne].
  - eexists. split; [done|]. apply Hfresh; try done; [lia|]. by intros [|j] n; cbn; [intros [= <-]|].
  - destruct (ceillog2_round nhash) as (l & -> & Hl & _); [lia|done|]. cbn [lopt mbind lres_mbind lua_bind]. unfold MAXBITS. destruct (Z.ltb_spec 26 (Z.of_nat l)); [lia|].
    eexists. split; [done|]. rewrite Nat2Z.id. apply Hfresh; try done.
    + rewrite take_nil. cbn [app]. rewrite length_replicate. lia.
    + intros j n. rewrite take_nil. cbn [app]. by intros [-> _]%lookup_replicate.
Qed.

Lemma luaH_resizearray_ok n t : table_ok t → (t_sizearray t <= n)%nat → Z.of_nat n <= MAXASIZE → ∃ t', luaH_resizearray n t = LOk t' ∧ table_ok t' ∧ pairs t' ≡ₚ pairs t ∧ t_sizearray t' = n.
Proof.
  intros Hok Hn Hm. pose proof Hok as [H Ha]. unfold luaH_resizearray. set (nh := if t_dummy t then 0%nat else sizenode t).
  destruct (resize_ok 2 n nh t Hok Hm) as (t' & E & [Hok' Hs' _ _ Hp' _]); [| |by exists t'].
  - unfold nh, MAXASIZE. destruct (t_dummy t); [done|]. unfold sizenode. rewrite twoto_pow. apply Z.pow_le_mono_r; [lia|]. destruct (o_node _ H). lia.
  - unfold pairs. rewrite filter_app, length_app. destruct (filter _ (arr_pairs t)) as [|e l] eqn:E.
    + cbn [length Nat.add]. etrans; [apply length_filter|]. unfold nh. destruct (t_dummy t) eqn:Hd; [by destruct (o_dummy _ H Hd) as [-> _]|]. rewrite <- (proj1 (o_node _ H)).
      clear. induction (t_node t) as [|n l IH]; [done|]. change (entries (n :: l)) with (ent n ++ entries l). rewrite length_app. unfold ent. destruct (ttisnil (i_val n)); cbn; lia.
    + exfalso. assert (e ∈ e :: l) as He by left. rewrite <- E in He. apply list_elem_of_filter in He as [Hr He]. apply Hr. destruct (arr_pairs_range t e (o_array _ H) He) as [Hre _].
      unfold inrange in *. lia.
Qed.

(** ** Runs *)

(** What the interpreter and the collector do to a table: assignments by any key, by an integer, by a string; SETLIST makes room in the array;
    the collector passes. *)
Inductive table_op := SetAny (k v : TValue) | SetInt (k : Z) (v : TValue) | SetString (p : Z) (v : TValue) | GrowArray (n : nat) | Collect.

Definition assign (f : lres (slot * Table)) (v : TValue) : lres Table := '(s, t) ← f; lopt (slot_set s v t).

Definition op_run (t : Table) (op : table_op) : lres Table :=
  match op with
  | SetAny k v => assign (luaH_set k t) v
  | SetInt k v => assign (luaH_setnum k t) v
  | SetString p v => assign (luaH_setstr p t) v
  | GrowArray n => if (t_sizearray t <? n)%nat then luaH_resizearray n t else LOk t
  | Collect => LOk (traverse_entries t)
  end.

Fixpoint ops_run (ops : list table_op) (t : Table) : lres Table := match ops with [] => LOk t | op :: ops => t ← op_run t op; ops_run ops t end.

(** The map: the last value that was assigned to a key, or nil. *)
Definition set_map (f : TValue → TValue) (key v : TValue) : TValue → TValue := λ k, if luaO_rawequalObj key k then v else f k.

Definition op_map (f : TValue → TValue) (op : table_op) : TValue → TValue :=
  match op with
  | SetAny k v => set_map f k v
  | SetInt k v => set_map f (TNumber (cast_num k)) v
  | SetString p v => set_map f (TGc LUA_TSTRING p) v
  | GrowArray _ | Collect => f
  end.

Definition op_ok (op : table_op) : Prop :=
  match op with
  | SetAny k _ => valid k
  | SetInt k _ => - 2 ^ 31 <= k < 2 ^ 31
  | SetString p _ => obj_type p = LUA_TSTRING
  | GrowArray n => Z.of_nat n <= MAXASIZE
  | Collect => True
  end.

(** A table holds a map. *)
Definition holds (t : Table) (f : TValue → TValue) : Prop := table_ok t ∧ ∀ k, proper k ∨ k = TNil → assoc (pairs t) k = f k.

Lemma assign_ok s key v t t1 f : valid key → entered key s t t1 → holds t f → ∃ t', assign (LOk (s, t1)) v = LOk t' ∧ holds t' (set_map f key v) ∧
  (length (pairs t') <= S (length (pairs t)))%nat.
Proof.
  intros Hk He [Hok Hf]. destruct (assigned s v key t t1 Hk He Hok) as (t' & E & Hok' & Hv & Hlen). exists t'. unfold assign. cbn. rewrite E. split; [done|]. split; [|done]. split; [done|].
  intros k Hp. rewrite Hv by done. unfold set_map. destruct (luaO_rawequalObj key k); [done|by apply Hf].
Qed.

Lemma op_ok_run t f op : holds t f → op_ok op → entries_max t → ∃ t', op_run t op = LOk t' ∧ holds t' (op_map f op) ∧ (length (pairs t') <= S (length (pairs t)))%nat.
Proof.
  intros Hh Hop Hmax. pose proof Hh as [Hok Hf]. destruct op as [k v|k v|p v|n|]; cbn [op_run op_map op_ok] in *.
  - destruct (luaH_set_ok t k Hok Hop Hmax) as (s & t1 & -> & He). by apply assign_ok.
  - destruct (luaH_setnum_ok t k Hok Hop Hmax) as (s & t1 & -> & He). apply assign_ok; [by apply cast_num_valid|done|done].
  - destruct (luaH_setstr_ok t p Hok Hop Hmax) as (s & t1 & -> & He). apply assign_ok; [|done|done]. split_and!; [done| |done]. cbn. by rewrite !Z.eqb_refl.
  - destruct (Nat.ltb_spec (t_sizearray t) n) as [Hlt|Hge]; [|exists t; split_and!; [done|done|lia]].
    destruct (luaH_resizearray_ok n t Hok ltac:(lia) Hop) as (t' & -> & Hok' & Hp & _). exists t'. split; [done|]. rewrite Hp. split; [|lia]. split; [done|]. intros k Hk.
    rewrite <- Hf by done. apply assoc_perm; [apply table_keys_ok, Hok'|done].
  - destruct (traverse_ok t Hok) as [Hok' Hp]. exists (traverse_entries t). rewrite Hp. split; [done|]. split; [|lia]. split; [done|]. by rewrite Hp.
Qed.

Lemma ops_ok_run : ∀ ops t f, holds t f → Forall op_ok ops → Z.of_nat (length (pairs t) + length ops) <= MAXASIZE →
  ∃ t', ops_run ops t = LOk t' ∧ holds t' (foldl op_map f ops).
Proof.
  induction ops as [|op ops IH]; intros t f Hh Hops Hlen; [by exists t|]. apply Forall_cons in Hops as [Hop Hops]. cbn [ops_run foldl length] in *.
  destruct (op_ok_run t f op Hh Hop) as (t1 & -> & H1 & Hl1); [unfold entries_max; lia|]. cbn [mbind lres_mbind lua_bind]. apply IH; [done|done|lia].
Qed.

(** C11: for a new table of any sizes and any sequence of assignments to keys of every kind, growths of the array part and passes of the
    collector, with rehashes where they are needed, no step fails, and afterwards [luaH_get] gives for every key the value that was assigned last, or nil. *)
Theorem table_implements_map narray nhash ops : Z.of_nat narray <= MAXASIZE → Z.of_nat nhash <= MAXASIZE → Forall op_ok ops → Z.of_nat (length ops) <= MAXASIZE →
  ∃ t, (t ← luaH_new narray nhash; ops_run ops t) = LOk t ∧ table_ok t ∧ ∀ k, proper k ∨ k = TNil → getv t k = LOk (foldl op_map (λ _, TNil) ops k).
Proof.
  intros Ha Hn Hops Hlen. destruct (luaH_new_ok narray nhash Ha Hn) as (t0 & -> & Hok0 & Hp0). cbn [mbind lres_mbind lua_bind].
  destruct (ops_ok_run ops t0 (λ _, TNil)) as (t & -> & Hok & Hf); [split; [done|by rewrite Hp0]|done|by rewrite Hp0|]. exists t. split; [done|]. split; [done|].
  intros k Hk. by rewrite (getv_ok t k (proj1 Hok) Hk), Hf.
Qed.

(** C35: when a new key finds no free node, the array part gets the best size: 0 or a power of two such that more than half of its places are for
    keys of the table, the new one included, and no larger power of two is such; no entry is lost. *)
Theorem rehash_is_best t key : table_ok t → valid key → found t key Nilobject → entries_max t →
  ∃ t', rehash (newkey 2) key t = LOk t' ∧ best 27 (Z.of_nat (t_sizearray t')) (key :: (pairs t).*1) ∧ table_ok t' ∧ pairs t' ≡ₚ pairs t.
Proof.
  intros [H Ha] Hk Hs Hmax. pose proof (found_absent t key H Hk Hs) as Habs. destruct Hs as [Hr _].
  destruct (rehash_sizes (newkey 2) key t H Ha Hk Habs Hr) as (n & -> & Hb & _).
  assert (0 <= n <= MAXASIZE) as Hn. { destruct Hb as [[->|(p & Hp & -> & _)] _]; [done|]. unfold MAXASIZE. split; [by apply Z.pow_nonneg|apply Z.pow_le_mono_r; lia]. }
  destruct (resize_ok 1 (Z.to_nat n) (length (filter (λ e, ¬ inrange (Z.to_nat n) e.1) ((key, TNil) :: pairs t))) t (conj H Ha)) as (t' & -> & [Hok' Hs' _ _ Hp' _]).
  - lia.
  - unfold entries_max in Hmax. pose proof (length_filter (λ e, ¬ inrange (Z.to_nat n) e.1) ((key, TNil) :: pairs t)) as Hf. cbn [length] in Hf. lia.
  - rewrite filter_cons. case_decide; cbn [length]; lia.
  - exists t'. rewrite Hs', Z2Nat.id by lia. by split_and!.
Qed.
End spec.
