(* ===== verification/TableNext.v ===== *)
(** * Traversal and length of a table

    [luaH_next] goes through the places of the array and then through the nodes, also while fields are cleared; [luaH_getn] finds a boundary. *)
From S2P Require Import Prelude LuaNum LuaApi LuaTable TableChain TableSize TableResize TableGrow TableSpec.

(** ** Traversal of a table

    [luaH_next] goes through the places of the array and then through the nodes.  A traversal during which fields are changed or cleared and the
    collector passes comes to every field that is not cleared, and to none twice. *)

Section next.
Context {M : Machine}.

(** *** Places *)

(** The field at a place: those of the array are first. *)
Definition at_place (t : Table) (i : nat) : option pair :=
  if (i <? t_sizearray t)%nat then v ← t_array t !! i; if ttisnil v then None else Some (TNumber (cast_num (Z.of_nat i + 1)), v)
  else n ← t_node t !! (i - t_sizearray t)%nat; if ttisnil (i_val n) then None else Some (i_key n, i_val n).

(** The first field from a place on. *)
Definition first_from (t : Table) (i : nat) (r : option pair) : Prop :=
  match r with
  | Some e => ∃ j, (i <= j)%nat ∧ at_place t j = Some e ∧ ∀ x, (i <= x < j)%nat → at_place t x = None
  | None => ∀ x, (i <= x)%nat → at_place t x = None
  end.

Lemma next_array_ok t : length (t_array t) = t_sizearray t → ∀ fuel i, (i + fuel = t_sizearray t)%nat → ∃ r, next_array fuel i t = LOk r ∧
  match r with
  | Some e => first_from t i (Some e)
  | None => ∀ x, (i <= x < t_sizearray t)%nat → at_place t x = None
  end.
Proof.
  intros Ha. induction fuel as [|fuel IH]; intros i Hi; cbn [next_array]; [exists None; split; [done|lia]|]. destruct (lookup_lt_is_Some_2 (t_array t) i) as [v Hv]; [lia|].
  rewrite Hv. cbn [lopt mbind lres_mbind lua_bind]. assert (at_place t i = if ttisnil v then None else Some (TNumber (cast_num (Z.of_nat i + 1)), v)) as Ei.
  { unfold at_place. destruct (Nat.ltb_spec i (t_sizearray t)); [|lia]. by rewrite Hv. }
  destruct (ttisnil v).
  - destruct (IH (S i) ltac:(lia)) as (r & -> & Hr). exists r. split; [done|]. destruct r as [e|].
    + destruct Hr as (j & Hj & Hat & Hno). exists j. split_and!; [lia|done|]. intros x Hx. destruct (decide (x = i)) as [->|]; [done|]. apply Hno. lia.
    + intros x Hx. destruct (decide (x = i)) as [->|]; [done|]. apply Hr. lia.
  - eexists. split; [done|]. exists i. split_and!; [lia|done|lia].
Qed.

Lemma next_hash_ok t : length (t_node t) = sizenode t → ∀ fuel i, (i + fuel = sizenode t)%nat → ∃ r, next_hash fuel i t = LOk r ∧ first_from t (t_sizearray t + i) r.
Proof.
  intros Hn. assert (∀ i, at_place t (t_sizearray t + i) = n ← t_node t !! i; if ttisnil (i_val n) then None else Some (i_key n, i_val n)) as Hat.
  { intros i. unfold at_place. destruct (Nat.ltb_spec (t_sizearray t + i) (t_sizearray t)); [lia|]. by replace (t_sizearray t + i - t_sizearray t)%nat with i by lia. }
  induction fuel as [|fuel IH]; intros i Hi; cbn [next_hash].
  - exists None. split; [done|]. intros x Hx. replace x with (t_sizearray t + (x - t_sizearray t))%nat by lia. rewrite Hat, lookup_ge_None_2 by lia. done.
  - destruct (lookup_lt_is_Some_2 (t_node t) i) as [n Hni]; [lia|]. rewrite Hni. cbn [lopt mbind lres_mbind lua_bind]. pose proof (Hat i) as Ei. rewrite Hni in Ei. cbn in Ei.
    destruct (ttisnil (i_val n)).
    + destruct (IH (S i) ltac:(lia)) as (r & -> & Hr). exists r. split; [done|]. destruct r as [e|].
      * destruct Hr as (j & Hj & Hatj & Hno). exists j. split_and!; [lia|done|]. intros x Hx. destruct (decide (x = t_sizearray t + i)%nat) as [->|]; [done|]. apply Hno. lia.
      * intros x Hx. destruct (decide (x = t_sizearray t + i)%nat) as [->|]; [done|]. apply Hr. lia.
    + eexists. split; [done|]. exists (t_sizearray t + i)%nat. split_and!; [lia|done|lia].
Qed.

Lemma luaH_next_ok t key z : table_ok t → findindex t key = LOk z → -1 <= z < Z.of_nat (t_sizearray t + sizenode t) →
  ∃ r, luaH_next t key = LOk r ∧ first_from t (Z.to_nat (z + 1)) r.
Proof.
  intros [H Ha] Hz Hr. unfold luaH_next. rewrite Hz. cbn [mbind lres_mbind lua_bind]. set (i := Z.to_nat (z + 1)). pose proof (proj1 (o_node _ H)) as Hn.
  destruct (decide (i <= t_sizearray t)%nat) as [Hi|Hi].
  - destruct (next_array_ok t Ha (t_sizearray t - i) i) as (r & -> & Hr'); [lia|]. cbn [mbind lres_mbind lua_bind]. destruct r as [e|]; [by exists (Some e)|].
    replace (Nat.max i (t_sizearray t) - t_sizearray t)%nat with 0%nat by lia. destruct (next_hash_ok t Hn (sizenode t - 0) 0) as (r & -> & Hr2); [lia|]. exists r. split; [done|].
    rewrite Nat.add_0_r in Hr2. destruct r as [e|].
    + destruct Hr2 as (j & Hj & Hat & Hno). exists j. split_and!; [lia|done|]. intros x Hx. destruct (decide (x < t_sizearray t)%nat); [apply Hr'; lia|apply Hno; lia].
    + intros x Hx. destruct (decide (x < t_sizearray t)%nat); [apply Hr'; lia|apply Hr2; lia].
  - replace (t_sizearray t - i)%nat with 0%nat by lia. cbn [next_array mbind lres_mbind lua_bind]. replace (Nat.max i (t_sizearray t) - t_sizearray t)%nat with (i - t_sizearray t)%nat by lia.
    destruct (next_hash_ok t Hn (sizenode t - (i - t_sizearray t)) (i - t_sizearray t)) as (r & -> & Hr2); [unfold i in *; lia|]. exists r. split; [done|].
    by replace (t_sizearray t + (i - t_sizearray t))%nat with i in Hr2 by lia.
Qed.

(** *** Changes during a traversal *)

(** A node keeps its chain, and its key, unless that is collected. *)
Definition steady_node (n n' : Node) : Prop := n_next n' = n_next n ∧
  (i_key n' = i_key n ∨ ∃ ty p, i_key n = TGc ty p ∧ i_key n' = TDeadKey p).

(** No field is added: values change, and keys may die. *)
Definition steady (t t' : Table) : Prop :=
  t_sizearray t' = t_sizearray t ∧ t_lsizenode t' = t_lsizenode t ∧ Forall2 steady_node (t_node t) (t_node t').

Lemma steady_refl t : steady t t.
Proof. split_and!; [done|done|]. apply Forall_Forall2_diag, Forall_forall. intros n _. split; [done|by left]. Qed.

Lemma steady_slot s v t t' : slot_set s v t = Some t' → steady t t'.
Proof.
  destruct s as [|i|i]; cbn [slot_set]; [done|..].
  - destruct (t_array t !! i) as [x|]; cbn; [intros [= <-]|done]. apply (steady_refl t).
  - destruct (t_node t !! i) as [n|] eqn:Hn; cbn; [intros [= <-]|done]. split_and!; [done|done|]. cbn [with_node t_node].
    rewrite <- (list_insert_id (t_node t) i n Hn) at 1. apply Forall2_insert; [|split; [done|by left]]. apply Forall_Forall2_diag, Forall_forall. intros m _. split; [done|by left].
Qed.

Lemma removeentry_cases n : removeentry n = n ∨ ∃ ty p, i_key n = TGc ty p ∧ removeentry n = with_key (TDeadKey p) n.
Proof. unfold removeentry. destruct (i_key n) as [| | | |ty p|]; [by left..| |by left]. right. by exists ty, p. Qed.

Lemma steady_traverse t t' : steady t t' → steady t (traverse_entries t').
Proof.
  intros (Hs & Hl & Hrel). split_and!; [done|done|]. cbn [traverse_entries with_node t_node]. rewrite Forall2_fmap_r. apply (Forall2_impl _ _ _ _ Hrel). intros n n' [Ex Ek].
  unfold compose, steady_node. destruct (ttisnil (i_val n')); [|done]. destruct (removeentry_cases n') as [->|(ty & p & E & ->)]; [done|].
  split; [done|]. right. destruct Ek as [E'|(ty' & p' & _ & E')]; [|by rewrite E' in E]. exists ty, p. by rewrite <- E', E.
Qed.

(** A weak table loses the entries of objects that are collected. *)
Lemma cleartable_ok weakvalue iscleared t : table_ok t → table_ok (cleartable weakvalue iscleared t) ∧ steady t (cleartable weakvalue iscleared t).
Proof.
  intros Hok. set (f v := if iscleared v false then TNil else v). set (t1 := with_node (map (clear_entry iscleared) (t_node t)) t).
  assert (∀ n, relabels n (clear_entry iscleared n) ∧ steady_node n (clear_entry iscleared n)) as Hn.
  { intros n. unfold clear_entry. destruct (_ && _); [|split; (split; [done|left]); [split; [done|by left]|done]].
    destruct (removeentry_cases (with_val TNil n)) as [->|(ty & p & E & ->)]; cbn in *; (split; split); try done; [left; split; [done|by right]|by left|right..]; by exists ty, p. }
  assert (table_ok t1) as [H Ha].
  { apply table_ok_relabel; [done| |].
    - intros Hd. by apply (dummy_relabel t); [apply Hok|..].
    - apply Forall2_fmap_r, Forall_Forall2_diag, Forall_forall. intros n _. apply Hn. }
  assert (Forall2 steady_node (t_node t) (t_node t1)) as Hst by (apply Forall2_fmap_r, Forall_Forall2_diag, Forall_forall; intros n _; apply Hn).
  unfold cleartable. destruct weakvalue; [|by split_and!]. split; [|by split_and!]. split; [|cbn; by rewrite length_map]. destruct H as [[HA1 HA2] ? ? ? ? ? ?].
  split; try done. split; cbn in *; [by rewrite length_map|done].
Qed.

Lemma at_place_bound t i e : table_ok t → at_place t i = Some e → (i < t_sizearray t + sizenode t)%nat.
Proof.
  intros [H Ha] He. unfold at_place in He. destruct (Nat.ltb_spec i (t_sizearray t)); [lia|]. destruct (t_node t !! (i - t_sizearray t)%nat) as [n|] eqn:Hn; [|done].
  apply lookup_lt_Some in Hn. rewrite (proj1 (o_node _ H)) in Hn. lia.
Qed.

(** The place of a key is found again after such changes. *)
Lemma findindex_steady t t' i k v : table_ok t → steady t t' → at_place t i = Some (k, v) → findindex t' k = LOk (Z.of_nat i).
Proof.
  intros [H Ha] (Hs & Hl & Hrel) He. unfold at_place in He. destruct (o_array _ H) as [_ Hm]. unfold MAXASIZE in Hm. unfold findindex. destruct (Nat.ltb_spec i (t_sizearray t)) as [Hi|Hi].
  - destruct (t_array t !! i) as [x|]; [|done]. cbn in He. destruct (ttisnil x); [done|]. injection He as <- <-. rewrite arrayindex_cast by lia. cbn [ttisnil].
    rewrite (proj2 (andb_true_iff _ _)) by (rewrite Z.ltb_lt, Z.leb_le; lia). f_equal. lia.
  - destruct (t_node t !! (i - t_sizearray t)%nat) as [n|] eqn:Hn; [|done]. cbn in He. destruct (ttisnil (i_val n)) eqn:Ev; [done|]. injection He as <- <-.
    assert (proper (i_key n)) as Hp by (eapply used_proper; [done|done|by intros E; rewrite E in Ev]). destruct (ttisnil (i_key n)) eqn:Ek; [by destruct (i_key n)|].
    pose proof (o_range _ H _ _ Hn Hp) as Hr. unfold inrange in Hr. rewrite (proj2 (andb_false_iff _ _)) by (rewrite Z.ltb_ge, Z.leb_gt; lia).
    set (P := λ k, luaO_rawequalObj k (i_key n) || match k, i_key n with TDeadKey p, TGc _ p' => p =? p' | _, _ => false end).
    pose proof (Forall2_length _ _ _ Hrel) as Hlen.
    assert (linked (t_node t')) as Hlink.
    { assert (∀ j m', t_node t' !! j = Some m' → ∃ m, t_node t !! j = Some m ∧ steady_node m m') as Hback by (intros j m' Hj; destruct (Forall2_lookup_r _ _ _ _ _ Hrel Hj) as (m & ? & ?); eauto).
      destruct (c_linked _ _ (o_chains _ H)) as [[r Hfall] Hnx Hpr]. split.
      - exists r. intros j m' x (m & Hj & [-> _])%Hback. by apply Hfall.
      - intros j m' x (m & Hj & [-> _])%Hback Hx. destruct (Hnx _ _ _ Hj Hx) as (y & Hy & Hky). destruct (Forall2_lookup_l _ _ _ _ _ Hrel Hy) as (y' & Hy' & [_ [E|(ty & p & _ & E)]]); exists y'; by rewrite E.
      - intros a b m1 m2 x (m & Hj & [-> _])%Hback (m3 & Hj3 & [-> _])%Hback. by apply Hpr. }
    destruct (Forall2_lookup_l _ _ _ _ _ Hrel Hn) as (n' & Hn' & [_ Hkey]).
    assert (P (i_key n') = true) as HP. { unfold P. destruct Hkey as [-> |(ty & p & -> & ->)]; [|by rewrite Z.eqb_refl, orb_true_r]. by rewrite (proj1 (proj2 (c_valid _ _ (o_chains _ H) _ _ Hn Hp))). }
    (* no other node of the chain is taken for it *)
    assert (∀ a, leads (t_node t) (i_key n) a (i - t_sizearray t) → ∀ fuel r, chain_find P fuel (t_node t') a = LOk r → r = Some (i - t_sizearray t)%nat) as Hfind.
    { intros a Hla. remember (i - t_sizearray t)%nat as b eqn:Eb. clear Eb. induction Hla as [b|j m x b Hj Hx Hcl Hla IH]; intros [|fuel] r; cbn [chain_find]; try done.
      - rewrite Hn'. cbn [lopt mbind lres_mbind lua_bind]. rewrite HP. congruence.
      - destruct (Forall2_lookup_l _ _ _ _ _ Hrel Hj) as (m' & Hm' & [Ex Hkm]). rewrite Hm'. cbn [lopt mbind lres_mbind lua_bind]. destruct (P (i_key m')) eqn:EP; [|rewrite Ex, Hx; by apply IH].
        intros [= <-]. f_equal. assert (proper (i_key m) ∧ same (i_key m) (i_key n)) as [Hpm Hsm]; [|by eapply (c_same _ _ (o_chains _ H))].
        unfold P in EP. apply orb_true_iff in EP as [EP|EP].
        + assert (proper (i_key m')) as Hpm' by (rewrite rawequal_comm in EP; by eapply rawequal_proper). destruct Hkm as [Em|(ty & p & _ & Em)]; rewrite Em in *; [|done]. split; [done|by left].
        + destruct (i_key m') as [| | | | |p] eqn:Ekm; try done. destruct (i_key n) as [| | | |ty p'|] eqn:Ekn; try done. apply Z.eqb_eq in EP as ->.
          destruct Hkm as [Em|(ty' & p & Em & Em')]; [by destruct (Hcl ty p')|]. rewrite Em. split; [done|]. right. congruence. }
    pose proof (c_leads _ _ (o_chains _ H) _ _ Hn Hp) as Hlead. unfold mainposition, sizenode. rewrite Hl. fold (sizenode t).
    destruct (chain_find_total _ Hlink P (main_of (sizenode t) (i_key n))) as [r Er]; [rewrite <- Hlen; by eapply leads_in|].
    fold P. rewrite Er. cbn [mbind lres_mbind lua_bind]. rewrite (Hfind _ Hlead _ _ Er), Hs. f_equal. lia.
Qed.

(** *** The loop *)

(** A traversal: after each step the body may do something to the table. *)
Fixpoint traversal (fuel : nat) (body : list pair → Table → Table) (visited : list pair) (t : Table) (key : TValue) : lres (list pair) :=
  match fuel with
  | O => LUndef
  | S fuel =>
      e ← luaH_next t key;
      match e with
      | None => LOk visited
      | Some (k, v) => let visited := visited ++ [(k, v)] in traversal fuel body visited (body visited t) k
      end
  end.

(** The body keeps the table, without new fields. *)
Definition body_ok (body : list pair → Table → Table) : Prop := ∀ l t, table_ok t → table_ok (body l t) ∧ steady t (body l t).

(** The key at a place, whatever its value. *)
Definition key_at (t : Table) (i : nat) (k : TValue) : Prop :=
  if (i <? t_sizearray t)%nat then k = TNumber (cast_num (Z.of_nat i + 1)) else ∃ n, t_node t !! (i - t_sizearray t)%nat = Some n ∧ i_key n = k.

Lemma at_key t i k v : at_place t i = Some (k, v) → key_at t i k.
Proof.
  unfold at_place, key_at. destruct (i <? t_sizearray t)%nat.
  - destruct (t_array t !! i); [|done]. cbn. destruct (ttisnil _); congruence.
  - destruct (t_node t !! _) as [n|]; [|done]. cbn. destruct (ttisnil _); [done|]. intros [= <- _]. eauto.
Qed.

Lemma at_proper t i k v : table_ok t → at_place t i = Some (k, v) → proper k.
Proof.
  intros [H _]. unfold at_place. destruct (i <? t_sizearray t)%nat.
  - destruct (t_array t !! i) as [x|]; [|done]. cbn. destruct (ttisnil x); [done|]. by intros [= <- _].
  - destruct (t_node t !! _) as [n|] eqn:Hn; [|done]. cbn. destruct (ttisnil _) eqn:E; [done|]. intros [= <- _]. eapply used_proper; [done|done|]. by intros Ev; rewrite Ev in E.
Qed.

Lemma steady_key t t' i k : steady t t' → key_at t' i k → proper k → key_at t i k.
Proof.
  intros (Hs & _ & Hrel). unfold key_at. rewrite Hs. destruct (i <? t_sizearray t)%nat; [done|]. intros (n' & Hn' & <-) Hp.
  destruct (Forall2_lookup_r _ _ _ _ _ Hrel Hn') as (n & Hn & [_ [E|(ty & p & _ & E)]]); [exists n; by rewrite E|by rewrite E in Hp].
Qed.

(** A key has one place. *)
Lemma key_place t i j k : table_ok t → key_at t i k → key_at t j k → proper k → i = j.
Proof.
  intros [H Ha] Hi Hj Hp. destruct (o_array _ H) as [_ Hm]. unfold MAXASIZE in Hm. unfold key_at in *. destruct (Nat.ltb_spec i (t_sizearray t)), (Nat.ltb_spec j (t_sizearray t)).
  - assert (arrayindex k = Z.of_nat i + 1) by (rewrite Hi; apply arrayindex_cast; lia). assert (arrayindex k = Z.of_nat j + 1) by (rewrite Hj; apply arrayindex_cast; lia). lia.
  - destruct Hj as (n & Hn & <-). destruct (o_range _ H _ _ Hn Hp). rewrite Hi. unfold inrange. rewrite arrayindex_cast by lia. lia.
  - destruct Hi as (n & Hn & <-). destruct (o_range _ H _ _ Hn Hp). rewrite Hj. unfold inrange. rewrite arrayindex_cast by lia. lia.
  - destruct Hi as (n & Hn & Ek), Hj as (n' & Hn' & Ek'). enough (i - t_sizearray t = j - t_sizearray t)%nat by lia. rewrite <- Ek in Hp.
    eapply (c_same _ _ (o_chains _ H)); [done|done|done|by rewrite Ek', <- Ek|]. rewrite Ek', <- Ek. left. by apply (c_valid _ _ (o_chains _ H) _ _ Hn Hp).
Qed.

(** The pairs are the fields at the places. *)
Lemma in_pairs t e : table_ok t → e ∈ pairs t ↔ ∃ i, at_place t i = Some e.
Proof.
  intros [H Ha]. unfold pairs, arr_pairs. rewrite take_ge by lia. rewrite elem_of_app. split.
  - intros [(j & Hj & Hv & Hne & Ek)%arr_in|(j & n & Hn & Hv & ->)%entries_elem_of].
    + exists j. unfold at_place. destruct (Nat.ltb_spec j (t_sizearray t)); [|lia]. rewrite Hv. cbn. destruct e as [k v]. cbn in *. rewrite Ek. by destruct v.
    + exists (t_sizearray t + j)%nat. unfold at_place. destruct (Nat.ltb_spec (t_sizearray t + j) (t_sizearray t)); [lia|]. replace (t_sizearray t + j - t_sizearray t)%nat with j by lia.
      rewrite Hn. cbn. by destruct (i_val n).
  - intros (i & Hi). unfold at_place in Hi. destruct (Nat.ltb_spec i (t_sizearray t)).
    + left. destruct (t_array t !! i) as [v|] eqn:Hv; [|done]. cbn in Hi. destruct (ttisnil v) eqn:E; [done|]. injection Hi as <-. apply (in_arr v _ 0 i); [done|]. by intros ->.
    + right. destruct (t_node t !! (i - t_sizearray t)%nat) as [n|] eqn:Hn; [|done]. cbn in Hi. destruct (ttisnil (i_val n)) eqn:E; [done|]. injection Hi as <-.
      apply (elem_of_entries _ (i - t_sizearray t)); [done|]. by intros Ev; rewrite Ev in E.
Qed.

(** A body that does not clear a field. *)
Definition keeps_field (body : list pair → Table → Table) (k : TValue) : Prop :=
  ∀ l t, table_ok t → assoc (pairs t) k ≠ TNil → assoc (pairs (body l t)) k ≠ TNil.

Lemma kept_place body k l t j v : body_ok body → keeps_field body k → table_ok t → at_place t j = Some (k, v) → ∃ v', at_place (body l t) j = Some (k, v').
Proof.
  intros Hb Hk Hok Hj. destruct (Hb l t Hok) as [Hok' Hst]. pose proof (at_proper t j k v Hok Hj) as Hp. pose proof (table_keys_ok t (proj1 Hok)) as [Ha Hv].
  assert ((k, v) ∈ pairs t) as Hin by (apply in_pairs; eauto). assert (luaO_rawequalObj k k = true) as Hkk by (rewrite Forall_forall in Hv; apply (Hv (k, v) Hin)).
  destruct (assoc_cases (pairs (body l t)) k) as [(k' & v' & Hin' & Hek & _)|[E _]].
  2: { exfalso. apply (Hk l t Hok); [|done]. rewrite (assoc_in _ k k v Ha Hin Hkk). intros ->. apply in_pairs in Hin as (i & Hi); [|done]. unfold at_place in Hi.
    destruct (i <? t_sizearray t)%nat; [destruct (t_array t !! i) as [x|]; [|done]; cbn in Hi; by destruct x|destruct (t_node t !! _) as [n|]; [|done]; cbn in Hi; destruct (ttisnil (i_val n)) eqn:E'; [done|]; injection Hi as _ Ev; by rewrite Ev in E']. }
  apply in_pairs in Hin' as (j' & Hj'); [|done]. pose proof (at_proper _ _ _ _ Hok' Hj') as Hp'. pose proof (steady_key t _ j' k' Hst (at_key _ _ _ _ Hj') Hp') as Hkj'.
  pose proof (at_key _ _ _ _ Hj) as Hkj. assert (j' = j ∧ k' = k) as [-> ->]; [|eauto]. destruct Hok as [H Hal]. destruct (o_array _ H) as [_ Hm]. unfold MAXASIZE in Hm.
  pose proof (rawequal_arrayindex _ _ Hek) as Eidx. unfold key_at in Hkj, Hkj'. destruct (Nat.ltb_spec j (t_sizearray t)), (Nat.ltb_spec j' (t_sizearray t)).
  - subst k k'. rewrite !arrayindex_cast in Eidx by lia. assert (j' = j) as -> by lia. done.
  - destruct Hkj' as (n & Hn & En). subst k. rewrite <- En in Hp', Eidx. destruct (o_range _ H _ _ Hn Hp'). unfold inrange. rewrite Eidx, arrayindex_cast by lia. lia.
  - destruct Hkj as (n & Hn & En). subst k'. rewrite <- En in Hp, Eidx. destruct (o_range _ H _ _ Hn Hp). unfold inrange. rewrite <- Eidx, arrayindex_cast by lia. lia.
  - destruct Hkj as (n & Hn & En), Hkj' as (n' & Hn' & En'). assert (j' - t_sizearray t = j - t_sizearray t)%nat as E.
    { eapply (c_same _ _ (o_chains _ H)); [exact Hn'|exact Hn|by rewrite En'|by rewrite En|]. rewrite En, En'. by left. }
    rewrite E in Hn'. split; [lia|congruence].
Qed.

Lemma traversal_loop body : body_ok body → ∀ fuel i visited t key, table_ok t → findindex t key = LOk (Z.of_nat i - 1) → (i <= t_sizearray t + sizenode t)%nat →
  (t_sizearray t + sizenode t < i + fuel)%nat →
  ∃ rest, traversal fuel body visited t key = LOk (visited ++ rest) ∧ NoDup rest.*1 ∧ (∀ e, e ∈ rest → ∃ j, (i <= j)%nat ∧ key_at t j e.1 ∧ proper e.1) ∧
  ∀ j k v, (i <= j)%nat → at_place t j = Some (k, v) → keeps_field body k → k ∈ rest.*1.
Proof.
  intros Hb. induction fuel as [|fuel IH]; intros i visited t key Hok Hfi Hi Hf; [lia|]. cbn [traversal].
  destruct (luaH_next_ok t key (Z.of_nat i - 1) Hok Hfi) as (r & -> & Hr); [lia|]. replace (Z.to_nat (Z.of_nat i - 1 + 1)) with i in Hr by lia. cbn [mbind lres_mbind lua_bind]. destruct r as [[k v]|].
  2: { exists []. rewrite app_nil_r. split_and!; [done|constructor|by intros e ?%elem_of_nil|]. intros j k v Hj Hat _. by rewrite Hr in Hat. }
  destruct Hr as (j & Hij & Hat & Hno). pose proof (at_place_bound t j _ Hok Hat) as Hjb. pose proof (at_proper t j k v Hok Hat) as Hp.
  set (vis := visited ++ [(k, v)]). destruct (Hb vis t Hok) as [Hok1 Hst]. pose proof Hst as (Es & El & _). assert (sizenode (body vis t) = sizenode t) as En by (unfold sizenode; by rewrite El).
  destruct (IH (S j) vis (body vis t) k Hok1) as (rest & Et & Hnd & Hkeys & Hall); [rewrite (findindex_steady t _ j k v Hok Hst Hat); f_equal; lia|rewrite Es, En; lia|rewrite Es, En; lia|].
  exists ((k, v) :: rest). rewrite Et. unfold vis. rewrite <- app_assoc. split_and!; [done|..].
  - rewrite fmap_cons. constructor; [|done]. intros (e & E & He)%list_elem_of_fmap. destruct (Hkeys e He) as (j' & Hj' & Hk' & Hp'). cbn in E. rewrite <- E in Hk', Hp'.
    pose proof (steady_key t _ j' k Hst Hk' Hp) as Hk2. pose proof (key_place t j j' k Hok (at_key _ _ _ _ Hat) Hk2 Hp). lia.
  - intros e [->|He]%elem_of_cons; [exists j; split_and!; [lia|by eapply at_key|done]|]. destruct (Hkeys e He) as (j' & Hj' & Hk' & Hp'). exists j'. split_and!; [lia|by eapply steady_key|done].
  - intros j2 k2 v2 Hj2 Hat2 Hkeep. rewrite fmap_cons. destruct (decide (j2 = j)) as [->|Hne]; [assert (k2 = k) as -> by congruence; left|]. destruct (decide (j2 < j)%nat); [by rewrite Hno in Hat2 by lia|].
    right. destruct (kept_place body k2 vis t j2 v2 Hb Hkeep Hok Hat2) as (v' & Hat'). apply (Hall j2 k2 v'); [lia|done|done].
Qed.

(** C34: a loop over a table by [luaH_next] ends, whatever its body does to the values of the fields, clearing them included, and also when the
    collector passes and marks keys as dead; it comes to no field twice, and to every field that is not cleared. *)
Theorem traversal_complete body t : table_ok t → body_ok body →
  ∃ l, traversal (S (t_sizearray t + sizenode t)) body [] t TNil = LOk l ∧ NoDup l.*1 ∧ ∀ k v, (k, v) ∈ pairs t → keeps_field body k → k ∈ l.*1.
Proof.
  intros Hok Hb. destruct (traversal_loop body Hb (S (t_sizearray t + sizenode t)) 0 [] t TNil Hok) as (l & E & Hnd & _ & Hall); [done|lia|lia|].
  exists l. split_and!; [done|done|]. intros k v Hin Hk. apply in_pairs in Hin as (j & Hj); [|done]. by apply (Hall j k v); [lia|..].
Qed.
End next.

(** ** The length of a table

    [luaH_getn] finds a boundary: by halving in the array, by doubling and halving in the hash part, or by counting. *)

Section getn.
Context {M : Machine} (t : Table) (Hok : table_ok t).

(** The field of an integer. *)
Definition int_field (j : Z) : TValue := assoc (pairs t) (TNumber (cast_num j)).

(** An integer such that its field is not nil, or 0, and that of the next one is. *)
Definition boundary (n : Z) : Prop := 0 <= n ∧ (n = 0 ∨ int_field n ≠ TNil) ∧ int_field (n + 1) = TNil.

Lemma s32_small j : 0 <= j < 2 ^ 31 → s32 j = j.
Proof. intros Hj. unfold s32, u32. rewrite Z.mod_small by lia. destruct (Z.ltb_spec j 2147483648); lia. Qed.

Lemma ttisnil_spec v : ttisnil v = true ↔ v = TNil.
Proof. by destruct v. Qed.

Lemma num_absent_ok j : 0 <= j < 2 ^ 31 → num_absent t j = LOk (ttisnil (int_field j)).
Proof.
  intros Hj. unfold num_absent. rewrite s32_small by done. destruct (luaH_getnum_ok t j (proj1 Hok) ltac:(lia)) as (s & -> & Hs). cbn [mbind lres_mbind lua_bind].
  by rewrite (found_value t _ s (proj1 Hok) (or_introl (proj1 (cast_num_valid j ltac:(lia)))) Hs).
Qed.

Lemma array_field m v : 1 <= m <= Z.of_nat (t_sizearray t) → t_array t !! Z.to_nat (m - 1) = Some v → int_field m = v.
Proof.
  intros Hm Hv. destruct (o_array _ (proj1 Hok)) as [_ Hmax]. unfold MAXASIZE in Hmax. assert (found t (TNumber (cast_num m)) (ArraySlot (Z.to_nat (m - 1)))) as Hs.
  { cbn [found]. unfold inrange. rewrite arrayindex_cast by lia. split; [lia|done]. }
  pose proof (found_value t _ _ (proj1 Hok) (or_introl (I : proper (TNumber (cast_num m)))) Hs) as Hf. cbn [slot_get] in Hf. rewrite Hv in Hf. unfold int_field. congruence.
Qed.

(** *** Halving *)

Lemma halve_S fuel absent i j :
  halve (S fuel) absent i j =
  if 1 <? u32 (j - i) then b ← absent (u32 (i + j) / 2); if b : bool then halve fuel absent i (u32 (i + j) / 2) else halve fuel absent (u32 (i + j) / 2) j else LOk i.
Proof. done. Qed.

Lemma halve_ok absent : ∀ fuel i j, 0 <= i < j → j < 2 ^ 31 → j - i <= 2 ^ Z.of_nat fuel → (∀ m, i < m < j → absent m = LOk (ttisnil (int_field m))) →
  (i = 0 ∨ int_field i ≠ TNil) → int_field j = TNil → ∃ n, halve (S fuel) absent i j = LOk n ∧ boundary n.
Proof.
  induction fuel as [|fuel IH]; intros i j Hij Hj Hf Habs Hi Hjn; rewrite halve_S.
  - change (2 ^ Z.of_nat 0) with 1 in Hf. unfold u32. rewrite Z.mod_small by lia. destruct (Z.ltb_spec 1 (j - i)); [lia|]. exists i. split; [done|]. split_and!; [lia|done|]. by replace (i + 1) with j by lia.
  - unfold u32 at 1. rewrite Z.mod_small by lia. destruct (Z.ltb_spec 1 (j - i)) as [Hlt|Hge].
    2: { exists i. split; [done|]. split_and!; [lia|done|]. by replace (i + 1) with j by lia. }
    unfold u32. rewrite Z.mod_small by lia. set (m := (i + j) / 2). assert (i < m < j) as Hm by (unfold m; Z.div_mod_to_equations; lia).
    rewrite Nat2Z.inj_succ, Z.pow_succ_r in Hf by lia. assert (m - i <= 2 ^ Z.of_nat fuel ∧ j - m <= 2 ^ Z.of_nat fuel) as [H1 H2] by (unfold m; Z.div_mod_to_equations; lia).
    rewrite Habs by done. cbn [mbind lres_mbind lua_bind]. destruct (ttisnil (int_field m)) eqn:E.
    + apply ttisnil_spec in E. apply IH; [lia|lia|lia|intros; apply Habs; lia|done|done].
    + apply IH; [lia|lia|lia|intros; apply Habs; lia| |done]. right. intros Em. by rewrite Em in E.
Qed.

(** *** Counting *)

Lemma pairs_length : (length (pairs t) <= t_sizearray t + length (t_node t))%nat.
Proof.
  destruct Hok as [H Ha]. unfold pairs, arr_pairs. rewrite length_app, take_ge by lia. apply Nat.add_le_mono.
  - rewrite <- Ha. clear Ha. generalize 0%nat. induction (t_array t) as [|v l IH]; intros i; [done|]. cbn [arr length]. rewrite length_app. specialize (IH (S i)). unfold arr_ent. destruct (ttisnil v); cbn; lia.
  - induction (t_node t) as [|n l IH]; [done|]. change (entries (n :: l)) with (ent n ++ entries l). rewrite length_app. unfold ent. destruct (ttisnil (i_val n)); cbn; lia.
Qed.

(** As many integers as there are fields, and one more, are not all present. *)
Lemma present_bound n : 0 <= n < 2 ^ 31 → (∀ m, 1 <= m <= n → int_field m ≠ TNil) → n <= Z.of_nat (length (pairs t)).
Proof.
  intros Hn Hp. assert (seqZ 1 n ⊆ map arrayindex (pairs t).*1) as Hsub.
  { intros m Hm%elem_of_seqZ. destruct (assoc_cases (pairs t) (TNumber (cast_num m))) as [(k & v & Hin & Hk & _)|[E _]]; [|destruct (Hp m); [lia|done]].
    apply list_elem_of_fmap. exists k. split; [rewrite (rawequal_arrayindex _ _ Hk), arrayindex_cast by lia; done|]. apply list_elem_of_fmap. by exists (k, v). }
  pose proof (submseteq_length _ _ (NoDup_submseteq _ _ (NoDup_seqZ 1 n) Hsub)) as Hle. rewrite length_map, length_fmap, length_seqZ in Hle. lia.
Qed.

Lemma linear_search_ok : ∀ fuel i, 1 <= i → Z.of_nat (length (pairs t)) + 2 <= i + Z.of_nat fuel → i + Z.of_nat fuel < 2 ^ 31 → (∀ m, 1 <= m < i → int_field m ≠ TNil) →
  ∃ n, linear_search fuel t i = LOk n ∧ boundary n.
Proof.
  induction fuel as [|fuel IH]; intros i Hi Hlen Hb Hp.
  - exfalso. pose proof (present_bound (i - 1) ltac:(lia)) as H. specialize (H ltac:(intros; apply Hp; lia)). lia.
  - cbn [linear_search]. rewrite num_absent_ok by lia. cbn [mbind lres_mbind lua_bind]. destruct (ttisnil (int_field i)) eqn:E.
    + apply ttisnil_spec in E. exists (i - 1). split; [done|]. split_and!; [lia| |by replace (i - 1 + 1) with i by lia]. destruct (decide (i = 1)) as [->|]; [by left|right; apply Hp; lia].
    + unfold u32. rewrite Z.mod_small by lia. apply IH; [lia|lia|lia|]. intros m Hm. destruct (decide (m = i)) as [->|]; [intros Em; by rewrite Em in E|apply Hp; lia].
Qed.

(** *** Doubling *)

Lemma unbound_loop_ok : ∀ fuel i j, 0 <= i < j → j <= MAX_INT → MAX_INT < j * 2 ^ Z.of_nat fuel → (i = 0 ∨ int_field i ≠ TNil) →
  ∃ n, unbound_loop fuel t i j = LOk n ∧ boundary n.
Proof.
  unfold MAX_INT. induction fuel as [|fuel IH]; intros i j Hij Hj Hf Hi; [change (2 ^ Z.of_nat 0) with 1 in Hf; lia|]. cbn [unbound_loop]. rewrite num_absent_ok by lia. cbn [mbind lres_mbind lua_bind].
  destruct (ttisnil (int_field j)) eqn:E.
  - apply ttisnil_spec in E. apply halve_ok; [done|lia|change (2 ^ Z.of_nat 32) with 4294967296; lia|intros; apply num_absent_ok; lia|done|done].
  - unfold u32. rewrite Z.mod_small by lia. unfold MAX_INT. destruct (Z.ltb_spec 2147483645 (j * 2)) as [Hbig|Hsmall].
    + destruct Hok as [H Ha]. destruct (o_array _ H) as [_ Hm]. destruct (o_node _ H) as [Hn Hls]. pose proof pairs_length as Hpl. unfold MAXASIZE in Hm.
      assert (Z.of_nat (length (t_node t)) <= 2 ^ 26) as Hnode by (rewrite Hn; unfold sizenode; rewrite twoto_pow; apply Z.pow_le_mono_r; lia). apply linear_search_ok; [lia|lia|lia|intros; lia].
    + apply IH; [lia|lia| |right; intros Ej; by rewrite Ej in E]. rewrite Nat2Z.inj_succ, Z.pow_succ_r in Hf by lia. lia.
Qed.

(** C36: [luaH_getn] always ends with a boundary: 0 or an integer whose field is not nil, such that the field of the next one is nil. *)
Theorem getn_boundary : ∃ n, luaH_getn t = LOk n ∧ boundary n.
Proof.
  pose proof Hok as [H Ha]. destruct (o_array _ H) as [_ Hm]. unfold MAXASIZE in Hm. unfold luaH_getn. set (j := Z.of_nat (t_sizearray t)).
  assert (∀ m, 1 <= m <= j → (v ← lopt (t_array t !! Z.to_nat (m - 1)); LOk (ttisnil v)) = LOk (ttisnil (int_field m))) as Hfield.
  { intros m Hmj. destruct (lookup_lt_is_Some_2 (t_array t) (Z.to_nat (m - 1))) as [v Hv]; [lia|]. rewrite Hv. cbn. f_equal. f_equal. symmetry. by apply (array_field m v). }
  assert ((if 0 <? j then v ← lopt (t_array t !! (t_sizearray t - 1)%nat); LOk (ttisnil v) else LOk false) = LOk (bool_decide (0 < j) && ttisnil (int_field j))) as ->.
  { destruct (Z.ltb_spec 0 j); [rewrite bool_decide_true by done|by rewrite bool_decide_false by lia]. cbn [andb]. rewrite <- Hfield by lia. by replace (Z.to_nat (j - 1)) with (t_sizearray t - 1)%nat by lia. }
  cbn [mbind lres_mbind lua_bind]. destruct (bool_decide (0 < j) && ttisnil (int_field j)) eqn:E.
  { apply andb_true_iff in E as [Hj%bool_decide_eq_true Hn%ttisnil_spec]. apply halve_ok; [lia|lia|change (2 ^ Z.of_nat 32) with 4294967296; lia| |by left|done]. intros m Hmj. apply Hfield. lia. }
  assert (j = 0 ∨ int_field j ≠ TNil) as Hlast.
  { apply andb_false_iff in E as [Hj%bool_decide_eq_false|Hn]; [left; lia|right]. intros Ej. by rewrite Ej in Hn. }
  destruct (t_dummy t) eqn:Hd.
  - exists j. split; [done|]. split_and!; [lia|done|]. destruct (luaH_getnum_ok t (j + 1) H ltac:(lia)) as (s & _ & Hs).
    pose proof (found_value t (TNumber (cast_num (j + 1))) s H (or_introl I) Hs) as Hf. unfold int_field. destruct s as [|i|i]; cbn [slot_get] in Hf.
    + congruence.
    + destruct Hs as [Hr _]. unfold inrange in Hr. rewrite arrayindex_cast in Hr by lia. lia.
    + destruct Hs as (n & Hn & Hp & _). destruct (o_dummy _ H Hd) as [En _]. rewrite En in Hn. destruct i as [|i]; [|done]. cbn in Hn. by injection Hn as <-.
  - unfold unbound_search, u32. rewrite Z.mod_small by lia. apply unbound_loop_ok; [lia|unfold MAX_INT; lia| |done]. unfold MAX_INT. change (2 ^ Z.of_nat 33) with 8589934592. lia.
Qed.
End getn.
