(* ===== verification/TableDemo.v ===== *)
(** * A table in use

    A host, the objects of a small heap, and the theorems about tables applied to a table with fields of every kind. *)
From S2P Require Import Prelude LuaNum LuaApi LuaTable TableChain TableSize TableResize TableGrow TableSpec TableNext.

(** Integers of 4 bytes; strings are below 4096 in the memory, tables above. *)
#[local] Program Instance demo_machine : Machine := {|
  m_host := Host true true 4; out_of_range := λ _, 0; obj_type := λ p, if p <? 4096 then LUA_TSTRING else 5; str_hash := λ p, p / 16 |}.
Next Obligation. by left. Qed.

Definition int_key (z : Z) : TValue := TNumber (NInt z).
Definition str_key (p : Z) : TValue := TGc LUA_TSTRING p.

(** Fields of all kinds: hashes that meet, an array that comes to be and is grown, fields that are cleared, dead keys. *)
Definition demo_ops : list table_op :=
  map (λ i, SetAny (str_key (32 * i)) (int_key i)) (seqZ 1 5) ++ map (λ i, SetInt i (int_key (100 + i))) (seqZ 1 6) ++
  [SetAny (TBoolean true) (int_key 1); SetAny (TGc 5 4100) (int_key 2); SetAny (TLight 2 77) (int_key 3); SetString 64 TNil; Collect;
   SetInt 40 (int_key 4); SetString 512 (int_key 5); GrowArray 12; SetInt 12 (int_key 6); SetInt 3 TNil].

(** Only the kinds of keys that an operation may use are to be shown. *)
Ltac ops_ok := repeat (constructor; [cbn; first [done | lia | by repeat split; cbn; lia]|]); constructor.

Lemma demo_ops_ok : Forall op_ok demo_ops.
Proof. cbv [demo_ops map app seqZ seq fmap list_fmap]. ops_ok. Qed.

Definition demo_table : Table :=
  match (t ← luaH_new 0 3; ops_run demo_ops t) with LOk t => t | _ => TableOf 0 0 [] 0 [] true 0 end.

Lemma demo_table_ok : table_ok demo_table.
Proof.
  destruct (luaH_new_ok 0 3) as (t0 & E0 & Hok0 & Hp0); [done..|]. destruct (ops_ok_run demo_ops t0 (λ _, TNil)) as (t & E & Hok & _); [|apply demo_ops_ok|by rewrite Hp0|].
  - split; [done|]. by rewrite Hp0.
  - unfold demo_table. rewrite E0. cbn [mbind lres_mbind lua_bind]. by rewrite E.
Qed.

(** The sizes of the two parts, and a few fields. *)
Example demo_table_fields :
  (t_sizearray demo_table, t_lsizenode demo_table) = (12%nat, 4%nat) ∧
  map (getv demo_table) [int_key 2; int_key 3; str_key 64; str_key 96; TBoolean true; TGc 5 4100] =
    map LOk [int_key 102; TNil; TNil; int_key 3; int_key 1; int_key 2].
Proof. by vm_compute. Qed.

Lemma table_implements_map_witness :
  ∃ t, (t ← luaH_new 0 3; ops_run demo_ops t) = LOk t ∧ table_ok t ∧ getv t (str_key 64) = LOk TNil ∧ getv t (TBoolean true) = LOk (int_key 1) ∧ getv t (int_key 12) = LOk (int_key 6).
Proof.
  destruct (table_implements_map 0 3 demo_ops) as (t & E & Hok & Hv); [done|done|apply demo_ops_ok|done|].
  exists t. split; [exact E|]. split; [exact Hok|]. rewrite !Hv by (by left). vm_compute. split_and!; reflexivity.
Defined.

(** ** A rehash *)

Lemma demo_not_found : found demo_table (str_key 1024) Nilobject.
Proof.
  destruct (luaH_get_ok demo_table (str_key 1024) (proj1 demo_table_ok) ltac:(by left)) as (s & E & Hs). vm_compute in E. injection E as <-. exact Hs.
Qed.

Lemma rehash_is_best_witness :
  ∃ t', rehash (newkey 2) (str_key 1024) demo_table = LOk t' ∧ best 27 (Z.of_nat (t_sizearray t')) (str_key 1024 :: (pairs demo_table).*1) ∧ table_ok t' ∧ pairs t' ≡ₚ pairs demo_table.
Proof.
  apply (rehash_is_best demo_table (str_key 1024)).
  - exact demo_table_ok.
  - split_and!; [exact I|reflexivity|reflexivity].
  - exact demo_not_found.
  - vm_compute. reflexivity.
Defined.

(** The array part shrinks to the 8 places that are worth it: the twelfth goes to the hash part. *)
Example demo_rehash :
  match rehash (newkey 2) (str_key 1024) demo_table with LOk t => (t_sizearray t, t_lsizenode t, getv t (int_key 12)) = (8%nat, 4%nat, LOk (int_key 6)) | _ => False end.
Proof. vm_compute. reflexivity. Qed.

(** ** A loop that clears fields *)

(** The string at this address loses its field. *)
Definition clear_string (p : Z) (t : Table) : Table := match luaH_getstr t p with LOk s => default t (slot_set s TNil t) | _ => t end.

(** The field of the last key that was visited is cleared when it is a string; then the collector passes. *)
Definition clear_strings (l : list pair) (t : Table) : Table :=
  traverse_entries match last l with Some (TGc ty p, _) => if obj_type p =? LUA_TSTRING then clear_string p t else t | _ => t end.

Lemma clear_string_ok p t : table_ok t → obj_type p = LUA_TSTRING →
  table_ok (clear_string p t) ∧ steady t (clear_string p t) ∧
  ∀ k, proper k → luaO_rawequalObj (str_key p) k = false → assoc (pairs (clear_string p t)) k = assoc (pairs t) k.
Proof.
  intros Hok Hp. unfold clear_string. destruct (luaH_getstr_ok t p (proj1 Hok)) as (s & -> & Hs). assert (valid (str_key p)) as Hk by (split_and!; [done| |done]; cbn; by rewrite !Z.eqb_refl).
  assert (s = Nilobject ∨ s ≠ Nilobject) as [->|Hne] by (destruct s; [by left|by right..]); [by split_and!; [|apply steady_refl|]|].
  destruct (assigned s TNil (str_key p) t t) as (t' & E & Hok' & Hv & _); [done|by split|done|]. rewrite E. split_and!; [done|by eapply steady_slot|].
  intros k Hpk Ek. rewrite Hv by (by left). by rewrite Ek.
Qed.

Lemma clear_strings_ok : body_ok clear_strings.
Proof.
  intros l t Hok. enough (∀ t', table_ok t' → steady t t' → table_ok (traverse_entries t') ∧ steady t (traverse_entries t')) as H.
  - unfold clear_strings. destruct (last l) as [[[| | | |ty p|] v]|]; try (by apply H; [|apply steady_refl]).
    destruct (Z.eqb_spec (obj_type p) LUA_TSTRING) as [E|]; [|by apply H; [|apply steady_refl]]. destruct (clear_string_ok p t Hok E) as (Hok' & Hst & _). by apply H.
  - intros t' Hok' Hst. split; [by apply traverse_ok|by apply steady_traverse].
Qed.

Lemma clear_strings_keeps n : keeps_field clear_strings (TNumber n).
Proof.
  intros l t Hok Hv. unfold clear_strings. destruct (last l) as [[[| | | |ty p|] v]|]; try (by rewrite (proj2 (traverse_ok t Hok))).
  destruct (Z.eqb_spec (obj_type p) LUA_TSTRING) as [E|]; [|by rewrite (proj2 (traverse_ok t Hok))]. destruct (clear_string_ok p t Hok E) as (Hok' & _ & Hk).
  rewrite (proj2 (traverse_ok _ Hok')). by rewrite Hk.
Qed.

Lemma traversal_complete_witness :
  ∃ l, traversal (S (t_sizearray demo_table + sizenode demo_table)) clear_strings [] demo_table TNil = LOk l ∧ NoDup l.*1 ∧ int_key 40 ∈ l.*1.
Proof.
  destruct (traversal_complete clear_strings demo_table demo_table_ok clear_strings_ok) as (l & E & Hnd & Hall). exists l. split; [exact E|]. split; [exact Hnd|].
  apply (Hall (int_key 40) (int_key 4)); [|apply clear_strings_keeps]. apply (bool_decide_eq_true_1 _). vm_compute. reflexivity.
Defined.

(** All 15 fields are visited, and the strings are gone afterwards. *)
Example demo_traversal :
  match traversal 29 clear_strings [] demo_table TNil with LOk l => length l | _ => 0%nat end = length (pairs demo_table).
Proof. vm_compute. reflexivity. Qed.

(** ** A length *)

Lemma getn_boundary_witness : ∃ n, luaH_getn demo_table = LOk n ∧ boundary demo_table n.
Proof. apply (getn_boundary demo_table demo_table_ok). Defined.

(** The last place of the array has a value, and so does the field 40 of the hash part, but not 13. *)
Example demo_getn : luaH_getn demo_table = LOk 12.
Proof. vm_compute. reflexivity. Qed.

(** ** The smallest hash part

    A table that is resized to no nodes at all has one afterwards: the branch of [resize_hashpart] for no nodes is not taken. *)
Example no_nodes_is_one :
  match (t ← luaH_new 0 0; t' ← luaH_resizearray 4 t; LOk (t, t')) with
  | LOk (t, t') => (t_dummy t, t_dummy t', length (t_node t')) = (true, false, 1%nat)
  | _ => False
  end.
Proof. vm_compute. reflexivity. Qed.
