(* ===== verification/LuaRpc.v ===== *)
(** * Remote calls of Lua

    src/modules/luarpc.c on the serial transport of src/luarpc_elua_uart.c. A program has one connection: [w_tpt] is the
    transport of the client's handle or the server's accepting transport, [w_ltpt] the server's listening one. A Lua error
    leaves the function and its handlers ([catch]). The fuel of the functions that read or write values bounds the depth of the
    calls and the length of the loops. *)
From S2P Require Import Prelude Exchange LuaNum LuaApi.

Record Transport := MkTransport {
  fd : Z; tmr_id : Z; loc_little : bool; loc_intnum : bool; net_little : bool; net_intnum : bool; lnum_bytes : Z }.

Record world := World {
  w_L : lua_State; w_tpt : Transport; w_ltpt : Transport; w_link_errs : Z; w_on_error : option value }.

(** A build: its machine, the sign of [char], the serial line of the console, what of it exists, the room for [alloca], and
    the texts of system errors. *)
Class RpcConf := {
  rpc_host : host;
  char_signed : bool;
  CON_UART_ID : Z;
  platform_uart_exists : Z → bool;
  platform_timer_exists : Z → bool;
  stack_bytes : Z;
  strerror : Z → mem
}.

Abbreviation rpc := (io world).

Definition set_L (w : world) (L : lua_State) : world := World L (w_tpt w) (w_ltpt w) (w_link_errs w) (w_on_error w).
Definition set_tpt (w : world) (t : Transport) : world := World (w_L w) t (w_ltpt w) (w_link_errs w) (w_on_error w).
Definition set_ltpt (w : world) (t : Transport) : world := World (w_L w) (w_tpt w) t (w_link_errs w) (w_on_error w).
Definition set_errs (w : world) (n : Z) : world := World (w_L w) (w_tpt w) (w_ltpt w) n (w_on_error w).

Definition set_fd (t : Transport) (d : Z) : Transport := MkTransport d (tmr_id t) (loc_little t) (loc_intnum t) (net_little t) (net_intnum t) (lnum_bytes t).

(** ** Numbers of the protocol *)

Definition RPC_NIL := 0.
Definition RPC_NUMBER := 1.
Definition RPC_BOOLEAN := 2.
Definition RPC_STRING := 3.
Definition RPC_TABLE := 4.
Definition RPC_TABLE_END := 5.
Definition RPC_FUNCTION := 6.
Definition RPC_FUNCTION_END := 7.
Definition RPC_REMOTE := 8.

Definition RPC_CMD_CALL := 1.
Definition RPC_CMD_GET := 2.
Definition RPC_CMD_CON := 3.
Definition RPC_CMD_NEWINDEX := 4.

Definition RPC_READY := 64.
Definition RPC_UNSUPPORTED_CMD := 65.

Definition RPC_PROTOCOL_VERSION := 3.
Definition NUM_FUNCNAME_CHARS := 20.
Definition MAX_LINK_ERRS := 2.

Definition MAXINT := 2147483647.
Definition ERR_EOF := MAXINT - 100.
Definition ERR_CLOSED := MAXINT - 101.
Definition ERR_PROTOCOL := MAXINT - 102.
Definition ERR_NODATA := MAXINT - 103.
Definition ERR_COMMAND := MAXINT - 106.
Definition ERR_HEADER := MAXINT - 107.
Definition ERR_LONGFNAME := MAXINT - 108.

Definition INVALID_TRANSPORT := -1.
Definition PLATFORM_UART_INFINITE_TIMEOUT := -1.

(** ** Lua in a program *)

Definition lua_res {A} (f : lua_State → lres (A * lua_State)) : rpc A :=
  w ← get;
  match f (w_L w) with LOk (a, L) => put (set_L w L);; Ret a | LErr m => LuaErr m | LUndef => Undef end.

Definition lua_do (f : lua_State → lres lua_State) : rpc unit := lua_res (λ L, L' ← f L; LOk (tt, L')).

Definition lua_see {A} (f : lua_State → A) : rpc A := w ← get; Ret (f (w_L w)).

Section luarpc.
Context {vm : LuaVM} {conf : RpcConf}.

Definition lua_error {A} (fmt : mem) : rpc A := lua_res (λ _, luaL_error fmt).

Definition errorString (n : Z) : mem :=
  if n =? ERR_EOF then ascii_bytes "connection closed unexpectedly"
  else if n =? ERR_CLOSED then ascii_bytes "operation requested on closed transport"
  else if n =? ERR_PROTOCOL then ascii_bytes "error in the received protocol"
  else if n =? ERR_COMMAND then ascii_bytes "undefined command"
  else if n =? ERR_NODATA then ascii_bytes "no data received when attempting to read"
  else if n =? ERR_HEADER then ascii_bytes "header exchanged failed"
  else if n =? ERR_LONGFNAME then ascii_bytes "function name too long"
  else strerror n.

(** A [char] as an [int]. *)
Definition char_int (c : Z) : Z := if char_signed then s8 c else u8 c.

(** [alloca( n )]: what there is no room for is undefined. *)
Definition alloca (n : Z) : rpc unit := if n <=? stack_bytes then Ret tt else Undef.

(** ** The serial transport *)

Definition transport_init (t : Transport) : Transport :=
  MkTransport INVALID_TRANSPORT 0 (loc_little t) (loc_intnum t) (net_little t) (net_intnum t) (lnum_bytes t).

Definition verify_open (t : Transport) : rpc unit :=
  if fd t =? INVALID_TRANSPORT then Throw (Exception fatal ERR_CLOSED) else Ret tt.

Definition TRANSPORT_VERIFY_OPEN : rpc unit := w ← get; verify_open (w_tpt w).

(** The first byte may take any time, the others 0.1 s each. *)
Fixpoint read_loop (n : nat) (uart_timeout : Z) : rpc mem :=
  match n with
  | O => Ret []
  | S n =>
      TRANSPORT_VERIFY_OPEN;;
      w ← get;
      Recv (fd (w_tpt w)) uart_timeout (λ c,
        match c with
        | None => Throw (Exception nonfatal ERR_NODATA)
        | Some c => bs ← read_loop n 100000; Ret (u8 c :: bs)
        end)
  end.

Definition transport_read_buffer (length : Z) : rpc mem := read_loop (Z.to_nat length) PLATFORM_UART_INFINITE_TIMEOUT.

Fixpoint write_loop (bs : mem) : rpc unit :=
  match bs with [] => Ret tt | b :: bs => Send CON_UART_ID b (write_loop bs) end.

Definition transport_write_buffer (bs : mem) : rpc unit := TRANSPORT_VERIFY_OPEN;; write_loop bs.

Definition transport_accept : rpc unit :=
  w ← get; verify_open (w_ltpt w);; put (set_tpt w (set_fd (w_tpt w) (fd (w_ltpt w)))).

Definition transport_readable : bool := true.

Definition transport_is_open (t : Transport) : bool := negb (fd t =? INVALID_TRANSPORT).

Definition transport_close : rpc unit := w ← get; put (set_tpt w (set_fd (w_tpt w) INVALID_TRANSPORT)).

(** ** Bytes and numbers *)

Definition transport_read_string (length : Z) : rpc mem := transport_read_buffer length.

Definition transport_write_string (s : mem) : rpc unit := transport_write_buffer s.

Definition transport_read_u8 : rpc Z :=
  TRANSPORT_VERIFY_OPEN;;
  b ← transport_read_buffer 1;
  match b with b :: _ => Ret b | [] => Undef end.

Definition transport_write_u8 (x : Z) : rpc unit := TRANSPORT_VERIFY_OPEN;; transport_write_buffer [u8 x].

Fixpoint swap_from (n : nat) (i : Z) (number : mem) : option mem :=
  match n with
  | O => Some number
  | S n =>
      let numbersize := msize number in
      temp ← ld number i;
      b ← ld number (numbersize - 1 - i);
      number ← st number i b;
      number ← st number (numbersize - 1 - i) temp;
      swap_from n (i + 1) number
  end.

Definition swap_bytes (number : mem) : option mem := swap_from (length number / 2) 0 number.

Definition swap_if (c : bool) (number : mem) : rpc mem := if c then of_option (swap_bytes number) else Ret number.

Definition differs (t : Transport) : bool := negb (Bool.eqb (net_little t) (loc_little t)).

Definition transport_read_u32 : rpc Z :=
  TRANSPORT_VERIFY_OPEN;;
  w ← get;
  b ← transport_read_buffer 4;
  b ← swap_if (differs (w_tpt w)) b;
  Ret (host_val (h_little rpc_host) b).

Definition transport_write_u32 (x : Z) : rpc unit :=
  TRANSPORT_VERIFY_OPEN;;
  w ← get;
  b ← swap_if (differs (w_tpt w)) (host_bytes (h_little rpc_host) 4 (u32 x));
  transport_write_buffer b.

(** Another type of numbers: the integer of the bytes; the same type: the machine's own number, which must be there. *)
Definition transport_read_number : rpc lua_Number :=
  TRANSPORT_VERIFY_OPEN;;
  w ← get;
  let tpt := w_tpt w in
  b ← transport_read_buffer (lnum_bytes tpt);
  b ← swap_if (differs tpt) b;
  if negb (Bool.eqb (net_intnum tpt) (loc_intnum tpt)) then
    if bool_decide (lnum_bytes tpt ∈ [1; 2; 4; 8]) then Ret (num_of_int rpc_host (signed (lnum_bytes tpt) (host_val (h_little rpc_host) b)))
    else Undef
  else if lnum_bytes tpt <? h_bytes rpc_host then Undef
  else Ret (num_of_bytes rpc_host (take (Z.to_nat (h_bytes rpc_host)) b)).

Definition transport_write_number (x : lua_Number) : rpc unit :=
  TRANSPORT_VERIFY_OPEN;;
  w ← get;
  let tpt := w_tpt w in
  if net_intnum tpt then
    if bool_decide (lnum_bytes tpt ∈ [1; 2; 4; 8]) then
      y ← of_option (num_to_int (lnum_bytes tpt) x);
      b ← swap_if (differs tpt && negb (lnum_bytes tpt =? 1)) (host_bytes (h_little rpc_host) (Z.to_nat (lnum_bytes tpt)) y);
      transport_write_buffer b
    else Ret tt
  else if h_bytes rpc_host <? 8 then Undef
  else
    b ← swap_if (differs tpt) (take 8 (num_bytes rpc_host x));
    transport_write_buffer b.

(** ** Negotiation *)

Definition header_ok (h : mem) : bool :=
  match h with a :: b :: c :: d :: v :: _ => (a =? 76) && (b =? 82) && (c =? 80) && (d =? 67) && (v =? RPC_PROTOCOL_VERSION) | _ => false end.

Definition header_of (little : bool) (bytes : Z) (intnum : bool) : mem :=
  [76; 82; 80; 67; RPC_PROTOCOL_VERSION; cbool little; bytes; cbool intnum].

(** The server's response to the client. *)
Definition client_response : rpc unit :=
  header ← transport_read_string 8;
  if negb (header_ok header) then Throw (Exception nonfatal ERR_HEADER)
  else
    w ← get;
    let t := w_tpt w in
    match header with
    | [_; _; _; _; _; little; bytes; intnum] =>
        put (set_tpt w (MkTransport (fd t) (tmr_id t) (loc_little t) (loc_intnum t) (Z.odd little) (Z.odd intnum) (u8 bytes)))
    | _ => Undef
    end.

Definition client_negotiate : rpc unit :=
  w ← get;
  let h := rpc_host in
  let t := w_tpt w in
  put (set_tpt w (MkTransport (fd t) (tmr_id t) (h_little h) (h_intnum h) (net_little t) (net_intnum t) (u8 (h_bytes h))));;
  transport_write_string (header_of (h_little h) (u8 (h_bytes h)) (h_intnum h));;
  client_response.

Definition server_negotiate : rpc unit :=
  w ← get;
  let h := rpc_host in
  let t := w_tpt w in
  put (set_tpt w (MkTransport (fd t) (tmr_id t) (h_little h) (h_intnum h) (h_little h) (h_intnum h) (u8 (h_bytes h))));;
  header ← transport_read_string 8;
  if negb (header_ok header) then Throw (Exception nonfatal ERR_HEADER)
  else
    w ← get;
    let t := w_tpt w in
    match header with
    | [_; _; _; _; _; h5; h6; h7] =>
        let '(h5, little) := if negb (char_int h5 =? cbool (loc_little t)) then (0, false) else (h5, net_little t) in
        let h6 := if lnum_bytes t <? char_int h6 then lnum_bytes t else h6 in
        let bytes := if char_int h6 <? lnum_bytes t then u8 h6 else lnum_bytes t in
        let '(h7, intnum) := if negb (char_int h7 =? cbool (loc_intnum t)) then (1, true) else (h7, net_intnum t) in
        put (set_tpt w (MkTransport (fd t) (tmr_id t) (loc_little t) (loc_intnum t) little intnum bytes));;
        transport_write_string (take 5 header ++ [h5; h6; h7])
    | _ => Undef
    end.

(** ** Names *)

(** All the tokens that [strtok( funcname, "." )] and [strtok( NULL, "." )] give of a string, and the string after that. *)
Fixpoint strtok_loop (l : mem) (cur : option mem) : list mem * mem :=
  match l with
  | [] => (match cur with Some t => [t] | None => [] end, [])
  | c :: l' =>
      if c =? 0 then (match cur with Some t => [t] | None => [] end, l)
      else if c =? 46 then
        match cur with
        | Some t => let '(ts, r) := strtok_loop l' None in (t :: ts, 0 :: r)
        | None => let '(ts, r) := strtok_loop l' None in (ts, c :: r)
        end
      else let '(ts, r) := strtok_loop l' (Some (default [] cur ++ [c])) in (ts, c :: r)
  end.

Definition strtok (s : mem) : list mem * mem := strtok_loop s None.

Fixpoint getfields (ts : list mem) : rpc unit :=
  match ts with
  | [] => Ret tt
  | t :: ts => lua_do (lua_getfield (-1) t);; lua_do (lua_remove (-2));; getfields ts
  end.

(** The value of a name: without a token the code takes the global of no name. *)
Definition lua_getname (ts : list mem) : rpc unit :=
  match ts with [] => Undef | t :: ts => lua_do (lua_getglobal t);; getfields ts end.

(** A name of [len] bytes. *)
Definition read_name : rpc mem :=
  len ← transport_read_u32;
  alloca (len + 1);;
  transport_read_string (s32 len).

Definition read_index : rpc unit := funcname ← read_name; lua_getname (strtok funcname).1.

(** The helpers from the root to [helper], by its count of parents. *)
Fixpoint hstack (m : gmap Z udata) (nparents : nat) (parent : option Z) : option (list mem) :=
  match nparents with
  | O => Some []
  | S n =>
      p ← parent;
      match m !! p with
      | Some (UHelper parent _ funcname) => ns ← hstack m n parent; Some (ns ++ [funcname])
      | _ => None
      end
  end.

Fixpoint write_names (ns : list mem) : rpc unit :=
  match ns with
  | [] => Ret tt
  | n :: ns => transport_write_string n;; transport_write_string [46];; write_names ns
  end.

Definition helper_remote_index (helper : Z) : rpc unit :=
  w ← get;
  match l_udata (w_L w) !! helper with
  | Some (UHelper parent nparents funcname) =>
      ns ← of_option (hstack (l_udata (w_L w)) (Z.to_nat nparents) parent);
      transport_write_u32 (fold_right (λ n len, msize n + 1 + len) (msize funcname) ns);;
      write_names ns;;
      transport_write_string funcname
  | _ => Undef
  end.

(** ** Values *)

Definition ismetatable_type (d : option (Z * udata)) (tname : string) : bool :=
  match d with
  | Some (_, UHelper _ _ _) => String.eqb tname "rpc.helper"
  | Some (_, UHandle) => String.eqb tname "rpc.handle"
  | Some (_, UServerHandle) => String.eqb tname "rpc.server_handle"
  | _ => false
  end.

(** The cases of [write_variable], which calls itself and [write_table]. A read-only table or a light function is in no case. *)
Definition write_switch (write_variable write_table : Z → rpc unit) (var_index : Z) (v : option value) : rpc unit :=
  match v with
  | Some (VNumber x) => transport_write_u8 RPC_NUMBER;; transport_write_number x
  | Some (VString s) => transport_write_u8 RPC_STRING;; transport_write_u32 (u32 (msize s));; transport_write_string (take (Z.to_nat (s32 (msize s))) s)
  | Some (VTable _) => transport_write_u8 RPC_TABLE;; lua_do (lua_push VNil);; write_table var_index;; transport_write_u8 RPC_TABLE_END
  | Some VNil => transport_write_u8 RPC_NIL
  | Some (VBool b) => transport_write_u8 RPC_BOOLEAN;; transport_write_u8 (cbool b)
  | Some (VFunction _ | VCFunction _) =>
      transport_write_u8 RPC_FUNCTION;;
      lua_do (lua_pushvalue var_index);;
      w ← get;
      s ← lua_res (λ L, s ← luaL_dump (net_little (w_tpt w)) (lnum_bytes (w_tpt w)) (net_intnum (w_tpt w)) (-1) L; LOk (s, L));
      lua_do (lua_push (VString s));;
      n ← lua_see lua_gettop;
      write_variable n;;
      lua_do (lua_pop 2);;
      transport_write_u8 RPC_FUNCTION_END
  | Some (VUserdata u) =>
      d ← lua_see (λ L, lua_touserdata L var_index);
      if ismetatable_type d "rpc.helper" then transport_write_u8 RPC_REMOTE;; helper_remote_index u
      else lua_error (ascii_bytes "userdata transmission unsupported")
  | Some (VThread _) => lua_error (ascii_bytes "thread transmission unsupported")
  | Some (VLightUserdata _) => lua_error (ascii_bytes "light userdata transmission unsupported")
  | Some (VRotable _ | VLightFunction _) | None => Ret tt
  end.

(** A value at an absolute index. *)
Fixpoint write_variable (fuel : nat) (var_index : Z) : rpc unit :=
  match fuel with
  | O => Undef
  | S fuel =>
      v ← lua_see (λ L, lua_index L var_index);
      write_switch (write_variable fuel) (write_table fuel) var_index v
  end
(** The loop of [write_table], with the key on the stack. *)
with write_table (fuel : nat) (table_index : Z) : rpc unit :=
  match fuel with
  | O => Undef
  | S fuel =>
      more ← lua_res (lua_next table_index);
      if (more : bool) then
        n ← lua_see lua_gettop;
        write_variable fuel (n - 1);;
        write_variable fuel n;;
        lua_do (lua_pop 1);;
        write_table fuel table_index
      else Ret tt
  end.

(** The cases of [read_variable]: a value, pushed, or the end of a table or a function. *)
Definition read_switch (read_table : Z → rpc unit) (read_function : rpc unit) (type : Z) : rpc bool :=
  if type =? RPC_NIL then lua_do (lua_push VNil);; Ret true
  else if type =? RPC_BOOLEAN then b ← transport_read_u8; lua_do (lua_push (VBool (ctrue b)));; Ret true
  else if type =? RPC_NUMBER then x ← transport_read_number; lua_do (lua_push (VNumber x));; Ret true
  else if type =? RPC_STRING then
    len ← transport_read_u32;
    alloca (len + 1);;
    s ← transport_read_string (s32 len);
    lua_do (lua_push (VString s));; Ret true
  else if type =? RPC_TABLE then
    lua_do lua_newtable;;
    table_index ← lua_see lua_gettop;
    read_table table_index;; Ret true
  else if type =? RPC_TABLE_END then Ret false
  else if type =? RPC_FUNCTION then read_function;; Ret true
  else if type =? RPC_FUNCTION_END then Ret false
  else if type =? RPC_REMOTE then read_index;; Ret true
  else Throw (Exception fatal type).

Fixpoint read_variable (fuel : nat) : rpc bool :=
  match fuel with
  | O => Undef
  | S fuel => type ← transport_read_u8; read_switch (read_table fuel) (read_function fuel) type
  end
(** The loop of [read_table]. *)
with read_table (fuel : nat) (table_index : Z) : rpc unit :=
  match fuel with
  | O => Undef
  | S fuel =>
      more ← read_variable fuel;
      if (more : bool) then
        read_variable fuel;;
        lua_do (lua_rawset table_index);;
        read_table fuel table_index
      else Ret tt
  end
with read_function (fuel : nat) : rpc unit :=
  match fuel with
  | O => Undef
  | S fuel =>
      more ← read_variable fuel;
      if (more : bool) then
        b ← lua_res (lua_tolstring (-1));
        match b with
        | None => lua_res (luaL_typerror (-1) "string")
        | Some b =>
            lua_do (luaL_loadbuffer b);;
            lua_do (lua_insert (-2));;
            lua_do (lua_pop 1);;
            read_function fuel
        end
      else Ret tt
  end.

(** ** Errors *)

(** The handler of errors, or a Lua error with the text as a format. *)
Definition deal_with_error (error_string : mem) : rpc unit :=
  w ← get;
  match w_on_error w with
  | Some f =>
      lua_do (lua_push f);;
      lua_do (lua_push (VString (cstr error_string)));;
      lua_res (lua_pcall 1 0);; Ret tt
  | None => lua_error error_string
  end.

(** The number of results of the caller. *)
Definition generic_catch_handler (e : exception) : rpc Z :=
  deal_with_error (errorString (exc_errnum e));;
  match exc_type e with
  | nonfatal => lua_do (lua_push VNil);; Ret 1
  | fatal => transport_close;; Ret 0
  | done_exc => Ret 0
  end.

Definition check_num_args (desired_n : Z) : rpc unit :=
  n ← lua_see lua_gettop;
  if negb (n =? desired_n) then
    lua_res (λ _, LErr (luaL_where ++ ascii_bytes "must have " ++ number2str (num_of_int rpc_host desired_n) ++ ascii_bytes (if desired_n =? 1 then " arg" else " args")))
  else Ret tt.

(** ** The client: handles and helpers *)

Definition handle_create : rpc unit := lua_do (lua_newuserdata UHandle);; lua_do (lua_push VNil);; lua_do (lua_pop 1).

(** A new userdata; its parent goes to the registry by the stack. *)
Definition helper_create (funcname : mem) : rpc unit :=
  lua_do (lua_newuserdata (UHelper None 0 (take (Z.to_nat NUM_FUNCNAME_CHARS) funcname)));;
  lua_do (lua_pushvalue 1);; lua_do (lua_pop 1).

Definition helper_append (helper nparents : Z) (funcname : mem) : rpc unit :=
  lua_do (lua_newuserdata (UHelper (Some helper) (u8 (nparents + 1)) (take (Z.to_nat NUM_FUNCNAME_CHARS) funcname)));;
  lua_do (lua_pushvalue 1);; lua_do (lua_pop 1).

(** The key of an index: a string that is not too long. *)
Definition index_key (msg : string) : rpc mem :=
  v ← lua_see (λ L, lua_index L 2);
  match v with
  | Some (VString s) => if NUM_FUNCNAME_CHARS - 1 <? msize (cstr s) then lua_error (errorString ERR_LONGFNAME) else Ret (cstr s)
  | _ => lua_error (ascii_bytes msg)
  end.

Definition handle_index : rpc Z :=
  check_num_args 2;; s ← index_key "can't index a handle with a non-string"; helper_create s;; Ret 1.

Definition helper_index : rpc Z :=
  check_num_args 2;;
  s ← index_key "can't index handle with non-string";
  h ← lua_see (λ L, lua_touserdata L 1);
  match h with Some (u, UHelper _ n _) => helper_append u n s;; Ret 1 | _ => Undef end.

Definition wait_response : rpc unit :=
  cmdresp ← transport_read_u8;
  if negb (cmdresp =? RPC_READY) then Throw (Exception nonfatal ERR_PROTOCOL) else Ret tt.

Definition helper_wait_ready (cmd : Z) : rpc unit := transport_write_u8 cmd;; wait_response.

Definition helper_get (fuel : nat) (helper : option Z) : rpc Z :=
  match helper with
  | None => Undef
  | Some h =>
      catch (helper_wait_ready RPC_CMD_GET;; helper_remote_index h;; read_variable fuel;; Ret 1) generic_catch_handler
  end.

(** An error of the server: its code is not used. *)
Definition read_error : rpc unit :=
  transport_read_u32;;
  len ← transport_read_u32;
  alloca (len + 1);;
  err_string ← transport_read_string (s32 len);
  deal_with_error err_string.

Fixpoint write_args (fuel n : nat) (i : Z) : rpc unit :=
  match n with O => Ret tt | S n => write_variable fuel i;; write_args fuel n (i + 1) end.

Fixpoint read_args (fuel n : nat) : rpc unit :=
  match n with O => Ret tt | S n => read_variable fuel;; read_args fuel n end.

Definition luaL_checkhelper (idx : Z) : rpc (Z * option Z * mem) :=
  h ← lua_see (λ L, lua_touserdata L idx);
  match h with
  | Some (u, UHelper parent _ funcname) => Ret (u, parent, funcname)
  | _ => lua_res (luaL_typerror idx "rpc.helper")
  end.

(** The return code, and the results or the error. *)
Definition read_return (fuel : nat) : rpc Z :=
  ret_code ← transport_read_u8;
  if ret_code =? 0 then
    nret ← transport_read_u32;
    read_args fuel (Z.to_nat (s32 nret));;
    Ret (s32 nret)
  else read_error;; Ret 0.

Definition helper_call (fuel : nat) : rpc Z :=
  '(h, parent, funcname) ← luaL_checkhelper 1;
  if bool_decide (funcname = ascii_bytes "get") then helper_get fuel parent;; Ret 1
  else
    catch
      (helper_wait_ready RPC_CMD_CALL;;
       helper_remote_index h;;
       n ← lua_see lua_gettop;
       transport_write_u32 (n - 1);;
       write_args fuel (Z.to_nat (n - 1)) 2;;
       read_return fuel)
      generic_catch_handler.

Definition read_status : rpc Z :=
  ret_code ← transport_read_u8;
  (if negb (ret_code =? 0) then read_error else Ret tt);;
  Ret 0.

Definition helper_newindex (fuel : nat) : rpc Z :=
  '(h, _, _) ← luaL_checkhelper (-3);
  k ← lua_see (λ L, lua_index L (-2));
  match k with
  | Some (VString _) =>
      catch
        (helper_wait_ready RPC_CMD_NEWINDEX;;
         helper_remote_index h;;
         n ← lua_see lua_gettop;
         write_variable fuel (n - 1);;
         n ← lua_see lua_gettop;
         write_variable fuel n;;
         read_status)
        generic_catch_handler
  | _ => lua_res (luaL_typerror (-2) "string")
  end.

Definition handle_newindex (fuel : nat) : rpc Z :=
  check_num_args 3;;
  index_key "can't index handle with a non-string";;
  helper_create [];;
  lua_do (lua_replace 1);;
  helper_newindex fuel;;
  Ret 0.

(** ** The client: connections *)

(** [( unsigned )x] *)
Definition to_unsigned (x : lua_Number) : option Z :=
  match x with NInt z => Some (u32 z) | NDbl b => z ← dbl_to_int b; if (0 <=? z) && (z <? 4294967296) then Some z else None end.

Definition arg_number (idx : Z) (msg : string) : rpc lua_Number :=
  x ← lua_see (lua_tonumber idx);
  match x with Some x => Ret x | None => lua_error (ascii_bytes msg) end.

Definition mod_error {A} (name : string) (id : Z) : rpc A :=
  lua_res (λ _, LErr (luaL_where ++ ascii_bytes name ++ ascii_bytes " " ++ number2str (num_of_int rpc_host id) ++ ascii_bytes " does not exist")).

(** The timer's number is read from the first argument. *)
Definition transport_open_connection : rpc unit :=
  check_num_args 3;;
  x ← arg_number 1 "1st arg must be uart num";
  arg_number 2 "2nd arg must be timer num";;
  uart_id ← of_option (to_unsigned x);
  (if platform_uart_exists uart_id then Ret tt else mod_error "uart" uart_id);;
  tmr ← of_option (to_unsigned x);
  (if platform_timer_exists tmr then Ret tt else mod_error "timer" tmr);;
  w ← get;
  let t := w_tpt w in
  put (set_tpt w (MkTransport (s32 uart_id) tmr (loc_little t) (loc_intnum t) (net_little t) (net_intnum t) (lnum_bytes t))).

Definition rpc_connect : rpc Z :=
  catch
    (handle_create;;
     transport_open_connection;;
     transport_write_u8 RPC_CMD_CON;;
     client_negotiate)
    (λ e, deal_with_error (errorString (exc_errnum e));; lua_do (lua_push VNil));;
  Ret 1.

Definition server_handle_shutdown : rpc unit :=
  w ← get;
  put (set_tpt (set_ltpt w (set_fd (w_ltpt w) INVALID_TRANSPORT)) (set_fd (w_tpt w) INVALID_TRANSPORT)).

Definition rpc_close : rpc Z :=
  check_num_args 1;;
  d ← lua_see (λ L, lua_touserdata L 1);
  if ismetatable_type d "rpc.handle" then transport_close;; Ret 0
  else if ismetatable_type d "rpc.server_handle" then server_handle_shutdown;; Ret 0
  else lua_error (ascii_bytes "arg must be handle").

(** A new handler of errors, or none; the old one is gone in any case. *)
Definition rpc_on_error : rpc Z :=
  check_num_args 1;;
  w ← get;
  let set h := put (World (w_L w) (w_tpt w) (w_ltpt w) (w_link_errs w) h) in
  match lua_index (w_L w) 1 with
  | Some (VFunction _ | VCFunction _ | VLightFunction _) => set (lua_index (w_L w) 1);; Ret 0
  | Some VNil => set None;; Ret 0
  | _ => set None;; lua_error (ascii_bytes "bad args")
  end.

(** ** The server: commands *)

Fixpoint write_results (fuel n : nat) (i : Z) : rpc unit :=
  match n with O => Ret tt | S n => write_variable fuel i;; write_results fuel n (i + 1) end.

Definition LUA_ISCALLABLE (v : option value) : bool :=
  match v with Some (VFunction _ | VCFunction _ | VLightFunction _) => true | _ => false end.

(** The call of [read_cmd_call], with its results or its error. *)
Definition call_function (fuel : nat) (nargs stackpos : Z) : rpc unit :=
  error_code ← lua_res (lua_pcall nargs LUA_MULTRET);
  if negb (error_code =? 0) then
    errmsg ← lua_res (lua_tolstring (-1));
    let errmsg := default [] errmsg in
    transport_write_u8 1;;
    transport_write_u32 error_code;;
    transport_write_u32 (msize errmsg);;
    transport_write_string errmsg
  else
    transport_write_u8 0;;
    n ← lua_see lua_gettop;
    let nret := n - stackpos in
    transport_write_u32 nret;;
    write_results fuel (Z.to_nat nret) (stackpos + 1).

(** The answer of [read_cmd_call] when there is no function. *)
Definition bad_function (funcname : mem) : rpc unit :=
  let msg := ascii_bytes "undefined function: " in
  transport_write_u8 1;;
  transport_write_u32 LUA_ERRRUN;;
  transport_write_u32 (msize msg + msize funcname);;
  transport_write_string msg;;
  transport_write_string funcname.

Definition read_cmd_call (fuel : nat) : rpc unit :=
  funcname ← read_name;
  let '(tokens, funcname) := strtok funcname in
  lua_getname tokens;;
  n ← lua_see lua_gettop;
  let stackpos := n - 1 in
  f ← lua_see (λ L, lua_index L (-1));
  nargs ← transport_read_u32;
  read_args fuel (Z.to_nat (s32 nargs));;
  (if LUA_ISCALLABLE f then call_function fuel (s32 nargs) stackpos else bad_function funcname);;
  lua_do (lua_settop 0).

Definition read_cmd_get (fuel : nat) : rpc unit :=
  funcname ← read_name;
  lua_getname (strtok funcname).1;;
  n ← lua_see lua_gettop;
  write_variable fuel n;;
  lua_do (lua_settop 0).

Definition read_cmd_newindex (fuel : nat) : rpc unit :=
  funcname ← read_name;
  (if 0 <? msize (cstr funcname) then
     lua_getname (strtok funcname).1;;
     read_variable fuel;;
     read_variable fuel;;
     lua_do (lua_settable (-3))
   else
     read_variable fuel;;
     read_variable fuel;;
     k ← lua_res (lua_tolstring (-2));
     match k with None => Undef | Some k => lua_do (lua_setglobal (cstr k)) end);;
  transport_write_u8 0;;
  lua_do (lua_settop 0).

(** ** The server: connections *)

Definition server_handle_create : rpc unit :=
  lua_do (lua_newuserdata UServerHandle);;
  lua_do (lua_push VNil);; lua_do (lua_pop 1);;
  w ← get;
  put (World (w_L w) (transport_init (w_tpt w)) (transport_init (w_ltpt w)) 0 (w_on_error w)).

Definition transport_open_listener : rpc unit :=
  check_num_args 3;;
  x ← arg_number 1 "1st arg must be uart num";
  y ← arg_number 2 "2nd arg must be timer num";
  uart_id ← of_option (to_unsigned x);
  (if platform_uart_exists uart_id then Ret tt else lua_error (ascii_bytes "invalid uart id"));;
  tmr ← of_option (to_unsigned y);
  (if platform_timer_exists tmr then Ret tt else lua_error (ascii_bytes "invalid timer id"));;
  w ← get;
  let t := w_ltpt w in
  put (set_ltpt w (MkTransport (s32 uart_id) tmr (loc_little t) (loc_intnum t) (net_little t) (net_intnum t) (lnum_bytes t))).

(** Whether there is a handle. *)
Definition rpc_listen_helper : rpc bool :=
  catch
    (server_handle_create;; transport_open_listener;; Ret true)
    (λ e, server_handle_shutdown;; deal_with_error (errorString (exc_errnum e));; Ret false).

Definition rpc_listen : rpc Z :=
  handle ← rpc_listen_helper;
  if (handle : bool) then Ret 1 else lua_error (ascii_bytes "bad handle").

(** ** The server: requests *)

Definition rpc_peek : rpc Z :=
  check_num_args 1;;
  d ← lua_see (λ L, lua_touserdata L 1);
  if negb (ismetatable_type d "rpc.server_handle") then lua_error (ascii_bytes "arg must be server handle")
  else
    w ← get;
    let ready := if transport_readable then VNumber (num_of_int rpc_host 1) else VNil in
    if transport_is_open (w_tpt w) then lua_do (lua_push ready);; Ret 1
    else if transport_is_open (w_ltpt w) then lua_do (lua_push ready);; Ret 1
    else lua_do (lua_push (VNumber (num_of_int rpc_host 0)));; Ret 1.

Definition read_cmd (fuel : nat) : rpc unit :=
  cmd ← transport_read_u8;
  (if cmd =? RPC_CMD_CALL then transport_write_u8 RPC_READY;; read_cmd_call fuel
   else if cmd =? RPC_CMD_GET then transport_write_u8 RPC_READY;; read_cmd_get fuel
   else if cmd =? RPC_CMD_CON then server_negotiate
   else if cmd =? RPC_CMD_NEWINDEX then transport_write_u8 RPC_READY;; read_cmd_newindex fuel
   else transport_write_u8 RPC_UNSUPPORTED_CMD;; Throw (Exception nonfatal ERR_COMMAND));;
  w ← get; put (set_errs w 0).

(** The handler of a command's errors: the third in a row that is not fatal closes the connection. *)
Definition link_error (e : exception) : rpc unit :=
  match exc_type e with
  | nonfatal =>
      w ← get;
      let n := w_link_errs w + 1 in
      if MAX_LINK_ERRS <? n then put (set_errs w 0);; Throw e else put (set_errs w n)
  | _ => Throw e
  end.

Definition accept_connection : rpc unit :=
  transport_accept;;
  cmd ← transport_read_u8;
  if cmd =? RPC_CMD_CON then server_negotiate else Throw (Exception nonfatal ERR_COMMAND).

Definition dispatch_error (e : exception) : rpc unit :=
  match exc_type e with
  | fatal => server_handle_shutdown;; deal_with_error (errorString (exc_errnum e))
  | nonfatal => transport_close
  | done_exc => Throw e
  end.

Definition rpc_dispatch_helper (fuel : nat) : rpc unit :=
  catch
    (w ← get;
     if transport_is_open (w_tpt w) then catch (read_cmd fuel) link_error else accept_connection)
    dispatch_error.

Definition rpc_dispatch (fuel : nat) : rpc Z :=
  check_num_args 1;;
  d ← lua_see (λ L, lua_touserdata L 1);
  match d with
  | Some (_, UServerHandle) => rpc_dispatch_helper fuel;; Ret 0
  | _ => lua_res (luaL_typerror 1 "rpc.server_handle")
  end.

(** The loop of [rpc_server], for at most [n] requests. *)
Fixpoint server_loop (fuel n : nat) : rpc unit :=
  w ← get;
  if transport_is_open (w_ltpt w) then
    match n with O => Undef | S n => rpc_dispatch_helper fuel;; server_loop fuel n end
  else Ret tt.

(** The handle goes to the registry and back. *)
Definition rpc_server (fuel n : nat) : rpc Z :=
  handle ← rpc_listen_helper;
  if (handle : bool) then
    h ← lua_see (λ L, lua_index L (-1));
    lua_do (lua_pop 1);;
    v ← of_option h;
    lua_do (lua_push v);;
    server_loop fuel n;;
    server_handle_shutdown;; Ret 0
  else Undef.
End luarpc.
