(* ===== verification/LuaRpcWire.v ===== *)
(** * The bytes of the remote calls of Lua

    What the functions of LuaRpc.v that write send, those that read understand: bytes, integers and numbers between machines of
    either byte order, with integers or doubles. *)
From S2P Require Import Prelude Exchange LuaNum LuaApi LuaRpc.

(** ** Programs that return *)

Section does.
Context {vm : LuaVM} {conf : RpcConf}.

(** On the console's line: the program returns [a], having read [inp] up to [inp'] and written [out]. *)
Definition does {A} (p : rpc A) (w : world) (inp : mem) (a : A) (w' : world) (inp' out : mem) : Prop :=
  steps CON_UART_ID p w inp (Ret a) w' inp' out.

Lemma does_ret {A} (a : A) w inp : does (Ret a) w inp a w inp [].
Proof. constructor. Qed.

Lemma does_bind {A B} (p : rpc A) (f : A → rpc B) w inp a w1 inp1 out1 b w2 inp2 out2 out :
  does p w inp a w1 inp1 out1 → does (f a) w1 inp1 b w2 inp2 out2 → out = out1 ++ out2 → does (p ≫= f) w inp b w2 inp2 out.
Proof. intros H1 H2 ->. by apply (steps_then _ p f w inp a w1 inp1 out1). Qed.

(** A part that writes nothing. *)
Lemma does_silent {A B} (p : rpc A) (f : A → rpc B) w inp a w1 inp1 b w2 inp2 out :
  does p w inp a w1 inp1 [] → does (f a) w1 inp1 b w2 inp2 out → does (p ≫= f) w inp b w2 inp2 out.
Proof. intros H1 H2. by eapply does_bind. Qed.

Lemma does_catch {A} (p : rpc A) h w inp a w' inp' out : does p w inp a w' inp' out → does (catch p h) w inp a w' inp' out.
Proof. intros H. by apply (steps_catch _ p h) in H. Qed.

Lemma does_get w inp : does get w inp w w inp [].
Proof. apply steps_get. Qed.

Lemma does_put w' w inp : does (put w') w inp tt w' inp [].
Proof. apply steps_put. Qed.

Lemma does_see {A} (f : lua_State → A) w inp : does (lua_see f) w inp (f (w_L w)) w inp [].
Proof. eapply does_bind; [apply does_get|apply does_ret|done]. Qed.

Lemma does_res {A} (f : lua_State → lres (A * lua_State)) w inp a L : f (w_L w) = LOk (a, L) → does (lua_res f) w inp a (set_L w L) inp [].
Proof. intros H. eapply does_bind; [apply does_get| |]; cbn beta; [rewrite H; eapply does_bind; [apply does_put|apply does_ret|done]|done]. Qed.

Lemma does_do f w inp L : f (w_L w) = LOk L → does (lua_do f) w inp tt (set_L w L) inp [].
Proof. intros H. apply does_res. by rewrite H. Qed.

Lemma does_do_to f w inp L w' : f (w_L w) = LOk L → w' = set_L w L → does (lua_do f) w inp tt w' inp [].
Proof. intros H ->. by apply does_do. Qed.

(** ** Bytes *)

(** The transport is open on the console's line. *)
Definition link_open (w : world) : Prop := fd (w_tpt w) = CON_UART_ID ∧ CON_UART_ID ≠ INVALID_TRANSPORT.

Lemma does_verify w inp : link_open w → does TRANSPORT_VERIFY_OPEN w inp tt w inp [].
Proof.
  intros [H1 H2]. eapply does_bind; [apply does_get| |done]. unfold verify_open. rewrite H1, (proj2 (Z.eqb_neq _ _) H2). apply does_ret.
Qed.

Lemma does_read_loop bs : ∀ tmo w rest, bytes_ok bs → link_open w → does (read_loop (length bs) tmo) w (bs ++ rest) bs w rest [].
Proof.
  induction bs as [|b bs IH]; intros tmo w rest Hb Hw; [apply does_ret|]. apply Forall_cons in Hb as [Hb Hbs]. cbn [read_loop length].
  eapply does_bind; [by apply does_verify| |done]. eapply does_bind; [apply does_get| |done]. cbn beta. destruct Hw as [Hfd Hid]. rewrite Hfd.
  unfold does. change ([] : mem) with ([] ++ [] : mem). eapply steps_trans; [apply steps_recv|]. rewrite (u8_id b) by (unfold byte_ok in Hb; lia).
  eapply does_bind; [apply IH; [done|by split]|apply does_ret|done].
Qed.

Lemma does_read_buffer n bs w rest : bytes_ok bs → msize bs = n → link_open w → does (transport_read_buffer n) w (bs ++ rest) bs w rest [].
Proof. intros Hb <- Hw. unfold transport_read_buffer, msize. rewrite Nat2Z.id. by apply does_read_loop. Qed.

Lemma does_write_loop bs : ∀ w inp, does (write_loop bs) w inp tt w inp bs.
Proof.
  induction bs as [|b bs IH]; intros w inp; [apply does_ret|]. cbn. unfold does. change (b :: bs) with ([b] ++ bs). eapply steps_trans; [apply steps_send|apply IH].
Qed.

Lemma does_write_buffer bs w inp : link_open w → does (transport_write_buffer bs) w inp tt w inp bs.
Proof. intros Hw. eapply does_bind; [by apply does_verify|apply does_write_loop|done]. Qed.

Lemma does_read_u8 b w rest : byte_ok b → link_open w → does transport_read_u8 w (b :: rest) b w rest [].
Proof.
  intros Hb Hw. eapply does_bind; [by apply does_verify| |done]. eapply does_bind; [by apply (does_read_buffer 1 [b]); [apply bytes_ok_one| |]|apply does_ret|done].
Qed.

Lemma does_write_u8 b w inp : 0 <= b < 256 → link_open w → does (transport_write_u8 b) w inp tt w inp [b].
Proof. intros Hb Hw. eapply does_bind; [by apply does_verify|by apply does_write_buffer|]. by rewrite u8_id. Qed.

Lemma does_alloca n w inp : n <= stack_bytes → does (alloca n) w inp tt w inp [].
Proof. intros H. unfold alloca. rewrite (proj2 (Z.leb_le _ _) H). apply does_ret. Qed.
End does.

(** ** Byte orders *)

Lemma half_SS n : (S (S n) / 2 = S (n / 2))%nat.
Proof. replace (S (S n)) with (n + 1 * 2)%nat by lia. rewrite Nat.div_add by lia. lia. Qed.

Lemma swap_from_rev n : ∀ a m b, n = (length m / 2)%nat → length a = length b → bytes_ok m →
  swap_from n (msize a) (a ++ m ++ b) = Some (a ++ rev m ++ b).
Proof.
  induction n as [|n IH]; intros a m b Hn Hab Hm.
  - destruct m as [|x [|y m]]; [done|done|]. cbn [length] in Hn. rewrite half_SS in Hn. done.
  - destruct m as [|x m]; [done|]. destruct m as [|z m _] using rev_ind; [done|].
    apply Forall_cons in Hm as [Hx [Hm Hz]%bytes_ok_app]. apply Forall_cons in Hz as [Hz _]. unfold byte_ok in Hx, Hz.
    cbn [rev]. rewrite rev_app_distr. cbn [rev app]. assert (msize (a ++ x :: (m ++ [z]) ++ b) = 2 * msize a + msize m + 2) as Hs by (unfold msize; rewrite length_app; cbn [length]; rewrite !length_app; cbn [length]; lia).
    cbn [swap_from]. rewrite Hs. pose proof (msize_nonneg a). pose proof (msize_nonneg m).
    assert (a ++ x :: (m ++ [z]) ++ b = (a ++ x :: m) ++ z :: b) as E by (by rewrite <- app_assoc; cbn; rewrite <- app_assoc).
    assert (msize (a ++ x :: m) = 2 * msize a + msize m + 2 - 1 - msize a) as Hsz by (rewrite msize_app, msize_cons; lia).
    assert (ld (a ++ x :: (m ++ [z]) ++ b) (msize a) = Some x) as ->.
    { rewrite ld_app_r by lia. by rewrite Z.sub_diag. }
    cbn [mbind option_bind]. assert (ld (a ++ x :: (m ++ [z]) ++ b) (2 * msize a + msize m + 2 - 1 - msize a) = Some z) as ->.
    { rewrite E, <- Hsz, ld_app_r by lia. by rewrite Z.sub_diag. }
    cbn [mbind option_bind]. rewrite st_spec by lia. cbn [mbind option_bind]. rewrite (u8_id z) by lia. unfold msize at 1 2. rewrite Nat2Z.id, insert_app_r_alt, Nat.sub_diag by lia. cbn [app list_insert insert].
    assert (a ++ z :: (m ++ [z]) ++ b = (a ++ z :: m) ++ z :: b) as -> by (by rewrite <- !app_assoc; cbn).
    rewrite st_spec by (rewrite msize_app, msize_cons; rewrite msize_app, msize_cons; pose proof (msize_nonneg b); unfold msize in *; lia). cbn [mbind option_bind]. rewrite (u8_id x) by lia.
    replace (Z.to_nat (2 * msize a + msize m + 2 - 1 - msize a)) with (length (a ++ z :: m)) by (rewrite length_app; cbn; unfold msize in *; lia).
    rewrite insert_app_r_alt, Nat.sub_diag by lia. cbn [list_insert insert].
    replace (Z.of_nat (length a) + 1) with (msize (a ++ [z])) by (by rewrite msize_app).
    replace ((a ++ z :: m) ++ x :: b) with ((a ++ [z]) ++ m ++ x :: b) by (by rewrite <- !app_assoc).
    rewrite IH; [by rewrite <- !app_assoc| |rewrite length_app; cbn; lia|done].
    cbn [length] in Hn. rewrite length_app, Nat.add_1_r, half_SS in Hn. lia.
Qed.

(** The loop reverses. *)
Lemma swap_bytes_rev l : bytes_ok l → swap_bytes l = Some (rev l).
Proof. intros H. pose proof (swap_from_rev (length l / 2) [] l [] eq_refl eq_refl H) as E. by rewrite !app_nil_r in E. Qed.

Section integers.
Context {vm : LuaVM} {conf : RpcConf}.

(** The transport is open, and knows its machine. *)
Definition ready (w : world) : Prop := link_open w ∧ loc_little (w_tpt w) = h_little rpc_host ∧ loc_intnum (w_tpt w) = h_intnum rpc_host.

(** Between the byte order of the machine and that of the line. *)
Lemma does_swap_out w inp n z : loc_little (w_tpt w) = h_little rpc_host →
  does (swap_if (differs (w_tpt w)) (host_bytes (h_little rpc_host) n z)) w inp (host_bytes (net_little (w_tpt w)) n z) w inp [].
Proof.
  intros Hl. unfold differs. rewrite Hl. unfold swap_if. destruct (net_little (w_tpt w)), (h_little rpc_host); cbn [Bool.eqb negb]; try apply does_ret.
  all: rewrite swap_bytes_rev by apply host_bytes_ok; rewrite host_bytes_rev; apply does_ret.
Qed.

Lemma does_swap_in w inp n z : loc_little (w_tpt w) = h_little rpc_host →
  does (swap_if (differs (w_tpt w)) (host_bytes (net_little (w_tpt w)) n z)) w inp (host_bytes (h_little rpc_host) n z) w inp [].
Proof.
  intros Hl. unfold differs. rewrite Hl. unfold swap_if. destruct (net_little (w_tpt w)), (h_little rpc_host); cbn [Bool.eqb negb]; try apply does_ret.
  all: rewrite swap_bytes_rev by apply host_bytes_ok; rewrite host_bytes_rev; apply does_ret.
Qed.

Lemma does_write_u32 x w inp : ready w → 0 <= x < 4294967296 → does (transport_write_u32 x) w inp tt w inp (host_bytes (net_little (w_tpt w)) 4 x).
Proof.
  intros (Hw & Hl & _) Hx. unfold transport_write_u32. rewrite (u32_id x Hx). eapply does_bind; [by apply does_verify| |done].
  eapply does_bind; [apply does_get| |done]. eapply does_bind; [by apply does_swap_out| |done]. by apply does_write_buffer.
Qed.

Lemma does_read_u32 x w rest : ready w → 0 <= x < 4294967296 → does transport_read_u32 w (host_bytes (net_little (w_tpt w)) 4 x ++ rest) x w rest [].
Proof.
  intros (Hw & Hl & _) Hx. eapply does_bind; [by apply does_verify| |done]. eapply does_bind; [apply does_get| |done].
  eapply does_bind; [apply does_read_buffer; [apply host_bytes_ok|by rewrite msize_host_bytes|done]| |done].
  eapply does_bind; [by apply does_swap_in| |done]. rewrite host_val_bytes. change (256 ^ Z.of_nat 4) with 4294967296. rewrite Z.mod_small by done. apply does_ret.
Qed.

(** ** Numbers *)

(** The bytes of a number, and the number that arrives on a machine, if it can be represented. *)
Definition wire_num (t : Transport) (x : lua_Number) : option mem :=
  if net_intnum t then y ← num_to_int (lnum_bytes t) x; Some (host_bytes (net_little t) (Z.to_nat (lnum_bytes t)) y)
  else match x with NDbl b => Some (host_bytes (net_little t) 8 b) | NInt _ => None end.

Definition carry_num (h : host) (t : Transport) (x : lua_Number) : option lua_Number :=
  if net_intnum t then y ← num_to_int (lnum_bytes t) x; Some (num_of_int h y) else Some x.

(** A machine that can read the numbers of a connection as they are. *)
Definition nums_read (h : host) (t : Transport) : Prop :=
  lnum_bytes t ∈ [1; 2; 4; 8] ∧ if net_intnum t then h_intnum h = true → lnum_bytes t = h_bytes h else h_intnum h = false ∧ lnum_bytes t = 8.

Lemma sizes_pos n : n ∈ [1; 2; 4; 8] → 0 < n.
Proof. rewrite !elem_of_cons, elem_of_nil. lia. Qed.

Lemma does_write_number x bs w inp : ready w → host_ok rpc_host → num_ok rpc_host x → lnum_bytes (w_tpt w) ∈ [1; 2; 4; 8] →
  wire_num (w_tpt w) x = Some bs → does (transport_write_number x) w inp tt w inp bs.
Proof.
  intros (Hw & Hl & Hi) Hh Hx Hn. unfold wire_num, transport_write_number. intros Hbs.
  eapply does_bind; [by apply does_verify| |done]. eapply does_bind; [apply does_get| |done]. cbv zeta. destruct (net_intnum (w_tpt w)).
  - rewrite bool_decide_true by done. destruct (num_to_int (lnum_bytes (w_tpt w)) x) as [y|]; [|done]. cbn [mbind option_bind] in Hbs. simplify_eq.
    eapply does_bind; [apply does_ret| |done]. eapply (does_silent _ _ _ _ (host_bytes (net_little (w_tpt w)) (Z.to_nat (lnum_bytes (w_tpt w))) y)); [|by apply does_write_buffer]. destruct (Z.eqb_spec (lnum_bytes (w_tpt w)) 1) as [E|E].
    + rewrite E, andb_false_r. assert (host_bytes (net_little (w_tpt w)) (Z.to_nat 1) y = host_bytes (h_little rpc_host) (Z.to_nat 1) y) as -> by (by destruct (net_little (w_tpt w)), (h_little rpc_host)). apply does_ret.
    + rewrite andb_true_r. by apply does_swap_out.
  - destruct x as [z|b]; [done|]. simplify_eq. destruct Hx as [Hf Hb]. unfold host_ok in Hh. rewrite Hf in Hh. rewrite Hh. cbn [Z.ltb Z.compare Pos.compare Pos.compare_cont].
    eapply does_silent; [|by apply does_write_buffer]. unfold num_bytes. rewrite Hh. rewrite take_ge by (rewrite host_bytes_length; done). by apply does_swap_out.
Qed.

Lemma num_to_int_fits n x y : 0 < n → num_to_int n x = Some y → fits n y = true.
Proof.
  intros Hn. destruct x as [z|b]; cbn; [intros [= <-]; by apply signed_fits|]. destruct (dbl_to_int b) as [v|]; [|done]. cbn [mbind option_bind]. by destruct (fits n v) eqn:E; intros; simplify_eq.
Qed.

Lemma does_read_number x x' bs w rest : ready w → host_ok rpc_host → nums_read rpc_host (w_tpt w) → (∀ b, x = NDbl b → 0 <= b < 2 ^ 64) →
  wire_num (w_tpt w) x = Some bs → carry_num rpc_host (w_tpt w) x = Some x' → does transport_read_number w (bs ++ rest) x' w rest [].
Proof.
  intros (Hw & Hl & Hi) Hh [Hn Hnr] Hx. unfold wire_num, carry_num, transport_read_number. intros Hbs Hc.
  pose proof (sizes_pos _ Hn) as Hpos.
  assert (∃ y, bs = host_bytes (net_little (w_tpt w)) (Z.to_nat (lnum_bytes (w_tpt w))) y ∧
    if net_intnum (w_tpt w) then num_to_int (lnum_bytes (w_tpt w)) x = Some y ∧ x' = num_of_int rpc_host y else x = NDbl y ∧ x' = x) as (y & -> & Hy).
  { destruct (net_intnum (w_tpt w)); [destruct (num_to_int _ x) as [y|]; [|done]; cbn [mbind option_bind] in *; simplify_eq; by exists y|].
    destruct x as [|b]; [done|]. simplify_eq. destruct Hnr as [_ ->]. by exists b. }
  clear Hbs Hc. eapply does_bind; [by apply does_verify| |done]. eapply does_bind; [apply does_get| |done]. cbv zeta.
  eapply does_bind; [apply does_read_buffer; [apply host_bytes_ok|rewrite msize_host_bytes; lia|done]| |done].
  eapply does_bind; [by apply does_swap_in| |done]. rewrite Hi. destruct (net_intnum (w_tpt w)) eqn:Ei.
  - destruct Hy as [Hy ->]. pose proof (num_to_int_fits _ _ _ Hpos Hy) as Hf. destruct (h_intnum rpc_host) eqn:Eh; cbn [Bool.eqb negb].
    + rewrite (Hnr eq_refl), Z.ltb_irrefl. rewrite take_ge by (by rewrite host_bytes_length). unfold num_of_bytes, num_of_int. rewrite Eh, host_val_bytes.
      rewrite (Hnr eq_refl) in Hf. rewrite Z2Nat.id by (rewrite <- (Hnr eq_refl); lia). rewrite signed_mod_any by (rewrite <- (Hnr eq_refl); lia). apply does_ret.
    + rewrite bool_decide_true by done. rewrite host_val_bytes, Z2Nat.id, (signed_mod _ _ Hpos Hf) by lia. apply does_ret.
  - destruct Hy as [-> ->], Hnr as [Eh E8]. rewrite Eh. cbn [Bool.eqb negb]. unfold host_ok in Hh. rewrite Eh in Hh. rewrite E8, Hh. cbn [Z.ltb Z.compare Pos.compare Pos.compare_cont].
    rewrite take_ge by (by rewrite host_bytes_length). unfold num_of_bytes. rewrite Eh, host_val_bytes. change (256 ^ Z.of_nat (Z.to_nat 8)) with (2 ^ 64). rewrite Z.mod_small by (by apply Hx). apply does_ret.
Qed.
End integers.

(** ** Negotiation *)

Section negotiation.
Context {vm : LuaVM} {conf : RpcConf}.

Lemma char_int_small c : 0 <= c < 128 → char_int c = c.
Proof. intros H. unfold char_int, s8. rewrite !u8_id by lia. rewrite (proj2 (Z.ltb_lt c 128)) by lia. by destruct char_signed. Qed.

(** What two machines agree on: their byte order or big endian, integers if one has integers, the smaller size. *)
Definition agreed_little (hc hs : host) : bool := if Bool.eqb (h_little hc) (h_little hs) then h_little hs else false.
Definition agreed_intnum (hc hs : host) : bool := h_intnum hc || h_intnum hs.
Definition agreed_bytes (hc hs : host) : Z := Z.min (h_bytes hc) (h_bytes hs).

(** A transport of the machine [h] after that. *)
Definition session (h hc hs : host) (t : Transport) : Transport :=
  MkTransport (fd t) (tmr_id t) (h_little h) (h_intnum h) (agreed_little hc hs) (agreed_intnum hc hs) (agreed_bytes hc hs).

Lemma host_ok_bytes h : host_ok h → h_bytes h ∈ [1; 2; 4; 8].
Proof. unfold host_ok. destruct (h_intnum h); [done|]. intros ->. set_solver. Qed.

Lemma cases_1248 n : n ∈ [1; 2; 4; 8] → n = 1 ∨ n = 2 ∨ n = 4 ∨ n = 8.
Proof. rewrite !elem_of_cons, elem_of_nil. tauto. Qed.

Lemma agreed_bytes_ok hc hs : host_ok hc → host_ok hs → agreed_bytes hc hs ∈ [1; 2; 4; 8].
Proof.
  intros H1%host_ok_bytes H2%host_ok_bytes. unfold agreed_bytes. destruct (Z.min_spec (h_bytes hc) (h_bytes hs)) as [[_ ->]|[_ ->]]; done.
Qed.

Lemma header_bytes_ok l b i : 0 <= b < 256 → bytes_ok (header_of l b i).
Proof. intros Hb. unfold header_of, bytes_ok. rewrite !Forall_cons, Forall_nil. unfold byte_ok, RPC_PROTOCOL_VERSION, cbool. destruct l, i; split_and!; (lia || done). Qed.

Definition agreed_header (hc hs : host) : mem := header_of (agreed_little hc hs) (agreed_bytes hc hs) (agreed_intnum hc hs).

Lemma does_server_negotiate hc w rest : host_ok hc → host_ok rpc_host → link_open w →
  does server_negotiate w (header_of (h_little hc) (h_bytes hc) (h_intnum hc) ++ rest) tt (set_tpt w (session rpc_host hc rpc_host (w_tpt w))) rest (agreed_header hc rpc_host).
Proof.
  intros Hc%host_ok_bytes Hs%host_ok_bytes [Hfd Hid]. apply cases_1248 in Hc, Hs. assert (u8 (h_bytes rpc_host) = h_bytes rpc_host) as Eu by (apply u8_id; lia).
  unfold server_negotiate. eapply does_silent; [apply does_get|]. cbv zeta. rewrite Eu. eapply does_silent; [apply does_put|].
  eapply does_silent; [apply (does_read_buffer 8); [apply header_bytes_ok; lia|done|by split]|]. cbn [header_ok header_of].
  eapply does_silent; [apply does_get|]. cbn [set_tpt w_tpt loc_little loc_intnum net_little net_intnum lnum_bytes fd tmr_id].
  rewrite !(char_int_small (cbool _)) by (destruct (h_little hc), (h_intnum hc); cbn; lia). rewrite (char_int_small (h_bytes hc)) by lia.
  assert ((if negb (cbool (h_little hc) =? cbool (h_little rpc_host)) then (0, false) else (cbool (h_little hc), h_little rpc_host)) = (cbool (agreed_little hc rpc_host), agreed_little hc rpc_host)) as ->.
  { unfold agreed_little. by destruct (h_little hc), (h_little rpc_host). }
  assert ((if negb (cbool (h_intnum hc) =? cbool (h_intnum rpc_host)) then (1, true) else (cbool (h_intnum hc), h_intnum rpc_host)) = (cbool (agreed_intnum hc rpc_host), agreed_intnum hc rpc_host)) as ->.
  { unfold agreed_intnum. by destruct (h_intnum hc), (h_intnum rpc_host). }
  assert ((if h_bytes rpc_host <? h_bytes hc then h_bytes rpc_host else h_bytes hc) = agreed_bytes hc rpc_host) as ->.
  { unfold agreed_bytes. destruct (Z.ltb_spec (h_bytes rpc_host) (h_bytes hc)); lia. }
  assert (0 <= agreed_bytes hc rpc_host < 128) as Hb by (unfold agreed_bytes; lia). rewrite (char_int_small (agreed_bytes _ _)) by done. rewrite u8_id by lia.
  assert ((if agreed_bytes hc rpc_host <? h_bytes rpc_host then agreed_bytes hc rpc_host else h_bytes rpc_host) = agreed_bytes hc rpc_host) as ->.
  { unfold agreed_bytes. destruct (Z.ltb_spec (Z.min (h_bytes hc) (h_bytes rpc_host)) (h_bytes rpc_host)); lia. }
  eapply does_silent; [apply does_put|]. by apply does_write_buffer.
Qed.

Lemma does_client_response hs w rest : host_ok rpc_host → host_ok hs → link_open w → loc_little (w_tpt w) = h_little rpc_host → loc_intnum (w_tpt w) = h_intnum rpc_host →
  does client_response w (agreed_header rpc_host hs ++ rest) tt (set_tpt w (session rpc_host rpc_host hs (w_tpt w))) rest [].
Proof.
  intros Hc Hs Hw Hl Hi. assert (0 <= agreed_bytes rpc_host hs < 256) as Hb by (pose proof (cases_1248 _ (agreed_bytes_ok _ _ Hc Hs)); lia).
  eapply does_silent; [apply (does_read_buffer 8); [by apply header_bytes_ok|done|done]|]. cbn [header_ok agreed_header header_of].
  eapply does_silent; [apply does_get|]. rewrite u8_id by done. unfold session. rewrite Hl, Hi.
  assert (∀ b, Z.odd (cbool b) = b) as Eo by (by intros []). rewrite !Eo. apply does_put.
Qed.
End negotiation.
