(* ===== verification/LuaRpcValues.v ===== *)
(** * Values of the remote calls of Lua

    A value without cycles is a tree ([data]); what [write_variable] sends of it, [read_variable] makes a value of on the other
    machine, with its numbers as they are there. *)
From S2P Require Import Prelude Exchange LuaNum LuaApi LuaRpc LuaRpcWire.

(** ** Trees *)

(** A function is its dump. *)
Inductive data :=
  | DNil
  | DBool (b : bool)
  | DNum (x : lua_Number)
  | DStr (s : mem)
  | DFun (s : mem)
  | DTab (l : entries)
with entries :=
  | ENil
  | ECons (k v : data) (l : entries).

Scheme data_mut := Induction for data Sort Prop with entries_mut := Induction for entries Sort Prop.
Combined Scheme data_entries_ind from data_mut, entries_mut.

(** The value of a tree that is no table and no function. *)
Definition scalar (d : data) : option value :=
  match d with DBool b => Some (VBool b) | DNum x => Some (VNumber x) | DStr s => Some (VString s) | _ => None end.

(** A key of a table: a boolean, a number or a string, that is equal to itself. *)
Definition key_ok (d : data) : bool := match scalar d with Some v => rawequalObj v v | None => false end.

Definition key_eqb (a b : data) : bool :=
  match scalar a, scalar b with Some v, Some u => rawequalObj v u | _, _ => false end.

Fixpoint has_key (k : data) (l : entries) : bool :=
  match l with ENil => false | ECons k' _ l => key_eqb k k' || has_key k l end.

Definition bytes_okb (s : mem) : bool := forallb (λ b, (0 <=? b) && (b <? 256)) s.

(** A tree of a Lua table: different keys, no nil, and strings shorter than [n]. *)
Fixpoint data_ok (n : Z) (d : data) : bool :=
  match d with
  | DStr s | DFun s => bytes_okb s && (msize s <? n)
  | DTab l => entries_ok n l
  | _ => true
  end
with entries_ok (n : Z) (l : entries) : bool :=
  match l with
  | ENil => true
  | ECons k v l =>
      key_ok k && negb (has_key k l) && match v with DNil => false | _ => true end && data_ok n k && data_ok n v && entries_ok n l
  end.

(** The numbers are those of a machine. *)
Fixpoint data_num (P : lua_Number → Prop) (d : data) : Prop :=
  match d with DNum x => P x | DTab l => entries_num P l | _ => True end
with entries_num (P : lua_Number → Prop) (l : entries) : Prop :=
  match l with ENil => True | ECons k v l => data_num P k ∧ data_num P v ∧ entries_num P l end.

(** The dumps of its functions. *)
Fixpoint data_fun (P : mem → Prop) (d : data) : Prop :=
  match d with DFun s => P s | DTab l => entries_fun P l | _ => True end
with entries_fun (P : mem → Prop) (l : entries) : Prop :=
  match l with ENil => True | ECons k v l => data_fun P k ∧ data_fun P v ∧ entries_fun P l end.

(** Stack slots, and depth of calls. *)
Fixpoint room (d : data) : Z :=
  match d with DTab l => 2 + entries_room l | DFun _ => 2 | _ => 1 end
with entries_room (l : entries) : Z :=
  match l with ENil => 0 | ECons k v l => Z.max (Z.max (room k) (room v)) (entries_room l) end.

Fixpoint depth (d : data) : nat :=
  match d with DTab l => S (entries_depth l) | DFun _ => 4 | _ => 1 end
with entries_depth (l : entries) : nat :=
  match l with ENil => 2 | ECons k v l => S (Nat.max (Nat.max (depth k) (depth v)) (entries_depth l)) end.

(** ** What is sent, and what arrives *)

Definition wire_str (t : Transport) (s : mem) : mem := RPC_STRING :: host_bytes (net_little t) 4 (msize s) ++ s.

Fixpoint encode (t : Transport) (d : data) : option mem :=
  match d with
  | DNil => Some [RPC_NIL]
  | DBool b => Some [RPC_BOOLEAN; cbool b]
  | DNum x => bs ← wire_num t x; Some (RPC_NUMBER :: bs)
  | DStr s => Some (wire_str t s)
  | DFun s => Some (RPC_FUNCTION :: wire_str t s ++ [RPC_FUNCTION_END])
  | DTab l => bs ← encode_entries t l; Some (RPC_TABLE :: bs ++ [RPC_TABLE_END])
  end
with encode_entries (t : Transport) (l : entries) : option mem :=
  match l with
  | ENil => Some []
  | ECons k v l => a ← encode t k; b ← encode t v; c ← encode_entries t l; Some (a ++ b ++ c)
  end.

Fixpoint carry (h : host) (t : Transport) (d : data) : option data :=
  match d with
  | DNum x => y ← carry_num h t x; Some (DNum y)
  | DTab l => l' ← carry_entries h t l; Some (DTab l')
  | _ => Some d
  end
with carry_entries (h : host) (t : Transport) (l : entries) : option entries :=
  match l with
  | ENil => Some ENil
  | ECons k v l => k' ← carry h t k; v' ← carry h t v; l' ← carry_entries h t l; Some (ECons k' v' l')
  end.

(** ** Values of a state of Lua *)

Section reify.
(** The functions with a dump. *)
Variable F : Z → mem → Prop.

Fixpoint reify (h : gmap Z table) (v : value) (d : data) : Prop :=
  match d with
  | DNil => v = VNil
  | DBool b => v = VBool b
  | DNum x => v = VNumber x
  | DStr s => v = VString s
  | DFun s => ∃ f, v = VFunction f ∧ F f s
  | DTab l => ∃ r t, v = VTable r ∧ h !! r = Some t ∧ reify_entries h (t_entries t) l
  end
with reify_entries (h : gmap Z table) (es : list (value * value)) (l : entries) : Prop :=
  match l with
  | ENil => es = []
  | ECons k v l => ∃ kv vv es', es = (kv, vv) :: es' ∧ reify h kv k ∧ reify h vv v ∧ reify_entries h es' l
  end.

Lemma reify_mono h h' : h ⊆ h' → (∀ d v, reify h v d → reify h' v d) ∧ (∀ l es, reify_entries h es l → reify_entries h' es l).
Proof.
  intros Hh. apply data_entries_ind; cbn; try done.
  - intros l IH v (r & t & -> & Hr & Hl). exists r, t. split_and!; [done|by eapply lookup_weaken|by apply IH].
  - intros k IHk v IHv l IHl es (kv & vv & es' & -> & Hk & Hv & Hl). exists kv, vv, es'. naive_solver.
Qed.

Lemma reify_scalar h v d u : scalar d = Some u → reify h v d ↔ v = u.
Proof. destruct d; cbn; intros; simplify_eq; done. Qed.
End reify.

(** ** Keys *)

Lemma num_eqb_sym x y : num_eqb x y = num_eqb y x.
Proof.
  destruct x as [a|a], y as [b|b]; cbn [num_eqb]; try reflexivity; [apply Z.eqb_sym|]. destruct (Z.eqb_spec a b) as [->|Hn]; [by rewrite Z.eqb_refl|]. rewrite (proj2 (Z.eqb_neq b a)) by done. cbn [orb].
  unfold dbl_nan, dbl_zero. destruct (Z.eqb_spec (dbl_exp a) 0) as [->|], (Z.eqb_spec (dbl_exp b) 0) as [->|]; cbn [orb andb negb]; rewrite ?andb_false_r, ?andb_true_r; try reflexivity.
  by destruct (dbl_frac a =? 0), (dbl_frac b =? 0).
Qed.

Lemma rawequal_sym u v : rawequalObj u v = rawequalObj v u.
Proof. destruct u, v; try apply num_eqb_sym; unfold rawequalObj; apply bool_decide_ext; split;
 congruence. Qed.

(** No entry has a key that is equal to that of [k]. *)
Definition key_free (es : list (value * value)) (k : data) : Prop := ∀ u, scalar k = Some u → Forall (λ e, rawequalObj e.1 u = false) es.

Lemma find_free es u : Forall (λ e : value * value, rawequalObj e.1 u = false) es → list_find (λ e, rawequalObj e.1 u = true) es = None.
Proof. intros H. apply list_find_None. eapply Forall_impl; [exact H|]. cbn. intros [a b] E. by rewrite E. Qed.

Lemma luaH_set_free es k u v : key_ok k = true → scalar k = Some u → v ≠ VNil → key_free es k → luaH_set es u v = LOk (es ++ [(u, v)]).
Proof.
  intros Hk Hu Hv Hf. specialize (Hf u Hu). unfold key_ok in Hk. rewrite Hu in Hk. unfold luaH_set, entries_set. rewrite (find_free es u Hf), decide_False by done.
  destruct k; cbn in Hu; simplify_eq; try done. destruct x; cbn in *; [done|]. destruct (dbl_nan bits); [done|]. done.
Qed.

Lemma key_ok_scalar k : key_ok k = true → ∃ u, scalar k = Some u ∧ u ≠ VNil ∧ rawequalObj u u = true.
Proof. unfold key_ok. destruct (scalar k) as [u|] eqn:E; [|done]. intros H. exists u. split_and!; [done| |done]. by destruct k; cbn in E; simplify_eq. Qed.

(** [lua_next] goes from a key to the entry after it. *)
Lemma luaH_next_skip pre u v post : Forall (λ e : value * value, rawequalObj e.1 u = false) pre → rawequalObj u u = true →
  luaH_next (pre ++ (u, v) :: post) u = LOk (head post).
Proof. intros Hp Hu. induction Hp as [|[a b] pre Ha _ IH]; cbn; [by rewrite Hu|]. cbn in Ha. by rewrite Ha. Qed.

Lemma bytes_okb_ok s : bytes_okb s = true → bytes_ok s.
Proof. induction s as [|b s IH]; [constructor|]. cbn. intros [[H1 H2]%andb_true_iff H]%andb_true_iff. constructor; [unfold byte_ok; lia|by apply IH]. Qed.

Fixpoint keys_free (pre : list (value * value)) (l : entries) : Prop :=
  match l with ENil => True | ECons k _ l => key_free pre k ∧ keys_free pre l end.

Lemma keys_free_nil l : keys_free [] l.
Proof. induction l as [|k v l IH]; cbn; [done|]. split; [intros u _; constructor|done]. Qed.

(** The keys of the rest stay free when an entry is done. *)
Lemma keys_free_snoc pre k kv vv l : scalar k = Some kv → has_key k l = false → keys_free pre l → keys_free (pre ++ [(kv, vv)]) l.
Proof.
  intros Hk. induction l as [|k' v' l IH]; cbn [has_key keys_free]; [done|]. intros [H1 H2]%orb_false_iff [Hf Hl]. split; [|by apply IH].
  intros u Hu. apply Forall_app. split; [by apply Hf|]. constructor; [|done]. cbn. unfold key_eqb in H1. by rewrite Hk, Hu in H1.
Qed.

(** ** The stack *)

Lemma gettop_cons v L s : l_stack L = v :: s → lua_gettop L = 1 + Z.of_nat (length s).
Proof. unfold lua_gettop. intros ->. cbn. lia. Qed.

Lemma lua_index_abs L i : 1 <= i <= lua_gettop L → lua_index L i = l_stack L !! Z.to_nat (lua_gettop L - i).
Proof.
  intros Hi. unfold lua_index, index2adr. rewrite (proj2 (Z.ltb_lt 0 i)), (proj2 (Z.leb_le i (lua_gettop L))) by lia. done.
Qed.

Lemma lua_index_le L i v : 1 <= i → lua_index L i = Some v → i <= lua_gettop L.
Proof.
  intros Hi Hv. unfold lua_index, index2adr in Hv. destruct (Z.leb_spec i (lua_gettop L)); [done|]. rewrite andb_false_r in Hv. by rewrite (proj2 (Z.ltb_ge i 0)) in Hv by lia.
Qed.

Lemma lua_index_neg1 L v s : l_stack L = v :: s → lua_index L (-1) = Some v.
Proof. intros Hs. unfold lua_index, index2adr. rewrite (gettop_cons v L s Hs). cbn [Z.ltb Z.compare andb]. rewrite (proj2 (Z.leb_le _ _)) by lia. cbn. by rewrite Hs. Qed.

(** What is pushed later does not change what is at an absolute index. *)
Lemma lua_index_push L L' top i v : l_stack L' = top ++ l_stack L → 1 <= i → lua_index L i = Some v → lua_index L' i = Some v.
Proof.
  intros Hs Hi Hv. pose proof (lua_index_le L i v Hi Hv) as Hle.
  rewrite lua_index_abs in Hv by lia. assert (lua_gettop L' = Z.of_nat (length top) + lua_gettop L) as Hn by (unfold lua_gettop; rewrite Hs, length_app; lia).
  rewrite lua_index_abs by lia. rewrite Hs, Hn, lookup_app_r by lia. rewrite <- Hv. f_equal. unfold lua_gettop in *. lia.
Qed.

Lemma lua_index_top L v s : l_stack L = v :: s → lua_index L (lua_gettop L) = Some v.
Proof. intros Hs. rewrite lua_index_abs by (rewrite (gettop_cons v L s Hs); lia). by rewrite Z.sub_diag, Hs. Qed.

Lemma lua_index_under L v u s : l_stack L = v :: u :: s → lua_index L (lua_gettop L - 1) = Some u.
Proof.
  intros Hs. pose proof (gettop_cons v L _ Hs) as Hn. cbn [length] in Hn. rewrite lua_index_abs by lia. replace (lua_gettop L - (lua_gettop L - 1)) with 1 by lia. by rewrite Hs.
Qed.

Lemma lua_push_ok v L : lua_gettop L < l_slots L → lua_push v L = LOk (set_stack L (v :: l_stack L)).
Proof. intros H. unfold lua_push. by rewrite (proj2 (Z.ltb_lt _ _) H). Qed.

Lemma lua_pop_ok L top s : l_stack L = top ++ s → lua_pop (Z.of_nat (length top)) L = LOk (set_stack L s).
Proof.
  intros Hs. unfold lua_pop, lua_settop. assert (lua_gettop L = Z.of_nat (length top) + Z.of_nat (length s)) as Hn by (unfold lua_gettop; rewrite Hs, length_app; lia).
  rewrite (proj2 (Z.leb_gt 0 _)) by lia. replace (lua_gettop L + (- Z.of_nat (length top) - 1) + 1) with (Z.of_nat (length s)) by lia.
  rewrite (proj2 (Z.ltb_ge _ 0)), (proj2 (Z.leb_le _ _)) by lia. do 2 f_equal. rewrite Hs, Hn. replace (Z.to_nat _) with (length top) by lia. apply drop_app_length.
Qed.

Lemma set_L_id w : set_L w (w_L w) = w.
Proof. by destruct w. Qed.

Lemma set_L_back w L s : set_L (set_L w (set_stack (w_L w) s)) (set_stack L (l_stack (w_L w))) = set_L w (set_stack L (l_stack (w_L w))).
Proof. done. Qed.

Lemma set_stack_id L : set_stack L (l_stack L) = L.
Proof. by destruct L. Qed.

(** ** Writing *)

(** The rounds of the functions. *)
Lemma write_variable_S `{LuaVM, RpcConf} fuel i :
  write_variable (S fuel) i = (v ← lua_see (λ L, lua_index L i); write_switch (write_variable fuel) (write_table fuel) i v).
Proof. reflexivity. Qed.

Lemma write_table_S `{LuaVM, RpcConf} fuel i :
  write_table (S fuel) i =
  (more ← lua_res (lua_next i);
   if (more : bool) then n ← lua_see lua_gettop; write_variable fuel (n - 1);; write_variable fuel n;; lua_do (lua_pop 1);; write_table fuel i
   else Ret tt).
Proof. reflexivity. Qed.

Section write.
Context {vm : LuaVM} {conf : RpcConf}.
Context (t : Transport) (n : Z).
Hypothesis Hhost : host_ok rpc_host.
Hypothesis Hsizes : lnum_bytes t ∈ [1; 2; 4; 8].
Hypothesis Hn : n <= 2147483648.

(** A function and its dump for the transport. *)
Definition dumps (f : Z) (s : mem) : Prop := luaU_dump (net_little t) (lnum_bytes t) (net_intnum t) f = s.

(** The state of a program that writes: its transport is [t]. *)
Definition writes (w : world) : Prop := ready w ∧ w_tpt w = t.

Lemma does_write_str fuel idx s w inp : writes w → bytes_okb s && (msize s <? n) = true → lua_index (w_L w) idx = Some (VString s) →
  does (write_variable (S fuel) idx) w inp tt w inp (wire_str t s).
Proof.
  intros [Hw <-] Hs Hi. apply andb_true_iff in Hs as [_ Hs%Z.ltb_lt]. pose proof (msize_nonneg s). rewrite write_variable_S. eapply does_silent; [apply does_see|]. rewrite Hi. cbn [write_switch].
  eapply does_bind; [by apply does_write_u8; [done|apply Hw]| |done]. rewrite u32_id, s32_id by lia. eapply does_bind; [by apply does_write_u32; [|lia]| |done].
  unfold msize. rewrite Nat2Z.id, firstn_all. apply does_write_buffer, Hw.
Qed.

(** The key on the stack is that of the last entry that is done. *)
Definition at_key (pre : list (value * value)) (k : value) : Prop :=
  (pre = [] ∧ k = VNil) ∨ ∃ p v, pre = p ++ [(k, v)] ∧ k ≠ VNil ∧ rawequalObj k k = true ∧ Forall (λ e, rawequalObj e.1 k = false) p.

Lemma at_key_next pre k es : at_key pre k → (if decide (k = VNil) then LOk (head (pre ++ es)) else luaH_next (pre ++ es) k) = LOk (head es).
Proof.
  intros [[-> ->]|(p & v & -> & Hk & Hkk & Hp)]; [done|]. rewrite decide_False by done. rewrite <- app_assoc. cbn. by apply luaH_next_skip.
Qed.

Lemma lua_next_some L idx r tb pre k s k' v' es : lua_index L idx = Some (VTable r) → l_heap L !! r = Some tb → t_entries tb = pre ++ (k', v') :: es → at_key pre k →
  l_stack L = k :: s → lua_gettop L < l_slots L → lua_next idx L = LOk (true, set_stack L (v' :: k' :: s)).
Proof.
  intros Hi Hr Ht Hk Hs Hroom. unfold lua_next. rewrite Hs, Hi, Hr. cbn [lopt mbind lres_mbind lua_bind]. rewrite Ht, (at_key_next _ _ _ Hk). cbn [mbind lres_mbind lua_bind head].
  rewrite lua_push_ok; [done|]. unfold lua_gettop in *. by rewrite Hs in Hroom.
Qed.

Lemma lua_next_none L idx r tb pre k s : lua_index L idx = Some (VTable r) → l_heap L !! r = Some tb → t_entries tb = pre → at_key pre k →
  l_stack L = k :: s → lua_next idx L = LOk (false, set_stack L s).
Proof.
  intros Hi Hr Ht Hk Hs. unfold lua_next. rewrite Hs, Hi, Hr. cbn [lopt mbind lres_mbind lua_bind]. rewrite Ht, <- (app_nil_r pre), (at_key_next _ _ _ Hk). done.
Qed.

Definition write_spec (d : data) : Prop := ∀ v bs fuel idx w inp,
  (depth d <= fuel)%nat → writes w → reify dumps (l_heap (w_L w)) v d → data_ok n d = true → data_num (num_ok rpc_host) d → encode t d = Some bs →
  lua_gettop (w_L w) + room d <= l_slots (w_L w) → 1 <= idx → lua_index (w_L w) idx = Some v → does (write_variable fuel idx) w inp tt w inp bs.

Definition write_entries_spec (l : entries) : Prop := ∀ pre es bs fuel idx w inp r tb k s,
  (entries_depth l <= fuel)%nat → writes w → reify_entries dumps (l_heap (w_L w)) es l → entries_ok n l = true → entries_num (num_ok rpc_host) l → encode_entries t l = Some bs →
  l_stack (w_L w) = k :: s → lua_gettop (w_L w) + 1 + entries_room l <= l_slots (w_L w) →
  1 <= idx <= Z.of_nat (length s) → lua_index (w_L w) idx = Some (VTable r) → l_heap (w_L w) !! r = Some tb → t_entries tb = pre ++ es → keys_free pre l → at_key pre k →
  does (write_table fuel idx) w inp tt (set_L w (set_stack (w_L w) s)) inp bs.

Lemma write_entries_nil : write_entries_spec ENil.
Proof.
  intros pre es bs fuel idx w inp r tb k s Hf Hw He _ _ Hb Hs _ _ Hi Hr Ht _ Hk. cbn in *. simplify_eq. rewrite app_nil_r in Ht. destruct fuel as [|fuel]; [lia|]. rewrite write_table_S.
  eapply does_silent; [apply does_res; by eapply lua_next_none|]. apply does_ret.
Qed.

Lemma entries_room_nonneg : (∀ d, 1 <= room d) ∧ (∀ l, 0 <= entries_room l).
Proof. apply data_entries_ind; cbn; intros; lia. Qed.

Lemma write_entries_cons k v l : write_spec k → write_spec v → write_entries_spec l → write_entries_spec (ECons k v l).
Proof.
  intros IHk IHv IHl pre es bs fuel idx w inp r tb k0 s Hf Hw He Hok Hnum Hb Hs Hroom Hidx Hi Hr Ht Hfree Hk. cbn [reify_entries entries_ok entries_num encode_entries entries_room entries_depth keys_free] in *.
  destruct He as (kv & vv & es' & -> & Hkv & Hvv & Hl), Hfree as [Hkf Hlf], Hnum as (Hnk & Hnv & Hnl). apply andb_true_iff in Hok as [[[[[Hkok Hhas%negb_true_iff]%andb_true_iff _]%andb_true_iff Hkd]%andb_true_iff Hvd]%andb_true_iff Hld].
  destruct (key_ok_scalar k Hkok) as (u & Hu & Hun & Huu). apply (reify_scalar _ _ _ _ u Hu) in Hkv as ->.
  destruct (encode t k) as [a|] eqn:Ea; [|done]. destruct (encode t v) as [b|] eqn:Eb; [|done]. destruct (encode_entries t l) as [c|] eqn:Ec; [|done]. cbn [mbind option_bind] in Hb. simplify_eq.
  destruct fuel as [|fuel]; [lia|]. rewrite write_table_S. pose proof (proj1 entries_room_nonneg k). pose proof (gettop_cons k0 _ s Hs) as Htop.
  eapply does_silent; [apply does_res; eapply lua_next_some; [exact Hi|exact Hr|exact Ht|exact Hk|exact Hs|lia]|].
  set (w1 := set_L w (set_stack (w_L w) (vv :: u :: s))). assert (lua_gettop (w_L w1) = lua_gettop (w_L w) + 1) as Htop1 by (rewrite (gettop_cons vv (w_L w1) (u :: s) eq_refl), Htop; cbn [length]; lia).
  assert (l_slots (w_L w1) = l_slots (w_L w)) as Hsl1 by done.
  eapply does_silent; [apply does_see|].
  eapply does_bind; [eapply (IHk u a fuel _ w1); try done; [lia|by apply (reify_scalar _ _ _ _ u Hu)|rewrite Hsl1, Htop1; lia|lia|by eapply lua_index_under]| |reflexivity].
  eapply does_bind; [eapply (IHv vv b fuel _ w1); try done; [lia|rewrite Hsl1, Htop1; lia|lia|by eapply lua_index_top]| |reflexivity].
  eapply does_silent; [apply does_do, (lua_pop_ok (w_L w1) [vv] (u :: s) eq_refl)|].
  eapply (IHl (pre ++ [(u, vv)]) es' c fuel idx (set_L w1 (set_stack (w_L w1) (u :: s))) inp r tb u s); try done; [lia| | | | |].
  - unfold lua_gettop in *. rewrite Hs in Hroom. cbn in *. lia.
  - apply (lua_index_push (set_stack (w_L w) s) _ [u]); [done|lia|]. assert (lua_gettop (set_stack (w_L w) s) = Z.of_nat (length s)) as Hts by done. rewrite lua_index_abs, Hts by lia. rewrite lua_index_abs in Hi by lia. rewrite Hs, Htop in Hi.
    replace (Z.to_nat (1 + Z.of_nat (length s) - idx)) with (S (Z.to_nat (Z.of_nat (length s) - idx))) in Hi by lia. exact Hi.
  - by rewrite <- app_assoc.
  - by apply keys_free_snoc with k.
  - right. exists pre, vv. split_and!; [done|done|done|by apply Hkf].
Qed.
Lemma write_function s : write_spec (DFun s).
Proof.
  intros v bs fuel idx w inp Hf Hw (f & -> & Hd) Hok _ Hb Hroom Hidx Hi. cbn [encode data_ok depth room] in *. simplify_eq. destruct fuel as [|[|fuel]]; [lia|lia|]. destruct Hw as [Hw Ht].
  rewrite write_variable_S. eapply does_silent; [apply does_see|]. rewrite Hi. cbn [write_switch]. eapply does_bind; [by apply does_write_u8; [done|apply Hw]| |reflexivity].
  set (w1 := set_L w (set_stack (w_L w) (VFunction f :: l_stack (w_L w)))). eapply does_silent; [apply does_do; unfold lua_pushvalue; rewrite Hi; apply lua_push_ok; lia|].
  eapply does_silent; [apply does_get|]. eapply does_silent; [apply does_res; unfold luaL_dump|].
  { replace (lua_index _ (-1)) with (Some (VFunction f)); [reflexivity|]. symmetry. by apply lua_index_neg1 with (l_stack (w_L w)). }
  unfold dumps in Hd. rewrite <- Ht in Hd. change (w_tpt (set_L _ _)) with (w_tpt w). rewrite Hd. change (set_L (set_L w _) _) with w1.
  assert (lua_gettop (w_L w1) = lua_gettop (w_L w) + 1) as Htop by (rewrite (gettop_cons (VFunction f) (w_L w1) (l_stack (w_L w)) eq_refl); unfold lua_gettop; lia).
  eapply does_silent; [apply does_do, lua_push_ok; rewrite Htop; change (l_slots (w_L w1)) with (l_slots (w_L w)); lia|].
  eapply does_silent; [apply does_see|]. eapply does_bind; [apply does_write_str; [by split|exact Hok|by eapply lua_index_top]| |reflexivity].
  eapply does_silent; [apply does_do, (lua_pop_ok (w_L (set_L w1 (set_stack (w_L w1) (VString s :: l_stack (w_L w1))))) [VString s; VFunction f] (l_stack (w_L w)) eq_refl)|].
  assert (set_L (set_L w1 (set_stack (w_L w1) (VString s :: l_stack (w_L w1)))) (set_stack (w_L (set_L w1 (set_stack (w_L w1) (VString s :: l_stack (w_L w1))))) (l_stack (w_L w))) = w) as -> by (by destruct w as [[] ]).
  by apply does_write_u8; [|apply Hw].
Qed.

Lemma write_all : (∀ d, write_spec d) ∧ (∀ l, write_entries_spec l).
Proof.
  apply data_entries_ind; [| | | |apply write_function| |apply write_entries_nil|intros; by apply write_entries_cons].
  - intros v bs fuel idx w inp Hf Hw Hv Hok Hnum Hb Hroom Hidx Hi. cbn [encode reify data_ok data_num depth room] in *. destruct fuel as [|fuel]; [lia|]. subst v. simplify_eq. rewrite write_variable_S. eapply does_silent; [apply does_see|]. rewrite Hi. cbn [write_switch]. apply does_write_u8; [done|apply Hw].
  - intros b v bs fuel idx w inp Hf Hw Hv Hok Hnum Hb Hroom Hidx Hi. cbn [encode reify data_ok data_num depth room] in *. destruct fuel as [|fuel]; [lia|]. subst v. simplify_eq.
    rewrite write_variable_S. eapply does_silent; [apply does_see|]. rewrite Hi. cbn [write_switch]. eapply does_bind; [apply does_write_u8; [done|apply Hw]|apply does_write_u8; [by destruct b|apply Hw]|done].
  - intros x v bs fuel idx w inp Hf Hw Hv Hok Hnum Hb Hroom Hidx Hi. cbn [encode reify data_ok data_num depth room] in *. destruct fuel as [|fuel]; [lia|]. subst v.
    destruct (wire_num t x) as [b|] eqn:E; [|done]. cbn [mbind option_bind] in Hb. simplify_eq. destruct Hw as [Hw <-].
    rewrite write_variable_S. eapply does_silent; [apply does_see|]. rewrite Hi. cbn [write_switch]. eapply does_bind; [apply does_write_u8; [done|apply Hw]|by apply does_write_number|done].
  - intros s v bs fuel idx w inp Hf Hw Hv Hok Hnum Hb Hroom Hidx Hi. cbn [encode reify data_ok data_num depth room] in *. destruct fuel as [|fuel]; [lia|]. subst v. simplify_eq. by apply does_write_str.
  - intros l IH v bs fuel idx w inp Hf Hw Hv Hok Hnum Hb Hroom Hidx Hi. cbn [encode reify data_ok data_num depth room] in *. destruct fuel as [|fuel]; [lia|].
    destruct Hv as (r & tb & -> & Hr & He). destruct (encode_entries t l) as [b|] eqn:E; [|done]. cbn [mbind option_bind] in Hb. simplify_eq.
    pose proof (proj2 entries_room_nonneg l). rewrite write_variable_S. eapply does_silent; [apply does_see|]. rewrite Hi. cbn [write_switch]. eapply does_bind; [apply does_write_u8; [done|apply Hw]| |reflexivity].
    eapply does_silent; [apply does_do, lua_push_ok; lia|]. eapply does_bind; [eapply (IH [] (t_entries tb)); try done; [lia| | |by apply (lua_index_push (w_L w) _ [VNil])|apply keys_free_nil|by left]| |reflexivity].
    + unfold lua_gettop in *. cbn [w_L set_L set_stack l_stack l_slots length]. lia.
    + split; [done|]. apply lua_index_le in Hi; [|done]. unfold lua_gettop in Hi. done.
    + assert (set_L (set_L w (set_stack (w_L w) (VNil :: l_stack (w_L w)))) (set_stack (w_L (set_L w (set_stack (w_L w) (VNil :: l_stack (w_L w))))) (l_stack (w_L w))) = w) as -> by (by destruct w as [[] ]).
      apply does_write_u8; [done|apply Hw].
Qed.
End write.

(** ** Reading *)

Lemma new_ref_bound h r t : h !! r = Some t → r < new_ref h.
Proof.
  unfold new_ref. revert r t. apply (map_fold_weak_ind (λ m h, ∀ r t, h !! r = Some t → r < m)); [intros r t; by rewrite lookup_empty|].
  intros i x h' m Hi IH r t. rewrite lookup_insert_Some. intros [[-> _]|[_ H]]; [lia|]. specialize (IH r t H). lia.
Qed.

Lemma new_ref_free h : h !! new_ref h = None.
Proof. destruct (h !! new_ref h) as [t|] eqn:E; [|done]. apply new_ref_bound in E. lia. Qed.

(** A state with more on its stack and in its heap. *)
Definition grown (L : lua_State) (hn : gmap Z table) (vs : list value) : lua_State :=
  LState (vs ++ l_stack L) (l_slots L) (l_heap L ∪ hn) (l_udata L) (l_globals L).

Lemma gettop_grown L hn vs : lua_gettop (grown L hn vs) = Z.of_nat (length vs) + lua_gettop L.
Proof. unfold lua_gettop, grown. cbn. rewrite length_app. lia. Qed.

Section read.
Context {vm : LuaVM} {conf : RpcConf}.
Context (t : Transport) (n : Z).
Hypothesis Hhost : host_ok rpc_host.
Hypothesis Hnums : nums_read rpc_host t.
Hypothesis Hn : n <= 2147483648.
Hypothesis Hstack : n <= stack_bytes.

Definition loads (f : Z) (s : mem) : Prop := luaL_load s = inl f.

Lemma does_read_type fuel b w rest a w' inp' : ready w → byte_ok b →
  does (read_switch (read_table fuel) (read_function fuel) b) w rest a w' inp' [] → does (read_variable (S fuel)) w (b :: rest) a w' inp' [].
Proof. intros Hw Hb H. eapply does_silent; [by apply does_read_u8; [|apply Hw]|exact H]. Qed.

Lemma does_read_end fuel b w rest : ready w → b = RPC_TABLE_END ∨ b = RPC_FUNCTION_END → does (read_variable (S fuel)) w (b :: rest) false w rest [].
Proof. intros Hw Hb. apply does_read_type; [done|by destruct Hb as [-> | ->]|]. destruct Hb as [-> | ->]; apply does_ret. Qed.

Lemma grown_push w v : set_L w (set_stack (w_L w) (v :: l_stack (w_L w))) = set_L w (grown (w_L w) ∅ [v]).
Proof. unfold grown. by rewrite (right_id_L ∅ (∪)). Qed.

Lemma does_push v w inp : lua_gettop (w_L w) < l_slots (w_L w) → does (lua_do (lua_push v);; Ret true) w inp true (set_L w (grown (w_L w) ∅ [v])) inp [].
Proof. intros H. eapply does_silent; [by apply does_do, lua_push_ok|]. rewrite grown_push. apply does_ret. Qed.

Lemma does_read_str fuel s w rest : ready w → w_tpt w = t → bytes_okb s && (msize s <? n) = true → lua_gettop (w_L w) < l_slots (w_L w) →
  does (read_variable (S fuel)) w (wire_str t s ++ rest) true (set_L w (grown (w_L w) ∅ [VString s])) rest [].
Proof.
  intros Hw <- [Hs%bytes_okb_ok Hl%Z.ltb_lt]%andb_true_iff Hroom. pose proof (msize_nonneg s). unfold wire_str. cbn [app]. rewrite <- app_assoc. apply does_read_type; [done|done|].
  eapply does_silent; [apply does_read_u32; [done|lia]|]. eapply does_silent; [apply does_alloca; lia|]. rewrite s32_id by lia.
  eapply does_silent; [by apply does_read_buffer; [| |apply Hw]|]. by apply does_push.
Qed.

Definition read_spec (d : data) : Prop := ∀ bs d' fuel w rest,
  (depth d <= fuel)%nat → ready w → w_tpt w = t → encode t d = Some bs → carry rpc_host t d = Some d' → data_ok n d = true → data_ok n d' = true →
  data_num (λ x, ∀ b, x = NDbl b → 0 <= b < 2 ^ 64) d → data_fun (λ s, ∃ f, loads f s) d → lua_gettop (w_L w) + room d <= l_slots (w_L w) →
  ∃ v hn, hn ##ₘ l_heap (w_L w) ∧ reify loads hn v d' ∧ does (read_variable fuel) w (bs ++ rest) true (set_L w (grown (w_L w) hn [v])) rest [].

Definition read_entries_spec (l : entries) : Prop := ∀ bs l' fuel w rest idx r es mt,
  (entries_depth l <= fuel)%nat → ready w → w_tpt w = t → encode_entries t l = Some bs → carry_entries rpc_host t l = Some l' → entries_ok n l = true → entries_ok n l' = true →
  entries_num (λ x, ∀ b, x = NDbl b → 0 <= b < 2 ^ 64) l → entries_fun (λ s, ∃ f, loads f s) l → lua_gettop (w_L w) + 1 + entries_room l <= l_slots (w_L w) →
  1 <= idx → lua_index (w_L w) idx = Some (VTable r) → l_heap (w_L w) !! r = Some (Table es mt) → keys_free es l' →
  ∃ es' hn, hn ##ₘ l_heap (w_L w) ∧ reify_entries loads hn es' l' ∧
    does (read_table fuel idx) w (bs ++ RPC_TABLE_END :: rest) tt (set_L w (set_heap (w_L w) (<[r := Table (es ++ es') mt]> (l_heap (w_L w)) ∪ hn))) rest [].

Lemma read_table_S fuel i :
  read_table (S fuel) i =
  (more ← read_variable fuel;
   if (more : bool) then read_variable fuel;; lua_do (lua_rawset i);; read_table fuel i else Ret tt).
Proof. reflexivity. Qed.

Lemma read_entries_nil : read_entries_spec ENil.
Proof.
  intros bs l' fuel w rest idx r es mt Hf Hw Ht Hb Hc _ _ _ _ Hroom Hi Hidx Hr _. cbn in *. simplify_eq. exists [], ∅. split_and!; [apply map_disjoint_empty_l|done|].
  destruct fuel as [|[|fuel]]; [lia|lia|]. rewrite read_table_S. eapply does_silent; [apply does_read_end; [done|by left]|].
  rewrite app_nil_r, insert_id, (right_id_L ∅ (∪)) by done. assert (set_L w (set_heap (w_L w) (l_heap (w_L w))) = w) as -> by (by destruct w as [[] ]). apply does_ret.
Qed.

Lemma lua_rawset_ok L idx r es mt k kv vv s : l_stack L = vv :: kv :: s → lua_index L idx = Some (VTable r) → l_heap L !! r = Some (Table es mt) →
  key_ok k = true → scalar k = Some kv → vv ≠ VNil → key_free es k →
  lua_rawset idx L = LOk (set_stack (set_heap L (<[r := Table (es ++ [(kv, vv)]) mt]> (l_heap L))) s).
Proof.
  intros Hs Hi Hr Hk Hkv Hv Hf. unfold lua_rawset. rewrite Hs, Hi, Hr. cbn [lopt mbind lres_mbind lua_bind t_entries]. by rewrite (luaH_set_free es k kv vv Hk Hkv Hv Hf).
Qed.

(** The rest of a table, after an entry. *)
Lemma grown_entry L hk hv kv vv s r es mt : l_heap L !! r = Some (Table es mt) → hk ##ₘ l_heap L → hv ##ₘ l_heap L ∪ hk →
  set_stack (set_heap (grown (grown L hk [kv]) hv [vv]) (<[r := Table (es ++ [(kv, vv)]) mt]> (l_heap (grown (grown L hk [kv]) hv [vv])))) s
  = LState s (l_slots L) (<[r := Table (es ++ [(kv, vv)]) mt]> (l_heap L) ∪ (hk ∪ hv)) (l_udata L) (l_globals L).
Proof. intros Hr Hk Hv. unfold grown, set_heap, set_stack. cbn. by rewrite !insert_union_l, (assoc_L (∪)). Qed.

Lemma reify_not_nil h v d : d ≠ DNil → reify loads h v d → v ≠ VNil.
Proof. destruct d; cbn; try done; [naive_solver..]. Qed.

Lemma read_entries_cons k v l : read_spec k → read_spec v → read_entries_spec l → read_entries_spec (ECons k v l).
Proof.
  intros IHk IHv IHl bs l' fuel w rest idx r es mt Hf Hw Ht Hb Hc Hok Hok' Hnum Hfun Hroom Hi Hidx Hr Hfree. cbn [encode_entries carry_entries entries_ok entries_num entries_fun entries_room entries_depth] in *.
  destruct (encode t k) as [a|] eqn:Ea; [|done]. destruct (encode t v) as [b|] eqn:Eb; [|done]. destruct (encode_entries t l) as [c|] eqn:Ec; [|done].
  destruct (carry rpc_host t k) as [k'|] eqn:Ek; [|done]. destruct (carry rpc_host t v) as [v'|] eqn:Ev; [|done]. destruct (carry_entries rpc_host t l) as [l1|] eqn:El; [|done].
  cbn [mbind option_bind] in Hb, Hc. simplify_eq. cbn [entries_ok keys_free] in Hok', Hfree. destruct Hnum as (Hnk & Hnv & Hnl), Hfun as (Hfk & Hfv & Hfl), Hfree as [Hkf Hlf].
  apply andb_true_iff in Hok as [[[[_ _]%andb_true_iff Hkd]%andb_true_iff Hvd]%andb_true_iff Hld].
  apply andb_true_iff in Hok' as [[[[[Hkok Hhas%negb_true_iff]%andb_true_iff Hvn]%andb_true_iff Hkd']%andb_true_iff Hvd']%andb_true_iff Hld'].
  destruct (key_ok_scalar k' Hkok) as (u & Hu & Hun & Huu). destruct fuel as [|fuel]; [lia|]. pose proof (proj1 entries_room_nonneg k). pose proof (lua_index_le _ _ _ Hi Hidx).
  set (L := w_L w) in *.
  destruct (IHk a k' fuel w (b ++ c ++ RPC_TABLE_END :: rest)) as (kv & hk & Hdk & Hrk & Hsk); try done; [lia|fold L; lia|]. apply (reify_scalar _ _ _ _ u Hu) in Hrk as Hkv. subst kv.
  set (w1 := set_L w (grown L hk [u])).
  destruct (IHv b v' fuel w1 (c ++ RPC_TABLE_END :: rest)) as (vv & hv & Hdv & Hrv & Hsv); try done; [lia|change (w_L w1) with (grown L hk [u]); rewrite gettop_grown; change (l_slots (grown L hk [u])) with (l_slots L); cbn [length]; lia|].
  set (w2 := set_L w1 (grown (w_L w1) hv [vv])). change (l_heap (w_L w1)) with (l_heap L ∪ hk) in Hdv.
  set (w3 := set_L w (LState (l_stack L) (l_slots L) (<[r := Table (es ++ [(u, vv)]) mt]> (l_heap L) ∪ (hk ∪ hv)) (l_udata L) (l_globals L))).
  assert (((<[r := Table (es ++ [(u, vv)]) mt]> (l_heap L)) ∪ (hk ∪ hv)) !! r = Some (Table (es ++ [(u, vv)]) mt)) as Hr3 by (apply lookup_union_Some_l, lookup_insert_eq).
  destruct (IHl c l1 fuel w3 rest idx r (es ++ [(u, vv)]) mt) as (es' & hn & Hdn & Hrn & Hsn); try done; [lia|change (lua_gettop L + 1 + entries_room l <= l_slots L); lia|by apply keys_free_snoc with k'|].
  cbn [w3 w_L set_L l_heap] in Hdn, Hsn. exists ((u, vv) :: es'), (hk ∪ hv ∪ hn). apply map_disjoint_union_r in Hdn as [Hdn Hdn2]. apply map_disjoint_union_r in Hdn2 as [Hdn2 Hdn3].
  apply map_disjoint_insert_r in Hdn as [Hdr Hdn]. apply map_disjoint_union_r in Hdv as [Hdv Hdv2].
  split_and!.
  - by repeat apply map_disjoint_union_l_2.
  - exists u, vv, es'. split_and!; [done|by apply (reify_scalar _ _ _ _ u Hu)| |].
    + eapply reify_mono; [|exact Hrv]. etrans; [apply map_union_subseteq_r; by symmetry|apply map_union_subseteq_l].
    + eapply reify_mono; [|exact Hrn]. apply map_union_subseteq_r. apply map_disjoint_union_l. split; by symmetry.
  - rewrite read_table_S. replace ((a ++ b ++ c) ++ RPC_TABLE_END :: rest) with (a ++ b ++ c ++ RPC_TABLE_END :: rest) by (by rewrite <- !app_assoc).
    eapply does_silent; [exact Hsk|]. eapply does_silent; [exact Hsv|].
    eapply does_silent; [apply does_do, (lua_rawset_ok (grown (grown L hk [u]) hv [vv]) idx r es mt k' u vv (l_stack L)); try done|].
    + by apply (lua_index_push L _ [vv; u]).
    + by do 2 apply lookup_union_Some_l.
    + apply (reify_not_nil hv vv v'); [by intros -> |done].
    + rewrite (grown_entry L hk hv u vv (l_stack L) r es mt Hr Hdk) by (by apply map_disjoint_union_r).
      change (does (read_table fuel idx) w3 (c ++ RPC_TABLE_END :: rest) tt (set_L w (set_heap L (<[r:=Table (es ++ (u, vv) :: es') mt]> (l_heap L) ∪ (hk ∪ hv ∪ hn)))) rest []).
      replace (set_L w (set_heap L (<[r:=Table (es ++ (u, vv) :: es') mt]> (l_heap L) ∪ (hk ∪ hv ∪ hn)))) with
        (set_L w3 (set_heap (LState (l_stack L) (l_slots L) (<[r:=Table (es ++ [(u, vv)]) mt]> (l_heap L) ∪ (hk ∪ hv)) (l_udata L) (l_globals L))
          (<[r:=Table ((es ++ [(u, vv)]) ++ es') mt]> (<[r:=Table (es ++ [(u, vv)]) mt]> (l_heap L) ∪ (hk ∪ hv)) ∪ hn))); [exact Hsn|].
      unfold w3, set_L, set_heap. cbn. rewrite insert_union_l, insert_insert_eq, <- app_assoc. cbn. by rewrite <- (assoc_L (∪)).
Qed.
Lemma read_function_S fuel :
  read_function (S fuel) =
  (more ← read_variable fuel;
   if (more : bool) then
     b ← lua_res (lua_tolstring (-1));
     match b with
     | None => lua_res (luaL_typerror (-1) "string")
     | Some b => lua_do (luaL_loadbuffer b);; lua_do (lua_insert (-2));; lua_do (lua_pop 1);; read_function fuel
     end
   else Ret tt).
Proof. reflexivity. Qed.

Lemma lua_tolstring_top L s l : l_stack L = VString s :: l → lua_tolstring (-1) L = LOk (Some s, L).
Proof. intros Hs. unfold lua_tolstring. by rewrite (lua_index_neg1 L (VString s) l Hs). Qed.

Lemma lua_insert_under L u v l : l_stack L = u :: v :: l → lua_insert (-2) L = LOk (set_stack L (v :: u :: l)).
Proof.
  intros Hs. unfold lua_insert, index2adr. rewrite (gettop_cons u L _ Hs). cbn [length Z.ltb Z.compare andb]. rewrite (proj2 (Z.leb_le _ _)) by lia. cbn. by rewrite Hs.
Qed.

Lemma read_function_ok s : read_spec (DFun s).
Proof.
  intros bs d' fuel w rest Hf Hw Ht Hb Hc Hok _ _ (f & Hl) Hroom. cbn [encode carry data_ok depth room] in *. injection Hb as <-. injection Hc as <-. destruct fuel as [|[|[|[|fuel]]]]; [lia..|].
  exists (VFunction f), ∅. split_and!; [apply map_disjoint_empty_l|by exists f|]. cbn [app]. apply does_read_type; [done|done|].
  eapply does_silent; [|apply does_ret]. rewrite read_function_S. rewrite <- app_assoc.
  eapply does_silent; [by apply does_read_str; [| |exact Hok|lia]|]. set (w1 := set_L w (grown (w_L w) ∅ [VString s])).
  eapply does_silent; [apply does_res; by apply (lua_tolstring_top (w_L w1) s (l_stack (w_L w)))|]. rewrite set_L_id.
  eapply does_silent; [apply does_do; unfold luaL_loadbuffer; rewrite Hl; apply lua_push_ok; unfold w1; cbn [w_L set_L]; rewrite gettop_grown; cbn [length]; change (l_slots (grown _ _ _)) with (l_slots (w_L w)); lia|].
  eapply does_silent; [apply does_do; by apply (lua_insert_under _ (VFunction f) (VString s) (l_stack (w_L w)))|].
  eapply does_silent; [apply does_do; by apply (lua_pop_ok _ [VString s] (VFunction f :: l_stack (w_L w)))|].
  rewrite read_function_S. eapply does_silent; [apply does_read_end; [exact Hw|by right]|]. apply does_ret.
Qed.

Lemma read_table_ok l : read_entries_spec l → read_spec (DTab l).
Proof.
  intros IH bs d' fuel w rest Hf Hw Ht Hb Hc Hok Hok' Hnum Hfun Hroom. cbn [encode carry data_ok data_num data_fun depth room] in *. destruct fuel as [|fuel]; [lia|].
  destruct (encode_entries t l) as [b|] eqn:Eb; [|done]. destruct (carry_entries rpc_host t l) as [l'|] eqn:El; [|done]. cbn [mbind option_bind] in Hb, Hc. injection Hb as <-. injection Hc as <-. cbn [data_ok] in Hok'.
  pose proof (proj2 entries_room_nonneg l). set (r := new_ref (l_heap (w_L w))). pose proof (new_ref_free (l_heap (w_L w)) : l_heap (w_L w) !! r = None) as Hr.
  set (w1 := set_L w (LState (VTable r :: l_stack (w_L w)) (l_slots (w_L w)) (<[r := Table [] no_meta]> (l_heap (w_L w))) (l_udata (w_L w)) (l_globals (w_L w)))).
  assert (lua_gettop (w_L w1) = 1 + lua_gettop (w_L w)) as Htop by (unfold lua_gettop, w1; cbn [w_L set_L l_stack length]; lia).
  destruct (IH b l' fuel w1 rest (lua_gettop (w_L w1)) r [] no_meta) as (es' & hn & Hd & He & Hs); try done; [lia| | |by apply (lua_index_top _ _ (l_stack (w_L w)))|apply lookup_insert_eq|apply keys_free_nil|].
  { rewrite Htop. change (l_slots (w_L w1)) with (l_slots (w_L w)). lia. }
  { unfold lua_gettop in *. lia. }
  cbn [w1 w_L set_L l_heap app] in Hd, Hs. apply map_disjoint_insert_r in Hd as [Hdr Hd]. exists (VTable r), ({[r := Table es' no_meta]} ∪ hn). split_and!.
  - apply map_disjoint_union_l_2; [by apply map_disjoint_singleton_l_2|done].
  - exists r, (Table es' no_meta). split_and!; [done|by apply lookup_union_Some_l, lookup_singleton_eq|]. eapply reify_mono; [|exact He]. apply map_union_subseteq_r. by apply map_disjoint_singleton_l_2.
  - cbn [app]. rewrite <- app_assoc. apply does_read_type; [done|done|]. eapply does_silent; [apply does_do; unfold lua_newtable; apply lua_push_ok; unfold lua_gettop in *; cbn; lia|].
    eapply does_silent; [apply does_see|]. eapply does_silent; [exact Hs|].
    replace (set_L w (grown (w_L w) ({[r := Table es' no_meta]} ∪ hn) [VTable r])) with
      (set_L w1 (set_heap (w_L w1) (<[r := Table es' no_meta]> (<[r := Table [] no_meta]> (l_heap (w_L w))) ∪ hn))); [apply does_ret|].
    unfold w1, set_L, set_heap, grown. cbn. rewrite insert_insert_eq, (insert_union_singleton_r _ _ _ Hr). by rewrite (assoc_L (∪)).
Qed.

Lemma read_all : (∀ d, read_spec d) ∧ (∀ l, read_entries_spec l).
Proof.
  apply data_entries_ind; [| | | |apply read_function_ok|apply read_table_ok|apply read_entries_nil|intros; by apply read_entries_cons].
  - intros bs d' fuel w rest Hf Hw Ht Hb Hc _ _ _ _ Hroom. cbn [encode carry depth room] in *. injection Hb as <-. injection Hc as <-. destruct fuel as [|fuel]; [lia|]. exists VNil, ∅.
    split_and!; [apply map_disjoint_empty_l|done|]. apply does_read_type; [done|done|]. apply does_push. lia.
  - intros b bs d' fuel w rest Hf Hw Ht Hb Hc _ _ _ _ Hroom. cbn [encode carry depth room] in *. injection Hb as <-. injection Hc as <-. destruct fuel as [|fuel]; [lia|]. exists (VBool b), ∅.
    split_and!; [apply map_disjoint_empty_l|done|]. apply does_read_type; [done|done|]. eapply does_silent; [by apply does_read_u8; [destruct b|apply Hw]|].
    replace (ctrue (cbool b)) with b by (by destruct b). apply does_push. lia.
  - intros x bs d' fuel w rest Hf Hw Ht Hb Hc _ _ Hx _ Hroom. cbn [encode carry data_num depth room] in *. destruct fuel as [|fuel]; [lia|].
    destruct (wire_num t x) as [b|] eqn:Eb; [|done]. destruct (carry_num rpc_host t x) as [y|] eqn:Ey; [|done]. cbn [mbind option_bind] in Hb, Hc. injection Hb as <-. injection Hc as <-. exists (VNumber y), ∅.
    split_and!; [apply map_disjoint_empty_l|done|]. apply does_read_type; [done|done|]. eapply does_silent; [eapply does_read_number; rewrite ?Ht; done|]. apply does_push. lia.
  - intros s bs d' fuel w rest Hf Hw Ht Hb Hc Hok _ _ _ Hroom. cbn [encode carry data_ok depth room] in *. injection Hb as <-. injection Hc as <-. destruct fuel as [|fuel]; [lia|]. exists (VString s), ∅.
    split_and!; [apply map_disjoint_empty_l|done|]. apply does_read_str; [done|done|done|lia].
Qed.
End read.
