(* ===== verification/LuaRpcNames.v ===== *)
(** * Names, arguments and results of the remote calls of Lua

    The name of a remote value is sent as the path of the helpers from the root, with dots between; the server goes along it
    from its globals. Arguments and results are sent one after the other. *)
From S2P Require Import Prelude Exchange LuaNum LuaApi LuaRpc LuaRpcWire LuaRpcValues.

(** ** Paths *)

Fixpoint join (ns : list mem) : mem :=
  match ns with [] => [] | [n] => n | n :: ns => n ++ 46 :: join ns end.

(** A name: not empty, without dots and without the end of a string. *)
Definition name_ok (n : mem) : bool := negb (bool_decide (n = [])) && forallb (λ c, (0 <? c) && (c <? 256) && negb (c =? 46)) n.

Lemma name_ok_spec n : name_ok n = true → n ≠ [] ∧ Forall (λ c, 0 < c < 256 ∧ c ≠ 46) n.
Proof.
  unfold name_ok. intros [H1 H2]%andb_true_iff. split; [by apply negb_true_iff, bool_decide_eq_false in H1|].
  clear H1. induction n as [|c n IH]; [constructor|]. cbn in H2. apply andb_true_iff in H2 as [[[A B]%andb_true_iff C%negb_true_iff]%andb_true_iff H2]. constructor; [lia|by apply IH].
Qed.

Lemma strtok_part m : ∀ cur l, Forall (λ c, 0 < c < 256 ∧ c ≠ 46) m → cur ≠ None ∨ m ≠ [] →
  strtok_loop (m ++ 46 :: l) cur = (let '(ts, r) := strtok_loop l None in ((default [] cur ++ m) :: ts, m ++ 0 :: r)).
Proof.
  induction m as [|c m IH]; intros cur l Hm Hc.
  - destruct Hc as [Hc|]; [|done]. destruct cur as [t|]; [|done]. cbn. rewrite app_nil_r. by destruct (strtok_loop l None).
  - apply Forall_cons in Hm as [[Hc1 Hc2] Hm]. cbn [app strtok_loop]. rewrite (proj2 (Z.eqb_neq c 0)), (proj2 (Z.eqb_neq c 46)) by lia. rewrite IH by (try done; by left).
    destruct (strtok_loop l None) as [ts r]. cbn. by rewrite <- app_assoc.
Qed.

Lemma strtok_last m : ∀ cur, Forall (λ c, 0 < c < 256 ∧ c ≠ 46) m → cur ≠ None ∨ m ≠ [] → strtok_loop m cur = ([default [] cur ++ m], m).
Proof.
  induction m as [|c m IH]; intros cur Hm Hc.
  - destruct Hc as [Hc|]; [|done]. destruct cur as [t|]; [|done]. cbn. by rewrite app_nil_r.
  - apply Forall_cons in Hm as [[Hc1 Hc2] Hm]. cbn [strtok_loop]. rewrite (proj2 (Z.eqb_neq c 0)), (proj2 (Z.eqb_neq c 46)) by lia. rewrite IH by (try done; by left).
    cbn. by rewrite <- app_assoc.
Qed.

(** What is left of a name: its dots are ends of strings. *)
Fixpoint join0 (ns : list mem) : mem :=
  match ns with [] => [] | [n] => n | n :: ns => n ++ 0 :: join0 ns end.

Lemma strtok_join ns : Forall (λ n, name_ok n = true) ns → strtok (join ns) = (ns, join0 ns).
Proof.
  unfold strtok. induction ns as [|n [|n' ns] IH]; intros H; [done| |]; apply Forall_cons in H as [[Hn Hc]%name_ok_spec H].
  - cbn [join join0]. rewrite strtok_last by (try done; by right). done.
  - change (join (n :: n' :: ns)) with (n ++ 46 :: join (n' :: ns)). rewrite strtok_part by (try done; by right). by rewrite (IH H).
Qed.

Lemma join_parents ns f : concat ((λ n, n ++ [46]) <$> ns) ++ f = join (ns ++ [f]).
Proof.
  induction ns as [|n ns IH]; [done|]. cbn [fmap list_fmap concat app]. rewrite <- app_assoc, IH. cbn [join].
  destruct (ns ++ [f]) as [|m l] eqn:E; [by destruct ns|]. by rewrite <- app_assoc.
Qed.

Lemma join_bytes ns : Forall (λ n, name_ok n = true) ns → bytes_ok (join ns).
Proof.
  intros H. induction ns as [|n ns IH]; [constructor|]. apply Forall_cons in H as [[_ Hn]%name_ok_spec H]. assert (bytes_ok n) as Hb by (eapply Forall_impl; [exact Hn|]; unfold byte_ok; cbn; lia).
  cbn [join]. destruct ns as [|n' ns]; [done|]. apply bytes_ok_app. split; [done|]. constructor; [done|by apply IH].
Qed.

Lemma join_size ns f : fold_right (λ n len, msize n + 1 + len) (msize f) ns = msize (join (ns ++ [f])).
Proof.
  rewrite <- join_parents. induction ns as [|n ns IH]; [done|]. cbn [fold_right fmap list_fmap concat]. rewrite IH, !msize_app. cbn. change (msize [46]) with 1. lia.
Qed.

Definition wire_name (t : Transport) (ns : list mem) : mem := host_bytes (net_little t) 4 (msize (join ns)) ++ join ns.

(** ** Along a path *)

Section paths.
Context {vm : LuaVM} {conf : RpcConf}.

(** The names lead from [v] to [x] without a change of the state. *)
Fixpoint resolves (L : lua_State) (v : value) (ns : list mem) (x : value) : Prop :=
  match ns with
  | [] => x = v
  | n :: ns => ∃ y, luaV_gettable v (VString n) L = LOk (y, L) ∧ resolves L y ns x
  end.

Lemma gettable_stack t k L y s : luaV_gettable t k L = LOk (y, L) → luaV_gettable t k (set_stack L s) = LOk (y, set_stack L s).
Proof.
  assert (∀ r, by_tm r L = LOk (y, L) → by_tm r (set_stack L s) = LOk (y, set_stack L s)) as Htm.
  { intros [[v|m] h]; cbn; [|done]. intros [= -> E]. do 2 f_equal. unfold set_heap, set_stack in *. cbn. by rewrite <- E. }
  destruct t; cbn; try done; try by apply Htm. destruct (l_heap L !! r) as [tb|]; cbn; [|done]. destruct (_ || _); [by intros [= ->]|by apply Htm].
Qed.

Lemma resolves_stack L s ns x : ∀ v, resolves L v ns x → resolves (set_stack L s) v ns x.
Proof. induction ns as [|n ns IH]; intros v; cbn; [done|]. intros (y & Hy & H). exists y. split; [by apply gettable_stack|by apply IH]. Qed.

Lemma does_getfields ns : ∀ w inp v x s, l_stack (w_L w) = v :: s → resolves (w_L w) v ns x → lua_gettop (w_L w) < l_slots (w_L w) →
  does (getfields ns) w inp tt (set_L w (set_stack (w_L w) (x :: s))) inp [].
Proof.
  induction ns as [|n ns IH]; intros w inp v x s Hs Hr Hroom.
  - cbn in Hr. subst x. rewrite <- Hs. replace (set_L w (set_stack (w_L w) (l_stack (w_L w)))) with w by (by destruct w as [[] ]). apply does_ret.
  - destruct Hr as (y & Hy & Hr). cbn [getfields]. eapply does_silent.
    { apply does_do. unfold lua_getfield. rewrite (lua_index_neg1 _ v s Hs). cbn [lopt mbind lres_mbind lua_bind]. rewrite Hy. cbn [mbind lres_mbind lua_bind]. apply lua_push_ok. done. }
    eapply does_silent.
    { apply does_do. unfold lua_remove, index2adr. cbn [w_L set_L]. rewrite (gettop_cons y _ (v :: s)) by (cbn; by rewrite Hs). cbn [length Z.ltb Z.compare andb]. rewrite (proj2 (Z.leb_le _ _)) by lia. reflexivity. }
    cbn [w_L set_L set_stack l_stack]. rewrite Hs.
    apply (IH (set_L w (set_stack (w_L w) (y :: s))) inp y x s eq_refl).
    + by apply resolves_stack.
    + unfold lua_gettop in *. cbn. by rewrite Hs in Hroom.
Qed.

(** The value of a name is pushed. *)
Lemma does_getname ns w inp x : ns ≠ [] → resolves (w_L w) (VTable (l_globals (w_L w))) ns x → lua_gettop (w_L w) + 2 <= l_slots (w_L w) →
  does (lua_getname ns) w inp tt (set_L w (set_stack (w_L w) (x :: l_stack (w_L w)))) inp [].
Proof.
  destruct ns as [|n ns]; [done|]. intros _ (y & Hy & Hr) Hroom. cbn [lua_getname].
  eapply does_silent; [apply does_do; unfold lua_getglobal; rewrite Hy; cbn [mbind lres_mbind lua_bind]; apply lua_push_ok; lia|].
  apply (does_getfields ns (set_L w (set_stack (w_L w) (y :: l_stack (w_L w)))) inp y x (l_stack (w_L w)) eq_refl).
  - by apply resolves_stack.
  - unfold lua_gettop in *. cbn [w_L set_L set_stack l_stack l_slots length]. lia.
Qed.

Lemma does_read_name ns w rest : ready w → Forall (λ n, name_ok n = true) ns → msize (join ns) < stack_bytes → stack_bytes <= 2147483648 →
  does read_name w (wire_name (w_tpt w) ns ++ rest) (join ns) w rest [].
Proof.
  intros Hw Hns Hs Hb. pose proof (msize_nonneg (join ns)). unfold wire_name. rewrite <- app_assoc. eapply does_silent; [apply does_read_u32; [done|lia]|].
  eapply does_silent; [apply does_alloca; lia|]. rewrite s32_id by lia. apply does_read_buffer; [by apply join_bytes|done|apply Hw].
Qed.

Lemma does_write_names ns : ∀ w inp, link_open w → does (write_names ns) w inp tt w inp (concat ((λ n, n ++ [46]) <$> ns)).
Proof.
  induction ns as [|n ns IH]; intros w inp Hw; [apply does_ret|]. cbn [write_names fmap list_fmap concat].
  eapply does_bind; [by apply does_write_buffer| |by rewrite <- app_assoc]. eapply does_bind; [by apply does_write_buffer|by apply IH|done].
Qed.

(** The path of a helper. *)
Definition helper_path (m : gmap Z udata) (h : Z) (ns : list mem) : Prop :=
  ∃ parent k f ps, m !! h = Some (UHelper parent k f) ∧ hstack m (Z.to_nat k) parent = Some ps ∧ ns = ps ++ [f].

Lemma does_remote_index h ns w inp : ready w → helper_path (l_udata (w_L w)) h ns → msize (join ns) < 4294967296 →
  does (helper_remote_index h) w inp tt w inp (wire_name (w_tpt w) ns).
Proof.
  intros Hw (parent & k & f & ps & Hh & Hps & ->) Hs. unfold helper_remote_index. eapply does_silent; [apply does_get|]. rewrite Hh, Hps. eapply does_silent; [apply does_ret|].
  rewrite join_size. pose proof (msize_nonneg (join (ps ++ [f]))). eapply does_bind; [by apply does_write_u32| |unfold wire_name; by rewrite <- join_parents].
  eapply does_bind; [apply does_write_names, Hw|apply does_write_buffer, Hw|done].
Qed.
End paths.

(** ** Several values *)

Fixpoint encode_all (t : Transport) (ds : list data) : option mem :=
  match ds with [] => Some [] | d :: ds => a ← encode t d; b ← encode_all t ds; Some (a ++ b) end.

Fixpoint carry_all (h : host) (t : Transport) (ds : list data) : option (list data) :=
  match ds with [] => Some [] | d :: ds => d' ← carry h t d; ds' ← carry_all h t ds; Some (d' :: ds') end.

Definition rooms (ds : list data) : Z := foldr (λ d m, Z.max (room d) m) 0 ds.
Definition depths (ds : list data) : nat := foldr (λ d m, Nat.max (depth d) m) 1%nat ds.

Lemma carry_all_length h t ds : ∀ ds', carry_all h t ds = Some ds' → length ds' = length ds.
Proof.
  induction ds as [|d ds IH]; intros ds' H; cbn in H; [by simplify_eq|]. destruct (carry h t d); [|done]. destruct (carry_all h t ds) as [l|]; [|done]. cbn in H. simplify_eq. cbn. by rewrite (IH l).
Qed.

(** What a machine can send over a transport, and what another can make of it: its numbers, its strings shorter than [n]. *)
Record sendable `{LuaVM, RpcConf} (n : Z) (ds : list data) : Prop := {
  sendable_ok : Forall (λ d, data_ok n d = true) ds;
  sendable_num : Forall (data_num (num_ok rpc_host)) ds }.

Record receivable `{LuaVM, RpcConf} (n : Z) (t : Transport) (ds ds' : list data) : Prop := {
  receivable_carry : carry_all rpc_host t ds = Some ds';
  receivable_sent : Forall (λ d, data_ok n d = true) ds;
  receivable_ok : Forall (λ d, data_ok n d = true) ds';
  receivable_num : Forall (data_num (λ x, ∀ b, x = NDbl b → 0 <= b < 2 ^ 64)) ds;
  receivable_fun : Forall (data_fun (λ s, ∃ f, loads f s)) ds }.

Section several.
Context {vm : LuaVM} {conf : RpcConf}.
Context (t : Transport) (n : Z).

Lemma does_write_args ds : host_ok rpc_host → lnum_bytes t ∈ [1; 2; 4; 8] → n <= 2147483648 → ∀ vs i bs fuel w inp,
  (depths ds <= fuel)%nat → writes t w → Forall2 (reify (dumps t) (l_heap (w_L w))) vs ds → sendable n ds → encode_all t ds = Some bs →
  lua_gettop (w_L w) + rooms ds <= l_slots (w_L w) → 1 <= i → (∀ j v, vs !! j = Some v → lua_index (w_L w) (i + Z.of_nat j) = Some v) →
  does (write_args fuel (length ds) i) w inp tt w inp bs.
Proof.
  intros Hh Hs Hn. induction ds as [|d ds IH]; intros vs i bs fuel w inp Hf Hw Hv Hok Hb Hroom Hi Hidx; cbn in Hb; [simplify_eq; apply does_ret|].
  apply Forall2_cons_inv_r in Hv as (v & vs' & Hvd & Hvs & ->). destruct Hok as [Hok Hnum]. apply Forall_cons in Hok as [Hd Hds], Hnum as [Hnd Hnds]. destruct (encode t d) as [a|] eqn:Ea; [|done].
  destruct (encode_all t ds) as [b|] eqn:Eb; [|done]. cbn in Hb. simplify_eq. cbn [rooms depths foldr] in Hroom, Hf. fold (rooms ds) in Hroom. fold (depths ds) in Hf. cbn [write_args length].
  eapply does_bind; [apply (proj1 (write_all t n Hh Hs Hn) d v a fuel i w inp); try done; [lia|lia|]| |reflexivity].
  { replace i with (i + Z.of_nat 0) by lia. by apply Hidx. }
  apply (IH vs' (i + 1) b fuel w inp); try done; [lia|lia|lia|]. intros j u Hj. replace (i + 1 + Z.of_nat j) with (i + Z.of_nat (S j)) by lia. by apply Hidx.
Qed.

Lemma grown_grown L h1 h2 vs1 vs2 : grown (grown L h1 vs1) h2 vs2 = grown L (h1 ∪ h2) (vs2 ++ vs1).
Proof. unfold grown. cbn. by rewrite app_assoc, (assoc_L (∪)). Qed.

Lemma does_read_args ds : host_ok rpc_host → nums_read rpc_host t → n <= 2147483648 → n <= stack_bytes → ∀ ds' bs fuel w rest,
  (depths ds <= fuel)%nat → ready w → w_tpt w = t → encode_all t ds = Some bs → receivable n t ds ds' → lua_gettop (w_L w) + Z.of_nat (length ds) + rooms ds <= l_slots (w_L w) →
  ∃ vs hn, hn ##ₘ l_heap (w_L w) ∧ Forall2 (reify loads hn) vs ds' ∧ does (read_args fuel (length ds)) w (bs ++ rest) tt (set_L w (grown (w_L w) hn (rev vs))) rest [].
Proof.
  intros Hh Hr Hn Hs. induction ds as [|d ds IH]; intros ds' bs fuel w rest Hf Hw Ht Hb [Hc Hok Hok' Hnum Hfun] Hroom; cbn in Hb, Hc.
  - simplify_eq. exists [], ∅. split_and!; [apply map_disjoint_empty_l|constructor|]. replace (set_L w (grown (w_L w) ∅ (rev []))) with w; [apply does_ret|].
    destruct w as [[] ]. unfold grown. cbn. by rewrite (right_id_L ∅ (∪)).
  - destruct (encode t d) as [a|] eqn:Ea; [|done]. destruct (encode_all t ds) as [b|] eqn:Eb; [|done]. destruct (carry rpc_host t d) as [d'|] eqn:Ed; [|done].
    destruct (carry_all rpc_host t ds) as [l|] eqn:El; [|done]. cbn [mbind option_bind] in Hb, Hc. injection Hb as <-. injection Hc as <-.
    apply Forall_cons in Hok as [Hd Hds], Hok' as [Hd' Hds'], Hnum as [Hnd Hnds], Hfun as [Hfd Hfds]. cbn [rooms depths foldr length] in Hroom, Hf. fold (rooms ds) in Hroom. fold (depths ds) in Hf.
    destruct (proj1 (read_all t n Hh Hr Hn Hs) d a d' fuel w (b ++ rest)) as (v & h1 & Hd1 & Hv & Hsv); try done; [lia|lia|].
    destruct (IH l b fuel (set_L w (grown (w_L w) h1 [v])) rest) as (vs & h2 & Hd2 & Hvs & Hsvs); try done; [lia| |].
    { cbn [w_L set_L]. rewrite gettop_grown. change (l_slots (grown (w_L w) h1 [v])) with (l_slots (w_L w)). cbn [length]. lia. }
    cbn [w_L set_L grown l_heap] in Hd2. apply map_disjoint_union_r in Hd2 as [Hd2 Hd21]. exists (v :: vs), (h1 ∪ h2). split_and!.
    + by apply map_disjoint_union_l_2.
    + constructor; [eapply reify_mono; [|exact Hv]; apply map_union_subseteq_l|]. eapply Forall2_impl; [exact Hvs|]. intros x y Hxy. eapply reify_mono; [|exact Hxy]. by apply map_union_subseteq_r.
    + cbn [read_args length]. rewrite <- app_assoc. eapply does_silent; [exact Hsv|]. cbn [w_L set_L] in Hsvs. rewrite grown_grown in Hsvs. exact Hsvs.
Qed.
End several.
