(* ===== verification/LuaRpcCalls.v ===== *)
(** * Remote calls of Lua, from end to end

    A client and a server on one line: connecting, calling, reading and assigning, in every interleaving of their steps. *)
From S2P Require Import Prelude Exchange LuaNum LuaApi LuaRpc LuaRpcWire LuaRpcValues LuaRpcNames.

(** ** The server *)

Section server.
Context {vm : LuaVM} {conf : RpcConf}.

Lemma does_prefix {A B} (p : rpc A) (f : A → rpc B) w inp a w1 inp1 out : does p w inp a w1 inp1 out → steps CON_UART_ID (p ≫= f) w inp (f a) w1 inp1 out.
Proof. apply (steps_bind CON_UART_ID p f). Qed.

Lemma steps_silent {A B} (p : rpc A) (f : A → rpc B) w inp a w1 inp1 q w2 inp2 out :
  does p w inp a w1 inp1 [] → steps CON_UART_ID (f a) w1 inp1 q w2 inp2 out → steps CON_UART_ID (p ≫= f) w inp q w2 inp2 out.
Proof. intros H1 H2. change out with ([] ++ out). by eapply steps_then. Qed.

Lemma steps_seq {A B} (p : rpc A) (f : A → rpc B) w inp a w1 inp1 out1 q w2 inp2 out2 out :
  does p w inp a w1 inp1 out1 → steps CON_UART_ID (f a) w1 inp1 q w2 inp2 out2 → out = out1 ++ out2 → steps CON_UART_ID (p ≫= f) w inp q w2 inp2 out.
Proof. intros H1 H2 ->. by eapply steps_then. Qed.

Lemma open_link w : link_open w → transport_is_open (w_tpt w) = true.
Proof. intros [H1 H2]. unfold transport_is_open. rewrite H1. by apply negb_true_iff, Z.eqb_neq. Qed.

(** The server's command, while a connection is open. *)
Lemma dispatch_open fuel w inp : link_open w → steps CON_UART_ID (rpc_dispatch_helper fuel) w inp (catch (catch (read_cmd fuel) link_error) dispatch_error) w inp [].
Proof.
  intros Hw. apply steps_catch. pose proof (does_prefix get (λ w, if transport_is_open (w_tpt w) then catch (read_cmd fuel) link_error else accept_connection) w inp _ _ _ _ (does_get w inp)) as H.
  cbn beta in H. by rewrite (open_link w Hw) in H.
Qed.

(** What is left of a command that has been accepted. *)
Definition in_dispatch (p : rpc unit) : rpc unit := catch (catch (p;; w ← get; put (set_errs w 0)) link_error) dispatch_error.

Lemma does_in_dispatch p w inp w' out : does p w inp tt w' [] out → does (in_dispatch p) w inp tt (set_errs w' 0) [] out.
Proof.
  intros H. apply does_catch, does_catch. eapply does_bind; [exact H| |by rewrite app_nil_r]. eapply does_silent; [apply does_get|apply does_put].
Qed.

(** The commands are accepted. *)
Lemma dispatch_accepts fuel w cmd p : link_open w →
  (cmd = RPC_CMD_CALL ∧ p = read_cmd_call fuel) ∨ (cmd = RPC_CMD_GET ∧ p = read_cmd_get fuel) ∨ (cmd = RPC_CMD_NEWINDEX ∧ p = read_cmd_newindex fuel) →
  steps CON_UART_ID (rpc_dispatch_helper fuel) w [cmd] (in_dispatch p) w [] [RPC_READY].
Proof.
  intros Hw Hcmd. change [RPC_READY] with ([] ++ [RPC_READY]). eapply steps_trans; [by apply dispatch_open|]. apply steps_catch, steps_catch. unfold read_cmd.
  change [RPC_READY] with ([] ++ [RPC_READY]). assert (byte_ok cmd) as Hb by (destruct Hcmd as [[-> _]|[[-> _]|[-> _]]]; done).
  eapply steps_trans; [apply does_prefix; by apply does_read_u8|]. apply steps_bind.
  destruct Hcmd as [[-> ->]|[[-> ->]|[-> ->]]]; [apply (does_prefix (transport_write_u8 RPC_READY) (λ _, read_cmd_call fuel) _ _ tt)|apply (does_prefix (transport_write_u8 RPC_READY) (λ _, read_cmd_get fuel) _ _ tt)|apply (does_prefix (transport_write_u8 RPC_READY) (λ _, read_cmd_newindex fuel) _ _ tt)]; by apply does_write_u8.
Qed.

Lemma results_index rs s L j v : l_stack L = rev rs ++ s → rs !! j = Some v → lua_index L (Z.of_nat (length s) + 1 + Z.of_nat j) = Some v.
Proof.
  intros Hs Hj. pose proof (lookup_lt_Some _ _ _ Hj). assert (lua_gettop L = Z.of_nat (length rs) + Z.of_nat (length s)) as Hn by (unfold lua_gettop; rewrite Hs, length_app, length_rev; lia).
  rewrite lua_index_abs by lia. rewrite Hs, Hn. rewrite lookup_app_l by (rewrite length_rev; lia). rewrite <- Hj.
  rewrite (rev_alt rs). change (rev_append rs []) with (reverse rs).
  rewrite reverse_lookup by lia. f_equal. lia.
Qed.

(** What a function does with what arrives, for a client at [t]. *)
Definition computes (t : Transport) (f : value) (ds' rds : list data) : Prop :=
  ∀ vs h, Forall2 (reify loads h) vs ds' → ∃ rs h', lua_calls f vs h = (inl rs, h') ∧ Forall2 (reify (dumps t) h') rs rds.

Lemma does_settop0 w inp : does (lua_do (lua_settop 0)) w inp tt (set_L w (set_stack (w_L w) [])) inp [].
Proof.
  apply does_do. unfold lua_settop. cbn [Z.leb Z.compare Z.ltb]. rewrite (proj2 (Z.leb_le _ _)) by (unfold lua_gettop; lia). rewrite Z.sub_0_r. do 2 f_equal. apply drop_ge. unfold lua_gettop. lia.
Qed.

(** A path from the globals of a state, that a request can name. *)
Record named (w : world) (ns : list mem) (x : value) : Prop := {
  named_ok : Forall (λ n, name_ok n = true) ns;
  named_some : ns ≠ [];
  named_size : msize (join ns) < stack_bytes;
  named_path : resolves (w_L w) (VTable (l_globals (w_L w))) ns x }.

(** The requested value is pushed. *)
Lemma does_name {A} w ns x (f : mem → rpc A) rest a w' inp' out : ready w → named w ns x → stack_bytes <= 2147483648 →
  does (f (join ns)) w rest a w' inp' out → does (read_name ≫= f) w (wire_name (w_tpt w) ns ++ rest) a w' inp' out.
Proof. intros Hw [Hok Hsome Hsize _] Hb Hf. eapply does_silent; [by apply does_read_name|done]. Qed.

Lemma does_named w ns x inp : named w ns x → lua_gettop (w_L w) + 2 <= l_slots (w_L w) →
  does (lua_getname (strtok (join ns)).1) w inp tt (set_L w (set_stack (w_L w) (x :: l_stack (w_L w)))) inp [].
Proof. intros [Hok Hsome Hsize Hp] Hroom. rewrite strtok_join by done. by apply does_getname. Qed.

Lemma take_rev_app {A} (vs l : list A) n : n = length vs → take n (rev vs ++ l) = rev vs ∧ drop n (rev vs ++ l) = l.
Proof. intros ->. rewrite <- (length_rev vs). split; [apply take_app_length|apply drop_app_length]. Qed.

Lemma lua_pcall_ok L vs f l rs h nargs : nargs = Z.of_nat (length vs) → l_stack L = rev vs ++ f :: l → lua_calls f vs (l_heap L) = (inl rs, h) →
  lua_pcall nargs LUA_MULTRET L = LOk (0, LState (rev rs ++ l) (Z.max (l_slots L) (Z.of_nat (length (rev rs ++ l)))) h (l_udata L) (l_globals L)).
Proof.
  intros -> Hs Hc. unfold lua_pcall. rewrite (proj2 (Z.ltb_ge _ 0)) by lia. rewrite Hs. destruct (take_rev_app vs (f :: l) (Z.to_nat (Z.of_nat (length vs))) ltac:(lia)) as [-> ->].
  rewrite rev_involutive, (proj2 (Z.ltb_ge _ _)) by lia. by rewrite Hc.
Qed.

(** The state after a call. *)
Definition returned (L : lua_State) (rs s : list value) (h : gmap Z table) : lua_State :=
  LState (rev rs ++ s) (Z.max (l_slots L) (Z.of_nat (length (rev rs ++ s)))) h (l_udata L) (l_globals L).

Lemma rooms_nonneg ds : 0 <= rooms ds.
Proof. induction ds as [|d ds IH]; cbn; [lia|]. fold (rooms ds). lia. Qed.

Lemma does_call_function n t fuel w vs f s rs h' rds rbs :
  host_ok rpc_host → lnum_bytes t ∈ [1; 2; 4; 8] → n <= 2147483648 → ready w → w_tpt w = t → l_stack (w_L w) = rev vs ++ f :: s → lua_calls f vs (l_heap (w_L w)) = (inl rs, h') →
  Forall2 (reify (dumps t) h') rs rds → (depths rds <= fuel)%nat → sendable n rds → encode_all t rds = Some rbs →
  Z.of_nat (length s) + Z.of_nat (length rds) + rooms rds <= l_slots (w_L w) < 4294967296 →
  does (call_function fuel (Z.of_nat (length vs)) (Z.of_nat (length s))) w [] tt (set_L w (returned (w_L w) rs s h')) [] (0 :: host_bytes (net_little t) 4 (Z.of_nat (length rds)) ++ rbs).
Proof.
  intros Hh Hsz Hn Hw Ht Hs Hc Hrs Hfuel Hsend Hrbs Hroom. pose proof (rooms_nonneg rds). pose proof (Forall2_length _ _ _ Hrs) as Hlr.
  unfold call_function. eapply does_silent; [apply does_res; by apply (lua_pcall_ok _ vs f s rs h')|]. cbn [Z.eqb negb].
  set (w2 := set_L w (returned (w_L w) rs s h')). change (set_L w _) with w2.
  assert (lua_gettop (w_L w2) = Z.of_nat (length rds) + Z.of_nat (length s)) as Hg2 by (unfold w2, returned, lua_gettop; cbn [w_L set_L l_stack]; rewrite length_app, length_rev; lia).
  eapply does_bind; [apply does_write_u8; [done|apply Hw]| |reflexivity]. eapply does_silent; [apply does_see|]. rewrite Hg2.
  replace (Z.of_nat (length rds) + Z.of_nat (length s) - Z.of_nat (length s)) with (Z.of_nat (length rds)) by lia.
  eapply does_bind; [apply does_write_u32; [done|lia]| |change (w_tpt w2) with (w_tpt w); by rewrite Ht]. rewrite Nat2Z.id.
  change write_results with write_args. apply (does_write_args t n rds Hh Hsz Hn rs); try done; [rewrite Hg2; unfold w2, returned; cbn [w_L set_L l_slots]; lia|lia|].
  intros j v Hj. by eapply results_index.
Qed.

(** A call: the function is given what arrives, once, and its results are sent. *)
Lemma does_read_cmd_call n t fuel w ns f ds ds' rds bs rbs :
  host_ok rpc_host → nums_read rpc_host t → n <= stack_bytes → stack_bytes <= 2147483648 → ready w → w_tpt w = t →
  named w ns f → LUA_ISCALLABLE (Some f) = true →
  (Nat.max (depths ds) (depths rds) <= fuel)%nat → receivable n t ds ds' → encode_all t ds = Some bs → computes t f ds' rds → sendable n rds → encode_all t rds = Some rbs →
  lua_gettop (w_L w) + 2 + Z.of_nat (length ds) + rooms ds <= l_slots (w_L w) < 2147483648 → lua_gettop (w_L w) + Z.of_nat (length rds) + rooms rds <= l_slots (w_L w) →
  ∃ vs hn rs L', Forall2 (reify loads (l_heap (w_L w) ∪ hn)) vs ds' ∧ lua_calls f vs (l_heap (w_L w) ∪ hn) = (inl rs, l_heap L') ∧ l_stack L' = [] ∧
    does (read_cmd_call fuel) w (wire_name t ns ++ host_bytes (net_little t) 4 (Z.of_nat (length ds)) ++ bs) tt (set_L w L') []
      (0 :: host_bytes (net_little t) 4 (Z.of_nat (length rds)) ++ rbs).
Proof.
  intros Hh Hr Hns Hb Hw Ht Hf Hcall Hfuel Hrec Hbs Hcomp Hsend Hrbs Hroom Hroom3. pose proof (rooms_nonneg ds).
  assert (lua_gettop (w_L w) = Z.of_nat (length (l_stack (w_L w)))) as Hg by done.
  set (w1 := set_L w (set_stack (w_L w) (f :: l_stack (w_L w)))). assert (lua_gettop (w_L w1) = 1 + lua_gettop (w_L w)) as Hg1 by (unfold w1, lua_gettop; cbn [w_L set_L set_stack l_stack length]; lia).
  destruct (does_read_args t n ds Hh Hr ltac:(lia) Hns ds' bs fuel w1 []) as (vs & hn & Hd & Hvs & Hargs); try done; [lia|rewrite Hg1; change (l_slots (w_L w1)) with (l_slots (w_L w)); lia|]. rewrite app_nil_r in Hargs.
  change (l_heap (w_L w1)) with (l_heap (w_L w)) in Hd.
  assert (Forall2 (reify loads (l_heap (w_L w) ∪ hn)) vs ds') as Hvs'.
  { eapply Forall2_impl; [exact Hvs|]. intros x y Hxy. eapply reify_mono; [|exact Hxy]. by apply map_union_subseteq_r. }
  destruct (Hcomp vs _ Hvs') as (rs & h' & Hc & Hrs). assert (length vs = length ds) as Hlv by (rewrite (Forall2_length _ _ _ Hvs); by eapply carry_all_length, Hrec).
  set (w2 := set_L w1 (grown (w_L w1) hn (rev vs))) in *.
  exists vs, hn, rs, (set_stack (returned (w_L w2) rs (l_stack (w_L w)) h') []). split_and!; [done|done|done|].
  rewrite <- Ht at 1. eapply does_name; [done|done|done|]. rewrite strtok_join by apply Hf. eapply does_silent; [pose proof (does_named w ns f) as Hp; rewrite strtok_join in Hp by apply Hf; apply Hp; [done|lia]|].
  fold w1. eapply does_silent; [apply does_see|]. rewrite Hg1. eapply does_silent; [apply does_see|]. rewrite (lua_index_neg1 _ f (l_stack (w_L w))) by done.
  eapply does_silent; [rewrite <- Ht; apply (does_read_u32 _ w1); [done|lia]|]. rewrite s32_id by lia. rewrite Nat2Z.id. eapply does_silent; [exact Hargs|]. rewrite Hcall.
  eapply (does_bind _ _ w2 [] tt (set_L w2 (returned (w_L w2) rs (l_stack (w_L w)) h')) [] _ tt _ [] []); [|apply (does_settop0 (set_L w2 (returned (w_L w2) rs (l_stack (w_L w)) h')))|by rewrite app_nil_r].
  replace (1 + lua_gettop (w_L w) - 1) with (Z.of_nat (length (l_stack (w_L w)))) by lia. rewrite <- Hlv at 1.
  eapply (does_call_function n t); try done; [apply Hr|lia|lia|]. change (l_slots (w_L w2)) with (l_slots (w_L w)). lia.
Qed.
(** A value is read where it is. *)
Lemma does_read_cmd_get n t fuel w ns x d bs :
  host_ok rpc_host → lnum_bytes t ∈ [1; 2; 4; 8] → n <= 2147483648 → stack_bytes <= 2147483648 → ready w → w_tpt w = t → named w ns x →
  reify (dumps t) (l_heap (w_L w)) x d → data_ok n d = true → data_num (num_ok rpc_host) d → encode t d = Some bs → (depth d <= fuel)%nat → lua_gettop (w_L w) + 2 + room d <= l_slots (w_L w) →
  does (read_cmd_get fuel) w (wire_name t ns) tt (set_L w (set_stack (w_L w) [])) [] bs.
Proof.
  intros Hh Hsz Hn Hb Hw Ht Hx Hd Hok Hnum Hbs Hf Hroom. pose proof (proj1 entries_room_nonneg d). rewrite <- (app_nil_r (wire_name t ns)), <- Ht. eapply does_name; [done|done|done|].
  eapply does_silent; [eapply does_named; [done|lia]|]. set (w1 := set_L w (set_stack (w_L w) (x :: l_stack (w_L w)))). eapply does_silent; [apply does_see|].
  eapply (does_bind _ _ w1 [] tt w1 [] _ tt _ [] []); [|apply (does_settop0 w1)|by rewrite app_nil_r].
  assert (lua_gettop (w_L w1) = 1 + lua_gettop (w_L w)) as Hg by (unfold w1, lua_gettop; cbn [w_L set_L set_stack l_stack length]; lia).
  apply (proj1 (write_all t n Hh Hsz Hn) d x bs fuel (lua_gettop (w_L w1)) w1 []); try done; [rewrite Hg; change (l_slots (w_L w1)) with (l_slots (w_L w)); lia|unfold lua_gettop in *; lia|].
  by apply (lua_index_top _ x (l_stack (w_L w))).
Qed.

Lemma lua_index_third L v1 v2 v3 s : l_stack L = v1 :: v2 :: v3 :: s → lua_index L (-3) = Some v3.
Proof. intros Hs. unfold lua_index, index2adr. rewrite (gettop_cons v1 L _ Hs). cbn [length Z.ltb Z.compare andb]. rewrite (proj2 (Z.leb_le _ _)) by lia. cbn. by rewrite Hs. Qed.

Lemma lua_index_second L v1 v2 s : l_stack L = v1 :: v2 :: s → lua_index L (-2) = Some v2.
Proof. intros Hs. unfold lua_index, index2adr. rewrite (gettop_cons v1 L _ Hs). cbn [length Z.ltb Z.compare andb]. rewrite (proj2 (Z.leb_le _ _)) by lia. cbn. by rewrite Hs. Qed.

(** A key and a value. *)
Lemma does_read_two n t fuel w k v k' v' bs rest :
  host_ok rpc_host → nums_read rpc_host t → n <= 2147483648 → n <= stack_bytes → ready w → w_tpt w = t → receivable n t [k; v] [k'; v'] → encode_all t [k; v] = Some bs → (depths [k; v] <= fuel)%nat →
  lua_gettop (w_L w) + 2 + rooms [k; v] <= l_slots (w_L w) →
  ∃ kv vv hn, hn ##ₘ l_heap (w_L w) ∧ reify loads hn kv k' ∧ reify loads hn vv v' ∧
    ∀ (p : rpc unit) w' out, does p (set_L w (grown (w_L w) hn [vv; kv])) rest tt w' [] out → does (read_variable fuel;; (read_variable fuel;; p)) w (bs ++ rest) tt w' [] out.
Proof.
  intros Hh Hr Hn Hs Hw Ht [Hc Hok Hok' Hnum Hfun] Hbs Hf Hroom. cbn [encode_all carry_all] in Hbs, Hc.
  destruct (encode t k) as [a|] eqn:Ea; [|done]. destruct (encode t v) as [b|] eqn:Eb; [|done]. destruct (carry rpc_host t k) as [k1|] eqn:Ek; [|done]. destruct (carry rpc_host t v) as [v1|] eqn:Ev; [|done].
  cbn [mbind option_bind] in Hbs, Hc. simplify_eq. rewrite !Forall_cons in Hok, Hok', Hnum, Hfun. cbn [rooms depths foldr] in Hroom, Hf. destruct Hok as (Hk & Hv & _), Hok' as (Hk' & Hv' & _), Hnum as (Hnk & Hnv & _), Hfun as (Hfk & Hfv & _).
  destruct (proj1 (read_all (w_tpt w) n Hh Hr Hn Hs) k a k' fuel w (b ++ rest)) as (kv & h1 & Hd1 & Hkv & Hs1); try done; [lia|lia|].
  destruct (proj1 (read_all (w_tpt w) n Hh Hr Hn Hs) v b v' fuel (set_L w (grown (w_L w) h1 [kv])) rest) as (vv & h2 & Hd2 & Hvv & Hs2); try done; [lia| |].
  { cbn [w_L set_L]. rewrite gettop_grown. change (l_slots (grown (w_L w) h1 [kv])) with (l_slots (w_L w)). cbn [length]. lia. }
  cbn [w_L set_L grown l_heap] in Hd2. apply map_disjoint_union_r in Hd2 as [Hd2 Hd21]. exists kv, vv, (h1 ∪ h2). split_and!.
  - by apply map_disjoint_union_l_2.
  - eapply reify_mono; [|exact Hkv]. apply map_union_subseteq_l.
  - eapply reify_mono; [|exact Hvv]. by apply map_union_subseteq_r.
  - intros p w' out Hp. rewrite app_nil_r, <- app_assoc. eapply does_silent; [exact Hs1|]. eapply does_silent; [exact Hs2|]. cbn [w_L set_L]. by rewrite grown_grown.
Qed.

(** What is assigned is found. *)
Lemma luaH_get_set es u v es' : rawequalObj u u = true → v ≠ VNil → luaH_set es u v = LOk es' → luaH_get es' u = v.
Proof.
  intros Hu Hv Hset. assert (es' = entries_set es u v) as ->.
  { unfold luaH_set in Hset. destruct u; try done; try (by injection Hset). destruct (num_nan x); [done|]. by injection Hset. }
  unfold entries_set, luaH_get. destruct (list_find (λ e, rawequalObj e.1 u = true) es) as [[i [k' v0]]|] eqn:E.
  - rewrite decide_False by done. apply list_find_Some in E as (Hi & Hk & Hbefore). cbn in Hk. pose proof (lookup_lt_Some _ _ _ Hi).
    assert (list_find (λ e, rawequalObj e.1 u = true) (<[i:=(k', v)]> es) = Some (i, (k', v))) as ->; [|done].
    apply list_find_Some. split_and!; [by apply list_lookup_insert_eq|done|]. intros j y Hj Hji. rewrite list_lookup_insert_ne in Hj by lia. by eapply Hbefore.
  - rewrite decide_False by done. assert (list_find (λ e, rawequalObj e.1 u = true) (es ++ [(u, v)]) = Some (length es, (u, v))) as ->; [|done].
    apply list_find_Some. split_and!; [by rewrite list_lookup_middle|done|]. intros j y Hj Hji. rewrite lookup_app_l in Hj by lia.
    apply list_find_None in E. rewrite Forall_lookup in E. by eapply E.
Qed.

(** A table that takes an assignment as it is. *)
Definition plain (tb : table) (u : value) : Prop := luaH_get (t_entries tb) u ≠ VNil ∨ m_newindex (t_metatable tb) = false.

Lemma settable_plain L r tb u v es : l_heap L !! r = Some tb → plain tb u → luaH_set (t_entries tb) u v = LOk es → luaV_settable (VTable r) u v L = LOk (set_entries L r tb es).
Proof.
  intros Hr Hp Hs. unfold luaV_settable. rewrite Hr. cbn [lopt mbind lres_mbind lua_bind]. rewrite Hs. cbn [mbind lres_mbind lua_bind]. destruct Hp as [Hp | ->].
  - by rewrite bool_decide_false.
  - by rewrite orb_true_r.
Qed.

Lemma luaH_set_key es k u v : key_ok k = true → scalar k = Some u → luaH_set es u v = LOk (entries_set es u v).
Proof. unfold key_ok. destruct k; cbn; try done; intros H [= <-]; try done. destruct x; cbn in *; [done|]. by destruct (dbl_nan bits). Qed.

(** The state after an assignment to the table [r]. *)
Definition assigned (L : lua_State) (hn : gmap Z table) (r : Z) (tb : table) (u v : value) : lua_State :=
  set_stack (set_heap L (<[r := Table (entries_set (t_entries tb) u v) (t_metatable tb)]> (l_heap L ∪ hn))) [].

(** An assignment to a field of a named table. *)
Lemma does_read_cmd_newindex n t fuel w ns r tb k v k' v' u bs :
  host_ok rpc_host → nums_read rpc_host t → n <= stack_bytes → stack_bytes <= 2147483648 → ready w → w_tpt w = t → named w ns (VTable r) → l_heap (w_L w) !! r = Some tb →
  receivable n t [k; v] [k'; v'] → encode_all t [k; v] = Some bs → key_ok k' = true → scalar k' = Some u → plain tb u → (depths [k; v] <= fuel)%nat →
  lua_gettop (w_L w) + 3 + rooms [k; v] <= l_slots (w_L w) →
  ∃ vv hn, hn ##ₘ l_heap (w_L w) ∧ reify loads hn vv v' ∧
    does (read_cmd_newindex fuel) w (wire_name t ns ++ bs) tt (set_L w (assigned (w_L w) hn r tb u vv)) [] [0].
Proof.
  intros Hh Hr Hns Hb Hw Ht Hx Hrt Hrec Hbs Hk Hu Hp Hf Hroom. pose proof (rooms_nonneg [k; v]).
  set (w1 := set_L w (set_stack (w_L w) (VTable r :: l_stack (w_L w)))). assert (lua_gettop (w_L w1) = 1 + lua_gettop (w_L w)) as Hg by (unfold w1, lua_gettop; cbn [w_L set_L set_stack l_stack length]; lia).
  destruct (does_read_two n t fuel w1 k v k' v' bs [] Hh Hr ltac:(lia) Hns) as (kv & vv & hn & Hd & Hkv & Hvv & Htwo); try done; [rewrite Hg; change (l_slots (w_L w1)) with (l_slots (w_L w)); lia|].
  apply (reify_scalar _ _ _ _ u Hu) in Hkv as ->. exists vv, hn. split_and!; [done|done|]. rewrite <- Ht. eapply does_name; [done|done|done|].
  assert ((0 <? msize (cstr (join ns))) = true) as ->.
  { destruct Hx as [Hok Hsome _ _]. destruct ns as [|m ns]; [done|]. apply Forall_cons in Hok as [[Hm Hc]%name_ok_spec _]. destruct m as [|c m]; [done|]. apply Forall_cons in Hc as [Hc _].
    replace (join ((c :: m) :: ns)) with (c :: (m ++ match ns with [] => [] | _ => 46 :: join ns end)) by (destruct ns; cbn; [by rewrite app_nil_r|done]).
    cbn [cstr]. rewrite (proj2 (Z.eqb_neq c 0)) by lia. rewrite msize_cons. pose proof (msize_nonneg (cstr (m ++ match ns with [] => [] | _ => 46 :: join ns end))). apply Z.ltb_lt. lia. }
  eapply (does_bind _ _ w _ tt (set_L w (set_stack (set_heap (w_L w) (<[r := Table (entries_set (t_entries tb) u vv) (t_metatable tb)]> (l_heap (w_L w) ∪ hn))) (VTable r :: l_stack (w_L w)))) [] [] tt _ [] [0]); [| |done].
  - eapply does_silent; [eapply does_named; [done|lia]|]. fold w1. rewrite <- (app_nil_r bs). apply Htwo.
    replace (set_L w _) with (set_L (set_L w1 (grown (w_L w1) hn [vv; u])) (set_stack (set_entries (grown (w_L w1) hn [vv; u]) r tb (entries_set (t_entries tb) u vv)) (VTable r :: l_stack (w_L w)))) by done.
    apply does_do. unfold lua_settable. cbn [w_L set_L grown w1 set_stack l_stack app]. rewrite (lua_index_third _ vv u (VTable r) (l_stack (w_L w))) by done. cbn [lopt mbind lres_mbind lua_bind].
    erewrite settable_plain; [reflexivity|by apply lookup_union_Some_l|done|by apply (luaH_set_key _ k')].
  - eapply does_bind; [by apply does_write_u8; [done|apply Hw]|apply does_settop0|done].
Qed.
(** There is no function of that name: the answer has the name with ends of strings for its dots. *)
Definition undefined_msg (ns : list mem) : mem := ascii_bytes "undefined function: " ++ join0 ns.

Definition undefined_answer (t : Transport) (ns : list mem) : mem :=
  1 :: host_bytes (net_little t) 4 LUA_ERRRUN ++ host_bytes (net_little t) 4 (msize (undefined_msg ns)) ++ undefined_msg ns.

Lemma join0_size ns : msize (join0 ns) = msize (join ns).
Proof. induction ns as [|n [|n' ns] IH]; [done|done|]. change (msize (n ++ 0 :: join0 (n' :: ns)) = msize (n ++ 46 :: join (n' :: ns))). rewrite !msize_app, !msize_cons. by rewrite IH. Qed.

Lemma does_undefined n t fuel w ns x ds ds' bs :
  host_ok rpc_host → nums_read rpc_host t → n <= stack_bytes → stack_bytes <= 2147483648 → ready w → w_tpt w = t → named w ns x → LUA_ISCALLABLE (Some x) = false →
  receivable n t ds ds' → encode_all t ds = Some bs → (depths ds <= fuel)%nat → lua_gettop (w_L w) + 2 + Z.of_nat (length ds) + rooms ds <= l_slots (w_L w) < 2147483648 →
  ∃ L', l_stack L' = [] ∧ does (read_cmd_call fuel) w (wire_name t ns ++ host_bytes (net_little t) 4 (Z.of_nat (length ds)) ++ bs) tt (set_L w L') [] (undefined_answer t ns).
Proof.
  intros Hh Hr Hns Hb Hw Ht Hx Hcall Hrec Hbs Hf Hroom. pose proof (rooms_nonneg ds). assert (lua_gettop (w_L w) = Z.of_nat (length (l_stack (w_L w)))) as Hg by done.
  set (w1 := set_L w (set_stack (w_L w) (x :: l_stack (w_L w)))). assert (lua_gettop (w_L w1) = 1 + lua_gettop (w_L w)) as Hg1 by (unfold w1, lua_gettop; cbn [w_L set_L set_stack l_stack length]; lia).
  destruct (does_read_args t n ds Hh Hr ltac:(lia) Hns ds' bs fuel w1 []) as (vs & hn & _ & _ & Hargs); try done; [rewrite Hg1; change (l_slots (w_L w1)) with (l_slots (w_L w)); lia|]. rewrite app_nil_r in Hargs.
  set (w2 := set_L w1 (grown (w_L w1) hn (rev vs))) in *. exists (set_stack (w_L w2) []). split; [done|].
  assert (msize (join0 ns) < 2147483648 ∧ 0 <= msize (join0 ns)) as [Hjs Hj0] by (rewrite join0_size; split; [pose proof (named_size _ _ _ Hx); lia|apply msize_nonneg]).
  rewrite <- Ht at 1. eapply does_name; [done|done|done|]. rewrite strtok_join by apply Hx. eapply does_silent; [pose proof (does_named w ns x) as Hp; rewrite strtok_join in Hp by apply Hx; apply Hp; [done|lia]|].
  fold w1. eapply does_silent; [apply does_see|]. eapply does_silent; [apply does_see|]. rewrite (lua_index_neg1 _ x (l_stack (w_L w))) by done.
  eapply does_silent; [rewrite <- Ht; apply (does_read_u32 _ w1); [done|lia]|]. rewrite s32_id by lia. rewrite Nat2Z.id. eapply does_silent; [exact Hargs|]. rewrite Hcall.
  eapply (does_bind _ _ w2 [] tt w2 [] _ tt _ [] []); [|apply (does_settop0 w2)|by rewrite app_nil_r]. assert (link_open w2) as Hl by apply Hw. assert (net_little (w_tpt w2) = net_little t) as Hlit by (by rewrite <- Ht).
  unfold bad_function. cbv zeta. assert (msize (ascii_bytes "undefined function: ") + msize (join0 ns) = msize (undefined_msg ns)) as -> by (unfold undefined_msg; by rewrite msize_app).
  assert (0 <= msize (undefined_msg ns) < 4294967296) as Hum by (unfold undefined_msg; rewrite msize_app; change (msize (ascii_bytes "undefined function: ")) with 20; lia).
  unfold undefined_answer. rewrite <- Hlit. eapply does_bind; [by apply does_write_u8| |reflexivity]. eapply does_bind; [by apply does_write_u32| |reflexivity]. eapply does_bind; [by apply does_write_u32| |reflexivity].
  eapply does_bind; [by apply does_write_buffer|by apply does_write_buffer|reflexivity].
Qed.
End server.

(** ** The client *)

Section client.
Context {vm : LuaVM} {conf : RpcConf}.

Lemma client_asks {A} (p : rpc A) h cmd w : link_open w → 0 <= cmd < 256 →
  steps CON_UART_ID (catch (helper_wait_ready cmd;; p) h) w [] (catch (wait_response;; p) h) w [] [cmd].
Proof. intros Hw Hc. apply steps_catch, steps_bind. apply (does_prefix (transport_write_u8 cmd) (λ _, wait_response) _ _ tt). by apply does_write_u8. Qed.

Lemma client_is_answered {A} (p : rpc A) h w : link_open w → steps CON_UART_ID (catch (wait_response;; p) h) w [RPC_READY] (catch p h) w [] [].
Proof.
  intros Hw. apply steps_catch. apply (does_prefix wait_response (λ _, p) _ _ tt). eapply does_silent; [by apply does_read_u8|]. apply does_ret.
Qed.

(** A helper at an index. *)
Lemma does_checkhelper w inp idx h parent k f : lua_index (w_L w) idx = Some (VUserdata h) → l_udata (w_L w) !! h = Some (UHelper parent k f) →
  does (luaL_checkhelper idx) w inp (h, parent, f) w inp [].
Proof.
  intros Hi Hh. eapply does_silent; [apply does_see|]. unfold lua_touserdata. rewrite Hi, Hh. apply does_ret.
Qed.

(** The request of a call. *)
Definition wire_call (t : Transport) (ns : list mem) (ds : list data) (bs : mem) : mem :=
  wire_name t ns ++ host_bytes (net_little t) 4 (Z.of_nat (length ds)) ++ bs.

Definition call_request (fuel : nat) (h : Z) : rpc Z :=
  helper_remote_index h;;
  n ← lua_see lua_gettop;
  transport_write_u32 (n - 1);;
  write_args fuel (Z.to_nat (n - 1)) 2;;
  read_return fuel.

Lemma steps_call_request n t fuel w h ns vs ds bs : host_ok rpc_host → lnum_bytes t ∈ [1; 2; 4; 8] → n <= 2147483648 → ready w → w_tpt w = t →
  helper_path (l_udata (w_L w)) h ns → msize (join ns) < 4294967296 → l_stack (w_L w) = rev vs ++ [VUserdata h] → Forall2 (reify (dumps t) (l_heap (w_L w))) vs ds → sendable n ds → encode_all t ds = Some bs →
  (depths ds <= fuel)%nat → lua_gettop (w_L w) + rooms ds <= l_slots (w_L w) < 4294967296 →
  steps CON_UART_ID (call_request fuel h) w [] (read_return fuel) w [] (wire_call t ns ds bs).
Proof.
  intros Hh Hsz Hn Hw Ht Hp Hns Hs Hv Hsend Hbs Hf Hroom. pose proof (rooms_nonneg ds). pose proof (Forall2_length _ _ _ Hv) as Hlen.
  assert (lua_gettop (w_L w) = Z.of_nat (length ds) + 1) as Hg by (unfold lua_gettop; rewrite Hs, length_app, length_rev; cbn; lia).
  unfold call_request, wire_call. rewrite <- Ht. eapply steps_then; [by apply does_remote_index|]. change (host_bytes (net_little (w_tpt w)) 4 (Z.of_nat (length ds)) ++ bs) with ([] ++ host_bytes (net_little (w_tpt w)) 4 (Z.of_nat (length ds)) ++ bs).
  eapply steps_then; [apply does_see|]. rewrite Hg. replace (Z.of_nat (length ds) + 1 - 1) with (Z.of_nat (length ds)) by lia. rewrite Nat2Z.id.
  eapply steps_then; [by apply does_write_u32; [|lia]|]. rewrite <- (app_nil_r bs). eapply steps_then; [|constructor].
  apply (does_write_args t n ds Hh Hsz Hn vs 2 bs fuel w []); try done; [lia|]. intros j v Hj. replace (2 + Z.of_nat j) with (Z.of_nat (length [VUserdata h]) + 1 + Z.of_nat j) by (cbn; lia). by apply (results_index vs).
Qed.

(** The results. *)
Lemma does_read_return n t fuel w ds ds' bs : host_ok rpc_host → nums_read rpc_host t → n <= 2147483648 → n <= stack_bytes → ready w → w_tpt w = t →
  encode_all t ds = Some bs → receivable n t ds ds' → (depths ds <= fuel)%nat → lua_gettop (w_L w) + Z.of_nat (length ds) + rooms ds <= l_slots (w_L w) < 2147483648 →
  ∃ vs hn, hn ##ₘ l_heap (w_L w) ∧ Forall2 (reify loads hn) vs ds' ∧
    does (read_return fuel) w (0 :: host_bytes (net_little t) 4 (Z.of_nat (length ds)) ++ bs) (Z.of_nat (length ds)) (set_L w (grown (w_L w) hn (rev vs))) [] [].
Proof.
  intros Hh Hr Hn Hs Hw Ht Hbs Hrec Hf Hroom. pose proof (rooms_nonneg ds). assert (0 <= lua_gettop (w_L w)) by (unfold lua_gettop; lia).
  destruct (does_read_args t n ds Hh Hr Hn Hs ds' bs fuel w []) as (vs & hn & Hd & Hvs & Hargs); try done; [lia|]. exists vs, hn. split_and!; [done|done|].
  eapply does_silent; [by apply does_read_u8; [|apply Hw]|]. cbn [Z.eqb]. rewrite <- Ht. eapply does_silent; [by apply does_read_u32; [|lia]|]. rewrite s32_id by lia. rewrite Nat2Z.id.
  rewrite app_nil_r in Hargs. eapply does_silent; [exact Hargs|]. apply does_ret.
Qed.
End client.
