(* ===== verification/LuaRpcRun.v ===== *)
(** * Two programs with the remote calls of Lua

    The theorems: a client and a server on one line agree on a format, exchange values, and a remote call does what a call
    does, in every interleaving of the two programs. *)
From S2P Require Import Prelude Exchange LuaNum LuaApi LuaRpc LuaRpcWire LuaRpcValues LuaRpcNames LuaRpcCalls.

(** ** Two ends of one connection *)

(** The same format. *)
Definition same_net (t1 t2 : Transport) : Prop := net_little t1 = net_little t2 ∧ net_intnum t1 = net_intnum t2 ∧ lnum_bytes t1 = lnum_bytes t2.

Lemma encode_same t1 t2 : same_net t1 t2 → (∀ d, encode t1 d = encode t2 d) ∧ (∀ l, encode_entries t1 l = encode_entries t2 l).
Proof.
  intros (H1 & H2 & H3). apply data_entries_ind; cbn; unfold wire_num, wire_str; rewrite ?H1, ?H2, ?H3; try done; [by intros l ->|]. by intros k -> v -> l ->.
Qed.

Lemma encode_all_same t1 t2 ds : same_net t1 t2 → encode_all t1 ds = encode_all t2 ds.
Proof. intros H. induction ds as [|d ds IH]; [done|]. cbn. by rewrite (proj1 (encode_same t1 t2 H)), IH. Qed.

Lemma carry_same h t1 t2 : same_net t1 t2 → (∀ d, carry h t1 d = carry h t2 d) ∧ (∀ l, carry_entries h t1 l = carry_entries h t2 l).
Proof.
  intros (H1 & H2 & H3). apply data_entries_ind; cbn; unfold carry_num; rewrite ?H1, ?H2, ?H3; try done; [by intros l ->|]. by intros k -> v -> l ->.
Qed.

Lemma carry_all_same h t1 t2 ds : same_net t1 t2 → carry_all h t1 ds = carry_all h t2 ds.
Proof. intros H. induction ds as [|d ds IH]; [done|]. cbn. by rewrite (proj1 (carry_same h t1 t2 H)), IH. Qed.

Lemma same_net_sym t1 t2 : same_net t1 t2 → same_net t2 t1.
Proof. intros (? & ? & ?). by split_and!. Qed.

Lemma session_same h1 h2 hc hs t1 t2 : same_net (session h1 hc hs t1) (session h2 hc hs t2).
Proof. done. Qed.

(** Both can read the numbers of the other, unless they have integers of different sizes. *)
Lemma nums_read_session hc hs h t : host_ok hc → host_ok hs → h = hc ∨ h = hs → (h_intnum hc = true → h_intnum hs = true → h_bytes hc = h_bytes hs) → nums_read h (session h hc hs t).
Proof.
  intros Hc Hs Hh Hsize. split; [by apply agreed_bytes_ok|]. unfold session, agreed_intnum, agreed_bytes. cbn. unfold host_ok in *.
  destruct (h_intnum hc) eqn:Ec, (h_intnum hs) eqn:Es; cbn [orb].
  - rewrite (Hsize eq_refl eq_refl). destruct Hh as [-> | ->]; intros _; rewrite ?(Hsize eq_refl eq_refl); lia.
  - destruct Hh as [-> | ->]; [intros _|by rewrite Es]. apply cases_1248 in Hc. lia.
  - destruct Hh as [-> | ->]; [by rewrite Ec|intros _]. apply cases_1248 in Hs. lia.
  - destruct Hh as [-> | ->]; split; (done || lia).
Qed.

(** A side of a connection in the format of [t]; strings are shorter than [n]. *)
Record side (vm : LuaVM) (conf : RpcConf) (n : Z) (t : Transport) (w : world) : Prop := {
  side_host : host_ok rpc_host;
  side_nums : nums_read rpc_host t;
  side_strings : n <= stack_bytes ∧ stack_bytes <= 2147483648;
  side_ready : ready w;
  side_tpt : w_tpt w = t;
  side_slots : l_slots (w_L w) < 2147483648 }.

(** A request and its answer, with an acknowledgement first. *)
Lemma net_request {S1 S2 A1 A2} k1 k2 (c0 c1 c2 c3 : io S1 A1) (s0 s1 s2 : io S2 A2) wc wc' ws ws1 ws' o1 r1 o2 r2 :
  steps k1 c0 wc [] c1 wc [] o1 → steps k2 s0 ws o1 s1 ws1 [] r1 → steps k1 c1 wc r1 c2 wc [] o2 → steps k2 s1 ws1 o2 s2 ws' [] r2 → steps k1 c2 wc r2 c3 wc' [] [] →
  rtc (net_step k1 k2) (Net c0 wc s0 ws [] []) (Net c3 wc' s2 ws' [] []).
Proof.
  intros H1 H2 H3 H4 H5. etrans; [apply (net_steps_first k1 k2 _ _ _ _ _ _ _ H1 s0 ws [])|]. etrans; [apply (net_steps_second k1 k2 _ _ _ _ _ _ _ H2 c1 wc [])|].
  etrans; [apply (net_steps_first k1 k2 _ _ _ _ _ _ _ H3 s1 ws1 [])|]. etrans; [apply (net_steps_second k1 k2 _ _ _ _ _ _ _ H4 c2 wc [])|].
  pose proof (net_steps_first k1 k2 _ _ _ _ _ _ _ H5 s2 ws' []) as H. rewrite app_nil_l in H |- *. exact H.
Qed.

(** Whatever the order of the steps, the programs end as [f]. *)
Definition ends_as {S1 S2 A1 A2} (k1 k2 : Z) (x f : net S1 S2 A1 A2) : Prop :=
  (∀ y, rtc (net_step k1 k2) x y → rtc (net_step k1 k2) y f) ∧ ∃ m, ∀ i y, nsteps (net_step k1 k2) i x y → (i <= m)%nat.

(** ** Calls *)

(** A client that calls the helper [h], which stands for [ns], with the arguments [ds]; the answer fits its stack. *)
Record caller (vm : LuaVM) (conf : RpcConf) (n : Z) (t : Transport) (fuel : nat) (w : world) (h : Z) (ns : list mem) (ds : list data) : Prop := {
  caller_side : side vm conf n t w;
  caller_path : helper_path (l_udata (w_L w)) h ns;
  caller_get : ∀ parent k, l_udata (w_L w) !! h ≠ Some (UHelper parent k (ascii_bytes "get"));
  caller_name : msize (join ns) < 4294967296;
  caller_stack : ∃ vs, l_stack (w_L w) = rev vs ++ [VUserdata h] ∧ Forall2 (reify (dumps t) (l_heap (w_L w))) vs ds;
  caller_send : sendable n ds;
  caller_fuel : (depths ds <= fuel)%nat;
  caller_slots : lua_gettop (w_L w) + rooms ds <= l_slots (w_L w) }.

(** A server with a function [f] at [ns] that takes these arguments and gives the results [rds]. *)
Record callee (vm : LuaVM) (conf : RpcConf) (n : Z) (t : Transport) (fuel : nat) (w : world) (ns : list mem) (f : value) (ds ds' rds : list data) : Prop := {
  callee_side : side vm conf n t w;
  callee_name : named w ns f;
  callee_fun : LUA_ISCALLABLE (Some f) = true;
  callee_args : receivable n t ds ds';
  callee_results : computes t f ds' rds;
  callee_send : sendable n rds;
  callee_fuel : (Nat.max (depths ds) (depths rds) <= fuel)%nat;
  callee_slots : lua_gettop (w_L w) + 2 + Z.of_nat (length ds) + rooms ds <= l_slots (w_L w) ∧ lua_gettop (w_L w) + Z.of_nat (length rds) + rooms rds <= l_slots (w_L w) }.

Lemma helper_call_asks {vm : LuaVM} {conf : RpcConf} n t fuel w h ns ds : caller vm conf n t fuel w h ns ds →
  steps CON_UART_ID (helper_call fuel) w [] (catch (wait_response;; call_request fuel h) generic_catch_handler) w [] [RPC_CMD_CALL].
Proof.
  intros [Hs (parent & k & f & ps & Hh & _ & _) Hget _ (vs & Hst & _) _ _ _]. unfold helper_call. 
  eapply steps_silent; [eapply does_checkhelper; [|exact Hh]|].
  { rewrite lua_index_abs by (unfold lua_gettop; rewrite Hst, length_app; cbn; lia). unfold lua_gettop. rewrite Hst, lookup_app_r by (rewrite length_app; cbn; lia).
    replace (Z.to_nat _ - length (rev vs))%nat with 0%nat by (rewrite length_app; cbn; lia). done. }
  cbn beta iota. rewrite bool_decide_false by (intros ->; by eapply Hget). by apply client_asks; [apply Hs|].
Qed.

(** C18: A remote call over the console's serial line: in every interleaving, the server's function is called once, with the
    arguments as they are on its machine, and the client gets its results as they are on the client's. Both sides are ready and
    read the connection's numbers as they are (a machine with integer numbers has integers of the connection's size), strings fit
    the C stack, and the Lua stacks have slots for the values: the [caller] and the [callee]. *)
Theorem luarpc_call_runs vmc vms confc confs n tc ts fuelc fuels wc ws h ns f ds ds' rds rds' bs rbs
  (Hcaller : caller vmc confc n tc fuelc wc h ns ds) (Hcallee : callee vms confs n ts fuels ws ns f ds ds' rds)
  (Hnet : same_net tc ts) (Hbs : encode_all tc ds = Some bs) (Hrbs : encode_all ts rds = Some rbs)
  (Hback : @receivable vmc confc n tc rds rds') (Hfuel : (depths rds <= fuelc)%nat) (Hslots : lua_gettop (w_L wc) + Z.of_nat (length rds) + rooms rds <= l_slots (w_L wc)) :
  ∃ vs hn rs res hr Ls,
    (Forall2 (reify (@loads vms) (l_heap (w_L ws) ∪ hn)) vs ds' ∧ @lua_calls vms f vs (l_heap (w_L ws) ∪ hn) = (inl rs, l_heap Ls) ∧ l_stack Ls = []) ∧
    (hr ##ₘ l_heap (w_L wc) ∧ Forall2 (reify (@loads vmc) hr) res rds') ∧
    ends_as (@CON_UART_ID confc) (@CON_UART_ID confs)
      (Net (@helper_call vmc confc fuelc) wc (@rpc_dispatch_helper vms confs fuels) ws [] [])
      (Net (Ret (Z.of_nat (length rds))) (set_L wc (grown (w_L wc) hr (rev res))) (Ret tt) (set_errs (set_L ws Ls) 0) [] []).
Proof.
  pose proof (helper_call_asks _ _ _ _ _ _ _ Hcaller) as Hask. destruct Hcaller as [[Hhc Hnc [Hsc1 Hsc2] Hrc Htc Hslc] Hpath _ Hname (avs & Hst & Havs) Hsend Hfc Hroomc].
  destruct Hcallee as [[Hhs Hnums [Hss1 Hss2] Hrs Hts Hsls] Hnamed Hfun Hargs Hcomp Hsends Hfs [Hrooms1 Hrooms2]].
  assert (encode_all ts ds = Some bs) as Hbs2 by (by rewrite <- (encode_all_same tc ts)). assert (encode_all tc rds = Some rbs) as Hrbs2 by (by rewrite (encode_all_same tc ts)).
  destruct (@does_read_cmd_call vms confs n ts fuels ws ns f ds ds' rds bs rbs) as (vs & hn & rs & Ls & Hvs & Hcall & Hstk & Hsrv); try done.
  destruct (@does_read_return vmc confc n tc fuelc wc rds rds' rbs) as (res & hr & Hd & Hres & Hret); try done; [lia|].
  exists vs, hn, rs, res, hr, Ls. split_and!; [done|done|done|done|done|]. apply net_always; [|apply net_ret_stuck].
  assert (wire_name ts ns = wire_name tc ns) as Hw1 by (unfold wire_name; by rewrite (proj1 Hnet)).
  eapply net_request.
  - exact Hask.
  - apply dispatch_accepts; [apply Hrs|by left].
  - change (wire_call tc ns ds bs) with ([] ++ wire_call tc ns ds bs). eapply steps_trans; [apply client_is_answered, Hrc|]. apply steps_catch. apply (@steps_call_request vmc confc n tc fuelc wc h ns avs ds bs); try done; [apply Hnc|lia|lia].
  - apply does_in_dispatch. unfold wire_call. rewrite <- Hw1, (proj1 Hnet). exact Hsrv.
  - apply does_catch. rewrite <- (proj1 Hnet). exact Hret.
Qed.

(** The request of a value. *)
Definition get_request (fuel : nat) `{LuaVM, RpcConf} (p : Z) : rpc Z := helper_remote_index p;; (read_variable fuel;; Ret 1).

(** The client while it waits for the server, and for the value. *)
Definition get_waiting (fuel : nat) `{LuaVM, RpcConf} (p : Z) : rpc Z := catch (wait_response;; get_request fuel p) generic_catch_handler ≫= λ _, Ret 1.
Definition get_reading (fuel : nat) `{LuaVM, RpcConf} : rpc Z := catch (read_variable fuel;; Ret 1) generic_catch_handler ≫= λ _, Ret 1.

(** [handle.a.b.get()]: the client gets the value at that name as it is on its machine. *)
Theorem luarpc_get_runs vmc vms confc confs n tc ts fuelc fuels wc ws hg p k s ns x d d' bs
  (Hc : side vmc confc n tc wc) (Hs : side vms confs n ts ws) (Hnet : same_net tc ts)
  (Hstk : l_stack (w_L wc) = s ++ [VUserdata hg]) (Hhg : l_udata (w_L wc) !! hg = Some (UHelper (Some p) k (ascii_bytes "get")))
  (Hpath : helper_path (l_udata (w_L wc)) p ns) (Hname : msize (join ns) < 4294967296) (Hnamed : @named vms confs ws ns x)
  (Hx : reify (@dumps vms ts) (l_heap (w_L ws)) x d) (Hsend : @sendable vms confs n [d]) (Hbs : encode ts d = Some bs) (Hrec : @receivable vmc confc n tc [d] [d'])
  (Hfuel : (depth d <= fuelc)%nat ∧ (depth d <= fuels)%nat) (Hroomc : lua_gettop (w_L wc) + room d <= l_slots (w_L wc)) (Hrooms : lua_gettop (w_L ws) + 2 + room d <= l_slots (w_L ws)) :
  ∃ v hr, hr ##ₘ l_heap (w_L wc) ∧ reify (@loads vmc) hr v d' ∧
    ends_as (@CON_UART_ID confc) (@CON_UART_ID confs)
      (Net (@helper_call vmc confc fuelc) wc (@rpc_dispatch_helper vms confs fuels) ws [] [])
      (Net (Ret 1) (set_L wc (grown (w_L wc) hr [v])) (Ret tt) (set_errs (set_L ws (set_stack (w_L ws) [])) 0) [] []).
Proof.
  destruct Hc as [Hhc Hnc [Hsc1 Hsc2] Hrc Htc Hslc], Hs as [Hhs Hns [Hss1 Hss2] Hrs Hts Hsls], Hfuel as [Hfc Hfs].
  destruct Hsend as [Hok Hnum], Hrec as [Hca _ Hok' Hnum' Hfun]. rewrite !Forall_cons in Hok, Hnum, Hok', Hnum', Hfun. cbn [carry_all] in Hca. destruct (@carry (@rpc_host confc) tc d) as [d1|] eqn:Ed; [|done]. cbn [mbind option_bind] in Hca. injection Hca as ->.
  assert (encode tc d = Some bs) as Hbs2 by (by rewrite (proj1 (encode_same tc ts Hnet))).
  destruct (proj1 (@read_all vmc confc tc n Hhc Hnc ltac:(lia) Hsc1) d bs d' fuelc wc []) as (v & hr & Hd & Hv & Hread); try done; [apply Hok|apply Hok'|apply Hnum'|apply Hfun|]. rewrite app_nil_r in Hread.
  exists v, hr. split_and!; [done|done|]. apply net_always; [|apply net_ret_stuck]. assert (wire_name ts ns = wire_name tc ns) as Hw1 by (unfold wire_name; by rewrite (proj1 Hnet)).
  apply (net_request _ _ _ (@get_waiting fuelc vmc confc p) (@get_reading fuelc vmc confc) _ _ (@in_dispatch vms confs (read_cmd_get fuels)) _ _ _ ws ws _ [RPC_CMD_GET] [RPC_READY] (wire_name tc ns) bs).
  - unfold helper_call. eapply steps_silent.
    { eapply (does_checkhelper wc [] 1 hg); [|exact Hhg]. rewrite lua_index_abs by (unfold lua_gettop; rewrite Hstk, length_app; cbn; lia). unfold lua_gettop. rewrite Hstk, lookup_app_r by (rewrite length_app; cbn; lia).
      replace (Z.to_nat _ - length s)%nat with 0%nat by (rewrite length_app; cbn; lia). done. }
    cbn beta iota. rewrite bool_decide_true by done. apply steps_bind. by apply client_asks; [apply Hrc|].
  - apply dispatch_accepts; [apply Hrs|]. right. by left.
  - apply steps_bind. change (wire_name tc ns) with ([] ++ wire_name tc ns). eapply steps_trans; [apply client_is_answered, Hrc|]. apply steps_catch.
    rewrite <- Htc. eapply (@steps_seq confc); [by apply (@does_remote_index confc)|constructor|by rewrite app_nil_r].
  - apply (does_in_dispatch (read_cmd_get fuels) ws (wire_name tc ns) (set_L ws (set_stack (w_L ws) []))). rewrite <- Hw1. by apply (@does_read_cmd_get vms confs n ts fuels ws ns x d bs Hhs (proj1 Hns)); try done; [lia|apply Hok|apply Hnum].
  - change (@nil Z) with ([] ++ [] : mem) at 2. eapply steps_then; [apply does_catch; eapply does_silent; [exact Hread|apply does_ret]|constructor].
Qed.

(** The request of an assignment. *)
Definition newindex_request (fuel : nat) `{LuaVM, RpcConf} (h : Z) : rpc Z :=
  helper_remote_index h;;
  n ← lua_see lua_gettop;
  write_variable fuel (n - 1);;
  n ← lua_see lua_gettop;
  write_variable fuel n;;
  read_status.

Lemma steps_newindex_request {vm : LuaVM} {conf : RpcConf} n t fuel w h ns key v vv s bs : side vm conf n t w →
  helper_path (l_udata (w_L w)) h ns → msize (join ns) < 4294967296 → l_stack (w_L w) = vv :: VString key :: s → reify (dumps t) (l_heap (w_L w)) vv v → sendable n [DStr key; v] → encode_all t [DStr key; v] = Some bs →
  (depths [DStr key; v] <= fuel)%nat → lua_gettop (w_L w) + rooms [DStr key; v] <= l_slots (w_L w) →
  steps CON_UART_ID (newindex_request fuel h) w [] read_status w [] (wire_name t ns ++ bs).
Proof.
  intros [Hh Hr [Hs1 Hs2] Hw Ht Hsl] Hp Hname Hst Hv [Hok Hnum] Hbs Hf Hroom. rewrite !Forall_cons in Hok, Hnum. destruct Hok as (Hk & Hvo & _), Hnum as (_ & Hvn & _). cbn [encode_all encode mbind option_bind] in Hbs.
  destruct (encode t v) as [b|] eqn:Eb; [|done]. cbn [mbind option_bind] in Hbs. injection Hbs as <-. cbn [depths rooms foldr depth room] in Hf, Hroom. pose proof (proj1 entries_room_nonneg v).
  pose proof (gettop_cons vv (w_L w) (VString key :: s) Hst) as Hg. cbn [length] in Hg. unfold newindex_request. rewrite <- Ht at 1. eapply steps_then; [by apply does_remote_index|].
  eapply steps_silent; [apply does_see|]. eapply (steps_seq _ _ _ _ tt w [] (wire_str t key) _ _ _ (b ++ [])); [|eapply steps_silent; [apply does_see|]|reflexivity].
  { apply (proj1 (write_all t n Hh (proj1 Hr) ltac:(lia)) (DStr key) (VString key)); try done; [cbn; lia|cbn; lia|lia|by eapply lua_index_under]. }
  eapply steps_then; [|constructor].
  apply (proj1 (write_all t n Hh (proj1 Hr) ltac:(lia)) v vv); try done; [lia|lia|lia|by eapply lua_index_top].
Qed.

(** The client while it waits for the server, and for the status. *)
Definition newindex_waiting (fuel : nat) `{LuaVM, RpcConf} (h : Z) : rpc Z := catch (wait_response;; newindex_request fuel h) generic_catch_handler.
Definition newindex_reading `{LuaVM, RpcConf} : rpc Z := catch read_status generic_catch_handler.

(** [handle.a.b.key = value]: the field of the server's table is the value as it is on the server's machine. *)
Theorem luarpc_newindex_runs vmc vms confc confs n tc ts fuelc fuels wc ws h parent k f ns key vv s v v' r tb bs
  (Hc : side vmc confc n tc wc) (Hs : side vms confs n ts ws) (Hnet : same_net tc ts)
  (Hstk : l_stack (w_L wc) = vv :: VString key :: VUserdata h :: s) (Hh : l_udata (w_L wc) !! h = Some (UHelper parent k f))
  (Hpath : helper_path (l_udata (w_L wc)) h ns) (Hname : msize (join ns) < 4294967296)
  (Hv : reify (@dumps vmc tc) (l_heap (w_L wc)) vv v) (Hsend : @sendable vmc confc n [DStr key; v]) (Hbs : encode_all tc [DStr key; v] = Some bs)
  (Hnamed : @named vms confs ws ns (VTable r)) (Hr : l_heap (w_L ws) !! r = Some tb) (Hplain : plain tb (VString key)) (Hrec : @receivable vms confs n ts [DStr key; v] [DStr key; v']) (Hnil : v' ≠ DNil)
  (Hfuel : (depths [DStr key; v] <= fuelc)%nat ∧ (depths [DStr key; v] <= fuels)%nat)
  (Hroomc : lua_gettop (w_L wc) + rooms [DStr key; v] <= l_slots (w_L wc)) (Hrooms : lua_gettop (w_L ws) + 3 + rooms [DStr key; v] <= l_slots (w_L ws)) :
  ∃ x hn Ls es, l_heap Ls = <[r := Table es (t_metatable tb)]> (l_heap (w_L ws) ∪ hn) ∧ luaH_get es (VString key) = x ∧ reify (@loads vms) hn x v' ∧
    ends_as (@CON_UART_ID confc) (@CON_UART_ID confs)
      (Net (@helper_newindex vmc confc fuelc) wc (@rpc_dispatch_helper vms confs fuels) ws [] [])
      (Net (Ret 0) wc (Ret tt) (set_errs (set_L ws Ls) 0) [] []).
Proof.
  pose proof Hs as [Hhs Hns [Hss1 Hss2] Hrs Hts Hsls]. destruct Hfuel as [Hfc Hfs]. assert (encode_all ts [DStr key; v] = Some bs) as Hbs2 by (by rewrite <- (encode_all_same tc ts)).
  assert (key_ok (DStr key) = true) as Hkey by (unfold key_ok; cbn; by apply bool_decide_true).
  destruct (@does_read_cmd_newindex vms confs n ts fuels ws ns r tb (DStr key) v (DStr key) v' (VString key) bs) as (x & hn & Hd & Hx & Hsrv); try done.
  exists x, hn, (assigned (w_L ws) hn r tb (VString key) x), (entries_set (t_entries tb) (VString key) x). split_and!; [done| |done|].
  { apply luaH_get_set with (t_entries tb); [by apply bool_decide_true|by eapply reify_not_nil|by apply (luaH_set_key _ (DStr key))]. }
  apply net_always; [|apply net_ret_stuck]. assert (wire_name ts ns = wire_name tc ns) as Hw1 by (unfold wire_name; by rewrite (proj1 Hnet)).
  apply (net_request _ _ _ (@newindex_waiting fuelc vmc confc h) (@newindex_reading vmc confc) _ _ (@in_dispatch vms confs (read_cmd_newindex fuels)) _ _ _ ws ws _ [RPC_CMD_NEWINDEX] [RPC_READY] (wire_name tc ns ++ bs) [0]).
  - unfold helper_newindex. eapply steps_silent; [eapply (does_checkhelper wc [] (-3) h); [by eapply lua_index_third|exact Hh]|].
    cbn beta iota. eapply steps_silent; [apply does_see|]. rewrite (lua_index_second _ vv (VString key) (VUserdata h :: s)) by done. by apply client_asks; [apply Hc|].
  - apply dispatch_accepts; [apply Hrs|]. right. by right.
  - change (wire_name tc ns ++ bs) with ([] ++ (wire_name tc ns ++ bs)). eapply steps_trans; [apply client_is_answered, Hc|]. apply steps_catch. by eapply steps_newindex_request.
  - apply (does_in_dispatch (read_cmd_newindex fuels) ws (wire_name tc ns ++ bs) (set_L ws (assigned (w_L ws) hn r tb (VString key) x))). by rewrite <- Hw1.
  - apply does_catch. eapply does_silent; [by apply does_read_u8; [|apply Hc]|]. eapply does_silent; [apply does_ret|apply does_ret].
Qed.

(** ** Errors *)

Lemma pushvfstring_plain m : 37 ∉ m → luaO_pushvfstring m = Some m.
Proof.
  induction m as [|c m IH]; [done|]. intros [Hc Hm]%not_elem_of_cons. cbn [luaO_pushvfstring]. rewrite (proj2 (Z.eqb_neq c 37)) by congruence. by rewrite (IH Hm).
Qed.

Lemma cstr_prefix a b : Forall (λ c, c ≠ 0) a → cstr (a ++ b) = a ++ cstr b.
Proof. induction 1 as [|c a Hc _ IH]; [done|]. cbn. rewrite (proj2 (Z.eqb_neq c 0) Hc). by rewrite IH. Qed.

(** As a C string, the message has only the first name. *)
Lemma undefined_msg_cstr m ns : name_ok m = true → cstr (undefined_msg (m :: ns)) = ascii_bytes "undefined function: " ++ m.
Proof.
  intros [_ Hm]%name_ok_spec. assert (Forall (λ c, c ≠ 0) m) as Hm0 by (eapply Forall_impl; [exact Hm|]; cbn; lia). unfold undefined_msg.
  rewrite cstr_prefix by (by apply (bool_decide_unpack _); vm_compute). f_equal. cbn [join0]. destruct ns; [|by rewrite cstr_prefix, app_nil_r].
  rewrite <- (app_nil_r m) at 1. by rewrite cstr_prefix, app_nil_r.
Qed.

Lemma net_error_stuck {S1 S2 A1 A2} k1 k2 m (s1 : S1) a2 (s2 : S2) x y : net_stuck k1 k2 (Net (A1 := A1) (A2 := A2) (LuaErr m) s1 (Ret a2) s2 x y).
Proof. intros z H. by inversion H. Qed.

(** A client without a handler of errors ends with the text as a Lua error. *)
Lemma read_return_undefined {vm : LuaVM} {conf : RpcConf} n t fuel w m ns : side vm conf n t w → w_on_error w = None → Forall (λ n, name_ok n = true) (m :: ns) → 37 ∉ m → msize (undefined_msg (m :: ns)) < stack_bytes →
  steps CON_UART_ID (read_return fuel) w (undefined_answer t (m :: ns)) (LuaErr (luaL_where ++ ascii_bytes "undefined function: " ++ m)) w [] [].
Proof.
  intros [_ _ [_ Hsb] Hw Ht _] He Hns Hm Hsz. pose proof (msize_nonneg (undefined_msg (m :: ns))). unfold read_return, undefined_answer. rewrite <- Ht. eapply steps_silent; [by apply does_read_u8; [|apply Hw]|]. cbn [Z.eqb].
  assert (bytes_ok (undefined_msg (m :: ns))) as Hb.
  { unfold undefined_msg. apply bytes_ok_app. split; [by apply bytes_okb_ok|]. clear - Hns. induction (m :: ns) as [|a l IH]; [constructor|].
    apply Forall_cons in Hns as [[_ Ha]%name_ok_spec Hns]. assert (bytes_ok a) as Hba by (eapply Forall_impl; [exact Ha|]; unfold byte_ok; cbn; lia). cbn [join0]. destruct l; [done|]. apply bytes_ok_app. split; [done|]. constructor; [done|by apply IH]. }
  apply (steps_bind _ read_error (λ _, Ret 0) w _ (LuaErr _)). unfold read_error. eapply steps_silent; [by apply does_read_u32|]. eapply steps_silent; [apply does_read_u32; [done|lia]|].
  eapply steps_silent; [apply does_alloca; lia|]. rewrite s32_id by lia. rewrite <- (app_nil_r (undefined_msg (m :: ns))) at 2. eapply steps_silent; [by apply does_read_buffer; [| |apply Hw]|].
  unfold deal_with_error. eapply steps_silent; [apply does_get|]. rewrite He. unfold lua_error, lua_res. eapply steps_silent; [apply does_get|].
  unfold luaL_error. rewrite undefined_msg_cstr by (by apply Forall_cons in Hns as [? _]). rewrite pushvfstring_plain; [constructor|].
  rewrite elem_of_app. intros [H1|H1]; [|done]. revert H1. by apply (bool_decide_unpack (37 ∉ ascii_bytes "undefined function: ")); vm_compute.
Qed.

(** A call of what is no function: the server goes on, and the client's call is a Lua error that tells the first name only. *)
Theorem luarpc_undefined_call vmc vms confc confs n tc ts fuelc fuels wc ws h m ns x ds ds' bs
  (Hcaller : caller vmc confc n tc fuelc wc h (m :: ns) ds) (Hs : side vms confs n ts ws) (Hnet : same_net tc ts) (Hbs : encode_all tc ds = Some bs)
  (Hnamed : @named vms confs ws (m :: ns) x) (Hx : LUA_ISCALLABLE (Some x) = false) (Hrec : @receivable vms confs n ts ds ds') (Hf : (depths ds <= fuels)%nat)
  (Hroom : lua_gettop (w_L ws) + 2 + Z.of_nat (length ds) + rooms ds <= l_slots (w_L ws))
  (Hhandler : w_on_error wc = None) (Hm : 37 ∉ m) (Hsize : msize (undefined_msg (m :: ns)) < @stack_bytes confc) :
  ∃ Ls, l_stack Ls = [] ∧
    ends_as (@CON_UART_ID confc) (@CON_UART_ID confs)
      (Net (@helper_call vmc confc fuelc) wc (@rpc_dispatch_helper vms confs fuels) ws [] [])
      (Net (LuaErr (@luaL_where vmc ++ ascii_bytes "undefined function: " ++ m)) wc (Ret tt) (set_errs (set_L ws Ls) 0) [] []).
Proof.
  pose proof (helper_call_asks _ _ _ _ _ _ _ Hcaller) as Hask. destruct Hcaller as [Hc Hpath _ Hname (avs & Hst & Havs) Hsend Hfc Hroomc]. pose proof Hc as [Hhc Hnc [Hsc1 Hsc2] Hrc Htc Hslc].
  destruct Hs as [Hhs Hnums [Hss1 Hss2] Hrs Hts Hsls]. assert (encode_all ts ds = Some bs) as Hbs2 by (by rewrite <- (encode_all_same tc ts)).
  destruct (@does_undefined vms confs n ts fuels ws (m :: ns) x ds ds' bs) as (Ls & Hstk & Hsrv); try done. exists Ls. split; [done|]. apply net_always; [|apply net_error_stuck].
  assert (wire_name ts (m :: ns) = wire_name tc (m :: ns)) as Hw1 by (unfold wire_name; by rewrite (proj1 Hnet)).
  eapply net_request.
  - exact Hask.
  - apply dispatch_accepts; [apply Hrs|by left].
  - change (wire_call tc (m :: ns) ds bs) with ([] ++ wire_call tc (m :: ns) ds bs). eapply steps_trans; [apply client_is_answered, Hrc|]. apply steps_catch. apply (@steps_call_request vmc confc n tc fuelc wc h (m :: ns) avs ds bs); try done; [apply Hnc|lia|lia].
  - apply does_in_dispatch. unfold wire_call. rewrite <- Hw1, (proj1 Hnet). exact Hsrv.
  - assert (undefined_answer ts (m :: ns) = undefined_answer tc (m :: ns)) as -> by (unfold undefined_answer; by rewrite (proj1 Hnet)).
    apply (steps_catch _ (read_return fuelc) generic_catch_handler wc _ (LuaErr _)). eapply read_return_undefined; try done. apply Hnamed.
Qed.

(** ** Connecting *)

(** The handler of errors of [rpc_connect]. *)
Definition connect_error `{LuaVM, RpcConf} (e : exception) : rpc unit := deal_with_error (errorString (exc_errnum e));; lua_do (lua_push VNil).

Definition connecting `{LuaVM, RpcConf} : rpc Z := catch client_response connect_error;; Ret 1.

(** The state of a client whose handle is made, on the serial line [id], before the server answers. *)
Definition with_handle (w : world) : lua_State :=
  LState (VUserdata (new_udata (l_udata (w_L w))) :: l_stack (w_L w)) (l_slots (w_L w)) (l_heap (w_L w)) (<[new_udata (l_udata (w_L w)) := UHandle]> (l_udata (w_L w))) (l_globals (w_L w)).

Definition asking (h : host) (id : Z) (w : world) : world :=
  set_tpt (set_L w (with_handle w)) (MkTransport id id (h_little h) (h_intnum h) (net_little (w_tpt w)) (net_intnum (w_tpt w)) (h_bytes h)).

Lemma rpc_connect_asks {vm : LuaVM} {conf : RpcConf} w x y id : host_ok rpc_host → l_stack (w_L w) = [VNumber y; VNumber x] → to_unsigned x = Some id → 0 <= id < 2147483648 →
  platform_uart_exists id = true → platform_timer_exists id = true → CON_UART_ID = id → 4 <= l_slots (w_L w) →
  steps CON_UART_ID rpc_connect w [] connecting (asking rpc_host id w) [] (RPC_CMD_CON :: header_of (h_little rpc_host) (h_bytes rpc_host) (h_intnum rpc_host)).
Proof.
  intros Hh Hst Hx Hid Hu Ht Hcon Hsl. apply host_ok_bytes, cases_1248 in Hh. apply steps_bind, steps_catch. set (w1 := set_L w (with_handle w)).
  assert (l_stack (w_L w1) = [VUserdata (new_udata (l_udata (w_L w))); VNumber y; VNumber x]) as Hst1 by (unfold w1, with_handle; cbn; by rewrite Hst).
  eapply (steps_silent _ _ _ _ tt w1 []).
  { unfold handle_create. eapply does_silent; [apply does_do; unfold lua_newuserdata; apply lua_push_ok; unfold lua_gettop; cbn; rewrite Hst; cbn; lia|].
    eapply does_silent; [apply does_do, lua_push_ok; unfold lua_gettop; cbn; rewrite Hst; cbn; lia|]. 
    eapply does_do_to; [by apply (lua_pop_ok _ [VNil] (l_stack (with_handle w)))|done]. }
  eapply (steps_silent _ _ _ _ tt (set_tpt w1 (MkTransport id id (loc_little (w_tpt w)) (loc_intnum (w_tpt w)) (net_little (w_tpt w)) (net_intnum (w_tpt w)) (lnum_bytes (w_tpt w)))) []).
  { assert (does (check_num_args 3) w1 [] tt w1 [] []) as Hargs.
    { eapply does_silent; [apply does_see|]. unfold lua_gettop. rewrite Hst1. apply does_ret. }
    assert (lua_tonumber 1 (w_L w1) = Some x ∧ lua_tonumber 2 (w_L w1) = Some y) as [Hx1 Hy1] by (unfold lua_tonumber, lua_index, index2adr, lua_gettop; by rewrite Hst1).
    eapply does_silent; [exact Hargs|]. eapply does_silent; [eapply does_silent; [apply does_see|]; rewrite Hx1; apply does_ret|]. eapply does_silent; [eapply does_silent; [apply does_see|]; rewrite Hy1; apply does_ret|].
    rewrite Hx. eapply does_silent; [apply does_ret|]. rewrite Hu. eapply does_silent; [apply does_ret|]. eapply does_silent; [apply does_ret|]. rewrite Ht. eapply does_silent; [apply does_ret|].
    eapply does_silent; [apply does_get|]. rewrite s32_id by lia. apply does_put. }
  set (w2 := set_tpt w1 _). assert (link_open w2) as Hl by (split; [done|]; rewrite Hcon; unfold INVALID_TRANSPORT; lia).
  eapply steps_seq; [by apply does_write_u8| |reflexivity]. unfold client_negotiate. eapply steps_silent; [apply does_get|]. cbv zeta. rewrite u8_id by lia. eapply steps_silent; [apply does_put|].
  eapply steps_seq; [by apply does_write_buffer|constructor|by rewrite app_nil_r].
Qed.

Lemma dispatch_connects {vm : LuaVM} {conf : RpcConf} fuel hc w : host_ok hc → host_ok rpc_host → fd (w_tpt w) = INVALID_TRANSPORT → fd (w_ltpt w) = CON_UART_ID → CON_UART_ID ≠ INVALID_TRANSPORT →
  does (rpc_dispatch_helper fuel) w (RPC_CMD_CON :: header_of (h_little hc) (h_bytes hc) (h_intnum hc)) tt (set_tpt w (session rpc_host hc rpc_host (set_fd (w_tpt w) CON_UART_ID))) [] (agreed_header hc rpc_host).
Proof.
  intros Hc Hs Hfd Hlfd Hid. apply does_catch. eapply does_silent; [apply does_get|]. unfold transport_is_open. rewrite Hfd. cbn [Z.eqb INVALID_TRANSPORT negb Pos.eqb].
  set (w1 := set_tpt w (set_fd (w_tpt w) CON_UART_ID)). eapply (does_silent _ _ _ _ tt w1).
  { eapply does_silent; [apply does_get|]. unfold verify_open. rewrite Hlfd, (proj2 (Z.eqb_neq _ _) Hid). eapply does_silent; [apply does_ret|]. apply does_put. }
  eapply does_silent; [by apply does_read_u8|]. cbn [Z.eqb RPC_CMD_CON Pos.eqb]. rewrite <- (app_nil_r (header_of _ _ _)). change (set_tpt w (session _ _ _ _)) with (set_tpt w1 (session rpc_host hc rpc_host (w_tpt w1))). by apply does_server_negotiate.
Qed.

(** A client connects: both sides have a transport with the same format, of which each can read the numbers unless they have
    integers of different sizes. *)
Theorem luarpc_connects vmc vms confc confs fuel wc ws x y id
  (Hc : host_ok (@rpc_host confc)) (Hs : host_ok (@rpc_host confs)) (Hst : l_stack (w_L wc) = [VNumber y; VNumber x]) (Hx : to_unsigned x = Some id) (Hid : 0 <= id < 2147483648)
  (Hu : @platform_uart_exists confc id = true) (Ht : @platform_timer_exists confc id = true) (Hcon : @CON_UART_ID confc = id) (Hsl : 4 <= l_slots (w_L wc))
  (Hfd : fd (w_tpt ws) = INVALID_TRANSPORT) (Hlfd : fd (w_ltpt ws) = @CON_UART_ID confs) (Hcs : @CON_UART_ID confs ≠ INVALID_TRANSPORT) :
  let hc := @rpc_host confc in let hs := @rpc_host confs in
  let tc := session hc hc hs (MkTransport id id (h_little hc) (h_intnum hc) (net_little (w_tpt wc)) (net_intnum (w_tpt wc)) (h_bytes hc)) in
  let ts := session hs hc hs (set_fd (w_tpt ws) (@CON_UART_ID confs)) in
  ends_as (@CON_UART_ID confc) (@CON_UART_ID confs) (Net (@rpc_connect vmc confc) wc (@rpc_dispatch_helper vms confs fuel) ws [] [])
    (Net (Ret 1) (set_tpt (set_L wc (with_handle wc)) tc) (Ret tt) (set_tpt ws ts) [] []) ∧
  same_net tc ts ∧ (@ready confc (set_tpt (set_L wc (with_handle wc)) tc) ∧ @ready confs (set_tpt ws ts)) ∧
  ((h_intnum hc = true → h_intnum hs = true → h_bytes hc = h_bytes hs) → nums_read hc tc ∧ nums_read hs ts).
Proof.
  cbv zeta. set (hc := @rpc_host confc). set (hs := @rpc_host confs).
  assert (@CON_UART_ID confc ≠ INVALID_TRANSPORT) as Hcc by (rewrite Hcon; unfold INVALID_TRANSPORT; lia).
  split; [|split; [|split; [split|]]].
  - apply net_always; [|apply net_ret_stuck].
    pose proof (@rpc_connect_asks vmc confc wc x y id Hc Hst Hx Hid Hu Ht Hcon Hsl) as H1. pose proof (@dispatch_connects vms confs fuel hc ws Hc Hs Hfd Hlfd Hcs) as H2.
    assert (@does confc _ (@connecting vmc confc) (@asking hc id wc) (agreed_header hc hs) 1 (set_tpt (asking hc id wc) (session hc hc hs (w_tpt (asking hc id wc)))) [] []) as H3.
    { eapply (@does_silent confc); [|apply (@does_ret confc)]. apply (@does_catch confc). rewrite <- (app_nil_r (agreed_header hc hs)). apply (@does_client_response confc hs); [done|done|split; [by symmetry|done]|done|done]. }
    etrans; [apply (net_steps_first _ _ _ _ _ _ _ _ _ H1)|]. etrans; [apply (net_steps_second _ _ _ _ _ _ _ _ _ H2)|]. exact (net_steps_first _ _ _ _ _ _ _ _ _ H3 _ _ _).
  - done.
  - split; [split; [by symmetry|done]|done].
  - split; [by split|done].
  - intros Hsize. split; [apply (nums_read_session hc hs hc)|apply (nums_read_session hc hs hs)]; auto.
Qed.

(** ** Values *)

(** A value goes from one machine to the other: what is written of it is read as the same tree, with its numbers as they are
    on the machine that reads. *)
Theorem luarpc_value_crosses vm1 vm2 conf1 conf2 n t1 t2 fuel1 fuel2 w1 w2 idx v d d' bs rest
  (H1 : side vm1 conf1 n t1 w1) (H2 : side vm2 conf2 n t2 w2) (Hnet : same_net t1 t2)
  (Hidx : 1 <= idx) (Hv : lua_index (w_L w1) idx = Some v) (Hd : reify (@dumps vm1 t1) (l_heap (w_L w1)) v d) (Hsend : @sendable vm1 conf1 n [d]) (Hbs : encode t1 d = Some bs) (Hrec : @receivable vm2 conf2 n t2 [d] [d'])
  (Hfuel : (depth d <= fuel1)%nat ∧ (depth d <= fuel2)%nat) (Hroom1 : lua_gettop (w_L w1) + room d <= l_slots (w_L w1)) (Hroom2 : lua_gettop (w_L w2) + room d <= l_slots (w_L w2)) :
  @does conf1 _ (@write_variable vm1 conf1 fuel1 idx) w1 [] tt w1 [] bs ∧
  ∃ v' hn, hn ##ₘ l_heap (w_L w2) ∧ reify (@loads vm2) hn v' d' ∧ @does conf2 _ (@read_variable vm2 conf2 fuel2) w2 (bs ++ rest) true (set_L w2 (grown (w_L w2) hn [v'])) rest [].
Proof.
  destruct H1 as [Hh1 Hn1 [Hs1 Hb1] Hr1 Ht1 _], H2 as [Hh2 Hn2 [Hs2 Hb2] Hr2 Ht2 _], Hfuel as [Hf1 Hf2], Hsend as [Hok Hnum], Hrec as [Hca _ Hok' Hnum' Hfun]. rewrite !Forall_cons in Hok, Hnum, Hok', Hnum', Hfun.
  cbn [carry_all] in Hca. destruct (@carry (@rpc_host conf2) t2 d) as [d1|] eqn:Ed; [|done]. cbn [mbind option_bind] in Hca. injection Hca as ->. split.
  - apply (proj1 (@write_all vm1 conf1 t1 n Hh1 (proj1 Hn1) ltac:(lia)) d v); try done; [apply Hok|apply Hnum].
  - apply (proj1 (@read_all vm2 conf2 t2 n Hh2 Hn2 ltac:(lia) Hs2) d); try done; [by rewrite <- (proj1 (encode_same t1 t2 Hnet))|apply Hok|apply Hok'|apply Hnum'|apply Hfun].
Qed.

(** The integer [z] as a number of a machine. *)
Definition num_is (h : host) (x : lua_Number) (z : Z) : Prop := x = if h_intnum h then NInt z else NDbl (dbl_of_int z).

Lemma num_is_to_int h x z n : num_is h x z → Z.abs z < 2 ^ 53 → 0 < n → fits n z = true → num_to_int n x = Some z.
Proof.
  unfold num_is. intros -> Hz Hn Hf. destruct (h_intnum h); cbn.
  - f_equal. rewrite <- (signed_mod_any n z Hn). by apply signed_mod.
  - rewrite (dbl_int_exact z Hz). cbn [mbind option_bind]. by rewrite Hf.
Qed.

(** C39: An integer below 2^53 in absolute value that fits the connection's number size is the same integer on the other side,
    between machines of any byte order that both read the connection's numbers as they are ([nums_read]): on a connection of
    integers, a machine with integer numbers has them of the connection's size, and a machine with doubles may be on either side;
    a connection of doubles has doubles on both sides. *)
Theorem luarpc_integers_cross vm1 vm2 conf1 conf2 n t1 t2 w1 w2 x z rest
  (H1 : side vm1 conf1 n t1 w1) (H2 : side vm2 conf2 n t2 w2) (Hnet : same_net t1 t2)
  (Hx : num_is (@rpc_host conf1) x z) (Hz : Z.abs z < 2 ^ 53) (Hfit : fits (lnum_bytes t1) z = true) (Hok : num_ok (@rpc_host conf1) x) :
  ∃ bs y, num_is (@rpc_host conf2) y z ∧ @does conf1 _ (@transport_write_number conf1 x) w1 [] tt w1 [] bs ∧ @does conf2 _ (@transport_read_number conf2) w2 (bs ++ rest) y w2 rest [].
Proof.
  destruct H1 as [Hh1 Hn1 _ Hr1 Ht1 _], H2 as [Hh2 Hn2 _ Hr2 Ht2 _]. pose proof Hnet as (El & Ei & Eb). pose proof (sizes_pos _ (proj1 Hn1)) as Hpos. pose proof (num_is_to_int _ _ _ _ Hx Hz Hpos Hfit) as Hint.
  destruct (net_intnum t1) eqn:E1.
  - assert (num_is (@rpc_host conf2) (num_of_int (@rpc_host conf2) z) z) as Hy.
    { unfold num_is, num_of_int. destruct (h_intnum (@rpc_host conf2)) eqn:E2; [|done]. f_equal. destruct Hn2 as [_ Hn2]. rewrite <- Ei in Hn2. rewrite <- (Hn2 E2), <- Eb. rewrite <- (signed_mod_any _ z Hpos). by apply signed_mod. }
    exists (host_bytes (net_little t1) (Z.to_nat (lnum_bytes t1)) z), (num_of_int (@rpc_host conf2) z). split_and!; [done| |].
    + apply (@does_write_number conf1); rewrite ?Ht1; try done; [apply Hn1|]. unfold wire_num. by rewrite E1, Hint.
    + apply (@does_read_number conf2 x); rewrite ?Ht2; try done; [intros b ->; by destruct Hok| |].
      * unfold wire_num. by rewrite <- Ei, <- Eb, <- El, Hint.
      * unfold carry_num. by rewrite <- Ei, <- Eb, Hint.
  - destruct Hn1 as [Hsz Hn1]. pose proof (proj2 Hn2) as Hk2. rewrite E1 in Hn1. rewrite <- Ei in Hk2. destruct Hn1 as [Ek1 _], Hk2 as [Ek2 _]. unfold num_is in Hx. rewrite Ek1 in Hx. subst x.
    exists (host_bytes (net_little t1) 8 (dbl_of_int z)), (NDbl (dbl_of_int z)). split_and!; [unfold num_is; by rewrite Ek2| |].
    + apply (@does_write_number conf1); rewrite ?Ht1; try done. unfold wire_num. by rewrite E1.
    + apply (@does_read_number conf2 (NDbl (dbl_of_int z))); rewrite ?Ht2; try done; [intros b [= <-]; by destruct Hok| |].
      * unfold wire_num. by rewrite <- Ei, El.
      * unfold carry_num. by rewrite <- Ei.
Qed.

(** ** An example: a little-endian client with doubles, a big-endian server with integers of 32 bits *)

(** Functions give their arguments back, and whether there are any; metamethods give nothing. *)
Definition demo_vm : LuaVM := {|
  index_tm := λ _ _ h, (inl VNil, h);
  newindex_tm := λ _ _ _ h, (None, h);
  lua_calls := λ _ args h, (inl (args ++ [VBool (bool_decide (args ≠ []))]), h);
  luaU_dump := λ _ _ _ f, [27; f];
  luaL_load := λ s, match s with [27; f] => inl f | _ => inr (ascii_bytes "not a function") end;
  number2str := λ _, [48];
  str2number := λ _, None;
  luaL_argerror := λ _ m, m;
  luaL_where := ascii_bytes "demo:1: " |}.

Definition demo_conf (little intnum : bool) (bytes : Z) : RpcConf := {|
  rpc_host := Host little intnum bytes;
  char_signed := true;
  CON_UART_ID := 1;
  platform_uart_exists := λ id, id <? 2;
  platform_timer_exists := λ id, id <? 2;
  stack_bytes := 4096;
  strerror := λ _, [] |}.

Definition client_conf := demo_conf true false 8.
Definition server_conf := demo_conf false true 4.

Definition demo_tpt (h : host) : Transport := session h (Host true false 8) (Host false true 4) (MkTransport 1 1 false false false false 0).

(** Helpers: 1 is [handle.a], 2 is [handle.a.f], 3 is [handle.a.get]. *)
Definition demo_helpers : gmap Z udata :=
  list_to_map [(0, UHandle); (1, UHelper None 0 (ascii_bytes "a")); (2, UHelper (Some 1) 1 (ascii_bytes "f")); (3, UHelper (Some 1) 1 (ascii_bytes "get"))].

(** The client has a table. *)
Definition demo_objects : gmap Z table := {[9 := Table [(VString [107], VNumber (NDbl (dbl_of_int 5)))] no_meta]}.

Definition demo_client (s : list value) : world :=
  World (LState s 40 demo_objects demo_helpers 0) (demo_tpt (Host true false 8)) (MkTransport (-1) 0 false false false false 0) 0 None.

(** The server has a table [a] with a function [f] and a number [x]. *)
Definition demo_heap : gmap Z table :=
  list_to_map [(0, Table [(VString (ascii_bytes "a"), VTable 1)] (Meta true false)); (1, Table [(VString (ascii_bytes "f"), VFunction 7); (VString (ascii_bytes "x"), VNumber (NInt 3))] no_meta)].

Definition demo_server : world :=
  World (LState [] 20 demo_heap ∅ 0) (demo_tpt (Host false true 4)) (MkTransport 1 0 false false false false 0) 1 None.

Definition five : data := DNum (NDbl (dbl_of_int 5)).
Definition demo_args : list data := [five; DStr [104; 105]].
Definition demo_args' : list data := [DNum (NInt 5); DStr [104; 105]].

Lemma demo_hosts : host_ok (Host true false 8) ∧ host_ok (Host false true 4).
Proof. split; [done|]. unfold host_ok. cbn. set_solver. Qed.

Lemma demo_nums h : h = Host true false 8 ∨ h = Host false true 4 → nums_read h (demo_tpt h).
Proof. intros Hh. apply nums_read_session; [apply demo_hosts|apply demo_hosts|done|done]. Qed.

Lemma demo_client_side s : side demo_vm client_conf 4096 (demo_tpt (Host true false 8)) (demo_client s).
Proof. constructor; [apply demo_hosts|apply demo_nums; by left|done..]. Qed.

Lemma demo_server_side : side demo_vm server_conf 4096 (demo_tpt (Host false true 4)) demo_server.
Proof. constructor; [apply demo_hosts|apply demo_nums; by right|done..]. Qed.

Lemma demo_named ns x : Forall (λ n, name_ok n = true) ns → ns ≠ [] → msize (join ns) < 4096 → @resolves demo_vm (w_L demo_server) (VTable 0) ns x → @named demo_vm server_conf demo_server ns x.
Proof. by constructor. Qed.

Definition name (s : string) : mem := ascii_bytes s.

Lemma luarpc_call_runs_witness : ∃ vs hn rs res hr Ls,
    (Forall2 (reify (@loads demo_vm) (demo_heap ∪ hn)) vs demo_args' ∧ @lua_calls demo_vm (VFunction 7) vs (demo_heap ∪ hn) = (inl rs, l_heap Ls) ∧ l_stack Ls = []) ∧
    (hr ##ₘ demo_objects ∧ Forall2 (reify (@loads demo_vm) hr) res [five; DStr [104; 105]; DBool true]) ∧
    ends_as 1 1
      (Net (@helper_call demo_vm client_conf 5) (demo_client [VString [104; 105]; VNumber (NDbl (dbl_of_int 5)); VUserdata 2]) (@rpc_dispatch_helper demo_vm server_conf 5) demo_server [] [])
      (Net (Ret 3) (set_L (demo_client [VString [104; 105]; VNumber (NDbl (dbl_of_int 5)); VUserdata 2]) (grown (w_L (demo_client [VString [104; 105]; VNumber (NDbl (dbl_of_int 5)); VUserdata 2])) hr (rev res)))
        (Ret tt) (set_errs (set_L demo_server Ls) 0) [] []).
Proof.
  eapply (luarpc_call_runs demo_vm demo_vm client_conf server_conf 4096 (demo_tpt (Host true false 8)) (demo_tpt (Host false true 4)) 5 5 (demo_client _) demo_server 2 [name "a"; name "f"] (VFunction 7) demo_args demo_args' [DNum (NInt 5); DStr [104; 105]; DBool true]).
  - constructor; [apply demo_client_side|..]; try done.
    + by exists (Some 1), 1, (name "f"), [name "a"].
    + exists [VNumber (NDbl (dbl_of_int 5)); VString [104; 105]]. split; [done|]. by repeat constructor.
    + constructor; by repeat constructor.
    + cbn. lia.
  - constructor; [apply demo_server_side|..]; try done.
    + apply demo_named; [by repeat constructor|done|done|]. exists (VTable 1). split; [by vm_compute|]. exists (VFunction 7). by split; [vm_compute|].
    + constructor; [by vm_compute|by repeat constructor|by repeat constructor| |by repeat constructor]. unfold demo_args. rewrite !Forall_cons, Forall_nil. split_and!; [intros b [= <-]; done|done|done].
    + intros vs h Hvs. apply Forall2_cons_inv_r in Hvs as (v1 & vs1 & H1 & Hvs & ->). apply Forall2_cons_inv_r in Hvs as (v2 & vs2 & H2 & Hvs & ->). apply Forall2_nil_inv_r in Hvs as ->. cbn in H1, H2. subst v1 v2.
      exists [VNumber (NInt 5); VString [104; 105]; VBool true], h. split; [done|]. by repeat constructor.
    + constructor; by repeat constructor.
    + cbn. lia.
  - done.
  - by vm_compute.
  - by vm_compute.
  - constructor; [by vm_compute|by repeat constructor|by repeat constructor| |by repeat constructor]. rewrite !Forall_cons, Forall_nil. split_and!; [intros b [=]|done|done|done].
  - cbn. lia.
  - by vm_compute.
Defined.

Lemma demo_receivable conf t ds ds' : carry_all (@rpc_host conf) t ds = Some ds' → Forall (λ d, data_ok 4096 d = true) ds → Forall (λ d, data_ok 4096 d = true) ds' →
  Forall (data_num (λ x, ∀ b, x = NDbl b → 0 <= b < 2 ^ 64)) ds → Forall (data_fun (λ s, ∃ f, @loads demo_vm f s)) ds → @receivable demo_vm conf 4096 t ds ds'.
Proof. by constructor. Qed.

Lemma luarpc_get_runs_witness : ∃ v hr, hr ##ₘ demo_objects ∧ reify (@loads demo_vm) hr v (DTab (ECons (DStr (name "f")) (DFun [27; 7]) (ECons (DStr (name "x")) (DNum (NDbl (dbl_of_int 3))) ENil))) ∧
    ends_as 1 1 (Net (@helper_call demo_vm client_conf 9) (demo_client [VUserdata 3]) (@rpc_dispatch_helper demo_vm server_conf 9) demo_server [] [])
      (Net (Ret 1) (set_L (demo_client [VUserdata 3]) (grown (w_L (demo_client [VUserdata 3])) hr [v])) (Ret tt) (set_errs (set_L demo_server (set_stack (w_L demo_server) [])) 0) [] []).
Proof.
  eapply (luarpc_get_runs demo_vm demo_vm client_conf server_conf 4096 (demo_tpt (Host true false 8)) (demo_tpt (Host false true 4)) 9 9 (demo_client _) demo_server 3 1 1 [] [name "a"] (VTable 1)
    (DTab (ECons (DStr (name "f")) (DFun [27; 7]) (ECons (DStr (name "x")) (DNum (NInt 3)) ENil)))).
  - apply demo_client_side.
  - apply demo_server_side.
  - done.
  - done.
  - done.
  - by exists None, 0, (name "a"), [].
  - done.
  - apply demo_named; [by repeat constructor|done|done|]. exists (VTable 1). by split; [vm_compute|].
  - exists 1, (Table [(VString (name "f"), VFunction 7); (VString (name "x"), VNumber (NInt 3))] no_meta). split_and!; [done|done|].
    eexists _, _, _. split_and!; [reflexivity|done|by exists 7|]. by eexists _, _, _.
  - constructor; [by repeat constructor|]. constructor; [|done]. by cbn.
  - by vm_compute.
  - apply demo_receivable; [by vm_compute|by repeat constructor|by repeat constructor| |].
    + constructor; [|done]. cbn. split_and!; [done|done|done|intros b [=]|done].
    + constructor; [|done]. cbn. split_and!; [done|by exists 7|done|done|done].
  - cbn. lia.
  - by vm_compute.
  - by vm_compute.
Defined.

Lemma luarpc_newindex_runs_witness : ∃ x hn Ls es, l_heap Ls = <[1 := Table es no_meta]> (demo_heap ∪ hn) ∧ luaH_get es (VString (name "y")) = x ∧ reify (@loads demo_vm) hn x (DTab (ECons (DStr [107]) (DNum (NInt 5)) ENil)) ∧
    ends_as 1 1 (Net (@helper_newindex demo_vm client_conf 5) (demo_client [VTable 9; VString (name "y"); VUserdata 1]) (@rpc_dispatch_helper demo_vm server_conf 5) demo_server [] [])
      (Net (Ret 0) (demo_client [VTable 9; VString (name "y"); VUserdata 1]) (Ret tt) (set_errs (set_L demo_server Ls) 0) [] []).
Proof.
  eapply (luarpc_newindex_runs demo_vm demo_vm client_conf server_conf 4096 (demo_tpt (Host true false 8)) (demo_tpt (Host false true 4)) 5 5 (demo_client _) demo_server 1 None 0 (name "a") [name "a"] (name "y") (VTable 9) []
    (DTab (ECons (DStr [107]) five ENil)) (DTab (ECons (DStr [107]) (DNum (NInt 5)) ENil)) 1 (Table [(VString (name "f"), VFunction 7); (VString (name "x"), VNumber (NInt 3))] no_meta)).
  - apply demo_client_side.
  - apply demo_server_side.
  - done.
  - done.
  - done.
  - by exists None, 0, (name "a"), [].
  - done.
  - eexists _, _. split_and!; [done|by vm_compute|]. by eexists _, _, _.
  - constructor; [by repeat constructor|]. constructor; [done|]. constructor; [|done]. by cbn.
  - by vm_compute.
  - apply demo_named; [by repeat constructor|done|done|]. exists (VTable 1). by split; [vm_compute|].
  - done.
  - by right.
  - apply demo_receivable; [by vm_compute|by repeat constructor|by repeat constructor| |by repeat constructor].
    constructor; [done|]. constructor; [|done]. cbn. split_and!; [done|intros b [= <-]; done|done].
  - done.
  - cbn. lia.
  - by vm_compute.
  - by vm_compute.
Defined.

Lemma luarpc_undefined_call_witness : ∃ Ls, l_stack Ls = [] ∧
    ends_as 1 1 (Net (@helper_call demo_vm client_conf 5) (demo_client [VNumber (NDbl (dbl_of_int 5)); VUserdata 1]) (@rpc_dispatch_helper demo_vm server_conf 5) demo_server [] [])
      (Net (LuaErr (ascii_bytes "demo:1: undefined function: a")) (demo_client [VNumber (NDbl (dbl_of_int 5)); VUserdata 1]) (Ret tt) (set_errs (set_L demo_server Ls) 0) [] []).
Proof.
  eapply (luarpc_undefined_call demo_vm demo_vm client_conf server_conf 4096 (demo_tpt (Host true false 8)) (demo_tpt (Host false true 4)) 5 5 (demo_client _) demo_server 1 (name "a") [] (VTable 1) [five] [DNum (NInt 5)]).
  - constructor; [apply demo_client_side|..]; try done.
    + by exists None, 0, (name "a"), [].
    + exists [VNumber (NDbl (dbl_of_int 5))]. split; [done|]. by repeat constructor.
    + constructor; by repeat constructor.
    + cbn. lia.
  - apply demo_server_side.
  - done.
  - by vm_compute.
  - apply demo_named; [by repeat constructor|done|done|]. exists (VTable 1). by split; [vm_compute|].
  - done.
  - apply demo_receivable; [by vm_compute|by repeat constructor|by repeat constructor| |by repeat constructor]. constructor; [|done]. intros b [= <-]; done.
  - cbn. lia.
  - by vm_compute.
  - done.
  - by apply (bool_decide_unpack _); vm_compute.
  - done.
Defined.

(** A client that has its arguments, and a server that listens. *)
Definition demo_caller : world :=
  World (LState [VNumber (NDbl (dbl_of_int 0)); VNumber (NDbl (dbl_of_int 1))] 22 ∅ ∅ 0) (MkTransport 0 0 false false false false 0) (MkTransport 0 0 false false false false 0) 0 None.

Definition demo_listener : world :=
  World (LState [] 20 demo_heap ∅ 0) (MkTransport (-1) 0 false false false false 0) (MkTransport 1 0 false false false false 0) 0 None.

Lemma luarpc_connects_witness : ∃ tc ts, lnum_bytes tc = 4 ∧ net_intnum ts = true ∧ net_little tc = false ∧
  ends_as 1 1 (Net (@rpc_connect demo_vm client_conf) demo_caller (@rpc_dispatch_helper demo_vm server_conf 1) demo_listener [] [])
    (Net (Ret 1) (set_tpt (set_L demo_caller (with_handle demo_caller)) tc) (Ret tt) (set_tpt demo_listener ts) [] []).
Proof.
  destruct (luarpc_connects demo_vm demo_vm client_conf server_conf 1 demo_caller demo_listener (NDbl (dbl_of_int 1)) (NDbl (dbl_of_int 0)) 1) as [H _]; try done; [apply demo_hosts|].
  eexists _, _. split_and!; [| | |exact H]; done.
Defined.

(** A table with a double arrives on the server as a table with an integer. *)
Lemma luarpc_value_crosses_witness : ∃ bs v' hn, @does client_conf _ (@write_variable demo_vm client_conf 4 1) (demo_client [VTable 9]) [] tt (demo_client [VTable 9]) [] bs ∧
  reify (@loads demo_vm) hn v' (DTab (ECons (DStr [107]) (DNum (NInt 5)) ENil)) ∧ @does server_conf _ (@read_variable demo_vm server_conf 4) demo_server (bs ++ []) true (set_L demo_server (grown (w_L demo_server) hn [v'])) [] [].
Proof.
  destruct (luarpc_value_crosses demo_vm demo_vm client_conf server_conf 4096 (demo_tpt (Host true false 8)) (demo_tpt (Host false true 4)) 4 4 (demo_client [VTable 9]) demo_server 1 (VTable 9)
    (DTab (ECons (DStr [107]) five ENil)) (DTab (ECons (DStr [107]) (DNum (NInt 5)) ENil)) [4; 3; 0; 0; 0; 1; 107; 1; 0; 0; 0; 5; 5] []) as (H1 & v' & hn & _ & H2 & H3); try done.
  - apply demo_client_side.
  - apply demo_server_side.
  - eexists _, _. split_and!; [done|by vm_compute|]. by eexists _, _, _.
  - constructor; [by repeat constructor|]. constructor; [|done]. by cbn.
  - apply demo_receivable; [by vm_compute|by repeat constructor|by repeat constructor| |by repeat constructor]. constructor; [|done]. cbn. split_and!; [done|intros b [= <-]; done|done].
  - by eexists _, v', hn.
Defined.

Lemma luarpc_integers_cross_witness : ∃ bs y, num_is (Host false true 4) y (-1000000) ∧
  @does client_conf _ (@transport_write_number client_conf (NDbl (dbl_of_int (-1000000)))) (demo_client []) [] tt (demo_client []) [] bs ∧ @does server_conf _ (@transport_read_number server_conf) demo_server (bs ++ []) y demo_server [] [].
Proof.
  apply (luarpc_integers_cross demo_vm demo_vm client_conf server_conf 4096 (demo_tpt (Host true false 8)) (demo_tpt (Host false true 4)) (demo_client []) demo_server (NDbl (dbl_of_int (-1000000))) (-1000000) []); try done.
  - apply demo_client_side.
  - apply demo_server_side.
Defined.

(** ** What the code does not expect *)

(** A request for a field of what is no table is a Lua error of the server, which ends its loop. *)
Example luarpc_server_dies :
  (run 1 (@rpc_server demo_vm server_conf 9 2) (World (LState [VNumber (NInt 0); VNumber (NInt 1)] 22 demo_heap ∅ 0) (w_tpt demo_server) (w_ltpt demo_server) 0 None)
    ([RPC_CMD_CON] ++ header_of false 4 true ++ [RPC_CMD_GET] ++ wire_name (demo_tpt (Host false true 4)) [name "b"; name "c"])).1.1.1
  = LuaErr (ascii_bytes "attempt to index a nil value").
Proof. by vm_compute. Qed.

(** More arguments than a C function has slots on its stack are undefined: here 20, with the function on the stack. *)
Example luarpc_many_args k :
  (run 1 (@rpc_dispatch_helper demo_vm server_conf 9) demo_server
    (RPC_CMD_CALL :: wire_name (demo_tpt (Host false true 4)) [name "a"; name "f"] ++ [0; 0; 0; 20] ++ replicate 20 RPC_NIL ++ k)).1.1.1 = Undef.
Proof. by vm_compute. Qed.

(** A read-only table or a light function is not sent at all. *)
Example luarpc_romtable_not_sent :
  (run 1 (@write_variable demo_vm client_conf 3 1) (demo_client [VRotable 5]) []) = (Ret tt, demo_client [VRotable 5], [], []).
Proof. by vm_compute. Qed.

(** [handle.get()]: the helper has no parent. *)
Example luarpc_get_of_handle :
  (run 1 (@helper_call demo_vm client_conf 3)
    (World (LState [VUserdata 4] 40 ∅ {[4 := UHelper None 0 (ascii_bytes "get")]} 0) (w_tpt (demo_client [])) (w_ltpt (demo_client [])) 0 None) []).1.1.1 = Undef.
Proof. by vm_compute. Qed.

(** The text of a server's error is a format for the client. *)
Example luarpc_error_is_format :
  (run 1 (@helper_call demo_vm client_conf 3) (demo_client [VUserdata 2])
    ([RPC_READY; 1] ++ [0; 0; 0; 2] ++ [0; 0; 0; 2] ++ ascii_bytes "%s")).1.1.1 = Undef.
Proof. by vm_compute. Qed.

(** Integers of different sizes on both sides: a number that is read as a longer one than was sent. *)
Example luarpc_int_sizes :
  (run 1 (@transport_read_number (demo_conf true true 8))
    (World (w_L (demo_client [])) (session (Host true true 8) (Host true true 8) (Host true true 4) (MkTransport 1 1 false false false false 0)) (w_ltpt (demo_client [])) 0 None) [5; 0; 0; 0]).1.1.1 = Undef.
Proof. by vm_compute. Qed.

(** The timer of [rpc.connect] is that of its first argument. *)
Example luarpc_connect_timer :
  tmr_id (w_tpt (run 1 (@rpc_connect demo_vm client_conf) demo_caller []).1.1.2) = 1 ∧ lua_index (w_L demo_caller) 2 = Some (VNumber (NDbl (dbl_of_int 0))).
Proof. by vm_compute. Qed.
