(* ===== verification/LuaRpcErrors.v ===== *)
(** * Errors of the server of remote calls

    What a request can do to the server's connection, for any client and any loss of bytes: a weakest precondition over all the
    ways that the serial line can behave. *)
From S2P Require Import Prelude Exchange LuaNum LuaApi LuaRpc LuaRpcRun.

(** ** All the ways of a program *)

(** Whatever is received, and whenever nothing is received in time, the program returns in [Q], throws in [E], or ends with a
    Lua error or in what is undefined. *)
Fixpoint wp {A} (p : rpc A) (Q : A → world → Prop) (E : exception → world → Prop) (w : world) : Prop :=
  match p with
  | Ret a => Q a w
  | Throw e => E e w
  | LuaErr _ | Undef => True
  | Recv _ _ k => ∀ c, wp (k c) Q E w
  | Send _ _ p => wp p Q E w
  | Get k => wp (k w) Q E w
  | Put s p => wp p Q E s
  end.

Lemma wp_bind {A B} (p : rpc A) (f : A → rpc B) Q E w : wp p (λ a, wp (f a) Q E) E w → wp (p ≫= f) Q E w.
Proof. unfold mbind, io_mbind. revert w. induction p; cbn; auto. Qed.

Lemma wp_catch {A} (p : rpc A) h Q E w : wp p Q (λ e, wp (h e) Q E) w → wp (catch p h) Q E w.
Proof. revert w. induction p; cbn; auto. Qed.

Lemma wp_mono {A} (p : rpc A) (Q Q' : A → world → Prop) (E E' : exception → world → Prop) w :
  wp p Q E w → (∀ a w, Q a w → Q' a w) → (∀ e w, E e w → E' e w) → wp p Q' E' w.
Proof. intros H HQ HE. revert w H. induction p; cbn; auto. Qed.

Lemma wp_get {A} (k : world → rpc A) Q E w : wp (k w) Q E w → wp (get ≫= k) Q E w.
Proof. done. Qed.

(** What it says of a run on any input. *)
Lemma wp_run {A} link (p : rpc A) Q E w inp r w' inp' out : wp p Q E w → run link p w inp = (r, w', inp', out) →
  match r with Ret a => Q a w' | Throw e => E e w' | _ => True end.
Proof.
  revert w inp r w' inp' out. induction p as [a|e|m| |id tmo k IH|id b p IH|k IH|s p IH]; intros w inp r w' inp' out Hw Hr; cbn in Hw, Hr; try (by simplify_eq).
  - destruct (if id =? link then inp else []) as [|b rest]; [destruct (tmo <? 0); [by simplify_eq|by eapply IH]|by eapply IH].
  - destruct (run link p w inp) as [[[r1 w1] i1] o1] eqn:E1. simplify_eq. by eapply IH.
  - by eapply IH.
  - by eapply IH.
Qed.

(** ** What a command does not touch *)

(** The count of errors, the listening transport, the handler, and whether the connection is open. *)
Definition same_link (w w' : world) : Prop :=
  w_link_errs w' = w_link_errs w ∧ w_ltpt w' = w_ltpt w ∧ w_on_error w' = w_on_error w ∧ fd (w_tpt w') = fd (w_tpt w).

Lemma same_link_refl w : same_link w w.
Proof. repeat split. Qed.

Definition frame {A} (p : rpc A) : Prop := ∀ w, wp p (λ _, same_link w) (λ e w', same_link w w' ∧ exc_type e ≠ done_exc) w.

Create HintDb frame.

Section frame.
Context {vm : LuaVM} {conf : RpcConf}.

Lemma same_link_trans w1 w2 w3 : same_link w1 w2 → same_link w2 w3 → same_link w1 w3.
Proof. intros (? & ? & ? & ?) (? & ? & ? & ?). split_and!; congruence. Qed.

Lemma frame_bind {A B} (p : rpc A) (f : A → rpc B) : frame p → (∀ a, frame (f a)) → frame (p ≫= f).
Proof.
  intros Hp Hf w. apply wp_bind. eapply wp_mono; [apply Hp| |done]. intros a w1 H1. eapply wp_mono; [apply Hf| |]; cbn.
  - intros a2 w2 H2. exact (same_link_trans _ _ _ H1 H2).
  - intros e w2 [H2 He]. split; [exact (same_link_trans _ _ _ H1 H2)|done].
Qed.

Lemma frame_ret {A} (a : A) : frame (Ret a).
Proof. intros w. apply same_link_refl. Qed.

Lemma frame_undef {A} : frame (A := A) Undef.
Proof. done. Qed.

Lemma frame_throw {A} e : exc_type e ≠ done_exc → frame (A := A) (Throw e).
Proof. intros He w. split; [apply same_link_refl|exact He]. Qed.

Lemma frame_get : frame get.
Proof. intros w. apply same_link_refl. Qed.

Lemma frame_recv {A} id tmo (k : option Z → rpc A) : (∀ c, frame (k c)) → frame (Recv id tmo k).
Proof. intros H w c. apply H. Qed.

Lemma frame_send {A} id b (p : rpc A) : frame p → frame (Send id b p).
Proof. intros H. exact H. Qed.

Lemma frame_res {A} (f : lua_State → lres (A * lua_State)) : frame (lua_res f).
Proof. intros w. unfold lua_res, get, put, mbind, io_mbind. cbn. by destruct (f (w_L w)) as [[a L]|m|]. Qed.

Lemma frame_do f : frame (lua_do f).
Proof. apply frame_res. Qed.

Lemma frame_error {A} m : frame (lua_error (A := A) m).
Proof. apply frame_res. Qed.
End frame.

#[export] Hint Resolve frame_ret frame_undef frame_get frame_res frame_do frame_error : frame.

(** The structure of a program, then the lemmas of its parts. *)
Ltac frame :=
  repeat first
    [ solve [eauto with frame]
    | apply frame_bind; [|intros ?]
    | apply frame_recv; intros ?
    | apply frame_send
    | apply frame_throw; discriminate
    | match goal with
      | |- frame (match ?x with _ => _ end) => destruct x
      | |- frame (let _ := _ in _) => cbv zeta
      end ].

Section commands.
Context {vm : LuaVM} {conf : RpcConf}.

Lemma frame_see {A} (f : lua_State → A) : frame (lua_see f).
Proof. unfold lua_see. frame. Qed.

Lemma frame_of_option {A} (o : option A) : frame (of_option o).
Proof. unfold of_option. frame. Qed.

Lemma frame_verify : frame TRANSPORT_VERIFY_OPEN.
Proof. unfold TRANSPORT_VERIFY_OPEN, verify_open. frame. Qed.
Hint Resolve frame_see frame_of_option frame_verify : frame.

Lemma frame_alloca n : frame (alloca n).
Proof. unfold alloca. frame. Qed.

Lemma frame_read_loop n : ∀ tmo, frame (read_loop n tmo).
Proof. induction n as [|n IH]; intros tmo; cbn [read_loop]; frame. Qed.

Lemma frame_write_loop bs : frame (write_loop bs).
Proof. induction bs as [|b bs IH]; cbn [write_loop]; frame. Qed.
Hint Resolve frame_alloca frame_read_loop frame_write_loop : frame.

Lemma frame_read_buffer n : frame (transport_read_buffer n).
Proof. unfold transport_read_buffer. frame. Qed.

Lemma frame_write_buffer bs : frame (transport_write_buffer bs).
Proof. unfold transport_write_buffer. frame. Qed.
Hint Resolve frame_read_buffer frame_write_buffer : frame.

Lemma frame_read_string n : frame (transport_read_string n).
Proof. apply frame_read_buffer. Qed.

Lemma frame_write_string s : frame (transport_write_string s).
Proof. apply frame_write_buffer. Qed.

Lemma frame_read_u8 : frame transport_read_u8.
Proof. unfold transport_read_u8. frame. Qed.

Lemma frame_write_u8 x : frame (transport_write_u8 x).
Proof. unfold transport_write_u8. frame. Qed.

Lemma frame_swap c l : frame (swap_if c l).
Proof. unfold swap_if. frame. Qed.
Hint Resolve frame_read_string frame_write_string frame_read_u8 frame_write_u8 frame_swap : frame.

Lemma frame_read_u32 : frame transport_read_u32.
Proof. unfold transport_read_u32. frame. Qed.

Lemma frame_write_u32 x : frame (transport_write_u32 x).
Proof. unfold transport_write_u32. frame. Qed.

Lemma frame_read_number : frame transport_read_number.
Proof. unfold transport_read_number. frame. Qed.

Lemma frame_write_number x : frame (transport_write_number x).
Proof. unfold transport_write_number. frame. Qed.
Hint Resolve frame_read_u32 frame_write_u32 frame_read_number frame_write_number : frame.

Lemma frame_getfields ts : frame (getfields ts).
Proof. induction ts as [|t ts IH]; cbn [getfields]; frame. Qed.
Hint Resolve frame_getfields : frame.

Lemma frame_getname ts : frame (lua_getname ts).
Proof. unfold lua_getname. frame. Qed.

Lemma frame_read_name : frame read_name.
Proof. unfold read_name. frame. Qed.

Lemma frame_write_names ns : frame (write_names ns).
Proof. induction ns as [|n ns IH]; cbn [write_names]; frame. Qed.
Hint Resolve frame_getname frame_read_name frame_write_names : frame.

Lemma frame_remote_index h : frame (helper_remote_index h).
Proof. unfold helper_remote_index. frame. Qed.

Lemma frame_read_index : frame read_index.
Proof. unfold read_index. frame. Qed.
Hint Resolve frame_remote_index frame_read_index : frame.

Lemma frame_write_switch wv wt i v : (∀ i, frame (wv i)) → (∀ i, frame (wt i)) → frame (write_switch wv wt i v).
Proof. intros H1 H2. unfold write_switch. destruct v as [[]|]; frame. Qed.

Lemma frame_write fuel : (∀ i, frame (write_variable fuel i)) ∧ (∀ i, frame (write_table fuel i)).
Proof.
  induction fuel as [|fuel [IH1 IH2]]; [split; intros i; apply frame_undef|]. split; intros i; cbn [write_variable write_table]; frame. by apply frame_write_switch.
Qed.

Lemma frame_read_switch rt rf type : (∀ i, frame (rt i)) → frame rf → frame (read_switch rt rf type).
Proof. intros H1 H2. unfold read_switch. frame. Qed.

Lemma frame_read fuel : frame (read_variable fuel) ∧ (∀ i, frame (read_table fuel i)) ∧ frame (read_function fuel).
Proof.
  induction fuel as [|fuel (IH1 & IH2 & IH3)]; [split_and!; intros; apply frame_undef|]. split_and!; try intros i; cbn [read_variable read_table read_function]; frame. by apply frame_read_switch.
Qed.

Lemma frame_write_variable fuel i : frame (write_variable fuel i).
Proof. apply frame_write. Qed.

Lemma frame_read_variable fuel : frame (read_variable fuel).
Proof. apply frame_read. Qed.
Hint Resolve frame_write_variable frame_read_variable : frame.

Lemma frame_read_args fuel n : frame (read_args fuel n).
Proof. induction n as [|n IH]; cbn [read_args]; frame. Qed.

Lemma frame_write_results fuel n : ∀ i, frame (write_results fuel n i).
Proof. induction n as [|n IH]; intros i; cbn [write_results]; frame. Qed.
Hint Resolve frame_read_args frame_write_results : frame.

Lemma frame_call_function fuel n i : frame (call_function fuel n i).
Proof. unfold call_function. frame. Qed.

Lemma frame_bad_function s : frame (bad_function s).
Proof. unfold bad_function. frame. Qed.
Hint Resolve frame_call_function frame_bad_function : frame.

Lemma frame_cmd_call fuel : frame (read_cmd_call fuel).
Proof. unfold read_cmd_call. frame. Qed.

Lemma frame_cmd_get fuel : frame (read_cmd_get fuel).
Proof. unfold read_cmd_get. frame. Qed.

Lemma frame_cmd_newindex fuel : frame (read_cmd_newindex fuel).
Proof. unfold read_cmd_newindex. frame. Qed.
Hint Resolve frame_cmd_call frame_cmd_get frame_cmd_newindex : frame.

(** From the state that was read. *)
Definition frame_at {A} (w : world) (p : rpc A) : Prop := wp p (λ _, same_link w) (λ e w', same_link w w' ∧ exc_type e ≠ done_exc) w.

Lemma frame_from {A} (k : world → rpc A) : (∀ w, frame_at w (k w)) → frame (get ≫= k).
Proof. intros H w. apply H. Qed.

Lemma frame_at_update {A} w w1 (p : rpc A) : same_link w w1 → frame p → frame_at w (put w1;; p).
Proof.
  intros Hw Hp. unfold frame_at, put, mbind, io_mbind. cbn. eapply wp_mono; [apply Hp| |].
  - intros a w2 H2. exact (same_link_trans _ _ _ Hw H2).
  - intros e w2 [H2 He]. split; [exact (same_link_trans _ _ _ Hw H2)|exact He].
Qed.

Lemma frame_server_negotiate : frame server_negotiate.
Proof.
  unfold server_negotiate. apply frame_from. intros w. cbv zeta. apply frame_at_update; [by repeat split|]. apply frame_bind; [frame|]. intros header.
  destruct (negb (header_ok header)); [frame|]. apply frame_from. intros w1. cbv zeta. destruct header as [|a [|b [|c [|d [|e [|h5 [|h6 [|h7 []]]]]]]]]; try apply frame_undef.
  destruct (if negb _ then _ else _) as [h5' little]. destruct (if negb _ then _ else _) as [h7' intnum]. apply frame_at_update; [by repeat split|]. frame.
Qed.
Hint Resolve frame_server_negotiate : frame.

(** No exception comes from the handler of errors. *)
Lemma wp_deal_with_error s w : wp (deal_with_error s) (λ _, same_link w) (λ _ _, False) w.
Proof.
  assert (∀ A (f : lua_State → lres (A * lua_State)) w, wp (lua_res f) (λ _, same_link w) (λ _ _, False) w) as Hres.
  { intros A f v. unfold lua_res, get, put, mbind, io_mbind. cbn. by destruct (f (w_L v)) as [[a L]|m|]. }
  unfold deal_with_error. apply wp_get. destruct (w_on_error w) as [f|]; [|apply Hres].
  apply wp_bind. eapply wp_mono; [apply Hres| |done]. intros a1 w1 H1. apply wp_bind. eapply wp_mono; [apply Hres| |done]. intros a2 w2 H2.
  apply wp_bind. eapply wp_mono; [apply Hres| |done]. intros a3 w3 H3. exact (same_link_trans _ _ _ H1 (same_link_trans _ _ _ H2 H3)).
Qed.

(** ** Requests *)

Definition closed (w : world) : Prop := fd (w_tpt w) = INVALID_TRANSPORT.

(** The server with both of its ends closed. *)
Definition stopped (w : world) : world := set_tpt (set_ltpt w (set_fd (w_ltpt w) INVALID_TRANSPORT)) (set_fd (w_tpt w) INVALID_TRANSPORT).

(** What becomes of the server in state [w] whose command ended with [r] in state [w1], with the input [inp] left: the request
    ends with [r'] in state [w']. A command that returns resets the count of errors. An error that is not fatal is counted,
    or, after three in a row, closes the connection: the request returns, and nothing else changes. A fatal error closes the
    connection and the listening transport, then the handler of errors is called. A Lua error, what is undefined, and the
    wait for a byte without a time limit are the request's too. *)
Definition request_done (link : Z) (inp : mem) (w : world) (r : rpc unit) (w1 : world) (r' : rpc unit) (w' : world) : Prop :=
  match r with
  | Throw (Exception nonfatal _) => same_link w w1 ∧ r' = Ret tt ∧
      w' = if w_link_errs w <? MAX_LINK_ERRS then set_errs w1 (w_link_errs w + 1) else set_tpt (set_errs w1 0) (set_fd (w_tpt w1) INVALID_TRANSPORT)
  | Throw (Exception fatal n) => same_link w w1 ∧ closed w' ∧ fd (w_ltpt w') = INVALID_TRANSPORT ∧
      run link (deal_with_error (errorString n)) (stopped w1) inp = (r', w', inp, [])
  | Throw (Exception done_exc _) => False
  | Ret _ => r' = Ret tt ∧ w' = w1 ∧ w_link_errs w' = 0 ∧ fd (w_tpt w') = fd (w_tpt w) ∧ w_ltpt w' = w_ltpt w
  | LuaErr _ | Undef => r' = r ∧ w' = w1
  | Recv id tmo _ => (∃ k, r' = Recv id tmo k) ∧ w' = w1
  | _ => False
  end.

(** The command of a request, up to its errors. *)
Lemma wp_read_cmd fuel w : wp (read_cmd fuel)
  (λ _ w', w_link_errs w' = 0 ∧ fd (w_tpt w') = fd (w_tpt w) ∧ w_ltpt w' = w_ltpt w) (λ e w', same_link w w' ∧ exc_type e ≠ done_exc) w.
Proof.
  unfold read_cmd. apply wp_bind. eapply wp_mono; [apply frame_read_u8| |by intros].
  intros cmd w1 H1. apply wp_bind. eapply (wp_mono _ (λ _, same_link w1) _ (λ e w', same_link w1 w' ∧ exc_type e ≠ done_exc)); [|intros [] w2 H2|intros e w2 [H2 He]].
  - assert (frame (if cmd =? RPC_CMD_CALL then transport_write_u8 RPC_READY;; read_cmd_call fuel
      else if cmd =? RPC_CMD_GET then transport_write_u8 RPC_READY;; read_cmd_get fuel
      else if cmd =? RPC_CMD_CON then server_negotiate
      else if cmd =? RPC_CMD_NEWINDEX then transport_write_u8 RPC_READY;; read_cmd_newindex fuel
      else transport_write_u8 RPC_UNSUPPORTED_CMD;; Throw (Exception nonfatal ERR_COMMAND))) as H by frame. apply H.
  - destruct H1 as (_ & Hl1 & _ & Hf1), H2 as (_ & Hl2 & _ & Hf2). cbn. split_and!; [done|congruence|congruence].
  - split; [exact (same_link_trans _ _ _ H1 H2)|exact He].
Qed.

Lemma wp_dispatch_error e w (Q : world → Prop) : exc_type e ≠ done_exc →
  (∀ w', closed w' → fd (w_ltpt w') = INVALID_TRANSPORT → w_link_errs w' = w_link_errs w → Q w') → (exc_type e = nonfatal → Q (set_tpt w (set_fd (w_tpt w) INVALID_TRANSPORT))) →
  wp (dispatch_error e) (λ _, Q) (λ _ _, False) w.
Proof.
  intros He Hfat Hnon. unfold dispatch_error. destruct (exc_type e); [done|by apply Hnon|]. apply wp_bind.
  change (wp (deal_with_error (errorString (exc_errnum e))) (λ _, Q) (λ _ _, False) (set_tpt (set_ltpt w (set_fd (w_ltpt w) INVALID_TRANSPORT)) (set_fd (w_tpt w) INVALID_TRANSPORT))).
  eapply wp_mono; [apply wp_deal_with_error| |done]. intros [] w1 (He1 & Hl & _ & Hf). cbn in Hl, Hf. apply Hfat; [exact Hf|by rewrite Hl|exact He1].
Qed.

(** Calls of Lua take no input and send nothing. *)
Lemma run_lua_res {A B} link (f : lua_State → lres (A * lua_State)) (k : A → rpc B) w inp : run link (lua_res f ≫= k) w inp =
  match f (w_L w) with LOk (a, L) => run link (k a) (World L (w_tpt w) (w_ltpt w) (w_link_errs w) (w_on_error w)) inp | LErr m => (LuaErr m, w, inp, []) | LUndef => (Undef, w, inp, []) end.
Proof. unfold lua_res, get, put, mbind, io_mbind. cbn. by destruct (f (w_L w)) as [[a L]|m|]. Qed.

Lemma run_lua_do {B} link f (k : unit → rpc B) w inp : run link (lua_do f ≫= k) w inp =
  match f (w_L w) with LOk L => run link (k tt) (World L (w_tpt w) (w_ltpt w) (w_link_errs w) (w_on_error w)) inp | LErr m => (LuaErr m, w, inp, []) | LUndef => (Undef, w, inp, []) end.
Proof. unfold lua_do. rewrite run_lua_res. by destruct (f (w_L w)). Qed.

Lemma run_deal_with_error link s w inp : ∃ r' w', run link (deal_with_error s) w inp = (r', w', inp, []) ∧ same_link w w'.
Proof.
  change (run link (deal_with_error s) w inp) with (run link (match w_on_error w with
    | Some f => lua_do (lua_push f);; lua_do (lua_push (VString (cstr s)));; lua_res (lua_pcall 1 0);; Ret tt
    | None => lua_error s end) w inp).
  assert (∀ r' : rpc unit, ∃ r w', (r', w, inp, [] : mem) = (r, w', inp, []) ∧ same_link w w') as Hsame by (intros r'; exists r', w; split; [done|apply same_link_refl]).
  destruct (w_on_error w) as [f|]; [|unfold lua_error, lua_res, get, put, mbind, io_mbind; cbn; destruct (luaL_error s) as [[[] L]|m|]; cbn; [|apply Hsame..]].
  2: { do 2 eexists. split; [done|repeat split]. }
  rewrite run_lua_do. destruct (lua_push f (w_L w)) as [L1|m|]; [|apply Hsame..].
  rewrite run_lua_do. destruct (lua_push _ _) as [L2|m|]; [|by do 2 eexists; split; [done|repeat split]..].
  rewrite run_lua_res. destruct (lua_pcall 1 0 _) as [[st L3]|m|]; by do 2 eexists; split; [done|repeat split].
Qed.

(** [run] of a handler: what is not thrown passes it. *)
Lemma run_catch {A} link (p : rpc A) h w inp : run link (catch p h) w inp =
  let '(r, w1, inp1, out) := run link p w inp in
  match r with
  | Throw e => let '(r2, w2, inp2, out2) := run link (h e) w1 inp1 in (r2, w2, inp2, out ++ out2)
  | Recv id tmo k => (Recv id tmo (λ c, catch (k c) h), w1, inp1, out)
  | _ => (r, w1, inp1, out)
  end.
Proof.
  revert w inp. induction p as [a|e|m| |id tmo k IH|id b p IH|k IH|s p IH]; intros w inp; cbn; try done; try apply IH.
  - by destruct (run link (h e) w inp) as [[[? ?] ?] ?].
  - destruct (if id =? link then inp else []) as [|b rest]; [destruct (tmo <? 0); [done|]|]; apply IH.
  - rewrite IH. destruct (run link p w inp) as [[[r w1] inp1] out]. destruct r; try done. destruct (run link (h _) w1 inp1) as [[[? ?] ?] ?]. by destruct (id =? link).
Qed.

(** A run that ended is not a send or a use of the state. *)
Lemma run_ended {A} link (p : rpc A) w inp r w1 inp1 out : run link p w inp = (r, w1, inp1, out) →
  match r with Send _ _ _ | Get _ | Put _ _ => False | _ => True end.
Proof.
  revert w inp r w1 inp1 out. induction p as [a|e|m| |id tmo k IH|id b p IH|k IH|s p IH]; intros w inp r w1 inp1 out; cbn; try (intros; by simplify_eq); try (by apply IH).
  - destruct (if id =? link then inp else []) as [|b rest]; [destruct (tmo <? 0); [intros; by simplify_eq|]|]; apply IH.
  - destruct (run link p w inp) as [[[r2 w2] i2] o2] eqn:E. intros. simplify_eq. by eapply IH.
Qed.

(** What the two handlers do with an error of a command. *)
Lemma run_errors link e w w1 inp : same_link w w1 → exc_type e ≠ done_exc → 0 <= w_link_errs w <= MAX_LINK_ERRS →
  ∃ r' w', run link (catch (link_error e) dispatch_error) w1 inp = (r', w', inp, []) ∧ request_done link inp w (Throw e) w1 r' w'.
Proof.
  intros Hs He Hn. destruct e as [ty n]. destruct ty; cbn in He; [done|..]; cbn [request_done].
  - destruct Hs as (H1 & H2 & H3 & H4). unfold link_error, get, put, mbind, io_mbind. cbn. rewrite H1. unfold MAX_LINK_ERRS in *.
    destruct (Z.ltb_spec 2 (w_link_errs w + 1)), (Z.ltb_spec (w_link_errs w) 2); try lia; cbn; by do 2 eexists.
  - cbn. destruct (run_deal_with_error link (errorString n) (stopped w1) inp) as (r' & w' & Hr & _ & H2 & _ & H4).
    exists r', w'. split; [exact Hr|]. split_and!; [done|exact H4|by rewrite H2|exact Hr].
Qed.

(** C25: What a request does on an open connection, whatever a client sends and whenever it stops, follows from how its command
    ends. A command that returns keeps the connection and forgets the errors before it. An error that is not fatal is counted and
    the connection kept, but for the third in a row, after which the connection is closed and the server goes on listening. A
    fatal error closes both and calls the handler of errors. A Lua error of a command, and what a command leaves undefined, pass
    both handlers and end the server with the request. *)
Theorem luarpc_request_contained link fuel w inp (Hopen : fd (w_tpt w) ≠ INVALID_TRANSPORT) (Hn : 0 <= w_link_errs w <= MAX_LINK_ERRS) :
  let '(r, w1, inp1, out) := run link (read_cmd fuel) w inp in
  ∃ r' w', run link (rpc_dispatch_helper fuel) w inp = (r', w', inp1, out) ∧ request_done link inp1 w r w1 r' w'.
Proof.
  destruct (run link (read_cmd fuel) w inp) as [[[r w1] inp1] out] eqn:E.
  pose proof (wp_run _ _ _ _ _ _ _ _ _ _ (wp_read_cmd fuel w) E) as Hw. pose proof (run_ended _ _ _ _ _ _ _ _ E) as He.
  assert (run link (rpc_dispatch_helper fuel) w inp = run link (catch (catch (read_cmd fuel) link_error) dispatch_error) w inp) as ->.
  { unfold rpc_dispatch_helper, transport_is_open, get, mbind, io_mbind. cbn. by rewrite (proj2 (Z.eqb_neq _ _) Hopen). }
  rewrite run_catch, run_catch, E. destruct r as [[]|e|m| |id tmo k|id b p|k|s p]; try done.
  - by do 2 eexists.
  - destruct (run_errors link e w w1 inp1) as (r' & w' & Hr & Hd); [tauto..|done|]. rewrite run_catch in Hr.
    destruct (run link (link_error e) w1 inp1) as [[[r2 w2] i2] o2]. exists r', w'. split; [|exact Hd].
    destruct r2; simplify_eq; rewrite ?app_nil_r; try done. destruct (run link (dispatch_error _) w2 i2) as [[[r3 w3] i3] o3]. injection Hr as -> -> -> Ho.
    apply app_eq_nil in Ho as [-> ->]. by rewrite !app_nil_r.
  - by do 2 eexists.
  - by do 2 eexists.
  - do 2 eexists. split; [done|]. split; [by eexists|done].
Qed.

(** A connection is only accepted from the listening transport, and with a header of the protocol; nothing else is kept of what
    comes first. *)
Lemma luarpc_accept_contained fuel w : fd (w_tpt w) = INVALID_TRANSPORT →
  wp (rpc_dispatch_helper fuel) (λ _ w', w_link_errs w' = w_link_errs w ∧ (fd (w_tpt w') = fd (w_ltpt w) ∧ w_ltpt w' = w_ltpt w ∨ closed w')) (λ _ _, False) w.
Proof.
  intros Hc. unfold rpc_dispatch_helper. apply wp_catch, wp_get. unfold transport_is_open. rewrite Hc. cbn [negb Z.eqb INVALID_TRANSPORT Pos.eqb].
  unfold accept_connection. apply wp_bind. unfold transport_accept. apply wp_get. unfold verify_open. destruct (fd (w_ltpt w) =? INVALID_TRANSPORT) eqn:El.
  { apply wp_dispatch_error; [done| |done]. intros w' H1 H2 H3. split; [done|by right]. }
  change (wp (cmd ← transport_read_u8; if cmd =? RPC_CMD_CON then server_negotiate else Throw (Exception nonfatal ERR_COMMAND))
    (λ _ w', w_link_errs w' = w_link_errs w ∧ (fd (w_tpt w') = fd (w_ltpt w) ∧ w_ltpt w' = w_ltpt w ∨ closed w'))
    (λ e, wp (dispatch_error e) (λ _ w', w_link_errs w' = w_link_errs w ∧ (fd (w_tpt w') = fd (w_ltpt w) ∧ w_ltpt w' = w_ltpt w ∨ closed w')) (λ _ _, False))
    (set_tpt w (set_fd (w_tpt w) (fd (w_ltpt w))))).
  set (w1 := set_tpt w _). assert (frame (cmd ← transport_read_u8; if cmd =? RPC_CMD_CON then server_negotiate else Throw (Exception nonfatal ERR_COMMAND))) as H by frame.
  eapply wp_mono; [apply H| |].
  - intros [] w2 (H1 & H2 & _ & H3). split; [done|by left].
  - intros e w2 [(H1 & H2 & _ & H3) He]. apply wp_dispatch_error; [done| |].
    + intros w' H4 H5 H6. split; [by rewrite H6|by right].
    + intros _. split; [done|by right].
Qed.
End commands.

(** A command that the server does not know, on an open connection with two errors: the third closes it. *)
Lemma luarpc_request_contained_witness : let w := set_errs demo_server 2 in
  ∃ r' w', run 1 (@rpc_dispatch_helper demo_vm server_conf 9) w [99] = (r', w', [], [RPC_UNSUPPORTED_CMD]) ∧
    @request_done demo_vm server_conf 1 [] w (Throw (Exception nonfatal ERR_COMMAND)) w r' w'.
Proof. exact (@luarpc_request_contained demo_vm server_conf 1 9 (set_errs demo_server 2) [99] ltac:(done) ltac:(by vm_compute)). Defined.
