(* ===== verification/Httpd.v ===== *)
(** * The web server

    Models src/webserver/httpd.c, src/webserver/httpd-fs.c and the output function of the web server's console
    ([uip_write] of src/newlib/genstd.c).  A connection's state [httpd_state] is split into the part that the input
    thread owns, the part that the output threads own and the interpreter's part; the local continuations of the
    threads are enumerations of the labels of their PT_WAIT_UNTILs ([O0], [SO0], ... for the beginning).

    All connections share the globals: the one buffer of the file system ([huge]), the table of clients and the
    interpreters, which are reached through pointers.  The Lua core, the allocator and the SD card's file system are
    parameters. *)
From S2P Require Import Prelude Psock.

(** ** src/webserver/httpd-strings.c *)
Definition crlf : mem := [13; 10].
Definition http_get : mem := txt "GET " ++ [0].
Definition http_index_pht : mem := txt "/index.pht" ++ [0].
Definition http_404_html : mem := txt "/404.html" ++ [0].
Definition http_referer : mem := txt "Referer:" ++ [0].
Definition http_server : mem := txt "Server: uIP/1.0 http://www.sics.se/~adam/uip/" ++ crlf ++ txt "Connection: close" ++ crlf.
Definition http_header_200 : mem := txt "HTTP/1.0 200 OK" ++ crlf ++ http_server ++ [0].
Definition http_header_404 : mem := txt "HTTP/1.0 404 Not found" ++ crlf ++ http_server ++ [0].
Definition http_content_type (t : string) : mem := txt "Content-type: " ++ txt t ++ crlf ++ crlf ++ [0].
Definition http_content_type_plain : mem := http_content_type "text/plain".
Definition http_content_type_html : mem := http_content_type "text/html".
Definition http_content_type_css : mem := http_content_type "text/css".
Definition http_content_type_png : mem := http_content_type "image/png".
Definition http_content_type_gif : mem := http_content_type "image/gif".
Definition http_content_type_jpg : mem := http_content_type "image/jpeg".
Definition http_content_type_binary : mem := http_content_type "application/octet-stream".
Definition http_html : mem := txt ".html" ++ [0].
Definition http_pht : mem := txt ".pht" ++ [0].
Definition http_lua : mem := txt ".lua" ++ [0].
Definition http_css : mem := txt ".css" ++ [0].
Definition http_png : mem := txt ".png" ++ [0].
Definition http_gif : mem := txt ".gif" ++ [0].
Definition http_jpg : mem := txt ".jpg" ++ [0].

Definition ISO_nl : Z := 10.
Definition ISO_space : Z := 32.
Definition ISO_period : Z := 46.
Definition ISO_slash : Z := 47.
Definition ISO_minor : Z := 60.
Definition ISO_question : Z := 63.

Definition WEB_MAX_CLIENT : Z := 4.
Definition WRITE_BUFFER_SIZE : Z := 1024.
Definition DM_STDIN_NUM : Z := 0.
Definition DM_STDOUT_NUM : Z := 1.
Definition DM_STDERR_NUM : Z := 2.

(** ** Pointers to data that is sent

    [PHuge], [PCache] and [PWrite]: an offset in the file buffer, in the buffer of a cache entry and in the
    connection's write buffer; [PApp]: in the packet buffer. *)
Inductive dptr :=
| PHuge (off : Z)
| PCache (index off : Z)
| PWrite (off : Z)
| PConst (m : mem)
| PApp (off : Z).

Definition dadd (p : dptr) (n : Z) : dptr :=
  match p with
  | PHuge o => PHuge (o + n)
  | PCache i o => PCache i (o + n)
  | PWrite o => PWrite (o + n)
  | PConst m => PConst (drop (Z.to_nat n) m)
  | PApp o => PApp (o + n)
  end.

(** ** The files: src/webserver/httpd-fs.c *)
Definition FILE_HUGE_SIZE : Z := 307200.
Definition FILE_CACHE_SIZE : Z := 0.
Definition FILE_NAME_MAX_SIZE : Z := 10.
Definition FILE_CACHE_NR : nat := 10.
Definition FILE_NAME_PREFIX : mem := txt "/mmc".

(** The cache entries are their names and lengths: their data has [FILE_CACHE_SIZE] bytes, none. *)
Record file_fs := FileFs { huge : option mem; cache : list (mem * Z) }.

(** The allocator and the files of the SD card by path: [None] when the file cannot be opened, else the size ([None]
    when it cannot be asked for) and the bytes that can be read. *)
Class FileSystem := {
  malloc : Z → option mem;
  mmc : list Z → option (option Z * mem) }.

Section files.
Context {card : FileSystem}.

Definition no_cache : list (mem * Z) := replicate FILE_CACHE_NR (replicate (Z.to_nat FILE_NAME_MAX_SIZE) 0, 0).

(** [file_fs] is static: the names and lengths are zero from the start, and nothing gives them another value. *)
Definition httpd_fs_int (fs : file_fs) : file_fs * Z :=
  match huge fs with
  | None =>
      match malloc FILE_HUGE_SIZE with
      | None => (fs, 1)
      | Some m =>
          match malloc FILE_CACHE_SIZE with
          | None => (FileFs (Some m) (cache fs), 1)
          | Some _ => (FileFs (Some m) ((λ e, (default e.1 (st e.1 0 0), 0)) <$> cache fs), 0)
          end
      end
  | Some _ => (fs, 0)
  end.

Fixpoint search_name_from (i : Z) (l : list (mem * Z)) (name : list Z) : option Z :=
  match l with
  | [] => Some i
  | (n, _) :: l => n ← cstr n; if bool_decide (n = name) then Some i else search_name_from (i + 1) l name
  end.

Definition httpd_fs_search_name (fs : file_fs) (name : list Z) : option Z := search_name_from 0 (cache fs) name.

(** [file->data], [file->len]. A file whose size is less than [FILE_CACHE_SIZE], which no size is, would go to the
    cache. *)
Definition httpd_fs_open (fs : file_fs) (name : mem) (file : dptr * Z) : option (file_fs * (dptr * Z) * bool) :=
  let '(fs, e) := httpd_fs_int fs in
  if ctrue e then Some (fs, (file.1, 0), false)
  else
    nm ← cstr name;
    index ← httpd_fs_search_name fs nm;
    if index <? Z.of_nat FILE_CACHE_NR then
      e ← cache fs !! Z.to_nat index;
      Some (fs, (PCache index 0, e.2), true)
    else
      fullpath ← c_strcat (FILE_NAME_PREFIX ++ replicate 11 0) name;
      path ← cstr fullpath;
      match mmc path with
      | None => Some (fs, (file.1, 0), false)
      | Some (None, _) => Some (fs, (file.1, 0), false)
      | Some (Some st_size, data) =>
          let len := u32 st_size in
          if FILE_HUGE_SIZE <? len then Some (fs, (file.1, len), false)
          else
            h ← huge fs;
            let got := take (Z.to_nat len) data in
            h ← mwrite h 0 got;
            if negb (len =? msize got) then Some (FileFs (Some h) (cache fs), (file.1, len), false)
            else
              h ← st h (len + 1) 0;
              Some (FileFs (Some h) (cache fs), (PHuge 0, len), true)
      end.
End files.

(** ** The state of a connection *)

(** The labels of [handle_input]. *)
Inductive in_lc := InMethod | InPath | InHeaders.

Definition STATE_WAITING : Z := 0.
Definition STATE_OUTPUT : Z := 1.

Record hin := Hin {
  sin_pt : in_lc; sin : psock (P:=dptr); inputbuf : mem; filename : mem; http_params : mem; h_state : Z }.

(** The labels of the threads on [sout], of [handle_output] and of [handle_elua_tags] and [handle_elua_scripts]. *)
Inductive sout_lc := SO0 | SStatus | SType | SGen | SPart | SElua.
Inductive output_lc := O0 | OHeaders404 | OFile404 | OHeaders | OTags | OScripts | OFile.
Inductive script_lc := Sc0 | ScTagOut | ScTagPart | ScScriptOut.

(** [h_len] is the field [len]. [scriptptr] and [scriptlen] are not kept from one step to the next. *)
Record hout := Hout {
  sout_pt : sout_lc; sout : psock (P:=dptr); outputpt : output_lc; scriptpt : script_lc;
  file : dptr * Z; h_len : Z }.

Record hlua := Hlua { hl_L : option Z; write_buffer : mem; write_buffer_len : Z; new_pht_page : bool }.

Record httpd_state := HttpdState {
  timer : Z; ripaddr : Z * Z; http_connection_nr : Z; h_in : hin; h_out : hout; h_lua : hlua }.

Definition set_sout_pt (o : hout) (l : sout_lc) : hout := Hout l (sout o) (outputpt o) (scriptpt o) (file o) (h_len o).
Definition set_sout (o : hout) (s : psock) : hout := Hout (sout_pt o) s (outputpt o) (scriptpt o) (file o) (h_len o).
Definition set_outputpt (o : hout) (l : output_lc) : hout := Hout (sout_pt o) (sout o) l (scriptpt o) (file o) (h_len o).
Definition set_scriptpt (o : hout) (l : script_lc) : hout := Hout (sout_pt o) (sout o) (outputpt o) l (file o) (h_len o).
Definition set_file (o : hout) (f : dptr * Z) : hout := Hout (sout_pt o) (sout o) (outputpt o) (scriptpt o) f (h_len o).
Definition set_h_len (o : hout) (n : Z) : hout := Hout (sout_pt o) (sout o) (outputpt o) (scriptpt o) (file o) n.

(** ** [uip_write]

    [r->_errno] is not modelled: the result is -1. On stderr the data goes to the UART. [None]: the assertion, or
    without it the accesses outside the write buffer. *)
Fixpoint uip_write_loop (fuel : nat) (ptr wb : mem) (base i len : Z) : option (mem * Z) :=
  match fuel with
  | O => None
  | S fuel =>
      if i <? len then
        c ← ld ptr i;
        if negb (c =? ISO_nl) then wb ← st wb (base + i) c; uip_write_loop fuel ptr wb base (i + 1) len
        else uip_write_loop fuel ptr wb base (i + 1) (len - 1)
      else Some (wb, len)
  end.

Definition uip_write (l : hlua) (fd : Z) (ptr : mem) (len : Z) : option (hlua * Z) :=
  if (fd <? DM_STDIN_NUM) || (DM_STDERR_NUM <? fd) then Some (l, -1)
  else if negb (fd =? DM_STDOUT_NUM) && negb (fd =? DM_STDERR_NUM) then Some (l, -1)
  else if fd =? DM_STDERR_NUM then Some (l, len)
  else if negb (write_buffer_len l + len <? WRITE_BUFFER_SIZE) then None
  else
    '(wb, len) ← uip_write_loop (S (Z.to_nat len)) ptr (write_buffer l) (write_buffer_len l) 0 len;
    Some (Hlua (hl_L l) wb (write_buffer_len l + len) (new_pht_page l), len).

(** [http_uart_send_str]: the bytes for the console's UART. *)
Definition http_uart_send_str (bs : mem) : mem := concat ((λ c, if c =? ISO_nl then [13; c] else [c]) <$> bs).

(** ** The request's parameters

    The loop of [http_run_elua] over [http_params], in [str] of 20 bytes: the strings pushed and the assignments to the
    table, in order. An assignment takes the two strings pushed last and needs the table right below them. *)
Record params := Params { p_str : mem; p_c : Z; p_pair : bool; p_pushed : list (list Z); p_sets : list (list Z * list Z) }.

Definition p_push (p : params) : option params :=
  str ← st (p_str p) (p_c p) 0;
  k ← cstr str;
  Some (Params str (p_c p) (p_pair p) (p_pushed p ++ [k]) (p_sets p)).

Definition p_settable (p : params) : option params :=
  match p_pushed p with
  | [k; v] => Some (Params (p_str p) (p_c p) (p_pair p) [] (p_sets p ++ [(k, v)]))
  | _ => None
  end.

Definition set_c (p : params) (c : Z) (pair : bool) : params := Params (p_str p) c pair (p_pushed p) (p_sets p).

(** One turn of the loop: [inr] after the break. *)
Definition param_step (http_params : mem) (p : params) (i : Z) : option (params + params) :=
  x ← ld http_params i;
  str ← st (p_str p) (p_c p) (if negb (x =? ch "+") then x else ch " ");
  let p := Params str (p_c p) (p_pair p) (p_pushed p) (p_sets p) in
  more ← (if x =? ch "=" then y ← ld http_params (i + 1); Some (negb (y =? 0)) else Some false);
  p ← (if (more : bool) then p ← p_push p; Some (set_c p (-1) true) else Some p);
  if (x =? 0) && p_pair p then p ← p_push p; p ← p_settable p; Some (inr p)
  else
    p ← (if (x =? ch "&") && p_pair p then p ← p_push p; p ← p_settable p; Some (set_c p (-1) false) else Some p);
    Some (inl (set_c p (p_c p + 1) (p_pair p))).

Fixpoint param_loop (n : nat) (http_params : mem) (p : params) (i : Z) : option params :=
  match n with
  | O => Some p
  | S n => r ← param_step http_params p i;
      match r with inr p => Some p | inl p => param_loop n http_params p (i + 1) end
  end.

Definition parse_params (http_params str : mem) : option params :=
  param_loop (Z.to_nat (msize http_params)) http_params (Params str 0 false [] []) 0.

(** ** The globals and the interpreters *)

(** An interpreter and the number of values on its stack. *)
Record lua {V : Type} := Lua { lua_vm : V; lua_top : Z }.
Arguments lua : clear implicits.
Arguments Lua {V}.

(** [connection]: [L] and [ripaddr] of each entry; [g_lua]: the interpreters by address. *)
Record globals {V : Type} := Globals { g_fs : file_fs; g_conn : list (option Z * (Z * Z)); g_lua : gmap Z (lua V) }.
Arguments globals : clear implicits.
Arguments Globals {V}.

(** The Lua core: [vm_open] allocates an interpreter with its libraries and the empty global table [reqdata], at an
    address; [vm_getn] is the length of that table ([None] when the global is not a table any more), [vm_move] copies
    its element to another index, [vm_set] assigns a string to a string key and [vm_set_first] does so in its first
    element; [vm_run] loads and calls a chunk: the data passed to [write] on stdout, and whether it failed. *)
Class LuaCore (V : Type) := {
  vm_open : gmap Z (lua V) → option (Z * V);
  vm_getn : V → option Z;
  vm_move : V → Z → Z → V;
  vm_set : V → list Z → list Z → V;
  vm_set_first : V → list Z → list Z → option V;
  vm_run : V → mem → V * list mem * bool }.

Section lua.
Context {V : Type}.

Definition set_fs (g : globals V) (fs : file_fs) : globals V := Globals fs (g_conn g) (g_lua g).
Definition set_conn (g : globals V) (c : list (option Z * (Z * Z))) : globals V := Globals (g_fs g) c (g_lua g).
Definition set_lua (g : globals V) (m : gmap Z (lua V)) : globals V := Globals (g_fs g) (g_conn g) m.

Context {core : LuaCore V}.

(** [lua_open] and the creation of the table, the value popped twice included. *)
Definition run_open (g : globals V) (l : hlua) : option (globals V * hlua) :=
  '(p, v) ← vm_open (g_lua g);
  let top := 0 + 1 - 1 - 1 + 1 in
  Some (set_lua g (<[p := Lua v top]> (g_lua g)), Hlua (Some p) (write_buffer l) (write_buffer_len l) (new_pht_page l)).

Definition run_close (g : globals V) (l : hlua) : globals V * hlua :=
  match hl_L l with
  | Some p => if new_pht_page l then (set_lua g (delete p (g_lua g)), Hlua None (write_buffer l) (write_buffer_len l) false) else (g, l)
  | None => (g, l)
  end.

Fixpoint shift_elements (n : nat) (v : V) (i : Z) : V :=
  match n with
  | O => v
  | S n => shift_elements n (vm_move v i (i - 1)) (i + 1)
  end.

Definition set_pair (c : Z) (v : option V) (kv : list Z * list Z) : option V :=
  v ← v;
  if 0 <? c then vm_set_first v kv.1 kv.2 else Some (vm_set v kv.1 kv.2).

(** The request's data: the table on the stack, its elements shifted, the parameters assigned. [str] is the
    uninitialised buffer. *)
Definition run_params (http_params str : mem) (v : V) (top : Z) : option (V * Z) :=
  let top := top + 1 in
  c ← vm_getn v;
  let '(v, top) := if 0 <? c then (shift_elements (Z.to_nat (c - 2)) v 2, top + 1) else (v, top) in
  p0 ← ld http_params 0;
  if negb (p0 =? 0) then
    p ← parse_params http_params str;
    v ← foldl (set_pair c) (Some v) (p_sets p);
    Some (v, top + Z.of_nat (length (p_pushed p)) - 1)
  else Some (v, top).

Fixpoint write_all (l : hlua) (outs : list mem) : option hlua :=
  match outs with
  | [] => Some l
  | o :: outs => '(l, _) ← uip_write l DM_STDOUT_NUM o (msize o); write_all l outs
  end.

(** [http_run_elua( s, data, len )] with the chunk's bytes; the messages on stderr are left out. *)
Definition http_run_elua (g : globals V) (l : hlua) (http_params str data : mem) : option (globals V * hlua * Z) :=
  let l := Hlua (hl_L l) (write_buffer l) 0 (new_pht_page l) in
  let '(g, l) := run_close g l in
  match (match hl_L l with None => run_open g l | Some _ => Some (g, l) end) with
  | None => Some (g, l, -1)
  | Some (g, l) =>
      p ← hl_L l;
      x ← g_lua g !! p;
      '(v, top) ← run_params http_params str (lua_vm x) (lua_top x);
      let '(v, outs, err) := vm_run v data in
      l ← write_all l outs;
      Some (set_lua g (<[p := Lua v top]> (g_lua g)), l, cbool err)
  end.

(** ** The output threads

    What a call of an output thread reads and changes; [w]: the thread returns PT_WAITING. *)
Record ctx := Ctx { c_u : uip; c_g : globals V; c_out : hout; c_lua : hlua }.

Definition with_u (c : ctx) (u : uip) : ctx := Ctx u (c_g c) (c_out c) (c_lua c).
Definition with_out (c : ctx) (o : hout) : ctx := Ctx (c_u c) (c_g c) o (c_lua c).
Definition with_pt (c : ctx) (l : sout_lc) : ctx := with_out c (set_sout_pt (c_out c) l).

(** The object at a pointer, from there on; [None] for the packet buffer itself. *)
Definition fetch (c : ctx) (pkt : mem) (p : dptr) : option mem :=
  match p with
  | PHuge o => Some (drop (Z.to_nat o) (default [] (huge (g_fs (c_g c)))))
  | PCache _ _ => Some []
  | PWrite o => Some (drop (Z.to_nat o) (write_buffer (c_lua c)))
  | PConst m => Some m
  | PApp o => if o =? 0 then None else Some (drop (Z.to_nat o) pkt)
  end.

Definition object (c : ctx) (p : dptr) : mem := default [] (fetch c (uip_appdata (c_u c)) p).

(** [psock_send( &s->sout, buf, len )]; every turn of its loop sends at least one byte. *)
Definition out_send (c : ctx) (buf : dptr) (len : Z) : option (ctx * bool) :=
  let s := sout (c_out c) in
  '(u, s, r) ← psock_send dadd (fetch c) (S (Z.to_nat (len + sendlen s))) (c_u c) s buf len;
  Some (with_out (with_u c u) (set_sout (c_out c) s), r =? PT_WAITING).

(** [PSOCK_SEND] at a label, and what follows it. *)
Definition at_send (c : ctx) (l : sout_lc) (buf : dptr) (len : Z) (k : ctx → option (ctx * bool)) : option (ctx * bool) :=
  '(c, w) ← out_send c buf len;
  if (w : bool) then Some (with_pt c l, true) else k c.

(** [PSOCK_END] *)
Definition pt_end (c : ctx) : option (ctx * bool) := Some (with_pt c SO0, false).

Definition generate_part_of_file (c : ctx) (n : Z) (u : uip) : option (Z * uip * Z) :=
  let '(data, flen) := file (c_out c) in
  let len := if uip_mss u <? flen then uip_mss u else flen in
  bs ← mread (object c data) 0 len;
  app ← mwrite (uip_appdata u) 0 bs;
  Some (len, Uip (uip_flags u) (uip_mss u) app (uip_len u) (uip_slen u), u16 len).

Fixpoint send_file (fuel : nat) (c : ctx) : option (ctx * bool) :=
  match fuel with
  | O => None
  | S fuel =>
      match sout_pt (c_out c) with
      | SO0 | SGen =>
          let s := sout (c_out c) in
          '(n, u, s, r) ← psock_generator_send dadd (fetch c) (generate_part_of_file c) (PApp 0)
            (S (Z.to_nat (snd (file (c_out c)) + sendlen s))) (h_len (c_out c)) (c_u c) s;
          let c := with_out (with_u c u) (set_sout (set_h_len (c_out c) n) s) in
          if r =? PT_WAITING then Some (with_pt c SGen, true)
          else
            let '(data, flen) := file (c_out c) in
            let flen := u32 (flen - n) in
            let c := with_out c (set_file (c_out c) (dadd data n, flen)) in
            if 0 <? flen then send_file fuel (with_pt c SO0) else pt_end c
      | _ => None
      end
  end.

Definition send_part_of_file (c : ctx) : option (ctx * bool) :=
  match sout_pt (c_out c) with
  | SO0 | SPart => at_send c SPart (file (c_out c)).1 (h_len (c_out c)) pt_end
  | _ => None
  end.

Definition http_output_elua (c : ctx) : option (ctx * bool) :=
  match sout_pt (c_out c) with
  | SO0 | SElua => at_send c SElua (PWrite 0) (write_buffer_len (c_lua c)) pt_end
  | _ => None
  end.

Definition content_type (filename : mem) : option mem :=
  ptr ← strrchr filename ISO_period;
  match ptr with
  | None => Some http_content_type_binary
  | Some k =>
      let ptr := drop (Z.to_nat k) filename in
      a ← strneq 5 http_html ptr; b ← strneq 4 http_pht ptr; c ← strneq 4 http_lua ptr;
      if (a || b || c : bool) then Some http_content_type_html
      else css ← strneq 4 http_css ptr; if (css : bool) then Some http_content_type_css
      else png ← strneq 4 http_png ptr; if (png : bool) then Some http_content_type_png
      else gif ← strneq 4 http_gif ptr; if (gif : bool) then Some http_content_type_gif
      else jpg ← strneq 4 http_jpg ptr; if (jpg : bool) then Some http_content_type_jpg
      else Some http_content_type_plain
  end.

(** [PSOCK_SEND_STR] *)
Definition at_send_str (c : ctx) (l : sout_lc) (str : mem) (k : ctx → option (ctx * bool)) : option (ctx * bool) :=
  n ← strlen str; at_send c l (PConst str) n k.

Definition send_headers (c : ctx) (filename statushdr : mem) : option (ctx * bool) :=
  let send_type c := t ← content_type filename; at_send_str c SType t pt_end in
  match sout_pt (c_out c) with
  | SO0 | SStatus => at_send_str c SStatus statushdr send_type
  | SType => send_type c
  | _ => None
  end.

(** [http_run_elua( s, data, len )] of the chunk at a pointer. *)
Definition ctx_run (c : ctx) (http_params str : mem) (data : dptr) (len : Z) : option ctx :=
  bs ← mread (object c data) 0 len;
  '(g, l, _) ← http_run_elua (c_g c) (c_lua c) http_params str bs;
  Some (Ctx (c_u c) g (c_out c) l).

(** [PT_WAIT_THREAD( &s->scriptpt, ... )] at a label, and what follows it. *)
Definition script_wait (l : script_lc) (r : option (ctx * bool)) (k : ctx → option (ctx * bool)) : option (ctx * bool) :=
  '(c, w) ← r;
  if (w : bool) then Some (with_out c (set_scriptpt (c_out c) l), true) else k c.

Definition script_end (c : ctx) : option (ctx * bool) := Some (with_out c (set_scriptpt (c_out c) Sc0), false).

Definition handle_elua_scripts (c : ctx) (http_params str : mem) : option (ctx * bool) :=
  match scriptpt (c_out c) with
  | Sc0 =>
      c ← ctx_run c http_params str (file (c_out c)).1 (s32 (file (c_out c)).2);
      script_wait ScScriptOut (http_output_elua c) script_end
  | ScScriptOut => script_wait ScScriptOut (http_output_elua c) script_end
  | _ => None
  end.

(** The tests of five characters, from left to right up to the first that differs. *)
Fixpoint starts_with (m p : mem) : option bool :=
  match p with
  | [] => Some true
  | y :: p => x ← head m; if x =? y then starts_with (tail m) p else Some false
  end.

Definition CGI_open : mem := txt "<?lua".
Definition CGI_close : mem := txt "?>".

(** The body of the loop of [handle_elua_tags] up to its PT_WAIT_THREAD: [inl] a script has run and its output is to
    be sent, [inr true] a part of the page of [h_len] bytes is to be sent, [inr false] neither. *)
Definition tags_body (c : ctx) (http_params str : mem) : option (ctx * (unit + bool)) :=
  let '(data, flen) := file (c_out c) in
  let page := object c data in
  tag ← starts_with page CGI_open;
  if (tag : bool) then
    let scriptptr := dadd data 6 in
    let scriptlen := s32 (flen - 6) in
    p ← strstr (object c scriptptr) CGI_close;
    match p with
    | Some k =>
        c ← ctx_run c http_params str scriptptr k;
        Some (with_out c (set_file (c_out c) (dadd scriptptr (k + 2), u32 (scriptlen - (k + 2)))), inl ())
    | None => Some (with_out c (set_file (c_out c) (scriptptr, u32 scriptlen)), inr false)
    end
  else
    let mss := uip_mss (c_u c) in
    let len := if mss <? flen then mss else s32 flen in
    x ← head page;
    ptr ← (if x =? ISO_minor then r ← strchr (tail page) ISO_minor; Some (option_map Z.succ r) else strchr page ISO_minor);
    let len := match ptr with
               | Some k => if negb (k =? 0) then (if mss <=? k then mss else k) else len
               | None => len
               end in
    Some (with_out c (set_h_len (c_out c) len), inr true).

(** After the part has been sent. *)
Definition tags_part_sent (c : ctx) : ctx :=
  let '(data, flen) := file (c_out c) in
  let n := h_len (c_out c) in
  with_out c (set_file (c_out c) (dadd data n, u32 (flen - n))).

(** [handle_elua_tags] from the test of the loop on. *)
Fixpoint tags_loop (fuel : nat) (c : ctx) (http_params str : mem) : option (ctx * bool) :=
  match fuel with
  | O => None
  | S fuel =>
      if 0 <? (file (c_out c)).2 then
        '(c, next) ← tags_body c http_params str;
        match next with
        | inl _ => script_wait ScTagOut (http_output_elua c) (λ c, tags_loop fuel c http_params str)
        | inr true => script_wait ScTagPart (send_part_of_file c) (λ c, tags_loop fuel (tags_part_sent c) http_params str)
        | inr false => tags_loop fuel c http_params str
        end
      else script_end c
  end.

Definition handle_elua_tags (fuel : nat) (c : ctx) (http_params str : mem) : option (ctx * bool) :=
  match scriptpt (c_out c) with
  | Sc0 => tags_loop fuel c http_params str
  | ScTagOut => script_wait ScTagOut (http_output_elua c) (λ c, tags_loop fuel c http_params str)
  | ScTagPart => script_wait ScTagPart (send_part_of_file c) (λ c, tags_loop fuel (tags_part_sent c) http_params str)
  | ScScriptOut => None
  end.

(** [handle_output]. *)
Context {card : FileSystem}.

Definition output_wait (l : output_lc) (r : option (ctx * bool)) (k : ctx → option (ctx * bool)) : option (ctx * bool) :=
  '(c, w) ← r;
  if (w : bool) then Some (with_out c (set_outputpt (c_out c) l), true) else k c.

(** [PSOCK_CLOSE] and [PT_END] *)
Definition output_end (c : ctx) : option (ctx * bool) :=
  Some (with_out (with_u c (uip_close (c_u c))) (set_outputpt (c_out c) O0), false).

Definition output_file (l : output_lc) (c : ctx) : option (ctx * bool) :=
  output_wait l (send_file (S (Z.to_nat (file (c_out c)).2)) c) output_end.

Definition output_tags (fuel : nat) (c : ctx) (http_params str : mem) : option (ctx * bool) :=
  output_wait OTags (handle_elua_tags fuel c http_params str) output_end.

Definition output_scripts (c : ctx) (http_params str : mem) : option (ctx * bool) :=
  output_wait OScripts (handle_elua_scripts c http_params str) output_end.

Definition set_new_pht_page (c : ctx) : ctx :=
  let l := c_lua c in Ctx (c_u c) (c_g c) (c_out c) (Hlua (hl_L l) (write_buffer l) (write_buffer_len l) true).

Definition script_init (c : ctx) : ctx := with_out c (set_scriptpt (c_out c) Sc0).

(** The dispatch on the part of the name from its first dot on. *)
Definition output_body (fuel : nat) (c : ctx) (filename http_params str : mem) : option (ctx * bool) :=
  ptr ← strchr filename ISO_period;
  match ptr with
  | None => output_file OFile c
  | Some k =>
      let ptr := drop (Z.to_nat k) filename in
      pht ← strneq 4 ptr http_pht;
      if (pht : bool) then output_tags fuel (script_init (set_new_pht_page c)) http_params str
      else
        lua ← strneq 4 ptr http_lua;
        if (lua : bool) then output_scripts (script_init c) http_params str else output_file OFile c
  end.

Definition output_headers404 (c : ctx) (filename : mem) : option (ctx * bool) :=
  output_wait OHeaders404 (send_headers c filename http_header_404) (output_file OFile404).

Definition output_headers (fuel : nat) (c : ctx) (filename http_params str : mem) : option (ctx * bool) :=
  output_wait OHeaders (send_headers c filename http_header_200) (λ c, output_body fuel c filename http_params str).

Definition set_filename (i : hin) (f : mem) : hin := Hin (sin_pt i) (sin i) (inputbuf i) f (http_params i) (h_state i).

(** The beginning: the file or, when it cannot be opened, the page "/404.html", whether or not that one can. *)
Definition output_open (c : ctx) (i : hin) : option (ctx * hin * bool) :=
  '(fs, f, ok) ← httpd_fs_open (g_fs (c_g c)) (filename i) (file (c_out c));
  if (ok : bool) then Some (Ctx (c_u c) (set_fs (c_g c) fs) (set_file (c_out c) f) (c_lua c), i, true)
  else
    '(fs, f, _) ← httpd_fs_open fs http_404_html f;
    fname ← c_strcpy (filename i) http_404_html;
    Some (Ctx (c_u c) (set_fs (c_g c) fs) (set_file (c_out c) f) (c_lua c), set_filename i fname, false).

(** The calls after the first. *)
Definition output_resume (fuel : nat) (c : ctx) (filename http_params str : mem) : option (ctx * bool) :=
  match outputpt (c_out c) with
  | OHeaders404 => output_headers404 c filename
  | OFile404 => output_file OFile404 c
  | OHeaders => output_headers fuel c filename http_params str
  | OTags => output_tags fuel c http_params str
  | OScripts => output_scripts c http_params str
  | OFile => output_file OFile c
  | O0 => None
  end.

Definition handle_output (fuel : nat) (c : ctx) (i : hin) (str : mem) : option (ctx * hin) :=
  match outputpt (c_out c) with
  | O0 =>
      '(c, i, ok) ← output_open c i;
      '(c, _) ← (if (ok : bool) then output_headers fuel c (filename i) (http_params i) str
                 else output_headers404 c (filename i));
      Some (c, i)
  | _ => '(c, _) ← output_resume fuel c (filename i) (http_params i) str; Some (c, i)
  end.

(** ** The input thread *)
Definition in_readto (u : uip) (i : hin) (c : Z) : option (hin * bool) :=
  '(s, buf, r) ← psock_readto u (sin i) (inputbuf i) c;
  Some (Hin (sin_pt i) s buf (filename i) (http_params i) (h_state i), r =? PT_WAITING).

Definition set_sin_pt (i : hin) (l : in_lc) : hin := Hin l (sin i) (inputbuf i) (filename i) (http_params i) (h_state i).
Definition set_inputbuf (i : hin) (b : mem) : hin := Hin (sin_pt i) (sin i) b (filename i) (http_params i) (h_state i).

(** [PSOCK_CLOSE_EXIT] *)
Definition in_close_exit (u : uip) (i : hin) : option (uip * hin) := Some (uip_close u, set_sin_pt i InMethod).

(** The lines of the headers are read and forgotten. *)
Fixpoint in_headers (fuel : nat) (u : uip) (i : hin) : option (uip * hin) :=
  match fuel with
  | O => None
  | S fuel =>
      '(i, w) ← in_readto u i ISO_nl;
      if (w : bool) then Some (u, set_sin_pt i InHeaders)
      else
        ref ← strneq 8 (inputbuf i) http_referer;
        if (ref : bool) then buf ← st (inputbuf i) (psock_datalen (sin i) - 2) 0; in_headers fuel u (set_inputbuf i buf)
        else in_headers fuel u i
  end.

(** The path in [inputbuf]: the file's name and the parameters. *)
Definition in_request (i : hin) : option hin :=
  c1 ← ld (inputbuf i) 1;
  if c1 =? ISO_space then
    f ← c_strncpy (replicate (length (filename i)) 0) http_index_pht 11;
    Some (Hin (sin_pt i) (sin i) (inputbuf i) f (http_params i) STATE_OUTPUT)
  else
    buf ← st (inputbuf i) (psock_datalen (sin i) - 1) 0;
    q ← strchr buf ISO_question;
    match q with
    | Some k =>
        buf ← st buf k 0;
        f ← c_strcpy (filename i) buf;
        p ← c_strcpy (http_params i) (drop (Z.to_nat (k + 1)) buf);
        Some (Hin (sin_pt i) (sin i) buf f p STATE_OUTPUT)
    | None =>
        f ← c_strncpy (filename i) buf (msize (filename i));
        p ← st (http_params i) 0 0;
        Some (Hin (sin_pt i) (sin i) buf f p STATE_OUTPUT)
    end.

Definition in_fuel (u : uip) (i : hin) : nat := S (S (Z.to_nat (readlen (sin i) + uip_len u))).

Definition in_path (u : uip) (i : hin) : option (uip * hin) :=
  '(i, w) ← in_readto u i ISO_space;
  if (w : bool) then Some (u, set_sin_pt i InPath)
  else
    c0 ← ld (inputbuf i) 0;
    if negb (c0 =? ISO_slash) then in_close_exit u i
    else i ← in_request i; in_headers (in_fuel u i) u i.

Definition in_method (u : uip) (i : hin) : option (uip * hin) :=
  '(i, w) ← in_readto u i ISO_space;
  if (w : bool) then Some (u, set_sin_pt i InMethod)
  else
    get ← strneq 4 (inputbuf i) http_get;
    if negb get then in_close_exit u i else in_path u i.

Definition handle_input (u : uip) (i : hin) : option (uip * hin) :=
  match sin_pt i with
  | InMethod => in_method u i
  | InPath => in_path u i
  | InHeaders => in_headers (in_fuel u i) u i
  end.

(** ** The application call *)
Definition handle_connection (fuel : nat) (g : globals V) (s : httpd_state) (u : uip) (str : mem) : option (globals V * httpd_state * uip) :=
  '(u, i) ← handle_input u (h_in s);
  '(c, i) ← (let c := Ctx u g (h_out s) (h_lua s) in
             if h_state i =? STATE_OUTPUT then handle_output fuel c i str else Some (c, i));
  Some (c_g c, HttpdState (timer s) (ripaddr s) (http_connection_nr s) i (c_out c) (c_lua c), c_u c).

(** [uip_connected()]: the threads begin; [scriptpt] and [file] keep their values. *)
Definition conn_init (s : httpd_state) : httpd_state :=
  let i := h_in s in let o := h_out s in
  HttpdState 0 (ripaddr s) (http_connection_nr s)
    (Hin InMethod (psock_init (sin i) 49) (inputbuf i) (default (filename i) (st (filename i) 0 0)) (http_params i) STATE_WAITING)
    (Hout SO0 (psock_init (sout o) 49) O0 (scriptpt o) (file o) 0) (h_lua s).

Definition set_timer (s : httpd_state) (t : Z) : httpd_state :=
  HttpdState t (ripaddr s) (http_connection_nr s) (h_in s) (h_out s) (h_lua s).

Definition set_client (s : httpd_state) (rip : Z * Z) (nr : Z) (L : option Z) : httpd_state :=
  let l := h_lua s in
  HttpdState (timer s) rip nr (h_in s) (h_out s) (Hlua L (write_buffer l) (write_buffer_len l) (new_pht_page l)).

(** The entry of an address, and the table after the call. *)
Definition client_find (conns : list (option Z * (Z * Z))) (rip : Z * Z) : option (nat * (option Z * (Z * Z))) :=
  list_find (λ e, e.2 = rip) conns.

Definition client_enter (conns : list (option Z * (Z * Z))) (s : httpd_state) : list (option Z * (Z * Z)) * Z :=
  let e := (hl_L (h_lua s), ripaddr s) in
  match client_find conns (0, 0) with
  | Some (i, _) => (<[i := e]> conns, Z.of_nat i)
  | None =>
      let nr := if http_connection_nr s <? WEB_MAX_CLIENT - 1 then http_connection_nr s + 1 else 0 in
      (<[Z.to_nat nr := e]> conns, nr)
  end.

Definition httpd_appcall (fuel : nat) (g : globals V) (s : httpd_state) (u : uip) (rip : Z * Z) (str : mem) :
    option (globals V * httpd_state * uip) :=
  let found := client_find (g_conn g) rip in
  let s := match found with
           | Some (i, e) => set_client s rip (Z.of_nat i) e.1
           | None => set_client s rip (http_connection_nr s) None
           end in
  '(g, s, u) ← (if uip_flag u UIP_CLOSE || uip_flag u UIP_ABORT || uip_flag u UIP_TIMEDOUT then Some (g, s, u)
                else if uip_flag u UIP_CONNECTED then handle_connection fuel g (conn_init s) u str
                else
                  let '(s, u) := if uip_flag u UIP_POLL then
                                   let t := u8 (timer s + 1) in (set_timer s t, if 20 <=? t then uip_abort u else u)
                                 else (set_timer s 0, u) in
                  handle_connection fuel g s u str);
  Some (match found with
        | None =>
            let '(conns, nr) := client_enter (g_conn g) s in
            (set_conn g conns, HttpdState (timer s) (ripaddr s) nr (h_in s) (h_out s) (h_lua s), u)
        | Some _ =>
            (set_conn g (alter (λ e, (hl_L (h_lua s), e.2)) (Z.to_nat (http_connection_nr s)) (g_conn g)), s, u)
        end).
End lua.
