(* ===== verification/HttpInput.v ===== *)
(** * What the web server makes of a request

    Theorems about the input thread of Httpd and about the decoding of the parameters: the request line gives the
    file's name and the query, however the network cuts the request, and the query gives the assignments to the
    table [reqdata]. *)
From S2P Require Import Prelude Psock Httpd.

(** ** The query

    A query is a list of keys and values; "+" stands for a space. *)
Definition plus (x : Z) : Z := if x =? ch "+" then ch " " else x.

Definition decoded (kvs : list (list Z * list Z)) : list (list Z * list Z) :=
  map (λ kv, (map plus kv.1, map plus kv.2)) kvs.

(** The characters of a key or a value. *)
Definition field_char (x : Z) : Prop := byte_ok x ∧ x ≠ 0 ∧ x ≠ ch "=" ∧ x ≠ ch "&".

Definition field_ok (f : list Z) : Prop := Forall field_char f ∧ msize f <= 19.

Fixpoint query (kvs : list (list Z * list Z)) : list Z :=
  match kvs with
  | [] => []
  | [(k, v)] => k ++ ch "=" :: v
  | (k, v) :: kvs => k ++ ch "=" :: v ++ ch "&" :: query kvs
  end.

(** Every key and value fits [str]; the last value is not empty. *)
Definition query_ok (kvs : list (list Z * list Z)) : Prop :=
  Forall (λ kv, field_ok kv.1 ∧ field_ok kv.2) kvs ∧ ∀ kv, last kvs = Some kv → kv.2 ≠ [].

Lemma plus_char x : field_char x → byte_ok (plus x) ∧ plus x ≠ 0.
Proof. unfold field_char, plus. intros (H1 & H2 & _). destruct (x =? ch "+"); [split; [split|]; done|done]. Qed.

Lemma plus_field f : Forall field_char f → bytes_ok (plus <$> f) ∧ Forall (λ x, x ≠ 0) (plus <$> f).
Proof.
  intros H. unfold bytes_ok. rewrite !Forall_fmap. split; (eapply Forall_impl; [exact H|]); intros x Hx; apply (plus_char x Hx).
Qed.

(** The state of the loop: [acc] is the field read so far. *)
Definition reads_field (p : params) (acc : list Z) (pair : bool) (pushed : list (list Z)) (sets : list (list Z * list Z)) : Prop :=
  p_c p = msize acc ∧ bytes_at (p_str p) 0 acc ∧ msize (p_str p) = 20 ∧ p_pair p = pair ∧ p_pushed p = pushed ∧ p_sets p = sets.

Lemma st_append (m acc : mem) x :
  bytes_at m 0 acc → msize acc < msize m → ∃ m', st m (msize acc) x = Some m' ∧ bytes_at m' 0 (acc ++ [u8 x]) ∧ msize m' = msize m.
Proof.
  intros Hb Hs. pose proof (msize_nonneg acc). rewrite st_mwrite. destruct (mwrite_is_Some m (msize acc) [u8 x]) as [m' Hw]; [lia|change (msize [u8 x]) with 1; lia|].
  exists m'. split; [done|]. split; [|by eapply mwrite_msize]. apply bytes_at_app. split.
  - unfold bytes_at in *. rewrite <- Hb. apply (mread_mwrite_disjoint _ _ _ _ _ _ Hw). lia.
  - exact (bytes_at_mwrite _ _ _ _ Hw).
Qed.

Lemma cstr_front m acc : Forall (λ x, x ≠ 0) acc → bytes_at m 0 (acc ++ [0]) → cstr m = Some acc.
Proof.
  intros Hnz Hb. unfold bytes_at in Hb. apply mread_spec in Hb as (_ & _ & _ & E). change (Z.to_nat 0) with 0%nat in E. rewrite drop_0 in E.
  rewrite <- (take_drop (Z.to_nat (msize (acc ++ [0]))) m), <- E, <- app_assoc. cbn [app]. by apply cstr_app.
Qed.

Lemma push_field p acc pair pushed sets :
  reads_field p acc pair pushed sets → Forall (λ x, x ≠ 0) acc → msize acc < 20 →
  ∃ p', p_push p = Some p' ∧ p_pair p' = pair ∧ p_pushed p' = pushed ++ [acc] ∧ p_sets p' = sets ∧ msize (p_str p') = 20.
Proof.
  intros (Hc & Hb & Hs & <- & <- & <-) Hnz Hl. unfold p_push. rewrite Hc. destruct (st_append _ _ 0 Hb ltac:(lia)) as (m & -> & Hm & Hms).
  cbn [mbind option_bind]. rewrite (cstr_front m acc Hnz Hm). cbn. eexists. split; [done|]. split; [done|]. split; [done|]. split; [done|]. cbn. lia.
Qed.

Lemma empty_field p : msize (p_str p) = 20 → p_c p = 0 → reads_field p [] (p_pair p) (p_pushed p) (p_sets p).
Proof. intros H Hc. split; [done|]. split; [|done]. unfold bytes_at, mread. rewrite msize_nil, decide_True; [done|]. cbn. lia. Qed.

Section step.
Context (hp : mem).

Lemma step_char p acc pair pushed sets i x :
  reads_field p acc pair pushed sets → ld hp i = Some x → field_char x → msize acc < 20 →
  ∃ p', param_step hp p i = Some (inl p') ∧ reads_field p' (acc ++ [plus x]) pair pushed sets.
Proof.
  intros (Hc & Hb & Hs & <- & <- & <-) Hx (Hok & H0 & He & Ha) Hl. unfold param_step. rewrite Hx. cbn [mbind option_bind].
  assert ((if negb (x =? ch "+") then x else ch " ") = plus x) as -> by (unfold plus; by destruct (x =? ch "+")).
  rewrite Hc. destruct (st_append _ _ (plus x) Hb ltac:(lia)) as (m & -> & Hm & Hms). cbn [mbind option_bind p_pair p_c].
  rewrite (proj2 (Z.eqb_neq x (ch "="))), (proj2 (Z.eqb_neq x 0)), (proj2 (Z.eqb_neq x (ch "&"))) by done. cbn [mbind option_bind andb].
  eexists. split; [done|]. rewrite (u8_id (plus x)) in Hm by (by apply plus_char).
  split; [cbn [set_c p_c p_pair]; rewrite msize_app; done|]. split; [done|]. split; [cbn; lia|]. done.
Qed.

Lemma step_eq p acc pair pushed sets i y :
  reads_field p acc pair pushed sets → ld hp i = Some (ch "=") → ld hp (i + 1) = Some y → y ≠ 0 →
  Forall (λ x, x ≠ 0) acc → msize acc < 20 →
  ∃ p', param_step hp p i = Some (inl p') ∧ reads_field p' [] true (pushed ++ [acc]) sets.
Proof.
  intros (Hc & Hb & Hs & <- & <- & <-) Hx Hy Hy0 Hnz Hl. unfold param_step. rewrite Hx. cbn [mbind option_bind].
  rewrite Hc. destruct (st_append _ _ (if negb (ch "=" =? ch "+") then ch "=" else ch " ") Hb ltac:(lia)) as (m & -> & Hm & Hms). cbn [mbind option_bind].
  rewrite Z.eqb_refl, Hy. cbn [mbind option_bind]. rewrite (proj2 (Z.eqb_neq y 0)) by done. cbn [negb].
  set (p1 := Params m _ _ _ _). apply bytes_at_app in Hm as [Hm _].
  destruct (push_field p1 acc (p_pair p) (p_pushed p) (p_sets p)) as (p2 & -> & E1 & E2 & E3 & E4); [split_and!; done || cbn; lia|done|done|].
  cbn [mbind option_bind]. change (ch "=" =? 0) with false. change (ch "=" =? ch "&") with false. cbn [andb mbind option_bind].
  eexists. split; [done|]. rewrite <- E2, <- E3. exact (empty_field (set_c p2 0 true) E4 eq_refl).
Qed.

Lemma step_set p acc k sets i :
  reads_field p acc true [k] sets → ld hp i = Some (ch "&") → Forall (λ x, x ≠ 0) acc → msize acc < 20 →
  ∃ p', param_step hp p i = Some (inl p') ∧ reads_field p' [] false [] (sets ++ [(k, acc)]).
Proof.
  intros (Hc & Hb & Hs & Hp & Hk & <-) Hx Hnz Hl. unfold param_step. rewrite Hx. cbn [mbind option_bind].
  rewrite Hc. destruct (st_append _ _ (if negb (ch "&" =? ch "+") then ch "&" else ch " ") Hb ltac:(lia)) as (m & -> & Hm & Hms). cbn [mbind option_bind].
  change (ch "&" =? ch "=") with false. change (ch "&" =? 0) with false. rewrite Z.eqb_refl. cbn [mbind option_bind andb p_pair]. rewrite Hp.
  set (p1 := Params m _ _ _ _). apply bytes_at_app in Hm as [Hm _].
  destruct (push_field p1 acc true [k] (p_sets p)) as (p2 & -> & E1 & E2 & E3 & E4); [split_and!; done || cbn; lia|done|done|].
  cbn [mbind option_bind]. unfold p_settable. rewrite E2. cbn [app mbind option_bind].
  eexists. split; [done|]. rewrite <- E3. exact (empty_field (Params (p_str p2) 0 false [] (p_sets p2 ++ [(k, acc)])) E4 eq_refl).
Qed.

Lemma step_end p acc k sets i :
  reads_field p acc true [k] sets → ld hp i = Some 0 → Forall (λ x, x ≠ 0) acc → msize acc < 20 →
  ∃ p', param_step hp p i = Some (inr p') ∧ p_sets p' = sets ++ [(k, acc)] ∧ p_pushed p' = [].
Proof.
  intros (Hc & Hb & Hs & Hp & Hk & <-) Hx Hnz Hl. unfold param_step. rewrite Hx. cbn [mbind option_bind].
  rewrite Hc. destruct (st_append _ _ (if negb (0 =? ch "+") then 0 else ch " ") Hb ltac:(lia)) as (m & -> & Hm & Hms). cbn [mbind option_bind].
  change (0 =? ch "=") with false. change (0 =? 0) with true. cbn [mbind option_bind andb p_pair]. rewrite Hp.
  set (p1 := Params m _ _ _ _). apply bytes_at_app in Hm as [Hm _].
  destruct (push_field p1 acc true [k] (p_sets p)) as (p2 & -> & E1 & E2 & E3 & E4); [split_and!; done || cbn; lia|done|done|].
  cbn [mbind option_bind]. unfold p_settable. rewrite E2. cbn [app mbind option_bind].
  eexists. split; [done|]. rewrite <- E3. done.
Qed.
End step.

(** ** The loop *)
Section decode.
Context (hp : mem).

Lemma param_loop_S n p i p' : param_step hp p i = Some (inl p') → param_loop (S n) hp p i = param_loop n hp p' (i + 1).
Proof. intros E. cbn [param_loop]. by rewrite E. Qed.

Lemma loop_field f n p acc pair pushed sets i :
  reads_field p acc pair pushed sets → bytes_at hp i f → Forall field_char f → msize acc + msize f < 20 →
  ∃ p', param_loop (length f + n) hp p i = param_loop n hp p' (i + msize f) ∧
    reads_field p' (acc ++ (plus <$> f)) pair pushed sets.
Proof.
  revert p acc i. induction f as [|x f IH]; intros p acc i Hp Hb Hf Hl.
  { exists p. rewrite msize_nil, Z.add_0_r, app_nil_r. done. }
  apply bytes_at_cons in Hb as [Hx Hb]. apply Forall_cons in Hf as [Hxc Hf]. rewrite msize_cons in Hl. pose proof (msize_nonneg f).
  destruct (step_char hp p acc pair pushed sets i x Hp Hx Hxc ltac:(lia)) as (p1 & E1 & Hp1).
  cbn [length Nat.add]. rewrite (param_loop_S _ _ _ _ E1).
  destruct (IH p1 (acc ++ [plus x]) (i + 1) Hp1 Hb Hf) as (p2 & E2 & Hp2); [rewrite msize_app; change (msize [plus x]) with 1; lia|].
  exists p2. rewrite E2, msize_cons. split; [f_equal; lia|]. cbn [fmap list_fmap]. by rewrite <- app_assoc in Hp2.
Qed.

(** A key and its "=", with [x] the character after it. *)
Lemma loop_key k n p pushed sets i x :
  reads_field p [] false pushed sets → bytes_at hp i (k ++ [ch "="; x]) → field_ok k → x ≠ 0 →
  ∃ p', param_loop (S (length k) + n) hp p i = param_loop n hp p' (i + msize k + 1) ∧
    reads_field p' [] true (pushed ++ [plus <$> k]) sets.
Proof.
  intros Hp Hb [Hk Hl] Hx. apply bytes_at_app in Hb as [Hb He]. apply bytes_at_cons in He as [He Hn]. apply bytes_at_cons in Hn as [Hn _].
  destruct (loop_field k (S n) p [] false pushed sets i Hp Hb Hk) as (p1 & E1 & Hp1); [rewrite msize_nil; lia|].
  destruct (step_eq hp p1 (plus <$> k) false pushed sets (i + msize k) x Hp1 He Hn Hx) as (p2 & E2 & Hp2);
    [by apply plus_field|unfold msize in *; rewrite length_fmap; lia|].
  exists p2. cbn [Nat.add]. rewrite <- Nat.add_succ_r, E1. rewrite (param_loop_S _ _ _ _ E2). done.
Qed.

Lemma loop_query kvs n p sets i :
  kvs ≠ [] → query_ok kvs → reads_field p [] false [] sets → bytes_at hp i (query kvs ++ [0]) →
  ∃ p', param_loop (S (length (query kvs)) + n) hp p i = Some p' ∧ p_pushed p' = [] ∧
    p_sets p' = sets ++ decoded kvs.
Proof.
  revert p sets i. induction kvs as [|[k v] kvs IH]; intros p sets i Hne [Hok Hlast] Hp Hb; [done|].
  apply Forall_cons in Hok as [[Hk Hv] Hok]. cbn [fst snd] in Hk, Hv.
  assert (∀ l, Forall field_char l → msize l <= 19 → Forall (λ x, x ≠ 0) (plus <$> l) ∧ msize (plus <$> l) < 20) as Hplus.
  { intros l H1 H2. split; [by apply plus_field|]. unfold msize in *. rewrite length_fmap. lia. }
  destruct kvs as [|kv' kvs].
  - cbn [query] in *. specialize (Hlast (k, v) eq_refl). cbn in Hlast. destruct v as [|y v]; [done|].
    assert (y ≠ 0) as Hy by (destruct Hv as [Hv _]; apply Forall_cons in Hv as [(_ & ? & _) _]; done).
    rewrite <- app_assoc in Hb. cbn [app] in Hb.
    destruct (loop_key k (length (y :: v) + (1 + n)) p [] sets i y Hp) as (p1 & E1 & Hp1); [|done|done|].
    { change (ch "=" :: y :: v ++ [0]) with ([ch "="; y] ++ v ++ [0]) in Hb. rewrite app_assoc in Hb. by apply bytes_at_app in Hb as [Hb _]. }
    change (ch "=" :: y :: v ++ [0]) with ([ch "="] ++ (y :: v) ++ [0]) in Hb. apply bytes_at_app in Hb as [_ Hb]. apply bytes_at_app in Hb as [_ Hb].
    apply bytes_at_app in Hb as [Hbv Hbz]. change (msize [ch "="]) with 1 in *.
    destruct Hv as [Hv Hvl].
    destruct (loop_field (y :: v) (1 + n) p1 [] true [plus <$> k] sets (i + msize k + 1) Hp1 Hbv Hv) as (p2 & E2 & Hp2); [rewrite msize_nil; lia|].
    apply bytes_at_cons in Hbz as [Hz _]. destruct (Hplus _ Hv Hvl) as [Hnz Hlt].
    destruct (step_end hp p2 _ _ _ _ Hp2 Hz Hnz Hlt) as (p3 & E3 & Hs & Hpu).
    exists p3. split; [|done].
    replace (S (length (k ++ ch "=" :: y :: v)) + n)%nat with (S (length k) + (length (y :: v) + (1 + n)))%nat by (rewrite length_app; cbn [length]; lia).
    rewrite E1, E2. cbn [Nat.add param_loop]. by rewrite E3.
  - set (rest := query (kv' :: kvs)) in *. assert (query ((k, v) :: kv' :: kvs) = k ++ ch "=" :: v ++ ch "&" :: rest) as Eq by done. rewrite Eq in *.
    assert (∃ x tl, v ++ [ch "&"] = x :: tl ∧ x ≠ 0) as (x & tl & Ex & Hx).
    { destruct v as [|x v]; [by exists (ch "&"), []|]. exists x, (v ++ [ch "&"]). split; [done|]. destruct Hv as [Hv _]. apply Forall_cons in Hv as [(_ & ? & _) _]; done. }
    assert (bytes_at hp i (k ++ [ch "="] ++ (v ++ [ch "&"]) ++ rest ++ [0])) as Hb' by (rewrite <- !app_assoc in *; cbn [app] in *; by rewrite <- !app_assoc in Hb).
    destruct (loop_key k (length v + S (S (length rest) + n)) p [] sets i x Hp) as (p1 & E1 & Hp1); [|done|done|].
    { rewrite Ex in Hb'. change ([ch "="] ++ (x :: tl) ++ rest ++ [0]) with ([ch "="; x] ++ tl ++ rest ++ [0]) in Hb'. rewrite app_assoc in Hb'. by apply bytes_at_app in Hb' as [? _]. }
    apply bytes_at_app in Hb' as [_ Hb']. apply bytes_at_app in Hb' as [_ Hb']. apply bytes_at_app in Hb' as [Hbv Hbr]. apply bytes_at_app in Hbv as [Hbv Hba].
    change (msize [ch "="]) with 1 in *. destruct Hv as [Hv Hvl].
    destruct (loop_field v (S (S (length rest) + n)) p1 [] true [plus <$> k] sets (i + msize k + 1) Hp1 Hbv Hv) as (p2 & E2 & Hp2); [rewrite msize_nil; lia|].
    apply bytes_at_cons in Hba as [Ha _]. destruct (Hplus _ Hv Hvl) as [Hnz Hlt].
    destruct (step_set hp p2 _ _ _ _ Hp2 Ha Hnz Hlt) as (p3 & E3 & Hp3).
    rewrite msize_app, Z.add_assoc in Hbr. change (msize [ch "&"]) with 1 in Hbr.
    destruct (IH p3 _ (i + msize k + 1 + msize v + 1) ltac:(done) (conj Hok Hlast) Hp3 Hbr) as (p4 & E4 & Hpu & Hs).
    exists p4. split; [|split; [done|]].
    + replace (S (length (k ++ ch "=" :: v ++ ch "&" :: rest)) + n)%nat with (S (length k) + (length v + S (S (length rest) + n)))%nat
        by (rewrite !length_app; cbn [length]; rewrite length_app; cbn [length]; lia).
      rewrite E1, E2. rewrite (param_loop_S _ _ _ _ E3). exact E4.
    + rewrite Hs, <- app_assoc. done.
Qed.
End decode.

(** The parameters of a request decode to the keys and values of the query, in order, with a space for each "+",
    and nothing is left on the interpreter's stack, as long as every key and value has at most 19 characters and the
    query is at most 29 characters long; whatever [str] and the rest of the field held before. *)
Theorem params_decode_query kvs rest str :
  kvs ≠ [] → query_ok kvs → msize (query kvs ++ 0 :: rest) = 30 → msize str = 20 →
  ∃ p, parse_params (query kvs ++ 0 :: rest) str = Some p ∧ p_pushed p = [] ∧
    p_sets p = decoded kvs.
Proof.
  intros Hne Hok Hl Hs. unfold parse_params. rewrite Hl. set (hp := query kvs ++ 0 :: rest) in *.
  destruct (loop_query hp kvs (length rest) (Params str 0 false [] []) [] 0) as (p & E & H1 & H2); [done|done| | |].
  - split; [done|]. split; [|done]. unfold bytes_at, mread. rewrite msize_nil, decide_True; [done|]. cbn. lia.
  - pose proof (bytes_at_prefix hp [] (query kvs ++ [0]) rest) as Hb. rewrite <- app_assoc in Hb. by apply Hb.
  - exists p. split; [|done]. rewrite <- E. f_equal. unfold hp, msize in Hl. rewrite length_app in Hl. cbn [length] in Hl. lia.
Qed.

(** ** The request line *)

(** The name and the query that a path gives; [None]: the parameters of the connection's last request stay. *)
Inductive path_names : list Z → list Z → option (list Z) → Prop :=
| path_index : path_names [ISO_slash] (txt "/index.pht") None
| path_query name q :
    ISO_question ∉ name → head name = Some ISO_slash → msize name <= 19 → msize q <= 29 → path_names (name ++ ISO_question :: q) name (Some q)
| path_plain name :
    ISO_question ∉ name → head name = Some ISO_slash → 1 < msize name → msize name <= 19 → path_names name name (Some []).

Definition path_ok (path : list Z) : Prop :=
  Forall (λ x, byte_ok x ∧ x ≠ 0 ∧ x ≠ ISO_space) path ∧ msize path <= 48.

(** The sizes of the buffers, and the fields that reading does not change. *)
Definition in_dims (i : hin) : Prop :=
  bufsize (sin i) = 49 ∧ msize (inputbuf i) = 50 ∧ msize (filename i) = 20 ∧ msize (http_params i) = 30.

Definition requested (i : hin) (hp : mem) (name : list Z) (q : option (list Z)) : Prop :=
  h_state i = STATE_OUTPUT ∧ cstr (filename i) = Some name ∧
  match q with Some q => cstr (http_params i) = Some q | None => http_params i = hp end.

Lemma front_at (m acc : mem) : bytes_at m 0 acc → ∃ rest, m = acc ++ rest.
Proof. apply front_split. Qed.

Lemma kept_all i acc : bufsize (sin i) = 49 → msize acc <= 49 → kept (sin i) acc = acc.
Proof. intros E H. unfold kept. rewrite E. apply take_ge. unfold msize in H. lia. Qed.

(** [strcpy] into a field that is large enough. *)
Lemma strcpy_cstr (dst src : mem) s :
  cstr src = Some s → msize s < msize dst → ∃ m, c_strcpy dst src = Some m ∧ cstr m = Some s ∧ msize m = msize dst.
Proof.
  intros Hs Hl. unfold c_strcpy. rewrite Hs. cbn [mbind option_bind].
  destruct (mwrite_is_Some dst 0 (s ++ [0])) as [m Hw]; [lia|rewrite msize_app; change (msize [0]) with 1; lia|].
  exists m. split; [done|]. split; [|by eapply mwrite_msize]. destruct (cstr_inv _ _ Hs) as [Hnz _].
  apply cstr_front; [done|]. exact (bytes_at_mwrite _ _ _ _ Hw).
Qed.

(** The buffer after the end of the path has been overwritten by 0. *)
Lemma terminate (i : hin) path :
  in_dims i → fill (sin i) (inputbuf i) (path ++ [ISO_space]) → msize path <= 48 →
  ∃ buf rest, st (inputbuf i) (psock_datalen (sin i) - 1) 0 = Some buf ∧ buf = path ++ 0 :: rest ∧ msize buf = 50.
Proof.
  intros (Hz & Hb & _) (H1 & H2 & H3 & _) Hl. assert (msize (path ++ [ISO_space]) = msize path + 1) as El by by rewrite msize_app.
  pose proof (msize_nonneg path). rewrite (kept_all i _ Hz) in H1, H2, H3 by lia.
  unfold psock_datalen. rewrite H2, El, (u16_id _) by lia. replace (bufsize (sin i) - (bufsize (sin i) - (msize path + 1)) - 1) with (msize path) by lia.
  apply bytes_at_app in H3 as [Hp _]. destruct (st_append (inputbuf i) path 0 Hp ltac:(lia)) as (buf & Hst & Hbuf & Hsz).
  destruct (front_at _ _ Hbuf) as [rest E]. exists buf, rest. split; [done|]. rewrite <- app_assoc in E. split; [done|lia].
Qed.

Lemma path_chars path : path_ok path → Forall (λ x, x ≠ 0) path.
Proof. intros [H _]. eapply Forall_impl; [exact H|]. cbn. tauto. Qed.

Lemma no_question (l : list Z) : Forall (λ x, x ≠ 0) l → ISO_question ∉ l → Forall (λ x, x ≠ 0 ∧ x ≠ ISO_question) l.
Proof. intros H Hn. apply Forall_forall. intros x Hx. rewrite Forall_forall in H. split; [by apply H|]. by intros ->. Qed.

Lemma second_char path : path_ok path → 1 < msize path → ∃ x, (path ++ [ISO_space]) !! 1%nat = Some x ∧ x ≠ ISO_space.
Proof.
  intros [H _] Hl. destruct path as [|a [|x path]]; [unfold msize in Hl; cbn [length] in Hl; lia..|]. exists x. split; [done|].
  rewrite !Forall_cons in H. tauto.
Qed.

Lemma second_byte i path :
  in_dims i → fill (sin i) (inputbuf i) (path ++ [ISO_space]) → 1 <= msize path <= 48 → ld (inputbuf i) 1 = (path ++ [ISO_space]) !! 1%nat.
Proof.
  intros (Hz & _) (_ & _ & H3 & _) Hl. assert (msize (path ++ [ISO_space]) <= 49) by (rewrite msize_app; change (msize [ISO_space]) with 1; lia).
  rewrite (kept_all i _ Hz) in H3 by done. destruct (front_at _ _ H3) as [rest ->]. unfold ld. rewrite decide_True by lia. change (Z.to_nat 1) with 1%nat.
  rewrite lookup_app_l; [done|]. rewrite length_app. cbn [length]. unfold msize in Hl. lia.
Qed.

Lemma path_names_size path name q : path_names path name q → 1 <= msize path.
Proof.
  intros [|n q' _ Hh _ _|n _ Hh Hgt _]; [done| |lia]. destruct n; [done|]. rewrite msize_app, !msize_cons.
  pose proof (msize_nonneg n). pose proof (msize_nonneg q'). lia.
Qed.

Lemma in_request_ok i path name q :
  in_dims i → fill (sin i) (inputbuf i) (path ++ [ISO_space]) → path_ok path → path_names path name q →
  ∃ i', in_request i = Some i' ∧ requested i' (http_params i) name q ∧ in_dims i' ∧ sin i' = sin i ∧ sin_pt i' = sin_pt i.
Proof.
  intros Hd Hf Hok Hn. pose proof Hd as (Hz & Hb & Hfn & Hhp). pose proof (path_chars _ Hok) as Hnz. pose proof (path_names_size _ _ _ Hn) as H1.
  pose proof Hok as [_ Hl]. unfold in_request. rewrite (second_byte i path) by done.
  destruct (terminate i path Hd Hf Hl) as (buf & rest & Hst & Eb & Hsz).
  destruct Hn as [|name q Hq Hh Hl1 Hl2|name Hq Hh Hgt Hl1].
  - cbn [app lookup list_lookup mbind option_bind]. change (ISO_space =? ISO_space) with true. cbv iota.
    destruct (strncpy_cstr (replicate (length (filename i)) 0) http_index_pht (txt "/index.pht") 11) as (f & -> & Hf' & Hs);
      [reflexivity|rewrite msize_replicate; fold (msize (filename i)); split; [done|lia]|]. cbn [mbind option_bind].
    eexists. split; [done|]. split; [done|]. split; [|done]. rewrite msize_replicate in Hs. split_and!; try done. cbn. rewrite Hs. done.
  - destruct (second_char (name ++ ISO_question :: q) Hok) as (x & -> & Hx).
    { destruct name; [done|]. rewrite msize_app, !msize_cons. pose proof (msize_nonneg name). pose proof (msize_nonneg q). lia. }
    cbn [mbind option_bind]. rewrite (proj2 (Z.eqb_neq x ISO_space)) by done. rewrite Hst. cbn [mbind option_bind].
    apply Forall_app in Hnz as [Hnz1 Hnz2]. apply Forall_cons in Hnz2 as [_ Hnz2]. rewrite <- app_assoc in Eb. cbn [app] in Eb.
    rewrite Eb, (strchr_spec name ISO_question (q ++ 0 :: rest)) by by apply no_question. cbn [mbind option_bind]. rewrite <- Eb.
    assert (st buf (msize name) 0 = Some (name ++ 0 :: q ++ 0 :: rest)) as ->.
    { rewrite Eb, st_spec by (rewrite msize_app, msize_cons; pose proof (msize_nonneg name); pose proof (msize_nonneg (q ++ 0 :: rest)); lia).
      unfold msize. rewrite Nat2Z.id. f_equal. rewrite <- (Nat.add_0_r (length name)), insert_app_r. done. }
    cbn [mbind option_bind].
    destruct (strcpy_cstr (filename i) (name ++ 0 :: q ++ 0 :: rest) name) as (f & -> & Hf1 & Hf2); [by apply cstr_app|lia|]. cbn [mbind option_bind].
    assert (drop (Z.to_nat (msize name + 1)) (name ++ 0 :: q ++ 0 :: rest) = q ++ 0 :: rest) as ->.
    { change (0 :: q ++ 0 :: rest) with ([0] ++ q ++ 0 :: rest). rewrite app_assoc. replace (Z.to_nat (msize name + 1)) with (length (name ++ [0]))
        by (rewrite length_app; unfold msize; cbn [length]; lia). apply drop_app_length. }
    destruct (strcpy_cstr (http_params i) (q ++ 0 :: rest) q) as (p & -> & Hp1 & Hp2); [by apply cstr_app|lia|]. cbn [mbind option_bind].
    eexists. split; [done|]. split; [done|]. split; [|done]. split_and!; try done; cbn; try lia.
    rewrite <- Hsz, Eb, !msize_app, !msize_cons. done.
  - destruct (second_char name Hok Hgt) as (x & -> & Hx).
    cbn [mbind option_bind]. rewrite (proj2 (Z.eqb_neq x ISO_space)) by done. rewrite Hst. cbn [mbind option_bind].
    rewrite Eb, (strchr_none name ISO_question rest) by (done || by apply no_question). cbn [mbind option_bind]. rewrite <- Eb.
    destruct (strncpy_cstr (filename i) buf name (msize (filename i))) as (f & -> & Hf1 & Hf2); [rewrite Eb; by apply cstr_app|lia|]. cbn [mbind option_bind].
    rewrite st_spec by lia. cbn [mbind option_bind].
    eexists. split; [done|]. split; [split; [done|split; [done|]]|].
    + cbn. destruct (http_params i) as [|x0 hp]; [done|]. done.
    + split; [|done]. split_and!; try done; cbn; try lia. unfold msize in *. rewrite length_insert. done.
Qed.

(** ** The input thread *)

(** The fields that reading does not change. *)
Definition in_same (i i' : hin) : Prop :=
  sin_pt i' = sin_pt i ∧ filename i' = filename i ∧ http_params i' = http_params i ∧ h_state i' = h_state i.

(** Between two calls: the thread waits with [acc] in the buffer, or has not begun. *)
Definition in_wait (i : hin) (acc : list Z) : Prop := in_dims i ∧ reading (sin i) (inputbuf i) acc ∧ drained (sin i).

Lemma in_waits u i acc c d :
  in_dims i → reading (sin i) (inputbuf i) acc → avail u (sin i) d → bytes_ok d → c ∉ d →
  ∃ i', in_readto u i c = Some (i', true) ∧ in_wait i' (acc ++ d) ∧ in_same i i'.
Proof.
  intros (Hz & Hb & Hfn & Hhp) Hr Ha Hok Hc. destruct (readto_waits u (sin i) (inputbuf i) acc c d Hr Ha Hok Hc) as (s & buf & E & Hp & Hr' & Hz' & Hb').
  unfold in_readto. rewrite E. cbn [mbind option_bind]. eexists. split; [done|]. split; [|done].
  split; [split_and!; try done; cbn; congruence|]. split; [done|]. unfold reading in Hr'. cbn. rewrite Hp in Hr'. tauto.
Qed.

Lemma in_ends u i acc c d1 d2 :
  in_dims i → reading (sin i) (inputbuf i) acc → avail u (sin i) (d1 ++ c :: d2) → bytes_ok (d1 ++ [c]) → c ∉ d1 →
  ∃ i', in_readto u i c = Some (i', false) ∧ fill (sin i') (inputbuf i') (acc ++ d1 ++ [c]) ∧ psockpt (sin i') = false ∧
    avail u (sin i') d2 ∧ in_dims i' ∧ in_same i i'.
Proof.
  intros (Hz & Hb & Hfn & Hhp) Hr Ha Hok Hc. destruct (readto_ends u (sin i) (inputbuf i) acc c d1 d2 Hr Ha Hok Hc) as (s & buf & E & Hp & Ha' & Hf & Hz' & Hb').
  unfold in_readto. rewrite E. cbn [mbind option_bind]. eexists. split; [done|]. split; [done|]. split; [done|]. split; [done|].
  split; [|done]. split_and!; try done; cbn; congruence.
Qed.

(** A thread that has just read a line reads the next one. *)
Lemma reading_again i : in_dims i → psockpt (sin i) = false → reading (sin i) (inputbuf i) [].
Proof. intros (Hz & Hb & _) Hp. unfold reading. rewrite Hp. split; [done|]. lia. Qed.

Lemma referer_line i line : fill (sin i) (inputbuf i) (line ++ [ISO_nl]) → in_dims i → strneq 8 (inputbuf i) http_referer = Some true →
  2 <= psock_datalen (sin i) <= 49.
Proof.
  intros (H1 & H2 & H3 & _) (Hz & _) Hs. assert (msize (line ++ [ISO_nl]) = msize line + 1) as El by by rewrite msize_app.
  rewrite (kept_size (sin i)) in H2 by lia. rewrite El in H2. pose proof (msize_nonneg line). unfold psock_datalen. rewrite H2, (u16_id _) by lia.
  split; [|lia]. destruct line as [|x line].
  - exfalso. apply strneq_head in Hs. rewrite (kept_all i) in H3 by done. destruct (front_at _ _ H3) as [rest E]. rewrite E in Hs. done.
  - rewrite msize_cons in *. pose proof (msize_nonneg line). lia.
Qed.

Lemma in_headers_ok fuel u i acc d :
  (length d < fuel)%nat → in_dims i → reading (sin i) (inputbuf i) acc → avail u (sin i) d → bytes_ok d →
  ∃ i' acc', in_headers fuel u i = Some (u, i') ∧ in_wait i' acc' ∧ sin_pt i' = InHeaders ∧
    filename i' = filename i ∧ http_params i' = http_params i ∧ h_state i' = h_state i.
Proof.
  revert i acc d. induction fuel as [|fuel IH]; intros i acc d Hl Hd Hr Ha Hok; [lia|]. cbn [in_headers].
  destruct (decide (ISO_nl ∈ d)) as [Hin|Hin].
  - destruct (list_elem_of_split_l _ _ Hin) as (d1 & d2 & -> & Hn1). rewrite length_app in Hl. cbn [length] in Hl.
    change (ISO_nl :: d2) with ([ISO_nl] ++ d2) in Hok. rewrite app_assoc in Hok. apply bytes_ok_app in Hok as [Hok1 Hok2].
    destruct (in_ends u i acc ISO_nl d1 d2 Hd Hr Ha Hok1 Hn1) as (i1 & -> & Hf1 & Hp1 & Ha1 & Hd1 & (_ & E1 & E2 & E3)). cbn [mbind option_bind].
    destruct (strneq_total 8 (inputbuf i1) http_referer) as [ref Href]; [destruct Hd1 as (_ & Hb & _); unfold msize in Hb; lia|cbn; lia|].
    rewrite Href. cbn [mbind option_bind]. rewrite <- E1, <- E2, <- E3. destruct ref.
    + rewrite app_assoc in Hf1. pose proof (referer_line i1 _ Hf1 Hd1 Href) as Hdl. pose proof Hd1 as (H1 & H2 & H3 & H4).
      rewrite st_spec by lia. cbn [mbind option_bind].
      set (i2 := set_inputbuf i1 _). assert (in_dims i2) as Hd2 by (split_and!; try done; cbn; unfold msize in *; by rewrite length_insert).
      destruct (IH i2 [] d2 ltac:(lia) Hd2 (reading_again i2 Hd2 Hp1) Ha1 Hok2) as (i' & acc' & -> & Hw & Hpt & F). by exists i', acc'.
    + destruct (IH i1 [] d2 ltac:(lia) Hd1 (reading_again i1 Hd1 Hp1) Ha1 Hok2) as (i' & acc' & -> & Hw & Hpt & F). by exists i', acc'.
  - destruct (in_waits u i acc ISO_nl d Hd Hr Ha Hok Hin) as (i1 & -> & Hw & (_ & F)). cbn [mbind option_bind]. by exists (set_sin_pt i1 InHeaders), (acc ++ d).
Qed.

(** The bytes of a call are at most those that arrived with it or were left by the one before. *)
Lemma avail_fuel u i d : avail u (sin i) d → 0 <= readlen (sin i) → 0 <= uip_len u → (length d < in_fuel u i)%nat.
Proof.
  unfold in_fuel, msize. intros [d' _ E _ _|_ _|d' E _ _ E2 _] H1 H2; unfold msize in *; cbn [length]; lia.
Qed.

Lemma avail_readlen u s d : avail (P:=dptr) u s d → 0 <= readlen s.
Proof. intros [d' _ -> _ _| -> _|d' -> _ _ _ _]; [apply msize_nonneg|done|done]. Qed.

(** The request "GET path ..." in the stream of the received bytes. *)
Section request.
Context (path tail0 name : list Z) (q : option (list Z)) (hp : mem).
Hypothesis Hpath : path_ok path.
Hypothesis Hnames : path_names path name q.

Definition get : list Z := txt "GET".

Definition stream : list Z := get ++ ISO_space :: path ++ ISO_space :: tail0.

(** The state between two calls, when [r] has been received. *)
Inductive in_state (i : hin) : list Z → Prop :=
| in_reads_method r : in_wait i r → sin_pt i = InMethod → ISO_space ∉ r → h_state i = STATE_WAITING → http_params i = hp → in_state i r
| in_reads_path r : in_wait i r → sin_pt i = InPath → ISO_space ∉ r → h_state i = STATE_WAITING → http_params i = hp →
    in_state i (get ++ ISO_space :: r)
| in_reads_headers acc r : in_wait i acc → sin_pt i = InHeaders → requested i hp name q →
    in_state i (get ++ ISO_space :: path ++ ISO_space :: r).

Lemma split_prefix (x : Z) a b c e : x ∉ a → x ∉ b → a ++ x :: c `prefix_of` b ++ x :: e → a = b ∧ c `prefix_of` e.
Proof.
  revert b. induction a as [|y a IH]; intros [|z b] Ha Hb H; cbn [app] in H.
  - by apply prefix_cons_inv_2 in H.
  - apply prefix_cons_inv_1 in H. subst z. by destruct Hb; left.
  - apply prefix_cons_inv_1 in H. subst y. by destruct Ha; left.
  - apply not_elem_of_cons in Ha as [_ Ha]. apply not_elem_of_cons in Hb as [_ Hb].
    pose proof (prefix_cons_inv_1 _ _ _ _ H). subst z. apply prefix_cons_inv_2 in H.
    destruct (IH b Ha Hb H) as [-> ?]. done.
Qed.

Lemma path_no_space : ISO_space ∉ path.
Proof. intros Hin. destruct Hpath as [H _]. rewrite Forall_forall in H. by destruct (H _ Hin) as (_ & _ & ?). Qed.

Lemma head_slash : head path = Some ISO_slash.
Proof. destruct Hnames as [|n q' _ Hh _ _|n _ Hh _ _]; [done| |done]. by destruct n. Qed.

(** The bytes of the rest of the packet, after a marker has been read. *)
Lemma bytes_ok_split d1 x d2 : bytes_ok (d1 ++ x :: d2) → bytes_ok (d1 ++ [x]) ∧ bytes_ok d2.
Proof. change (x :: d2) with ([x] ++ d2). rewrite app_assoc. apply bytes_ok_app. Qed.

Lemma fuel_ok u i d : avail u (sin i) d → 0 <= uip_len u → (length d < in_fuel u i)%nat.
Proof. intros Ha Hu. exact (avail_fuel u i d Ha (avail_readlen _ _ _ Ha) Hu). Qed.

Lemma in_path_ok u i r d :
  in_dims i → reading (sin i) (inputbuf i) r → avail u (sin i) d → bytes_ok d → 0 <= uip_len u → ISO_space ∉ r →
  h_state i = STATE_WAITING → http_params i = hp → r ++ d `prefix_of` path ++ ISO_space :: tail0 →
  ∃ i', in_path u i = Some (u, i') ∧ in_state i' (get ++ ISO_space :: r ++ d).
Proof.
  intros Hd Hr Ha Hok Hu Hsp Hst Hhp Hpre. unfold in_path. destruct (decide (ISO_space ∈ d)) as [Hin|Hin].
  - destruct (list_elem_of_split_l _ _ Hin) as (d1 & d2 & -> & Hn1). rewrite app_assoc in Hpre |- *.
    destruct (split_prefix ISO_space (r ++ d1) path d2 tail0) as [Er Hpre2]; [by apply not_elem_of_app|apply path_no_space|done|].
    destruct (bytes_ok_split _ _ _ Hok) as [Hok1 Hok2].
    destruct (in_ends u i r ISO_space d1 d2 Hd Hr Ha Hok1 Hn1) as (i1 & -> & Hf1 & Hp1 & Ha1 & Hd1 & (E0 & E1 & E2 & E3)). cbn [mbind option_bind].
    rewrite app_assoc, Er in Hf1. rewrite Er.
    assert (ld (inputbuf i1) 0 = Some ISO_slash) as ->.
    { pose proof Hf1 as (_ & _ & H3 & _). pose proof Hd1 as (Hz & _). destruct Hpath as [_ Hl].
      rewrite (kept_all i1 _ Hz) in H3 by (rewrite msize_app; change (msize [ISO_space]) with 1; lia). destruct (front_at _ _ H3) as [rest ->].
      pose proof head_slash as Hh. destruct path; [done|]. by injection Hh as ->. }
    cbn [mbind option_bind]. change (negb (ISO_slash =? ISO_slash)) with false. cbv iota.
    destruct (in_request_ok i1 path name q Hd1 Hf1 Hpath Hnames) as (i2 & -> & Hreq & Hd2 & Es & Ept). cbn [mbind option_bind].
    assert (avail u (sin i2) d2) as Ha2 by by rewrite Es. assert (psockpt (sin i2) = false) as Hp2 by by rewrite Es.
    destruct (in_headers_ok (in_fuel u i2) u i2 [] d2 (fuel_ok _ _ _ Ha2 Hu) Hd2 (reading_again i2 Hd2 Hp2) Ha2 Hok2)
      as (i3 & acc & -> & Hw & Hpt & F1 & F2 & F3).
    exists i3. split; [done|]. apply (in_reads_headers i3 acc d2); [done|done|]. rewrite <- Hhp, <- E2. unfold requested in *. by rewrite F1, F2, F3.
  - destruct (in_waits u i r ISO_space d Hd Hr Ha Hok Hin) as (i1 & -> & Hw & (_ & E1 & E2 & E3)). cbn [mbind option_bind].
    eexists. split; [done|]. apply in_reads_path; [done|done|by apply not_elem_of_app|cbn; congruence|cbn; congruence].
Qed.

Lemma in_method_ok u i r d :
  in_wait i r → sin_pt i = InMethod → avail u (sin i) d → bytes_ok d → 0 <= uip_len u → ISO_space ∉ r →
  h_state i = STATE_WAITING → http_params i = hp → r ++ d `prefix_of` stream →
  ∃ i', in_method u i = Some (u, i') ∧ in_state i' (r ++ d).
Proof.
  intros (Hd & Hr & _) Hpt Ha Hok Hu Hsp Hst Hhp Hpre. unfold in_method. destruct (decide (ISO_space ∈ d)) as [Hin|Hin].
  - destruct (list_elem_of_split_l _ _ Hin) as (d1 & d2 & -> & Hn1). rewrite app_assoc in Hpre |- *. unfold stream in Hpre.
    destruct (split_prefix ISO_space (r ++ d1) get d2 (path ++ ISO_space :: tail0)) as [Er Hpre2];
      [by apply not_elem_of_app|unfold get; rewrite list_elem_of_In; cbn; unfold ISO_space; intuition lia|done|].
    destruct (bytes_ok_split _ _ _ Hok) as [Hok1 Hok2].
    destruct (in_ends u i r ISO_space d1 d2 Hd Hr Ha Hok1 Hn1) as (i1 & -> & Hf1 & Hp1 & Ha1 & Hd1 & (E0 & E1 & E2 & E3)). cbn [mbind option_bind].
    rewrite app_assoc, Er in Hf1. rewrite Er.
    assert (strneq 4 (inputbuf i1) http_get = Some true) as ->.
    { pose proof Hf1 as (_ & _ & H3 & _). pose proof Hd1 as (Hz & _). rewrite (kept_all i1 _ Hz) in H3 by done. destruct (front_at _ _ H3) as [rest ->].
      apply (strneq_app (txt "GET ") rest [0]). repeat constructor; done. }
    cbn [mbind option_bind negb].
    destruct (in_path_ok u i1 [] d2 Hd1 (reading_again i1 Hd1 Hp1) Ha1 Hok2 Hu) as (i2 & -> & Hst2);
      [set_solver|congruence|congruence|done|]. exists i2. done.
  - destruct (in_waits u i r ISO_space d Hd Hr Ha Hok Hin) as (i1 & -> & Hw & (E0 & E1 & E2 & E3)). cbn [mbind option_bind].
    eexists. split; [done|]. apply in_reads_method; [done|done|by apply not_elem_of_app|cbn; congruence|cbn; congruence].
Qed.

Lemma handle_input_ok u i r d :
  in_state i r → avail u (sin i) d → bytes_ok d → 0 <= uip_len u → r ++ d `prefix_of` stream →
  ∃ i', handle_input u i = Some (u, i') ∧ in_state i' (r ++ d).
Proof.
  intros Hi Ha Hok Hu Hpre. unfold handle_input. destruct Hi as [r Hw Hpt Hsp Hst Hhp|r Hw Hpt Hsp Hst Hhp|acc r Hw Hpt Hreq]; rewrite Hpt.
  - by apply in_method_ok.
  - destruct Hw as (Hd & Hr & _). rewrite <- app_assoc in Hpre |- *. cbn [app] in Hpre |- *. unfold stream in Hpre.
    apply prefix_app_inv, prefix_cons_inv_2 in Hpre. by apply in_path_ok.
  - destruct Hw as (Hd & Hr & _).
    destruct (in_headers_ok (in_fuel u i) u i acc d (fuel_ok _ _ _ Ha Hu) Hd Hr Ha Hok) as (i' & acc' & -> & Hw' & Hpt' & F1 & F2 & F3).
    exists i'. split; [done|]. rewrite <- app_assoc. cbn [app]. rewrite <- app_assoc. apply (in_reads_headers i' acc' (r ++ d)); [done|done|].
    unfold requested in *. by rewrite F1, F2, F3.
Qed.
End request.

(** ** Any segmentation of the request *)
Definition new_data (e : event * mem) : list Z := match e.1 with New d | AckNew d => d | _ => [] end.

Lemma event_avail mss e b (s : psock (P:=dptr)) :
  event_room mss (e, b) → drained s → avail (event_uip mss e b) s (new_data (e, b)).
Proof.
  intros [_ Hr] [Hl Hs]. cbn in Hr. destruct e; try (apply avail_none; [done|by right]);
    (apply avail_new; [done|done|done|done|]; exact (bytes_at_prefix (d ++ drop (length d) b) [] d (drop (length d) b) eq_refl)).
Qed.

Lemma in_state_drained path name q hp i r : in_state path name q hp i r → drained (sin i).
Proof. intros [? (_ & _ & H) _ _ _ _|? (_ & _ & H) _ _ _ _|? ? (_ & _ & H) _ _]; exact H. Qed.

(** The calls of the input thread for the events of a connection. *)
Fixpoint input_run (mss : Z) (i : hin) (es : list (event * mem)) : option hin :=
  match es with
  | [] => Some i
  | (e, b) :: es => '(_, i) ← handle_input (event_uip mss e b) i; input_run mss i es
  end.

Lemma input_run_ok mss path tail0 name q hp es i r :
  path_ok path → path_names path name q → Forall (event_room mss) es → Forall (λ e, bytes_ok (new_data e)) es →
  in_state path name q hp i r → r ++ concat (new_data <$> es) `prefix_of` stream path tail0 →
  ∃ i', input_run mss i es = Some i' ∧ in_state path name q hp i' (r ++ concat (new_data <$> es)).
Proof.
  intros Hp Hn. revert i r. induction es as [|[e b] es IH]; intros i r Hr Hok Hi Hpre; cbn [input_run fmap list_fmap concat].
  { rewrite app_nil_r. by exists i. }
  cbn [fmap list_fmap concat] in Hpre. rewrite app_assoc in Hpre |- *. apply Forall_cons in Hr as [Hr Hrs]. apply Forall_cons in Hok as [Hok Hoks].
  destruct (handle_input_ok path tail0 name q hp Hp Hn (event_uip mss e b) i r (new_data (e, b)) Hi) as (i1 & -> & Hi1); [| | | |].
  - apply event_avail; [done|by eapply in_state_drained].
  - done.
  - destruct e; cbn; try done; apply msize_nonneg.
  - etrans; [|exact Hpre]. by apply prefix_app_r.
  - cbn [mbind option_bind]. by apply IH.
Qed.

(** The sizes of the fields of a connection's state. *)
Definition state_dims (s : httpd_state) : Prop :=
  msize (inputbuf (h_in s)) = 50 ∧ msize (filename (h_in s)) = 20 ∧ msize (http_params (h_in s)) = 30.

Lemma conn_init_in path name q s : state_dims s → in_state path name q (http_params (h_in s)) (h_in (conn_init s)) [].
Proof.
  intros (H1 & H2 & H3). apply in_reads_method; [|done|set_solver|done|done]. split.
  - split_and!; try done. cbn. rewrite st_spec by lia. cbn. unfold msize in *. by rewrite length_insert.
  - split; [|done]. split; [done|]. cbn. lia.
Qed.

(** Once the whole path has been received, the request is known. *)
Lemma in_state_done path tail0 name q hp i :
  in_state path name q hp i (stream path tail0) → ∃ acc, in_wait i acc ∧ sin_pt i = InHeaders ∧ requested i hp name q.
Proof.
  unfold stream. inversion 1 as [r Hw Hpt Hsp Hst Hhp Er|r Hw Hpt Hsp Hst Hhp Er|acc r Hw Hpt Hreq Er].
  - exfalso. apply Hsp. set_solver.
  - exfalso. apply Hsp. subst r. set_solver.
  - by exists acc.
Qed.

(** C16: a request "GET path ..." gives the name of the file and its parameters, however the network cuts it into
    segments and whatever other events (polls, acknowledgments, retransmissions) come in between: the name is the path
    up to the "?" (the index page for "/"), the parameters what follows it; names up to 19 and queries up to 29
    characters, in a path of at most 48. *)
Theorem request_parsed mss path tail0 name q s es :
  path_ok path → path_names path name q → state_dims s → Forall (event_room mss) es → Forall (λ e, bytes_ok (new_data e)) es →
  concat (new_data <$> es) = stream path tail0 →
  ∃ i', input_run mss (h_in (conn_init s)) es = Some i' ∧ requested i' (http_params (h_in s)) name q.
Proof.
  intros Hp Hn Hs Hr Hok E. destruct (input_run_ok mss path tail0 name q (http_params (h_in s)) es (h_in (conn_init s)) [] Hp Hn Hr Hok)
    as (i' & Hrun & Hi'); [by apply conn_init_in|cbn [app]; by rewrite E|]. exists i'. split; [done|]. cbn [app] in Hi'. rewrite E in Hi'.
  by destruct (in_state_done _ _ _ _ _ _ Hi') as (? & _ & _ & ?).
Qed.

(** ** The theorems at work *)
Definition demo_psock : psock (P:=dptr) := Psock false (PConst []) 0 0 0 0 0 0 0.

Definition demo_state : httpd_state :=
  HttpdState 0 (0, 0) 0
    (Hin InMethod demo_psock (replicate 50 0) (replicate 20 0) (replicate 30 0) STATE_WAITING)
    (Hout SO0 demo_psock O0 Sc0 (PHuge 0, 0) 0)
    (Hlua None (replicate 1024 0) 0 false).

Lemma txt_ok s : forallb (λ x, (0 <? x) && (x <? 256) && negb (x =? 32)) (txt s) = true →
  Forall (λ x, byte_ok x ∧ x ≠ 0 ∧ x ≠ ISO_space) (txt s).
Proof.
  intros H. rewrite forallb_forall in H. apply Forall_forall. intros x Hx. apply list_elem_of_In, H in Hx.
  unfold byte_ok, ISO_space. destruct (x =? 32) eqn:E; lia.
Qed.

(** "GET /led.lua?n=1&on=a+b HTTP/1.1": the first segment ends in the middle of the query. *)
Theorem request_parsed_witness :
  let es := [(New (txt "GET /led.lua?n=1&o"), replicate 970 0); (Poll, replicate 970 0);
             (New (txt "n=a+b HTTP/1.1" ++ crlf), replicate 970 0)] in
  ∃ i', input_run 970 (h_in (conn_init demo_state)) es = Some i' ∧
    requested i' (replicate 30 0) (txt "/led.lua") (Some (txt "n=1&on=a+b")).
Proof.
  intros es.
  apply (request_parsed 970 (txt "/led.lua?n=1&on=a+b") (txt "HTTP/1.1" ++ crlf) (txt "/led.lua") (Some (txt "n=1&on=a+b")) demo_state es).
  - split; [apply txt_ok; vm_compute; reflexivity|vm_compute; congruence].
  - apply (path_query (txt "/led.lua") (txt "n=1&on=a+b")); [|reflexivity|vm_compute; congruence|vm_compute; congruence].
    intros H. rewrite list_elem_of_In in H. cbn in H. unfold ISO_question in H. intuition lia.
  - split_and!; reflexivity.
  - repeat constructor; vm_compute; congruence.
  - repeat constructor; vm_compute; congruence.
  - reflexivity.
Defined.

Theorem params_decode_query_witness :
  ∃ p, parse_params (txt "n=1&on=a+b" ++ replicate 20 0) (replicate 20 7) = Some p ∧ p_pushed p = [] ∧
    p_sets p = [(txt "n", txt "1"); (txt "on", txt "a b")].
Proof.
  apply (params_decode_query [(txt "n", txt "1"); (txt "on", txt "a+b")] (replicate 19 0) (replicate 20 7)); [done| |reflexivity|reflexivity].
  split; [|intros kv Hkv; by injection Hkv as <-].
  repeat constructor; cbn; try (unfold byte_ok; lia); vm_compute; congruence.
Defined.

(** A value that contains "=" pushes a third string: the assignment then indexes a string, an error in Lua. *)
Example params_second_equals : parse_params (txt "a=b=c" ++ replicate 25 0) (replicate 20 0) = None.
Proof. vm_compute. reflexivity. Qed.

(** A query without "=" runs on into what an earlier request left behind it. *)
Example params_reads_old_request :
  option_map p_sets (parse_params (txt "go" ++ [0] ++ txt "e=1" ++ replicate 24 0) (replicate 20 0)) = Some [(txt "go", txt "1")].
Proof. vm_compute. reflexivity. Qed.

(** A word of twenty characters does not fit the local buffer. *)
Example params_long_word : parse_params (txt "abcdefghijklmnopqrstu" ++ replicate 9 0) (replicate 20 0) = None.
Proof. vm_compute. reflexivity. Qed.

(** A query of thirty characters overflows [http_params], although the path fits the line buffer. *)
Example request_query_overflows :
  input_run 970 (h_in (conn_init demo_state))
    [(New (txt "GET /a?bbbbbbbbbbbbbbbbbbbbbbbbbbbbbb HTTP/1.1" ++ crlf), replicate 970 0)] = None.
Proof. vm_compute. reflexivity. Qed.
