(* ===== verification/HttpOutput.v ===== *)
(** * What the web server sends

    Theorems about the output threads of Httpd over the connection of Psock: the data that a page's scripts write, the
    segments of a page with scripts, and the retransmission of files. *)
From S2P Require Import Prelude Psock Httpd.

(** ** [uip_write] *)
Lemma write_loop_appends fuel ptr wb base i :
  ISO_nl ∉ ptr → bytes_ok ptr → 0 <= base → 0 <= i <= msize ptr → base + msize ptr <= msize wb → msize ptr - i < Z.of_nat fuel →
  bytes_at wb base (take (Z.to_nat i) ptr) →
  ∃ wb', uip_write_loop fuel ptr wb base i (msize ptr) = Some (wb', msize ptr) ∧ bytes_at wb' base ptr ∧ msize wb' = msize wb ∧
    ∀ a n, a + n <= base → mread wb' a n = mread wb a n.
Proof.
  intros Hnl Hok Hb. revert wb i. induction fuel as [|fuel IH]; intros wb i Hi Hs Hf Ht; [lia|]. cbn [uip_write_loop].
  destruct (Z.ltb_spec i (msize ptr)) as [Hlt|Hge].
  - destruct (ld_in_range ptr i ltac:(lia)) as [c Hc]. rewrite Hc. cbn [mbind option_bind].
    apply ld_Some_iff in Hc as [_ Hc]. assert (c ≠ ISO_nl) as Hcn by (intros ->; apply Hnl; by eapply list_elem_of_lookup_2).
    assert (byte_ok c) as Hcb by exact (proj1 (Forall_lookup _ _) Hok _ _ Hc).
    rewrite (proj2 (Z.eqb_neq c ISO_nl)) by done. cbn [negb]. rewrite st_mwrite, (u8_id c) by done.
    destruct (mwrite_is_Some wb (base + i) [c]) as [wb1 Hw]; [lia|change (msize [c]) with 1; lia|]. rewrite Hw. cbn [mbind option_bind].
    pose proof (mwrite_msize _ _ _ _ Hw) as Hs1.
    destruct (IH wb1 (i + 1)) as (wb' & E & H1 & H2 & H3); [lia|lia|lia| |].
    + replace (Z.to_nat (i + 1)) with (S (Z.to_nat i)) by lia. rewrite (take_S_r _ _ _ Hc). apply bytes_at_app. split.
      * unfold bytes_at in *. rewrite <- Ht. apply (mread_mwrite_disjoint _ _ _ _ _ _ Hw). left. unfold msize in *. rewrite length_take. lia.
      * replace (base + msize (take (Z.to_nat i) ptr)) with (base + i) by (unfold msize in *; rewrite length_take; lia). exact (bytes_at_mwrite _ _ _ _ Hw).
    + exists wb'. split; [done|]. split; [done|]. split; [lia|]. intros a n Ha. rewrite H3 by done.
      apply (mread_mwrite_disjoint _ _ _ _ _ _ Hw). lia.
  - exists wb. rewrite take_ge in Ht by (unfold msize in *; lia). done.
Qed.

(** Data without line feeds that a script writes to stdout is appended to the connection's write buffer; what was
    written before stays, and the result is the length. *)
Theorem uip_write_appends l ptr :
  ISO_nl ∉ ptr → bytes_ok ptr → msize (write_buffer l) = WRITE_BUFFER_SIZE → 0 <= write_buffer_len l →
  write_buffer_len l + msize ptr < WRITE_BUFFER_SIZE →
  ∃ l', uip_write l DM_STDOUT_NUM ptr (msize ptr) = Some (l', msize ptr) ∧
    mread (write_buffer l') 0 (write_buffer_len l') = (old ← mread (write_buffer l) 0 (write_buffer_len l); Some (old ++ ptr)) ∧
    write_buffer_len l' = write_buffer_len l + msize ptr ∧ msize (write_buffer l') = WRITE_BUFFER_SIZE.
Proof.
  intros Hnl Hok Hw Hl Hr. pose proof (msize_nonneg ptr). unfold uip_write. change ((DM_STDOUT_NUM <? DM_STDIN_NUM) || (DM_STDERR_NUM <? DM_STDOUT_NUM)) with false.
  change (negb (DM_STDOUT_NUM =? DM_STDOUT_NUM) && negb (DM_STDOUT_NUM =? DM_STDERR_NUM)) with false. change (DM_STDOUT_NUM =? DM_STDERR_NUM) with false. cbv iota.
  rewrite (proj2 (Z.ltb_lt _ _)) by lia. cbn [negb].
  destruct (write_loop_appends (S (Z.to_nat (msize ptr))) ptr (write_buffer l) (write_buffer_len l) 0) as (wb & -> & H1 & H2 & H3); [done|done|done|lia|lia|lia| |].
  { change (Z.to_nat 0) with 0%nat. rewrite take_0. unfold bytes_at, mread. rewrite msize_nil, decide_True by lia. done. }
  cbn [mbind option_bind]. eexists. split; [done|]. cbn [write_buffer write_buffer_len]. split; [|split; [done|lia]].
  destruct (mread_is_Some (write_buffer l) 0 (write_buffer_len l)) as [old Ho]; [lia..|]. rewrite Ho. cbn [mbind option_bind].
  pose proof (mread_msize _ _ _ _ Ho) as Hos.
  assert (bytes_at wb 0 (old ++ ptr)) as Hb.
  { apply bytes_at_app. split; [unfold bytes_at; rewrite Hos, H3, Ho; [done|lia]|]. by rewrite Hos. }
  unfold bytes_at in Hb. by rewrite msize_app, Hos in Hb.
Qed.

(** "ab" after "x". *)
Theorem uip_write_appends_witness :
  let l := Hlua None (120 :: replicate 1023 0) 1 false in
  ∃ l', uip_write l DM_STDOUT_NUM (txt "ab") (msize (txt "ab")) = Some (l', msize (txt "ab")) ∧
    mread (write_buffer l') 0 3 = Some (txt "xab") ∧ write_buffer_len l' = 3.
Proof.
  intros l. destruct (uip_write_appends l (txt "ab")) as (l' & E & H1 & H2 & H3);
    [intros H; rewrite list_elem_of_In in H; cbn in H; unfold ISO_nl in H; intuition lia|repeat constructor; done|reflexivity|done|done|].
  exists l'. split; [exact E|]. split; [|exact H2]. change (write_buffer_len l + msize (txt "ab")) with 3 in H2. rewrite H2 in H1. rewrite H1. reflexivity.
Defined.

(** A line feed leaves a byte of the buffer as it was before the request, and makes the result one less. *)
Example uip_write_newline :
  uip_write (Hlua None (replicate 1024 7) 0 false) DM_STDOUT_NUM [97; ISO_nl; 98] 3
    = Some (Hlua None (97 :: 7 :: replicate 1022 7) 2 false, 2).
Proof. vm_compute. reflexivity. Qed.

(** ** Output as a sequence of segments

    A thread that is called again and again sends a list of segments: each is in flight until it is acknowledged, and
    only then does the thread's continuation run, up to the next segment or to the end. *)
Section output.
Context {V : Type} {core : LuaCore V}.
Context (fuel : nat) (fname hp str : mem) (mss : Z).
Hypothesis Hmss : 0 < mss < 65536.

Implicit Types (c : ctx (V:=V)).

Definition thread c : option (ctx * bool) := output_resume fuel c fname hp str.

(** The state of [c], called with the stack [u] and with [sout] in the state [s]. *)
Definition resumed c (u : uip) (s : psock (P:=dptr)) : ctx := Ctx u (c_g c) (set_sout (c_out c) s) (c_lua c).

(** The stack of a call. *)
Definition ready (u : uip) : Prop := uip_mss u = mss ∧ mss <= msize (uip_appdata u).

(** The segment [d] at [p] is in flight. *)
Definition flying c (p : dptr) (d : mem) : Prop :=
  0 < msize d <= mss ∧ sending (sout (c_out c)) p (msize d) ∧ ∃ obj, (∀ pkt, fetch c pkt p = Some obj) ∧ mread obj 0 (msize d) = Some d.

(** Send, then continue with [K]. *)
Definition sending_then c (p : dptr) (n : Z) (K : ctx (V:=V) → option (ctx (V:=V) * bool)) : option (ctx * bool) :=
  '(c, w) ← out_send c p n; if (w : bool) then Some (c, true) else K c.

(** A call of the thread continues the transmission; [K] is what it does after that. *)
Definition resumes c (K : ctx (V:=V) → option (ctx (V:=V) * bool)) : Prop :=
  ∃ p n, ∀ u s, thread (resumed c u s) = sending_then (resumed c u s) p n K.

(** A segment is sent from memory, or has been generated in the packet buffer and is nowhere else. *)
Inductive segment :=
| Kept (d : mem)
| Generated (d : mem).

Definition seg_bytes (g : segment) : mem := match g with Kept d | Generated d => d end.

(** A generated segment of [n] bytes is in flight. *)
Definition generating c (n : Z) : Prop := 0 < n <= mss ∧ sending (sout (c_out c)) (PApp 0) n.

(** Generate and send, then continue with [K]. *)
Definition generating_then c (f : nat) (K : ctx (V:=V) → option (ctx (V:=V) * bool)) : option (ctx * bool) :=
  '(n, u, s, r) ← psock_generator_send dadd (fetch c) (generate_part_of_file c) (PApp 0) (S f) (h_len (c_out c)) (c_u c) (sout (c_out c));
  let c := with_out (with_u c u) (set_sout (set_h_len (c_out c) n) s) in
  if r =? PT_WAITING then Some (c, true) else K c.

Definition resumes_generated c (K : ctx (V:=V) → option (ctx (V:=V) * bool)) : Prop :=
  ∀ u s, ∃ f, thread (resumed c u s) = generating_then (resumed c u s) f K.

(** The segment [g] is in flight and [K] is what the thread does when it has been acknowledged. *)
Definition flies c (g : segment) (K : ctx (V:=V) → option (ctx (V:=V) * bool)) : Prop :=
  match g with
  | Kept d => (∃ p, flying c p d) ∧ resumes c K
  | Generated d => generating c (msize d) ∧ resumes_generated c K
  end.

Inductive sends : (ctx (V:=V) → option (ctx (V:=V) * bool)) → ctx (V:=V) → list segment → Prop :=
| sends_end K c c' : K c = Some (c', false) → c_u c' = uip_close (c_u c) → sends K c []
| sends_segment K c c1 g K1 rest :
    K c = Some (c1, true) → c_u c1 = put_out (c_u c) (seg_bytes g) → flies c1 g K1 →
    (∀ u s, ready u → uip_rexmit u = false → psockpt s = false → sends K1 (resumed c1 u s) rest) →
    sends K c (g :: rest).

Lemma sends_kept K c c1 p d K1 rest :
  K c = Some (c1, true) → c_u c1 = put_out (c_u c) d → flying c1 p d → resumes c1 K1 →
  (∀ u s, ready u → uip_rexmit u = false → psockpt s = false → sends K1 (resumed c1 u s) rest) →
  sends K c (Kept d :: rest).
Proof. intros E Eu Hf Hr. apply (sends_segment K c c1 (Kept d) K1 rest E Eu). split; [by exists p|done]. Qed.

Lemma sends_ext K K' c c' segs :
  K c = K' c' → c_u c = c_u c' → sends K' c' segs → sends K c segs.
Proof.
  intros E Eu H. destruct H as [K' c' c1 H1 H2|K' c' c1 g K1 rest H1 H2 H3 H4].
  - apply (sends_end _ _ c1); congruence.
  - apply (sends_segment _ _ c1 g K1 rest); congruence || done.
Qed.

Lemma out_send_resumed c p n c' w : out_send c p n = Some (c', w) → ∃ u s, c' = resumed c u s.
Proof.
  unfold out_send. destruct (psock_send _ _ _ _ _ _ _) as [[[u s] r]|]; [|done]. intros [= <- _]. by exists u, s.
Qed.

(** A call of the thread while a segment is in flight. *)
Lemma flying_ack c p d K u :
  flying c p d → resumes c K → ready u → uip_acked u = true →
  ∃ s, psockpt s = false ∧ thread (resumed c u (sout (c_out c))) = K (resumed c u s).
Proof.
  intros (Hd & Hs & _) (q & n & HT) [Hu _] Ha. rewrite HT. unfold sending_then, out_send.
  destruct (psock_send_ack dadd (fetch (resumed c u (sout (c_out c)))) (Z.to_nat (n + sendlen (sout (c_out c)))) u (sout (c_out c)) p (msize d) q n)
    as (s & E & Hp); [done|lia|done|]. exists s. split; [done|].
  cbn [resumed c_u c_out set_sout sout]. rewrite E. done.
Qed.

Lemma flying_resend c p d K u :
  flying c p d → resumes c K → ready u → uip_acked u = false → uip_rexmit u = true →
  ∃ s, thread (resumed c u (sout (c_out c))) = Some (resumed c (put_out u d) s, true) ∧ flying (resumed c (put_out u d) s) p d.
Proof.
  intros (Hd & Hs & obj & Hf & Hr) (q & n & HT) [Hu Hroom] Ha Hx. rewrite HT. unfold sending_then, out_send.
  destruct (psock_send_resend dadd (fetch (resumed c u (sout (c_out c)))) (Z.to_nat (n + sendlen (sout (c_out c)))) u (sout (c_out c)) p (msize d) obj d q n)
    as (s & E & Hs'); [done|lia|lia|lia|apply Hf|done|done|done|]. exists s.
  cbn [resumed c_u c_out set_sout sout]. rewrite E. split; [done|]. split; [done|]. split; [done|]. by exists obj.
Qed.

Lemma flying_idle c p d K u :
  flying c p d → resumes c K → ready u → uip_acked u = false → uip_rexmit u = false →
  ∃ s, thread (resumed c u (sout (c_out c))) = Some (resumed c u s, true) ∧ flying (resumed c u s) p d.
Proof.
  intros (Hd & Hs & obj & Hf & Hr) (q & n & HT) [Hu Hroom] Ha Hx. rewrite HT. unfold sending_then, out_send.
  destruct (psock_send_idle dadd (fetch (resumed c u (sout (c_out c)))) (Z.to_nat (n + sendlen (sout (c_out c)))) u (sout (c_out c)) p (msize d) q n)
    as (s & E & Hs'); [done|done|done|]. exists s.
  cbn [resumed c_u c_out set_sout sout]. rewrite E. split; [done|]. split; [done|]. split; [done|]. by exists obj.
Qed.

Lemma resumes_resumed c u s K : resumes c K → resumes (resumed c u s) K.
Proof. intros (p & n & H). exists p, n. intros u' s'. exact (H u' s'). Qed.

(** What the call puts into the packet buffer when a retransmission is asked for: of a generated segment only the
    length. *)
Definition resent (u : uip) (g : segment) : uip :=
  match g with Kept d => put_out u d | Generated d => set_slen u (msize d) end.

Lemma flies_ack c g K u :
  flies c g K → ready u → uip_acked u = true →
  ∃ s, psockpt s = false ∧ thread (resumed c u (sout (c_out c))) = K (resumed c u s).
Proof.
  destruct g as [d|d]; [intros [[p Hf] HT]; by apply (flying_ack c p d)|]. intros [[Hn Hs] HT] [Hu _] Ha.
  destruct (HT u (sout (c_out c))) as [f ->]. unfold generating_then.
  destruct (generator_ack dadd (fetch (resumed c u (sout (c_out c)))) (generate_part_of_file (resumed c u (sout (c_out c)))) (PApp 0) f
    (h_len (c_out c)) u (sout (c_out c)) (msize d)) as (s & E & Hp); [done|lia|done|].
  exists s. split; [done|]. cbn [resumed c_u c_out set_sout h_len sout]. rewrite E. done.
Qed.

Lemma flies_resend c g K u :
  flies c g K → ready u → uip_acked u = false → uip_rexmit u = true →
  ∃ s, thread (resumed c u (sout (c_out c))) = Some (resumed c (resent u g) s, true) ∧ flies (resumed c (resent u g) s) g K.
Proof.
  destruct g as [d|d].
  - intros [[p Hf] HT] Hu Ha Hx. destruct (flying_resend c p d K u Hf HT Hu Ha Hx) as (s & E & Hf'). exists s. split; [done|].
    split; [by exists p|by apply resumes_resumed].
  - intros [[Hn Hs] HT] [Hu _] Ha Hx. destruct (HT u (sout (c_out c))) as [f ->]. unfold generating_then.
    destruct (generator_resend dadd (fetch (resumed c u (sout (c_out c)))) (generate_part_of_file (resumed c u (sout (c_out c)))) (PApp 0) ltac:(done) f
      (h_len (c_out c)) u (sout (c_out c)) (msize d)) as (s & E & Hs'); [done|lia|lia|done|done|].
    exists s. cbn [resumed c_u c_out set_sout h_len sout resent]. rewrite E. split; [done|]. split; [done|]. intros u' s'. exact (HT u' s').
Qed.

Lemma flies_idle c g K u :
  flies c g K → ready u → uip_acked u = false → uip_rexmit u = false →
  ∃ s, thread (resumed c u (sout (c_out c))) = Some (resumed c u s, true) ∧ flies (resumed c u s) g K.
Proof.
  destruct g as [d|d].
  - intros [[p Hf] HT] Hu Ha Hx. destruct (flying_idle c p d K u Hf HT Hu Ha Hx) as (s & E & Hf'). exists s. split; [done|].
    split; [by exists p|by apply resumes_resumed].
  - intros [[Hn Hs] HT] [Hu _] Ha Hx. destruct (HT u (sout (c_out c))) as [f ->]. unfold generating_then.
    destruct (generator_idle dadd (fetch (resumed c u (sout (c_out c)))) (generate_part_of_file (resumed c u (sout (c_out c)))) (PApp 0) f
      (h_len (c_out c)) u (sout (c_out c)) (msize d)) as (s & E & Hs'); [done|done|done|].
    exists s. cbn [resumed c_u c_out set_sout h_len sout]. rewrite E. split; [done|]. split; [done|]. intros u' s'. exact (HT u' s').
Qed.

Lemma flies_bytes c g K : flies c g K → 0 < msize (seg_bytes g) <= mss.
Proof. destruct g; [by intros [[p (H & _)] _]|by intros [[H _] _]]. Qed.

(** The labels that a waiting thread sets again are the ones it has. *)
Lemma at_send_then c l p n k : sout_pt (c_out c) = l → at_send c l p n k = sending_then c p n k.
Proof.
  intros Hl. unfold at_send, sending_then. destruct (out_send c p n) as [[c' w]|] eqn:E; [|done]. cbn [mbind option_bind].
  destruct w; [|done]. destruct (out_send_resumed _ _ _ _ _ E) as (u & s & ->). by subst l.
Qed.

Lemma output_wait_then c l p n k K :
  outputpt (c_out c) = l → output_wait l (sending_then c p n k) K = sending_then c p n (λ c, output_wait l (k c) K).
Proof.
  intros Hl. unfold output_wait, sending_then. destruct (out_send c p n) as [[c' w]|] eqn:E; [|done]. cbn [mbind option_bind].
  destruct w; [|done]. destruct (out_send_resumed _ _ _ _ _ E) as (u & s & ->). by subst l.
Qed.

Lemma script_wait_then c l p n k K :
  scriptpt (c_out c) = l → script_wait l (sending_then c p n k) K = sending_then c p n (λ c, script_wait l (k c) K).
Proof.
  intros Hl. unfold script_wait, sending_then. destruct (out_send c p n) as [[c' w]|] eqn:E; [|done]. cbn [mbind option_bind].
  destruct w; [|done]. destruct (out_send_resumed _ _ _ _ _ E) as (u & s & ->). by subst l.
Qed.

Lemma at_send_start c l p n k obj d :
  ready (c_u c) → psockpt (sout (c_out c)) = false → 0 < n <= mss → (∀ pkt, fetch c pkt p = Some obj) → mread obj 0 n = Some d →
  ∃ s, at_send c l p n k = Some (with_pt (resumed c (put_out (c_u c) d) s) l, true) ∧
    flying (with_pt (resumed c (put_out (c_u c) d) s) l) p d.
Proof.
  intros [Hu Hroom] Hs Hn Hf Hd. unfold at_send, out_send.
  destruct (psock_send_start dadd (fetch c) (Z.to_nat (n + sendlen (sout (c_out c)))) (c_u c) (sout (c_out c)) p n obj d)
    as (s & E & Hs'); [done|lia|lia|lia|apply Hf|done|].
  rewrite E. cbn [mbind option_bind]. exists s. split; [done|]. pose proof (mread_msize _ _ _ _ Hd) as <-.
  split; [done|]. split; [done|]. by exists obj.
Qed.

(** ** A page with scripts *)
Inductive item :=
| Text (t : list Z)
| Script (sep : Z) (s : list Z).

Definition item_bytes (i : item) : list Z :=
  match i with Text t => t | Script sep s => CGI_open ++ sep :: s ++ CGI_close end.

Definition page_of (items : list item) : list Z := concat (item_bytes <$> items).

(** A text begins a new piece at each "<", and is not mistaken for the beginning of a script. *)
Definition piece_ok (t rest : list Z) : Prop :=
  t ≠ [] ∧ Forall (λ x, x ≠ 0) t ∧ (ISO_minor ∉ tail t) ∧ (∀ r, starts_with (t ++ rest ++ r) CGI_open = Some false) ∧
  (rest = [] ∨ head rest = Some ISO_minor).

(** A script does not contain its end mark. *)
Fixpoint no_close (s : list Z) : bool :=
  match s with
  | [] => true
  | x :: s => negb ((x =? ch "?") && match s with y :: _ => y =? ch ">" | [] => false end) && no_close s
  end.

Definition script_ok (s : list Z) : Prop := Forall (λ x, x ≠ 0) s ∧ no_close s = true.

(** The segments of a page: its texts in pieces, and for each script what it has written. *)
Inductive page_runs : list item → globals V → hlua → list mem → Prop :=
| runs_end g l : page_runs [] g l []
| runs_text t items g l segs :
    piece_ok t (page_of items) → page_runs items g l segs → page_runs (Text t :: items) g l (chunks mss t ++ segs)
| runs_script sep s items g l g' l' e out segs :
    script_ok s → http_run_elua g l hp str s = Some (g', l', e) →
    0 <= write_buffer_len l' <= mss → mread (write_buffer l') 0 (write_buffer_len l') = Some out →
    page_runs items g' l' segs →
    page_runs (Script sep s :: items) g l ((if write_buffer_len l' =? 0 then [] else [out]) ++ segs).

(** ** The loop over the page *)

(** The rest of the page is in the file buffer; a byte after it is unspecified, then there is a 0. *)
Definition at_page c (page : list Z) : Prop :=
  psockpt (sout (c_out c)) = false ∧ sout_pt (c_out c) = SO0 ∧ ready (c_u c) ∧ msize page <= FILE_HUGE_SIZE ∧
  ∃ o h x post, file (c_out c) = (PHuge o, msize page) ∧ 0 <= o ∧ huge (g_fs (c_g c)) = Some h ∧
    drop (Z.to_nat o) h = page ++ x :: 0 :: post.

Definition K_tags (f : nat) c : option (ctx (V:=V) * bool) := output_wait OTags (tags_loop f c hp str) output_end.

(** What a page is searched for when the rest [r] of it begins with "<" or is empty. *)
Lemma search_piece t rest page_end :
  t ≠ [] → Forall (λ x, x ≠ 0) t → ISO_minor ∉ t → (head rest = Some ISO_minor ∨ rest = [] ∧ ∃ x post, page_end = x :: 0 :: post) →
  strchr (t ++ rest ++ page_end) ISO_minor = Some (Some (msize t)) ∨ strchr (t ++ rest ++ page_end) ISO_minor = Some None ∧ rest = [].
Proof.
  intros Ht Hnz Hm Hr. assert (Forall (λ x, x ≠ 0 ∧ x ≠ ISO_minor) t) as Hf.
  { apply Forall_forall. intros x Hx. rewrite Forall_forall in Hnz. split; [by apply Hnz|]. by intros ->. }
  destruct Hr as [Hh|[-> (x & post & ->)]].
  - destruct rest as [|y rest]; [done|]. injection Hh as ->. left. apply (strchr_spec t ISO_minor (rest ++ page_end) Hf).
  - cbn [app]. destruct (Z.eqb_spec x ISO_minor) as [->|Hx]; [left; by apply strchr_spec|].
    right. split; [|done]. destruct (Z.eqb_spec x 0) as [->|H0]; [by apply strchr_none|].
    change (x :: 0 :: post) with ([x] ++ 0 :: post). rewrite app_assoc. apply strchr_none; [done|].
    apply Forall_app. split; [done|]. by repeat constructor.
Qed.

Lemma object_page c o h : huge (g_fs (c_g c)) = Some h → object c (PHuge o) = drop (Z.to_nat o) h.
Proof. intros E. unfold object, fetch. by rewrite E. Qed.

Lemma body_text c t rest :
  at_page c (t ++ rest) → piece_ok t rest →
  tags_body c hp str = Some (with_out c (set_h_len (c_out c) (Z.min mss (msize t))), inr true).
Proof.
  intros (_ & _ & [Hu _] & Hsz & o & h & x & post & Hf & Ho & Hh & Hd) (Ht & Hnz & Hm & Hst & Hr).
  unfold tags_body. rewrite Hf, (object_page c o h Hh), Hd, <- app_assoc, Hst. cbn [mbind option_bind]. rewrite Hu.
  set (pend := x :: 0 :: post). rewrite msize_app in *. pose proof (msize_nonneg rest) as Hrn. pose proof (msize_nonneg t) as Htn.
  unfold FILE_HUGE_SIZE in Hsz. rewrite (s32_id (msize t + msize rest)) by lia.
  assert (0 < msize t) as Ht0 by (destruct t; [done|rewrite msize_cons; pose proof (msize_nonneg t); lia]).
  assert (head (t ++ rest ++ pend) = head t) as -> by by destruct t. destruct (head t) as [y|] eqn:Ey; [|by destruct t]. cbn [mbind option_bind].
  assert (∃ ptr, (if y =? ISO_minor then r ← strchr (tail (t ++ rest ++ pend)) ISO_minor; Some (option_map Z.succ r)
                  else strchr (t ++ rest ++ pend) ISO_minor) = Some ptr ∧ (ptr = Some (msize t) ∨ ptr = None ∧ rest = [])) as (ptr & -> & Hptr).
  { assert (head rest = Some ISO_minor ∨ rest = [] ∧ ∃ x post, pend = x :: 0 :: post) as Hr' by (destruct Hr; [right; split; [done|by exists x, post]|by left]).
    destruct (Z.eqb_spec y ISO_minor) as [->|Hy].
    - destruct t as [|y t]; [done|]. cbn [app tail] in *. apply Forall_cons in Hnz as [_ Hnz]. rewrite msize_cons.
      destruct (decide (t = [])) as [->|Hne].
      + change (msize []) with 0. destruct Hr as [->|Hh'].
        * cbn [app]. destruct (Z.eqb_spec x ISO_minor) as [->|Hx]; [exists (Some 1); split; [done|by left]|].
          exists None. split; [|by right]. unfold pend. destruct (Z.eqb_spec x 0) as [->|H0]; [done|].
          change (x :: 0 :: post) with ([x] ++ 0 :: post). rewrite strchr_none; [done|done|by repeat constructor].
        * destruct rest as [|z rest]; [done|]. injection Hh' as ->. exists (Some 1). by split; [|left].
      + destruct (search_piece t rest pend Hne Hnz Hm Hr') as [->|[-> E]]; cbn [mbind option_bind option_map].
        * exists (Some (Z.succ (msize t))). split; [done|]. left. f_equal. lia.
        * exists None. split; [done|by right].
    - assert (ISO_minor ∉ t) as Hm' by (destruct t as [|z t]; [done|]; cbn in Ey, Hm; injection Ey as ->; apply not_elem_of_cons; done).
      destruct (search_piece t rest pend Ht Hnz Hm' Hr') as [->|[-> E]]; eexists; (split; [done|]); [by left|by right]. }
  cbn [mbind option_bind]. do 3 f_equal. f_equal. destruct Hptr as [->|[-> ->]].
  - rewrite (proj2 (Z.eqb_neq (msize t) 0)) by lia. cbn [negb]. destruct (Z.leb_spec mss (msize t)); lia.
  - rewrite msize_nil, Z.add_0_r. destruct (Z.ltb_spec mss (msize t)); lia.
Qed.

(** What the thread does after a part of the page, and after a script's output. *)
Lemma part_resumes c :
  outputpt (c_out c) = OTags → scriptpt (c_out c) = ScTagPart → sout_pt (c_out c) = SPart →
  resumes c (λ c, K_tags fuel (tags_part_sent (with_pt c SO0))).
Proof.
  intros H1 H2 H3. exists (file (c_out c)).1, (h_len (c_out c)). intros u s. unfold thread, output_resume.
  change (outputpt (c_out (resumed c u s))) with (outputpt (c_out c)). rewrite H1. unfold output_tags, handle_elua_tags.
  change (scriptpt (c_out (resumed c u s))) with (scriptpt (c_out c)). rewrite H2. unfold send_part_of_file.
  change (sout_pt (c_out (resumed c u s))) with (sout_pt (c_out c)). rewrite H3.
  rewrite at_send_then, script_wait_then, output_wait_then by done. done.
Qed.

Lemma script_resumes c :
  outputpt (c_out c) = OTags → scriptpt (c_out c) = ScTagOut → sout_pt (c_out c) = SElua →
  resumes c (λ c, K_tags fuel (with_pt c SO0)).
Proof.
  intros H1 H2 H3. exists (PWrite 0), (write_buffer_len (c_lua c)). intros u s. unfold thread, output_resume.
  change (outputpt (c_out (resumed c u s))) with (outputpt (c_out c)). rewrite H1. unfold output_tags, handle_elua_tags.
  change (scriptpt (c_out (resumed c u s))) with (scriptpt (c_out c)). rewrite H2. unfold http_output_elua.
  change (sout_pt (c_out (resumed c u s))) with (sout_pt (c_out c)). rewrite H3.
  rewrite at_send_then, script_wait_then, output_wait_then by done. done.
Qed.

Lemma page_positive c page : at_page c page → (0 <? (file (c_out c)).2) = (0 <? msize page).
Proof. intros (_ & _ & _ & _ & o & h & x & post & -> & _). done. Qed.

Lemma piece_rest t rest n :
  0 < n < msize t → piece_ok t rest → piece_ok (drop (Z.to_nat n) t) rest.
Proof.
  intros Hn (Ht & Hnz & Hm & _ & Hr). assert (drop (Z.to_nat n) t ≠ []) as Hne.
  { intros E. apply (f_equal length) in E. rewrite length_drop in E. unfold msize in Hn. cbn in E. lia. }
  assert (∀ x, x ∈ drop (Z.to_nat n) t → x ≠ ISO_minor) as Hin.
  { intros x Hx ->. apply Hm. destruct t as [|y t]; [done|]. replace (Z.to_nat n) with (S (Z.to_nat (n - 1))) in Hx by lia. cbn [drop tail] in *.
    apply list_elem_of_lookup in Hx as [k Hk]. rewrite lookup_drop in Hk. by eapply list_elem_of_lookup_2. }
  split; [done|]. split; [by apply Forall_drop|]. split; [|split; [|done]].
  - intros Hx. eapply (Hin ISO_minor); [|done]. destruct (drop (Z.to_nat n) t); [done|]. by right.
  - intros r. destruct (drop (Z.to_nat n) t) as [|y t'] eqn:E; [done|]. specialize (Hin y (list_elem_of_here _ _)).
    change CGI_open with (ISO_minor :: txt "?lua"). cbn [app starts_with head mbind option_bind]. by rewrite (proj2 (Z.eqb_neq y ISO_minor)).
Qed.

Lemma text_sends f c t rest segs :
  at_page c (t ++ rest) → piece_ok t rest → msize (t ++ rest) < Z.of_nat f → msize (t ++ rest) < Z.of_nat fuel →
  (∀ f' c', at_page c' rest → c_g c' = c_g c → c_lua c' = c_lua c → msize rest < Z.of_nat f' → sends (K_tags f') c' segs) →
  sends (K_tags f) c ((Kept <$> chunks mss t) ++ segs).
Proof.
  remember (length t) as n eqn:En. revert f c t En. induction n as [n IH] using lt_wf_ind. intros f c t -> Hp Ht Hf Hfu Hk.
  pose proof Hp as (Hs & Hpt & Hrd & Hsz & o & h & x & post & Hfile & Ho & Hh & Hd). pose proof Ht as (Hne & _).
  rewrite msize_app in *. pose proof (msize_nonneg rest).
  assert (0 < msize t) as Ht0 by (destruct t; [done|rewrite msize_cons; pose proof (msize_nonneg t); lia]).
  destruct f as [|f]; [lia|]. set (k := Z.min mss (msize t)).
  assert (msize (take (Z.to_nat mss) t) = k) as Htk by (unfold k, msize; rewrite length_take; lia).
  pose proof (body_text c t rest Hp Ht) as Eb. fold k in Eb.
  destruct (at_send_start (with_out c (set_h_len (c_out c) k)) SPart (PHuge o) k pt_end (t ++ rest ++ x :: 0 :: post) (take (Z.to_nat mss) t))
    as (s1 & Es & Hfl); [done|done|lia| | |].
  { intros pkt. unfold fetch. cbn [c_g with_out]. rewrite Hh. change (default [] (Some h)) with h. by rewrite Hd, <- app_assoc. }
  { rewrite <- (take_drop (Z.to_nat mss) t) at 1. rewrite <- app_assoc.
    pose proof (bytes_at_prefix _ [] (take (Z.to_nat mss) t) (drop (Z.to_nat mss) t ++ rest ++ x :: 0 :: post) eq_refl) as Hb. unfold bytes_at in Hb. by rewrite Htk in Hb. }
  rewrite (chunks_unfold mss (proj1 Hmss) t Hne), fmap_cons. cbn [app].
  set (c1 := with_pt (resumed (with_out c (set_h_len (c_out c) k)) (put_out (c_u c) (take (Z.to_nat mss) t)) s1) SPart) in *.
  set (c2 := with_out c1 (set_outputpt (set_scriptpt (c_out c1) ScTagPart) OTags)).
  apply (sends_kept _ _ c2 (PHuge o) _ (λ c, K_tags fuel (tags_part_sent (with_pt c SO0)))).
  - unfold K_tags. cbn [tags_loop]. rewrite (page_positive _ _ Hp), msize_app, (proj2 (Z.ltb_lt 0 _)) by lia. rewrite Eb. cbn [mbind option_bind].
    unfold send_part_of_file. cbn [c_out with_out set_h_len sout_pt file h_len]. rewrite Hpt, Hfile. cbn [fst].
    unfold script_wait. rewrite Es. done.
  - done.
  - done.
  - by apply part_resumes.
  - intros u s Hu _ Hs'. set (c3 := tags_part_sent (with_pt (resumed c2 u s) SO0)).
    assert (file (c_out c3) = (PHuge (o + k), msize t + msize rest - k)) as Hf3.
    { unfold c3, tags_part_sent. cbn [c_out with_pt resumed set_sout set_sout_pt with_out set_outputpt set_scriptpt file h_len c2 c1 set_h_len].
      rewrite Hfile. cbn [c_out with_out set_file file dadd]. rewrite u32_id; [done|]. unfold FILE_HUGE_SIZE in Hsz. lia. }
    assert (psockpt (sout (c_out c3)) = false ∧ sout_pt (c_out c3) = SO0 ∧ c_u c3 = u ∧ c_g c3 = c_g c ∧ c_lua c3 = c_lua c) as (F1 & F2 & F3 & F4 & F5).
    { unfold c3, tags_part_sent. cbn [c_out with_pt resumed set_sout set_sout_pt with_out set_outputpt set_scriptpt file c2 c1 set_h_len]. rewrite Hfile. done. }
    destruct (Z.le_gt_cases (msize t) mss) as [Hle|Hgt].
    + assert (k = msize t) as Ek by lia. rewrite (drop_ge t) by (unfold msize in *; lia). cbn [chunks chunks_of length app fmap list_fmap].
      apply (sends_ext (λ c, K_tags fuel (tags_part_sent (with_pt c SO0))) (K_tags fuel) (resumed c2 u s) c3); [done|by rewrite F3|].
      apply Hk; [|done|done|lia]. split_and!; [done|done|by rewrite F3|lia|].
      exists (o + k), h, x, post. rewrite Hf3, F4, Ek. split_and!; [f_equal; lia|lia|done|].
      rewrite Z2Nat.inj_add, <- drop_drop, Hd, <- app_assoc by lia. unfold msize. by rewrite Nat2Z.id, drop_app_length.
    + assert (k = mss) as Ek by lia. apply (sends_ext (λ c, K_tags fuel (tags_part_sent (with_pt c SO0))) (K_tags fuel) (resumed c2 u s) c3); [done|by rewrite F3|].
      assert (msize (drop (Z.to_nat mss) t) = msize t - mss) as Hdm by (unfold msize in *; rewrite length_drop; lia).
      apply (IH (length (drop (Z.to_nat mss) t))); [rewrite length_drop; unfold msize in *; lia|done| |apply piece_rest; [lia|done]|rewrite msize_app; lia|rewrite msize_app; lia|].
      * split_and!; [done|done|by rewrite F3|rewrite msize_app; lia|]. exists (o + k), h, x, post. rewrite Hf3, F4, Ek, msize_app. split_and!; [f_equal; lia|lia|done|].
        rewrite Z2Nat.inj_add, <- drop_drop, Hd, <- app_assoc by lia. rewrite <- app_assoc. rewrite <- (take_drop (Z.to_nat mss) t) at 1. rewrite <- app_assoc.
        replace (Z.to_nat mss) with (length (take (Z.to_nat mss) t)) at 1 by (rewrite length_take; unfold msize in *; lia). by rewrite drop_app_length.
      * intros f' c' Hc' Eg El Hf'. apply Hk; [done|congruence|congruence|done].
Qed.

Lemma close_free s : Forall (λ x, x ≠ 0) s → no_close s = true → ∀ r, strstr (s ++ CGI_close ++ r) CGI_close = Some (Some (msize s)).
Proof.
  induction 1 as [|x s Hx Hs IH]; intros Hn r; [done|]. cbn [no_close] in Hn. apply andb_true_iff in Hn as [Hn1 Hn2]. specialize (IH Hn2 r).
  cbn [app strstr]. rewrite (proj2 (Z.eqb_neq x 0)) by done.
  assert (strneq (length CGI_close) (x :: s ++ CGI_close ++ r) (CGI_close ++ [0]) = Some false) as ->.
  { change (length CGI_close) with 2%nat. change (CGI_close ++ [0]) with [ch "?"; ch ">"; 0]. cbn [strneq head mbind option_bind tail].
    destruct (Z.eqb_spec x (ch "?")) as [->|Hq]; [|done]. change (ch "?" =? 0) with false. cbv iota. cbn [andb negb] in Hn1.
    destruct s as [|y s]; [done|]. cbn [app head mbind option_bind]. destruct (y =? ch ">"); done. }
  cbn [mbind option_bind]. change (s ++ CGI_close ++ r) with (s ++ CGI_close ++ r). rewrite IH. cbn [mbind option_bind option_map].
  rewrite msize_cons. do 2 f_equal. lia.
Qed.

Lemma write_all_keeps l outs l' : write_all l outs = Some l' → hl_L l' = hl_L l.
Proof.
  revert l. induction outs as [|o outs IH]; intros l; cbn [write_all]; [by intros [= ->]|].
  unfold uip_write. destruct (_ || _); [by apply IH|]. destruct (_ && _); [by apply IH|]. destruct (_ =? _); [by apply IH|].
  destruct (negb _); [done|]. destruct (uip_write_loop _ _ _ _ _ _) as [[wb n]|]; [|done]. cbn [mbind option_bind]. intros H. by apply IH in H.
Qed.

(** A script changes the interpreters and the write buffer, not the files or the table of clients. *)
Lemma run_elua_globals g l hp' str' data g' l' e :
  http_run_elua g l hp' str' data = Some (g', l', e) → g_fs g' = g_fs g ∧ g_conn g' = g_conn g.
Proof.
  unfold http_run_elua. set (l0 := Hlua _ _ _ _).
  assert (∀ g1 l1, run_close g l0 = (g1, l1) → g_fs g1 = g_fs g ∧ g_conn g1 = g_conn g) as Hc.
  { unfold run_close. intros g1 l1. destruct (hl_L l0); [destruct (new_pht_page l0)|]; by intros [= <- <-]. }
  destruct (run_close g l0) as [g1 l1] eqn:E1. specialize (Hc g1 l1 eq_refl). destruct Hc as [Hc1 Hc2].
  destruct (match hl_L l1 with None => run_open g1 l1 | Some _ => Some (g1, l1) end) as [[g2 l2]|] eqn:E2; [|by intros [= <- _ _]].
  assert (g_fs g2 = g_fs g1 ∧ g_conn g2 = g_conn g1) as [Ho1 Ho2].
  { destruct (hl_L l1); [by injection E2 as <- <-|]. unfold run_open in E2. destruct (vm_open (g_lua g1)) as [[p v]|]; [|done]. by injection E2 as <- _. }
  destruct (hl_L l2) as [p|]; [|done]. cbn [mbind option_bind]. destruct (g_lua g2 !! p) as [x|]; [|done]. cbn [mbind option_bind].
  destruct (run_params _ _ _ _) as [[v top]|]; [|done]. cbn [mbind option_bind]. destruct (vm_run v data) as [[v' outs] err].
  destruct (write_all l2 outs) as [l3|]; [|done]. cbn [mbind option_bind]. intros [= <- _ _]. cbn. split; congruence.
Qed.

Lemma body_script c sep s rest g' l' e :
  at_page c (CGI_open ++ (sep :: s ++ CGI_close) ++ rest) → script_ok s → http_run_elua (c_g c) (c_lua c) hp str s = Some (g', l', e) →
  ∃ c', tags_body c hp str = Some (c', inl ()) ∧ at_page c' rest ∧ c_u c' = c_u c ∧ c_g c' = g' ∧ c_lua c' = l'.
Proof.
  intros (Hs & Hpt & Hrd & Hsz & o & h & x & post & Hf & Ho & Hh & Hd) [Hnz Hnc] Hrun.
  assert (msize (CGI_open ++ (sep :: s ++ CGI_close) ++ rest) = 8 + msize s + msize rest) as Esz.
  { rewrite !msize_app, msize_cons, msize_app. change (msize CGI_open) with 5. change (msize CGI_close) with 2. lia. }
  rewrite Esz in *. pose proof (msize_nonneg s). pose proof (msize_nonneg rest). unfold FILE_HUGE_SIZE in Hsz.
  unfold tags_body. rewrite Hf, (object_page c o h Hh), Hd.
  assert (starts_with ((CGI_open ++ (sep :: s ++ CGI_close) ++ rest) ++ x :: 0 :: post) CGI_open = Some true) as -> by reflexivity.
  cbn [mbind option_bind dadd]. rewrite (object_page c (o + 6) h Hh).
  assert (drop (Z.to_nat (o + 6)) h = s ++ CGI_close ++ rest ++ x :: 0 :: post) as Ed.
  { rewrite Z2Nat.inj_add, <- drop_drop, Hd by lia. cbn [app CGI_open txt drop]. change (Z.to_nat 6) with 6%nat. cbn [drop]. by rewrite <- !app_assoc. }
  rewrite Ed, (close_free s Hnz Hnc). cbn [mbind option_bind]. unfold ctx_run. rewrite (object_page c (o + 6) h Hh), Ed.
  pose proof (bytes_at_prefix _ [] s (CGI_close ++ rest ++ x :: 0 :: post) eq_refl) as Hb. unfold bytes_at in Hb. rewrite msize_nil in Hb. cbn [app] in Hb. rewrite Hb.
  cbn [mbind option_bind]. rewrite Hrun. cbn [mbind option_bind]. eexists. split; [done|]. cbn [c_u c_g c_lua with_out]. split; [|done].
  destruct (run_elua_globals _ _ _ _ _ _ _ _ Hrun) as [Hg _].
  split; [done|]. split; [done|]. split; [done|]. split; [unfold FILE_HUGE_SIZE; lia|].
  exists (o + 6 + (msize s + 2)), h, x, post. cbn [c_out with_out set_file file c_g]. rewrite Hg. split_and!; [|lia|done|].
  - rewrite (s32_id (8 + msize s + msize rest - 6)) by lia. rewrite (u32_id _) by lia. f_equal. lia.
  - replace (o + 6 + (msize s + 2)) with ((o + 6) + msize (s ++ CGI_close)) by (rewrite msize_app; change (msize CGI_close) with 2; lia).
    rewrite Z2Nat.inj_add, <- drop_drop, Ed by (pose proof (msize_nonneg (s ++ CGI_close)); lia).
    rewrite (app_assoc s CGI_close). unfold msize. by rewrite Nat2Z.id, drop_app_length.
Qed.

Lemma script_sends f c sep s rest g' l' e out segs :
  at_page c (CGI_open ++ (sep :: s ++ CGI_close) ++ rest) → script_ok s → http_run_elua (c_g c) (c_lua c) hp str s = Some (g', l', e) →
  0 <= write_buffer_len l' <= mss → mread (write_buffer l') 0 (write_buffer_len l') = Some out →
  msize (CGI_open ++ (sep :: s ++ CGI_close) ++ rest) < Z.of_nat f → msize (CGI_open ++ (sep :: s ++ CGI_close) ++ rest) < Z.of_nat fuel →
  (∀ f' c', at_page c' rest → c_g c' = g' → c_lua c' = l' → msize rest < Z.of_nat f' → sends (K_tags f') c' segs) →
  sends (K_tags f) c ((if write_buffer_len l' =? 0 then [] else [Kept out]) ++ segs).
Proof.
  intros Hp Hs Hrun Hwb Hout Hf Hfu Hk. destruct (body_script c sep s rest g' l' e Hp Hs Hrun) as (c' & Eb & Hp' & Hu' & Hg' & Hl').
  rewrite !msize_app, msize_cons in *. change (msize CGI_open) with 5 in *. pose proof (msize_nonneg (s ++ CGI_close)). pose proof (msize_nonneg rest).
  destruct f as [|f]; [lia|].
  assert (K_tags (S f) c = output_wait OTags (script_wait ScTagOut (http_output_elua c') (λ c, tags_loop f c hp str)) output_end) as EK.
  { unfold K_tags. cbn [tags_loop]. rewrite (page_positive _ _ Hp), !msize_app, msize_cons. change (msize CGI_open) with 5.
    rewrite (proj2 (Z.ltb_lt 0 _)) by lia. by rewrite Eb. }
  pose proof Hp' as (Hps & Hpt & Hrd & _). unfold http_output_elua in EK. rewrite Hpt, Hl' in EK.
  destruct (Z.eqb_spec (write_buffer_len l') 0) as [E0|E0].
  - (* nothing was written: PSOCK_SEND does not wait *)
    cbn [app]. rewrite E0 in EK. unfold at_send, out_send, psock_send in EK. rewrite Hps in EK. change (0 =? 0) with true in EK. cbn [mbind option_bind] in EK.
    change (PT_EXITED =? PT_WAITING) with false in EK. cbv iota in EK. cbn [mbind option_bind pt_end script_wait] in EK.
    set (c2 := with_pt _ SO0) in EK. apply (sends_ext _ (K_tags f) _ c2 _ EK); [by rewrite <- Hu'|].
    apply Hk; [|done|done|lia]. destruct Hp' as (_ & _ & _ & Hsz & Hpage). split_and!; done.
  - destruct (at_send_start c' SElua (PWrite 0) (write_buffer_len l') pt_end (write_buffer l') out) as (s1 & Es & Hfl); [done|done|lia| |done|].
    { intros pkt. unfold fetch. by rewrite Hl'. }
    rewrite Es in EK. cbn [mbind option_bind script_wait output_wait] in EK. cbn [app].
    set (c1 := with_pt (resumed c' (put_out (c_u c') out) s1) SElua) in *.
    set (c2 := with_out c1 (set_outputpt (set_scriptpt (c_out c1) ScTagOut) OTags)).
    apply (sends_kept _ _ c2 (PWrite 0) _ (λ c, K_tags fuel (with_pt c SO0))); [done|by rewrite <- Hu'|done|by apply script_resumes|].
    intros u s' Hu _ Hs'. apply (sends_ext (λ c, K_tags fuel (with_pt c SO0)) (K_tags fuel) (resumed c2 u s') (with_pt (resumed c2 u s') SO0)); [done|done|].
    apply Hk; [|done|done|lia]. destruct Hp' as (_ & _ & _ & Hsz & o & h & x & post & Hfile & Hpage).
    split; [done|]. split; [done|]. split; [done|]. split; [done|]. exists o, h, x, post. split; [exact Hfile|exact Hpage].
Qed.

(** The loop sends the segments of the page and then closes the connection. *)
Lemma tags_sends items g l segs :
  page_runs items g l segs → ∀ f c, c_g c = g → c_lua c = l → at_page c (page_of items) →
  msize (page_of items) < Z.of_nat f → msize (page_of items) < Z.of_nat fuel → sends (K_tags f) c (Kept <$> segs).
Proof.
  induction 1 as [g l|t items g l segs Ht Hruns IH|sep s items g l g' l' e out segs Hs Hrun Hwb Hout Hruns IH]; intros f c Eg El Hp Hf Hfu.
  - change (msize (page_of [])) with 0 in *. destruct f as [|f]; [lia|]. eapply sends_end.
    + unfold K_tags. cbn [tags_loop]. rewrite (page_positive _ _ Hp). change (0 <? msize (page_of [])) with false. done.
    + done.
  - change (page_of (Text t :: items)) with (t ++ page_of items) in *. rewrite msize_app in *. pose proof (msize_nonneg t). rewrite fmap_app.
    apply (text_sends f c t (page_of items)); [done|done|rewrite msize_app; lia|rewrite msize_app; lia|].
    intros f' c' Hc' Eg' El' Hf'. apply IH; [congruence|congruence|done|done|lia].
  - assert (page_of (Script sep s :: items) = CGI_open ++ (sep :: s ++ CGI_close) ++ page_of items) as Ep.
    { unfold page_of. cbn [fmap list_fmap concat item_bytes]. by rewrite <- app_assoc. }
    rewrite Ep in *. rewrite fmap_app.
    replace (Kept <$> (if write_buffer_len l' =? 0 then [] else [out])) with (if write_buffer_len l' =? 0 then [] else [Kept out]) by by destruct (_ =? _).
    apply (script_sends f c sep s (page_of items) g' l' e); try done; [congruence|].
    intros f' c' Hc' Eg' El' Hf'. apply IH; try done. rewrite !msize_app in Hfu. pose proof (msize_nonneg CGI_open). pose proof (msize_nonneg (sep :: s ++ CGI_close)). lia.
Qed.

(** ** The headers *)
Definition text_of (m : mem) : mem := default [] (cstr m).

(** A name with the extension ".pht", and no other dot. *)
Definition pht_name (base : list Z) : Prop :=
  cstr fname = Some (base ++ txt ".pht") ∧ ISO_period ∉ base.

Lemma name_split (base ext : list Z) :
  cstr fname = Some (base ++ ISO_period :: ext) → ISO_period ∉ base →
  ∃ rest, fname = base ++ ISO_period :: ext ++ 0 :: rest ∧ Forall (λ x, x ≠ 0) (base ++ ISO_period :: ext) ∧ Forall (λ x, x ≠ 0 ∧ x ≠ ISO_period) base.
Proof.
  intros Hc Hn. destruct (cstr_inv _ _ Hc) as [Hnz [rest E]]. exists rest. rewrite <- app_assoc in E. split; [exact E|]. split; [done|].
  apply Forall_app in Hnz as [Hnz _]. apply Forall_forall. intros x Hx. rewrite Forall_forall in Hnz.
  split; [by apply Hnz|]. by intros ->.
Qed.

(** The name from its only dot on. *)
Lemma name_suffix (base ext rest : list Z) : drop (Z.to_nat (msize base)) (base ++ ISO_period :: ext ++ 0 :: rest) = ISO_period :: ext ++ 0 :: rest.
Proof. unfold msize. by rewrite Nat2Z.id, drop_app_length. Qed.

Lemma pht_split base : pht_name base →
  ∃ rest, fname = base ++ ISO_period :: txt "pht" ++ 0 :: rest ∧ Forall (λ x, x ≠ 0) base ∧ Forall (λ x, x ≠ 0 ∧ x ≠ ISO_period) base.
Proof.
  intros [Hc Hn]. destruct (name_split base (txt "pht") Hc Hn) as (rest & E & Hnz & Hf). exists rest.
  by apply Forall_app in Hnz as [Hnz _].
Qed.

Lemma pht_content_type base : pht_name base → content_type fname = Some http_content_type_html.
Proof.
  intros (rest & E & Hnz & _)%pht_split. unfold content_type.
  assert (Forall (λ x, x ≠ 0 ∧ x ≠ ISO_period) (txt "pht")) as Hp by (repeat constructor; done).
  rewrite E, (strrchr_spec base (txt "pht") ISO_period rest) by done.
  cbn [mbind option_bind]. by rewrite name_suffix.
Qed.

Lemma pht_body base c : pht_name base → output_body fuel c fname hp str = K_tags fuel (script_init (set_new_pht_page c)).
Proof.
  intros (rest & E & _ & Hf)%pht_split. unfold output_body. rewrite E, (strchr_spec base ISO_period (txt "pht" ++ 0 :: rest)) by done.
  cbn [mbind option_bind]. rewrite name_suffix. done.
Qed.

Definition K_body c : option (ctx (V:=V) * bool) := output_body fuel c fname hp str.

(** A thread that sends the headers with the status line [hdr] at the label [l], then does [K]. *)
Definition headers_thread (l : output_lc) (hdr : mem) (K : ctx (V:=V) → option (ctx (V:=V) * bool)) : Prop :=
  ∀ c, outputpt (c_out c) = l → thread c = output_wait l (send_headers c fname hdr) K.

Definition headers_sent c (l : output_lc) (u : uip) (s : psock (P:=dptr)) : ctx :=
  Ctx u (c_g c) (set_outputpt (set_sout_pt (set_sout (c_out c) s) SO0) l) (c_lua c).

Section headers.
Context (l : output_lc) (hdr t hs ts : mem) (K : ctx (V:=V) → option (ctx (V:=V) * bool)).
Hypothesis Hthread : headers_thread l hdr K.
Hypothesis Ht : content_type fname = Some t.
Hypothesis Hhs : cstr hdr = Some hs.
Hypothesis Hts : cstr t = Some ts.
Hypothesis Hhn : 0 < msize hs <= mss.
Hypothesis Htn : 0 < msize ts <= mss.

Lemma string_read (m x : mem) : cstr m = Some x → strlen m = Some (msize x) ∧ mread m 0 (msize x) = Some x.
Proof.
  intros E. unfold strlen. rewrite E. split; [done|]. destruct (cstr_inv _ _ E) as [_ [r ->]].
  exact (bytes_at_prefix _ [] x (0 :: r) eq_refl).
Qed.

Lemma status_resumes c :
  outputpt (c_out c) = l → sout_pt (c_out c) = SStatus → resumes c (λ c, output_wait l (at_send_str c SType t pt_end) K).
Proof.
  intros H1 H2. exists (PConst hdr), (msize hs). intros u s. rewrite Hthread by exact H1. unfold send_headers.
  change (sout_pt (c_out (resumed c u s))) with (sout_pt (c_out c)). rewrite H2, Ht. unfold at_send_str.
  rewrite (proj1 (string_read _ _ Hhs)). cbn [mbind option_bind]. rewrite at_send_then, output_wait_then by done. done.
Qed.

Lemma type_resumes c :
  outputpt (c_out c) = l → sout_pt (c_out c) = SType → resumes c (λ c, K (with_pt c SO0)).
Proof.
  intros H1 H2. exists (PConst t), (msize ts). intros u s. rewrite Hthread by exact H1. unfold send_headers.
  change (sout_pt (c_out (resumed c u s))) with (sout_pt (c_out c)). rewrite H2, Ht. unfold at_send_str. cbn [mbind option_bind].
  rewrite (proj1 (string_read _ _ Hts)). cbn [mbind option_bind]. rewrite at_send_then, output_wait_then by done. done.
Qed.

Lemma headers_sends c segs :
  psockpt (sout (c_out c)) = false → sout_pt (c_out c) = SO0 → ready (c_u c) →
  (∀ u s, ready u → uip_rexmit u = false → psockpt s = false → sends K (headers_sent c l u s) segs) →
  sends (λ c, output_wait l (send_headers c fname hdr) K) c (Kept hs :: Kept ts :: segs).
Proof.
  intros Hs Hpt Hrd Hk. destruct (string_read _ _ Hhs) as [Lh Rh]. destruct (string_read _ _ Hts) as [Lt Rt].
  destruct (at_send_start c SStatus (PConst hdr) (msize hs) (λ c, at_send_str c SType t pt_end) hdr hs) as (s1 & E1 & Hfl); [done..|].
  set (c1 := with_pt (resumed c (put_out (c_u c) hs) s1) SStatus) in *. set (c2 := with_out c1 (set_outputpt (c_out c1) l)).
  apply (sends_kept _ _ c2 (PConst hdr) _ (λ c, output_wait l (at_send_str c SType t pt_end) K)).
  - unfold send_headers. rewrite Hpt, Ht. unfold at_send_str at 1. rewrite Lh. cbn [mbind option_bind]. rewrite E1. done.
  - done.
  - done.
  - by apply status_resumes.
  - intros u s Hu _ Hs2. set (c3 := resumed c2 u s).
    destruct (at_send_start c3 SType (PConst t) (msize ts) pt_end t ts) as (s3 & E3 & Hfl3); [done..|].
    set (c4 := with_pt (resumed c3 (put_out (c_u c3) ts) s3) SType) in *. set (c5 := with_out c4 (set_outputpt (c_out c4) l)).
    apply (sends_kept _ _ c5 (PConst t) _ (λ c, K (with_pt c SO0))).
    + unfold at_send_str. rewrite Lt. cbn [mbind option_bind]. rewrite E3. done.
    + done.
    + done.
    + by apply type_resumes.
    + intros u' s' Hu' Hx Hs'. apply (sends_ext (λ c, K (with_pt c SO0)) K (resumed c5 u' s') (headers_sent c l u' s')); [done|done|].
      by apply Hk.
Qed.
End headers.

(** The flag that asks for a new interpreter. *)
Definition new_page (l : hlua) : hlua := Hlua (hl_L l) (write_buffer l) (write_buffer_len l) true.

Lemma ok_thread : headers_thread OHeaders http_header_200 (λ c, output_body fuel c fname hp str).
Proof. intros c E. unfold thread, output_resume. by rewrite E. Qed.

Lemma missing_thread : headers_thread OHeaders404 http_header_404 (output_file OFile404).
Proof. intros c E. unfold thread, output_resume. by rewrite E. Qed.

Definition html_header (hdr : mem) (segs : list segment) : list segment := Kept (text_of hdr) :: Kept (text_of http_content_type_html) :: segs.

(** A page with scripts. *)
Lemma page_sends c base page items segs :
  100 <= mss → pht_name base → at_page c page → page = page_of items → page_runs items (c_g c) (new_page (c_lua c)) segs →
  msize page < Z.of_nat fuel →
  sends (λ c, output_headers fuel c fname hp str) c (html_header http_header_200 (Kept <$> segs)).
Proof.
  intros Hm Hb Hp -> Hruns Hf. pose proof Hp as (Hs & Hpt & Hrd & Hsz & o & h & x & post & Hpage).
  apply (headers_sends OHeaders http_header_200 http_content_type_html _ _ _ ok_thread (pht_content_type base Hb)); try done.
  - change (msize (text_of http_header_200)) with 83. lia.
  - change (msize (text_of http_content_type_html)) with 27. lia.
  - intros u s Hu _ Hs'. set (c' := script_init (set_new_pht_page (headers_sent c OHeaders u s))).
    apply (sends_ext _ (K_tags fuel) (headers_sent c OHeaders u s) c'); [by apply (pht_body base)|done|].
    apply (tags_sends items (c_g c) (new_page (c_lua c))); [done|done|done| |done|done].
    split; [done|]. split; [done|]. split; [done|]. split; [done|]. exists o, h, x, post. exact Hpage.
Qed.
End output.
