(* ===== verification/StaticFile.v ===== *)
(** * A file that is sent as it is

    The output of a static file, or of the page for a file that does not exist: [send_file] generates each segment in
    the packet buffer; a segment that is to be retransmitted is not generated again. *)
From S2P Require Import Prelude Psock Httpd HttpOutput.

Section file.
Context {V : Type} {core : LuaCore V}.
Context (fuel : nat) (fname hp str : mem) (mss : Z) (l : output_lc).
Hypothesis Hmss : 0 < mss < 65536.
Hypothesis Hl : ∀ c : ctx (V:=V), outputpt (c_out c) = l → thread fuel fname hp str c = output_file l c.

Implicit Types (c : ctx (V:=V)).

(** What [send_file] does after a segment has been acknowledged. *)
Definition file_sent (f : nat) c : option (ctx (V:=V) * bool) :=
  let '(data, flen) := file (c_out c) in
  let n := h_len (c_out c) in
  let flen := u32 (flen - n) in
  let c := with_out c (set_file (c_out c) (dadd data n, flen)) in
  if 0 <? flen then send_file f (with_pt c SO0) else pt_end c.

Definition K_file (f : nat) c : option (ctx (V:=V) * bool) := output_wait l (send_file f c) output_end.

Lemma labels_kept c :
  outputpt (c_out c) = l → sout_pt (c_out c) = SGen → with_out (with_pt c SGen) (set_outputpt (c_out (with_pt c SGen)) l) = c.
Proof. destruct c as [u g [pt so op sp f n] lu]. cbn. by intros -> ->. Qed.

Lemma file_resumes c :
  outputpt (c_out c) = l → sout_pt (c_out c) = SGen →
  resumes_generated fuel fname hp str c (λ c', output_wait l (file_sent (Z.to_nat (file (c_out c)).2) c') output_end).
Proof.
  intros H1 H2 u s. exists (Z.to_nat ((file (c_out c)).2 + sendlen s)). rewrite Hl by exact H1. unfold output_file, generating_then.
  cbn [send_file]. change (sout_pt (c_out (resumed c u s))) with (sout_pt (c_out c)). rewrite H2.
  change (snd (file (c_out (resumed c u s)))) with (file (c_out c)).2. change (sendlen (sout (c_out (resumed c u s)))) with (sendlen s).
  destruct (psock_generator_send _ _ _ _ _ _ _ _) as [[[[n u1] s1] r]|]; [|done]. cbn [mbind option_bind].
  destruct (r =? PT_WAITING).
  - cbn [output_wait mbind option_bind]. by rewrite labels_kept.
  - reflexivity.
Qed.

(** The rest of the file is in the file buffer. *)
Definition at_file c (rest : list Z) : Prop :=
  psockpt (sout (c_out c)) = false ∧ sout_pt (c_out c) = SO0 ∧ ready mss (c_u c) ∧ uip_rexmit (c_u c) = false ∧ msize rest <= FILE_HUGE_SIZE ∧
  ∃ o h post, file (c_out c) = (PHuge o, msize rest) ∧ 0 <= o ∧ huge (g_fs (c_g c)) = Some h ∧ drop (Z.to_nat o) h = rest ++ post.

Lemma file_sends rest f c :
  rest ≠ [] → at_file c rest → sends fuel fname hp str mss (K_file (S f)) c (Generated <$> chunks mss rest).
Proof.
  remember (length rest) as n eqn:En. revert f c rest En. induction n as [n IH] using lt_wf_ind. intros f c rest -> Hne Hc.
  pose proof Hc as (Hs & Hpt & Hrd & Hx & Hsz & o & h & post & Hf & Ho & Hh & Hd). unfold FILE_HUGE_SIZE in Hsz.
  assert (0 < msize rest) as Hn by (destruct rest; [done|rewrite msize_cons; pose proof (msize_nonneg rest); lia]).
  set (d := take (Z.to_nat mss) rest). set (k := Z.min mss (msize rest)).
  assert (msize d = k) as Hk by (unfold d, k, msize; rewrite length_take; lia).
  assert (object c (PHuge o) = rest ++ post) as Hobj by by rewrite (object_page c o h Hh), Hd.
  assert (mread (rest ++ post) 0 k = Some d) as Hr.
  { rewrite <- (take_drop (Z.to_nat mss) rest), <- app_assoc. fold d. rewrite <- Hk.
    exact (bytes_at_prefix _ [] d (drop (Z.to_nat mss) rest ++ post) eq_refl). }
  pose proof Hrd as [Hu Hroom].
  assert (generate_part_of_file c (h_len (c_out c)) (c_u c) = Some (k, Uip (uip_flags (c_u c)) mss (d ++ drop (length d) (uip_appdata (c_u c))) (uip_len (c_u c)) (uip_slen (c_u c)), k)) as Eg.
  { unfold generate_part_of_file. rewrite Hf, Hu, Hobj. replace (if mss <? msize rest then mss else msize rest) with k by (unfold k; destruct (Z.ltb_spec mss (msize rest)); lia).
    rewrite Hr. cbn [mbind option_bind]. destruct (mwrite_is_Some (uip_appdata (c_u c)) 0 d) as [m Hw]; [lia|lia|]. rewrite Hw. cbn [mbind option_bind].
    by rewrite (mwrite_prefix _ _ _ Hw), (u16_id k) by lia. }
  destruct (generator_start dadd (fetch c) (generate_part_of_file c) (PApp 0) ltac:(done) (Z.to_nat ((file (c_out c)).2 + sendlen (sout (c_out c))))
    (h_len (c_out c)) (c_u c) (sout (c_out c)) k _ k Hs Eg) as (s1 & E1 & Hs1); [lia|cbn; lia|done|].
  rewrite (chunks_unfold mss (proj1 Hmss) rest) by done. rewrite fmap_cons. fold d.
  set (c1 := with_pt (with_out (with_u c (put_out (c_u c) d)) (set_sout (set_h_len (c_out c) k) s1)) SGen).
  set (c2 := with_out c1 (set_outputpt (c_out c1) l)).
  apply (sends_segment _ _ _ _ _ _ _ c2 (Generated d) (λ c', output_wait l (file_sent (Z.to_nat (file (c_out c2)).2) c') output_end)).
  - unfold K_file. cbn [send_file]. rewrite Hpt, E1. cbn [mbind option_bind]. change (PT_WAITING =? PT_WAITING) with true. cbv iota.
    assert (set_slen (Uip (uip_flags (c_u c)) mss (d ++ drop (length d) (uip_appdata (c_u c))) (uip_len (c_u c)) (uip_slen (c_u c))) k = put_out (c_u c) d) as Es.
    { unfold put_out, set_slen. cbn. by rewrite Hu, Hk. }
    rewrite Es. done.
  - done.
  - split; [split; [lia|by rewrite Hk]|]. by apply file_resumes.
  - intros u s Hru Hxu Hps. set (c3 := resumed c2 u s).
    set (c4 := with_out c3 (set_file (c_out c3) (PHuge (o + k), msize rest - k))).
    assert (file_sent (Z.to_nat (file (c_out c2)).2) c3 = if 0 <? msize rest - k then send_file (Z.to_nat (msize rest)) (with_pt c4 SO0) else pt_end c4) as Efs.
    { assert (file (c_out c2) = (PHuge o, msize rest)) as E2 by exact Hf. unfold file_sent. change (file (c_out c3)) with (file (c_out c2)). rewrite E2. cbn [snd dadd].
      change (h_len (c_out c3)) with k. rewrite (u32_id (msize rest - k)) by lia. done. }
    destruct (Z.ltb_spec 0 (msize rest - k)) as [Hlt|Hge].
    + assert (k = mss) as Ek by lia. assert (msize (drop (Z.to_nat mss) rest) = msize rest - mss) as Hdm by (unfold msize in *; rewrite length_drop; lia).
      replace (Z.to_nat (msize rest)) with (S (Z.to_nat (msize rest - 1))) in Efs by lia.
      apply (sends_ext _ _ _ _ _ (λ c', output_wait l (file_sent (Z.to_nat (file (c_out c2)).2) c') output_end) (K_file (S (Z.to_nat (msize rest - 1)))) c3 (with_pt c4 SO0)); [by rewrite Efs|done|].
      apply (IH (length (drop (Z.to_nat mss) rest))); [rewrite length_drop; unfold msize in *; lia|done|intros E; apply (f_equal msize) in E; rewrite msize_nil in E; lia|].
      split; [done|]. split; [done|]. split; [done|]. split; [done|]. split; [unfold FILE_HUGE_SIZE; lia|]. exists (o + k), h, post.
      split; [by rewrite Hdm, <- Ek|]. split; [lia|]. split; [done|].
      rewrite Z2Nat.inj_add, <- drop_drop, Hd, Ek by lia. rewrite <- (take_drop (Z.to_nat mss) rest) at 1. rewrite <- app_assoc.
      replace (Z.to_nat mss) with (length (take (Z.to_nat mss) rest)) at 1 by (rewrite length_take; unfold msize in *; lia). by rewrite drop_app_length.
    + assert (drop (Z.to_nat mss) rest = []) as -> by (apply drop_ge; unfold msize in *; lia).
      eapply sends_end; [by rewrite Efs|done].
Qed.
End file.
