(* ===== verification/WebPage.v ===== *)
(** * Requests answered over a connection

    The input and the output threads of the web server composed with the connection: for every sequence of events, what
    the client has received of a page with scripts, of a static file, and of the answer when there is no such file. *)
From S2P Require Import Prelude Psock Httpd HttpInput HttpOutput StaticFile.

(** ** What the client gets

    [d] is in flight for the first of [segs], and [D] has been delivered. A generated segment that is retransmitted is
    what the packet buffer holds at that moment. *)
Definition resent_bytes (g : segment) (b : mem) : mem :=
  match g with Kept d => d | Generated d => take (length d) b end.

Definition first_bytes (segs : list segment) : mem := match segs with g :: _ => seg_bytes g | [] => [] end.

Fixpoint client_gets (d : mem) (segs : list segment) (D : mem) (es : list (event * mem)) : conn :=
  match segs, es with
  | [], _ => Conn None D true
  | _, [] => Conn (Some d) D false
  | g :: rest, (e, b) :: es =>
      match e with
      | Ack | AckNew _ => client_gets (first_bytes rest) rest (D ++ d) es
      | Rexmit => client_gets (resent_bytes g b) segs D es
      | _ => client_gets d segs D es
      end
  end.

(** When [k] segments have been acknowledged, each of them as it is. *)
Definition served (segs : list mem) (D : mem) (k : nat) : conn :=
  match drop k segs with
  | d :: _ => Conn (Some d) (D ++ concat (take k segs)) false
  | [] => Conn None (D ++ concat segs) true
  end.

Lemma served_cons d segs D k : served (d :: segs) D (S k) = served segs (D ++ d) k.
Proof. unfold served. cbn [drop take concat]. rewrite !app_assoc. done. Qed.

(** Segments that are sent from memory, or that are not retransmitted. *)
Lemma client_served segs D es :
  Forall (λ e, e.1 = Rexmit → Forall (λ g, g = Kept (seg_bytes g)) segs) es →
  client_gets (first_bytes segs) segs D es = served (seg_bytes <$> segs) D (acks es).
Proof.
  revert segs D. induction es as [|[e b] es IH]; intros segs D Hk.
  - destruct segs as [|g rest]; cbn; by rewrite app_nil_r.
  - apply Forall_cons in Hk as [Hk Hks]. destruct segs as [|g rest].
    { unfold served. cbn [fmap list_fmap client_gets concat]. by rewrite drop_nil, app_nil_r. }
    cbn [client_gets first_bytes]. unfold acks. rewrite filter_cons. destruct e; cbn [is_ack fst].
    + rewrite decide_True by done. cbn [length]. rewrite fmap_cons, served_cons. apply IH.
      eapply Forall_impl; [exact Hks|]. intros e' H He. specialize (H He). by apply Forall_cons in H as [_ H].
    + rewrite decide_False by done. specialize (Hk eq_refl). apply Forall_cons in Hk as [Hg _]. etrans; [|exact (IH (g :: rest) D Hks)]. by destruct g.
    + rewrite decide_False by done. exact (IH (g :: rest) D Hks).
    + rewrite decide_False by done. exact (IH (g :: rest) D Hks).
    + rewrite decide_True by done. cbn [length]. rewrite fmap_cons, served_cons. apply IH.
      eapply Forall_impl; [exact Hks|]. intros e' H He. specialize (H He). by apply Forall_cons in H as [_ H].
Qed.

Section page.
Context {V : Type} {core : LuaCore V} {card : FileSystem}.
Context (fuel : nat) (str : mem) (mss : Z).
Hypothesis Hmss : 100 <= mss < 65536.

Implicit Types (c : ctx (V:=V)).

(** The application of a connection: the input thread, then the output thread. *)
Definition web (w : globals V * httpd_state) (u : uip) : option (globals V * httpd_state * uip) :=
  '(g, s, u) ← handle_connection fuel w.1 w.2 u str; Some ((g, s), u).

(** The bytes [d] are in flight for a segment. *)
Definition in_flight (g : segment) (d : mem) : Prop :=
  match g with Kept d' => d = d' | Generated d' => msize d = msize d' end.

(** The answer is being sent: the headers of the request may still arrive. *)
Definition page_state (fname hp : mem) (x : globals V * httpd_state * conn) (d : mem) (segs : list segment) (D : mem) : Prop :=
  match segs with
  | [] => x.2 = Conn None D true
  | g :: rest =>
      ∃ c K acc, x.1.1 = c_g c ∧ h_out x.1.2 = c_out c ∧ h_lua x.1.2 = c_lua c ∧
        flies fuel fname hp str mss c g K ∧
        (∀ u s, ready mss u → uip_rexmit u = false → psockpt s = false → sends fuel fname hp str mss K (resumed c u s) rest) ∧
        in_wait (h_in x.1.2) acc ∧ sin_pt (h_in x.1.2) = InHeaders ∧ h_state (h_in x.1.2) = STATE_OUTPUT ∧
        filename (h_in x.1.2) = fname ∧ http_params (h_in x.1.2) = hp ∧ x.2 = Conn (Some d) D false ∧
        in_flight g d
  end.

Lemma event_ready e b : event_room mss (e, b) → ready mss (event_uip mss e b).
Proof. intros H. split; [by destruct e|]. exact (event_uip_room _ _ _ H). Qed.

Lemma resumed_id c u : resumed c u (sout (c_out c)) = Ctx u (c_g c) (c_out c) (c_lua c).
Proof. unfold resumed, set_sout. by destruct (c_out c). Qed.

(** Only a thread that has begun can be resumed. *)
Lemma flies_begun fname hp c g K : flies fuel fname hp str mss c g K → outputpt (c_out c) ≠ O0.
Proof.
  intros Hfl E. set (u := Uip 0 mss (replicate (Z.to_nat mss) 0) 0 0).
  destruct (flies_idle fuel fname hp str mss c g K u Hfl) as (s & Es & _); [|done|done|].
  - split; [done|]. cbn. rewrite msize_replicate. lia.
  - unfold thread, output_resume in Es. change (outputpt (c_out (resumed c u (sout (c_out c))))) with (outputpt (c_out c)) in Es.
    by rewrite E in Es.
Qed.

(** The output thread is called after the input thread has read the data of the call. *)
Lemma web_output fname hp g s e b c acc :
  event_room mss (e, b) → bytes_ok (new_data (e, b)) → in_wait (h_in s) acc → sin_pt (h_in s) = InHeaders →
  h_state (h_in s) = STATE_OUTPUT → filename (h_in s) = fname → http_params (h_in s) = hp →
  g = c_g c → h_out s = c_out c → h_lua s = c_lua c → outputpt (c_out c) ≠ O0 →
  ∃ i acc', in_wait i acc' ∧ sin_pt i = InHeaders ∧ h_state i = STATE_OUTPUT ∧ filename i = fname ∧ http_params i = hp ∧
    web (g, s) (event_uip mss e b) =
      ('(c', _) ← thread fuel fname hp str (resumed c (event_uip mss e b) (sout (c_out c)));
       Some ((c_g c', HttpdState (timer s) (ripaddr s) (http_connection_nr s) i (c_out c') (c_lua c')), c_u c')).
Proof.
  intros Hr Hok (Hd & Hrd & Hdr) Hpt Hst Hfn Hhp -> Ho Hl Hb.
  pose proof (event_avail mss e b (sin (h_in s)) Hr Hdr) as Ha.
  assert (0 <= uip_len (event_uip mss e b)) as Hlen by (destruct e; cbn; try done; apply msize_nonneg).
  destruct (in_headers_ok (in_fuel (event_uip mss e b) (h_in s)) (event_uip mss e b) (h_in s) acc (new_data (e, b))
    (fuel_ok _ _ _ Ha Hlen) Hd Hrd Ha Hok) as (i & acc' & Ei & Hw & F0 & F1 & F2 & F3).
  exists i, acc'. split; [done|]. split; [done|]. split; [congruence|]. split; [congruence|]. split; [congruence|].
  unfold web, handle_connection, handle_input. cbn [fst snd]. rewrite Hpt, Ei. cbn [mbind option_bind]. rewrite F3, Hst.
  change (STATE_OUTPUT =? STATE_OUTPUT) with true. cbv iota. unfold handle_output. cbn [c_out]. rewrite Ho, Hl, F1, F2, Hfn, Hhp, <- resumed_id.
  unfold thread. destruct (outputpt (c_out c)) eqn:E; [done| | | | | |];
    (destruct (output_resume _ _ _ _ _) as [[c' w]|]; [|done]); done.
Qed.

(** A call in which the output thread goes on to its next segment, or ends. *)
Lemma next_segment fname hp K e b c segs D i acc :
  sends fuel fname hp str mss K c segs → c_u c = event_uip mss e b → e ≠ Rexmit →
  in_wait i acc → sin_pt i = InHeaders → h_state i = STATE_OUTPUT → filename i = fname → http_params i = hp →
  ∃ c1 w cn, K c = Some (c1, w) ∧ tcp_appsend (c_u c1) (Conn None D false) = Some cn ∧
    ∀ t r n, page_state fname hp ((c_g c1, HttpdState t r n i (c_out c1) (c_lua c1)), cn) (first_bytes segs) segs D.
Proof.
  intros Hs Hu He Hw Hpt Hst Hfn Hhp. destruct Hs as [K c c' E Eu|K c c1 g K1 rest E Eu Hfl Hnext].
  - exists c', false, (Conn None D true). split; [done|]. split; [|done]. rewrite Eu. by apply appsend_close.
  - exists c1, true, (Conn (Some (seg_bytes g)) D false). split; [done|]. split.
    + rewrite Eu, Hu. pose proof (flies_bytes _ _ _ _ _ _ _ _ Hfl). apply appsend_put; [by destruct e|by destruct e|done|]. by destruct e.
    + intros t r n. cbn [page_state fst snd h_out h_lua h_in first_bytes]. exists c1, K1, acc. by destruct g.
Qed.

Lemma apprexmit_resent u g (cn : conn) d :
  inflight cn = Some d → in_flight g d → 0 < msize (seg_bytes g) → msize (seg_bytes g) <= msize (uip_appdata u) →
  tcp_apprexmit (resent u g) cn = Some (Conn (Some (resent_bytes g (uip_appdata u))) (delivered cn) (fin cn)).
Proof.
  intros Hd Hf Hg Hr. destruct g as [d'|d']; cbn [in_flight seg_bytes resent resent_bytes] in *.
  - subst d'. rewrite (apprexmit_put u d cn) by done. destruct cn. cbn in *. by subst.
  - unfold tcp_apprexmit. rewrite Hd. cbn [uip_slen set_slen uip_appdata]. rewrite (proj2 (Z.ltb_lt 0 _)) by done. rewrite Hf.
    assert (mread (uip_appdata u) 0 (msize d') = Some (take (length d') (uip_appdata u))) as ->; [|done].
    apply mread_spec. change (Z.to_nat 0) with 0%nat. rewrite drop_0. split_and!; [lia|apply msize_nonneg|lia|unfold msize; by rewrite Nat2Z.id].
Qed.

(** The bytes in flight after an event that is not an acknowledgment. *)
Definition still (e : event) (b d : mem) (g : segment) : mem := match e with Rexmit => resent_bytes g b | _ => d end.

Lemma in_flight_still e b d g : in_flight g d → event_room mss (e, b) → 0 < msize (seg_bytes g) <= mss → in_flight g (still e b d g).
Proof.
  intros Hf [Hr _] Hg. cbn in Hr. destruct e; cbn [still]; try done. destruct g as [d'|d']; cbn [resent_bytes in_flight seg_bytes] in *; [done|].
  unfold msize in *. rewrite length_take. lia.
Qed.

(** An event while the first segment is in flight: the call leaves the thread where it is. *)
Lemma flight_step fname hp c g K e b :
  flies fuel fname hp str mss c g K → event_room mss (e, b) → is_ack (e, b) = false →
  ∃ s', thread fuel fname hp str (resumed c (event_uip mss e b) (sout (c_out c)))
      = Some (resumed c (match e with Rexmit => resent (event_uip mss e b) g | _ => event_uip mss e b end) s', true) ∧
    flies fuel fname hp str mss (resumed c (match e with Rexmit => resent (event_uip mss e b) g | _ => event_uip mss e b end) s') g K.
Proof.
  intros Hfl Hr He. pose proof (event_ready e b Hr) as Hrd. destruct e; [done| | | |done].
  - destruct (flies_resend fuel fname hp str mss ltac:(lia) c g K (event_uip mss Rexmit b)) as (s' & Et & Hfl'); [done..|]. by exists s'.
  - destruct (flies_idle fuel fname hp str mss c g K (event_uip mss (New d) b)) as (s' & Et & Hfl'); [done..|]. by exists s'.
  - destruct (flies_idle fuel fname hp str mss c g K (event_uip mss Poll b)) as (s' & Et & Hfl'); [done..|]. by exists s'.
Qed.

Lemma page_step fname hp x d segs D e b :
  page_state fname hp x d segs D → event_room mss (e, b) → bytes_ok (new_data (e, b)) →
  ∃ x', tcp_step web mss x (e, b) = Some x' ∧
    match segs with
    | [] => page_state fname hp x' d segs D
    | g :: rest => if is_ack (e, b) then page_state fname hp x' (first_bytes rest) rest (D ++ d) else page_state fname hp x' (still e b d g) segs D
    end.
Proof.
  intros Hx Hr Hok. destruct x as [[g s] cn]. destruct segs as [|sg rest].
  - cbn in Hx. subst cn. by exists ((g, s), Conn None D true).
  - destruct Hx as (c & K & acc & Hg & Ho & Hl & Hfl & Hnext & Hw & Hpt & Hst & Hfn & Hhp & Hc & Hd). cbn [fst snd] in *. subst cn.
    pose proof (flies_bytes _ _ _ _ _ _ _ _ Hfl) as Hb. pose proof (event_ready e b Hr) as Hrd.
    destruct (web_output fname hp g s e b c acc Hr Hok Hw Hpt Hst Hfn Hhp Hg Ho Hl (flies_begun fname hp c sg K Hfl))
      as (i & acc' & Hw' & Hpt' & Hst' & Hfn' & Hhp' & Ew).
    destruct (is_ack (e, b)) eqn:Ea.
    + assert (uip_acked (event_uip mss e b) = true ∧ uip_rexmit (event_uip mss e b) = false ∧ e ≠ Rexmit) as (Hua & Hux & Hne) by by destruct e.
      destruct (flies_ack fuel fname hp str mss c sg K (event_uip mss e b)) as (s' & Hs' & Et); [done..|].
      destruct (next_segment fname hp K e b (resumed c (event_uip mss e b) s') rest (D ++ d) i acc') as (c1 & w & cn & EK & Ecn & Hps);
        [by apply Hnext|done..|].
      exists ((c_g c1, HttpdState (timer s) (ripaddr s) (http_connection_nr s) i (c_out c1) (c_lua c1)), cn).
      split; [|apply Hps]. unfold tcp_step, tcp_call. cbn [fst snd].
      assert (event_enabled e (Conn (Some d) D false) = true ∧ event_conn e (Conn (Some d) D false) = Conn None (D ++ d) false) as [-> ->]
        by by destruct e.
      rewrite Ew, Et, EK. cbn [mbind option_bind].
      assert (∀ x y, (match e with Rexmit => x | _ => y end : option conn) = y) as -> by by destruct e. by rewrite Ecn.
    + destruct (flight_step fname hp c sg K e b Hfl Hr Ea) as (s' & Et & Hfl').
      set (u' := match e with Rexmit => _ | _ => _ end) in Et, Hfl'. destruct (event_enabled e (Conn (Some d) D false)) eqn:Hen.
      * exists ((c_g c, HttpdState (timer s) (ripaddr s) (http_connection_nr s) i (c_out (resumed c u' s')) (c_lua c)), Conn (Some (still e b d sg)) D false). split.
        -- unfold tcp_step, tcp_call. cbn [fst snd]. rewrite Hen, Ew, Et. cbn [mbind option_bind resumed c_g c_u c_lua].
           destruct e; [done| | | |done].
           ++ change (event_conn Rexmit (Conn (Some d) D false)) with (Conn (Some d) D false). unfold u'.
              rewrite (apprexmit_resent _ _ _ d); [done|done|done|lia|]. destruct Hr as [Hr _]. cbn in *. lia.
           ++ unfold u'. rewrite appsend_none by done. done.
           ++ unfold u'. rewrite appsend_none by done. done.
        -- exists (resumed c u' s'), K, acc'. cbn [fst snd h_out h_lua h_in]. split_and!; try done. by apply in_flight_still.
      * exists ((g, s), Conn (Some d) D false). split; [unfold tcp_step; cbn [fst snd]; by rewrite Hen|]. destruct e; try done.
Qed.

Lemma page_run fname hp es x d segs D :
  page_state fname hp x d segs D → Forall (event_room mss) es → Forall (λ e, bytes_ok (new_data e)) es →
  ∃ x', tcp_run web mss x es = Some x' ∧ x'.2 = client_gets d segs D es.
Proof.
  revert x d segs D. induction es as [|[e b] es IH]; intros x d segs D Hx Hr Hok.
  - exists x. split; [done|]. destruct segs as [|g rest]; cbn in Hx |- *; [done|].
    by destruct Hx as (? & ? & ? & ? & ? & ? & ? & ? & ? & ? & ? & ? & ? & ? & ?).
  - apply Forall_cons in Hr as [Hr Hrs]. apply Forall_cons in Hok as [Hok Hoks].
    destruct (page_step fname hp x d segs D e b Hx Hr Hok) as (x1 & E1 & Hx1). cbn [tcp_run]. rewrite E1. cbn [mbind option_bind].
    destruct segs as [|g rest].
    + destruct (IH x1 d [] D Hx1 Hrs Hoks) as (x2 & -> & Ex2). exists x2. split; [done|]. rewrite Ex2. by destruct es.
    + destruct (is_ack (e, b)) eqn:Ea.
      * destruct (IH x1 _ _ _ Hx1 Hrs Hoks) as (x2 & -> & Ex2). exists x2. split; [done|]. rewrite Ex2. by destruct e.
      * destruct (IH x1 _ _ _ Hx1 Hrs Hoks) as (x2 & -> & Ex2). exists x2. split; [done|]. rewrite Ex2. by destruct e.
Qed.

(** ** Opening the page *)
Lemma search_no_cache nm : nm ≠ [] → search_name_from 0 no_cache nm = Some (Z.of_nat FILE_CACHE_NR).
Proof. by destruct nm. Qed.

Lemma full_path (name : mem) nm :
  cstr name = Some nm → msize nm <= FILE_NAME_MAX_SIZE →
  ∃ m, c_strcat (FILE_NAME_PREFIX ++ replicate 11 0) name = Some m ∧ cstr m = Some (FILE_NAME_PREFIX ++ nm).
Proof.
  intros Hn Hs. unfold FILE_NAME_MAX_SIZE in Hs. unfold c_strcat. rewrite Hn. change (cstr (FILE_NAME_PREFIX ++ replicate 11 0)) with (Some FILE_NAME_PREFIX).
  cbn [mbind option_bind]. set (dst := FILE_NAME_PREFIX ++ replicate 11 0). change (msize FILE_NAME_PREFIX) with 4.
  destruct (mwrite_is_Some dst 4 (nm ++ [0])) as [m Hw]; [lia|rewrite msize_app; change (msize [0]) with 1; change (msize dst) with 15; lia|].
  exists m. split; [done|]. destruct (cstr_inv _ _ Hn) as [Hnz _].
  apply cstr_front; [apply Forall_app; split; [repeat constructor; done|done]|]. rewrite <- app_assoc. apply bytes_at_app. split.
  - unfold bytes_at. rewrite (mread_mwrite_disjoint _ _ _ _ _ _ Hw) by (left; done). reflexivity.
  - exact (bytes_at_mwrite _ _ _ _ Hw).
Qed.

(** The page is read into the buffer that all connections use, and a 0 is put behind it, leaving one byte out. *)
Lemma open_page fs (name : mem) nm f h page :
  huge fs = Some h → cache fs = no_cache → cstr name = Some nm → nm ≠ [] → msize nm <= FILE_NAME_MAX_SIZE →
  mmc (FILE_NAME_PREFIX ++ nm) = Some (Some (msize page), page) → msize page <= FILE_HUGE_SIZE → msize page + 2 <= msize h →
  ∃ x post, httpd_fs_open fs name f = Some (FileFs (Some (page ++ x :: 0 :: post)) no_cache, (PHuge 0, msize page), true).
Proof.
  intros Hh Hc Hn Hne Hs Hmmc Hp Hroom. pose proof (msize_nonneg page) as Hpn. unfold FILE_HUGE_SIZE in Hp.
  unfold httpd_fs_open, httpd_fs_int. rewrite Hh. change (ctrue 0) with false. cbv iota. rewrite Hn. cbn [mbind option_bind].
  unfold httpd_fs_search_name. rewrite Hc, search_no_cache by done. cbn [mbind option_bind]. rewrite Z.ltb_irrefl.
  destruct (full_path name nm Hn Hs) as (m & -> & Hm). cbn [mbind option_bind]. rewrite Hm. cbn [mbind option_bind]. rewrite Hmmc, (u32_id (msize page)) by lia.
  rewrite (proj2 (Z.ltb_ge FILE_HUGE_SIZE _)) by (unfold FILE_HUGE_SIZE; lia). cbn [mbind option_bind].
  rewrite take_ge by (unfold msize; lia). rewrite Hh. cbn [mbind option_bind]. destruct (mwrite_is_Some h 0 page) as [h1 Hw]; [lia..|].
  rewrite Hw. cbn [mbind option_bind].
  rewrite Z.eqb_refl. cbn [negb]. rewrite (mwrite_prefix _ _ _ Hw). set (r := drop (length page) h).
  assert (2 <= length r)%nat as Hr by (unfold r; rewrite length_drop; unfold msize in Hroom; lia).
  destruct r as [|x [|y post]]; cbn [length] in Hr; [lia|lia|]. exists x, post.
  rewrite st_spec by (rewrite msize_app, !msize_cons; pose proof (msize_nonneg post); lia). cbn [mbind option_bind]. do 4 f_equal.
  replace (Z.to_nat (msize page + 1)) with (length page + 1)%nat by (unfold msize; lia). change (u8 0) with 0.
  by rewrite insert_app_r.
Qed.


(** ** The whole connection *)

(** What arrives while nothing is in flight. *)
Definition request_data (e : event * mem) : list Z := match e.1 with New d => d | _ => [] end.

Section connection.
Context (path name : list Z) (q : option (list Z)) (g : globals V) (s : httpd_state).

(** When the path is known, the output thread sends [segs]. *)
Definition answers (segs : list segment) : Prop :=
  ∀ u i, ready mss u → uip_rexmit u = false → requested i (http_params (h_in s)) name q → msize (filename i) = 20 →
  ∃ c K f, handle_output fuel (Ctx u g (h_out (conn_init s)) (h_lua s)) i str = ('(c', _) ← K c; Some (c', set_filename i f)) ∧
    msize f = msize (filename i) ∧ c_u c = u ∧ sends fuel f (http_params i) str mss K c segs.

(** Before the path has been received. *)
Definition request_begun (x : globals V * httpd_state * conn) (r : list Z) : Prop :=
  x.1.1 = g ∧ h_out x.1.2 = h_out (conn_init s) ∧ h_lua x.1.2 = h_lua s ∧ x.2 = Conn None [] false ∧
  in_state path name q (http_params (h_in s)) (h_in x.1.2) r.

(** The first bytes of the request, up to the end of the path. *)
Definition request_line : list Z := get ++ ISO_space :: path ++ [ISO_space].

Lemma in_state_unfinished i r :
  in_state path name q (http_params (h_in s)) i r → ¬ request_line `prefix_of` r → h_state i = STATE_WAITING.
Proof.
  intros [r' _ _ _ H _|r' _ _ _ H _|acc r' _ _ _] Hn; [done|done|]. destruct Hn. exists r'. unfold request_line. rewrite <- app_assoc. cbn [app]. by rewrite <- app_assoc.
Qed.

Hypothesis Hpath : path_ok path.
Hypothesis Hnames : path_names path name q.

(** An event while the request is being received. *)
Lemma request_step x r e b tail0 :
  request_begun x r → event_room mss (e, b) → bytes_ok (new_data (e, b)) →
  r ++ request_data (e, b) `prefix_of` stream path tail0 → ¬ request_line `prefix_of` (r ++ request_data (e, b)) →
  ∃ x', tcp_step web mss x (e, b) = Some x' ∧ request_begun x' (r ++ request_data (e, b)).
Proof.
  intros (Hg & Ho & Hl & Hc & Hi) Hr Hok Hpre Hn. destruct x as [[g0 s0] cn]. cbn [fst snd] in *. subst g0 cn. unfold tcp_step, tcp_call. cbn [fst snd].
  destruct (event_enabled e (Conn None [] false)) eqn:He.
  2: { assert (request_data (e, b) = []) as -> by by destruct e. rewrite app_nil_r. by eexists. }
  assert (request_data (e, b) = new_data (e, b)) as Ed by by destruct e. rewrite Ed in *.
  destruct (handle_input_ok path tail0 name q (http_params (h_in s)) Hpath Hnames (event_uip mss e b) (h_in s0) r (new_data (e, b)) Hi)
    as (i & Ei & Hi'); [by apply event_avail, (in_state_drained path name q (http_params (h_in s)) _ r)|done|by destruct e; cbn; try done; apply msize_nonneg|done|].
  unfold web, handle_connection. cbn [fst snd]. rewrite Ei. cbn [mbind option_bind]. rewrite (in_state_unfinished i _ Hi' Hn).
  change (STATE_WAITING =? STATE_OUTPUT) with false. cbv iota. cbn [mbind option_bind c_u c_g].
  assert (event_conn e (Conn None [] false) = Conn None [] false) as -> by by destruct e.
  destruct e; [done|done| | |done]; (rewrite appsend_none by done); (eexists; split; [reflexivity|]); done.
Qed.

Lemma request_run es x r tail0 :
  request_begun x r → Forall (event_room mss) es → Forall (λ e, bytes_ok (new_data e)) es →
  r ++ concat (request_data <$> es) `prefix_of` stream path tail0 →
  ¬ request_line `prefix_of` (r ++ concat (request_data <$> es)) →
  ∃ x', tcp_run web mss x es = Some x' ∧ request_begun x' (r ++ concat (request_data <$> es)).
Proof.
  revert x r. induction es as [|[e b] es IH]; intros x r Hx Hr Hok Hpre Hn; cbn [tcp_run fmap list_fmap concat] in *.
  { rewrite app_nil_r. by exists x. }
  rewrite app_assoc in Hpre, Hn |- *. apply Forall_cons in Hr as [Hr Hrs]. apply Forall_cons in Hok as [Hok Hoks].
  destruct (request_step x r e b tail0 Hx Hr Hok) as (x1 & -> & Hx1).
  - etrans; [|exact Hpre]. by apply prefix_app_r.
  - intros H. apply Hn. by apply prefix_app_r.
  - cbn [mbind option_bind]. by apply IH.
Qed.

(** The event that completes the path: the first segment is sent. *)
Lemma request_completed segs x r d b tail0 :
  answers segs → request_begun x r → event_room mss (New d, b) → bytes_ok d → r ++ d = stream path tail0 →
  ∃ fname hp x', tcp_step web mss x (New d, b) = Some x' ∧ page_state fname hp x' (first_bytes segs) segs [].
Proof.
  intros Hans (Hg & Ho & Hl & Hc & Hi) Hr Hok E. destruct x as [[g0 s0] cn]. cbn [fst snd] in *. subst g0 cn.
  destruct (handle_input_ok path tail0 name q (http_params (h_in s)) Hpath Hnames (event_uip mss (New d) b) (h_in s0) r d Hi)
    as (i & Ei & Hi'); [by apply (event_avail mss (New d) b), (in_state_drained path name q (http_params (h_in s)) _ r)|done|apply msize_nonneg|by rewrite E|].
  rewrite E in Hi'. destruct (in_state_done _ _ _ _ _ _ Hi') as (acc & Hw & Hpt & Hreq).
  pose proof Hreq as (Hst & _). pose proof Hw as ((Hd1 & Hd2 & Hd3 & Hd4) & Hrd & Hdr).
  destruct (Hans (event_uip mss (New d) b) i (event_ready (New d) b Hr) eq_refl Hreq Hd3) as (c & K & f & Eh & Hf & Hcu & Hs).
  destruct (next_segment f (http_params i) K (New d) b c segs [] (set_filename i f) acc Hs) as (c1 & w & cn & EK & Ecn & Hps); [done|done| |done..|].
  { split; [|by split]. split_and!; try done. cbn. congruence. }
  exists f, (http_params i), ((c_g c1, HttpdState (timer s0) (ripaddr s0) (http_connection_nr s0) (set_filename i f) (c_out c1) (c_lua c1)), cn).
  split; [|apply Hps]. unfold tcp_step, tcp_call. cbn [fst snd event_enabled fin negb andb event_conn].
  unfold web, handle_connection. cbn [fst snd]. rewrite Ei. cbn [mbind option_bind]. rewrite Hst. change (STATE_OUTPUT =? STATE_OUTPUT) with true. cbv iota.
  rewrite Ho, Hl, Eh, EK. cbn [mbind option_bind]. rewrite Ecn. done.
Qed.

(** A request that is answered with [segs], over a connection. *)
Lemma answer_run segs tail0 es d b es' :
  answers segs → state_dims s →
  Forall (event_room mss) (es ++ (New d, b) :: es') → Forall (λ e, bytes_ok (new_data e)) (es ++ (New d, b) :: es') →
  concat (request_data <$> es) ++ d = stream path tail0 → ¬ request_line `prefix_of` concat (request_data <$> es) →
  ∃ x, tcp_run web mss ((g, conn_init s), Conn None [] false) (es ++ (New d, b) :: es') = Some x ∧
    x.2 = client_gets (first_bytes segs) segs [] es'.
Proof.
  intros Hans Hdims Hr Hok E Hn. apply Forall_app in Hr as [Hr0 Hr]. apply Forall_app in Hok as [Hok0 Hok].
  apply Forall_cons in Hr as [Hr1 Hr2]. apply Forall_cons in Hok as [Hok1 Hok2]. rewrite tcp_run_app.
  destruct (request_run es ((g, conn_init s), Conn None [] false) [] tail0) as (x & -> & Hx); [|done|done| |done|].
  - split; [done|]. split; [done|]. split; [done|]. split; [done|]. by apply conn_init_in.
  - cbn [app]. rewrite <- E. by apply prefix_app_r.
  - cbn [app mbind option_bind tcp_run] in *. destruct (request_completed segs x _ d b tail0 Hans Hx Hr1 Hok1 E) as (fname & hp & x1 & -> & Hx1).
    cbn [mbind option_bind]. by apply (page_run fname hp).
Qed.
End connection.
End page.

(** ** The client table and the output

    The threads of a connection neither read nor change the table of clients, nor the fields of the connection's state that belong
    to it. *)
Section blind.
Context {V : Type} {core : LuaCore V} {card : FileSystem}.
Implicit Types (c : ctx (V:=V)) (cs : list (option Z * (Z * Z))).

Definition moved cs c : ctx (V:=V) := Ctx (c_u c) (set_conn (c_g c) cs) (c_out c) (c_lua c).

Definition blind (f : ctx (V:=V) → option (ctx (V:=V) * bool)) : Prop := ∀ cs c, f (moved cs c) = prod_map (moved cs) id <$> f c.

Lemma blind_return (h : ctx (V:=V) → ctx (V:=V)) w : (∀ cs c, h (moved cs c) = moved cs (h c)) → blind (λ c, Some (h c, w)).
Proof. intros H cs c. cbn. by rewrite H. Qed.

Lemma out_send_moved cs c buf len : out_send (moved cs c) buf len = prod_map (moved cs) id <$> out_send c buf len.
Proof. unfold out_send. change (fetch (moved cs c)) with (fetch c). cbn [moved c_out c_u]. by destruct (psock_send _ _ _ _ _ _ _) as [[[u s] r]|]. Qed.

Lemma blind_send l buf len k : blind k → ∀ cs c, at_send (moved cs c) l buf len k = prod_map (moved cs) id <$> at_send c l buf len k.
Proof. intros Hk cs c. unfold at_send. rewrite out_send_moved. destruct (out_send c buf len) as [[c1 []]|]; [done|apply Hk|done]. Qed.

Lemma blind_wait (f g : ctx (V:=V) → option (ctx (V:=V) * bool)) (h : ctx (V:=V) → ctx (V:=V)) :
  blind f → blind g → (∀ cs c, h (moved cs c) = moved cs (h c)) → blind (λ c, '(c, w) ← f c; if (w : bool) then Some (h c, true) else g c).
Proof. intros Hf Hg Hh cs c. rewrite Hf. destruct (f c) as [[c1 []]|]; cbn; [by rewrite Hh|apply Hg|done]. Qed.

Lemma blind_script_wait l f g : blind f → blind g → blind (λ c, script_wait l (f c) g).
Proof. intros Hf Hg. by apply (blind_wait f g (λ c, with_out c (set_scriptpt (c_out c) l))). Qed.

Lemma blind_output_wait l f g : blind f → blind g → blind (λ c, output_wait l (f c) g).
Proof. intros Hf Hg. by apply (blind_wait f g (λ c, with_out c (set_outputpt (c_out c) l))). Qed.

Lemma blind_pt_end : blind pt_end.
Proof. done. Qed.

Lemma blind_part : blind send_part_of_file.
Proof. intros cs c. unfold send_part_of_file. cbn [moved c_out]. destruct (sout_pt (c_out c)); try done; apply blind_send, blind_pt_end. Qed.

Lemma blind_elua : blind http_output_elua.
Proof. intros cs c. unfold http_output_elua. cbn [moved c_out c_lua]. destruct (sout_pt (c_out c)); try done; apply blind_send, blind_pt_end. Qed.

Lemma blind_send_str l str k : blind k → blind (λ c, at_send_str c l str k).
Proof. intros Hk cs c. unfold at_send_str. destruct (strlen str); [by apply blind_send|done]. Qed.

Lemma blind_headers fname hdr : blind (λ c, send_headers c fname hdr).
Proof.
  assert (blind (λ c, t ← content_type fname; at_send_str c SType t pt_end)) as Ht.
  { intros cs c. destruct (content_type fname); [by apply blind_send_str|done]. }
  intros cs c. unfold send_headers. cbn [moved c_out]. destruct (sout_pt (c_out c)); try done; first [apply (blind_send_str _ _ _ Ht) | apply Ht].
Qed.

Lemma blind_send_file fuel : blind (send_file fuel).
Proof.
  induction fuel as [|fuel IH]; intros cs c; [done|]. cbn [send_file moved c_out]. change (fetch (moved cs c)) with (fetch c).
  change (generate_part_of_file (moved cs c)) with (generate_part_of_file c). cbn [moved c_u].
  destruct (sout_pt (c_out c)); try done; (destruct (psock_generator_send _ _ _ _ _ _ _ _) as [[[[n u] s] r]|]; [|done]); cbn [mbind option_bind];
    (destruct (r =? PT_WAITING); [done|]); cbn [c_out with_out with_u]; (destruct (file _) as [data flen]); (destruct (0 <? _); [|done]);
    match goal with |- _ = prod_map _ _ <$> send_file fuel ?c1 => exact (IH cs c1) end.
Qed.

(** A script's interpreter is not that of the table either. *)
Lemma run_elua_moved g l hp str data cs :
  http_run_elua (set_conn g cs) l hp str data = (λ r, (set_conn r.1.1 cs, r.1.2, r.2)) <$> http_run_elua g l hp str data.
Proof.
  unfold http_run_elua. set (l0 := Hlua _ _ _ _).
  assert (run_close (set_conn g cs) l0 = (set_conn (run_close g l0).1 cs, (run_close g l0).2)) as ->.
  { unfold run_close. destruct (hl_L l0); [destruct (new_pht_page l0)|]; done. }
  destruct (run_close g l0) as [g1 l1]. cbn [fst snd].
  assert ((match hl_L l1 with None => run_open (set_conn g1 cs) l1 | Some _ => Some (set_conn g1 cs, l1) end) =
    (λ r, (set_conn r.1 cs, r.2)) <$> (match hl_L l1 with None => run_open g1 l1 | Some _ => Some (g1, l1) end)) as ->.
  { destruct (hl_L l1); [done|]. unfold run_open. change (g_lua (set_conn g1 cs)) with (g_lua g1). by destruct (vm_open (g_lua g1)) as [[p v]|]. }
  destruct (match hl_L l1 with None => _ | Some _ => _ end) as [[g2 l2]|]; [|done]. cbn [fmap option_fmap option_map fst snd].
  destruct (hl_L l2) as [p|]; [|done]. cbn [mbind option_bind]. change (g_lua (set_conn g2 cs)) with (g_lua g2). destruct (g_lua g2 !! p) as [x|]; [|done]. cbn [mbind option_bind].
  destruct (run_params _ _ _ _) as [[v top]|]; [|done]. cbn [mbind option_bind]. destruct (vm_run v data) as [[v' outs] err]. by destruct (write_all l2 outs).
Qed.

Lemma ctx_run_moved cs c hp str p len : ctx_run (moved cs c) hp str p len = moved cs <$> ctx_run c hp str p len.
Proof.
  unfold ctx_run. change (object (moved cs c) p) with (object c p). destruct (mread _ _ _) as [bs|]; [|done]. cbn [mbind option_bind moved c_g c_lua].
  rewrite run_elua_moved. by destruct (http_run_elua _ _ _ _ _) as [[[g l] e]|].
Qed.

Lemma tags_body_moved cs c hp str : tags_body (moved cs c) hp str = prod_map (moved cs) id <$> tags_body c hp str.
Proof.
  unfold tags_body. cbn [moved c_out c_u]. destruct (file (c_out c)) as [data flen].
  change (object (Ctx (c_u c) (set_conn (c_g c) cs) (c_out c) (c_lua c))) with (object c). cbv zeta.
  destruct (starts_with _ _) as [[]|]; cbn [mbind option_bind]; [| |done].
  2:{ destruct (head _) as [x|]; [|done]. cbn [mbind option_bind]. by destruct (if x =? ISO_minor then _ else _) as [ptr|]. }
  destruct (strstr _ _) as [[k|]|]; cbn [mbind option_bind]; [|done|done].
  change (Ctx (c_u c) (set_conn (c_g c) cs) (c_out c) (c_lua c)) with (moved cs c). rewrite ctx_run_moved. by destruct (ctx_run c hp str _ k).
Qed.

Lemma blind_tags_loop fuel hp str : blind (λ c, tags_loop fuel c hp str).
Proof.
  induction fuel as [|fuel IH]; intros cs c; [done|]. cbn [tags_loop moved c_out]. destruct (0 <? _); [|done].
  change (Ctx (c_u c) (set_conn (c_g c) cs) (c_out c) (c_lua c)) with (moved cs c). rewrite tags_body_moved.
  destruct (tags_body c hp str) as [[c1 [[]|[]]]|]; cbn [fmap option_fmap option_map prod_map mbind option_bind id]; [| |apply IH|done].
  - apply (blind_script_wait ScTagOut http_output_elua _ blind_elua IH).
  - apply (blind_script_wait ScTagPart send_part_of_file (λ c, tags_loop fuel (tags_part_sent c) hp str) blind_part). intros cs' c'.
    replace (tags_part_sent (moved cs' c')) with (moved cs' (tags_part_sent c')); [apply IH|]. unfold tags_part_sent. cbn [moved c_out]. by destruct (file (c_out c')).
Qed.

Lemma part_sent_moved cs c : tags_part_sent (moved cs c) = moved cs (tags_part_sent c).
Proof. unfold tags_part_sent. cbn [moved c_out]. by destruct (file (c_out c)). Qed.

Lemma blind_tags fuel hp str : blind (λ c, handle_elua_tags fuel c hp str).
Proof.
  intros cs c. unfold handle_elua_tags. cbn [moved c_out]. destruct (scriptpt (c_out c)); [| | |done].
  - apply blind_tags_loop.
  - apply (blind_script_wait ScTagOut http_output_elua _ blind_elua (blind_tags_loop fuel hp str)).
  - apply (blind_script_wait ScTagPart send_part_of_file (λ c, tags_loop fuel (tags_part_sent c) hp str) blind_part). intros cs' c'. rewrite part_sent_moved. apply blind_tags_loop.
Qed.

Lemma blind_scripts hp str : blind (λ c, handle_elua_scripts c hp str).
Proof.
  assert (blind script_end) as He by done. intros cs c. unfold handle_elua_scripts. cbn [moved c_out]. destruct (scriptpt (c_out c)); try done.
  - change (Ctx (c_u c) (set_conn (c_g c) cs) (c_out c) (c_lua c)) with (moved cs c). rewrite ctx_run_moved. destruct (ctx_run c hp str _ _) as [c1|]; [|done]. cbn [fmap option_fmap option_map mbind option_bind].
    apply (blind_script_wait ScScriptOut http_output_elua _ blind_elua He).
  - apply (blind_script_wait ScScriptOut http_output_elua _ blind_elua He).
Qed.

Lemma blind_output_end : blind output_end.
Proof. done. Qed.

Lemma blind_output_file l : blind (output_file l).
Proof. intros cs c. unfold output_file. exact (blind_output_wait l _ _ (blind_send_file _) blind_output_end cs c). Qed.

Lemma blind_output_tags fuel hp str : blind (λ c, output_tags fuel c hp str).
Proof. exact (blind_output_wait OTags _ _ (blind_tags fuel hp str) blind_output_end). Qed.

Lemma blind_output_scripts hp str : blind (λ c, output_scripts c hp str).
Proof. exact (blind_output_wait OScripts _ _ (blind_scripts hp str) blind_output_end). Qed.

Lemma blind_body fuel fname hp str : blind (λ c, output_body fuel c fname hp str).
Proof.
  intros cs c. unfold output_body. destruct (strchr fname ISO_period) as [[k|]|]; cbn [mbind option_bind]; [|apply blind_output_file|done].
  destruct (strneq 4 _ http_pht) as [[]|]; cbn [mbind option_bind]; [apply (blind_output_tags fuel hp str cs (script_init (set_new_pht_page c)))| |done].
  destruct (strneq 4 _ http_lua) as [[]|]; cbn [mbind option_bind]; [apply (blind_output_scripts hp str cs (script_init c))|apply blind_output_file|done].
Qed.

Lemma blind_resume fuel fname hp str : blind (λ c, output_resume fuel c fname hp str).
Proof.
  intros cs c. unfold output_resume. cbn [moved c_out]. destruct (outputpt (c_out c)); [done| | | | | |].
  - exact (blind_output_wait OHeaders404 _ _ (blind_headers _ _) (blind_output_file OFile404) cs c).
  - apply (blind_output_file OFile404).
  - exact (blind_output_wait OHeaders _ _ (blind_headers _ _) (blind_body fuel fname hp str) cs c).
  - apply blind_output_tags.
  - apply blind_output_scripts.
  - apply blind_output_file.
Qed.

Lemma open_moved cs c i : output_open (moved cs c) i = (λ r, (moved cs r.1.1, r.1.2, r.2)) <$> output_open c i.
Proof.
  unfold output_open. cbn [moved c_g c_out]. change (g_fs (set_conn (c_g c) cs)) with (g_fs (c_g c)).
  destruct (httpd_fs_open _ _ _) as [[[fs f] []]|]; cbn [mbind option_bind]; [done| |done].
  destruct (httpd_fs_open fs _ _) as [[[fs2 f2] ok]|]; cbn [mbind option_bind]; [|done]. by destruct (c_strcpy _ _).
Qed.

Lemma handle_output_moved fuel cs c i str : handle_output fuel (moved cs c) i str = prod_map (moved cs) id <$> handle_output fuel c i str.
Proof.
  assert (∀ f i, blind f → ∀ c, ('(c, _) ← f (moved cs c); Some (c, i)) = prod_map (moved cs) id <$> ('(c, _) ← f c; Some (c, i : hin))) as H.
  { intros f j Hf c'. rewrite Hf. by destruct (f c') as [[? ?]|]. }
  unfold handle_output. cbn [moved c_out]. change (Ctx (c_u c) (set_conn (c_g c) cs) (c_out c) (c_lua c)) with (moved cs c). destruct (outputpt (c_out c)); [|exact (H _ _ (blind_resume fuel _ _ str) c)..].
  rewrite open_moved. destruct (output_open c i) as [[[c1 i1] ok]|]; [|done]. cbn [fmap option_fmap option_map mbind option_bind fst snd]. destruct ok.
  - exact (H _ i1 (blind_output_wait OHeaders _ _ (blind_headers _ _) (blind_body fuel (filename i1) (http_params i1) str)) c1).
  - exact (H _ i1 (blind_output_wait OHeaders404 _ _ (blind_headers _ _) (blind_output_file OFile404)) c1).
Qed.

(** The state and the globals of the web server with another table of clients and another timer. *)
Definition relabel cs (t : Z) (rip : Z * Z) (nr : Z) (r : globals V * httpd_state * uip) : globals V * httpd_state * uip :=
  (set_conn r.1.1 cs, HttpdState t rip nr (h_in r.1.2) (h_out r.1.2) (h_lua r.1.2), r.2).

Lemma handle_connection_moved fuel g s u str cs t rip nr :
  handle_connection fuel (set_conn g cs) (HttpdState t rip nr (h_in s) (h_out s) (h_lua s)) u str = relabel cs t rip nr <$> handle_connection fuel g s u str.
Proof.
  unfold handle_connection. cbn [h_in h_out h_lua timer ripaddr http_connection_nr]. destruct (handle_input u (h_in s)) as [[u1 i]|]; [|done]. cbn [mbind option_bind].
  destruct (h_state i =? STATE_OUTPUT); [|done]. change (Ctx u1 (set_conn g cs) (h_out s) (h_lua s)) with (moved cs (Ctx u1 g (h_out s) (h_lua s))).
  rewrite handle_output_moved. by destruct (handle_output fuel (Ctx u1 g (h_out s) (h_lua s)) i str) as [[c j]|].
Qed.
End blind.

(** ** The whole call of the server

    [httpd_appcall] of one connection, whose entry in the table of clients is [rip]: the client's interpreter is found in the table
    and put back, the timer counts the polls in a row, and the twentieth aborts the connection. *)
Section server.
Context {V : Type} {core : LuaCore V} {card : FileSystem} (fuel : nat) (str : mem) (rip : Z * Z).
Abbreviation server := (globals V * httpd_state)%type.

Definition httpd (w : server) (u : uip) : option (server * uip) :=
  '(g, s, u) ← httpd_appcall fuel w.1 w.2 u rip str; Some ((g, s), u).

(** Fewer than twenty polls in a row, [t] of them before. *)
Fixpoint patient (t : Z) (es : list (event * mem)) : Prop :=
  match es with
  | [] => True
  | (Poll, _) :: es => t + 1 < 20 ∧ patient (t + 1) es
  | _ :: es => patient 0 es
  end.

(** The interpreter of the client that the table has, and the state with it. *)
Definition client_L (g : globals V) : option Z := from_option (λ e, e.2.1) None (client_find (g_conn g) rip).

Definition accepted (g : globals V) (s : httpd_state) : httpd_state := set_client s rip (http_connection_nr s) (client_L g).

(** The table has the interpreter of the connection. *)
Definition settled (w : server) : Prop := ∃ i, client_find (g_conn w.1) rip = Some (i, (hl_L (h_lua w.2), rip)).

(** The threads of both are in the same state. *)
Record same_web (xw xh : server) : Prop := {
  sw_globals : xh.1 = set_conn xw.1 (g_conn xh.1); sw_in : h_in xh.2 = h_in xw.2; sw_out : h_out xh.2 = h_out xw.2; sw_lua : h_lua xh.2 = h_lua xw.2;
  sw_settled : settled xh }.

Lemma find_alter conns i e L : client_find conns rip = Some (i, e) →
  client_find (alter (λ e, (L, e.2)) i conns) rip = Some (i, (L, rip)).
Proof.
  unfold client_find. rewrite !list_find_Some. intros (H1 & H2 & H3). split_and!; [|done|].
  - rewrite list_lookup_alter_eq, H1. cbn. by rewrite H2.
  - intros j y Hj Hlt. rewrite list_lookup_alter_ne in Hj by lia. by eapply H3.
Qed.

Lemma httpd_call xw xh u xw' u' :
  same_web xw xh → uip_flag u UIP_CLOSE = false → uip_flag u UIP_ABORT = false → uip_flag u UIP_TIMEDOUT = false → uip_flag u UIP_CONNECTED = false →
  (uip_flag u UIP_POLL = true → 0 <= timer xh.2 ∧ timer xh.2 + 1 < 20) → web fuel str xw u = Some (xw', u') →
  ∃ xh', httpd xh u = Some (xh', u') ∧ same_web xw' xh' ∧ timer xh'.2 = if uip_flag u UIP_POLL then timer xh.2 + 1 else 0.
Proof.
  intros [Hg Hi Ho Hl [i Hf]] F1 F2 F3 F4 Ht Hw. destruct xw as [g s], xh as [gh sh]. cbn [fst snd] in *. unfold httpd, httpd_appcall. cbn [fst snd]. rewrite Hf, F1, F2, F3, F4. cbn [orb fst].
  set (t := if uip_flag u UIP_POLL then timer sh + 1 else 0).
  assert (∀ s0, timer s0 = timer sh → (if uip_flag u UIP_POLL then let t := u8 (timer s0 + 1) in (set_timer s0 t, if 20 <=? t then uip_abort u else u) else (set_timer s0 0, u)) = (set_timer s0 t, u)) as Hpoll.
  { intros s0 E. unfold t. destruct (uip_flag u UIP_POLL); [|done]. destruct (Ht eq_refl). rewrite E, u8_id by lia. cbv zeta. by rewrite (proj2 (Z.leb_gt _ _)) by lia. }
  rewrite Hpoll by done. assert (set_timer (set_client sh rip (Z.of_nat i) (hl_L (h_lua sh))) t = HttpdState t rip (Z.of_nat i) (h_in s) (h_out s) (h_lua s)) as ->.
  { unfold set_timer, set_client. cbn. rewrite Hi, Ho. f_equal. rewrite <- Hl. by destruct (h_lua sh). }
  rewrite Hg, handle_connection_moved. unfold web in Hw. cbn [fst snd] in Hw. destruct (handle_connection fuel g s u str) as [[[g1 s1] u1]|]; [|done]. cbn [mbind option_bind] in Hw. injection Hw as <- <-.
  cbn [fmap option_fmap option_map mbind option_bind relabel fst snd http_connection_nr h_in h_out h_lua timer]. eexists. split; [done|]. split; [|done].
  constructor; try done. exists i. cbn [fst snd set_conn g_conn h_lua http_connection_nr]. rewrite Nat2Z.id. by eapply find_alter.
Qed.

Definition polls_after (e : event) (t : Z) : Z := match e with Poll => t + 1 | _ => 0 end.

Lemma patient_cons t e b es : patient t ((e, b) :: es) ↔ polls_after e t < 20 ∧ patient (polls_after e t) es.
Proof. destruct e; cbn [patient polls_after]; intuition lia. Qed.

Lemma httpd_step mss xw xh c e b x' :
  same_web xw xh → event_enabled e c = true → 0 <= timer xh.2 → polls_after e (timer xh.2) < 20 → tcp_step (web fuel str) mss (xw, c) (e, b) = Some x' →
  ∃ xh', tcp_step httpd mss (xh, c) (e, b) = Some (xh', x'.2) ∧ same_web x'.1 xh' ∧ timer xh'.2 = polls_after e (timer xh.2).
Proof.
  intros Hs He Ht Hp Hw. unfold tcp_step, tcp_call in *. cbn [fst snd] in *. rewrite He in *. destruct (web fuel str xw (event_uip mss e b)) as [[xw' u']|] eqn:Ew; [|done].
  cbn [mbind option_bind] in Hw. destruct (httpd_call xw xh (event_uip mss e b) xw' u' Hs) as (xh' & -> & Hs' & Ht'); [by destruct e..|intros Hf; split; [done|]; by destruct e|done|].
  cbn [mbind option_bind]. destruct (match e with Rexmit => _ | _ => _ end) as [c'|]; [|done]. cbn [mbind option_bind] in *. injection Hw as <-.
  exists xh'. split; [done|]. split; [done|]. rewrite Ht'. by destruct e.
Qed.

(** ** From the request to the answer *)

Section connection.
Context (mss : Z) (path name : list Z) (q : option (list Z)) (g : globals V) (s : httpd_state).
Hypothesis Hmss : 100 <= mss < 65536.
Hypothesis Hpath : path_ok path.
Hypothesis Hnames : path_names path name q.

(** Events that come when nothing is in flight. *)
Definition unsent (es : list (event * mem)) : Prop := Forall (λ e, event_enabled e.1 (Conn None [] false) = true) es.

Lemma server_request_run es : ∀ x xh r tail0,
  request_begun path name q g s x r → same_web x.1 xh → 0 <= timer xh.2 → patient (timer xh.2) es → unsent es → Forall (event_room mss) es → Forall (λ e, bytes_ok (new_data e)) es →
  r ++ concat (request_data <$> es) `prefix_of` stream path tail0 → ¬ request_line path `prefix_of` (r ++ concat (request_data <$> es)) →
  ∃ x' xh', tcp_run httpd mss (xh, Conn None [] false) es = Some (xh', Conn None [] false) ∧ request_begun path name q g s x' (r ++ concat (request_data <$> es)) ∧ same_web x'.1 xh' ∧
    0 <= timer xh'.2 ∧ ∀ es', patient (timer xh.2) (es ++ es') → patient (timer xh'.2) es'.
Proof.
  induction es as [|[e b] es IH]; intros x xh r tail0 Hx Hs Ht Hp He Hr Hok Hpre Hn; cbn [tcp_run fmap list_fmap concat] in *.
  { rewrite app_nil_r. by exists x, xh. }
  rewrite app_assoc in Hpre, Hn |- *. apply Forall_cons in Hr as [Hr Hrs]. apply Forall_cons in Hok as [Hok Hoks]. apply Forall_cons in He as [He Hes].
  destruct (request_step fuel str mss path name q g s Hpath Hnames x r e b tail0 Hx Hr Hok) as (x1 & E1 & Hx1).
  - etrans; [|exact Hpre]. by apply prefix_app_r.
  - intros H. apply Hn. by apply prefix_app_r.
  - pose proof Hx as (_ & _ & _ & Hc & _). pose proof Hx1 as (_ & _ & _ & Hc1 & _). destruct x as [xw c]. cbn [fst snd] in *. subst c.
    assert (polls_after e (timer xh.2) < 20 ∧ patient (polls_after e (timer xh.2)) es) as [Hp1 Hp2] by by apply patient_cons in Hp.
    destruct (httpd_step mss xw xh (Conn None [] false) e b x1 Hs He Ht Hp1 E1) as (xh1 & -> & Hs1 & Ht1). cbn [mbind option_bind]. rewrite Hc1.
    assert (0 <= polls_after e (timer xh.2)) as Ht2 by (destruct e; cbn; lia). rewrite <- Ht1 in Ht2, Hp2.
    destruct (IH x1 xh1 _ tail0 Hx1 Hs1 Ht2 Hp2 Hes Hrs Hoks Hpre Hn) as (x2 & xh2 & -> & H2 & H3 & H4 & H5). exists x2, xh2. split_and!; try done.
    intros es' He'. apply H5. rewrite Ht1. by apply patient_cons in He' as [_ ?].
Qed.

Lemma server_page_run fname hp es : ∀ x xh d segs D,
  page_state fuel str mss fname hp x d segs D → same_web x.1 xh → 0 <= timer xh.2 → patient (timer xh.2) es → Forall (event_room mss) es → Forall (λ e, bytes_ok (new_data e)) es →
  ∃ x', tcp_run httpd mss (xh, x.2) es = Some x' ∧ x'.2 = client_gets d segs D es.
Proof.
  induction es as [|[e b] es IH]; intros x xh d segs D Hx Hs Ht Hp Hr Hok.
  - exists (xh, x.2). split; [done|]. destruct segs as [|sg rest]; cbn in Hx |- *; [done|].
    by destruct Hx as (? & ? & ? & ? & ? & ? & ? & ? & ? & ? & ? & ? & ? & ? & ?).
  - apply Forall_cons in Hr as [Hr Hrs]. apply Forall_cons in Hok as [Hok Hoks].
    destruct (page_step fuel str mss Hmss fname hp x d segs D e b Hx Hr Hok) as (x1 & E1 & Hx1). cbn [tcp_run]. destruct x as [xw c]. cbn [fst snd] in *.
    destruct segs as [|sg rest].
    + cbn in Hx. subst c. assert (∀ es, tcp_run httpd mss (xh, Conn None D true) es = Some (xh, Conn None D true)) as Hrun by (clear; induction es as [|[e b] es IH]; [done|exact IH]).
      exists (xh, Conn None D true). split; [exact (Hrun ((e, b) :: es))|]. done.
    + assert (event_enabled e c = true) as He by (destruct Hx as (? & ? & ? & ? & ? & ? & ? & ? & ? & ? & ? & ? & ? & Hcx & ?); cbn [snd] in Hcx; rewrite Hcx; by destruct e).
      assert (polls_after e (timer xh.2) < 20 ∧ patient (polls_after e (timer xh.2)) es) as [Hp1 Hp2] by by apply patient_cons in Hp.
      destruct (httpd_step mss xw xh c e b x1 Hs He Ht Hp1 E1) as (xh1 & -> & Hs1 & Ht1). cbn [mbind option_bind].
      assert (0 <= polls_after e (timer xh.2)) as Ht2 by (destruct e; cbn; lia). rewrite <- Ht1 in Ht2, Hp2.
      destruct (is_ack (e, b)) eqn:Ea; (destruct (IH x1 xh1 _ _ _ Hx1 Hs1 Ht2 Hp2 Hrs Hoks) as (x2 & -> & Ex2)); exists x2; (split; [done|]); rewrite Ex2; by destruct e.
Qed.

Lemma server_answer_run segs tail0 es d b es' x xh :
  answers fuel str mss name q g s segs → request_begun path name q g s x [] → same_web x.1 xh → timer xh.2 = 0 → unsent es → patient 0 (es ++ (New d, b) :: es') →
  Forall (event_room mss) (es ++ (New d, b) :: es') → Forall (λ e, bytes_ok (new_data e)) (es ++ (New d, b) :: es') →
  concat (request_data <$> es) ++ d = stream path tail0 → ¬ request_line path `prefix_of` concat (request_data <$> es) →
  ∃ y, tcp_run httpd mss (xh, Conn None [] false) (es ++ (New d, b) :: es') = Some y ∧ y.2 = client_gets (first_bytes segs) segs [] es'.
Proof.
  intros Hans Hx Hs Ht He Hp Hr Hok E Hn. apply Forall_app in Hr as [Hr0 Hr]. apply Forall_app in Hok as [Hok0 Hok].
  apply Forall_cons in Hr as [Hr1 Hr2]. apply Forall_cons in Hok as [Hok1 Hok2]. rewrite tcp_run_app.
  assert (∀ es1 es2 t, patient t (es1 ++ es2) → patient t es1) as Happ.
  { induction es1 as [|[e1 b1] es1 IH]; intros es2 t H; [done|]. rewrite <- app_comm_cons, patient_cons in H. apply patient_cons. destruct H as [H1 H2]. split; [done|by eapply IH]. }
  destruct (server_request_run es x xh [] tail0) as (x1 & xh1 & -> & Hx1 & Hs1 & Ht1 & Hp1); try done; [lia|rewrite Ht; by eapply Happ|cbn [app]; rewrite <- E; by apply prefix_app_r|].
  cbn [app mbind option_bind tcp_run] in *. rewrite Ht in Hp1. specialize (Hp1 _ Hp). apply patient_cons in Hp1 as [_ Hp1].
  destruct (request_completed fuel str mss path name q g s Hpath Hnames segs x1 _ d b tail0 Hans Hx1 Hr1 Hok1 E) as (fname & hp & x2 & E2 & Hx2).
  pose proof Hx1 as (_ & _ & _ & Hc1 & _). destruct x1 as [xw c]. cbn [fst snd] in *. subst c.
  destruct (httpd_step mss xw xh1 (Conn None [] false) (New d) b x2 Hs1 eq_refl Ht1 ltac:(done) E2) as (xh2 & -> & Hs2 & Ht2). cbn [mbind option_bind].
  apply (server_page_run fname hp es' x2 xh2 (first_bytes segs) segs []); try done; by rewrite Ht2.
Qed.
End connection.

(** ** The call when the connection is opened *)
Definition connected_uip (mss : Z) (b : mem) : uip := Uip UIP_CONNECTED mss b 0 0.

(** The table of clients has [WEB_MAX_CLIENT] entries. *)
Definition clients_ok (g : globals V) (s : httpd_state) : Prop := Z.of_nat (length (g_conn g)) = WEB_MAX_CLIENT ∧ 0 <= http_connection_nr s.

Lemma find_insert conns i L : client_find conns rip = None → (i < length conns)%nat → client_find (<[i := (L, rip)]> conns) rip = Some (i, (L, rip)).
Proof.
  unfold client_find. intros H Hi. apply list_find_None in H. apply list_find_Some. split_and!; [by apply list_lookup_insert_eq|done|].
  intros j y Hj Hlt. rewrite list_lookup_insert_ne in Hj by lia. exact (proj1 (Forall_lookup _ _) H _ _ Hj).
Qed.

Lemma httpd_opens path name q mss g s b : path_ok path → path_names path name q → state_dims s → clients_ok g s →
  ∃ x xh, httpd (g, s) (connected_uip mss b) = Some (xh, connected_uip mss b) ∧ request_begun path name q g (accepted g s) x [] ∧ same_web x.1 xh ∧ timer xh.2 = 0.
Proof.
  intros Hp Hn Hd [Hlen Hnr]. unfold httpd, httpd_appcall. cbn [fst snd].
  set (nr := match client_find (g_conn g) rip with Some (i, _) => Z.of_nat i | None => http_connection_nr s end).
  assert ((match client_find (g_conn g) rip with Some (i, e) => set_client s rip (Z.of_nat i) e.1 | None => set_client s rip (http_connection_nr s) None end) = set_client s rip nr (client_L g)) as ->.
  { unfold nr, client_L. by destruct (client_find (g_conn g) rip) as [[i e]|]. }
  change (uip_flag (connected_uip mss b) UIP_CLOSE || uip_flag (connected_uip mss b) UIP_ABORT || uip_flag (connected_uip mss b) UIP_TIMEDOUT) with false. change (uip_flag (connected_uip mss b) UIP_CONNECTED) with true. cbv iota.
  pose proof (conn_init_in path name q s Hd) as Hi.
  destruct (handle_input_ok path [] name q (http_params (h_in s)) Hp Hn (connected_uip mss b) (h_in (conn_init s)) [] []) as (i & Ei & Hi').
  { exact Hi. } { apply avail_none; [done|by right]. } { constructor. } { done. } { apply prefix_nil. }
  assert (h_state i = STATE_WAITING) as Hst.
  { apply (in_state_unfinished path name q s i [] Hi'). intros [k E]. unfold request_line in E. apply (f_equal msize) in E. rewrite !msize_app in E. change (msize get) with 3 in E.
    rewrite msize_cons in E. pose proof (msize_nonneg (path ++ [ISO_space])). pose proof (msize_nonneg k). change (msize []) with 0 in E. lia. }
  unfold handle_connection. change (h_in (conn_init (set_client s rip nr (client_L g)))) with (h_in (conn_init s)). rewrite Ei. cbn [mbind option_bind]. rewrite Hst. change (STATE_WAITING =? STATE_OUTPUT) with false. cbv iota.
  cbn [mbind option_bind c_g c_u c_out c_lua]. set (s1 := HttpdState _ _ _ _ _ _).
  exists ((g, HttpdState 0 rip nr i (h_out (conn_init s)) (h_lua (accepted g s))), Conn None [] false).
  assert (∀ conns n, client_find conns rip = Some (n, (client_L g, rip)) → same_web (g, HttpdState 0 rip nr i (h_out (conn_init s)) (h_lua (accepted g s))) (set_conn g conns, HttpdState 0 rip nr i (h_out (conn_init s)) (h_lua (accepted g s)))) as Hsame.
  { intros conns n Hf. constructor; try done. by exists n. }
  destruct (client_find (g_conn g) rip) as [[n e]|] eqn:Ef.
  - eexists. split; [done|]. split; [split_and!; done|]. split; [|done]. apply (Hsame _ n). unfold s1. cbn [h_lua http_connection_nr conn_init set_client]. unfold nr. rewrite Nat2Z.id. by eapply find_alter.
  - assert (∃ n c, client_enter (g_conn g) s1 = (<[n := (client_L g, rip)]> (g_conn g), c) ∧ (n < length (g_conn g))%nat) as (n & c & -> & Hlt).
    { unfold client_enter. unfold WEB_MAX_CLIENT in *. destruct (client_find (g_conn g) (0, 0)) as [[n e]|] eqn:E0.
      - exists n, (Z.of_nat n). split; [done|]. unfold client_find in E0. apply list_find_Some in E0 as (H & _). by apply lookup_lt_Some in H.
      - change (http_connection_nr s1) with nr. eexists _, _. split; [done|]. unfold nr. destruct (Z.ltb_spec (http_connection_nr s) (4 - 1)); lia. }
    eexists. split; [done|]. split; [split_and!; done|]. split; [|done].
    constructor; try done. exists n. cbn [fst snd]. apply find_insert; done.
Qed.
End server.
