(* ===== verification/WebAnswers.v ===== *)
(** * The answers of the web server

    What is sent for a page with scripts, a script, a static file and a file that does not exist, over any connection
    whose events are as in WebPage. *)
From S2P Require Import Prelude Psock Httpd HttpInput HttpOutput StaticFile WebPage.

Section answers.
Context {V : Type} {core : LuaCore V} {card : FileSystem}.
Context (fuel : nat) (str : mem) (mss : Z).
Hypothesis Hmss : 100 <= mss < 65536.
Context (name : list Z) (q : option (list Z)) (g : globals V) (s : httpd_state) (h : mem).
Hypothesis Hhuge : huge (g_fs g) = Some h.
Hypothesis Hcache : cache (g_fs g) = no_cache.

(** The card has a file [nm], which fits the file buffer. *)
Definition on_card (nm : list Z) (data : mem) : Prop :=
  nm ≠ [] ∧ msize nm <= FILE_NAME_MAX_SIZE ∧ mmc (FILE_NAME_PREFIX ++ nm) = Some (Some (msize data), data) ∧
  msize data <= FILE_HUGE_SIZE ∧ msize data + 2 <= msize h.

(** The field [http_params] after the request. *)
Definition params_field (hp : mem) : Prop :=
  match q with Some q => cstr hp = Some q | None => hp = http_params (h_in s) end.

(** The thread when the file has been opened. *)
Definition opened (u : uip) (fs : file_fs) (len : Z) : ctx (V:=V) :=
  Ctx u (set_fs g fs) (set_file (h_out (conn_init s)) (PHuge 0, len)) (h_lua s).

Definition filled (data : mem) (x : Z) (post : mem) : file_fs := FileFs (Some (data ++ x :: 0 :: post)) no_cache.

Lemma set_filename_id i : set_filename i (filename i) = i.
Proof. by destruct i. Qed.

(** A file that exists: the headers are sent, then its body. *)
Lemma answers_file data segs :
  on_card name data →
  (∀ u fname hp x post, ready mss u → uip_rexmit u = false → cstr fname = Some name → params_field hp →
    sends fuel fname hp str mss (λ c, output_headers fuel c fname hp str) (opened u (filled data x post) (msize data)) segs) →
  answers fuel str mss name q g s segs.
Proof.
  intros (Hne & Hnl & Hmmc & Hsz & Hroom) Hk u i Hrd Hx (Hst & Hfn & Hhp) _.
  destruct (open_page (g_fs g) (filename i) name (file (h_out (conn_init s))) h data Hhuge Hcache Hfn Hne Hnl Hmmc Hsz Hroom) as (x & post & Eo).
  exists (opened u (filled data x post) (msize data)), (λ c, output_headers fuel c (filename i) (http_params i) str), (filename i).
  split; [|split; [done|split; [done|]]].
  - unfold handle_output. cbn [c_out]. change (outputpt (h_out (conn_init s))) with O0. cbv iota. unfold output_open. cbn [c_g c_out c_u c_lua]. rewrite Eo.
    cbn [mbind option_bind]. by rewrite set_filename_id.
  - apply Hk; [done|done|done|]. unfold params_field. by destruct q.
Qed.

Lemma at_page_opened u data x post : ready mss u → msize data <= FILE_HUGE_SIZE → at_page mss (opened u (filled data x post) (msize data)) data.
Proof. intros Hu Hsz. split; [done|]. split; [done|]. split; [done|]. split; [done|]. by exists 0, (data ++ x :: 0 :: post), x, post. Qed.

(** ** Static files *)
Definition static_types : list (list Z * mem) :=
  [(txt "html", http_content_type_html); (txt "css", http_content_type_css); (txt "png", http_content_type_png);
   (txt "gif", http_content_type_gif); (txt "jpg", http_content_type_jpg)].

Definition static_segments (hdr t data : mem) : list segment :=
  Kept (text_of hdr) :: Kept (text_of t) :: (Generated <$> chunks mss data).

Lemma type_string t : t ∈ static_types.*2 → cstr t = Some (text_of t) ∧ 0 < msize (text_of t) <= mss.
Proof.
  intros Ht. assert (Forall (λ t, cstr t = Some (text_of t) ∧ (0 <? msize (text_of t)) && (msize (text_of t) <=? 100) = true) (static_types.*2)) as H
    by (repeat constructor).
  rewrite Forall_forall in H. destruct (H t Ht) as [H1 H2]. split; [done|]. lia.
Qed.

Lemma static_content_type fname base ext t :
  (ext, t) ∈ static_types → cstr fname = Some (base ++ ISO_period :: ext) → ISO_period ∉ base → content_type fname = Some t.
Proof.
  intros Ht Hc Hn. destruct (name_split fname base ext Hc Hn) as (rest & E & Hnz & Hb). unfold content_type.
  rewrite E, (strrchr_spec base ext ISO_period rest); [|done|by apply Forall_app in Hnz as [? _]|].
  - cbn [mbind option_bind]. rewrite name_suffix.
    repeat (apply elem_of_cons in Ht as [Ht|Ht]; [injection Ht as -> ->; reflexivity|]). by apply elem_of_nil in Ht.
  - apply Forall_app in Hnz as [_ Hnz]. apply Forall_cons in Hnz as [_ Hnz].
    assert (Forall (λ e, Forall (λ x, x ≠ ISO_period) e.1) static_types) as H by (repeat constructor; done).
    rewrite Forall_forall in H. specialize (H _ Ht). cbn in H. apply Forall_forall. intros x Hx. rewrite Forall_forall in H, Hnz. auto.
Qed.

Lemma static_body fname hp base ext t (c : ctx (V:=V)) :
  (ext, t) ∈ static_types → cstr fname = Some (base ++ ISO_period :: ext) → ISO_period ∉ base →
  output_body fuel c fname hp str = output_file OFile c.
Proof.
  intros Ht Hc Hn. destruct (name_split fname base ext Hc Hn) as (rest & E & Hnz & Hb). unfold output_body.
  rewrite E, (strchr_spec base ISO_period (ext ++ 0 :: rest)) by done. cbn [mbind option_bind]. rewrite name_suffix.
  repeat (apply elem_of_cons in Ht as [Ht|Ht]; [injection Ht as -> ->; reflexivity|]). by apply elem_of_nil in Ht.
Qed.

Lemma file_thread fname hp : ∀ c : ctx (V:=V), outputpt (c_out c) = OFile → thread fuel fname hp str c = output_file OFile c.
Proof. intros c E. unfold thread, output_resume. by rewrite E. Qed.

Lemma missing_file_thread fname hp : ∀ c : ctx (V:=V), outputpt (c_out c) = OFile404 → thread fuel fname hp str c = output_file OFile404 c.
Proof. intros c E. unfold thread, output_resume. by rewrite E. Qed.

(** The file after the headers. *)
Lemma body_sends l lh fname hp u fs data u' s' x post :
  (∀ c : ctx (V:=V), outputpt (c_out c) = l → thread fuel fname hp str c = output_file l c) →
  fs = filled data x post → data ≠ [] → msize data <= FILE_HUGE_SIZE → ready mss u' → uip_rexmit u' = false → psockpt s' = false →
  sends fuel fname hp str mss (output_file l) (headers_sent (opened u fs (msize data)) lh u' s') (Generated <$> chunks mss data).
Proof.
  intros Hl -> Hne Hsz Hrd Hx Hps. set (c := headers_sent _ _ _ _).
  apply (sends_ext _ _ _ _ _ (output_file l) (K_file l (S (Z.to_nat (msize data)))) c c); [done|done|].
  apply file_sends; [lia|done|done|]. split; [done|]. split; [done|]. split; [done|]. split; [done|]. split; [done|].
  by exists 0, (data ++ x :: 0 :: post), (x :: 0 :: post).
Qed.

Lemma answers_static base ext t data :
  name = base ++ ISO_period :: ext → ISO_period ∉ base → (ext, t) ∈ static_types → on_card name data → data ≠ [] →
  answers fuel str mss name q g s (static_segments http_header_200 t data).
Proof.
  intros En Hn Ht Hd Hne. apply (answers_file data); [done|]. intros u fname hp x post Hrd Hx Hfn Hhp. rewrite En in Hfn.
  destruct (type_string t) as [Hts Htn]; [apply list_elem_of_fmap; by exists (ext, t)|].
  apply (headers_sends fuel fname hp str mss ltac:(lia) OHeaders http_header_200 t _ _ _ (ok_thread _ _ _ _)
    (static_content_type fname base ext t Ht Hfn Hn)); try done.
  - change (msize (text_of http_header_200)) with 83. lia.
  - intros u' s' Hu' Hx' Hs'. set (c := headers_sent _ _ _ _).
    apply (sends_ext _ _ _ _ _ _ (output_file OFile) c c); [by apply (static_body fname hp base ext t)|done|].
    apply (body_sends OFile OHeaders fname hp u _ data u' s' x post (file_thread fname hp)); try done. by destruct Hd as (_ & _ & _ & ? & _).
Qed.

(** ** Scripts *)

(** The script [data] writes [out], for any parameters that the request can give. *)
Definition script_writes (data out : mem) : Prop :=
  msize out <= mss ∧
  ∀ fs hp, params_field hp →
    ∃ g' l' e, http_run_elua (set_fs g fs) (h_lua s) hp str data = Some (g', l', e) ∧
      write_buffer_len l' = msize out ∧ mread (write_buffer l') 0 (msize out) = Some out.

Definition script_segments (out : mem) : list segment :=
  Kept (text_of http_header_200) :: Kept (text_of http_content_type_html) :: (if msize out =? 0 then [] else [Kept out]).

Lemma lua_body fname hp base (c : ctx (V:=V)) :
  cstr fname = Some (base ++ ISO_period :: txt "lua") → ISO_period ∉ base →
  content_type fname = Some http_content_type_html ∧ output_body fuel c fname hp str = output_scripts (script_init c) hp str.
Proof.
  intros Hc Hn. destruct (name_split fname base (txt "lua") Hc Hn) as (rest & E & Hnz & Hb). split.
  - unfold content_type. rewrite E, (strrchr_spec base (txt "lua") ISO_period rest); [|done|by apply Forall_app in Hnz as [? _]|by repeat constructor].
    cbn [mbind option_bind]. by rewrite name_suffix.
  - unfold output_body. rewrite E, (strchr_spec base ISO_period (txt "lua" ++ 0 :: rest)) by done. cbn [mbind option_bind]. by rewrite name_suffix.
Qed.

Definition K_script (c : ctx (V:=V)) : option (ctx (V:=V) * bool) := output_wait OScripts (script_wait ScScriptOut (pt_end c) script_end) output_end.

Lemma script_file_resumes fname hp (c : ctx (V:=V)) :
  outputpt (c_out c) = OScripts → scriptpt (c_out c) = ScScriptOut → sout_pt (c_out c) = SElua → resumes fuel fname hp str c K_script.
Proof.
  intros H1 H2 H3. exists (PWrite 0), (write_buffer_len (c_lua c)). intros u s'. unfold thread, output_resume.
  change (outputpt (c_out (resumed c u s'))) with (outputpt (c_out c)). rewrite H1. unfold output_scripts, handle_elua_scripts.
  change (scriptpt (c_out (resumed c u s'))) with (scriptpt (c_out c)). rewrite H2. unfold http_output_elua.
  change (sout_pt (c_out (resumed c u s'))) with (sout_pt (c_out c)). rewrite H3.
  rewrite at_send_then, script_wait_then, output_wait_then by done. done.
Qed.

Lemma script_body_sends fname hp u' s' u data out x post :
  script_writes data out → params_field hp → msize data <= FILE_HUGE_SIZE → ready mss u' → psockpt s' = false →
  let c := headers_sent (opened u (filled data x post) (msize data)) OHeaders u' s' in
  sends fuel fname hp str mss (λ c, output_scripts (script_init c) hp str) c (if msize out =? 0 then [] else [Kept out]).
Proof.
  intros [Hout Hw] Hhp Hsz Hrd Hps c. destruct (Hw (filled data x post) hp Hhp) as (g' & l' & e & Hrun & Hn & Hr).
  pose proof (msize_nonneg data). unfold FILE_HUGE_SIZE in Hsz. set (c1 := Ctx u' g' (set_scriptpt (c_out c) Sc0) l').
  assert (ctx_run (script_init c) hp str (PHuge 0) (s32 (msize data)) = Some c1) as Erun.
  { unfold ctx_run. rewrite (s32_id (msize data)) by lia.
    assert (object (script_init c) (PHuge 0) = data ++ x :: 0 :: post) as -> by reflexivity.
    pose proof (bytes_at_prefix _ [] data (x :: 0 :: post) eq_refl) as Hb. unfold bytes_at in Hb. rewrite msize_nil in Hb. cbn [app] in Hb. rewrite Hb.
    cbn [mbind option_bind]. change (c_g (script_init c)) with (set_fs g (filled data x post)). change (c_lua (script_init c)) with (h_lua s).
    rewrite Hrun. done. }
  assert (output_scripts (script_init c) hp str = output_wait OScripts (script_wait ScScriptOut (http_output_elua c1) script_end) output_end) as EK.
  { unfold output_scripts, handle_elua_scripts. change (scriptpt (c_out (script_init c))) with Sc0. cbv iota.
    change (file (c_out (script_init c))) with (PHuge 0, msize data). cbn [fst snd]. by rewrite Erun. }
  unfold http_output_elua in EK. change (sout_pt (c_out c1)) with SO0 in EK. change (c_lua c1) with l' in EK. cbv iota in EK. rewrite Hn in EK.
  destruct (Z.eqb_spec (msize out) 0) as [E0|E0].
  - rewrite E0 in EK. unfold at_send, out_send, psock_send in EK. change (psockpt (sout (c_out c1))) with (psockpt s') in EK. rewrite Hps in EK.
    eapply sends_end; [exact EK|done].
  - pose proof (msize_nonneg out). change (sout_pt (c_out c1)) with SO0 in EK.
    destruct (at_send_start mss ltac:(lia) c1 SElua (PWrite 0) (msize out) pt_end (write_buffer l') out) as (s1 & Es & Hfl); [done|done|lia|done|done|].
    rewrite Es in EK. cbn [mbind option_bind script_wait output_wait] in EK.
    set (c2 := with_pt (resumed c1 (put_out (c_u c1) out) s1) SElua) in *.
    set (c3 := with_out c2 (set_outputpt (set_scriptpt (c_out c2) ScScriptOut) OScripts)).
    apply (sends_kept _ _ _ _ _ _ _ c3 (PWrite 0) _ K_script); [exact EK|done|done|by apply script_file_resumes|].
    intros u2 s2 Hu2 _ Hs2. by eapply sends_end.
Qed.

Lemma answers_script base data out :
  name = base ++ ISO_period :: txt "lua" → ISO_period ∉ base → on_card name data → script_writes data out →
  answers fuel str mss name q g s (script_segments out).
Proof.
  intros En Hn Hd Hw. apply (answers_file data); [done|]. intros u fname hp x post Hrd Hx Hfn Hhp. rewrite En in Hfn.
  apply (headers_sends fuel fname hp str mss ltac:(lia) OHeaders http_header_200 http_content_type_html _ _ _ (ok_thread _ _ _ _)
    (proj1 (lua_body fname hp base (opened u (filled data x post) (msize data)) Hfn Hn))); try done.
  - change (msize (text_of http_header_200)) with 83. lia.
  - change (msize (text_of http_content_type_html)) with 27. lia.
  - intros u' s' Hu' Hx' Hs'. set (c := headers_sent _ _ _ _).
    apply (sends_ext _ _ _ _ _ _ (λ c, output_scripts (script_init c) hp str) c c); [by apply (lua_body fname hp base c)|done|].
    apply (script_body_sends fname hp u' s' u data out x post); try done. by destruct Hd as (_ & _ & _ & ? & _).
Qed.

(** ** Pages with scripts *)
Lemma answers_page base items segs :
  name = base ++ txt ".pht" → ISO_period ∉ base → on_card name (page_of items) → msize (page_of items) < Z.of_nat fuel →
  (∀ fs hp, params_field hp → page_runs hp str mss items (set_fs g fs) (new_page (h_lua s)) segs) →
  answers fuel str mss name q g s (html_header http_header_200 (Kept <$> segs)).
Proof.
  intros En Hn Hd Hf Hruns. apply (answers_file (page_of items)); [done|]. intros u fname hp x post Hrd Hx Hfn Hhp. rewrite En in Hfn.
  apply (page_sends fuel fname hp str mss ltac:(lia) _ base (page_of items) items segs); [lia|by split| |done|by apply Hruns|done].
  apply at_page_opened; [done|]. by destruct Hd as (_ & _ & _ & ? & _).
Qed.

(** ** A file that does not exist *)
Definition missing_name : list Z := txt "/404.html".

Lemma open_none fs fname nm f :
  huge fs = Some h → cache fs = no_cache → cstr fname = Some nm → nm ≠ [] → msize nm <= FILE_NAME_MAX_SIZE → mmc (FILE_NAME_PREFIX ++ nm) = None →
  httpd_fs_open fs fname f = Some (fs, (f.1, 0), false).
Proof.
  intros Hh Hc Hn Hne Hs Hmmc. unfold httpd_fs_open, httpd_fs_int. rewrite Hh. change (ctrue 0) with false. cbv iota. rewrite Hn. cbn [mbind option_bind].
  unfold httpd_fs_search_name. rewrite Hc, search_no_cache by done. cbn [mbind option_bind]. rewrite Z.ltb_irrefl.
  destruct (full_path fname nm Hn Hs) as (m & -> & Hm). cbn [mbind option_bind]. rewrite Hm. cbn [mbind option_bind]. by rewrite Hmmc.
Qed.

Lemma answers_missing data :
  name ≠ [] → msize name <= FILE_NAME_MAX_SIZE → mmc (FILE_NAME_PREFIX ++ name) = None → on_card missing_name data → data ≠ [] →
  answers fuel str mss name q g s (static_segments http_header_404 http_content_type_html data).
Proof.
  intros Hne Hnl Hnone (_ & Hml & Hmmc & Hsz & Hroom) Hdne u i Hrd Hx (Hst & Hfn & Hhp) Hfs.
  destruct (open_page (g_fs g) http_404_html missing_name ((file (h_out (conn_init s))).1, 0) h data) as (x & post & Eo); [done..|].
  destruct (strcpy_cstr (filename i) http_404_html missing_name) as (f & Ef & Hf & Hfl); [done|rewrite Hfs; done|].
  exists (opened u (filled data x post) (msize data)), (λ c, output_headers404 c f), f.
  split; [|split; [done|split; [done|]]].
  - unfold handle_output. cbn [c_out]. change (outputpt (h_out (conn_init s))) with O0. cbv iota. unfold output_open. cbn [c_g c_out c_u c_lua].
    rewrite (open_none (g_fs g) (filename i) name (file (h_out (conn_init s)))) by done. cbn [mbind option_bind].
    rewrite Eo.
    cbn [mbind option_bind]. rewrite Ef. done.
  - apply (headers_sends fuel f (http_params i) str mss ltac:(lia) OHeaders404 http_header_404 http_content_type_html _ _ _ (missing_thread _ _ _ _)); try done.
    + apply (static_content_type f (txt "/404") (txt "html") http_content_type_html); [by left|done|].
      intros H. rewrite list_elem_of_In in H. cbn in H. unfold ISO_period in H. intuition lia.
    + change (msize (text_of http_header_404)) with 90. lia.
    + change (msize (text_of http_content_type_html)) with 27. lia.
    + intros u' s' Hu' Hx' Hs'. by apply (body_sends OFile404 OHeaders404 f (http_params i) u _ data u' s' x post (missing_file_thread f (http_params i))).
Qed.
End answers.

(** ** What a client gets

    The connection is opened with [b0] in the packet buffer. The calls [es] come before the end of the path; the packet [d]
    completes it; [es'] is what comes after. Every call has its own maximum segment size, which the stack takes from the
    window of the segment. *)
Section served.
Context {V : Type} {core : LuaCore V} {card : FileSystem}.
Context (fuel : nat) (str : mem) (mss : Z) (path name : list Z) (q : option (list Z)) (rip : Z * Z) (g : globals V) (s : httpd_state) (h b0 : mem).
Context (es : list (Z * (event * mem))) (d : mem) (m : Z) (b : mem) (es' : list (Z * (event * mem))).

Abbreviation calls := (es ++ (m, (New d, b)) :: es').

Definition server_ready : Prop :=
  100 <= mss < 65536 ∧ state_dims s ∧ huge (g_fs g) = Some h ∧ cache (g_fs g) = no_cache ∧ clients_ok g s.

(** The windows of the peer do not change the maximum segment size, and it does not stay silent for twenty polls in a row. *)
Definition requests : Prop :=
  path_ok path ∧ path_names path name q ∧ Forall (λ e, e.1 = mss) calls ∧ patient 0 calls.*2 ∧ unsent es.*2 ∧
  Forall (event_room mss) calls.*2 ∧ Forall (λ e, bytes_ok (new_data e)) calls.*2 ∧
  (∃ tail0, concat (request_data <$> es.*2) ++ d = stream path tail0) ∧ ¬ request_line path `prefix_of` concat (request_data <$> es.*2).

(** The opening of the connection, then the calls of [httpd_appcall] and what the stack does after them. *)
Definition web_run : option (globals V * httpd_state * conn) :=
  '(w, u) ← httpd fuel str rip (g, s) (connected_uip mss b0);
  c ← tcp_appsend u (Conn None [] false);
  tcp_calls (httpd fuel str rip) (w, c) calls.

(** The state of the connection, with the interpreter that the table of clients has for it. *)
Abbreviation s1 := (accepted rip g s).

Lemma answered segs :
  server_ready → requests → answers fuel str mss name q g s1 segs →
  ∃ x, web_run = Some x ∧ x.2 = client_gets (first_bytes segs) segs [] es'.*2.
Proof.
  intros (Hm & Hd & Hh & Hc & Hcl) (Hp & Hn & Hmss & Hpat & Hu & Hr & Hok & [tail0 E] & Hf) Ha.
  destruct (httpd_opens fuel str rip path name q mss g s b0 Hp Hn Hd Hcl) as (x & xh & Ex & Hx & Hs & Ht). unfold web_run. rewrite Ex. cbn [mbind option_bind].
  change (tcp_appsend (connected_uip mss b0) (Conn None [] false)) with (Some (Conn None [] false)). cbn [mbind option_bind]. rewrite (tcp_calls_steady _ mss) by done.
  rewrite fmap_app, fmap_cons in *. cbn [snd] in *. by apply (server_answer_run fuel str rip mss path name q g s1 Hm Hp Hn segs tail0 es.*2 d b es'.*2 x xh).
Qed.

(** All segments have been acknowledged. *)
Lemma served_all segs k : (length segs <= k)%nat → served segs [] k = Conn None (concat segs) true.
Proof. intros H. unfold served. by rewrite drop_ge. Qed.

Lemma client_kept segs : client_gets (first_bytes (Kept <$> segs)) (Kept <$> segs) [] es'.*2 = served segs [] (acks es'.*2).
Proof.
  rewrite client_served.
  - by rewrite <- list_fmap_compose, list_fmap_id.
  - apply Forall_forall. intros e _ _. apply Forall_fmap, Forall_forall. done.
Qed.

Lemma client_once segs : Forall (λ e, e.1 ≠ Rexmit) es'.*2 → client_gets (first_bytes segs) segs [] es'.*2 = served (seg_bytes <$> segs) [] (acks es'.*2).
Proof. intros H. apply client_served. eapply Forall_impl; [exact H|]. intros e He E. done. Qed.

(** C1: a page with scripts over a connection, from its opening on: however the network cuts the request into segments, and
    whatever events come before and after (fewer than twenty polls in a row, with which the server would abort the connection,
    more headers, retransmissions with anything in the packet buffer), as long as the windows of the peer leave the maximum
    segment size as it is, the client gets
    the status, the content type and the segments of the page, with the output of each script in its place, each
    exactly once and in order; with as many acknowledgments as segments it has all of them and the connection is
    closed. *)
Theorem page_served base items segs :
  server_ready → requests → name = base ++ txt ".pht" → ISO_period ∉ base → on_card h name (page_of items) →
  msize (page_of items) < Z.of_nat fuel →
  (∀ fs hp, params_field q s hp → page_runs hp str mss items (set_fs g fs) (new_page (h_lua s1)) segs) →
  ∃ x, web_run = Some x ∧ x.2 = served (text_of http_header_200 :: text_of http_content_type_html :: segs) [] (acks es'.*2).
Proof.
  intros Hs Hq En Hn Hd Hf Hruns. pose proof Hs as (Hm & _ & Hh & Hc & _). rewrite <- client_kept.
  by apply (answered (Kept <$> text_of http_header_200 :: text_of http_content_type_html :: segs)), (answers_page fuel str mss Hm name q g s1 h Hh Hc base items segs).
Qed.

(** C17: a script: over a connection as for C1 (without twenty polls in a row, with one maximum segment size), the client gets
    the headers and what the script has written, exactly once, whatever is retransmitted. *)
Theorem script_served base data out :
  server_ready → requests → name = base ++ txt ".lua" → ISO_period ∉ base → on_card h name data →
  script_writes str mss q g s1 data out →
  ∃ x, web_run = Some x ∧
    x.2 = served (text_of http_header_200 :: text_of http_content_type_html :: (if msize out =? 0 then [] else [out])) [] (acks es'.*2).
Proof.
  intros Hs Hq En Hn Hd Hw. pose proof Hs as (Hm & _ & Hh & Hc & _). rewrite <- client_kept.
  replace (Kept <$> _) with (script_segments out) by (unfold script_segments; by destruct (msize out =? 0)).
  by apply (answered (script_segments out)), (answers_script fuel str mss Hm name q g s1 h Hh Hc base data out).
Qed.

(** C2: a static file, over a connection as for C1 (without twenty polls in a row, with one maximum segment size): the client
    gets the headers and the file in segments; a segment of the file that is
    retransmitted is replaced by what is in the packet buffer at that moment ([client_gets]). Without retransmissions
    it gets the file as it is. *)
Theorem file_served base ext t data :
  server_ready → requests → name = base ++ ISO_period :: ext → ISO_period ∉ base → (ext, t) ∈ static_types → on_card h name data → data ≠ [] →
  let segs := static_segments mss http_header_200 t data in
  ∃ x, web_run = Some x ∧ x.2 = client_gets (first_bytes segs) segs [] es'.*2 ∧
    (Forall (λ e, e.1 ≠ Rexmit) es'.*2 → (2 + length (chunks mss data) <= acks es'.*2)%nat →
     x.2 = Conn None (text_of http_header_200 ++ text_of t ++ data) true).
Proof.
  intros Hs Hq En Hn Ht Hd Hne segs. pose proof Hs as (Hm & _ & Hh & Hc & _).
  destruct (answered segs Hs Hq (answers_static fuel str mss Hm name q g s1 h Hh Hc base ext t data En Hn Ht Hd Hne)) as (x & E & Ex).
  exists x. split; [done|]. split; [done|]. intros Hx Hk. rewrite Ex, client_once, served_all by (done || by rewrite length_fmap; cbn; rewrite length_fmap).
  cbn [segs static_segments fmap list_fmap seg_bytes concat]. rewrite <- list_fmap_compose, list_fmap_id, (chunks_concat mss); [done|lia].
Qed.

(** A file that the card does not have: the client gets the status 404 and the page "/404.html", under the same
    conditions as a static file. *)
Theorem missing_served data :
  server_ready → requests → name ≠ [] → msize name <= FILE_NAME_MAX_SIZE → mmc (FILE_NAME_PREFIX ++ name) = None →
  on_card h missing_name data → data ≠ [] →
  let segs := static_segments mss http_header_404 http_content_type_html data in
  ∃ x, web_run = Some x ∧ x.2 = client_gets (first_bytes segs) segs [] es'.*2 ∧
    (Forall (λ e, e.1 ≠ Rexmit) es'.*2 → (2 + length (chunks mss data) <= acks es'.*2)%nat →
     x.2 = Conn None (text_of http_header_404 ++ text_of http_content_type_html ++ data) true).
Proof.
  intros Hs Hq Hne Hl Hno Hd Hdne segs. pose proof Hs as (Hm & _ & Hh & Hc & _).
  destruct (answered segs Hs Hq (answers_missing fuel str mss Hm name q g s1 h Hh Hc data Hne Hl Hno Hd Hdne)) as (x & E & Ex).
  exists x. split; [done|]. split; [done|]. intros Hx Hk. rewrite Ex, client_once, served_all by (done || by rewrite length_fmap; cbn; rewrite length_fmap).
  cbn [segs static_segments fmap list_fmap seg_bytes concat]. rewrite <- list_fmap_compose, list_fmap_id, (chunks_concat mss); [done|lia].
Qed.
End served.

(** ** A card with four files

    An interpreter that writes the text of its script. *)
#[local] Instance demo_core : LuaCore unit := {
  vm_open _ := Some (1, tt); vm_getn _ := Some 0; vm_move v _ _ := v; vm_set v _ _ := v; vm_set_first v _ _ := Some v;
  vm_run v data := (v, [data], false) }.

Definition demo_page : mem := txt "Hi <?lua 1+1?>!".

#[local] Instance demo_card : FileSystem := {
  malloc _ := None;
  mmc path :=
    if bool_decide (path = txt "/mmc/a.pht") then Some (Some (msize demo_page), demo_page)
    else if bool_decide (path = txt "/mmc/b.lua") then Some (Some 3, txt "1+1")
    else if bool_decide (path = txt "/mmc/c.css") then Some (Some 3, txt "xyz")
    else if bool_decide (path = txt "/mmc/404.html") then Some (Some 2, txt "no") else None }.

Definition demo_globals : globals unit := Globals (FileFs (Some (replicate 20 7)) no_cache) (replicate 4 (None, (0, 0))) ∅.

Definition demo_rip : Z * Z := (43200, 256).

Abbreviation demo_accepted := (accepted demo_rip demo_globals demo_state).

Definition demo_items : list item := [Text (txt "Hi "); Script 32 (txt "1+1"); Text (txt "!")].

Lemma demo_nonzero l : forallb (λ x, negb (x =? 0)) l = true → Forall (λ x, x ≠ 0) l.
Proof. rewrite forallb_forall. intros H. apply Forall_forall. intros x Hx. apply list_elem_of_In, H in Hx. by destruct (Z.eqb_spec x 0). Qed.

Lemma demo_text t rest :
  forallb (λ x, negb (x =? 0) && negb (x =? ISO_minor)) t = true → t ≠ [] → (rest = [] ∨ head rest = Some ISO_minor) → piece_ok t rest.
Proof.
  intros H Ht Hr. rewrite forallb_forall in H.
  assert (∀ x, x ∈ t → x ≠ 0 ∧ x ≠ ISO_minor) as H' by (intros x Hx; apply list_elem_of_In, H in Hx; lia).
  split; [done|]. split; [apply Forall_forall; intros x Hx; by apply H'|]. split_and!; [| |done].
  - intros Hx. destruct t as [|y t]; [done|]. apply (H' ISO_minor); [by right|done].
  - intros r. destruct t as [|y t]; [done|]. destruct (H' y ltac:(left)) as [_ Hy]. change CGI_open with (ISO_minor :: tail CGI_open).
    cbn [app starts_with head mbind option_bind]. by rewrite (proj2 (Z.eqb_neq y ISO_minor)).
Qed.

Lemma demo_script fs rest :
  ∃ g' l' e, http_run_elua (set_fs demo_globals fs) (new_page (h_lua demo_accepted)) (0 :: rest) (replicate 20 0) (txt "1+1") = Some (g', l', e) ∧
    write_buffer_len l' = 3 ∧ mread (write_buffer l') 0 3 = Some (txt "1+1").
Proof. eexists _, _, _. split; [vm_compute; reflexivity|]. split; reflexivity. Qed.

Lemma demo_runs fs hp :
  cstr hp = Some [] →
  page_runs hp (replicate 20 0) 970 demo_items (set_fs demo_globals fs) (new_page (h_lua demo_accepted)) [txt "Hi "; txt "1+1"; txt "!"].
Proof.
  intros Hhp. destruct (cstr_inv _ _ Hhp) as [_ [rest ->]]. cbn [app].
  apply (runs_text (0 :: rest) (replicate 20 0) 970 (txt "Hi ") _ _ _ [txt "1+1"; txt "!"]); [by apply demo_text; [|done|right]|].
  destruct (demo_script fs rest) as (g' & l' & e & Hrun & Hn & Hout).
  replace [txt "1+1"; txt "!"] with ((if write_buffer_len l' =? 0 then [] else [txt "1+1"]) ++ [txt "!"]) by (by rewrite Hn).
  apply (runs_script (0 :: rest) (replicate 20 0) 970 32 (txt "1+1") _ _ _ g' l' e);
    [split; [by apply demo_nonzero|done]|exact Hrun|lia|by rewrite Hn|].
  apply (runs_text (0 :: rest) (replicate 20 0) 970 (txt "!") [] _ _ []); [by apply demo_text; [|done|left]|]. apply runs_end.
Qed.


Lemma demo_script_writes : script_writes (replicate 20 0) 970 (Some []) demo_globals demo_accepted (txt "1+1") (txt "1+1").
Proof.
  split; [vm_compute; congruence|]. intros fs hp Hhp. destruct (cstr_inv _ _ Hhp) as [_ [rest ->]].
  eexists _, _, _. split; [vm_compute; reflexivity|]. split; reflexivity.
Qed.

Lemma demo_ready : server_ready 970 demo_globals demo_state (replicate 20 7).
Proof. by split_and!. Qed.

(** The name arrives in two segments. *)
Definition at970 (es : list (event * mem)) : list (Z * (event * mem)) := pair 970 <$> es.

Definition demo_before (p : string) : list (event * mem) := [(Poll, replicate 970 0); (New (txt "GET " ++ txt p), replicate 970 0)].
Definition demo_packet (p : string) : mem := txt p ++ txt " HTTP/1.0" ++ crlf.
Definition demo_acks : list (event * mem) := replicate 5 (Ack, replicate 970 0).

(** The first segment is retransmitted over a packet buffer with other data, and more headers arrive. *)
Definition demo_after : list (event * mem) :=
  [(Rexmit, replicate 970 5); (Ack, replicate 970 0); (AckNew (txt "x" ++ crlf), replicate 970 0);
   (Rexmit, replicate 970 9)] ++ demo_acks.

Lemma demo_new_room d : msize d <= 970 → event_room 970 (New d, replicate 970 0).
Proof. by split. Qed.

Lemma demo_requests (p1 p2 : string) name es' :
  path_names (txt p1 ++ txt p2) name (Some []) → msize (txt p1 ++ txt p2) <= 20 →
  forallb (λ x, (0 <? x) && (x <? 256) && negb (x =? 32)) (txt p1 ++ txt p2) = true → txt p2 ≠ [] →
  Forall (event_room 970) es' → Forall (λ e, bytes_ok (new_data e)) es' → patient 0 es' →
  requests 970 (txt p1 ++ txt p2) name (Some []) (at970 (demo_before p1)) (demo_packet p2) 970 (replicate 970 0) (at970 es').
Proof.
  intros Hn Hs Hc Hp2 Hr Hok Hpat.
  assert (Forall (λ x, byte_ok x ∧ x ≠ 0 ∧ x ≠ ISO_space) (txt p1 ++ txt p2)) as Hch.
  { rewrite forallb_forall in Hc. apply Forall_forall. intros x Hx. apply list_elem_of_In, Hc in Hx.
    unfold byte_ok, ISO_space. destruct (x =? 32) eqn:E; lia. }
  assert (bytes_ok (txt p1 ++ txt p2)) as Hb by (eapply Forall_impl; [exact Hch|]; cbn; tauto).
  apply bytes_ok_app in Hb as [Hb1 Hb2]. rewrite msize_app in Hs. pose proof (msize_nonneg (txt p1)). pose proof (msize_nonneg (txt p2)).
  split; [split; [done|rewrite msize_app; lia]|]. split; [done|]. assert (∀ es : list (event * mem), (at970 es).*2 = es) as E2 by (intros es; unfold at970; by rewrite <- list_fmap_compose, list_fmap_id).
  rewrite fmap_app, fmap_cons, !E2. cbn [snd]. split; [|split; [|split; [by repeat constructor|split; [|split; [|split]]]]].
  { apply Forall_app. split; [by repeat constructor|]. constructor; [done|]. unfold at970. by apply Forall_fmap, Forall_true. }
  { cbn [demo_before app patient]. split; [lia|exact Hpat]. }
  - apply Forall_app. split; [apply Forall_cons; split; [done|apply Forall_singleton, demo_new_room]|apply Forall_cons; split; [apply demo_new_room|done]].
    + rewrite msize_app. change (msize (txt "GET ")) with 4. lia.
    + unfold demo_packet. rewrite !msize_app. change (msize (txt " HTTP/1.0")) with 9. change (msize crlf) with 2. lia.
  - apply Forall_app. split; [apply Forall_cons; split; [constructor|apply Forall_singleton]|apply Forall_cons; split; [|done]]; apply bytes_ok_app; (split; [|done || by repeat constructor]); [by repeat constructor|done].
  - exists (txt "HTTP/1.0" ++ crlf). unfold stream, demo_packet. cbn [demo_before fmap list_fmap request_data fst concat app]. rewrite app_nil_r, <- !app_assoc. done.
  - intros [k E]. apply (f_equal msize) in E. unfold request_line in E. cbn [demo_before fmap list_fmap request_data fst concat app] in E.
    rewrite app_nil_r, !msize_app, !msize_cons, !msize_app in E. change (msize get) with 3 in E. change (msize [ISO_space]) with 1 in E.
    change (msize (txt "GET ")) with 4 in E. pose proof (msize_nonneg k). assert (0 < msize (txt p2)); [|lia].
    destruct (txt p2); [done|]. rewrite msize_cons. pose proof (msize_nonneg l). lia.
Qed.

Ltac demo_absent := intros H; rewrite list_elem_of_In in H; cbn in H; unfold ISO_question, ISO_period in H; intuition lia.

Ltac demo_request p1 p2 := apply (demo_requests p1 p2);
  [apply path_plain; [demo_absent|done|done|vm_compute; congruence]|vm_compute; congruence|vm_compute; reflexivity|done
  |repeat constructor; vm_compute; congruence|repeat constructor; vm_compute; congruence|by vm_compute].

Ltac demo_card_has := split; [done|split_and!; [vm_compute; congruence|vm_compute; reflexivity|vm_compute; congruence|vm_compute; congruence]].

(** The output of the script in the page. *)
Theorem page_served_witness :
  ∃ x, web_run 20 (replicate 20 0) 970 demo_rip demo_globals demo_state (replicate 970 0) (at970 (demo_before "/a.")) (demo_packet "pht") 970 (replicate 970 0) (at970 demo_after) = Some x ∧
    x.2 = Conn None (text_of http_header_200 ++ text_of http_content_type_html ++ txt "Hi 1+1!") true.
Proof.
  destruct (page_served 20 (replicate 20 0) 970 (txt "/a." ++ txt "pht") (txt "/a.pht") (Some []) demo_rip demo_globals demo_state (replicate 20 7) (replicate 970 0)
    (at970 (demo_before "/a.")) (demo_packet "pht") 970 (replicate 970 0) (at970 demo_after) (txt "/a") demo_items [txt "Hi "; txt "1+1"; txt "!"]) as (x & E & Ex).
  - exact demo_ready.
  - demo_request "/a." "pht".
  - reflexivity.
  - demo_absent.
  - demo_card_has.
  - vm_compute. congruence.
  - exact demo_runs.
  - exists x. split; [exact E|]. rewrite Ex. vm_compute. reflexivity.
Defined.

Theorem script_served_witness :
  ∃ x, web_run 20 (replicate 20 0) 970 demo_rip demo_globals demo_state (replicate 970 0) (at970 (demo_before "/b.")) (demo_packet "lua") 970 (replicate 970 0) (at970 demo_after) = Some x ∧
    x.2 = Conn None (text_of http_header_200 ++ text_of http_content_type_html ++ txt "1+1") true.
Proof.
  destruct (script_served 20 (replicate 20 0) 970 (txt "/b." ++ txt "lua") (txt "/b.lua") (Some []) demo_rip demo_globals demo_state (replicate 20 7) (replicate 970 0)
    (at970 (demo_before "/b.")) (demo_packet "lua") 970 (replicate 970 0) (at970 demo_after) (txt "/b") (txt "1+1") (txt "1+1")) as (x & E & Ex).
  - exact demo_ready.
  - demo_request "/b." "lua".
  - reflexivity.
  - demo_absent.
  - demo_card_has.
  - exact demo_script_writes.
  - exists x. split; [exact E|]. rewrite Ex. vm_compute. reflexivity.
Defined.

(** The file is on its way when it is retransmitted: the client gets three other bytes; without the retransmission it
    gets the file. *)
Theorem file_served_witness :
  let es' := [(Ack, replicate 970 0); (Ack, replicate 970 0); (Rexmit, replicate 970 7); (Ack, replicate 970 0)] in
  ∃ x, web_run 20 (replicate 20 0) 970 demo_rip demo_globals demo_state (replicate 970 0) (at970 (demo_before "/c.")) (demo_packet "css") 970 (replicate 970 0) (at970 es') = Some x ∧
    x.2 = Conn None (text_of http_header_200 ++ text_of http_content_type_css ++ [7; 7; 7]) true.
Proof.
  intros es'.
  destruct (file_served 20 (replicate 20 0) 970 (txt "/c." ++ txt "css") (txt "/c.css") (Some []) demo_rip demo_globals demo_state (replicate 20 7) (replicate 970 0)
    (at970 (demo_before "/c.")) (demo_packet "css") 970 (replicate 970 0) (at970 es') (txt "/c") (txt "css") http_content_type_css (txt "xyz")) as (x & E & Ex & _).
  - exact demo_ready.
  - demo_request "/c." "css".
  - reflexivity.
  - demo_absent.
  - right; left.
  - demo_card_has.
  - done.
  - exists x. split; [exact E|]. rewrite Ex. vm_compute. reflexivity.
Defined.

Theorem missing_served_witness :
  ∃ x, web_run 20 (replicate 20 0) 970 demo_rip demo_globals demo_state (replicate 970 0) (at970 (demo_before "/")) (demo_packet "d.gif") 970 (replicate 970 0) (at970 demo_acks) = Some x ∧
    x.2 = Conn None (text_of http_header_404 ++ text_of http_content_type_html ++ txt "no") true.
Proof.
  destruct (missing_served 20 (replicate 20 0) 970 (txt "/" ++ txt "d.gif") (txt "/d.gif") (Some []) demo_rip demo_globals demo_state (replicate 20 7) (replicate 970 0)
    (at970 (demo_before "/")) (demo_packet "d.gif") 970 (replicate 970 0) (at970 demo_acks) (txt "no")) as (x & E & Ex & H).
  - exact demo_ready.
  - demo_request "/" "d.gif".
  - done.
  - vm_compute. congruence.
  - vm_compute. reflexivity.
  - demo_card_has.
  - done.
  - exists x. split; [exact E|]. apply H; [repeat constructor; done|vm_compute; lia].
Defined.

(** ** What the server does not do *)

(** The twentieth poll in a row aborts the connection; the request that comes then is not answered. After nineteen it is. *)
Definition polled (n : nat) : option conn :=
  snd <$> web_run 20 (replicate 20 0) 970 demo_rip demo_globals demo_state (replicate 970 0)
    (at970 (replicate n (Poll, replicate 970 0))) (txt "GET /c.css HTTP/1.0" ++ crlf) 970 (replicate 970 0) (at970 [(Ack, replicate 970 0)]).

Example web_polls_abort :
  polled 19 = Some (Conn (Some (text_of http_content_type_css)) (text_of http_header_200) false) ∧ polled 20 = Some (Conn None [] true).
Proof. vm_compute. split; reflexivity. Qed.

(** An empty file is never sent: the connection has nothing in flight, and waits until the timer aborts it. *)
Definition empty_file (n : nat) : option conn :=
  let card := {| malloc := λ _, None; mmc := λ _, Some (Some 0, []) |} in
  snd <$> @web_run unit demo_core card 20 (replicate 20 0) 970 demo_rip demo_globals demo_state (replicate 970 0) []
    (txt "GET /e.css HTTP/1.0" ++ crlf) 970 (replicate 970 0) (at970 (replicate 2 (Ack, replicate 970 0) ++ replicate n (Poll, replicate 970 0))).

Example empty_file_hangs :
  empty_file 19 = Some (Conn None (text_of http_header_200 ++ text_of http_content_type_css) false) ∧
  empty_file 20 = Some (Conn None (text_of http_header_200 ++ text_of http_content_type_css) true).
Proof. vm_compute. split; reflexivity. Qed.
